(* ===== verification/_CoqProject ===== *)
-Q . S2P
Prelude.v
Nexus.v
Slices.v
Source.v
Framing.v
Analytics.v
Messages.v
Encode.v
RoundTrip.v
Counts.v
Decode.v
Memory.v
ObjDump.v
ObjDumpText.v
ObjDumpPrint.v
ObjDumpRead.v
ObjCode.v
Symbols.v
CText.v
SrcFiles.v
PropFile.v
ElfFile.v
NextAddr.v
Walk.v
Perf.v
PerfWriter.v
PerfTrip.v
State.v
Process.v
Retire.v
ItcPrint.v
ItcQueue.v
ItcText.v
Cycles.v
Settings.v
SettingsRead.v
NlsStrings.v
CyclesRead.v
NextInstr.v
Disasm.v
Described.v
Maps.v
Configure.v
MapsRead.v
Termination.v
Assembly.v
Swt.v
SwtTrip.v
Execution.v
Reconstruct.v
Whole.v
Properties.v
Companions.v
Theorems.v
Objects.v
Runs.v
Ctf.v
Floats.v
CtfRead.v
CtfStreams.v
Events.v
EventsRead.v
Outputs.v
BranchFlags.v
Listing.v
Vcd.v
VcdRead.v
SimLines.v
Simulator.v
SimRead.v
MsgText.v
MsgRead.v
AnalyticsText.v
AnalyticsRead.v
InstText.v
PerfText.v
PerfFileRead.v
Readers.v
Texts.v
