(* ===== verification/Prelude.v ===== *)
(** * A verification library for the trace decoder

    The program reads a RISC-V instruction trace in the Nexus format and gives
    back the instructions that were executed.  A trace message says how many
    halfwords of code were executed since the last message and which of the
    conditional branches among them were taken; the addresses come from walking
    the object code.  The library models that path, from the files to the
    instructions, and shows that it gives back the execution.  It also models what
    goes with the trace: text and counters that the traced program writes, the file of
    cycles, the server that shares a trace, and what is told of an instruction.

    ** The parts, and where they are

    The definitions follow the C++ function by function; paths are those of the
    repository's [src/] and [include/].  For a part of the program the first file
    named has its definitions, and the others what is proved about them.

    - [Prelude] (this file): machine integers, the monad of stateful computations
      that may return an error code or be undefined, lemmas and tactics.
    - [Nexus]: [class NexusMessage], its union [Body] and its accessors
      (dqr.hpp, dqr.cpp).
    - [Source]: the bytes, from a file or from a socket through a ring buffer
      ([SliceFileParser::bufferSWT]), behind the interface [ByteSource].
    - [Slices], [Framing], [Messages]: [SliceFileParser]: its field readers, the
      cutting of the byte stream into messages ([readBinaryMsg]), and the parser of
      each message type up to [readNextTraceMsg].  [Analytics] holds the counters
      that these and the state machine update.  [Encode], [RoundTrip]: a reference
      encoder, written from the layout of the messages, of which the parsers are the
      inverse.
    - [Counts]: [class Count] and [class AddrStack] (trace.hpp): the counts of the
      last message, and the return addresses.
    - [Decode]: the decoders of [class Disassembler]: the type, the registers and
      the offset of an instruction, for RV32 and RV64.
    - [Memory]: the code sections and [getInstructionByAddress], behind the
      interface [CodeMemory].
    - [NextAddr]: [Trace::nextAddr] and [getCRBRFlags] (trace.cpp).  [Walk]: a
      reference machine that runs a program, and the proof that [nextAddr] follows
      it from the counts of a message.
    - [State], [Process]: the arrays per core of [class Trace],
      [Trace::processTraceMessage], [processTS], [processPidPriv] and [resetTrace].
      [Retire]: what they do to the state.
    - [NextInstr]: the state machine, [Trace::NextInstruction].  [Termination]:
      that every call returns, and what it does at the end of a file and
      after an error.  [Execution], [Reconstruct]: the trace of an execution, and
      the proof that the calls of [NextInstruction] give that execution back.
    - [ObjDump]: the class that reads what the objdump program prints (dqr.cpp);
      [ObjDumpText], [ObjDumpPrint], [ObjDumpRead], [ObjCode]: the text of a dump, in
      whatever pieces it comes, and the code that is read from it.  [ElfFile]:
      [ElfReader].  [Symbols]: [Symtab].  [NlsStrings]: [parseNLSStrings].
    - [SrcFiles]: [fileReader] and [sanePath].  [Disasm]: [Disassembler] and [KMem]:
      the text, the symbol and the source line of an instruction.  [Described]:
      what is told of an address after a dump was read.
    - [CText], [PropFile], [Settings]: numbers in text, [propertiesParser] and
      [TraceSettings] (trace.cpp).  [SettingsRead]: files of settings
      are read back.  [Maps]: pids, mapping files and the [build] functions;
      [MapsRead]: mapping files are read back.
    - [Configure]: the constructors of [Trace] and [Trace::configure].  [Whole]: the
      decoder that they leave, and its composition with [Reconstruct].
    - [ItcPrint]: [ITCPrint] and [TsList] (dqr.cpp); [ItcQueue], [ItcText]: they are a
      queue of messages.  [Cycles]: [CATrace] and [CATraceRec]; [CyclesRead]: an
      instruction trace gives its bits in order.  [Perf]: [PerfConverter];
      [PerfWriter]: the library of the traced program that writes the counters
      (examples/perf_trace); [PerfTrip]: the converter reads what it writes.
      [Assembly]: these parts in the decoder.
    - [Swt]: the messages of the socket server (swt.cpp); [SwtTrip]: it hears what the
      encoder writes.
    - [Ctf]: [CTFConverter] (trace.cpp), its packets and its metadata; [CtfRead],
      [CtfStreams]: a reader of its streams, what each operation writes, and
      the streams of any sequence of calls.  [Events]: [EventConverter], its lines;
      [EventsRead]: a reader of the lines, and its files.
    - [Vcd]: [VCD] (vcd.cpp), which lists the run that a value change dump records;
      [SimLines], [Simulator]: [class Simulator] (dqr.cpp), which does so from the text that
      an ISA simulator prints for several cores.  [BranchFlags]: what both share.
      [Listing]: runs of a program, with interrupts, and the flags that are told of them.
      [VcdRead], [SimRead]: the records and the lines are read back, and listed as the runs.
    - [Floats]: [float] and [double] and how they are printed.  [MsgText]: the text of a
      message ([NexusMessage::messageToText], [dump]); [AnalyticsText]: the tables of
      [Analytics::toText]; [InstText]: the accessors of [Instruction] and [Source];
      [PerfText]: the files of [PerfConverter].  [MsgRead], [AnalyticsRead], [PerfFileRead]:
      readers of these texts, and the lengths of those that go to a buffer.
    - [Properties], [Companions], [Theorems], [Objects], [Runs], [Outputs],
      [Readers], [Texts]: the theorems, each with a witness: on the parts of the decoder, on
      the parts beside it, on the decoder, on object files, settings and mapping files, on
      all of them together, on the files that are written, on other records of a run, and on
      printed text.

    ** How they interact

    [configure] makes the processes: the objdump program is run on each object file, its
    output is read into sections and symbols, and an [ElfReader] and a
    [Disassembler] share them.  [NextInstruction] then runs a loop.  When the last
    message has been retired it calls
    [readNextTraceMsg], which calls [readBinaryMsg] on the byte source and then the
    parser of the message's type.  In the state [GETNEXTMSG] a message with counts
    is given to [Count::setCounts]; in the state [GETNEXTINSTRUCTION] each turn
    reads the instruction at the current address, lets [nextAddr] consume counts
    and find the next address, and returns the instruction; when the counts are
    used up, the state [RETIREMESSAGE] calls [processTraceMessage] for the address
    and the time the message carries.  The C++ members are fields of nested
    records, each function a computation on the part it uses: [SliceParser] in
    [Decoder], [Walker] (the counts and the memory) in [Trace] (the arrays per core,
    the processes and settings) in [Decoder].

    Interfaces separate the parts.  [ByteSource] (with [ByteSourceLaws]: there
    is a list of bytes to come, delivered in order; the file and the socket are
    instances).  [CodeMemory] (with [CodeMemoryLaws]: a read from a settled memory changes
    no later answer; [ElfReader] is an instance, and so is the memory of [Trace] over any
    kernel memory that is one; [KMem_memory] is the kernel's).  [PerfSink], [ItcSink],
    [CycleTrace] and [Disassembly] are what the state machine uses of [PerfConverter],
    [ITCPrint], [CATrace], and the disassemblers and the kernel; those are instances, and the theorems
    on the state machine hold for every one.  [Ending] says that the operations of these
    parts end.  [SliceAcceptor] is what the server's unwrapper hands slices to.  [Qsort], with
    [QsortLaws], is the C library's sort, of which nothing is assumed but that it
    sorts.  The calls of the CTF and event converters are a log in the state, which
    [convertAll] and [emitAll] run on the converters.

    ** What is shown

    - The whole path ([Runs.trace_from_files]): from a file of properties, the dump
      of an object file and a trace file that holds the messages of an execution of
      the dumped program, the constructor makes a [Trace] on which the calls of
      [NextInstruction] return exactly that execution.  [Theorems.trace_reconstructed]
      is its part from the bytes on, for every program and every instance of the
      interfaces.
    - Every call returns if errors are not tolerated ([call_returns]), and none does on an
      overlong message if they are ([overlong_message_hangs]).
    - Bytes to messages ([Properties], first part): the round trip with the
      encoder, the refinement of a reference that cuts a byte stream into
      messages, the ring buffer, the field readers, and what happens on errors.
    - Messages to addresses: the count types exclude each other, histories are
      read back, the return stack is a stack, [nextAddr] follows an execution from
      one message.  Messages to state: addresses and timestamps.
    - The instruction decoder: assembled jumps and branches are decoded.
    - Object files: a dump is fetched and described as it was printed
      ([dump_fetched], [dump_described]), however it is cut into pieces
      ([parse_pieces]); symbols are the nearest ([nearest_symbol]), paths are made
      sane ([path_made_sane]), no-load strings are read ([nls_strings_read]).
    - Settings and mapping files are read as what they say ([settings_read_back],
      [mappings_read_back]).
    - Beside the decoder: [ITCPrint] refines a queue ([itc_refined]), cycles come in order
      ([ca_instructions_in_order]), performance records are read back
      ([perf_read_back]), and a listener of the server hears every message from the first
      end on, unless what came before is undefined ([swt_joined]).
    - What is written: the streams of calls and returns, as far as their times have 32 bits from one event
      to the next, and the lines of events are read back, for whatever the decoder emits
      ([ctf_read_back], [events_read_back]).
    - Other records of a run, a value change dump or the text of a simulator, are listed as
      the runs of the cores, with the flags of the reference machine and the interrupts
      ([vcd_lists_run], [simulation_lists_runs]).
    - Printed text: that of a message fits its buffer, but three kinds of message print a
      member that was not written ([message_text_fits]); the table of the statistics says
      what was counted, for at most nine columns, in the columns of the cores, and in that of the total
      but for eleven rows: two have another total, and nine have none ([analytics_table_read]);
      the file of the performance counters is read back, with the source lines that the disassembler tells
      ([perf_file_read_back]).
    - Behaviour that differs from what the code means to do is stated as it is, for example
      in [message_text_fits], [analytics_table_read], [assembled_decoded], [var_field_value],
      [mappings_read_back], [simulation_lists_runs], [ctf_read_back], [swt_joined], [perf_read_back],
      [rejected_message_stops] and [swt_queue_undefined], and in the lemmas [rewind_new], [long_history_misread]
      and [two_lines_in_a_word].

    ** Bounds and fuel

    Integers are [Z], with every truncation of the C++ type written out ([u32],
    [i32], ...).  An array access out of bounds, a shift by the width or more, and
    the read of a field that was not written are [Undef], and the theorems show that they
    do not happen on the inputs they are about.  Loops whose length the code does
    not bound take fuel, and running out of it is a value of its own, [NoFuel].  In
    [readBinaryMsg] more fuel than the bytes to come is enough (64 for the body of
    a message, of at most 64 bytes); in [NextInstruction] four more than the bytes of
    the file are enough for every call ([call_returns]), since a turn
    without a return either reads a message or is followed by one that does.  For a
    dump more fuel than it has sections, symbols and blocks, and than a block has
    lines, is enough ([dump_ok]); for a file of settings, more than it has lines.

    ** What is not modelled

    What is only input and output: starting the objdump program, the sockets, the serial
    port and the threads of swt.cpp, the command lines of the programs, what is printed to
    the standard output about errors and times.  A file that is written is what was
    written to it; whether it can be opened is an argument.  [Perf] keeps the lines of the
    performance counters as a log of what they say, which [PerfText] makes text of.
    [trace_reconstructed] and [trace_from_files] are about one hart without an
    operating system, and history messages without full addresses; traces of several
    harts, branch traces, event traces and cycle-accurate traces are modelled in
    [NextInstr], and of these the single steps are proved. *)

From stdpp Require Export relations base tactics numbers list option.
From Stdlib Require Export ZArith Lia.
#[global] Open Scope Z_scope.

(** ** Machine integers

    An unsigned [w]-bit value is a [Z] kept in [0 <= x < 2 ^ w] by explicit
    truncation; a signed 32-bit value is a [Z] in [-2^31 <= x < 2^31]. *)

Definition wrap (w x : Z) : Z := x mod 2 ^ w.
Definition u8 (x : Z) : Z := wrap 8 x.
Definition u16 (x : Z) : Z := wrap 16 x.
Definition u32 (x : Z) : Z := wrap 32 x.
Definition u64 (x : Z) : Z := wrap 64 x.

Definition swrap (w x : Z) : Z :=
  if wrap w x <? 2 ^ (w - 1) then wrap w x else wrap w x - 2 ^ w.
Definition i32 (x : Z) : Z := swrap 32 x.

(** A shift of a 64-bit value by [n]: C++ leaves it undefined for [n >= 64]. *)
Definition shl64 (x n : Z) : option Z :=
  if (0 <=? n) && (n <? 64) then Some (u64 (Z.shiftl x n)) else None.

(** ** Computations with state, error codes and undefined behaviour

    [Ok s a]: the function returned normally with value [a];
    [Err s e]: it returned the error code [e];
    both in state [s].  [Undef]: the C++ execution has undefined behaviour
    (an array access out of bounds, a shift by at least the width).
    [NoFuel]: the bound on the number of loop iterations was too small. *)

Inductive Res (S E A : Type) : Type :=
| Ok (s : S) (a : A)
| Err (s : S) (e : E)
| Undef
| NoFuel.
Arguments Ok {S E A} s a.
Arguments Err {S E A} s e.
Arguments Undef {S E A}.
Arguments NoFuel {S E A}.

Definition M (S E A : Type) : Type := S -> Res S E A.

#[export] Instance M_ret {S E} : MRet (M S E) := fun A a s => Ok s a.
#[export] Instance M_bind {S E} : MBind (M S E) := fun A B k m s =>
  match m s with
  | Ok s' a => k a s'
  | Err s' e => Err s' e
  | Undef => Undef
  | NoFuel => NoFuel
  end.

Definition get {S E} : M S E S := fun s => Ok s s.
Definition gets {S E A} (f : S -> A) : M S E A := fun s => Ok s (f s).
Definition modify {S E} (f : S -> S) : M S E unit := fun s => Ok (f s) tt.
Definition throw {S E A} (e : E) : M S E A := fun s => Err s e.
Definition undef {S E A} : M S E A := fun _ => Undef.
Definition lift_opt {S E A} (o : option A) : M S E A := fun s =>
  match o with Some a => Ok s a | None => Undef end.

(** ** Sequencing lemmas *)

Section monad.
Context {S E : Type}.

Lemma bind_ok {A B} (m : M S E A) (k : A -> M S E B) s s' a :
  m s = Ok s' a -> (m ≫= k) s = k a s'.
Proof. unfold mbind, M_bind. by intros ->. Qed.

Lemma bind_err {A B} (m : M S E A) (k : A -> M S E B) s s' e :
  m s = Err s' e -> (m ≫= k) s = Err s' e.
Proof. unfold mbind, M_bind. by intros ->. Qed.

(** A computation that returns normally did so through each of its steps. *)
Lemma bind_inv {A B} (m : M S E A) (k : A -> M S E B) s s' b :
  (m ≫= k) s = Ok s' b ->
  exists s1 a, m s = Ok s1 a /\ k a s1 = Ok s' b.
Proof.
  unfold mbind, M_bind. destruct (m s) as [s1 a| | |] eqn:E1; intros; [eauto|done..].
Qed.

Lemma ret_bind {A B} (a : A) (k : A -> M S E B) s : (mret a ≫= k) s = k a s.
Proof. reflexivity. Qed.

Lemma bind_get {A} (k : S -> M S E A) s : (get ≫= k) s = k s s.
Proof. reflexivity. Qed.

Lemma bind_modify {A} (f : S -> S) (k : unit -> M S E A) s : (modify f ≫= k) s = k tt (f s).
Proof. reflexivity. Qed.

Lemma lift_bind {A B} (a : A) (k : A -> M S E B) s : (lift_opt (Some a) ≫= k) s = k a s.
Proof. reflexivity. Qed.

Lemma bind_ret {A} (m : M S E A) s : (m ≫= mret) s = m s.
Proof. unfold mbind, M_bind, mret, M_ret. by destruct (m s). Qed.

Lemma bind_assoc {A B C} (m : M S E A) (f : A -> M S E B) (g : B -> M S E C) s :
  ((m ≫= f) ≫= g) s = (m ≫= (fun a => f a ≫= g)) s.
Proof. unfold mbind, M_bind. by destruct (m s). Qed.

(** [m] leaves alone whatever [f] reads of the state, on every exit. *)
Definition preserves {A P} (f : S -> P) (m : M S E A) : Prop :=
  forall s, match m s with
            | Ok s' _ | Err s' _ => f s' = f s
            | Undef | NoFuel => True
            end.

Lemma preserves_bind {A B P} (f : S -> P) (m : M S E A) (k : A -> M S E B) :
  preserves f m -> (forall a, preserves f (k a)) -> preserves f (m ≫= k).
Proof.
  intros Hm Hk s. unfold mbind, M_bind. specialize (Hm s).
  destruct (m s) as [s1 a|s1 e| |]; try done.
  specialize (Hk a s1). destruct (k a s1); congruence.
Qed.

Lemma preserves_ret {A P} (f : S -> P) (a : A) : preserves f (mret a).
Proof. by intros s. Qed.

Lemma preserves_throw {A P} (f : S -> P) (e : E) : preserves f (throw (A:=A) e).
Proof. by intros s. Qed.

Lemma preserves_gets {A P} (f : S -> P) (g : S -> A) : preserves f (gets g).
Proof. by intros s. Qed.

Lemma preserves_modify {P} (f : S -> P) (g : S -> S) :
  (forall s, f (g s) = f s) -> preserves f (modify g).
Proof. intros H s. apply H. Qed.

Lemma preserves_lift_opt {A P} (f : S -> P) (o : option A) :
  preserves f (lift_opt o).
Proof. by intros s; destruct o. Qed.
End monad.

Create HintDb dqr.
Create Rewrite HintDb dqr_bits.
#[export] Hint Resolve preserves_bind preserves_ret preserves_throw
  preserves_gets preserves_modify preserves_lift_opt : dqr.

(** ** Bounds and truncation *)

Lemma pow2_pos n : 0 <= n -> 0 < 2 ^ n.
Proof. intros. by apply Z.pow_pos_nonneg. Qed.

Lemma wrap_bounds w x : 0 <= w -> 0 <= wrap w x < 2 ^ w.
Proof. intros. apply Z.mod_pos_bound. by apply pow2_pos. Qed.

Lemma wrap_small w x : 0 <= x < 2 ^ w -> wrap w x = x.
Proof. apply Z.mod_small. Qed.

Lemma wrap_wrap w x : wrap w (wrap w x) = wrap w x.
Proof. apply Zmod_mod. Qed.

Lemma u8_small x : 0 <= x < 256 -> u8 x = x.
Proof. apply (wrap_small 8). Qed.
Lemma u32_small x : 0 <= x < 2 ^ 32 -> u32 x = x.
Proof. apply (wrap_small 32). Qed.
Lemma u64_small x : 0 <= x < 2 ^ 64 -> u64 x = x.
Proof. apply (wrap_small 64). Qed.
Lemma u64_bounds x : 0 <= u64 x < 2 ^ 64.
Proof. by apply wrap_bounds. Qed.
Lemma u32_bounds x : 0 <= u32 x < 2 ^ 32.
Proof. by apply wrap_bounds. Qed.
Lemma u8_bounds x : 0 <= u8 x < 256.
Proof. by apply (wrap_bounds 8). Qed.

Lemma i32_small x : - 2 ^ 31 <= x < 2 ^ 31 -> i32 x = x.
Proof.
  intros H. unfold i32, swrap, wrap.
  destruct (decide (0 <= x)) as [Hx|Hx].
  - rewrite Z.mod_small by lia. destruct (Z.ltb_spec x (2 ^ (32 - 1))); lia.
  - replace (x mod 2 ^ 32) with (x + 2 ^ 32)
      by (apply Z.mod_unique with (-1); lia).
    destruct (Z.ltb_spec (x + 2 ^ 32) (2 ^ (32 - 1))); lia.
Qed.

Lemma i32_bounds x : - 2 ^ 31 <= i32 x < 2 ^ 31.
Proof.
  unfold i32, swrap. pose proof (wrap_bounds 32 x ltac:(done)).
  destruct (Z.ltb_spec (wrap 32 x) (2 ^ (32 - 1))); lia.
Qed.

Lemma shl64_small x n :
  0 <= n < 64 -> shl64 x n = Some (u64 (x * 2 ^ n)).
Proof.
  intros H. unfold shl64.
  destruct (Z.leb_spec 0 n), (Z.ltb_spec n 64); try lia; simpl.
  by rewrite Z.shiftl_mul_pow2 by lia.
Qed.

Lemma shl64_undef x n : 64 <= n -> shl64 x n = None.
Proof.
  intros. unfold shl64. destruct (Z.leb_spec 0 n), (Z.ltb_spec n 64); try lia; done.
Qed.

#[export] Hint Resolve pow2_pos u64_bounds u32_bounds u8_bounds i32_bounds : dqr.

(** ** Bit fields *)

(** [slice x lo w]: the [w] bits of [x] from bit [lo] up. *)
Definition slice (x lo w : Z) : Z := (x / 2 ^ lo) mod 2 ^ w.

Lemma slice_bounds x lo w : 0 <= w -> 0 <= slice x lo w < 2 ^ w.
Proof. intros. apply Z.mod_pos_bound, pow2_pos. lia. Qed.

Lemma slice_testbit x lo w i :
  0 <= lo -> 0 <= w -> 0 <= i ->
  Z.testbit (slice x lo w) i = (i <? w) && Z.testbit x (i + lo).
Proof.
  intros. unfold slice. rewrite Z.testbit_mod_pow2 by lia.
  f_equal. by rewrite Z.div_pow2_bits by lia.
Qed.

Lemma lor_disjoint_add a b n :
  0 <= n -> 0 <= a < 2 ^ n -> Z.lor a (b * 2 ^ n) = a + b * 2 ^ n.
Proof.
  intros Hn Ha. rewrite <-Z.shiftl_mul_pow2 by lia.
  assert (Z.land a (Z.shiftl b n) = 0) as Hz.
  { apply Z.bits_inj'. intros i Hi. rewrite Z.land_spec, Z.bits_0.
    destruct (Z.ltb_spec i n).
    - rewrite Z.shiftl_spec_low by lia. apply andb_false_r.
    - rewrite <-(Z.mod_small a (2 ^ n)) by lia.
      by rewrite Z.mod_pow2_bits_high by lia. }
  by rewrite <-Z.lxor_lor, <-Z.add_nocarry_lxor by done.
Qed.

Lemma land_ones_mod x n : 0 <= n -> Z.land x (Z.ones n) = x mod 2 ^ n.
Proof. apply Z.land_ones. Qed.
Lemma land_3 x : Z.land x 3 = x mod 4.
Proof. apply (Z.land_ones x 2). lia. Qed.
Lemma land_1 x : Z.land x 1 = x mod 2.
Proof. apply (Z.land_ones x 1). lia. Qed.

Lemma testbit_high x n i : 0 <= n -> 0 <= x < 2 ^ n -> n <= i -> Z.testbit x i = false.
Proof.
  intros. rewrite <-(Z.mod_small x (2 ^ n)) by lia. apply Z.mod_pow2_bits_high. lia.
Qed.

Lemma div_pow2_bound x a b :
  0 <= a -> 0 <= b -> 0 <= x < 2 ^ (a + b) -> 0 <= x / 2 ^ a < 2 ^ b.
Proof.
  intros Ha Hb Hx. rewrite Z.pow_add_r in Hx by lia.
  pose proof (pow2_pos a Ha). split; [apply Z.div_pos; lia|].
  apply Z.div_lt_upper_bound; lia.
Qed.

Lemma div_div_pow2 x a b : 0 <= a -> 0 <= b -> x / 2 ^ a / 2 ^ b = x / 2 ^ (a + b).
Proof.
  intros. rewrite Z.div_div by (pose proof (pow2_pos a); pose proof (pow2_pos b); lia).
  by rewrite Z.pow_add_r by lia.
Qed.

Lemma mod_mod_pow2 x a b : 0 <= a <= b -> (x mod 2 ^ b) mod 2 ^ a = x mod 2 ^ a.
Proof.
  intros. apply Z.bits_inj'. intros i Hi. rewrite !Z.testbit_mod_pow2 by lia.
  destruct (Z.ltb_spec i a), (Z.ltb_spec i b); try lia; done.
Qed.

Lemma mod_div_pow2 x a b : 0 <= a -> 0 <= b -> (x mod 2 ^ (a + b)) / 2 ^ a = (x / 2 ^ a) mod 2 ^ b.
Proof.
  intros. apply Z.bits_inj'. intros i Hi.
  rewrite Z.div_pow2_bits, !Z.testbit_mod_pow2, Z.div_pow2_bits by lia.
  destruct (Z.ltb_spec (i + a) (a + b)), (Z.ltb_spec i b); try lia; done.
Qed.

(** Reading [a] low bits and then [b] more is reading [a + b] bits. *)
Lemma mod_split x a b :
  0 <= a -> 0 <= b -> x mod 2 ^ a + (x / 2 ^ a) mod 2 ^ b * 2 ^ a = x mod 2 ^ (a + b).
Proof.
  intros. rewrite <-mod_div_pow2 by lia.
  rewrite <-(mod_mod_pow2 x a (a + b)) by lia.
  pose proof (Z.div_mod (x mod 2 ^ (a + b)) (2 ^ a) ltac:(pose proof (pow2_pos a); lia)). lia.
Qed.

(** Bitwise equality of two expressions: compare bit [i] for every [i]. *)
#[export] Hint Rewrite Z.lor_spec Z.land_spec Z.lxor_spec Z.bits_0
  Z.shiftr_spec Z.shiftl_spec Z.testbit_mod_pow2 Z.div_pow2_bits Z.testbit_ones_nonneg
  slice_testbit using lia : dqr_bits.
Ltac bitwise i :=
  apply Z.bits_inj'; intros i ?Hi; autorewrite with dqr_bits.

Lemma lxor_bound n a b : 0 <= n -> 0 <= a < 2 ^ n -> 0 <= b < 2 ^ n -> 0 <= Z.lxor a b < 2 ^ n.
Proof.
  intros Hn Ha Hb. assert (Z.lxor a b = Z.lxor a b mod 2 ^ n) as ->.
  { bitwise i. destruct (Z.ltb_spec i n); [done|]. by rewrite !(testbit_high _ n) by lia. }
  apply Z.mod_pos_bound, pow2_pos, Hn.
Qed.

(** [lia] with division and modulo by constants. *)
Ltac dlia := intros; Z.to_euclidean_division_equations; lia.

(** Split on the comparisons of the goal, dropping the impossible cases. *)
Ltac case_cmp :=
  repeat match goal with
  | |- context [?a <? ?b] => destruct (Z.ltb_spec a b); try (exfalso; lia)
  | |- context [?a <=? ?b] => destruct (Z.leb_spec a b); try (exfalso; lia)
  | |- context [?a =? ?b] => destruct (Z.eqb_spec a b); try (exfalso; lia)
  end; cbn [andb orb negb xorb].
