(* ===== verification/Nexus.v ===== *)
(** * Nexus: the message type of the decoder (include/dqr.hpp, [TraceDqr] and
    [NexusMessage]; the accessors of src/dqr.cpp).

    The C++ [NexusMessage] holds a union with one struct per trace message
    type.  [Body] has one constructor per struct; a field the parser may leave
    unwritten is an [option].  An accessor returns [None] when it would read a
    struct of the union that is not the active one, or a field that was never
    written; the accessors return their default value ([0], [-1], ...) exactly
    where the code does. *)

From S2P Require Import Prelude.

(** ** Enumerations of [TraceDqr] *)

Inductive DQErr :=
| DQERR_OK | DQERR_OPEN | DQERR_EOF | DQERR_EOM | DQERR_BM | DQERR_ERR | DQERR_DONE.
#[export] Instance DQErr_eq_dec : EqDecision DQErr.
Proof. solve_decision. Defined.

Inductive TCode :=
| TCODE_DEBUG_STATUS | TCODE_DEVICE_ID | TCODE_OWNERSHIP_TRACE | TCODE_DIRECT_BRANCH
| TCODE_INDIRECT_BRANCH | TCODE_DATA_WRITE | TCODE_DATA_READ | TCODE_DATA_ACQUISITION
| TCODE_ERROR | TCODE_SYNC | TCODE_CORRECTION | TCODE_DIRECT_BRANCH_WS
| TCODE_INDIRECT_BRANCH_WS | TCODE_DATA_WRITE_WS | TCODE_DATA_READ_WS | TCODE_WATCHPOINT
| TCODE_OUTPUT_PORTREPLACEMENT | TCODE_INPUT_PORTREPLACEMENT | TCODE_AUXACCESS_READ
| TCODE_AUXACCESS_WRITE | TCODE_AUXACCESS_READNEXT | TCODE_AUXACCESS_WRITENEXT
| TCODE_AUXACCESS_RESPONSE | TCODE_RESOURCEFULL | TCODE_INDIRECTBRANCHHISTORY
| TCODE_INDIRECTBRANCHHISTORY_WS | TCODE_REPEATBRANCH | TCODE_REPEATINSTRUCTION
| TCODE_REPEATINSTRUCTION_WS | TCODE_CORRELATION | TCODE_INCIRCUITTRACE
| TCODE_INCIRCUITTRACE_WS | TCODE_UNDEFINED.
#[export] Instance TCode_eq_dec : EqDecision TCode.
Proof. solve_decision. Defined.

(** The value of the enumerator in the header. *)
Definition tcode_val (t : TCode) : Z :=
  match t with
  | TCODE_DEBUG_STATUS => 0 | TCODE_DEVICE_ID => 1 | TCODE_OWNERSHIP_TRACE => 2
  | TCODE_DIRECT_BRANCH => 3 | TCODE_INDIRECT_BRANCH => 4 | TCODE_DATA_WRITE => 5
  | TCODE_DATA_READ => 6 | TCODE_DATA_ACQUISITION => 7 | TCODE_ERROR => 8
  | TCODE_SYNC => 9 | TCODE_CORRECTION => 10 | TCODE_DIRECT_BRANCH_WS => 11
  | TCODE_INDIRECT_BRANCH_WS => 12 | TCODE_DATA_WRITE_WS => 13 | TCODE_DATA_READ_WS => 14
  | TCODE_WATCHPOINT => 15 | TCODE_OUTPUT_PORTREPLACEMENT => 20
  | TCODE_INPUT_PORTREPLACEMENT => 21 | TCODE_AUXACCESS_READ => 22
  | TCODE_AUXACCESS_WRITE => 23 | TCODE_AUXACCESS_READNEXT => 24
  | TCODE_AUXACCESS_WRITENEXT => 25 | TCODE_AUXACCESS_RESPONSE => 26
  | TCODE_RESOURCEFULL => 27 | TCODE_INDIRECTBRANCHHISTORY => 28
  | TCODE_INDIRECTBRANCHHISTORY_WS => 29 | TCODE_REPEATBRANCH => 30
  | TCODE_REPEATINSTRUCTION => 31 | TCODE_REPEATINSTRUCTION_WS => 32
  | TCODE_CORRELATION => 33 | TCODE_INCIRCUITTRACE => 34 | TCODE_INCIRCUITTRACE_WS => 35
  | TCODE_UNDEFINED => 36
  end.

Definition tcodes : list TCode :=
  [TCODE_DEBUG_STATUS; TCODE_DEVICE_ID; TCODE_OWNERSHIP_TRACE; TCODE_DIRECT_BRANCH;
   TCODE_INDIRECT_BRANCH; TCODE_DATA_WRITE; TCODE_DATA_READ; TCODE_DATA_ACQUISITION;
   TCODE_ERROR; TCODE_SYNC; TCODE_CORRECTION; TCODE_DIRECT_BRANCH_WS;
   TCODE_INDIRECT_BRANCH_WS; TCODE_DATA_WRITE_WS; TCODE_DATA_READ_WS; TCODE_WATCHPOINT;
   TCODE_OUTPUT_PORTREPLACEMENT; TCODE_INPUT_PORTREPLACEMENT; TCODE_AUXACCESS_READ;
   TCODE_AUXACCESS_WRITE; TCODE_AUXACCESS_READNEXT; TCODE_AUXACCESS_WRITENEXT;
   TCODE_AUXACCESS_RESPONSE; TCODE_RESOURCEFULL; TCODE_INDIRECTBRANCHHISTORY;
   TCODE_INDIRECTBRANCHHISTORY_WS; TCODE_REPEATBRANCH; TCODE_REPEATINSTRUCTION;
   TCODE_REPEATINSTRUCTION_WS; TCODE_CORRELATION; TCODE_INCIRCUITTRACE;
   TCODE_INCIRCUITTRACE_WS; TCODE_UNDEFINED].

(** The enumerator with a given value, if there is one. *)
Definition tcode_of (v : Z) : option TCode :=
  snd <$> list_find (fun t => tcode_val t = v) tcodes.

(** The MSEO bits of a slice. *)
Definition MSEO_NORMAL : Z := 0.
Definition MSEO_VAR_END : Z := 1.
Definition MSEO_END : Z := 3.

(** An enumeration the code casts a bit field to: a value with no enumerator is
    [.._reserved]. *)
Inductive SyncReason :=
| SYNC_EVTI | SYNC_EXIT_RESET | SYNC_T_CNT | SYNC_EXIT_DEBUG | SYNC_I_CNT_OVERFLOW
| SYNC_TRACE_ENABLE | SYNC_WATCHPINT | SYNC_FIFO_OVERRUN | SYNC_EXIT_POWERDOWN
| SYNC_MESSAGE_CONTENTION | SYNC_PC_SAMPLE | SYNC_NONE | SYNC_reserved (v : Z).

Definition sync_of (v : Z) : SyncReason :=
  match v with
  | 0 => SYNC_EVTI | 1 => SYNC_EXIT_RESET | 2 => SYNC_T_CNT | 3 => SYNC_EXIT_DEBUG
  | 4 => SYNC_I_CNT_OVERFLOW | 5 => SYNC_TRACE_ENABLE | 6 => SYNC_WATCHPINT
  | 7 => SYNC_FIFO_OVERRUN | 9 => SYNC_EXIT_POWERDOWN | 11 => SYNC_MESSAGE_CONTENTION
  | 15 => SYNC_PC_SAMPLE | 16 => SYNC_NONE | _ => SYNC_reserved v
  end.

Inductive ICTReason :=
| ICT_CONTROL | ICT_EXT_TRIG | ICT_INFERABLECALL | ICT_EXCEPTION | ICT_INTERRUPT
| ICT_CONTEXT | ICT_WATCHPOINT | ICT_PC_SAMPLE | ICT_NONE | ICT_reserved (v : Z).

Definition ict_of (v : Z) : ICTReason :=
  match v with
  | 0 => ICT_CONTROL | 8 => ICT_EXT_TRIG | 9 => ICT_INFERABLECALL | 10 => ICT_EXCEPTION
  | 11 => ICT_INTERRUPT | 13 => ICT_CONTEXT | 14 => ICT_WATCHPOINT | 15 => ICT_PC_SAMPLE
  | 16 => ICT_NONE | _ => ICT_reserved v
  end.

Inductive BType := BTYPE_INDIRECT | BTYPE_EXCEPTION | BTYPE_HARDWARE | BTYPE_UNDEFINED.

(** The parsers cast a two-bit field, so [3] is the only other value. *)
Definition btype_of (v : Z) : BType :=
  match v with
  | 0 => BTYPE_INDIRECT | 1 => BTYPE_EXCEPTION | 2 => BTYPE_HARDWARE | _ => BTYPE_UNDEFINED
  end.

#[export] Instance SyncReason_eq_dec : EqDecision SyncReason.
Proof. solve_decision. Defined.
#[export] Instance ICTReason_eq_dec : EqDecision ICTReason.
Proof. solve_decision. Defined.
#[export] Instance BType_eq_dec : EqDecision BType.
Proof. solve_decision. Defined.

(** ** The message *)

(** The inner union of [resourceFull]. *)
Inductive RData :=
| R_i_cnt (i_cnt : Z)
| R_history (history : Z)
| R_notTakenCount (n : Z)
| R_takenCount (n : Z).

Inductive Body :=
| B_none
| B_directBranch (i_cnt : Z)
| B_indirectBranch (i_cnt u_addr : Z) (b_type : BType)
| B_directBranchWS (i_cnt f_addr : Z) (sync : SyncReason)
| B_indirectBranchWS (i_cnt f_addr : Z) (b_type : BType) (sync : SyncReason)
| B_indirectHistory (i_cnt u_addr : Z) (b_type : BType) (history : Z)
| B_indirectHistoryWS (i_cnt f_addr : Z) (b_type : BType) (history : Z) (sync : SyncReason)
| B_resourceFull (rCode : Z) (rdata : RData)
| B_sync (i_cnt f_addr : Z) (sync : SyncReason)
| B_error (etype : Z)
| B_correlation (history : option Z) (i_cnt cdf evcode : Z)
| B_auxAccessWrite (data addr : Z)
| B_dataAcquisition (idTag data : Z)
| B_ownership (pid v prv tag : Z)
| B_ict (cksrc : ICTReason) (ckdf : Z) (ckdata0 : Z) (ckdata1 : option Z)
| B_ictWS (cksrc : ICTReason) (ckdf : Z) (ckdata0 : Z) (ckdata1 : option Z).

Record NexusMessage := {
  nm_msgNum : Z;
  nm_tcode : TCode;
  nm_haveTimestamp : bool;
  nm_timestamp : Z;
  nm_currentAddress : Z;
  nm_time : Z;
  nm_coreId : Z;
  nm_prv : Z;
  nm_pid : Z;
  nm_body : Body;
  nm_offset : Z;
  nm_rawData : list Z;
}.

(** [NexusMessage::NexusMessage()] *)
Definition newNexusMessage : NexusMessage := {|
  nm_msgNum := 0; nm_tcode := TCODE_UNDEFINED; nm_haveTimestamp := false;
  nm_timestamp := 0; nm_currentAddress := 0; nm_time := 0; nm_coreId := 0;
  nm_prv := 0; nm_pid := 0; nm_body := B_none; nm_offset := 0;
  nm_rawData := replicate 32 255;
|}.

Definition set_head (t : TCode) (core : Z) (nm : NexusMessage) : NexusMessage := {|
  nm_msgNum := nm_msgNum nm; nm_tcode := t; nm_haveTimestamp := nm_haveTimestamp nm;
  nm_timestamp := nm_timestamp nm; nm_currentAddress := nm_currentAddress nm;
  nm_time := nm_time nm; nm_coreId := core; nm_prv := nm_prv nm; nm_pid := nm_pid nm;
  nm_body := nm_body nm; nm_offset := nm_offset nm; nm_rawData := nm_rawData nm |}.

Definition set_body (b : Body) (nm : NexusMessage) : NexusMessage := {|
  nm_msgNum := nm_msgNum nm; nm_tcode := nm_tcode nm; nm_haveTimestamp := nm_haveTimestamp nm;
  nm_timestamp := nm_timestamp nm; nm_currentAddress := nm_currentAddress nm;
  nm_time := nm_time nm; nm_coreId := nm_coreId nm; nm_prv := nm_prv nm; nm_pid := nm_pid nm;
  nm_body := b; nm_offset := nm_offset nm; nm_rawData := nm_rawData nm |}.

Definition set_ts (ts : option Z) (nm : NexusMessage) : NexusMessage := {|
  nm_msgNum := nm_msgNum nm; nm_tcode := nm_tcode nm;
  nm_haveTimestamp := bool_decide (is_Some ts);
  nm_timestamp := default 0 ts; nm_currentAddress := nm_currentAddress nm;
  nm_time := nm_time nm; nm_coreId := nm_coreId nm; nm_prv := nm_prv nm; nm_pid := nm_pid nm;
  nm_body := nm_body nm; nm_offset := nm_offset nm; nm_rawData := nm_rawData nm |}.

Definition set_msgNum (n : Z) (nm : NexusMessage) : NexusMessage := {|
  nm_msgNum := n; nm_tcode := nm_tcode nm; nm_haveTimestamp := nm_haveTimestamp nm;
  nm_timestamp := nm_timestamp nm; nm_currentAddress := nm_currentAddress nm;
  nm_time := nm_time nm; nm_coreId := nm_coreId nm; nm_prv := nm_prv nm; nm_pid := nm_pid nm;
  nm_body := nm_body nm; nm_offset := nm_offset nm; nm_rawData := nm_rawData nm |}.

Definition set_raw (off : Z) (raw : list Z) (nm : NexusMessage) : NexusMessage := {|
  nm_msgNum := nm_msgNum nm; nm_tcode := nm_tcode nm; nm_haveTimestamp := nm_haveTimestamp nm;
  nm_timestamp := nm_timestamp nm; nm_currentAddress := nm_currentAddress nm;
  nm_time := nm_time nm; nm_coreId := nm_coreId nm; nm_prv := nm_prv nm; nm_pid := nm_pid nm;
  nm_body := nm_body nm; nm_offset := off; nm_rawData := raw |}.

(** The struct of the union that is active for a message type. *)
Definition body_matches (t : TCode) (b : Body) : bool :=
  match t, b with
  | TCODE_DIRECT_BRANCH, B_directBranch _
  | TCODE_INDIRECT_BRANCH, B_indirectBranch _ _ _
  | TCODE_DIRECT_BRANCH_WS, B_directBranchWS _ _ _
  | TCODE_INDIRECT_BRANCH_WS, B_indirectBranchWS _ _ _ _
  | TCODE_INDIRECTBRANCHHISTORY, B_indirectHistory _ _ _ _
  | TCODE_INDIRECTBRANCHHISTORY_WS, B_indirectHistoryWS _ _ _ _ _
  | TCODE_SYNC, B_sync _ _ _
  | TCODE_ERROR, B_error _
  | TCODE_AUXACCESS_WRITE, B_auxAccessWrite _ _
  | TCODE_DATA_ACQUISITION, B_dataAcquisition _ _
  | TCODE_OWNERSHIP_TRACE, B_ownership _ _ _ _ => true
  | TCODE_RESOURCEFULL, B_resourceFull 0 (R_i_cnt _)
  | TCODE_RESOURCEFULL, B_resourceFull 1 (R_history _)
  | TCODE_RESOURCEFULL, B_resourceFull 8 (R_notTakenCount _)
  | TCODE_RESOURCEFULL, B_resourceFull 9 (R_takenCount _) => true
  | TCODE_CORRELATION, B_correlation None _ 0 _
  | TCODE_CORRELATION, B_correlation (Some _) _ 1 _ => true
  | TCODE_INCIRCUITTRACE, B_ict _ 0 _ None
  | TCODE_INCIRCUITTRACE, B_ict _ 1 _ (Some _)
  | TCODE_INCIRCUITTRACE_WS, B_ictWS _ 0 _ None
  | TCODE_INCIRCUITTRACE_WS, B_ictWS _ 1 _ (Some _) => true
  | _, _ => false
  end.

(** ** Branch histories *)

(** The outcomes a history word stands for, the first branch first: the bits
    below the stop bit, from the most significant one down. *)
Fixpoint outcomes (n : nat) (h : Z) : list bool :=
  match n with
  | O => []
  | S n => Z.testbit h (Z.of_nat n) :: outcomes n h
  end.

(** ** Accessors *)

Section accessors.
Context (nm : NexusMessage).

Definition getI_Cnt : option Z :=
  match nm_tcode nm with
  | TCODE_DIRECT_BRANCH =>
      match nm_body nm with B_directBranch i => Some i | _ => None end
  | TCODE_INDIRECT_BRANCH =>
      match nm_body nm with B_indirectBranch i _ _ => Some i | _ => None end
  | TCODE_SYNC =>
      match nm_body nm with B_sync i _ _ => Some i | _ => None end
  | TCODE_DIRECT_BRANCH_WS =>
      match nm_body nm with B_directBranchWS i _ _ => Some i | _ => None end
  | TCODE_INDIRECT_BRANCH_WS =>
      match nm_body nm with B_indirectBranchWS i _ _ _ => Some i | _ => None end
  | TCODE_CORRELATION =>
      match nm_body nm with B_correlation _ i _ _ => Some i | _ => None end
  | TCODE_INDIRECTBRANCHHISTORY =>
      match nm_body nm with B_indirectHistory i _ _ _ => Some i | _ => None end
  | TCODE_INDIRECTBRANCHHISTORY_WS =>
      match nm_body nm with B_indirectHistoryWS i _ _ _ _ => Some i | _ => None end
  | TCODE_RESOURCEFULL =>
      match nm_body nm with
      | B_resourceFull rCode rd =>
          if rCode =? 0 then match rd with R_i_cnt i => Some i | _ => None end
          else Some 0
      | _ => None
      end
  | _ => Some 0
  end.

(** [ADDRESS] is 64-bit unsigned: the accessors' [return -1]. *)
Definition ADDRESS_NONE : Z := 2 ^ 64 - 1.

(** The address an in-circuit trace message carries in [ckdata[0]], shared by
    [getU_Addr] and [getF_Addr]. *)
Definition ict_addr (cksrc : ICTReason) (ckdf ckdata0 : Z) : Z :=
  match cksrc with
  | ICT_EXT_TRIG => ckdata0
  | ICT_CONTROL => if ckdf =? 1 then ckdata0 else ADDRESS_NONE
  | ICT_INFERABLECALL =>
      if ckdf =? 0 then ckdata0 else if ckdf =? 1 then ckdata0 else ADDRESS_NONE
  | ICT_EXCEPTION | ICT_INTERRUPT | ICT_CONTEXT | ICT_WATCHPOINT | ICT_PC_SAMPLE => ckdata0
  | ICT_NONE | ICT_reserved _ => ADDRESS_NONE
  end.

Definition getU_Addr : option Z :=
  match nm_tcode nm with
  | TCODE_INDIRECT_BRANCH =>
      match nm_body nm with B_indirectBranch _ u _ => Some u | _ => None end
  | TCODE_INDIRECTBRANCHHISTORY =>
      match nm_body nm with B_indirectHistory _ u _ _ => Some u | _ => None end
  | TCODE_INCIRCUITTRACE =>
      match nm_body nm with
      | B_ict src df d0 _ => Some (ict_addr src df d0)
      | _ => None
      end
  | _ => Some ADDRESS_NONE
  end.

Definition getF_Addr : option Z :=
  match nm_tcode nm with
  | TCODE_DIRECT_BRANCH_WS =>
      match nm_body nm with B_directBranchWS _ f _ => Some f | _ => None end
  | TCODE_INDIRECT_BRANCH_WS =>
      match nm_body nm with B_indirectBranchWS _ f _ _ => Some f | _ => None end
  | TCODE_SYNC =>
      match nm_body nm with B_sync _ f _ => Some f | _ => None end
  | TCODE_INDIRECTBRANCHHISTORY_WS =>
      match nm_body nm with B_indirectHistoryWS _ f _ _ _ => Some f | _ => None end
  | TCODE_INCIRCUITTRACE_WS =>
      match nm_body nm with
      | B_ictWS src df d0 _ => Some (ict_addr src df d0)
      | _ => None
      end
  | _ => Some ADDRESS_NONE
  end.

(** The call or return target; [ict] and [ictWS] are the same struct, so the
    code may read [ict.ckdata[1]] for both. *)
Definition getICTCallReturnTarget : option Z :=
  let target src df d1 :=
    if decide (src = ICT_INFERABLECALL) then
      if df =? 0 then d1
      else (fun d => Z.lxor (nm_currentAddress nm) (u64 (Z.shiftl d 1))) <$> d1
    else Some ADDRESS_NONE in
  match nm_tcode nm with
  | TCODE_INCIRCUITTRACE =>
      match nm_body nm with B_ict src df _ d1 => target src df d1 | _ => None end
  | TCODE_INCIRCUITTRACE_WS =>
      match nm_body nm with B_ictWS src df _ d1 => target src df d1 | _ => None end
  | _ => Some ADDRESS_NONE
  end.

Definition getB_Type : option BType :=
  match nm_tcode nm with
  | TCODE_INDIRECT_BRANCH =>
      match nm_body nm with B_indirectBranch _ _ b => Some b | _ => None end
  | TCODE_INDIRECT_BRANCH_WS =>
      match nm_body nm with B_indirectBranchWS _ _ b _ => Some b | _ => None end
  | TCODE_INDIRECTBRANCHHISTORY =>
      match nm_body nm with B_indirectHistory _ _ b _ => Some b | _ => None end
  | TCODE_INDIRECTBRANCHHISTORY_WS =>
      match nm_body nm with B_indirectHistoryWS _ _ b _ _ => Some b | _ => None end
  | _ => Some BTYPE_UNDEFINED
  end.

Definition getSyncReason : option SyncReason :=
  match nm_tcode nm with
  | TCODE_SYNC => match nm_body nm with B_sync _ _ s => Some s | _ => None end
  | TCODE_DIRECT_BRANCH_WS =>
      match nm_body nm with B_directBranchWS _ _ s => Some s | _ => None end
  | TCODE_INDIRECT_BRANCH_WS =>
      match nm_body nm with B_indirectBranchWS _ _ _ s => Some s | _ => None end
  | TCODE_INDIRECTBRANCHHISTORY_WS =>
      match nm_body nm with B_indirectHistoryWS _ _ _ _ s => Some s | _ => None end
  | _ => Some SYNC_NONE
  end.

Definition getEType : option Z :=
  match nm_tcode nm with
  | TCODE_ERROR => match nm_body nm with B_error e => Some e | _ => None end
  | _ => Some 0
  end.

Definition getCKDF : option Z :=
  match nm_tcode nm with
  | TCODE_INCIRCUITTRACE =>
      match nm_body nm with B_ict _ df _ _ => Some df | _ => None end
  | TCODE_INCIRCUITTRACE_WS =>
      match nm_body nm with B_ictWS _ df _ _ => Some df | _ => None end
  | _ => Some 0
  end.

Definition getCKSRC : option ICTReason :=
  match nm_tcode nm with
  | TCODE_INCIRCUITTRACE =>
      match nm_body nm with B_ict src _ _ _ => Some src | _ => None end
  | TCODE_INCIRCUITTRACE_WS =>
      match nm_body nm with B_ictWS src _ _ _ => Some src | _ => None end
  | _ => Some ICT_NONE
  end.

Definition getCKData (i : Z) : option Z :=
  let pick d0 (d1 : option Z) := if i =? 0 then Some d0 else if i =? 1 then d1 else None in
  match nm_tcode nm with
  | TCODE_INCIRCUITTRACE =>
      match nm_body nm with B_ict _ _ d0 d1 => pick d0 d1 | _ => None end
  | TCODE_INCIRCUITTRACE_WS =>
      match nm_body nm with B_ictWS _ _ d0 d1 => pick d0 d1 | _ => None end
  | _ => Some 0
  end.

Definition getCDF : option Z :=
  match nm_tcode nm with
  | TCODE_CORRELATION =>
      match nm_body nm with B_correlation _ _ cdf _ => Some cdf | _ => None end
  | _ => Some 0
  end.

Definition getEVCode : option Z :=
  match nm_tcode nm with
  | TCODE_CORRELATION =>
      match nm_body nm with B_correlation _ _ _ ev => Some ev | _ => None end
  | _ => Some 0
  end.

Definition getData : option Z :=
  match nm_tcode nm with
  | TCODE_DATA_ACQUISITION =>
      match nm_body nm with B_dataAcquisition _ d => Some d | _ => None end
  | TCODE_AUXACCESS_WRITE =>
      match nm_body nm with B_auxAccessWrite d _ => Some d | _ => None end
  | _ => Some 0
  end.

(** As in the code: the [data] field, not [addr]. *)
Definition getAddr : option Z :=
  match nm_tcode nm with
  | TCODE_AUXACCESS_WRITE =>
      match nm_body nm with B_auxAccessWrite d _ => Some d | _ => None end
  | _ => Some 0
  end.

Definition getIdTag : option Z :=
  match nm_tcode nm with
  | TCODE_DATA_ACQUISITION =>
      match nm_body nm with B_dataAcquisition t _ => Some t | _ => None end
  | _ => Some 0
  end.

(** [ownership.pid] is an [int] returned as [uint32_t]. *)
Definition getProcessId : option Z :=
  match nm_tcode nm with
  | TCODE_OWNERSHIP_TRACE =>
      match nm_body nm with B_ownership pid _ _ _ => Some (u32 pid) | _ => None end
  | _ => Some 0
  end.

Definition getRCode : option Z :=
  match nm_tcode nm with
  | TCODE_RESOURCEFULL =>
      match nm_body nm with B_resourceFull r _ => Some (u32 r) | _ => None end
  | _ => Some 0
  end.

Definition getRData : option Z :=
  match nm_tcode nm with
  | TCODE_RESOURCEFULL =>
      match nm_body nm with
      | B_resourceFull 0 (R_i_cnt i) => Some (u64 i)
      | B_resourceFull 1 (R_history h) => Some h
      | B_resourceFull 8 (R_notTakenCount n) => Some n
      | B_resourceFull 9 (R_takenCount n) => Some n
      | B_resourceFull r _ =>
          if decide (r ∈ [0; 1; 8; 9]) then None else Some 0
      | _ => None
      end
  | _ => Some 0
  end.

Definition getHistory : option Z :=
  match nm_tcode nm with
  | TCODE_RESOURCEFULL =>
      match nm_body nm with
      | B_resourceFull rCode rd =>
          if rCode =? 1 then match rd with R_history h => Some h | _ => None end
          else Some 0
      | _ => None
      end
  | TCODE_CORRELATION =>
      match nm_body nm with B_correlation h _ _ _ => h | _ => None end
  | TCODE_INDIRECTBRANCHHISTORY =>
      match nm_body nm with B_indirectHistory _ _ _ h => Some h | _ => None end
  | TCODE_INDIRECTBRANCHHISTORY_WS =>
      match nm_body nm with B_indirectHistoryWS _ _ _ h _ => Some h | _ => None end
  | _ => Some 0
  end.
End accessors.

(** ** Reading a well-formed message *)

Lemma tcode_of_val t : tcode_of (tcode_val t) = Some t.
Proof. by destruct t. Qed.

Lemma tcode_of_inv v t : tcode_of v = Some t -> tcode_val t = v.
Proof.
  unfold tcode_of. destruct (list_find (fun t => tcode_val t = v) tcodes) as [[i t']|] eqn:E; [|done].
  cbn. intros [= ->]. by apply list_find_Some in E as (_ & ? & _).
Qed.

(** The members of the union an accessor may read in a parsed message. *)
Definition history_unset (nm : NexusMessage) : bool :=
  match nm_body nm with B_correlation None _ _ _ => true | _ => false end.
Definition target_unset (nm : NexusMessage) : bool :=
  match nm_body nm with
  | B_ict src _ _ None | B_ictWS src _ _ None => bool_decide (src = ICT_INFERABLECALL)
  | _ => false
  end.

Lemma resourceFull_matches r rd :
  body_matches TCODE_RESOURCEFULL (B_resourceFull r rd) = true ->
  r = 0 /\ (exists v, rd = R_i_cnt v) \/ r = 1 /\ (exists v, rd = R_history v) \/
  r = 8 /\ (exists v, rd = R_notTakenCount v) \/ r = 9 /\ (exists v, rd = R_takenCount v).
Proof.
  destruct r as [|r|r]; cbn; [destruct rd; try done; eauto| |done].
  repeat match goal with r : positive |- _ => destruct r; try done end;
    destruct rd; try done; eauto 10.
Qed.

(** The second [CKDATA] was not written. *)
Definition ckdata_unset (nm : NexusMessage) : bool :=
  match nm_body nm with B_ict _ _ _ None | B_ictWS _ _ _ None => true | _ => false end.

Lemma accessors_defined nm :
  body_matches (nm_tcode nm) (nm_body nm) = true ->
  is_Some (getI_Cnt nm) /\ is_Some (getU_Addr nm) /\ is_Some (getF_Addr nm) /\
  is_Some (getB_Type nm) /\ is_Some (getSyncReason nm) /\ is_Some (getEType nm) /\
  is_Some (getCKDF nm) /\ is_Some (getCKSRC nm) /\ is_Some (getCKData nm 0) /\
  (is_Some (getCKData nm 1) <-> ckdata_unset nm = false) /\
  is_Some (getCDF nm) /\ is_Some (getEVCode nm) /\ is_Some (getData nm) /\
  is_Some (getAddr nm) /\ is_Some (getIdTag nm) /\ is_Some (getProcessId nm) /\
  is_Some (getRCode nm) /\ is_Some (getRData nm) /\
  (is_Some (getHistory nm) <-> history_unset nm = false) /\
  (is_Some (getICTCallReturnTarget nm) <-> target_unset nm = false).
Proof.
  destruct nm as [mn t ht ts ca ti co prv pid b off raw]. cbn [nm_tcode nm_body].
  assert (forall A (o : option A), is_Some o <-> o <> None) as Hsome
    by (intros A o; rewrite not_eq_None_Some; done).
  rewrite !Hsome.
  destruct t, b; try done; intros Hm;
    unfold getICTCallReturnTarget, target_unset, ckdata_unset; cbn [nm_tcode nm_body].
  all: try (by repeat split).
  - apply resourceFull_matches in Hm as [[-> [? ->]]|[[-> [? ->]]|[[-> [? ->]]|[-> [? ->]]]]];
      by repeat split.
  - destruct history; by repeat split.
  - destruct ckdata1 as [d1|]; repeat split; try done;
      rewrite ?bool_decide_eq_false; destruct (decide (cksrc = ICT_INFERABLECALL)); try done;
      destruct (ckdf =? 0); try done; congruence.
  - destruct ckdata1 as [d1|]; repeat split; try done;
      rewrite ?bool_decide_eq_false; destruct (decide (cksrc = ICT_INFERABLECALL)); try done;
      destruct (ckdf =? 0); try done; congruence.
Qed.
