(* ===== verification/Slices.v ===== *)
(** * Slices: the state of the slice parser and its two field readers
    (src/dqr.cpp, [SliceFileParser::parseFixedField] and [parseVarField]).

    A message is an array of bytes ("slices"): bits 2..7 of a byte are six data
    bits, least significant slice first, and bits 0..1 are the MSEO code
    ([00] inside a field, [01] end of a variable-length field, [11] end of the
    message).  [group_at] is the reference reading of such an array: the slices
    from [i0] on hold the number [u].  The theorems say that the two readers
    return the bits of [u] they are asked for. *)

From S2P Require Import Prelude Nexus.

(** ** State *)

(** [sp_source] stands for [tf], or for [SWTsock] with [sockBuffer] and its two
    indices (Source.v). *)
Record SliceParser (Src : Type) := {
  sp_status : DQErr;
  sp_srcbits : Z;
  sp_bitIndex : Z;
  sp_msgSlices : Z;
  sp_msgOffset : Z;
  sp_pendingMsgIndex : Z;
  sp_msg : list Z;
  sp_eom : bool;
  sp_flushMessage : bool;
  sp_source : Src;
}.
Arguments sp_status {Src}.
Arguments sp_srcbits {Src}.
Arguments sp_bitIndex {Src}.
Arguments sp_msgSlices {Src}.
Arguments sp_msgOffset {Src}.
Arguments sp_pendingMsgIndex {Src}.
Arguments sp_msg {Src}.
Arguments sp_eom {Src}.
Arguments sp_flushMessage {Src}.
Arguments sp_source {Src}.

(** The size of [uint8_t msg[64]]. *)
Definition MSG_SIZE : Z := 64.

Section parser.
Context {Src : Type}.
Implicit Type p : SliceParser Src.

Definition set_status e p : SliceParser Src := {|
  sp_status := e; sp_srcbits := sp_srcbits p; sp_bitIndex := sp_bitIndex p;
  sp_msgSlices := sp_msgSlices p; sp_msgOffset := sp_msgOffset p;
  sp_pendingMsgIndex := sp_pendingMsgIndex p; sp_msg := sp_msg p; sp_eom := sp_eom p;
  sp_flushMessage := sp_flushMessage p; sp_source := sp_source p |}.

(** The cursor of the field readers. *)
Definition set_cursor bit e p : SliceParser Src := {|
  sp_status := sp_status p; sp_srcbits := sp_srcbits p; sp_bitIndex := bit;
  sp_msgSlices := sp_msgSlices p; sp_msgOffset := sp_msgOffset p;
  sp_pendingMsgIndex := sp_pendingMsgIndex p; sp_msg := sp_msg p; sp_eom := e;
  sp_flushMessage := sp_flushMessage p; sp_source := sp_source p |}.

Definition set_bitIndex bit p := set_cursor bit (sp_eom p) p.
Definition set_eom e p := set_cursor (sp_bitIndex p) e p.

#[local] Abbreviation P := (M (SliceParser Src) DQErr).

(** [status = e; return e;] *)
Definition fail {A} (e : DQErr) : P A := modify (set_status e) ≫= fun _ => throw e.

(** [msg[i]]; outside the array the access is undefined. *)
Definition byteAt (i : Z) : P Z := fun p =>
  lift_opt (if 0 <=? i then sp_msg p !! Z.to_nat i else None) p.

(** [if ((msg[i] & 0x03) == MSEO_END) eom = true;] *)
Definition noteEom (i : Z) : P unit :=
  x ← byteAt i;
  if Z.land x 3 =? MSEO_END then modify (set_eom true) else mret tt.

(** The [while (remainingWidth >= 6)] loop: [i], [consumed],
    [remainingWidth] and [tmp_val] are the loop's variables. *)
Fixpoint middleBits (fuel : nat) (i consumed remaining tmp : Z) : P (Z * Z * Z * Z) :=
  if remaining <? 6 then mret (i, consumed, remaining, tmp)
  else match fuel with
       | O => fun _ => NoFuel
       | S fuel =>
           x ← byteAt i;
           t ← lift_opt (shl64 (Z.shiftr x 2) consumed);
           middleBits fuel (i + 1) (consumed + 6) (remaining - 6) (Z.lor tmp t)
       end.

Definition parseFixedField (width : Z) : P Z :=
  if width <=? 0 then fail DQERR_ERR
  else
    p ← get;
    let i := sp_bitIndex p / 6 in
    let b := sp_bitIndex p mod 6 in
    modify (set_bitIndex (sp_bitIndex p + width)) ≫= fun _ =>
    if sp_msgSlices p * 6 <=? sp_bitIndex p + width then fail DQERR_EOM
    else if 6 <? b + width then
      x ← byteAt i;
      '(i, consumed, remaining, tmp) ←
        middleBits (Z.to_nat width) (i + 1) (6 - b) (width - (6 - b)) (Z.shiftr x (b + 2));
      tmp ← (if 0 <? remaining then
               y ← byteAt i;
               t ← lift_opt (shl64 (Z.shiftr (u8 (Z.shiftl y (6 - remaining)))
                                             (6 - remaining + 2)) consumed);
               mret (Z.lor tmp t)
             else mret tmp);
      noteEom i ≫= fun _ => mret tmp
    else
      x ← byteAt i;
      let v := u8 (Z.shiftl x (6 - (b + width))) in
      let v := Z.shiftr v (6 - (b + width) + b + 2) in
      noteEom i ≫= fun _ => mret v.

(** The [while ((msg[i] & 0x03) == MSEO_NORMAL)] loop. *)
Fixpoint varBits (fuel : nat) (i w v : Z) : P (Z * Z * Z) :=
  match fuel with
  | O => fun _ => NoFuel
  | S fuel =>
      x ← byteAt i;
      if negb (Z.land x 3 =? MSEO_NORMAL) then mret (i, w, v)
      else
        p ← get;
        if sp_msgSlices p <=? i + 1 then fail DQERR_ERR
        else
          y ← byteAt (i + 1);
          t ← lift_opt (shl64 (Z.shiftr y 2) w);
          varBits fuel (i + 1) (w + 6) (Z.lor v t)
  end.

(** Returns the value and the width of the field. *)
Definition parseVarField : P (Z * Z) :=
  p ← get;
  let i := sp_bitIndex p / 6 in
  let b := sp_bitIndex p mod 6 in
  if sp_msgSlices p <=? i then fail DQERR_EOM
  else
    x ← byteAt i;
    '(i, w, v) ← varBits (S (Z.to_nat (sp_msgSlices p))) i (6 - b) (Z.shiftr x (b + 2));
    y ← byteAt i;
    if (64 <? w) && negb (Z.land y 192 =? 0) then fail DQERR_ERR
    else
      noteEom i ≫= fun _ =>
      modify (fun p => set_bitIndex (sp_bitIndex p + w) p) ≫= fun _ =>
      mret (v, w).
End parser.

(** ** Reference reading *)

(** Slices [i0 .. i0 + n - 1] hold the [6 n] data bits of [u], least significant
    first; [m] is the MSEO code of the last one and the others are [NORMAL]. *)
Definition group_at (msg : list Z) (i0 : Z) (u n m : Z) : Prop :=
  0 <= i0 /\
  forall k, 0 <= k < n ->
    msg !! Z.to_nat (i0 + k) =
      Some (4 * slice u (6 * k) 6 + (if k =? n - 1 then m else MSEO_NORMAL)).

(** ** Bit-level lemmas *)

Lemma slice_slice u lo w a b :
  0 <= lo -> 0 <= a -> 0 <= b -> a + b <= w ->
  slice (slice u lo w) a b = slice u (lo + a) b.
Proof.
  intros. bitwise i.
  replace (i + a + lo) with (i + (lo + a)) by lia.
  by case_cmp.
Qed.

Lemma slice_low u w : slice u 0 w = u mod 2 ^ w.
Proof. unfold slice. by rewrite Z.div_1_r. Qed.

Lemma slice_append u lo a b :
  0 <= lo -> 0 <= a -> 0 <= b ->
  slice u lo a + slice u (lo + a) b * 2 ^ a = slice u lo (a + b).
Proof.
  intros. unfold slice. rewrite <-div_div_pow2 by lia. apply mod_split; lia.
Qed.

(** The data bits of a slice. *)
Lemma payload_bits s m : 0 <= s < 64 -> 0 <= m < 4 -> Z.shiftr (4 * s + m) 2 = s.
Proof. intros. rewrite Z.shiftr_div_pow2 by lia. change (2 ^ 2) with 4. dlia. Qed.

Lemma payload_high s m b :
  0 <= s < 64 -> 0 <= m < 4 -> 0 <= b <= 6 ->
  Z.shiftr (4 * s + m) (b + 2) = slice s b (6 - b).
Proof.
  intros Hs Hm Hb. replace (b + 2) with (2 + b) by lia.
  rewrite <-Z.shiftr_shiftr, payload_bits by lia.
  rewrite Z.shiftr_div_pow2 by lia. unfold slice. symmetry. apply Z.mod_small.
  apply div_pow2_bound; try lia. replace (b + (6 - b)) with 6 by lia. done.
Qed.

Lemma mseo_bits s m : 0 <= m < 4 -> Z.land (4 * s + m) 3 = m.
Proof. intros. rewrite land_3. dlia. Qed.

(** Shifting left inside a byte and back strips the bits above the field. *)
Lemma strip_byte x k r : 0 <= k -> 0 <= r <= 8 - k ->
  Z.shiftr (u8 (Z.shiftl x k)) (k + r) = slice x r (8 - k - r).
Proof.
  intros. unfold u8, wrap. bitwise i. case_cmp; [f_equal; lia|done].
Qed.

Lemma payload_slice s m r w :
  0 <= s < 64 -> 0 <= m < 4 -> 0 <= r -> 0 <= w ->
  slice (4 * s + m) (r + 2) w = slice s r w.
Proof.
  intros. unfold slice. replace (r + 2) with (2 + r) by lia.
  rewrite <-div_div_pow2 by lia. change (2 ^ 2) with 4.
  by replace ((4 * s + m) / 4) with s by dlia.
Qed.

(** Two top data bits of a byte. *)
Lemma top_bits s m : 0 <= s < 64 -> 0 <= m < 4 -> (Z.land (4 * s + m) 192 =? 0) = (s <? 16).
Proof.
  intros Hs Hm. change 192 with (Z.shiftl 3 6). destruct (Z.ltb_spec s 16).
  - apply Z.eqb_eq. bitwise i. destruct (Z.ltb_spec i 6).
    + rewrite (Z.testbit_neg_r 3) by lia. apply andb_false_r.
    + rewrite (testbit_high (4 * s + m) 6 i) by lia. done.
  - apply Z.eqb_neq. intros H0.
    assert (Z.shiftr (Z.land (4 * s + m) (Z.shiftl 3 6)) 6 = 0) as Hsh by by rewrite H0.
    rewrite Z.shiftr_land in Hsh. change (Z.shiftr (Z.shiftl 3 6) 6) with 3 in Hsh.
    rewrite land_3, Z.shiftr_div_pow2 in Hsh by lia. change (2 ^ 6) with 64 in Hsh. dlia.
Qed.

(** Or-ing the next chunk above the bits already read appends it. *)
Lemma lor_chunk_u64 u lo a b :
  0 <= lo -> 0 <= a <= 64 -> 0 <= b ->
  Z.lor (u64 (slice u lo a)) (u64 (slice u (lo + a) b * 2 ^ a)) = u64 (slice u lo (a + b)).
Proof.
  intros Hlo Ha Hb. pose proof (slice_bounds u lo a ltac:(lia)). pose proof (pow2_pos a ltac:(lia)).
  pose proof (Z.pow_le_mono_r 2 a 64 ltac:(lia) ltac:(lia)).
  rewrite <-(slice_append u lo a b), (u64_small (slice u lo a)) by lia. unfold u64, wrap.
  replace (2 ^ 64) with (2 ^ (64 - a) * 2 ^ a) by (rewrite <-Z.pow_add_r by lia; f_equal; lia).
  pose proof (pow2_pos (64 - a) ltac:(lia)). set (c := slice u (lo + a) b).
  rewrite Z.mul_mod_distr_r by lia. pose proof (Z.mod_pos_bound c (2 ^ (64 - a)) ltac:(lia)).
  rewrite lor_disjoint_add by lia.
  apply (Z.mod_unique _ _ (c / 2 ^ (64 - a))); [left; nia|].
  pose proof (Z.div_mod c (2 ^ (64 - a)) ltac:(lia)). nia.
Qed.

Lemma lor_chunk u lo a b :
  0 <= lo -> 0 <= a <= 64 -> 0 <= b -> slice u lo (a + b) < 2 ^ 64 ->
  Z.lor (slice u lo a) (u64 (slice u (lo + a) b * 2 ^ a)) = slice u lo (a + b).
Proof.
  intros Hlo Ha Hb Hlt. pose proof (slice_bounds u lo a ltac:(lia)).
  pose proof (slice_bounds u lo (a + b) ltac:(lia)). pose proof (Z.pow_le_mono_r 2 a 64 ltac:(lia) ltac:(lia)).
  pose proof (lor_chunk_u64 u lo a b Hlo Ha Hb) as E. by rewrite (u64_small (slice u lo a)), (u64_small (slice u lo (a + b))) in E by lia.
Qed.

Lemma slice_mono u lo a b : 0 <= lo -> 0 <= a <= b -> slice u lo a <= slice u lo b.
Proof.
  intros. replace b with (a + (b - a)) by lia. rewrite <-slice_append by lia.
  pose proof (slice_bounds u (lo + a) (b - a) ltac:(lia)). pose proof (pow2_pos a). nia.
Qed.

(** The top two bits of a field of [w] bits that ends with slice [n - 1] are the top two
    data bits of that slice. *)
Lemma top_slice_small u n b0 :
  0 <= b0 -> 64 < 6 * n - b0 ->
  (slice u (6 * (n - 1)) 6 <? 16) = (slice u b0 (6 * n - b0) <? 2 ^ (6 * n - b0 - 2)).
Proof.
  intros Hb Hw. set (a := 6 * (n - 1) - b0).
  assert (slice u b0 a + slice u (b0 + a) 6 * 2 ^ a = slice u b0 (a + 6)) as Hs
    by (apply slice_append; lia).
  replace (b0 + a) with (6 * (n - 1)) in Hs by lia.
  replace (a + 6) with (6 * n - b0) in Hs by lia.
  replace (6 * n - b0 - 2) with (4 + a) by lia.
  rewrite Z.pow_add_r by lia. change (2 ^ 4) with 16.
  pose proof (pow2_pos a ltac:(lia)). pose proof (slice_bounds u b0 a ltac:(lia)).
  destruct (Z.ltb_spec (slice u (6 * (n - 1)) 6) 16), (Z.ltb_spec (slice u b0 (6 * n - b0)) (16 * 2 ^ a)); try done; nia.
Qed.

(** ** Executing the readers *)

Section readers.
Context {Src : Type}.
Implicit Type p : SliceParser Src.

Lemma byteAt_ok p i x :
  0 <= i -> sp_msg p !! Z.to_nat i = Some x -> byteAt i p = Ok p x.
Proof. intros. unfold byteAt, lift_opt. rewrite Zle_imp_le_bool by done. by rewrite H0. Qed.

Lemma byteAt_preserves {A} (f : SliceParser Src -> A) i : preserves f (byteAt i).
Proof. intros p. unfold byteAt. apply preserves_lift_opt. Qed.

(** What [group_at] says about one slice. *)
Lemma group_slice msg i0 u n m k :
  group_at msg i0 u n m -> 0 <= k < n -> 0 <= m < 4 ->
  exists c, 0 <= c < 4 /\ (k = n - 1 -> c = m) /\ (k < n - 1 -> c = MSEO_NORMAL) /\
    msg !! Z.to_nat (i0 + k) = Some (4 * slice u (6 * k) 6 + c).
Proof.
  intros [_ Hg] Hk Hm. eexists. rewrite Hg by done. split; [|split; [|split]]; [| | |done].
  - unfold MSEO_NORMAL. destruct (k =? n - 1); lia.
  - intros ->. by rewrite Z.eqb_refl.
  - intros. destruct (Z.eqb_spec k (n - 1)); [lia|done].
Qed.

Lemma noteEom_ok p i s c :
  0 <= i -> 0 <= c < 4 -> sp_msg p !! Z.to_nat i = Some (4 * s + c) ->
  noteEom i p = Ok (set_eom (sp_eom p || (c =? MSEO_END)) p) tt.
Proof.
  intros. unfold noteEom. erewrite bind_ok by (by apply byteAt_ok).
  rewrite mseo_bits by done. destruct (c =? MSEO_END); unfold modify, mret, M_ret.
  - by rewrite orb_true_r.
  - rewrite orb_false_r. by destruct p.
Qed.

(** Reading one more whole slice [k] above [a] bits already read. *)
Lemma next_chunk p i0 u n m k lo a :
  group_at (sp_msg p) i0 u n m -> 0 <= m < 4 -> 0 <= k < n ->
  0 <= lo -> 0 <= a < 64 -> lo + a = 6 * k -> slice u lo (a + 6) < 2 ^ 64 ->
  exists x, byteAt (i0 + k) p = Ok p x /\
    exists t, shl64 (Z.shiftr x 2) a = Some t /\
      Z.lor (slice u lo a) t = slice u lo (a + 6).
Proof.
  intros Hg Hm Hk Hlo Ha Hka Hlt.
  destruct (group_slice _ _ _ _ _ k Hg Hk Hm) as (c & Hc & _ & _ & Hx).
  destruct Hg as [Hi0 _].
  eexists. split; [apply byteAt_ok; [lia|exact Hx]|].
  pose proof (slice_bounds u (6 * k) 6 ltac:(lia)).
  rewrite payload_bits, shl64_small by (change (2 ^ 6) with 64 in *; lia).
  eexists. split; [done|]. rewrite <-Hka. apply lor_chunk; lia.
Qed.

Lemma slice_lt64 u lo a : 0 <= a <= 64 -> slice u lo a < 2 ^ 64.
Proof.
  intros. pose proof (slice_bounds u lo a ltac:(lia)).
  pose proof (Z.pow_le_mono_r 2 a 64 ltac:(lia) ltac:(lia)). lia.
Qed.

Lemma middleBits_ok fuel : forall p i0 u n m k lo consumed remaining,
  group_at (sp_msg p) i0 u n m -> 0 <= m < 4 -> 0 <= k -> 0 <= lo -> 0 <= consumed ->
  lo + consumed = 6 * k -> 0 <= remaining <= 6 * Z.of_nat fuel + 5 ->
  6 * k + remaining < 6 * n -> consumed + remaining <= 64 ->
  middleBits fuel (i0 + k) consumed remaining (slice u lo consumed) p =
    Ok p (i0 + (k + remaining / 6), consumed + 6 * (remaining / 6), remaining mod 6,
          slice u lo (consumed + 6 * (remaining / 6))).
Proof.
  induction fuel as [|fuel IH]; intros p i0 u n m k lo a r Hg Hm Hk Hlo Ha Hka Hr Hn Hw;
    cbn [middleBits]; destruct (Z.ltb_spec r 6) as [Hr6|Hr6]; try lia.
  1,2: rewrite Z.div_small, Z.mod_small, Z.mul_0_r, !Z.add_0_r by lia; done.
  destruct (next_chunk p i0 u n m k lo a) as (x & Hx & t & Ht & Hor);
    [done..|lia|lia|lia|lia|by apply slice_lt64; lia|].
  erewrite bind_ok by exact Hx. unfold lift_opt at 1. rewrite Ht.
  erewrite bind_ok by done. rewrite Hor, <-Z.add_assoc.
  rewrite (IH p i0 u n m (k + 1) lo (a + 6) (r - 6)) by (done || lia).
  replace ((r - 6) mod 6) with (r mod 6) by dlia.
  replace (k + 1 + (r - 6) / 6) with (k + r / 6) by dlia.
  by replace (a + 6 + 6 * ((r - 6) / 6)) with (a + 6 * (r / 6)) by dlia.
Qed.

Lemma set_cursor_self p : set_cursor (sp_bitIndex p) (sp_eom p) p = p.
Proof. by destruct p. Qed.

(** The message bytes do not depend on the cursor. *)
Lemma sp_msg_cursor bit e p : sp_msg (set_cursor bit e p) = sp_msg p.
Proof. done. Qed.

Lemma noteEom_group p i0 u n m k :
  group_at (sp_msg p) i0 u n m -> 0 <= m < 4 -> 0 <= k < n ->
  exists e, noteEom (i0 + k) p = Ok (set_eom e p) tt /\
    (m <> MSEO_END -> e = sp_eom p) /\ (k = n - 1 -> m = MSEO_END -> e = true).
Proof.
  intros Hg Hm Hk. destruct (group_slice _ _ _ _ _ k Hg Hk Hm) as (c & Hc & H1 & H2 & Hx).
  destruct Hg as [Hi0 _].
  eexists. split; [eapply noteEom_ok; [lia|exact Hc|exact Hx]|]. split.
  - intros Hne. destruct (Z.eqb_spec c MSEO_END) as [->|]; [|by rewrite orb_false_r].
    exfalso. destruct (decide (k = n - 1)); [by apply Hne; rewrite <-H1|].
    assert (MSEO_END = MSEO_NORMAL) by (apply H2; lia). done.
  - intros Hl ->. rewrite H1 by done. apply orb_true_r.
Qed.

(** The state left by a field reader: only the cursor moved, and [eom] was
    not raised unless the group ends the message. *)
Definition advanced (m width : Z) p p' : Prop :=
  exists e, p' = set_cursor (sp_bitIndex p + width) e p /\
            (m <> MSEO_END -> e = sp_eom p).

(** A fixed field inside one slice. *)
Lemma parseFixedField_inside p i0 u n m b0 width :
  group_at (sp_msg p) i0 u n m -> 0 <= m < 4 -> sp_bitIndex p = 6 * i0 + b0 ->
  0 <= b0 -> 0 < width -> b0 mod 6 + width <= 6 -> b0 + width < 6 * n ->
  i0 + n <= sp_msgSlices p ->
  exists p', parseFixedField width p = Ok p' (slice u b0 width) /\ advanced m width p p'.
Proof.
  intros Hg Hm Hbi Hb0 Hw Hin Hn Hs. unfold parseFixedField.
  destruct (Z.leb_spec width 0); [lia|]. erewrite bind_ok by done. cbn beta.
  erewrite bind_ok by done. rewrite Hbi.
  replace ((6 * i0 + b0) / 6) with (i0 + b0 / 6) by dlia.
  replace ((6 * i0 + b0) mod 6) with (b0 mod 6) by dlia.
  set (p1 := set_bitIndex (6 * i0 + b0 + width) p).
  set (b := b0 mod 6) in *. case_cmp.
  destruct (group_slice _ _ _ _ _ (b0 / 6) Hg ltac:(dlia) Hm) as (c & Hc & _ & _ & Hx).
  erewrite bind_ok by (apply byteAt_ok; [destruct Hg; dlia|exact Hx]).
  destruct (noteEom_group p1 i0 u n m (b0 / 6) Hg Hm ltac:(dlia)) as (e & He & Hne & _).
  erewrite bind_ok by exact He. exists (set_eom e p1). split.
  - unfold mret, M_ret. f_equal.
    replace (6 - (b + width) + b + 2) with (6 - (b + width) + (b + 2)) by lia.
    pose proof (slice_bounds u (6 * (b0 / 6)) 6 ltac:(lia)).
    rewrite strip_byte by (subst b; dlia).
    replace (8 - (6 - (b + width)) - (b + 2)) with width by lia.
    rewrite payload_slice by (subst b; change (2 ^ 6) with 64 in *; dlia).
    rewrite slice_slice by (subst b; dlia). f_equal. subst b. dlia.
  - exists e. split; [|done]. unfold set_eom, p1, set_bitIndex. by rewrite Hbi.
Qed.

(** A fixed field that crosses slices. *)
Lemma parseFixedField_crossing p i0 u n m b0 width :
  group_at (sp_msg p) i0 u n m -> 0 <= m < 4 -> sp_bitIndex p = 6 * i0 + b0 ->
  0 <= b0 -> 6 < b0 mod 6 + width -> width <= 64 -> b0 + width < 6 * n ->
  i0 + n <= sp_msgSlices p ->
  exists p', parseFixedField width p = Ok p' (slice u b0 width) /\ advanced m width p p'.
Proof.
  intros Hg Hm Hbi Hb0 Hcr Hw Hn Hs. unfold parseFixedField.
  assert (0 <= b0 mod 6 < 6) as Hb by (apply Z.mod_pos_bound; lia).
  destruct (Z.leb_spec width 0); [lia|]. erewrite bind_ok by done. cbn beta.
  erewrite bind_ok by done. rewrite Hbi.
  replace ((6 * i0 + b0) / 6) with (i0 + b0 / 6) by dlia.
  replace ((6 * i0 + b0) mod 6) with (b0 mod 6) by dlia.
  set (p1 := set_bitIndex (6 * i0 + b0 + width) p).
  set (b := b0 mod 6) in *. case_cmp.
  set (k := b0 / 6). assert (b0 = 6 * k + b) as Hkb by (subst k b; dlia).
  destruct (group_slice _ _ _ _ _ k Hg ltac:(lia) Hm) as (c & Hc & _ & _ & Hx).
  pose proof (proj1 Hg) as Hi0.
  erewrite bind_ok by (apply byteAt_ok; [lia|exact Hx]).
  pose proof (slice_bounds u (6 * k) 6 ltac:(lia)) as Hsl. change (2 ^ 6) with 64 in Hsl.
  rewrite payload_high, slice_slice, <-Hkb by lia.
  rewrite <-Z.add_assoc.
  erewrite bind_ok by (apply (middleBits_ok _ p1 i0 u n m (k + 1)); done || lia).
  set (r := width - (6 - b)) in *. cbn beta iota.
  assert (0 <= r mod 6 < 6) as Hrm by (apply Z.mod_pos_bound; lia).
  assert (r = 6 * (r / 6) + r mod 6) as Hdiv by dlia.
  set (k2 := k + 1 + r / 6). set (a := 6 - b + 6 * (r / 6)).
  destruct (group_slice _ _ _ _ _ k2 Hg ltac:(lia) Hm) as (c2 & Hc2 & _ & _ & Hx2).
  destruct (noteEom_group p1 i0 u n m k2 Hg Hm ltac:(lia)) as (e & He & Hne & _).
  exists (set_eom e p1). split; [|exists e; split; [|done]];
    [|unfold set_eom, p1, set_bitIndex; by rewrite Hbi].
  destruct (Z.ltb_spec 0 (r mod 6)) as [Hpos|Hzero].
  - erewrite bind_ok.
    2:{ erewrite bind_ok by (apply byteAt_ok; [lia|exact Hx2]).
        rewrite strip_byte by lia. replace (8 - (6 - r mod 6) - 2) with (r mod 6) by lia.
        pose proof (slice_bounds u (6 * k2) 6 ltac:(lia)) as Hsl2. change (2 ^ 6) with 64 in Hsl2.
        change 2 with (0 + 2) at 1. rewrite payload_slice, slice_slice by lia.
        rewrite Z.add_0_r, shl64_small by lia. unfold lift_opt.
        replace (6 * k2) with (b0 + a) by lia.
        erewrite bind_ok by done. rewrite lor_chunk; [done|lia..|apply slice_lt64; lia]. }
    erewrite bind_ok by exact He. unfold mret, M_ret. do 2 f_equal. lia.
  - erewrite bind_ok by done. erewrite bind_ok by exact He.
    unfold mret, M_ret. do 2 f_equal. lia.
Qed.

Lemma parseFixedField_spec p i0 u n m b0 width :
  group_at (sp_msg p) i0 u n m -> 0 <= m < 4 -> sp_bitIndex p = 6 * i0 + b0 ->
  0 <= b0 -> 0 < width <= 64 -> b0 + width < 6 * n -> i0 + n <= sp_msgSlices p ->
  exists p', parseFixedField width p = Ok p' (slice u b0 width) /\ advanced m width p p'.
Proof.
  intros. destruct (decide (b0 mod 6 + width <= 6)).
  - eapply parseFixedField_inside; eauto; lia.
  - eapply parseFixedField_crossing; eauto; lia.
Qed.

(** The loop of [parseVarField] from slice [k] to the end of the group: the bits that do not
    fit into 64 are lost, and a slice that begins behind them all is shifted too far. *)
Lemma varBits_ok fuel : forall p i0 u n m k lo w,
  group_at (sp_msg p) i0 u n m -> 0 <= m < 4 -> m <> MSEO_NORMAL ->
  0 <= k < n -> 0 <= lo -> 0 <= w < 70 -> lo + w = 6 * (k + 1) ->
  n - k <= Z.of_nat fuel -> i0 + n <= sp_msgSlices p ->
  varBits fuel (i0 + k) w (u64 (slice u lo w)) p =
    if 6 * n - lo <=? 69 then Ok p (i0 + (n - 1), 6 * n - lo, u64 (slice u lo (6 * n - lo))) else Undef.
Proof.
  induction fuel as [|fuel IH]; intros p i0 u n m k lo w Hg Hm Hne Hk Hlo Hw0 Hw Hf Hs;
    cbn [varBits]; [lia|].
  destruct (group_slice _ _ _ _ _ k Hg Hk Hm) as (c & Hc & Hlast & Hmid & Hx).
  pose proof (proj1 Hg) as Hi0.
  erewrite bind_ok by (apply byteAt_ok; [lia|exact Hx]). rewrite mseo_bits by done.
  destruct (decide (k = n - 1)) as [->|].
  - rewrite (Hlast eq_refl). destruct (Z.eqb_spec m MSEO_NORMAL); [done|]. cbn [negb].
    destruct (Z.leb_spec (6 * n - lo) 69); [|lia]. by replace w with (6 * n - lo) by lia.
  - rewrite Hmid by lia. rewrite Z.eqb_refl. cbn [negb].
    erewrite bind_ok by done. cbn beta. destruct (Z.leb_spec (sp_msgSlices p) (i0 + k + 1)); [lia|].
    destruct (group_slice _ _ _ _ _ (k + 1) Hg ltac:(lia) Hm) as (c2 & Hc2 & _ & _ & Hx2).
    replace (i0 + k + 1) with (i0 + (k + 1)) by lia.
    erewrite bind_ok by (apply byteAt_ok; [lia|exact Hx2]).
    pose proof (slice_bounds u (6 * (k + 1)) 6 ltac:(lia)) as Hsl. change (2 ^ 6) with 64 in Hsl.
    destruct (decide (w < 64)).
    + rewrite payload_bits, shl64_small, <-Hw by lia. erewrite bind_ok by done.
      rewrite lor_chunk_u64 by lia. apply (IH p i0 u n m); done || lia.
    + destruct (Z.leb_spec (6 * n - lo) 69); [lia|]. unfold shl64. destruct (Z.leb_spec 0 w), (Z.ltb_spec w 64); done || lia.
Qed.

(** When the field fits: at most 64 bits wide, or up to the 69 bits for which
    every shift is defined, with the two top data bits (and whatever lies
    above bit 63) zero. *)
Definition var_fits (w v : Z) : Prop :=
  0 <= v < 2 ^ 64 /\ (w <= 64 \/ (w <= 69 /\ v < 2 ^ (w - 2))).

(** What becomes of a field of any width. *)
Lemma parseVarField_total p i0 u n m b0 :
  group_at (sp_msg p) i0 u n m -> 0 <= m < 4 -> m <> MSEO_NORMAL ->
  sp_bitIndex p = 6 * i0 + b0 -> 0 <= b0 < 6 * n -> i0 + n <= sp_msgSlices p ->
  let w := 6 * n - b0 in
  if w <=? 69 then
    if (64 <? w) && (2 ^ (w - 2) <=? slice u b0 w) then parseVarField p = Err (set_status DQERR_ERR p) DQERR_ERR
    else exists p' e,
      parseVarField p = Ok p' (u64 (slice u b0 w), w) /\
      p' = set_cursor (6 * (i0 + n)) e p /\
      (m <> MSEO_END -> e = sp_eom p) /\ (m = MSEO_END -> e = true)
  else parseVarField p = Undef.
Proof.
  intros Hg Hm Hne Hbi Hb0 Hs w. unfold parseVarField.
  erewrite (bind_ok get) by done. cbn beta. rewrite Hbi.
  replace ((6 * i0 + b0) / 6) with (i0 + b0 / 6) by dlia.
  replace ((6 * i0 + b0) mod 6) with (b0 mod 6) by dlia.
  assert (0 <= b0 mod 6 < 6) as Hb by (apply Z.mod_pos_bound; lia).
  set (b := b0 mod 6) in *. set (k := b0 / 6).
  assert (b0 = 6 * k + b) as Hkb by (subst k b; dlia). pose proof (proj1 Hg) as Hi0.
  destruct (Z.leb_spec (sp_msgSlices p) (i0 + k)); [lia|].
  destruct (group_slice _ _ _ _ _ k Hg ltac:(lia) Hm) as (c & Hc & _ & _ & Hx).
  erewrite (bind_ok (byteAt (i0 + k))) by (apply byteAt_ok; [lia|exact Hx]).
  pose proof (slice_bounds u (6 * k) 6 ltac:(lia)) as Hsl. change (2 ^ 6) with 64 in Hsl.
  rewrite payload_high, slice_slice, <-Hkb by lia.
  pose proof (varBits_ok (S (Z.to_nat (sp_msgSlices p))) p i0 u n m k b0 (6 - b) Hg Hm Hne
    ltac:(lia) ltac:(lia) ltac:(lia) ltac:(lia) ltac:(lia) Hs) as E.
  rewrite u64_small in E
    by (pose proof (slice_bounds u b0 (6 - b) ltac:(lia)); pose proof (Z.pow_le_mono_r 2 (6 - b) 64 ltac:(lia) ltac:(lia)); lia).
  fold w in E |- *. destruct (Z.leb_spec w 69).
  2: { unfold mbind at 1, M_bind. by rewrite E. }
  rewrite (bind_ok _ _ _ _ _ E). cbn beta iota.
  destruct (group_slice _ _ _ _ _ (n - 1) Hg ltac:(lia) Hm) as (c2 & Hc2 & _ & _ & Hx2).
  rewrite (bind_ok _ _ _ _ _ (byteAt_ok p (i0 + (n - 1)) _ ltac:(lia) Hx2)).
  pose proof (slice_bounds u (6 * (n - 1)) 6 ltac:(lia)) as Hs6. change (2 ^ 6) with 64 in Hs6.
  rewrite top_bits by lia.
  replace ((64 <? w) && negb (slice u (6 * (n - 1)) 6 <? 16)) with ((64 <? w) && (2 ^ (w - 2) <=? slice u b0 w)).
  2: { destruct (Z.ltb_spec 64 w); [|done]. rewrite (top_slice_small u n b0) by lia. fold w. by rewrite Z.leb_antisym. }
  destruct (_ && _); [done|].
  destruct (noteEom_group p i0 u n m (n - 1) Hg Hm ltac:(lia)) as (e & He & He1 & He2).
  rewrite (bind_ok _ _ _ _ _ He). erewrite bind_ok by done.
  eexists _, e. split; [reflexivity|]. split; [|split; [done|by apply He2]].
  unfold set_eom, set_bitIndex, set_cursor. cbn. f_equal. lia.
Qed.

Lemma parseVarField_spec p i0 u n m b0 :
  group_at (sp_msg p) i0 u n m -> 0 <= m < 4 -> m <> MSEO_NORMAL ->
  sp_bitIndex p = 6 * i0 + b0 -> 0 <= b0 < 6 * n -> i0 + n <= sp_msgSlices p ->
  var_fits (6 * n - b0) (slice u b0 (6 * n - b0)) ->
  exists p' e,
    parseVarField p = Ok p' (slice u b0 (6 * n - b0), 6 * n - b0) /\
    p' = set_cursor (6 * (i0 + n)) e p /\
    (m <> MSEO_END -> e = sp_eom p) /\ (m = MSEO_END -> e = true).
Proof.
  intros Hg Hm Hne Hbi Hb0 Hs [Hv Hfit]. pose proof (parseVarField_total p i0 u n m b0 Hg Hm Hne Hbi Hb0 Hs) as H. cbn zeta in H.
  destruct (Z.leb_spec (6 * n - b0) 69); [|lia].
  replace (_ && _) with false in H.
  2: { destruct (Z.ltb_spec 64 (6 * n - b0)); [|done]. cbn [andb]. symmetry. apply Z.leb_gt. lia. }
  by rewrite u64_small in H by lia.
Qed.
End readers.

(** ** Any bytes at all *)

Section safety.
Context {Src : Type}.
Implicit Type p : SliceParser Src.

Lemma byteAt_in p i :
  0 <= i < Z.of_nat (length (sp_msg p)) -> exists x, byteAt i p = Ok p x.
Proof.
  intros. destruct (lookup_lt_is_Some_2 (sp_msg p) (Z.to_nat i)) as [x Hx]; [lia|].
  exists x. apply byteAt_ok; [lia|done].
Qed.

Lemma noteEom_in p i :
  0 <= i < Z.of_nat (length (sp_msg p)) -> exists p', noteEom i p = Ok p' tt.
Proof.
  intros. destruct (byteAt_in p i) as [x Hx]; [done|]. unfold noteEom.
  erewrite bind_ok by exact Hx. destruct (_ =? _); by eexists.
Qed.

Lemma middleBits_in fuel : forall p i consumed remaining tmp,
  Z.of_nat (length (sp_msg p)) = MSG_SIZE -> 0 <= i -> 6 * i + remaining < 6 * MSG_SIZE ->
  0 <= consumed -> consumed + remaining <= 64 -> 0 <= remaining <= 6 * Z.of_nat fuel + 5 ->
  exists i' c' r' t',
    middleBits fuel i consumed remaining tmp p = Ok p (i', c', r', t') /\
    0 <= i' /\ 6 * i' + r' = 6 * i + remaining /\ 0 <= r' < 6 /\ 0 <= c' /\
    c' + r' = consumed + remaining.
Proof.
  induction fuel as [|fuel IH]; intros p i a r tmp Hl Hi Hir Ha Har Hr;
    cbn [middleBits]; destruct (Z.ltb_spec r 6); try lia.
  1,2: eexists _, _, _, _; split; [reflexivity|lia].
  unfold MSG_SIZE in *. destruct (byteAt_in p i) as [x Hx]; [lia|].
  erewrite bind_ok by exact Hx. rewrite shl64_small by lia.
  erewrite bind_ok by done.
  destruct (IH p (i + 1) (a + 6) (r - 6) (Z.lor tmp (u64 (Z.shiftr x 2 * 2 ^ a))))
    as (i' & c' & r' & t' & E & ?); [lia..|].
  exists i', c', r', t'. split; [exact E|lia].
Qed.

(** A fixed field never reads outside [msg] and never shifts too far. *)
Lemma parseFixedField_in p width :
  Z.of_nat (length (sp_msg p)) = MSG_SIZE -> 0 <= sp_bitIndex p -> sp_msgSlices p <= MSG_SIZE ->
  width <= 64 ->
  match parseFixedField width p with
  | Ok p' _ => sp_bitIndex p' = sp_bitIndex p + width /\ 0 < width /\
               sp_bitIndex p' < 6 * sp_msgSlices p
  | Err _ e => e = if width <=? 0 then DQERR_ERR else DQERR_EOM
  | Undef | NoFuel => False
  end.
Proof.
  intros Hl Hb Hs Hw. unfold parseFixedField. unfold MSG_SIZE in *.
  destruct (Z.leb_spec width 0); [done|]. erewrite bind_ok by done. cbn beta zeta.
  erewrite bind_ok by done. set (p1 := set_bitIndex _ p).
  destruct (Z.leb_spec (sp_msgSlices p * 6) (sp_bitIndex p + width)); [done|].
  set (i := sp_bitIndex p / 6). set (b := sp_bitIndex p mod 6).
  assert (sp_bitIndex p = 6 * i + b /\ 0 <= b < 6 /\ 0 <= i) as (Hib & Hb6 & Hi)
    by (subst i b; dlia).
  destruct (byteAt_in p1 i) as [x Hx]; [cbn; lia|].
  assert (forall j (q : SliceParser Src), 0 <= j -> 6 * j < 6 * 64 -> sp_msg q = sp_msg p1 ->
    exists e, noteEom j q = Ok (set_eom e q) tt) as Hnote.
  { intros j q Hj1 Hj2 Hq. destruct (byteAt_in q j) as [y Hy]; [rewrite Hq; cbn; lia|].
    unfold noteEom. erewrite bind_ok by exact Hy.
    destruct (_ =? _); [by eexists|]. exists (sp_eom q). by destruct q. }
  destruct (Z.ltb_spec 6 (b + width)); erewrite bind_ok by exact Hx.
  - destruct (middleBits_in (Z.to_nat width) p1 (i + 1) (6 - b) (width - (6 - b))
                (Z.shiftr x (b + 2))) as (i' & c' & r' & t' & E & Hi' & Hir & Hr & Hc & Hcr);
      [cbn; unfold MSG_SIZE; lia..|].
    erewrite bind_ok by exact E. cbn beta iota.
    destruct (Hnote i' p1) as [e He]; [lia|lia|done|].
    destruct (Z.ltb_spec 0 r').
    + destruct (byteAt_in p1 i') as [y Hy]; [cbn; lia|].
      erewrite bind_ok.
      2:{ erewrite bind_ok by exact Hy. rewrite shl64_small by lia. erewrite bind_ok by done.
          reflexivity. }
      erewrite bind_ok by exact He. cbn. lia.
    + erewrite bind_ok by done. erewrite bind_ok by exact He. cbn. lia.
  - destruct (Hnote i p1) as [e He]; [lia|lia|done|].
    erewrite bind_ok by exact He. cbn. lia.
Qed.
End safety.
