(* ===== verification/Source.v ===== *)
(** * Source: where the bytes of a trace come from.

    [SliceFileParser] reads either a file ([tf]) or a socket ([SWTsock], through
    the ring buffer [sockBuffer] that [bufferSWT] refills).  [ByteSource] is what
    [readBinaryMsg] uses of either; [ByteSourceLaws] is what it relies on: there
    is a list of bytes still to come, and they arrive in order.  File and Sock
    are the two implementations. *)

From S2P Require Import Prelude Nexus.

(** ** The interface *)

(** What reading one byte gives: a byte; nothing yet (socket only, the call
    returns and is retried); or an error, with the [DQErr] the parser records. *)
Inductive ReadRes := RByte (b : Z) | RNone | RFail (e : DQErr).

Class ByteSource (Src : Type) := {
  (** One [tf.read] of a byte, or [bufferSWT] and taking a byte out of the ring. *)
  next_byte : Src -> Src * ReadRes;
  (** [SWTsock >= 0]: the socket path assigns [status] on every call. *)
  is_swt : bool;
  (** [tf.tellg()]. *)
  tell : Src -> Z;
}.

Class ByteSourceLaws (Src : Type) `{ByteSource Src} := {
  pending : Src -> list Z;
  (** The state the implementation keeps itself in. *)
  src_ok : Src -> Prop;
  (** When a read finds no byte yet, and when it fails. *)
  src_dry : Src -> Prop;
  src_fail : DQErr -> Src -> Prop;
  next_ok s : src_ok s -> src_ok (fst (next_byte s));
  next_RByte s s' b :
    src_ok s -> next_byte s = (s', RByte b) -> pending s = b :: pending s';
  next_RNone s s' :
    src_ok s -> next_byte s = (s', RNone) -> pending s = pending s' /\ src_dry s';
  next_RFail s s' e :
    src_ok s -> next_byte s = (s', RFail e) -> pending s = pending s' /\ src_fail e s';
}.

(** ** Files *)

(** [f_rest]: the bytes not read yet.  A read at the end of the bytes fails; it
    is the end of the file ([tf.eof()]) or, when [f_ioerr], an I/O error. *)
Record File := { f_rest : list Z; f_pos : Z; f_ioerr : bool }.

Definition file_next (f : File) : File * ReadRes :=
  match f_rest f with
  | b :: r => ({| f_rest := r; f_pos := f_pos f + 1; f_ioerr := f_ioerr f |}, RByte b)
  | [] => (f, RFail (if f_ioerr f then DQERR_ERR else DQERR_EOF))
  end.

#[export] Instance File_source : ByteSource File := {|
  next_byte := file_next; is_swt := false; tell := f_pos |}.

#[export] Program Instance File_laws : ByteSourceLaws File := {|
  pending := f_rest; src_ok := fun _ => True; src_dry := fun _ => False;
  src_fail := fun e f => f_rest f = [] /\ e = (if f_ioerr f then DQERR_ERR else DQERR_EOF) |}.
Next Obligation. done. Qed.
Next Obligation.
  intros [r pos io] s' b _. cbn. unfold file_next. cbn. by destruct r; intros; simplify_eq.
Qed.
Next Obligation.
  intros [r pos io] s' _. cbn. unfold file_next. cbn. by destruct r; intros; simplify_eq.
Qed.
Next Obligation.
  intros [r pos io] s' e _. cbn. unfold file_next. cbn.
  by destruct r; intros; simplify_eq/=.
Qed.

(** ** Sockets *)

(** One non-blocking [recv]: bytes that are there, nothing ([EAGAIN]), or an
    error.  [RAvail] with more bytes than the call asks for leaves the rest for
    the next call; the list of future results is the environment's choice, and
    when it is used up there is nothing more to read. *)
Inductive Recv := RAvail (bs : list Z) | RAgain | RError.

(** [sizeof sockBuffer] *)
Definition RING : Z := 2048.

Record Sock := {
  sk_script : list Recv;
  sk_buffer : list Z;
  sk_in : Z;
  sk_out : Z;
}.

(** [recv(SWTsock, ..., n, MSG_DONTWAIT)]: the bytes received, or [inl] of
    whether it is a real error. *)
Definition recv (script : list Recv) (n : Z) : list Recv * (bool + list Z) :=
  match script with
  | [] => ([], inl false)
  | RAgain :: s => (s, inl false)
  | RError :: s => (s, inl true)
  | RAvail bs :: s =>
      if Z.of_nat (length bs) <=? n then (s, inr bs)
      else (RAvail (drop (Z.to_nat n) bs) :: s, inr (take (Z.to_nat n) bs))
  end.

(** The bytes received into the buffer at an offset. *)
Definition put (buf : list Z) (off : Z) (bs : list Z) : list Z :=
  take (Z.to_nat off) buf ++ bs ++ drop (Z.to_nat off + length bs) buf.

Definition set_sock (script : list Recv) (buf : list Z) (i o : Z) : Sock :=
  {| sk_script := script; sk_buffer := buf; sk_in := i; sk_out := o |}.

(** [bufferSWT]: the new state and whether the last [recv] failed with a real
    error. *)
Definition bufferSWT (k : Sock) : Sock * bool :=
  let '{| sk_script := sc; sk_buffer := buf; sk_in := i; sk_out := o |} := k in
  if i =? o then
    match recv sc (RING - 1) with
    | (sc, inl e) => (set_sock sc buf i o, e)
    | (sc, inr bs) =>
        if 0 <? Z.of_nat (length bs)
        then (set_sock sc (put buf 0 bs) (Z.of_nat (length bs)) 0, false)
        else (set_sock sc buf i o, false)
    end
  else if i <? o then
    if 0 <? o - i - 1 then
      match recv sc (o - i - 1) with
      | (sc, inl e) => (set_sock sc buf i o, e)
      | (sc, inr bs) => (set_sock sc (put buf i bs) (i + Z.of_nat (length bs)) o, false)
      end
    else (k, false)
  else
    let room := if o =? 0 then RING - i - 1 else RING - i in
    if 0 <? room then
      match recv sc room with
      | (sc, inl e) => (set_sock sc buf i o, e)
      | (sc, inr bs) =>
          let buf := put buf i bs in
          if RING <=? i + Z.of_nat (length bs) then
            if 0 <? o - 1 then
              match recv sc (o - 1) with
              | (sc, inl e) => (set_sock sc buf 0 o, e)
              | (sc, inr bs) =>
                  (set_sock sc (put buf 0 bs)
                     (if 0 <? Z.of_nat (length bs) then Z.of_nat (length bs) else 0) o, false)
              end
            else (set_sock sc buf 0 o, false)
          else (set_sock sc buf (i + Z.of_nat (length bs)) o, false)
      end
    else (k, false).

(** [bufferSWT], then one byte out of the ring if there is one. *)
Definition sock_next (k : Sock) : Sock * ReadRes :=
  let (k, failed) := bufferSWT k in
  if failed then (k, RFail DQERR_ERR)
  else if sk_in k =? sk_out k then (k, RNone)
  else
    let o := if RING <=? sk_out k + 1 then 0 else sk_out k + 1 in
    (set_sock (sk_script k) (sk_buffer k) (sk_in k) o,
     RByte (default 0 (sk_buffer k !! Z.to_nat (sk_out k)))).

(** [getNumBytesInSWTQ]: how many bytes the ring holds after refilling it. *)
Definition ring_count (k : Sock) : Z :=
  if sk_in k =? sk_out k then 0
  else if sk_in k <? sk_out k then RING - sk_out k + sk_in k
  else sk_in k - sk_out k.

Definition getNumBytesInSWTQ (k : Sock) : Sock * (DQErr + Z) :=
  let (k, failed) := bufferSWT k in
  if failed then (k, inl DQERR_ERR) else (k, inr (ring_count k)).

(** ** The ring buffer holds what the socket delivered *)

(** The bytes in the ring, oldest first. *)
Definition ring (buf : list Z) (i o : Z) : list Z :=
  if i =? o then []
  else if i <? o then drop (Z.to_nat o) buf ++ take (Z.to_nat i) buf
  else take (Z.to_nat i - Z.to_nat o) (drop (Z.to_nat o) buf).

Definition script_bytes (sc : list Recv) : list Z :=
  concat ((fun r => match r with RAvail bs => bs | _ => [] end) <$> sc).

Definition sock_pending (k : Sock) : list Z :=
  ring (sk_buffer k) (sk_in k) (sk_out k) ++ script_bytes (sk_script k).

Definition sock_ok (k : Sock) : Prop :=
  Z.of_nat (length (sk_buffer k)) = RING /\
  0 <= sk_in k < RING /\ 0 <= sk_out k < RING.

Lemma recv_spec sc n :
  0 <= n ->
  match recv sc n with
  | (sc', inl _) => script_bytes sc' = script_bytes sc
  | (sc', inr bs) => script_bytes sc = bs ++ script_bytes sc' /\ Z.of_nat (length bs) <= n
  end.
Proof.
  intros Hn. destruct sc as [|[bs| |] sc]; cbn; [done| |done..].
  destruct (Z.leb_spec (Z.of_nat (length bs)) n); cbn; [done|].
  unfold script_bytes. cbn. rewrite app_assoc, take_drop. split; [done|].
  rewrite length_take. lia.
Qed.

Section put.
Context (buf : list Z) (off : Z) (bs : list Z).
Context (Hoff : 0 <= off) (Hfit : off + Z.of_nat (length bs) <= Z.of_nat (length buf)).

Lemma length_put : length (put buf off bs) = length buf.
Proof using Hoff Hfit. unfold put. rewrite !length_app, length_take, length_drop. lia. Qed.

Lemma drop_put_ge k : (Z.to_nat off + length bs <= k)%nat -> drop k (put buf off bs) = drop k buf.
Proof using Hoff Hfit.
  intros. unfold put. rewrite app_assoc, drop_app_ge by (rewrite length_app, length_take; lia).
  rewrite drop_drop. f_equal. rewrite length_app, length_take. lia.
Qed.

Lemma take_put : take (Z.to_nat off + length bs) (put buf off bs) = take (Z.to_nat off) buf ++ bs.
Proof using Hoff Hfit.
  unfold put. rewrite app_assoc. apply take_app_length'. rewrite length_app, length_take. lia.
Qed.

Lemma drop_take_put o : (o <= Z.to_nat off)%nat ->
  take (Z.to_nat off + length bs - o) (drop o (put buf off bs)) =
  take (Z.to_nat off - o) (drop o buf) ++ bs.
Proof using Hoff Hfit.
  intros. rewrite <-!skipn_firstn_comm, take_put.
  rewrite drop_app_le by (rewrite length_take; lia). done.
Qed.
End put.

Ltac sock_goals :=
  unfold sock_ok, sock_pending, set_sock in *; cbn [fst snd sk_buffer sk_in sk_out sk_script] in *.

(** Appending to the free part of the ring. *)
Lemma ring_put_high buf i o bs :
  0 <= o < i -> i + Z.of_nat (length bs) <= Z.of_nat (length buf) ->
  take (Z.to_nat (i + Z.of_nat (length bs)) - Z.to_nat o) (drop (Z.to_nat o) (put buf i bs)) =
  ring buf i o ++ bs.
Proof.
  intros. unfold ring. case_cmp. rewrite <-drop_take_put by lia. f_equal. lia.
Qed.

Lemma ring_put_low buf i o bs :
  0 <= i < o -> i + Z.of_nat (length bs) <= o -> o <= Z.of_nat (length buf) ->
  drop (Z.to_nat o) (put buf i bs) ++ take (Z.to_nat (i + Z.of_nat (length bs))) (put buf i bs) =
  ring buf i o ++ bs.
Proof.
  intros. unfold ring. case_cmp. rewrite drop_put_ge by lia.
  replace (Z.to_nat (i + Z.of_nat (length bs))) with (Z.to_nat i + length bs)%nat by lia.
  by rewrite take_put, app_assoc by lia.
Qed.

Lemma bufferSWT_empty k :
  sock_ok k -> sk_in k = sk_out k ->
  sock_ok (fst (bufferSWT k)) /\ sock_pending (fst (bufferSWT k)) = sock_pending k.
Proof.
  destruct k as [sc buf i o]. sock_goals. intros (Hl & Hi & Ho) <-. unfold bufferSWT.
  rewrite Z.eqb_refl. pose proof (recv_spec sc (RING - 1) ltac:(done)) as Hr.
  destruct (recv sc (RING - 1)) as [sc' [e|bs]]; sock_goals; [split; [lia|by rewrite Hr]|].
  destruct Hr as [Hr Hlen]. case_cmp; sock_goals; unfold RING in *.
  - rewrite length_put by lia. split; [lia|]. rewrite Hr, app_assoc. f_equal.
    transitivity bs; [|unfold ring; by case_cmp].
    unfold ring. case_cmp. rewrite drop_0. replace (Z.to_nat (Z.of_nat (length bs)) - Z.to_nat 0)%nat
      with (Z.to_nat 0 + length bs)%nat by lia. by rewrite take_put by lia.
  - split; [lia|]. destruct bs; [|cbn in *; lia]. by rewrite Hr.
Qed.

Lemma bufferSWT_low k :
  sock_ok k -> sk_in k < sk_out k ->
  sock_ok (fst (bufferSWT k)) /\ sock_pending (fst (bufferSWT k)) = sock_pending k.
Proof.
  destruct k as [sc buf i o]. sock_goals. intros (Hl & Hi & Ho) Hlt. unfold bufferSWT.
  case_cmp; [|by sock_goals]. pose proof (recv_spec sc (o - i - 1) ltac:(lia)) as Hr.
  destruct (recv sc (o - i - 1)) as [sc' [e|bs]]; sock_goals; [split; [lia|by rewrite Hr]|].
  destruct Hr as [Hr Hlen]. rewrite length_put by lia. split; [lia|].
  rewrite Hr, app_assoc. f_equal. rewrite <-ring_put_low by lia. unfold ring. by case_cmp.
Qed.

Lemma bufferSWT_high k :
  sock_ok k -> sk_out k < sk_in k ->
  sock_ok (fst (bufferSWT k)) /\ sock_pending (fst (bufferSWT k)) = sock_pending k.
Proof.
  destruct k as [sc buf i o]. sock_goals. intros (Hl & Hi & Ho) Hlt. unfold bufferSWT.
  destruct (Z.eqb_spec i o), (Z.ltb_spec i o); try lia.
  set (room := if o =? 0 then RING - i - 1 else RING - i).
  assert (room <= RING - i /\ (o = 0 -> room <= RING - i - 1)) as [Hroom Hroom0]
    by (subst room; case_cmp; lia).
  destruct (Z.ltb_spec 0 room); [|by sock_goals].
  pose proof (recv_spec sc room ltac:(lia)) as Hr.
  destruct (recv sc room) as [sc' [e|bs]]; sock_goals; [split; [lia|by rewrite Hr]|].
  destruct Hr as [Hr Hlen].
  pose proof (ring_put_high buf i o bs ltac:(lia) ltac:(lia)) as Hput.
  pose proof (length_put buf i bs ltac:(lia) ltac:(lia)) as Hlput.
  destruct (Z.leb_spec RING (i + Z.of_nat (length bs))) as [Hfull|Hnot].
  - assert (o <> 0) by lia.
    assert (ring (put buf i bs) 0 o = ring buf i o ++ bs) as Hfullring.
    { rewrite <-Hput. unfold ring. case_cmp. rewrite app_nil_r. symmetry.
      apply take_ge. rewrite length_drop. lia. }
    destruct (Z.ltb_spec 0 (o - 1)); sock_goals.
    2:{ rewrite Hlput. split; [lia|]. by rewrite Hr, app_assoc, Hfullring. }
    pose proof (recv_spec sc' (o - 1) ltac:(lia)) as Hr2.
    destruct (recv sc' (o - 1)) as [sc2 [e|bs2]]; sock_goals.
    { rewrite Hlput. split; [lia|]. by rewrite Hr2, Hr, app_assoc, Hfullring. }
    destruct Hr2 as [Hr2 Hlen2]. rewrite length_put by lia. rewrite Hlput.
    replace (if 0 <? Z.of_nat (length bs2) then Z.of_nat (length bs2) else 0)
      with (0 + Z.of_nat (length bs2)) by (case_cmp; lia).
    split; [lia|]. rewrite Hr, Hr2, !app_assoc, <-Hfullring. f_equal.
    rewrite <-ring_put_low by lia. unfold ring. by case_cmp.
  - sock_goals. rewrite Hlput. split; [lia|]. rewrite Hr, app_assoc, <-Hput. f_equal.
    unfold ring. by case_cmp.
Qed.

Lemma bufferSWT_ok k :
  sock_ok k ->
  sock_ok (fst (bufferSWT k)) /\ sock_pending (fst (bufferSWT k)) = sock_pending k.
Proof.
  intros. destruct (Z.lt_trichotomy (sk_in k) (sk_out k)) as [|[|]];
    [apply bufferSWT_low|apply bufferSWT_empty|apply bufferSWT_high]; done.
Qed.

(** ** Taking a byte out *)

Lemma ring_head buf i o :
  Z.of_nat (length buf) = RING -> 0 <= i < RING -> 0 <= o < RING -> i <> o ->
  ring buf i o =
    default 0 (buf !! Z.to_nat o) :: ring buf i (if RING <=? o + 1 then 0 else o + 1).
Proof.
  intros Hl Hi Ho Hne. unfold RING in *.
  destruct (lookup_lt_is_Some_2 buf (Z.to_nat o)) as [x Hx]; [lia|].
  rewrite Hx. cbn [default from_option id].
  pose proof (drop_S buf x (Z.to_nat o) Hx) as Hd.
  destruct (Z.leb_spec 2048 (o + 1)); unfold ring; case_cmp; rewrite Hd;
    replace (Z.to_nat (o + 1)) with (S (Z.to_nat o)) by lia.
  - replace (Z.to_nat i) with 0%nat by lia. cbn [app]. f_equal. rewrite drop_ge by lia. done.
  - cbn [app]. f_equal. rewrite drop_ge by lia. cbn [app]. by rewrite drop_0, Nat.sub_0_r.
  - done.
  - replace (Z.to_nat i - Z.to_nat o)%nat with 1%nat by lia. done.
  - replace (Z.to_nat i - Z.to_nat o)%nat with (S (Z.to_nat i - S (Z.to_nat o))) by lia. done.
Qed.

Lemma sock_next_spec k :
  sock_ok k ->
  sock_ok (fst (sock_next k)) /\
  match snd (sock_next k) with
  | RByte b => sock_pending k = b :: sock_pending (fst (sock_next k))
  | RNone => sock_pending k = sock_pending (fst (sock_next k)) /\ ring_count (fst (sock_next k)) = 0
  | RFail e => e = DQERR_ERR /\ sock_pending k = sock_pending (fst (sock_next k))
  end.
Proof.
  intros Hok. destruct (bufferSWT_ok k Hok) as [Hok' Hp]. unfold sock_next.
  destruct (bufferSWT k) as [[sc buf i o] failed]. cbn [fst] in *. rewrite <-Hp.
  destruct failed; [done|]. sock_goals. destruct Hok' as (Hl & Hi & Ho).
  destruct (Z.eqb_spec i o) as [->|Hne]; cbn [fst snd]; sock_goals.
  - split; [done|]. split; [done|]. unfold ring_count. sock_goals. by rewrite Z.eqb_refl.
  - split; [unfold RING in *; case_cmp; lia|].
    by rewrite (ring_head buf i o) by done.
Qed.

#[export] Instance Sock_source : ByteSource Sock := {|
  next_byte := sock_next; is_swt := true; tell := fun _ => 0 |}.

#[export] Program Instance Sock_laws : ByteSourceLaws Sock := {|
  pending := sock_pending; src_ok := sock_ok; src_dry := fun k => ring_count k = 0;
  src_fail := fun e _ => e = DQERR_ERR |}.
Next Obligation. intros k Hok. by apply sock_next_spec. Qed.
Next Obligation.
  intros k k' b Hok Hn. cbn in Hn. pose proof (sock_next_spec k Hok) as [_ H]. by rewrite Hn in H.
Qed.
Next Obligation.
  intros k k' Hok Hn. cbn in Hn. pose proof (sock_next_spec k Hok) as [_ H]. by rewrite Hn in H.
Qed.
Next Obligation.
  intros k k' e Hok Hn. cbn in Hn. pose proof (sock_next_spec k Hok) as [_ H].
  rewrite Hn in H. by destruct H as [-> H].
Qed.

Lemma ring_count_length k :
  sock_ok k -> ring_count k = Z.of_nat (length (ring (sk_buffer k) (sk_in k) (sk_out k))).
Proof.
  destruct k as [sc buf i o]. sock_goals. intros (Hl & Hi & Ho). unfold ring_count, ring. sock_goals.
  unfold RING in *. case_cmp; rewrite ?length_app, ?length_take, ?length_drop; cbn [length]; lia.
Qed.
