(* ===== verification/Analytics.v ===== *)
(** * Analytics: the statistics kept with every message and instruction
    (include/dqr.hpp and src/dqr.cpp, [Analytics]).

    All counters are [uint32_t] and wrap.  They are indexed by an enumeration
    of the fields of the class ([GCtr]) and of its per-core struct ([CCtr]); the
    per-core array has [DQR_MAXCORES] elements, and an index outside it is
    undefined behaviour. *)

From S2P Require Import Prelude Nexus.

Definition DQR_MAXCORES : Z := 16.

(** The fields for all cores together. *)
Inductive GCtr :=
| num_trace_msgs_all_cores | num_trace_mseo_bits_all_cores | num_trace_bits_all_cores
| num_trace_bits_all_cores_max | num_trace_bits_all_cores_min | num_inst_all_cores
| num_inst16_all_cores | num_inst32_all_cores | num_branches_all_cores.

(** The fields of one core. *)
Inductive CCtr :=
| num_inst | num_inst16 | num_inst32
| num_trace_msgs | num_trace_syncs | num_trace_dbranch | num_trace_ibranch
| num_trace_dataacq | num_trace_dbranchws | num_trace_ibranchws | num_trace_ihistory
| num_trace_ihistoryws | num_trace_takenhistory | num_trace_resourcefull
| num_trace_correlation | num_trace_auxaccesswrite | num_trace_ownership
| num_trace_error | num_trace_incircuittraceWS | num_trace_incircuittrace
| trace_bits | trace_bits_max | trace_bits_min | trace_bits_mseo
| max_hist_bits | min_hist_bits | max_notTakenCount | min_notTakenCount
| max_takenCount | min_takenCount
| trace_bits_sync | trace_bits_dbranch | trace_bits_ibranch | trace_bits_dataacq
| trace_bits_dbranchws | trace_bits_ibranchws | trace_bits_ihistory
| trace_bits_ihistoryws | trace_bits_resourcefull | trace_bits_correlation
| trace_bits_auxaccesswrite | trace_bits_ownership | trace_bits_error
| trace_bits_incircuittraceWS | trace_bits_incircuittrace
| num_trace_ts | num_trace_uaddr | num_trace_faddr
| num_trace_ihistory_taken_branches | num_trace_ihistory_nottaken_branches
| num_trace_resourcefull_i_cnt | num_trace_resourcefull_hist
| num_trace_resourcefull_takenCount | num_trace_resourcefull_notTakenCount
| num_trace_resourcefull_taken_branches | num_trace_resourcefull_nottaken_branches
| num_taken_branches | num_notTaken_branches | num_calls | num_returns | num_swaps
| num_exceptions | num_exception_returns | num_interrupts
| trace_bits_ts | trace_bits_ts_max | trace_bits_ts_min
| trace_bits_uaddr | trace_bits_uaddr_max | trace_bits_uaddr_min
| trace_bits_faddr | trace_bits_faddr_max | trace_bits_faddr_min
| trace_bits_hist.

#[export] Instance GCtr_eq_dec : EqDecision GCtr.
Proof. solve_decision. Defined.
#[export] Instance CCtr_eq_dec : EqDecision CCtr.
Proof. solve_decision. Defined.

Record Analytics := {
  an_status : DQErr;
  an_cores : Z;
  an_all : GCtr -> Z;
  an_core : Z -> CCtr -> Z;
}.

(** [Analytics::Analytics()] *)
Definition newAnalytics : Analytics :=
  {| an_status := DQERR_OK; an_cores := 0; an_all := fun _ => 0; an_core := fun _ _ => 0 |}.

(** [currentTraceMsgNum]: the counter as an [int]. *)
Definition currentTraceMsgNum (a : Analytics) : Z := i32 (an_all a num_trace_msgs_all_cores).

(** ** Updates *)

Definition setG (c : GCtr) (v : Z) (a : Analytics) : Analytics := {|
  an_status := an_status a; an_cores := an_cores a;
  an_all := fun c' => if decide (c' = c) then u32 v else an_all a c';
  an_core := an_core a |}.

Definition setC (k : Z) (c : CCtr) (v : Z) (a : Analytics) : Analytics := {|
  an_status := an_status a; an_cores := an_cores a; an_all := an_all a;
  an_core := fun k' c' => if decide (k' = k /\ c' = c) then u32 v else an_core a k' c' |}.

Definition setAStatus (e : DQErr) (a : Analytics) : Analytics := {|
  an_status := e; an_cores := an_cores a; an_all := an_all a; an_core := an_core a |}.

Definition setCores (v : Z) (a : Analytics) : Analytics := {|
  an_status := an_status a; an_cores := v; an_all := an_all a; an_core := an_core a |}.

(** [x += n] *)
Definition addG (c : GCtr) (n : Z) (a : Analytics) : Analytics := setG c (an_all a c + n) a.
Definition addC (k : Z) (c : CCtr) (n : Z) (a : Analytics) : Analytics :=
  setC k c (an_core a k c + n) a.

(** [if (n > x) x = n;] and [if ((x == 0) || (n < x)) x = n;] *)
Definition maxG (c : GCtr) (n : Z) (a : Analytics) : Analytics :=
  if an_all a c <? n then setG c n a else a.
Definition minG (c : GCtr) (n : Z) (a : Analytics) : Analytics :=
  if (an_all a c =? 0) || (n <? an_all a c) then setG c n a else a.
Definition maxC (k : Z) (c : CCtr) (n : Z) (a : Analytics) : Analytics :=
  if an_core a k c <? n then setC k c n a else a.
Definition minC (k : Z) (c : CCtr) (n : Z) (a : Analytics) : Analytics :=
  if (an_core a k c =? 0) || (n <? an_core a k c) then setC k c n a else a.

(** ** Messages *)

(** The part of [updateTraceInfo] before the switch. *)
Definition updateBits (k bits mseo_bits ts_bits : Z) (a : Analytics) : Analytics :=
  let a := addG num_trace_msgs_all_cores 1 a in
  let a := addG num_trace_bits_all_cores bits a in
  let a := addG num_trace_mseo_bits_all_cores mseo_bits a in
  let a := addC k num_trace_msgs 1 a in
  let a := maxG num_trace_bits_all_cores_max bits a in
  let a := minG num_trace_bits_all_cores_min bits a in
  let a := addC k trace_bits_mseo mseo_bits a in
  let a := addC k trace_bits bits a in
  let a := maxC k trace_bits_max bits a in
  let a := minC k trace_bits_min bits a in
  let a := setCores (Z.lor (an_cores a) (Z.shiftl 1 k)) a in
  if 0 <? ts_bits then
    let a := addC k num_trace_ts 1 a in
    let a := addC k trace_bits_ts ts_bits a in
    minC k trace_bits_ts_min ts_bits (maxC k trace_bits_ts_max ts_bits a)
  else a.

(** The loop over a branch history: [msb], [taken] and [nottaken] when
    [mask <= 1]. *)
Fixpoint histLoop (fuel : nat) (mask msb taken nottaken : Z) : Z * Z * Z :=
  if 1 <? mask then
    match fuel with
    | O => (msb, taken, nottaken)
    | S fuel =>
        histLoop fuel (Z.shiftr mask 1) (msb + 1)
          (if Z.testbit mask 0 then taken + 1 else taken)
          (if Z.testbit mask 0 then nottaken else nottaken + 1)
    end
  else (msb, taken, nottaken).

(** The counting of one history; [num_branches_all_cores] grows by
    [extra + taken + nottaken]. *)
Definition updateHist (k history extra : Z) (a : Analytics) : Analytics :=
  let '(msb, taken, nottaken) := histLoop 64 history (-1) (-1) 0 in
  let a := addC k num_trace_ihistory_taken_branches taken a in
  let a := addC k num_trace_ihistory_nottaken_branches nottaken a in
  let a := if 0 <=? msb then
             let a := addC k trace_bits_hist (msb + 1) a in
             if i32 (an_core a k max_hist_bits) <=? msb
             then setC k max_hist_bits (msb + 1) a else a
           else a in
  let a := if msb + 1 <? i32 (an_core a k min_hist_bits)
           then setC k min_hist_bits (msb + 1) a else a in
  addG num_branches_all_cores (extra + taken + nottaken) a.

(** The address counters, for a message with a [u_addr] or an [f_addr]. *)
Definition updateUAddr (k addr_bits : Z) (a : Analytics) : Analytics :=
  let a := addC k trace_bits_uaddr addr_bits (addC k num_trace_uaddr 1 a) in
  minC k trace_bits_uaddr_min addr_bits (maxC k trace_bits_uaddr_max addr_bits a).
Definition updateFAddr (k addr_bits : Z) (a : Analytics) : Analytics :=
  let a := addC k trace_bits_faddr addr_bits (addC k num_trace_faddr 1 a) in
  minC k trace_bits_faddr_min addr_bits (maxC k trace_bits_faddr_max addr_bits a).

(** The resource-full cases. *)
Definition updateResourceFull (k : Z) (b : Body) (a : Analytics) : option (Analytics * bool) :=
  match b with
  | B_resourceFull rCode rd =>
      match rCode, rd with
      | 0, R_i_cnt _ => Some (addC k num_trace_resourcefull_i_cnt 1 a, true)
      | 1, R_history h =>
          Some (updateHist k h 0 (addC k num_trace_resourcefull_hist 1 a), true)
      | 8, R_notTakenCount n =>
          let a := addC k num_trace_resourcefull_notTakenCount 1 a in
          let a := addC k num_trace_resourcefull_nottaken_branches n a in
          Some (minC k min_notTakenCount n (maxC k max_notTakenCount n a), true)
      | 9, R_takenCount n =>
          let a := addC k num_trace_resourcefull_takenCount 1 a in
          let a := addC k num_trace_resourcefull_taken_branches n a in
          Some (minC k min_takenCount n (maxC k max_takenCount n a), true)
      | _, _ => if decide (rCode ∈ [0; 1; 8; 9]) then None else Some (a, false)
      end
  | _ => None
  end.

(** The switch of [updateTraceInfo]: the new counters; [None] when a member of
    the union that is not active is read. *)
Definition updateByTCode (k bits addr_bits : Z) (nm : NexusMessage) (a : Analytics)
    : option (Analytics * bool) :=
  match nm_tcode nm with
  | TCODE_OWNERSHIP_TRACE =>
      Some (addC k trace_bits_ownership bits (addC k num_trace_ownership 1 a), true)
  | TCODE_DIRECT_BRANCH =>
      let a := addC k trace_bits_dbranch bits (addC k num_trace_dbranch 1 a) in
      Some (addG num_branches_all_cores 1 a, true)
  | TCODE_INDIRECT_BRANCH =>
      let a := addC k trace_bits_ibranch bits (addC k num_trace_ibranch 1 a) in
      Some (updateUAddr k addr_bits (addG num_branches_all_cores 1 a), true)
  | TCODE_DATA_ACQUISITION =>
      Some (addC k trace_bits_dataacq bits (addC k num_trace_dataacq 1 a), true)
  | TCODE_ERROR =>
      Some (addC k trace_bits_error bits (addC k num_trace_error 1 a), true)
  | TCODE_SYNC =>
      let a := addC k trace_bits_sync bits (addC k num_trace_syncs 1 a) in
      Some (updateFAddr k addr_bits a, true)
  | TCODE_DIRECT_BRANCH_WS =>
      let a := addC k trace_bits_dbranchws bits (addC k num_trace_dbranchws 1 a) in
      Some (updateFAddr k addr_bits (addG num_branches_all_cores 1 a), true)
  | TCODE_INDIRECT_BRANCH_WS =>
      let a := addC k trace_bits_ibranchws bits (addC k num_trace_ibranchws 1 a) in
      Some (updateFAddr k addr_bits (addG num_branches_all_cores 1 a), true)
  | TCODE_AUXACCESS_WRITE =>
      Some (addC k trace_bits_auxaccesswrite bits (addC k num_trace_auxaccesswrite 1 a), true)
  | TCODE_CORRELATION =>
      Some (addC k trace_bits_ibranchws bits (addC k num_trace_correlation 1 a), true)
  | TCODE_INDIRECTBRANCHHISTORY =>
      let a := addC k trace_bits_ihistory bits (addC k num_trace_ihistory 1 a) in
      match nm_body nm with
      | B_indirectHistory _ _ _ h => Some (updateUAddr k addr_bits (updateHist k h 1 a), true)
      | _ => None
      end
  | TCODE_INDIRECTBRANCHHISTORY_WS =>
      let a := addC k trace_bits_ihistoryws bits (addC k num_trace_ihistoryws 1 a) in
      match nm_body nm with
      | B_indirectHistoryWS _ _ _ h _ => Some (updateFAddr k addr_bits (updateHist k h 1 a), true)
      | _ => None
      end
  | TCODE_RESOURCEFULL =>
      updateResourceFull k (nm_body nm)
        (addC k trace_bits_resourcefull bits (addC k num_trace_resourcefull 1 a))
  | TCODE_INCIRCUITTRACE =>
      let a := addC k trace_bits_incircuittrace bits (addC k num_trace_incircuittrace 1 a) in
      Some (updateUAddr k addr_bits a, true)
  | TCODE_INCIRCUITTRACE_WS =>
      let a := addC k trace_bits_incircuittraceWS bits (addC k num_trace_incircuittraceWS 1 a) in
      Some (updateFAddr k addr_bits a, true)
  | _ => Some (a, false)
  end.

(** [Analytics::updateTraceInfo]: the new counters, whose [an_status] is the
    result of the call; [None] is undefined behaviour. *)
Definition updateTraceInfo (nm : NexusMessage) (bits mseo_bits ts_bits addr_bits : Z)
    (a : Analytics) : option Analytics :=
  let k := nm_coreId nm in
  if DQR_MAXCORES <=? k then None
  else
    '(a, known) ← updateByTCode k bits addr_bits nm (updateBits k bits mseo_bits ts_bits a);
    Some (if known : bool then a else setAStatus DQERR_ERR a).

(** ** Instructions *)

Inductive BranchFlags := BRFLAG_none | BRFLAG_unknown | BRFLAG_taken | BRFLAG_notTaken.
#[export] Instance BranchFlags_eq_dec : EqDecision BranchFlags.
Proof. solve_decision. Defined.

(** [enum CallReturnFlag]: bits of an [int]. *)
Definition isNone : Z := 0.
Definition isCall : Z := 1.
Definition isReturn : Z := 2.
Definition isSwap : Z := 4.
Definition isInterrupt : Z := 8.
Definition isException : Z := 16.
Definition isExceptionReturn : Z := 32.

Definition updateInstructionInfo (k instSize crFlags : Z) (br : BranchFlags) (a : Analytics)
    : option Analytics :=
  if DQR_MAXCORES <=? k then None
  else
    let a := addC k num_inst 1 (addG num_inst_all_cores 1 a) in
    let a := if instSize =? 16 then addC k num_inst16 1 (addG num_inst16_all_cores 1 a)
             else if instSize =? 32 then addC k num_inst32 1 (addG num_inst32_all_cores 1 a)
             else setAStatus DQERR_ERR a in
    let a := match br with
             | BRFLAG_none | BRFLAG_unknown => a
             | BRFLAG_taken => addC k num_taken_branches 1 a
             | BRFLAG_notTaken => addC k num_notTaken_branches 1 a
             end in
    let count flag c a := if Z.land crFlags flag =? 0 then a else addC k c 1 a in
    let a := count isCall num_calls a in
    let a := count isReturn num_returns a in
    let a := count isSwap num_swaps a in
    let a := count isInterrupt num_interrupts a in
    let a := count isException num_exceptions a in
    Some (count isExceptionReturn num_exception_returns a).

(** ** What an update leaves alone *)

Create Rewrite HintDb dqr_an.

Section frame.
Context (a : Analytics).

Lemma status_setG c v : an_status (setG c v a) = an_status a. Proof. done. Qed.
Lemma status_setC k c v : an_status (setC k c v a) = an_status a. Proof. done. Qed.
Lemma all_setC k c v c' : an_all (setC k c v a) c' = an_all a c'. Proof. done. Qed.
Lemma core_setG c v k' c' : an_core (setG c v a) k' c' = an_core a k' c'. Proof. done. Qed.
Lemma all_setG_ne c v c' : c' <> c -> an_all (setG c v a) c' = an_all a c'.
Proof. intros. cbn. by rewrite decide_False. Qed.
Lemma core_setC_ne k c v k' c' :
  k' <> k \/ c' <> c -> an_core (setC k c v a) k' c' = an_core a k' c'.
Proof. intros H. cbn. rewrite decide_False; [done|]. intros [-> ->]. by destruct H. Qed.
Lemma all_setG c v : an_all (setG c v a) c = u32 v.
Proof. cbn. by rewrite decide_True. Qed.
Lemma core_setC k c v : an_core (setC k c v a) k c = u32 v.
Proof. cbn. by rewrite decide_True. Qed.
End frame.
#[export] Hint Rewrite status_setG status_setC all_setC core_setG all_setG core_setC : dqr_an.
#[export] Hint Rewrite all_setG_ne using done : dqr_an.
#[export] Hint Rewrite core_setC_ne using (first [by left|by right]) : dqr_an.

(** What every update of the statistics of core [k] by a message has in common:
    the status, the other cores, and the counters that only count messages. *)
Definition keeps (k : Z) (a a' : Analytics) : Prop :=
  an_status a' = an_status a /\
  an_all a' num_trace_msgs_all_cores = an_all a num_trace_msgs_all_cores /\
  an_core a' k trace_bits = an_core a k trace_bits /\
  forall k' c, k' <> k -> an_core a' k' c = an_core a k' c.

#[export] Instance keeps_refl k : Reflexive (keeps k).
Proof. done. Qed.
#[export] Instance keeps_trans k : Transitive (keeps k).
Proof. intros a b c (?&?&?&H) (?&?&?&H'). repeat split; try congruence. intros. by rewrite H', H. Qed.

Section keeps.
Context (k : Z) (a : Analytics).

Lemma keeps_setC c v : c <> trace_bits -> keeps k a (setC k c v a).
Proof.
  intros. repeat split; autorewrite with dqr_an; try done.
  intros. by rewrite core_setC_ne by auto.
Qed.
Lemma keeps_setG c v : c <> num_trace_msgs_all_cores -> keeps k a (setG c v a).
Proof. intros. repeat split; try done. by rewrite all_setG_ne by done. Qed.

Lemma keeps_setCores v : keeps k a (setCores v a).
Proof. done. Qed.
Lemma keeps_addC c v : c <> trace_bits -> keeps k a (addC k c v a).
Proof. apply keeps_setC. Qed.
Lemma keeps_addG c v : c <> num_trace_msgs_all_cores -> keeps k a (addG c v a).
Proof. apply keeps_setG. Qed.
Lemma keeps_maxC c v : c <> trace_bits -> keeps k a (maxC k c v a).
Proof. intros. unfold maxC. destruct (_ <? _); [by apply keeps_setC|done]. Qed.
Lemma keeps_minC c v : c <> trace_bits -> keeps k a (minC k c v a).
Proof. intros. unfold minC. destruct (_ || _); [by apply keeps_setC|done]. Qed.
Lemma keeps_maxG c v : c <> num_trace_msgs_all_cores -> keeps k a (maxG c v a).
Proof. intros. unfold maxG. destruct (_ <? _); [by apply keeps_setG|done]. Qed.
Lemma keeps_minG c v : c <> num_trace_msgs_all_cores -> keeps k a (minG c v a).
Proof. intros. unfold minG. destruct (_ || _); [by apply keeps_setG|done]. Qed.
End keeps.

(** Peel the last update off. *)
Ltac keeps_step :=
  lazymatch goal with
  | |- keeps ?k ?a ?a => reflexivity
  | |- keeps ?k ?a (addC _ _ _ ?b) => transitivity b; [|by apply keeps_addC]
  | |- keeps ?k ?a (addG _ _ ?b) => transitivity b; [|by apply keeps_addG]
  | |- keeps ?k ?a (setC _ _ _ ?b) => transitivity b; [|by apply keeps_setC]
  | |- keeps ?k ?a (maxC _ _ _ ?b) => transitivity b; [|by apply keeps_maxC]
  | |- keeps ?k ?a (minC _ _ _ ?b) => transitivity b; [|by apply keeps_minC]
  | |- keeps ?k ?a (maxG _ _ ?b) => transitivity b; [|by apply keeps_maxG]
  | |- keeps ?k ?a (minG _ _ ?b) => transitivity b; [|by apply keeps_minG]
  | |- keeps ?k ?a (setCores _ ?b) => transitivity b; [|by apply keeps_setCores]
  | |- keeps ?k ?a (if ?b then _ else _) => destruct b
  end.

Lemma keeps_updateHist k h extra a : keeps k a (updateHist k h extra a).
Proof.
  unfold updateHist. destruct (histLoop 64 h (-1) (-1) 0) as [[msb taken] nottaken].
  cbn beta zeta. repeat keeps_step.
Qed.

Lemma keeps_updateUAddr k n a : keeps k a (updateUAddr k n a).
Proof. unfold updateUAddr. cbn beta zeta. repeat keeps_step. Qed.
Lemma keeps_updateFAddr k n a : keeps k a (updateFAddr k n a).
Proof. unfold updateFAddr. cbn beta zeta. repeat keeps_step. Qed.

Ltac keeps_all :=
  repeat first
    [ keeps_step
    | lazymatch goal with
      | |- keeps _ _ (updateHist _ _ _ ?b) => transitivity b; [|apply keeps_updateHist]
      | |- keeps _ _ (updateUAddr _ _ ?b) => transitivity b; [|apply keeps_updateUAddr]
      | |- keeps _ _ (updateFAddr _ _ ?b) => transitivity b; [|apply keeps_updateFAddr]
      end ].

(** Whatever the message, its update keeps these. *)
Lemma updateByTCode_keeps k bits addr_bits nm a a' known :
  updateByTCode k bits addr_bits nm a = Some (a', known) -> keeps k a a'.
Proof.
  unfold updateByTCode. destruct (nm_tcode nm); cbn beta zeta; intros H;
    try (injection H as <- _; by keeps_all).
  - unfold updateResourceFull in H. destruct (nm_body nm) as [| | | | | | |r rd| | | | | | | |];
      try done.
    assert (forall b, (if decide (r ∈ [0; 1; 8; 9]) then None else Some (b, false)) = Some (a', known) ->
            a' = b) as Helse by (intros b; destruct (decide _); congruence).
    repeat match goal with
    | H : match ?x with _ => _ end = Some _ |- _ =>
        first [ apply Helse in H as ->; by keeps_all
              | injection H as <- _; by keeps_all
              | destruct x ]
    end; first [apply Helse in H as ->|injection H as <- _]; by keeps_all.
  - destruct (nm_body nm); try done. injection H as <- _. by keeps_all.
  - destruct (nm_body nm); try done. injection H as <- _. by keeps_all.
Qed.

(** The values of what [keeps] keeps. *)
Definition totals (k : Z) (st : DQErr) (msgs bits : Z) (others : Z -> CCtr -> Z) (a : Analytics) : Prop :=
  an_status a = st /\ an_all a num_trace_msgs_all_cores = msgs /\
  an_core a k trace_bits = bits /\ forall k' c, k' <> k -> an_core a k' c = others k' c.

Lemma totals_keeps k st m b o a a' : keeps k a a' -> totals k st m b o a -> totals k st m b o a'.
Proof. intros (?&?&?&H) (?&?&?&H'). repeat split; try congruence. intros. by rewrite H, H'. Qed.

Lemma totals_msg k st m b o a :
  totals k st m b o a -> totals k st (u32 (m + 1)) b o (addG num_trace_msgs_all_cores 1 a).
Proof. intros (?&<-&?&?). unfold addG. repeat split; autorewrite with dqr_an; done. Qed.

Lemma totals_bits k st m b o n a :
  totals k st m b o a -> totals k st m (u32 (b + n)) o (addC k trace_bits n a).
Proof.
  intros (?&?&<-&H). unfold addC. repeat split; autorewrite with dqr_an; try done.
  intros. rewrite core_setC_ne by auto. auto.
Qed.

Lemma totals_updateBits k bits mseo ts a :
  totals k (an_status a) (u32 (an_all a num_trace_msgs_all_cores + 1))
    (u32 (an_core a k trace_bits + bits)) (an_core a) (updateBits k bits mseo ts a).
Proof.
  unfold updateBits. cbn zeta.
  match goal with |- totals _ _ _ _ _ (if _ then minC _ _ _ (maxC _ _ _ (addC _ _ _ (addC _ _ _ ?b))) else _) =>
    apply (totals_keeps k _ _ _ _ b); [keeps_all|] end.
  match goal with |- totals _ _ _ _ _ (setCores _ (minC _ _ _ (maxC _ _ _ ?b))) =>
    apply (totals_keeps k _ _ _ _ b); [keeps_all|] end.
  apply totals_bits.
  eapply totals_keeps; [|apply totals_msg; by repeat split]. keeps_all.
Qed.

(** The effect of a message on the totals of its core, and on nothing of the
    other cores. *)
Lemma updateTraceInfo_totals nm bits mseo ts addr a a' :
  updateTraceInfo nm bits mseo ts addr a = Some a' ->
  an_all a' num_trace_msgs_all_cores = u32 (an_all a num_trace_msgs_all_cores + 1) /\
  an_core a' (nm_coreId nm) trace_bits = u32 (an_core a (nm_coreId nm) trace_bits + bits) /\
  forall k c, k <> nm_coreId nm -> an_core a' k c = an_core a k c.
Proof.
  unfold updateTraceInfo. destruct (_ <=? _); [done|].
  destruct (updateByTCode _ _ _ _ _) as [[a1 known]|] eqn:E; cbn; intros [= <-].
  apply updateByTCode_keeps in E.
  destruct (totals_keeps _ _ _ _ _ _ _ E (totals_updateBits _ _ _ _ _)) as (?&?&?&?).
  by destruct known.
Qed.

(** A message with the struct of its type never fails. *)
Lemma updateTraceInfo_ok nm bits mseo ts addr a :
  nm_coreId nm < DQR_MAXCORES -> body_matches (nm_tcode nm) (nm_body nm) = true ->
  exists a', updateTraceInfo nm bits mseo ts addr a = Some a' /\ an_status a' = an_status a.
Proof.
  intros Hk Hm. unfold updateTraceInfo. destruct (Z.leb_spec DQR_MAXCORES (nm_coreId nm)); [lia|].
  set (a0 := updateBits _ _ _ _ a).
  assert (exists a', updateByTCode (nm_coreId nm) bits addr nm a0 = Some (a', true)) as [a1 E].
  { unfold updateByTCode.
    destruct (nm_tcode nm), (nm_body nm); try done; try (by eexists).
    cbn in Hm. unfold updateResourceFull.
    repeat match type of Hm with
    | match ?x with _ => _ end = true => destruct x; try done
    end; by eexists. }
  rewrite E. cbn. exists a1. split; [done|].
  apply updateByTCode_keeps in E.
  by destruct (totals_keeps _ _ _ _ _ _ _ E (totals_updateBits _ _ _ _ _)) as (?&?&?&?).
Qed.

(** ** Counting the branches of a history *)

Definition count_outcomes (v : bool) (l : list bool) : Z :=
  foldr (fun x n => (if eqb x v then 1 else 0) + n) 0 l.

Lemma outcomes_half n : forall h, 0 <= h -> outcomes (S n) h = outcomes n (h / 2) ++ [Z.testbit h 0].
Proof.
  induction n as [|n IH]; intros h Hh; [done|].
  change (outcomes (S (S n)) h) with (Z.testbit h (Z.of_nat (S n)) :: outcomes (S n) h).
  rewrite IH by done. cbn [outcomes app]. f_equal.
  change (h / 2) with (h / 2 ^ 1). rewrite Z.div_pow2_bits by lia. f_equal. lia.
Qed.

Lemma count_outcomes_app v l x :
  count_outcomes v (l ++ [x]) = count_outcomes v l + (if eqb x v then 1 else 0).
Proof. unfold count_outcomes. induction l as [|y l IH]; cbn in *; lia. Qed.

Lemma count_outcomes_total l :
  count_outcomes true l + count_outcomes false l = Z.of_nat (length l).
Proof. unfold count_outcomes. induction l as [|[] l IH]; cbn [foldr eqb length] in *; lia. Qed.

Lemma length_outcomes n h : length (outcomes n h) = n.
Proof. induction n; cbn; congruence. Qed.

Lemma histLoop_spec fuel : forall mask msb t n,
  0 < mask -> Z.log2 mask <= Z.of_nat fuel ->
  let l := outcomes (Z.to_nat (Z.log2 mask)) mask in
  histLoop fuel mask msb t n =
    (msb + Z.log2 mask, t + count_outcomes true l, n + count_outcomes false l).
Proof.
  induction fuel as [|fuel IH]; intros mask msb t n Hm Hf; cbn [histLoop];
    pose proof (Z.log2_nonneg mask).
  - replace (Z.log2 mask) with 0 in * by lia. cbn [Z.to_nat outcomes count_outcomes foldr].
    rewrite !Z.add_0_r. by destruct (1 <? mask).
  - destruct (Z.ltb_spec 1 mask) as [H1|H1].
    + assert (Z.log2 mask = Z.log2 (mask / 2) + 1) as Hlog.
      { change (mask / 2) with (mask / 2 ^ 1). rewrite <-Z.shiftr_div_pow2 by lia. rewrite Z.log2_shiftr by lia.
        pose proof (Z.log2_pos mask ltac:(lia)). lia. }
      rewrite (Z.shiftr_div_pow2 mask 1) by lia. change (2 ^ 1) with 2.
      assert (0 < mask / 2) by dlia. rewrite IH by lia. rewrite Hlog.
      pose proof (Z.log2_nonneg (mask / 2)).
      replace (Z.to_nat (Z.log2 (mask / 2) + 1)) with (S (Z.to_nat (Z.log2 (mask / 2)))) by lia.
      rewrite outcomes_half by lia. rewrite !count_outcomes_app.
      destruct (Z.testbit mask 0); cbn [eqb]; (f_equal; [f_equal|]; lia).
    + assert (mask = 1) as -> by lia. cbn [Z.log2 Z.to_nat outcomes count_outcomes foldr].
      by rewrite !Z.add_0_r.
Qed.
