(* ===== verification/Messages.v ===== *)
(** * Messages: parsing one trace message
    (src/dqr.cpp, the [SliceFileParser::parse...] functions and
    [readNextTraceMsg]).

    Every parser has the same outline: the source field, the fields of its
    message type, an optional timestamp that must end the message, and the
    bookkeeping of [Analytics].  [parseMsg] is that outline; a parser gives it
    the reader of its own fields, which returns the struct of the union, the
    bits read and [addr_bits].  A parser that fails leaves [nm] half written:
    nothing reads it then ([haveMsg] is [false]), so the model returns the new
    [NexusMessage] only on success. *)

From S2P Require Import Prelude Nexus Slices Source Framing Analytics.

Section messages.
Context {Src : Type}.
Implicit Type p : SliceParser Src.
#[local] Abbreviation P := (M (SliceParser Src) DQErr).
#[local] Abbreviation PA := (M (SliceParser Src * Analytics) DQErr).

(** A parser step, the analytics unchanged. *)
Definition onParser {A} (m : P A) : PA A := fun s =>
  match m (fst s) with
  | Ok p a => Ok (p, snd s) a
  | Err p e => Err (p, snd s) e
  | Undef => Undef
  | NoFuel => NoFuel
  end.

(** [rc = parse...Field(...); if (rc != DQERR_OK) { status = rc; return status; }] *)
Definition checked {A} (m : P A) : P A := fun p =>
  match m p with
  | Err p e => Err (set_status e p) e
  | r => r
  end.

Definition fixedField (width : Z) : P Z := checked (parseFixedField width).
Definition varField : P (Z * Z) := checked parseVarField.

(** The source field: the core and the bits read. *)
Definition parseSrc : P (Z * Z) :=
  p ← get;
  if 0 <? sp_srcbits p
  then tmp ← fixedField (sp_srcbits p); mret (u8 tmp, sp_srcbits p)
  else mret (0, 0).

(** The optional timestamp and its width. *)
Definition parseTimestamp : P (option Z * Z) :=
  p ← get;
  if sp_eom p then mret (None, 0)
  else
    '(tmp, width) ← varField;
    p ← get;
    if negb (sp_eom p) then fail DQERR_BM
    else mret (Some tmp, width).

(** [status = analytics.updateTraceInfo(...); nm.msgNum = ...; return status;] *)
Definition account (nm : NexusMessage) (bits ts_bits addr_bits : Z) : PA NexusMessage := fun s =>
  let (p, a) := s in
  match updateTraceInfo nm (u32 (bits + sp_msgSlices p * 2)) (u32 (sp_msgSlices p * 2))
          ts_bits addr_bits a with
  | None => Undef
  | Some a =>
      if decide (an_status a = DQERR_OK)
      then Ok (set_status DQERR_OK p, a) (set_msgNum (currentTraceMsgNum a) nm)
      else Err (set_status (an_status a) p, a) (an_status a)
  end.

Definition parseMsg (t : TCode) (fields : P (Body * Z * Z)) (nm : NexusMessage)
    : PA NexusMessage :=
  '(core, src_bits) ← onParser parseSrc;
  '(body, bits, addr_bits) ← onParser fields;
  '(ts, ts_bits) ← onParser parseTimestamp;
  account (set_ts ts (set_body body (set_head t core nm)))
    (6 + src_bits + bits + ts_bits) ts_bits addr_bits.

(** ** The fields of each message type *)

(** The [CKDATA] fields: one, or two when [ckdf] is 1. *)
Definition ictFields : P (Z * Z * Z * option Z * Z * Z) :=
  cksrc ← fixedField 4;
  ckdf ← fixedField 2;
  if 1 <? ckdf then fail DQERR_ERR
  else
    '(d0, w0) ← varField;
    if ckdf =? 1 then
      '(d1, w1) ← varField;
      mret (cksrc, ckdf, d0, Some d1, 6 + w0 + w1, w1)
    else mret (cksrc, ckdf, d0, None, 6 + w0, w0).

Definition parseICT : NexusMessage -> PA NexusMessage :=
  parseMsg TCODE_INCIRCUITTRACE (
    '(cksrc, ckdf, d0, d1, bits, addr_bits) ← ictFields;
    mret (B_ict (ict_of cksrc) ckdf d0 d1, bits, addr_bits)).

Definition parseICTWS : NexusMessage -> PA NexusMessage :=
  parseMsg TCODE_INCIRCUITTRACE_WS (
    '(cksrc, ckdf, d0, d1, bits, addr_bits) ← ictFields;
    mret (B_ictWS (ict_of cksrc) ckdf d0 d1, bits, addr_bits)).

Definition parseIndirectHistory : NexusMessage -> PA NexusMessage :=
  parseMsg TCODE_INDIRECTBRANCHHISTORY (
    b_type ← fixedField 2;
    '(i_cnt, w0) ← varField;
    '(u_addr, w1) ← varField;
    '(history, w2) ← varField;
    mret (B_indirectHistory (i32 i_cnt) u_addr (btype_of b_type) history,
          2 + w0 + w1 + w2, w1)).

Definition parseIndirectHistoryWS : NexusMessage -> PA NexusMessage :=
  parseMsg TCODE_INDIRECTBRANCHHISTORY_WS (
    sync ← fixedField 4;
    b_type ← fixedField 2;
    '(i_cnt, w0) ← varField;
    '(f_addr, w1) ← varField;
    '(history, w2) ← varField;
    mret (B_indirectHistoryWS (i32 i_cnt) f_addr (btype_of b_type) history (sync_of sync),
          6 + w0 + w1 + w2, w1)).

Definition parseResourceFull : NexusMessage -> PA NexusMessage :=
  parseMsg TCODE_RESOURCEFULL (
    rCode ← fixedField 4;
    '(tmp, w) ← varField;
    match rCode with
    | 0 => mret (B_resourceFull 0 (R_i_cnt (i32 tmp)), 4 + w, 0)
    | 1 => mret (B_resourceFull 1 (R_history tmp), 4 + w, 0)
    | 8 => mret (B_resourceFull 8 (R_notTakenCount (u32 (i32 tmp))), 4 + w, 0)
    | 9 => mret (B_resourceFull 9 (R_takenCount (u32 (i32 tmp))), 4 + w, 0)
    | _ => fail DQERR_ERR
    end).

Definition parseDirectBranch : NexusMessage -> PA NexusMessage :=
  parseMsg TCODE_DIRECT_BRANCH (
    '(i_cnt, w) ← varField;
    mret (B_directBranch (i32 i_cnt), w, 0)).

Definition parseDirectBranchWS : NexusMessage -> PA NexusMessage :=
  parseMsg TCODE_DIRECT_BRANCH_WS (
    sync ← fixedField 4;
    '(i_cnt, w0) ← varField;
    '(f_addr, w1) ← varField;
    mret (B_directBranchWS (i32 i_cnt) f_addr (sync_of sync), 4 + w0 + w1, w1)).

Definition parseIndirectBranch : NexusMessage -> PA NexusMessage :=
  parseMsg TCODE_INDIRECT_BRANCH (
    b_type ← fixedField 2;
    '(i_cnt, w0) ← varField;
    '(u_addr, w1) ← varField;
    mret (B_indirectBranch (i32 i_cnt) u_addr (btype_of b_type), 2 + w0 + w1, w1)).

Definition parseIndirectBranchWS : NexusMessage -> PA NexusMessage :=
  parseMsg TCODE_INDIRECT_BRANCH_WS (
    sync ← fixedField 4;
    b_type ← fixedField 2;
    '(i_cnt, w0) ← varField;
    '(f_addr, w1) ← varField;
    mret (B_indirectBranchWS (i32 i_cnt) f_addr (btype_of b_type) (sync_of sync),
          6 + w0 + w1, w1)).

Definition parseSync : NexusMessage -> PA NexusMessage :=
  parseMsg TCODE_SYNC (
    sync ← fixedField 4;
    '(i_cnt, w0) ← varField;
    '(f_addr, w1) ← varField;
    mret (B_sync (i32 i_cnt) f_addr (sync_of sync), 4 + w0 + w1, w1)).

Definition parseCorrelation : NexusMessage -> PA NexusMessage :=
  parseMsg TCODE_CORRELATION (
    evcode ← fixedField 4;
    cdf ← fixedField 2;
    '(i_cnt, w0) ← varField;
    match cdf with
    | 0 => mret (B_correlation None (i32 i_cnt) 0 evcode, 6 + w0, 0)
    | 1 =>
        '(history, w1) ← varField;
        mret (B_correlation (Some history) (i32 i_cnt) 1 evcode, 6 + w0 + w1, 0)
    | _ => fail DQERR_ERR
    end).

(** The variable field of an error message is read and ignored. *)
Definition parseError : NexusMessage -> PA NexusMessage :=
  parseMsg TCODE_ERROR (
    etype ← fixedField 4;
    '(_, w) ← varField;
    mret (B_error etype, 4 + w, 0)).

Definition parseOwnershipTrace : NexusMessage -> PA NexusMessage :=
  parseMsg TCODE_OWNERSHIP_TRACE (
    '(tmp, w) ← varField;
    mret (B_ownership (i32 (Z.shiftr tmp 5)) (Z.land (Z.shiftr tmp 4) 1)
            (Z.land (Z.shiftr tmp 2) 3) (Z.land tmp 3), w, 0)).

Definition parseAuxAccessWrite : NexusMessage -> PA NexusMessage :=
  parseMsg TCODE_AUXACCESS_WRITE (
    '(addr, w0) ← varField;
    '(data, w1) ← varField;
    mret (B_auxAccessWrite (u32 data) (u32 addr), w0 + w1, 0)).

Definition parseDataAcquisition : NexusMessage -> PA NexusMessage :=
  parseMsg TCODE_DATA_ACQUISITION (
    '(idTag, w0) ← varField;
    '(data, w1) ← varField;
    mret (B_dataAcquisition (u32 idTag) (u32 data), w0 + w1, 0)).

(** ** Reading the next message *)

(** The switch on the TCODE.  For a TCODE that is unknown or not supported the
    error is returned and [status] is not assigned. *)
Definition parseByTCode (tcode : Z) (nm : NexusMessage) : PA NexusMessage :=
  match tcode_of tcode with
  | Some TCODE_OWNERSHIP_TRACE => parseOwnershipTrace nm
  | Some TCODE_DIRECT_BRANCH => parseDirectBranch nm
  | Some TCODE_INDIRECT_BRANCH => parseIndirectBranch nm
  | Some TCODE_DATA_ACQUISITION => parseDataAcquisition nm
  | Some TCODE_ERROR => parseError nm
  | Some TCODE_SYNC => parseSync nm
  | Some TCODE_DIRECT_BRANCH_WS => parseDirectBranchWS nm
  | Some TCODE_INDIRECT_BRANCH_WS => parseIndirectBranchWS nm
  | Some TCODE_CORRELATION => parseCorrelation nm
  | Some TCODE_AUXACCESS_WRITE => parseAuxAccessWrite nm
  | Some TCODE_INDIRECTBRANCHHISTORY => parseIndirectHistory nm
  | Some TCODE_INDIRECTBRANCHHISTORY_WS => parseIndirectHistoryWS nm
  | Some TCODE_INCIRCUITTRACE => parseICT nm
  | Some TCODE_INCIRCUITTRACE_WS => parseICTWS nm
  | Some TCODE_RESOURCEFULL => parseResourceFull nm
  | _ => throw DQERR_ERR
  end.

(** The copy of the message into [nm.rawData]: up to its last byte or the size
    of the array; what the array held beyond stays. *)
Fixpoint copyRaw (raw msg : list Z) : list Z :=
  match raw, msg with
  | _ :: raw, b :: msg => b :: (if Z.land b 3 =? MSEO_END then raw else copyRaw raw msg)
  | raw, _ => raw
  end.

(** The result of parsing a message that has been framed: a failure is reported
    as [DQERR_BM], with [status] as the failing parser left it. *)
Definition parseFramed (nm : NexusMessage) : PA NexusMessage := fun s =>
  let nm := set_raw (sp_msgOffset (fst s)) (copyRaw (nm_rawData nm) (sp_msg (fst s))) nm in
  match (val ← onParser (parseFixedField 6); parseByTCode (u8 val) nm) s with
  | Ok (p, a) nm => Ok (set_status DQERR_OK p, a) nm
  | Err s _ => Err s DQERR_BM
  | r => r
  end.

(** [Some nm] when [haveMsg] is set. *)
Definition readNextTraceMsg `{!ByteSource Src} (fuel : nat) (nm : NexusMessage)
    : PA (option NexusMessage) := fun s =>
  if decide (sp_status (fst s) = DQERR_OK) then
    match readBinaryMsg fuel (fst s) with
    | Err p e => Err (if decide (e = DQERR_BM) then p else set_status e p, snd s) e
    | Ok p false => Ok (p, snd s) None
    | Ok p true => (nm ← parseFramed nm; mret (Some nm)) (p, snd s)
    | Undef => Undef
    | NoFuel => NoFuel
    end
  else Err s (sp_status (fst s)).
End messages.

(** ** Errors *)

Section errors.
Context {Src : Type}.
Implicit Type p : SliceParser Src.
#[local] Abbreviation P := (M (SliceParser Src) DQErr).
#[local] Abbreviation PA := (M (SliceParser Src * Analytics) DQErr).

(** A failure of [m] is recorded in [status]. *)
Definition reports {A} (m : P A) : Prop :=
  forall p, match m p with
            | Err p' e => sp_status p' = e /\ e <> DQERR_OK
            | _ => True
            end.
(** The same for a parser; and the statistics are not touched. *)
Definition reportsA {A} (m : PA A) : Prop :=
  forall p a, an_status a = DQERR_OK ->
    match m (p, a) with
    | Ok (_, a') _ => True
    | Err (p', _) e => sp_status p' = e /\ e <> DQERR_OK
    | _ => True
    end.

Lemma reports_bind {A B} (m : P A) (k : A -> P B) :
  reports m -> (forall a, reports (k a)) -> reports (m ≫= k).
Proof.
  intros Hm Hk p. specialize (Hm p). unfold mbind, M_bind. destruct (m p); try done. apply Hk.
Qed.
Lemma reports_ret {A} (a : A) : reports (mret a).
Proof. by intros p. Qed.
Lemma reports_get : reports get.
Proof. by intros p. Qed.
Lemma reports_modify f : reports (modify f).
Proof. by intros p. Qed.
Lemma reports_lift {A} (o : option A) : reports (lift_opt o).
Proof. intros p. by destruct o. Qed.
Lemma reports_fail {A} e : e <> DQERR_OK -> reports (A:=A) (fail e).
Proof. by intros He p. Qed.
Lemma reports_if {A} (b : bool) (m n : P A) : reports m -> reports n -> reports (if b then m else n).
Proof. by destruct b. Qed.
Lemma reports_byteAt i : reports (byteAt i).
Proof. intros p. unfold byteAt, lift_opt. by destruct (if 0 <=? i then _ else _). Qed.
#[local] Hint Resolve reports_ret reports_get reports_modify reports_lift reports_byteAt : dqr.

Lemma reports_noteEom i : reports (noteEom i).
Proof. apply reports_bind; [auto with dqr|intros x; apply reports_if; auto with dqr]. Qed.

Lemma reports_middleBits fuel : forall i c r t, reports (middleBits fuel i c r t).
Proof.
  induction fuel as [|fuel IH]; intros; cbn [middleBits]; apply reports_if; auto with dqr.
  apply reports_bind; [auto with dqr|intros x]. apply reports_bind; auto with dqr.
Qed.

Lemma reports_fixed w : reports (parseFixedField w).
Proof.
  unfold parseFixedField. apply reports_if; [by apply reports_fail|].
  apply reports_bind; [auto with dqr|intros p]. cbn zeta.
  apply reports_bind; [auto with dqr|intros _]. apply reports_if; [by apply reports_fail|].
  apply reports_if; apply reports_bind; auto with dqr; intros x.
  - apply reports_bind; [apply reports_middleBits|intros [[[i c] r] t]].
    apply reports_bind.
    + apply reports_if; auto with dqr. apply reports_bind; [auto with dqr|intros y].
      apply reports_bind; auto with dqr.
    + intros v. apply reports_bind; [apply reports_noteEom|auto with dqr].
  - cbn zeta. apply reports_bind; [apply reports_noteEom|auto with dqr].
Qed.

Lemma reports_varBits fuel : forall i w v, reports (varBits fuel i w v).
Proof.
  induction fuel as [|fuel IH]; intros; cbn [varBits]; [intros p; exact I|].
  apply reports_bind; [auto with dqr|intros x]. apply reports_if; [auto with dqr|].
  apply reports_bind; [auto with dqr|intros p]. apply reports_if; [by apply reports_fail|].
  apply reports_bind; [auto with dqr|intros y]. apply reports_bind; auto with dqr.
Qed.

Lemma reports_var : reports parseVarField.
Proof.
  unfold parseVarField. apply reports_bind; [auto with dqr|intros p]. cbn zeta.
  apply reports_if; [by apply reports_fail|]. apply reports_bind; [auto with dqr|intros x].
  apply reports_bind; [apply reports_varBits|intros [[i w] v]].
  apply reports_bind; [auto with dqr|intros y]. apply reports_if; [by apply reports_fail|].
  apply reports_bind; [apply reports_noteEom|intros _]. apply reports_bind; auto with dqr.
Qed.

Lemma reports_checked {A} (m : P A) : reports m -> reports (checked m).
Proof.
  intros Hm p. specialize (Hm p). unfold checked. destruct (m p); try done.
  by destruct Hm.
Qed.
Lemma reports_fixedField w : reports (fixedField w).
Proof. apply reports_checked, reports_fixed. Qed.
Lemma reports_varField : reports varField.
Proof. apply reports_checked, reports_var. Qed.

Lemma reportsA_bind {A B} (m : P A) (k : A -> PA B) :
  reports m -> (forall a, reportsA (k a)) -> reportsA (onParser m ≫= k).
Proof.
  intros Hm Hk p a Ha. specialize (Hm p). unfold mbind, M_bind, onParser. cbn [fst snd].
  destruct (m p); try done. by apply Hk.
Qed.

Lemma reportsA_account nm b t ad : reportsA (account nm b t ad).
Proof.
  intros p a Ha. unfold account.
  destruct (updateTraceInfo _ _ _ _ _ _) as [a'|]; [|done].
  by destruct (decide (an_status a' = DQERR_OK)).
Qed.

Lemma reportsA_parseMsg t fields nm : reports fields -> reportsA (parseMsg t fields nm).
Proof.
  intros Hf. unfold parseMsg. apply reportsA_bind.
  { unfold parseSrc. apply reports_bind; [auto with dqr|intros p]. apply reports_if; [|auto with dqr].
    apply reports_bind; [apply reports_fixedField|auto with dqr]. }
  intros [core sb]. apply reportsA_bind; [done|intros [[body bits] ab]].
  apply reportsA_bind; [|intros [ts tb]; apply reportsA_account].
  unfold parseTimestamp. apply reports_bind; [auto with dqr|intros p].
  apply reports_if; [auto with dqr|]. apply reports_bind; [apply reports_varField|intros [tmp w]].
  apply reports_bind; [auto with dqr|intros p']. apply reports_if; [by apply reports_fail|auto with dqr].
Qed.

(** The message types there is a parser for. *)
Definition supported (tcode : Z) : bool :=
  match tcode_of tcode with
  | Some (TCODE_OWNERSHIP_TRACE | TCODE_DIRECT_BRANCH | TCODE_INDIRECT_BRANCH
    | TCODE_DATA_ACQUISITION | TCODE_ERROR | TCODE_SYNC | TCODE_DIRECT_BRANCH_WS
    | TCODE_INDIRECT_BRANCH_WS | TCODE_CORRELATION | TCODE_AUXACCESS_WRITE
    | TCODE_INDIRECTBRANCHHISTORY | TCODE_INDIRECTBRANCHHISTORY_WS | TCODE_INCIRCUITTRACE
    | TCODE_INCIRCUITTRACE_WS | TCODE_RESOURCEFULL) => true
  | _ => false
  end.

Ltac reports_fields :=
  apply reportsA_parseMsg; unfold ictFields;
  repeat first
    [ apply reports_ret | apply reports_fixedField | apply reports_varField
    | by apply reports_fail
    | apply reports_if
    | apply reports_bind; [|intros ?]
    | match goal with |- reports (match ?x with _ => _ end) => destruct x end
    | match goal with |- reports ((fun _ => _) _) => cbn beta end ].

Lemma reportsA_supported t nm : supported t = true -> reportsA (parseByTCode t nm).
Proof.
  unfold supported, parseByTCode.
  destruct (tcode_of t) as [[]|]; try done; intros _; reports_fields.
Qed.

Lemma unsupported_throws t nm s :
  supported t = false -> parseByTCode (Src:=Src) t nm s = Err s DQERR_ERR.
Proof. unfold supported, parseByTCode. destruct (tcode_of t) as [[]|]; done. Qed.

(** A message that is rejected: either its TCODE has no parser, and [status]
    is left alone, or [status] holds an error. *)
Lemma parseFramed_error nm p a p' a' e :
  an_status a = DQERR_OK -> parseFramed nm (p, a) = Err (p', a') e ->
  e = DQERR_BM /\
  (sp_status p' <> DQERR_OK \/
   exists v, parseFixedField 6 p = Ok p' v /\ supported (u8 v) = false /\ a' = a).
Proof.
  intros Ha. unfold parseFramed. cbn [fst]. set (nm0 := set_raw _ _ nm).
  unfold mbind, M_bind, onParser. cbn [fst snd].
  pose proof (reports_fixed 6 p) as Hfix.
  destruct (parseFixedField 6 p) as [p1 v|p1 e1| |] eqn:E1; try done.
  - destruct (supported (u8 v)) eqn:Hs.
    + pose proof (reportsA_supported (u8 v) nm0 Hs p1 a Ha) as Hr.
      destruct (parseByTCode (u8 v) nm0 (p1, a)) as [[p2 a2] nm2|[p2 a2] e2| |]; try done.
      intros [= <- <- <-]. destruct Hr as [-> He]. auto.
    + rewrite unsupported_throws by done. intros [= <- <- <-]. split; [done|]. right. eauto.
  - intros [= <- <- <-]. destruct Hfix as [-> He]. auto.
Qed.
End errors.

(** Once [status] holds an error no later call reads anything. *)
Lemma readNextTraceMsg_stuck {Src} `{ByteSource Src} fuel nm (p : SliceParser Src) a :
  sp_status p <> DQERR_OK -> readNextTraceMsg fuel nm (p, a) = Err (p, a) (sp_status p).
Proof. intros Hs. unfold readNextTraceMsg. cbn [fst]. by rewrite decide_False. Qed.
