(* ===== verification/Encode.v ===== *)
(** * Encode: a reference encoder of trace messages, and the round trip.

    The encoder is written from the layout of Nexus messages, not from the
    parsers: a message is a list of groups of slices; the fixed fields (TCODE,
    source, ...) are packed below the first variable field, every further
    variable field has a group of its own, the last slice of a group is marked
    [VAR_END] and the last slice of the message [END]. *)

From S2P Require Import Prelude Nexus Slices Source Framing Analytics Messages.

(** ** Groups of slices *)

(** [n] slices holding [u], the last one marked [m]. *)
Definition group_bytes (u n m : Z) : list Z :=
  (fun k => 4 * slice u (6 * Z.of_nat k) 6 +
            (if Z.of_nat k =? n - 1 then m else MSEO_NORMAL)) <$> seq 0 (Z.to_nat n).

Definition last_mark (gs : list (Z * Z)) : Z :=
  match gs with [] => MSEO_END | _ => MSEO_VAR_END end.

(** Groups [(value, number of slices)]. *)
Fixpoint groups_bytes (gs : list (Z * Z)) : list Z :=
  match gs with
  | [] => []
  | (u, n) :: gs => group_bytes u n (last_mark gs) ++ groups_bytes gs
  end.

(** Fixed fields [(width, value)] packed below a last value. *)
Fixpoint pack (fs : list (Z * Z)) (v : Z) : Z :=
  match fs with
  | [] => v
  | (w, x) :: fs => x + pack fs v * 2 ^ w
  end.

Definition fixed_width (fs : list (Z * Z)) : Z := foldr (fun f w => fst f + w) 0 fs.

(** How many bits, at least one, and slices a number needs. *)
Definition num_bits (v : Z) : Z := if v =? 0 then 1 else Z.log2 v + 1.
Definition num_slices (bits : Z) : Z := (bits + 5) / 6.

(** The groups of fixed fields, a first variable field and more of them. *)
Definition field_groups (fs : list (Z * Z)) (v : Z) (vs : list Z) : list (Z * Z) :=
  (pack fs v, num_slices (fixed_width fs + num_bits v)) ::
  ((fun v => (v, num_slices (num_bits v))) <$> vs).

(** ** The fields of a message *)

Definition sync_val (s : SyncReason) : Z :=
  match s with
  | SYNC_EVTI => 0 | SYNC_EXIT_RESET => 1 | SYNC_T_CNT => 2 | SYNC_EXIT_DEBUG => 3
  | SYNC_I_CNT_OVERFLOW => 4 | SYNC_TRACE_ENABLE => 5 | SYNC_WATCHPINT => 6
  | SYNC_FIFO_OVERRUN => 7 | SYNC_EXIT_POWERDOWN => 9 | SYNC_MESSAGE_CONTENTION => 11
  | SYNC_PC_SAMPLE => 15 | SYNC_NONE => 16 | SYNC_reserved v => v
  end.

Definition ict_val (r : ICTReason) : Z :=
  match r with
  | ICT_CONTROL => 0 | ICT_EXT_TRIG => 8 | ICT_INFERABLECALL => 9 | ICT_EXCEPTION => 10
  | ICT_INTERRUPT => 11 | ICT_CONTEXT => 13 | ICT_WATCHPOINT => 14 | ICT_PC_SAMPLE => 15
  | ICT_NONE => 16 | ICT_reserved v => v
  end.

Definition btype_val (b : BType) : Z :=
  match b with
  | BTYPE_INDIRECT => 0 | BTYPE_EXCEPTION => 1 | BTYPE_HARDWARE => 2 | BTYPE_UNDEFINED => 3
  end.

Definition rdata_val (rd : RData) : Z :=
  match rd with R_i_cnt v | R_history v | R_notTakenCount v | R_takenCount v => v end.

(** The type of the message a struct of the union belongs to. *)
Definition body_tcode (b : Body) : TCode :=
  match b with
  | B_none => TCODE_UNDEFINED
  | B_directBranch _ => TCODE_DIRECT_BRANCH
  | B_indirectBranch _ _ _ => TCODE_INDIRECT_BRANCH
  | B_directBranchWS _ _ _ => TCODE_DIRECT_BRANCH_WS
  | B_indirectBranchWS _ _ _ _ => TCODE_INDIRECT_BRANCH_WS
  | B_indirectHistory _ _ _ _ => TCODE_INDIRECTBRANCHHISTORY
  | B_indirectHistoryWS _ _ _ _ _ => TCODE_INDIRECTBRANCHHISTORY_WS
  | B_resourceFull _ _ => TCODE_RESOURCEFULL
  | B_sync _ _ _ => TCODE_SYNC
  | B_error _ => TCODE_ERROR
  | B_correlation _ _ _ _ => TCODE_CORRELATION
  | B_auxAccessWrite _ _ => TCODE_AUXACCESS_WRITE
  | B_dataAcquisition _ _ => TCODE_DATA_ACQUISITION
  | B_ownership _ _ _ _ => TCODE_OWNERSHIP_TRACE
  | B_ict _ _ _ _ => TCODE_INCIRCUITTRACE
  | B_ictWS _ _ _ _ => TCODE_INCIRCUITTRACE_WS
  end.

(** Fixed fields after the source, first variable field, other variable fields. *)
Definition body_fields (b : Body) : list (Z * Z) * Z * list Z :=
  match b with
  | B_none => ([], 0, [])
  | B_directBranch i => ([], i, [])
  | B_indirectBranch i u bt => ([(2, btype_val bt)], i, [u])
  | B_directBranchWS i f s => ([(4, sync_val s)], i, [f])
  | B_indirectBranchWS i f bt s => ([(4, sync_val s); (2, btype_val bt)], i, [f])
  | B_indirectHistory i u bt h => ([(2, btype_val bt)], i, [u; h])
  | B_indirectHistoryWS i f bt h s => ([(4, sync_val s); (2, btype_val bt)], i, [f; h])
  | B_resourceFull r rd => ([(4, r)], rdata_val rd, [])
  | B_sync i f s => ([(4, sync_val s)], i, [f])
  | B_error e => ([(4, e)], 0, [])
  | B_correlation h i cdf ev => ([(4, ev); (2, cdf)], i, option_list h)
  | B_auxAccessWrite data addr => ([], addr, [data])
  | B_dataAcquisition tag data => ([], tag, [data])
  | B_ownership pid v prv tag => ([], tag + 4 * prv + 16 * v + 32 * pid, [])
  | B_ict r df d0 d1 => ([(4, ict_val r); (2, df)], d0, option_list d1)
  | B_ictWS r df d0 d1 => ([(4, ict_val r); (2, df)], d0, option_list d1)
  end.

(** [srcbits]: the width of the source field, none if 0. *)
Definition src_field (srcbits core : Z) : list (Z * Z) :=
  if 0 <? srcbits then [(srcbits, core)] else [].

Definition encode_groups (srcbits core : Z) (b : Body) (ts : option Z) : list (Z * Z) :=
  let '(fs, v, vs) := body_fields b in
  field_groups ((6, tcode_val (body_tcode b)) :: src_field srcbits core ++ fs) v
    (vs ++ option_list ts).

Definition encode (srcbits core : Z) (b : Body) (ts : option Z) : list Z :=
  groups_bytes (encode_groups srcbits core b ts).

(** ** Well-formed messages *)

Definition in_range (w v : Z) : bool := (0 <=? v) && (v <? 2 ^ w).

Definition wf_sync (s : SyncReason) : bool :=
  in_range 4 (sync_val s) && bool_decide (sync_of (sync_val s) = s).
Definition wf_ict (r : ICTReason) : bool :=
  in_range 4 (ict_val r) && bool_decide (ict_of (ict_val r) = r).

(** The fields are in the ranges of their C++ types; the active struct and its
    optional members are the ones the message type has. *)
Definition wf_body (b : Body) : bool :=
  body_matches (body_tcode b) b &&
  match b with
  | B_none => false
  | B_directBranch i => in_range 31 i
  | B_indirectBranch i u _ => in_range 31 i && in_range 64 u
  | B_directBranchWS i f s => in_range 31 i && in_range 64 f && wf_sync s
  | B_indirectBranchWS i f _ s => in_range 31 i && in_range 64 f && wf_sync s
  | B_indirectHistory i u _ h => in_range 31 i && in_range 64 u && in_range 64 h
  | B_indirectHistoryWS i f _ h s =>
      in_range 31 i && in_range 64 f && in_range 64 h && wf_sync s
  | B_resourceFull r rd =>
      match rd with
      | R_i_cnt i => in_range 31 i
      | R_history h => in_range 64 h
      | R_notTakenCount n | R_takenCount n => in_range 32 n
      end
  | B_sync i f s => in_range 31 i && in_range 64 f && wf_sync s
  | B_error e => in_range 4 e
  | B_correlation h i cdf ev =>
      in_range 31 i && in_range 4 ev && in_range 64 (default 0 h)
  | B_auxAccessWrite data addr => in_range 32 data && in_range 32 addr
  | B_dataAcquisition tag data => in_range 32 tag && in_range 32 data
  | B_ownership pid v prv tag =>
      in_range 31 pid && in_range 1 v && in_range 2 prv && in_range 2 tag
  | B_ict r df d0 d1 | B_ictWS r df d0 d1 =>
      wf_ict r && in_range 64 d0 && in_range 64 (default 0 d1)
  end.

(** The width [parseVarField] sees for the first variable field. *)
Definition first_var_width (srcbits : Z) (b : Body) : Z :=
  let '(fs, v, _) := body_fields b in
  let w := 6 + srcbits + fixed_width fs in
  6 * num_slices (w + num_bits v) - w.

(** What the encoder and the parser agree on: the source fits its field and the
    statistics arrays, and the first variable field is not one of the numbers of
    64 bits that [parseVarField] rejects when it ends 65 bits up. *)
Definition encodable (srcbits core : Z) (b : Body) (ts : option Z) : bool :=
  wf_body b && (0 <=? srcbits) && (srcbits <=? 16) && in_range srcbits core &&
  (core <? DQR_MAXCORES) && in_range 64 (default 0 ts) &&
  (negb (first_var_width srcbits b =? 65) || (snd (fst (body_fields b)) <? 2 ^ 63)).
