(* ===== verification/RoundTrip.v ===== *)
(** * RoundTrip: what the encoder writes, the parsers read.

    [reading p v W gs] is the invariant of a parser on a well-formed message: the
    cursor of [p] is inside a group of slices whose unread [W] bits hold [v], and
    the groups [gs] follow.  Each field reader takes its field off [reading];
    composed along a parser's code this gives the round trip. *)

From S2P Require Import Prelude Nexus Slices Source Framing Analytics Messages Encode.

(** ** The bytes of an encoded message *)

Definition var_groups (vs : list Z) : list (Z * Z) :=
  (fun v => (v, num_slices (num_bits v))) <$> vs.

Definition total (gs : list (Z * Z)) : Z := foldr (fun g t => snd g + t) 0 gs.

Definition group_wf (g : Z * Z) : Prop := 0 < snd g /\ 0 <= fst g < 2 ^ (6 * snd g).

Fixpoint groups_at (msg : list Z) (i0 : Z) (gs : list (Z * Z)) : Prop :=
  match gs with
  | [] => True
  | (u, n) :: gs => group_at msg i0 u n (last_mark gs) /\ groups_at msg (i0 + n) gs
  end.

Lemma last_mark_range gs : 0 <= last_mark gs < 4.
Proof. destruct gs; done. Qed.

Lemma last_mark_not_normal gs : last_mark gs <> MSEO_NORMAL.
Proof. by destruct gs. Qed.

Lemma num_slices_bounds b : b <= 6 * num_slices b <= b + 5.
Proof. unfold num_slices. dlia. Qed.

Lemma num_bits_pos v : 0 <= v -> 1 <= num_bits v.
Proof.
  intros. unfold num_bits. destruct (Z.eqb_spec v 0); [lia|].
  pose proof (Z.log2_nonneg v). lia.
Qed.

Lemma num_bits_lt v : 0 <= v -> v < 2 ^ num_bits v.
Proof.
  intros. unfold num_bits. destruct (Z.eqb_spec v 0); [subst; done|].
  pose proof (Z.log2_spec v). rewrite <-Z.add_1_r in *. lia.
Qed.

Lemma num_bits_le v w : 0 < w -> 0 <= v < 2 ^ w -> num_bits v <= w.
Proof.
  intros. unfold num_bits. destruct (Z.eqb_spec v 0); [lia|].
  pose proof (Z.log2_lt_pow2 v w). lia.
Qed.

Lemma lt_pow_num_bits v w : 0 <= v -> num_bits v <= w -> v < 2 ^ w.
Proof.
  intros. pose proof (num_bits_lt v ltac:(done)).
  pose proof (Z.pow_le_mono_r 2 (num_bits v) w ltac:(lia) ltac:(lia)). lia.
Qed.

Lemma var_groups_wf vs : Forall (fun v => 0 <= v) vs -> Forall group_wf (var_groups vs).
Proof.
  intros H. apply Forall_fmap. eapply Forall_impl; [|exact H]. intros v Hv. cbn in *.
  pose proof (num_slices_bounds (num_bits v)). pose proof (num_bits_pos v Hv).
  split; cbn; [lia|]. split; [done|]. apply lt_pow_num_bits; lia.
Qed.

Lemma total_app gs gs' : total (gs ++ gs') = total gs + total gs'.
Proof. unfold total. induction gs as [|g gs IH]; cbn; lia. Qed.

Lemma total_nonneg gs : Forall group_wf gs -> 0 <= total gs.
Proof. unfold total. induction 1 as [|g gs [Hg _] _ IH]; cbn; lia. Qed.

Lemma length_group_bytes u n m : 0 <= n -> Z.of_nat (length (group_bytes u n m)) = n.
Proof. intros. unfold group_bytes. rewrite length_fmap, length_seq. lia. Qed.

Lemma length_groups_bytes gs :
  Forall group_wf gs -> Z.of_nat (length (groups_bytes gs)) = total gs.
Proof.
  induction 1 as [|[u n] gs [Hn _] _ IH]; cbn in *; [done|].
  rewrite length_app, Nat2Z.inj_add, length_group_bytes by lia. unfold total in IH. lia.
Qed.

Lemma group_at_bytes msg i0 u n m r :
  0 <= i0 -> drop (Z.to_nat i0) msg = group_bytes u n m ++ r -> group_at msg i0 u n m.
Proof.
  intros Hi Hd. split; [done|]. intros k Hk.
  replace (Z.to_nat (i0 + k)) with (Z.to_nat i0 + Z.to_nat k)%nat by lia.
  rewrite <-lookup_drop, Hd, lookup_app_l
    by (pose proof (length_group_bytes u n m); lia).
  unfold group_bytes. rewrite list_lookup_fmap, lookup_seq_lt by lia. cbn.
  by rewrite Z2Nat.id by lia.
Qed.

Lemma groups_at_bytes gs : forall msg i0 r,
  Forall group_wf gs -> 0 <= i0 -> drop (Z.to_nat i0) msg = groups_bytes gs ++ r ->
  groups_at msg i0 gs.
Proof.
  induction gs as [|[u n] gs IH]; intros msg i0 r Hwf Hi Hd; [done|].
  apply Forall_cons_1 in Hwf as [[Hn _] Hwf]. cbn in *. rewrite <-app_assoc in Hd.
  split; [by eapply group_at_bytes|]. apply (IH msg _ r); [done|lia|].
  replace (Z.to_nat (i0 + n)) with (Z.to_nat i0 + Z.to_nat n)%nat by lia.
  rewrite <-drop_drop, Hd, drop_app_length'; [done|].
  pose proof (length_group_bytes u n (last_mark gs)). lia.
Qed.

(** The last slice of a group and the ones before it. *)
Lemma group_bytes_split u n m :
  0 < n ->
  exists init s, group_bytes u n m = init ++ [4 * s + m] /\ 0 <= s < 64 /\
    Forall (fun b => exists s, 0 <= s < 64 /\ b = 4 * s) init /\
    (1 < n -> exists r, init = 4 * slice u 0 6 :: r).
Proof.
  intros Hn. unfold group_bytes. replace (Z.to_nat n) with (Z.to_nat (n - 1) + 1)%nat by lia.
  rewrite seq_app, fmap_app. cbn [seq fmap list_fmap].
  eexists _, (slice u (6 * (n - 1)) 6). split; [|split; [|split]].
  - do 2 f_equal. replace (Z.of_nat (0 + Z.to_nat (n - 1))) with (n - 1) by lia.
    by rewrite Z.eqb_refl.
  - by apply (slice_bounds u (6 * (n - 1)) 6).
  - apply Forall_fmap, Forall_forall. intros k Hk. apply in_seq in Hk. cbn.
    exists (slice u (6 * Z.of_nat k) 6). split; [by apply (slice_bounds u _ 6)|].
    destruct (Z.eqb_spec (Z.of_nat k) (n - 1)); [lia|]. unfold MSEO_NORMAL. lia.
  - intros H1. destruct (Z.to_nat (n - 1)) as [|k] eqn:E; [lia|]. cbn [seq fmap list_fmap].
    eexists. f_equal. destruct (Z.eqb_spec (Z.of_nat 0) (n - 1)); [lia|]. cbn.
    change (6 * Z.of_nat 0) with 0. unfold MSEO_NORMAL. lia.
Qed.

Lemma is_end_mark s m : 0 <= m < 4 -> is_end (4 * s + m) = (m =? MSEO_END).
Proof. intros. unfold is_end. by rewrite mseo_bits. Qed.

(** Only the last byte of a message is marked as its end. *)
Lemma groups_bytes_split gs :
  Forall group_wf gs -> gs <> [] ->
  exists init last, groups_bytes gs = init ++ [last] /\ is_end last = true /\
    Forall (fun b => is_end b = false) init.
Proof.
  induction gs as [|[u n] gs IH]; intros Hwf Hne; [done|]. clear Hne.
  apply Forall_cons_1 in Hwf as [[Hn _] Hwf]. cbn [snd] in Hn. cbn [groups_bytes].
  destruct (group_bytes_split u n (last_mark gs) Hn) as (init & s & Hb & Hs & Hinit & _).
  assert (Forall (fun b => is_end b = false) init) as Hinit'.
  { eapply Forall_impl; [|exact Hinit]. intros b (x & Hx & ->).
    rewrite <-(Z.add_0_r (4 * x)). by rewrite is_end_mark. }
  rewrite Hb. destruct gs as [|g gs].
  - exists init, (4 * s + MSEO_END). rewrite app_nil_r. repeat split; try done.
    by rewrite is_end_mark.
  - destruct (IH Hwf ltac:(done)) as (init' & l & -> & Hl & Hinit2).
    exists (init ++ [4 * s + MSEO_VAR_END] ++ init'), l. rewrite <-!app_assoc.
    repeat split; try done. rewrite !Forall_app. repeat split; try done.
    constructor; [|done]. by rewrite is_end_mark.
Qed.

(** A message that starts with a slice of its own is cut out of the stream. *)
Lemma next_frame_groups u n gs rest :
  Forall group_wf ((u, n) :: gs) -> 1 < n -> slice u 0 6 <> 0 -> total ((u, n) :: gs) <= MSG_SIZE ->
  next_frame (groups_bytes ((u, n) :: gs) ++ rest) = FMsg (groups_bytes ((u, n) :: gs)) rest.
Proof.
  intros Hwf Hn Hu Hlen.
  destruct (groups_bytes_split _ Hwf ltac:(done)) as (init & l & Hb & Hl & Hinit).
  pose proof (length_groups_bytes _ Hwf) as Htot. unfold MSG_SIZE in Hlen.
  destruct (group_bytes_split u n (last_mark gs) ltac:(lia)) as (init1 & s & Hb1 & _ & _ & H1).
  destruct (H1 Hn) as [r1 Hr1].
  assert (exists r, init = 4 * slice u 0 6 :: r) as [r ->].
  { cbn [groups_bytes] in Hb. rewrite Hb1, Hr1 in Hb. destruct init as [|b init]; cbn in Hb.
    - apply (f_equal length) in Hb. cbn in Hb. rewrite !length_app in Hb. cbn in Hb. lia.
    - injection Hb as <- _. by eexists. }
  rewrite Hb in *. rewrite <-app_assoc. unfold next_frame. cbn [app skip_to_start].
  assert (skip_byte (4 * slice u 0 6) = false) as ->.
  { unfold skip_byte. pose proof (mseo_bits (slice u 0 6) 0 ltac:(lia)) as Hz.
    rewrite Z.add_0_r in Hz. rewrite Hz.
    destruct (Z.eqb_spec (4 * slice u 0 6) 0); [lia|done]. }
  apply Forall_cons_1 in Hinit as [_ Hr].
  rewrite !length_app in Htot. cbn [length] in Htot.
  rewrite collect_app by (done || lia).
  destruct (63 - length r)%nat eqn:E; [lia|]. cbn [collect app]. by rewrite Hl.
Qed.

(** ** The parser's position in a message *)

Section reading.
Context {Src : Type}.
Implicit Type p : SliceParser Src.

Definition reading p (v W : Z) (gs : list (Z * Z)) : Prop :=
  exists i0 u n b0,
    group_at (sp_msg p) i0 u n (last_mark gs) /\
    groups_at (sp_msg p) (i0 + n) gs /\ Forall group_wf gs /\
    sp_bitIndex p = 6 * i0 + b0 /\ 0 <= b0 /\ 6 * n = b0 + W /\
    v = slice u b0 W /\ i0 + n + total gs = sp_msgSlices p /\
    (gs <> [] -> sp_eom p = false).

(** At a group boundary. *)
Definition ready p (gs : list (Z * Z)) : Prop :=
  match gs with
  | [] => sp_eom p = true
  | (u, n) :: gs => sp_eom p = false /\ 0 < n /\ reading p u (6 * n) gs
  end.

(** Only the cursor has moved. *)
Definition moved p p' : Prop := exists bit e, p' = set_cursor bit e p.

Lemma moved_trans p p' p'' : moved p p' -> moved p' p'' -> moved p p''.
Proof. intros (b & e & ->) (b' & e' & ->). by exists b', e'. Qed.

Lemma moved_refl p : moved p p.
Proof. exists (sp_bitIndex p), (sp_eom p). by destruct p. Qed.

(** A fixed field is taken off the low end. *)
Lemma fixed_step p x v w W gs :
  reading p (x + v * 2 ^ w) W gs -> 0 < w <= 64 -> w < W -> 0 <= x < 2 ^ w ->
  exists p', parseFixedField w p = Ok p' x /\ reading p' v (W - w) gs /\ moved p p'.
Proof.
  intros (i0 & u & n & b0 & Hg & Hgs & Hwf & Hbi & Hb0 & HW & Hv & Hs & He) Hw HwW Hx.
  pose proof (total_nonneg gs Hwf).
  destruct (parseFixedField_spec p i0 u n (last_mark gs) b0 w Hg (last_mark_range gs) Hbi Hb0
              ltac:(lia) ltac:(lia) ltac:(lia)) as (p' & Hp & e & -> & Hne).
  assert (slice u b0 w = x) as Hsl.
  { replace (slice u b0 w) with (slice (slice u b0 W) 0 w)
      by (rewrite slice_slice by lia; f_equal; lia).
    rewrite <-Hv, slice_low, Z.mod_add by (pose proof (pow2_pos w); lia).
    by apply Z.mod_small. }
  rewrite Hsl in Hp. exists (set_cursor (sp_bitIndex p + w) e p).
  split; [done|]. split; [|by eexists _, _].
  exists i0, u, n, (b0 + w). cbn. repeat (split; [done || lia|]). split; [|split; [done|]].
  - replace v with (slice (x + v * 2 ^ w) w (W - w)).
    + rewrite Hv, slice_slice by lia. done.
    + pose proof (slice_append u b0 w (W - w) ltac:(lia) ltac:(lia) ltac:(lia)) as Happ.
      replace (w + (W - w)) with W in Happ by lia. rewrite <-Hv, Hsl in Happ.
      pose proof (pow2_pos w ltac:(lia)). assert (v = slice u (b0 + w) (W - w)) as Hvv by nia.
      rewrite Hv, slice_slice by lia. done.
  - intros Hne2. rewrite Hne; [by apply He|]. by destruct gs.
Qed.

(** A variable field takes the rest of the group. *)
Lemma var_step p v W gs :
  reading p v W gs -> 0 < W -> var_fits W v ->
  exists p', parseVarField p = Ok p' (v, W) /\ ready p' gs /\ moved p p'.
Proof.
  intros (i0 & u & n & b0 & Hg & Hgs & Hwf & Hbi & Hb0 & HW & Hv & Hs & He) HW0 Hfit.
  pose proof (total_nonneg gs Hwf). assert (W = 6 * n - b0) as -> by lia. subst v.
  destruct (parseVarField_spec p i0 u n (last_mark gs) b0 Hg (last_mark_range gs)
              (last_mark_not_normal gs) Hbi ltac:(lia) ltac:(lia) Hfit)
    as (p' & e & Hp & -> & He1 & He2).
  eexists. split; [exact Hp|]. split; [|by eexists _, _].
  destruct gs as [|[u1 n1] gs]; [by apply He2|].
  cbn in Hgs. destruct Hgs as [Hg1 Hgs]. apply Forall_cons_1 in Hwf as [[Hn1 Hu1] Hwf].
  cbn in Hn1, Hu1, Hs. assert (e = false) as -> by (rewrite He1; [by apply He|done]).
  split; [done|]. split; [done|].
  exists (i0 + n), u1, n1, 0. cbn. repeat (split; [done || lia|]).
  split; [|split; [unfold total in *; lia|done]].
  rewrite slice_low. symmetry. apply Z.mod_small. lia.
Qed.

Lemma checked_ok {A} (m : M (SliceParser Src) DQErr A) p p' a :
  m p = Ok p' a -> checked m p = Ok p' a.
Proof. unfold checked. by intros ->. Qed.

(** The two steps inside a parser, on packed fixed fields. *)
Lemma fixed_bind {A} p x v w fs W gs (k : Z -> M (SliceParser Src) DQErr A) :
  reading p (pack ((w, x) :: fs) v) W gs -> 0 < w <= 64 -> w < W -> 0 <= x < 2 ^ w ->
  exists p', reading p' (pack fs v) (W - w) gs /\ moved p p' /\
    (fixedField w ≫= k) p = k x p'.
Proof.
  intros Hr Hw HwW Hx. destruct (fixed_step p x (pack fs v) w W gs) as (p' & Hp & Hr' & Hm);
    [done..|]. exists p'. split; [done|]. split; [done|]. apply bind_ok. by apply checked_ok.
Qed.

Lemma var_bind {A} p v W gs (k : Z * Z -> M (SliceParser Src) DQErr A) :
  reading p (pack [] v) W gs -> 0 < W -> var_fits W v ->
  exists p', ready p' gs /\ moved p p' /\ (varField ≫= k) p = k (v, W) p'.
Proof.
  intros Hr HW Hf. destruct (var_step p v W gs) as (p' & Hp & Hr' & Hm); [done..|].
  exists p'. split; [done|]. split; [done|]. apply bind_ok. by apply checked_ok.
Qed.

(** A 64-bit value in a group of its own always fits. *)
Lemma var_group_fits v : in_range 64 v = true -> var_fits (6 * num_slices (num_bits v)) v.
Proof.
  unfold in_range. intros [H1 H2]%andb_true_iff. apply Z.leb_le in H1. apply Z.ltb_lt in H2.
  pose proof (num_slices_bounds (num_bits v)). pose proof (num_bits_le v 64 ltac:(lia) ltac:(lia)).
  split; [done|]. destruct (decide (6 * num_slices (num_bits v) <= 64)); [by left|right].
  split; [unfold num_slices in *; dlia|].
  apply lt_pow_num_bits; [done|]. unfold num_slices in *. dlia.
Qed.

Lemma ready_bind {A} p v gs (k : Z * Z -> M (SliceParser Src) DQErr A) :
  ready p (var_groups [v] ++ gs) -> in_range 64 v = true ->
  exists p', ready p' gs /\ moved p p' /\
    (varField ≫= k) p = k (v, 6 * num_slices (num_bits v)) p'.
Proof.
  intros (_ & Hn & Hr) Hv. apply var_bind; [done|lia|by apply var_group_fits].
Qed.

Lemma parseTimestamp_ok p ts :
  ready p (var_groups (option_list ts)) -> in_range 64 (default 0 ts) = true ->
  exists p', parseTimestamp p = Ok p' (ts, 6 * total (var_groups (option_list ts))) /\
    sp_eom p' = true /\ moved p p'.
Proof.
  intros Hr Hts. unfold parseTimestamp. destruct ts as [t|]; cbn in Hts.
  - cbn [option_list] in Hr. erewrite bind_ok by done.
    rewrite (proj1 Hr). destruct (ready_bind p t [] (fun '(tmp, width) =>
      p0 ← get; if negb (sp_eom p0) then fail DQERR_BM else mret (Some tmp, width))
      Hr Hts) as (p' & He & Hm & ->). cbn in He. exists p'. split; [|done].
    erewrite bind_ok by done. rewrite He. cbn. rewrite Z.add_0_r. done.
  - cbn in Hr. exists p. erewrite bind_ok by done. rewrite Hr. split; [done|].
    split; [done|apply moved_refl].
Qed.

Lemma parseSrc_ok p core fs v W gs :
  reading p (pack (src_field (sp_srcbits p) core ++ fs) v) W gs ->
  0 <= sp_srcbits p <= 64 -> 0 <= core < 2 ^ sp_srcbits p -> core < 256 ->
  sp_srcbits p < W ->
  exists p', parseSrc p = Ok p' (core, sp_srcbits p) /\
    reading p' (pack fs v) (W - sp_srcbits p) gs /\ moved p p'.
Proof.
  intros Hr Hsb Hc H256 HW. unfold parseSrc. erewrite bind_ok by done. unfold src_field in Hr.
  destruct (Z.ltb_spec 0 (sp_srcbits p)) as [Hpos|Hz].
  - destruct (fixed_bind p core v (sp_srcbits p) fs W gs
      (fun tmp => mret (u8 tmp, sp_srcbits p)) Hr ltac:(lia) HW Hc) as (p' & Hr' & Hm & ->).
    exists p'. split; [|done]. cbn. by rewrite u8_small by lia.
  - assert (sp_srcbits p = 0) as E by lia. rewrite E in *. exists p.
    assert (core = 0) as -> by lia. rewrite Z.sub_0_r.
    split; [done|]. split; [done|apply moved_refl].
Qed.
End reading.

(** ** The fields of each message type *)

Lemma in_range_spec w v : in_range w v = true <-> 0 <= v < 2 ^ w.
Proof. unfold in_range. rewrite andb_true_iff, Z.leb_le, Z.ltb_lt. done. Qed.

Lemma in_range_mono w w' v : 0 <= w <= w' -> in_range w v = true -> in_range w' v = true.
Proof.
  rewrite !in_range_spec. intros. pose proof (Z.pow_le_mono_r 2 w w' ltac:(lia) ltac:(lia)). lia.
Qed.

Lemma wf_sync_spec s : wf_sync s = true -> 0 <= sync_val s < 2 ^ 4 /\ sync_of (sync_val s) = s.
Proof. unfold wf_sync. rewrite andb_true_iff, in_range_spec, bool_decide_eq_true. done. Qed.

Lemma wf_ict_spec r : wf_ict r = true -> 0 <= ict_val r < 2 ^ 4 /\ ict_of (ict_val r) = r.
Proof. unfold wf_ict. rewrite andb_true_iff, in_range_spec, bool_decide_eq_true. done. Qed.

Lemma btype_val_spec b : 0 <= btype_val b < 2 ^ 2 /\ btype_of (btype_val b) = b.
Proof. by destruct b. Qed.

Lemma i32_31 v : in_range 31 v = true -> i32 v = v.
Proof. rewrite in_range_spec. intros. apply i32_small. lia. Qed.

Lemma u32_32 v : in_range 32 v = true -> u32 v = v.
Proof. rewrite in_range_spec. apply u32_small. Qed.

Lemma u32_i32 v : u32 (i32 v) = u32 v.
Proof.
  unfold u32, i32, swrap. destruct (wrap 32 v <? 2 ^ (32 - 1)); [apply wrap_wrap|].
  unfold wrap. rewrite <-Zminus_mod_idemp_r, Z_mod_same_full, Z.sub_0_r. apply Zmod_mod.
Qed.

(** The codes of a resource-full message. *)
Lemma resource_codes r rd :
  body_matches TCODE_RESOURCEFULL (B_resourceFull r rd) = true ->
  match rd with
  | R_i_cnt _ => r = 0 | R_history _ => r = 1
  | R_notTakenCount _ => r = 8 | R_takenCount _ => r = 9
  end.
Proof.
  destruct r as [|r|r]; cbn; [by destruct rd| |done].
  repeat match goal with r : positive |- _ => destruct r; try done end; by destruct rd.
Qed.

(** [CDF] and [CKDF]: whether the optional member is there. *)
Lemma option_codes (t : Z -> option Z -> Body) cd (d : option Z) T :
  (T, t) = (TCODE_CORRELATION, fun cd d => B_correlation d 0 cd 0) \/
  (T, t) = (TCODE_INCIRCUITTRACE, fun cd d => B_ict ICT_CONTROL cd 0 d) \/
  (T, t) = (TCODE_INCIRCUITTRACE_WS, fun cd d => B_ictWS ICT_CONTROL cd 0 d) ->
  body_matches T (t cd d) = true -> cd = match d with None => 0 | Some _ => 1 end.
Proof.
  intros [[= -> ->]|[[= -> ->]|[= -> ->]]]; cbn;
    (destruct cd as [|c|c]; [|destruct c|]); by destruct d.
Qed.

Section fields.
Context {Src : Type}.
Implicit Type p : SliceParser Src.

(** [fields] reads the encoding of [b] after the source field, reports all its
    bits, and stops where the timestamp may start. *)
Definition reads (fields : M (SliceParser Src) DQErr (Body * Z * Z)) (b : Body) : Prop :=
  forall p W tsg,
    let '(fs, v, vs) := body_fields b in
    reading p (pack fs v) W (var_groups vs ++ tsg) ->
    fixed_width fs < W -> var_fits (W - fixed_width fs) v ->
    exists p' bits addr_bits,
      fields p = Ok p' (b, bits, addr_bits) /\
      bits = W + 6 * total (var_groups vs) /\ ready p' tsg /\ moved p p'.
End fields.

(** One step of a parser on an encoded message. *)
Ltac read_step :=
  match goal with
  | H : reading ?p (pack ((?w, ?x) :: ?fs) ?v) ?W ?gs |- context [(fixedField ?w ≫= ?k) ?p] =>
      let p' := fresh "p" in let Hr := fresh "Hr" in let Hm := fresh "Hm" in
      destruct (fixed_bind p x v w fs W gs k H) as (p' & Hr & Hm & ->);
      [lia|lia|lia|]; clear H
  | H : reading ?p (pack [] ?v) ?W ?gs |- context [(varField ≫= ?k) ?p] =>
      let p' := fresh "p" in let Hr := fresh "Hr" in let Hm := fresh "Hm" in
      destruct (var_bind p v W gs k H) as (p' & Hr & Hm & ->);
      [lia|match goal with F : var_fits ?a v |- var_fits ?b v =>
             replace b with a by lia; exact F end|]; clear H
  | H : ready ?p (var_groups [?v] ++ ?gs) |- context [(varField ≫= ?k) ?p] =>
      let p' := fresh "p" in let Hr := fresh "Hr" in let Hm := fresh "Hm" in
      destruct (ready_bind p v gs k H) as (p' & Hr & Hm & ->);
      [first [assumption|eapply in_range_mono; [|eassumption]; lia]|]; clear H
  | H : ready ?p (var_groups (?v :: ?vs) ++ ?gs) |- _ =>
      change (ready p (var_groups [v] ++ (var_groups vs ++ gs))) in H
  end; cbn beta iota.

Lemma total_var v vs :
  total (var_groups (v :: vs)) = num_slices (num_bits v) + total (var_groups vs).
Proof. done. Qed.
Lemma total_nil : total (var_groups []) = 0.
Proof. done. Qed.

Ltac read_done :=
  eexists _, _, _; split; [reflexivity|]; split; [rewrite ?total_var, ?total_nil; lia|];
  split; [eassumption|eauto using moved_trans, moved_refl].

Ltac simpl_opt := unfold option_list in *; cbn [option_rect from_option id] in *.

Ltac wf_destruct :=
  repeat match goal with
  | H : _ && _ = true |- _ => apply andb_true_iff in H as [? H]
  | H : wf_sync _ = true |- _ => apply wf_sync_spec in H as []
  | H : wf_ict _ = true |- _ => apply wf_ict_spec in H as []
  | H : B_none = _ |- _ => discriminate H
  | b : BType |- _ =>
      lazymatch goal with
      | _ : btype_of (btype_val b) = b |- _ => fail
      | _ => pose proof (btype_val_spec b) as []
      end
  end.

(** The proof of [reads] for a parser. *)
Ltac reads_tac :=
  eexists; split; [intros; reflexivity|];
  intros ? W tsg Hr HW Hf; cbn [fixed_width foldr fst] in HW, Hf; simpl_opt;
  repeat read_step; rewrite ?i32_31, ?u32_i32, ?u32_32 by done;
  repeat match goal with
  | H : sync_of _ = _ |- _ => rewrite H
  | H : btype_of _ = _ |- _ => rewrite H
  end; read_done.

Section parsers.
Context {Src : Type}.

Lemma ictFields_ok p W tsg (r : ICTReason) df d0 d1 :
  0 <= ict_val r < 2 ^ 4 -> df = match d1 with None => 0 | Some _ => 1 end ->
  in_range 64 (default 0 d1) = true ->
  reading (Src:=Src) p (pack [(4, ict_val r); (2, df)] d0) W (var_groups (option_list d1) ++ tsg) ->
  6 < W -> var_fits (W - 6) d0 ->
  exists p' bits addr_bits,
    ictFields p = Ok p' (ict_val r, df, d0, d1, bits, addr_bits) /\
    bits = W + 6 * total (var_groups (option_list d1)) /\ ready p' tsg /\ moved p p'.
Proof.
  intros Hr Hdf Hd1 Hrd HW Hf.
  unfold ictFields. assert (0 <= df < 2 ^ 2) by (destruct d1; lia).
  read_step. read_step. destruct d1 as [d1|]; subst df; case_cmp; read_step;
    case_cmp; simpl_opt; repeat read_step; read_done.
Qed.

Definition parsed_by (b : Body) : Prop :=
  exists fields,
    (forall nm, parseByTCode (Src:=Src) (tcode_val (body_tcode b)) nm =
                parseMsg (body_tcode b) fields nm) /\ reads fields b.

Lemma reads_directBranch i : wf_body (B_directBranch i) = true -> parsed_by (B_directBranch i).
Proof. intros H. cbn in H. wf_destruct. reads_tac. Qed.
Lemma reads_indirectBranch i u bt :
  wf_body (B_indirectBranch i u bt) = true -> parsed_by (B_indirectBranch i u bt).
Proof. intros H. cbn in H. wf_destruct. reads_tac. Qed.
Lemma reads_directBranchWS i f s :
  wf_body (B_directBranchWS i f s) = true -> parsed_by (B_directBranchWS i f s).
Proof. intros H. cbn in H. wf_destruct. reads_tac. Qed.
Lemma reads_indirectBranchWS i f bt s :
  wf_body (B_indirectBranchWS i f bt s) = true -> parsed_by (B_indirectBranchWS i f bt s).
Proof. intros H. cbn in H. wf_destruct. reads_tac. Qed.
Lemma reads_indirectHistory i u bt h :
  wf_body (B_indirectHistory i u bt h) = true -> parsed_by (B_indirectHistory i u bt h).
Proof. intros H. cbn in H. wf_destruct. reads_tac. Qed.
Lemma reads_indirectHistoryWS i f bt h s :
  wf_body (B_indirectHistoryWS i f bt h s) = true -> parsed_by (B_indirectHistoryWS i f bt h s).
Proof. intros H. cbn in H. wf_destruct. reads_tac. Qed.
Lemma reads_sync i f s : wf_body (B_sync i f s) = true -> parsed_by (B_sync i f s).
Proof. intros H. cbn in H. wf_destruct. reads_tac. Qed.
Lemma reads_error e : wf_body (B_error e) = true -> parsed_by (B_error e).
Proof. intros H. cbn in H. apply in_range_spec in H. reads_tac. Qed.
Lemma reads_auxAccessWrite d a :
  wf_body (B_auxAccessWrite d a) = true -> parsed_by (B_auxAccessWrite d a).
Proof. intros H. cbn in H. wf_destruct. reads_tac. Qed.
Lemma reads_dataAcquisition t d :
  wf_body (B_dataAcquisition t d) = true -> parsed_by (B_dataAcquisition t d).
Proof. intros H. cbn in H. wf_destruct. reads_tac. Qed.

Lemma reads_ownership pid v prv tag :
  wf_body (B_ownership pid v prv tag) = true -> parsed_by (B_ownership pid v prv tag).
Proof.
  intros H. cbn in H. wf_destruct. rewrite in_range_spec in *.
  change (2 ^ 31) with 2147483648 in *. change (2 ^ 1) with 2 in *. change (2 ^ 2) with 4 in *.
  eexists; split; [intros; reflexivity|]. intros p W tsg Hr HW Hf.
  cbn [fixed_width foldr fst] in HW, Hf. read_step.
  set (u := tag + 4 * prv + 16 * v + 32 * pid).
  assert (Z.shiftr u 5 = pid) as -> by (rewrite Z.shiftr_div_pow2 by lia; change (2 ^ 5) with 32; dlia).
  assert (Z.land (Z.shiftr u 4) 1 = v) as ->
    by (rewrite land_1, Z.shiftr_div_pow2 by lia; change (2 ^ 4) with 16; dlia).
  assert (Z.land (Z.shiftr u 2) 3 = prv) as ->
    by (rewrite land_3, Z.shiftr_div_pow2 by lia; change (2 ^ 2) with 4; dlia).
  assert (Z.land u 3 = tag) as -> by (rewrite land_3; dlia).
  rewrite i32_small by lia. read_done.
Qed.

Lemma reads_resourceFull r rd :
  wf_body (B_resourceFull r rd) = true -> parsed_by (B_resourceFull r rd).
Proof.
  intros [Hm H]%andb_true_iff. cbn [body_tcode] in Hm. apply resource_codes in Hm.
  destruct rd; subst r; cbn in H; reads_tac.
Qed.

Lemma reads_correlation h i cdf ev :
  wf_body (B_correlation h i cdf ev) = true -> parsed_by (B_correlation h i cdf ev).
Proof.
  intros [Hm H]%andb_true_iff.
  assert (cdf = match h with None => 0 | Some _ => 1 end) as ->
    by (apply (option_codes _ cdf h TCODE_CORRELATION (or_introl eq_refl)); exact Hm).
  wf_destruct. rewrite (in_range_spec 4) in *.
  destruct h as [h|]; cbn in H; reads_tac.
Qed.

Lemma reads_ict r df d0 d1 : wf_body (B_ict r df d0 d1) = true -> parsed_by (B_ict r df d0 d1).
Proof.
  intros [Hm H]%andb_true_iff.
  assert (df = match d1 with None => 0 | Some _ => 1 end) as Hdf
    by (apply (option_codes _ df d1 _ (or_intror (or_introl eq_refl))); exact Hm).
  wf_destruct. eexists; split; [intros; reflexivity|]. intros p W tsg Hr HW Hf.
  cbn [fixed_width foldr fst] in HW, Hf.
  edestruct (ictFields_ok p) as (p' & bits & ab & E & -> & Hr' & Hmv); [done..|].
  erewrite bind_ok by exact E. cbn beta iota. exists p'. do 2 eexists. split; [|done].
  unfold mret, M_ret. do 4 f_equal. done.
Qed.

Lemma reads_ictWS r df d0 d1 : wf_body (B_ictWS r df d0 d1) = true -> parsed_by (B_ictWS r df d0 d1).
Proof.
  intros [Hm H]%andb_true_iff.
  assert (df = match d1 with None => 0 | Some _ => 1 end) as Hdf
    by (apply (option_codes _ df d1 _ (or_intror (or_intror eq_refl))); exact Hm).
  wf_destruct. eexists; split; [intros; reflexivity|]. intros p W tsg Hr HW Hf.
  cbn [fixed_width foldr fst] in HW, Hf.
  edestruct (ictFields_ok p) as (p' & bits & ab & E & -> & Hr' & Hmv); [done..|].
  erewrite bind_ok by exact E. cbn beta iota. exists p'. do 2 eexists. split; [|done].
  unfold mret, M_ret. do 4 f_equal. done.
Qed.

Lemma body_parsed b : wf_body b = true -> parsed_by b.
Proof.
  destruct b; intros H; [done|..]; eauto using reads_directBranch, reads_indirectBranch,
    reads_directBranchWS, reads_indirectBranchWS, reads_indirectHistory,
    reads_indirectHistoryWS, reads_resourceFull, reads_sync, reads_error, reads_correlation,
    reads_auxAccessWrite, reads_dataAcquisition, reads_ownership, reads_ict, reads_ictWS.
Qed.
End parsers.

(** ** Whole messages *)

Definition field_wf (f : Z * Z) : Prop := 0 <= fst f /\ 0 <= snd f < 2 ^ fst f.

Lemma fixed_width_nonneg fs : Forall field_wf fs -> 0 <= fixed_width fs.
Proof. unfold fixed_width. induction 1 as [|f fs [Hf _] _ IH]; cbn; lia. Qed.

Lemma pack_bound fs v n :
  Forall field_wf fs -> 0 <= n -> 0 <= v < 2 ^ n -> 0 <= pack fs v < 2 ^ (fixed_width fs + n).
Proof.
  induction 1 as [|[w x] fs [Hw Hx] Hfs IH]; intros Hn Hv; cbn in *; [done|].
  specialize (IH Hn Hv). fold (fixed_width fs).
  assert (0 <= fixed_width fs) by by apply fixed_width_nonneg.
  replace (w + fixed_width fs + n) with (w + (fixed_width fs + n)) by lia.
  rewrite Z.pow_add_r by lia. pose proof (pow2_pos w Hw).
  assert (0 <= pack fs v * 2 ^ w <= (2 ^ (fixed_width fs + n) - 1) * 2 ^ w)
    by (split; [lia|apply Z.mul_le_mono_nonneg_r; lia]). lia.
Qed.

Lemma pack_app fs fs' v : pack (fs ++ fs') v = pack fs (pack fs' v).
Proof. induction fs as [|[w x] fs IH]; cbn; [done|by rewrite IH]. Qed.

Lemma fixed_width_app fs fs' : fixed_width (fs ++ fs') = fixed_width fs + fixed_width fs'.
Proof. unfold fixed_width. induction fs as [|f fs IH]; cbn; lia. Qed.

Lemma src_field_width sb core : 0 <= sb -> fixed_width (src_field sb core) = sb.
Proof. intros. unfold src_field. destruct (Z.ltb_spec 0 sb); cbn; lia. Qed.

(** The shape of the fields of a well-formed message. *)
Lemma wf_body_fields b :
  wf_body b = true ->
  let '(fs, v, vs) := body_fields b in
  Forall field_wf fs /\ 0 <= fixed_width fs <= 6 /\ in_range 64 v = true /\
  Forall (fun v => in_range 64 v = true) vs /\ (length vs <= 2)%nat.
Proof.
  intros [Hm H]%andb_true_iff. destruct b; cbn [body_tcode body_fields] in *; try done;
    wf_destruct;
    repeat match goal with
    | H : in_range ?w ?v = true |- _ =>
        lazymatch goal with
        | _ : in_range 64 v = true |- _ => fail
        | _ => pose proof (in_range_mono w 64 v ltac:(lia) H)
        end
    end;
    repeat match goal with
    | rd : RData |- _ => apply resource_codes in Hm; destruct rd; subst
    | d : option Z |- _ =>
        first [ apply (option_codes _ _ d _ (or_introl eq_refl)) in Hm
              | apply (option_codes _ _ d _ (or_intror (or_introl eq_refl))) in Hm
              | apply (option_codes _ _ d _ (or_intror (or_intror eq_refl))) in Hm ];
        destruct d; subst
    end; simpl_opt; cbn [from_option default rdata_val] in *;
    rewrite ?(in_range_spec 4) in *; repeat split; cbn [fixed_width foldr fst snd length]; try lia;
    repeat constructor; cbn [fst snd]; try done; try lia;
    try (eapply in_range_mono; [|eassumption]; lia).
  rewrite in_range_spec in *. lia.
Qed.

(** All that [encodable] says. *)
Lemma encodable_spec sb core b ts :
  encodable sb core b ts = true ->
  wf_body b = true /\ 0 <= sb <= 16 /\ 0 <= core < 2 ^ sb /\ core < DQR_MAXCORES /\
  in_range 64 (default 0 ts) = true /\
  (first_var_width sb b <> 65 \/ snd (fst (body_fields b)) < 2 ^ 63).
Proof.
  unfold encodable. rewrite !andb_true_iff, orb_true_iff, negb_true_iff, in_range_spec,
    !Z.leb_le, !Z.ltb_lt, Z.eqb_neq. tauto.
Qed.

Lemma tcode_val_range t : 0 <= tcode_val t < 2 ^ 6.
Proof. by destruct t. Qed.

Lemma encode_groups_wf sb core b ts :
  encodable sb core b ts = true ->
  let '(fs, v, vs) := body_fields b in
  encode_groups sb core b ts =
    (pack ((6, tcode_val (body_tcode b)) :: src_field sb core ++ fs) v,
     num_slices (6 + sb + fixed_width fs + num_bits v)) :: var_groups (vs ++ option_list ts) /\
  Forall group_wf (encode_groups sb core b ts) /\
  1 < num_slices (6 + sb + fixed_width fs + num_bits v) /\
  total (encode_groups sb core b ts) <= 49.
Proof.
  intros (Hwf & Hsb & Hcore & _ & Hts & _)%encodable_spec.
  pose proof (wf_body_fields b Hwf) as Hf. unfold encode_groups.
  destruct (body_fields b) as [[fs v] vs]. destruct Hf as (Hfs & Hw & Hv & Hvs & Hlen).
  pose proof (proj1 (in_range_spec 64 v) Hv) as Hv64.
  pose proof (num_bits_pos v ltac:(lia)). pose proof (num_bits_le v 64 ltac:(lia) ltac:(lia)).
  assert (fixed_width ((6, tcode_val (body_tcode b)) :: src_field sb core ++ fs) =
          6 + sb + fixed_width fs) as Hfw.
  { change (fixed_width (?f :: ?l)) with (fst f + fixed_width l).
    rewrite fixed_width_app, src_field_width by lia. cbn. lia. }
  unfold field_groups. rewrite Hfw.
  set (n0 := num_slices (6 + sb + fixed_width fs + num_bits v)).
  pose proof (num_slices_bounds (6 + sb + fixed_width fs + num_bits v)) as Hn0. fold n0 in Hn0.
  assert (Forall (fun v => in_range 64 v = true) (vs ++ option_list ts)) as Hall.
  { apply Forall_app. split; [done|]. destruct ts; cbn; [|done]. by constructor. }
  assert (total (var_groups (vs ++ option_list ts)) <= 33) as Htot.
  { transitivity (11 * Z.of_nat (length (vs ++ option_list ts))).
    - clear -Hall. induction Hall as [|x l Hx Hl IH]; [done|]. rewrite total_var.
      rewrite in_range_spec in Hx. pose proof (num_bits_le x 64 ltac:(lia) ltac:(lia)).
      cbn [length]. pose proof (num_slices_bounds (num_bits x)). lia.
    - rewrite length_app. destruct ts; cbn; lia. }
  repeat split.
  - constructor; [|apply var_groups_wf; eapply Forall_impl; [|exact Hall];
      intros x Hx; apply in_range_spec in Hx; lia].
    split; cbn [fst snd]; [lia|].
    pose proof (pack_bound ((6, tcode_val (body_tcode b)) :: src_field sb core ++ fs) v (num_bits v))
      as Hp. rewrite Hfw in Hp.
    destruct Hp as [Hp1 Hp2]; [|lia|split; [lia|by apply num_bits_lt; lia]|].
    + constructor; [split; [done|apply tcode_val_range]|]. apply Forall_app. split; [|done].
      unfold src_field. destruct (Z.ltb_spec 0 sb); [|done]. apply Forall_singleton. split; cbn; lia.
    + split; [done|]. eapply Z.lt_le_trans; [exact Hp2|]. apply Z.pow_le_mono_r; lia.
  - lia.
  - change (total (?g :: ?gs)) with (snd g + total gs). cbn [snd]. unfold var_groups in Htot. lia.
Qed.

(** The first slice of a message holds its TCODE, which is not 0. *)
Lemma encode_first_slice b fs v :
  wf_body b = true -> slice (pack ((6, tcode_val (body_tcode b)) :: fs) v) 0 6 <> 0.
Proof.
  intros Hwf. rewrite slice_low. cbn [pack]. rewrite Z.mod_add by done.
  by destruct b.
Qed.

Section whole.
Context {Src : Type}.
Implicit Type p : SliceParser Src.

(** The message a parser makes of the fields, apart from its number. *)
Definition parsed (nm : NexusMessage) (core : Z) (b : Body) (ts : option Z) : NexusMessage :=
  set_ts ts (set_body b (set_head (body_tcode b) core nm)).

Lemma body_matches_wf b : wf_body b = true -> body_matches (body_tcode b) b = true.
Proof. unfold wf_body. by intros [? _]%andb_true_iff. Qed.

(** A parser, started after the TCODE of an encoded message. *)
Lemma parse_encoded p a nm core b ts W :
  encodable (sp_srcbits p) core b ts = true -> an_status a = DQERR_OK ->
  let '(fs, v, vs) := body_fields b in
  reading p (pack (src_field (sp_srcbits p) core ++ fs) v) W (var_groups (vs ++ option_list ts)) ->
  W = 6 * num_slices (6 + sp_srcbits p + fixed_width fs + num_bits v) - 6 ->
  6 * sp_msgSlices p = 6 + W + 6 * total (var_groups (vs ++ option_list ts)) ->
  sp_msgSlices p <= MSG_SIZE ->
  exists p' a' addr_bits,
    parseByTCode (tcode_val (body_tcode b)) nm (p, a) =
      Ok (set_status DQERR_OK p', a')
         (set_msgNum (currentTraceMsgNum a') (parsed nm core b ts)) /\
    moved p p' /\
    updateTraceInfo (parsed nm core b ts) (8 * sp_msgSlices p) (2 * sp_msgSlices p)
      (6 * total (var_groups (option_list ts))) addr_bits a = Some a'.
Proof.
  intros (Hwf & Hsb & Hcore & Hmax & Hts & Hfit)%encodable_spec Ha.
  pose proof (wf_body_fields b Hwf) as Hf.
  destruct (body_parsed (Src:=Src) b Hwf) as (fields & Hp & Hreads).
  unfold reads in Hreads. unfold first_var_width in Hfit.
  destruct (body_fields b) as [[fs v] vs]. destruct Hf as (Hfs & Hw & Hv & Hvs & Hlen).
  apply in_range_spec in Hv. cbn [fst snd] in Hfit. intros Hr HW Hslices Hmsg.
  pose proof (num_slices_bounds (6 + sp_srcbits p + fixed_width fs + num_bits v)) as Hn.
  pose proof (num_bits_pos v ltac:(lia)). pose proof (num_bits_le v 64 ltac:(lia) ltac:(lia)).
  rewrite Hp. unfold parseMsg.
  destruct (parseSrc_ok p core fs v W _ Hr) as (p1 & E1 & Hr1 & Hm1); [lia|lia| |lia|].
  { unfold DQR_MAXCORES in *. lia. }
  erewrite bind_ok by (unfold onParser; cbn [fst snd]; by rewrite E1). cbn beta iota.
  assert (var_groups (vs ++ option_list ts) = var_groups vs ++ var_groups (option_list ts)) as Hvg
    by apply fmap_app.
  rewrite Hvg in *. rewrite total_app in Hslices.
  destruct (Hreads p1 (W - sp_srcbits p) _ Hr1) as (p2 & bits & ab & E2 & -> & Hr2 & Hm2); [lia| |].
  { split; [done|]. destruct (decide (W - sp_srcbits p - fixed_width fs <= 64)); [by left|right].
    split; [lia|]. destruct (decide (W - sp_srcbits p - fixed_width fs = 65)) as [E65|].
    - destruct Hfit as [Hfit|Hfit]; [lia|]. by rewrite E65.
    - eapply Z.lt_le_trans; [apply Hv|]. apply Z.pow_le_mono_r; lia. }
  erewrite bind_ok by (unfold onParser; cbn [fst snd]; by rewrite E2). cbn beta iota.
  destruct (parseTimestamp_ok p2 ts Hr2 Hts) as (p3 & E3 & _ & Hm3).
  erewrite bind_ok by (unfold onParser; cbn [fst snd]; by rewrite E3). cbn beta iota.
  assert (moved p p3) as Hm by eauto using moved_trans.
  assert (sp_msgSlices p3 = sp_msgSlices p) as Hms by (by destruct Hm as (?&?&->)).
  unfold account. rewrite Hms. fold (parsed nm core b ts).
  replace (6 + sp_srcbits p + (W - sp_srcbits p + 6 * total (var_groups vs)) +
           6 * total (var_groups (option_list ts)) + sp_msgSlices p * 2)
    with (8 * sp_msgSlices p) by lia.
  replace (sp_msgSlices p * 2) with (2 * sp_msgSlices p) by lia.
  assert (0 <= total (var_groups vs) + total (var_groups (option_list ts))).
  { rewrite <-total_app. apply total_nonneg. rewrite <-Hvg. apply var_groups_wf.
    apply Forall_app. split; [eapply Forall_impl; [|exact Hvs]; intros x Hx%in_range_spec; lia|].
    apply in_range_spec in Hts. destruct ts; cbn in *; [|done]. repeat constructor. lia. }
  unfold MSG_SIZE in Hmsg. rewrite !u32_small by lia.
  destruct (updateTraceInfo_ok (parsed nm core b ts) (8 * sp_msgSlices p) (2 * sp_msgSlices p)
              (6 * total (var_groups (option_list ts))) ab a) as (a' & Ea & Hst);
    [done|by apply body_matches_wf|].
  rewrite Ea, decide_True by congruence. exists p3, a', ab. done.
Qed.
End whole.

Section framed.
Context {Src : Type}.
Implicit Type p : SliceParser Src.

(** The parser just after a message has been framed. *)
Definition framed p (bytes : list Z) : Prop :=
  take (Z.to_nat (sp_msgSlices p)) (sp_msg p) = bytes /\
  Z.of_nat (length bytes) = sp_msgSlices p /\ sp_bitIndex p = 0 /\ sp_eom p = false.

Lemma framed_reading p sb core b ts :
  encodable sb core b ts = true -> framed p (encode sb core b ts) ->
  let '(fs, v, vs) := body_fields b in
  let n := num_slices (6 + sb + fixed_width fs + num_bits v) in
  reading p (pack ((6, tcode_val (body_tcode b)) :: src_field sb core ++ fs) v) (6 * n)
    (var_groups (vs ++ option_list ts)) /\ 1 < n /\
  sp_msgSlices p = n + total (var_groups (vs ++ option_list ts)) /\ sp_msgSlices p <= 49.
Proof.
  intros Henc (Hmsg & Hlen & Hbi & Heom). pose proof (encode_groups_wf sb core b ts Henc) as Hg.
  unfold encode in *. destruct (body_fields b) as [[fs v] vs].
  destruct Hg as (Hgs & Hwf & Hn & Htot). cbn zeta.
  rewrite length_groups_bytes in Hlen by done. rewrite Hgs in *.
  set (n := num_slices _) in *. set (u := pack _ v) in *. set (vg := var_groups _) in *.
  change (total ((u, n) :: vg)) with (n + total vg) in *.
  split; [|split; [done|lia]].
  assert (groups_at (sp_msg p) 0 ((u, n) :: vg)) as [Hg0 Hg1].
  { apply (groups_at_bytes _ _ _ (drop (Z.to_nat (sp_msgSlices p)) (sp_msg p))); [done|done|].
    rewrite <-Hmsg. change (Z.to_nat 0) with 0%nat. by rewrite drop_0, take_drop. }
  apply Forall_cons_1 in Hwf as [[_ Hu] Hwf]. cbn [fst snd] in Hu.
  exists 0, u, n, 0. rewrite slice_low, Z.mod_small by done.
  repeat (split; [done || lia|]). done.
Qed.

(** A framed message is parsed to the fields it was made of. *)
Lemma parseFramed_encoded p a nm core b ts :
  encodable (sp_srcbits p) core b ts = true -> an_status a = DQERR_OK ->
  framed p (encode (sp_srcbits p) core b ts) ->
  let nm0 := set_raw (sp_msgOffset p) (copyRaw (nm_rawData nm) (sp_msg p)) nm in
  exists p' a' addr_bits,
    parseFramed nm (p, a) =
      Ok (set_status DQERR_OK p', a')
         (set_msgNum (currentTraceMsgNum a') (parsed nm0 core b ts)) /\
    moved p p' /\
    updateTraceInfo (parsed nm0 core b ts) (8 * sp_msgSlices p) (2 * sp_msgSlices p)
      (6 * total (var_groups (option_list ts))) addr_bits a = Some a'.
Proof.
  intros Henc Ha Hfr nm0. pose proof (framed_reading p _ core b ts Henc Hfr) as Hr.
  unfold parseFramed. cbn [fst]. fold nm0.
  pose proof (fun p1 W => parse_encoded p1 a nm0 core b ts W) as Hparse.
  destruct (body_fields b) as [[fs v] vs]. cbn zeta in Hr. destruct Hr as (Hr & Hn & Hs & H49).
  cbn [pack] in Hr.
  destruct (fixed_step p _ _ 6 _ _ Hr) as (p1 & E1 & Hr1 & Hm1);
    [lia|lia|apply tcode_val_range|].
  assert (sp_srcbits p1 = sp_srcbits p /\ sp_msgSlices p1 = sp_msgSlices p) as [Hsb1 Hms1]
    by (by destruct Hm1 as (?&?&->)).
  erewrite bind_ok by (unfold onParser; cbn [fst snd]; by rewrite E1). cbn beta iota.
  rewrite u8_small by (pose proof (tcode_val_range (body_tcode b)); lia).
  specialize (Hparse p1 (6 * num_slices (6 + sp_srcbits p + fixed_width fs + num_bits v) - 6)).
  rewrite Hsb1, Hms1 in Hparse.
  destruct (Hparse Henc Ha Hr1 eq_refl) as (p2 & a' & ab & E2 & Hm2 & Hu);
    [lia|unfold MSG_SIZE; lia|].
  rewrite E2. exists p2, a', ab. split; [done|]. split; [by eapply moved_trans|done].
Qed.
End framed.

(** ** From the byte stream to the message *)

Section stream.
Context {Src : Type} `{!ByteSource Src} `{!ByteSourceLaws Src}.
Implicit Type p : SliceParser Src.

Lemma next_frame_encode sb core b ts rest :
  encodable sb core b ts = true ->
  next_frame (encode sb core b ts ++ rest) = FMsg (encode sb core b ts) rest.
Proof.
  intros Henc. pose proof (encode_groups_wf sb core b ts Henc) as Hg.
  pose proof (encodable_spec _ _ _ _ Henc) as (Hwf & _).
  unfold encode. destruct (body_fields b) as [[fs v] vs].
  destruct Hg as (Hgs & Hgwf & Hn & Htot). rewrite Hgs in *.
  apply next_frame_groups; [done|done|by apply encode_first_slice|unfold MSG_SIZE; lia].
Qed.

Lemma stream_moved p p' : moved p p' -> stream (set_status DQERR_OK p') = stream p.
Proof. by intros (?&?&->). Qed.

(** Reading the next message from a stream that starts with an encoded one:
    the message is delivered and taken off the stream, or the source has no
    byte yet or fails, and the message is still to come. *)
Definition delivers p a nm core b ts rest
    (r : Res (SliceParser Src * Analytics) DQErr (option NexusMessage)) : Prop :=
  match r with
  | Ok (p', a') (Some nm') =>
      stream p' = rest /\ frame_ok p' /\ sp_status p' = DQERR_OK /\
      sp_srcbits p' = sp_srcbits p /\ an_status a' = DQERR_OK /\
      (exists off raw, nm' = set_msgNum (currentTraceMsgNum a')
                               (parsed (set_raw off raw nm) core b ts)) /\
      an_all a' num_trace_msgs_all_cores = u32 (an_all a num_trace_msgs_all_cores + 1) /\
      an_core a' core trace_bits =
        u32 (an_core a core trace_bits + 8 * Z.of_nat (length (encode (sp_srcbits p) core b ts)))
  | Ok (p', a') None =>
      next_frame (stream p') = next_frame (stream p) /\ frame_ok p' /\
      sp_status p' = DQERR_OK /\ sp_srcbits p' = sp_srcbits p /\ a' = a /\
      src_dry (sp_source p')
  | Err (p', a') e =>
      next_frame (stream p') = next_frame (stream p) /\ frame_ok p' /\
      a' = a /\ src_fail e (sp_source p')
  | Undef | NoFuel => False
  end.

Lemma readNextTraceMsg_delivers fuel p a nm core b ts rest :
  encodable (sp_srcbits p) core b ts = true ->
  frame_ok p -> sp_status p = DQERR_OK -> an_status a = DQERR_OK ->
  next_frame (stream p) = next_frame (encode (sp_srcbits p) core b ts ++ rest) ->
  (length (pending (sp_source p)) < fuel)%nat ->
  delivers p a nm core b ts rest (readNextTraceMsg fuel nm (p, a)).
Proof using ByteSourceLaws0.
  intros Henc Hok Hst Ha Hstr Hfuel.
  pose proof (encodable_spec _ _ _ _ Henc) as (Hwf & _ & _ & Hmax & _).
  unfold readNextTraceMsg. cbn [fst snd].
  rewrite decide_True by done. rewrite next_frame_encode in Hstr by done.
  pose proof (readBinaryMsg_spec fuel p Hok Hst Hfuel) as Hrd. unfold frame_post in Hrd.
  destruct (readBinaryMsg fuel p) as [p1 [|]|p1 e| |]; [| | |done..].
  - destruct Hrd as (Hok1 & Hst1 & Hsb1 & Hpm & Heom & Hbi & Hms & Hfr).
    rewrite Hstr in Hfr. injection Hfr as Hmsg ->.
    assert (framed p1 (encode (sp_srcbits p1) core b ts)) as Hframed.
    { rewrite Hsb1. split; [done|]. rewrite Hmsg. split; [|done].
      rewrite length_take. destruct Hok1 as [_ Hl _ _ _]. unfold MSG_SIZE in *. lia. }
    rewrite <-Hsb1 in Henc.
    destruct (parseFramed_encoded p1 a nm core b ts Henc Ha Hframed)
      as (p2 & a' & ab & E & Hm & Hu).
    erewrite bind_ok by exact E. cbn [mret M_ret delivers].
    destruct (updateTraceInfo_totals _ _ _ _ _ _ _ Hu) as (Hmsgs & Hbits & _).
    destruct (updateTraceInfo_ok (parsed (set_raw (sp_msgOffset p1)
      (copyRaw (nm_rawData nm) (sp_msg p1)) nm) core b ts) (8 * sp_msgSlices p1)
      (2 * sp_msgSlices p1) (6 * total (var_groups (option_list ts))) ab a) as (a2 & Hu2 & Ha2).
    { done. } { by apply body_matches_wf. }
    rewrite Hu in Hu2. injection Hu2 as <-.
    split; [by apply stream_moved|].
    split; [destruct Hm as (?&?&->); by destruct Hok1|].
    split; [done|]. split; [by destruct Hm as (?&?&->)|]. split; [congruence|].
    split; [by eexists _, _|]. split; [exact Hmsgs|].
    cbn in Hbits. rewrite Hbits, <-Hsb1. by destruct Hframed as (_ & -> & _).
  - destruct Hrd as (?&?&?&?&?). done.
  - destruct Hrd as (Hok1 & <- & [[-> Hlong]|(Hf & Hnf & _)]); [congruence|].
    destruct (decide _); cbn; (split; [done|]); (split; [by destruct Hok1|]); by split.
Qed.
End stream.

(** ** Files: a whole trace *)

(** The content of a message that the encoder was given. *)
Definition message_is (core : Z) (b : Body) (ts : option Z) (nm : NexusMessage) : Prop :=
  nm_tcode nm = body_tcode b /\ nm_body nm = b /\ nm_coreId nm = core /\
  nm_haveTimestamp nm = bool_decide (is_Some ts) /\ nm_timestamp nm = default 0 ts.

Lemma parsed_is nm core b ts n : message_is core b ts (set_msgNum n (parsed nm core b ts)).
Proof. done. Qed.

(** Without bytes to come there is no message to come. *)
Lemma no_frame_pending {Src} `{ByteSourceLaws Src} (p : SliceParser Src) m r :
  frame_ok p -> pending (sp_source p) = [] -> next_frame (stream p) <> FMsg m r.
Proof.
  intros Hok Hp. destruct (decide (0 < sp_pendingMsgIndex p)) as [Hpos|].
  - rewrite next_frame_carried, Hp by done.
    by destruct (64 - Z.to_nat (sp_pendingMsgIndex p))%nat.
  - unfold stream, carried. rewrite Hp. destruct Hok as [_ _ _ Hi _].
    by replace (sp_pendingMsgIndex p) with 0 by lia.
Qed.

(** A file always has the next byte, or none will come: the message is
    delivered by the first call. *)
Lemma file_delivers fuel (p : SliceParser File) a nm core b ts rest :
  encodable (sp_srcbits p) core b ts = true ->
  frame_ok p -> sp_status p = DQERR_OK -> an_status a = DQERR_OK ->
  stream p = encode (sp_srcbits p) core b ts ++ rest ->
  (length (pending (sp_source p)) < fuel)%nat ->
  exists p' a' nm', readNextTraceMsg fuel nm (p, a) = Ok (p', a') (Some nm') /\
    message_is core b ts nm' /\ stream p' = rest /\ frame_ok p' /\ sp_status p' = DQERR_OK /\
    sp_srcbits p' = sp_srcbits p /\ an_status a' = DQERR_OK /\
    an_all a' num_trace_msgs_all_cores = u32 (an_all a num_trace_msgs_all_cores + 1) /\
    nm_msgNum nm' = currentTraceMsgNum a'.
Proof.
  intros Henc Hok Hst Ha Hstr Hfuel.
  pose proof (readNextTraceMsg_delivers fuel p a nm core b ts rest Henc Hok Hst Ha
                ltac:(by rewrite Hstr) Hfuel) as Hd.
  assert (next_frame (stream p) = FMsg (encode (sp_srcbits p) core b ts) rest) as Hfr
    by (rewrite Hstr; by apply next_frame_encode).
  destruct (readNextTraceMsg fuel nm (p, a)) as [[p' a'] [nm'|]|[p' a'] e| |]; cbn in Hd; try done.
  - destruct Hd as (? & ? & ? & ? & ? & (off & raw & ->) & ? & _).
    by eexists p', a', _.
  - by destruct Hd as (_ & _ & _ & _ & _ & Hdry).
  - destruct Hd as (Hnf & Hok' & _ & Hrest & _). rewrite Hfr in Hnf.
    exfalso. exact (no_frame_pending p' _ _ Hok' Hrest Hnf).
Qed.

(** [Trace::NextInstruction] reads message after message into the same object. *)
Fixpoint readMsgs {Src} `{ByteSource Src} (fuel n : nat) (nm : NexusMessage)
    : M (SliceParser Src * Analytics) DQErr (list NexusMessage) :=
  match n with
  | O => mret []
  | S n =>
      o ← readNextTraceMsg fuel nm;
      match o with
      | None => mret []
      | Some nm => l ← readMsgs fuel n nm; mret (nm :: l)
      end
  end.

Definition encode_all (sb : Z) (ms : list (Z * Body * option Z)) : list Z :=
  concat ((fun m => let '(core, b, ts) := m in encode sb core b ts) <$> ms).

Lemma readMsgs_file fuel ms : forall (p : SliceParser File) a nm rest,
  Forall (fun m => let '(core, b, ts) := m in encodable (sp_srcbits p) core b ts = true) ms ->
  frame_ok p -> sp_status p = DQERR_OK -> an_status a = DQERR_OK ->
  stream p = encode_all (sp_srcbits p) ms ++ rest -> (length (stream p) < fuel)%nat ->
  exists p' a' l, readMsgs fuel (length ms) nm (p, a) = Ok (p', a') l /\
    Forall2 (fun m nm' => let '(core, b, ts) := m in message_is core b ts nm') ms l /\
    stream p' = rest /\ sp_status p' = DQERR_OK.
Proof.
  induction ms as [|[[core b] ts] ms IH]; intros p a nm rest Hms Hok Hst Ha Hstr Hfuel.
  - exists p, a, []. by repeat split.
  - apply Forall_cons_1 in Hms as [Hm Hms]. unfold encode_all in Hstr. cbn in Hstr.
    rewrite <-app_assoc in Hstr.
    destruct (file_delivers fuel p a nm core b ts _ Hm Hok Hst Ha Hstr)
      as (p1 & a1 & nm1 & E1 & Hnm & Hstr1 & Hok1 & Hst1 & Hsb1 & Ha1 & _).
    { unfold stream in Hfuel. rewrite length_app in Hfuel. lia. }
    destruct (IH p1 a1 nm1 rest) as (p2 & a2 & l & E2 & Hl & Hrest & Hst2).
    { by rewrite Hsb1. } { done. } { done. } { done. }
    { by rewrite Hstr1, Hsb1. }
    { rewrite Hstr1. rewrite Hstr, length_app in Hfuel. lia. }
    exists p2, a2, (nm1 :: l). cbn [readMsgs length].
    erewrite bind_ok by exact E1. cbn beta iota. erewrite bind_ok by exact E2.
    split; [done|]. split; [by constructor|done].
Qed.

(** Different messages have different encodings. *)
Lemma encode_inj sb core b ts core' b' ts' :
  encodable sb core b ts = true -> encodable sb core' b' ts' = true ->
  encode sb core b ts = encode sb core' b' ts' -> core = core' /\ b = b' /\ ts = ts'.
Proof.
  intros H1 H2 He.
  set (bytes := encode sb core b ts).
  set (p := newSliceParser sb (replicate 64 0)
    {| f_rest := bytes; f_pos := 0; f_ioerr := false |}).
  assert (frame_ok p) as Hok by (split; done).
  destruct (file_delivers (S (length bytes)) p newAnalytics newNexusMessage core b ts [])
    as (p1 & a1 & nm1 & E1 & (_ & Hb1 & Hc1 & Ht1 & Hv1) & _); [done..|by rewrite app_nil_r|cbn; lia|].
  destruct (file_delivers (S (length bytes)) p newAnalytics newNexusMessage core' b' ts' [])
    as (p2 & a2 & nm2 & E2 & (_ & Hb2 & Hc2 & Ht2 & Hv2) & _);
    [done..|rewrite app_nil_r; exact He|cbn; lia|].
  rewrite E1 in E2. injection E2 as <- <- <-. split; [congruence|]. split; [congruence|].
  rewrite Ht1 in Ht2. destruct ts, ts'; cbn in *; try done; congruence.
Qed.
