(* ===== verification/Counts.v ===== *)
(** * Counts: the per-core counts that drive the decoder, and the call stack
    (include/trace.hpp and src/dqr.cpp, [Count] and [AddrStack]).

    A message tells the decoder how far to run before the next one: a number of
    half-instructions ([i_cnt]) and the outcome of the branches on the way, as a
    history word, a taken count or a not-taken count.  [AddrStack] holds the
    return addresses of inferable calls. *)

From S2P Require Import Prelude Nexus.

(** ** AddrStack *)

(** The array grows down: [as_sp] is the index of the top element. *)
Record AddrStack := { as_size : Z; as_sp : Z; as_stack : list Z }.

(** [AddrStack::AddrStack]; the default size is 2048.  What [new] leaves in the
    array is never read. *)
Definition newAddrStack (size : Z) : AddrStack :=
  {| as_size := size; as_sp := size; as_stack := replicate (Z.to_nat size) 0 |}.
Definition STACK_SIZE : Z := 2048.

Definition resetStack (s : AddrStack) : AddrStack :=
  {| as_size := as_size s; as_sp := as_size s; as_stack := as_stack s |}.

(** [push] returns 1 when the stack is full. *)
Definition push (addr : Z) (s : AddrStack) : AddrStack * Z :=
  if as_sp s <=? 0 then (s, 1)
  else ({| as_size := as_size s; as_sp := as_sp s - 1;
           as_stack := <[Z.to_nat (as_sp s - 1) := addr]> (as_stack s) |}, 0).

(** [pop] returns [-1], the largest address, when the stack is empty. *)
Definition pop (s : AddrStack) : AddrStack * Z :=
  if as_size s <=? as_sp s then (s, ADDRESS_NONE)
  else ({| as_size := as_size s; as_sp := as_sp s + 1; as_stack := as_stack s |},
        default 0 (as_stack s !! Z.to_nat (as_sp s))).

Definition getNumOnStack (s : AddrStack) : Z := as_size s - as_sp s.

(** ** The counts of one core *)

Inductive CountType :=
| COUNTTYPE_none | COUNTTYPE_i_cnt | COUNTTYPE_history | COUNTTYPE_taken | COUNTTYPE_notTaken.
#[export] Instance CountType_eq_dec : EqDecision CountType.
Proof. solve_decision. Defined.

Record CoreCounts := {
  cc_i_cnt : Z;
  cc_history : Z;
  cc_histBit : Z;
  cc_takenCount : Z;
  cc_notTakenCount : Z;
  cc_stack : AddrStack;
}.

(** [Count::Count()] for one core. *)
Definition newCoreCounts : CoreCounts := {|
  cc_i_cnt := 0; cc_history := 0; cc_histBit := -1; cc_takenCount := 0;
  cc_notTakenCount := 0; cc_stack := newAddrStack STACK_SIZE |}.

Definition set_i_cnt v (c : CoreCounts) : CoreCounts := {|
  cc_i_cnt := v; cc_history := cc_history c; cc_histBit := cc_histBit c;
  cc_takenCount := cc_takenCount c; cc_notTakenCount := cc_notTakenCount c;
  cc_stack := cc_stack c |}.
Definition set_hist h b (c : CoreCounts) : CoreCounts := {|
  cc_i_cnt := cc_i_cnt c; cc_history := h; cc_histBit := b;
  cc_takenCount := cc_takenCount c; cc_notTakenCount := cc_notTakenCount c;
  cc_stack := cc_stack c |}.
Definition set_taken t n (c : CoreCounts) : CoreCounts := {|
  cc_i_cnt := cc_i_cnt c; cc_history := cc_history c; cc_histBit := cc_histBit c;
  cc_takenCount := t; cc_notTakenCount := n; cc_stack := cc_stack c |}.
Definition set_stack s (c : CoreCounts) : CoreCounts := {|
  cc_i_cnt := cc_i_cnt c; cc_history := cc_history c; cc_histBit := cc_histBit c;
  cc_takenCount := cc_takenCount c; cc_notTakenCount := cc_notTakenCount c;
  cc_stack := s |}.

Definition resetCounts (c : CoreCounts) : CoreCounts :=
  set_taken 0 0 (set_hist (cc_history c) (-1) (set_i_cnt 0 c)).

Definition getCurrentCountType (c : CoreCounts) : CountType :=
  if 0 <=? cc_histBit c then COUNTTYPE_history
  else if 0 <? cc_takenCount c then COUNTTYPE_taken
  else if 0 <? cc_notTakenCount c then COUNTTYPE_notTaken
  else if 0 <? cc_i_cnt c then COUNTTYPE_i_cnt
  else COUNTTYPE_none.

#[local] Abbreviation C := (M CoreCounts DQErr).

(** Signed [int] arithmetic: overflow is undefined. *)
Definition int_of (x : Z) : option Z :=
  if (- 2 ^ 31 <=? x) && (x <? 2 ^ 31) then Some x else None.

Definition setICnt (count : Z) : C unit :=
  c ← get;
  v ← lift_opt (int_of (cc_i_cnt c + count));
  modify (set_i_cnt v).

(** The guard shared by the three setters: some count is still in use. *)
Definition countsBusy (c : CoreCounts) : bool :=
  (0 <=? cc_histBit c) || negb (cc_takenCount c =? 0) || negb (cc_notTakenCount c =? 0).

(** The search for the most significant bit, from bit [n - 1] down; [-1] if
    there is none. *)
Fixpoint msbFrom (n : nat) (hist : Z) : Z :=
  match n with
  | O => -1
  | S n => if Z.testbit hist (Z.of_nat n) then Z.of_nat n else msbFrom n hist
  end.

Definition setHistory (hist : Z) : C unit :=
  c ← get;
  if countsBusy c then throw DQERR_ERR
  else if hist =? 0 then modify (set_hist 0 (-1))
  else
    let i := msbFrom 64 hist in
    modify (set_hist hist (if 0 <=? i then i - 1 else -1)).

Definition setHistoryCount (hist count : Z) : C unit :=
  setICnt count ≫= fun _ => setHistory hist.

Definition setTakenCount (n : Z) : C unit :=
  c ← get;
  if countsBusy c then throw DQERR_ERR
  else modify (set_taken n (cc_notTakenCount c)).

Definition setNotTakenCount (n : Z) : C unit :=
  c ← get;
  if countsBusy c then throw DQERR_ERR
  else modify (set_taken (cc_takenCount c) n).

(** The counts a message carries: [i_cnt], history, taken and not-taken; [None]
    when a member of the union that is not active is read; the error of an
    unsupported message is [inl]. *)
Definition messageCounts (nm : NexusMessage) : option (DQErr + option (Z * Z * Z * Z)) :=
  let only_i_cnt (o : option Z) := (fun i => inr (Some (i, 0, 0, 0))) <$> o in
  match nm_tcode nm with
  | TCODE_DEBUG_STATUS | TCODE_DEVICE_ID | TCODE_OWNERSHIP_TRACE | TCODE_DATA_WRITE
  | TCODE_DATA_READ | TCODE_DATA_ACQUISITION | TCODE_ERROR | TCODE_CORRECTION
  | TCODE_AUXACCESS_WRITE | TCODE_INCIRCUITTRACE | TCODE_INCIRCUITTRACE_WS => Some (inr None)
  | TCODE_DIRECT_BRANCH =>
      only_i_cnt (match nm_body nm with B_directBranch i => Some i | _ => None end)
  | TCODE_INDIRECT_BRANCH =>
      only_i_cnt (match nm_body nm with B_indirectBranch i _ _ => Some i | _ => None end)
  | TCODE_SYNC => only_i_cnt (match nm_body nm with B_sync i _ _ => Some i | _ => None end)
  | TCODE_DIRECT_BRANCH_WS =>
      only_i_cnt (match nm_body nm with B_directBranchWS i _ _ => Some i | _ => None end)
  | TCODE_INDIRECT_BRANCH_WS =>
      only_i_cnt (match nm_body nm with B_indirectBranchWS i _ _ _ => Some i | _ => None end)
  | TCODE_RESOURCEFULL =>
      match nm_body nm with
      | B_resourceFull 0 (R_i_cnt i) => Some (inr (Some (i, 0, 0, 0)))
      | B_resourceFull 1 (R_history h) => Some (inr (Some (0, h, 0, 0)))
      | B_resourceFull 8 (R_notTakenCount n) => Some (inr (Some (0, 0, 0, i32 n)))
      | B_resourceFull 9 (R_takenCount n) => Some (inr (Some (0, 0, i32 n, 0)))
      | B_resourceFull r _ =>
          if decide (r ∈ [0; 1; 8; 9]) then None else Some (inl DQERR_ERR)
      | _ => None
      end
  | TCODE_INDIRECTBRANCHHISTORY =>
      match nm_body nm with
      | B_indirectHistory i _ _ h => Some (inr (Some (i, h, 0, 0)))
      | _ => None
      end
  | TCODE_INDIRECTBRANCHHISTORY_WS =>
      match nm_body nm with
      | B_indirectHistoryWS i _ _ h _ => Some (inr (Some (i, h, 0, 0)))
      | _ => None
      end
  | TCODE_CORRELATION =>
      match nm_body nm with
      | B_correlation h i cdf _ =>
          if cdf =? 1 then (fun h => inr (Some (i, h, 0, 0))) <$> h
          else Some (inr (Some (i, 0, 0, 0)))
      | _ => None
      end
  | _ => Some (inl DQERR_ERR)
  end.

Definition when (b : bool) (m : C unit) : C unit := if b then m else mret tt.

(** [setCounts], on the counts of the message's core. *)
Definition setCounts (nm : NexusMessage) : C unit :=
  r ← lift_opt (messageCounts nm);
  match r with
  | inl e => throw e
  | inr None => mret tt
  | inr (Some (i_cnt, history, taken, notTaken)) =>
      when (negb (i_cnt =? 0)) (setICnt i_cnt) ≫= fun _ =>
      when (negb (history =? 0)) (setHistory history) ≫= fun _ =>
      when (negb (taken =? 0)) (setTakenCount taken) ≫= fun _ =>
      when (negb (notTaken =? 0)) (setNotTakenCount notTaken)
  end.

(** The new count is returned. *)
Definition consumeICnt (n : Z) : C Z :=
  c ← get;
  v ← lift_opt (int_of (cc_i_cnt c - n));
  modify (set_i_cnt v) ≫= fun _ => mret v.

(** [1 << histBit] as an [int], converted to 64 bits: undefined for a negative
    shift or one of 32 or more, and bit 31 is the sign. *)
Definition histMask (b : Z) : option Z :=
  if (0 <=? b) && (b <? 32) then Some (u64 (i32 (Z.shiftl 1 b))) else None.

Definition isTaken (c : CoreCounts) : option bool :=
  m ← histMask (cc_histBit c); Some (negb (Z.land (cc_history c) m =? 0)).

(** [None]: there is no history (the code returns 1). *)
Definition consumeHistory : C (option bool) :=
  c ← get;
  if cc_histBit c <? 0 then mret None
  else
    taken ← lift_opt (isTaken c);
    modify (set_hist (cc_history c) (cc_histBit c - 1)) ≫= fun _ =>
    mret (Some taken).

Definition consumeTakenCount : C Z :=
  c ← get;
  if cc_takenCount c <=? 0 then mret 1
  else modify (set_taken (cc_takenCount c - 1) (cc_notTakenCount c)) ≫= fun _ => mret 0.

Definition consumeNotTakenCount : C Z :=
  c ← get;
  if cc_notTakenCount c <=? 0 then mret 1
  else modify (set_taken (cc_takenCount c) (cc_notTakenCount c - 1)) ≫= fun _ => mret 0.

(** The inline accessors that narrow to 32 bits. *)
Definition getCountHistory (c : CoreCounts) : Z := u32 (cc_history c).
Definition getTakenCount (c : CoreCounts) : Z := u32 (cc_takenCount c).
Definition getNotTakenCount (c : CoreCounts) : Z := u32 (cc_notTakenCount c).

(** ** All cores *)

(** The object: its arrays have [DQR_MAXCORES] elements. *)
Definition Count := list CoreCounts.
Definition newCount : Count := replicate 16 newCoreCounts.

(** An operation on core [k]; an index outside the arrays is undefined. *)
Definition onCore {A} (k : Z) (m : C A) : M Count DQErr A := fun cs =>
  match (if 0 <=? k then cs !! Z.to_nat k else None) with
  | None => Undef
  | Some c =>
      match m c with
      | Ok c a => Ok (<[Z.to_nat k := c]> cs) a
      | Err c e => Err (<[Z.to_nat k := c]> cs) e
      | Undef => Undef
      | NoFuel => NoFuel
      end
  end.

Definition pushAddr (k addr : Z) : M Count DQErr Z := onCore k (fun c =>
  let (s, r) := push addr (cc_stack c) in Ok (set_stack s c) r).
Definition popAddr (k : Z) : M Count DQErr Z := onCore k (fun c =>
  let (s, a) := pop (cc_stack c) in Ok (set_stack s c) a).

(** ** The stack is a bounded last-in first-out stack *)

Record stack_ok (s : AddrStack) : Prop := {
  so_len : Z.of_nat (length (as_stack s)) = as_size s;
  so_sp : 0 <= as_sp s <= as_size s;
}.

(** Its contents, top first. *)
Definition contents (s : AddrStack) : list Z := drop (Z.to_nat (as_sp s)) (as_stack s).

Lemma newAddrStack_ok n : 0 <= n -> stack_ok (newAddrStack n) /\ contents (newAddrStack n) = [].
Proof.
  intros. split; [split; cbn; [rewrite length_replicate; lia|lia]|].
  unfold contents. cbn. apply drop_ge. rewrite length_replicate. lia.
Qed.

Lemma contents_length s : stack_ok s -> Z.of_nat (length (contents s)) = getNumOnStack s.
Proof. intros [Hl Hs]. unfold contents, getNumOnStack. rewrite length_drop. lia. Qed.

Lemma push_spec s a :
  stack_ok s ->
  stack_ok (fst (push a s)) /\
  if as_size s <=? getNumOnStack s then push a s = (s, 1)
  else contents (fst (push a s)) = a :: contents s /\ snd (push a s) = 0.
Proof.
  intros [Hl Hs]. unfold push, getNumOnStack. case_cmp; cbn [fst snd]; [by split|].
  - split; [split; cbn; [by rewrite length_insert|lia]|]. split; [|done].
    unfold contents. cbn. set (n := Z.to_nat (as_sp s - 1)).
    replace (Z.to_nat (as_sp s)) with (S n) by lia.
    rewrite (drop_S _ a n) by (apply list_lookup_insert_eq; lia).
    by rewrite drop_insert_lt by lia.
Qed.

Lemma pop_spec s :
  stack_ok s ->
  stack_ok (fst (pop s)) /\
  match contents s with
  | [] => pop s = (s, ADDRESS_NONE)
  | a :: l => contents (fst (pop s)) = l /\ snd (pop s) = a
  end.
Proof.
  intros Hok. pose proof (contents_length s Hok) as Hc. destruct Hok as [Hl Hs].
  unfold pop, getNumOnStack in *. case_cmp; cbn [fst snd].
  - split; [done|]. destruct (contents s); [done|]. cbn in Hc. lia.
  - destruct (lookup_lt_is_Some_2 (as_stack s) (Z.to_nat (as_sp s))) as [x Hx]; [lia|].
    split; [split; cbn; lia|]. unfold contents. rewrite (drop_S _ x _ Hx), Hx. cbn.
    split; [|done]. f_equal. lia.
Qed.

(** The stack as a list of at most [n] addresses: what calls of [push], [pop] and
    [reset] do to it and return. *)
Inductive StackCall := Push (addr : Z) | Pop | Reset_.

Definition stackCall (c : StackCall) (s : AddrStack) : AddrStack * Z :=
  match c with Push a => push a s | Pop => pop s | Reset_ => (resetStack s, 0) end.
Definition listCall (n : Z) (c : StackCall) (l : list Z) : list Z * Z :=
  match c, l with
  | Push a, _ => if n <=? Z.of_nat (length l) then (l, 1) else (a :: l, 0)
  | Pop, [] => ([], ADDRESS_NONE)
  | Pop, a :: l => (l, a)
  | Reset_, _ => ([], 0)
  end.
Definition callsOf {S} (call : StackCall -> S -> S * Z) (cs : list StackCall) (s : S) : S * list Z :=
  foldl (fun '(s, out) c => let '(s, x) := call c s in (s, out ++ [x])) (s, []) cs.

Lemma push_size s a : as_size (push a s).1 = as_size s.
Proof. unfold push. by case_match. Qed.
Lemma pop_size s : as_size (pop s).1 = as_size s.
Proof. unfold pop. by case_match. Qed.

Lemma stackCall_spec c s : stack_ok s ->
  stack_ok (stackCall c s).1 /\ as_size (stackCall c s).1 = as_size s /\
  listCall (as_size s) c (contents s) = (contents (stackCall c s).1, (stackCall c s).2).
Proof.
  intros Hok. destruct c as [a| |]; cbn [stackCall listCall].
  - destruct (push_spec s a Hok) as [H1 H2]. split; [done|]. split; [apply push_size|].
    rewrite contents_length by done. destruct (as_size s <=? getNumOnStack s); [by rewrite H2|].
    destruct H2 as [-> ->]. done.
  - destruct (pop_spec s Hok) as [H1 H2]. split; [done|]. split; [apply pop_size|].
    destruct (contents s) as [|x l] eqn:E; [rewrite H2; cbn; by rewrite E|]. by destruct H2 as [-> ->].
  - destruct Hok as [Hl Hs]. unfold resetStack, contents. cbn. split; [split; cbn; lia|]. split; [done|].
    by rewrite drop_ge by lia.
Qed.

Lemma stack_calls cs s : stack_ok s ->
  callsOf (listCall (as_size s)) cs (contents s) =
    (contents (callsOf stackCall cs s).1, (callsOf stackCall cs s).2).
Proof.
  intros Hok. unfold callsOf.
  enough (forall out, foldl (fun '(s', out) c => let '(s', x) := listCall (as_size s) c s' in (s', out ++ [x])) (contents s, out) cs =
    (fun r => (contents r.1, r.2)) (foldl (fun '(s, out) c => let '(s, x) := stackCall c s in (s, out ++ [x])) (s, out) cs)) by done.
  revert s Hok. induction cs as [|c cs IH]; intros s Hok out; cbn [foldl]; [done|].
  destruct (stackCall_spec c s Hok) as (H1 & H2 & H3). rewrite H3.
  destruct (stackCall c s) as [s' x]. cbn [fst snd] in *. rewrite <-H2. by apply IH.
Qed.

(** ** Branch histories *)

Lemma msbFrom_log2 n h : 0 < h < 2 ^ Z.of_nat n -> msbFrom n h = Z.log2 h.
Proof.
  revert h. induction n as [|n IH]; intros h Hh; [cbn in Hh; lia|]. cbn [msbFrom].
  destruct (decide (h < 2 ^ Z.of_nat n)) as [Hlt|Hge].
  - rewrite (testbit_high h (Z.of_nat n)) by lia. apply IH. lia.
  - replace (Z.of_nat (S n)) with (Z.succ (Z.of_nat n)) in Hh by lia.
    assert (Z.log2 h = Z.of_nat n) as <- by (apply Z.log2_unique; lia).
    by rewrite Z.bit_log2 by lia.
Qed.

Lemma histMask_small b : 0 <= b < 31 -> histMask b = Some (2 ^ b).
Proof.
  intros. unfold histMask. case_cmp. f_equal.
  rewrite Z.shiftl_1_l. pose proof (Z.pow_lt_mono_r 2 b 31 ltac:(lia) ltac:(lia) ltac:(lia)).
  pose proof (pow2_pos b ltac:(lia)). rewrite i32_small, u64_small by lia. done.
Qed.

Lemma land_pow2 h b : 0 <= b -> negb (Z.land h (2 ^ b) =? 0) = Z.testbit h b.
Proof.
  intros. destruct (Z.testbit h b) eqn:E.
  - destruct (Z.eqb_spec (Z.land h (2 ^ b)) 0) as [H0|]; [|done].
    assert (Z.testbit (Z.land h (2 ^ b)) b = true) as Hb
      by (by rewrite Z.land_spec, E, Z.pow2_bits_true by lia).
    by rewrite H0, Z.bits_0 in Hb.
  - assert (Z.land h (2 ^ b) = 0) as ->; [|done].
    apply Z.bits_inj'. intros i Hi. rewrite Z.land_spec, Z.bits_0, Z.pow2_bits_eqb by lia.
    destruct (Z.eqb_spec b i) as [->|]; [by rewrite E|apply andb_false_r].
Qed.

(** Consuming until there is no history. *)
Fixpoint consumeAll (fuel : nat) : C (list bool) :=
  match fuel with
  | O => fun _ => NoFuel
  | S fuel =>
      o ← consumeHistory;
      match o with
      | None => mret []
      | Some taken => l ← consumeAll fuel; mret (taken :: l)
      end
  end.

Lemma consumeAll_outcomes n : forall c,
  cc_histBit c = Z.of_nat n - 1 -> (n <= 31)%nat ->
  consumeAll (S n) c = Ok (set_hist (cc_history c) (-1) c) (outcomes n (cc_history c)).
Proof.
  induction n as [|n IH]; intros c Hb Hn; cbn [consumeAll].
  - erewrite bind_ok; [|unfold consumeHistory; erewrite bind_ok by done; by rewrite Hb].
    cbn. destruct c; cbn in *. by subst.
  - erewrite bind_ok.
    2:{ unfold consumeHistory. erewrite bind_ok by done. case_cmp.
        unfold isTaken. rewrite histMask_small by lia. cbn [mbind option_bind].
        rewrite land_pow2 by lia. erewrite bind_ok by done. erewrite bind_ok by done. done. }
    cbn beta iota. set (c1 := set_hist _ _ c).
    erewrite bind_ok by (apply (IH c1); cbn; lia). cbn.
    unfold mret, M_ret. by replace (cc_histBit c) with (Z.of_nat n) by lia.
Qed.

(** ** The counts as a state machine *)

(** One call of a method, from the counts of a core to the counts it leaves,
    whether it succeeds or reports an error. *)
Inductive count_op :=
| OpReset
| OpMessage (nm : NexusMessage)
| OpSetHistory (h : Z)
| OpSetTaken (n : Z)
| OpSetNotTaken (n : Z)
| OpConsumeICnt (n : Z)
| OpConsumeHistory
| OpConsumeTaken
| OpConsumeNotTaken.

(** A history is a [uint64_t]. *)
Definition op_ok (o : count_op) : Prop :=
  match o with
  | OpMessage nm =>
      forall i h t n, messageCounts nm = Some (inr (Some (i, h, t, n))) -> 0 <= h < 2 ^ 64
  | OpSetHistory h => 0 <= h < 2 ^ 64
  | _ => True
  end.

Definition run_op (o : count_op) : C unit :=
  match o with
  | OpReset => modify resetCounts
  | OpMessage nm => setCounts nm
  | OpSetHistory h => setHistory h
  | OpSetTaken n => setTakenCount n
  | OpSetNotTaken n => setNotTakenCount n
  | OpConsumeICnt n => consumeICnt n ≫= fun _ => mret tt
  | OpConsumeHistory => consumeHistory ≫= fun _ => mret tt
  | OpConsumeTaken => consumeTakenCount ≫= fun _ => mret tt
  | OpConsumeNotTaken => consumeNotTakenCount ≫= fun _ => mret tt
  end.

Definition count_step (c c' : CoreCounts) : Prop :=
  exists o, op_ok o /\ (run_op o c = Ok c' tt \/ exists e, run_op o c = Err c' e).

(** At most one of the three kinds of branch outcome is in use, and the cursor
    of the history is below its stop bit. *)
Record counts_inv (c : CoreCounts) : Prop := {
  ci_bit : -1 <= cc_histBit c <= 62;
  ci_hist : 0 <= cc_histBit c ->
            cc_takenCount c = 0 /\ cc_notTakenCount c = 0 /\
            2 ^ (cc_histBit c + 1) <= cc_history c < 2 ^ 64;
  ci_excl : cc_takenCount c = 0 \/ cc_notTakenCount c = 0;
}.

(** [m] keeps the invariant on every exit. *)
Definition keeps_inv {A} (m : C A) : Prop :=
  forall c, counts_inv c ->
    match m c with Ok c' _ | Err c' _ => counts_inv c' | Undef | NoFuel => True end.

Lemma keeps_inv_bind {A B} (m : C A) (k : A -> C B) :
  keeps_inv m -> (forall a, keeps_inv (k a)) -> keeps_inv (m ≫= k).
Proof.
  intros Hm Hk c Hc. specialize (Hm c Hc). unfold mbind, M_bind.
  destruct (m c); try done. by apply Hk.
Qed.

Lemma keeps_inv_ret {A} (a : A) : keeps_inv (mret a).
Proof. by intros c Hc. Qed.

Lemma keeps_when b m : keeps_inv m -> keeps_inv (when b m).
Proof. by destruct b; [|intros _; apply keeps_inv_ret]. Qed.

Lemma keeps_setICnt n : keeps_inv (setICnt n).
Proof.
  intros c [H1 H2 H3]. unfold setICnt. erewrite bind_ok by done.
  destruct (int_of _); [|done]. by split.
Qed.

Lemma keeps_consumeICnt n : keeps_inv (consumeICnt n).
Proof.
  intros c [H1 H2 H3]. unfold consumeICnt. erewrite bind_ok by done.
  destruct (int_of _); [|done]. by split.
Qed.

Lemma countsBusy_false c :
  countsBusy c = false -> cc_histBit c < 0 /\ cc_takenCount c = 0 /\ cc_notTakenCount c = 0.
Proof.
  unfold countsBusy. rewrite !orb_false_iff, !negb_false_iff, Z.leb_gt, !Z.eqb_eq. tauto.
Qed.

Lemma msbFrom_64 h : 0 < h < 2 ^ 64 -> msbFrom 64 h = Z.log2 h.
Proof. apply (msbFrom_log2 64). Qed.

Lemma keeps_setHistory h : 0 <= h < 2 ^ 64 -> keeps_inv (setHistory h).
Proof.
  intros Hh c Hc. unfold setHistory. erewrite bind_ok by done.
  destruct (countsBusy c) eqn:Hb; [done|]. apply countsBusy_false in Hb as (Hb & Ht & Hn).
  destruct (Z.eqb_spec h 0); unfold modify.
  - split; cbn; [lia|lia|by left].
  - rewrite msbFrom_64 by lia. pose proof (Z.log2_nonneg h).
    pose proof (Z.log2_lt_pow2 h 64). pose proof (Z.log2_spec h).
    destruct (Z.leb_spec 0 (Z.log2 h)); [|lia].
    split; cbn; [lia| |by left]. intros. repeat split; try done; [|lia].
    replace (Z.log2 h - 1 + 1) with (Z.log2 h) by lia. lia.
Qed.

Lemma keeps_setTaken t n : keeps_inv (setTakenCount t) /\ keeps_inv (setNotTakenCount n).
Proof.
  split; intros c Hc; unfold setTakenCount, setNotTakenCount; erewrite bind_ok by done;
    (destruct (countsBusy c) eqn:Hb; [done|]); apply countsBusy_false in Hb as (Hb & Ht & Hn);
    destruct Hc as [H1 H2 H3]; split; cbn; try lia; rewrite ?Ht, ?Hn; auto.
Qed.

Lemma keeps_consumeHistory : keeps_inv consumeHistory.
Proof.
  intros c Hc. unfold consumeHistory. erewrite bind_ok by done.
  destruct (Z.ltb_spec (cc_histBit c) 0); [done|].
  unfold lift_opt, mbind, M_bind. destruct (isTaken c); [|done]. cbn.
  destruct Hc as [H1 H2 H3]. split; cbn; [lia| |done].
  intros. destruct (H2 ltac:(lia)) as (? & ? & Hh). repeat split; try done; [|lia].
  pose proof (Z.pow_le_mono_r 2 (cc_histBit c - 1 + 1) (cc_histBit c + 1) ltac:(lia) ltac:(lia)). lia.
Qed.

Lemma keeps_consumeTaken : keeps_inv consumeTakenCount /\ keeps_inv consumeNotTakenCount.
Proof.
  split; intros c Hc; unfold consumeTakenCount, consumeNotTakenCount; erewrite bind_ok by done;
    case_cmp; try done; destruct Hc as [H1 H2 H3]; split; cbn; try lia.
Qed.

Lemma keeps_setCounts nm :
  (forall i h t n, messageCounts nm = Some (inr (Some (i, h, t, n))) -> 0 <= h < 2 ^ 64) ->
  keeps_inv (setCounts nm).
Proof.
  intros Hh c Hc. unfold setCounts.
  destruct (messageCounts nm) as [[e|[[[[i h] t] n]|]]|] eqn:E; try done.
  erewrite bind_ok by done. cbn beta iota. specialize (Hh i h t n eq_refl).
  apply keeps_inv_bind; [apply keeps_when, keeps_setICnt|intros _|done].
  apply keeps_inv_bind; [by apply keeps_when, keeps_setHistory|intros _].
  apply keeps_inv_bind; [apply keeps_when, (keeps_setTaken t n)|intros _].
  apply keeps_when, (keeps_setTaken t n).
Qed.

Lemma count_step_inv c c' : count_step c c' -> counts_inv c -> counts_inv c'.
Proof.
  intros (o & Ho & Hr) Hc.
  assert (keeps_inv (run_op o)) as Hk.
  { destruct o; cbn in *; try (apply keeps_inv_bind; [|intros; apply keeps_inv_ret]).
    - intros c0 [H1 H2 H3]. cbn. split; cbn; [lia|lia|by left].
    - by apply keeps_setCounts.
    - by apply keeps_setHistory.
    - by apply (keeps_setTaken n 0).
    - by apply (keeps_setTaken 0 n).
    - apply keeps_consumeICnt.
    - apply keeps_consumeHistory.
    - apply keeps_consumeTaken.
    - apply keeps_consumeTaken. }
  specialize (Hk c Hc). by destruct Hr as [E|[e E]]; rewrite E in Hk.
Qed.

Lemma newCoreCounts_inv : counts_inv newCoreCounts.
Proof. split; cbn; [lia|lia|by left]. Qed.

(** ** Agreement with the accessors of the message *)

Lemma messageCounts_accessors nm i h t n :
  body_matches (nm_tcode nm) (nm_body nm) = true ->
  messageCounts nm = Some (inr (Some (i, h, t, n))) ->
  getI_Cnt nm = Some i /\ (history_unset nm = false -> getHistory nm = Some h).
Proof.
  destruct nm as [mn tc ht ts ca ti co prv pid b off raw]. cbn [nm_tcode nm_body].
  destruct tc, b; try done; intros Hm;
    try (cbn; intros; simplify_eq; done).
  - apply resourceFull_matches in Hm as [[-> [? ->]]|[[-> [? ->]]|[[-> [? ->]]|[-> [? ->]]]]];
      cbn; intros; by simplify_eq.
  - destruct history as [h'|], cdf as [|[| |]|]; try done; cbn; intros; by simplify_eq.
Qed.

(** ** Reading a whole history *)

(** A history word of at most 31 branches, set and consumed. *)
Lemma setHistory_consumeAll h c :
  countsBusy c = false -> 0 < h < 2 ^ 32 ->
  (setHistory h ≫= fun _ => consumeAll 33) c =
    Ok (set_hist h (-1) c) (outcomes (Z.to_nat (Z.log2 h)) h).
Proof.
  intros Hb Hh. pose proof (Z.log2_nonneg h).
  assert (Z.log2 h < 32) by (apply Z.log2_lt_pow2; lia).
  erewrite bind_ok.
  2:{ unfold setHistory. erewrite bind_ok by done. rewrite Hb.
      destruct (Z.eqb_spec h 0); [lia|]. rewrite msbFrom_64 by lia.
      destruct (Z.leb_spec 0 (Z.log2 h)); [|lia]. done. }
  set (c1 := set_hist _ _ c).
  pose proof (consumeAll_outcomes (Z.to_nat (Z.log2 h)) c1 ltac:(cbn; lia) ltac:(lia)) as E.
  assert (forall n k c c' l, consumeAll n c = Ok c' l -> consumeAll (k + n) c = Ok c' l) as Hmore.
  { clear. induction n as [|n IH]; intros k c c' l; [done|]. rewrite Nat.add_succ_r. cbn [consumeAll].
    unfold mbind, M_bind. destruct (consumeHistory c) as [c1 [taken|]| | |]; try done.
    destruct (consumeAll n c1) as [c2 l2| | |] eqn:E; try done.
    by rewrite (IH k _ _ _ E). }
  replace 33%nat with (32 - Z.to_nat (Z.log2 h) + S (Z.to_nat (Z.log2 h)))%nat by lia.
  rewrite (Hmore _ _ _ _ _ E). done.
Qed.

(** A cursor at bit 31 or above: the shift of an [int] reads the stop bit, which
    is above it, so the branch counts as taken whatever its bit; from bit 32 on
    the shift is undefined. *)
Lemma isTaken_31 c :
  cc_histBit c = 31 -> 2 ^ 32 <= cc_history c < 2 ^ 64 -> isTaken c = Some true.
Proof.
  intros Hb Hh. unfold isTaken. rewrite Hb. unfold histMask. cbn [mbind option_bind].
  change (u64 (i32 (Z.shiftl 1 31))) with (Z.shiftl (Z.ones 33) 31).
  change ((0 <=? 31) && (31 <? 32)) with true. cbn beta iota. cbn [mbind option_bind].
  destruct (Z.eqb_spec (Z.land (cc_history c) (Z.shiftl (Z.ones 33) 31)) 0) as [E|]; [|done].
  exfalso. set (h := cc_history c) in *.
  assert (Z.shiftr (Z.land h (Z.shiftl (Z.ones 33) 31)) 31 = 0) as E2 by by rewrite E.
  rewrite Z.shiftr_land, Z.shiftr_shiftl_l, Z.sub_diag, Z.shiftl_0_r in E2 by lia.
  rewrite Z.land_ones, Z.shiftr_div_pow2 in E2 by lia.
  change (2 ^ 33) with 8589934592 in E2. change (2 ^ 31) with 2147483648 in E2.
  change (2 ^ 32) with 4294967296 in Hh. change (2 ^ 64) with 18446744073709551616 in Hh. dlia.
Qed.

Lemma isTaken_32 c : 32 <= cc_histBit c -> isTaken c = None.
Proof. intros. unfold isTaken, histMask. by case_cmp. Qed.

(** A message with a history, on a core where no branches are left. *)
Lemma setCounts_spec nm i h c :
  messageCounts nm = Some (inr (Some (i, h, 0, 0))) -> 0 < h < 2 ^ 64 ->
  countsBusy c = false -> - 2 ^ 31 <= cc_i_cnt c + i < 2 ^ 31 ->
  setCounts nm c = Ok (set_hist h (Z.log2 h - 1) (set_i_cnt (cc_i_cnt c + i) c)) tt.
Proof.
  intros Hm Hh Hb Hi. unfold setCounts. rewrite Hm. erewrite bind_ok by done. cbn beta iota.
  erewrite (bind_ok _ _ c (set_i_cnt (cc_i_cnt c + i) c)).
  2:{ destruct (Z.eqb_spec i 0) as [->|]; cbn [negb when].
      - unfold mret, M_ret. rewrite Z.add_0_r. by destruct c.
      - unfold setICnt. erewrite bind_ok by done. unfold int_of. by case_cmp. }
  erewrite (bind_ok _ _ _ (set_hist h (Z.log2 h - 1) (set_i_cnt (cc_i_cnt c + i) c))).
  2:{ destruct (Z.eqb_spec h 0); [lia|]. cbn [negb when]. unfold setHistory.
      erewrite bind_ok by done. change (countsBusy (set_i_cnt (cc_i_cnt c + i) c)) with (countsBusy c).
      rewrite Hb. destruct (Z.eqb_spec h 0); [lia|]. rewrite msbFrom_64 by lia.
      pose proof (Z.log2_nonneg h). destruct (Z.leb_spec 0 (Z.log2 h)); [|lia]. done. }
  done.
Qed.
