(* ===== verification/Decode.v ===== *)
(** * Decode: the instruction decoder for control flow
    (src/dqr.cpp, [Disassembler::decodeInstructionSize], [decodeInstruction] and
    the decoders of the RV32 and RV64 quadrants).

    The decoders write their results through reference arguments, and some paths
    leave some of them as the caller had them; [Inst] is the record of the
    arguments, passed in and out.  An instruction is a [uint32_t]; immediates are
    built bit by bit ([MOVE_BIT]) and sign extended by or-ing the high bits. *)

From S2P Require Import Prelude Nexus.

Inductive InstType :=
| INST_UNKNOWN | INST_JAL | INST_JALR | INST_BEQ | INST_BNE | INST_BLT | INST_BGE
| INST_BLTU | INST_BGEU | INST_C_J | INST_C_JAL | INST_C_JR | INST_C_JALR
| INST_C_BEQZ | INST_C_BNEZ | INST_EBREAK | INST_C_EBREAK | INST_ECALL | INST_MRET
| INST_SRET | INST_URET | INST_SCALER | INST_VECT_ARITH | INST_VECT_LOAD
| INST_VECT_STORE | INST_VECT_AMO | INST_VECT_AMO_WW | INST_VECT_CONFIG.
#[export] Instance InstType_eq_dec : EqDecision InstType.
Proof. solve_decision. Defined.

(** A register is its number; [REG_unknown] is one more than the last. *)
Definition REG_0 : Z := 0.
Definition REG_1 : Z := 1.
Definition REG_5 : Z := 5.
Definition REG_unknown : Z := 32.

Record Inst := {
  in_size : Z;
  in_type : InstType;
  in_rs1 : Z;
  in_rd : Z;
  in_imm : Z;
  in_branch : bool;
}.

Definition mkInst := Build_Inst.

(** [None]: the error return. *)
Definition decodeInstructionSize (inst : Z) : option Z :=
  if Z.land inst 3 =? 3
  then if Z.land inst 31 =? 31 then None else Some 32
  else Some 16.

(** ** Immediates *)

Definition MOVE_BIT (bits s d : Z) : Z := if Z.testbit bits s then Z.shiftl 1 d else 0.

(** A sequence [t = MOVE_BIT(...); t |= MOVE_BIT(...); ...] *)
Definition moveBits (bits : Z) (l : list (Z * Z)) : Z :=
  foldl (fun t sd => Z.lor t (MOVE_BIT bits (fst sd) (snd sd))) 0 l.

(** [if (t & (1<<n)) t |= mask; immediate = t;] *)
Definition signExtend (t n mask : Z) : Z :=
  i32 (if Z.testbit t n then Z.lor t mask else t).

Definition CJ_bits : list (Z * Z) :=
  [(3, 1); (4, 2); (5, 3); (11, 4); (2, 5); (7, 6); (6, 7); (9, 8); (10, 9); (8, 10); (12, 11)].
Definition immCJ (i : Z) : Z := signExtend (moveBits i CJ_bits) 11 0xfffff000.

Definition CB_bits : list (Z * Z) :=
  [(3, 1); (4, 2); (10, 3); (11, 4); (2, 5); (5, 6); (6, 7); (12, 8)].
Definition immCB (i : Z) : Z := signExtend (moveBits i CB_bits) 8 0xfffffe00.

Definition J_bits : list (Z * Z) :=
  [(21, 1); (22, 2); (23, 3); (24, 4); (25, 5); (26, 6); (27, 7); (28, 8); (29, 9); (30, 10);
   (20, 11); (12, 12); (13, 13); (14, 14); (15, 15); (16, 16); (17, 17); (18, 18); (19, 19);
   (31, 20)].
Definition immJ (i : Z) : Z := signExtend (moveBits i J_bits) 20 0xffe00000.

Definition B_bits : list (Z * Z) :=
  [(8, 1); (9, 2); (10, 3); (11, 4); (25, 5); (26, 6); (27, 7); (28, 8); (29, 9); (30, 10);
   (7, 11); (31, 12)].
Definition immB (i : Z) : Z := signExtend (moveBits i B_bits) 12 0xffffe000.

Definition immI (i : Z) : Z := signExtend (Z.shiftr i 20) 11 0xfffff000.

(** A register field of five bits. *)
Definition regAt (i lo : Z) : Z := Z.land (Z.shiftr i lo) 31.

(** ** RV32, compressed *)

Definition unknownInst (size : Z) : Inst :=
  mkInst size INST_UNKNOWN REG_unknown REG_unknown 0 false.

(** Each decoder returns the C++ result code and the arguments. *)
Definition decodeRV32Q0Instruction (i : Z) (d : Inst) : Z * Inst :=
  if negb (Z.land i 3 =? 0)
  then (1, mkInst 16 (in_type d) (in_rs1 d) (in_rd d) 0 false)
  else (0, mkInst 16 INST_UNKNOWN REG_unknown REG_unknown 0 false).

Definition decodeRV32Q1Instruction (i : Z) (d : Inst) : Z * Inst :=
  let op := Z.shiftr i 13 in
  if op =? 1 then (0, mkInst 16 INST_C_JAL REG_unknown REG_1 (immCJ i) true)
  else if op =? 5 then (0, mkInst 16 INST_C_J REG_unknown REG_0 (immCJ i) true)
  else if op =? 6 then
    (0, mkInst 16 INST_C_BEQZ (Z.land (Z.shiftr i 7) 3) REG_unknown (immCB i) true)
  else if op =? 7 then
    (0, mkInst 16 INST_C_BNEZ (Z.land (Z.shiftr i 7) 3) REG_unknown (immCB i) true)
  else (0, unknownInst 16).

Definition decodeRV32Q2Instruction (i : Z) (d : Inst) : Z * Inst :=
  let other := mkInst 16 INST_UNKNOWN REG_unknown REG_unknown (in_imm d) false in
  if Z.shiftr i 13 =? 4 then
    if Z.testbit i 12 then
      if Z.land i 0x7c =? 0 then
        if negb (Z.land i 0xf80 =? 0)
        then (0, mkInst 16 INST_C_JALR (regAt i 7) REG_1 0 true)
        else (0, mkInst 16 INST_C_EBREAK REG_unknown REG_unknown 0 true)
      else (0, other)
    else if (Z.land i 0x7c =? 0) && negb (Z.land i 0xf80 =? 0)
    then (0, mkInst 16 INST_C_JR (regAt i 7) REG_0 0 true)
    else (0, other)
  else (0, other).

(** ** RV32, 32 bits *)

Definition branchType (funct3 : Z) : option InstType :=
  if funct3 =? 0 then Some INST_BEQ
  else if funct3 =? 1 then Some INST_BNE
  else if funct3 =? 4 then Some INST_BLT
  else if funct3 =? 5 then Some INST_BGE
  else if funct3 =? 6 then Some INST_BLTU
  else if funct3 =? 7 then Some INST_BGEU
  else None.

(** The [SYSTEM] instructions; [rs1] and [rd] are left alone by the first five. *)
Definition decodeSystem (i : Z) (d : Inst) : Inst :=
  let sys t := mkInst 32 t (in_rs1 d) (in_rd d) 0 true in
  if i =? 0x00200073 then sys INST_URET
  else if i =? 0x10200073 then sys INST_SRET
  else if i =? 0x30200073 then sys INST_MRET
  else if i =? 0x00000073 then sys INST_ECALL
  else if i =? 0x00100073 then sys INST_EBREAK
  else unknownInst 32.

(** The vector encodings of a width field. *)
Definition vectorWidth (w : Z) : bool := (w =? 0) || (w =? 5) || (w =? 6) || (w =? 7).

Definition plainInst (t : InstType) : Inst := mkInst 32 t REG_unknown REG_unknown 0 false.

Definition decodeRV32Instruction (i : Z) (d : Inst) : Z * Inst :=
  if Z.land i 31 =? 31 then (1, d)
  else
    let op := Z.land i 0x7f in
    let funct3 := Z.land (Z.shiftr i 12) 7 in
    if op =? 0x6f then (0, mkInst 32 INST_JAL REG_unknown (regAt i 7) (immJ i) true)
    else if op =? 0x67 then
      if Z.land i 0x7000 =? 0
      then (0, mkInst 32 INST_JALR (regAt i 15) (regAt i 7) (immI i) true)
      else (0, unknownInst 32)
    else if op =? 0x63 then
      match branchType funct3 with
      | None => (0, unknownInst 32)
      | Some t => (0, mkInst 32 t (regAt i 15) REG_unknown (immB i) true)
      end
    else if op =? 0x73 then (0, decodeSystem i d)
    else if op =? 0x07 then
      (0, plainInst (if vectorWidth funct3 then INST_VECT_LOAD else INST_UNKNOWN))
    else if op =? 0x27 then
      (0, plainInst (if vectorWidth funct3 then INST_VECT_STORE else INST_UNKNOWN))
    else if op =? 0x2f then
      (0, plainInst (if vectorWidth funct3
                     then if Z.testbit (Z.shiftr i 26) 0 then INST_VECT_AMO_WW else INST_VECT_AMO
                     else INST_UNKNOWN))
    else if op =? 0x57 then
      (0, plainInst (if funct3 <=? 6 then INST_VECT_ARITH else INST_VECT_CONFIG))
    else (0, unknownInst 32).

(** ** RV64 *)

Definition decodeRV64Q0Instruction (i : Z) (d : Inst) : Z * Inst :=
  if negb (Z.land i 3 =? 0)
  then (1, mkInst 16 (in_type d) (in_rs1 d) (in_rd d) 0 false)
  else (0, mkInst 16 INST_UNKNOWN REG_unknown REG_unknown 0 false).

(** No [C.JAL]: its encoding is another instruction. *)
Definition decodeRV64Q1Instruction (i : Z) (d : Inst) : Z * Inst :=
  let op := Z.shiftr i 13 in
  if op =? 5 then (0, mkInst 16 INST_C_J REG_unknown REG_0 (immCJ i) true)
  else if op =? 6 then
    (0, mkInst 16 INST_C_BEQZ (Z.land (Z.shiftr i 7) 3) REG_unknown (immCB i) true)
  else if op =? 7 then
    (0, mkInst 16 INST_C_BNEZ (Z.land (Z.shiftr i 7) 3) REG_unknown (immCB i) true)
  else (0, unknownInst 16).

(** [C.EBREAK] is reported as [INST_EBREAK]. *)
Definition decodeRV64Q2Instruction (i : Z) (d : Inst) : Z * Inst :=
  let other := mkInst 16 INST_UNKNOWN REG_unknown REG_unknown (in_imm d) false in
  if Z.shiftr i 13 =? 4 then
    if Z.testbit i 12 then
      if Z.land i 0x7c =? 0 then
        if negb (Z.land i 0xf80 =? 0)
        then (0, mkInst 16 INST_C_JALR (regAt i 7) REG_1 0 true)
        else (0, mkInst 16 INST_EBREAK REG_unknown REG_unknown 0 true)
      else (0, other)
    else if (Z.land i 0x7c =? 0) && negb (Z.land i 0xf80 =? 0)
    then (0, mkInst 16 INST_C_JR (regAt i 7) REG_0 0 true)
    else (0, other)
  else (0, other).

Definition decodeRV64Instruction (i : Z) (d : Inst) : Z * Inst :=
  if Z.land i 31 =? 31 then (1, d)
  else
    let op := Z.land i 0x7f in
    let funct3 := Z.land (Z.shiftr i 12) 7 in
    if op =? 0x6f then (0, mkInst 32 INST_JAL REG_unknown (regAt i 7) (immJ i) true)
    else if op =? 0x67 then
      if Z.land i 0x7000 =? 0
      then (0, mkInst 32 INST_JALR (regAt i 15) (regAt i 7) (immI i) true)
      else (0, unknownInst 32)
    else if op =? 0x63 then
      match branchType funct3 with
      | None => (0, unknownInst 32)
      | Some t => (0, mkInst 32 t (regAt i 15) REG_unknown (immB i) true)
      end
    else if op =? 0x73 then (0, decodeSystem i d)
    else if op =? 0x07 then
      (0, plainInst (if vectorWidth funct3 then INST_VECT_LOAD else INST_UNKNOWN))
    else if op =? 0x27 then
      (0, plainInst (if vectorWidth funct3 then INST_VECT_STORE else INST_UNKNOWN))
    else if op =? 0x2f then
      (0, plainInst (if vectorWidth funct3
                     then if Z.testbit (Z.shiftr i 26) 0 then INST_VECT_AMO_WW else INST_VECT_AMO
                     else INST_UNKNOWN))
    else if op =? 0x57 then
      (0, plainInst (if funct3 <=? 6 then INST_VECT_ARITH else INST_VECT_CONFIG))
    else (0, unknownInst 32).

Definition decodeInstruction (i archSize : Z) (d : Inst) : Z * Inst :=
  let q := Z.land i 3 in
  if archSize =? 32 then
    if q =? 0 then decodeRV32Q0Instruction i d
    else if q =? 1 then decodeRV32Q1Instruction i d
    else if q =? 2 then decodeRV32Q2Instruction i d
    else decodeRV32Instruction i d
  else if archSize =? 64 then
    if q =? 0 then decodeRV64Q0Instruction i d
    else if q =? 1 then decodeRV64Q1Instruction i d
    else if q =? 2 then decodeRV64Q2Instruction i d
    else decodeRV64Instruction i d
  else (1, d).

(** ** A reference assembler

    From the instruction formats of the RISC-V manual: fields [(value, lo, width,
    position)], the bits of [value] from [lo] up placed at [position]. *)

Definition asmField (f : Z * Z * Z * Z) : Z :=
  let '(v, lo, w, pos) := f in Z.shiftl (slice v lo w) pos.
Definition asm (fs : list (Z * Z * Z * Z)) : Z := foldr (fun f x => Z.lor (asmField f) x) 0 fs.

Definition asmJAL (rd off : Z) : Z :=
  asm [(0x6f, 0, 7, 0); (rd, 0, 5, 7); (off, 12, 8, 12); (off, 11, 1, 20); (off, 1, 10, 21);
       (off, 20, 1, 31)].
Definition asmJALR (rd rs1 off : Z) : Z :=
  asm [(0x67, 0, 7, 0); (rd, 0, 5, 7); (0, 0, 3, 12); (rs1, 0, 5, 15); (off, 0, 12, 20)].
Definition asmBranch (funct3 rs1 rs2 off : Z) : Z :=
  asm [(0x63, 0, 7, 0); (off, 11, 1, 7); (off, 1, 4, 8); (funct3, 0, 3, 12); (rs1, 0, 5, 15);
       (rs2, 0, 5, 20); (off, 5, 6, 25); (off, 12, 1, 31)].
(** [C.J] ([funct3] 5) and, on RV32, [C.JAL] (1). *)
Definition asmCJ (funct3 off : Z) : Z :=
  asm [(1, 0, 2, 0); (off, 5, 1, 2); (off, 1, 3, 3); (off, 7, 1, 6); (off, 6, 1, 7);
       (off, 10, 1, 8); (off, 8, 2, 9); (off, 4, 1, 11); (off, 11, 1, 12); (funct3, 0, 3, 13)].
(** [C.BEQZ] (6) and [C.BNEZ] (7) on register [8 + rs1']. *)
Definition asmCB (funct3 rs1' off : Z) : Z :=
  asm [(1, 0, 2, 0); (off, 5, 1, 2); (off, 1, 2, 3); (off, 6, 2, 5); (rs1', 0, 3, 7);
       (off, 3, 2, 10); (off, 8, 1, 12); (funct3, 0, 3, 13)].
(** [C.JR] ([link] 0) and [C.JALR] (1). *)
Definition asmCR (link rs1 : Z) : Z :=
  asm [(2, 0, 2, 0); (0, 0, 5, 2); (rs1, 0, 5, 7); (link, 0, 1, 12); (4, 0, 3, 13)].

Lemma asm_testbit fs i :
  0 <= i -> Forall (fun f => let '(_, lo, w, pos) := f in 0 <= lo /\ 0 <= w /\ 0 <= pos) fs ->
  Z.testbit (asm fs) i =
    existsb (fun f => let '(v, lo, w, pos) := f in
                      (pos <=? i) && (i <? pos + w) && Z.testbit v (i - pos + lo)) fs.
Proof.
  intros Hi. induction 1 as [|[[[v lo] w] pos] fs (Hlo & Hw & Hpos) _ IH];
    cbn [asm foldr existsb]; [apply Z.bits_0|].
  fold (asm fs). rewrite Z.lor_spec, IH. f_equal. unfold asmField.
  rewrite Z.shiftl_spec by done. destruct (Z.leb_spec pos i); cbn [andb].
  - rewrite slice_testbit by lia. f_equal. case_cmp; done.
  - apply Z.testbit_neg_r. lia.
Qed.

(** Bit [i] of an assembled instruction, for a numeral [i]. *)
Ltac asm_bit :=
  match goal with
  | |- context [Z.testbit (asm ?fs) ?i] =>
      rewrite (asm_testbit fs i) by (first [lia|repeat constructor; lia]);
      cbn [existsb Z.leb Z.ltb Z.compare Z.add Z.sub Z.opp Pos.compare Pos.compare_cont Pos.add
           Z.pos_sub Pos.succ Pos.pred_double Z.double Z.succ_double Z.pred_double andb];
      rewrite ?orb_false_r, ?orb_false_l
  end.

(** ** Immediates are the offsets that were assembled *)

Lemma MOVE_BIT_testbit x s d i : 0 <= d -> 0 <= i ->
  Z.testbit (MOVE_BIT x s d) i = (d =? i) && Z.testbit x s.
Proof.
  intros. unfold MOVE_BIT. destruct (Z.testbit x s).
  - by rewrite Z.shiftl_1_l, Z.pow2_bits_eqb, andb_true_r.
  - by rewrite Z.bits_0, andb_false_r.
Qed.

Lemma moveBits_testbit x l i :
  0 <= i -> Forall (fun sd => 0 <= snd sd) l ->
  Z.testbit (moveBits x l) i =
    existsb (fun sd => (snd sd =? i) && Z.testbit x (fst sd)) l.
Proof.
  intros Hi Hl. unfold moveBits.
  enough (forall t, Z.testbit (foldl (fun t sd => Z.lor t (MOVE_BIT x (fst sd) (snd sd))) t l) i =
            Z.testbit t i || existsb (fun sd => (snd sd =? i) && Z.testbit x (fst sd)) l) as ->
    by (by rewrite Z.bits_0).
  induction Hl as [|[s d] l Hd _ IH]; intros t; cbn [foldl existsb]; [by rewrite orb_false_r|].
  rewrite IH, Z.lor_spec, MOVE_BIT_testbit by done. by rewrite orb_assoc.
Qed.

(** If each moved bit is the bit of [off] it is moved to, and the moved bits are
    all of [off]'s low [n] bits that may be set, the result is those bits. *)
Lemma moveBits_offset x l off n :
  0 <= n -> Forall (fun sd => 0 <= snd sd < n) l ->
  Forall (fun sd => Z.testbit x (fst sd) = Z.testbit off (snd sd)) l ->
  (forall i, 0 <= i < n -> Z.testbit off i = true -> i ∈ snd <$> l) ->
  moveBits x l = off mod 2 ^ n.
Proof.
  intros Hn Hr Hb Hc. apply Z.bits_inj'. intros i Hi.
  rewrite moveBits_testbit, Z.testbit_mod_pow2 by
    (done || (eapply Forall_impl; [|exact Hr]; cbn; intros; lia)).
  apply eq_true_iff_eq. rewrite existsb_exists, andb_true_iff, Z.ltb_lt.
  rewrite Forall_forall in Hr, Hb. split.
  - intros ([s d] & Hin & [Hd Hs]%andb_true_iff). cbn in *. apply Z.eqb_eq in Hd as ->.
    specialize (Hr _ Hin). specialize (Hb _ Hin). cbn in *.
    split; [lia|congruence].
  - intros [Hlt Ho]. specialize (Hc i ltac:(lia) Ho).
    apply list_elem_of_fmap in Hc as ([s d] & -> & Hin). exists (s, d).
    apply list_elem_of_In in Hin. split; [done|]. specialize (Hb _ Hin). cbn in *.
    rewrite Z.eqb_refl, Hb. done.
Qed.

(** Sign extension of an [n + 1]-bit offset. *)
Lemma signExtend_offset off n :
  0 <= n <= 30 -> - 2 ^ n <= off < 2 ^ n ->
  signExtend (off mod 2 ^ (n + 1)) n (2 ^ 32 - 2 ^ (n + 1)) = off.
Proof.
  intros Hn Ho. unfold signExtend.
  assert (Z.testbit (off mod 2 ^ (n + 1)) n = Z.testbit off n) as Htb.
  { rewrite Z.testbit_mod_pow2 by lia. destruct (Z.ltb_spec n (n + 1)); [done|lia]. }
  pose proof (lor_disjoint_add (off mod 2 ^ (n + 1)) (2 ^ (32 - (n + 1)) - 1) (n + 1)
                ltac:(lia) (Z.mod_pos_bound _ _ (pow2_pos (n + 1) ltac:(lia)))) as Hlor.
  assert (2 ^ 32 = 2 ^ (32 - (n + 1)) * 2 ^ (n + 1)) as H32
    by (rewrite <-Z.pow_add_r by lia; f_equal; lia).
  assert (2 ^ (n + 1) <= 2 ^ 31) by (apply Z.pow_le_mono_r; lia).
  assert (2 ^ (n + 1) = 2 * 2 ^ n) as HN by (rewrite Z.pow_add_r by lia; lia).
  pose proof (pow2_pos n ltac:(lia)) as Hpos.
  assert (off < 0 -> off mod 2 ^ (n + 1) = off + 2 ^ (n + 1)) as Hneg
    by (intros; symmetry; apply Z.mod_unique with (-1); lia).
  assert (Z.testbit off n = (off <? 0)) as Hb.
  { destruct (Z.ltb_spec off 0).
    - rewrite <-Htb, Hneg by done.
      assert (Z.log2 (off + 2 ^ (n + 1)) = n) as El by (apply Z.log2_unique; lia).
      rewrite <-El at 2. apply Z.bit_log2. lia.
    - apply (testbit_high off n n); lia. }
  rewrite Htb, Hb. destruct (Z.ltb_spec off 0).
  - replace (2 ^ 32 - 2 ^ (n + 1)) with ((2 ^ (32 - (n + 1)) - 1) * 2 ^ (n + 1)) by lia.
    rewrite Hlor, Hneg by done. unfold i32, swrap, wrap.
    rewrite Z.mod_small by lia. change (32 - 1) with 31.
    change (2 ^ 32) with 4294967296 in *. change (2 ^ 31) with 2147483648 in *.
    match goal with |- (if ?a <? ?b then _ else _) = _ => destruct (Z.ltb_spec a b); lia end.
  - rewrite Z.mod_small by lia. apply i32_small. lia.
Qed.

(** The moved bits are exactly the bits 1 to [n - 1]. *)
Definition covers (l : list (Z * Z)) (n : Z) : bool :=
  forallb (fun sd => (0 <=? snd sd) && (snd sd <? n)) l &&
  forallb (fun i => existsb (fun sd => snd sd =? i) l) (seqZ 1 (n - 1)).

Lemma moveBits_even x l off n :
  0 <= n -> covers l n = true -> off mod 2 = 0 ->
  Forall (fun sd => Z.testbit x (fst sd) = Z.testbit off (snd sd)) l ->
  moveBits x l = off mod 2 ^ n.
Proof.
  unfold covers. rewrite andb_true_iff, !forallb_forall. intros Hn [Hr Hc] He Hb.
  apply moveBits_offset; [done| |done|].
  - apply Forall_forall. intros sd Hin. specialize (Hr sd Hin).
    apply andb_true_iff in Hr as [?%Z.leb_le ?%Z.ltb_lt]. lia.
  - intros i Hi Ho. assert (i <> 0).
    { intros ->. rewrite Z.bit0_odd, Zodd_mod, He in Ho. done. }
    specialize (Hc i). rewrite existsb_exists in Hc.
    destruct Hc as (sd & Hin & E%Z.eqb_eq).
    { apply list_elem_of_In, elem_of_seqZ. lia. }
    apply list_elem_of_fmap. exists sd. by rewrite list_elem_of_In.
Qed.

(** The bits of a list of moves, each read off the assembled instruction. *)
Ltac offset_bits :=
  repeat (apply Forall_cons_2; [cbn [fst snd]; asm_bit; reflexivity|]); apply Forall_nil_2.

Lemma immJ_asm rd off :
  - 2 ^ 20 <= off < 2 ^ 20 -> off mod 2 = 0 -> immJ (asmJAL rd off) = off.
Proof.
  intros Ho He. unfold immJ. rewrite (moveBits_even _ _ off 21); [|done|done|done|].
  - by apply (signExtend_offset off 20).
  - unfold J_bits, asmJAL. offset_bits.
Qed.

Lemma immB_asm f rs1 rs2 off :
  - 2 ^ 12 <= off < 2 ^ 12 -> off mod 2 = 0 -> immB (asmBranch f rs1 rs2 off) = off.
Proof.
  intros Ho He. unfold immB. rewrite (moveBits_even _ _ off 13); [|done|done|done|].
  - by apply (signExtend_offset off 12).
  - unfold B_bits, asmBranch. offset_bits.
Qed.

Lemma immCJ_asm f off :
  - 2 ^ 11 <= off < 2 ^ 11 -> off mod 2 = 0 -> immCJ (asmCJ f off) = off.
Proof.
  intros Ho He. unfold immCJ. rewrite (moveBits_even _ _ off 12); [|done|done|done|].
  - by apply (signExtend_offset off 11).
  - unfold CJ_bits, asmCJ. offset_bits.
Qed.

Lemma immCB_asm f rs1 off :
  - 2 ^ 8 <= off < 2 ^ 8 -> off mod 2 = 0 -> immCB (asmCB f rs1 off) = off.
Proof.
  intros Ho He. unfold immCB. rewrite (moveBits_even _ _ off 9); [|done|done|done|].
  - by apply (signExtend_offset off 8).
  - unfold CB_bits, asmCB. offset_bits.
Qed.

(** ** Fields of an assembled instruction *)

Definition field_ok (f : Z * Z * Z * Z) : bool :=
  let '(_, lo, w, pos) := f in (0 <=? lo) && (0 <=? w) && (0 <=? pos).
(** Whether a field leaves the bits from [p] to [p + w - 1] alone. *)
Definition field_off (p w : Z) (f : Z * Z * Z * Z) : bool :=
  let '(_, _, w', pos) := f in (pos + w' <=? p) || (p + w <=? pos).
Definition field_below (n : Z) (f : Z * Z * Z * Z) : bool :=
  let '(_, _, w, pos) := f in pos + w <=? n.

Lemma field_ok_spec fs :
  forallb field_ok fs = true ->
  Forall (fun f => let '(_, lo, w, pos) := f in 0 <= lo /\ 0 <= w /\ 0 <= pos) fs.
Proof.
  rewrite forallb_forall, Forall_forall. intros H [[[v lo] w] pos] Hin.
  specialize (H _ Hin). unfold field_ok in H.
  apply andb_true_iff in H as [[H1 H2]%andb_true_iff H3].
  rewrite Z.leb_le in *. auto.
Qed.

Lemma asm_slice l1 l2 v lo w p :
  let fs := l1 ++ (v, lo, w, p) :: l2 in
  forallb field_ok fs = true -> forallb (field_off p w) (l1 ++ l2) = true ->
  slice (asm fs) p w = slice v lo w.
Proof.
  intros fs Hok Hoff.
  assert (0 <= lo /\ 0 <= w /\ 0 <= p) as (Hlo & Hw & Hp).
  { apply field_ok_spec in Hok. rewrite Forall_forall in Hok.
    apply (Hok (v, lo, w, p)). apply in_or_app. right. by left. }
  rewrite forallb_app, andb_true_iff, !forallb_forall in Hoff.
  apply Z.bits_inj'. intros i Hi. rewrite !slice_testbit by done.
  destruct (Z.ltb_spec i w) as [Hiw|]; [|done]. cbn [andb].
  rewrite asm_testbit by (lia || by apply field_ok_spec). subst fs. rewrite existsb_app.
  cbn [existsb].
  assert (forall l, (forall f, In f l -> field_off p w f = true) ->
    existsb (fun f => let '(v, lo, w, pos) := f in
      (pos <=? i + p) && (i + p <? pos + w) && Z.testbit v (i + p - pos + lo)) l = false) as Hnone.
  { intros l Hl. apply not_true_is_false. rewrite existsb_exists.
    intros ([[[v' lo'] w'] pos'] & Hin & Hb). specialize (Hl _ Hin). unfold field_off in Hl.
    apply andb_true_iff in Hb as [[Hb1 Hb2]%andb_true_iff _].
    apply orb_true_iff in Hl. rewrite Z.leb_le, Z.ltb_lt in *. rewrite Z.leb_le in Hl. lia. }
  rewrite !Hnone by apply Hoff. rewrite orb_false_l, orb_false_r.
  replace (i + p - p + lo) with (i + lo) by lia. case_cmp; done.
Qed.

Lemma asm_bound fs n :
  0 <= n -> forallb field_ok fs = true -> forallb (field_below n) fs = true ->
  0 <= asm fs < 2 ^ n.
Proof.
  intros Hn Hok Hb. apply field_ok_spec in Hok.
  assert (asm fs = asm fs mod 2 ^ n) as ->; [|apply Z.mod_pos_bound, pow2_pos; lia].
  apply Z.bits_inj'. intros i Hi. rewrite Z.testbit_mod_pow2 by lia.
  destruct (Z.ltb_spec i n); [done|]. cbn [andb]. rewrite asm_testbit by done.
  apply not_true_is_false. rewrite existsb_exists. rewrite forallb_forall in Hb.
  intros ([[[v lo] w] pos] & Hin & E). specialize (Hb _ Hin). cbn in Hb.
  apply andb_true_iff in E as [[_ E]%andb_true_iff _]. rewrite Z.leb_le, Z.ltb_lt in *. lia.
Qed.

(** The decoder's masks and shifts are slices. *)
Lemma land_slice x w : 0 <= w -> Z.land x (Z.ones w) = slice x 0 w.
Proof. intros. rewrite Z.land_ones by done. unfold slice. by rewrite Z.div_1_r. Qed.

Lemma land_field x k w : 0 <= k -> 0 <= w -> Z.land x (Z.shiftl (Z.ones w) k) = slice x k w * 2 ^ k.
Proof.
  intros. rewrite <-Z.shiftl_mul_pow2 by done. bitwise i.
  destruct (Z.ltb_spec i k).
  - rewrite (Z.testbit_neg_r (Z.ones w)), (Z.testbit_neg_r (slice x k w)) by lia. apply andb_false_r.
  - rewrite slice_testbit, Z.testbit_ones_nonneg by lia. replace (i - k + k) with i by lia.
    apply andb_comm.
Qed.

Lemma shiftr_slice x k n : 0 <= k <= n -> 0 <= x < 2 ^ n -> Z.shiftr x k = slice x k (n - k).
Proof.
  intros Hk Hx. rewrite Z.shiftr_div_pow2 by lia. unfold slice. symmetry. apply Z.mod_small.
  apply div_pow2_bound; [lia|lia|]. by replace (k + (n - k)) with n by lia.
Qed.

Lemma land_shiftr x k w : 0 <= k -> 0 <= w -> Z.land (Z.shiftr x k) (Z.ones w) = slice x k w.
Proof. intros. rewrite land_slice by done. unfold slice. by rewrite Z.shiftr_div_pow2, Z.div_1_r. Qed.

Lemma slice_testbit0 x k : 0 <= k -> Z.testbit x k = (slice x k 1 =? 1).
Proof.
  intros. assert (Z.testbit (slice x k 1) 0 = Z.testbit x k) as <-.
  { rewrite slice_testbit by lia. done. }
  pose proof (slice_bounds x k 1 ltac:(lia)). change (2 ^ 1) with 2 in *.
  assert (slice x k 1 = 0 \/ slice x k 1 = 1) as [-> | ->] by lia; done.
Qed.

Lemma slice_small v w : 0 <= v < 2 ^ w -> slice v 0 w = v.
Proof. intros. unfold slice. rewrite Z.div_1_r. by apply Z.mod_small. Qed.


(** *** Which decoder runs *)

Lemma quadrant i : Z.land i 3 = slice i 0 2.
Proof. by apply (land_slice i 2). Qed.
Lemma low5 i : Z.land i 31 = slice i 0 5.
Proof. by apply (land_slice i 5). Qed.
Lemma opcode i : Z.land i 0x7f = slice i 0 7.
Proof. by apply (land_slice i 7). Qed.
Lemma funct3_at i : Z.land (Z.shiftr i 12) 7 = slice i 12 3.
Proof. by apply (land_shiftr i 12 3). Qed.
Lemma regAt_slice i lo : 0 <= lo -> regAt i lo = slice i lo 5.
Proof. intros. by apply (land_shiftr i lo 5). Qed.

Lemma slice_prefix x a b : 0 <= a <= b -> slice x 0 a = slice x 0 b mod 2 ^ a.
Proof. intros. unfold slice. rewrite !Z.div_1_r. by rewrite mod_mod_pow2. Qed.

Lemma RV64_eq_RV32 i d : decodeRV64Instruction i d = decodeRV32Instruction i d.
Proof. reflexivity. Qed.

(** The decoder of a 32-bit instruction, by its opcode. *)
Lemma decodeInstruction_32 i a d op :
  a = 32 \/ a = 64 -> slice i 0 7 = op -> op mod 4 = 3 -> op mod 32 <> 31 ->
  decodeInstruction i a d = decodeRV32Instruction i d /\
  (Z.land i 31 =? 31) = false /\ (Z.land i 0x7f) = op.
Proof.
  intros Ha Hop H4 H32. pose proof (slice_prefix i 2 7 ltac:(lia)) as H2.
  pose proof (slice_prefix i 5 7 ltac:(lia)) as H5. rewrite Hop in H2, H5.
  change (2 ^ 2) with 4 in H2. change (2 ^ 5) with 32 in H5.
  split; [|split; [rewrite low5; apply Z.eqb_neq; congruence|by rewrite opcode]].
  unfold decodeInstruction. rewrite quadrant, H2, H4.
  destruct Ha as [-> | ->]; [done|apply RV64_eq_RV32].
Qed.

(** The decoder of a compressed instruction, by its quadrant. *)
Lemma decodeInstruction_16 i a d q :
  a = 32 \/ a = 64 -> slice i 0 2 = q ->
  (q = 1 -> decodeInstruction i a d =
    if a =? 32 then decodeRV32Q1Instruction i d else decodeRV64Q1Instruction i d) /\
  (q = 2 -> decodeInstruction i a d =
    if a =? 32 then decodeRV32Q2Instruction i d else decodeRV64Q2Instruction i d).
Proof.
  intros Ha Hq. unfold decodeInstruction. rewrite quadrant, Hq.
  split; intros ->; by destruct Ha as [-> | ->].
Qed.

(** *** The control-flow instructions *)

Section assembled.
Context (a : Z) (d : Inst) (Ha : a = 32 \/ a = 64).

Lemma decode_JAL rd off :
  0 <= rd < 32 -> - 2 ^ 20 <= off < 2 ^ 20 -> off mod 2 = 0 ->
  decodeInstruction (asmJAL rd off) a d = (0, mkInst 32 INST_JAL REG_unknown rd off true).
Proof using Ha.
  intros Hrd Ho He.
  assert (slice (asmJAL rd off) 0 7 = 0x6f) as Hop by (apply (asm_slice []); reflexivity).
  destruct (decodeInstruction_32 _ a d _ Ha Hop) as (-> & E1 & E2); [done..|].
  unfold decodeRV32Instruction. rewrite E1, E2. cbn [Z.eqb Pos.eqb].
  rewrite immJ_asm, regAt_slice by done.
  assert (slice (asmJAL rd off) 7 5 = slice rd 0 5) as ->
    by (apply (asm_slice [(0x6f, 0, 7, 0)]); reflexivity).
  by rewrite slice_small.
Qed.

Lemma decode_JALR rd rs1 off :
  0 <= rd < 32 -> 0 <= rs1 < 32 -> - 2 ^ 11 <= off < 2 ^ 11 ->
  decodeInstruction (asmJALR rd rs1 off) a d = (0, mkInst 32 INST_JALR rs1 rd off true).
Proof using Ha.
  intros Hrd Hrs Ho.
  assert (slice (asmJALR rd rs1 off) 0 7 = 0x67) as Hop by (apply (asm_slice []); reflexivity).
  destruct (decodeInstruction_32 _ a d _ Ha Hop) as (-> & E1 & E2); [done..|].
  unfold decodeRV32Instruction. rewrite E1, E2. cbn [Z.eqb Pos.eqb].
  change 0x7000 with (Z.shiftl (Z.ones 3) 12). rewrite land_field by done.
  assert (slice (asmJALR rd rs1 off) 12 3 = slice 0 0 3) as ->
    by (apply (asm_slice [(0x67, 0, 7, 0); (rd, 0, 5, 7)]); reflexivity).
  change (slice 0 0 3 * 2 ^ 12 =? 0) with true. cbv iota.
  rewrite !regAt_slice by done.
  assert (slice (asmJALR rd rs1 off) 15 5 = slice rs1 0 5) as ->
    by (apply (asm_slice [(0x67, 0, 7, 0); (rd, 0, 5, 7); (0, 0, 3, 12)]); reflexivity).
  assert (slice (asmJALR rd rs1 off) 7 5 = slice rd 0 5) as ->
    by (apply (asm_slice [(0x67, 0, 7, 0)]); reflexivity).
  rewrite !slice_small by done. unfold immI.
  rewrite (shiftr_slice _ 20 32) by (lia || (apply asm_bound; done)). change (32 - 20) with 12.
  assert (slice (asmJALR rd rs1 off) 20 12 = slice off 0 12) as ->
    by (apply (asm_slice [(0x67, 0, 7, 0); (rd, 0, 5, 7); (0, 0, 3, 12); (rs1, 0, 5, 15)]); reflexivity).
  unfold slice. rewrite Z.div_1_r.
  assert (signExtend (off mod 2 ^ 12) 11 0xfffff000 = off) as -> by by apply (signExtend_offset off 11).
  done.
Qed.

(** [funct3] is one of the six branches; the second source register is not
    reported. *)
Lemma decode_branch f t rs1 rs2 off :
  branchType f = Some t -> 0 <= f < 8 -> 0 <= rs1 < 32 ->
  - 2 ^ 12 <= off < 2 ^ 12 -> off mod 2 = 0 ->
  decodeInstruction (asmBranch f rs1 rs2 off) a d = (0, mkInst 32 t rs1 REG_unknown off true).
Proof using Ha.
  intros Hf Hf8 Hrs Ho He. set (i := asmBranch f rs1 rs2 off).
  assert (slice i 0 7 = 0x63) as Hop by (apply (asm_slice []); reflexivity).
  destruct (decodeInstruction_32 _ a d _ Ha Hop) as (-> & E1 & E2); [done..|].
  unfold decodeRV32Instruction. rewrite E1, E2. cbn [Z.eqb Pos.eqb].
  rewrite funct3_at, regAt_slice by done.
  assert (slice i 12 3 = slice f 0 3) as ->
    by (apply (asm_slice [(0x63, 0, 7, 0); (off, 11, 1, 7); (off, 1, 4, 8)]); reflexivity).
  assert (slice i 15 5 = slice rs1 0 5) as ->
    by (apply (asm_slice [(0x63, 0, 7, 0); (off, 11, 1, 7); (off, 1, 4, 8); (f, 0, 3, 12)]); reflexivity).
  rewrite !slice_small, Hf by done. subst i. by rewrite immB_asm.
Qed.

Lemma CJ_op f off : 0 <= f < 8 -> Z.shiftr (asmCJ f off) 13 = f.
Proof using Type.
  intros. rewrite (shiftr_slice _ 13 16) by (lia || (apply asm_bound; done)). change (16 - 13) with 3.
  assert (slice (asmCJ f off) 13 3 = slice f 0 3) as ->.
  { apply (asm_slice [(1, 0, 2, 0); (off, 5, 1, 2); (off, 1, 3, 3); (off, 7, 1, 6); (off, 6, 1, 7);
     (off, 10, 1, 8); (off, 8, 2, 9); (off, 4, 1, 11); (off, 11, 1, 12)]); reflexivity. }
  by apply slice_small.
Qed.

Lemma decode_CJ off :
  - 2 ^ 11 <= off < 2 ^ 11 -> off mod 2 = 0 ->
  decodeInstruction (asmCJ 5 off) a d = (0, mkInst 16 INST_C_J REG_unknown REG_0 off true).
Proof using Ha.
  intros Ho He.
  assert (slice (asmCJ 5 off) 0 2 = 1) as Hq by (apply (asm_slice []); reflexivity).
  rewrite (proj1 (decodeInstruction_16 _ a d _ Ha Hq)) by done.
  unfold decodeRV32Q1Instruction, decodeRV64Q1Instruction. rewrite CJ_op, immCJ_asm by done.
  by destruct Ha as [-> | ->].
Qed.

Lemma CJAL_op off : Z.shiftr (asmCJ 1 off) 13 = 1.
Proof using Type. by apply CJ_op. Qed.

(** [C.JAL] exists on RV32 only; the same halfword is no branch on RV64. *)
Lemma decode_CJAL off :
  - 2 ^ 11 <= off < 2 ^ 11 -> off mod 2 = 0 ->
  decodeInstruction (asmCJ 1 off) a d =
    (0, if a =? 32 then mkInst 16 INST_C_JAL REG_unknown REG_1 off true else unknownInst 16).
Proof using Ha.
  intros Ho He.
  assert (slice (asmCJ 1 off) 0 2 = 1) as Hq by (apply (asm_slice []); reflexivity).
  rewrite (proj1 (decodeInstruction_16 _ a d _ Ha Hq)) by done.
  unfold decodeRV32Q1Instruction, decodeRV64Q1Instruction. rewrite CJAL_op, immCJ_asm by done.
  by destruct Ha as [-> | ->].
Qed.

Lemma CB_op f rs1 off : 0 <= f < 8 -> Z.shiftr (asmCB f rs1 off) 13 = f.
Proof using Type.
  intros. rewrite (shiftr_slice _ 13 16) by (lia || (apply asm_bound; done)). change (16 - 13) with 3.
  assert (slice (asmCB f rs1 off) 13 3 = slice f 0 3) as ->.
  { apply (asm_slice [(1, 0, 2, 0); (off, 5, 1, 2); (off, 1, 2, 3); (off, 6, 2, 5); (rs1, 0, 3, 7);
     (off, 3, 2, 10); (off, 8, 1, 12)]); reflexivity. }
  by apply slice_small.
Qed.

(** The register field is read with a mask of two bits and without the offset
    8 of a compressed register number. *)
Lemma decode_CB f t rs1 off :
  f = 6 /\ t = INST_C_BEQZ \/ f = 7 /\ t = INST_C_BNEZ -> 0 <= rs1 < 8 ->
  - 2 ^ 8 <= off < 2 ^ 8 -> off mod 2 = 0 ->
  decodeInstruction (asmCB f rs1 off) a d = (0, mkInst 16 t (rs1 mod 4) REG_unknown off true).
Proof using Ha.
  intros Hf Hrs Ho He.
  assert (slice (asmCB f rs1 off) 0 2 = 1) as Hq by (apply (asm_slice []); reflexivity).
  rewrite (proj1 (decodeInstruction_16 _ a d _ Ha Hq)) by done.
  assert (Z.land (Z.shiftr (asmCB f rs1 off) 7) 3 = rs1 mod 4) as Hreg.
  { change 3 with (Z.ones 2). rewrite land_shiftr by done.
    assert (slice (asmCB f rs1 off) 7 3 = slice rs1 0 3) as Hr.
    { apply (asm_slice [(1, 0, 2, 0); (off, 5, 1, 2); (off, 1, 2, 3); (off, 6, 2, 5)]); reflexivity. }
    rewrite slice_small in Hr by done. rewrite <-Hr at 2. unfold slice. symmetry.
    apply (mod_mod_pow2 _ 2 3). lia. }
  unfold decodeRV32Q1Instruction, decodeRV64Q1Instruction.
  rewrite CB_op, immCB_asm, Hreg by (done || lia).
  destruct Ha as [-> | ->], Hf as [[-> ->]|[-> ->]]; done.
Qed.

Lemma decode_CR link rs1 :
  0 <= link < 2 -> 0 < rs1 < 32 ->
  decodeInstruction (asmCR link rs1) a d =
    (0, if link =? 0 then mkInst 16 INST_C_JR rs1 REG_0 0 true
        else mkInst 16 INST_C_JALR rs1 REG_1 0 true).
Proof using Ha.
  intros Hl Hrs. set (i := asmCR link rs1).
  assert (slice i 0 2 = 2) as Hq by (apply (asm_slice []); reflexivity).
  rewrite (proj2 (decodeInstruction_16 _ a d _ Ha Hq)) by done.
  assert (Z.shiftr i 13 = 4) as Hop.
  { rewrite (shiftr_slice _ 13 16) by (lia || (unfold i; apply asm_bound; done)). change (16 - 13) with 3.
    apply (asm_slice [(2, 0, 2, 0); (0, 0, 5, 2); (rs1, 0, 5, 7); (link, 0, 1, 12)]); reflexivity. }
  assert (slice i 7 5 = rs1) as Hr.
  { transitivity (slice rs1 0 5); [|apply slice_small; lia].
    apply (asm_slice [(2, 0, 2, 0); (0, 0, 5, 2)]); reflexivity. }
  assert (Z.land i 0x7c = 0) as H7c.
  { change 0x7c with (Z.shiftl (Z.ones 5) 2). rewrite land_field by done.
    assert (slice i 2 5 = slice 0 0 5) as -> by (apply (asm_slice [(2, 0, 2, 0)]); reflexivity). done. }
  assert ((Z.land i 0xf80 =? 0) = false) as Hf80.
  { change 0xf80 with (Z.shiftl (Z.ones 5) 7). rewrite land_field, Hr by done. apply Z.eqb_neq. lia. }
  assert (Z.testbit i 12 = (link =? 1)) as Hlink.
  { rewrite slice_testbit0 by done. f_equal. transitivity (slice link 0 1); [|by apply slice_small].
    apply (asm_slice [(2, 0, 2, 0); (0, 0, 5, 2); (rs1, 0, 5, 7)]); reflexivity. }
  unfold decodeRV32Q2Instruction, decodeRV64Q2Instruction.
  rewrite Hop, H7c, Hf80, Hlink, regAt_slice, Hr by done.
  assert (link = 0 \/ link = 1) as [-> | ->] by lia; by destruct Ha as [-> | ->].
Qed.
End assembled.

(** The decoder and [decodeInstructionSize] agree on the size, and on which
    instructions they refuse. *)
Lemma decode_size i a d :
  a = 32 \/ a = 64 ->
  match decodeInstructionSize i with
  | Some n => fst (decodeInstruction i a d) = 0 /\ in_size (snd (decodeInstruction i a d)) = n
  | None => decodeInstruction i a d = (1, d)
  end.
Proof.
  intros Ha. unfold decodeInstructionSize, decodeInstruction.
  assert (Z.land i 3 = i mod 4) as Hq by apply land_3. rewrite Hq.
  assert (i mod 4 = 0 \/ i mod 4 = 1 \/ i mod 4 = 2 \/ i mod 4 = 3) as H4 by dlia.
  unfold decodeRV32Q0Instruction, decodeRV64Q0Instruction, decodeRV32Q1Instruction,
    decodeRV64Q1Instruction, decodeRV32Q2Instruction, decodeRV64Q2Instruction.
  rewrite Hq.
  destruct H4 as [E|[E|[E|E]]]; rewrite E; destruct Ha as [-> | ->];
    cbn [Z.eqb Pos.eqb negb]; try done;
    unfold decodeRV32Instruction, decodeRV64Instruction, decodeSystem, branchType, plainInst;
    repeat match goal with |- context [if ?b then _ else _] => destruct b end; done.
Qed.

(** *** All of them *)

(** The control-flow instructions with operands, as an assembler takes them. *)
Inductive Asm :=
| Jal (rd off : Z)
| Jalr (rd rs1 off : Z)
| Branch (funct3 rs1 rs2 off : Z)
| CJump (off : Z)
| CJal (off : Z)
| CBranch (nonzero : bool) (rs1' off : Z)
| CJumpReg (link : bool) (rs1 : Z).

Definition assemble (x : Asm) : Z :=
  match x with
  | Jal rd off => asmJAL rd off
  | Jalr rd rs1 off => asmJALR rd rs1 off
  | Branch f rs1 rs2 off => asmBranch f rs1 rs2 off
  | CJump off => asmCJ 5 off
  | CJal off => asmCJ 1 off
  | CBranch nz r off => asmCB (if nz then 7 else 6) r off
  | CJumpReg link r => asmCR (if link then 1 else 0) r
  end.

(** An offset of [n] bits and a sign, in units of two bytes. *)
Definition offset_ok (n off : Z) : Prop := - 2 ^ n <= off < 2 ^ n /\ off mod 2 = 0.
Definition asm_ok (a : Z) (x : Asm) : Prop :=
  match x with
  | Jal rd off => 0 <= rd < 32 /\ offset_ok 20 off
  | Jalr rd rs1 off => 0 <= rd < 32 /\ 0 <= rs1 < 32 /\ - 2 ^ 11 <= off < 2 ^ 11
  | Branch f rs1 rs2 off => is_Some (branchType f) /\ 0 <= f < 8 /\ 0 <= rs1 < 32 /\ offset_ok 12 off
  | CJump off => offset_ok 11 off
  | CJal off => a = 32 /\ offset_ok 11 off
  | CBranch _ r off => 0 <= r < 8 /\ offset_ok 8 off
  | CJumpReg _ r => 0 < r < 32
  end.

(** What the decoder is to answer: the register of a compressed branch, whose number
    is 8 more than its field, comes out as the low two bits of the field. *)
Definition instOf (x : Asm) : Inst :=
  match x with
  | Jal rd off => mkInst 32 INST_JAL REG_unknown rd off true
  | Jalr rd rs1 off => mkInst 32 INST_JALR rs1 rd off true
  | Branch f rs1 _ off => mkInst 32 (default INST_UNKNOWN (branchType f)) rs1 REG_unknown off true
  | CJump off => mkInst 16 INST_C_J REG_unknown REG_0 off true
  | CJal off => mkInst 16 INST_C_JAL REG_unknown REG_1 off true
  | CBranch nz r off => mkInst 16 (if nz then INST_C_BNEZ else INST_C_BEQZ) (r mod 4) REG_unknown off true
  | CJumpReg link r => mkInst 16 (if link then INST_C_JALR else INST_C_JR) r (if link then REG_1 else REG_0) 0 true
  end.

Lemma decode_assembled x a d : a = 32 \/ a = 64 -> asm_ok a x ->
  decodeInstruction (assemble x) a d = (0, instOf x).
Proof.
  intros Ha. destruct x as [rd off|rd rs1 off|f rs1 rs2 off|off|off|nz r off|link r]; cbn [asm_ok assemble instOf].
  - intros (? & ? & ?). by apply decode_JAL.
  - intros (? & ? & ?). by apply decode_JALR.
  - intros ([t Et] & ? & ? & ? & ?). rewrite Et. by apply decode_branch.
  - intros (? & ?). by apply decode_CJ.
  - intros (E & ? & ?). rewrite decode_CJAL by done. by rewrite E.
  - intros (? & ? & ?). apply decode_CB; [done|destruct nz; [by right|by left]|done..].
  - intros ?. rewrite decode_CR; [|done|by destruct link|done]. by destruct link.
Qed.
