(* ===== verification/Memory.v ===== *)
(** * Code memory

    The program image that the decoder walks: [Section] (a piece of code from an
    ELF file), the list search [Section::getSectionByAddress],
    [ElfReader::getInstructionByAddress] and the choice between the kernel memory
    and the ELF file of the current process in [Trace::getInstructionByAddress].

    [CodeMemory] is the interface the rest of the decoder uses; its law says that
    reading an instruction from a settled memory does not change what later reads
    return. *)

From S2P Require Import Prelude Nexus.

(** ** The interface *)

(** [fetch core addr]: the instruction at [addr] for a core, of 16 or 32 bits. *)
Class CodeMemory (Mem : Type) := fetch : Z -> Z -> M Mem DQErr Z.

(** What the memory answers at an address; [None] if the read fails. *)
Definition code {Mem} `{!CodeMemory Mem} (m : Mem) (core addr : Z) : option Z :=
  match fetch core addr m with Ok _ i => Some i | _ => None end.

Class CodeMemoryLaws (Mem : Type) `{!CodeMemory Mem} := {
  settled : Mem -> Prop;
  fetch_stable (m m' : Mem) core addr i : settled m -> fetch core addr m = Ok m' i ->
    settled m' /\ forall k a, code m' k a = code m k a;
}.

Lemma fetch_code {Mem} `{!CodeMemory Mem} `{!CodeMemoryLaws Mem} (m : Mem) core addr i :
  settled m -> code m core addr = Some i ->
  exists m', fetch core addr m = Ok m' i /\ settled m' /\ forall k a, code m' k a = code m k a.
Proof.
  intros Hm. unfold code at 1. destruct (fetch core addr m) as [m' j| | |] eqn:E; intros; simplify_eq.
  exists m'. split; [done|]. by eapply fetch_stable.
Qed.

(** ** Sections *)

(** [class Section], without its texts: the address range is inclusive, and
    [code] holds its halfwords. *)
Record CodeSection := {
  cs_startAddr : Z;
  cs_endAddr : Z;
  cs_vmaOffset : Z;
  cs_code : list Z;
}.

Definition inSection (addr : Z) (s : CodeSection) : bool :=
  (u64 (cs_startAddr s + cs_vmaOffset s) <=? addr) &&
  (addr <=? u64 (cs_endAddr s + cs_vmaOffset s)).

(** The list starts at [this]. *)
Fixpoint getSectionByAddress (addr : Z) (l : list CodeSection) : option CodeSection :=
  match l with
  | [] => None
  | s :: l => if inSection addr s then Some s else getSectionByAddress addr l
  end.

(** ** One ELF file *)

Record ElfReader := {
  er_status : DQErr;
  er_archSize : Z;
  er_codeSectionLst : list CodeSection;
}.

Definition set_er_status (e : DQErr) (r : ElfReader) : ElfReader := {|
  er_status := e; er_archSize := er_archSize r; er_codeSectionLst := er_codeSectionLst r |}.

(** [code[index]] of a section; outside the array the access is undefined. *)
Definition halfword (s : CodeSection) (index : Z) : option Z :=
  if 0 <=? index then cs_code s !! Z.to_nat index else None.

(** The [int index] of an address in a section. *)
Definition codeIndex (s : CodeSection) (addr : Z) : Z :=
  i32 (u64 (addr - cs_vmaOffset s - cs_startAddr s) / 2).

(** The instruction that starts at a halfword: [inr] the value, [inl] an
    instruction longer than 32 bits. *)
Definition instructionAt (s : CodeSection) (index : Z) : option (DQErr + Z) :=
  inst ← halfword s index;
  if Z.land inst 3 =? 3 then
    if Z.land inst 31 =? 31 then Some (inl DQERR_ERR)
    else
      high ← halfword s (index + 1);
      Some (inr (Z.lor inst (u32 (Z.shiftl high 16))))
  else Some (inr inst).

Definition elfInstructionByAddress (addr : Z) : M ElfReader DQErr Z :=
  r ← get;
  let failed := modify (set_er_status DQERR_ERR) ≫= fun _ => throw DQERR_ERR in
  match getSectionByAddress addr (er_codeSectionLst r) with
  | None => failed
  | Some s =>
      if negb (inSection addr s) then failed
      else
        res ← lift_opt (instructionAt s (codeIndex s addr));
        match res with
        | inl _ => failed
        | inr inst => modify (set_er_status DQERR_OK) ≫= fun _ => mret inst
        end
  end.

#[export] Instance ElfReader_memory : CodeMemory ElfReader := fun _ => elfInstructionByAddress.

(** Running a computation on a part of the state. *)
Definition zoom {S T E A} (put : T -> S) (m : M T E A) (t : T) : Res S E A :=
  match m t with
  | Ok t a => Ok (put t) a
  | Err t e => Err (put t) e
  | Undef => Undef
  | NoFuel => NoFuel
  end.

(** ** The memory of a trace *)

(** [kMem], with the address it starts at, is null or any memory of its own;
    [readers] are the ELF files of the processes, and [currentElfReader] says
    which one each core uses, if any. *)
Record TraceMem (K : Type) := {
  tm_kMem : option (Z * K);
  tm_readers : list ElfReader;
  tm_currentElfReader : list (option nat);
}.
Arguments tm_kMem {K} t.
Arguments tm_readers {K} t.
Arguments tm_currentElfReader {K} t.

Section trace_memory.
Context {K : Type} `{!CodeMemory K}.

Definition set_kMem (start : Z) (t : TraceMem K) (k : K) : TraceMem K := {|
  tm_kMem := Some (start, k); tm_readers := tm_readers t;
  tm_currentElfReader := tm_currentElfReader t |}.

Definition set_reader (i : nat) (t : TraceMem K) (r : ElfReader) : TraceMem K := {|
  tm_kMem := tm_kMem t; tm_readers := <[i := r]> (tm_readers t);
  tm_currentElfReader := tm_currentElfReader t |}.

(** The reader of a core; a null pointer or an index out of range is undefined. *)
Definition readerOf (core : Z) (t : TraceMem K) : option (nat * ElfReader) :=
  if 0 <=? core then
    o ← tm_currentElfReader t !! Z.to_nat core;
    i ← o;
    r ← tm_readers t !! i;
    Some (i, r)
  else None.

(** Every failure is reported as [DQERR_ERR]. *)
Definition asErr {S A} (r : Res S DQErr A) : Res S DQErr A :=
  match r with Err s _ => Err s DQERR_ERR | r => r end.

Definition elfFetch (core addr : Z) : M (TraceMem K) DQErr Z := fun t =>
  match readerOf core t with
  | None => Undef
  | Some (i, r) => asErr (zoom (set_reader i t) (elfInstructionByAddress addr) r)
  end.

(** [core] is the trace's [currentCore]. *)
Definition getInstructionByAddress (core addr : Z) : M (TraceMem K) DQErr Z := fun t =>
  match tm_kMem t with
  | Some (start, k) =>
      if start <=? addr then asErr (zoom (set_kMem start t) (fetch core addr) k)
      else elfFetch core addr t
  | None => elfFetch core addr t
  end.

#[export] Instance TraceMem_memory : CodeMemory (TraceMem K) := getInstructionByAddress.
End trace_memory.

(** ** Laws *)

Lemma getSectionByAddress_in addr l s : getSectionByAddress addr l = Some s -> inSection addr s = true.
Proof. induction l as [|s' l IH]; cbn; [done|]. destruct (inSection addr s') eqn:E; naive_solver. Qed.

(** What an ELF file answers depends on its sections only. *)
Lemma elf_fetch addr r :
  elfInstructionByAddress addr r =
    match s ← getSectionByAddress addr (er_codeSectionLst r);
          Some (instructionAt s (codeIndex s addr)) with
    | None | Some (Some (inl _)) => Err (set_er_status DQERR_ERR r) DQERR_ERR
    | Some None => Undef
    | Some (Some (inr i)) => Ok (set_er_status DQERR_OK r) i
    end.
Proof.
  unfold elfInstructionByAddress. erewrite bind_ok by done. cbn beta.
  destruct (getSectionByAddress _ _) as [s|] eqn:E; [|done].
  rewrite (getSectionByAddress_in _ _ _ E). cbn.
  by destruct (instructionAt _ _) as [[]|].
Qed.

Lemma elf_code addr r :
  code r 0 addr =
    (s ← getSectionByAddress addr (er_codeSectionLst r);
     res ← instructionAt s (codeIndex s addr);
     match res with inl _ => None | inr i => Some i end).
Proof.
  unfold code, fetch, ElfReader_memory. rewrite elf_fetch.
  destruct (getSectionByAddress _ _) as [s|]; [|done]. cbn.
  by destruct (instructionAt _ _) as [[]|].
Qed.

Lemma elf_stable (r r' : ElfReader) core addr i : fetch core addr r = Ok r' i -> forall k a, code r' k a = code r k a.
Proof.
  intros H k a. change (code r' 0 a = code r 0 a).
  rewrite !elf_code. unfold fetch, ElfReader_memory in H. rewrite elf_fetch in H.
  by repeat case_match; simplify_eq.
Qed.

#[export] Instance ElfReader_laws : CodeMemoryLaws ElfReader := {|
  settled := fun _ => True;
  fetch_stable := fun r r' core addr i _ H => conj I (elf_stable r r' core addr i H) |}.

Section trace_memory_laws.
Context {K : Type} `{!CodeMemory K} `{!CodeMemoryLaws K}.
Implicit Type t : TraceMem K.

Lemma asErr_ok {S A} (r : Res S DQErr A) s a : asErr r = Ok s a <-> r = Ok s a.
Proof. by destruct r. Qed.

Lemma zoom_ok {S T A} (put : T -> S) (m : M T DQErr A) x s a :
  asErr (zoom put m x) = Ok s a <-> exists y, m x = Ok y a /\ s = put y.
Proof. rewrite asErr_ok. unfold zoom. destruct (m x); naive_solver. Qed.

Lemma code_kMem t start k core addr :
  tm_kMem t = Some (start, k) -> start <= addr -> code t core addr = code k core addr.
Proof.
  intros Hk Ha. unfold code, fetch at 1, TraceMem_memory, getInstructionByAddress.
  rewrite Hk, (proj2 (Z.leb_le _ _) Ha). unfold asErr, zoom. by destruct (fetch core addr k).
Qed.

Lemma code_elf t core addr :
  match tm_kMem t with Some (start, _) => addr < start | None => True end ->
  code t core addr = (ir ← readerOf core t; code (snd ir) 0 addr).
Proof.
  intros Hk. assert (getInstructionByAddress core addr t = elfFetch core addr t) as E.
  { unfold getInstructionByAddress. destruct (tm_kMem t) as [[start k]|]; [|done].
    by rewrite (proj2 (Z.leb_gt _ _) Hk). }
  unfold code at 1, fetch, TraceMem_memory. rewrite E. unfold elfFetch.
  destruct (readerOf core t) as [[i r]|]; [|done]. cbn.
  unfold code, fetch, ElfReader_memory, asErr, zoom. by destruct (elfInstructionByAddress addr r).
Qed.

(** Replacing a reader by one that answers the same changes no answer. *)
Lemma readerOf_set core t i r r' a k :
  readerOf core t = Some (i, r) -> (forall a, code r' 0 a = code r 0 a) ->
  (ir ← readerOf k (set_reader i t r'); code (snd ir) 0 a) =
  (ir ← readerOf k t; code (snd ir) 0 a).
Proof.
  intros Hr Hc. unfold readerOf in *. case_match; [|done]. case_match; [|done].
  cbn. destruct (tm_currentElfReader t !! Z.to_nat core) as [[j|]|]; try done. cbn in Hr.
  destruct (tm_readers t !! j) as [r0|] eqn:Ej; [|done]. cbn in Hr. simplify_eq.
  destruct (tm_currentElfReader t !! Z.to_nat k) as [[j|]|]; [|done..]. cbn.
  destruct (decide (i = j)) as [<-|Hij].
  - rewrite list_lookup_insert_eq by by apply lookup_lt_is_Some; eauto.
    rewrite Ej. cbn. apply Hc.
  - by rewrite list_lookup_insert_ne.
Qed.

Lemma kMem_stable t start k k' core a :
  tm_kMem t = Some (start, k) -> (forall c a, code k' c a = code k c a) ->
  code (set_kMem start t k') core a = code t core a.
Proof.
  intros Hk Hc. destruct (Z.le_gt_cases start a).
  - rewrite (code_kMem _ start k') by done. rewrite (code_kMem t start k) by done. apply Hc.
  - rewrite !code_elf; [done|by rewrite Hk|done].
Qed.

Lemma reader_stable t i r r' core k a :
  readerOf core t = Some (i, r) -> (forall a, code r' 0 a = code r 0 a) ->
  code (set_reader i t r') k a = code t k a.
Proof.
  intros Hr Hc. destruct (tm_kMem t) as [[start kk]|] eqn:E; [destruct (Z.le_gt_cases start a)|].
  - by rewrite !(code_kMem _ start kk).
  - rewrite !code_elf; [by eapply readerOf_set|by rewrite E|cbn; by rewrite E].
  - rewrite !code_elf; [by eapply readerOf_set|by rewrite E|cbn; by rewrite E].
Qed.

Lemma elfFetch_stable t t' core addr i :
  elfFetch core addr t = Ok t' i -> tm_kMem t' = tm_kMem t /\ forall k a, code t' k a = code t k a.
Proof.
  unfold elfFetch. destruct (readerOf core t) as [[j r]|] eqn:E; [|done].
  intros (r' & Hr & ->)%zoom_ok. split; [done|]. intros k a. eapply reader_stable; [done|].
  by apply (elf_stable r r' core addr i).
Qed.

Definition mem_settled t : Prop := match tm_kMem t with Some (_, k) => settled k | None => True end.

Lemma mem_stable t t' core addr i : mem_settled t -> fetch core addr t = Ok t' i ->
  mem_settled t' /\ forall k a, code t' k a = code t k a.
Proof.
  unfold mem_settled. intros Hs H. unfold fetch, TraceMem_memory, getInstructionByAddress in H.
  destruct (tm_kMem t) as [[start k]|] eqn:E; [destruct (start <=? addr)|];
    [|by apply elfFetch_stable in H as [Hk ?]; rewrite Hk, E..].
  apply zoom_ok in H as (k' & Hk & ->). destruct (fetch_stable _ _ _ _ _ Hs Hk) as [Hk' Hc].
  split; [done|]. intros c a. by eapply kMem_stable.
Qed.

#[export] Instance TraceMem_laws : CodeMemoryLaws (TraceMem K) := {| settled := mem_settled; fetch_stable := mem_stable |}.
End trace_memory_laws.
