(* ===== verification/ObjDump.v ===== *)
(** * Reading the object file (src/dqr.cpp, [ObjDump])

    The decoder runs [objdump] and reads what it prints: the list of sections, the
    symbols, and the disassembly with source lines, from which it fills the code of
    the sections.  The text comes through a pipe in pieces of any size. *)

From stdpp Require Import strings.
From Stdlib Require Import Ascii.
From Stdlib Require String.
From S2P Require Import Prelude Nexus Memory.

(** ** Text *)

Definition chars : String.string -> list ascii := String.list_ascii_of_string.

(** A character array as the C functions see it: up to the first NUL. *)
Fixpoint cstring (l : list ascii) : list ascii :=
  match l with
  | [] => []
  | "000"%char :: _ => []
  | c :: l => c :: cstring l
  end.

Definition code_of (c : ascii) : Z := Z.of_N (N_of_ascii c).
Definition lower (c : ascii) : ascii :=
  if (65 <=? code_of c) && (code_of c <=? 90) then ascii_of_N (Z.to_N (code_of c + 32)) else c.
Definition strcmp (a b : list ascii) : bool := bool_decide (a = b).
Definition strcasecmp (a b : list ascii) : bool := bool_decide (lower <$> a = lower <$> b).

(** The values of digits. *)
Definition decDigit (c : ascii) : option Z :=
  if (48 <=? code_of c) && (code_of c <=? 57) then Some (code_of c - 48) else None.
Definition hexDigit (c : ascii) : option Z :=
  if (48 <=? code_of c) && (code_of c <=? 57) then Some (code_of c - 48)
  else if (97 <=? code_of c) && (code_of c <=? 102) then Some (code_of c - 97 + 10)
  else if (65 <=? code_of c) && (code_of c <=? 70) then Some (code_of c - 65 + 10)
  else None.

Fixpoint numeral (digit : ascii -> option Z) (base : Z) (s : list ascii) (val : Z) : option Z :=
  match s with
  | [] => Some val
  | c :: s => d ← digit c; numeral digit base s (u64 (val * base + d))
  end.
Definition isStringAHexNumber (s : list ascii) : option Z := numeral hexDigit 16 s 0.
Definition isStringADecNumber (s : list ascii) : option Z := numeral decDigit 10 s 0.

(** [%x] and [%X], with at least [width] digits. *)
Definition digitChar (upper : bool) (d : Z) : ascii :=
  ascii_of_N (Z.to_N (if d <? 10 then 48 + d else (if upper then 65 else 97) + (d - 10))).
Fixpoint hexDigits (n : nat) (upper : bool) (x : Z) : list ascii :=
  match n with
  | O => []
  | S n => hexDigits n upper (x / 16) ++ [digitChar upper (x mod 16)]
  end.
Fixpoint hexLength (n : nat) (x : Z) : nat :=
  match n with
  | O => O
  | S n => if x =? 0 then O else S (hexLength n (x / 16))
  end.
Definition formatHex (upper : bool) (width : nat) (x : Z) : list ascii :=
  hexDigits (max width (hexLength 16 x)) upper x.

(** ** Sections and symbols *)

Definition sect_CONTENTS : Z := 1.
Definition sect_ALLOC : Z := 2.
Definition sect_LOAD : Z := 4.
Definition sect_READONLY : Z := 8.
Definition sect_DATA : Z := 16.
Definition sect_CODE : Z := 32.
Definition sect_THREADLOCAL : Z := 64.
Definition sect_DEBUGGING : Z := 128.
Definition sect_OCTETS : Z := 256.

(** [class Section]; an array is null or has its elements. *)
Record ElfSection := {
  sc_name : list ascii;
  sc_startAddr : Z;
  sc_endAddr : Z;
  sc_vmaOffset : Z;
  sc_flags : Z;
  sc_size : Z;
  sc_offset : Z;
  sc_align : Z;
  sc_code : option (list Z);
  sc_fName : option (list (option (list ascii)));
  sc_line : option (list Z);
  sc_diss : option (list (option (list ascii)));
}.

Definition symLocal : Z := 1.
Definition symGlobal : Z := 2.
Definition symWeak : Z := 4.
Definition symConstructor : Z := 8.
Definition symIndirect : Z := 16.
Definition symIndirectFunc : Z := 32.
Definition symDebug : Z := 64.
Definition symDynamic : Z := 128.
Definition symFunc : Z := 256.
Definition symFile : Z := 512.
Definition symObj : Z := 1024.

(** [struct Sym]: [section] points to a section, or is null; of the symbol
    [srcFile] points to, only the name is ever used. *)
Record Sym := {
  sy_name : list ascii;
  sy_flags : Z;
  sy_section : option nat;
  sy_vmaOffset : Z;
  sy_address : Z;
  sy_size : Z;
  sy_srcFile : option (list ascii);
}.

(** ** State *)

Inductive ElfType := elfType_32_little | elfType_64_little | elfType_32_binary | elfType_64_binary.

(** The pipe: what is left of [pipeBuffer] from [pipeIndex] to [endOfBuffer], and what
    [read] is going to give: [None] fails, [Some []] is the end of the file, which
    is also what comes after the last. *)
Record Pipe := { pp_buffer : list ascii; pp_reads : list (option (list ascii)) }.

(** The sections are objects in a store, by the order in which they were made; a
    list of sections is a list of places in it.  [sp] is the list that is being
    read; the rest belongs to the [ElfReader]. *)
Record ObjDump := {
  od_pipe : Pipe;
  od_eType : ElfType;
  od_sp : list nat;
  od_archSize : Z;
  od_store : list ElfSection;
  od_codeSectionLst : list nat;
  od_symLst : list Sym;
  od_srcFiles : list (list ascii);
}.

Definition set_pipe p (s : ObjDump) : ObjDump := {|
  od_pipe := p; od_eType := od_eType s; od_sp := od_sp s; od_archSize := od_archSize s; od_store := od_store s;
  od_codeSectionLst := od_codeSectionLst s; od_symLst := od_symLst s; od_srcFiles := od_srcFiles s |}.
Definition set_eType x (s : ObjDump) : ObjDump := {|
  od_pipe := od_pipe s; od_eType := x; od_sp := od_sp s; od_archSize := od_archSize s; od_store := od_store s;
  od_codeSectionLst := od_codeSectionLst s; od_symLst := od_symLst s; od_srcFiles := od_srcFiles s |}.
Definition set_sp x (s : ObjDump) : ObjDump := {|
  od_pipe := od_pipe s; od_eType := od_eType s; od_sp := x; od_archSize := od_archSize s; od_store := od_store s;
  od_codeSectionLst := od_codeSectionLst s; od_symLst := od_symLst s; od_srcFiles := od_srcFiles s |}.
Definition set_archSize x (s : ObjDump) : ObjDump := {|
  od_pipe := od_pipe s; od_eType := od_eType s; od_sp := od_sp s; od_archSize := x; od_store := od_store s;
  od_codeSectionLst := od_codeSectionLst s; od_symLst := od_symLst s; od_srcFiles := od_srcFiles s |}.
Definition set_store x (s : ObjDump) : ObjDump := {|
  od_pipe := od_pipe s; od_eType := od_eType s; od_sp := od_sp s; od_archSize := od_archSize s; od_store := x;
  od_codeSectionLst := od_codeSectionLst s; od_symLst := od_symLst s; od_srcFiles := od_srcFiles s |}.
Definition set_codeSectionLst x (s : ObjDump) : ObjDump := {|
  od_pipe := od_pipe s; od_eType := od_eType s; od_sp := od_sp s; od_archSize := od_archSize s; od_store := od_store s;
  od_codeSectionLst := x; od_symLst := od_symLst s; od_srcFiles := od_srcFiles s |}.
Definition set_symLst x (s : ObjDump) : ObjDump := {|
  od_pipe := od_pipe s; od_eType := od_eType s; od_sp := od_sp s; od_archSize := od_archSize s; od_store := od_store s;
  od_codeSectionLst := od_codeSectionLst s; od_symLst := x; od_srcFiles := od_srcFiles s |}.
Definition set_srcFiles x (s : ObjDump) : ObjDump := {|
  od_pipe := od_pipe s; od_eType := od_eType s; od_sp := od_sp s; od_archSize := od_archSize s; od_store := od_store s;
  od_codeSectionLst := od_codeSectionLst s; od_symLst := od_symLst s; od_srcFiles := x |}.

#[local] Abbreviation OM := (M ObjDump DQErr).

Definition failed {A} : OM A := throw DQERR_ERR.
(** The check [if (!b) return DQERR_ERR;]. *)
Definition expect (b : bool) : OM unit := if b then mret tt else failed.

(** ** The lexer *)

Inductive objDumpTokenType :=
| odtt_error | odtt_eol | odtt_eof | odtt_colon | odtt_lt | odtt_gt | odtt_lp | odtt_rp | odtt_comma | odtt_string.

#[export] Instance objDumpTokenType_eq_dec : EqDecision objDumpTokenType.
Proof. solve_decision. Defined.
Definition isTok (t u : objDumpTokenType) : bool := bool_decide (t = u).

(** [fillPipeBuffer]: [None] if the read fails, else the rest of the pipe. *)
Definition fill (reads : list (option (list ascii))) : option (list ascii) * list (option (list ascii)) :=
  match reads with
  | [] => (Some [], [])
  | r :: reads => (r, reads)
  end.
Definition fillPipeBuffer : OM unit := fun s =>
  match fill (pp_reads (od_pipe s)) with
  | (None, reads) => Err (set_pipe {| pp_buffer := pp_buffer (od_pipe s); pp_reads := reads |} s) DQERR_ERR
  | (Some buffer, reads) => Ok (set_pipe {| pp_buffer := buffer; pp_reads := reads |} s) tt
  end.

(** A character that a loop of the lexer looks at: skip it, take it, or stop. *)
Inductive Look := Skip | Take | Halt.

Fixpoint scanBuffer (look : ascii -> Look) (buffer acc : list ascii) : list ascii * list ascii * bool :=
  match buffer with
  | [] => (acc, [], false)
  | c :: rest =>
      match look c with
      | Skip => scanBuffer look rest acc
      | Take => scanBuffer look rest (acc ++ [c])
      | Halt => (acc, buffer, true)
      end
  end.

(** How a scan ends: at a character, at the end of the file, or with a read that
    fails. *)
Inductive ScanEnd := AtChar | AtEof | AtError.

(** The loops [do { while ((pipeIndex < endOfBuffer) && ...) ...; fillPipeBuffer(); }
    while (...)], with the characters taken. *)
Fixpoint scanReads (look : ascii -> Look) (reads : list (option (list ascii))) (buffer acc : list ascii)
    : list ascii * Pipe * ScanEnd :=
  let '(acc, rest, stopped) := scanBuffer look buffer acc in
  if stopped : bool then (acc, {| pp_buffer := rest; pp_reads := reads |}, AtChar)
  else
    match reads with
    | [] => (acc, {| pp_buffer := []; pp_reads := [] |}, AtEof)
    | None :: reads => (acc, {| pp_buffer := rest; pp_reads := reads |}, AtError)
    | Some [] :: reads => (acc, {| pp_buffer := []; pp_reads := reads |}, AtEof)
    | Some buffer :: reads => scanReads look reads buffer acc
    end.
Definition scan (look : ascii -> Look) : OM (list ascii * ScanEnd) := fun s =>
  let '(acc, p, e) := scanReads look (pp_reads (od_pipe s)) (pp_buffer (od_pipe s)) [] in
  Ok (set_pipe p s) (acc, e).

Definition lookWS (c : ascii) : Look :=
  match c with " "%char | "009"%char | "013"%char => Skip | _ => Halt end.
Definition lookString (c : ascii) : Look :=
  match c with
  | " "%char | "009"%char | "013"%char | "010"%char | ":"%char | "<"%char | ">"%char | ","%char | "("%char | ")"%char => Halt
  | _ => Take
  end.
Definition lookLine (c : ascii) : Look :=
  match c with "010"%char => Halt | "013"%char => Skip | _ => Take end.

(** The token a character is by itself. *)
Definition single (c : ascii) : option objDumpTokenType :=
  match c with
  | ","%char => Some odtt_comma
  | ":"%char => Some odtt_colon
  | "<"%char => Some odtt_lt
  | ">"%char => Some odtt_gt
  | "("%char => Some odtt_lp
  | ")"%char => Some odtt_rp
  | "010"%char => Some odtt_eol
  | _ => None
  end.

(** [pipeBuffer[pipeIndex]], where there is one. *)
Definition peekChar : OM ascii :=
  s ← get; lift_opt (head (pp_buffer (od_pipe s))).
Definition dropChar : OM unit :=
  modify (fun s => set_pipe {| pp_buffer := tail (pp_buffer (od_pipe s)); pp_reads := pp_reads (od_pipe s) |} s).

(** Characters are put into an array of [cap] elements; there must be room for the
    NUL. *)
Definition stored (cap : nat) (l : list ascii) : OM (list ascii) :=
  if (length l <? cap)%nat then mret (cstring l) else undef.

Definition getNextLex (cap : nat) : OM (objDumpTokenType * list ascii) :=
  '(_, e) ← scan lookWS;
  match e with
  | AtError => mret (odtt_error, [])
  | AtEof => mret (odtt_eof, [])
  | AtChar =>
      c ← peekChar;
      match single c with
      | Some t => dropChar ≫= fun _ => mret (t, [])
      | None =>
          '(l, e) ← scan lookString;
          lex ← stored cap l;
          mret (match e with AtError => odtt_error | _ => odtt_string end, lex)
      end
  end.

Definition getRestOfLine (cap : nat) : OM (objDumpTokenType * list ascii) :=
  '(_, e) ← scan lookWS;
  match e with
  | AtError => mret (odtt_error, [])
  | AtEof => mret (odtt_eof, [])
  | AtChar =>
      c ← peekChar;
      if bool_decide (c = "010"%char) then dropChar ≫= fun _ => mret (odtt_eol, [])
      else
        '(l, e) ← scan lookLine;
        lex ← stored cap l;
        mret (match e with AtError => odtt_error | AtEof => odtt_eof | AtChar => odtt_eol end, lex)
  end.

(** A failing read makes it answer [odtt_error], which is [false]. *)
Definition isWSLookahead : OM bool := fun s =>
  let s := match pp_buffer (od_pipe s) with
           | [] => match fillPipeBuffer s with Ok s _ | Err s _ => s | _ => s end
           | _ => s
           end in
  Ok s (match pp_buffer (od_pipe s) with " "%char :: _ | "009"%char :: _ => true | _ => false end).

(** ** The parser *)

(** The usual checks of a token, each in an array of 256 characters. *)
Definition getTok (t : objDumpTokenType) : OM unit :=
  '(type, _) ← getNextLex 256; expect (isTok type t).
Definition getString : OM (list ascii) :=
  '(type, lex) ← getNextLex 256; expect (isTok type odtt_string) ≫= fun _ => mret lex.
Definition getKeyword (w : String.string) : OM unit :=
  lex ← getString; expect (strcasecmp (chars w) lex).
Definition getHex : OM Z :=
  lex ← getString;
  match isStringAHexNumber lex with Some n => mret n | None => failed end.
Definition getDec : OM Z :=
  lex ← getString;
  match isStringADecNumber lex with Some n => mret n | None => failed end.

(** [strcat] and [sprintf] into an array of [cap] elements. *)
Definition fits (cap : nat) (l : list ascii) : OM (list ascii) :=
  if (length l <? cap)%nat then mret l else undef.

(** [while (type == odtt_eol) type = getNextLex(lex);], and whether it ran. *)
Fixpoint skipEols (n : nat) (cap : nat) (type : objDumpTokenType) (lex : list ascii) (ran : bool)
    : OM (bool * objDumpTokenType * list ascii) :=
  match n with
  | O => fun _ => NoFuel
  | S n =>
      if isTok type odtt_eol then '(type, lex) ← getNextLex cap; skipEols n cap type lex true
      else mret (ran, type, lex)
  end.

(** [while (type != odtt_eol) type = getNextLex(lex);] *)
Fixpoint scootToEol (n : nat) (type : objDumpTokenType) : OM unit :=
  match n with
  | O => fun _ => NoFuel
  | S n => if isTok type odtt_eol then mret tt else '(type, _) ← getNextLex 1024; scootToEol n type
  end.

Section parser.
(** How often each of the loops may turn. *)
Context (fuel : nat).

(** [do type = getNextLex(lex); while (type == odtt_eol);] *)
Definition nextNonEol : OM (objDumpTokenType * list ascii) :=
  '(_, type, lex) ← skipEols fuel 256 odtt_eol [] false; mret (type, lex).

Definition parseElfName : OM ElfType :=
  '(type, elfName) ← nextNonEol;
  expect (isTok type odtt_string) ≫= fun _ =>
  getTok odtt_colon ≫= fun _ =>
  ws ← isWSLookahead;
  (if ws : bool then mret tt
   else
     '(type, lex) ← nextNonEol;
     expect (isTok type odtt_string) ≫= fun _ =>
     fits 256 (elfName ++ [":"%char] ++ lex) ≫= fun _ =>
     getTok odtt_colon) ≫= fun _ =>
  getKeyword "file" ≫= fun _ =>
  getKeyword "format" ≫= fun _ =>
  lex ← getString;
  if strcasecmp (chars "elf64-littleriscv") lex then mret elfType_64_little
  else if strcasecmp (chars "elf32-littleriscv") lex then mret elfType_32_little
  else if strcasecmp (chars "binary") lex then mret elfType_64_binary
  else failed.

(** *** The sections *)

Definition alignments : list (String.string * Z) :=
  [("2**0", 1); ("2**1", 2); ("2**2", 4); ("2**3", 8); ("2**4", 16); ("2**5", 32); ("2**6", 64); ("2**7", 128);
   ("2**8", 256); ("2**9", 256); ("2**10", 256); ("2**11", 256); ("2**12", 256); ("2**13", 256); ("2**14", 256);
   ("2**15", 256); ("2**16", 256)]%string.
Definition alignOf (lex : list ascii) : option Z := snd <$> List.find (fun p => strcmp (chars p.1) lex) alignments.

Definition sectionFlags : list (String.string * Z) :=
  [("CONTENTS", sect_CONTENTS); ("ALLOC", sect_ALLOC); ("LOAD", sect_LOAD); ("READONLY", sect_READONLY);
   ("DATA", sect_DATA); ("CODE", sect_CODE); ("THREAD_LOCAL", sect_THREADLOCAL);
   ("DEBUGGING", sect_DEBUGGING); ("OCTETS", sect_OCTETS)]%string.
Definition sectionFlagOf (lex : list ascii) : option Z :=
  snd <$> List.find (fun p => strcasecmp (chars p.1) lex) sectionFlags.

Definition orFail {A} (o : option A) : OM A := match o with Some a => mret a | None => failed end.

Fixpoint parseFlags (n : nat) (flags : Z) : OM Z :=
  match n with
  | O => fun _ => NoFuel
  | S n =>
      lex ← getString;
      f ← orFail (sectionFlagOf lex);
      let flags := Z.lor flags f in
      '(type, _) ← getNextLex 256;
      expect (isTok type odtt_comma || isTok type odtt_eol) ≫= fun _ =>
      if isTok type odtt_eol then mret flags else parseFlags n flags
  end.

Definition emptySection (name : list ascii) (startAddr endAddr vmaOffset flags size offset align : Z) : ElfSection := {|
  sc_name := name; sc_startAddr := startAddr; sc_endAddr := endAddr; sc_vmaOffset := vmaOffset; sc_flags := flags;
  sc_size := size; sc_offset := offset; sc_align := align; sc_code := None; sc_fName := None; sc_line := None;
  sc_diss := None |}.

(** The last token read, and the section, if there is one to keep. *)
Definition parseSection (vmaOffset : Z) : OM (objDumpTokenType * list ascii * option ElfSection) :=
  '(type, lex) ← getNextLex 256;
  match (if isTok type odtt_string then isStringADecNumber lex else None) with
  | None => mret (type, lex, None)
  | Some _ =>
      name ← getString;
      size ← getHex;
      vma ← getHex;
      _ ← getHex;
      offset ← getHex;
      lex ← getString;
      align ← orFail (alignOf lex);
      getTok odtt_eol ≫= fun _ =>
      flags ← parseFlags fuel 0;
      let size := u32 size in
      mret (odtt_eol, [],
        if negb (Z.land flags sect_CODE =? 0) || strcmp (chars ".comment") name
        then Some (emptySection name vma (u64 (vma + size - 1)) vmaOffset flags size (u32 offset) align)
        else None)
  end.

Definition newSection (sec : ElfSection) : OM unit :=
  modify (fun s => set_sp (length (od_store s) :: od_sp s) (set_store (od_store s ++ [sec]) s)).

Fixpoint sectionLines (n : nat) (vmaOffset : Z) : OM (objDumpTokenType * list ascii) :=
  match n with
  | O => fun _ => NoFuel
  | S n =>
      '(type, lex, sec) ← parseSection vmaOffset;
      (match sec with Some sec => newSection sec | None => mret tt end) ≫= fun _ =>
      if isTok type odtt_eol then sectionLines n vmaOffset else mret (type, lex)
  end.

Fixpoint getKeywords (ws : list String.string) : OM unit :=
  match ws with
  | [] => mret tt
  | w :: ws => getKeyword w ≫= fun _ => getKeywords ws
  end.

Definition parseSectionList (vmaOffset : Z) : OM (objDumpTokenType * list ascii) :=
  '(type, lex) ← nextNonEol;
  if isTok type odtt_string && strcasecmp (chars "Sections") lex then
    getTok odtt_colon ≫= fun _ =>
    getTok odtt_eol ≫= fun _ =>
    getKeywords ["Idx"; "Name"; "Size"; "VMA"; "LMA"; "File"; "off"; "Algn"]%string ≫= fun _ =>
    getTok odtt_eol ≫= fun _ =>
    sectionLines fuel vmaOffset
  else mret (type, lex).

(** [Section::getSectionByName]: the place of the first section with the name. *)
Fixpoint getSectionByName (store : list ElfSection) (l : list nat) (name : list ascii) : option nat :=
  match l with
  | [] => None
  | i :: l =>
      match store !! i with
      | Some sec => if strcmp (sc_name sec) name then Some i else getSectionByName store l name
      | None => None
      end
  end.

(** In the list that is being read; a null pointer has no members. *)
Definition sectionByName (name : list ascii) : OM (option nat) :=
  s ← get;
  match od_sp s with
  | [] => undef
  | l => mret (getSectionByName (od_store s) l name)
  end.

(** *** The disassembly *)

(** What a line of the disassembly is, after its first word. *)
Inductive Line :=
| line_t_label (text : list ascii)
| line_t_diss (text : list ascii) (length value : Z)
| line_t_path (text : list ascii) (value : Z)
| line_t_func.

(** [EOL] or the end of the file. *)
Definition endOfLine (type : objDumpTokenType) : OM unit := expect (isTok type odtt_eol || isTok type odtt_eof).

(** [(discriminator n)] may come before the end of the line; the first of the two
    routines does not look at the words. *)
Definition endOfPath (strict : bool) : OM unit :=
  '(type, _) ← getNextLex 256;
  if isTok type odtt_lp then
    (if strict then getKeyword "discriminator" ≫= fun _ => getDec ≫= fun _ => mret tt
     else getString ≫= fun _ => getString ≫= fun _ => mret tt) ≫= fun _ =>
    getTok odtt_rp ≫= fun _ =>
    '(type, _) ← getNextLex 256; endOfLine type
  else endOfLine type.

Definition parseFileOrLabelOrDisassembly : OM Line :=
  '(type, _) ← getNextLex 256;
  match type with
  | odtt_lt =>
      '(type, text) ← getNextLex 1024;
      expect (isTok type odtt_string) ≫= fun _ =>
      getTok odtt_gt ≫= fun _ =>
      getTok odtt_colon ≫= fun _ =>
      '(type, _) ← getNextLex 256;
      endOfLine type ≫= fun _ => mret (line_t_label text)
  | odtt_lp =>
      getTok odtt_rp ≫= fun _ =>
      getTok odtt_colon ≫= fun _ =>
      '(type, _) ← getNextLex 256;
      endOfLine type ≫= fun _ => mret line_t_func
  | odtt_colon =>
      '(type, text) ← getNextLex 1024;
      expect (isTok type odtt_string) ≫= fun _ =>
      match isStringAHexNumber text with
      | None =>
          getTok odtt_colon ≫= fun _ =>
          lex ← getString;
          '(text, n) ←
            match isStringADecNumber lex with
            | Some n => mret (text, n)
            | None => getTok odtt_colon ≫= fun _ => n ← getDec; mret (lex, n)
            end;
          endOfPath false ≫= fun _ => mret (line_t_path text (u32 n))
      | Some n =>
          let len := length text in
          len ← (if (len =? 4)%nat then mret 16 else if (len =? 8)%nat then mret 32 else failed);
          '(type, text) ← getRestOfLine 1024;
          endOfLine type ≫= fun _ => mret (line_t_diss text len (u32 n))
      end
  | _ => failed
  end.

Definition parseFileLine : OM Z :=
  getTok odtt_colon ≫= fun _ =>
  n ← getDec;
  endOfPath true ≫= fun _ => mret (u32 n).

(** [SrcFileRoot::addFile]: the name, kept once. *)
Definition addFile (name : list ascii) : OM (list ascii) :=
  modify (fun s => if bool_decide (name ∈ od_srcFiles s) then s else set_srcFiles (name :: od_srcFiles s) s) ≫= fun _ =>
  mret name.

(** An assignment to an element of an array, which is undefined outside of it. *)
Definition update {A} (i : Z) (x : A) (l : list A) : option (list A) :=
  if (0 <=? i) && (i <? Z.of_nat (length l)) then Some (<[Z.to_nat i := x]> l) else None.

(** The arrays of a section.  For 2^31 bytes and more the loops that clear them do
    not run, as their bound is negative. *)
Definition allocArrays (sec : ElfSection) : option ElfSection :=
  let n := u32 (sc_size sec + 1) in
  let array A (old : option (list A)) (k : Z) (x : A) : option (list A) :=
    match old with
    | Some l => Some l
    | None => if n <? 2 ^ 31 then Some (replicate (Z.to_nat k) x) else None
    end in
  code ← array Z (sc_code sec) (n / 2 + 1) 0;
  diss ← array _ (sc_diss sec) (n / 2) None;
  line ← array Z (sc_line sec) (n / 2) 0;
  fName ← array _ (sc_fName sec) (n / 2) None;
  Some {| sc_name := sc_name sec; sc_startAddr := sc_startAddr sec; sc_endAddr := sc_endAddr sec;
          sc_vmaOffset := sc_vmaOffset sec; sc_flags := sc_flags sec; sc_size := sc_size sec;
          sc_offset := sc_offset sec; sc_align := sc_align sec; sc_code := Some code; sc_fName := Some fName;
          sc_line := Some line; sc_diss := Some diss |}.

(** A line of the disassembly put into the section: [length] is 16 or 32. *)
Definition putInstruction (addr value length : Z) (text : list ascii) (fName : option (list ascii)) (line : Z)
    (sec : ElfSection) : option ElfSection :=
  let index := i32 (u64 (addr - sc_startAddr sec) / 2) in
  code ← sc_code sec;
  code ← update index (u16 value) code;
  code ← (if length =? 32 then update (index + 1) (u16 (Z.shiftr value 16)) code else Some code);
  diss ← sc_diss sec; diss ← update index (Some text) diss;
  fNames ← sc_fName sec; fNames ← update index fName fNames;
  lines ← sc_line sec; lines ← update index line lines;
  Some {| sc_name := sc_name sec; sc_startAddr := sc_startAddr sec; sc_endAddr := sc_endAddr sec;
          sc_vmaOffset := sc_vmaOffset sec; sc_flags := sc_flags sec; sc_size := sc_size sec;
          sc_offset := sc_offset sec; sc_align := sc_align sec; sc_code := Some code; sc_fName := Some fNames;
          sc_line := Some lines; sc_diss := Some diss |}.

Definition onSection (i : nat) (f : ElfSection -> option ElfSection) : OM unit :=
  s ← get;
  sec ← lift_opt (od_store s !! i);
  sec ← lift_opt (f sec);
  modify (fun s => set_store (<[i := sec]> (od_store s)) s).

(** A line that begins with the word [lex]: the file and the line number that the
    next instructions are of.  [None]: the disassembly of the section is over. *)
Definition disassemblyLine (sp : nat) (eols : bool) (lex : list ascii) (fName : option (list ascii)) (line : Z)
    : OM (option (option (list ascii) * Z)) :=
  if strcmp (chars "...") lex then
    '(type, _) ← getNextLex 1024; expect (isTok type odtt_eol) ≫= fun _ => mret (Some (None, 0))
  else
    match isStringAHexNumber lex with
    | Some addr =>
        l ← parseFileOrLabelOrDisassembly;
        match l with
        | line_t_label _ => mret (Some (None, 0))
        | line_t_diss text length value =>
            onSection sp (putInstruction addr value length text fName line) ≫= fun _ => mret (Some (fName, line))
        | line_t_path text value =>
            lex2 ← fits 1024 (formatHex true 1 (u32 addr) ++ [":"%char] ++ text);
            f ← addFile lex2; mret (Some (Some f, value))
        | line_t_func => mret (Some (None, 0))
        end
    | None =>
        if eols && (strcasecmp (chars "disassembly") lex || strcasecmp (chars "symbol") lex) then mret None
        else
          match lex with
          | "/"%char :: _ | "\"%char :: _ =>
              line ← parseFileLine; f ← addFile lex; mret (Some (Some f, line))
          | _ =>
              l ← parseFileOrLabelOrDisassembly;
              match l with
              | line_t_label _ | line_t_diss _ _ _ => failed
              | line_t_path text value =>
                  fits 1024 (lex ++ [":"%char] ++ text) ≫= fun _ =>
                  f ← addFile text; mret (Some (Some f, value))
              | line_t_func => mret (Some (None, 0))
              end
          end
    end.

(** [<unknown>:number] *)
Definition unknownFile : OM unit :=
  '(type, lex) ← getNextLex 1024;
  expect (isTok type odtt_string) ≫= fun _ =>
  expect (strcmp (chars "unknown") lex) ≫= fun _ =>
  '(type, _) ← getNextLex 1024;
  expect (isTok type odtt_gt) ≫= fun _ =>
  '(type, _) ← getNextLex 1024;
  expect (isTok type odtt_colon || isTok type odtt_eol) ≫= fun _ =>
  scootToEol fuel type.

(** What is done with the first word of a line; [again] does the next lines. *)
Definition disassemblyTurn
    (again : objDumpTokenType -> list ascii -> option (list ascii) -> Z -> OM (objDumpTokenType * list ascii))
    (sp : nat) (eols : bool) (type : objDumpTokenType) (lex : list ascii) (fName : option (list ascii)) (line : Z)
    : OM (objDumpTokenType * list ascii) :=
  match type with
  | odtt_lt => unknownFile ≫= fun _ => again odtt_eol [] fName line
  | odtt_string =>
      next ← disassemblyLine sp eols lex fName line;
      match next with
      | None => mret (odtt_string, lex)
      | Some (fName, line) =>
          '(type, lex) ← getNextLex 1024;
          again type lex fName line
      end
  | _ => mret (type, lex)
  end.

Fixpoint disassemblyLines (n : nat) (sp : nat) (type : objDumpTokenType) (lex : list ascii)
    (fName : option (list ascii)) (line : Z) : OM (objDumpTokenType * list ascii) :=
  match n with
  | O => fun _ => NoFuel
  | S n =>
      '(eols, type, lex) ← skipEols fuel 1024 type lex false;
      disassemblyTurn (disassemblyLines n sp) sp eols type lex fName line
  end.

Definition textName (startAddr : Z) : list ascii := chars ".text.0x" ++ formatHex false 8 startAddr.

(** The word after the section's is read with [lex] of 1024 characters. *)
Definition parseDisassemblyList (startAddr : Z) : OM (objDumpTokenType * list ascii) :=
  let get1024 t := '(type, lex) ← getNextLex 1024; expect (isTok type t) ≫= fun _ => mret lex in
  lex ← get1024 odtt_string;
  expect (strcasecmp (chars "of") lex) ≫= fun _ =>
  lex ← get1024 odtt_string;
  expect (strcasecmp (chars "section") lex) ≫= fun _ =>
  lex ← get1024 odtt_string;
  s ← get;
  let lex := match od_eType s with
             | elfType_32_little | elfType_64_little => lex
             | elfType_32_binary | elfType_64_binary => textName startAddr
             end in
  sp ← sectionByName lex;
  sp ← orFail sp;
  onSection sp allocArrays ≫= fun _ =>
  get1024 odtt_colon ≫= fun _ =>
  get1024 odtt_eol ≫= fun _ =>
  disassemblyLines fuel sp odtt_eol [] None 0.

(** *** The symbols *)

(** A character by itself, at the end of the file an error. *)
Definition nextChar : OM ascii :=
  s ← get;
  (match pp_buffer (od_pipe s) with [] => fillPipeBuffer | _ => mret tt end) ≫= fun _ =>
  s ← get;
  c ← orFail (head (pp_buffer (od_pipe s)));
  dropChar ≫= fun _ => mret c.

(** What a flag character of each group stands for. *)
Definition flagGroups : list (list (ascii * Z)) :=
  [[(" ", 0); ("l", symLocal); ("g", symGlobal); ("u", symGlobal); ("!", Z.lor symLocal symGlobal)];
   [(" ", 0); ("w", symWeak)];
   [(" ", 0); ("C", symConstructor)];
   [(" ", 0); ("W", 0)];
   [(" ", 0); ("I", symIndirect); ("i", symIndirectFunc)];
   [(" ", 0); ("d", symDebug); ("D", symDynamic)];
   [(" ", 0); ("F", symFunc); ("f", symFile); ("O", symObj)]]%char.

Fixpoint flagsOf (groups : list (list (ascii * Z))) (cs : list ascii) (flags : Z) : option Z :=
  match groups, cs with
  | g :: groups, c :: cs =>
      p ← List.find (fun p => bool_decide (p.1 = c)) g;
      flagsOf groups cs (Z.lor flags p.2)
  | _, _ => Some flags
  end.

Fixpoint nextChars (n : nat) : OM (list ascii) :=
  match n with
  | O => mret []
  | S n => c ← nextChar; cs ← nextChars n; mret (c :: cs)
  end.

Definition ObjDump_parseFixedField : OM Z :=
  c ← nextChar;
  expect (bool_decide (c = " "%char)) ≫= fun _ =>
  cs ← nextChars 7;
  orFail (flagsOf flagGroups cs 0).

(** The section, the flags, the size and the name, if there is one. *)
Definition parseSymbol : OM (list ascii * Z * Z * option (list ascii)) :=
  flags ← ObjDump_parseFixedField;
  secName ← getString;
  size ← getHex;
  '(type, symName) ← getNextLex 256;
  if isTok type odtt_eol then mret (secName, flags, size, None)
  else
    expect (isTok type odtt_string) ≫= fun _ =>
    '(type, lex) ← getNextLex 256;
    match type with
    | odtt_string => getTok odtt_eol ≫= fun _ => mret (secName, flags, size, Some lex)
    | odtt_colon =>
        lex ← getString;
        name ← fits 256 (symName ++ [":"%char] ++ lex);
        getTok odtt_eol ≫= fun _ => mret (secName, flags, size, Some name)
    | odtt_eol => mret (secName, flags, size, Some symName)
    | _ => failed
    end.

(** A symbol put before the others; [file] is the name of the last file symbol. *)
Definition addSymbol (addr vmaOffset : Z) (secName : list ascii) (flags size : Z) (name : list ascii)
    (file : option (list ascii)) : OM (option (list ascii)) :=
  let '(file, srcFile) :=
    if negb (Z.land flags symFile =? 0) then (Some name, None)
    else if negb (flags =? symLocal) && negb (flags =? Z.lor symLocal symFunc) then (None, None)
    else (file, file) in
  sec ← sectionByName secName;
  s ← get;
  let offset := match sec with
                | Some i => match od_store s !! i with Some sec => sc_vmaOffset sec | None => vmaOffset end
                | None => vmaOffset
                end in
  modify (fun s => set_symLst ({|
    sy_name := name; sy_flags := flags; sy_section := sec; sy_vmaOffset := offset; sy_address := addr;
    sy_size := size; sy_srcFile := srcFile |} :: od_symLst s) s) ≫= fun _ =>
  mret file.

Fixpoint symbolLines (n : nat) (vmaOffset : Z) (file : option (list ascii)) : OM (objDumpTokenType * list ascii) :=
  match n with
  | O => fun _ => NoFuel
  | S n =>
      '(type, lex) ← nextNonEol;
      expect (isTok type odtt_string) ≫= fun _ =>
      if strcasecmp (chars "no") lex then getKeyword "symbols" ≫= fun _ => nextNonEol
      else
        match isStringAHexNumber lex with
        | None => mret (type, lex)
        | Some addr =>
            '(secName, flags, size, name) ← parseSymbol;
            file ←
              match name with
              | Some name => addSymbol addr vmaOffset secName flags size name file
              | None => mret (if negb (Z.land flags symFile =? 0) then None else file)
              end;
            symbolLines n vmaOffset file
        end
  end.

Definition parseSymbolTable (vmaOffset : Z) : OM (objDumpTokenType * list ascii) :=
  getKeyword "table" ≫= fun _ =>
  getTok odtt_colon ≫= fun _ =>
  getTok odtt_eol ≫= fun _ =>
  symbolLines fuel vmaOffset None.

(** *** The whole text *)

Fixpoint parts (n : nat) (type : objDumpTokenType) (lex : list ascii) (vmaOffset startAddr : Z)
    : OM objDumpTokenType :=
  match n with
  | O => fun _ => NoFuel
  | S n =>
      if negb (isTok type odtt_string) then mret type
      else
        '(type, lex) ←
          if strcasecmp (chars "disassembly") lex then parseDisassemblyList (u64 (vmaOffset + startAddr))
          else if strcasecmp (chars "symbol") lex then parseSymbolTable vmaOffset
          else failed;
        parts n type lex vmaOffset startAddr
  end.

(** The section of a binary file. *)
Definition blobSection (startAddr endAddr vmaOffset : Z) : ElfSection :=
  emptySection (textName startAddr) startAddr endAddr vmaOffset
    (Z.lor sect_CONTENTS (Z.lor sect_ALLOC (Z.lor sect_LOAD (Z.lor sect_READONLY sect_CODE))))
    (u32 (endAddr - startAddr)) 0 4.

Definition parseObjDump (vmaOffset startAddr endAddr : Z) : OM unit :=
  et ← parseElfName;
  match et with
  | elfType_64_little => modify (fun s => set_eType elfType_64_little (set_sp [] (set_archSize 64 s)))
  | elfType_32_little => modify (fun s => set_eType elfType_32_little (set_sp [] (set_archSize 32 s)))
  | _ =>
      s ← get;
      et ← (if od_archSize s =? 32 then mret elfType_32_binary
            else if od_archSize s =? 64 then mret elfType_64_binary else failed);
      modify (fun s => set_eType et (set_sp [] s)) ≫= fun _ =>
      expect (vmaOffset =? 0) ≫= fun _ =>
      newSection (blobSection startAddr endAddr vmaOffset)
  end ≫= fun _ =>
  '(type, lex) ← parseSectionList vmaOffset;
  '(_, type, lex) ← skipEols fuel 256 type lex false;
  type ← parts fuel type lex vmaOffset startAddr;
  modify (fun s => set_codeSectionLst (od_sp s ++ od_codeSectionLst s) s) ≫= fun _ =>
  expect (isTok type odtt_eof).
End parser.
