(* ===== verification/ObjDumpText.v ===== *)
(** * The text that [objdump] prints, apart from how it is cut

    The pieces in which the text comes through the pipe make no difference to what
    [parseObjDump] does: the parser is the same function of every pipe that holds
    the same text. *)

From stdpp Require Import strings.
From Stdlib Require Import Ascii.
From Stdlib Require String.
From S2P Require Import Prelude Nexus Memory ObjDump.

(** ** Pipes that hold a text *)

Definition piece (r : option (list ascii)) : Prop := exists c l, r = Some (c :: l).
Definition bytesOfRead (r : option (list ascii)) : list ascii := default [] r.

(** No read fails, and none is empty but at the end. *)
Definition holds (p : Pipe) (t : list ascii) : Prop :=
  Forall piece (pp_reads p) /\ pp_buffer p ++ concat (bytesOfRead <$> pp_reads p) = t.

Definition textPipe (t : list ascii) : Pipe := {| pp_buffer := t; pp_reads := [] |}.
Lemma holds_text t : holds (textPipe t) t.
Proof. split; [constructor|]. cbn. apply app_nil_r. Qed.

Lemma scanBuffer_app look a b acc :
  scanBuffer look (a ++ b) acc =
    let '(acc, rest, stopped) := scanBuffer look a acc in
    if stopped : bool then (acc, rest ++ b, true) else scanBuffer look b acc.
Proof.
  revert acc. induction a as [|c a IH]; intros acc; cbn [app scanBuffer]; [done|]. destruct (look c); [apply IH..|done].
Qed.

Lemma scanBuffer_rest look a acc acc' rest : scanBuffer look a acc = (acc', rest, false) -> rest = [].
Proof.
  revert acc. induction a as [|c a IH]; intros acc; cbn [scanBuffer]; [by intros [= ->]|]. by destruct (look c); eauto.
Qed.
Lemma scanBuffer_stop look a acc acc' rest : scanBuffer look a acc = (acc', rest, true) ->
  exists c l, rest = c :: l /\ look c = Halt.
Proof.
  revert acc. induction a as [|c a IH]; intros acc; cbn [scanBuffer]; [done|].
  destruct (look c) eqn:E; [eauto..|]. intros [= <- <-]. eauto.
Qed.

(** A scan of the pipe is a scan of the text. *)
Lemma scanReads_text look reads : Forall piece reads -> forall buffer acc,
  exists p, scanReads look reads buffer acc =
    (let '(acc, rest, stopped) := scanBuffer look (buffer ++ concat (bytesOfRead <$> reads)) acc in
     (acc, p, if stopped : bool then AtChar else AtEof)) /\
    holds p (let '(_, rest, _) := scanBuffer look (buffer ++ concat (bytesOfRead <$> reads)) acc in rest) /\
    (let '(_, _, stopped) := scanBuffer look (buffer ++ concat (bytesOfRead <$> reads)) acc in
     stopped = true -> pp_buffer p <> []).
Proof.
  induction 1 as [|r reads (c & l & ->) Hr IH]; intros buffer acc; cbn [scanReads].
  - cbn [fmap list_fmap concat]. rewrite app_nil_r.
    destruct (scanBuffer look buffer acc) as [[acc' rest] [|]] eqn:E.
    + eexists. split; [done|]. split; [split; [constructor|apply app_nil_r]|].
      intros _. by apply scanBuffer_stop in E as (c & l & -> & _).
    + eexists. split; [done|]. apply scanBuffer_rest in E as ->. split; [apply holds_text|done].
  - cbn [fmap list_fmap concat]. rewrite scanBuffer_app. change (bytesOfRead (Some (c :: l))) with (c :: l).
    destruct (scanBuffer look buffer acc) as [[acc' rest] [|]] eqn:E.
    + eexists. split; [done|]. split; [split; [|done]; constructor; [by exists c, l|done]|].
      intros _. by apply scanBuffer_stop in E as (d & b & -> & _).
    + apply IH.
Qed.

(** ** Programs that see only the text *)

Definition alike (s1 s2 : ObjDump) : Prop :=
  (exists t, holds (od_pipe s1) t /\ holds (od_pipe s2) t) /\ s2 = set_pipe (od_pipe s2) s1.

Definition agree {A} (r1 r2 : Res ObjDump DQErr A) : Prop :=
  match r1, r2 with
  | Ok s1 a, Ok s2 b => a = b /\ alike s1 s2
  | Err s1 e, Err s2 f => e = f /\ alike s1 s2
  | Undef, Undef | NoFuel, NoFuel => True
  | _, _ => False
  end.

Definition blind {A} (m : M ObjDump DQErr A) : Prop := forall s1 s2, alike s1 s2 -> agree (m s1) (m s2).

Lemma alike_pipe s1 s2 p q t : alike s1 s2 -> holds p t -> holds q t -> alike (set_pipe p s1) (set_pipe q s2).
Proof. intros [_ E] Hp Hq. split; [by exists t|]. by rewrite E. Qed.

Lemma blind_bind {A B} (m : M ObjDump DQErr A) (k : A -> M ObjDump DQErr B) :
  blind m -> (forall a, blind (k a)) -> blind (m ≫= k).
Proof.
  intros Hm Hk s1 s2 H. specialize (Hm s1 s2 H). unfold mbind, M_bind.
  destruct (m s1), (m s2); cbn in Hm; try done. destruct Hm as [-> Hs]. by apply Hk.
Qed.
Lemma blind_ret {A} (a : A) : blind (mret a).
Proof. by intros s1 s2 H. Qed.
Lemma blind_throw {A} e : blind (throw (A := A) e).
Proof. by intros s1 s2 H. Qed.
Lemma blind_undef {A} : blind (undef (A := A)).
Proof. by intros s1 s2 H. Qed.
Lemma blind_nofuel {A} : blind (fun _ => NoFuel : Res ObjDump DQErr A).
Proof. by intros s1 s2 H. Qed.
Lemma blind_lift {A} (o : option A) : blind (lift_opt o).
Proof. intros s1 s2 H. by destruct o. Qed.
Lemma blind_modify f : (forall p s, f (set_pipe p s) = set_pipe p (f s)) -> blind (modify f).
Proof.
  intros Hf s1 s2 [[t [H1 H2]] E]. split; [done|]. rewrite E, Hf. split; [exists t|done].
  assert (od_pipe (f s1) = od_pipe s1) as ->; [|done].
  replace s1 with (set_pipe (od_pipe s1) s1) at 1 by (by destruct s1). by rewrite Hf.
Qed.
Lemma blind_get {A} (k : ObjDump -> M ObjDump DQErr A) :
  (forall p s, k (set_pipe p s) = k s) -> (forall s, blind (k s)) -> blind (get ≫= k).
Proof.
  intros Hk Hb s1 s2 H. rewrite !bind_get. destruct H as [Hp E]. rewrite E at 1. rewrite Hk.
  by apply Hb.
Qed.

Create HintDb blind.
#[export] Hint Resolve blind_ret blind_throw blind_undef blind_nofuel blind_lift : blind.

Ltac look :=
  repeat first
    [ progress intros
    | solve [eauto with blind]
    | match goal with
      | |- blind (match ?x with _ => _ end) => destruct x
      | |- blind (mbind _ get) => apply blind_get; [by intros ? []|]
      | |- blind (mbind _ _) => apply blind_bind
      end ].

Lemma blind_scan look : blind (scan look).
Proof.
  intros s1 s2 H. unfold scan. destruct (H) as [[t [[H1 E1] [H2 E2]]] _].
  destruct (scanReads_text look _ H1 (pp_buffer (od_pipe s1)) []) as (p & -> & Hp & _).
  destruct (scanReads_text look _ H2 (pp_buffer (od_pipe s2)) []) as (q & -> & Hq & _).
  rewrite E1 in Hp |- *. rewrite E2 in Hq |- *. destruct (scanBuffer look t []) as [[acc rest] stopped].
  split; [done|]. by eapply alike_pipe.
Qed.

Lemma blind_stored cap l : blind (stored cap l).
Proof. unfold stored. look. Qed.
#[export] Hint Resolve blind_scan blind_stored : blind.

(** After a scan that stops at a character the buffers begin with it. *)
Definition headed (c : ascii) (s : ObjDump) : Prop := exists b, pp_buffer (od_pipe s) = c :: b.

Lemma blind_scan_head {A} look (k : list ascii -> ScanEnd -> M ObjDump DQErr A) :
  (forall acc, blind (k acc AtEof)) ->
  (forall acc c s1 s2, headed c s1 -> headed c s2 -> alike s1 s2 -> agree (k acc AtChar s1) (k acc AtChar s2)) ->
  blind ('(acc, e) ← scan look; k acc e).
Proof.
  intros He Hc s1 s2 H. unfold mbind, M_bind, scan. destruct (H) as [[t [[H1 E1] [H2 E2]]] _].
  destruct (scanReads_text look _ H1 (pp_buffer (od_pipe s1)) []) as (p & -> & Hp & Np).
  destruct (scanReads_text look _ H2 (pp_buffer (od_pipe s2)) []) as (q & -> & Hq & Nq).
  rewrite E1 in Hp, Np |- *. rewrite E2 in Hq, Nq |- *. destruct (scanBuffer look t []) as [[acc rest] stopped].
  pose proof (alike_pipe _ _ _ _ _ H Hp Hq) as Ha. destruct stopped; [|by apply He].
  destruct (pp_buffer p) as [|c b] eqn:Ep; [by destruct (Np eq_refl)|].
  destruct (pp_buffer q) as [|c' b'] eqn:Eq; [by destruct (Nq eq_refl)|].
  destruct Hp as [_ Hp], Hq as [_ Hq]. rewrite Ep in Hp. rewrite Eq in Hq. rewrite <-Hq in Hp. cbn in Hp.
  injection Hp as -> _. apply (Hc acc c'); [by exists b|by exists b'|done].
Qed.

Lemma peekChar_headed c s : headed c s -> peekChar s = Ok s c.
Proof. intros [b E]. unfold peekChar. rewrite bind_get. by rewrite E. Qed.

Lemma holds_tail c b reads t : holds {| pp_buffer := c :: b; pp_reads := reads |} t ->
  exists t', t = c :: t' /\ holds {| pp_buffer := b; pp_reads := reads |} t'.
Proof. intros [H <-]. eexists. split; [done|]. by split. Qed.

Lemma alike_drop c s1 s2 : headed c s1 -> headed c s2 -> alike s1 s2 -> agree (dropChar s1) (dropChar s2).
Proof.
  intros [b E] [b' E'] H. destruct (H) as [[t [H1 H2]] _]. cbn. split; [done|].
  destruct (od_pipe s1) as [p1 r1], (od_pipe s2) as [p2 r2]. cbn in *. subst.
  apply holds_tail in H1 as (t1 & -> & H1). apply holds_tail in H2 as (t2 & [= <-] & H2).
  by eapply alike_pipe.
Qed.

Lemma agree_bind {A B} (r1 r2 : Res ObjDump DQErr A) (k : A -> M ObjDump DQErr B) : agree r1 r2 ->
  (forall a, blind (k a)) ->
  agree (match r1 with Ok s a => k a s | Err s e => Err s e | Undef => Undef | NoFuel => NoFuel end)
        (match r2 with Ok s a => k a s | Err s e => Err s e | Undef => Undef | NoFuel => NoFuel end).
Proof. intros H Hk. destruct r1, r2; try done. destruct H as [-> H]. by apply Hk. Qed.

Lemma blind_getNextLex cap : blind (getNextLex cap).
Proof.
  apply blind_scan_head; [look|]. intros _ c s1 s2 H1 H2 Ha.
  rewrite (bind_ok _ _ _ _ _ (peekChar_headed _ _ H1)), (bind_ok _ _ _ _ _ (peekChar_headed _ _ H2)).
  destruct (single c); [|refine (blind_bind _ _ (blind_scan _) _ _ _ Ha); look].
  apply agree_bind; [by eapply alike_drop|look].
Qed.
Lemma blind_getRestOfLine cap : blind (getRestOfLine cap).
Proof.
  apply blind_scan_head; [look|]. intros _ c s1 s2 H1 H2 Ha.
  rewrite (bind_ok _ _ _ _ _ (peekChar_headed _ _ H1)), (bind_ok _ _ _ _ _ (peekChar_headed _ _ H2)).
  destruct (bool_decide _); [|refine (blind_bind _ _ (blind_scan _) _ _ _ Ha); look].
  apply agree_bind; [by eapply alike_drop|look].
Qed.

(** Where the buffer is filled before a character is looked at. *)
Lemma filled s1 s2 : alike s1 s2 ->
  let f s := match pp_buffer (od_pipe s) with [] => fillPipeBuffer s | _ => Ok s tt end in
  exists s1' s2', f s1 = Ok s1' tt /\ f s2 = Ok s2' tt /\ alike s1' s2' /\
    head (pp_buffer (od_pipe s1')) = head (pp_buffer (od_pipe s2')).
Proof.
  intros H. destruct (H) as [[t [H1 H2]] _].
  assert (forall s, holds (od_pipe s) t -> exists p, match pp_buffer (od_pipe s) with [] => fillPipeBuffer s | _ => Ok s tt end
    = Ok (set_pipe p s) tt /\ holds p t /\ head (pp_buffer p) = head t) as Hf.
  { intros s [Hr E]. destruct (od_pipe s) as [[|c b] reads] eqn:Ep; cbn in Hr, E |- *.
    - unfold fillPipeBuffer. rewrite Ep. destruct Hr as [|r reads (c & l & ->) Hr]; cbn in E |- *; subst t.
      + eexists. split; [done|]. by split.
      + eexists. split; [done|]. by split.
    - exists (od_pipe s). rewrite Ep. split; [|by subst t]. f_equal. rewrite <-Ep. by destruct s. }
  destruct (Hf s1 H1) as (p & E1 & Hp & Ht1), (Hf s2 H2) as (q & E2 & Hq & Ht2).
  exists (set_pipe p s1), (set_pipe q s2). cbn zeta. split_and!; [done..|by eapply alike_pipe|]. cbn. congruence.
Qed.

Lemma blind_isWSLookahead : blind isWSLookahead.
Proof.
  intros s1 s2 H. destruct (filled s1 s2 H) as (s1' & s2' & E1 & E2 & Ha & Hh). cbn in E1, E2.
  assert (forall s s', match pp_buffer (od_pipe s) with [] => fillPipeBuffer s | _ => Ok s tt end = Ok s' tt ->
    isWSLookahead s = Ok s' (match head (pp_buffer (od_pipe s')) with Some " "%char | Some "009"%char => true | _ => false end)) as Hw.
  { intros s s' E. unfold isWSLookahead. destruct (pp_buffer (od_pipe s)) eqn:Eb.
    - rewrite E. by destruct (pp_buffer (od_pipe s')).
    - injection E as <-. by rewrite Eb. }
  rewrite (Hw _ _ E1), (Hw _ _ E2), Hh. by split.
Qed.

Lemma blind_nextChar : blind nextChar.
Proof.
  intros s1 s2 H. destruct (filled s1 s2 H) as (s1' & s2' & E1 & E2 & Ha & Hh). cbn in E1, E2.
  assert (forall s s', match pp_buffer (od_pipe s) with [] => fillPipeBuffer s | _ => Ok s tt end = Ok s' tt ->
    nextChar s = (c ← orFail (list.head (pp_buffer (od_pipe s'))); dropChar ≫= fun _ => mret c) s') as Hn.
  { intros s s' E. unfold nextChar. rewrite bind_get.
    rewrite (bind_ok _ _ s s' tt) by (by destruct (pp_buffer (od_pipe s))). done. }
  rewrite (Hn _ _ E1), (Hn _ _ E2).
  destruct (pp_buffer (od_pipe s1')) as [|c b] eqn:Eb, (pp_buffer (od_pipe s2')) as [|c' b'] eqn:Eb'; try done.
  cbn in Hh. injection Hh as <-. cbn [list.head orFail]. rewrite !ret_bind.
  apply agree_bind; [by eapply alike_drop; [exists b|exists b'|]|look].
Qed.
#[export] Hint Resolve blind_getNextLex blind_getRestOfLine blind_isWSLookahead blind_nextChar : blind.

(** ** The parser *)

Ltac field := solve [apply blind_modify; intros ? []; cbn; repeat case_match; done].
#[export] Hint Extern 2 (blind (modify _)) => field : blind.

Lemma blind_expect b : blind (expect b).
Proof. unfold expect, failed. look. Qed.
Lemma blind_failed {A} : blind (failed (A := A)).
Proof. apply blind_throw. Qed.
Lemma blind_orFail {A} (o : option A) : blind (orFail o).
Proof. destruct o; [apply blind_ret|apply blind_throw]. Qed.
#[export] Hint Resolve blind_expect blind_failed blind_orFail : blind.

Lemma blind_getTok t : blind (getTok t).
Proof. unfold getTok. look. Qed.
Lemma blind_getString : blind getString.
Proof. unfold getString. look. Qed.
#[export] Hint Resolve blind_getTok blind_getString : blind.
Lemma blind_getKeyword w : blind (getKeyword w).
Proof. unfold getKeyword. look. Qed.
Lemma blind_getHex : blind getHex.
Proof. unfold getHex. look. Qed.
Lemma blind_getDec : blind getDec.
Proof. unfold getDec. look. Qed.
Lemma blind_fits cap l : blind (fits cap l).
Proof. unfold fits. look. Qed.
#[export] Hint Resolve blind_getKeyword blind_getHex blind_getDec blind_fits : blind.

Lemma blind_skipEols n cap : forall type lex ran, blind (skipEols n cap type lex ran).
Proof. induction n; intros; cbn [skipEols]; look. Qed.
Lemma blind_scootToEol n : forall type, blind (scootToEol n type).
Proof. induction n; intros; cbn [scootToEol]; look. Qed.
#[export] Hint Resolve blind_skipEols blind_scootToEol : blind.

Lemma blind_nextNonEol fuel : blind (nextNonEol fuel).
Proof. unfold nextNonEol. look. Qed.
#[export] Hint Resolve blind_nextNonEol : blind.
Lemma blind_parseElfName fuel : blind (parseElfName fuel).
Proof. unfold parseElfName. look. Qed.
Lemma blind_parseFlags n : forall flags, blind (parseFlags n flags).
Proof. induction n; intros; cbn [parseFlags]; look. Qed.
#[export] Hint Resolve blind_parseElfName blind_parseFlags : blind.
Lemma blind_parseSection fuel vmaOffset : blind (parseSection fuel vmaOffset).
Proof. unfold parseSection. look. Qed.
Lemma blind_newSection sec : blind (newSection sec).
Proof. apply blind_modify. by intros p []. Qed.
#[export] Hint Resolve blind_parseSection blind_newSection : blind.
Lemma blind_sectionLines fuel n vmaOffset : blind (sectionLines fuel n vmaOffset).
Proof. induction n; intros; cbn [sectionLines]; look. Qed.
Lemma blind_getKeywords ws : blind (getKeywords ws).
Proof. induction ws; cbn [getKeywords]; look. Qed.
#[export] Hint Resolve blind_sectionLines blind_getKeywords : blind.
Lemma blind_parseSectionList fuel vmaOffset : blind (parseSectionList fuel vmaOffset).
Proof. unfold parseSectionList. look. Qed.
Lemma blind_sectionByName name : blind (sectionByName name).
Proof. unfold sectionByName. look. Qed.
#[export] Hint Resolve blind_parseSectionList blind_sectionByName : blind.

Lemma blind_endOfLine type : blind (endOfLine type).
Proof. apply blind_expect. Qed.
#[export] Hint Resolve blind_endOfLine : blind.
Lemma blind_endOfPath strict : blind (endOfPath strict).
Proof. unfold endOfPath. look. Qed.
#[export] Hint Resolve blind_endOfPath : blind.
Lemma blind_parseFileOrLabelOrDisassembly : blind parseFileOrLabelOrDisassembly.
Proof. unfold parseFileOrLabelOrDisassembly. look. Qed.
Lemma blind_parseFileLine : blind parseFileLine.
Proof. unfold parseFileLine. look. Qed.
Lemma blind_addFile name : blind (addFile name).
Proof. unfold addFile. look. Qed.
Lemma blind_onSection i f : blind (onSection i f).
Proof. unfold onSection. look. Qed.
Lemma blind_unknownFile fuel : blind (unknownFile fuel).
Proof. unfold unknownFile. look. Qed.
#[export] Hint Resolve blind_parseFileOrLabelOrDisassembly blind_parseFileLine blind_addFile blind_onSection
  blind_unknownFile : blind.
Lemma blind_disassemblyLine sp eols lex fName line : blind (disassemblyLine sp eols lex fName line).
Proof. unfold disassemblyLine. look. Qed.
#[export] Hint Resolve blind_disassemblyLine : blind.
Lemma blind_disassemblyLines fuel n sp : forall type lex fName line,
  blind (disassemblyLines fuel n sp type lex fName line).
Proof. induction n; intros; cbn [disassemblyLines]; unfold disassemblyTurn; look. Qed.
#[export] Hint Resolve blind_disassemblyLines : blind.
Lemma blind_parseDisassemblyList fuel startAddr : blind (parseDisassemblyList fuel startAddr).
Proof. unfold parseDisassemblyList. look. Qed.

Lemma blind_nextChars n : blind (nextChars n).
Proof. induction n; cbn [nextChars]; look. Qed.
#[export] Hint Resolve blind_parseDisassemblyList blind_nextChars : blind.
Lemma blind_parseFixedField : blind ObjDump_parseFixedField.
Proof. unfold ObjDump_parseFixedField. look. Qed.
#[export] Hint Resolve blind_parseFixedField : blind.
Lemma blind_parseSymbol : blind parseSymbol.
Proof. unfold parseSymbol. look. Qed.
Lemma blind_addSymbol addr vmaOffset secName flags size name file :
  blind (addSymbol addr vmaOffset secName flags size name file).
Proof. unfold addSymbol. look. Qed.
#[export] Hint Resolve blind_parseSymbol blind_addSymbol : blind.
Lemma blind_symbolLines fuel n vmaOffset : forall file, blind (symbolLines fuel n vmaOffset file).
Proof. induction n; intros; cbn [symbolLines]; look. Qed.
#[export] Hint Resolve blind_symbolLines : blind.
Lemma blind_parseSymbolTable fuel vmaOffset : blind (parseSymbolTable fuel vmaOffset).
Proof. unfold parseSymbolTable. look. Qed.
#[export] Hint Resolve blind_parseSymbolTable : blind.
Lemma blind_parts fuel n : forall type lex vmaOffset startAddr, blind (parts fuel n type lex vmaOffset startAddr).
Proof. induction n; intros; cbn [parts]; look. Qed.
#[export] Hint Resolve blind_parts : blind.

Lemma blind_parseObjDump fuel vmaOffset startAddr endAddr : blind (parseObjDump fuel vmaOffset startAddr endAddr).
Proof. unfold parseObjDump. look. Qed.

(** The parser cannot tell two pipes that hold the same text from each other. *)
Lemma parse_pieces fuel vmaOffset startAddr endAddr p q t s : holds p t -> holds q t ->
  agree (parseObjDump fuel vmaOffset startAddr endAddr (set_pipe p s))
        (parseObjDump fuel vmaOffset startAddr endAddr (set_pipe q s)).
Proof. intros Hp Hq. apply blind_parseObjDump. split; [by exists t|done]. Qed.
