(* ===== verification/ObjDumpPrint.v ===== *)
(** * Printing an object dump

    The layout in which [objdump -t -d -h -l] prints an ELF file, from the file format
    line to the instructions, as functions from what is printed to text; and what
    the lexer of [ObjDump] reads of it.  Each function puts its text before [rest]. *)

From stdpp Require Import strings.
From Stdlib Require Import Ascii.
From Stdlib Require String.
From S2P Require Import Prelude Nexus Memory ObjDump ObjDumpText.

Definition NL : ascii := "010"%char.
Definition sp (n : nat) : list ascii := replicate n " "%char.
Definition tab : list ascii := ["009"%char].

(** A word after white space, and a character. *)
Definition wd (ws w rest : list ascii) : list ascii := ws ++ w ++ rest.
Definition sy (c : ascii) (rest : list ascii) : list ascii := c :: rest.

(** ** What is printed *)

Fixpoint decDigits (n : nat) (x : Z) : list ascii :=
  match n with
  | O => []
  | S n => decDigits n (x / 10) ++ [digitChar false (x mod 10)]
  end.
Definition hex (k : nat) (x : Z) : list ascii := hexDigits k false x.

(** A line of the list of sections, and the line of its flags. *)
Record DumpSection := {
  ds_index : Z;
  ds_name : list ascii;
  ds_pad : nat;
  ds_size : Z;
  ds_vma : Z;
  ds_lma : Z;
  ds_off : Z;
  ds_align : String.string * Z;
  ds_flags : list (String.string * Z);
}.

(** Addresses are of [w] digits. *)
Fixpoint flagsText (ws : list ascii) (fs : list (String.string * Z)) (rest : list ascii) : list ascii :=
  match fs with
  | [] => rest
  | [f] => wd ws (chars f.1) (sy NL rest)
  | f :: fs => wd ws (chars f.1) (sy "," (flagsText (sp 1) fs rest))
  end.
Definition sectionText (w : nat) (d : DumpSection) (rest : list ascii) : list ascii :=
  wd (sp 2) (decDigits 2 (ds_index d)) (wd (sp 1) (ds_name d) (wd (sp (S (ds_pad d))) (hex 8 (ds_size d))
    (wd (sp 2) (hex w (ds_vma d)) (wd (sp 2) (hex w (ds_lma d)) (wd (sp 2) (hex 8 (ds_off d))
      (wd (sp 2) (chars (ds_align d).1) (sy NL (flagsText (sp 18) (ds_flags d) rest)))))))).

(** A line of the symbol table, with its seven flag characters. *)
Record DumpSymbol := {
  dy_address : Z;
  dy_flags : list ascii;
  dy_section : list ascii;
  dy_size : Z;
  dy_name : list ascii;
}.
Definition symbolText (w : nat) (d : DumpSymbol) (rest : list ascii) : list ascii :=
  wd [] (hex w (dy_address d)) (" "%char :: dy_flags d ++ wd (sp 1) (dy_section d)
    (wd tab (hex w (dy_size d)) (wd (sp 1) (dy_name d) (sy NL rest)))).

(** The lines of a disassembly: an address with its label after an empty line, the name of a
    function, a source line, an instruction of 16 or 32 bits with its text, and dots. *)
Inductive DumpLine :=
| DL_label (address : Z) (name : list ascii)
| DL_func (name : list ascii)
| DL_source (path : list ascii) (digits : nat) (line : Z)
| DL_inst (pad digits : nat) (address : Z) (long : bool) (value : Z) (gap : nat) (text : list ascii)
| DL_dots.

Definition lineText (w : nat) (l : DumpLine) (rest : list ascii) : list ascii :=
  match l with
  | DL_label a name => sy NL (wd [] (hex w a) (sp 1 ++ sy "<" (wd [] name (sy ">" (sy ":" (sy NL rest))))))
  | DL_func name => wd [] name (sy "(" (sy ")" (sy ":" (sy NL rest))))
  | DL_source path k n => wd [] path (sy ":" (wd [] (decDigits k n) (sy NL rest)))
  | DL_inst pad k a long v gap text =>
      wd (sp pad) (hex k a) (sy ":" (wd tab (hex (if long then 8 else 4) v) (sp gap ++ tab ++ text ++ sy NL rest)))
  | DL_dots => wd tab (chars "...") (sy NL rest)
  end.

Record DumpBlock := { db_name : list ascii; db_lines : list DumpLine }.
Definition blockText (w : nat) (b : DumpBlock) (rest : list ascii) : list ascii :=
  sy NL (wd [] (chars "Disassembly") (wd (sp 1) (chars "of") (wd (sp 1) (chars "section")
    (wd (sp 1) (db_name b) (sy ":" (sy NL (foldr (lineText w) rest (db_lines b)))))))).

Record Dump := {
  d_64 : bool;
  d_file : list ascii;
  d_sections : list DumpSection;
  d_symbols : list DumpSymbol;
  d_blocks : list DumpBlock;
}.
Definition width (d : Dump) : nat := if d_64 d then 16 else 8.

Definition columns (rest : list ascii) : list ascii :=
  wd [] (chars "Idx") (wd (sp 1) (chars "Name") (wd (sp 10) (chars "Size") (wd (sp 6) (chars "VMA")
    (wd (sp 15) (chars "LMA") (wd (sp 15) (chars "File") (wd (sp 1) (chars "off") (wd (sp 2) (chars "Algn")
      (sy NL rest)))))))).

Definition symbolsText (d : Dump) (rest : list ascii) : list ascii :=
  match d_symbols d with
  | [] => wd [] (chars "no") (wd (sp 1) (chars "symbols") (sy NL rest))
  | l => foldr (symbolText (width d)) rest l
  end.

Definition dumpText (d : Dump) : list ascii :=
  sy NL (wd [] (d_file d) (sy ":" (wd (sp 5) (chars "file") (wd (sp 1) (chars "format")
    (wd (sp 1) (chars (if d_64 d then "elf64-littleriscv" else "elf32-littleriscv")) (sy NL (sy NL
      (wd [] (chars "Sections") (sy ":" (sy NL (columns
        (foldr (sectionText (width d))
          (wd [] (chars "SYMBOL") (wd (sp 1) (chars "TABLE") (sy ":" (sy NL
            (symbolsText d (sy NL (foldr (blockText (width d)) [] (d_blocks d)))))))) (d_sections d))))))))))))).

(** ** What the lexer reads *)

Definition at_ (t : list ascii) (s : ObjDump) : ObjDump := set_pipe (textPipe t) s.

(** [m] reads the text [t] down to [t'] and takes [s] to [s']. *)
Definition goes {A} (m : M ObjDump DQErr A) (t : list ascii) (s : ObjDump) (a : A) (t' : list ascii) (s' : ObjDump) : Prop :=
  m (at_ t s) = Ok (at_ t' s') a.

Lemma goes_bind {A B} (m : M ObjDump DQErr A) (k : A -> M ObjDump DQErr B) t s a t1 s1 b t2 s2 :
  goes m t s a t1 s1 -> goes (k a) t1 s1 b t2 s2 -> goes (m ≫= k) t s b t2 s2.
Proof. unfold goes. intros E. by rewrite (bind_ok _ _ _ _ _ E). Qed.
Lemma goes_ret {A} (a : A) t s : goes (mret a) t s a t s.
Proof. done. Qed.

Definition blank (ws : list ascii) : Prop := Forall (fun c => lookWS c = Skip) ws.
Definition wordChar (c : ascii) : bool :=
  match lookString c with Take => negb (bool_decide (c = "000"%char)) | _ => false end.
Definition word (w : list ascii) : bool := match w with [] => false | _ => forallb wordChar w end.
(** The next character ends a word. *)
Definition delim (t : list ascii) : Prop := match t with [] => True | c :: _ => lookString c = Halt end.

Lemma at_pipe t s : od_pipe (at_ t s) = textPipe t.
Proof. done. Qed.
Lemma set_at p t s : set_pipe p (at_ t s) = set_pipe p s.
Proof. done. Qed.

Lemma scan_at look t s acc rest stopped : scanBuffer look t [] = (acc, rest, stopped) ->
  scan look (at_ t s) = Ok (at_ rest s) (acc, if stopped : bool then AtChar else AtEof).
Proof.
  intros E. unfold scan. rewrite at_pipe. cbn [textPipe pp_reads pp_buffer scanReads]. rewrite E.
  destruct stopped; [done|]. apply scanBuffer_rest in E as ->. done.
Qed.

Lemma scan_skip look ws t acc : Forall (fun c => look c = Skip) ws ->
  scanBuffer look (ws ++ t) acc = scanBuffer look t acc.
Proof. induction 1 as [|c ws Hc Hw IH]; [done|]. cbn [app scanBuffer]. by rewrite Hc. Qed.
Lemma scan_take look w t : Forall (fun c => look c = Take) w ->
  match t with [] => True | c :: _ => look c = Halt end -> forall acc,
  scanBuffer look (w ++ t) acc = (acc ++ w, t, match t with [] => false | _ => true end).
Proof.
  intros Hw Ht. induction Hw as [|c w Hc Hw IH]; intros acc; cbn [app].
  - rewrite app_nil_r. destruct t as [|c t]; [done|]. cbn [scanBuffer]. by rewrite Ht.
  - cbn [scanBuffer]. rewrite Hc, IH. by rewrite <-app_assoc.
Qed.

Lemma wordChar_take c : wordChar c = true -> lookString c = Take /\ c <> "000"%char.
Proof.
  unfold wordChar. destruct (lookString c); try done. intros H%negb_true_iff%bool_decide_eq_false. done.
Qed.
Lemma wordChar_halts c : lookString c = Take -> lookWS c = Halt /\ single c = None.
Proof. destruct c as [[] [] [] [] [] [] [] []]; done. Qed.

Lemma word_chars w : word w = true -> Forall (fun c => lookString c = Take) w /\ cstring w = w /\ w <> [].
Proof.
  intros H. assert (w <> []) as Hn by (by destruct w). assert (forallb wordChar w = true) as Hf by (by destruct w).
  clear H. split_and!; [| |done]; clear Hn; induction w as [|c w IH]; [constructor| |done|]; cbn in Hf;
    apply andb_true_iff in Hf as [[Hc Hz]%wordChar_take Hf].
  - constructor; auto.
  - cbn [cstring]. rewrite (IH Hf). by destruct c as [[] [] [] [] [] [] [] []].
Qed.

Lemma lex_wd cap ws w rest s : blank ws -> word w = true -> delim rest -> (length w < cap)%nat ->
  goes (getNextLex cap) (wd ws w rest) s (odtt_string, w) rest s.
Proof.
  intros Hws Hw Hr Hc. destruct (word_chars w Hw) as (Ht & Hz & Hn). unfold goes, getNextLex, wd.
  destruct w as [|c w]; [done|].
  destruct (wordChar_halts c) as [H1 H2]; [by apply Forall_inv in Ht|].
  rewrite (bind_ok _ _ _ (at_ ((c :: w) ++ rest) s) ([], AtChar));
    [|apply (scan_at lookWS _ s _ _ true); rewrite scan_skip by done; cbn [app scanBuffer]; by rewrite H1].
  cbv beta iota. erewrite bind_ok by (apply (peekChar_headed c); by exists (w ++ rest)). rewrite H2.
  rewrite (bind_ok _ _ _ _ _ (scan_at lookString _ s _ _ _ (scan_take lookString (c :: w) rest Ht Hr []))).
  cbn [app]. cbv beta iota. unfold stored. destruct (Nat.ltb_spec (length (c :: w)) cap); [|lia].
  rewrite ret_bind, Hz. by destruct rest.
Qed.

Lemma lex_sy cap ws c t rest s : blank ws -> single c = Some t ->
  goes (getNextLex cap) (ws ++ sy c rest) s (t, []) rest s.
Proof.
  intros Hws Hc. unfold goes, getNextLex, sy. assert (lookWS c = Halt) as H1.
  { revert Hc. by destruct c as [[] [] [] [] [] [] [] []]. }
  rewrite (bind_ok _ _ _ (at_ (c :: rest) s) ([], AtChar));
    [|apply (scan_at lookWS _ s _ _ true); rewrite scan_skip by done; cbn [scanBuffer]; by rewrite H1].
  cbv beta iota. erewrite bind_ok by (apply (peekChar_headed c); by exists rest). by rewrite Hc.
Qed.

Lemma lex_eof cap s : goes (getNextLex cap) [] s (odtt_eof, []) [] s.
Proof. done. Qed.

(** The rest of a line, up to its end. *)
Definition lineChar (c : ascii) : bool :=
  match lookLine c with Take => negb (bool_decide (c = "000"%char)) | _ => false end.
Definition restOfLine (l : list ascii) : bool :=
  match l with c :: _ => (match lookWS c with Halt => true | _ => false end) && forallb lineChar l | [] => false end.

Lemma lineChar_take c : lineChar c = true -> lookLine c = Take /\ c <> "000"%char.
Proof.
  unfold lineChar. destruct (lookLine c); try done. intros H%negb_true_iff%bool_decide_eq_false. done.
Qed.
Lemma line_chars l : forallb lineChar l = true -> Forall (fun c => lookLine c = Take) l /\ cstring l = l.
Proof.
  induction l as [|c l IH]; cbn [forallb]; intros H; [by split|].
  apply andb_true_iff in H as [[Hc Hz]%lineChar_take [H1 H2]%IH]. split; [by constructor|].
  cbn [cstring]. rewrite H2. by destruct c as [[] [] [] [] [] [] [] []].
Qed.

Lemma lex_line cap ws l rest s : blank ws -> restOfLine l = true -> (length l < cap)%nat ->
  goes (getRestOfLine cap) (ws ++ l ++ sy NL rest) s (odtt_eol, l) (sy NL rest) s.
Proof.
  intros Hws Hl Hc. destruct l as [|c l]; [done|]. cbn [restOfLine] in Hl. apply andb_true_iff in Hl as [Hh Hf].
  destruct (lookWS c) eqn:Hw; try done. destruct (line_chars _ Hf) as [Ht Hz].
  unfold goes, getRestOfLine.
  rewrite (bind_ok _ _ _ (at_ ((c :: l) ++ sy NL rest) s) ([], AtChar));
    [|apply (scan_at lookWS _ s _ _ true); rewrite scan_skip by done; cbn [app scanBuffer]; by rewrite Hw].
  cbv beta iota. erewrite bind_ok by (apply (peekChar_headed c); by exists (l ++ sy NL rest)).
  assert (c <> NL) as Hn by (intros ->; by apply Forall_inv in Ht). rewrite bool_decide_false by done.
  rewrite (bind_ok _ _ _ _ _ (scan_at lookLine _ s _ _ _ (scan_take lookLine (c :: l) (sy NL rest) Ht eq_refl []))).
  cbn [app sy]. cbv beta iota. unfold stored. destruct (Nat.ltb_spec (length (c :: l)) cap); [|lia].
  by rewrite ret_bind, Hz.
Qed.

Lemma blank_sp n : blank (sp n).
Proof. induction n; [constructor|by constructor]. Qed.
Lemma blank_tab : blank tab.
Proof. by repeat constructor. Qed.
Lemma blank_nil : blank [].
Proof. constructor. Qed.
Lemma blank_app a b : blank a -> blank b -> blank (a ++ b).
Proof. apply Forall_app_2. Qed.

(** ** Numbers *)

(** A property of every digit is checked for the sixteen. *)
Lemma digits_all (P : Z -> Prop) : P 0 -> P 1 -> P 2 -> P 3 -> P 4 -> P 5 -> P 6 -> P 7 -> P 8 -> P 9 -> P 10 ->
  P 11 -> P 12 -> P 13 -> P 14 -> P 15 -> forall d, 0 <= d < 16 -> P d.
Proof.
  intros. assert (d ∈ seqZ 0 16) as Hd by (apply elem_of_seqZ; lia).
  repeat (apply elem_of_cons in Hd as [-> |Hd]; [done|]). by apply not_elem_of_nil in Hd.
Qed.

Lemma hexDigit_char b d : 0 <= d < 16 -> hexDigit (digitChar b d) = Some d.
Proof. revert d. by apply digits_all; destruct b. Qed.
Lemma digitChar_word b d : 0 <= d < 16 -> wordChar (digitChar b d) = true.
Proof. revert d. by apply digits_all; destruct b. Qed.
Lemma decDigit_char d : 0 <= d < 10 -> decDigit (digitChar false d) = Some d.
Proof.
  intros H. apply (digits_all (fun d => d < 10 -> decDigit (digitChar false d) = Some d)); (done || lia).
Qed.

Lemma numeral_app digit base a b v :
  numeral digit base (a ++ b) v = (w ← numeral digit base a v; numeral digit base b w).
Proof.
  revert v. induction a as [|c a IH]; intros v; cbn [app numeral]; [done|]. destruct (digit c); [apply IH|done].
Qed.

Lemma hex_value b k : forall x, 0 <= x < 16 ^ Z.of_nat k -> x < 2 ^ 64 ->
  isStringAHexNumber (hexDigits k b x) = Some x.
Proof.
  unfold isStringAHexNumber. induction k as [|k IH]; intros x Hx H64; cbn [hexDigits].
  - cbn in Hx |- *. f_equal. lia.
  - rewrite Nat2Z.inj_succ, Z.pow_succ_r in Hx by lia. rewrite numeral_app, IH by dlia.
    cbn [mbind option_bind numeral]. rewrite hexDigit_char by dlia. cbn [mbind option_bind]. f_equal.
    rewrite u64_small; dlia.
Qed.
Lemma dec_value k : forall x, 0 <= x < 10 ^ Z.of_nat k -> x < 2 ^ 64 ->
  isStringADecNumber (decDigits k x) = Some x.
Proof.
  unfold isStringADecNumber. induction k as [|k IH]; intros x Hx H64; cbn [decDigits].
  - cbn in Hx |- *. f_equal. lia.
  - rewrite Nat2Z.inj_succ, Z.pow_succ_r in Hx by lia. rewrite numeral_app, IH by dlia.
    cbn [mbind option_bind numeral]. rewrite decDigit_char by dlia. cbn [mbind option_bind]. f_equal.
    rewrite u64_small; dlia.
Qed.

Lemma word_snoc w c : forallb wordChar w = true -> wordChar c = true -> word (w ++ [c]) = true.
Proof.
  intros Hw Hc. unfold word. destruct (w ++ [c]) eqn:E; [by destruct w|]. rewrite <-E, forallb_app, Hw. cbn. by rewrite Hc.
Qed.
Lemma hex_chars b k : forall x, 0 <= x -> forallb wordChar (hexDigits k b x) = true.
Proof.
  induction k as [|k IH]; intros x Hx; cbn [hexDigits]; [done|]. rewrite forallb_app, IH by dlia. cbn.
  rewrite digitChar_word by dlia. done.
Qed.
Lemma hex_word b k x : 0 <= x -> word (hexDigits (S k) b x) = true.
Proof. intros Hx. cbn [hexDigits]. apply word_snoc; [apply hex_chars; dlia|apply digitChar_word; dlia]. Qed.
Lemma dec_chars k : forall x, 0 <= x -> forallb wordChar (decDigits k x) = true.
Proof.
  induction k as [|k IH]; intros x Hx; cbn [decDigits]; [done|]. rewrite forallb_app, IH by dlia. cbn.
  rewrite digitChar_word by dlia. done.
Qed.
Lemma dec_word k x : 0 <= x -> word (decDigits (S k) x) = true.
Proof. intros Hx. cbn [decDigits]. apply word_snoc; [apply dec_chars; dlia|apply digitChar_word; dlia]. Qed.
Lemma hex_length b k : forall x, length (hexDigits k b x) = k.
Proof. induction k; intros x; cbn [hexDigits]; [done|]. rewrite length_app, IHk. cbn. lia. Qed.
Lemma dec_length k : forall x, length (decDigits k x) = k.
Proof. induction k; intros x; cbn [decDigits]; [done|]. rewrite length_app, IHk. cbn. lia. Qed.
