(* ===== verification/ObjDumpRead.v ===== *)
(** * [parseObjDump] reads what is printed

    On the text of a dump the parser makes the sections, the symbols and the code
    that were printed, and nothing else. *)

From stdpp Require Import strings.
From Stdlib Require Import Ascii.
From Stdlib Require String.
From S2P Require Import Prelude Nexus Memory ObjDump ObjDumpText ObjDumpPrint.

(** ** Tokens *)

(** The side conditions of the lemmas on tokens. *)
Ltac side := solve
  [ done | apply blank_sp | apply blank_nil | apply blank_tab | rewrite ?dec_length, ?hex_length; cbn; lia
  | apply dec_word; lia | apply hex_word; lia | unfold hex; rewrite hex_length; lia ].

Lemma goes_expect b t s : b = true -> goes (expect b) t s tt t s.
Proof. by intros ->. Qed.

Lemma goes_tok c t rest s : single c = Some t -> goes (getTok t) (sy c rest) s tt rest s.
Proof.
  intros Hc. eapply goes_bind; [by apply (lex_sy 256 []); [constructor|]|]. apply goes_expect. apply bool_decide_true. done.
Qed.
Lemma goes_string ws w rest s : blank ws -> word w = true -> delim rest -> (length w < 256)%nat ->
  goes getString (wd ws w rest) s w rest s.
Proof. intros. eapply goes_bind; [by apply lex_wd|]. done. Qed.
Lemma goes_keyword k ws w rest s : blank ws -> word w = true -> delim rest -> (length w < 256)%nat ->
  strcasecmp (chars k) w = true -> goes (getKeyword k) (wd ws w rest) s tt rest s.
Proof. intros. eapply goes_bind; [by apply goes_string|]. by apply goes_expect. Qed.
Lemma goes_hex ws k x rest s : blank ws -> delim rest -> (S k < 256)%nat -> 0 <= x < 16 ^ Z.of_nat (S k) -> x < 2 ^ 64 ->
  goes getHex (wd ws (hex (S k) x) rest) s x rest s.
Proof.
  intros Hws Hr Hk Hx H64. unfold hex. eapply goes_bind; [apply goes_string; [done|apply hex_word; lia|done|by rewrite hex_length]|].
  by rewrite hex_value.
Qed.
Lemma goes_dec ws k x rest s : blank ws -> delim rest -> (S k < 256)%nat -> 0 <= x < 10 ^ Z.of_nat (S k) -> x < 2 ^ 64 ->
  goes getDec (wd ws (decDigits (S k) x) rest) s x rest s.
Proof.
  intros Hws Hr Hk Hx H64. eapply goes_bind; [apply goes_string; [done|apply dec_word; lia|done|by rewrite dec_length]|].
  by rewrite dec_value.
Qed.

(** A character, and a check that holds. *)
Ltac tok := eapply goes_bind; [by apply (lex_sy _ []); [constructor|]|]; cbv beta iota.
Ltac yes := eapply goes_bind; [by apply goes_expect|].

(** Empty lines before something else. *)
Definition nls (k : nat) (t : list ascii) : list ascii := replicate k NL ++ t.

Lemma goes_skip cap k : forall n lex ran t s tok l t', (k + 2 <= n)%nat ->
  goes (getNextLex cap) t s (tok, l) t' s -> tok <> odtt_eol ->
  goes (skipEols n cap odtt_eol lex ran) (nls k t) s (true, tok, l) t' s.
Proof.
  induction k as [|k IH]; intros n lex ran t s tok l t' Hn Hl Ht; (destruct n as [|n]; [lia|]); cbn [skipEols isTok].
  - eapply goes_bind; [exact Hl|]. destruct n as [|n]; [lia|]. cbn. by destruct tok.
  - eapply goes_bind; [by apply (lex_sy cap [] NL odtt_eol); [constructor|]|]. apply IH; [lia|done..].
Qed.
Lemma goes_skip_none cap n type lex ran t s : (0 < n)%nat -> type <> odtt_eol ->
  goes (skipEols n cap type lex ran) t s (ran, type, lex) t s.
Proof. intros Hn Ht. destruct n; [lia|]. cbn. by destruct type. Qed.

Lemma goes_nonEol fuel k t s tok l t' : (k + 2 <= fuel)%nat -> goes (getNextLex 256) t s (tok, l) t' s -> tok <> odtt_eol ->
  goes (nextNonEol fuel) (nls k t) s (tok, l) t' s.
Proof. intros. eapply goes_bind; [by eapply goes_skip|]. done. Qed.

(** ** The sections *)

Section reading.
Context (fuel w : nat) (vmaOffset : Z).
Hypothesis Hfuel : (8 <= fuel)%nat.
Hypothesis Hw : w = 8%nat \/ w = 16%nat.

Definition flagsValue (fs : list (String.string * Z)) (v : Z) : Z := foldl (fun v f => Z.lor v f.2) v fs.

Lemma flag_known f : f ∈ sectionFlags -> sectionFlagOf (chars f.1) = Some f.2 /\ word (chars f.1) = true /\
  (length (chars f.1) < 256)%nat.
Proof.
  intros Hf. repeat (apply elem_of_cons in Hf as [-> |Hf]; [vm_compute; split_and!; (done || lia)|]).
  by apply not_elem_of_nil in Hf.
Qed.
Lemma align_known f : f ∈ alignments -> alignOf (chars f.1) = Some f.2 /\ word (chars f.1) = true /\
  (length (chars f.1) < 256)%nat.
Proof.
  intros Hf. repeat (apply elem_of_cons in Hf as [-> |Hf]; [vm_compute; split_and!; (done || lia)|]).
  by apply not_elem_of_nil in Hf.
Qed.

Lemma flags_go fs : Forall (fun f => f ∈ sectionFlags) fs -> fs <> [] -> forall n v ws rest s, (length fs <= n)%nat ->
  blank ws -> goes (parseFlags n v) (flagsText ws fs rest) s (flagsValue fs v) rest s.
Proof.
  induction 1 as [|f fs Hf Hfs IH]; [done|]. intros _ n v ws rest s Hn Hws. destruct n as [|n]; [cbn in Hn; lia|].
  destruct (flag_known f Hf) as (E & Hwd & Hl). cbn [parseFlags]. destruct fs as [|f2 fs]; cbn [flagsText].
  - eapply goes_bind; [by apply goes_string|]. rewrite E.
    eapply goes_bind; [apply goes_ret|]. eapply goes_bind; [by apply (lex_sy 256 []); [constructor|]|]. done.
  - eapply goes_bind; [by apply goes_string|]. rewrite E.
    eapply goes_bind; [apply goes_ret|]. eapply goes_bind; [by apply (lex_sy 256 []); [constructor|]|].
    cbv beta iota. eapply goes_bind; [by apply goes_expect|].
    apply IH; [done|cbn in Hn |- *; lia|apply blank_sp].
Qed.

Definition section_ok (d : DumpSection) : Prop :=
  0 <= ds_index d < 100 /\ word (ds_name d) = true /\ (length (ds_name d) < 256)%nat /\ 0 <= ds_size d < 2 ^ 32 /\
  0 <= ds_vma d < 16 ^ Z.of_nat w /\ 0 <= ds_lma d < 16 ^ Z.of_nat w /\ 0 <= ds_off d < 2 ^ 32 /\
  ds_align d ∈ alignments /\ Forall (fun f => f ∈ sectionFlags) (ds_flags d) /\ ds_flags d <> [] /\
  (length (ds_flags d) <= fuel)%nat.

(** The section that is kept of a line of the list: one with code, or the comments. *)
Definition sectionOf (d : DumpSection) : option ElfSection :=
  let flags := flagsValue (ds_flags d) 0 in
  if negb (Z.land flags sect_CODE =? 0) || strcmp (chars ".comment") (ds_name d)
  then Some (emptySection (ds_name d) (ds_vma d) (u64 (ds_vma d + ds_size d - 1)) vmaOffset flags (ds_size d) (ds_off d)
               (ds_align d).2)
  else None.

Lemma width_S : exists k, w = S k /\ (S k < 256)%nat /\ 16 ^ Z.of_nat w <= 2 ^ 64.
Proof. destruct Hw as [-> | ->]; [exists 7%nat|exists 15%nat]; (split; [done|]); split; [lia|done|lia|done]. Qed.

Lemma section_goes d rest s : section_ok d ->
  goes (parseSection fuel vmaOffset) (sectionText w d rest) s (odtt_eol, [], sectionOf d) rest s.
Proof.
  intros (Hi & Hn & Hnl & Hs & Hv & Hl & Ho & Ha & Hf & Hf0 & Hff). destruct width_S as (k & Ek & Hk & H64).
  unfold parseSection, sectionText. rewrite Ek in Hv, Hl, H64 |- *. change (hex 8) with (hex (S 7)).
  eapply goes_bind; [apply lex_wd; side|].
  cbv beta iota. change (isTok odtt_string odtt_string) with true. cbv beta iota. rewrite dec_value by (cbn; lia).
  eapply goes_bind; [apply goes_string; side|].
  eapply goes_bind; [apply goes_hex; side|].
  eapply goes_bind; [apply goes_hex; side|].
  eapply goes_bind; [apply goes_hex; side|].
  eapply goes_bind; [apply goes_hex; side|].
  destruct (align_known _ Ha) as (Ea & Hwa & Hla).
  eapply goes_bind; [apply goes_string; side|]. rewrite Ea.
  eapply goes_bind; [apply goes_ret|]. eapply goes_bind; [by apply goes_tok|].
  eapply goes_bind; [apply flags_go; [done..|apply blank_sp]|].
  rewrite (u32_small (ds_size d)), (u32_small (ds_off d)) by lia. done.
Qed.

(** The section put at the end of the store and the head of the list. *)
Definition withSection (o : option ElfSection) (s : ObjDump) : ObjDump :=
  match o with
  | Some sec => set_sp (length (od_store s) :: od_sp s) (set_store (od_store s ++ [sec]) s)
  | None => s
  end.
Definition withSections (ds : list DumpSection) (s : ObjDump) : ObjDump :=
  foldl (fun s d => withSection (sectionOf d) s) s ds.

Lemma SYMBOL_goes rest s : delim rest -> goes (parseSection fuel vmaOffset) (wd [] (chars "SYMBOL") rest) s
  (odtt_string, chars "SYMBOL", None) rest s.
Proof.
  intros Hr. eapply goes_bind; [apply lex_wd; side|]. done.
Qed.

Lemma sections_go ds rest : delim rest -> Forall section_ok ds -> forall n s, (length ds < n)%nat ->
  goes (sectionLines fuel n vmaOffset) (foldr (sectionText w) (wd [] (chars "SYMBOL") rest) ds) s
    (odtt_string, chars "SYMBOL") rest (withSections ds s).
Proof.
  intros Hr. induction 1 as [|d ds Hd Hds IH]; intros n s Hn; (destruct n as [|n]; [cbn in Hn; lia|]); cbn [sectionLines foldr].
  - eapply goes_bind; [by apply SYMBOL_goes|]. done.
  - eapply goes_bind; [by apply section_goes|]. cbv beta iota.
    eapply (goes_bind _ _ _ _ tt _ (withSection (sectionOf d) s)); [by destruct (sectionOf d)|].
    apply IH. cbn in Hn. lia.
Qed.

Lemma keywords_go rest s : goes (getKeywords ["Idx"; "Name"; "Size"; "VMA"; "LMA"; "File"; "off"; "Algn"]%string)
  (columns rest) s tt (sy NL rest) s.
Proof.
  unfold columns. cbn [getKeywords].
  do 8 (eapply goes_bind; [apply goes_keyword; side|]).
  done.
Qed.

(** ** The symbols *)

Lemma goes_char c rest s : goes nextChar (c :: rest) s c rest s.
Proof. done. Qed.
Lemma goes_chars cs rest s : goes (nextChars (length cs)) (cs ++ rest) s cs rest s.
Proof.
  induction cs as [|c cs IH]; cbn [length nextChars]; [done|].
  eapply goes_bind; [apply goes_char|]. eapply goes_bind; [exact IH|]. done.
Qed.
Lemma goes_flags cs rest s fl : length cs = 7%nat -> flagsOf flagGroups cs 0 = Some fl ->
  goes ObjDump_parseFixedField (" "%char :: cs ++ rest) s fl rest s.
Proof.
  intros Hl E. eapply goes_bind; [apply goes_char|]. eapply goes_bind; [by apply goes_expect|].
  rewrite <-Hl. eapply goes_bind; [apply goes_chars|]. rewrite E. done.
Qed.

Definition symbol_ok (d : DumpSymbol) : Prop :=
  0 <= dy_address d < 16 ^ Z.of_nat w /\ length (dy_flags d) = 7%nat /\ is_Some (flagsOf flagGroups (dy_flags d) 0) /\
  word (dy_section d) = true /\ (length (dy_section d) < 256)%nat /\ 0 <= dy_size d < 16 ^ Z.of_nat w /\
  word (dy_name d) = true /\ (length (dy_name d) < 256)%nat.

Definition symbolFlags (d : DumpSymbol) : Z := default 0 (flagsOf flagGroups (dy_flags d) 0).

(** The file that the local symbols after a symbol are of. *)
Definition fileAfter (d : DumpSymbol) (file : option (list ascii)) : option (list ascii) :=
  if negb (Z.land (symbolFlags d) symFile =? 0) then Some (dy_name d)
  else if (symbolFlags d =? symLocal) || (symbolFlags d =? Z.lor symLocal symFunc) then file
  else None.

Definition symbolOf (store : list ElfSection) (l : list nat) (d : DumpSymbol) (file : option (list ascii)) : Sym :=
  let sec := getSectionByName store l (dy_section d) in {|
  sy_name := dy_name d; sy_flags := symbolFlags d; sy_section := sec;
  sy_vmaOffset := default vmaOffset (i ← sec; sc_vmaOffset <$> store !! i);
  sy_address := dy_address d; sy_size := dy_size d;
  sy_srcFile := if negb (Z.land (symbolFlags d) symFile =? 0) then None else fileAfter d file |}.

Fixpoint symbolsOf (store : list ElfSection) (l : list nat) (ds : list DumpSymbol) (file : option (list ascii)) : list Sym :=
  match ds with
  | [] => []
  | d :: ds => symbolOf store l d file :: symbolsOf store l ds (fileAfter d file)
  end.

Definition withSymbols (syms : list Sym) (s : ObjDump) : ObjDump := set_symLst (rev syms ++ od_symLst s) s.

Lemma goes_sectionByName name t s : od_sp s <> [] ->
  goes (sectionByName name) t s (getSectionByName (od_store s) (od_sp s) name) t s.
Proof. intros Hs. unfold goes, sectionByName. rewrite bind_get. cbn [at_ set_pipe od_sp]. by destruct (od_sp s). Qed.

Lemma addSymbol_goes d file t s : od_sp s <> [] ->
  goes (addSymbol (dy_address d) vmaOffset (dy_section d) (symbolFlags d) (dy_size d) (dy_name d) file) t s
    (fileAfter d file) t (withSymbols [symbolOf (od_store s) (od_sp s) d file] s).
Proof.
  intros Hs. unfold addSymbol.
  match goal with |- goes (let (_, _) := ?p in _) _ _ _ _ _ => replace p with
    (fileAfter d file, if negb (Z.land (symbolFlags d) symFile =? 0) then None else fileAfter d file) end.
  - eapply goes_bind; [by apply goes_sectionByName|]. unfold goes. rewrite bind_get, bind_modify.
    unfold withSymbols, symbolOf. cbn [at_ set_pipe set_symLst od_store od_symLst rev app].
    do 4 f_equal. destruct (getSectionByName _ _ _) as [i|]; [|done]. cbn. by destruct (od_store s !! i).
  - unfold fileAfter. destruct (Z.land _ _ =? 0), (symbolFlags d =? symLocal), (symbolFlags d =? Z.lor symLocal symFunc); done.
Qed.

Lemma symbol_goes d rest s : symbol_ok d ->
  goes parseSymbol (" "%char :: dy_flags d ++ wd (sp 1) (dy_section d)
    (wd tab (hex w (dy_size d)) (wd (sp 1) (dy_name d) (sy NL rest)))) s
    (dy_section d, symbolFlags d, dy_size d, Some (dy_name d)) rest s.
Proof.
  intros (Ha & Hl & [fl Hf] & Hs & Hsl & Hz & Hn & Hnl). unfold symbolFlags. rewrite Hf. cbn [default from_option id].
  destruct width_S as (k & Ek & Hk & H64). rewrite Ek in Hz, H64 |- *.
  eapply goes_bind; [by apply goes_flags|].
  eapply goes_bind; [apply goes_string; side|].
  eapply goes_bind; [apply goes_hex; side|].
  eapply goes_bind; [apply lex_wd; side|]. cbv beta iota.
  eapply goes_bind; [by apply goes_expect|].
  eapply goes_bind; [by apply (lex_sy 256 []); [constructor|]|]. done.
Qed.

Lemma hex_not k x u : length u <> S k -> strcasecmp u (hex (S k) x) = false.
Proof.
  intros Hu. apply bool_decide_false. intros E. apply (f_equal length) in E. rewrite !length_fmap in E.
  unfold hex in E. rewrite hex_length in E. done.
Qed.

Lemma withSymbols_app a b s : withSymbols b (withSymbols a s) = withSymbols (a ++ b) s.
Proof. unfold withSymbols. cbn. by rewrite rev_app_distr, <-app_assoc. Qed.

(** The symbols are followed by empty lines and a disassembly. *)
Lemma symbols_go j rest ds : (j + 2 <= fuel)%nat -> delim rest -> Forall symbol_ok ds -> forall n file s,
  (length ds < n)%nat -> od_sp s <> [] ->
  goes (symbolLines fuel n vmaOffset file) (foldr (symbolText w) (nls j (wd [] (chars "Disassembly") rest)) ds) s
    (odtt_string, chars "Disassembly") rest (withSymbols (symbolsOf (od_store s) (od_sp s) ds file) s).
Proof.
  intros Hj Hr. induction 1 as [|d ds Hd Hds IH]; intros n file s Hn Hs; (destruct n as [|n]; [cbn in Hn; lia|]);
    cbn [symbolLines foldr symbolsOf].
  - eapply goes_bind; [apply goes_nonEol; [done|apply lex_wd; side|done]|].
    destruct s; cbn. done.
  - destruct (Hd) as (Ha & _). destruct width_S as (k & Ek & Hk & H64). unfold symbolText at 1.
    eapply goes_bind.
    { apply (goes_nonEol fuel 0); [lia|rewrite Ek in Ha |- *; apply (lex_wd 256 []); side|done]. }
    cbv beta iota. eapply goes_bind; [by apply goes_expect|].
    replace (strcasecmp (chars "no") (hex w (dy_address d))) with false
      by (symmetry; rewrite Ek; apply hex_not; destruct Hw; cbn; lia).
    unfold hex at 1. rewrite hex_value by (rewrite ?Ek in *; lia).
    eapply goes_bind; [by apply symbol_goes|]. cbv beta iota.
    eapply goes_bind; [by apply addSymbol_goes|].
    pose proof (withSymbols_app [symbolOf (od_store s) (od_sp s) d file]
      (symbolsOf (od_store s) (od_sp s) ds (fileAfter d file)) s) as E. cbn [app] in E. rewrite <-E.
    apply (IH n (fileAfter d file) (withSymbols [symbolOf (od_store s) (od_sp s) d file] s)); [cbn in Hn; lia|done].
Qed.

(** ** The lines of a disassembly *)

(** A name that is not taken for something else. *)
Definition plainName (name : list ascii) : bool :=
  negb (strcmp (chars "...") name) && negb (strcasecmp (chars "disassembly") name) &&
  negb (strcasecmp (chars "symbol") name) &&
  match name with "/"%char :: _ | "\"%char :: _ => false | _ => true end.

Definition line_ok (l : DumpLine) : Prop :=
  match l with
  | DL_label a name => 0 <= a < 16 ^ Z.of_nat w /\ word name = true /\ (length name < 1024)%nat
  | DL_func name => word name = true /\ (length name < 1024)%nat /\ plainName name = true
  | DL_source path k n =>
      word path = true /\ (length path < 1024)%nat /\ head path = Some "/"%char /\ (0 < k < 256)%nat /\
      0 <= n < 10 ^ Z.of_nat k /\ n < 2 ^ 32
  | DL_inst pad k a long v gap text =>
      (0 < k < 1024)%nat /\ 0 <= a < 16 ^ Z.of_nat k /\ a < 2 ^ 64 /\ 0 <= v < 2 ^ (if long then 32 else 16) /\
      restOfLine text = true /\ (length text < 1024)%nat
  | DL_dots => True
  end.

(** The first word of a line, and what comes before it and after it. *)
Definition lineFirst (l : DumpLine) : list ascii :=
  match l with
  | DL_label a _ => hex w a
  | DL_func name => name
  | DL_source path _ _ => path
  | DL_inst _ k a _ _ _ _ => hex k a
  | DL_dots => chars "..."
  end.
Definition lineSpace (l : DumpLine) : list ascii :=
  match l with DL_inst pad _ _ _ _ _ _ => sp pad | DL_dots => tab | _ => [] end.
Definition lineEmpty (l : DumpLine) : nat := match l with DL_label _ _ => 1 | _ => 0 end.
Definition lineAfter (l : DumpLine) (rest : list ascii) : list ascii :=
  match l with
  | DL_label _ name => sp 1 ++ sy "<" (wd [] name (sy ">" (sy ":" (sy NL rest))))
  | DL_func _ => sy "(" (sy ")" (sy ":" (sy NL rest)))
  | DL_source _ k n => sy ":" (wd [] (decDigits k n) (sy NL rest))
  | DL_inst _ _ _ long v gap text => sy ":" (wd tab (hex (if long then 8 else 4) v) (sp gap ++ tab ++ text ++ sy NL rest))
  | DL_dots => sy NL rest
  end.
Lemma lineText_split l rest :
  lineText w l rest = nls (lineEmpty l) (wd (lineSpace l) (lineFirst l) (lineAfter l rest)).
Proof. by destruct l. Qed.

(** What is left after a line: the end of a line with an instruction is not read. *)
Definition lineLeft (l : DumpLine) : nat := match l with DL_inst _ _ _ _ _ _ _ => 1 | _ => 0 end.

(** The source line of the next instructions, and what a line does to the state. *)
Definition lineNext (l : DumpLine) (cur : option (list ascii) * Z) : option (list ascii) * Z :=
  match l with
  | DL_source path _ n => (Some path, n)
  | DL_inst _ _ _ _ _ _ _ => cur
  | _ => (None, 0)
  end.
Definition withFile (name : list ascii) (s : ObjDump) : ObjDump :=
  if bool_decide (name ∈ od_srcFiles s) then s else set_srcFiles (name :: od_srcFiles s) s.
Definition instOf (cur : option (list ascii) * Z) (l : DumpLine) : ElfSection -> option ElfSection :=
  match l with
  | DL_inst _ _ a long v _ text => putInstruction a v (if long then 32 else 16) text cur.1 cur.2
  | _ => Some
  end.
Definition lineState (p : nat) (cur : option (list ascii) * Z) (l : DumpLine) (s : ObjDump) : option ObjDump :=
  match l with
  | DL_source path _ _ => Some (withFile path s)
  | DL_inst _ _ _ _ _ _ _ =>
      sec ← od_store s !! p; sec ← instOf cur l sec; Some (set_store (<[p := sec]> (od_store s)) s)
  | _ => Some s
  end.

Lemma lex_1024 ws w' rest s : blank ws -> word w' = true -> delim rest -> (length w' < 1024)%nat ->
  goes (getNextLex 1024) (wd ws w' rest) s (odtt_string, w') rest s.
Proof. apply lex_wd. Qed.

Lemma digit_not_dot b d : 0 <= d < 16 -> digitChar b d <> "."%char.
Proof. revert d. by apply digits_all; destruct b. Qed.
Lemma hex_not_dots k x : 0 <= x -> strcmp (chars "...") (hex (S k) x) = false.
Proof.
  intros Hx. apply bool_decide_false. unfold hex. cbn [hexDigits]. intros E.
  change (chars "...") with (chars ".." ++ ["."%char]) in E. apply app_inj_tail in E as [_ E].
  by apply (digit_not_dot false (x mod 16)); [dlia|].
Qed.

(** A line that begins with a number. *)
Lemma numbered p eols k x cur t s : 0 <= x < 16 ^ Z.of_nat (S k) -> x < 2 ^ 64 -> forall r t' s',
  goes (l ← parseFileOrLabelOrDisassembly;
        match l with
        | line_t_label _ => mret (Some (None, 0))
        | line_t_diss text length value =>
            onSection p (putInstruction x value length text cur.1 cur.2) ≫= fun _ => mret (Some (cur.1, cur.2))
        | line_t_path text value =>
            lex2 ← fits 1024 (formatHex true 1 (u32 x) ++ [":"%char] ++ text);
            f ← addFile lex2; mret (Some (Some f, value))
        | line_t_func => mret (Some (None, 0))
        end) t s r t' s' ->
  goes (disassemblyLine p eols (hex (S k) x) cur.1 cur.2) t s r t' s'.
Proof.
  intros Hx H64 r t' s' H. unfold disassemblyLine. rewrite hex_not_dots by lia. unfold hex. by rewrite hex_value.
Qed.

Lemma goes_onSection p f sec sec' t s : od_store s !! p = Some sec -> f sec = Some sec' ->
  goes (onSection p f) t s tt t (set_store (<[p := sec']> (od_store s)) s).
Proof.
  intros E1 E2. unfold goes, onSection. rewrite bind_get. cbn [at_ set_pipe od_store]. rewrite E1, lift_bind, E2. done.
Qed.
Lemma goes_addFile name t s : goes (addFile name) t s name t (withFile name s).
Proof.
  unfold goes, addFile, withFile. rewrite bind_modify. cbn [at_ set_pipe od_srcFiles]. by destruct (bool_decide _).
Qed.

Lemma func_go rest s : goes parseFileOrLabelOrDisassembly (sy "(" (sy ")" (sy ":" (sy NL rest)))) s line_t_func rest s.
Proof. unfold parseFileOrLabelOrDisassembly. tok. do 2 (eapply goes_bind; [by apply goes_tok|]). tok. by yes. Qed.
Lemma label_go name rest s : word name = true -> (length name < 1024)%nat ->
  goes parseFileOrLabelOrDisassembly (sp 1 ++ sy "<" (wd [] name (sy ">" (sy ":" (sy NL rest))))) s (line_t_label name) rest s.
Proof.
  intros Hn Hl. unfold parseFileOrLabelOrDisassembly. eapply goes_bind; [by apply (lex_sy 256 (sp 1)); [apply blank_sp|]|].
  cbv beta iota. eapply goes_bind; [apply lex_wd; side|]. yes. do 2 (eapply goes_bind; [by apply goes_tok|]). tok. by yes.
Qed.
Lemma inst_go (long : bool) v gap text rest s : 0 <= v < 2 ^ (if long then 32 else 16) -> restOfLine text = true ->
  (length text < 1024)%nat ->
  goes parseFileOrLabelOrDisassembly (sy ":" (wd tab (hex (if long then 8 else 4) v) (sp gap ++ tab ++ text ++ sy NL rest)))
    s (line_t_diss text (if long then 32 else 16) v) (sy NL rest) s.
Proof.
  intros Hv Ht Hl. unfold parseFileOrLabelOrDisassembly. tok.
  assert (word (hex (if long then 8 else 4)%nat v) = true) as Hwd by (destruct long; side).
  assert (length (hex (if long then 8 else 4)%nat v) = (if long then 8 else 4)%nat) as Hlen by apply hex_length.
  eapply goes_bind; [apply lex_wd; [side|done|by destruct gap|rewrite Hlen; destruct long; lia]|]. yes.
  replace (isStringAHexNumber (hex (if long then 8 else 4)%nat v)) with (Some v)
    by (symmetry; apply hex_value; destruct long; cbn; lia).
  rewrite Hlen. eapply (goes_bind _ _ _ _ (if long then 32 else 16)); [by destruct long|].
  eapply goes_bind; [rewrite app_assoc; apply lex_line; [apply blank_app; side|done..]|]. cbv beta iota. yes.
  rewrite u32_small by (destruct long; lia). done.
Qed.
Lemma path_go k n rest s : (S k < 256)%nat -> 0 <= n < 10 ^ Z.of_nat (S k) -> n < 2 ^ 32 ->
  goes parseFileLine (sy ":" (wd [] (decDigits (S k) n) (sy NL rest))) s n rest s.
Proof.
  intros Hk Hn H32. eapply goes_bind; [by apply goes_tok|]. eapply goes_bind; [apply goes_dec; (side || lia)|].
  eapply goes_bind; [unfold endOfPath; tok; cbn [isTok]; by apply goes_expect|]. rewrite u32_small by lia. done.
Qed.

Lemma plain_case {A} name (slash other : A) : plainName name = true ->
  match name with "/"%char :: _ | "\"%char :: _ => slash | _ => other end = other.
Proof.
  unfold plainName. intros H%andb_true_iff. destruct H as [_ H]. destruct name as [|c name]; [done|].
  by destruct c as [[] [] [] [] [] [] [] []].
Qed.

Lemma slash_word path : let p := "/"%char :: path in
  strcmp (chars "...") p = false /\ isStringAHexNumber p = None /\ strcasecmp (chars "disassembly") p = false /\
  strcasecmp (chars "symbol") p = false.
Proof. split_and!; [apply bool_decide_false; done|done|apply bool_decide_false; done..]. Qed.

Lemma line_goes p l cur eols rest s s' : line_ok l -> lineState p cur l s = Some s' ->
  goes (disassemblyLine p eols (lineFirst l) cur.1 cur.2) (lineAfter l rest) s (Some (lineNext l cur))
    (nls (lineLeft l) rest) s'.
Proof.
  intros Hl Hs. destruct width_S as (kw & Ek & Hk & H64). destruct l as [a name|name|path k n|pad k a long v gap text|];
    cbn [line_ok lineFirst lineAfter lineNext lineLeft lineState] in *.
  - destruct Hl as (Ha & Hn & Hnl). injection Hs as <-. rewrite Ek in Ha, H64 |- *. apply numbered; [done|lia|].
    eapply goes_bind; [by apply label_go|]. done.
  - destruct Hl as (Hn & Hnl & Hp). injection Hs as <-. pose proof Hp as Hp2. unfold plainName in Hp2.
    rewrite !andb_true_iff, !negb_true_iff in Hp2. destruct Hp2 as [[[H1 H2] H3] _].
    unfold disassemblyLine. rewrite H1, H2, H3. cbn [orb]. rewrite andb_false_r, (plain_case name) by done.
    destruct (isStringAHexNumber name); (eapply goes_bind; [apply func_go|]); done.
  - destruct Hl as (Hn & Hnl & Hh & Hk' & Hx & Hx2). injection Hs as <-. destruct k as [|k]; [lia|].
    destruct path as [|c path]; [done|]. injection Hh as ->. unfold disassemblyLine.
    destruct (slash_word path) as (-> & -> & -> & ->). cbn [orb]. rewrite andb_false_r.
    eapply goes_bind; [by apply path_go; [lia|..]|]. eapply goes_bind; [apply goes_addFile|]. done.
  - destruct Hl as (Hk' & Ha & Ha2 & Hv & Ht & Htl). destruct k as [|k]; [lia|].
    destruct (od_store s !! p) as [sec|] eqn:Esec; [|done]. cbn in Hs.
    destruct (putInstruction _ _ _ _ _ _ sec) as [sec'|] eqn:Ep; [|done]. injection Hs as <-.
    apply numbered; [done..|]. eapply goes_bind; [by apply inst_go|]. cbv beta iota.
    eapply goes_bind; [by eapply goes_onSection|]. by destruct cur.
  - injection Hs as <-. unfold disassemblyLine. tok. by yes.
Qed.

Fixpoint linesState (p : nat) (cur : option (list ascii) * Z) (ls : list DumpLine) (s : ObjDump) : option ObjDump :=
  match ls with
  | [] => Some s
  | l :: ls => s ← lineState p cur l s; linesState p (lineNext l cur) ls s
  end.

(** The loop at some empty lines before a word, however it comes there. *)
Definition enters (n p : nat) (cur : option (list ascii) * Z) (t : list ascii) (s : ObjDump)
    (r : objDumpTokenType * list ascii) (t' : list ascii) (s' : ObjDump) : Prop :=
  goes (disassemblyLines fuel n p odtt_eol [] cur.1 cur.2) t s r t' s' /\
  goes ('(type, lex) ← getNextLex 1024; disassemblyLines fuel n p type lex cur.1 cur.2) t s r t' s'.

Lemma enter n p j cur t s tok l t1 r t' s' : (j + 2 <= fuel)%nat -> goes (getNextLex 1024) t s (tok, l) t1 s ->
  tok <> odtt_eol ->
  (forall eols, ((0 < j)%nat -> eols = true) ->
     goes (disassemblyTurn fuel (disassemblyLines fuel n p) p eols tok l cur.1 cur.2) t1 s r t' s') ->
  enters (S n) p cur (nls j t) s r t' s'.
Proof.
  intros Hj Hlex Htok Ht.
  assert (forall j, (j + 2 <= fuel)%nat -> goes (disassemblyLines fuel (S n) p odtt_eol [] cur.1 cur.2) (nls j t) s r t' s') as Heol.
  { intros i Hi. cbn [disassemblyLines]. eapply goes_bind; [by eapply goes_skip|]. by apply Ht. }
  split; [by apply Heol|]. destruct j as [|j].
  - eapply goes_bind; [exact Hlex|]. cbn [disassemblyLines].
    eapply goes_bind; [apply goes_skip_none; [lia|done]|]. apply Ht. lia.
  - eapply goes_bind; [by apply (lex_sy _ [] NL odtt_eol); [constructor|]|]. cbv beta iota. apply Heol. lia.
Qed.

Lemma line_space l : blank (lineSpace l).
Proof. destruct l; cbn; side. Qed.
Lemma line_delim l rest : delim (lineAfter l rest).
Proof. by destruct l. Qed.
Lemma line_word l : line_ok l -> word (lineFirst l) = true /\ (length (lineFirst l) < 1024)%nat.
Proof.
  intros Hl. destruct width_S as (kw & Ek & Hk & H64). destruct l; cbn [line_ok lineFirst] in *.
  - rewrite Ek in Hl |- *. split; [side|]. unfold hex. rewrite hex_length. lia.
  - tauto.
  - tauto.
  - destruct Hl as (Hd & Ha & _). destruct digits; [lia|]. split; [side|]. unfold hex. rewrite hex_length. lia.
  - split; [done|cbn; lia].
Qed.

Lemma nls_nls a b t : nls a (nls b t) = nls (a + b) t.
Proof. unfold nls. by rewrite app_assoc, <-replicate_add. Qed.

(** The lines before a text that begins with another disassembly, or is empty. *)
Definition stops (je : nat) (e : list ascii) (tok : objDumpTokenType) (lex e' : list ascii) : Prop :=
  (je <= 1)%nat /\ (forall s, goes (getNextLex 1024) e s (tok, lex) e' s) /\
  ((tok = odtt_eof /\ lex = []) \/ (tok = odtt_string /\ lex = chars "Disassembly" /\ je = 1%nat)).

Lemma lines_go p je e tok lex e' : stops je e tok lex e' -> forall ls, Forall line_ok ls ->
  forall n cur s s' j, (length ls < n)%nat -> (j <= 1)%nat -> linesState p cur ls s = Some s' ->
  enters n p cur (nls j (foldr (lineText w) (nls je e) ls)) s (tok, lex) e' s'.
Proof.
  intros (Hje & He & Htok). induction 1 as [|l ls Hl Hls IH]; intros n cur s s' j Hn Hj Hs;
    (destruct n as [|n]; [cbn in Hn; lia|]); cbn [foldr linesState] in *.
  - injection Hs as <-. rewrite nls_nls. eapply enter; [lia|apply He|by destruct Htok as [[-> _]|[-> _]]|].
    intros eols Hb. destruct Htok as [[-> ->]|(-> & -> & ->)]; [done|]. rewrite Hb by lia. done.
  - destruct (lineState p cur l s) as [s1|] eqn:E; [|done]. cbn in Hs. rewrite lineText_split, nls_nls.
    destruct (line_word l Hl) as [Hw1 Hw2].
    eapply enter; [destruct l; cbn; lia|apply lex_1024; [apply line_space|done|apply line_delim|done]|done|].
    intros eols _. unfold disassemblyTurn. eapply goes_bind; [by apply line_goes|]. cbv beta iota.
    assert (lineLeft l <= 1)%nat as Hleft by (destruct l; cbn; lia).
    destruct (IH n (lineNext l cur) s1 s' (lineLeft l) ltac:(cbn in Hn; lia) Hleft Hs) as [_ Hgo].
    by destruct (lineNext l cur).
Qed.

(** ** The disassemblies *)

Definition block_ok (b : DumpBlock) : Prop :=
  word (db_name b) = true /\ (length (db_name b) < 1024)%nat /\ Forall line_ok (db_lines b) /\
  (length (db_lines b) < fuel)%nat.

Definition blockState (b : DumpBlock) (s : ObjDump) : option ObjDump :=
  p ← getSectionByName (od_store s) (od_sp s) (db_name b);
  sec ← od_store s !! p;
  sec ← allocArrays sec;
  linesState p (None, 0) (db_lines b) (set_store (<[p := sec]> (od_store s)) s).
Fixpoint blocksState (bs : list DumpBlock) (s : ObjDump) : option ObjDump :=
  match bs with
  | [] => Some s
  | b :: bs => s ← blockState b s; blocksState bs s
  end.

(** Neither the list that is read nor the type of the file changes. *)
Lemma linesState_sp p ls : forall cur s s', linesState p cur ls s = Some s' ->
  od_sp s' = od_sp s /\ od_eType s' = od_eType s.
Proof.
  induction ls as [|l ls IH]; intros cur s s'; cbn [linesState]; [by intros [= <-]|].
  destruct (lineState p cur l s) as [s1|] eqn:E; [|done]. intros H. cbn in H. apply IH in H as [-> ->].
  destruct l; cbn [lineState instOf] in E; simplify_eq; try done.
  - unfold withFile. by destruct (bool_decide _).
  - destruct (od_store s !! p) as [sec|]; [|done]. cbn [mbind option_bind] in E.
    destruct (putInstruction _ _ _ _ _ _ sec); [|done]. cbn [mbind option_bind] in E. by simplify_eq.
Qed.
Lemma blockState_sp b s s' : blockState b s = Some s' -> od_sp s' = od_sp s /\ od_eType s' = od_eType s.
Proof.
  unfold blockState. destruct (getSectionByName _ _ _) as [p|]; [|done]. cbn [mbind option_bind]. destruct (od_store s !! p) as [sec|]; [|done].
  cbn [mbind option_bind]. destruct (allocArrays sec) as [sec'|]; [|done]. cbn [mbind option_bind]. intros H. by apply linesState_sp in H as [-> ->].
Qed.

(** The text after the word [Disassembly]. *)
Definition blockAfter (b : DumpBlock) (rest : list ascii) : list ascii :=
  wd (sp 1) (chars "of") (wd (sp 1) (chars "section")
    (wd (sp 1) (db_name b) (sy ":" (sy NL (foldr (lineText w) rest (db_lines b)))))).

Definition isElf (s : ObjDump) : Prop := od_eType s = elfType_32_little \/ od_eType s = elfType_64_little.

Lemma block_goes b je e tok lex e' startAddr s s' : stops je e tok lex e' -> block_ok b -> od_sp s <> [] -> isElf s ->
  blockState b s = Some s' ->
  goes (parseDisassemblyList fuel startAddr) (blockAfter b (nls je e)) s (tok, lex) e' s'.
Proof.
  intros He (Hn & Hnl & Hls & Hlen) Hsp Hty Hs. unfold blockState in Hs.
  destruct (getSectionByName _ _ _) as [p|] eqn:Ep; [|done]. cbn [mbind option_bind] in Hs.
  destruct (od_store s !! p) as [sec|] eqn:Esec; [|done]. cbn [mbind option_bind] in Hs.
  destruct (allocArrays sec) as [sec'|] eqn:Ea; [|done]. cbn [mbind option_bind] in Hs.
  unfold parseDisassemblyList, blockAfter. cbn zeta.
  do 2 (eapply goes_bind; [eapply goes_bind; [apply lex_wd; side|]; eapply goes_bind; [by apply goes_expect|apply goes_ret]|];
        eapply goes_bind; [by apply goes_expect|]).
  eapply goes_bind; [eapply goes_bind; [apply lex_wd; side|]; eapply goes_bind; [by apply goes_expect|apply goes_ret]|].
  eapply (goes_bind get _ _ _ (at_ (sy ":" (sy NL (foldr (lineText w) (nls je e) (db_lines b)))) s)); [done|].
  eapply goes_bind.
  { change (od_eType (at_ _ s)) with (od_eType s).
    destruct Hty as [-> | ->]; (apply goes_sectionByName; done). }
  rewrite Ep. eapply goes_bind; [apply goes_ret|]. eapply goes_bind; [by eapply goes_onSection|].
  do 2 (eapply goes_bind; [eapply goes_bind; [by apply (lex_sy _ []); [constructor|]|];
        eapply goes_bind; [by apply goes_expect|apply goes_ret]|]).
  apply (proj1 (lines_go p je e tok lex e' He (db_lines b) Hls fuel (None, 0) _ s' 0 Hlen ltac:(lia) Hs)).
Qed.

(** The disassemblies, the first of them after its first word. *)
Lemma blocks_go bs : forall b n s s', block_ok b -> Forall block_ok bs -> (length bs + 1 < n)%nat ->
  od_sp s <> [] -> isElf s -> blocksState (b :: bs) s = Some s' -> forall startAddr,
  goes (parts fuel n odtt_string (chars "Disassembly") vmaOffset startAddr)
    (blockAfter b (foldr (blockText w) [] bs)) s odtt_eof [] s'.
Proof.
  induction bs as [|b2 bs IH]; intros b n s s' Hb Hbs Hn Hsp Hty Hs startAddr; (destruct n as [|n]; [lia|]);
    cbn [blocksState] in Hs; destruct (blockState b s) as [s1|] eqn:E1; try done; cbn [mbind option_bind] in Hs;
    destruct (blockState_sp _ _ _ E1) as [Esp Ety]; cbn [parts].
  - injection Hs as <-. eapply goes_bind.
    { apply (block_goes b 0 [] odtt_eof [] []); try done. split_and!; [lia|done|by left]. }
    cbv beta iota. destruct n as [|n]; [cbn in Hn; lia|]. done.
  - apply list.Forall_cons in Hbs as [Hb2 Hbs]. cbn [foldr]. eapply goes_bind.
    { apply (block_goes b 1 (wd [] (chars "Disassembly") (blockAfter b2 (foldr (blockText w) [] bs)))
        odtt_string (chars "Disassembly") (blockAfter b2 (foldr (blockText w) [] bs))); try done.
      split_and!; [lia| |by right]. intros s2. apply lex_wd; side. }
    cbv beta iota. apply IH; [done..|cbn in Hn; lia|by rewrite Esp|by unfold isElf; rewrite Ety|done].
Qed.
End reading.

(** ** The whole text *)

Section whole.
Context (fuel : nat) (vmaOffset : Z).

Definition dump_ok (d : Dump) : Prop :=
  (8 <= fuel)%nat /\ word (d_file d) = true /\ (length (d_file d) < 256)%nat /\
  Forall (section_ok fuel (width d)) (d_sections d) /\ (length (d_sections d) < fuel)%nat /\
  Forall (symbol_ok (width d)) (d_symbols d) /\ (length (d_symbols d) < fuel)%nat /\
  Forall (block_ok fuel (width d)) (d_blocks d) /\ (length (d_blocks d) + 2 < fuel)%nat /\ d_blocks d <> [].

(** What the dump makes of the state. *)
Definition dumpHead (d : Dump) (s : ObjDump) : ObjDump :=
  set_eType (if d_64 d then elfType_64_little else elfType_32_little)
    (set_sp [] (set_archSize (if d_64 d then 64 else 32) s)).
Definition dumpSymbols (d : Dump) (s : ObjDump) : ObjDump :=
  withSymbols (symbolsOf vmaOffset (od_store s) (od_sp s) (d_symbols d) None) s.
Definition dumpState (d : Dump) (s : ObjDump) : option ObjDump :=
  s ← blocksState (d_blocks d) (dumpSymbols d (withSections vmaOffset (d_sections d) (dumpHead d s)));
  Some (set_codeSectionLst (od_sp s ++ od_codeSectionLst s) s).

Lemma width_8_16 d : width d = 8%nat \/ width d = 16%nat.
Proof. unfold width. destruct (d_64 d); tauto. Qed.

Lemma withSections_eType ds : forall s, od_eType (withSections vmaOffset ds s) = od_eType s.
Proof.
  unfold withSections. induction ds as [|d ds IH]; intros s; [done|]. cbn [foldl]. rewrite IH. by destruct (sectionOf _ d).
Qed.

Lemma name_goes d rest s : word (d_file d) = true -> (length (d_file d) < 256)%nat -> (8 <= fuel)%nat ->
  goes (parseElfName fuel)
    (sy NL (wd [] (d_file d) (sy ":" (wd (sp 5) (chars "file") (wd (sp 1) (chars "format")
      (wd (sp 1) (chars (if d_64 d then "elf64-littleriscv" else "elf32-littleriscv")) (sy NL rest))))))) s
    (if d_64 d then elfType_64_little else elfType_32_little) (sy NL rest) s.
Proof.
  intros Hn Hl Hf. unfold parseElfName.
  eapply goes_bind; [apply (goes_nonEol fuel 1); [lia|by apply (lex_wd 256 [] (d_file d)); side|done]|].
  cbv beta iota. yes. eapply goes_bind; [by apply goes_tok|].
  eapply (goes_bind _ _ _ _ true); [done|]. eapply goes_bind; [apply goes_ret|].
  do 2 (eapply goes_bind; [apply goes_keyword; side|]).
  eapply goes_bind; [apply goes_string; destruct (d_64 d); side|]. by destruct (d_64 d).
Qed.

Lemma table_goes d rest s : dump_ok d -> delim rest -> od_sp s <> [] -> forall after,
  after = nls 2 (wd [] (chars "Disassembly") rest) ->
  goes (parseSymbolTable fuel vmaOffset) (wd (sp 1) (chars "TABLE") (sy ":" (sy NL (symbolsText d after)))) s
    (odtt_string, chars "Disassembly") rest (dumpSymbols d s).
Proof.
  intros (Hf & _ & _ & _ & _ & Hsy & Hsl & _) Hr Hs after ->. unfold parseSymbolTable.
  eapply goes_bind; [apply goes_keyword; side|]. do 2 (eapply goes_bind; [by apply goes_tok|]).
  unfold symbolsText, dumpSymbols. destruct (d_symbols d) as [|y l] eqn:Ed.
  - destruct fuel as [|n] eqn:En; [lia|]. cbn [symbolLines].
    eapply goes_bind; [apply (goes_nonEol (S n) 0); [lia|apply (lex_wd 256 [] (chars "no")); side|done]|].
    cbv beta iota. yes. eapply goes_bind; [apply goes_keyword; side|].
    replace (withSymbols _ s) with s by (by destruct s).
    apply (goes_nonEol (S n) 3); [lia|apply lex_wd; side|done].
  - apply symbols_go; try done; [apply width_8_16|lia].
Qed.

Lemma dump_goes d s s' : dump_ok d -> dumpState d s = Some s' ->
  goes (parseObjDump fuel vmaOffset 0 0) (dumpText d) s tt [] s'.
Proof.
  intros Hok. pose proof Hok as (Hf & Hn & Hnl & Hse & Hsel & Hsy & Hsl & Hb & Hbl & Hb0). unfold dumpState.
  set (s1 := dumpHead d s). set (s2 := withSections vmaOffset (d_sections d) s1).
  destruct (blocksState _ _) as [s4|] eqn:E4; [|done]. intros [= <-].
  destruct (d_blocks d) as [|b bs] eqn:Ebs; [done|]. apply list.Forall_cons in Hb as [Hb Hbs].
  assert (od_sp s2 <> []) as Hsp.
  { intros E. cbn [blocksState] in E4. unfold blockState in E4. unfold dumpSymbols, withSymbols in E4.
    cbn [set_symLst od_sp od_store] in E4. by rewrite E in E4. }
  assert (isElf (dumpSymbols d s2)) as Hty.
  { change (isElf s2). unfold isElf, s2. rewrite withSections_eType. unfold s1, dumpHead. destruct (d_64 d); [by right|by left]. }
  unfold dumpText, parseObjDump. rewrite Ebs. eapply goes_bind; [by apply name_goes|].
  eapply (goes_bind _ _ _ _ tt _ s1); [unfold s1, dumpHead; by destruct (d_64 d)|].
  eapply goes_bind.
  { unfold parseSectionList. eapply goes_bind.
    { apply (goes_nonEol fuel 2); [lia|apply (lex_wd 256 [] (chars "Sections")); side|done]. }
    change (isTok odtt_string odtt_string && strcasecmp (chars "Sections") (chars "Sections")) with true. cbv iota.
    do 2 (eapply goes_bind; [by apply goes_tok|]). eapply goes_bind; [by apply (keywords_go fuel (width d)); [|apply width_8_16]|].
    eapply goes_bind; [by apply goes_tok|]. by apply (sections_go fuel (width d) vmaOffset); [lia|apply width_8_16|..]. }
  cbv beta iota. fold s2. eapply goes_bind; [apply goes_skip_none; [lia|done]|]. cbv beta iota.
  assert (exists n, fuel = S n) as [n En] by (exists (pred fuel); lia).
  eapply goes_bind.
  { replace (parts fuel fuel) with (parts fuel (S n)) by (by rewrite <-En). cbn [parts].
    change (negb (isTok odtt_string odtt_string)) with false. cbv iota.
    eapply goes_bind; [by apply (table_goes d (blockAfter (width d) b (foldr (blockText (width d)) [] bs)))|].
    cbv beta iota.
    apply (blocks_go fuel (width d) vmaOffset); try done; [apply width_8_16|cbn in Hbl; lia]. }
  cbv beta. eapply (goes_bind _ _ _ _ tt); [|by apply goes_expect]. done.
Qed.
End whole.
