(* ===== verification/ObjCode.v ===== *)
(** * From a printed disassembly to the code that is fetched

    The instructions of a dump, put into the sections by the parser, are those that
    [ElfReader::getInstructionByAddress] gives at their addresses. *)

From stdpp Require Import strings.
From Stdlib Require Import Ascii.
From Stdlib Require String.
From S2P Require Import Prelude Nexus Memory ObjDump ObjDumpText ObjDumpPrint ObjDumpRead.

(** ** Sections as memory *)

(** The section that [getInstructionByAddress] sees; of a null [code] it reads no
    element. *)
Definition codeSection (sec : ElfSection) : CodeSection := {|
  cs_startAddr := sc_startAddr sec; cs_endAddr := sc_endAddr sec; cs_vmaOffset := sc_vmaOffset sec;
  cs_code := default [] (sc_code sec) |}.
Definition codeSections (store : list ElfSection) (l : list nat) : list CodeSection :=
  omap (fun p => codeSection <$> store !! p) l.

(** An element of an array that may be null. *)
Definition element {A} (arr : option (list A)) (i : Z) : option A :=
  l ← arr; if 0 <=? i then l !! Z.to_nat i else None.

Lemma element_insert {A} i j (x : A) l : 0 <= i < Z.of_nat (length l) ->
  element (Some (<[Z.to_nat i := x]> l)) j = if bool_decide (j = i) then Some x else element (Some l) j.
Proof.
  intros Hi. unfold element. cbn [mbind option_bind]. destruct (bool_decide_reflect (j = i)) as [->|Hne].
  - destruct (Z.leb_spec 0 i); [|lia]. apply list_lookup_insert_eq. lia.
  - destruct (Z.leb_spec 0 j); [|done]. by rewrite list_lookup_insert_ne by lia.
Qed.

(** What a section holds at a place: a halfword of its code, and the text, the file and
    the line of an instruction. *)
Inductive Place := PCode (i : Z) | PText (i : Z).
Inductive Content := CCode (h : Z) | CText (text : list ascii) (fName : option (list ascii)) (line : Z).
#[export] Instance Place_eq_dec : EqDecision Place.
Proof. solve_decision. Defined.

Definition contentAt (sec : ElfSection) (k : Place) : option Content :=
  match k with
  | PCode i => CCode <$> element (sc_code sec) i
  | PText i =>
      text ← element (sc_diss sec) i;
      text ← text;
      fName ← element (sc_fName sec) i;
      line ← element (sc_line sec) i;
      Some (CText text fName line)
  end.

Lemma contentAt_mono sec sec' : (forall l, sc_code sec = Some l -> sc_code sec' = Some l) ->
  (forall l, sc_diss sec = Some l -> sc_diss sec' = Some l) -> (forall l, sc_fName sec = Some l -> sc_fName sec' = Some l) ->
  (forall l, sc_line sec = Some l -> sc_line sec' = Some l) -> forall k x, contentAt sec k = Some x -> contentAt sec' k = Some x.
Proof.
  intros H1 H2 H3 H4 [i|i] x; cbn [contentAt].
  - destruct (sc_code sec) as [l|]; [|done]. by rewrite (H1 l).
  - destruct (sc_diss sec) as [l|]; [|done]. rewrite (H2 l) by done. destruct (element (Some l) i) as [[text|]|]; try done.
    cbn [mbind option_bind]. destruct (sc_fName sec) as [l2|]; [|done]. rewrite (H3 l2) by done.
    destruct (element (Some l2) i) as [fName|]; [|done]. cbn [mbind option_bind].
    destruct (sc_line sec) as [l3|]; [|done]. by rewrite (H4 l3).
Qed.

(** A section without its arrays, and the sizes of the arrays. *)
Definition bare (sec : ElfSection) : ElfSection :=
  emptySection (sc_name sec) (sc_startAddr sec) (sc_endAddr sec) (sc_vmaOffset sec) (sc_flags sec) (sc_size sec)
    (sc_offset sec) (sc_align sec).
Definition slots (sec : ElfSection) : nat := Z.to_nat (u32 (sc_size sec + 1) / 2).
Definition sized (sec : ElfSection) : Prop :=
  (forall l, sc_code sec = Some l -> length l = S (slots sec)) /\
  (forall l, sc_diss sec = Some l -> length l = slots sec) /\
  (forall l, sc_line sec = Some l -> length l = slots sec) /\
  (forall l, sc_fName sec = Some l -> length l = slots sec).
Definition allocated (sec : ElfSection) : Prop :=
  is_Some (sc_code sec) /\ is_Some (sc_diss sec) /\ is_Some (sc_line sec) /\ is_Some (sc_fName sec).

Lemma alloc_ok sec : u32 (sc_size sec + 1) < 2 ^ 31 -> sized sec ->
  exists sec', allocArrays sec = Some sec' /\ bare sec' = bare sec /\ sized sec' /\ allocated sec' /\
    forall k x, contentAt sec k = Some x -> contentAt sec' k = Some x.
Proof.
  intros Hn (H1 & H2 & H3 & H4). unfold allocArrays. pose proof (u32_bounds (sc_size sec + 1)) as Hb.
  set (n := u32 (sc_size sec + 1)) in *. destruct (Z.ltb_spec n (2 ^ 31)); [|lia].
  assert (length (replicate (Z.to_nat (n / 2 + 1)) 0) = S (slots sec)) as E1 by (rewrite length_replicate; unfold slots; fold n; dlia).
  destruct sec as [nm st en vo fl sz off al code fn ln di]. unfold slots in *. cbn in *. fold n in H1, H2, H3, H4, E1 |- *.
  destruct code as [code|], di as [di|], ln as [ln|], fn as [fn|]; cbn; (eexists; split; [done|]; split; [done|]; split;
    [split_and!; cbn; intros l [= <-]; unfold slots; cbn; fold n; first [by apply E1|by apply H1|by apply H2|by apply H3|by apply H4|by rewrite length_replicate]
    |split; [by split_and!|apply contentAt_mono; cbn; by intros ? [= <-]]]).
Qed.

Lemma update_ok {A} i (x : A) l : 0 <= i < Z.of_nat (length l) -> update i x l = Some (<[Z.to_nat i := x]> l).
Proof. intros H. unfold update. destruct (Z.leb_spec 0 i), (Z.ltb_spec i (Z.of_nat (length l))); done || lia. Qed.

(** The place in the code of an address of a section. *)
Definition placeOf (sec : ElfSection) (a : Z) : Z := (a - sc_startAddr sec) / 2.
Definition inside (sec : ElfSection) (a : Z) (long : bool) : Prop :=
  0 <= sc_startAddr sec <= a /\ a + (if long then 4 else 2) <= sc_startAddr sec + sc_size sec /\
  sc_size sec + 1 < 2 ^ 31 /\ a < 2 ^ 64.

Lemma inside_place sec a long : inside sec a long ->
  i32 (u64 (a - sc_startAddr sec) / 2) = placeOf sec a /\ 0 <= placeOf sec a /\
  placeOf sec a + (if long then 1 else 0) < Z.of_nat (slots sec).
Proof.
  intros (H1 & H2 & H3 & H4). unfold placeOf, slots. rewrite u64_small by lia.
  rewrite (u32_small (sc_size sec + 1)) by (destruct long; lia).
  destruct long; rewrite i32_small, Z2Nat.id by dlia; split_and!; try done; dlia.
Qed.

(** What an instruction puts into a section. *)
Definition instCells (sec : ElfSection) (a : Z) (long : bool) (v : Z) (text : list ascii) (fName : option (list ascii)) (line : Z)
    : list (Place * Content) :=
  let i := placeOf sec a in
  (PText i, CText text fName line) :: (PCode i, CCode (u16 v)) ::
  (if long then [(PCode (i + 1), CCode (u16 (Z.shiftr v 16)))] else []).

(** An instruction that lies inside is put into the section, and changes nothing else of it. *)
Lemma put_ok sec a v (long : bool) text fName line : sized sec -> allocated sec -> inside sec a long ->
  exists sec', putInstruction a v (if long then 32 else 16) text fName line sec = Some sec' /\
    bare sec' = bare sec /\ sized sec' /\ allocated sec' /\
    (forall k x, (k, x) ∈ instCells sec a long v text fName line -> contentAt sec' k = Some x) /\
    (forall k x, k ∉ (instCells sec a long v text fName line).*1 -> contentAt sec k = Some x -> contentAt sec' k = Some x).
Proof.
  intros (H1 & H2 & H3 & H4) ([code Ec] & [di Ed] & [ln El] & [fn Ef]) Hin.
  destruct (inside_place _ _ _ Hin) as (Ei & Hp0 & Hp1). unfold putInstruction, instCells. rewrite Ei. set (i := placeOf sec a) in *.
  rewrite Ec, Ed, El, Ef. cbn [mbind option_bind].
  specialize (H1 _ Ec). specialize (H2 _ Ed). specialize (H3 _ El). specialize (H4 _ Ef).
  assert (0 <= i < Z.of_nat (length code) /\ (long = true -> 0 <= i + 1 < Z.of_nat (length code))) as [Hic Hic1]
    by (rewrite H1; destruct long; lia).
  assert (0 <= i < Z.of_nat (length di)) as Hid by (rewrite H2; destruct long; lia).
  assert (0 <= i < Z.of_nat (length fn)) as Hif by (rewrite H4; destruct long; lia).
  assert (0 <= i < Z.of_nat (length ln)) as Hil by (rewrite H3; destruct long; lia).
  rewrite (update_ok i (u16 v) code), (update_ok i (Some text) di), (update_ok i fName fn), (update_ok i line ln) by done.
  cbn [mbind option_bind].
  assert (exists code', (if (if long then 32 else 16) =? 32 then update (i + 1) (u16 (Z.shiftr v 16)) (<[Z.to_nat i:=u16 v]> code)
      else Some (<[Z.to_nat i:=u16 v]> code)) = Some code' /\ length code' = length code /\
    forall j, element (Some code') j = if bool_decide (j = i) then Some (u16 v)
      else if long && bool_decide (j = i + 1) then Some (u16 (Z.shiftr v 16)) else element (Some code) j) as (code' & -> & Hlen & Hcode).
  { destruct long.
    - change (32 =? 32) with true. cbv iota. specialize (Hic1 eq_refl). rewrite (update_ok (i + 1)) by (rewrite length_insert; lia).
      eexists. split; [done|]. split; [by rewrite !length_insert|]. intros j. rewrite !element_insert by (rewrite ?length_insert; lia).
      repeat case_bool_decide; cbn [andb]; done || lia.
    - change (16 =? 32) with false. cbv iota. eexists. split; [done|]. split; [by rewrite !length_insert|].
      intros j. by rewrite element_insert. }
  cbn [mbind option_bind]. eexists. split; [done|]. split; [done|]. split; [|split; [by split_and!; eexists|]].
  { split_and!; intros l [= <-]; unfold slots; cbn; by rewrite ?Hlen, ?length_insert. }
  split.
  - intros k x Hk. rewrite !elem_of_cons in Hk. destruct Hk as [[= -> ->]|[[= -> ->]|Hk]]; cbn [contentAt sc_code sc_diss sc_fName sc_line].
    + rewrite !element_insert by done. by rewrite bool_decide_eq_true_2.
    + by rewrite Hcode, bool_decide_eq_true_2.
    + destruct long; [|by apply elem_of_nil in Hk]. apply list_elem_of_singleton in Hk as [= -> ->]. cbn [contentAt sc_code].
      rewrite Hcode, bool_decide_eq_false_2 by lia. cbn [andb]. by rewrite bool_decide_eq_true_2.
  - intros [j|j] x Hk; cbn [fmap list_fmap fst] in Hk; rewrite !not_elem_of_cons in Hk; destruct Hk as (Hk1 & Hk2 & Hk3);
      cbn [contentAt sc_code sc_diss sc_fName sc_line].
    + rewrite Ec, Hcode, bool_decide_eq_false_2 by congruence. destruct long; cbn [andb]; [|done].
      cbn in Hk3. rewrite list_elem_of_singleton in Hk3. by rewrite bool_decide_eq_false_2 by congruence.
    + rewrite Ed, Ef, El, !element_insert by done. by rewrite bool_decide_eq_false_2 by congruence.
Qed.

(** ** Finding sections *)

(** The first place of a list whose section has a property, of which the arrays are
    no part. *)
Fixpoint findPlace (P : ElfSection -> bool) (store : list ElfSection) (l : list nat) : option nat :=
  match l with
  | [] => None
  | p :: l =>
      match store !! p with
      | Some sec => if P (bare sec) then Some p else findPlace P store l
      | None => None
      end
  end.

Definition hasName (name : list ascii) (sec : ElfSection) : bool := strcmp (sc_name sec) name.
Definition hasAddress (addr : Z) (sec : ElfSection) : bool := inSection addr (codeSection sec).

Lemma byName_find store l name : getSectionByName store l name = findPlace (hasName name) store l.
Proof. induction l as [|p l IH]; [done|]. cbn [getSectionByName findPlace]. by rewrite IH. Qed.

Lemma findPlace_bare P store store' l : bare <$> store = bare <$> store' -> findPlace P store l = findPlace P store' l.
Proof.
  intros E. induction l as [|p l IH]; [done|]. cbn [findPlace]. rewrite IH.
  assert (bare <$> store !! p = bare <$> store' !! p) as Ep by (by rewrite <-!list_lookup_fmap, E).
  destruct (store !! p), (store' !! p); try done. apply (inj Some) in Ep. by rewrite Ep.
Qed.

Lemma findPlace_prop P store l p : findPlace P store l = Some p ->
  exists sec, store !! p = Some sec /\ P (bare sec) = true.
Proof.
  induction l as [|q l IH]; [done|]. cbn [findPlace]. destruct (store !! q) as [sec|] eqn:E; [|done].
  destruct (P (bare sec)) eqn:EP; [intros [= ->]; eauto|done].
Qed.

(** Two first places that have each other's property are the same. *)
Lemma findPlace_same P Q store l p q sp sq : findPlace P store l = Some p -> findPlace Q store l = Some q ->
  store !! p = Some sp -> store !! q = Some sq -> Q (bare sp) = true -> P (bare sq) = true -> p = q.
Proof.
  intros Hp Hq Ep Eq HQ HP. induction l as [|i l IH]; [done|]. cbn [findPlace] in Hp, Hq.
  destruct (store !! i) as [sec|] eqn:Ei; [|done].
  destruct (P (bare sec)) eqn:E1, (Q (bare sec)) eqn:E2; simplify_eq; try congruence. by apply IH.
Qed.

(** The list of places read off as sections. *)
Definition places (store : list ElfSection) (l : list nat) (ks : list ElfSection) : Prop :=
  Forall2 (fun p k => bare <$> store !! p = Some k) l ks.

Lemma findPlace_places P store l ks : places store l ks ->
  List.find P ks = (p ← findPlace P store l; bare <$> store !! p).
Proof.
  induction 1 as [|p k l ks Hk Hl IH]; [done|]. cbn [List.find findPlace].
  destruct (store !! p) as [sec|] eqn:E; [|done]. apply (inj Some) in Hk as <-.
  destruct (P (bare sec)); [|done]. cbn [mbind option_bind]. by rewrite E.
Qed.

(** ** The cells that the lines write *)

(** What is at a place of the section with a name. *)
Definition cellOf (s : ObjDump) (name : list ascii) (k : Place) : option Content :=
  p ← getSectionByName (od_store s) (od_sp s) name; sec ← od_store s !! p; contentAt sec k.

(** What a line puts into a section, [cur] being the source line that it is of; and all
    of the lines. *)
Definition lineCells (sec : ElfSection) (cur : option (list ascii) * Z) (l : DumpLine) : list (Place * Content) :=
  match l with
  | DL_inst _ _ a long v _ text => instCells sec a long v text cur.1 cur.2
  | _ => []
  end.
Fixpoint linesCells (sec : ElfSection) (cur : option (list ascii) * Z) (ls : list DumpLine) : list (Place * Content) :=
  match ls with
  | [] => []
  | l :: ls => lineCells sec cur l ++ linesCells sec (lineNext l cur) ls
  end.
Definition lineInside (sec : ElfSection) (l : DumpLine) : Prop :=
  match l with DL_inst _ _ a long _ _ _ => inside sec a long | _ => True end.

(** [s'] has the sections of [s], with the cells [cs] of the section [name] written
    and no other cell lost. *)
Record writes (name : list ascii) (cs : list (Place * Content)) (s s' : ObjDump) : Prop := {
  wr_bare : bare <$> od_store s' = bare <$> od_store s;
  wr_sp : od_sp s' = od_sp s;
  wr_list : od_codeSectionLst s' = od_codeSectionLst s;
  wr_syms : od_symLst s' = od_symLst s;
  wr_arch : od_archSize s' = od_archSize s;
  wr_sized : Forall sized (od_store s) -> Forall sized (od_store s');
  wr_cells : NoDup cs.*1 -> forall i h, (i, h) ∈ cs -> cellOf s' name i = Some h;
  wr_keep : forall nm i h, (nm = name -> i ∉ cs.*1) -> cellOf s nm i = Some h -> cellOf s' nm i = Some h;
}.

Lemma writes_refl name s : writes name [] s s.
Proof. split; try done. by intros _ i h H%elem_of_nil. Qed.

Lemma writes_trans name cs1 cs2 s1 s2 s3 : writes name cs1 s1 s2 -> writes name cs2 s2 s3 -> writes name (cs1 ++ cs2) s1 s3.
Proof.
  intros H1 H2. split.
  - by rewrite (wr_bare _ _ _ _ H2), (wr_bare _ _ _ _ H1).
  - by rewrite (wr_sp _ _ _ _ H2), (wr_sp _ _ _ _ H1).
  - by rewrite (wr_list _ _ _ _ H2), (wr_list _ _ _ _ H1).
  - by rewrite (wr_syms _ _ _ _ H2), (wr_syms _ _ _ _ H1).
  - by rewrite (wr_arch _ _ _ _ H2), (wr_arch _ _ _ _ H1).
  - intros H. by apply (wr_sized _ _ _ _ H2), (wr_sized _ _ _ _ H1).
  - intros Hn i h Hi. rewrite fmap_app in Hn. apply list.NoDup_app in Hn as (Hn1 & Hn2 & Hn3).
    apply elem_of_app in Hi as [Hi|Hi]; [|by apply (wr_cells _ _ _ _ H2)].
    apply (wr_keep _ _ _ _ H2); [|by apply (wr_cells _ _ _ _ H1)].
    intros _. apply Hn2. by apply (list_elem_of_fmap_2 fst cs1 (i, h)).
  - intros nm i h Hi Hc. rewrite fmap_app in Hi.
    apply (wr_keep _ _ _ _ H2); [intros E H; by apply (Hi E), elem_of_app; right|].
    apply (wr_keep _ _ _ _ H1); [intros E H; by apply (Hi E), elem_of_app; left|done].
Qed.

Lemma list_fmap_insert_same {A B} (f : A -> B) (l : list A) p x y : l !! p = Some x -> f y = f x -> f <$> <[p := y]> l = f <$> l.
Proof.
  intros E Ef. rewrite list_fmap_insert, Ef. apply list_insert_id. by rewrite list_lookup_fmap, E.
Qed.

(** A section of the list replaced by one with the same header. *)
Lemma writes_place name p sec sec' cs s : getSectionByName (od_store s) (od_sp s) name = Some p ->
  od_store s !! p = Some sec -> bare sec' = bare sec -> (sized sec -> sized sec') ->
  (NoDup cs.*1 -> forall i h, (i, h) ∈ cs -> contentAt sec' i = Some h) ->
  (forall i h, i ∉ cs.*1 -> contentAt sec i = Some h -> contentAt sec' i = Some h) ->
  writes name cs s (set_store (<[p := sec']> (od_store s)) s).
Proof.
  intros Hp Hsec Hb Hsz Hw Hk. set (s' := set_store _ s).
  assert (bare <$> od_store s' = bare <$> od_store s) as Hbare by (by apply (list_fmap_insert_same bare _ p sec)).
  assert (forall nm, getSectionByName (od_store s') (od_sp s') nm = getSectionByName (od_store s) (od_sp s) nm) as Hn.
  { intros nm. rewrite !byName_find. by apply findPlace_bare. }
  assert (p < length (od_store s))%nat as Hlt by (by apply lookup_lt_Some in Hsec).
  assert (forall nm q, getSectionByName (od_store s) (od_sp s) nm = Some q -> nm <> name -> q <> p) as Hne.
  { intros nm q Hq Hnm ->. rewrite byName_find in Hp, Hq.
    apply findPlace_prop in Hp as (? & E1 & H1). apply findPlace_prop in Hq as (? & E2 & H2). simplify_eq.
    apply bool_decide_eq_true in H1, H2. congruence. }
  split; try done.
  - intros H. apply Forall_insert; [done|]. apply Hsz. by eapply Forall_lookup_1.
  - intros Hd i h Hi. unfold cellOf. rewrite Hn, Hp. cbn [mbind option_bind s' set_store od_store].
    rewrite list_lookup_insert_eq by done. cbn [mbind option_bind]. by apply Hw.
  - intros nm i h Hi. unfold cellOf. rewrite Hn. destruct (getSectionByName (od_store s) (od_sp s) nm) as [q|] eqn:Eq; [|done].
    cbn [mbind option_bind s' set_store od_store]. destruct (decide (nm = name)) as [->|Hd].
    + simplify_eq. rewrite list_lookup_insert_eq, Hsec by done. cbn [mbind option_bind]. apply Hk. by apply Hi.
    + by rewrite list_lookup_insert_ne by (intros ->; by eapply Hne).
Qed.

Lemma writes_alloc name p sec sec' s : getSectionByName (od_store s) (od_sp s) name = Some p ->
  od_store s !! p = Some sec -> bare sec' = bare sec -> sized sec' ->
  (forall k x, contentAt sec k = Some x -> contentAt sec' k = Some x) ->
  writes name [] s (set_store (<[p := sec']> (od_store s)) s).
Proof.
  intros Hp Hsec Hb Hsz Hc. eapply writes_place; try done; [by intros _ i h H%elem_of_nil|].
  intros i h _. apply Hc.
Qed.

Lemma slots_bare a b : bare a = bare b -> slots a = slots b.
Proof. unfold slots. by intros [= _ _ _ _ _ -> _ _]. Qed.
Lemma inside_bare a b l : bare a = bare b -> lineInside a l -> lineInside b l.
Proof. destruct l; cbn; try done. unfold inside. by intros [= _ -> _ _ _ -> _ _]. Qed.
Lemma cells_bare a b cur l : bare a = bare b -> lineCells a cur l = lineCells b cur l.
Proof. destruct l; cbn; try done. unfold instCells, placeOf. by intros [= _ -> _ _ _ _ _ _]. Qed.
Lemma linesCells_bare a b ls : bare a = bare b -> forall cur, linesCells a cur ls = linesCells b cur ls.
Proof. intros E. induction ls as [|l ls IH]; intros cur; cbn [linesCells]; [done|]. by rewrite IH, (cells_bare a b). Qed.

(** One line. *)
Lemma line_writes name p sec cur l s : getSectionByName (od_store s) (od_sp s) name = Some p ->
  od_store s !! p = Some sec -> sized sec -> allocated sec -> lineInside sec l ->
  exists s' sec', lineState p cur l s = Some s' /\ writes name (lineCells sec cur l) s s' /\
    od_store s' !! p = Some sec' /\ bare sec' = bare sec /\ sized sec' /\ allocated sec'.
Proof.
  intros Hp Hsec Hsz Ha Hin. destruct l as [a nm|nm|path k n|pad k a long v gap text|]; cbn [lineState lineCells lineInside] in *.
  - exists s, sec. split; [done|]. split; [apply writes_refl|done].
  - exists s, sec. split; [done|]. split; [apply writes_refl|done].
  - exists (withFile path s), sec. split; [done|]. unfold withFile. destruct (bool_decide _); [by split; [apply writes_refl|]|].
    split; [split; try done; by intros _ i h H%elem_of_nil|done].
  - rewrite Hsec. cbn [mbind option_bind instOf].
    destruct (put_ok sec a v long text cur.1 cur.2 Hsz Ha Hin) as (sec' & -> & Hb & Hsz' & Ha' & Hw & Hk).
    cbn [mbind option_bind]. eexists _, sec'. split; [done|].
    split; [|split; [apply list_lookup_insert_eq; by apply lookup_lt_Some in Hsec|done]].
    eapply writes_place; done.
  - exists s, sec. split; [done|]. split; [apply writes_refl|done].
Qed.

Lemma lines_write name p ls : forall sec cur s, getSectionByName (od_store s) (od_sp s) name = Some p ->
  od_store s !! p = Some sec -> sized sec -> allocated sec -> Forall (lineInside sec) ls ->
  exists s', linesState p cur ls s = Some s' /\ writes name (linesCells sec cur ls) s s'.
Proof.
  induction ls as [|l ls IH]; intros sec cur s Hp Hsec Hsz Ha Hin; cbn [linesState].
  - exists s. split; [done|apply writes_refl].
  - apply list.Forall_cons in Hin as [Hl Hls].
    destruct (line_writes name p sec cur l s Hp Hsec Hsz Ha Hl) as (s1 & sec1 & -> & Hw & Hsec1 & Hb & Hsz1 & Ha1).
    cbn [mbind option_bind].
    destruct (IH sec1 (lineNext l cur) s1) as (s2 & E2 & Hw2); [|done..| |].
    { rewrite (wr_sp _ _ _ _ Hw), <-Hp, !byName_find. apply findPlace_bare. by rewrite (wr_bare _ _ _ _ Hw). }
    { eapply list.Forall_impl; [exact Hls|]. intros l2. by apply inside_bare. }
    exists s2. split; [done|]. cbn [linesCells]. eapply writes_trans; [exact Hw|]. by rewrite (linesCells_bare sec sec1).
Qed.

(** The sections by their names, without the arrays. *)
Definition named (s : ObjDump) (name : list ascii) : option ElfSection :=
  p ← getSectionByName (od_store s) (od_sp s) name; bare <$> od_store s !! p.

Definition blockCells (N : list ascii -> option ElfSection) (b : DumpBlock) : list (Place * Content) :=
  match N (db_name b) with Some k => linesCells k (None, 0) (db_lines b) | None => [] end.
Definition blockKeys (N : list ascii -> option ElfSection) (b : DumpBlock) : list (list ascii * Place) :=
  (fun c => (db_name b, c.1)) <$> blockCells N b.
Definition block_inside (N : list ascii -> option ElfSection) (b : DumpBlock) : Prop :=
  match N (db_name b) with
  | Some k => sc_size k + 1 < 2 ^ 31 /\ 0 <= sc_size k /\ Forall (lineInside k) (db_lines b)
  | None => False
  end.

Lemma block_write N b s : (forall nm, named s nm = N nm) -> Forall sized (od_store s) -> block_inside N b ->
  exists s', blockState b s = Some s' /\ writes (db_name b) (blockCells N b) s s'.
Proof.
  intros HN Hsz Hb. unfold block_inside, blockCells in *. rewrite <-HN in Hb |- *. unfold named in Hb |- *. unfold blockState.
  destruct (getSectionByName _ _ (db_name b)) as [p|] eqn:Ep; [|done]. cbn [mbind option_bind] in Hb |- *.
  destruct (od_store s !! p) as [sec|] eqn:Esec; [|done]. cbn [fmap option_fmap option_map mbind option_bind] in Hb |- *.
  destruct Hb as (H31 & H0 & Hin). change (sc_size (bare sec)) with (sc_size sec) in H31, H0.
  assert (sized sec) as Hs by (by eapply Forall_lookup_1).
  destruct (alloc_ok sec) as (sec1 & -> & Hb1 & Hsz1 & Ha1 & Hc1); [by rewrite u32_small by lia|done|].
  pose proof (writes_alloc _ p sec sec1 s Ep Esec Hb1 Hsz1 Hc1) as Hw. cbn [mbind option_bind].
  set (s1 := set_store _ s) in *.
  destruct (lines_write (db_name b) p (db_lines b) sec1 (None, 0) s1) as (s2 & -> & Hw2); [| |done..| |].
  { rewrite (wr_sp _ _ _ _ Hw), <-Ep, !byName_find. apply findPlace_bare. by rewrite (wr_bare _ _ _ _ Hw). }
  { apply list_lookup_insert_eq. by apply lookup_lt_Some in Esec. }
  { eapply list.Forall_impl; [exact Hin|]. intros l. apply inside_bare. by rewrite Hb1. }
  exists s2. split; [done|]. rewrite (linesCells_bare (bare sec) sec1) by (by rewrite Hb1).
  by apply (writes_trans _ [] _ s s1).
Qed.

Lemma named_writes name cs s s' nm : writes name cs s s' -> named s' nm = named s nm.
Proof.
  intros Hw. unfold named. rewrite (wr_sp _ _ _ _ Hw), !byName_find.
  rewrite (findPlace_bare _ (od_store s') (od_store s)) by (apply (wr_bare _ _ _ _ Hw)).
  destruct (findPlace _ _ _) as [p|]; [|done]. cbn. by rewrite <-!list_lookup_fmap, (wr_bare _ _ _ _ Hw).
Qed.

(** All the disassemblies. *)
Lemma blocks_write N bs : forall s, (forall nm, named s nm = N nm) -> Forall sized (od_store s) ->
  Forall (block_inside N) bs -> NoDup (concat (blockKeys N <$> bs)) ->
  exists s', blocksState bs s = Some s' /\ bare <$> od_store s' = bare <$> od_store s /\ od_sp s' = od_sp s /\
    od_codeSectionLst s' = od_codeSectionLst s /\ od_symLst s' = od_symLst s /\ od_archSize s' = od_archSize s /\
    Forall sized (od_store s') /\
    (forall b i h, b ∈ bs -> (i, h) ∈ blockCells N b -> cellOf s' (db_name b) i = Some h) /\
    (forall nm i h, (nm, i) ∉ concat (blockKeys N <$> bs) -> cellOf s nm i = Some h -> cellOf s' nm i = Some h).
Proof.
  induction bs as [|b bs IH]; intros s HN Hsz Hin Hd; cbn [blocksState].
  - exists s. split_and!; try done. by intros b i h H%elem_of_nil.
  - apply list.Forall_cons in Hin as [Hb Hbs]. cbn [fmap list_fmap concat] in Hd. apply list.NoDup_app in Hd as (Hd1 & Hd2 & Hd3).
    destruct (block_write N b s HN Hsz Hb) as (s1 & -> & Hw). cbn [mbind option_bind].
    destruct (IH s1) as (s2 & E2 & E3 & E4 & E5 & E6 & E7 & Hsz2 & Hc & Hk); [|by apply (wr_sized _ _ _ _ Hw)|done..|].
    { intros nm. by rewrite (named_writes _ _ _ _ nm Hw). }
    exists s2. split; [done|]. rewrite E3, E4, E5, E6, E7, (wr_bare _ _ _ _ Hw), (wr_sp _ _ _ _ Hw), (wr_list _ _ _ _ Hw).
    rewrite (wr_syms _ _ _ _ Hw), (wr_arch _ _ _ _ Hw).
    split_and!; try done.
    + intros b' i h Hb' Hi. apply elem_of_cons in Hb' as [->|Hb']; [|by apply (Hc b')]. apply Hk.
      * apply Hd2. apply (list_elem_of_fmap_2 (fun c : Place * Content => (db_name b, c.1)) _ (i, h) Hi).
      * apply (wr_cells _ _ _ _ Hw); [|done]. unfold blockKeys in Hd1.
        apply (NoDup_fmap_1 (fun i => (db_name b, i))). by rewrite <-list_fmap_compose.
    + intros nm i h Hi Hcell. cbn [fmap list_fmap concat] in Hi. rewrite not_elem_of_app in Hi. destruct Hi as [Hi1 Hi2].
      apply Hk; [done|]. apply (wr_keep _ _ _ _ Hw); [|done]. intros -> Hi. apply Hi1.
      apply list_elem_of_fmap in Hi as (c & -> & Hi). by apply (list_elem_of_fmap_2 (fun c : Place * Content => (db_name b, c.1))).
Qed.

(** ** Fetching *)

(** The length of an instruction is that of its lowest bits. *)
Definition rightLength (long : bool) (v : Z) : Prop :=
  if long then 0 <= v < 2 ^ 32 /\ v mod 4 = 3 /\ v mod 32 <> 31 else 0 <= v < 2 ^ 16 /\ v mod 4 <> 3.

Lemma element_halfword sec i h : element (sc_code sec) i = Some h -> halfword (codeSection sec) i = Some h.
Proof.
  unfold element, halfword. cbn [codeSection cs_code]. destruct (sc_code sec) as [code|]; [|done]. cbn.
  by destruct (0 <=? i).
Qed.

Lemma instruction_ok sec i (long : bool) v : rightLength long v -> element (sc_code sec) i = Some (u16 v) ->
  (long = true -> element (sc_code sec) (i + 1) = Some (u16 (Z.shiftr v 16))) -> instructionAt (codeSection sec) i = Some (inr v).
Proof.
  intros Hv Hlow Hhigh. unfold instructionAt. rewrite (element_halfword _ _ _ Hlow). cbn [mbind option_bind].
  rewrite land_3. change (u16 v mod 4) with (u16 v mod 2 ^ 2). change (Z.land (u16 v) 31) with (Z.land (u16 v) (Z.ones 5)). rewrite land_ones_mod by lia.
  unfold u16, wrap. rewrite (mod_mod_pow2 v 2 16), (mod_mod_pow2 v 5 16) by lia. destruct long.
  - destruct Hv as (Hv & H4 & H32). change (2 ^ 2) with 4. change (2 ^ 5) with 32. rewrite H4. change (3 =? 3) with true. cbv iota.
    destruct (Z.eqb_spec (v mod 32) 31); [done|]. rewrite (element_halfword _ _ _ (Hhigh eq_refl)). cbn [mbind option_bind].
    do 2 f_equal. unfold u16, u32, wrap. rewrite Z.shiftr_div_pow2, Z.shiftl_mul_pow2 by lia.
    rewrite (Z.mod_small (v / 2 ^ 16)) by dlia. rewrite (Z.mod_small (v / 2 ^ 16 * 2 ^ 16)) by dlia.
    rewrite lor_disjoint_add by dlia. dlia.
  - destruct Hv as (Hv & H4). change (2 ^ 2) with 4. destruct (Z.eqb_spec (v mod 4) 3); [done|].
    by rewrite Z.mod_small by lia.
Qed.

Lemma codeIndex_ok sec a vmo long : sc_vmaOffset sec = vmo -> inside sec a long ->
  codeIndex (codeSection sec) (u64 (a + vmo)) = placeOf sec a.
Proof.
  intros <- Hin. destruct (inside_place _ _ _ Hin) as (<- & _). unfold codeIndex. cbn [codeSection cs_vmaOffset cs_startAddr].
  do 2 f_equal. unfold u64, wrap. rewrite <-Z.sub_add_distr, Zminus_mod_idemp_l. f_equal. lia.
Qed.

(** ** A dump that is read *)

(** The sections of a list. *)
Definition sectionsAt (store : list ElfSection) (l : list nat) : list ElfSection := omap (fun p => store !! p) l.

Lemma sectionsAt_code addr store l : getSectionByAddress addr (codeSections store l) =
  codeSection <$> List.find (hasAddress addr) (sectionsAt store l).
Proof.
  induction l as [|p l IH]; [done|]. unfold codeSections, sectionsAt in *. cbn [omap list_omap].
  destruct (store !! p) as [sec|]; cbn [fmap option_fmap option_map]; [|done]. cbn [getSectionByAddress List.find].
  unfold hasAddress at 1. by destruct (inSection addr (codeSection sec)).
Qed.

Lemma sectionsAt_find P store l rest : Forall (fun p => is_Some (store !! p)) l ->
  (forall sec, P (bare sec) = P sec) -> forall p sec, findPlace P store l = Some p -> store !! p = Some sec ->
  List.find P (sectionsAt store (l ++ rest)) = Some sec.
Proof.
  intros Hl HP. induction Hl as [|i l [si Hi] Hl IH]; [done|]. intros p sec. unfold sectionsAt in *. cbn. rewrite Hi. cbn.
  rewrite HP. destruct (P si); [intros [= <-] E; congruence|by apply IH].
Qed.

(** The lines with the source line that they are of. *)
Fixpoint marked (cur : option (list ascii) * Z) (ls : list DumpLine) : list (DumpLine * (option (list ascii) * Z)) :=
  match ls with
  | [] => []
  | l :: ls => (l, cur) :: marked (lineNext l cur) ls
  end.

Lemma marked_cells sec l c x ls : forall cur, (l, c) ∈ marked cur ls -> x ∈ lineCells sec c l -> x ∈ linesCells sec cur ls.
Proof.
  induction ls as [|l2 ls IH]; intros cur; cbn [marked linesCells]; [by intros H%elem_of_nil|].
  intros [[= -> ->]|H]%elem_of_cons Hx; apply elem_of_app; [by left|right; by apply IH].
Qed.
Lemma marked_line l c ls : forall cur, (l, c) ∈ marked cur ls -> l ∈ ls.
Proof.
  induction ls as [|l2 ls IH]; intros cur; cbn [marked]; [by intros H%elem_of_nil|].
  intros [[= -> ->]|H]%elem_of_cons; apply elem_of_cons; [by left|right; by eapply IH].
Qed.

Lemma line_marked l ls : l ∈ ls -> forall cur, exists c, (l, c) ∈ marked cur ls.
Proof.
  induction ls as [|l2 ls IH]; [by intros H%elem_of_nil|]. intros [->|H]%elem_of_cons cur; cbn [marked].
  - exists cur. apply elem_of_cons. by left.
  - destruct (IH H (lineNext l2 cur)) as [c Hc]. exists c. apply elem_of_cons. by right.
Qed.

(** The section of an address, and what it holds of the instruction there. *)
Definition shows (secs : list ElfSection) (addr : Z) (long : bool) (v : Z) (text : list ascii)
    (fName : option (list ascii)) (line : Z) : Prop :=
  exists sp, List.find (hasAddress addr) secs = Some sp /\
    instructionAt (codeSection sp) (codeIndex (codeSection sp) addr) = Some (inr v) /\
    contentAt sp (PText (codeIndex (codeSection sp) addr)) = Some (CText text fName line) /\
    contentAt sp (PCode (codeIndex (codeSection sp) addr)) = Some (CCode (u16 v)) /\
    (long = true -> contentAt sp (PCode (codeIndex (codeSection sp) addr + 1)) = Some (CCode (u16 (Z.shiftr v 16)))).

Lemma shows_fetch r store l addr long v text fName line : er_codeSectionLst r = codeSections store l ->
  shows (sectionsAt store l) addr long v text fName line ->
  elfInstructionByAddress addr r = Ok (set_er_status DQERR_OK r) v.
Proof.
  intros Hr (sp & Hsp & Hi & _). rewrite elf_fetch, Hr, sectionsAt_code, Hsp. cbn [fmap option_fmap option_map mbind option_bind].
  by rewrite Hi.
Qed.

Section layout.
Context (vmaOffset : Z) (d : Dump).

(** The sections that are kept, in the order of the list that the parser makes. *)
Definition kept : list ElfSection := rev (omap (sectionOf vmaOffset) (d_sections d)).
Definition keptNamed (name : list ascii) : option ElfSection := List.find (hasName name) kept.

Definition instruction_fits (name : list ascii) (l : DumpLine) : Prop :=
  match l with
  | DL_inst _ _ a long v _ _ =>
      rightLength long v /\ List.find (hasAddress (u64 (a + vmaOffset))) kept = keptNamed name
  | _ => True
  end.

(** The instructions lie in the sections of their disassemblies, no two of them in
    the same place, and no earlier section has their addresses. *)
Definition layout_ok : Prop :=
  Forall (block_inside keptNamed) (d_blocks d) /\
  NoDup (concat (blockKeys keptNamed <$> d_blocks d)) /\
  Forall (fun b => Forall (instruction_fits (db_name b)) (db_lines b)) (d_blocks d).

Lemma sectionOf_bare x k : sectionOf vmaOffset x = Some k -> bare k = k /\ sized k /\ sc_vmaOffset k = vmaOffset.
Proof. unfold sectionOf. destruct (_ || _); [|done]. intros [= <-]. split_and!; try done; by intros. Qed.

Lemma withSections_places ds : forall s ks, places (od_store s) (od_sp s) ks -> Forall sized (od_store s) ->
  let s' := withSections vmaOffset ds s in
  places (od_store s') (od_sp s') (rev (omap (sectionOf vmaOffset) ds) ++ ks) /\ Forall sized (od_store s') /\
  od_codeSectionLst s' = od_codeSectionLst s /\ od_symLst s' = od_symLst s /\ od_archSize s' = od_archSize s.
Proof.
  unfold withSections. induction ds as [|x ds IH]; intros s ks Hp Hs; [done|]. cbn [foldl omap list_omap].
  unfold withSection at 2 4 6 8 10 12. destruct (sectionOf vmaOffset x) as [k|] eqn:E; [|by apply IH].
  destruct (sectionOf_bare _ _ E) as (Hb & Hk & _). set (s1 := set_sp _ _).
  destruct (IH s1 (k :: ks)) as (H1 & H2 & H3 & H4 & H5).
  - constructor; cbn [s1 set_sp set_store od_store od_sp].
    + rewrite lookup_app_r, Nat.sub_diag by done. cbn. by rewrite Hb.
    + eapply list.Forall2_impl; [exact Hp|]. cbn. intros p y Hy. destruct (od_store s !! p) as [sec|] eqn:Ep; [|done].
      by rewrite (lookup_app_l_Some _ _ _ _ Ep).
  - cbn. apply Forall_app_2; [done|by constructor].
  - cbn zeta in *. cbn [rev]. rewrite <-app_assoc. done.
Qed.

(** What the parser makes of the dump: sections, symbols, and the code. *)
Record reads_dump (s s' : ObjDump) : Prop := {
  rd_arch : od_archSize s' = if d_64 d then 64 else 32;
  rd_sections : od_codeSectionLst s' = od_sp s' ++ od_codeSectionLst s;
  rd_places : places (od_store s') (od_sp s') kept;
  rd_symbols : od_symLst s' = rev (symbolsOf vmaOffset (od_store s') (od_sp s') (d_symbols d) None) ++ od_symLst s;
  rd_sized : Forall sized (od_store s');
  rd_cells : forall b k x, b ∈ d_blocks d -> (k, x) ∈ blockCells keptNamed b -> cellOf s' (db_name b) k = Some x;
  rd_code : forall b pad k a long v gap text fName line, b ∈ d_blocks d ->
    (DL_inst pad k a long v gap text, (fName, line)) ∈ marked (None, 0) (db_lines b) ->
    shows (sectionsAt (od_store s') (od_codeSectionLst s')) (u64 (a + vmaOffset)) long v text fName line;
}.

Lemma symbolsOf_bare store store' l ds : bare <$> store = bare <$> store' -> forall file,
  symbolsOf vmaOffset store l ds file = symbolsOf vmaOffset store' l ds file.
Proof.
  intros E. induction ds as [|x ds IH]; intros file; cbn [symbolsOf]; [done|]. rewrite IH. f_equal.
  unfold symbolOf. rewrite !byName_find, (findPlace_bare _ store store') by done.
  destruct (findPlace _ _ _) as [p|]; [|done]. cbn [mbind option_bind].
  assert (bare <$> store !! p = bare <$> store' !! p) as Ep by (by rewrite <-!list_lookup_fmap, E).
  destruct (store !! p), (store' !! p); try done. apply (inj Some) in Ep. cbn [fmap option_fmap option_map default from_option].
  apply (f_equal sc_vmaOffset) in Ep. cbn in Ep. by rewrite Ep.
Qed.

Lemma places_valid store l ks : places store l ks -> Forall (fun p => is_Some (store !! p)) l.
Proof. induction 1 as [|p k l ks Hp Hl IH]; constructor; [|done]. by destruct (store !! p). Qed.

(** What is found at the address of an instruction that was put into its section. *)
Lemma shows_written s l rest b a (long : bool) v text fName line : places (od_store s) l kept -> od_sp s = l ->
  Forall (fun k => sc_vmaOffset k = vmaOffset) kept ->
  rightLength long v -> List.find (hasAddress (u64 (a + vmaOffset))) kept = keptNamed (db_name b) ->
  (exists k, keptNamed (db_name b) = Some k /\ inside k a long /\
    forall x, x ∈ instCells k a long v text fName line -> cellOf s (db_name b) x.1 = Some x.2) ->
  shows (sectionsAt (od_store s) (l ++ rest)) (u64 (a + vmaOffset)) long v text fName line.
Proof.
  intros Hp <- Hvma Hv Hadr (k & Hk & Hin & Hcells). rewrite Hk in Hadr.
  pose proof Hk as Hk2. unfold keptNamed in Hk2.
  rewrite (findPlace_places _ _ _ _ Hp) in Hadr. rewrite (findPlace_places _ _ _ _ Hp) in Hk2.
  assert (forall x, x ∈ instCells k a long v text fName line -> (p ← findPlace (hasName (db_name b)) (od_store s) (od_sp s);
    sec ← od_store s !! p; contentAt sec x.1) = Some x.2) as Hc by (intros x Hx; rewrite <-byName_find; by apply Hcells).
  destruct (findPlace (hasName (db_name b)) _ _) as [p|] eqn:E1; [|done].
  destruct (findPlace (hasAddress _) _ _) as [q|] eqn:E2; [|done]. cbn [mbind option_bind] in *.
  destruct (findPlace_prop _ _ _ _ E1) as (sp & Ep & HP). destruct (findPlace_prop _ _ _ _ E2) as (sq & Eq & HQ).
  rewrite Ep in Hk2. rewrite Eq in Hadr. apply (inj Some) in Hk2, Hadr.
  assert (p = q) as <-.
  { eapply findPlace_same; [exact E1|exact E2|exact Ep|exact Eq|by rewrite Hk2, <-Hadr|by rewrite Hadr, <-Hk2]. }
  rewrite Ep in Eq. injection Eq as <-. rewrite Ep in Hc. cbn [mbind option_bind] in Hc.
  assert (inside sp a long) as Hin2 by (unfold inside; by rewrite <-Hk2 in Hin).
  assert (placeOf sp a = placeOf k a) as Epl by (unfold placeOf; by rewrite <-Hk2).
  exists sp. split; [by eapply (sectionsAt_find _ _ _ _ (places_valid _ _ _ Hp))|].
  rewrite (codeIndex_ok sp a vmaOffset long), Epl; [| |done].
  2: { rewrite List.Forall_forall in Hvma. rewrite <-(Hvma k), <-Hk2 by (by apply (List.find_some _ _ Hk)). done. }
  set (i := placeOf k a) in *.
  assert (contentAt sp (PText i) = Some (CText text fName line)) as H1 by (apply (Hc (PText i, _)), elem_of_cons; by left).
  assert (contentAt sp (PCode i) = Some (CCode (u16 v))) as H2
    by (apply (Hc (PCode i, _)), elem_of_cons; right; apply elem_of_cons; by left).
  assert (long = true -> contentAt sp (PCode (i + 1)) = Some (CCode (u16 (Z.shiftr v 16)))) as H3.
  { intros ->. apply (Hc (PCode (i + 1), _)), elem_of_cons. right. apply elem_of_cons. right. by apply list_elem_of_singleton. }
  split_and!; try done. apply (instruction_ok sp i long v Hv).
  - cbn [contentAt] in H2. destruct (element (sc_code sp) i); [|done]. by injection H2 as ->.
  - intros Hlong. specialize (H3 Hlong). cbn [contentAt] in H3. destruct (element (sc_code sp) (i + 1)); [|done]. by injection H3 as ->.
Qed.

Lemma kept_vma : Forall (fun k => sc_vmaOffset k = vmaOffset) kept.
Proof.
  unfold kept. apply List.Forall_rev. apply list.Forall_forall. intros k (x & _ & E)%list_elem_of_omap.
  by apply sectionOf_bare in E as (_ & _ & ?).
Qed.

Lemma named_kept s : places (od_store s) (od_sp s) kept -> forall nm, named s nm = keptNamed nm.
Proof. intros H nm. unfold named, keptNamed. by rewrite byName_find, (findPlace_places _ _ _ _ H). Qed.

Lemma places_bare store store' l ks : bare <$> store' = bare <$> store -> places store l ks -> places store' l ks.
Proof.
  intros E H. eapply list.Forall2_impl; [exact H|]. intros p k. by rewrite <-!list_lookup_fmap, E.
Qed.

Lemma dumpState_ok s : layout_ok -> Forall sized (od_store s) ->
  exists s', dumpState vmaOffset d s = Some s' /\ reads_dump s s'.
Proof.
  intros (Hin & Hd & Hfit) Hsz. unfold dumpState. set (s1 := dumpHead d s).
  destruct (withSections_places (d_sections d) s1 []) as (Hp & Hs2 & El & Ey & Ea); [constructor|done|].
  cbn zeta in *. rewrite app_nil_r in Hp. change (rev _) with kept in Hp. set (s2 := withSections _ _ s1) in *.
  set (s3 := dumpSymbols vmaOffset d s2).
  destruct (blocks_write keptNamed (d_blocks d) s3 (named_kept s3 Hp) Hs2 Hin Hd) as (s4 & -> & Eb & Esp & El4 & Ey4 & Ea4 & Hsz4 & Hc & _).
  cbn [mbind option_bind]. eexists. split; [done|]. change (od_sp s3) with (od_sp s2) in Esp.
  assert (places (od_store s4) (od_sp s4) kept) as Hp4 by (rewrite Esp; by apply (places_bare (od_store s2))).
  change (od_codeSectionLst s3) with (od_codeSectionLst s2) in El4. change (od_codeSectionLst s1) with (od_codeSectionLst s) in El.
  split; cbn [set_codeSectionLst od_archSize od_store od_codeSectionLst od_symLst].
  - rewrite Ea4. change (od_archSize s3) with (od_archSize s2). by rewrite Ea.
  - by rewrite El4, El.
  - done.
  - cbn [set_codeSectionLst od_sp]. rewrite Ey4, Esp.
    change (od_symLst s3) with (rev (symbolsOf vmaOffset (od_store s2) (od_sp s2) (d_symbols d) None) ++ od_symLst s2).
    rewrite Ey, (symbolsOf_bare (od_store s4) (od_store s2)); done.
  - done.
  - intros b k x Hb Hx. by apply (Hc b).
  - intros b pad k a long v gap text fName line Hb Hm. pose proof (marked_line _ _ _ _ Hm) as Hl. rewrite list.Forall_forall in Hfit, Hin.
    pose proof (Hfit b Hb) as Hfb. rewrite list.Forall_forall in Hfb. destruct (Hfb _ Hl) as [Hv Hadr].
    apply (shows_written s4 (od_sp s4) _ b); try done; [apply kept_vma|].
    specialize (Hin b Hb). unfold block_inside in Hin. destruct (keptNamed (db_name b)) as [sec|] eqn:En; [|done].
    destruct Hin as (_ & _ & Hls). rewrite list.Forall_forall in Hls. exists sec. split; [done|]. split; [by apply (Hls _ Hl)|].
    intros [i h] Hi. apply (Hc b); [done|]. unfold blockCells. rewrite En. by apply (marked_cells _ _ _ _ _ _ Hm).
Qed.

(** Whatever the pieces are in which the text comes. *)
Lemma dump_read fuel p s : dump_ok fuel d -> layout_ok -> Forall sized (od_store s) -> holds p (dumpText d) ->
  exists s', parseObjDump fuel vmaOffset 0 0 (set_pipe p s) = Ok s' tt /\ reads_dump s s'.
Proof.
  intros Hok Hl Hsz Hp. destruct (dumpState_ok s Hl Hsz) as (s' & E & []).
  pose proof (dump_goes fuel vmaOffset d s s' Hok E) as Hg. unfold goes, at_ in Hg.
  pose proof (parse_pieces fuel vmaOffset 0 0 (textPipe (dumpText d)) p (dumpText d) s (holds_text _) Hp) as Ha.
  rewrite Hg in Ha. destruct (parseObjDump _ _ _ _ (set_pipe p s)) as [s2 []|s2 e| |]; try done. destruct Ha as [_ [_ Es]].
  exists s2. split; [done|]. rewrite Es. by split.
Qed.
End layout.
