(* ===== verification/Symbols.v ===== *)
(** * Symbols (src/dqr.cpp, [Symtab])

    The symbols of the object files, sorted by address, with the sizes that the files
    do not give filled in, and the search of the symbol of an address.

    [qsort] is that of the C library: of it is known that its result is a permutation,
    in order if the comparison is one; what it does with equal elements is not. *)

From stdpp Require Import strings.
From Stdlib Require Import Ascii Sorted.
From Stdlib Require String.
From S2P Require Import Prelude Nexus Memory ObjDump.

(** ** Sorting *)

Class Qsort := qsort : forall A : Type, (A -> A -> Z) -> list A -> list A.
Arguments qsort {_ A} cmp l.

(** [cmp] is the comparison of an order on the elements that [P] holds of. *)
Record comparison_on {A} (P : A -> Prop) (cmp : A -> A -> Z) : Prop := {
  cmp_flip a b : P a -> P b -> cmp a b <= 0 \/ cmp b a <= 0;
  cmp_trans a b c : P a -> P b -> P c -> cmp a b <= 0 -> cmp b c <= 0 -> cmp a c <= 0;
}.

Class QsortLaws `{!Qsort} := {
  qsort_perm A (cmp : A -> A -> Z) l : qsort cmp l ≡ₚ l;
  qsort_sorted A (P : A -> Prop) (cmp : A -> A -> Z) l : comparison_on P cmp -> List.Forall P l ->
    StronglySorted (fun a b => cmp a b <= 0) (qsort cmp l);
}.

(** Insertion is such a sort. *)
Section insertion.
Context {A : Type} (cmp : A -> A -> Z).

Fixpoint insertSorted (x : A) (l : list A) : list A :=
  match l with
  | [] => [x]
  | y :: l => if cmp x y <=? 0 then x :: y :: l else y :: insertSorted x l
  end.
Definition insertionSort (l : list A) : list A := foldr insertSorted [] l.

Lemma insertSorted_perm x l : insertSorted x l ≡ₚ x :: l.
Proof.
  induction l as [|y l IH]; cbn [insertSorted]; [done|]. destruct (cmp x y <=? 0); [done|].
  rewrite IH. apply Permutation_swap.
Qed.
Lemma insertionSort_perm l : insertionSort l ≡ₚ l.
Proof. induction l as [|x l IH]; cbn; [done|]. by rewrite insertSorted_perm, IH. Qed.

Lemma insertSorted_sorted P x l : comparison_on P cmp -> P x -> List.Forall P l ->
  StronglySorted (fun a b => cmp a b <= 0) l -> StronglySorted (fun a b => cmp a b <= 0) (insertSorted x l).
Proof.
  intros Hc Hx Hl. induction 1 as [|y l Hs IH Hy]; cbn [insertSorted].
  - by repeat constructor.
  - apply list.Forall_cons in Hl as [Py Hl]. destruct (Z.leb_spec (cmp x y) 0) as [Hxy|Hxy].
    + constructor; [by constructor|]. constructor; [done|]. rewrite List.Forall_forall in Hy, Hl |- *. intros z Hz.
      apply (cmp_trans P cmp Hc x y z); auto.
    + constructor; [by apply IH|]. rewrite insertSorted_perm. constructor; [|done].
      destruct (cmp_flip P cmp Hc x y); [done|done|lia|done].
Qed.
Lemma insertionSort_sorted P l : comparison_on P cmp -> List.Forall P l ->
  StronglySorted (fun a b => cmp a b <= 0) (insertionSort l).
Proof.
  intros Hc. induction 1 as [|x l Hx Hl IH]; cbn; [constructor|]. apply (insertSorted_sorted P); [done|done| |done].
  by rewrite insertionSort_perm.
Qed.
End insertion.

#[export] Instance insertion_qsort : Qsort := @insertionSort.
#[export] Instance insertion_qsort_laws : QsortLaws.
Proof. split; intros; [apply insertionSort_perm|by eapply insertionSort_sorted]. Qed.

(** ** The order of the symbols *)

Definition symHas (flag : Z) (s : Sym) : bool := negb (Z.land (sy_flags s) flag =? 0).

(** The first difference of two lists of numbers. *)
Fixpoint lexZ (a b : list Z) : Z :=
  match a, b with
  | [], [] => 0
  | [], _ => -1
  | _, [] => 1
  | x :: a, y :: b => if x <? y then -1 else if y <? x then 1 else lexZ a b
  end.
(** [strcmp], of which only the sign is used. *)
Definition strOrder (a b : list ascii) : Z := lexZ (code_of <$> a) (code_of <$> b).

Definition i64 (x : Z) : Z := swrap 64 x.

Definition symCompareFunc (first second : Sym) : Z :=
  let cv := i64 (u64 (u64 (sy_address first + sy_vmaOffset first) - u64 (sy_address second + sy_vmaOffset second))) in
  if 0 <? cv then 1
  else if cv <? 0 then -1
  else if symHas symWeak first && negb (symHas symWeak second) then 1
  else if negb (symHas symWeak first) && symHas symWeak second then -1
  else if symHas symDebug first && negb (symHas symDebug second) then 1
  else if negb (symHas symDebug first) && symHas symDebug second then -1
  else if negb (symHas symGlobal first) && symHas symGlobal second then 1
  else if symHas symGlobal first && negb (symHas symGlobal second) then -1
  else if negb (symHas symFunc first) && symHas symFunc second then 1
  else if symHas symFunc first && negb (symHas symFunc second) then -1
  else strOrder (sy_name first) (sy_name second).

(** ** The table *)

(** [symLst] has the symbols; [symPtrArray] points to them, by their places in it. *)
Record Symtab := {
  st_symLst : list Sym;
  st_symPtrArray : list nat;
  st_cachedSymAddr : Z;
  st_cachedSymSize : Z;
  st_cachedSymIndex : Z;
}.

Definition setSize (size : Z) (s : Sym) : Sym := {|
  sy_name := sy_name s; sy_flags := sy_flags s; sy_section := sy_section s; sy_vmaOffset := sy_vmaOffset s;
  sy_address := sy_address s; sy_size := size; sy_srcFile := sy_srcFile s |}.

(** The size of [x], of the section [sec], by the symbols after it: up to the end of the
    section if they are of another one, else up to the next address, if there is one. *)
Fixpoint sizeByNext (store : list ElfSection) (syms : list Sym) (x : Sym) (sec : nat) (after : list nat)
    : option (option Z) :=
  match after with
  | [] => Some None
  | e :: after =>
      y ← syms !! e;
      if bool_decide (sy_section x = sy_section y) then
        if sy_address y =? sy_address x then sizeByNext store syms x sec after
        else Some (Some (u64 (sy_address y - sy_address x)))
      else
        k ← store !! sec;
        Some (Some (u64 (sc_endAddr k + 1 - sy_address x)))
  end.

Fixpoint fixupFunctionSizes (store : list ElfSection) (ptrs : list nat) (syms : list Sym) : option (list Sym) :=
  match ptrs with
  | [] => Some syms
  | s :: after =>
      x ← syms !! s;
      syms ←
        match sy_section x with
        | Some sec =>
            if (sy_size x =? 0) && negb (symHas symDebug x) then
              size ← sizeByNext store syms x sec after;
              Some (match size with Some n => <[s := setSize n x]> syms | None => syms end)
            else Some syms
        | None => Some syms
        end;
      fixupFunctionSizes store after syms
  end.

Section symtab.
Context `{!Qsort}.

Definition compareAt (syms : list Sym) (p q : nat) : Z :=
  match syms !! p, syms !! q with
  | Some x, Some y => symCompareFunc x y
  | _, _ => 0
  end.

Definition newSymtab (store : list ElfSection) (syms : list Sym) : option Symtab :=
  let ptrs := qsort (compareAt syms) (seq 0 (length syms)) in
  syms ← fixupFunctionSizes store ptrs syms;
  Some {| st_symLst := syms; st_symPtrArray := ptrs; st_cachedSymAddr := 0; st_cachedSymSize := 0;
          st_cachedSymIndex := -1 |}.
End symtab.

Definition covers (addr : Z) (x : Sym) : bool :=
  (sy_address x <=? u64 (addr - sy_vmaOffset x)) && (u64 (addr - sy_vmaOffset x) <? u64 (sy_address x + sy_size x)).

(** The index of the first symbol of the array that covers an address, from [i] on. *)
Fixpoint findCovering (syms : list Sym) (addr : Z) (ptrs : list nat) (i : Z) : option (option (Z * nat * Sym)) :=
  match ptrs with
  | [] => Some None
  | p :: ptrs =>
      x ← syms !! p;
      if covers addr x then Some (Some (i, p, x)) else findCovering syms addr ptrs (i + 1)
  end.

(** The symbol is a pointer; the cache is as the code has it. *)
Definition lookupSymbolByAddress (addr : Z) : M Symtab DQErr (option nat) :=
  if addr =? 0 then throw DQERR_ERR
  else
    t ← get;
    if (st_cachedSymAddr t <=? addr) && (addr <? u64 (st_cachedSymAddr t + st_cachedSymSize t)) then
      p ← lift_opt (if 0 <=? st_cachedSymIndex t then st_symPtrArray t !! Z.to_nat (st_cachedSymIndex t) else None);
      mret (Some p)
    else
      found ← lift_opt (findCovering (st_symLst t) addr (st_symPtrArray t) 0);
      match found with
      | Some (i, p, x) =>
          modify (fun t => {|
            st_symLst := st_symLst t; st_symPtrArray := st_symPtrArray t;
            st_cachedSymAddr := u64 (sy_address x + sy_vmaOffset x); st_cachedSymSize := st_cachedSymSize t;
            st_cachedSymIndex := i |}) ≫= fun _ =>
          mret (Some p)
      | None => mret None
      end.

(** ** The order is one *)

Lemma lexZ_flip a : forall b, lexZ b a = - lexZ a b.
Proof.
  induction a as [|x a IH]; intros [|y b]; cbn [lexZ]; try done.
  destruct (Z.ltb_spec x y), (Z.ltb_spec y x); try lia; try done.
Qed.
Lemma lexZ_trans a : forall b c, lexZ a b <= 0 -> lexZ b c <= 0 -> lexZ a c <= 0.
Proof.
  induction a as [|x a IH]; intros [|y b] [|z c]; cbn [lexZ]; try lia.
  repeat match goal with |- context [?u <? ?v] => destruct (Z.ltb_spec u v) end; try lia; try apply IH.
Qed.

(** What the symbols are compared by. *)
Definition symKey (s : Sym) : list Z :=
  (sy_address s + sy_vmaOffset s) :: Z.b2z (symHas symWeak s) :: Z.b2z (symHas symDebug s) ::
  Z.b2z (negb (symHas symGlobal s)) :: Z.b2z (negb (symHas symFunc s)) :: (code_of <$> sy_name s).

(** Addresses that are less than half of the address space apart. *)
Definition lowSym (s : Sym) : Prop := 0 <= sy_address s + sy_vmaOffset s < 2 ^ 63.

Lemma symCompare_key a b : lowSym a -> lowSym b -> symCompareFunc a b = lexZ (symKey a) (symKey b).
Proof.
  unfold lowSym, symCompareFunc, symKey, strOrder. intros Ha Hb.
  set (x := sy_address a + sy_vmaOffset a) in *. set (y := sy_address b + sy_vmaOffset b) in *.
  rewrite (u64_small x), (u64_small y) by lia.
  assert (i64 (u64 (x - y)) = x - y) as ->.
  { unfold i64, swrap, u64, wrap. destruct (Z.ltb_spec ((x - y) mod 2 ^ 64 mod 2 ^ 64) (2 ^ (64 - 1))); dlia. }
  cbn [lexZ]. destruct (Z.ltb_spec x y), (Z.ltb_spec y x), (Z.ltb_spec 0 (x - y)), (Z.ltb_spec (x - y) 0); try lia; try done.
  destruct (symHas symWeak a), (symHas symWeak b), (symHas symDebug a), (symHas symDebug b), (symHas symGlobal a),
    (symHas symGlobal b), (symHas symFunc a), (symHas symFunc b); done.
Qed.

Lemma symCompare_order : comparison_on lowSym symCompareFunc.
Proof.
  split.
  - intros a b Ha Hb. rewrite !symCompare_key, (lexZ_flip (symKey a) (symKey b)) by done. lia.
  - intros a b c Ha Hb Hc. rewrite !symCompare_key by done. apply lexZ_trans.
Qed.

(** ** The sizes *)

(** The section of a symbol, if there is one, is in the store. *)
Definition placed (store : list ElfSection) (s : Sym) : Prop :=
  match sy_section s with Some k => is_Some (store !! k) | None => True end.

Definition unsized (syms : list Sym) : list Sym := setSize 0 <$> syms.

Lemma unsized_lookup syms syms' p y : unsized syms' = unsized syms -> syms' !! p = Some y ->
  exists x, syms !! p = Some x /\ setSize 0 y = setSize 0 x.
Proof.
  intros E Hp. apply (f_equal (fun l => l !! p)) in E. unfold unsized in E. rewrite !list_lookup_fmap, Hp in E.
  destruct (syms !! p) as [x|]; [|done]. exists x. by apply (inj Some) in E.
Qed.

Lemma unsized_insert syms p n x : syms !! p = Some x -> unsized (<[p := setSize n x]> syms) = unsized syms.
Proof.
  intros E. unfold unsized. rewrite list_fmap_insert. apply list_insert_id. by rewrite list_lookup_fmap, E.
Qed.

(** A function of a symbol that does not depend on its size. *)
Lemma unsized_eq {B} (f : Sym -> B) x y : (forall n s, f (setSize n s) = f s) -> setSize 0 x = setSize 0 y -> f x = f y.
Proof. intros Hf E. rewrite <-(Hf 0 x), E. apply Hf. Qed.

Lemma sizeByNext_unsized store syms syms' x sec after : unsized syms' = unsized syms ->
  sizeByNext store syms' x sec after = sizeByNext store syms x sec after.
Proof.
  intros E. induction after as [|e after IH]; cbn [sizeByNext]; [done|].
  pose proof (f_equal (fun l => l !! e) E) as Ee. unfold unsized in Ee. rewrite !list_lookup_fmap in Ee.
  destruct (syms' !! e) as [y'|], (syms !! e) as [y|]; try done. apply (inj Some) in Ee. cbn [mbind option_bind].
  rewrite (unsized_eq sy_section y' y), (unsized_eq sy_address y' y) by done. by rewrite IH.
Qed.

Lemma sizeByNext_some store syms x sec after : List.Forall (fun e => is_Some (syms !! e)) after -> is_Some (store !! sec) ->
  is_Some (sizeByNext store syms x sec after).
Proof.
  intros Ha [k Hk]. induction Ha as [|e after [y He] Ha IH]; cbn [sizeByNext]; [by eexists|]. rewrite He. cbn [mbind option_bind].
  destruct (bool_decide _); [|rewrite Hk; by eexists]. destruct (_ =? _); [done|by eexists].
Qed.

(** The size of a symbol that is followed by [after] in the order. *)
Definition sizeOf (store : list ElfSection) (syms : list Sym) (x : Sym) (after : list nat) : Z :=
  match sy_section x with
  | Some sec =>
      if (sy_size x =? 0) && negb (symHas symDebug x)
      then match sizeByNext store syms x sec after with Some (Some n) => n | _ => sy_size x end
      else sy_size x
  | None => sy_size x
  end.

(** The table is made, and only sizes change. *)
Lemma fixup_spec store ptrs : forall syms, List.Forall (fun p => is_Some (syms !! p)) ptrs -> List.Forall (placed store) syms ->
  exists syms', fixupFunctionSizes store ptrs syms = Some syms' /\ unsized syms' = unsized syms.
Proof.
  induction ptrs as [|p ptrs IH]; intros syms Hp Hs; cbn [fixupFunctionSizes]; [by exists syms|].
  apply list.Forall_cons in Hp as [[x Hx] Hp]. rewrite Hx. cbn [mbind option_bind].
  assert (placed store x) as Hpl by (rewrite list.Forall_forall in Hs; by apply Hs, (list_elem_of_lookup_2 _ p)).
  unfold placed in Hpl. destruct (sy_section x) as [sec|]; [|by apply IH].
  destruct (_ && _); [|by apply IH].
  destruct (sizeByNext_some store syms x sec ptrs Hp Hpl) as [[n|] ->]; cbn [mbind option_bind]; [|by apply IH].
  destruct (IH (<[p := setSize n x]> syms)) as (syms' & -> & E).
  - apply (list.Forall_impl _ _ _ Hp). intros q. by rewrite !lookup_lt_is_Some, length_insert.
  - apply Forall_insert; [done|]. unfold placed in *. cbn. rewrite list.Forall_forall in Hs.
    apply (Hs x). by apply (list_elem_of_lookup_2 _ p).
  - exists syms'. split; [done|]. by rewrite E, unsized_insert.
Qed.

Lemma setSize_id x : setSize (sy_size x) x = x.
Proof. by destruct x. Qed.

Lemma sizeOf_unsized store syms syms' x after : unsized syms' = unsized syms -> sizeOf store syms' x after = sizeOf store syms x after.
Proof. intros E. unfold sizeOf. destruct (sy_section x); [|done]. by rewrite (sizeByNext_unsized _ syms syms'). Qed.

(** One turn of the loop. *)
Lemma fixup_turn store syms s after syms' : fixupFunctionSizes store (s :: after) syms = Some syms' ->
  exists x, syms !! s = Some x /\ fixupFunctionSizes store after (<[s := setSize (sizeOf store syms x after) x]> syms) = Some syms'.
Proof.
  cbn [fixupFunctionSizes]. destruct (syms !! s) as [x|] eqn:Hx; [|done]. cbn [mbind option_bind]. intros E. exists x. split; [done|].
  unfold sizeOf. destruct (sy_section x) as [sec|]; [|by rewrite setSize_id, list_insert_id].
  destruct (_ && _); [|by rewrite setSize_id, list_insert_id].
  destruct (sizeByNext store syms x sec after) as [[n|]|]; cbn [mbind option_bind] in E; [done| |done].
  by rewrite setSize_id, list_insert_id.
Qed.

Lemma fixup_other store ptrs p : forall syms syms', fixupFunctionSizes store ptrs syms = Some syms' -> p ∉ ptrs -> syms' !! p = syms !! p.
Proof.
  induction ptrs as [|s ptrs IH]; intros syms syms' E Hp; [by injection E as ->|].
  apply fixup_turn in E as (x & Hx & E). apply not_elem_of_cons in Hp as [Hne Hp].
  rewrite (IH _ _ E Hp). by rewrite list_lookup_insert_ne.
Qed.

Lemma fixup_sizes store ptrs l1 p l2 : forall syms syms' x, fixupFunctionSizes store ptrs syms = Some syms' -> NoDup ptrs ->
  ptrs = l1 ++ p :: l2 -> syms !! p = Some x -> syms' !! p = Some (setSize (sizeOf store syms x l2) x).
Proof.
  revert ptrs. induction l1 as [|q l1 IH]; intros ptrs syms syms' x E Hnd -> Hx; cbn [app] in E, Hnd;
    apply fixup_turn in E as (y & Hy & E); apply list.NoDup_cons in Hnd as [Hni Hnd].
  - rewrite Hx in Hy. apply (inj Some) in Hy as <-. rewrite (fixup_other _ _ _ _ _ E) by done.
    rewrite list_lookup_insert_eq; [done|]. by apply (lookup_lt_Some _ _ _ Hx).
  - assert (q <> p) as Hne by (intros ->; apply Hni, elem_of_app; right; by apply elem_of_cons; left).
    erewrite (IH _ _ _ x E Hnd eq_refl); [|by rewrite list_lookup_insert_ne].
    by rewrite (sizeOf_unsized store syms) by by apply unsized_insert.
Qed.

(** ** The search *)

Lemma findCovering_spec syms addr ptrs : forall i, List.Forall (fun p => is_Some (syms !! p)) ptrs ->
  match findCovering syms addr ptrs i with
  | Some (Some (j, p, x)) => exists l1 l2, ptrs = l1 ++ p :: l2 /\ j = i + Z.of_nat (length l1) /\ syms !! p = Some x /\
      covers addr x = true /\ forall q y, q ∈ l1 -> syms !! q = Some y -> covers addr y = false
  | Some None => forall q y, q ∈ ptrs -> syms !! q = Some y -> covers addr y = false
  | None => False
  end.
Proof.
  induction ptrs as [|p ptrs IH]; intros i Hp; cbn [findCovering]; [by intros q y ?%elem_of_nil|].
  apply list.Forall_cons in Hp as [[x Hx] Hp]. rewrite Hx. cbn [mbind option_bind]. destruct (covers addr x) eqn:Ec.
  - exists [], ptrs. cbn. split_and!; [done|lia|done|done|]. by intros q y ?%elem_of_nil.
  - specialize (IH (i + 1) Hp). destruct (findCovering syms addr ptrs (i + 1)) as [[[[j q] y]|]|]; [| |done].
    + destruct IH as (l1 & l2 & -> & -> & Hy & Hc & Hl). exists (p :: l1), l2. cbn [length app]. split_and!; [done|lia|done|done|].
      intros r z [->|Hr]%elem_of_cons Hz; [congruence|by eapply Hl].
    + intros r z [->|Hr]%elem_of_cons Hz; [congruence|by eapply IH].
Qed.

Section table.
Context `{!Qsort} `{!QsortLaws}.

(** What the constructor makes, and the search keeps. *)
Record table_ok (store : list ElfSection) (syms : list Sym) (t : Symtab) : Prop := {
  to_unsized : unsized (st_symLst t) = unsized syms;
  to_all : st_symPtrArray t ≡ₚ seq 0 (length syms);
  to_sorted : StronglySorted (fun p q => compareAt (st_symLst t) p q <= 0) (st_symPtrArray t);
  to_size : forall l1 p l2 x, st_symPtrArray t = l1 ++ p :: l2 -> syms !! p = Some x ->
    st_symLst t !! p = Some (setSize (sizeOf store syms x l2) x);
  to_cache : st_cachedSymSize t = 0 /\ 0 <= st_cachedSymAddr t;
}.

Lemma compareAt_unsized syms syms' p q : unsized syms' = unsized syms -> compareAt syms' p q = compareAt syms p q.
Proof.
  intros E. unfold compareAt.
  destruct (syms' !! p) as [x'|] eqn:Hp.
  - destruct (unsized_lookup _ _ _ _ E Hp) as (x & -> & Ex). destruct (syms' !! q) as [y'|] eqn:Hq.
    + destruct (unsized_lookup _ _ _ _ E Hq) as (y & -> & Ey).
      transitivity (symCompareFunc x y'); [by apply (unsized_eq (fun a => symCompareFunc a y'))|].
      by apply (unsized_eq (symCompareFunc x)).
    + destruct (syms !! q) as [y|] eqn:Hy; [|done]. destruct (unsized_lookup _ _ _ _ (eq_sym E) Hy) as (? & ? & _). congruence.
  - destruct (syms !! p) as [y|] eqn:Hy; [|done]. destruct (unsized_lookup _ _ _ _ (eq_sym E) Hy) as (? & ? & _). congruence.
Qed.

Lemma compareAt_order syms : comparison_on (fun p => exists x, syms !! p = Some x /\ lowSym x) (compareAt syms).
Proof.
  split.
  - intros p q (x & Hx & Lx) (y & Hy & Ly). unfold compareAt. rewrite Hx, Hy. by apply (cmp_flip _ _ symCompare_order).
  - intros p q r (x & Hx & Lx) (y & Hy & Ly) (z & Hz & Lz). unfold compareAt. rewrite Hx, Hy, Hz.
    by apply (cmp_trans _ _ symCompare_order).
Qed.

Lemma all_places (syms : list Sym) : List.Forall (fun p => is_Some (syms !! p)) (seq 0 (length syms)) .
Proof. apply list.Forall_forall. intros p Hp%elem_of_seq. apply lookup_lt_is_Some. lia. Qed.

Lemma newSymtab_ok store syms : List.Forall lowSym syms -> List.Forall (placed store) syms ->
  exists t, newSymtab store syms = Some t /\ table_ok store syms t.
Proof.
  intros Hl Hs. unfold newSymtab. set (ptrs := qsort (compareAt syms) (seq 0 (length syms))).
  assert (ptrs ≡ₚ seq 0 (length syms)) as Hperm by apply qsort_perm.
  destruct (fixup_spec store ptrs syms) as (syms' & E & Eu); [|done|].
  { rewrite Hperm. apply all_places. }
  rewrite E. cbn [mbind option_bind]. eexists. split; [done|]. split; cbn; try done.
  - assert (StronglySorted (fun p q => compareAt syms p q <= 0) ptrs) as Hst.
    { apply (qsort_sorted _ (fun p => exists x, syms !! p = Some x /\ lowSym x)); [apply compareAt_order|].
      apply list.Forall_forall. intros p Hp%elem_of_seq. destruct (lookup_lt_is_Some_2 syms p) as [x Hx]; [lia|].
      exists x. split; [done|]. rewrite list.Forall_forall in Hl. by apply Hl, (list_elem_of_lookup_2 _ p). }
    clear - Hst Eu. induction Hst as [|p l _ IH Hp]; constructor; [apply IH|]. apply (list.Forall_impl _ _ _ Hp). intros q. by rewrite (compareAt_unsized syms syms').
  - intros l1 p l2 x Ep Hx. apply (fixup_sizes _ _ l1 _ _ _ _ _ E); [|done|done]. rewrite Hperm. apply NoDup_seq.
Qed.

(** The first symbol of the array that covers an address. *)
Definition firstCovering (t : Symtab) (addr : Z) : option nat :=
  match findCovering (st_symLst t) addr (st_symPtrArray t) 0 with Some (Some (_, p, _)) => Some p | _ => None end.

(** The search gives, of the symbols that cover the address, the first in the order. *)
Lemma lookup_spec store syms t addr : table_ok store syms t -> addr <> 0 ->
  exists t' found, lookupSymbolByAddress addr t = Ok t' found /\ table_ok store syms t' /\ st_symLst t' = st_symLst t /\
    st_symPtrArray t' = st_symPtrArray t /\ found = firstCovering t addr /\
    match found with
    | Some p => exists x, st_symLst t !! p = Some x /\ covers addr x = true /\
        forall q y, st_symLst t !! q = Some y -> covers addr y = true -> q = p \/ symCompareFunc x y <= 0
    | None => forall y, y ∈ st_symLst t -> covers addr y = false
    end.
Proof.
  intros [Hu Ha Hst Hsz [Hc Hpos]] Hne. unfold lookupSymbolByAddress. destruct (Z.eqb_spec addr 0); [done|]. rewrite bind_get, Hc.
  rewrite Z.add_0_r. assert ((st_cachedSymAddr t <=? addr) && (addr <? u64 (st_cachedSymAddr t)) = false) as ->.
  { destruct (Z.leb_spec (st_cachedSymAddr t) addr), (Z.ltb_spec addr (u64 (st_cachedSymAddr t))); try done.
    pose proof (Z.mod_le (st_cachedSymAddr t) (2 ^ 64) ltac:(lia) ltac:(lia)). unfold u64, wrap in *. lia. }
  assert (length (st_symLst t) = length syms) as Hlen by (apply (f_equal length) in Hu; unfold unsized in Hu; by rewrite !length_fmap in Hu).
  assert (List.Forall (fun p => is_Some (st_symLst t !! p)) (st_symPtrArray t)) as Hall.
  { rewrite Ha, <-Hlen. apply all_places. }
  assert (forall q y, st_symLst t !! q = Some y -> q ∈ st_symPtrArray t) as Hin.
  { intros q y Hq. rewrite Ha, elem_of_seq, <-Hlen. apply lookup_lt_Some in Hq. lia. }
  unfold firstCovering. pose proof (findCovering_spec _ addr _ 0 Hall) as Hf. destruct (findCovering _ _ _ _) as [[[[j p] x]|]|]; [| |done].
  - destruct Hf as (l1 & l2 & El & -> & Hx & Hcov & Hl1). rewrite lift_bind, bind_modify. eexists _, (Some p). split; [done|].
    cbn [st_symLst st_symPtrArray]. split_and!; [|done|done|done|].
    + split; cbn; try done. split; [done|]. apply u64_bounds.
    + exists x. split_and!; [done..|]. intros q y Hq Hcq. pose proof (Hin q y Hq) as Hqin. rewrite El in Hqin, Hst.
      apply elem_of_app in Hqin as [Hq1|[->|Hq2]%elem_of_cons]; [by rewrite (Hl1 q y Hq1 Hq) in Hcq|by left|right].
      clear - Hst Hx Hq Hq2. induction l1 as [|r l1 IH]; cbn [app] in Hst; apply StronglySorted_inv in Hst as [Hst Hr]; [|by apply IH].
      rewrite List.Forall_forall in Hr. specialize (Hr q ltac:(by apply list_elem_of_In)). unfold compareAt in Hr. by rewrite Hx, Hq in Hr.
  - rewrite lift_bind. exists t, None. split_and!; try done. intros y [q Hq]%list_elem_of_lookup. by apply (Hf q y); [eapply Hin|].
Qed.
End table.

(** ** Symbols without sizes

    A section of which no symbol has a size, as an assembler makes it: each address is of
    the nearest symbol before it, up to the last symbol, which never gets a size. *)

Section unsizedSection.
Context `{!Qsort} `{!QsortLaws} (store : list ElfSection) (k : nat) (v : Z).

Definition plainSym (x : Sym) : Prop :=
  sy_section x = Some k /\ symHas symDebug x = false /\ sy_size x = 0 /\ sy_vmaOffset x = v /\
  0 <= sy_address x /\ sy_address x + v < 2 ^ 63.

Context (syms : list Sym) (Hv : 0 <= v) (Hplain : List.Forall plainSym syms).

Definition addressAt (p : nat) : Z := default 0 (sy_address <$> syms !! p).

Lemma plain_at p x : syms !! p = Some x -> plainSym x /\ addressAt p = sy_address x.
Proof using Hplain.
  intros Hx. split; [|by unfold addressAt; rewrite Hx]. rewrite list.Forall_forall in Hplain.
  by apply Hplain, (list_elem_of_lookup_2 _ p).
Qed.

Lemma plain_ordered p q x y : syms !! p = Some x -> syms !! q = Some y -> compareAt syms p q <= 0 -> addressAt p <= addressAt q.
Proof using Hplain Hv.
  intros Hx Hy. destruct (plain_at p x Hx) as [(_ & _ & _ & Ev & ? & ?) ->], (plain_at q y Hy) as [(_ & _ & _ & Ev' & ? & ?) ->].
  unfold compareAt. rewrite Hx, Hy, symCompare_key by (unfold lowSym; lia). unfold symKey. rewrite Ev, Ev'. cbn [lexZ].
  destruct (Z.ltb_spec (sy_address x + v) (sy_address y + v)); [lia|].
  destruct (Z.ltb_spec (sy_address y + v) (sy_address x + v)); lia.
Qed.

(** The next address. *)
Lemma plain_next p x l : syms !! p = Some x -> List.Forall (fun q => is_Some (syms !! q)) l ->
  StronglySorted (fun a b => compareAt syms a b <= 0) (p :: l) ->
  match sizeByNext store syms x k l with
  | Some (Some n) => 0 < n /\ (exists q, q ∈ l /\ addressAt q = sy_address x + n) /\
      forall q, q ∈ l -> addressAt q = sy_address x \/ sy_address x + n <= addressAt q
  | Some None => forall q, q ∈ l -> addressAt q = sy_address x
  | None => False
  end.
Proof using Hplain Hv.
  intros Hx. destruct (plain_at p x Hx) as [(Ek & _ & _ & _ & Hx0 & Hx1) Ep].
  induction l as [|e l IH]; intros Hl Hs; cbn [sizeByNext]; [by intros q ?%elem_of_nil|].
  apply list.Forall_cons in Hl as [[y Hy] Hl]. rewrite Hy. cbn [mbind option_bind].
  destruct (plain_at e y Hy) as [(Ek' & _ & _ & _ & Hy0 & Hy1) Ee]. rewrite Ek, Ek'. rewrite bool_decide_eq_true_2 by done.
  apply StronglySorted_inv in Hs as [Hs Hp]. pose proof Hs as Hs2. apply StronglySorted_inv in Hs2 as [Hs2 He].
  apply list.Forall_cons in Hp as [Hpe Hp]. pose proof (plain_ordered _ _ _ _ Hx Hy Hpe) as Hle.
  destruct (Z.eqb_spec (sy_address y) (sy_address x)) as [Eq|Hne].
  - specialize (IH Hl ltac:(by constructor)). destruct (sizeByNext store syms x k l) as [[n|]|]; [| |done].
    + destruct IH as (Hn & (q & Hq & Eq2) & Ha). split_and!; [done| |].
      * exists q. split; [by right|done].
      * intros r [->|Hr]%elem_of_cons; [left; lia|by apply Ha].
    + intros r [->|Hr]%elem_of_cons; [lia|by apply IH].
  - rewrite u64_small by lia. split_and!; [lia|exists e; split; [by left|lia]|].
    intros q [->|Hq]%elem_of_cons; right; [lia|]. rewrite List.Forall_forall in He, Hl.
    destruct (Hl q ltac:(by apply list_elem_of_In)) as [z Hz].
    pose proof (plain_ordered _ _ _ _ Hy Hz (He q ltac:(by apply list_elem_of_In))). lia.
Qed.

Lemma plain_sizeOf p x l n : syms !! p = Some x -> sizeByNext store syms x k l = Some n -> sizeOf store syms x l = default 0 n.
Proof using Hplain.
  intros Hx E. destruct (plain_at p x Hx) as [(Ek & Ed & Ez & _) _]. unfold sizeOf. rewrite Ek, Ed, Ez, E. by destruct n.
Qed.

Lemma covers_plain addr x n : plainSym x -> 0 < addr < 2 ^ 64 -> 0 <= n -> sy_address x + n + v < 2 ^ 63 ->
  covers addr (setSize n x) = true <-> sy_address x + v <= addr < sy_address x + n + v.
Proof using Hv.
  intros (_ & _ & _ & Ev & Hx0 & Hx1) Ha Hn Hb. unfold covers. cbn [setSize sy_address sy_vmaOffset sy_size]. rewrite Ev.
  rewrite (u64_small (sy_address x + n)) by lia. unfold u64, wrap.
  rewrite andb_true_iff, Z.leb_le, Z.ltb_lt. destruct (Z.leb_spec v addr).
  - rewrite Z.mod_small by lia. lia.
  - assert ((addr - v) mod 2 ^ 64 = addr - v + 2 ^ 64) as -> by (symmetry; apply Z.mod_unique with (-1); lia). lia.
Qed.

Context (t : Symtab) (Ht : table_ok store syms t).

Lemma table_valid p : p ∈ st_symPtrArray t <-> is_Some (syms !! p).
Proof using Ht. rewrite (to_all _ _ _ Ht), elem_of_seq, lookup_lt_is_Some. lia. Qed.

Lemma table_suffix l1 l2 : st_symPtrArray t = l1 ++ l2 ->
  StronglySorted (fun a b => compareAt syms a b <= 0) l2 /\ List.Forall (fun q => is_Some (syms !! q)) l2.
Proof using Ht.
  intros E. split.
  - pose proof (to_sorted _ _ _ Ht) as Hs. rewrite E in Hs. clear E. induction l1 as [|q l1 IH].
    + cbn [app] in Hs. induction Hs as [|p l _ IHs Hp]; constructor; [done|]. apply (list.Forall_impl _ _ _ Hp). intros q.
      by rewrite (compareAt_unsized syms (st_symLst t)) by apply (to_unsized _ _ _ Ht).
    + apply StronglySorted_inv in Hs as [Hs _]. by apply IH.
  - apply list.Forall_forall. intros q Hq. apply table_valid. rewrite E. apply elem_of_app. by right.
Qed.

(** The range of a symbol reaches to the next address. *)
Lemma table_range addr l1 p l2 x : st_symPtrArray t = l1 ++ p :: l2 -> syms !! p = Some x -> 0 < addr < 2 ^ 64 ->
  exists x', st_symLst t !! p = Some x' /\ sy_address x' = sy_address x /\
    (covers addr x' = true <-> sy_address x + v <= addr /\ (exists q, q ∈ l2 /\ addr < addressAt q + v) /\
       forall q, q ∈ l2 -> addressAt q = sy_address x \/ addr < addressAt q + v).
Proof using Hplain Hv Ht.
  intros E Hx Ha. destruct (table_suffix l1 (p :: l2) E) as [Hs Hall]. apply list.Forall_cons in Hall as [_ Hall].
  destruct (plain_at p x Hx) as [Hpx Ep]. eexists. split; [by apply (to_size _ _ _ Ht _ _ _ _ E Hx)|]. split; [done|].
  pose proof (plain_next p x l2 Hx Hall Hs) as Hn. destruct (sizeByNext store syms x k l2) as [[n|]|] eqn:En; [| |done];
    rewrite (plain_sizeOf p x l2 _ Hx En); cbn [default from_option id].
  - destruct Hn as (Hn & (q & Hq & Eq) & Hall2). assert (sy_address x + n + v < 2 ^ 63) as Hb.
    { rewrite List.Forall_forall in Hall. destruct (Hall q) as [y Hy]; [by apply list_elem_of_In|].
      destruct (plain_at q y Hy) as [(_ & _ & _ & _ & ? & ?) ?]. lia. }
    rewrite covers_plain by (done || lia). split.
    + intros [H1 H2]. split_and!; [done|exists q; split; [done|lia]|]. intros r Hr. destruct (Hall2 r Hr); [by left|right; lia].
    + intros (H1 & _ & H3). split; [done|]. destruct (H3 q Hq); lia.
  - destruct Hpx as (E1 & E2 & E3 & E4 & Hx0 & Hx1). rewrite covers_plain by (done || lia). split; [lia|]. intros (H1 & (q & Hq & Hlt) & _).
    rewrite (Hn q Hq) in Hlt. lia.
Qed.

(** Some symbol covers an address between the first and the last. *)
Lemma some_covers addr l : forall l1 p, st_symPtrArray t = l1 ++ p :: l -> 0 < addr < 2 ^ 64 -> addressAt p + v <= addr ->
  (exists q, q ∈ l /\ addr < addressAt q + v) -> exists x', x' ∈ st_symLst t /\ covers addr x' = true.
Proof using Hplain Hv Ht.
  induction l as [|e l IH]; intros l1 p E Ha Hp (q & Hq & Hlt); [by apply elem_of_nil in Hq|].
  destruct (table_suffix _ _ E) as [Hs Hall]. apply list.Forall_cons in Hall as [[x Hx] Hall]. pose proof Hall as Hall2.
  apply list.Forall_cons in Hall2 as [[y Hy] _]. apply StronglySorted_inv in Hs as [Hs _]. apply StronglySorted_inv in Hs as [_ He].
  destruct (plain_at p x Hx) as [_ Ex].
  destruct (decide (addressAt e + v <= addr)) as [Hle|Hgt].
  - apply (IH (l1 ++ [p]) e); [by rewrite <-app_assoc|done|done|]. exists q. split; [|done].
    apply elem_of_cons in Hq as [->|Hq]; [lia|done].
  - destruct (table_range addr l1 p (e :: l) x E Hx Ha) as (x' & Hx' & _ & Hc). exists x'.
    split; [by apply (list_elem_of_lookup_2 _ p)|]. apply Hc. split_and!; [lia|exists e; split; [by left|lia]|].
    intros r [->|Hr]%elem_of_cons; right; [lia|]. rewrite List.Forall_forall in He, Hall.
    destruct (Hall r) as [z Hz]; [right; by apply list_elem_of_In|].
    pose proof (plain_ordered _ _ _ _ Hy Hz (He r ltac:(by apply list_elem_of_In))). lia.
Qed.

Lemma nearest_found addr : 0 < addr < 2 ^ 64 ->
  (exists x, x ∈ syms /\ sy_address x + v <= addr) -> (exists z, z ∈ syms /\ addr < sy_address z + v) ->
  exists t' p x, lookupSymbolByAddress addr t = Ok t' (Some p) /\ table_ok store syms t' /\ syms !! p = Some x /\
    sy_address x + v <= addr /\ forall y, y ∈ syms -> sy_address y + v <= addr -> sy_address y <= sy_address x.
Proof using Hplain Hv Ht.
  intros Ha (x0 & Hx0 & Hle) (z & Hz & Hlt).
  destruct (lookup_spec store syms t addr Ht ltac:(lia)) as (t' & found & E & Ht' & _ & _ & _ & Hf).
  assert (exists x', x' ∈ st_symLst t /\ covers addr x' = true) as (x' & Hx' & Hc).
  { apply list_elem_of_lookup in Hx0 as [p0 Hp0]. apply list_elem_of_lookup in Hz as [q Hq].
    destruct (plain_at _ _ Hp0) as [_ E0], (plain_at _ _ Hq) as [_ Eq].
    assert (q ∈ st_symPtrArray t) as Hqin by (by apply table_valid). assert (p0 ∈ st_symPtrArray t) as Hpin by (by apply table_valid).
    destruct (st_symPtrArray t) as [|h l] eqn:El; [by apply elem_of_nil in Hqin|]. destruct (table_suffix [] (h :: l) El) as [Hs Hall].
    apply list.Forall_cons in Hall as [[y Hy] Hall]. apply StronglySorted_inv in Hs as [_ Hs]. rewrite List.Forall_forall in Hs.
    assert (addressAt h + v <= addr) as Hh.
    { apply elem_of_cons in Hpin as [->|Hpin]; [lia|].
      pose proof (plain_ordered _ _ _ _ Hy Hp0 (Hs p0 ltac:(by apply list_elem_of_In))). lia. }
    apply (some_covers addr l [] h El Ha Hh). exists q. split; [|lia]. apply elem_of_cons in Hqin as [->|?]; [lia|done]. }
  destruct found as [p|]; [|by rewrite (Hf x' Hx') in Hc]. destruct Hf as (x & Hx & Hcx & _).
  destruct (unsized_lookup _ _ _ _ (to_unsized _ _ _ Ht) Hx) as (x1 & Hx1 & E1). exists t', p, x1.
  assert (p ∈ st_symPtrArray t) as Hin by (by apply table_valid). apply list_elem_of_split in Hin as (l1 & l2 & El).
  destruct (table_range addr l1 p l2 x1 El Hx1 Ha) as (x2 & Hx2 & _ & Hr). rewrite Hx in Hx2. apply (inj Some) in Hx2 as <-.
  apply Hr in Hcx as (H1 & _ & H3). split_and!; [done..|]. intros y [r Hy]%list_elem_of_lookup Hyle.
  destruct (plain_at _ _ Hy) as [_ Er], (plain_at _ _ Hx1) as [_ Ex1].
  assert (r ∈ st_symPtrArray t) as Hin by (by apply table_valid). pose proof El as El2. rewrite El in Hin.
  apply elem_of_app in Hin as [Hin|[->|Hin]%elem_of_cons].
  - apply list_elem_of_split in Hin as (m1 & m2 & ->). rewrite <-app_assoc in El2. destruct (table_suffix _ _ El2) as [Hs _].
    apply StronglySorted_inv in Hs as [_ Hs]. rewrite List.Forall_forall in Hs.
    pose proof (plain_ordered _ _ _ _ Hy Hx1 (Hs p ltac:(apply in_or_app; right; by left))). lia.
  - rewrite Hx1 in Hy. apply (inj Some) in Hy as ->. done.
  - destruct (H3 r Hin); lia.
Qed.
End unsizedSection.

(** ** Symbols end in their sections *)

Section ends.
Context (store : list ElfSection) (k : nat) (sec : ElfSection) (v : Z) (syms : list Sym).
Context (Hsec : store !! k = Some sec) (Hv : 0 <= v).

(** A symbol of the section lies in it, with the size that it was given. *)
Definition symInside (x : Sym) : Prop :=
  sy_vmaOffset x = v /\ 0 <= sc_startAddr sec <= sy_address x /\ 0 <= sy_size x /\
  sy_address x + sy_size x <= sc_startAddr sec + sc_size sec /\ sy_address x + v < 2 ^ 63.
Context (Hin : forall x, x ∈ syms -> sy_section x = Some k -> symInside x).
Context (Hend : sc_endAddr sec = u64 (sc_startAddr sec + sc_size sec - 1)).
Context (H64 : sc_startAddr sec + sc_size sec < 2 ^ 64).

Lemma address_order x y : symInside x -> symInside y -> symCompareFunc x y <= 0 -> sy_address x <= sy_address y.
Proof using Hv.
  intros (Ex & Hx) (Ey & Hy). rewrite symCompare_key by (unfold lowSym; lia). unfold symKey. rewrite Ex, Ey. cbn [lexZ].
  destruct (Z.ltb_spec (sy_address x + v) (sy_address y + v)); [lia|].
  destruct (Z.ltb_spec (sy_address y + v) (sy_address x + v)); lia.
Qed.

Lemma sizeByNext_inside x l n : symInside x -> sy_section x = Some k ->
  (forall q y, q ∈ l -> syms !! q = Some y -> symCompareFunc x y <= 0) ->
  sizeByNext store syms x k l = Some (Some n) -> 0 <= n /\ sy_address x + n <= sc_startAddr sec + sc_size sec.
Proof using Hin Hend H64 Hsec Hv.
  intros Hx Ek. induction l as [|e l IH]; intros Hl; cbn [sizeByNext]; [done|].
  destruct (syms !! e) as [y|] eqn:Hy; [|done]. cbn [mbind option_bind]. rewrite Ek. destruct (bool_decide_reflect (Some k = sy_section y)) as [Ey|_].
  - destruct (Z.eqb_spec (sy_address y) (sy_address x)); [apply IH; intros q z Hq; apply Hl; by right|]. intros [= <-].
    assert (symInside y) as Hyi by (apply Hin; [by apply (list_elem_of_lookup_2 _ e)|done]).
    pose proof (address_order x y Hx Hyi (Hl e y ltac:(by left) Hy)). destruct Hx as (_ & ? & _), Hyi as (_ & ? & ? & ? & _).
    rewrite u64_small by lia. lia.
  - rewrite Hsec. cbn [mbind option_bind]. intros [= <-]. destruct Hx as (_ & ? & ? & ? & _). rewrite Hend.
    assert (u64 (u64 (sc_startAddr sec + sc_size sec - 1) + 1 - sy_address x) = sc_startAddr sec + sc_size sec - sy_address x) as ->; [|lia].
    unfold u64, wrap. rewrite <-Z.add_sub_assoc, Zplus_mod_idemp_l. rewrite Z.mod_small; lia.
Qed.

Lemma table_inside t x : table_ok store syms t -> x ∈ st_symLst t -> sy_section x = Some k ->
  0 <= sy_size x /\ sy_address x + sy_size x <= sc_startAddr sec + sc_size sec.
Proof using Hin Hend H64 Hsec Hv.
  intros Ht [p Hp]%list_elem_of_lookup Ek. destruct (unsized_lookup _ _ _ _ (to_unsized _ _ _ Ht) Hp) as (x0 & Hx0 & E0).
  assert (p ∈ st_symPtrArray t) as Hpin by (by apply (table_valid store syms)). apply list_elem_of_split in Hpin as (l1 & l2 & El).
  pose proof (to_size _ _ _ Ht _ _ _ _ El Hx0) as Hp2. rewrite Hp in Hp2. apply (inj Some) in Hp2 as ->.
  cbn [setSize sy_section sy_size sy_address] in *. pose proof (Hin x0 (list_elem_of_lookup_2 _ _ _ Hx0) Ek) as Hx.
  assert (0 <= sy_size x0 /\ sy_address x0 + sy_size x0 <= sc_startAddr sec + sc_size sec) as Hown by (destruct Hx as (_ & ? & ? & ? & _); lia).
  unfold sizeOf. rewrite Ek. destruct (_ && _); [|done]. destruct (sizeByNext store syms x0 k l2) as [[n|]|] eqn:En; try done.
  apply (sizeByNext_inside x0 l2 n Hx Ek); [|done]. intros q y Hq Hy.
  destruct (table_suffix store syms t Ht l1 (p :: l2) El) as [Hs _]. apply StronglySorted_inv in Hs as [_ Hs].
  rewrite List.Forall_forall in Hs. specialize (Hs q ltac:(by apply list_elem_of_In)). unfold compareAt in Hs. by rewrite Hx0, Hy in Hs.
Qed.
End ends.
