(* ===== verification/CText.v ===== *)
(** * Numbers in text

    What the program uses of the C library to read numbers: [strtol] and [strtoll], where
    [long] has 64 bits, and how numbers are written. *)

From stdpp Require Import strings.
From Stdlib Require Import Ascii.
From Stdlib Require String.
From S2P Require Import Prelude Nexus ObjDump ObjDumpPrint Symbols.

(** ** Reading *)

Definition isspace (c : ascii) : bool := (code_of c =? 32) || ((9 <=? code_of c) && (code_of c <=? 13)).

Fixpoint spaces (l : list ascii) : nat := match l with c :: l => if isspace c then S (spaces l) else O | [] => O end.

(** The digits of a base, at most 36. *)
Definition digitOf (c : ascii) : option Z :=
  if (48 <=? code_of c) && (code_of c <=? 57) then Some (code_of c - 48)
  else if (97 <=? code_of c) && (code_of c <=? 122) then Some (code_of c - 97 + 10)
  else if (65 <=? code_of c) && (code_of c <=? 90) then Some (code_of c - 65 + 10)
  else None.
Definition digitIn (base : Z) (c : ascii) : option Z :=
  d ← digitOf c; if d <? base then Some d else None.

(** The value of the digits at the start of a text, and how many there are. *)
Fixpoint digits (base : Z) (l : list ascii) (acc : Z) : Z * nat :=
  match l with
  | [] => (acc, O)
  | c :: l =>
      match digitIn base c with
      | Some d => let '(v, n) := digits base l (acc * base + d) in (v, S n)
      | None => (acc, O)
      end
  end.

(** The base and the length of a prefix: base 0 takes it from the text. *)
Definition basePrefix (base : Z) (l : list ascii) : Z * nat :=
  match l with
  | "0"%char :: x :: d :: _ =>
      if ((base =? 0) || (base =? 16)) && (bool_decide (x = "x"%char) || bool_decide (x = "X"%char)) &&
         match digitIn 16 d with Some _ => true | None => false end
      then (16, 2%nat) else (if base =? 0 then 8 else base, O)
  | "0"%char :: _ => (if base =? 0 then 8 else base, O)
  | _ => (if base =? 0 then 10 else base, O)
  end.

Definition sign (l : list ascii) : bool * nat :=
  match l with "-"%char :: _ => (true, 1%nat) | "+"%char :: _ => (false, 1%nat) | _ => (false, O) end.

Definition clamp (x : Z) : Z := Z.max (- 2 ^ 63) (Z.min x (2 ^ 63 - 1)).

(** Whether there is a minus, the digits as a number, and the number of characters up to
    [endptr], which is 0 if there are no digits. *)
Definition scanNumber (base : Z) (l : list ascii) : bool * Z * nat :=
  let ws := spaces l in
  let '(neg, s) := sign (drop ws l) in
  let '(b, p) := basePrefix base (drop (ws + s) l) in
  let '(v, n) := digits b (drop (ws + s + p) l) 0 in
  if (n =? 0)%nat then (false, 0, O) else (neg, v, (ws + s + p + n)%nat).

(** The value and the number of characters; [strtoll] is the same. *)
Definition strtol (base : Z) (l : list ascii) : Z * nat :=
  let '(neg, v, n) := scanNumber base l in (clamp (if neg : bool then - v else v), n).
(** [strtoull] is the same. *)
Definition strtoul (base : Z) (l : list ascii) : Z * nat :=
  let '(neg, v, n) := scanNumber base l in (if v <? 2 ^ 64 then u64 (if neg : bool then - v else v) else 2 ^ 64 - 1, n).

(** ** Writing *)

(** The digits of a number in a base, the last of [n] ones. *)
Fixpoint writeDigits (base : Z) (n : nat) (x : Z) : list ascii :=
  match n with
  | O => []
  | S n => writeDigits base n (x / base) ++ [digitChar false (x mod base)]
  end.

Lemma writeDigits_length base n : forall x, length (writeDigits base n x) = n.
Proof. induction n as [|n IH]; intros x; [done|]. cbn [writeDigits]. rewrite length_app, IH. cbn. lia. Qed.

(** Where the digits of a number end. *)
Definition stops (base : Z) (rest : list ascii) : Prop := match rest with c :: _ => digitIn base c = None | [] => True end.

Lemma digitChar_spec base d : 0 <= d < base -> base <= 36 -> digitIn base (digitChar false d) = Some d.
Proof.
  intros Hd Hb. unfold digitIn.
  assert (digitOf (digitChar false d) = Some d) as ->; [|cbn [mbind option_bind]; by destruct (Z.ltb_spec d base); [|lia]].
  assert (forall n : nat, (n < 36)%nat -> digitOf (digitChar false (Z.of_nat n)) = Some (Z.of_nat n)) as H
    by (intros n Hn; do 36 (destruct n as [|n]; [done|]); lia).
  rewrite <-(Z2Nat.id d) by lia. apply H. lia.
Qed.

Lemma digits_app base n : 2 <= base <= 36 -> forall x acc rest, 0 <= x < base ^ Z.of_nat n -> stops base rest ->
  digits base (writeDigits base n x ++ rest) acc = (acc * base ^ Z.of_nat n + x, n).
Proof.
  intros Hb. assert (forall k x acc rest, 0 <= x < base ^ Z.of_nat k ->
    digits base (writeDigits base k x ++ rest) acc =
      (let '(v, m) := digits base rest (acc * base ^ Z.of_nat k + x) in (v, (k + m)%nat))) as H.
  { clear n. induction k as [|k IH]; intros x acc rest Hx; cbn [writeDigits app].
    - assert (x = 0) as -> by (cbn in Hx; lia). replace (acc * base ^ Z.of_nat 0 + 0) with acc by (cbn; lia).
      by destruct (digits base rest acc).
    - rewrite Nat2Z.inj_succ, Z.pow_succ_r in Hx by lia. rewrite <-app_assoc. cbn [app].
      assert (0 <= x / base < base ^ Z.of_nat k) as Hq
        by (split; [apply Z.div_pos; lia|apply Z.div_lt_upper_bound; lia]).
      rewrite IH by done. cbn [digits]. pose proof (Z.mod_pos_bound x base ltac:(lia)).
      rewrite digitChar_spec by lia. rewrite Nat2Z.inj_succ, Z.pow_succ_r by lia.
      replace ((acc * base ^ Z.of_nat k + x / base) * base + x mod base) with (acc * (base * base ^ Z.of_nat k) + x)
        by (pose proof (Z.div_mod x base ltac:(lia)); nia).
      destruct (digits base rest _) as [v m]. by rewrite Nat.add_succ_r. }
  intros x acc rest Hx Hr. rewrite H by done. destruct rest as [|c rest]; cbn [digits]; [by rewrite Nat.add_0_r|].
  cbn in Hr. rewrite Hr. by rewrite Nat.add_0_r.
Qed.

Lemma digitChar_cases d : 0 <= d < 16 -> exists n : nat, d = Z.of_nat n /\ (n < 16)%nat.
Proof. intros H. exists (Z.to_nat d). lia. Qed.

(** A digit is no space, no sign, and 0 only if it is the digit 0. *)
Lemma digitChar_head d : 0 <= d < 16 ->
  isspace (digitChar false d) = false /\ digitChar false d <> "-"%char /\ digitChar false d <> "+"%char /\
  (digitChar false d = "0"%char -> d = 0) /\ digitChar false d <> "x"%char /\ digitChar false d <> "X"%char.
Proof.
  intros (n & -> & Hn)%digitChar_cases. do 16 (destruct n as [|n]; [repeat split; try done; by vm_compute|]). lia.
Qed.

Lemma writeDigits_head base n x : 2 <= base -> 0 <= x < base ^ Z.of_nat (S n) ->
  exists t, writeDigits base (S n) x = digitChar false (x / base ^ Z.of_nat n) :: t /\ length t = n /\
    (forall c t2, t = c :: t2 -> exists d, 0 <= d < base /\ c = digitChar false d).
Proof.
  intros Hb. revert x. induction n as [|n IH]; intros x Hx.
  - exists []. cbn in *. rewrite Z.pow_1_r in Hx. rewrite Z.div_1_r, Z.mod_small by lia. by split_and!.
  - rewrite Nat2Z.inj_succ, Z.pow_succ_r in Hx by lia. cbn [writeDigits].
    assert (0 <= x / base < base ^ Z.of_nat (S n)) as Hq by (split; [apply Z.div_pos; lia|apply Z.div_lt_upper_bound; lia]).
    destruct (IH (x / base) Hq) as (t & E & Ht & Hd). cbn [writeDigits] in E. rewrite E. cbn [app].
    rewrite Z.div_div, <-Z.pow_succ_r, <-Nat2Z.inj_succ by lia. eexists. split; [done|]. split; [rewrite length_app; cbn; lia|].
    intros c t2. destruct t as [|c2 t]; cbn [app].
    + intros [= <- _]. exists (x mod base). split; [apply Z.mod_pos_bound; lia|done].
    + intros [= <- _]. by apply (Hd c2 t).
Qed.

Lemma clamp_id x : - 2 ^ 63 <= x < 2 ^ 63 -> clamp x = x.
Proof. unfold clamp. lia. Qed.

(** A number in a base that is given. *)
Lemma scanNumber_base base n x rest : base = 10 \/ base = 16 -> 0 <= x < base ^ Z.of_nat (S n) -> stops base rest ->
  (forall t, rest <> "x"%char :: t) -> (forall t, rest <> "X"%char :: t) ->
  scanNumber base (writeDigits base (S n) x ++ rest) = (false, x, S n).
Proof.
  intros Hb Hx Hr Hx1 Hx2. assert (2 <= base <= 16) as Hb2 by lia.
  assert (0 < base ^ Z.of_nat n) as Hpos by (apply Z.pow_pos_nonneg; lia).
  assert (0 <= x / base ^ Z.of_nat n < base) as Hd.
  { rewrite Nat2Z.inj_succ, Z.pow_succ_r in Hx by lia. split; [apply Z.div_pos; lia|apply Z.div_lt_upper_bound; lia]. }
  destruct (writeDigits_head base n x ltac:(lia) Hx) as (t & E & Ht & Htail).
  destruct (digitChar_head (x / base ^ Z.of_nat n) ltac:(lia)) as (H1 & H2 & H3 & H4 & _ & _).
  set (c := digitChar false (x / base ^ Z.of_nat n)) in *. clearbody c.
  assert (forall l, sign (c :: l) = (false, O)) as Hsign by (intros l; unfold sign; destruct c as [[] [] [] [] [] [] [] []]; done).
  assert (basePrefix base (c :: t ++ rest) = (base, O)) as Hpre.
  { unfold basePrefix. destruct (Z.eqb_spec base 0) as [|_]; [lia|]. cbn [orb].
    destruct c as [[] [] [] [] [] [] [] []]; try done. destruct (t ++ rest) as [|a l] eqn:El; [done|].
    assert (bool_decide (a = "x"%char) || bool_decide (a = "X"%char) = false) as Hax.
    { destruct t as [|c2 t2]; cbn [app] in El.
      - subst rest. rewrite !bool_decide_eq_false_2; [done|intros ->; by apply (Hx2 l)|intros ->; by apply (Hx1 l)].
      - injection El as -> _. destruct (Htail a t2 eq_refl) as (d & Hd2 & ->).
        destruct (digitChar_head d ltac:(lia)) as (_ & _ & _ & _ & ? & ?). by rewrite !bool_decide_eq_false_2. }
    destruct l as [|d l]; [done|]. rewrite Hax, andb_false_r. done. }
  unfold scanNumber. rewrite E. cbn [app spaces]. rewrite H1. cbn [drop]. rewrite Hsign. cbn [drop Nat.add]. rewrite Hpre.
  cbn [drop Nat.add]. change (c :: t ++ rest) with ((c :: t) ++ rest). by rewrite <-E, digits_app by (done || lia).
Qed.

Lemma strtol_base base n x rest : base = 10 \/ base = 16 -> 0 <= x < base ^ Z.of_nat (S n) -> x < 2 ^ 63 -> stops base rest ->
  (forall t, rest <> "x"%char :: t) -> (forall t, rest <> "X"%char :: t) ->
  strtol base (writeDigits base (S n) x ++ rest) = (x, S n).
Proof. intros Hb Hx H63 Hr Hx1 Hx2. unfold strtol. rewrite scanNumber_base by done. by rewrite clamp_id by lia. Qed.

(** A decimal number whose base is not given: it has no zero in front. *)
Lemma strtol_decimal n x : 10 ^ Z.of_nat n <= x < 10 ^ Z.of_nat (S n) -> x < 2 ^ 63 ->
  strtol 0 (writeDigits 10 (S n) x) = (x, S n).
Proof.
  intros Hx H63. assert (0 < 10 ^ Z.of_nat n) as Hpos by (apply Z.pow_pos_nonneg; lia).
  assert (1 <= x / 10 ^ Z.of_nat n < 10) as Hd.
  { rewrite Nat2Z.inj_succ, Z.pow_succ_r in Hx by lia. split; [apply Z.div_le_lower_bound; lia|apply Z.div_lt_upper_bound; lia]. }
  destruct (writeDigits_head 10 n x ltac:(lia) ltac:(lia)) as (t & E & _).
  destruct (digitChar_head (x / 10 ^ Z.of_nat n) ltac:(lia)) as (H1 & H2 & H3 & H4 & _ & _).
  assert (digitChar false (x / 10 ^ Z.of_nat n) <> "0"%char) as H5 by (intros H%H4; lia).
  set (c := digitChar false (x / 10 ^ Z.of_nat n)) in *. clearbody c.
  assert (sign (c :: t) = (false, O)) as Hsign by (unfold sign; destruct c as [[] [] [] [] [] [] [] []]; done).
  assert (basePrefix 0 (c :: t) = (10, O)) as Hpre by (unfold basePrefix; destruct c as [[] [] [] [] [] [] [] []]; done).
  unfold strtol, scanNumber. rewrite E. cbn [spaces]. rewrite H1. cbn [drop]. rewrite Hsign. cbn [drop Nat.add]. rewrite Hpre.
  cbn [drop Nat.add]. rewrite <-E, <-(app_nil_r (writeDigits _ _ _)), digits_app by (done || lia). cbn.
  by rewrite clamp_id by lia.
Qed.

Lemma strtol_hex n x : 0 <= x < 16 ^ Z.of_nat (S n) -> x < 2 ^ 63 ->
  strtol 0 ("0"%char :: "x"%char :: writeDigits 16 (S n) x) = (x, (n + 3)%nat).
Proof.
  intros Hx H63. destruct (writeDigits_head 16 n x ltac:(lia) Hx) as (t & E & _).
  assert (0 < 16 ^ Z.of_nat n) as Hpos by (apply Z.pow_pos_nonneg; lia).
  assert (0 <= x / 16 ^ Z.of_nat n < 16) as Hd.
  { rewrite Nat2Z.inj_succ, Z.pow_succ_r in Hx by lia. split; [apply Z.div_pos; lia|apply Z.div_lt_upper_bound; lia]. }
  unfold strtol, scanNumber. change (spaces _) with O. cbn [drop]. change (sign _) with (false, O). cbn [drop Nat.add].
  assert (basePrefix 0 ("0"%char :: "x"%char :: writeDigits 16 (S n) x) = (16, 2%nat)) as ->.
  { rewrite E. cbn [basePrefix]. by rewrite digitChar_spec. }
  cbn [drop Nat.add]. rewrite drop_0. rewrite <-(app_nil_r (writeDigits _ _ _)), digits_app by (done || lia). cbn.
  rewrite clamp_id by lia. f_equal. lia.
Qed.
