(* ===== verification/SrcFiles.v ===== *)
(** * Source files (src/dqr.cpp, [fileReader] and [sanePath])

    The names of source files come from the object file.  [sanePath] brings a name into
    one form; [fileReader] reads the file once, with a part of its path replaced if that
    is asked for, and keeps its lines.  What the file system holds is an argument. *)

From stdpp Require Import strings.
From Stdlib Require Import Ascii.
From Stdlib Require String.
From S2P Require Import Prelude Nexus ObjDump.

(** ** Paths *)

Inductive PathType := PATH_TO_WINDOWS | PATH_TO_UNIX | PATH_RAW.

Definition slash (c : ascii) : bool := bool_decide (c = "/"%char) || bool_decide (c = "\"%char).
Definition letter (c : ascii) : bool :=
  ((97 <=? code_of c) && (code_of c <=? 122)) || ((65 <=? code_of c) && (code_of c <=? 90)).
Definition separator (pt : PathType) : ascii := match pt with PATH_TO_WINDOWS => "\"%char | _ => "/"%char end.

(** What is written of [dst], the last character first. *)
Definition endsIn (sep : ascii) (dst : list ascii) : bool := match dst with c :: _ => bool_decide (c = sep) | [] => false end.

(** [while ((w > 0) && (dst[w-1] != sep)) w -= 1;] *)
Fixpoint scanBack (sep : ascii) (dst : list ascii) : list ascii :=
  match dst with
  | [] => []
  | c :: rest => if bool_decide (c = sep) then dst else scanBack sep rest
  end.

(** [src[r+1]] is a slash; the text after it. *)
Definition afterSlash (src : list ascii) : option (list ascii) :=
  match src with c :: rest => if slash c then Some rest else None | [] => None end.
Definition afterDotSlash (src : list ascii) : option (list ascii) :=
  match src with "."%char :: rest => afterSlash rest | _ => None end.

(** One turn of the loop, on the character [c] before [src]. *)
Definition saneTurn (sep : ascii) (dst : list ascii) (c : ascii) (src : list ascii) : list ascii * list ascii :=
  if bool_decide (c = ":"%char) then
    (":"%char :: match dst with d :: _ => if letter d then [d] else dst | [] => dst end, src)
  else if slash c then (if endsIn sep dst then dst else sep :: dst, src)
  else if bool_decide (c = "."%char) then
    if endsIn sep dst then
      match afterSlash src with
      | Some rest => (dst, rest)
      | None =>
          match afterDotSlash src with
          | Some rest => (scanBack sep (tail dst), rest)
          | None => ("."%char :: dst, src)
          end
      end
    else
      match dst, afterSlash src with
      | [], Some rest => (dst, rest)
      | _, _ => ("."%char :: dst, src)
      end
  else (c :: dst, src).

Fixpoint saneLoop (n : nat) (sep : ascii) (dst src : list ascii) : list ascii :=
  match n, src with
  | S n, c :: src => let '(dst, src) := saneTurn sep dst c src in saneLoop n sep dst src
  | _, _ => dst
  end.

Definition sanePath (pt : PathType) (src : list ascii) : list ascii :=
  match pt with
  | PATH_RAW => src
  | _ => rev (saneLoop (length src) (separator pt) [] src)
  end.

(** ** Files *)

(** [struct fileList]; [lines] is null if the file was not found. *)
Record FileList := {
  fl_name : list ascii;
  fl_cutPathIndex : Z;
  fl_funcs : list (list ascii);
  fl_lines : option (list (list ascii));
}.
Definition fl_lineCount (fl : FileList) : Z := Z.of_nat (length (default [] (fl_lines fl))).

(** [files] is in the order in which the files were read; a pointer to one is its place. *)
Record FileReader := {
  fr_cutPath : option (list ascii);
  fr_newRoot : option (list ascii);
  fr_lastFile : option nat;
  fr_files : list FileList;
}.
Definition newFileReader : FileReader := {| fr_cutPath := None; fr_newRoot := None; fr_lastFile := None; fr_files := [] |}.

Definition subSrcPath (cutPath newRoot : option (list ascii)) (r : FileReader) : FileReader := {|
  fr_cutPath := cutPath; fr_newRoot := newRoot; fr_lastFile := fr_lastFile r; fr_files := fr_files r |}.
Definition set_lastFile (p : option nat) (r : FileReader) : FileReader := {|
  fr_cutPath := fr_cutPath r; fr_newRoot := fr_newRoot r; fr_lastFile := p; fr_files := fr_files r |}.
Definition set_files (l : list FileList) (r : FileReader) : FileReader := {|
  fr_cutPath := fr_cutPath r; fr_newRoot := fr_newRoot r; fr_lastFile := fr_lastFile r; fr_files := l |}.

(** A drive designator, as a capital letter, and the text after it. *)
Definition drive (s : list ascii) : option Z * list ascii :=
  match s with
  | c :: ":"%char :: rest =>
      if (97 <=? code_of c) && (code_of c <=? 122) then (Some (code_of c - 97 + 65), rest)
      else if (65 <=? code_of c) && (code_of c <=? 90) then (Some (code_of c), rest)
      else (None, s)
  | _ => (None, s)
  end.

(** The rest of [file] after the prefix [cut]; a slash matches a backslash. *)
Fixpoint cutPrefix (cut file : list ascii) : option (list ascii) :=
  match cut, file with
  | [], _ => Some file
  | _, [] => None
  | c :: cut, f :: file => if bool_decide (c = f) || (slash c && slash f) then cutPrefix cut file else None
  end.

(** The part of [file] after the cut path, if it begins with it. *)
Definition cutFile (cutPath file : list ascii) : option (list ascii) :=
  let '(cpDrive, cut) := drive cutPath in
  let '(fnDrive, rest) := drive file in
  if bool_decide (cpDrive = fnDrive) || (bool_decide (cpDrive = None) && bool_decide (fnDrive = Some 67))
  then cutPrefix cut rest else None.

(** The name after the last slash, if there is one. *)
Fixpoint lastPart (file : list ascii) : option (list ascii) :=
  match file with
  | [] => None
  | c :: rest => match lastPart rest with Some l => Some l | None => if slash c then Some rest else None end
  end.

(** The text of a line, up to the end of its line or of the file. *)
Fixpoint lineFrom (buffer : list ascii) : list ascii :=
  match buffer with
  | [] => []
  | c :: rest =>
      if bool_decide (c = "010"%char) || bool_decide (c = "013"%char) || bool_decide (c = "000"%char) then []
      else c :: lineFrom rest
  end.
(** [s] is set at the start of a line. *)
Fixpoint linesFrom (s : bool) (buffer : list ascii) : list (list ascii) :=
  match buffer with
  | [] => []
  | c :: rest => (if s then [lineFrom buffer] else []) ++ linesFrom (bool_decide (c = "010"%char)) rest
  end.
Fixpoint countLines (buffer : list ascii) : Z :=
  match buffer with
  | [] => 0
  | c :: rest => (if bool_decide (c = "010"%char) || match rest with [] => true | _ => false end then 1 else 0) + countLines rest
  end.

Section files.
(** The contents of the file of a name. *)
Context (contents : list ascii -> option (list ascii)).

(** The file that is opened, and [fi], what is cut off the name. *)
Definition openFile (r : FileReader) (file : list ascii) : option (list ascii) * Z :=
  match fr_cutPath r with
  | Some ((_ :: _) as cutPath) =>
      match cutFile cutPath file with
      | Some rest =>
          (contents (match fr_newRoot r with Some root => root ++ rest | None => rest end),
           Z.of_nat (length file) - Z.of_nat (length rest))
      | None => (contents file, 0)
      end
  | _ =>
      (match contents file with
       | Some b => Some b
       | None => match lastPart file with Some name => contents name | None => None end
       end, 0)
  end.

(** [None]: the null that is returned if there are more lines than were counted. *)
Definition readFile (file : list ascii) (r : FileReader) : FileReader * option nat :=
  let '(content, fi) := openFile r file in
  let add lines := set_files (fr_files r ++ [{| fl_name := file; fl_cutPathIndex := fi; fl_funcs := []; fl_lines := lines |}]) r in
  match content with
  | None => (add None, Some (length (fr_files r)))
  | Some buffer =>
      let lines := linesFrom true buffer in
      if 1 + countLines buffer <=? Z.of_nat (length lines) then (add None, None)
      else (add (Some lines), Some (length (fr_files r)))
  end.

(** The place of the last file of the list with a name. *)
Fixpoint findName (file : list ascii) (l : list FileList) : option nat :=
  match l with
  | [] => None
  | fl :: l =>
      match findName file l with
      | Some p => Some (S p)
      | None => if strcmp (fl_name fl) file then Some O else None
      end
  end.

Definition isLast (file : list ascii) (r : FileReader) : option nat :=
  p ← fr_lastFile r; fl ← fr_files r !! p; if strcmp (fl_name fl) file then Some p else None.

Definition findFile (file : list ascii) (r : FileReader) : FileReader * option nat :=
  match isLast file r with
  | Some p => (r, Some p)
  | None =>
      match findName file (fr_files r) with
      | Some p => (set_lastFile (Some p) r, Some p)
      | None => readFile file r
      end
  end.
End files.

(** ** What [sanePath] makes of an absolute path *)

Section sane.
Context (sep : ascii) (Hsep : slash sep = true).

Definition sane (dst src : list ascii) : list ascii := saneLoop (length src) sep dst src.

Lemma afterSlash_length src rest : afterSlash src = Some rest -> (length rest < length src)%nat.
Proof. destruct src as [|c src]; cbn; [done|]. destruct (slash c); [|done]. intros [= <-]. lia. Qed.
Lemma afterDotSlash_length src rest : afterDotSlash src = Some rest -> (length rest < length src)%nat.
Proof.
  destruct src as [|c src]; cbn [afterDotSlash]; [done|]. intros E.
  assert (afterSlash src = Some rest) as H%afterSlash_length by (destruct c as [[] [] [] [] [] [] [] []]; done). cbn. lia.
Qed.

Lemma saneTurn_length dst c src : (length (saneTurn sep dst c src).2 <= length src)%nat.
Proof.
  unfold saneTurn. destruct (bool_decide _); [done|]. destruct (slash c); [done|]. destruct (bool_decide _); [|done].
  destruct (endsIn sep dst).
  - destruct (afterSlash src) as [rest|] eqn:E; [apply afterSlash_length in E; cbn; lia|].
    destruct (afterDotSlash src) as [rest|] eqn:E2; [apply afterDotSlash_length in E2; cbn; lia|done].
  - destruct dst; [|done]. destruct (afterSlash src) as [rest|] eqn:E; [apply afterSlash_length in E; cbn; lia|done].
Qed.

Lemma saneLoop_enough n : forall m dst src, (length src <= n)%nat -> (length src <= m)%nat ->
  saneLoop n sep dst src = saneLoop m sep dst src.
Proof.
  induction n as [|n IH]; intros [|m] dst [|c src] Hn Hm; cbn in Hn, Hm; try done; try lia. cbn [saneLoop].
  pose proof (saneTurn_length dst c src) as Hl. destruct (saneTurn sep dst c src) as [d s]. cbn in Hl. apply IH; lia.
Qed.

Lemma sane_cons dst c src : sane dst (c :: src) = sane (saneTurn sep dst c src).1 (saneTurn sep dst c src).2.
Proof.
  unfold sane. cbn [length saneLoop]. pose proof (saneTurn_length dst c src) as Hl.
  destruct (saneTurn sep dst c src) as [d s]. cbn in Hl |- *. apply saneLoop_enough; lia.
Qed.

(** A part of a path between slashes. *)
Definition nameChar (c : ascii) : bool := negb (slash c) && negb (bool_decide (c = ":"%char)).
Definition name (l : list ascii) : bool := forallb nameChar l.

Lemma nameChar_spec c : nameChar c = true -> slash c = false /\ bool_decide (c = ":"%char) = false /\ bool_decide (c = sep) = false.
Proof using Hsep.
  unfold nameChar. intros [H1%negb_true_iff H2%negb_true_iff]%andb_true_iff. split_and!; [done..|].
  apply bool_decide_eq_false_2. intros ->. by rewrite Hsep in H1.
Qed.

(** Inside of a name the characters are copied. *)
Lemma sane_inside l : forall dst rest, name l = true -> dst <> [] -> endsIn sep dst = false ->
  sane dst (l ++ rest) = sane (rev l ++ dst) rest.
Proof using Hsep.
  induction l as [|c l IH]; intros dst rest Hl Hd He; [done|]. cbn [name forallb] in Hl. apply andb_true_iff in Hl as [Hc Hl].
  destruct (nameChar_spec c Hc) as (H1 & H2 & H3). cbn [app rev]. rewrite sane_cons.
  assert (saneTurn sep dst c (l ++ rest) = (c :: dst, l ++ rest)) as ->.
  { unfold saneTurn. rewrite H1, H2, He. destruct (bool_decide_reflect (c = "."%char)) as [->|]; [|done]. by destruct dst. }
  cbn [fst snd]. rewrite IH; [|done|done|done]. by rewrite <-app_assoc.
Qed.

(** A name that is not dots, after a separator. *)
Lemma sane_name l dst rest : name l = true -> endsIn sep dst = true ->
  (rest = [] \/ (l <> ["."%char] /\ l <> ["."; "."]%char /\ exists c r, rest = c :: r /\ slash c = true)) ->
  sane dst (l ++ rest) = sane (rev l ++ dst) rest.
Proof using Hsep.
  intros Hl Hd Hr. destruct l as [|c l]; [done|]. cbn [name forallb] in Hl. apply andb_true_iff in Hl as [Hc Hl].
  destruct (nameChar_spec c Hc) as (H1 & H2 & H3). cbn [app rev]. rewrite sane_cons.
  assert (saneTurn sep dst c (l ++ rest) = (c :: dst, l ++ rest)) as ->.
  { unfold saneTurn. rewrite H1, H2, Hd. destruct (bool_decide_reflect (c = "."%char)) as [->|]; [|done].
    destruct l as [|c2 l].
    - destruct Hr as [->|(Hr & _)]; [done|done].
    - cbn [forallb] in Hl. apply andb_true_iff in Hl as [Hc2 Hl]. destruct (nameChar_spec c2 Hc2) as (G1 & _ & _).
      cbn [app afterSlash]. rewrite G1. destruct (decide (c2 = "."%char)) as [->|Hne].
      + cbn [afterDotSlash]. destruct l as [|c3 l].
        * destruct Hr as [->|(_ & Hr & _)]; [done|done].
        * cbn [forallb] in Hl. apply andb_true_iff in Hl as [Hc3 _]. destruct (nameChar_spec c3 Hc3) as (G3 & _ & _).
          cbn [app afterSlash]. by rewrite G3.
      + assert (afterDotSlash (c2 :: l ++ rest) = None) as ->; [|done].
        destruct c2 as [[] [] [] [] [] [] [] []]; cbn; done. }
  cbn [fst snd]. rewrite sane_inside; [|done|done|done]. by rewrite <-app_assoc.
Qed.

(** The directories of a path, the innermost first, as they are written. *)
Fixpoint rendered (dirs : list (list ascii)) : list ascii :=
  match dirs with
  | [] => [sep]
  | n :: dirs => sep :: rev n ++ rendered dirs
  end.

Lemma rendered_ends dirs : endsIn sep (rendered dirs) = true.
Proof. destruct dirs; cbn; by rewrite bool_decide_eq_true_2. Qed.

Lemma scanBack_name l dst : name l = true -> endsIn sep dst = true -> scanBack sep (rev l ++ dst) = dst.
Proof using Hsep.
  intros Hl Hd. induction l as [|c l IH] using rev_ind; cbn [rev app].
  - destruct dst as [|c dst]; [done|]. cbn in Hd |- *. by rewrite Hd.
  - unfold name in Hl. rewrite forallb_app in Hl. cbn in Hl. apply andb_true_iff in Hl as [Hl [Hc _]%andb_true_iff].
    rewrite rev_app_distr. cbn. destruct (nameChar_spec c Hc) as (_ & _ & ->). by apply IH.
Qed.

(** What a directory of a path does; [None]: it would leave the root. *)
Definition enter (dirs : list (list ascii)) (n : list ascii) : option (list (list ascii)) :=
  if bool_decide (n = []) || bool_decide (n = ["."%char]) then Some dirs
  else if bool_decide (n = ["."; "."]%char) then match dirs with [] => None | _ :: dirs => Some dirs end
  else Some (n :: dirs).
Fixpoint enterAll (dirs : list (list ascii)) (ns : list (list ascii)) : option (list (list ascii)) :=
  match ns with
  | [] => Some dirs
  | n :: ns => dirs ← enter dirs n; enterAll dirs ns
  end.

Lemma enter_names dirs n dirs' : List.Forall (fun n => name n = true) dirs -> name n = true -> enter dirs n = Some dirs' ->
  List.Forall (fun n => name n = true) dirs'.
Proof.
  intros Hd Hn. unfold enter. destruct (_ || _); [by intros [= <-]|]. destruct (bool_decide _); [|intros [= <-]; by constructor].
  destruct Hd; [done|]. by intros [= <-].
Qed.

Lemma sane_dir dirs n c rest dirs' : List.Forall (fun n => name n = true) dirs -> name n = true -> slash c = true ->
  enter dirs n = Some dirs' -> sane (rendered dirs) (n ++ c :: rest) = sane (rendered dirs') rest.
Proof using Hsep.
  intros Hd Hn Hc. unfold enter. pose proof (rendered_ends dirs) as He.
  assert (bool_decide (c = ":"%char) = false) as Hcolon by (apply bool_decide_eq_false_2; by intros ->).
  destruct (bool_decide_reflect (n = [])) as [->|H0].
  { intros [= <-]. cbn [app]. rewrite sane_cons. unfold saneTurn. by rewrite Hcolon, Hc, He. }
  destruct (bool_decide_reflect (n = ["."%char])) as [->|H1].
  { intros [= <-]. cbn [app]. rewrite sane_cons. unfold saneTurn. cbn. by rewrite He, Hc. }
  cbn [orb]. destruct (bool_decide_reflect (n = ["."; "."]%char)) as [->|H2].
  { destruct dirs as [|m dirs]; [done|]. intros [= <-]. apply list.Forall_cons in Hd as [Hm Hd]. cbn [app]. rewrite sane_cons.
    unfold saneTurn. cbn [rendered endsIn] in He |- *. cbn. rewrite He, Hc. cbn [fst snd].
    by rewrite scanBack_name by (done || apply rendered_ends). }
  intros [= <-]. rewrite sane_name; [|done|done|right; split_and!; [done..|by exists c, rest]]. rewrite sane_cons.
  unfold saneTurn. rewrite Hcolon, Hc. assert (endsIn sep (rev n ++ rendered dirs) = false) as ->; [|done].
  destruct n as [|x n] using rev_ind; [done|]. rewrite rev_app_distr. cbn.
  unfold name in Hn. rewrite forallb_app in Hn. cbn in Hn. apply andb_true_iff in Hn as [_ [Hx _]%andb_true_iff].
  by destruct (nameChar_spec x Hx) as (_ & _ & ->).
Qed.

(** A path of directories, each with the slash after it. *)
Definition pathText (dirs : list (list ascii * ascii)) (last : list ascii) : list ascii :=
  foldr (fun d rest => d.1 ++ d.2 :: rest) last dirs.

Lemma sane_path dirs last : forall ds ds', List.Forall (fun n => name n = true) ds ->
  List.Forall (fun d => name d.1 = true /\ slash d.2 = true) dirs -> name last = true ->
  enterAll ds dirs.*1 = Some ds' -> sane (rendered ds) (pathText dirs last) = rev last ++ rendered ds'.
Proof using Hsep.
  induction dirs as [|[n c] dirs IH]; intros ds ds' Hd Hdirs Hl; cbn [enterAll fmap list_fmap fst pathText foldr].
  - intros [= <-]. rewrite <-(app_nil_r last) at 1. rewrite sane_name; [done|done|apply rendered_ends|by left].
  - apply list.Forall_cons in Hdirs as [[Hn Hc] Hdirs]. destruct (enter ds n) as [ds2|] eqn:E; [|done].
    cbn [mbind option_bind]. intros E2. cbn [fst snd] in *. rewrite (sane_dir ds n c _ ds2) by done.
    apply IH; try done. by apply (enter_names ds n).
Qed.
End sane.

(** An absolute path: its directories are entered one by one, and its last part is left
    as it is. *)
Lemma sanePath_absolute pt c dirs last ds : pt <> PATH_RAW -> slash c = true ->
  List.Forall (fun d => name d.1 = true /\ slash d.2 = true) dirs -> name last = true ->
  enterAll [] dirs.*1 = Some ds ->
  sanePath pt (c :: pathText dirs last) = rev (rendered (separator pt) ds) ++ last.
Proof.
  intros Hpt Hc Hdirs Hl E. assert (slash (separator pt) = true) as Hsep by by destruct pt.
  transitivity (rev (sane (separator pt) [] (c :: pathText dirs last))); [by destruct pt|].
  rewrite sane_cons. unfold saneTurn. assert (bool_decide (c = ":"%char) = false) as -> by (apply bool_decide_eq_false_2; by intros ->).
  rewrite Hc. cbn [endsIn fst snd]. change [separator pt] with (rendered (separator pt) []).
  rewrite (sane_path _ Hsep dirs last [] ds) by done. by rewrite rev_app_distr, rev_involutive.
Qed.

(** Two dots that would leave the root take its slash away, and two of them cancel. *)
Example sane_above_root : sanePath PATH_TO_UNIX (chars "/../a") = chars "a".
Proof. reflexivity. Qed.
Example sane_two_up : sanePath PATH_TO_UNIX (chars "../../a") = chars "a".
Proof. reflexivity. Qed.

Lemma rendered_text sep ds : rev (rendered sep ds) = concat (cons sep <$> rev ds) ++ [sep].
Proof.
  induction ds as [|n ds IH]; [done|]. cbn [rendered rev]. rewrite rev_app_distr, rev_involutive, IH, fmap_app, concat_app. cbn.
  by rewrite app_nil_r, <-!app_assoc.
Qed.

(** ** What the reader keeps *)

Lemma lines_counted b : forall s, b <> [] ->
  Z.of_nat (length (linesFrom s b)) + (if s : bool then 0 else 1) = countLines b.
Proof.
  induction b as [|c b IH]; intros s Hb; [done|]. cbn [linesFrom countLines]. rewrite length_app.
  destruct b as [|c2 b].
  - cbn [linesFrom countLines length]. rewrite orb_true_r. destruct s; done.
  - specialize (IH (bool_decide (c = "010"%char)) ltac:(done)). rewrite orb_false_r.
    destruct (bool_decide (c = "010"%char)), s; cbn [length] in *; lia.
Qed.

(** The lines of a text, each of them ended. *)
Definition lineText_ok (l : list ascii) : Prop :=
  List.Forall (fun c => c <> "010"%char /\ c <> "013"%char /\ c <> "000"%char) l.

Lemma lineFrom_text l rest : lineText_ok l -> lineFrom (l ++ "010"%char :: rest) = l.
Proof.
  induction 1 as [|c l (H1 & H2 & H3) Hl IH]; cbn [app lineFrom]; [done|].
  rewrite !bool_decide_eq_false_2 by done. cbn [orb]. by rewrite IH.
Qed.
Lemma linesFrom_inside l rest : lineText_ok l -> linesFrom false (l ++ "010"%char :: rest) = linesFrom true rest.
Proof.
  induction 1 as [|c l (H1 & H2 & H3) Hl IH]; cbn [app linesFrom]; [done|]. by rewrite bool_decide_eq_false_2.
Qed.

Lemma lines_of_text ls : List.Forall lineText_ok ls -> linesFrom true (concat ((fun l => l ++ ["010"%char]) <$> ls)) = ls.
Proof.
  induction 1 as [|l ls Hl Hls IH]; [done|]. cbn [fmap list_fmap concat]. rewrite <-app_assoc. cbn [app].
  set (T := concat _) in *. pose proof (lineFrom_text l T Hl) as Hf. pose proof (linesFrom_inside l T Hl) as Hi.
  destruct l as [|c l]; cbn [app linesFrom] in *; [by rewrite Hf, Hi, IH|].
  apply list.Forall_cons in Hl as [(H1 & _) _]. rewrite (bool_decide_eq_false_2 (c = "010"%char)) in Hi |- * by done.
  rewrite Hi, Hf, IH. done.
Qed.

Section reader.
Context (contents : list ascii -> option (list ascii)).

(** The names are different, and the last file is one of the list. *)
Record reader_ok (r : FileReader) : Prop := {
  ro_names : NoDup (fl_name <$> fr_files r);
  ro_last : match fr_lastFile r with Some p => is_Some (fr_files r !! p) | None => True end;
}.

Lemma newFileReader_ok : reader_ok newFileReader.
Proof. split; [constructor|done]. Qed.
Lemma subSrcPath_ok cutPath newRoot r : reader_ok r -> reader_ok (subSrcPath cutPath newRoot r).
Proof. by intros [H1 H2]. Qed.

Lemma findName_spec file l :
  match findName file l with
  | Some p => exists fl, l !! p = Some fl /\ fl_name fl = file
  | None => file ∉ fl_name <$> l
  end.
Proof.
  induction l as [|fl l IH]; cbn [findName fmap list_fmap]; [apply not_elem_of_nil|]. destruct (findName file l) as [p|].
  - destruct IH as (fl2 & E & En). by exists fl2.
  - unfold strcmp. destruct (bool_decide_reflect (fl_name fl = file)) as [<-|Hne]; [by exists fl|].
    apply not_elem_of_cons. split; [by apply not_eq_sym|done].
Qed.

Lemma isLast_spec file r :
  match isLast file r with Some p => exists fl, fr_files r !! p = Some fl /\ fl_name fl = file | None => True end.
Proof.
  unfold isLast. destruct (fr_lastFile r) as [p|]; [|done]. cbn [mbind option_bind].
  destruct (fr_files r !! p) as [fl|] eqn:E; [|done]. cbn [mbind option_bind]. unfold strcmp.
  destruct (bool_decide_reflect (fl_name fl = file)); [by exists fl|done].
Qed.

(** What is kept of a file that is read. *)
Definition fileRead (file : list ascii) (r : FileReader) : FileList := {|
  fl_name := file; fl_cutPathIndex := (openFile contents r file).2; fl_funcs := [];
  fl_lines := linesFrom true <$> (openFile contents r file).1 |}.

Lemma readFile_spec file r :
  readFile contents file r = (set_files (fr_files r ++ [fileRead file r]) r, Some (length (fr_files r))).
Proof.
  unfold readFile, fileRead. destruct (openFile contents r file) as [[buffer|] fi]; cbn [fst snd fmap option_fmap option_map]; [|done].
  destruct (Z.leb_spec (1 + countLines buffer) (Z.of_nat (length (linesFrom true buffer)))) as [Hle|]; [|done].
  destruct buffer as [|c b]; [done|]. pose proof (lines_counted (c :: b) true ltac:(done)). lia.
Qed.

(** A file is read the first time, and found after that; the files read before stay. *)
Lemma findFile_spec file r : reader_ok r ->
  exists r' p fl, findFile contents file r = (r', Some p) /\ reader_ok r' /\ fr_files r' !! p = Some fl /\ fl_name fl = file /\
    fr_cutPath r' = fr_cutPath r /\ fr_newRoot r' = fr_newRoot r /\
    (fr_files r' = fr_files r \/ file ∉ fl_name <$> fr_files r /\ fr_files r' = fr_files r ++ [fileRead file r] /\ fl = fileRead file r).
Proof.
  intros Hok. pose proof Hok as [Hn Hl]. unfold findFile. pose proof (isLast_spec file r) as Hi.
  destruct (isLast file r) as [p|]; [destruct Hi as (fl & E & En); exists r, p, fl; split_and!; try done; by left|].
  pose proof (findName_spec file (fr_files r)) as Hf. destruct (findName file (fr_files r)) as [q|].
  - destruct Hf as (fl2 & E2 & En). exists (set_lastFile (Some q) r), q, fl2. split_and!; try done; [|by left].
    split; cbn; [done|by eexists].
  - rewrite readFile_spec. eexists _, _, (fileRead file r). split; [done|]. cbn. split_and!; try done; [| |by right].
    + split; cbn.
      * rewrite fmap_app. apply list.NoDup_app. split_and!; [done| |by apply NoDup_singleton].
        intros x Hx Hx2%list_elem_of_singleton. by subst x.
      * destruct (fr_lastFile r) as [p|]; [|done]. destruct Hl as [fl E]. exists fl. by apply lookup_app_l_Some.
    + by rewrite lookup_app_r, Nat.sub_diag by lia.
Qed.
End reader.

(** The files were read with the paths that are set now. *)
Definition reader_current (contents : list ascii -> option (list ascii)) (r : FileReader) : Prop :=
  List.Forall (fun fl => fl_lines fl = linesFrom true <$> (openFile contents r (fl_name fl)).1 /\
                         fl_cutPathIndex fl = (openFile contents r (fl_name fl)).2) (fr_files r).

Lemma openFile_paths contents r r' file : fr_cutPath r' = fr_cutPath r -> fr_newRoot r' = fr_newRoot r ->
  openFile contents r' file = openFile contents r file.
Proof. unfold openFile. by intros -> ->. Qed.

Lemma findFile_current contents file r r' p : reader_ok r -> reader_current contents r -> findFile contents file r = (r', Some p) ->
  exists fl, reader_ok r' /\ reader_current contents r' /\ fr_files r' !! p = Some fl /\ fl_name fl = file /\
    fr_cutPath r' = fr_cutPath r /\ fr_newRoot r' = fr_newRoot r /\
    fl_lines fl = linesFrom true <$> (openFile contents r file).1 /\ fl_cutPathIndex fl = (openFile contents r file).2.
Proof.
  intros Hok Hc E. destruct (findFile_spec contents file r Hok) as (r2 & q & fl & E2 & Hok2 & Hfl & En & Ecut & Eroot & Hf).
  rewrite E in E2. injection E2 as -> ->. exists fl.
  assert (reader_current contents r2) as Hc2.
  { unfold reader_current in *. destruct Hf as [-> | (_ & -> & _)]; [|apply list.Forall_app; split; [|apply list.Forall_singleton]].
    1, 2: apply (list.Forall_impl _ _ _ Hc); intros x; by rewrite (openFile_paths contents r r2).
    cbn [fileRead fl_name fl_lines fl_cutPathIndex]. by rewrite (openFile_paths contents r r2). }
  pose proof Hc2 as Hc3. unfold reader_current in Hc3. rewrite List.Forall_forall in Hc3.
  destruct (Hc3 fl) as [H1 H2]; [apply list_elem_of_In; by apply (list_elem_of_lookup_2 _ q)|].
  rewrite (openFile_paths contents r r2), En in H1, H2 by done. by split_and!.
Qed.
