(* ===== verification/PropFile.v ===== *)
(** * Properties files (src/trace.cpp, [propertiesParser])

    A file of lines [name = value # comment].  The parser keeps the text of the file and
    where each line starts, finds the words of a line when it is asked for the next property,
    and ends them in place with NUL characters.  Positions are those in the text. *)

From stdpp Require Import strings.
From Stdlib Require Import Ascii.
From Stdlib Require String.
From S2P Require Import Prelude Nexus ObjDump SrcFiles.

Definition NUL : ascii := "000"%char.

(** [struct line]; a name and a value are positions in the text. *)
Record PropLine := { ln_line : nat; ln_name : option nat; ln_value : option nat }.

(** [numLines] is the length of [lines], which is null if there is no text. *)
Record PropParser := {
  pr_status : DQErr;
  pr_lines : option (list PropLine);
  pr_nextLine : nat;
  pr_buff : list ascii;
}.
Definition set_pr_status e (p : PropParser) : PropParser := {|
  pr_status := e; pr_lines := pr_lines p; pr_nextLine := pr_nextLine p; pr_buff := pr_buff p |}.
Definition set_nextLine n (p : PropParser) : PropParser := {|
  pr_status := pr_status p; pr_lines := pr_lines p; pr_nextLine := n; pr_buff := pr_buff p |}.
Definition set_pr_lines l (p : PropParser) : PropParser := {|
  pr_status := pr_status p; pr_lines := l; pr_nextLine := pr_nextLine p; pr_buff := pr_buff p |}.
Definition set_pr_buff b (p : PropParser) : PropParser := {|
  pr_status := pr_status p; pr_lines := pr_lines p; pr_nextLine := pr_nextLine p; pr_buff := b |}.

#[local] Abbreviation PM := (M PropParser DQErr).

(** ** Reading the file *)

(** What opening the file, asking for its size and reading it come to. *)
Inductive FileRead := NotRead | Content (text : list ascii).

(** CRs and LFs become NULs. *)
Definition stripped (c : ascii) : ascii :=
  if bool_decide (c = "013"%char) || bool_decide (c = "010"%char) then NUL else c.
(** Where the lines start; [s] is set at the start of a line. *)
Fixpoint lineStarts (s : bool) (i : nat) (text : list ascii) : list nat :=
  match text with
  | [] => []
  | c :: text => (if s then [i] else []) ++ lineStarts (bool_decide (c = "010"%char)) (S i) text
  end.

(** A line more than were counted would be written outside of the array. *)
Definition newPropParser (srcData : option FileRead) : option PropParser :=
  match srcData with
  | None => Some {| pr_status := DQERR_OK; pr_lines := None; pr_nextLine := 0; pr_buff := [] |}
  | Some NotRead => Some {| pr_status := DQERR_OPEN; pr_lines := None; pr_nextLine := 0; pr_buff := [] |}
  | Some (Content text) =>
      let starts := lineStarts true 0 text in
      let numLines := countLines text in
      if numLines <? Z.of_nat (length starts) then None
      else if Z.of_nat (length starts) =? numLines then Some {|
        pr_status := DQERR_OK;
        pr_lines := Some ((fun i => {| ln_line := i; ln_name := None; ln_value := None |}) <$> starts);
        pr_nextLine := 0; pr_buff := (stripped <$> text) ++ [NUL] |}
      else Some {| pr_status := DQERR_ERR; pr_lines := None; pr_nextLine := 0; pr_buff := [] |}
  end.

Definition rewind : PropParser -> PropParser := set_nextLine 0.

(** ** Words *)

Definition tabOrSpace (c : ascii) : bool := bool_decide (c = "009"%char) || bool_decide (c = " "%char).
Definition endOfText (c : ascii) : bool :=
  bool_decide (c = "#"%char) || bool_decide (c = NUL) || bool_decide (c = "010"%char) || bool_decide (c = "013"%char).
(** A tab does not end a word. *)
Definition endsWord (c : ascii) : bool := bool_decide (c = " "%char) || endOfText c || bool_decide (c = "="%char).

Fixpoint countWhile (f : ascii -> bool) (l : list ascii) : nat :=
  match l with c :: l => if f c then S (countWhile f l) else O | [] => O end.

(** The start and the end of the next word of [text], from [startIndex] on: [None] if the text
    is left, which ends with a NUL. *)
Definition getNextToken (text : list ascii) (startIndex : nat) : option (nat * nat) :=
  let start := (startIndex + countWhile tabOrSpace (drop startIndex text))%nat in
  c ← text !! start;
  if endOfText c then Some (start, start)
  else if bool_decide (c = "="%char) then Some (start, S start)
  else
    let e := (start + countWhile (fun c => negb (endsWord c)) (drop start text))%nat in
    _ ← text !! e;
    Some (start, e).

(** ** The next property *)

Definition lineAt (i : nat) : PM PropLine :=
  p ← get; lift_opt (l ← pr_lines p; l !! i).
Definition textFrom (ln : PropLine) (p : PropParser) : list ascii := drop (ln_line ln) (pr_buff p).

(** The loop over lines without a word; [start] is where the last one looked at ended. *)
Fixpoint skipLines (n : nat) (numLines start : nat) : PM (nat * nat) :=
  match n with
  | O => fun _ => NoFuel
  | S n =>
      p ← get;
      ln ← lineAt (pr_nextLine p);
      '(s, e) ← lift_opt (getNextToken (textFrom ln p) start);
      if (s =? e)%nat then
        modify (set_nextLine (S (pr_nextLine p))) ≫= fun _ =>
        if (S (pr_nextLine p) <? numLines)%nat then skipLines n numLines s else mret (s, e)
      else mret (s, e)
  end.

Definition propError {A} : PM A := modify (set_pr_status DQERR_ERR) ≫= fun _ => throw DQERR_ERR.

(** The positions of a name and of a value in the text. *)
Definition getNextProperty : PM (nat * nat) :=
  p ← get;
  if negb (bool_decide (pr_status p = DQERR_OK)) then throw (pr_status p)
  else
    match pr_lines p with
    | None => modify (set_pr_status DQERR_EOF) ≫= fun _ => throw DQERR_EOF
    | Some lines =>
        let numLines := length lines in
        if (numLines <=? pr_nextLine p)%nat then throw DQERR_EOF
        else
          ln ← lineAt (pr_nextLine p);
          match ln_name ln, ln_value ln with
          | Some n, Some v => modify (set_nextLine (S (pr_nextLine p))) ≫= fun _ => mret (n, v)
          | _, _ =>
              '(nameStart, nameEnd) ← skipLines numLines numLines 0;
              p ← get;
              if (numLines <=? pr_nextLine p)%nat then throw DQERR_EOF
              else
                let i := pr_nextLine p in
                ln ← lineAt i;
                let text := textFrom ln p in
                if (Z.of_nat nameStart - Z.of_nat nameEnd =? 1) && bool_decide (text !! nameStart = Some "="%char) then propError
                else
                  '(eqStart, eqEnd) ← lift_opt (getNextToken text nameEnd);
                  if (eqStart =? eqEnd)%nat || negb (eqEnd - eqStart =? 1)%nat ||
                     negb (bool_decide (text !! eqStart = Some "="%char)) then propError
                  else
                    '(valueStart, valueEnd) ← lift_opt (getNextToken text eqEnd);
                    if (Z.of_nat valueStart - Z.of_nat valueEnd =? 1) && bool_decide (text !! nameStart = Some "="%char) then propError
                    else
                      let o := ln_line ln in
                      modify (fun p => set_pr_buff (<[(o + valueEnd)%nat := NUL]> (<[(o + nameEnd)%nat := NUL]> (pr_buff p)))
                        (set_pr_lines (Some (<[i := {| ln_line := o; ln_name := Some (o + nameStart)%nat;
                           ln_value := Some (o + valueStart)%nat |}]> lines)) (set_nextLine (S i) p))) ≫= fun _ =>
                      mret ((o + nameStart)%nat, (o + valueStart)%nat)
          end
    end.

(** The string at a position: it ends at a NUL of the text. *)
Definition stringAt (p : PropParser) (i : nat) : option (list ascii) :=
  if bool_decide (NUL ∈ drop i (pr_buff p)) then Some (cstring (drop i (pr_buff p))) else None.
