(* ===== verification/ElfFile.v ===== *)
(** * Object files (src/dqr.cpp, [ObjDump::ObjDump] and [ElfReader])

    An [ElfReader] holds what the object files of a process have: [ElfReader::ElfReader]
    reads the program, [addElfFile] each of its libraries, and [seal] makes the table of
    symbols and gives the instructions of local functions without source lines the name
    of the file that the symbols tell. *)

From stdpp Require Import strings.
From Stdlib Require Import Ascii.
From Stdlib Require String.
From S2P Require Import Prelude Nexus Memory ObjDump ObjCode Symbols.

(** What [execObjDump] comes to: there is no such file, it fails, or a pipe is open that
    gives these reads. *)
Inductive Exec := ExecOpen | ExecFailed | ExecPipe (reads : list (option (list ascii))).

(** ** Reading one file *)

(** The variables of the caller that [ObjDump] extends. *)
Record Image := {
  im_archSize : Z;
  im_store : list ElfSection;
  im_codeSectionLst : list nat;
  im_symLst : list Sym;
  im_srcFiles : list (list ascii);
}.

Definition dumpOf (reads : list (option (list ascii))) (et : ElfType) (im : Image) : ObjDump := {|
  od_pipe := {| pp_buffer := []; pp_reads := reads |}; od_eType := et; od_sp := []; od_archSize := im_archSize im;
  od_store := im_store im; od_codeSectionLst := im_codeSectionLst im; od_symLst := im_symLst im;
  od_srcFiles := im_srcFiles im |}.
Definition imageOf (s : ObjDump) : Image := {|
  im_archSize := od_archSize s; im_store := od_store s; im_codeSectionLst := od_codeSectionLst s;
  im_symLst := od_symLst s; im_srcFiles := od_srcFiles s |}.

Section loading.
Context (fuel : nat).

(** A parser that runs on the image; an error leaves what was read so far. *)
Definition runDump (et : ElfType) (vmaOffset startAddr endAddr : Z) (reads : list (option (list ascii)))
    : M Image DQErr unit := fun im =>
  match parseObjDump fuel vmaOffset startAddr endAddr (dumpOf reads et im) with
  | Ok s _ => Ok (imageOf s) tt
  | Err s _ => Err (imageOf s) DQERR_ERR
  | Undef => Undef
  | NoFuel => NoFuel
  end.

(** The constructor for an ELF file; the error is its status. *)
Definition dumpElf (vmaOffset : Z) (e : Exec) : M Image DQErr unit :=
  match e with
  | ExecOpen => mret tt
  | ExecFailed => throw DQERR_ERR
  | ExecPipe reads => runDump elfType_32_little vmaOffset 0 0 reads
  end.

(** The constructor for a binary file: the size of addresses is passed by value, and
    symbols and source files are not kept. *)
Definition dumpBlob (startAddr endAddr : Z) (e : Exec) : M Image DQErr unit := fun im =>
  let keep (im' : Image) := {|
    im_archSize := im_archSize im; im_store := im_store im'; im_codeSectionLst := im_codeSectionLst im';
    im_symLst := im_symLst im; im_srcFiles := im_srcFiles im |} in
  let dump et reads :=
    match runDump et 0 startAddr endAddr reads {|
            im_archSize := im_archSize im; im_store := im_store im; im_codeSectionLst := im_codeSectionLst im;
            im_symLst := []; im_srcFiles := [] |} with
    | Ok im' _ => Ok (keep im') tt
    | Err im' e => Err (keep im') e
    | Undef => Undef
    | NoFuel => NoFuel
    end in
  let read et :=
    match e with
    | ExecOpen => Ok im tt
    | ExecFailed => Err im DQERR_ERR
    | ExecPipe reads => dump et reads
    end in
  if im_archSize im =? 32 then read elfType_32_binary
  else if im_archSize im =? 64 then read elfType_64_binary
  else Err im DQERR_ERR.

(** ** The reader *)

(** [bitsPerAddress] is [None] as long as nothing was assigned to it. *)
Record ElfFile := {
  ef_status : DQErr;
  ef_sealed : bool;
  ef_bitsPerAddress : option Z;
  ef_image : Image;
  ef_symtab : option Symtab;
}.
Definition set_ef_status e (f : ElfFile) : ElfFile := {|
  ef_status := e; ef_sealed := ef_sealed f; ef_bitsPerAddress := ef_bitsPerAddress f; ef_image := ef_image f;
  ef_symtab := ef_symtab f |}.
Definition set_sealed b (f : ElfFile) : ElfFile := {|
  ef_status := ef_status f; ef_sealed := b; ef_bitsPerAddress := ef_bitsPerAddress f; ef_image := ef_image f;
  ef_symtab := ef_symtab f |}.
Definition set_image im (f : ElfFile) : ElfFile := {|
  ef_status := ef_status f; ef_sealed := ef_sealed f; ef_bitsPerAddress := ef_bitsPerAddress f; ef_image := im;
  ef_symtab := ef_symtab f |}.
Definition set_bits b (f : ElfFile) : ElfFile := {|
  ef_status := ef_status f; ef_sealed := ef_sealed f; ef_bitsPerAddress := b; ef_image := ef_image f;
  ef_symtab := ef_symtab f |}.
Definition set_symtab t (f : ElfFile) : ElfFile := {|
  ef_status := ef_status f; ef_sealed := ef_sealed f; ef_bitsPerAddress := ef_bitsPerAddress f; ef_image := ef_image f;
  ef_symtab := t |}.
Definition set_im_store st (im : Image) : Image := {|
  im_archSize := im_archSize im; im_store := st; im_codeSectionLst := im_codeSectionLst im; im_symLst := im_symLst im;
  im_srcFiles := im_srcFiles im |}.
Definition set_im_symLst l (im : Image) : Image := {|
  im_archSize := im_archSize im; im_store := im_store im; im_codeSectionLst := im_codeSectionLst im; im_symLst := l;
  im_srcFiles := im_srcFiles im |}.

#[local] Abbreviation EM := (M ElfFile DQErr).

(** [status = DQERR_ERR; return DQERR_ERR;] *)
Definition elfFails : EM unit := modify (set_ef_status DQERR_ERR) ≫= fun _ => throw DQERR_ERR.

Definition onImage {A} (m : M Image DQErr A) : M ElfFile DQErr A := fun f => zoom (fun im => set_image im f) m (ef_image f).

(** Whether a constructor of [ObjDump] leaves a good status. *)
Definition constructed (m : M Image DQErr unit) : EM bool := fun f =>
  match onImage m f with
  | Ok f _ => Ok f true
  | Err f _ => Ok f false
  | Undef => Undef
  | NoFuel => NoFuel
  end.

(** [archSize] is what was in the memory of the new object. *)
Definition newElfReader (garbage vmaOffset : Z) (elfname : option Exec) : Res ElfFile DQErr unit :=
  let start := {|
    ef_status := DQERR_OK; ef_sealed := false; ef_bitsPerAddress := None;
    ef_image := {| im_archSize := garbage; im_store := []; im_codeSectionLst := []; im_symLst := []; im_srcFiles := [] |};
    ef_symtab := None |} in
  match elfname with
  | None => elfFails start
  | Some e =>
      (ok ← constructed (dumpElf vmaOffset e);
       if negb ok then elfFails
       else
         f ← get;
         let bits := im_archSize (ef_image f) in
         (if (bits =? 32) || (bits =? 64) then modify (set_bits (Some bits)) else mret tt) ≫= fun _ =>
         modify (set_ef_status DQERR_OK)) start
  end.

(** [class addressMap]: where a library or a binary file is. *)
Record AddressMap := { am_isBlob : bool; am_startAddr : Z; am_endAddr : Z }.

Definition addElfFile (elfname : option Exec) (addrMap : option AddressMap) : EM unit :=
  match elfname, addrMap with
  | Some e, Some m =>
      ok ← constructed (if am_isBlob m then dumpBlob (am_startAddr m) (am_endAddr m) e
                        else dumpElf (am_startAddr m) e);
      if ok : bool then mret tt else elfFails
  | _, _ => elfFails
  end.
End loading.

(** ** Source files of local symbols *)

(** [fName[i]] and [line[i]], if the element of [fName] is null. *)
Definition nameLine (name : list ascii) (i : Z) (sec : ElfSection) : option ElfSection :=
  fNames ← sc_fName sec;
  old ← fNames !! Z.to_nat i;
  match old with
  | Some _ => Some sec
  | None =>
      lines ← sc_line sec;
      lines ← update i 0 lines;
      Some {| sc_name := sc_name sec; sc_startAddr := sc_startAddr sec; sc_endAddr := sc_endAddr sec;
              sc_vmaOffset := sc_vmaOffset sec; sc_flags := sc_flags sec; sc_size := sc_size sec;
              sc_offset := sc_offset sec; sc_align := sc_align sec; sc_code := sc_code sec;
              sc_fName := Some (<[Z.to_nat i := Some name]> fNames); sc_line := Some lines; sc_diss := sc_diss sec |}
  end.
Fixpoint nameLines (n : nat) (name : list ascii) (i : Z) (sec : ElfSection) : option ElfSection :=
  match n with
  | O => Some sec
  | S n => sec ← nameLine name (u32 i) sec; nameLines n name (i + 1) sec
  end.

(** The first is always done. *)
Definition nameSymbol (sym : Sym) (store : list ElfSection) : option (list ElfSection) :=
  match sy_srcFile sym, sy_section sym with
  | Some name, Some p =>
      sec ← store !! p;
      if negb (Z.land (sc_flags sec) sect_CODE =? 0) then
        let index := u32 (u64 (sy_address sym - sc_startAddr sec) / 2) in
        sec ← nameLines (Nat.max 1 (Z.to_nat (u32 (sy_size sym) / 2))) name index sec;
        Some (<[p := sec]> store)
      else Some store
  | _, _ => Some store
  end.
Fixpoint fixupSourceFiles (syms : list Sym) (store : list ElfSection) : option (list ElfSection) :=
  match syms with
  | [] => Some store
  | sym :: syms => store ← nameSymbol sym store; fixupSourceFiles syms store
  end.

(** The table takes the list of symbols over: the sizes that it finds are seen by
    [fixupSourceFiles]. *)
Definition seal `{!Qsort} : M ElfFile DQErr unit :=
  f ← get;
  if ef_sealed f then elfFails
  else
    modify (set_sealed true) ≫= fun _ =>
    match im_symLst (ef_image f) with
    | [] => modify (set_symtab None)
    | syms =>
        t ← lift_opt (newSymtab (im_store (ef_image f)) syms);
        modify (fun f => set_symtab (Some t) (set_image (set_im_symLst (st_symLst t) (ef_image f)) f)) ≫= fun _ =>
        store ← lift_opt (fixupSourceFiles (st_symLst t) (im_store (ef_image f)));
        modify (fun f => set_image (set_im_store store (ef_image f)) f)
    end.

(** What [getInstructionByAddress] uses of it. *)
Definition memoryOf (f : ElfFile) : ElfReader := {|
  er_status := ef_status f; er_archSize := im_archSize (ef_image f);
  er_codeSectionLst := codeSections (im_store (ef_image f)) (im_codeSectionLst (ef_image f)) |}.
