(* ===== verification/NextAddr.v ===== *)
(** * The next address

    [Trace::nextAddr] runs one instruction: it reads and decodes the instruction
    at an address, consumes the counts of the current message, keeps the return
    address stack, and computes the address of the next instruction, or [-1] when
    only the message can tell.  The other [nextAddr] and [getCRBRFlags] serve
    event traces. *)

From S2P Require Import Prelude Nexus Analytics Counts Decode Memory.

Inductive TraceType :=
| TRACETYPE_unknown | TRACETYPE_BTM | TRACETYPE_HTM | TRACETYPE_HTMNOOPT | TRACETYPE_EVENT
| TRACETYPE_PATH | TRACETYPE_VCD.
#[export] Instance TraceType_eq_dec : EqDecision TraceType.
Proof. solve_decision. Defined.

(** ** The state *)

(** The members of [Trace] these functions use: [wk_archSize] is what
    [getArchSize(-1)] returns. *)
Record Walker (Mem : Type) := {
  wk_status : DQErr;
  wk_traceType : TraceType;
  wk_currentCore : Z;
  wk_archSize : Z;
  wk_counts : Count;
  wk_mem : Mem;
}.
Arguments wk_status {Mem} w.
Arguments wk_traceType {Mem} w.
Arguments wk_currentCore {Mem} w.
Arguments wk_archSize {Mem} w.
Arguments wk_counts {Mem} w.
Arguments wk_mem {Mem} w.

Section nextaddr.
Context {Mem : Type} `{!CodeMemory Mem}.
(** What the local variables of the decoder hold before it assigns them. *)
Context (uninit : Inst).

Definition set_wstatus e (w : Walker Mem) : Walker Mem := {|
  wk_status := e; wk_traceType := wk_traceType w; wk_currentCore := wk_currentCore w;
  wk_archSize := wk_archSize w; wk_counts := wk_counts w; wk_mem := wk_mem w |}.
Definition set_traceType t (w : Walker Mem) : Walker Mem := {|
  wk_status := wk_status w; wk_traceType := t; wk_currentCore := wk_currentCore w;
  wk_archSize := wk_archSize w; wk_counts := wk_counts w; wk_mem := wk_mem w |}.
Definition set_counts c (w : Walker Mem) : Walker Mem := {|
  wk_status := wk_status w; wk_traceType := wk_traceType w; wk_currentCore := wk_currentCore w;
  wk_archSize := wk_archSize w; wk_counts := c; wk_mem := wk_mem w |}.
Definition set_mem m (w : Walker Mem) : Walker Mem := {|
  wk_status := wk_status w; wk_traceType := wk_traceType w; wk_currentCore := wk_currentCore w;
  wk_archSize := wk_archSize w; wk_counts := wk_counts w; wk_mem := m |}.

#[local] Abbreviation W := (M (Walker Mem) DQErr).

(** A call of a method of [counts]. *)
Definition onCounts {A} (m : M Count DQErr A) : W A := fun w =>
  zoom (fun c => set_counts c w) m (wk_counts w).

(** A computation on the counts of one core. *)
Definition counted {A} (core : Z) (m : M CoreCounts DQErr A) : W A := onCounts (onCore core m).

(** [status = e; return status;] *)
Definition stop {A} (e : DQErr) : W A := modify (set_wstatus e) ≫= fun _ => throw e.

(** [ec = getInstructionByAddress(addr,inst); if (ec != DQERR_OK) { status = ec;
    return ec; }] *)
Definition readInst (addr : Z) : W Z := fun w =>
  match fetch (wk_currentCore w) addr (wk_mem w) with
  | Ok m i => Ok (set_mem m w) i
  | Err m e => Err (set_wstatus e (set_mem m w)) e
  | Undef => Undef
  | NoFuel => NoFuel
  end.

(** [decodeInstruction(...)], and the error return. *)
Definition decodeInst (inst : Z) : W Inst :=
  w ← get;
  let '(rc, d) := decodeInstruction inst (wk_archSize w) uninit in
  if rc =? 0 then mret d else stop DQERR_ERR.

(** A link register. *)
Definition isLink (r : Z) : bool := (r =? REG_1) || (r =? REG_5).

(** The sizes in bytes and in the units of the instruction counts. *)
Definition bytesOf (d : Inst) : Z := in_size d / 8.
Definition unitsOf (d : Inst) : Z := in_size d / 16.

(** [addr + x] as an address. *)
Definition addrPlus (addr x : Z) : Z := u64 (addr + x).

(** [counts->consumeICnt(core,0) > inst_size / 16]. *)
Definition moreICnt (core : Z) (d : Inst) : W bool :=
  n ← counted core (consumeICnt 0); mret (unitsOf d <? n).

(** The end of the cases of the indirect jumps, which finds out that the trace
    is a history trace: [mask] are the flags that tell a return. *)
Definition indirectJump (core addr : Z) (d : Inst) (crFlag mask pc : Z) : W Z :=
  w ← get;
  (if decide (wk_traceType w = TRACETYPE_BTM)
   then if Z.land crFlag mask =? 0 then mret tt
        else more ← moreICnt core d;
             if more : bool then modify (set_traceType TRACETYPE_HTM) else mret tt
   else mret tt) ≫= fun _ =>
  w ← get;
  match wk_traceType w with
  | TRACETYPE_HTMNOOPT => mret ADDRESS_NONE
  | TRACETYPE_BTM =>
      more ← moreICnt core d;
      mret (if more : bool then addrPlus addr (bytesOf d) else ADDRESS_NONE)
  | _ => mret pc
  end.

(** The case of a 32-bit indirect jump: the address and the flags. *)
Definition doJALR (core addr : Z) (d : Inst) : W (Z * Z) :=
  let ret := addrPlus addr (bytesOf d) in
  '(pc, cr) ←
    (if isLink (in_rd d) then
       if negb (isLink (in_rs1 d)) then
         onCounts (pushAddr core ret) ≫= fun _ => mret (ADDRESS_NONE, isCall)
       else if negb (in_rd d =? in_rs1 d) then
         pc ← onCounts (popAddr core);
         onCounts (pushAddr core ret) ≫= fun _ => mret (pc, isSwap)
       else
         onCounts (pushAddr core ret) ≫= fun _ => mret (ADDRESS_NONE, isCall)
     else if isLink (in_rs1 d) then
       pc ← onCounts (popAddr core); mret (pc, isReturn)
     else mret (ADDRESS_NONE, isNone));
  pc ← indirectJump core addr d cr (Z.lor isReturn isSwap) pc;
  mret (pc, cr).

Definition doC_JR (core addr : Z) (d : Inst) : W (Z * Z) :=
  '(pc, cr) ←
    (if isLink (in_rs1 d) then pc ← onCounts (popAddr core); mret (pc, isReturn)
     else mret (ADDRESS_NONE, isNone));
  pc ← indirectJump core addr d cr isReturn pc;
  mret (pc, cr).

Definition doC_JALR (core addr : Z) (d : Inst) : W (Z * Z) :=
  let ret := addrPlus addr (bytesOf d) in
  '(pc, cr) ←
    (if in_rs1 d =? REG_5 then
       pc ← onCounts (popAddr core);
       onCounts (pushAddr core ret) ≫= fun _ => mret (pc, isSwap)
     else onCounts (pushAddr core ret) ≫= fun _ => mret (ADDRESS_NONE, isCall));
  pc ← indirectJump core addr d cr isSwap pc;
  mret (pc, cr).

(** The case of a direct jump that may be a call. *)
Definition doJAL (core addr : Z) (d : Inst) : W (Z * Z) :=
  (if isLink (in_rd d)
   then onCounts (pushAddr core (addrPlus addr (bytesOf d))) ≫= fun _ => mret isCall
   else mret isNone) ≫= fun cr =>
  mret (addrPlus addr (in_imm d), cr).

(** A conditional branch when only an instruction count is left: the address of
    the message decides, or another message is needed. *)
Definition branchByMessage (addr : Z) (d : Inst) (nm : NexusMessage) (icnt : Z)
    : W (Z * BranchFlags) :=
  if (icnt =? unitsOf d) && bool_decide (nm_tcode nm = TCODE_INDIRECTBRANCHHISTORY_WS) then
    let takenAddr := addrPlus addr (in_imm d) in
    let notTakenAddr := addrPlus addr (bytesOf d) in
    if takenAddr =? notTakenAddr then mret (notTakenAddr, BRFLAG_notTaken)
    else
      f_addr ← (lift_opt match nm_body nm with
                         | B_indirectHistoryWS _ f _ _ _ => Some f
                         | _ => None
                         end : W Z);
      let nxtAddr := u64 (Z.shiftl f_addr 1) in
      mret (nxtAddr, if nxtAddr =? takenAddr then BRFLAG_taken
                     else if nxtAddr =? notTakenAddr then BRFLAG_notTaken
                     else BRFLAG_unknown)
  else mret (ADDRESS_NONE, BRFLAG_unknown).

(** A conditional branch of a history trace. *)
Definition branchHTM (core addr : Z) (d : Inst) (nm : NexusMessage) : W (Z * BranchFlags) :=
  let taken := (addrPlus addr (in_imm d), BRFLAG_taken) in
  let notTaken := (addrPlus addr (bytesOf d), BRFLAG_notTaken) in
  ct ← counted core (gets getCurrentCountType);
  match ct with
  | COUNTTYPE_none => throw DQERR_ERR
  | COUNTTYPE_i_cnt =>
      icnt ← counted core (consumeICnt 0);
      branchByMessage addr d nm icnt
  | COUNTTYPE_history =>
      o ← counted core consumeHistory;
      match o with
      | None => stop DQERR_ERR
      | Some b => mret (if b : bool then taken else notTaken)
      end
  | COUNTTYPE_taken =>
      rc ← counted core consumeTakenCount;
      if rc =? 0 then mret taken else stop DQERR_ERR
  | COUNTTYPE_notTaken =>
      rc ← counted core consumeNotTakenCount;
      if rc =? 0 then mret notTaken else stop DQERR_ERR
  end.

(** A conditional branch of a branch trace. *)
Definition branchBTM (core addr : Z) (d : Inst) (nm : NexusMessage) : W (Z * BranchFlags) :=
  more ← moreICnt core d;
  mret (if negb more && bool_decide (nm_tcode nm = TCODE_DIRECT_BRANCH
                                     \/ nm_tcode nm = TCODE_DIRECT_BRANCH_WS)
        then (addrPlus addr (in_imm d), BRFLAG_taken)
        else (addrPlus addr (bytesOf d), BRFLAG_notTaken)).

Definition doBranch (core addr : Z) (d : Inst) (nm : NexusMessage) : W (Z * BranchFlags) :=
  w ← get;
  match wk_traceType w with
  | TRACETYPE_HTM | TRACETYPE_HTMNOOPT | TRACETYPE_EVENT => branchHTM core addr d nm
  | TRACETYPE_BTM => branchBTM core addr d nm
  | _ => throw DQERR_ERR
  end.

Definition isCondBranch (t : InstType) : bool :=
  match t with
  | INST_BEQ | INST_BNE | INST_BLT | INST_BGE | INST_BLTU | INST_BGEU | INST_C_BEQZ
  | INST_C_BNEZ => true
  | _ => false
  end.

(** The switch on the instruction: the next address and the flags. *)
Definition runInst (core addr : Z) (d : Inst) (nm : NexusMessage) : W (Z * Z * BranchFlags) :=
  let noBranch (m : W (Z * Z)) : W (Z * Z * BranchFlags) :=
    '(pc, cr) ← m; mret (pc, cr, BRFLAG_none) in
  if isCondBranch (in_type d) then
    '(pc, br) ← doBranch core addr d nm; mret (pc, isNone, br)
  else match in_type d with
  | INST_JAL | INST_C_JAL => noBranch (doJAL core addr d)
  | INST_JALR => noBranch (doJALR core addr d)
  | INST_C_J => noBranch (mret (addrPlus addr (in_imm d), isNone))
  | INST_C_JR => noBranch (doC_JR core addr d)
  | INST_C_JALR => noBranch (doC_JALR core addr d)
  | INST_EBREAK | INST_ECALL => noBranch (mret (ADDRESS_NONE, isException))
  | INST_MRET | INST_SRET | INST_URET => noBranch (mret (ADDRESS_NONE, isExceptionReturn))
  | _ => noBranch (mret (addrPlus addr (bytesOf d), isNone))
  end.

(** [Trace::nextAddr(core,addr,pc,nm,crFlag,brFlag)]. *)
Definition nextAddr (core addr : Z) (nm : NexusMessage) : W (Z * Z * BranchFlags) :=
  inst ← readInst addr;
  modify (set_wstatus DQERR_OK) ≫= fun _ =>
  d ← decodeInst inst;
  '(pc, cr, br) ← runInst core addr d nm;
  (if decide (br = BRFLAG_unknown) then mret tt
   else counted core (consumeICnt (unitsOf d)) ≫= fun _ => mret tt) ≫= fun _ =>
  mret (pc, cr, br).

(** ** Event traces *)

(** The switch shared by the two functions on an instruction that calls or
    returns: [JALR], and [C_JR]. *)
Definition jalrFlag (d : Inst) : Z :=
  if isLink (in_rd d) then
    if negb (isLink (in_rs1 d)) then isCall
    else if negb (in_rd d =? in_rs1 d) then isSwap
    else isCall
  else if isLink (in_rs1 d) then isReturn
  else isNone.

(** [Trace::nextAddr(addr,nextAddr,crFlag)]: the target, [0] if it is not in the
    instruction, and the flags. *)
Definition nextAddrTarget (addr : Z) : W (Z * Z) :=
  inst ← readInst addr;
  d ← decodeInst inst;
  match in_type d with
  | INST_JALR => mret (0, jalrFlag d)
  | INST_JAL | INST_C_JAL =>
      mret (addrPlus addr (in_imm d), if isLink (in_rd d) then isCall else isNone)
  | INST_C_JR => mret (0, if isLink (in_rs1 d) then isReturn else isNone)
  | INST_C_JALR => mret (0, if in_rs1 d =? REG_5 then isSwap else isCall)
  | INST_EBREAK | INST_ECALL => mret (0, isException)
  | INST_MRET | INST_SRET | INST_URET => mret (0, isExceptionReturn)
  | _ => stop DQERR_ERR
  end.

(** [Trace::getCRBRFlags]; on an error the flags are [isNone] and
    [BRFLAG_none]. *)
Definition getCRBRFlags (cksrc : ICTReason) (addr : Z) : W (Z * BranchFlags) :=
  match cksrc with
  | ICT_CONTROL | ICT_EXT_TRIG | ICT_WATCHPOINT | ICT_PC_SAMPLE => mret (isNone, BRFLAG_none)
  | ICT_INFERABLECALL =>
      inst ← readInst addr;
      d ← decodeInst inst;
      mret (match in_type d with
            | INST_JALR => (jalrFlag d, BRFLAG_none)
            | INST_JAL | INST_C_JAL =>
                (if isLink (in_rd d) then isCall else isNone, BRFLAG_none)
            | INST_C_JR => (if isLink (in_rs1 d) then isReturn else isNone, BRFLAG_none)
            | INST_EBREAK | INST_ECALL => (isException, BRFLAG_none)
            | INST_MRET | INST_SRET | INST_URET => (isExceptionReturn, BRFLAG_none)
            | t => (isNone, if isCondBranch t then BRFLAG_taken else BRFLAG_none)
            end)
  | ICT_EXCEPTION => mret (isException, BRFLAG_none)
  | ICT_INTERRUPT => mret (isInterrupt, BRFLAG_none)
  | ICT_CONTEXT => mret (isSwap, BRFLAG_none)
  | ICT_NONE | ICT_reserved _ => stop DQERR_ERR
  end.
End nextaddr.
