(* ===== verification/Walk.v ===== *)
(** * Following an execution

    A reference machine says how a hart moves through a program: it takes the
    outcomes of the conditional branches from a list, and returns go to the top
    of a stack of return addresses.  A history trace reports of such an execution
    only the number of halfwords and the outcomes.  The theorems say that
    [Trace::nextAddr] follows the execution from these. *)

From S2P Require Import Prelude Nexus Analytics Counts Decode Memory NextAddr.

(** ** The reference machine *)

(** How an instruction moves the program counter; [Leaving]: to an address that
    is neither in the program nor on the stack, and that only a message can tell. *)
Inductive Flow :=
| Straight
| Branching
| Jumping (link : bool)
| Returning
| Swapping
| Leaving (link : bool) (cr : Z).

(** The return-address stack hints of the RISC-V manual. *)
Definition flowOf (d : Inst) : Flow :=
  match in_type d with
  | INST_BEQ | INST_BNE | INST_BLT | INST_BGE | INST_BLTU | INST_BGEU
  | INST_C_BEQZ | INST_C_BNEZ => Branching
  | INST_JAL | INST_C_JAL => Jumping (isLink (in_rd d))
  | INST_C_J => Jumping false
  | INST_JALR =>
      match isLink (in_rd d), isLink (in_rs1 d) with
      | true, true => if in_rd d =? in_rs1 d then Leaving true isCall else Swapping
      | true, false => Leaving true isCall
      | false, true => Returning
      | false, false => Leaving false isNone
      end
  | INST_C_JR => if isLink (in_rs1 d) then Returning else Leaving false isNone
  | INST_C_JALR => if in_rs1 d =? REG_5 then Swapping else Leaving true isCall
  | INST_EBREAK | INST_ECALL => Leaving false isException
  | INST_MRET | INST_SRET | INST_URET => Leaving false isExceptionReturn
  | _ => Straight
  end.

Definition Outcome : Type := Z * Z * BranchFlags.

(** One instruction: the next address with its flags, the stack, and the branch
    outcomes that are left.  [cap] return addresses fit on the stack; an address
    that the program does not determine is [ADDRESS_NONE]. *)
Definition refStep (cap : Z) (d : Inst) (pc : Z) (st : list Z) (outs : list bool)
    : option (Outcome * list Z * list bool) :=
  let next := addrPlus pc (bytesOf d) in
  let target := addrPlus pc (in_imm d) in
  match flowOf d with
  | Straight => Some ((next, isNone, BRFLAG_none), st, outs)
  | Branching =>
      match outs with
      | [] => None
      | b :: outs =>
          Some (if b : bool then (target, isNone, BRFLAG_taken)
                else (next, isNone, BRFLAG_notTaken), st, outs)
      end
  | Jumping false => Some ((target, isNone, BRFLAG_none), st, outs)
  | Jumping true =>
      if Z.of_nat (length st) <? cap
      then Some ((target, isCall, BRFLAG_none), next :: st, outs) else None
  | Returning =>
      match st with
      | [] => None
      | a :: st => Some ((a, isReturn, BRFLAG_none), st, outs)
      end
  | Swapping =>
      match st with
      | [] => None
      | a :: st => Some ((a, isSwap, BRFLAG_none), next :: st, outs)
      end
  | Leaving false cr => Some ((ADDRESS_NONE, cr, BRFLAG_none), st, outs)
  | Leaving true cr =>
      if Z.of_nat (length st) <? cap
      then Some ((ADDRESS_NONE, cr, BRFLAG_none), next :: st, outs) else None
  end.

(** [n] instructions: their outcomes, the halfwords executed, the final address
    and stack, and the branch outcomes that are left. *)
Fixpoint refRun (prog : Z -> option Inst) (cap : Z) (n : nat) (pc : Z) (st : list Z)
    (outs : list bool) : option (list Outcome * Z * Z * list Z * list bool) :=
  match n with
  | O => Some ([], 0, pc, st, outs)
  | S n =>
      d ← prog pc;
      '(o, st, outs) ← refStep cap d pc st outs;
      '(path, units, pc', st, outs) ← refRun prog cap n (fst (fst o)) st outs;
      Some (o :: path, unitsOf d + units, pc', st, outs)
  end.

(** ** The decoder *)

Section walk.
Context {Mem : Type} `{!CodeMemory Mem} `{!CodeMemoryLaws Mem}.
Context (uninit : Inst) (core : Z) (nm : NexusMessage).
Implicit Type w : Walker Mem.

#[local] Abbreviation W := (M (Walker Mem) DQErr).

(** [n] calls of [nextAddr], each from the address the one before returned. *)
Fixpoint walk (n : nat) (pc : Z) : W (list Outcome) :=
  match n with
  | O => mret []
  | S n =>
      o ← nextAddr uninit core pc nm;
      path ← walk n (fst (fst o));
      mret (o :: path)
  end.

(** The memory of the current core is settled and holds the program. *)
Definition holds (prog : Z -> option Inst) w : Prop :=
  settled (wk_mem w) /\ forall pc d, prog pc = Some d ->
    exists i, code (wk_mem w) (wk_currentCore w) pc = Some i /\
      decodeInstruction i (wk_archSize w) uninit = (0, d).

(** The counts of the core. *)
Definition at_core w (c : CoreCounts) : Prop :=
  0 <= core /\ wk_counts w !! Z.to_nat core = Some c.

Definition upd (c : CoreCounts) w : Walker Mem :=
  set_counts (<[Z.to_nat core := c]> (wk_counts w : list CoreCounts)) w.

(** The counts hold a stack, branch outcomes and a number of halfwords. *)
Record counts_hold (cap : Z) (st : list Z) (outs : list bool) (units : Z) (c : CoreCounts) : Prop := {
  ch_stack : stack_ok (cc_stack c);
  ch_contents : contents (cc_stack c) = st;
  ch_size : as_size (cc_stack c) = cap;
  ch_bit : cc_histBit c = Z.of_nat (length outs) - 1;
  ch_outs : outcomes (length outs) (cc_history c) = outs;
  ch_max : (length outs <= 31)%nat;
  ch_units : cc_i_cnt c = units;
  ch_int : units < 2 ^ 31;
  ch_taken : cc_takenCount c = 0 /\ cc_notTakenCount c = 0;
}.

Lemma at_upd w c c' : at_core w c -> at_core (upd c' w) c'.
Proof.
  intros [Hc Hw]. split; [done|]. apply list_lookup_insert_eq. by apply lookup_lt_Some in Hw.
Qed.

Lemma upd_upd w c c' : upd c' (upd c w) = upd c' w.
Proof. unfold upd, set_counts. cbn. by rewrite list_insert_insert_eq. Qed.

Lemma upd_id w c : at_core w c -> upd c w = w.
Proof.
  intros [_ Hw]. unfold upd. destruct w as [e t k a cs m]. cbn [wk_counts] in *.
  by rewrite (list_insert_id cs _ c Hw).
Qed.

Lemma counted_ok {A} (m : M CoreCounts DQErr A) w c c' a :
  at_core w c -> m c = Ok c' a -> counted core m w = Ok (upd c' w) a.
Proof.
  intros [Hc Hw] Hm. unfold counted, onCounts, zoom, onCore.
  by rewrite (proj2 (Z.leb_le _ _) Hc), Hw, Hm.
Qed.

(** ** The operations on the counts *)

Section counts.
Context (cap : Z) (st : list Z) (outs : list bool) (units : Z) (w : Walker Mem) (c : CoreCounts).
Hypothesis Hc : at_core w c.

Lemma push_ok a :
  counts_hold cap st outs units c -> Z.of_nat (length st) < cap ->
  exists c', onCounts (pushAddr core a) w = Ok (upd c' w) 0 /\
    counts_hold cap (a :: st) outs units c'.
Proof.
  intros [Hs Hst Hcap] Hl. destruct (push_spec _ a Hs) as [Hs' Hp].
  rewrite (proj2 (Z.leb_gt _ _)) in Hp
    by (rewrite <-(contents_length _ Hs), Hst; lia).
  destruct (push a (cc_stack c)) as [s r] eqn:E. cbn in *. destruct Hp as [Hp ->].
  exists (set_stack s c). split.
  - apply (counted_ok _ w c); [done|]. by rewrite E.
  - split; try done; cbn; [by rewrite Hp, Hst|].
    rewrite <-Hcap. unfold push in E. case_match; by simplify_eq.
Qed.

Lemma pop_ok a st' :
  counts_hold cap (a :: st') outs units c ->
  exists c', onCounts (popAddr core) w = Ok (upd c' w) a /\ counts_hold cap st' outs units c' /\
    Z.of_nat (length st') < cap.
Proof.
  intros [Hs Hst Hcap]. destruct (pop_spec _ Hs) as [Hs' Hp]. rewrite Hst in Hp.
  pose proof (contents_length _ Hs) as Hl. rewrite Hst in Hl.
  destruct (pop (cc_stack c)) as [s r] eqn:E. cbn in *. destruct Hp as [Hp ->].
  exists (set_stack s c). split; [|split].
  - apply (counted_ok _ w c); [done|]. by rewrite E.
  - split; try done. cbn. rewrite <-Hcap. unfold pop in E. case_match; by simplify_eq.
  - destruct Hs. unfold getNumOnStack in Hl. lia.
Qed.

Lemma icnt_ok n :
  counts_hold cap st outs units c -> 0 <= n <= units ->
  exists c', counted core (consumeICnt n) w = Ok (upd c' w) (units - n) /\
    counts_hold cap st outs (units - n) c'.
Proof.
  intros Hh Hn. exists (set_i_cnt (units - n) c). pose proof (ch_int _ _ _ _ _ Hh).
  split; [|by destruct Hh; split; cbn; try done; lia].
  apply (counted_ok _ w c); [done|]. unfold consumeICnt. erewrite bind_ok by done.
  rewrite (ch_units _ _ _ _ _ Hh). unfold int_of. case_cmp. by erewrite bind_ok by done.
Qed.

Lemma history_ok b outs' :
  counts_hold cap st outs units c -> outs = b :: outs' ->
  exists c', counted core consumeHistory w = Ok (upd c' w) (Some b) /\
    counts_hold cap st outs' units c'.
Proof.
  intros [] ->. cbn [length outcomes] in *. simplify_eq.
  exists (set_hist (cc_history c) (cc_histBit c - 1) c). split.
  - apply (counted_ok _ w c); [done|]. unfold consumeHistory. erewrite bind_ok by done.
    case_cmp. unfold isTaken. rewrite histMask_small by lia. cbn [mbind option_bind].
    rewrite land_pow2 by lia. erewrite bind_ok by done. erewrite bind_ok by done.
    unfold mret, M_ret. repeat f_equal. lia.
  - split; cbn; try done; lia.
Qed.
End counts.

(** ** One instruction *)

(** The case of a history trace: the address found on the stack is kept. *)
Lemma indirectJump_htm w addr d cr mask pc :
  wk_traceType w = TRACETYPE_HTM -> indirectJump core addr d cr mask pc w = Ok w pc.
Proof.
  intros Ht. unfold indirectJump. erewrite bind_ok by done. rewrite decide_False by congruence.
  erewrite bind_ok by done. erewrite bind_ok by done. by rewrite Ht.
Qed.

Lemma type_upd w c : wk_traceType (upd c w) = wk_traceType w.
Proof. done. Qed.

(** The tactic steps through a call whose result a lemma gives. *)
Ltac step_by H := erewrite bind_ok by exact H; cbn beta iota.

Section step.
Context (cap : Z) (st : list Z) (outs : list bool) (units : Z) (w : Walker Mem) (c : CoreCounts).
Hypothesis Hc : at_core w c.
Hypothesis Hh : counts_hold cap st outs units c.
Hypothesis Ht : wk_traceType w = TRACETYPE_HTM.

(** What a step of the decoder does when the reference machine does [r]. *)
Definition follows (m : W Outcome) (r : Outcome * list Z * list bool) : Prop :=
  exists c', m w = Ok (upd c' w) (fst (fst r)) /\ counts_hold cap (snd (fst r)) (snd r) units c'.

Lemma stays_ok (m : W Outcome) o : m w = Ok w o -> follows m (o, st, outs).
Proof. intros. exists c. by rewrite upd_id. Qed.

(** The part of a jump that moves the stack and says where to go. *)
Definition moves (m : W (Z * Z)) (pc cr : Z) (st' : list Z) : Prop :=
  exists c', m w = Ok (upd c' w) (pc, cr) /\ counts_hold cap st' outs units c'.

Lemma moves_follows m pc cr st' :
  moves m pc cr st' ->
  follows ('(pc, cr) ← m; mret (pc, cr, BRFLAG_none)) ((pc, cr, BRFLAG_none), st', outs).
Proof. intros (c' & E & ?). exists c'. split; [by step_by E|done]. Qed.

Lemma moves_indirect m pc cr st' addr d mask :
  moves m pc cr st' ->
  moves ('(pc, cr) ← m; pc ← indirectJump core addr d cr mask pc; mret (pc, cr)) pc cr st'.
Proof.
  intros (c' & E & ?). exists c'. split; [|done]. step_by E.
  by erewrite bind_ok by (by apply indirectJump_htm).
Qed.

Lemma moves_stay pc cr : moves (mret (pc, cr)) pc cr st.
Proof. exists c. by rewrite upd_id. Qed.

Lemma moves_push a pc cr :
  Z.of_nat (length st) < cap ->
  moves (onCounts (pushAddr core a) ≫= fun _ => mret (pc, cr)) pc cr (a :: st).
Proof.
  intros Hl. destruct (push_ok _ _ _ _ _ _ Hc a Hh Hl) as (c' & E & ?).
  exists c'. split; [by step_by E|done].
Qed.

Lemma moves_pop a st' cr :
  st = a :: st' -> moves (pc ← onCounts (popAddr core); mret (pc, cr)) a cr st'.
Proof.
  intros Hst. rewrite Hst in Hh. destruct (pop_ok _ _ _ _ _ Hc _ _ Hh) as (c' & E & ? & _).
  exists c'. split; [by step_by E|done].
Qed.

Lemma moves_swap a st' b cr :
  st = a :: st' ->
  moves (pc ← onCounts (popAddr core); onCounts (pushAddr core b) ≫= fun _ => mret (pc, cr))
    a cr (b :: st').
Proof.
  intros Hst. rewrite Hst in Hh. destruct (pop_ok _ _ _ _ _ Hc _ _ Hh) as (c1 & E & H1 & Hl).
  destruct (push_ok _ _ _ _ _ _ (at_upd _ _ c1 Hc) b H1 Hl) as (c2 & E2 & H2).
  rewrite upd_upd in E2. exists c2. split; [|done]. step_by E. by step_by E2.
Qed.

Lemma branch_follows d addr b outs' :
  outs = b :: outs' ->
  follows ('(pc, br) ← doBranch core addr d nm; mret (pc, isNone, br))
    (if b then (addrPlus addr (in_imm d), isNone, BRFLAG_taken)
     else (addrPlus addr (bytesOf d), isNone, BRFLAG_notTaken), st, outs').
Proof.
  intros Ho. destruct (history_ok _ _ _ _ _ _ Hc _ _ Hh Ho) as (c' & E & ?).
  exists c'. split; [|done].
  assert (counted core (gets getCurrentCountType) w = Ok w COUNTTYPE_history) as Ect.
  { rewrite (counted_ok _ w c c COUNTTYPE_history Hc); [by rewrite upd_id|].
    unfold gets, getCurrentCountType. rewrite (ch_bit _ _ _ _ _ Hh), Ho. cbn [length].
    by case_cmp. }
  erewrite bind_ok; [|unfold doBranch; erewrite bind_ok by done; rewrite Ht;
    unfold branchHTM; step_by Ect; step_by E; done].
  by destruct b.
Qed.

Lemma follows_moves m pc cr st' r :
  Some ((pc, cr, BRFLAG_none), st', outs) = Some r -> moves m pc cr st' ->
  follows ('(pc, cr) ← m; mret (pc, cr, BRFLAG_none)) r.
Proof. intros [= <-]. apply moves_follows. Qed.

Lemma doJAL_push d addr :
  isLink (in_rd d) = true -> Z.of_nat (length st) < cap ->
  moves (doJAL core addr d) (addrPlus addr (in_imm d)) isCall (addrPlus addr (bytesOf d) :: st).
Proof.
  intros Hl Hst. destruct (push_ok _ _ _ _ _ _ Hc (addrPlus addr (bytesOf d)) Hh Hst)
    as (c' & E & ?).
  exists c'. split; [|done]. unfold doJAL. rewrite Hl. by erewrite bind_ok by (by step_by E).
Qed.

Lemma doJAL_stay d addr :
  isLink (in_rd d) = false -> moves (doJAL core addr d) (addrPlus addr (in_imm d)) isNone st.
Proof. intros Hl. unfold doJAL. rewrite Hl. apply moves_stay. Qed.

Lemma cons_case {A B} (l : list A) (f : A -> list A -> option B) r :
  match l with [] => None | a :: l => f a l end = Some r ->
  exists a l', l = a :: l' /\ f a l' = Some r.
Proof. destruct l; naive_solver. Qed.

(** Each case of the reference is one way of moving the stack. *)
Ltac by_moves :=
  repeat match goal with
  | H : (if ?b then _ else _) = Some _ |- _ => destruct b eqn:?
  | H : match _ with [] => _ | _ => _ end = Some _ |- _ => apply cons_case in H as (? & ? & ? & H)
  | H : None = Some _ |- _ => discriminate H
  | H : (_ <? _) = true |- _ => apply Z.ltb_lt in H
  end;
  eapply follows_moves;
  [eassumption
  |try (eapply moves_indirect; cbn [negb]);
   first [by apply moves_stay | by apply moves_push | by apply moves_pop | by apply moves_swap
         |by apply doJAL_push | by apply doJAL_stay]].

Lemma runInst_follows d addr r :
  refStep cap d addr st outs = Some r -> follows (runInst core addr d nm) r.
Proof.
  unfold refStep, flowOf, runInst. intros Hr.
  destruct (in_type d) eqn:Et; cbn [isCondBranch] in *;
    try (simplify_eq; by apply moves_follows, moves_stay);
    try (apply cons_case in Hr as (? & ? & ? & [= <-]); by apply branch_follows).
  - destruct (isLink (in_rd d)) eqn:?; by_moves.
  - unfold doJALR. destruct (isLink (in_rd d)), (isLink (in_rs1 d)), (in_rd d =? in_rs1 d);
      cbn [negb] in *; by_moves.
  - destruct (isLink (in_rd d)) eqn:?; by_moves.
  - unfold doC_JR. destruct (isLink (in_rs1 d)); by_moves.
  - unfold doC_JALR. destruct (in_rs1 d =? REG_5); by_moves.
Qed.
End step.

Lemma refStep_known cap d pc st outs o st' outs' :
  refStep cap d pc st outs = Some (o, st', outs') -> snd o <> BRFLAG_unknown.
Proof. unfold refStep. intros H. by repeat case_match; simplify_eq. Qed.

(** ** The walk *)

(** The state between two instructions. *)
Record walking (prog : Z -> option Inst) (cap : Z) (st : list Z) (outs : list bool) (units : Z) w
    : Prop := {
  wa_type : wk_traceType w = TRACETYPE_HTM;
  wa_status : wk_status w = DQERR_OK;
  wa_core : wk_currentCore w = core;
  wa_arch : wk_archSize w = 32 \/ wk_archSize w = 64;
  wa_holds : holds prog w;
  wa_counts : exists c, at_core w c /\ counts_hold cap st outs units c;
}.

Lemma readInst_ok prog w pc d :
  holds prog w -> prog pc = Some d ->
  exists m i, readInst pc w = Ok (set_mem m w) i /\
    (settled m /\ forall k a, code m k a = code (wk_mem w) k a) /\
    decodeInstruction i (wk_archSize w) uninit = (0, d).
Proof.
  intros [Hs Hp] (i & Hi & Hd)%Hp. destruct (fetch_code _ _ _ _ Hs Hi) as (m & Hf & Hm).
  exists m, i. split; [|done]. unfold readInst. by rewrite Hf.
Qed.

Lemma size_range prog w pc d :
  (wk_archSize w = 32 \/ wk_archSize w = 64) -> holds prog w -> prog pc = Some d ->
  in_size d = 16 \/ in_size d = 32.
Proof.
  intros Ha [_ Hp] (i & _ & Hd)%Hp. pose proof (decode_size i _ uninit Ha) as Hs.
  rewrite Hd in Hs. unfold decodeInstructionSize in *.
  repeat case_match; simplify_eq; destruct Hs as [_ Hs]; cbn in Hs; auto.
Qed.

Lemma units_range prog w pc d :
  (wk_archSize w = 32 \/ wk_archSize w = 64) -> holds prog w -> prog pc = Some d ->
  1 <= unitsOf d <= 2.
Proof.
  intros Ha Hp Hd. unfold unitsOf. destruct (size_range _ _ _ _ Ha Hp Hd) as [-> | ->];
    vm_compute; split; discriminate.
Qed.

Lemma nextAddr_follows prog cap st outs units w pc d o st' outs' :
  walking prog cap st outs units w -> prog pc = Some d ->
  refStep cap d pc st outs = Some (o, st', outs') -> unitsOf d <= units ->
  exists w', nextAddr uninit core pc nm w = Ok w' o /\
    walking prog cap st' outs' (units - unitsOf d) w'.
Proof.
  intros [Ht Hst Hcc Ha Hp (c & Hc & Hh)] Hd Hr Hu.
  destruct (readInst_ok _ _ _ _ Hp Hd) as (m & i & Er & Hm & Ed).
  pose proof (units_range _ _ _ _ Ha Hp Hd) as Hun.
  set (w1 := set_wstatus DQERR_OK (set_mem m w)).
  destruct (runInst_follows cap st outs units w1 c Hc Hh Ht d pc _ Hr) as (c1 & E1 & H1).
  cbn [fst snd] in E1, H1.
  destruct (icnt_ok cap st' outs' units (upd c1 w1) c1 (at_upd w1 c c1 Hc) (unitsOf d) H1)
    as (c2 & E2 & H2); [lia|].
  rewrite upd_upd in E2. destruct o as [[pc' cr] br]. pose proof (refStep_known _ _ _ _ _ _ _ _ Hr) as Hb.
  exists (upd c2 w1). split.
  - unfold nextAddr. step_by Er. erewrite bind_ok by done.
    erewrite bind_ok; [|unfold decodeInst; erewrite bind_ok by done; cbn [wk_archSize];
      unfold set_mem at 1; cbn [wk_archSize set_wstatus]; by rewrite Ed].
    step_by E1. rewrite decide_False by exact Hb.
    erewrite bind_ok; [|by step_by E2]. done.
  - split; try done.
    + destruct Hm as [Hst2 Hm]. split; [exact Hst2|]. intros a e Hae. destruct (proj2 Hp _ _ Hae) as (j & Hj & ?). exists j. cbn. by rewrite Hm.
    + exists c2. split; [by apply at_upd with c|done].
Qed.

(** A run of the reference machine, taken apart. *)
Lemma refRun_S prog cap n pc st outs path used pc' st' outs' :
  refRun prog cap (S n) pc st outs = Some (path, used, pc', st', outs') ->
  exists d o st1 outs1 path1 used1,
    prog pc = Some d /\ refStep cap d pc st outs = Some (o, st1, outs1) /\
    refRun prog cap n (fst (fst o)) st1 outs1 = Some (path1, used1, pc', st', outs') /\
    path = o :: path1 /\ used = unitsOf d + used1.
Proof.
  cbn. intros H. destruct (prog pc) as [d|]; [|done]. cbn in H.
  destruct (refStep cap d pc st outs) as [[[o st1] outs1]|] eqn:Hs; [|done]. cbn in H.
  destruct (refRun prog cap n (fst (fst o)) st1 outs1) as [[[[[path1 used1] pc1] st2] outs2]|]
    eqn:Hr1; [|done]. cbn in H. simplify_eq. naive_solver.
Qed.

Lemma refRun_nonneg prog cap n w : forall pc st outs path used pc' st' outs',
  (wk_archSize w = 32 \/ wk_archSize w = 64) -> holds prog w ->
  refRun prog cap n pc st outs = Some (path, used, pc', st', outs') -> 0 <= used.
Proof.
  induction n as [|n IH]; intros pc st outs path used pc' st' outs' Ha Hp Hr.
  - cbn in Hr. by simplify_eq.
  - apply refRun_S in Hr as (d & o & st1 & outs1 & path1 & used1 & Hd & _ & Hr & _ & ->).
    pose proof (units_range _ _ _ _ Ha Hp Hd). apply IH in Hr; [lia|done..].
Qed.

Lemma walk_follows prog cap n : forall st outs units w pc path used pc' st' outs',
  walking prog cap st outs units w ->
  refRun prog cap n pc st outs = Some (path, used, pc', st', outs') -> used <= units ->
  exists w', walk n pc w = Ok w' path /\ walking prog cap st' outs' (units - used) w'.
Proof.
  induction n as [|n IH]; intros st outs units w pc path used pc' st' outs' Hw Hr Hu.
  - cbn in Hr. simplify_eq. exists w. by rewrite Z.sub_0_r.
  - apply refRun_S in Hr as (d & o & st1 & outs1 & path1 & used1 & Hd & Hs & Hr & -> & ->).
    assert (0 <= used1) by (eapply refRun_nonneg; [apply Hw..|done]).
    destruct (nextAddr_follows _ _ _ _ _ _ _ _ _ _ _ Hw Hd Hs) as (w1 & E1 & H1); [lia|].
    destruct (IH _ _ _ _ _ _ _ _ _ _ H1 Hr) as (w2 & E2 & H2); [lia|].
    exists w2. cbn [walk]. step_by E1. step_by E2. split; [done|].
    by replace (units - (unitsOf d + used1)) with (units - unitsOf d - used1) by lia.
Qed.

(** A reset of the stack and the counts. *)
Lemma walking_reset prog cap st w c :
  walking prog cap st [] 0 w -> at_core w c ->
  walking prog cap [] [] 0 (upd (resetCounts (set_stack (resetStack (cc_stack c)) c)) w).
Proof.
  intros [Ht Hst Hcc Ha Hp (c' & [Hk Hc'] & Hh)] Hc. pose proof Hc as [_ Hl].
  rewrite Hl in Hc'. simplify_eq. split; try done. eexists. split; [by apply at_upd with c'|].
  destruct Hh as [[H1 H2] Hcon Hcap Hb _ _ Hu _ [Ht1 Ht2]]. split; try done; cbn.
  - split; cbn; try done; lia.
  - unfold contents. cbn. apply drop_ge. lia.
  - lia.
Qed.

(** ** One message *)

(** The segment of an execution that a message reports. *)
Definition segment (n : nat) (pc : Z) : W (list Outcome) :=
  counted core (setCounts nm) ≫= fun _ => walk n pc.

(** After a message nothing is left of its counts: [walking] with no branch
    outcomes and no halfwords. *)
Lemma walking_set prog cap st w i h :
  walking prog cap st [] 0 w -> messageCounts nm = Some (inr (Some (i, h, 0, 0))) ->
  0 < h < 2 ^ 32 -> 0 <= i < 2 ^ 31 ->
  exists w', counted core (setCounts nm) w = Ok w' tt /\
    walking prog cap st (outcomes (Z.to_nat (Z.log2 h)) h) i w'.
Proof.
  intros [Ht Hst Hcc Ha Hp (c & Hc & Hh)] Hm Hr Hi. destruct Hh as [Hs Hcon Hcap Hb _ _ Hu _ [Ht1 Ht2]].
  cbn in Hb.
  assert (Z.log2 h < 32) by (apply Z.log2_lt_pow2; lia). pose proof (Z.log2_nonneg h).
  set (c' := set_hist h (Z.log2 h - 1) (set_i_cnt (cc_i_cnt c + i) c)).
  exists (upd c' w). split.
  - apply (counted_ok _ w c); [done|]. apply setCounts_spec; [done|lia| |lia].
    unfold countsBusy. rewrite Hb, Ht1, Ht2. done.
  - split; try done. exists c'. split; [by apply at_upd with c|].
    pose proof (length_outcomes (Z.to_nat (Z.log2 h)) h) as Hl.
    split; cbn; rewrite ?Hl; try done; lia.
Qed.

Lemma segment_follows prog cap st w i h n pc path pc' st' :
  walking prog cap st [] 0 w -> messageCounts nm = Some (inr (Some (i, h, 0, 0))) ->
  0 < h < 2 ^ 32 -> i < 2 ^ 31 ->
  refRun prog cap n pc st (outcomes (Z.to_nat (Z.log2 h)) h) = Some (path, i, pc', st', []) ->
  exists w', segment n pc w = Ok w' path /\ walking prog cap st' [] 0 w'.
Proof.
  intros Hw Hm Hh Hi Hr.
  assert (0 <= i) by (eapply refRun_nonneg; [apply Hw..|done]).
  destruct (walking_set _ _ _ _ _ _ Hw Hm Hh) as (w1 & E1 & H1); [lia|].
  destruct (walk_follows _ _ _ _ _ _ _ _ _ _ _ _ _ H1 Hr) as (w2 & E2 & H2); [lia|].
  exists w2. unfold segment. step_by E1. split; [done|]. by rewrite Z.sub_diag in H2.
Qed.

(** The state does not depend on what reading the memory changes. *)
Lemma walking_mem prog cap st outs units w m :
  settled m /\ (forall k a, code m k a = code (wk_mem w) k a) -> walking prog cap st outs units w ->
  walking prog cap st outs units (set_wstatus DQERR_OK (set_mem m w)).
Proof.
  intros [Hsm Hm] [Ht Hst Hcc Ha [Hs Hp] Hc]. split; try done. split; [done|].
  intros a e (j & Hj & ?)%Hp. exists j. cbn. by rewrite Hm.
Qed.

Lemma walking_status prog cap st outs units w :
  walking prog cap st outs units w -> walking prog cap st outs units (set_wstatus DQERR_OK w).
Proof. by intros []. Qed.

Lemma walking_none prog cap st outs units w c :
  walking prog cap st outs units w -> 0 <= units -> at_core w c ->
  getCurrentCountType c = COUNTTYPE_none <-> units = 0 /\ outs = [].
Proof.
  intros [_ _ _ _ _ (c' & [_ Hc'] & Hh)] Hu [_ Hc]. rewrite Hc in Hc'. simplify_eq.
  destruct Hh as [_ _ _ Hb _ _ Hi _ [H1 H2]]. unfold getCurrentCountType.
  rewrite Hb, Hi, H1, H2. destruct outs; cbn [length]; case_cmp;
    (split; [intros; try done; try (by split; [lia|])|intros [? ?]; try done; try lia]).
Qed.

Lemma walking_exhausted prog cap st w c :
  walking prog cap st [] 0 w -> at_core w c -> getCurrentCountType c = COUNTTYPE_none.
Proof.
  intros [_ _ _ _ _ (c' & [_ Hc'] & Hh)] [_ Hc]. rewrite Hc in Hc'. simplify_eq.
  destruct Hh as [_ _ _ Hb _ _ Hu _ [H1 H2]]. cbn in Hb. unfold getCurrentCountType.
  by rewrite Hb, H1, H2, Hu.
Qed.

(** ** A branch whose outcome is in the next message *)

Lemma nextAddr_waits w pc m i d c :
  fetch (wk_currentCore w) pc (wk_mem w) = Ok m i ->
  decodeInstruction i (wk_archSize w) uninit = (0, d) -> isCondBranch (in_type d) = true ->
  wk_traceType w = TRACETYPE_HTM -> at_core w c -> getCurrentCountType c = COUNTTYPE_i_cnt ->
  - 2 ^ 31 <= cc_i_cnt c < 2 ^ 31 -> nm_tcode nm <> TCODE_INDIRECTBRANCHHISTORY_WS ->
  nextAddr uninit core pc nm w =
    Ok (set_wstatus DQERR_OK (set_mem m w)) (ADDRESS_NONE, isNone, BRFLAG_unknown).
Proof.
  intros Hf Hd Hb Ht Hc Hct Hi Hnm. set (w1 := set_wstatus DQERR_OK (set_mem m w)).
  assert (at_core w1 c) as Hc1 by done.
  assert (counted core (gets getCurrentCountType) w1 = Ok w1 COUNTTYPE_i_cnt) as E1.
  { rewrite (counted_ok _ w1 c c COUNTTYPE_i_cnt Hc1); [by rewrite upd_id|].
    unfold gets. by rewrite Hct. }
  assert (counted core (consumeICnt 0) w1 = Ok w1 (cc_i_cnt c)) as E2.
  { rewrite (counted_ok _ w1 c c (cc_i_cnt c) Hc1); [by rewrite upd_id|].
    unfold consumeICnt. erewrite bind_ok by done. rewrite Z.sub_0_r. unfold int_of. case_cmp.
    erewrite bind_ok by done. erewrite bind_ok by done. by destruct c. }
  unfold nextAddr. erewrite bind_ok by (unfold readInst; by rewrite Hf).
  erewrite bind_ok by done. fold w1.
  erewrite bind_ok by (unfold decodeInst; erewrite bind_ok by done;
    change (wk_archSize w1) with (wk_archSize w); by rewrite Hd).
  unfold runInst. rewrite Hb.
  assert (doBranch core pc d nm w1 = Ok w1 (ADDRESS_NONE, BRFLAG_unknown)) as E3.
  { unfold doBranch. erewrite bind_ok by done. change (wk_traceType w1) with (wk_traceType w).
    rewrite Ht. unfold branchHTM. step_by E1. step_by E2. unfold branchByMessage.
    by rewrite (bool_decide_false (nm_tcode nm = _)), andb_false_r by done. }
  erewrite bind_ok by (by step_by E3). cbn beta iota. rewrite decide_True by done.
  by erewrite bind_ok by done.
Qed.
End walk.
