(* ===== verification/Perf.v ===== *)
(** * Performance counters (src/trace.cpp, [PerfConverter])

    A program under trace writes records to a channel of the instrumentation trace:
    what its counters are, and then, at the entry and exit of functions or from a
    timer, an address and the values of the counters.  [processITCPerf] takes them one
    write at a time.  The lines it writes to files are a log of events. *)

From S2P Require Import Prelude Nexus Analytics.

(** [PerfConverter::processITCPerf]: whether the message was consumed. *)
Class PerfSink (Perf : Type) := processITCPerf : Z -> Z -> Z -> Z -> M Perf DQErr bool.

(** ** Data *)

Inductive PerfState :=
| perfStateSync | perfStateGetCntType | perfStateGetCntrMask | perfStateGetCntrRecord
| perfStateGetCntrDef | perfStateGetCntrCode | perfStateGetCntrEventData | perfStateGetCntrInfo
| perfStateGetAddr | perfStateGetCallSite | perfStateGetCnts | perfStateError.

Definition perfCount_Raw : Z := 0.
Definition perfCount_Delta : Z := 1.
Definition perfCount_DeltaXOR : Z := 2.

Definition perfRecord_FuncEnter : Z := 0.
Definition perfRecord_FuncExit : Z := 1.
Definition perfRecord_Manual : Z := 2.
Definition perfRecord_ISR : Z := 3.

(** What the [emit] functions write: the core, the time and the rest of the line. *)
Inductive PerfLine :=
| L_cntType (cntType : Z)
| L_cntrMask (mask : Z)
| L_cntrDef (index cntrType cntrCode eventData cntrInfo : Z)
| L_addr (pc : Z)
| L_fnEntry (fn callSite : Z)
| L_fnExit (fn callSite : Z)
| L_cntr (pc index value : Z).

(** The elements of the arrays of a core.  [lastCount] is null or has 32 elements. *)
Record PerfCore := {
  pf_state : PerfState;
  pf_cntrMaskIndex : Z;
  pf_cntrMask : Z;
  pf_valuePending : bool;
  pf_cntType : Z;
  pf_cntrType : Z;
  pf_cntrCode : Z;
  pf_cntrEventData : Z;
  pf_recordType : Z;
  pf_savedLow32 : Z;
  pf_lastAddress : Z;
  pf_cntrAddress : Z;
  pf_lastCount : option (list Z);
}.

Record PerfConverter := {
  pc_perfChannel : Z;
  pc_markerValue : Z;
  pc_cores : list PerfCore;
  pc_lines : list (Z * Z * PerfLine);
}.
Definition set_perfCores cs (p : PerfConverter) : PerfConverter := {|
  pc_perfChannel := pc_perfChannel p; pc_markerValue := pc_markerValue p; pc_cores := cs;
  pc_lines := pc_lines p |}.
Definition set_perfLines l (p : PerfConverter) : PerfConverter := {|
  pc_perfChannel := pc_perfChannel p; pc_markerValue := pc_markerValue p; pc_cores := pc_cores p;
  pc_lines := l |}.

(** The constructor; [fresh] is what the members hold that it does not set. *)
Definition newPerfCore (fresh : PerfCore) : PerfCore := {|
  pf_state := perfStateSync; pf_cntrMaskIndex := 0; pf_cntrMask := 0; pf_valuePending := false;
  pf_cntType := pf_cntType fresh; pf_cntrType := pf_cntrType fresh; pf_cntrCode := 0; pf_cntrEventData := 0;
  pf_recordType := pf_recordType fresh; pf_savedLow32 := pf_savedLow32 fresh;
  pf_lastAddress := pf_lastAddress fresh; pf_cntrAddress := pf_cntrAddress fresh; pf_lastCount := None |}.
Definition newPerfConverter (channel marker : Z) (fresh : PerfCore) : PerfConverter := {|
  pc_perfChannel := channel; pc_markerValue := marker;
  pc_cores := replicate (Z.to_nat DQR_MAXCORES) (newPerfCore fresh); pc_lines := [] |}.

(** ** Updates *)

Definition set_pf_state x (c : PerfCore) : PerfCore := {|
  pf_state := x; pf_cntrMaskIndex := pf_cntrMaskIndex c; pf_cntrMask := pf_cntrMask c;
  pf_valuePending := pf_valuePending c; pf_cntType := pf_cntType c; pf_cntrType := pf_cntrType c;
  pf_cntrCode := pf_cntrCode c; pf_cntrEventData := pf_cntrEventData c; pf_recordType :=
  pf_recordType c; pf_savedLow32 := pf_savedLow32 c; pf_lastAddress := pf_lastAddress c;
  pf_cntrAddress := pf_cntrAddress c; pf_lastCount := pf_lastCount c |}.
Definition set_pf_cntrMaskIndex x (c : PerfCore) : PerfCore := {|
  pf_state := pf_state c; pf_cntrMaskIndex := x; pf_cntrMask := pf_cntrMask c; pf_valuePending :=
  pf_valuePending c; pf_cntType := pf_cntType c; pf_cntrType := pf_cntrType c; pf_cntrCode :=
  pf_cntrCode c; pf_cntrEventData := pf_cntrEventData c; pf_recordType := pf_recordType c;
  pf_savedLow32 := pf_savedLow32 c; pf_lastAddress := pf_lastAddress c; pf_cntrAddress :=
  pf_cntrAddress c; pf_lastCount := pf_lastCount c |}.
Definition set_pf_cntrMask x (c : PerfCore) : PerfCore := {|
  pf_state := pf_state c; pf_cntrMaskIndex := pf_cntrMaskIndex c; pf_cntrMask := x;
  pf_valuePending := pf_valuePending c; pf_cntType := pf_cntType c; pf_cntrType := pf_cntrType c;
  pf_cntrCode := pf_cntrCode c; pf_cntrEventData := pf_cntrEventData c; pf_recordType :=
  pf_recordType c; pf_savedLow32 := pf_savedLow32 c; pf_lastAddress := pf_lastAddress c;
  pf_cntrAddress := pf_cntrAddress c; pf_lastCount := pf_lastCount c |}.
Definition set_pf_valuePending x (c : PerfCore) : PerfCore := {|
  pf_state := pf_state c; pf_cntrMaskIndex := pf_cntrMaskIndex c; pf_cntrMask := pf_cntrMask c;
  pf_valuePending := x; pf_cntType := pf_cntType c; pf_cntrType := pf_cntrType c; pf_cntrCode :=
  pf_cntrCode c; pf_cntrEventData := pf_cntrEventData c; pf_recordType := pf_recordType c;
  pf_savedLow32 := pf_savedLow32 c; pf_lastAddress := pf_lastAddress c; pf_cntrAddress :=
  pf_cntrAddress c; pf_lastCount := pf_lastCount c |}.
Definition set_pf_cntType x (c : PerfCore) : PerfCore := {|
  pf_state := pf_state c; pf_cntrMaskIndex := pf_cntrMaskIndex c; pf_cntrMask := pf_cntrMask c;
  pf_valuePending := pf_valuePending c; pf_cntType := x; pf_cntrType := pf_cntrType c; pf_cntrCode
  := pf_cntrCode c; pf_cntrEventData := pf_cntrEventData c; pf_recordType := pf_recordType c;
  pf_savedLow32 := pf_savedLow32 c; pf_lastAddress := pf_lastAddress c; pf_cntrAddress :=
  pf_cntrAddress c; pf_lastCount := pf_lastCount c |}.
Definition set_pf_cntrType x (c : PerfCore) : PerfCore := {|
  pf_state := pf_state c; pf_cntrMaskIndex := pf_cntrMaskIndex c; pf_cntrMask := pf_cntrMask c;
  pf_valuePending := pf_valuePending c; pf_cntType := pf_cntType c; pf_cntrType := x; pf_cntrCode
  := pf_cntrCode c; pf_cntrEventData := pf_cntrEventData c; pf_recordType := pf_recordType c;
  pf_savedLow32 := pf_savedLow32 c; pf_lastAddress := pf_lastAddress c; pf_cntrAddress :=
  pf_cntrAddress c; pf_lastCount := pf_lastCount c |}.
Definition set_pf_cntrCode x (c : PerfCore) : PerfCore := {|
  pf_state := pf_state c; pf_cntrMaskIndex := pf_cntrMaskIndex c; pf_cntrMask := pf_cntrMask c;
  pf_valuePending := pf_valuePending c; pf_cntType := pf_cntType c; pf_cntrType := pf_cntrType c;
  pf_cntrCode := x; pf_cntrEventData := pf_cntrEventData c; pf_recordType := pf_recordType c;
  pf_savedLow32 := pf_savedLow32 c; pf_lastAddress := pf_lastAddress c; pf_cntrAddress :=
  pf_cntrAddress c; pf_lastCount := pf_lastCount c |}.
Definition set_pf_cntrEventData x (c : PerfCore) : PerfCore := {|
  pf_state := pf_state c; pf_cntrMaskIndex := pf_cntrMaskIndex c; pf_cntrMask := pf_cntrMask c;
  pf_valuePending := pf_valuePending c; pf_cntType := pf_cntType c; pf_cntrType := pf_cntrType c;
  pf_cntrCode := pf_cntrCode c; pf_cntrEventData := x; pf_recordType := pf_recordType c;
  pf_savedLow32 := pf_savedLow32 c; pf_lastAddress := pf_lastAddress c; pf_cntrAddress :=
  pf_cntrAddress c; pf_lastCount := pf_lastCount c |}.
Definition set_pf_recordType x (c : PerfCore) : PerfCore := {|
  pf_state := pf_state c; pf_cntrMaskIndex := pf_cntrMaskIndex c; pf_cntrMask := pf_cntrMask c;
  pf_valuePending := pf_valuePending c; pf_cntType := pf_cntType c; pf_cntrType := pf_cntrType c;
  pf_cntrCode := pf_cntrCode c; pf_cntrEventData := pf_cntrEventData c; pf_recordType := x;
  pf_savedLow32 := pf_savedLow32 c; pf_lastAddress := pf_lastAddress c; pf_cntrAddress :=
  pf_cntrAddress c; pf_lastCount := pf_lastCount c |}.
Definition set_pf_savedLow32 x (c : PerfCore) : PerfCore := {|
  pf_state := pf_state c; pf_cntrMaskIndex := pf_cntrMaskIndex c; pf_cntrMask := pf_cntrMask c;
  pf_valuePending := pf_valuePending c; pf_cntType := pf_cntType c; pf_cntrType := pf_cntrType c;
  pf_cntrCode := pf_cntrCode c; pf_cntrEventData := pf_cntrEventData c; pf_recordType :=
  pf_recordType c; pf_savedLow32 := x; pf_lastAddress := pf_lastAddress c; pf_cntrAddress :=
  pf_cntrAddress c; pf_lastCount := pf_lastCount c |}.
Definition set_pf_lastAddress x (c : PerfCore) : PerfCore := {|
  pf_state := pf_state c; pf_cntrMaskIndex := pf_cntrMaskIndex c; pf_cntrMask := pf_cntrMask c;
  pf_valuePending := pf_valuePending c; pf_cntType := pf_cntType c; pf_cntrType := pf_cntrType c;
  pf_cntrCode := pf_cntrCode c; pf_cntrEventData := pf_cntrEventData c; pf_recordType :=
  pf_recordType c; pf_savedLow32 := pf_savedLow32 c; pf_lastAddress := x; pf_cntrAddress :=
  pf_cntrAddress c; pf_lastCount := pf_lastCount c |}.
Definition set_pf_cntrAddress x (c : PerfCore) : PerfCore := {|
  pf_state := pf_state c; pf_cntrMaskIndex := pf_cntrMaskIndex c; pf_cntrMask := pf_cntrMask c;
  pf_valuePending := pf_valuePending c; pf_cntType := pf_cntType c; pf_cntrType := pf_cntrType c;
  pf_cntrCode := pf_cntrCode c; pf_cntrEventData := pf_cntrEventData c; pf_recordType :=
  pf_recordType c; pf_savedLow32 := pf_savedLow32 c; pf_lastAddress := pf_lastAddress c;
  pf_cntrAddress := x; pf_lastCount := pf_lastCount c |}.
Definition set_pf_lastCount x (c : PerfCore) : PerfCore := {|
  pf_state := pf_state c; pf_cntrMaskIndex := pf_cntrMaskIndex c; pf_cntrMask := pf_cntrMask c;
  pf_valuePending := pf_valuePending c; pf_cntType := pf_cntType c; pf_cntrType := pf_cntrType c;
  pf_cntrCode := pf_cntrCode c; pf_cntrEventData := pf_cntrEventData c; pf_recordType :=
  pf_recordType c; pf_savedLow32 := pf_savedLow32 c; pf_lastAddress := pf_lastAddress c;
  pf_cntrAddress := pf_cntrAddress c; pf_lastCount := x |}.

(** ** One write *)

(** [while ((i < 32) && ((mask & (1 << i)) == 0)) i += 1;] *)
Fixpoint nextCntr (n : nat) (mask i : Z) : Z :=
  match n with
  | O => i
  | S n => if (i <? 32) && negb (Z.testbit mask i) then nextCntr n mask (i + 1) else i
  end.
(** The loop without the bound, from 0: with no bit set it would shift by 32. *)
Definition firstCntr (mask : Z) : option Z :=
  let i := nextCntr 32 mask 0 in if i <? 32 then Some i else None.

(** The elements of the core, and the lines written. *)
#[local] Abbreviation PM := (M (PerfCore * list (Z * Z * PerfLine)) DQErr).

Definition updPerf (f : PerfCore -> PerfCore) : PM unit := modify (fun '(c, l) => (f c, l)).
Definition toPerf (s : PerfState) : PM unit := updPerf (set_pf_state s).

Section write.
Context (markerValue coreId ts addr data : Z).

Definition perfLine (x : PerfLine) : PM unit := modify (fun '(c, l) => (c, l ++ [(coreId, ts, x)])).

(** The counts of a record are to come, if there are counters. *)
Definition startCnts : PM unit :=
  '(c, _) ← get;
  if pf_cntrMask c =? 0 then toPerf perfStateGetCntrRecord
  else
    i ← lift_opt (firstCntr (pf_cntrMask c));
    updPerf (set_pf_cntrMaskIndex i) ≫= fun _ => toPerf perfStateGetCnts.

(** The address [a] of a record, or what it changes. *)
Definition gotAddr (a : Z) : PM unit :=
  updPerf (fun c => set_pf_valuePending false (set_pf_lastAddress
    (if pf_cntType c =? perfCount_DeltaXOR then Z.lxor (pf_lastAddress c) a else a) c)) ≫= fun _ =>
  '(c, _) ← get;
  if (pf_recordType c =? perfRecord_FuncEnter) || (pf_recordType c =? perfRecord_FuncExit)
  then toPerf perfStateGetCallSite
  else
    updPerf (set_pf_cntrAddress (pf_lastAddress c)) ≫= fun _ =>
    perfLine (L_addr (pf_lastAddress c)) ≫= fun _ => startCnts.

Definition gotCallSite (a : Z) : PM unit :=
  '(c, _) ← get;
  let next := if pf_cntType c =? perfCount_DeltaXOR then Z.lxor (pf_lastAddress c) a else a in
  (if pf_recordType c =? perfRecord_FuncEnter then
     perfLine (L_fnEntry (pf_lastAddress c) next) ≫= fun _ => updPerf (set_pf_cntrAddress (pf_lastAddress c))
   else
     perfLine (L_fnExit (pf_lastAddress c) next) ≫= fun _ => updPerf (set_pf_cntrAddress next)) ≫= fun _ =>
  updPerf (set_pf_lastAddress next) ≫= fun _ =>
  updPerf (set_pf_valuePending false) ≫= fun _ => startCnts.

(** Addresses and event data of 64 bits come in two writes. *)
Definition joined (saved : Z) : Z := Z.lor (Z.shiftl data 32) saved.
Definition saveLow (x : Z) : PM unit :=
  updPerf (fun c => set_pf_valuePending true (set_pf_savedLow32 x c)).

(** A count, or what it changes. *)
Definition emitCount (d : Z) : PM unit :=
  '(c, _) ← get;
  let i := pf_cntrMaskIndex c in
  if pf_cntType c =? perfCount_DeltaXOR then
    counts ← lift_opt (pf_lastCount c);
    x ← lift_opt (counts !! Z.to_nat i);
    updPerf (set_pf_lastCount (Some (<[Z.to_nat i := Z.lxor x d]> counts))) ≫= fun _ =>
    perfLine (L_cntr (pf_cntrAddress c) i (Z.lxor x d))
  else perfLine (L_cntr (pf_cntrAddress c) i d).

(** The next counter of the mask: whether there is one. *)
Definition advance : PM bool :=
  updPerf (fun c => set_pf_cntrMaskIndex (nextCntr 32 (pf_cntrMask c) (u32 (pf_cntrMaskIndex c + 1))) c) ≫= fun _ =>
  '(c, _) ← get;
  mret (pf_cntrMaskIndex c <? 32).

(** [perfStateGetCnts]. *)
Definition getCnts : PM bool :=
  '(c, _) ← get;
  match Z.land addr 3 with
  | 0 =>
      if pf_valuePending c then
        emitCount (pf_savedLow32 c) ≫= fun _ =>
        updPerf (set_pf_valuePending false) ≫= fun _ =>
        more ← advance;
        if more : bool then saveLow data ≫= fun _ => mret true
        else toPerf perfStateGetCntrRecord ≫= fun _ => mret false
      else saveLow data ≫= fun _ => mret true
  | 2 =>
      (if pf_valuePending c then
         emitCount (joined (pf_savedLow32 c)) ≫= fun _ =>
         more ← advance;
         (if more : bool then mret tt else toPerf perfStateGetCntrRecord) ≫= fun _ =>
         updPerf (set_pf_valuePending false)
       else toPerf perfStateError) ≫= fun _ =>
      mret true
  | 3 =>
      (if pf_valuePending c then
         emitCount (pf_savedLow32 c) ≫= fun _ => updPerf (set_pf_valuePending false)
       else mret tt) ≫= fun _ =>
      toPerf perfStateGetCntrRecord ≫= fun _ => mret false
  | _ => toPerf perfStateError ≫= fun _ => mret false
  end.

(** The states of an address, given what is done with it. *)
Definition getAddress (got : Z -> PM unit) : PM bool :=
  '(c, _) ← get;
  (if pf_valuePending c then got (joined (pf_savedLow32 c))
   else if Z.testbit data 0 then saveLow (Z.ldiff data 1)
   else got data) ≫= fun _ =>
  mret true.

(** A turn of the loop: [consumed]. *)
Definition perfTurn : PM bool :=
  '(c, _) ← get;
  match pf_state c with
  | perfStateSync =>
      (if data =? markerValue then
         updPerf (fun c => set_pf_cntrAddress 0 (set_pf_lastAddress 0 c)) ≫= fun _ => toPerf perfStateGetCntType
       else mret tt) ≫= fun _ => mret true
  | perfStateGetCntType =>
      if (Z.land addr 3 =? 3) &&
         ((data =? perfCount_Raw) || (data =? perfCount_Delta) || (data =? perfCount_DeltaXOR))
      then
        updPerf (set_pf_cntType (u8 data)) ≫= fun _ =>
        perfLine (L_cntType (u8 data)) ≫= fun _ =>
        toPerf perfStateGetCntrMask ≫= fun _ => mret true
      else toPerf perfStateSync ≫= fun _ => mret false
  | perfStateGetCntrMask =>
      if Z.land addr 3 =? 0 then
        updPerf (set_pf_cntrMask data) ≫= fun _ =>
        perfLine (L_cntrMask data) ≫= fun _ =>
        (if data =? 0 then toPerf perfStateGetCntrRecord
         else
           (if pf_cntType c =? perfCount_DeltaXOR
            then updPerf (fun c => set_pf_lastCount (Some (default (replicate 32 0) (pf_lastCount c))) c)
            else mret tt) ≫= fun _ =>
           i ← lift_opt (firstCntr data);
           updPerf (set_pf_cntrMaskIndex i) ≫= fun _ => toPerf perfStateGetCntrDef) ≫= fun _ =>
        mret true
      else toPerf perfStateSync ≫= fun _ => mret false
  | perfStateGetCntrDef =>
      updPerf (set_pf_cntrType data) ≫= fun _ =>
      match data with
      | 0 | 1 => updPerf (set_pf_cntrEventData 0) ≫= fun _ => toPerf perfStateGetCntrCode
      | 2 => updPerf (set_pf_cntrCode 0) ≫= fun _ => toPerf perfStateGetCntrEventData
      | _ => toPerf perfStateError
      end ≫= fun _ =>
      mret true
  | perfStateGetCntrCode =>
      updPerf (set_pf_cntrCode data) ≫= fun _ => toPerf perfStateGetCntrInfo ≫= fun _ => mret true
  | perfStateGetCntrEventData =>
      (if pf_valuePending c then
         updPerf (set_pf_cntrEventData (joined (pf_savedLow32 c))) ≫= fun _ =>
         updPerf (set_pf_valuePending false) ≫= fun _ => toPerf perfStateGetCntrInfo
       else saveLow data) ≫= fun _ =>
      mret true
  | perfStateGetCntrInfo =>
      perfLine (L_cntrDef (pf_cntrMaskIndex c) (pf_cntrType c) (pf_cntrCode c) (pf_cntrEventData c) data) ≫= fun _ =>
      more ← advance;
      toPerf (if more : bool then perfStateGetCntrDef else perfStateGetCntrRecord) ≫= fun _ => mret true
  | perfStateGetCntrRecord =>
      (if Z.land addr 3 =? 3 then
         updPerf (fun c => set_pf_valuePending false (set_pf_recordType (u8 data) c)) ≫= fun _ =>
         toPerf perfStateGetAddr
       else toPerf perfStateError) ≫= fun _ =>
      mret true
  | perfStateGetAddr => getAddress gotAddr
  | perfStateGetCallSite => getAddress gotCallSite
  | perfStateGetCnts => getCnts
  | perfStateError => throw DQERR_ERR
  end.

(** [while (!consumed)]. *)
Fixpoint perfLoop (fuel : nat) : PM bool :=
  match fuel with
  | O => fun _ => NoFuel
  | S fuel => consumed ← perfTurn; if consumed : bool then mret true else perfLoop fuel
  end.
End write.

(** [addr] and [data] are those of a message, of 32 bits each.
    Each turn that does not consume the write goes to a state that does, or to the
    error state: three turns are enough. *)
Definition perfProcess (coreId ts addr data : Z) : M PerfConverter DQErr bool := fun p =>
  let channel := u32 (pc_perfChannel p * 4) in
  if (addr <? channel) || (u32 ((pc_perfChannel p + 1) * 4) <=? addr) then Ok p false
  else
    match pc_cores p !! Z.to_nat coreId with
    | Some c =>
        let put '(c, l) := set_perfLines l (set_perfCores (<[Z.to_nat coreId := c]> (pc_cores p)) p) in
        match perfLoop (pc_markerValue p) coreId ts addr data 3 (c, pc_lines p) with
        | Ok s b => Ok (put s) b
        | Err s e => Err (put s) e
        | Undef => Undef
        | NoFuel => NoFuel
        end
    | None => Undef
    end.

#[export] Instance PerfConverter_sink : PerfSink PerfConverter := perfProcess.
