(* ===== verification/PerfWriter.v ===== *)
(** * The program that writes performance records (src/examples/perf_trace/sifive_bare_perf.c)

    The library that runs on the traced machine.  It waits for room in the FIFO before
    each write; the writes it makes are a list, each with the offset in the stimulus
    register: a word at 0, a half word at 2, a byte at 3. *)

From S2P Require Import Prelude Nexus Perf.

Definition PERF_MAX_CNTRS : Z := 32.

(** [perfEvent]: what is counted; the counter's number is its place in the list. *)
Record PerfEvent := {
  pe_type : Z;
  pe_code : Z;
  pe_event_data : Z;
  pe_ctrInfo : Z;
}.

(** The settings: the counter mask of the core, the types of its counters and of the
    counts, the wrap values; [pw_masterTsControl] is a register, and [pw_xlen] the
    width of a pointer and of a [long]. *)
Record PerfConfig := {
  pw_markerVal : Z;
  pw_countType : Z;
  pw_cntrMask : Z;
  pw_cntrLst : list PerfEvent;
  pw_cntrWrapVal : list Z;
  pw_masterTsControl : Z;
  pw_xlen : Z;
}.

(** [prevCntrVal] of the core is null or an array; the writes so far. *)
Record PerfTracer := { pw_prevCntrVal : option (list Z); pw_writes : list (Z * Z) }.

(** What reading the counters gives. *)
Record Counters := { en_hpm : Z -> Z; en_ts : Z }.

#[local] Abbreviation WM := (M PerfTracer DQErr).

Definition stimulus (offset data : Z) : WM unit := modify (fun t => {|
  pw_prevCntrVal := pw_prevCntrVal t; pw_writes := pw_writes t ++ [(offset, data)] |}).
Definition set_prev (i x : Z) : WM unit :=
  t ← get;
  prev ← lift_opt (pw_prevCntrVal t);
  if i <? PERF_MAX_CNTRS then
    modify (fun t => {| pw_prevCntrVal := Some (<[Z.to_nat i := x]> prev); pw_writes := pw_writes t |})
  else undef.

Definition hpm_read_counter (en : Counters) (i : Z) : Z :=
  if i =? 1 then en_ts en else if (0 <=? i) && (i <=? 6) then en_hpm en i else 0.

Section writer.
Context (cf : PerfConfig).

(** One counter of [perfEmitMarker]. *)
Definition emitDef (counter : Z) : WM unit :=
  e ← lift_opt (pw_cntrLst cf !! Z.to_nat counter);
  match pe_type e with
  | 0 | 1 =>
      stimulus 0 (pe_type e) ≫= fun _ =>
      stimulus 0 (u32 (pe_code e)) ≫= fun _ => stimulus 0 (u32 (pe_ctrInfo e))
  | 2 =>
      stimulus 0 2 ≫= fun _ =>
      stimulus 0 (u32 (pe_event_data e)) ≫= fun _ =>
      stimulus 0 (if 32 <? pw_xlen cf then u32 (Z.shiftr (pe_event_data e) 32) else 0) ≫= fun _ =>
      stimulus 0 (if counter =? 1 then u32 (Z.shiftl (u32 (Z.shiftr (pw_masterTsControl cf) 24 - 1)) 12)
                  else u32 (pe_ctrInfo e))
  | _ => mret tt
  end.

(** The loops [while (mask != 0) { if (mask & 1) ...; mask >>= 1; i += 1; }]; a mask has
    32 bits. *)
Fixpoint overMask (n : nat) (f : Z -> WM unit) (mask i : Z) : WM unit :=
  match n with
  | O => mret tt
  | S n =>
      if mask =? 0 then mret tt
      else
        (if Z.testbit mask 0 then f i else mret tt) ≫= fun _ =>
        overMask n f (Z.shiftr mask 1) (i + 1)
  end.

Definition perfEmitMarker : WM unit :=
  stimulus 0 (pw_markerVal cf) ≫= fun _ =>
  stimulus 3 (u8 (pw_countType cf)) ≫= fun _ =>
  stimulus 0 (pw_cntrMask cf) ≫= fun _ =>
  overMask 32 emitDef (pw_cntrMask cf) 0.

Definition perfGetInitialCnts (en : Counters) : WM unit :=
  overMask 32 (fun i => set_prev i (if pw_countType cf =? perfCount_Delta then hpm_read_counter en i else 0))
    (pw_cntrMask cf) 0.

Definition perfTraceOn (en : Counters) : WM unit :=
  perfEmitMarker ≫= fun _ => perfGetInitialCnts en.

(** An address: bit 0 of the first word says whether there is a second one. *)
Definition writeAddr (a : Z) : WM unit :=
  let lo := u32 a in
  let hi := if 32 <? pw_xlen cf then u32 (Z.shiftr a 32) else 0 in
  if hi =? 0 then stimulus 0 lo
  else stimulus 0 (Z.lor lo 1) ≫= fun _ => stimulus 0 hi.

(** What is written of a counter. *)
Definition countDelta (i new old : Z) : option Z :=
  if pw_countType cf =? perfCount_Delta then
    if old <=? new then Some (new - old)
    else wrap ← pw_cntrWrapVal cf !! Z.to_nat i; Some (u64 (new + wrap - old))
  else if pw_countType cf =? perfCount_DeltaXOR then
    if old <=? new then Some (Z.lxor new old)
    else wrap ← pw_cntrWrapVal cf !! Z.to_nat i; Some (Z.lxor (u64 (new + wrap)) old)
  else Some new.

Definition writeCount (en : Counters) (i : Z) : WM unit :=
  let new := hpm_read_counter en i in
  t ← get;
  old ← lift_opt (if pw_countType cf =? perfCount_Raw then Some 0
                  else prev ← pw_prevCntrVal t; prev !! Z.to_nat i);
  d ← lift_opt (countDelta i new old);
  (if pw_countType cf =? perfCount_Raw then mret tt else set_prev i new) ≫= fun _ =>
  stimulus 0 (u32 d) ≫= fun _ =>
  let d := Z.shiftr d 32 in
  if d =? 0 then mret tt else stimulus 2 (u16 d).

(** [write_trace_record_raw], [_delta] and [_deltaXOR]. *)
Definition write_trace_record (en : Counters) (recType this_fn call_site : Z) : WM unit :=
  stimulus 3 (u8 recType) ≫= fun _ =>
  writeAddr this_fn ≫= fun _ =>
  (if (recType =? perfRecord_FuncEnter) || (recType =? perfRecord_FuncExit)
   then writeAddr call_site else mret tt) ≫= fun _ =>
  t ← get;
  match pw_prevCntrVal t with
  | None => mret tt
  | Some _ => overMask 32 (writeCount en) (pw_cntrMask cf) 0
  end.
End writer.
