(* ===== verification/PerfTrip.v ===== *)
(** * The converter reads what the traced program writes

    For every type of counts the lines of [PerfConverter] are those of a reference that
    takes whole records; on raw counts they are the records themselves. *)

From S2P Require Import Prelude Nexus Analytics Perf PerfWriter.

(** ** The counters of a mask *)

(** The numbers of the counters of a mask, from [i] on. *)
Definition cntrsFrom (mask i : Z) : list Z := filter (fun j => Z.testbit mask j = true) (seqZ i (32 - i)).

Lemma cntrsFrom_end mask i : 32 <= i -> cntrsFrom mask i = [].
Proof. intros H. unfold cntrsFrom. by rewrite seqZ_nil by lia. Qed.

Lemma cntrsFrom_cons mask i : i < 32 ->
  cntrsFrom mask i = (if Z.testbit mask i then [i] else []) ++ cntrsFrom mask (i + 1).
Proof.
  intros H. unfold cntrsFrom. rewrite seqZ_cons by lia. rewrite filter_cons.
  replace (Z.pred (32 - i)) with (32 - (i + 1)) by lia. unfold Z.succ.
  destruct (Z.testbit mask i); [by rewrite decide_True|by rewrite decide_False].
Qed.

Lemma cntrsFrom_bounds mask i : 0 <= i -> Forall (fun j => 0 <= j < 32) (cntrsFrom mask i).
Proof. intros H. apply Forall_forall. intros j Hj%list_elem_of_In. apply list_elem_of_filter in Hj as [_ Hj%elem_of_seqZ]. lia. Qed.

Lemma nextCntr_spec mask n : forall i, 0 <= i <= 32 -> (32 - i <= Z.of_nat n) ->
  i <= nextCntr n mask i <= 32 /\
  match cntrsFrom mask i with
  | [] => nextCntr n mask i = 32
  | j :: js => nextCntr n mask i = j /\ js = cntrsFrom mask (j + 1)
  end.
Proof.
  induction n as [|n IH]; intros i Hi Hn; cbn [nextCntr].
  - rewrite cntrsFrom_end by lia. lia.
  - destruct (Z.ltb_spec i 32) as [H|H]; cbn [andb].
    + rewrite cntrsFrom_cons by done. destruct (Z.testbit mask i); cbn [negb app]; [split; [lia|done]|].
      destruct (IH (i + 1) ltac:(lia) ltac:(lia)) as [H1 H2]. split; [lia|done].
    + rewrite cntrsFrom_end by lia. split; lia.
Qed.

Lemma cntrsFrom_head mask i j js : 0 <= i <= 32 -> cntrsFrom mask i = j :: js ->
  i <= j < 32 /\ Z.testbit mask j = true /\ js = cntrsFrom mask (j + 1) /\ nextCntr 32 mask i = j.
Proof.
  intros Hi E. destruct (nextCntr_spec mask 32 i Hi ltac:(lia)) as [H1 H2]. rewrite E in H2.
  destruct H2 as [H2 ->].
  assert (In j (cntrsFrom mask i)) as [Hb Hj%elem_of_seqZ]%list_elem_of_In%list_elem_of_filter by (rewrite E; by left).
  split_and!; try done; lia.
Qed.

Lemma nextCntr_end mask i : 0 <= i <= 32 -> cntrsFrom mask i = [] -> nextCntr 32 mask i = 32.
Proof. intros Hi E. destruct (nextCntr_spec mask 32 i Hi ltac:(lia)) as [_ H]. by rewrite E in H. Qed.

Lemma cntrsFrom_nil mask : 0 <= mask < 2 ^ 32 -> cntrsFrom mask 0 = [] -> mask = 0.
Proof.
  intros Hm E. apply Z.bits_inj'. intros i Hi. rewrite Z.bits_0. destruct (Z.testbit mask i) eqn:Hb; [|done].
  destruct (decide (i < 32)).
  - assert (In i (cntrsFrom mask 0)) as H; [|by rewrite E in H].
    apply list_elem_of_In, list_elem_of_filter. split; [done|]. apply elem_of_seqZ. lia.
  - assert (Z.testbit mask i = false) as H; [|congruence].
    destruct (decide (mask = 0)) as [->|]; [by apply Z.testbit_0_l|]. apply Z.bits_above_log2; [lia|].
    apply Z.lt_le_trans with 32; [|lia]. apply Z.log2_lt_pow2; lia.
Qed.

(** The loop of the writer over the bits of the mask. *)
Lemma overMask_ends n f i t : overMask n f 0 i t = Ok t tt.
Proof. by destruct n. Qed.

Lemma overMask_spec f mask : 0 <= mask < 2 ^ 32 -> forall n i, 0 <= i -> Z.of_nat n = 32 - i ->
  forall t, overMask n f (Z.shiftr mask i) i t = foldr (fun j m => f j ≫= fun _ => m) (mret tt) (cntrsFrom mask i) t.
Proof.
  intros Hm. induction n as [|n IH]; intros i Hi Hn t; cbn [overMask].
  - by rewrite cntrsFrom_end by lia.
  - rewrite cntrsFrom_cons by lia.
    assert (Z.shiftr (Z.shiftr mask i) 1 = Z.shiftr mask (i + 1)) as E by (by rewrite Z.shiftr_shiftr by lia).
    assert (Z.testbit (Z.shiftr mask i) 0 = Z.testbit mask i) as E0 by (by rewrite Z.shiftr_spec by lia).
    destruct (Z.eqb_spec (Z.shiftr mask i) 0) as [H0|H0].
    + rewrite <-E0, H0, Z.testbit_0_l. cbn [app]. rewrite <-(IH (i + 1)) by lia.
      rewrite <-E, H0. by rewrite overMask_ends.
    + rewrite E0, E. destruct (Z.testbit mask i); cbn [app foldr].
      * unfold mbind, M_bind. destruct (f i t); [|done..]. by apply IH; lia.
      * rewrite ret_bind. by apply IH; lia.
Qed.

Lemma overMask_all f mask t : 0 <= mask < 2 ^ 32 ->
  overMask 32 f mask 0 t = foldr (fun j m => f j ≫= fun _ => m) (mret tt) (cntrsFrom mask 0) t.
Proof.
  intros Hm. pose proof (overMask_spec f mask Hm 32 0 ltac:(lia) ltac:(lia) t) as E. by rewrite Z.shiftr_0_r in E.
Qed.

(** ** What the lines should be *)

(** The last address, the last counts and the lines, without their cores and times. *)
Record Perfs := { ab_last : Z; ab_counts : list Z; ab_lines : list PerfLine }.

Section reader.
Context (marker core ct mask : Z).

Definition addLine (x : PerfLine) (a : Perfs) : Perfs := {|
  ab_last := ab_last a; ab_counts := ab_counts a; ab_lines := ab_lines a ++ [x] |}.
Definition setLast (x : Z) (a : Perfs) : Perfs := {|
  ab_last := x; ab_counts := ab_counts a; ab_lines := ab_lines a |}.

(** Counts and addresses are values, or exclusive ors with the last ones. *)
Definition fromLast (last x : Z) : Z := if ct =? perfCount_DeltaXOR then Z.lxor last x else x.
Definition addCount (pc i d : Z) (a : Perfs) : Perfs :=
  let v := fromLast (nth (Z.to_nat i) (ab_counts a) 0) d in
  addLine (L_cntr pc i v) {|
    ab_last := ab_last a;
    ab_counts := if ct =? perfCount_DeltaXOR then <[Z.to_nat i := v]> (ab_counts a) else ab_counts a;
    ab_lines := ab_lines a |}.

(** ** The state of the converter *)

#[local] Abbreviation St := (PerfCore * list (Z * Z * PerfLine))%type.

Record shows (a : Perfs) (s : St) : Prop := {
  sh_type : pf_cntType s.1 = ct;
  sh_mask : pf_cntrMask s.1 = mask;
  sh_last : pf_lastAddress s.1 = ab_last a;
  sh_lines : s.2.*2 = ab_lines a;
  sh_counts : ct = perfCount_DeltaXOR -> mask <> 0 -> pf_lastCount s.1 = Some (ab_counts a);
  sh_length : length (ab_counts a) = 32%nat;
}.

(** The count of [i] is in the pending word. *)
Definition pendingAt (pc i d : Z) (a : Perfs) (s : St) : Prop :=
  shows a s /\ pf_state s.1 = perfStateGetCnts /\ pf_valuePending s.1 = true /\
  pf_cntrMaskIndex s.1 = i /\ pf_savedLow32 s.1 = d /\ pf_cntrAddress s.1 = pc /\
  0 <= i < 32 /\ Z.testbit mask i = true.

(** The next write is that of the first counter of [js], or a new record if there is
    none; a pending count is already among the lines of [a]. *)
Definition ready (pc : Z) (js : list Z) (a : Perfs) (s : St) : Prop :=
  (js = [] /\ shows a s /\ pf_state s.1 = perfStateGetCntrRecord) \/
  (exists i, js = i :: cntrsFrom mask (i + 1) /\ shows a s /\ pf_state s.1 = perfStateGetCnts /\
     pf_valuePending s.1 = false /\ pf_cntrMaskIndex s.1 = i /\ pf_cntrAddress s.1 = pc /\
     0 <= i < 32 /\ Z.testbit mask i = true) \/
  (exists i d a0, js = cntrsFrom mask (i + 1) /\ pendingAt pc i d a0 s /\ a = addCount pc i d a0).

Lemma mask_nonzero i : 0 <= i -> Z.testbit mask i = true -> mask <> 0.
Proof. intros Hi H ->. by rewrite Z.testbit_0_l in H. Qed.

(** A line is written, or the state moves on. *)
Lemma shows_line a s x ts : shows a s -> shows (addLine x a) (s.1, s.2 ++ [(core, ts, x)]).
Proof. intros []. split; try done. cbn. rewrite fmap_app. by rewrite sh_lines0. Qed.

Lemma emitCount_spec a c l ts d pc i :
  shows a (c, l) -> pf_cntrAddress c = pc -> pf_cntrMaskIndex c = i -> 0 <= i < 32 -> Z.testbit mask i = true ->
  exists lc l', emitCount core ts d (c, l) = Ok (set_pf_lastCount lc c, l') tt /\
    shows (addCount pc i d a) (set_pf_lastCount lc c, l').
Proof.
  intros Hs <- <- Hi Hb. pose proof Hs as []. cbn in *. unfold emitCount. rewrite bind_get. cbn zeta.
  unfold addCount, fromLast. rewrite sh_type0. destruct (Z.eqb_spec ct perfCount_DeltaXOR) as [E|E].
  - specialize (sh_counts0 E (mask_nonzero _ (proj1 Hi) Hb)). rewrite sh_counts0, lift_bind.
    destruct (lookup_lt_is_Some_2 (ab_counts a) (Z.to_nat (pf_cntrMaskIndex c)) ltac:(lia)) as [x Hx].
    rewrite Hx, lift_bind, (nth_lookup_Some _ _ _ _ Hx). eexists _, _. split; [reflexivity|].
    split; try done; cbn.
    + rewrite fmap_app. by rewrite sh_lines0.
    + by rewrite length_insert.
  - exists (pf_lastCount c), (l ++ [(core, ts, L_cntr (pf_cntrAddress c) (pf_cntrMaskIndex c) d)]).
    destruct c. split; [reflexivity|]. split; try done. cbn. rewrite fmap_app. by rewrite sh_lines0.
Qed.

Lemma loop_consumed ts addr d n s s' : perfTurn marker core ts addr d s = Ok s' true ->
  perfLoop marker core ts addr d (S n) s = Ok s' true.
Proof. intros E. cbn [perfLoop]. by rewrite (bind_ok _ _ _ _ _ E). Qed.

Lemma loop_again ts addr d n s s' : perfTurn marker core ts addr d s = Ok s' false ->
  perfLoop marker core ts addr d (S n) s = perfLoop marker core ts addr d n s'.
Proof. intros E. cbn [perfLoop]. by rewrite (bind_ok _ _ _ _ _ E). Qed.

Lemma advance_spec c l i : pf_cntrMask c = mask -> pf_cntrMaskIndex c = i -> 0 <= i < 32 ->
  advance (c, l) = Ok (set_pf_cntrMaskIndex (nextCntr 32 mask (i + 1)) c, l)
    (negb (bool_decide (cntrsFrom mask (i + 1) = []))).
Proof.
  intros <- <- Hi. unfold advance, updPerf. rewrite bind_modify, bind_get.
  assert (u32 (pf_cntrMaskIndex c + 1) = pf_cntrMaskIndex c + 1) as -> by (apply Z.mod_small; lia).
  cbn [set_pf_cntrMaskIndex pf_cntrMaskIndex]. f_equal.
  destruct (cntrsFrom (pf_cntrMask c) (pf_cntrMaskIndex c + 1)) as [|j js] eqn:E.
  - by rewrite nextCntr_end by (lia || done).
  - destruct (cntrsFrom_head (pf_cntrMask c) (pf_cntrMaskIndex c + 1) j js ltac:(lia) E) as (Hj & _ & _ & ->).
    by assert ((j <? 32) = true) as -> by (apply Z.ltb_lt; lia).
Qed.

Lemma pending_ready pc i d a s : pendingAt pc i d a s -> ready pc (cntrsFrom mask (i + 1)) (addCount pc i d a) s.
Proof. intros H. right; right. by exists i, d, a. Qed.

(** The first word of a count. *)
Lemma count_low pc i js a s ts addr d : ready pc (i :: js) a s -> Z.land addr 3 = 0 ->
  exists s', perfLoop marker core ts addr d 3 s = Ok s' true /\ pendingAt pc i d a s' /\ js = cntrsFrom mask (i + 1).
Proof.
  intros H Ha. destruct s as [c l]. destruct H as [[[=] _]|[(j & [= <- ->] & Hs & Hst & Hp & Hi & Hpc & Hj & Hb)|
    (j & x & a0 & E & (Hs & Hst & Hp & Hi & Hx & Hpc & Hj & Hb) & ->)]]; cbn in Hst, Hp, Hi, Hpc.
  - exists (set_pf_valuePending true (set_pf_savedLow32 d c), l). split; [|split; [|done]].
    + apply loop_consumed. unfold perfTurn, getCnts. by rewrite !bind_get, Hst, bind_get, Ha, Hp.
    + unfold pendingAt. split; [by destruct Hs; split|]. by cbn.
  - cbn in Hx. symmetry in E. destruct (cntrsFrom_head mask (j + 1) i js ltac:(lia) E) as (Hi' & Hb' & -> & Hn).
    destruct (emitCount_spec a0 c l ts (pf_savedLow32 c) pc j Hs Hpc Hi Hj Hb) as (lc & l' & Ee & Hs').
    eexists. split; [|split; [|done]].
    + apply loop_consumed. unfold perfTurn, getCnts. rewrite bind_get, Hst, bind_get, Ha, Hp.
      rewrite (bind_ok _ _ _ _ _ Ee). unfold updPerf. rewrite bind_modify.
      erewrite bind_ok by (apply (advance_spec _ _ j); [by destruct Hs|done|done]). rewrite E. cbn [bool_decide negb].
      reflexivity.
    + rewrite <-Hx, <-Hn. unfold pendingAt. split; [by destruct Hs'; split|]. rewrite Hn. cbn. split_and!; done || lia.
Qed.

(** The second word of a count. *)
Lemma count_high pc i a s ts addr x d : pendingAt pc i x a s -> Z.land addr 3 = 2 ->
  exists s', perfLoop marker core ts addr d 3 s = Ok s' true /\
    ready pc (cntrsFrom mask (i + 1)) (addCount pc i (joined d x) a) s'.
Proof.
  intros (Hs & Hst & Hp & Hi & Hx & Hpc & Hj & Hb) Ha. destruct s as [c l]. cbn in Hst, Hp, Hi, Hx, Hpc.
  destruct (emitCount_spec a c l ts (joined d x) pc i Hs Hpc Hi Hj Hb) as (lc & l' & Ee & Hs').
  assert (exists s', perfTurn marker core ts addr d (c, l) = Ok s' true /\
    ready pc (cntrsFrom mask (i + 1)) (addCount pc i (joined d x) a) s') as (s' & E & H');
    [|exists s'; split; [by apply loop_consumed|done]].
  unfold perfTurn, getCnts. rewrite !bind_get, Hst, bind_get, Ha, Hp, bind_assoc, Hx, (bind_ok _ _ _ _ _ Ee), bind_assoc.
  erewrite bind_ok by (apply (advance_spec _ _ i); [by destruct Hs|done|done]).
  destruct (cntrsFrom mask (i + 1)) as [|j js] eqn:En; cbn [bool_decide negb]; eexists; (split; [reflexivity|]).
  - left. split; [done|]. by destruct Hs'; split; [split|].
  - destruct (cntrsFrom_head mask (i + 1) j js ltac:(lia) En) as (Hj' & Hb' & -> & Hn). right; left. exists j.
    split; [done|]. split; [by destruct Hs'; split|]. cbn -[nextCntr cntrsFrom]. split_and!; done || lia.
Qed.

(** A record starts with a byte. *)
Lemma record_type pc a s ts addr d : ready pc [] a s -> Z.land addr 3 = 3 ->
  exists s', perfLoop marker core ts addr d 3 s = Ok s' true /\ shows a s' /\
    pf_state s'.1 = perfStateGetAddr /\ pf_valuePending s'.1 = false /\ pf_recordType s'.1 = u8 d.
Proof.
  intros H Ha.
  assert (forall n s, shows a s -> pf_state s.1 = perfStateGetCntrRecord ->
    exists s', perfLoop marker core ts addr d (S n) s = Ok s' true /\ shows a s' /\
    pf_state s'.1 = perfStateGetAddr /\ pf_valuePending s'.1 = false /\ pf_recordType s'.1 = u8 d) as Hrec.
  { intros n [c l] Hs Hst. cbn in Hst. eexists. split.
    - apply loop_consumed. unfold perfTurn. rewrite bind_get, Hst, Ha. reflexivity.
    - by destruct Hs; split; [split|]. }
  destruct H as [(_ & Hs & Hst)|[(j & [=] & _)|(j & x & a0 & E & (Hs & Hst & Hp & Hi & Hx & Hpc & Hj & Hb) & ->)]].
  - by apply Hrec.
  - destruct s as [c l]. cbn in Hst, Hp, Hi, Hx, Hpc.
    destruct (emitCount_spec a0 c l ts x pc j Hs Hpc Hi Hj Hb) as (lc & l' & Ee & Hs').
    erewrite loop_again; [apply Hrec|].
    3: { unfold perfTurn, getCnts. rewrite bind_get, Hst, bind_get, Ha, Hp, bind_assoc, Hx, (bind_ok _ _ _ _ _ Ee). reflexivity. }
    + by destruct Hs'; split.
    + done.
Qed.

(** ** Sequences of writes *)

Context (base : Z).

(** The messages of some writes, each with a time; all of them are consumed. *)
Fixpoint run (ms : list (Z * (Z * Z))) : M St DQErr unit :=
  match ms with
  | [] => mret tt
  | (ts, (off, d)) :: ms =>
      b ← perfLoop marker core ts (base + off) d 3;
      if b : bool then run ms else undef
  end.

Definition takes (P : St -> Prop) (ws : list (Z * Z)) (Q : St -> Prop) : Prop :=
  forall s ms, P s -> ms.*2 = ws -> exists s', run ms s = Ok s' tt /\ Q s'.

Lemma run_app ms1 ms2 s : run (ms1 ++ ms2) s = (run ms1 ≫= fun _ => run ms2) s.
Proof.
  revert s. induction ms1 as [|[ts [off d]] ms1 IH]; intros s; [done|]. cbn [app run].
  rewrite bind_assoc. unfold mbind, M_bind. destruct (perfLoop _ _ _ _ _ _ s) as [s' [|]| | |]; [|done..]. apply IH.
Qed.

Lemma takes_nil (P Q : St -> Prop) : (forall s, P s -> Q s) -> takes P [] Q.
Proof. intros H s [|] Hs; [|done]. intros _. exists s. by split; [|apply H]. Qed.

Lemma takes_app (P Q R : St -> Prop) ws1 ws2 : takes P ws1 Q -> takes Q ws2 R -> takes P (ws1 ++ ws2) R.
Proof.
  intros H1 H2 s ms Hs Hms. rewrite <-(take_drop (length ws1) ms) in *.
  rewrite fmap_app in Hms. apply (app_inj_1 _ _ _ _) in Hms as [E1 E2].
  - destruct (H1 s _ Hs E1) as (s1 & R1 & Hs1). destruct (H2 s1 _ Hs1 E2) as (s2 & R2 & Hs2).
    exists s2. by rewrite run_app, (bind_ok _ _ _ _ _ R1).
  - assert (length ms = length (ws1 ++ ws2)) as E.
    { rewrite <-Hms, <-fmap_app, take_drop. by rewrite length_fmap. }
    rewrite length_fmap, length_take, E, length_app. lia.
Qed.

Lemma takes_one (P Q : St -> Prop) off d :
  (forall s ts, P s -> exists s', perfLoop marker core ts (base + off) d 3 s = Ok s' true /\ Q s') ->
  takes P [(off, d)] Q.
Proof.
  intros H s ms Hs Hms. destruct ms as [|[ts [off' d']] [|]]; simplify_eq/=.
  destruct (H s ts Hs) as (s' & E & HQ). exists s'. by rewrite (bind_ok _ _ _ _ _ E).
Qed.

Lemma takes_weaken (P P' Q Q' : St -> Prop) ws : (forall s, P' s -> P s) -> (forall s, Q s -> Q' s) ->
  takes P ws Q -> takes P' ws Q'.
Proof. intros HP HQ H s ms Hs Hms. destruct (H s ms (HP s Hs) Hms) as (s' & E & Hs'). eauto. Qed.

(** ** Addresses *)

(** The words of an address. *)
Definition addrWords (a : Z) : list (Z * Z) :=
  if a <? 2 ^ 32 then [(0, a)] else [(0, Z.lor (u32 a) 1); (0, Z.shiftr a 32)].

(** After an address the state is that of the next part of the record. *)
Lemma started a s : 0 <= mask < 2 ^ 32 -> shows a s ->
  exists c', startCnts s = Ok (c', s.2) tt /\ pf_cntrAddress c' = pf_cntrAddress s.1 /\
    pf_valuePending c' = pf_valuePending s.1 /\
    (pf_valuePending s.1 = false -> ready (pf_cntrAddress s.1) (cntrsFrom mask 0) a (c', s.2)).
Proof.
  intros Hm Hs. destruct s as [c l]. unfold startCnts. rewrite bind_get.
  pose proof (sh_mask _ _ Hs) as Hk. cbn [fst snd] in *. rewrite Hk.
  destruct (Z.eqb_spec mask 0) as [H0|H0].
  - eexists. split; [reflexivity|]. split_and!; [done..|]. intros _. left. split.
    + rewrite H0. by vm_compute.
    + by destruct Hs; split; [split|].
  - unfold firstCntr. cbn zeta. destruct (cntrsFrom mask 0) as [|j js] eqn:E.
    + by apply cntrsFrom_nil in E.
    + destruct (cntrsFrom_head mask 0 j js ltac:(lia) E) as (Hj & Hb & -> & ->).
      assert ((j <? 32) = true) as -> by (apply Z.ltb_lt; lia). rewrite lift_bind.
      eexists. split; [reflexivity|]. split_and!; [done..|]. intros Hv. right; left. exists j.
      split; [done|]. split; [by destruct Hs; split|]. cbn. split_and!; done || lia.
Qed.

(** The two words of a value. *)
Lemma rejoin a : Z.lor (Z.shiftl (Z.shiftr a 32) 32) (u32 a) = a.
Proof.
  apply Z.bits_inj'. intros i Hi. unfold u32, wrap. rewrite Z.lor_spec, Z.testbit_mod_pow2 by lia.
  destruct (Z.ltb_spec i 32).
  - by rewrite Z.shiftl_spec_low by done.
  - rewrite Z.shiftl_spec_high, Z.shiftr_spec by lia. rewrite orb_false_r. f_equal. lia.
Qed.

Lemma addr_word a : 0 <= a < 2 ^ 64 -> a mod 2 = 0 -> 2 ^ 32 <= a ->
  Z.testbit (Z.lor (u32 a) 1) 0 = true /\ Z.ldiff (Z.lor (u32 a) 1) 1 = u32 a /\
  Z.lor (Z.shiftl (Z.shiftr a 32) 32) (u32 a) = a.
Proof.
  intros Ha He Hb. assert (Z.testbit a 0 = false) as H0.
  { rewrite Z.bit0_odd, <-Z.negb_even. by rewrite (proj2 (Z.even_spec a)) by (exists (a / 2); dlia). }
  assert (forall i, 0 <= i -> Z.testbit (u32 a) i = (i <? 32) && Z.testbit a i) as Hu
    by (intros i Hi; unfold u32, wrap; rewrite Z.testbit_mod_pow2 by lia; done).
  split_and!.
  - rewrite Z.lor_spec. by rewrite orb_true_r.
  - apply Z.bits_inj'. intros i Hi. rewrite Z.ldiff_spec, Z.lor_spec, Hu by done.
    destruct (decide (i = 0)) as [->|]; [by rewrite H0|].
    assert (Z.testbit 1 i = false) as -> by (apply Z.bits_above_log2; cbn; lia).
    by rewrite orb_false_r, andb_true_r.
  - apply rejoin.
Qed.

Lemma address_takes (st : PerfState) (got : Z -> Z -> M St DQErr unit) (Pre Q : St -> Prop) a :
  0 <= a < 2 ^ 64 -> a mod 2 = 0 ->
  (forall ts addr d c l, pf_state c = st ->
     perfTurn marker core ts addr d (c, l) = getAddress d (got ts) (c, l)) ->
  (forall s, Pre s -> pf_state s.1 = st) ->
  (forall s b x, Pre s -> Pre (set_pf_valuePending b (set_pf_savedLow32 x s.1), s.2)) ->
  (forall s ts, Pre s -> exists s', got ts a s = Ok s' tt /\ Q s') ->
  takes (fun s => Pre s /\ pf_valuePending s.1 = false) (addrWords a) Q.
Proof.
  intros Ha He Ht Hst Hpre Hgot. unfold addrWords.
  assert (Z.testbit a 0 = false) as H0.
  { rewrite Z.bit0_odd, <-Z.negb_even. by rewrite (proj2 (Z.even_spec a)) by (exists (a / 2); dlia). }
  destruct (Z.ltb_spec a (2 ^ 32)) as [Hs|Hs].
  - apply takes_one. intros [c l] ts [H Hp]. destruct (Hgot _ ts H) as (s' & E & HQ). exists s'.
    split; [|done]. apply loop_consumed. cbn in Hp. rewrite Ht by exact (Hst _ H). unfold getAddress.
    rewrite bind_get, Hp, H0. by rewrite (bind_ok _ _ _ _ _ E).
  - destruct (addr_word a Ha He Hs) as (Hb & Hl & Hj).
    apply (takes_app _ (fun s => Pre s /\ pf_valuePending s.1 = true /\ pf_savedLow32 s.1 = u32 a) _
             [(0, Z.lor (u32 a) 1)] [(0, Z.shiftr a 32)]).
    + apply takes_one. intros [c l] ts [H Hp]. eexists. split.
      * apply loop_consumed. cbn in Hp. rewrite Ht by exact (Hst _ H). unfold getAddress.
        rewrite bind_get, Hp, Hb, Hl. reflexivity.
      * split; [exact (Hpre _ true (u32 a) H)|]. done.
    + apply takes_one. intros [c l] ts (H & Hp & Hv). destruct (Hgot _ ts H) as (s' & E & HQ). exists s'.
      split; [|done]. apply loop_consumed. cbn in Hp, Hv. rewrite Ht by exact (Hst _ H). unfold getAddress, joined.
      rewrite bind_get, Hp, Hv, Hj. by rewrite (bind_ok _ _ _ _ _ E).
Qed.

(** The address of a record, and of its call site. *)
Definition isFunc (rt : Z) : bool := (rt =? perfRecord_FuncEnter) || (rt =? perfRecord_FuncExit).

Lemma gotAddr_spec rt a n s ts : 0 <= mask < 2 ^ 32 -> shows a s -> pf_recordType s.1 = rt ->
  let x := fromLast (ab_last a) n in
  exists s', gotAddr core ts n s = Ok s' tt /\
    if isFunc rt then shows (setLast x a) s' /\ pf_state s'.1 = perfStateGetCallSite /\
                      pf_recordType s'.1 = rt /\ pf_valuePending s'.1 = false
    else ready x (cntrsFrom mask 0) (addLine (L_addr x) (setLast x a)) s'.
Proof.
  intros Hm Hs Hr x. destruct s as [c l]. cbn in Hr. unfold gotAddr, updPerf. rewrite bind_modify, bind_get.
  set (c1 := set_pf_valuePending false _).
  assert (pf_lastAddress c1 = x) as Ex by (unfold c1, x, fromLast; cbn; destruct Hs; cbn in *; by rewrite sh_type0, sh_last0).
  assert (shows (setLast x a) (c1, l)) as Hs1 by (destruct Hs; split; try done).
  change (pf_recordType c1) with (pf_recordType c). rewrite Hr. fold (isFunc rt). destruct (isFunc rt).
  - eexists. split; [reflexivity|]. split; [by destruct Hs1; split|]. done.
  - rewrite Ex, bind_modify. unfold perfLine. rewrite bind_modify.
    pose proof (shows_line _ _ (L_addr x) ts Hs1) as Hs2. cbn [fst snd] in Hs2.
    set (c2 := set_pf_cntrAddress x c1). assert (shows (addLine (L_addr x) (setLast x a)) (c2, l ++ [(core, ts, L_addr x)])) as Hs3
      by (by destruct Hs2; split).
    destruct (started _ _ Hm Hs3) as (c' & E & _ & _ & Hrd). eexists. split; [exact E|]. by apply Hrd.
Qed.

Lemma gotCallSite_spec rt a n s ts : 0 <= mask < 2 ^ 32 -> shows a s -> pf_recordType s.1 = rt -> isFunc rt = true ->
  let x := fromLast (ab_last a) n in
  exists s', gotCallSite core ts n s = Ok s' tt /\
    if rt =? perfRecord_FuncEnter
    then ready (ab_last a) (cntrsFrom mask 0) (addLine (L_fnEntry (ab_last a) x) (setLast x a)) s'
    else ready x (cntrsFrom mask 0) (addLine (L_fnExit (ab_last a) x) (setLast x a)) s'.
Proof.
  intros Hm Hs Hr Hf x. destruct s as [c l]. cbn in Hr. unfold gotCallSite. rewrite bind_get. cbn zeta.
  assert (pf_lastAddress c = ab_last a /\ pf_cntType c = ct) as [El Et] by (by destruct Hs).
  rewrite El, Et, Hr. fold (fromLast (ab_last a) n). fold x. unfold updPerf, perfLine.
  destruct (rt =? perfRecord_FuncEnter); rewrite bind_assoc, bind_modify, !bind_modify.
  - match goal with |- exists s', startCnts (?c', ?l') = _ /\ _ =>
      assert (shows (addLine (L_fnEntry (ab_last a) x) (setLast x a)) (c', l')) as Hs3 end.
    { pose proof (shows_line _ _ (L_fnEntry (ab_last a) x) ts Hs) as Hs2. by destruct Hs2; split. }
    destruct (started _ _ Hm Hs3) as (c' & E & _ & _ & Hrd). eexists. split; [exact E|]. by apply Hrd.
  - match goal with |- exists s', startCnts (?c', ?l') = _ /\ _ =>
      assert (shows (addLine (L_fnExit (ab_last a) x) (setLast x a)) (c', l')) as Hs3 end.
    { pose proof (shows_line _ _ (L_fnExit (ab_last a) x) ts Hs) as Hs2. by destruct Hs2; split. }
    destruct (started _ _ Hm Hs3) as (c' & E & _ & _ & Hrd). eexists. split; [exact E|]. by apply Hrd.
Qed.

(** ** Records *)

Definition countWords (d : Z) : list (Z * Z) :=
  (0, u32 d) :: (if Z.shiftr d 32 =? 0 then [] else [(2, u16 (Z.shiftr d 32))]).

Definition addCounts (pc : Z) (ids : list (Z * Z)) (a : Perfs) : Perfs :=
  foldl (fun a id => addCount pc id.1 id.2 a) a ids.

Lemma offset_ok off : base mod 4 = 0 -> 0 <= off < 4 -> Z.land (base + off) 3 = off.
Proof. intros Hb Ho. change 3 with (Z.ones 2). rewrite Z.land_ones by lia. change (2 ^ 2) with 4. dlia. Qed.

Lemma joined_count d : 0 <= d < 2 ^ 48 -> joined (u16 (Z.shiftr d 32)) (u32 d) = d.
Proof.
  intros Hd. unfold joined. assert (u16 (Z.shiftr d 32) = Z.shiftr d 32) as ->.
  { apply Z.mod_small. rewrite Z.shiftr_div_pow2 by lia. dlia. }
  apply rejoin.
Qed.

Lemma count_takes pc i js a d : base mod 4 = 0 -> 0 <= d < 2 ^ 48 ->
  takes (ready pc (i :: js) a) (countWords d) (ready pc js (addCount pc i d a)).
Proof.
  intros Hb Hd. unfold countWords. destruct (Z.eqb_spec (Z.shiftr d 32) 0) as [H|H].
  - apply takes_one. intros s ts Hs.
    destruct (count_low pc i js a s ts (base + 0) (u32 d) Hs (offset_ok 0 Hb ltac:(lia))) as (s' & E & Hp & ->).
    exists s'. split; [done|]. assert (u32 d = d) as Ed.
    { apply Z.mod_small. rewrite Z.shiftr_div_pow2 in H by lia. dlia. }
    rewrite Ed in Hp. by apply pending_ready.
  - apply (takes_app _ (fun s => pendingAt pc i (u32 d) a s /\ js = cntrsFrom mask (i + 1)) _ [_] [_]);
      apply takes_one; intros s ts Hs.
    + by apply count_low, offset_ok.
    + destruct Hs as [Hp ->].
      destruct (count_high pc i a s ts (base + 2) (u32 d) (u16 (Z.shiftr d 32)) Hp (offset_ok 2 Hb ltac:(lia)))
        as (s' & E & Hr).
      rewrite joined_count in Hr by done. eauto.
Qed.

Lemma counts_takes pc js : forall a ds, base mod 4 = 0 -> length ds = length js ->
  Forall (fun d => 0 <= d < 2 ^ 48) ds ->
  takes (ready pc js a) (concat (countWords <$> ds)) (ready pc [] (addCounts pc (zip js ds) a)).
Proof.
  induction js as [|i js IH]; intros a [|d ds] Hb Hl Hd; try done.
  - by apply takes_nil.
  - apply List.Forall_cons_iff in Hd as [Hd Hds]. cbn [fmap list_fmap concat zip zip_with addCounts foldl].
    eapply takes_app; [by apply count_takes|]. apply IH; [done|by simplify_eq/=|done].
Qed.

(** A record: its type, the address, that of the call site, and what is written of the
    counters. *)
Record PerfRecord := { rc_type : Z; rc_fn : Z; rc_cs : Z; rc_counts : list Z }.

Definition recordWords (r : PerfRecord) : list (Z * Z) :=
  (3, rc_type r) :: addrWords (rc_fn r) ++
  (if isFunc (rc_type r) then addrWords (rc_cs r) else []) ++ concat (countWords <$> rc_counts r).

(** The lines of a record. *)
Definition takeRecord (r : PerfRecord) (a : Perfs) : Perfs :=
  let x := fromLast (ab_last a) (rc_fn r) in
  let next := fromLast x (rc_cs r) in
  let '(pc, a) :=
    if rc_type r =? perfRecord_FuncEnter then (x, addLine (L_fnEntry x next) (setLast next a))
    else if rc_type r =? perfRecord_FuncExit then (next, addLine (L_fnExit x next) (setLast next a))
    else (x, addLine (L_addr x) (setLast x a)) in
  addCounts pc (zip (cntrsFrom mask 0) (rc_counts r)) a.

(** Addresses are even, and counts have 48 bits. *)
Record record_ok (r : PerfRecord) : Prop := {
  ro_type : 0 <= rc_type r < 256;
  ro_fn : 0 <= rc_fn r < 2 ^ 64 /\ rc_fn r mod 2 = 0;
  ro_cs : 0 <= rc_cs r < 2 ^ 64 /\ rc_cs r mod 2 = 0;
  ro_length : length (rc_counts r) = length (cntrsFrom mask 0);
  ro_counts : Forall (fun d => 0 <= d < 2 ^ 48) (rc_counts r);
}.

Lemma addLine_setLast x n m a : addLine x (setLast n (setLast m a)) = addLine x (setLast n a).
Proof. done. Qed.

Lemma record_takes r pc a : 0 <= mask < 2 ^ 32 -> base mod 4 = 0 -> record_ok r ->
  takes (ready pc [] a) (recordWords r) (fun s => exists pc, ready pc [] (takeRecord r a) s).
Proof.
  intros Hm Hb []. unfold recordWords. set (rt := rc_type r) in *. set (x := fromLast (ab_last a) (rc_fn r)).
  set (Pre := fun s : St => shows a s /\ pf_state s.1 = perfStateGetAddr /\ pf_recordType s.1 = rt).
  assert (takes (ready pc [] a) [(3, rt)] (fun s => Pre s /\ pf_valuePending s.1 = false)) as H1.
  { apply takes_one. intros s ts Hs.
    destruct (record_type pc a s ts (base + 3) rt Hs (offset_ok 3 Hb ltac:(lia))) as (s' & E & ? & ? & ? & Hr).
    exists s'. split; [done|]. unfold u8, wrap in Hr. by rewrite Z.mod_small in Hr by done. }
  assert (takes (fun s => Pre s /\ pf_valuePending s.1 = false) (addrWords (rc_fn r)) (fun s =>
    if isFunc rt then (shows (setLast x a) s /\ pf_state s.1 = perfStateGetCallSite /\ pf_recordType s.1 = rt) /\
                      pf_valuePending s.1 = false
    else ready x (cntrsFrom mask 0) (addLine (L_addr x) (setLast x a)) s)) as H2.
  { apply (address_takes perfStateGetAddr (gotAddr core)); try tauto.
    - intros ts addr d c l E. unfold perfTurn. by rewrite bind_get, E.
    - intros s H. apply H.
    - intros s b w (Hs & ? & ?). split; [by destruct Hs; split|done].
    - intros s ts (Hs & _ & Hr). destruct (gotAddr_spec rt a (rc_fn r) s ts Hm Hs Hr) as (s' & E & H).
      exists s'. split; [done|]. destruct (isFunc rt); [|done]. tauto. }
  change ((3, rt) :: ?l) with ([(3, rt)] ++ l). eapply takes_app; [exact H1|]. eapply takes_app; [exact H2|].
  unfold takeRecord. fold rt x. destruct (isFunc rt) eqn:Hf.
  - set (y := fromLast x (rc_cs r)). eapply takes_app.
    + apply (address_takes perfStateGetCallSite (gotCallSite core) _ (fun s =>
        if rt =? perfRecord_FuncEnter
        then ready x (cntrsFrom mask 0) (addLine (L_fnEntry x y) (setLast y a)) s
        else ready y (cntrsFrom mask 0) (addLine (L_fnExit x y) (setLast y a)) s)); try tauto.
      * intros ts addr d c l E. unfold perfTurn. by rewrite bind_get, E.
      * intros s b w (Hs & ? & ?). split; [by destruct Hs; split|done].
      * intros s ts (Hs & _ & Hr). exact (gotCallSite_spec rt (setLast x a) (rc_cs r) s ts Hm Hs Hr Hf).
    + unfold isFunc in Hf. destruct (rt =? perfRecord_FuncEnter).
      * eapply takes_weaken; [done| |by apply counts_takes]. by intros s H; exists x.
      * cbn [orb] in Hf. rewrite Hf. eapply takes_weaken; [done| |by apply counts_takes]. by intros s H; exists y.
  - apply orb_false_iff in Hf as [-> ->]. cbn [app].
    eapply takes_weaken; [done| |by apply counts_takes]. by intros s H; exists x.
Qed.

Definition takeRecords (rs : list PerfRecord) (a : Perfs) : Perfs := foldl (fun a r => takeRecord r a) a rs.

Lemma records_takes rs : forall pc a, 0 <= mask < 2 ^ 32 -> base mod 4 = 0 -> Forall record_ok rs ->
  takes (ready pc [] a) (concat (recordWords <$> rs)) (fun s => exists pc, ready pc [] (takeRecords rs a) s).
Proof.
  induction rs as [|r rs IH]; intros pc a Hm Hb Hrs.
  - apply takes_nil. intros s Hs. by exists pc.
  - apply List.Forall_cons_iff in Hrs as [Hr Hrs]. cbn [fmap list_fmap concat takeRecords foldl].
    eapply takes_app; [by apply record_takes|]. intros s ms [pc' Hs] Hms.
    exact (IH pc' (takeRecord r a) Hm Hb Hrs s ms Hs Hms).
Qed.

(** ** The definitions of the counters *)

Record CntrDef := { df_type : Z; df_code : Z; df_eventData : Z; df_info : Z }.

Definition def_ok (e : CntrDef) : Prop :=
  (df_type e = 0 \/ df_type e = 1) /\ df_eventData e = 0 \/
  df_type e = 2 /\ df_code e = 0 /\ 0 <= df_eventData e < 2 ^ 64.
Definition defWords (e : CntrDef) : list (Z * Z) :=
  if df_type e =? 2
  then [(0, 2); (0, u32 (df_eventData e)); (0, Z.shiftr (df_eventData e) 32); (0, df_info e)]
  else [(0, df_type e); (0, df_code e); (0, df_info e)].
Definition defLine (i : Z) (e : CntrDef) : PerfLine :=
  L_cntrDef i (df_type e) (df_code e) (df_eventData e) (df_info e).

(** The next counter that is to be defined is the first one of [js]. *)
Definition defining (js : list Z) (a : Perfs) (s : St) : Prop :=
  shows a s /\ pf_valuePending s.1 = false /\
  ((js = [] /\ pf_state s.1 = perfStateGetCntrRecord) \/
   exists i, js = i :: cntrsFrom mask (i + 1) /\ pf_state s.1 = perfStateGetCntrDef /\
     pf_cntrMaskIndex s.1 = i /\ 0 <= i < 32).

(** In the middle of a definition. *)
Definition inDef (st : PerfState) (i : Z) (e : CntrDef) (a : Perfs) (s : St) : Prop :=
  shows a s /\ pf_valuePending s.1 = false /\ pf_state s.1 = st /\ pf_cntrMaskIndex s.1 = i /\ 0 <= i < 32 /\
  pf_cntrType s.1 = df_type e /\
  match st with
  | perfStateGetCntrCode => pf_cntrEventData s.1 = df_eventData e
  | perfStateGetCntrEventData => pf_cntrCode s.1 = df_code e
  | _ => pf_cntrCode s.1 = df_code e /\ pf_cntrEventData s.1 = df_eventData e
  end.

Lemma info_takes i e a : takes (inDef perfStateGetCntrInfo i e a) [(0, df_info e)]
  (defining (cntrsFrom mask (i + 1)) (addLine (defLine i e) a)).
Proof.
  apply takes_one. intros [c l] ts (Hs & Hp & Hst & Hi & Hj & Ht & Hc & He). cbn in Hp, Hst, Hi, Ht, Hc, He.
  assert (exists s', perfTurn marker core ts (base + 0) (df_info e) (c, l) = Ok s' true /\
    defining (cntrsFrom mask (i + 1)) (addLine (defLine i e) a) s') as (s' & E & H');
    [|exists s'; split; [by apply loop_consumed|done]].
  unfold perfTurn. rewrite bind_get, Hst, Hi, Ht, Hc, He. unfold perfLine. rewrite bind_modify.
  erewrite bind_ok by (apply (advance_spec _ _ i); [by destruct Hs|done|done]).
  pose proof (shows_line _ _ (defLine i e) ts Hs) as Hs2. cbn [fst snd] in Hs2.
  eexists. split; [reflexivity|]. split; [by destruct Hs2; split|]. split; [exact Hp|].
  destruct (cntrsFrom mask (i + 1)) as [|j js] eqn:En; cbn [bool_decide negb]; [by left|]. right. exists j.
  destruct (cntrsFrom_head mask (i + 1) j js ltac:(lia) En) as (Hj' & Hb' & -> & Hn).
  split; [done|]. cbn -[nextCntr]. split_and!; done || lia.
Qed.

Lemma def_takes i js e a : def_ok e ->
  takes (defining (i :: js) a) (defWords e) (defining js (addLine (defLine i e) a)).
Proof.
  intros He. assert (forall s, defining (i :: js) a s -> js = cntrsFrom mask (i + 1)) as Hjs
    by (intros s (_ & _ & [[[=] _]|(j & [= -> ->] & _)]); done).
  enough (js = cntrsFrom mask (i + 1) -> takes (defining (i :: js) a) (defWords e) (defining js (addLine (defLine i e) a))) as H
    by (intros s ms Hs Hms; exact (H (Hjs s Hs) s ms Hs Hms)).
  intros ->. unfold defWords. destruct He as [[Hty Hed]|(Hty & Hco & Hed)].
  - assert ((df_type e =? 2) = false) as -> by (destruct Hty as [-> | ->]; done).
    apply (takes_app _ (inDef perfStateGetCntrCode i e a) _ [_] [_; _]).
    + apply takes_one. intros [c l] ts (Hs & Hp & [[[=] _]|(j & [= <-] & Hst & Hi & Hj)]). cbn in Hp, Hst, Hi.
      exists (set_pf_state perfStateGetCntrCode (set_pf_cntrEventData 0 (set_pf_cntrType (df_type e) c)), l).
      split; [apply loop_consumed; unfold perfTurn; rewrite bind_get, Hst; by destruct Hty as [-> | ->]|].
      split; [by destruct Hs; split|]. cbn. by rewrite Hed.
    + apply (takes_app _ (inDef perfStateGetCntrInfo i e a) _ [_] [_]); [|apply info_takes].
      apply takes_one. intros [c l] ts (Hs & Hp & Hst & Hi & Hj & Ht & Hc). cbn in Hp, Hst, Hi, Ht, Hc.
      eexists. split; [apply loop_consumed; unfold perfTurn; rewrite bind_get, Hst; reflexivity|].
      split; [by destruct Hs; split|]. done.
  - rewrite Hty. cbn [Z.eqb Pos.eqb].
    apply (takes_app _ (inDef perfStateGetCntrEventData i e a) _ [_] [_; _; _]).
    + apply takes_one. intros [c l] ts (Hs & Hp & [[[=] _]|(j & [= <-] & Hst & Hi & Hj)]). cbn in Hp, Hst, Hi.
      eexists. split; [apply loop_consumed; unfold perfTurn; rewrite bind_get, Hst; reflexivity|].
      split; [by destruct Hs; split|]. cbn. by rewrite Hty, Hco.
    + apply (takes_app _ (fun s => shows a s /\ pf_valuePending s.1 = true /\ pf_savedLow32 s.1 = u32 (df_eventData e) /\
        pf_state s.1 = perfStateGetCntrEventData /\ pf_cntrMaskIndex s.1 = i /\ 0 <= i < 32 /\
        pf_cntrType s.1 = df_type e /\ pf_cntrCode s.1 = df_code e) _ [_] [_; _]).
      * apply takes_one. intros [c l] ts (Hs & Hp & Hst & Hi & Hj & Ht & Hc). cbn in Hp, Hst, Hi, Ht, Hc.
        eexists. split; [apply loop_consumed; unfold perfTurn; rewrite bind_get, Hst, Hp; reflexivity|].
        split; [by destruct Hs; split|]. done.
      * apply (takes_app _ (inDef perfStateGetCntrInfo i e a) _ [_] [_]); [|apply info_takes].
        apply takes_one. intros [c l] ts (Hs & Hp & Hv & Hst & Hi & Hj & Ht & Hc). cbn in Hp, Hv, Hst, Hi, Ht, Hc.
        eexists. split; [apply loop_consumed; unfold perfTurn, joined; rewrite bind_get, Hst, Hp, Hv; reflexivity|].
        split; [by destruct Hs; split|]. cbn. split_and!; try done; try lia. apply rejoin.
Qed.

Definition defLines (js : list Z) (es : list CntrDef) (a : Perfs) : Perfs :=
  foldl (fun a ie => addLine (defLine ie.1 ie.2) a) a (zip js es).

Lemma defs_takes js : forall es a, length es = length js -> Forall def_ok es ->
  takes (defining js a) (concat (defWords <$> es)) (defining [] (defLines js es a)).
Proof.
  induction js as [|j js IH]; intros [|e es] a Hl He; try done.
  - by apply takes_nil.
  - apply List.Forall_cons_iff in He as [He Hes]. cbn [fmap list_fmap concat defLines zip zip_with foldl].
    eapply takes_app; [by apply def_takes|]. apply IH; [by simplify_eq/=|done].
Qed.

(** ** From the marker on *)

Definition fresh (s : St) : Prop :=
  pf_state s.1 = perfStateSync /\ pf_valuePending s.1 = false /\ pf_lastCount s.1 = None /\ s.2 = [].

Definition started_lines : Perfs := {|
  ab_last := 0; ab_counts := replicate 32 0; ab_lines := [L_cntType ct; L_cntrMask mask] |}.

Lemma header_takes : 0 <= mask < 2 ^ 32 -> base mod 4 = 0 -> 0 <= ct <= 2 ->
  takes fresh [(0, marker); (3, ct); (0, mask)] (defining (cntrsFrom mask 0) started_lines).
Proof.
  intros Hm Hb Hct. set (l1 := [L_cntType ct]).
  apply (takes_app _ (fun s => pf_state s.1 = perfStateGetCntType /\ pf_valuePending s.1 = false /\
    pf_lastAddress s.1 = 0 /\ pf_lastCount s.1 = None /\ s.2 = []) _ [_] [_; _]).
  { apply takes_one. intros [c l] ts (Hst & Hp & Hl & Hn). cbn in Hst, Hp, Hl, Hn. eexists. split.
    - apply loop_consumed. unfold perfTurn. rewrite bind_get, Hst, Z.eqb_refl. reflexivity.
    - done. }
  apply (takes_app _ (fun s => pf_state s.1 = perfStateGetCntrMask /\ pf_valuePending s.1 = false /\
    pf_lastAddress s.1 = 0 /\ pf_lastCount s.1 = None /\ pf_cntType s.1 = ct /\ s.2.*2 = l1) _ [_] [_]).
  { apply takes_one. intros [c l] ts (Hst & Hp & Ha & Hl & Hn). cbn in Hst, Hp, Ha, Hl, Hn. eexists. split.
    - apply loop_consumed. unfold perfTurn. rewrite bind_get, Hst, offset_ok by lia.
      assert ((ct =? perfCount_Raw) || (ct =? perfCount_Delta) || (ct =? perfCount_DeltaXOR) = true) as ->
        by (unfold perfCount_Raw, perfCount_Delta, perfCount_DeltaXOR; lia).
      assert (u8 ct = ct) as -> by (apply Z.mod_small; lia). reflexivity.
    - cbn. by rewrite Hn. }
  apply takes_one. intros [c l] ts (Hst & Hp & Ha & Hl & Ht & Hn). cbn in Hst, Hp, Ha, Hl, Ht, Hn.
  assert (exists s', perfTurn marker core ts (base + 0) mask (c, l) = Ok s' true /\
    defining (cntrsFrom mask 0) started_lines s') as (s' & E & H'); [|exists s'; split; [by apply loop_consumed|done]].
  unfold perfTurn. rewrite bind_get, Hst, offset_ok, Z.eqb_refl, Ht by lia. unfold updPerf, perfLine.
  rewrite !bind_modify. destruct (Z.eqb_spec mask 0) as [H0|H0].
  - eexists. split; [reflexivity|]. split; [|split; [done|by left; split; [rewrite H0; vm_compute|]]].
    split; try done. cbn. by rewrite fmap_app, Hn.
  - destruct (nextCntr_spec mask 32 0 ltac:(lia) ltac:(lia)) as [_ Hnext]. unfold firstCntr. cbn zeta.
    destruct (cntrsFrom mask 0) as [|j js] eqn:En; [by apply cntrsFrom_nil in En|].
    destruct (cntrsFrom_head mask 0 j js ltac:(lia) En) as (Hj & _ & -> & ->).
    assert ((j <? 32) = true) as -> by (apply Z.ltb_lt; lia).
    exists (set_pf_state perfStateGetCntrDef (set_pf_cntrMaskIndex j
      (if ct =? perfCount_DeltaXOR then set_pf_lastCount (Some (replicate 32 0)) (set_pf_cntrMask mask c)
       else set_pf_cntrMask mask c)), l ++ [(core, ts, L_cntrMask mask)]).
    split; [destruct c; cbn in Hl; rewrite Hl; by destruct (ct =? perfCount_DeltaXOR)|].
    split; [|split; [by destruct (ct =? perfCount_DeltaXOR)|right; exists j; by destruct (ct =? perfCount_DeltaXOR)]].
    split; try (by destruct (ct =? perfCount_DeltaXOR)); cbn; [by rewrite fmap_app, Hn|].
    intros -> _. done.
Qed.

Definition streamWords (es : list CntrDef) (rs : list PerfRecord) : list (Z * Z) :=
  [(0, marker); (3, ct); (0, mask)] ++ concat (defWords <$> es) ++ concat (recordWords <$> rs).

Definition expected (es : list CntrDef) (rs : list PerfRecord) : Perfs :=
  takeRecords rs (defLines (cntrsFrom mask 0) es started_lines).

Lemma stream_takes es rs : 0 <= mask < 2 ^ 32 -> base mod 4 = 0 -> 0 <= ct <= 2 ->
  length es = length (cntrsFrom mask 0) -> Forall def_ok es -> Forall record_ok rs ->
  takes fresh (streamWords es rs) (fun s => exists pc, ready pc [] (expected es rs) s).
Proof.
  intros Hm Hb Hct Hl He Hr. eapply takes_app; [by apply header_takes|].
  eapply takes_app; [by apply defs_takes|]. refine (takes_weaken _ _ _ _ _ _ (fun s H => H) (records_takes rs 0 _ Hm Hb Hr)).
  intros s (Hs & _ & [[_ H]|(i & [=] & _)]). by left.
Qed.

(** Only the line of a last count may be missing. *)
Lemma ready_lines pc a s : ready pc [] a s -> exists o, s.2.*2 ++ option_list o = ab_lines a.
Proof.
  intros [(_ & Hs & _)|[(i & [=] & _)|(i & d & a0 & _ & (Hs & _) & ->)]].
  - exists None. rewrite (sh_lines _ _ Hs). by rewrite app_nil_r.
  - eexists (Some _). rewrite (sh_lines _ _ Hs). reflexivity.
Qed.
End reader.

(** ** The converter *)

(** The messages of the writes of a core, each with a time: the number of those that
    were consumed. *)
Fixpoint convert (core channel : Z) (ms : list (Z * (Z * Z))) : M PerfConverter DQErr nat :=
  match ms with
  | [] => mret O
  | (ts, (off, d)) :: ms =>
      b ← processITCPerf core ts (channel * 4 + off) d;
      n ← convert core channel ms;
      mret (if b : bool then S n else n)
  end.

Lemma convert_run core channel ms : 0 <= core < DQR_MAXCORES -> 0 <= channel < 2 ^ 30 - 1 ->
  Forall (fun m : Z * (Z * Z) => 0 <= m.2.1 < 4) ms -> forall p c c' l,
  pc_perfChannel p = channel -> pc_cores p !! Z.to_nat core = Some c ->
  run (pc_markerValue p) core (channel * 4) ms (c, pc_lines p) = Ok (c', l) tt ->
  convert core channel ms p =
    Ok (set_perfLines l (set_perfCores (<[Z.to_nat core := c']> (pc_cores p)) p)) (length ms).
Proof.
  intros Hcore Hch. induction ms as [|[ts [off d]] ms IH]; intros Hms p c c' l Hp Hc Hr.
  - cbn in Hr. injection Hr as -> <-. cbn [convert length]. unfold mret, M_ret. f_equal.
    rewrite list_insert_id by done. by destruct p.
  - apply List.Forall_cons_iff in Hms as [Hoff Hms]. cbn in Hoff. cbn [run] in Hr.
    apply bind_inv in Hr as ([c1 l1] & b & E & Hr). destruct b; [|done]. cbn [convert length].
    assert (processITCPerf core ts (channel * 4 + off) d p =
      Ok (set_perfLines l1 (set_perfCores (<[Z.to_nat core := c1]> (pc_cores p)) p)) true) as Ep.
    { change (processITCPerf core ts (channel * 4 + off) d p) with (perfProcess core ts (channel * 4 + off) d p).
      unfold perfProcess. rewrite Hp. unfold u32, wrap. rewrite !Z.mod_small by lia.
      assert ((channel * 4 + off <? channel * 4) || ((channel + 1) * 4 <=? channel * 4 + off) = false) as ->
        by (apply orb_false_iff; split; [apply Z.ltb_ge|apply Z.leb_gt]; lia).
      by rewrite Hc, E. }
    rewrite (bind_ok _ _ _ _ _ Ep).
    assert (Z.to_nat core < length (pc_cores p))%nat as Hlt by (by eapply lookup_lt_Some).
    erewrite bind_ok.
    2: { apply (IH Hms _ c1); [done| |exact Hr]. cbn. by rewrite list_lookup_insert_eq. }
    unfold mret, M_ret. f_equal. unfold set_perfLines, set_perfCores. cbn. by rewrite list_insert_insert_eq.
Qed.

(** ** The writer *)

Section writer.
Context (cf : PerfConfig).

#[local] Abbreviation mask := (pw_cntrMask cf).
#[local] Abbreviation ct := (pw_countType cf).

Definition noEvent : PerfEvent := {| pe_type := 0; pe_code := 0; pe_event_data := 0; pe_ctrInfo := 0 |}.
Definition eventOf (i : Z) : PerfEvent := nth (Z.to_nat i) (pw_cntrLst cf) noEvent.

(** What is written of counter [i]. *)
Definition defOf (i : Z) : CntrDef :=
  let e := eventOf i in
  if pe_type e =? 2 then
    {| df_type := 2; df_code := 0; df_eventData := pe_event_data e;
       df_info := if i =? 1 then u32 (Z.shiftl (u32 (Z.shiftr (pw_masterTsControl cf) 24 - 1)) 12)
                  else u32 (pe_ctrInfo e) |}
  else {| df_type := pe_type e; df_code := u32 (pe_code e); df_eventData := 0; df_info := u32 (pe_ctrInfo e) |}.

(** A mask of 32 bits, pointers of 32 or 64, a type and an event for each counter. *)
Record config_ok : Prop := {
  ok_mask : 0 <= mask < 2 ^ 32;
  ok_type : 0 <= ct <= 2;
  ok_xlen : pw_xlen cf = 32 \/ pw_xlen cf = 64;
  ok_events : Forall (fun i => (Z.to_nat i < length (pw_cntrLst cf))%nat /\ 0 <= pe_type (eventOf i) <= 2 /\
                               0 <= pe_event_data (eventOf i) < 2 ^ pw_xlen cf) (cntrsFrom mask 0);
}.

Lemma high_word a : pw_xlen cf = 32 \/ pw_xlen cf = 64 -> 0 <= a < 2 ^ pw_xlen cf ->
  (if 32 <? pw_xlen cf then u32 (Z.shiftr a 32) else 0) = Z.shiftr a 32.
Proof.
  intros [-> | ->] Ha; cbn [Z.ltb Z.compare Pos.compare Pos.compare_cont]; rewrite Z.shiftr_div_pow2 by lia.
  - symmetry. by apply Z.div_small.
  - apply Z.mod_small. dlia.
Qed.

Lemma writeAddr_spec a prev ws : pw_xlen cf = 32 \/ pw_xlen cf = 64 -> 0 <= a < 2 ^ pw_xlen cf ->
  writeAddr cf a {| pw_prevCntrVal := prev; pw_writes := ws |} =
    Ok {| pw_prevCntrVal := prev; pw_writes := ws ++ addrWords a |} tt.
Proof.
  intros Hx Ha. unfold writeAddr, addrWords. rewrite high_word by done.
  assert (0 <= a < 2 ^ 64) as Ha' by (destruct Hx as [E|E]; rewrite E in Ha; lia).
  assert (Z.shiftr a 32 = 0 <-> a < 2 ^ 32) as Hz by (rewrite Z.shiftr_div_pow2 by lia; dlia).
  destruct (Z.eqb_spec (Z.shiftr a 32) 0) as [H|H], (Z.ltb_spec a (2 ^ 32)); try tauto; try (apply Hz in H; lia).
  - unfold u32, wrap. by rewrite Z.mod_small by lia.
  - unfold stimulus. rewrite bind_modify. unfold modify. cbn. by rewrite <-app_assoc.
Qed.

Lemma emitDef_spec i prev ws : config_ok -> In i (cntrsFrom mask 0) ->
  emitDef cf i {| pw_prevCntrVal := prev; pw_writes := ws |} =
    Ok {| pw_prevCntrVal := prev; pw_writes := ws ++ defWords (defOf i) |} tt /\ def_ok (defOf i).
Proof.
  intros [_ _ Hx He] Hi. rewrite List.Forall_forall in He. destruct (He i Hi) as (Hl & Ht & Hd).
  assert (pw_cntrLst cf !! Z.to_nat i = Some (eventOf i)) as E.
  { destruct (lookup_lt_is_Some_2 _ _ Hl) as [e Ee]. unfold eventOf. by rewrite (nth_lookup_Some _ _ _ _ Ee). }
  unfold emitDef, defOf. cbn zeta. rewrite E, lift_bind. unfold stimulus.
  assert (pe_type (eventOf i) = 0 \/ pe_type (eventOf i) = 1 \/ pe_type (eventOf i) = 2) as [Et|[Et|Et]] by lia;
    rewrite Et; cbn [Z.eqb Pos.eqb].
  1, 2: split; [rewrite !bind_modify; unfold modify; cbn; by rewrite <-!app_assoc|left; cbn; tauto].
  split.
  - rewrite !bind_modify. unfold modify. cbn [pw_prevCntrVal pw_writes]. rewrite <-!app_assoc.
    unfold defWords. cbn [df_type df_eventData df_info Z.eqb Pos.eqb app]. by rewrite high_word.
  - right. cbn. split; [done|split; [done|]]. destruct Hx as [Ex|Ex]; rewrite Ex in Hd; lia.
Qed.

Lemma emitDefs_spec js : config_ok -> (forall i, In i js -> In i (cntrsFrom mask 0)) -> forall prev ws,
  foldr (fun j m => emitDef cf j ≫= fun _ => m) (mret tt) js {| pw_prevCntrVal := prev; pw_writes := ws |} =
    Ok {| pw_prevCntrVal := prev; pw_writes := ws ++ concat (defWords <$> (defOf <$> js)) |} tt.
Proof.
  intros Hok. induction js as [|j js IH]; intros Hin prev ws; cbn [foldr fmap list_fmap concat].
  - by rewrite app_nil_r.
  - destruct (emitDef_spec j prev ws Hok (Hin j (or_introl eq_refl))) as [E _].
    rewrite (bind_ok _ _ _ _ _ E), IH by (intros i Hi; apply Hin; by right). by rewrite <-app_assoc.
Qed.

Lemma perfEmitMarker_spec prev ws : config_ok ->
  perfEmitMarker cf {| pw_prevCntrVal := prev; pw_writes := ws |} =
    Ok {| pw_prevCntrVal := prev;
          pw_writes := ws ++ [(0, pw_markerVal cf); (3, ct); (0, mask)] ++
                       concat (defWords <$> (defOf <$> cntrsFrom mask 0)) |} tt.
Proof.
  intros Hok. unfold perfEmitMarker, stimulus. rewrite !bind_modify. cbn [pw_prevCntrVal pw_writes].
  rewrite (overMask_all (emitDef cf) mask) by apply Hok. rewrite emitDefs_spec by done. rewrite <-!app_assoc.
  assert (u8 ct = ct) as -> by (apply Z.mod_small; destruct Hok; lia). done.
Qed.

(** What is written of a counter, and what is kept of it. *)
Definition countOf (en : Counters) (p : list Z) (i : Z) : option (Z * list Z) :=
  let new := hpm_read_counter en i in
  if ct =? perfCount_Raw then Some (new, p)
  else old ← p !! Z.to_nat i; d ← countDelta cf i new old; Some (d, <[Z.to_nat i := new]> p).
Fixpoint countsOf (en : Counters) (js : list Z) (p : list Z) : option (list Z * list Z) :=
  match js with
  | [] => Some ([], p)
  | i :: js => '(d, p) ← countOf en p i; '(ds, p) ← countsOf en js p; Some (d :: ds, p)
  end.

(** A call of the tracing functions: the counters, the type, the address, the call
    site. *)
Definition Call : Type := Counters * Z * Z * Z.
Fixpoint recordsOf (calls : list Call) (p : list Z) : option (list PerfRecord) :=
  match calls with
  | [] => Some []
  | (en, rt, fn, cs) :: calls =>
      '(ds, p) ← countsOf en (cntrsFrom mask 0) p;
      rs ← recordsOf calls p;
      Some ({| rc_type := rt; rc_fn := fn; rc_cs := cs; rc_counts := ds |} :: rs)
  end.

Definition call_ok (c : Call) : Prop :=
  let '(en, rt, fn, cs) := c in
  0 <= rt < 256 /\ 0 <= fn < 2 ^ pw_xlen cf /\ fn mod 2 = 0 /\ 0 <= cs < 2 ^ pw_xlen cf /\ cs mod 2 = 0.

Lemma set_prev_spec i x p ws : 0 <= i < 32 ->
  set_prev i x {| pw_prevCntrVal := Some p; pw_writes := ws |} =
    Ok {| pw_prevCntrVal := Some (<[Z.to_nat i := x]> p); pw_writes := ws |} tt.
Proof.
  intros Hi. unfold set_prev. rewrite bind_get. cbn [pw_prevCntrVal]. rewrite lift_bind.
  by assert ((i <? PERF_MAX_CNTRS) = true) as -> by (apply Z.ltb_lt; apply Hi).
Qed.

Lemma writeCount_spec en p i d p' ws : countOf en p i = Some (d, p') -> 0 <= i < 32 ->
  writeCount cf en i {| pw_prevCntrVal := Some p; pw_writes := ws |} =
    Ok {| pw_prevCntrVal := Some p'; pw_writes := ws ++ countWords d |} tt.
Proof.
  intros E Hi. unfold countOf in E. cbn zeta in E. unfold writeCount. rewrite bind_get. cbn [pw_prevCntrVal].
  assert (forall t, (stimulus 0 (u32 d) ≫= fun _ => let d0 := Z.shiftr d 32 in
      if d0 =? 0 then mret tt else stimulus 2 (u16 d0)) {| pw_prevCntrVal := Some t; pw_writes := ws |} =
    Ok {| pw_prevCntrVal := Some t; pw_writes := ws ++ countWords d |} tt) as Hw.
  { intros t. unfold stimulus. rewrite bind_modify. cbn zeta. unfold countWords.
    destruct (Z.shiftr d 32 =? 0); [done|]. unfold modify. cbn. by rewrite <-app_assoc. }
  destruct (ct =? perfCount_Raw) eqn:Er.
  - injection E as <- <-. rewrite lift_bind. unfold countDelta.
    apply Z.eqb_eq in Er. rewrite Er. cbn [Z.eqb perfCount_Raw perfCount_Delta perfCount_DeltaXOR].
    rewrite lift_bind, ret_bind. apply Hw.
  - destruct (p !! Z.to_nat i) as [old|] eqn:Eo; [|done]. cbn in E.
    destruct (countDelta cf i (hpm_read_counter en i) old) as [x|] eqn:Ed; [|done]. cbn in E.
    injection E as -> <-. cbn [mbind option_bind]. rewrite Eo, lift_bind, Ed, lift_bind.
    rewrite (bind_ok _ _ _ _ _ (set_prev_spec i _ p ws Hi)). apply Hw.
Qed.

Lemma writeCounts_spec en js : forall p ds p' ws, countsOf en js p = Some (ds, p') ->
  Forall (fun i => 0 <= i < 32) js ->
  foldr (fun j m => writeCount cf en j ≫= fun _ => m) (mret tt) js {| pw_prevCntrVal := Some p; pw_writes := ws |} =
    Ok {| pw_prevCntrVal := Some p'; pw_writes := ws ++ concat (countWords <$> ds) |} tt.
Proof.
  induction js as [|j js IH]; intros p ds p' ws E Hj; cbn [countsOf foldr] in *.
  - injection E as <- <-. by rewrite app_nil_r.
  - apply List.Forall_cons_iff in Hj as [Hj Hjs].
    destruct (countOf en p j) as [[d p1]|] eqn:E1; [|done]. cbn in E.
    destruct (countsOf en js p1) as [[ds1 p2]|] eqn:E2; [|done]. cbn in E. injection E as <- <-.
    rewrite (bind_ok _ _ _ _ _ (writeCount_spec en p j d p1 ws E1 Hj)), (IH _ _ _ _ E2 Hjs).
    by rewrite <-app_assoc.
Qed.

Lemma write_record_spec en rt fn cs p ds p' ws : config_ok -> call_ok (en, rt, fn, cs) ->
  countsOf en (cntrsFrom mask 0) p = Some (ds, p') ->
  write_trace_record cf en rt fn cs {| pw_prevCntrVal := Some p; pw_writes := ws |} =
    Ok {| pw_prevCntrVal := Some p';
          pw_writes := ws ++ recordWords {| rc_type := rt; rc_fn := fn; rc_cs := cs; rc_counts := ds |} |} tt.
Proof.
  intros [Hm _ Hx _] (Hr & Hf & _ & Hc & _) E. unfold write_trace_record, stimulus. rewrite bind_modify.
  assert (u8 rt = rt) as -> by (apply Z.mod_small; lia). cbn [pw_prevCntrVal pw_writes].
  rewrite (bind_ok _ _ _ _ _ (writeAddr_spec fn _ _ Hx Hf)). fold (isFunc rt).
  assert (forall ws, (if isFunc rt then writeAddr cf cs else mret tt) {| pw_prevCntrVal := Some p; pw_writes := ws |} =
    Ok {| pw_prevCntrVal := Some p; pw_writes := ws ++ (if isFunc rt then addrWords cs else []) |} tt) as Ec.
  { intros w. destruct (isFunc rt); [by apply writeAddr_spec|]. by rewrite app_nil_r. }
  rewrite (bind_ok _ _ _ _ _ (Ec _)), bind_get. cbn [pw_prevCntrVal].
  rewrite overMask_all, (writeCounts_spec en _ p ds p' _ E) by (done || by apply cntrsFrom_bounds).
  unfold recordWords. cbn [rc_type rc_fn rc_cs rc_counts]. by rewrite <-!app_assoc.
Qed.

(** The traced program. *)
Fixpoint writeCalls (calls : list Call) : M PerfTracer DQErr unit :=
  match calls with
  | [] => mret tt
  | (en, rt, fn, cs) :: calls => write_trace_record cf en rt fn cs ≫= fun _ => writeCalls calls
  end.

Lemma writeCalls_spec calls : config_ok -> Forall call_ok calls -> forall p rs ws, recordsOf calls p = Some rs ->
  exists prev, writeCalls calls {| pw_prevCntrVal := Some p; pw_writes := ws |} =
    Ok {| pw_prevCntrVal := prev; pw_writes := ws ++ concat (recordWords <$> rs) |} tt.
Proof.
  intros Hok. induction calls as [|[[[en rt] fn] cs] calls IH]; intros Hc p rs ws E; cbn [recordsOf] in E.
  - injection E as <-. exists (Some p). by rewrite app_nil_r.
  - apply List.Forall_cons_iff in Hc as [Hc Hcs].
    destruct (countsOf en (cntrsFrom mask 0) p) as [[ds p']|] eqn:E1; [|done]. cbn in E.
    destruct (recordsOf calls p') as [rs'|] eqn:E2; [|done]. cbn in E. injection E as <-.
    cbn [writeCalls]. rewrite (bind_ok _ _ _ _ _ (write_record_spec en rt fn cs p ds p' ws Hok Hc E1)).
    destruct (IH Hcs p' rs' (ws ++ recordWords {| rc_type := rt; rc_fn := fn; rc_cs := cs; rc_counts := ds |}) E2) as [prev ->].
    exists prev. by rewrite <-app_assoc.
Qed.

(** The values kept when tracing is turned on. *)
Definition initialCnts (en : Counters) (js : list Z) (p : list Z) : list Z :=
  foldl (fun p i => <[Z.to_nat i := if ct =? perfCount_Delta then hpm_read_counter en i else 0]> p) p js.

Lemma initialCnts_spec en js : forall p ws, Forall (fun i => 0 <= i < 32) js ->
  foldr (fun j m => set_prev j (if ct =? perfCount_Delta then hpm_read_counter en j else 0) ≫= fun _ => m)
    (mret tt) js {| pw_prevCntrVal := Some p; pw_writes := ws |} =
  Ok {| pw_prevCntrVal := Some (initialCnts en js p); pw_writes := ws |} tt.
Proof.
  induction js as [|j js IH]; intros p ws Hj; [done|]. apply List.Forall_cons_iff in Hj as [Hj Hjs].
  cbn [foldr]. rewrite (bind_ok _ _ _ _ _ (set_prev_spec j _ p ws Hj)). by apply IH.
Qed.

Definition program (en : Counters) (calls : list Call) : M PerfTracer DQErr unit :=
  perfTraceOn cf en ≫= fun _ => writeCalls calls.

Lemma program_spec en calls p rs : config_ok -> Forall call_ok calls ->
  recordsOf calls (initialCnts en (cntrsFrom mask 0) p) = Some rs ->
  exists prev, program en calls {| pw_prevCntrVal := Some p; pw_writes := [] |} =
    Ok {| pw_prevCntrVal := prev;
          pw_writes := streamWords (pw_markerVal cf) ct mask (defOf <$> cntrsFrom mask 0) rs |} tt.
Proof.
  intros Hok Hc E. unfold program, perfTraceOn. rewrite bind_assoc, (bind_ok _ _ _ _ _ (perfEmitMarker_spec _ _ Hok)).
  destruct (writeCalls_spec calls Hok Hc _ rs ([] ++ [(0, pw_markerVal cf); (3, ct); (0, mask)] ++
    concat (defWords <$> (defOf <$> cntrsFrom mask 0))) E) as [prev E2].
  exists prev. erewrite bind_ok.
  2: { unfold perfGetInitialCnts. rewrite overMask_all by apply Hok. apply initialCnts_spec. by apply cntrsFrom_bounds. }
  rewrite E2. unfold streamWords. by rewrite <-!app_assoc.
Qed.
End writer.

(** ** Writer and converter *)

Section trip.
Context (cf : PerfConfig) (core channel : Z) (other : PerfCore).
Context (Hok : config_ok cf) (Hcore : 0 <= core < DQR_MAXCORES) (Hch : 0 <= channel < 2 ^ 30 - 1).

#[local] Abbreviation mask := (pw_cntrMask cf).
#[local] Abbreviation ct := (pw_countType cf).
#[local] Abbreviation js := (cntrsFrom mask 0).
#[local] Abbreviation defs := (defOf cf <$> js).

Lemma offsets_ok es rs : Forall (fun w : Z * Z => 0 <= w.1 < 4) (streamWords (pw_markerVal cf) ct mask es rs).
Proof using Type.
  assert (forall a, Forall (fun w : Z * Z => 0 <= w.1 < 4) (addrWords a)) as Ha
    by (intros a; unfold addrWords; destruct (_ <? _); repeat constructor; cbn; lia).
  unfold streamWords. apply Forall_app. split; [repeat constructor; cbn; lia|]. apply Forall_app. split.
  - induction es as [|e es IH]; [constructor|]. cbn [fmap list_fmap concat]. apply Forall_app. split; [|done].
    unfold defWords. destruct (_ =? _); repeat constructor; cbn; lia.
  - induction rs as [|r rs IH]; [constructor|]. cbn [fmap list_fmap concat]. apply Forall_app. split; [|done].
    unfold recordWords. constructor; [cbn; lia|]. apply Forall_app. split; [done|]. apply Forall_app.
    split; [destruct (isFunc _); [done|constructor]|].
    induction (rc_counts r) as [|d ds IHd]; [constructor|]. cbn [fmap list_fmap concat]. apply Forall_app.
    split; [|done]. unfold countWords. constructor; [cbn; lia|]. destruct (_ =? _); repeat constructor; cbn; lia.
Qed.

Lemma countsOf_length en l : forall p ds p', countsOf cf en l p = Some (ds, p') -> length ds = length l.
Proof using Type.
  induction l as [|j l IH]; intros p ds p' E; cbn in E; [by injection E as <- _|].
  destruct (countOf cf en p j) as [[d p1]|]; [|done]. cbn in E.
  destruct (countsOf cf en l p1) as [[ds1 p2]|] eqn:E2; [|done]. cbn in E. injection E as <- _.
  cbn. f_equal. by eapply IH.
Qed.

Lemma recordsOf_ok calls : Forall (call_ok cf) calls -> forall p rs, recordsOf cf calls p = Some rs ->
  Forall (fun r => Forall (fun d => 0 <= d < 2 ^ 48) (rc_counts r)) rs -> Forall (record_ok mask) rs.
Proof using Hok.
  induction calls as [|[[[en rt] fn] cs] calls IH]; intros Hc p rs E Hb; cbn [recordsOf] in E.
  - injection E as <-. constructor.
  - apply List.Forall_cons_iff in Hc as [(Hr & Hf & Hfe & Hs & Hse) Hcs].
    destruct (countsOf cf en js p) as [[ds p']|] eqn:E1; [|done]. cbn in E.
    destruct (recordsOf cf calls p') as [rs'|] eqn:E2; [|done]. cbn in E. injection E as <-.
    apply List.Forall_cons_iff in Hb as [Hb Hbs]. constructor; [|by eapply IH].
    assert (2 ^ pw_xlen cf <= 2 ^ 64) as Hx by (destruct (ok_xlen _ Hok) as [-> | ->]; lia).
    split; cbn in *; try done; try lia. by eapply countsOf_length.
Qed.

(** Whatever the type of the counts is, the converter's lines are those of the records. *)
Lemma trip_lines en calls p rs : Forall (call_ok cf) calls ->
  recordsOf cf calls (initialCnts cf en js p) = Some rs ->
  Forall (fun r => Forall (fun d => 0 <= d < 2 ^ 48) (rc_counts r)) rs ->
  exists t, program cf en calls {| pw_prevCntrVal := Some p; pw_writes := [] |} = Ok t tt /\
  forall ms, ms.*2 = pw_writes t ->
  exists pc o, convert core channel ms (newPerfConverter channel (pw_markerVal cf) other) = Ok pc (length ms) /\
    (pc_lines pc).*2 ++ option_list o = ab_lines (expected ct mask defs rs).
Proof.
  intros Hc E Hb. destruct (program_spec cf en calls p rs Hok Hc E) as [prev Ep].
  eexists. split; [exact Ep|]. cbn [pw_writes]. intros ms Hms.
  assert (0 <= core) as H0 by lia.
  set (p0 := newPerfConverter channel (pw_markerVal cf) other).
  assert (pc_cores p0 !! Z.to_nat core = Some (newPerfCore other)) as Hlk
    by (apply lookup_replicate; split; [done|unfold DQR_MAXCORES in *; lia]).
  destruct (stream_takes (pw_markerVal cf) core ct mask (channel * 4) defs rs) with
    (s := (newPerfCore other, @nil (Z * Z * PerfLine))) (ms := ms) as ([c' l] & Er & (a & Hr)).
  - apply Hok.
  - apply Z.mod_mul. lia.
  - apply Hok.
  - by rewrite length_fmap.
  - apply List.Forall_forall. intros e (i & <- & Hi)%List.in_map_iff.
    by destruct (emitDef_spec cf i None [] Hok Hi).
  - by eapply recordsOf_ok.
  - done.
  - done.
  - destruct (ready_lines _ _ _ _ _ Hr) as [o Ho].
    exists (set_perfLines l (set_perfCores (<[Z.to_nat core := c']> (pc_cores p0)) p0)), o.
    split; [|exact Ho]. eapply (convert_run core channel ms Hcore Hch); [|done|exact Hlk|exact Er].
    apply List.Forall_forall. intros [ts w] Hin. pose proof (offsets_ok defs rs) as Hoff. rewrite <-Hms in Hoff.
    rewrite List.Forall_forall in Hoff. apply (Hoff w), List.in_map_iff. by exists (ts, w).
Qed.
End trip.

(** ** Counts that are read back as they were *)

Section values.
Context (cf : PerfConfig).

#[local] Abbreviation mask := (pw_cntrMask cf).
#[local] Abbreviation ct := (pw_countType cf).
#[local] Abbreviation js := (cntrsFrom mask 0).

(** The lines of a call, after the address [last]: the values of its counters. *)
Definition callLines (last : Z) (c : Call) : Z * list PerfLine :=
  let '(en, rt, fn, cs) := c in
  let x := fromLast ct last fn in
  let next := fromLast ct x cs in
  let '(last, pc, l) :=
    if rt =? perfRecord_FuncEnter then (next, x, L_fnEntry x next)
    else if rt =? perfRecord_FuncExit then (next, next, L_fnExit x next)
    else (x, x, L_addr x) in
  (last, l :: ((fun i => L_cntr pc i (hpm_read_counter en i)) <$> js)).
Fixpoint linesFrom (last : Z) (calls : list Call) : list PerfLine :=
  match calls with
  | [] => []
  | c :: calls => let '(last, l) := callLines last c in l ++ linesFrom last calls
  end.
Definition headLines : list PerfLine :=
  [L_cntType ct; L_cntrMask mask] ++ ((fun i => defLine i (defOf cf i)) <$> js).

(** The readings: 48 bits, and for exclusive ors no smaller than the last ones. *)
Fixpoint readings_ok (last : Z -> Z) (calls : list Call) : Prop :=
  match calls with
  | [] => True
  | (en, _, _, _) :: calls =>
      (forall i, In i js -> 0 <= hpm_read_counter en i < 2 ^ 48 /\
         (ct = perfCount_DeltaXOR -> last i <= hpm_read_counter en i)) /\
      readings_ok (hpm_read_counter en) calls
  end.

(** The writer and the converter have the last values [q] of the counters [l]. *)
Definition agree (l : list Z) (q : Z -> Z) (p counts : list Z) : Prop :=
  ct = perfCount_DeltaXOR -> forall i, In i l ->
    p !! Z.to_nat i = Some (q i) /\ counts !! Z.to_nat i = Some (q i) /\ 0 <= q i < 2 ^ 48.

(** What is written of one counter, and the line it gives. *)
Lemma count_line en pc i q p a : ct = perfCount_Raw \/ ct = perfCount_DeltaXOR -> 0 <= i < 32 ->
  length (ab_counts a) = 32%nat -> length p = 32%nat -> agree [i] q p (ab_counts a) ->
  0 <= hpm_read_counter en i < 2 ^ 48 -> (ct = perfCount_DeltaXOR -> q i <= hpm_read_counter en i) ->
  exists d p', countOf cf en p i = Some (d, p') /\ 0 <= d < 2 ^ 48 /\ length p' = 32%nat /\
    let a' := addCount ct pc i d a in
    ab_lines a' = ab_lines a ++ [L_cntr pc i (hpm_read_counter en i)] /\ ab_last a' = ab_last a /\
    length (ab_counts a') = 32%nat /\ agree [i] (hpm_read_counter en) p' (ab_counts a') /\
    forall j, 0 <= j -> j <> i -> p' !! Z.to_nat j = p !! Z.to_nat j /\
                        ab_counts a' !! Z.to_nat j = ab_counts a !! Z.to_nat j.
Proof.
  intros Ht Hi Hla Hlp Hag Hb Hge. unfold countOf, countDelta, addCount, fromLast. cbn zeta.
  set (new := hpm_read_counter en i) in *. destruct Ht as [E|E].
  - rewrite E. cbn [Z.eqb perfCount_Raw perfCount_DeltaXOR]. exists new, p. split_and!; try done; [lia..|].
    intros E'. by rewrite E in E'.
  - destruct (Hag E i (or_introl eq_refl)) as (Hp & Hc & Hq). rewrite E.
    cbn [Z.eqb Pos.eqb perfCount_Raw perfCount_Delta perfCount_DeltaXOR]. rewrite Hp. cbn [mbind option_bind].
    rewrite (proj2 (Z.leb_le (q i) new)) by auto. cbn [mbind option_bind].
    eexists _, _. split; [done|]. split; [apply lxor_bound; lia|]. split; [by rewrite length_insert|].
    rewrite (nth_lookup_Some _ _ _ _ Hc).
    assert (Z.lxor (q i) (Z.lxor new (q i)) = new) as ->
      by (rewrite Z.lxor_comm, Z.lxor_assoc, Z.lxor_nilpotent; apply Z.lxor_0_r).
    cbn [addLine ab_lines ab_last ab_counts]. split_and!; [done|done|by rewrite length_insert| |].
    + intros _ j [<-|[]]. rewrite !list_lookup_insert_eq by lia. done.
    + intros j Hj Hne. rewrite !list_lookup_insert_ne by lia. done.
Qed.

Lemma counts_lines en pc q : ct = perfCount_Raw \/ ct = perfCount_DeltaXOR -> forall l p a, NoDup l ->
  Forall (fun i => 0 <= i < 32) l -> length (ab_counts a) = 32%nat -> length p = 32%nat ->
  agree l q p (ab_counts a) ->
  (forall i, In i l -> 0 <= hpm_read_counter en i < 2 ^ 48 /\ (ct = perfCount_DeltaXOR -> q i <= hpm_read_counter en i)) ->
  exists ds p', countsOf cf en l p = Some (ds, p') /\ Forall (fun d => 0 <= d < 2 ^ 48) ds /\ length p' = 32%nat /\
    let a' := addCounts ct pc (zip l ds) a in
    ab_lines a' = ab_lines a ++ ((fun i => L_cntr pc i (hpm_read_counter en i)) <$> l) /\ ab_last a' = ab_last a /\
    length (ab_counts a') = 32%nat /\ agree l (hpm_read_counter en) p' (ab_counts a') /\
    forall j, 0 <= j -> ~ In j l -> p' !! Z.to_nat j = p !! Z.to_nat j /\
                        ab_counts a' !! Z.to_nat j = ab_counts a !! Z.to_nat j.
Proof.
  intros Ht. induction l as [|i l IH]; intros p a Hnd Hl Hla Hlp Hag Hr.
  - exists [], p. cbn. rewrite app_nil_r. split_and!; done.
  - apply List.Forall_cons_iff in Hl as [Hi Hl]. apply list.NoDup_cons in Hnd as [Hni Hnd].
    rewrite list_elem_of_In in Hni. destruct (Hr i (or_introl eq_refl)) as [Hb Hge].
    destruct (count_line en pc i q p a Ht Hi Hla Hlp) as (d & p1 & E1 & Hd & Hl1 & Hlines & Hlast & Hlc & Hag1 & Hoth);
      [intros E j [<-|[]]; apply (Hag E); by left|done..|].
    assert (forall j, In j l -> 0 <= j /\ j <> i) as Hne.
    { intros j Hj. rewrite List.Forall_forall in Hl. split; [by apply Hl|by intros ->]. }
    destruct (IH p1 (addCount ct pc i d a) Hnd Hl Hlc Hl1) as (ds & p' & E2 & Hds & Hl2 & Hlines2 & Hlast2 & Hlc2 & Hag2 & Hoth2).
    { intros E j Hj. destruct (Hne j Hj) as [H0 Hj']. destruct (Hoth j H0 Hj') as [-> ->]. apply (Hag E). by right. }
    { intros j Hj. apply Hr. by right. }
    exists (d :: ds), p'. cbn [countsOf]. rewrite E1. cbn [mbind option_bind]. rewrite E2. cbn [mbind option_bind].
    cbn zeta in *. change (addCounts ct pc (zip (i :: l) (d :: ds)) a) with (addCounts ct pc (zip l ds) (addCount ct pc i d a)).
    split_and!; try done; [by constructor| | |].
    + rewrite Hlines2, Hlines. by rewrite <-app_assoc.
    + intros E j [<-|Hj]; [|by apply (Hag2 E)].
      destruct (Hoth2 i (proj1 Hi) Hni) as [-> ->]. apply (Hag1 E). by left.
    + intros j H0 Hj. cbn in Hj. destruct (Hoth2 j H0) as [-> ->]; [tauto|]. apply Hoth; [done|]. intros ->. tauto.
Qed.

Lemma cntrsFrom_nodup : NoDup js.
Proof using Type. apply list.NoDup_filter, list.NoDup_seqZ. Qed.

Lemma call_lines en rt fn cs q p a : ct = perfCount_Raw \/ ct = perfCount_DeltaXOR ->
  length (ab_counts a) = 32%nat -> length p = 32%nat -> agree js q p (ab_counts a) ->
  (forall i, In i js -> 0 <= hpm_read_counter en i < 2 ^ 48 /\ (ct = perfCount_DeltaXOR -> q i <= hpm_read_counter en i)) ->
  exists ds p', countsOf cf en js p = Some (ds, p') /\ Forall (fun d => 0 <= d < 2 ^ 48) ds /\ length p' = 32%nat /\
    let a' := takeRecord ct mask {| rc_type := rt; rc_fn := fn; rc_cs := cs; rc_counts := ds |} a in
    ab_lines a' = ab_lines a ++ (callLines (ab_last a) (en, rt, fn, cs)).2 /\
    ab_last a' = (callLines (ab_last a) (en, rt, fn, cs)).1 /\
    length (ab_counts a') = 32%nat /\ agree js (hpm_read_counter en) p' (ab_counts a').
Proof using Type.
  intros Ht Hla Hlp Hag Hr. unfold takeRecord, callLines. cbn [rc_type rc_fn rc_cs rc_counts].
  set (x := fromLast ct (ab_last a) fn). set (y := fromLast ct x cs).
  pose proof (cntrsFrom_bounds mask 0 ltac:(lia)) as Hb.
  destruct (rt =? perfRecord_FuncEnter); [|destruct (rt =? perfRecord_FuncExit)].
  - destruct (counts_lines en x q Ht js p (addLine (L_fnEntry x y) (setLast y a)) cntrsFrom_nodup Hb Hla Hlp Hag Hr)
      as (ds & p' & E & Hd & Hl & Hlines & Hlast & Hlc & Hag' & _).
    exists ds, p'. cbn zeta. rewrite Hlines. cbn. by rewrite <-app_assoc.
  - destruct (counts_lines en y q Ht js p (addLine (L_fnExit x y) (setLast y a)) cntrsFrom_nodup Hb Hla Hlp Hag Hr)
      as (ds & p' & E & Hd & Hl & Hlines & Hlast & Hlc & Hag' & _).
    exists ds, p'. cbn zeta. rewrite Hlines. cbn. by rewrite <-app_assoc.
  - destruct (counts_lines en x q Ht js p (addLine (L_addr x) (setLast x a)) cntrsFrom_nodup Hb Hla Hlp Hag Hr)
      as (ds & p' & E & Hd & Hl & Hlines & Hlast & Hlc & Hag' & _).
    exists ds, p'. cbn zeta. rewrite Hlines. cbn. by rewrite <-app_assoc.
Qed.

Lemma calls_lines calls : ct = perfCount_Raw \/ ct = perfCount_DeltaXOR -> forall q p a,
  length (ab_counts a) = 32%nat -> length p = 32%nat -> agree js q p (ab_counts a) -> readings_ok q calls ->
  exists rs, recordsOf cf calls p = Some rs /\
    Forall (fun r => Forall (fun d => 0 <= d < 2 ^ 48) (rc_counts r)) rs /\
    ab_lines (takeRecords ct mask rs a) = ab_lines a ++ linesFrom (ab_last a) calls.
Proof using Type.
  intros Ht. induction calls as [|[[[en rt] fn] cs] calls IH]; intros q p a Hla Hlp Hag Hr.
  - exists []. cbn. by rewrite app_nil_r.
  - destruct Hr as [Hr Hrs].
    destruct (call_lines en rt fn cs q p a Ht Hla Hlp Hag Hr) as (ds & p' & E & Hd & Hl & Hlines & Hlast & Hlc & Hag').
    set (r := {| rc_type := rt; rc_fn := fn; rc_cs := cs; rc_counts := ds |}) in *.
    destruct (IH _ p' _ Hlc Hl Hag' Hrs) as (rs & E2 & Hb & Hlines2).
    exists (r :: rs). cbn [recordsOf]. rewrite E. cbn [mbind option_bind]. rewrite E2. cbn [mbind option_bind].
    split; [done|]. split; [by constructor|].
    change (takeRecords ct mask (r :: rs) a) with (takeRecords ct mask rs (takeRecord ct mask r a)).
    cbn zeta in *. rewrite Hlines2, Hlines, Hlast. cbn [linesFrom].
    destruct (callLines (ab_last a) (en, rt, fn, cs)) as [last l]. by rewrite <-app_assoc.
Qed.

Lemma initialCnts_length en l : forall p, length (initialCnts cf en l p) = length p.
Proof using Type. induction l as [|i l IH]; intros p; [done|]. cbn. unfold initialCnts in IH. by rewrite IH, length_insert. Qed.

Lemma initialCnts_zero en l : ct = perfCount_DeltaXOR -> forall p, Forall (fun i => 0 <= i < 32) l ->
  length p = 32%nat -> forall i, 0 <= i < 32 -> In i l \/ p !! Z.to_nat i = Some 0 ->
  initialCnts cf en l p !! Z.to_nat i = Some 0.
Proof using Type.
  intros Ht. induction l as [|j l IH]; intros p Hl Hp i Hi Hin; [by destruct Hin|].
  apply List.Forall_cons_iff in Hl as [Hj Hl]. cbn. rewrite Ht. cbn [Z.eqb Pos.eqb perfCount_Delta perfCount_DeltaXOR].
  unfold initialCnts in IH. rewrite Ht in IH. apply IH; [done|by rewrite length_insert|done|].
  destruct (decide (i = j)) as [->|Hne]; [right; by apply list_lookup_insert_eq; lia|].
  destruct Hin as [[->|Hin]|Hin]; [done|by left|right]. by rewrite list_lookup_insert_ne by lia.
Qed.

Lemma defLines_lines l a : ab_lines (defLines l (defOf cf <$> l) a) =
    ab_lines a ++ ((fun i => defLine i (defOf cf i)) <$> l) /\
  ab_last (defLines l (defOf cf <$> l) a) = ab_last a /\ ab_counts (defLines l (defOf cf <$> l) a) = ab_counts a.
Proof using Type.
  revert a. induction l as [|i l IH]; intros a; [by rewrite app_nil_r|].
  change (defLines (i :: l) (defOf cf <$> (i :: l)) a) with (defLines l (defOf cf <$> l) (addLine (defLine i (defOf cf i)) a)).
  destruct (IH (addLine (defLine i (defOf cf i)) a)) as (-> & -> & ->). cbn. by rewrite <-app_assoc.
Qed.
End values.

(** From the readings of the counters to the lines of the converter. *)
Lemma trip_values cf core channel other en calls p : config_ok cf -> 0 <= core < DQR_MAXCORES ->
  0 <= channel < 2 ^ 30 - 1 -> pw_countType cf = perfCount_Raw \/ pw_countType cf = perfCount_DeltaXOR ->
  length p = 32%nat -> Forall (call_ok cf) calls -> readings_ok cf (fun _ => 0) calls ->
  exists t, program cf en calls {| pw_prevCntrVal := Some p; pw_writes := [] |} = Ok t tt /\
  forall ms, ms.*2 = pw_writes t ->
  exists pc o, convert core channel ms (newPerfConverter channel (pw_markerVal cf) other) = Ok pc (length ms) /\
    (pc_lines pc).*2 ++ option_list o = headLines cf ++ linesFrom cf 0 calls.
Proof.
  intros Hok Hcore Hch Ht Hp Hc Hr. set (js := cntrsFrom (pw_cntrMask cf) 0).
  set (p1 := initialCnts cf en js p).
  destruct (defLines_lines cf js (started_lines (pw_countType cf) (pw_cntrMask cf))) as (Hl & Hlast & Hcn).
  set (a := defLines js (defOf cf <$> js) _) in *.
  destruct (calls_lines cf calls Ht (fun _ => 0) p1 a) as (rs & E & Hb & Hlines).
  - by rewrite Hcn.
  - unfold p1. by rewrite initialCnts_length.
  - intros Hx i Hi. pose proof (cntrsFrom_bounds (pw_cntrMask cf) 0 ltac:(lia)) as Hbnd.
    rewrite Hcn. pose proof Hbnd as Hb'. rewrite List.Forall_forall in Hb'. specialize (Hb' i Hi). split_and!; [| |lia|lia].
    + apply initialCnts_zero; auto.
    + apply lookup_replicate. split; [done|lia].
  - done.
  - destruct (trip_lines cf core channel other Hok Hcore Hch en calls p rs Hc E Hb) as (t & Et & Hms).
    exists t. split; [done|]. intros ms Hm. destruct (Hms ms Hm) as (pc & o & Ec & Ho). exists pc, o.
    split; [done|]. rewrite Ho. unfold expected. fold js. fold a. rewrite Hlines, Hl, Hlast. done.
Qed.

(** ** Tracing turned on twice *)

Section again.
Definition oneCounter : PerfConfig := {|
  pw_markerVal := 1885696614; pw_countType := 0; pw_cntrMask := 1; pw_cntrLst := [noEvent];
  pw_cntrWrapVal := replicate 32 0; pw_masterTsControl := 0; pw_xlen := 32 |}.
Definition steady : Counters := {| en_hpm := fun _ => 7; en_ts := 0 |}.
Definition unsetCore : PerfCore := {|
  pf_state := perfStateSync; pf_cntrMaskIndex := 0; pf_cntrMask := 0; pf_valuePending := false; pf_cntType := 0;
  pf_cntrType := 0; pf_cntrCode := 0; pf_cntrEventData := 0; pf_recordType := 0; pf_savedLow32 := 0;
  pf_lastAddress := 0; pf_cntrAddress := 0; pf_lastCount := None |}.

(** [perfTraceOff] and [perfTraceOn] again: the marker comes where the converter waits
    for a record, and from then on it fails. *)
Lemma trace_on_again :
  match (program oneCounter steady [(steady, perfRecord_Manual, 64, 0)] ≫= fun _ => program oneCounter steady [])
          {| pw_prevCntrVal := Some (replicate 32 0); pw_writes := [] |} with
  | Ok t _ =>
      match convert 0 1 ((fun w => (0, w)) <$> pw_writes t) (newPerfConverter 1 1885696614 unsetCore) with
      | Err p e => e = DQERR_ERR /\ pf_state <$> pc_cores p !! 0%nat = Some perfStateError
      | _ => False
      end
  | _ => False
  end.
Proof. by vm_compute. Qed.
End again.
