(* ===== verification/State.v ===== *)
(** * The decoder's state

    The members of [class Trace] that the processing of messages reads and
    writes: the per-core arrays, the processes, and the settings.  What is sent to
    the CTF and event converters is a log. *)

From S2P Require Import Prelude Nexus Analytics Counts Decode Memory NextAddr Perf.

(** [enum state]. *)
Inductive State :=
| TRACE_STATE_SYNCCATE | TRACE_STATE_GETFIRSTSYNCMSG | TRACE_STATE_RETIREMESSAGE
| TRACE_STATE_GETNEXTMSG | TRACE_STATE_GETNEXTINSTRUCTION | TRACE_STATE_DONE
| TRACE_STATE_ERROR.
#[export] Instance State_eq_dec : EqDecision State.
Proof. solve_decision. Defined.

(** One element of each of the arrays of [DQR_MAXCORES] elements; a disassembler is that of the
    process with its index. *)
Record CoreState := {
  co_currentAddress : Z;
  co_lastFaddr : Z;
  co_lastTime : Z;
  co_state : State;
  co_prevMsgWasSync : bool;
  co_currentPid : Z;
  co_currentPrv : Z;
  co_currentProcessIndex : Z;
  co_currentDisassembler : option nat;
  co_enterISR : Z;
}.

Definition set_currentAddress v (c : CoreState) : CoreState := {|
  co_currentAddress := v; co_lastFaddr := co_lastFaddr c; co_lastTime := co_lastTime c;
  co_state := co_state c; co_prevMsgWasSync := co_prevMsgWasSync c;
  co_currentPid := co_currentPid c; co_currentPrv := co_currentPrv c;
  co_currentProcessIndex := co_currentProcessIndex c; co_currentDisassembler := co_currentDisassembler c;
  co_enterISR := co_enterISR c |}.
Definition set_lastFaddr v (c : CoreState) : CoreState := {|
  co_currentAddress := co_currentAddress c; co_lastFaddr := v; co_lastTime := co_lastTime c;
  co_state := co_state c; co_prevMsgWasSync := co_prevMsgWasSync c;
  co_currentPid := co_currentPid c; co_currentPrv := co_currentPrv c;
  co_currentProcessIndex := co_currentProcessIndex c; co_currentDisassembler := co_currentDisassembler c;
  co_enterISR := co_enterISR c |}.
Definition set_lastTime v (c : CoreState) : CoreState := {|
  co_currentAddress := co_currentAddress c; co_lastFaddr := co_lastFaddr c; co_lastTime := v;
  co_state := co_state c; co_prevMsgWasSync := co_prevMsgWasSync c;
  co_currentPid := co_currentPid c; co_currentPrv := co_currentPrv c;
  co_currentProcessIndex := co_currentProcessIndex c; co_currentDisassembler := co_currentDisassembler c;
  co_enterISR := co_enterISR c |}.
Definition set_state v (c : CoreState) : CoreState := {|
  co_currentAddress := co_currentAddress c; co_lastFaddr := co_lastFaddr c;
  co_lastTime := co_lastTime c;
  co_state := v; co_prevMsgWasSync := co_prevMsgWasSync c;
  co_currentPid := co_currentPid c; co_currentPrv := co_currentPrv c;
  co_currentProcessIndex := co_currentProcessIndex c; co_currentDisassembler := co_currentDisassembler c;
  co_enterISR := co_enterISR c |}.
Definition set_prevMsgWasSync v (c : CoreState) : CoreState := {|
  co_currentAddress := co_currentAddress c; co_lastFaddr := co_lastFaddr c;
  co_lastTime := co_lastTime c;
  co_state := co_state c; co_prevMsgWasSync := v;
  co_currentPid := co_currentPid c; co_currentPrv := co_currentPrv c;
  co_currentProcessIndex := co_currentProcessIndex c; co_currentDisassembler := co_currentDisassembler c;
  co_enterISR := co_enterISR c |}.
Definition set_currentPid v (c : CoreState) : CoreState := {|
  co_currentAddress := co_currentAddress c; co_lastFaddr := co_lastFaddr c;
  co_lastTime := co_lastTime c;
  co_state := co_state c; co_prevMsgWasSync := co_prevMsgWasSync c;
  co_currentPid := v; co_currentPrv := co_currentPrv c;
  co_currentProcessIndex := co_currentProcessIndex c; co_currentDisassembler := co_currentDisassembler c;
  co_enterISR := co_enterISR c |}.
Definition set_currentPrv v (c : CoreState) : CoreState := {|
  co_currentAddress := co_currentAddress c; co_lastFaddr := co_lastFaddr c;
  co_lastTime := co_lastTime c;
  co_state := co_state c; co_prevMsgWasSync := co_prevMsgWasSync c;
  co_currentPid := co_currentPid c; co_currentPrv := v;
  co_currentProcessIndex := co_currentProcessIndex c; co_currentDisassembler := co_currentDisassembler c;
  co_enterISR := co_enterISR c |}.
Definition set_currentProcessIndex v (c : CoreState) : CoreState := {|
  co_currentAddress := co_currentAddress c; co_lastFaddr := co_lastFaddr c;
  co_lastTime := co_lastTime c;
  co_state := co_state c; co_prevMsgWasSync := co_prevMsgWasSync c;
  co_currentPid := co_currentPid c; co_currentPrv := co_currentPrv c;
  co_currentProcessIndex := v; co_currentDisassembler := co_currentDisassembler c;
  co_enterISR := co_enterISR c |}.
Definition set_currentDisassembler v (c : CoreState) : CoreState := {|
  co_currentAddress := co_currentAddress c; co_lastFaddr := co_lastFaddr c;
  co_lastTime := co_lastTime c;
  co_state := co_state c; co_prevMsgWasSync := co_prevMsgWasSync c;
  co_currentPid := co_currentPid c; co_currentPrv := co_currentPrv c;
  co_currentProcessIndex := co_currentProcessIndex c; co_currentDisassembler := v;
  co_enterISR := co_enterISR c |}.
Definition set_enterISR v (c : CoreState) : CoreState := {|
  co_currentAddress := co_currentAddress c; co_lastFaddr := co_lastFaddr c;
  co_lastTime := co_lastTime c;
  co_state := co_state c; co_prevMsgWasSync := co_prevMsgWasSync c;
  co_currentPid := co_currentPid c; co_currentPrv := co_currentPrv c;
  co_currentProcessIndex := co_currentProcessIndex c; co_currentDisassembler := co_currentDisassembler c;
  co_enterISR := v |}.

(** ** Processes and their converters *)

(** [struct process]; [pr_ctf] and [pr_eventConverter] say that the pointer is
    not null, and [pr_elfName] that the name is known.  The ELF reader of a
    process is the one of the same index in the memory. *)
Record Process (Perf : Type) := {
  pr_pid : Z;
  pr_elfName : bool;
  pr_ctf : bool;
  pr_eventConverter : bool;
  pr_perfConverter : option Perf;
}.
Arguments pr_pid {Perf} p.
Arguments pr_elfName {Perf} p.
Arguments pr_ctf {Perf} p.
Arguments pr_eventConverter {Perf} p.
Arguments pr_perfConverter {Perf} p.

Definition set_eventConverter {Perf} b (p : Process Perf) : Process Perf := {|
  pr_pid := pr_pid p; pr_elfName := pr_elfName p; pr_ctf := pr_ctf p;
  pr_eventConverter := b; pr_perfConverter := pr_perfConverter p |}.
Definition set_perfConverter {Perf} c (p : Process Perf) : Process Perf := {|
  pr_pid := pr_pid p; pr_elfName := pr_elfName p; pr_ctf := pr_ctf p;
  pr_eventConverter := pr_eventConverter p; pr_perfConverter := c |}.

(** The calls of the converters, with the index of the process, the core and the
    time. *)
Inductive Emit :=
| EmitExtTrigEvent (pid ckdf pc id : Z)
| EmitWatchpoint (pid ckdf pc id : Z)
| EmitCallRet (pid ckdf pc pcDest crFlags : Z)
| EmitException (pid ckdf pc cause : Z)
| EmitInterrupt (pid ckdf pc cause : Z)
| EmitContext (prevPid ckdf pc pid tag : Z)
| EmitPeriodic (pid ckdf pc : Z)
| EmitControl (pid ckdf control pc : Z)
| CtfAddCall (srcAddr dstAddr : Z)
| CtfAddRet (srcAddr dstAddr : Z).

(** ** The trace *)

(** Members that the processing of messages does not change. *)
Record Settings := {
  se_pidList : list Z;
  se_eventConvert : bool;
  se_tsSize : Z;
  se_bitsPerAddress : Z;
  se_linuxTrace : bool;
  se_tolerateErrors : bool;
  se_eventFilterMask : Z;
}.

Record Trace (K Perf : Type) := {
  tr_walker : Walker (TraceMem K);
  tr_cores : list CoreState;
  tr_processes : list (Process Perf);
  tr_settings : Settings;
  tr_nm : NexusMessage;
  tr_readNewTraceMessage : bool;
  tr_tolerantError : bool;
  tr_emitted : list (Z * Z * Z * Emit);
}.
Arguments tr_walker {K Perf} t.
Arguments tr_cores {K Perf} t.
Arguments tr_processes {K Perf} t.
Arguments tr_settings {K Perf} t.
Arguments tr_nm {K Perf} t.
Arguments tr_readNewTraceMessage {K Perf} t.
Arguments tr_tolerantError {K Perf} t.
Arguments tr_emitted {K Perf} t.

Section operations.
Context {K Perf : Type}.
#[local] Abbreviation T := (M (Trace K Perf) DQErr).

Definition set_walker w (t : Trace K Perf) : Trace K Perf := {|
  tr_walker := w; tr_cores := tr_cores t; tr_processes := tr_processes t;
  tr_settings := tr_settings t; tr_nm := tr_nm t;
  tr_readNewTraceMessage := tr_readNewTraceMessage t; tr_tolerantError := tr_tolerantError t;
  tr_emitted := tr_emitted t |}.
Definition set_cores c (t : Trace K Perf) : Trace K Perf := {|
  tr_walker := tr_walker t; tr_cores := c; tr_processes := tr_processes t;
  tr_settings := tr_settings t; tr_nm := tr_nm t;
  tr_readNewTraceMessage := tr_readNewTraceMessage t; tr_tolerantError := tr_tolerantError t;
  tr_emitted := tr_emitted t |}.
Definition set_processes p (t : Trace K Perf) : Trace K Perf := {|
  tr_walker := tr_walker t; tr_cores := tr_cores t; tr_processes := p;
  tr_settings := tr_settings t; tr_nm := tr_nm t;
  tr_readNewTraceMessage := tr_readNewTraceMessage t; tr_tolerantError := tr_tolerantError t;
  tr_emitted := tr_emitted t |}.
Definition set_nm n (t : Trace K Perf) : Trace K Perf := {|
  tr_walker := tr_walker t; tr_cores := tr_cores t; tr_processes := tr_processes t;
  tr_settings := tr_settings t; tr_nm := n;
  tr_readNewTraceMessage := tr_readNewTraceMessage t; tr_tolerantError := tr_tolerantError t;
  tr_emitted := tr_emitted t |}.
Definition set_readNewTraceMessage b (t : Trace K Perf) : Trace K Perf := {|
  tr_walker := tr_walker t; tr_cores := tr_cores t; tr_processes := tr_processes t;
  tr_settings := tr_settings t; tr_nm := tr_nm t;
  tr_readNewTraceMessage := b; tr_tolerantError := tr_tolerantError t;
  tr_emitted := tr_emitted t |}.
Definition set_tolerantError b (t : Trace K Perf) : Trace K Perf := {|
  tr_walker := tr_walker t; tr_cores := tr_cores t; tr_processes := tr_processes t;
  tr_settings := tr_settings t; tr_nm := tr_nm t;
  tr_readNewTraceMessage := tr_readNewTraceMessage t; tr_tolerantError := b;
  tr_emitted := tr_emitted t |}.
Definition set_emitted e (t : Trace K Perf) : Trace K Perf := {|
  tr_walker := tr_walker t; tr_cores := tr_cores t; tr_processes := tr_processes t;
  tr_settings := tr_settings t; tr_nm := tr_nm t;
  tr_readNewTraceMessage := tr_readNewTraceMessage t; tr_tolerantError := tr_tolerantError t;
  tr_emitted := e |}.

Definition currentCore (t : Trace K Perf) : Z := wk_currentCore (tr_walker t).

(** A computation on the members [nextAddr] uses. *)
Definition onWalker {A} (m : M (Walker (TraceMem K)) DQErr A) : T A := fun t =>
  zoom (fun w => set_walker w t) m (tr_walker t).

Definition setStatus (e : DQErr) : T unit := onWalker (modify (set_wstatus e)).

(** The elements of the arrays for core [k]; outside the arrays the access is
    undefined. *)
Definition coreAt (k : Z) : T CoreState := fun t =>
  lift_opt (if 0 <=? k then tr_cores t !! Z.to_nat k else None) t.

Definition setCore (k : Z) (f : CoreState -> CoreState) : T unit :=
  c ← coreAt k; modify (fun t => set_cores (<[Z.to_nat k := f c]> (tr_cores t)) t).

(** [processes[i]]. *)
Definition processAt (i : Z) : T (Process Perf) := fun t =>
  lift_opt (if 0 <=? i then tr_processes t !! Z.to_nat i else None) t.

Definition setProcess (i : Z) (f : Process Perf -> Process Perf) : T unit :=
  p ← processAt i; modify (fun t => set_processes (<[Z.to_nat i := f p]> (tr_processes t)) t).

(** [currentElfReader[core] = ...]. *)
Definition selectReader (core : Z) (o : option nat) : T unit :=
  onWalker (modify (fun w => set_mem {|
    tm_kMem := tm_kMem (wk_mem w); tm_readers := tm_readers (wk_mem w);
    tm_currentElfReader := <[Z.to_nat core := o]> (tm_currentElfReader (wk_mem w)) |} w)).

(** A computation on the counts of a core. *)
Definition onCoreCounts {A} (core : Z) (m : M CoreCounts DQErr A) : T A :=
  onWalker (counted core m).
End operations.
