(* ===== verification/Process.v ===== *)
(** * Retiring a message

    [Trace::processTraceMessage] brings the address and the time of a core up to
    date with a message whose counts are used up: timestamps ([processTS]),
    addresses that a message gives in full or as the exclusive or with the last
    one, changes of the process and the privilege ([processPidPriv]), and what is
    passed on to the converters.  [Trace::resetTrace] forgets a core or all. *)

From S2P Require Import Prelude Nexus Analytics Counts Decode Memory NextAddr Perf State.

(** ** Time and addresses *)

Inductive tsType := TS_full | TS_rel.

(** [Trace::processTS]; [None] is a shift by 64 or more. *)
Definition processTS (tsSize : Z) (tstype : tsType) (lastTs newTs : Z) : option Z :=
  ts ← match tstype with
       | TS_full =>
           one ← shl64 1 tsSize;
           Some (u64 (newTs + Z.land lastTs (u64 (Z.lnot (u64 (one - 1))))))
       | TS_rel => Some (if lastTs =? 0 then 0 else Z.lxor lastTs newTs)
       end;
  if ts <? lastTs then one ← shl64 1 tsSize; Some (u64 (ts + one)) else Some ts.

(** [Trace::signExtendAddr]. *)
Definition signExtendAddr (bitsPerAddress addr : Z) : option Z :=
  bit ← shl64 1 (bitsPerAddress - 1);
  mask ← shl64 (2 ^ 64 - 1) (bitsPerAddress - 1);
  Some (if Z.land addr bit =? 0 then addr else Z.lor addr mask).

(** An address field of a message, in bytes. *)
Definition toBytes (a : Z) : Z := u64 (Z.shiftl a 1).

Section process.
Context {K Perf : Type} `{!CodeMemory K} `{!PerfSink Perf}.
(** What the local variables of the decoder hold before it assigns them. *)
Context (uninit : Inst).
(** The status of a new [EventConverter] for a process, which opens a file. *)
Context (converterStatus : Z -> DQErr).
#[local] Abbreviation T := (M (Trace K Perf) DQErr).

(** ** Processes *)

(** The index of the first process with the pid; [-1] if there is none. *)
Definition indexOf {A} (f : A -> Z) (x : Z) (l : list A) : Z :=
  match list_find (fun a => f a = x) l with
  | Some (i, _) => Z.of_nat i
  | None => -1
  end.

Definition processPidPriv (core pid v prv : Z) : T Z :=
  setCore core (set_currentPid pid) ≫= fun _ =>
  setCore core (set_currentPrv (u8 (Z.lor (Z.shiftl v 4) prv))) ≫= fun _ =>
  t ← get;
  let pids := se_pidList (tr_settings t) in
  let pidIndex := if bool_decide (pids = []) then 0 else indexOf id pid pids in
  processIndex ←
    (if 0 <=? pidIndex then
       p ← processAt 0;
       mret (if pr_pid p =? -1 then 0 else indexOf pr_pid pid (tr_processes t))
     else mret (-1));
  let process := if 0 <=? processIndex then Some (Z.to_nat processIndex) else None in
  setCore core (set_currentProcessIndex processIndex) ≫= fun _ =>
  setCore core (set_currentDisassembler process) ≫= fun _ =>
  selectReader core process ≫= fun _ =>
  mret processIndex.

(** ** Converters *)

(** [Trace::enableEventConverter]. *)
Definition enableEventConverter (pIndex : Z) : T unit :=
  if pIndex <? 0 then throw DQERR_ERR
  else
    setProcess pIndex (set_eventConverter false) ≫= fun _ =>
    p ← processAt pIndex;
    if negb (pr_elfName p) then throw DQERR_ERR
    else
      setProcess pIndex (set_eventConverter true) ≫= fun _ =>
      setStatus (converterStatus pIndex) ≫= fun _ =>
      if decide (converterStatus pIndex = DQERR_OK) then mret tt
      else throw (converterStatus pIndex).

(** A call of a converter, with the time of the current core. *)
Definition log (pIndex : Z) (e : Emit) : T unit :=
  t ← get;
  c ← coreAt (currentCore t);
  modify (fun t =>
    set_emitted (tr_emitted t ++ [(pIndex, nm_coreId (tr_nm t), co_lastTime c, e)]) t).

(** [if (eventConverter == nullptr) { enable it }], and the call; a failure is
    reported as [DQERR_ERR]. *)
Definition convert (pIndex : Z) (e : Emit) : T unit :=
  p ← processAt pIndex;
  (if pr_eventConverter p then mret tt
   else fun t => asErr (enableEventConverter pIndex t)) ≫= fun _ =>
  log pIndex e.

(** [if ((pIndex >= 0) && eventConvert)]. *)
Definition emit (pIndex : Z) (e : Emit) : T unit :=
  t ← get;
  if (0 <=? pIndex) && se_eventConvert (tr_settings t) then convert pIndex e else mret tt.

(** ** The updates of time and address *)

(** The references [pc], [faddr] and [ts] are the elements of the current core. *)
Definition here : T CoreState := t ← get; coreAt (currentCore t).
Definition setHere (f : CoreState -> CoreState) : T unit :=
  t ← get; setCore (currentCore t) f.

Definition updateTS (tstype : tsType) : T unit :=
  t ← get;
  if nm_haveTimestamp (tr_nm t) then
    c ← here;
    ts ← lift_opt (processTS (se_tsSize (tr_settings t)) tstype (co_lastTime c)
                     (nm_timestamp (tr_nm t)));
    setHere (set_lastTime ts)
  else mret tt.

(** [if (faddr != 0) faddr = faddr ^ (a << 1);] *)
Definition xorFaddr (a : Z) : T unit :=
  c ← here;
  if co_lastFaddr c =? 0 then mret tt
  else setHere (set_lastFaddr (Z.lxor (co_lastFaddr c) (toBytes a))).

Definition setFaddr (a : Z) : T unit := setHere (set_lastFaddr (toBytes a)).

(** [pc = faddr;] *)
Definition pcFromFaddr : T unit := c ← here; setHere (set_currentAddress (co_lastFaddr c)).

(** [counts->getCurrentCountType(currentCore)]. *)
Definition countType : T CountType :=
  t ← get; onCoreCounts (currentCore t) (gets getCurrentCountType).

(** Sync messages: all counts must be used up. *)
Definition requireNoCounts : T unit :=
  ct ← countType;
  if decide (ct = COUNTTYPE_none) then mret tt else throw DQERR_ERR.

(** Instruction counts may be left. *)
Definition requireNoBranches : T unit :=
  ct ← countType;
  match ct with
  | COUNTTYPE_history | COUNTTYPE_taken | COUNTTYPE_notTaken => throw DQERR_ERR
  | COUNTTYPE_i_cnt | COUNTTYPE_none => mret tt
  end.

(** The end of the case of a sync message. *)
Definition syncAt (coreId f_addr : Z) : T unit :=
  requireNoCounts ≫= fun _ =>
  updateTS TS_full ≫= fun _ =>
  setFaddr f_addr ≫= fun _ =>
  pcFromFaddr ≫= fun _ =>
  onCoreCounts coreId (modify (fun c => set_stack (resetStack (cc_stack c)) c)) ≫= fun _ =>
  onCoreCounts coreId (modify resetCounts) ≫= fun _ =>
  setCore coreId (set_prevMsgWasSync true).

(** ** In-circuit trace messages *)

(** [ckdata[1]], which the parser writes when [ckdf] is 1. *)
Definition second (d1 : option Z) : T Z := lift_opt d1.

(** [processes[pIndex].pid], or [-1]. *)
Definition pidOf (pIndex : Z) : T Z :=
  if 0 <=? pIndex then p ← processAt pIndex; mret (pr_pid p) else mret (-1).

(** [(pIndex >= 0) && (eventConvert || (processes[pIndex].ctf != nullptr))], and
    whether there is a [ctf]. *)
Definition wantsCalls (pIndex : Z) : T (option bool) :=
  t ← get;
  if 0 <=? pIndex then
    p ← processAt pIndex;
    mret (if se_eventConvert (tr_settings t) || pr_ctf p then Some (pr_ctf p) else None)
  else mret None.

(** [nextAddr(pc,nextPC,crFlags)]; a failure is reported as [DQERR_ERR]. *)
Definition targetOf (pc : Z) : T (Z * Z) := fun t =>
  asErr (onWalker (nextAddrTarget uninit pc) t).

(** [nm.ict.ckdata[1] = nextPC;] *)
Definition storeTarget (a : Z) : T unit := modify (fun t =>
  let nm := tr_nm t in
  set_nm (match nm_body nm with
          | B_ict cksrc ckdf d0 _ => set_body (B_ict cksrc ckdf d0 (Some a)) nm
          | B_ictWS cksrc ckdf d0 _ => set_body (B_ictWS cksrc ckdf d0 (Some a)) nm
          | _ => nm
          end) t).

(** [ctf->addCall] or [ctf->addRet], by the flags of the instruction. *)
Definition ctfCallRet (pIndex pc dst crFlags : Z) : T unit :=
  if negb (Z.land crFlags isCall =? 0) then log pIndex (CtfAddCall pc dst)
  else if negb (Z.land crFlags isReturn =? 0) || negb (Z.land crFlags isExceptionReturn =? 0)
  then log pIndex (CtfAddRet pc dst)
  else throw DQERR_ERR.

(** A change of the context by an event trace: the low two bits are the tag. *)
Definition contextSwitch (coreId pIndex d1 : Z) : T (Z * Z * Z) :=
  let tag := Z.land d1 3 in
  let newPid := Z.shiftr d1 2 in
  pIndex ← (match tag with
            | 0 | 3 => setCore coreId (set_currentPrv 255) ≫= fun _ => mret pIndex
            | 2 => processPidPriv coreId (i32 newPid) 15 15
            | _ => mret pIndex
            end);
  mret (pIndex, newPid, tag).

(** [TCODE_INCIRCUITTRACE], after the time. *)
Definition processICT (coreId pIndex pid : Z) (cksrc : ICTReason) (ckdf d0 : Z) (d1 : option Z)
    : T unit :=
  let address := xorFaddr d0 ≫= fun _ => pcFromFaddr in
  match cksrc with
  | ICT_EXT_TRIG =>
      match ckdf with
      | 0 =>
          xorFaddr d0 ≫= fun _ => c ← here;
          emit pIndex (EmitExtTrigEvent pid ckdf (co_lastFaddr c) 0)
      | 1 =>
          address ≫= fun _ => c ← here; x ← second d1;
          emit pIndex (EmitExtTrigEvent pid ckdf (co_lastFaddr c) (i32 x))
      | _ => throw DQERR_ERR
      end
  | ICT_WATCHPOINT =>
      match ckdf with
      | 0 =>
          xorFaddr d0 ≫= fun _ => c ← here;
          emit pIndex (EmitWatchpoint pid ckdf (co_lastFaddr c) 0)
      | 1 =>
          address ≫= fun _ => c ← here;
          emit pIndex (EmitWatchpoint pid ckdf (co_lastFaddr c) 0)
      | _ => throw DQERR_ERR
      end
  | ICT_INFERABLECALL =>
      match ckdf with
      | 0 =>
          address ≫= fun _ => c ← here;
          let pc := co_currentAddress c in
          w ← wantsCalls pIndex;
          match w with
          | None => mret tt
          | Some ctf =>
              '(nextPC, _) ← targetOf pc;
              storeTarget nextPC ≫= fun _ =>
              (if ctf : bool then log pIndex (CtfAddCall pc nextPC) else mret tt) ≫= fun _ =>
              emit pIndex (EmitCallRet pid ckdf pc nextPC isCall)
          end
      | 1 =>
          c ← here;
          (if co_lastFaddr c =? 0 then setHere (set_currentAddress 0)
           else
             x ← second d1;
             let pc := Z.lxor (co_lastFaddr c) (toBytes d0) in
             setHere (set_currentAddress pc) ≫= fun _ =>
             setHere (set_lastFaddr (Z.lxor pc (toBytes x)))) ≫= fun _ =>
          c ← here;
          let pc := co_currentAddress c in
          w ← wantsCalls pIndex;
          match w with
          | None => mret tt
          | Some ctf =>
              '(_, crFlags) ← targetOf pc;
              (if ctf : bool then ctfCallRet pIndex pc (co_lastFaddr c) crFlags
               else mret tt) ≫= fun _ =>
              convert pIndex (EmitCallRet pid ckdf pc (co_lastFaddr c) crFlags)
          end
      | _ => throw DQERR_ERR
      end
  | ICT_EXCEPTION =>
      if ckdf =? 1 then
        address ≫= fun _ => c ← here; x ← second d1;
        emit pIndex (EmitException pid ckdf (co_currentAddress c) (i32 x))
      else throw DQERR_ERR
  | ICT_INTERRUPT =>
      if ckdf =? 1 then
        address ≫= fun _ => c ← here; x ← second d1;
        emit pIndex (EmitInterrupt pid ckdf (co_currentAddress c) (i32 x))
      else throw DQERR_ERR
  | ICT_CONTEXT =>
      if ckdf =? 1 then
        address ≫= fun _ => c ← here; x ← second d1;
        '(pIndex, newPid, tag) ← contextSwitch coreId pIndex x;
        emit pIndex (EmitContext pid ckdf (co_currentAddress c) (u32 newPid) tag)
      else throw DQERR_ERR
  | ICT_PC_SAMPLE =>
      if ckdf =? 0 then
        address ≫= fun _ => c ← here;
        emit pIndex (EmitPeriodic pid ckdf (co_currentAddress c))
      else throw DQERR_ERR
  | ICT_CONTROL =>
      match ckdf with
      | 0 =>
          if 0 <=? pIndex then
            p ← processAt pIndex;
            if pr_eventConverter p then log pIndex (EmitControl pid ckdf (i32 d0) 0) else mret tt
          else mret tt
      | 1 =>
          address ≫= fun _ => c ← here; x ← second d1;
          emit pIndex (EmitControl pid ckdf (i32 x) (co_currentAddress c))
      | _ => throw DQERR_ERR
      end
  | ICT_NONE | ICT_reserved _ => throw DQERR_ERR
  end.

(** [TCODE_INCIRCUITTRACE_WS], after the time. *)
Definition processICTWS (coreId pIndex pid : Z) (cksrc : ICTReason) (ckdf d0 : Z) (d1 : option Z)
    : T unit :=
  let address := setFaddr d0 ≫= fun _ => pcFromFaddr in
  match cksrc with
  | ICT_EXT_TRIG =>
      match ckdf with
      | 0 =>
          setFaddr d0 ≫= fun _ => c ← here;
          emit pIndex (EmitExtTrigEvent pid ckdf (co_lastFaddr c) 0)
      | 1 =>
          address ≫= fun _ => c ← here; x ← second d1;
          emit pIndex (EmitExtTrigEvent pid ckdf (co_lastFaddr c) (i32 x))
      | _ => throw DQERR_ERR
      end
  | ICT_WATCHPOINT =>
      match ckdf with
      | 0 =>
          setFaddr d0 ≫= fun _ => c ← here;
          emit pIndex (EmitWatchpoint pid ckdf (co_lastFaddr c) 0)
      | 1 =>
          address ≫= fun _ => c ← here; x ← second d1;
          emit pIndex (EmitWatchpoint pid ckdf (co_lastFaddr c) (i32 x))
      | _ => throw DQERR_ERR
      end
  | ICT_INFERABLECALL =>
      match ckdf with
      | 0 =>
          address ≫= fun _ => c ← here;
          let pc := co_currentAddress c in
          w ← wantsCalls pIndex;
          match w with
          | None => mret tt
          | Some ctf =>
              '(nextPC, _) ← targetOf pc;
              storeTarget nextPC ≫= fun _ =>
              (if ctf : bool then log pIndex (CtfAddCall pc nextPC) else mret tt) ≫= fun _ =>
              emit pIndex (EmitCallRet pid ckdf pc (co_lastFaddr c) isCall)
          end
      | 1 =>
          x ← second d1;
          let pc := toBytes d0 in
          let faddr := Z.lxor pc (toBytes x) in
          setHere (set_currentAddress pc) ≫= fun _ =>
          setHere (set_lastFaddr faddr) ≫= fun _ =>
          w ← wantsCalls pIndex;
          match w with
          | None => mret tt
          | Some ctf =>
              '(_, crFlags) ← targetOf pc;
              if ctf : bool then
                ctfCallRet pIndex pc faddr crFlags ≫= fun _ =>
                emit pIndex (EmitCallRet pid ckdf pc faddr crFlags)
              else mret tt
          end
      | _ => throw DQERR_ERR
      end
  | ICT_EXCEPTION =>
      if ckdf =? 1 then
        address ≫= fun _ => c ← here; x ← second d1;
        emit pIndex (EmitException pid ckdf (co_currentAddress c) (i32 x))
      else throw DQERR_ERR
  | ICT_INTERRUPT =>
      if ckdf =? 1 then
        address ≫= fun _ => c ← here; x ← second d1;
        emit pIndex (EmitInterrupt pid ckdf (co_currentAddress c) (i32 x))
      else throw DQERR_ERR
  | ICT_CONTEXT =>
      if ckdf =? 1 then
        address ≫= fun _ => c ← here; x ← second d1;
        '(pIndex, newPid, tag) ← contextSwitch coreId pIndex x;
        emit pIndex (EmitContext pid ckdf (co_currentAddress c) (u32 newPid) tag)
      else throw DQERR_ERR
  | ICT_PC_SAMPLE =>
      if ckdf =? 0 then
        address ≫= fun _ => c ← here;
        emit pIndex (EmitPeriodic pid ckdf (co_currentAddress c))
      else throw DQERR_ERR
  | ICT_CONTROL =>
      match ckdf with
      | 0 => emit pIndex (EmitControl pid ckdf (i32 d0) 0)
      | 1 =>
          address ≫= fun _ => c ← here; x ← second d1;
          emit pIndex (EmitControl pid ckdf (i32 x) (co_currentAddress c))
      | _ => throw DQERR_ERR
      end
  | ICT_NONE | ICT_reserved _ => throw DQERR_ERR
  end.

(** ** The handler *)

(** A method of the performance converter of a process. *)
Definition onPerf {A} (pIndex : Z) (p : Process Perf) (perf : Perf) (m : M Perf DQErr A) : T A :=
  fun t => zoom (fun perf => set_processes
                   (<[Z.to_nat pIndex := set_perfConverter (Some perf) p]> (tr_processes t)) t)
             m perf.

(** [perfConverter->processITCPerf(...)]: whether the message was consumed. *)
Definition perfData (coreId pIndex idTag data : Z) : T bool :=
  if 0 <=? pIndex then
    p ← processAt pIndex;
    match pr_perfConverter p with
    | None => mret false
    | Some perf =>
        c ← here;
        onPerf pIndex p perf (processITCPerf coreId (co_lastTime c) idTag data)
    end
  else mret false.

(** [Trace::processTraceMessage]: whether the message was consumed by the
    performance converter.  A body that is not the one of its type would be a read
    of another member of the union. *)
Definition processTraceMessage : T bool :=
  t ← get;
  let nm := tr_nm t in
  let coreId := nm_coreId nm in
  c ← coreAt coreId;
  let pIndex := co_currentProcessIndex c in
  pid ← pidOf pIndex;
  let notConsumed (m : T unit) : T bool := m ≫= fun _ => mret false in
  let notSync : T unit := setCore coreId (set_prevMsgWasSync false) in
  match nm_tcode nm, nm_body nm with
  | TCODE_ERROR, _ => notConsumed (
      updateTS TS_rel ≫= fun _ =>
      setHere (set_lastFaddr 0) ≫= fun _ =>
      setHere (set_currentAddress 0) ≫= fun _ => notSync)
  | TCODE_DATA_ACQUISITION, B_dataAcquisition idTag data =>
      updateTS TS_rel ≫= fun _ => perfData coreId pIndex idTag data
  | TCODE_OWNERSHIP_TRACE, B_ownership npid v prv tag => notConsumed (
      updateTS TS_rel ≫= fun _ =>
      match tag with
      | 0 | 3 => setCore coreId (set_currentPrv (u8 (Z.lor (Z.shiftl v 4) prv)))
      | 2 => processPidPriv coreId (i32 npid) v prv ≫= fun _ => mret tt
      | _ => throw DQERR_ERR
      end)
  | TCODE_RESOURCEFULL, B_resourceFull rCode _ => notConsumed (
      (if rCode =? 0 then mret tt else requireNoBranches) ≫= fun _ =>
      updateTS TS_rel ≫= fun _ => notSync)
  | TCODE_DIRECT_BRANCH, _ | TCODE_CORRELATION, _ => notConsumed (
      updateTS TS_rel ≫= fun _ => notSync)
  | TCODE_INDIRECT_BRANCH, B_indirectBranch _ u_addr _ => notConsumed (
      updateTS TS_rel ≫= fun _ =>
      xorFaddr u_addr ≫= fun _ => pcFromFaddr ≫= fun _ => notSync)
  | TCODE_SYNC, B_sync _ f_addr _
  | TCODE_DIRECT_BRANCH_WS, B_directBranchWS _ f_addr _
  | TCODE_INDIRECT_BRANCH_WS, B_indirectBranchWS _ f_addr _ _
  | TCODE_INDIRECTBRANCHHISTORY_WS, B_indirectHistoryWS _ f_addr _ _ _ =>
      notConsumed (syncAt coreId f_addr)
  | TCODE_INDIRECTBRANCHHISTORY, B_indirectHistory _ u_addr _ _ => notConsumed (
      requireNoBranches ≫= fun _ =>
      updateTS TS_rel ≫= fun _ =>
      xorFaddr u_addr ≫= fun _ => pcFromFaddr ≫= fun _ => notSync)
  | TCODE_INCIRCUITTRACE, B_ict cksrc ckdf d0 d1 => notConsumed (
      updateTS TS_rel ≫= fun _ => notSync ≫= fun _ =>
      processICT coreId pIndex pid cksrc ckdf d0 d1)
  | TCODE_INCIRCUITTRACE_WS, B_ictWS cksrc ckdf d0 d1 => notConsumed (
      updateTS TS_full ≫= fun _ => setCore coreId (set_prevMsgWasSync true) ≫= fun _ =>
      processICTWS coreId pIndex pid cksrc ckdf d0 d1)
  | TCODE_DATA_ACQUISITION, _ | TCODE_OWNERSHIP_TRACE, _ | TCODE_RESOURCEFULL, _
  | TCODE_INDIRECT_BRANCH, _ | TCODE_SYNC, _ | TCODE_DIRECT_BRANCH_WS, _
  | TCODE_INDIRECT_BRANCH_WS, _ | TCODE_INDIRECTBRANCHHISTORY_WS, _
  | TCODE_INDIRECTBRANCHHISTORY, _ | TCODE_INCIRCUITTRACE, _ | TCODE_INCIRCUITTRACE_WS, _ =>
      undef
  | _, _ => throw DQERR_ERR
  end.

(** ** Reset *)

(** [prv_unknown]. *)
Definition prv_unknown : Z := 255.

(** What [resetTrace] does to the arrays of a core. *)
Definition resetCore (bareMetal : bool) (c : CoreState) : CoreState :=
  let c := set_currentDisassembler (Some 0%nat) (set_state TRACE_STATE_GETFIRSTSYNCMSG (set_currentAddress 0
             (set_lastFaddr 0 (set_lastTime 0 (set_prevMsgWasSync false c))))) in
  if bareMetal then set_currentProcessIndex 0 (set_currentPid 0 c)
  else set_currentProcessIndex (-1) (set_currentPid (-1) (set_currentPrv prv_unknown c)).

(** [Trace::resetTrace(core)]; all cores if it is negative, and then the return
    address stacks are kept. *)
Definition resetTrace (core : Z) : T unit :=
  p ← processAt 0;
  let bareMetal := pr_pid p =? -1 in
  (if core <? 0 then
     modify (fun t =>
       let w := tr_walker t in
       let m := wk_mem w in
       set_cores (map (resetCore bareMetal) (tr_cores t))
         (set_walker {|
            wk_status := wk_status w; wk_traceType := wk_traceType w; wk_currentCore := 0;
            wk_archSize := wk_archSize w; wk_counts := map resetCounts (wk_counts w);
            wk_mem := {| tm_kMem := tm_kMem m; tm_readers := tm_readers m;
                         tm_currentElfReader := map (fun _ => Some 0%nat) (tm_currentElfReader m) |}
          |} t))
   else
     setCore core (resetCore bareMetal) ≫= fun _ =>
     onCoreCounts core (modify (fun c =>
       set_stack (resetStack (cc_stack c)) (resetCounts c))) ≫= fun _ =>
     selectReader core (Some 0%nat)) ≫= fun _ =>
  setStatus DQERR_OK ≫= fun _ =>
  modify (set_readNewTraceMessage true).
End process.
