(* ===== verification/Retire.v ===== *)
(** * What retiring a message does

    The functional behaviour of [Trace::processTraceMessage] and
    [Trace::resetTrace]: timestamps, addresses, and what is left of the counts
    and of the return address stack. *)

From S2P Require Import Prelude Nexus Analytics Counts Decode Memory NextAddr Walk Perf State Process.

(** ** Time *)

(** A full timestamp: the low bits of a time that is less than [2 ^ s] after the
    last one. *)
Lemma processTS_full_spec s last time :
  0 < s < 64 -> 0 <= last <= time -> time < last + 2 ^ s -> time < 2 ^ 64 ->
  processTS s TS_full last (time mod 2 ^ s) = Some time.
Proof.
  intros Hs Hl Ht Hb. pose proof (pow2_pos s ltac:(lia)) as Hp.
  assert (2 ^ s < 2 ^ 64) by (apply Z.pow_lt_mono_r; lia).
  unfold processTS. rewrite shl64_small by lia. cbn [mbind option_bind].
  rewrite Z.mul_1_l, (u64_small (2 ^ s)), (u64_small (2 ^ s - 1)) by lia.
  assert (Z.land last (u64 (Z.lnot (2 ^ s - 1))) = last - last mod 2 ^ s) as ->.
  { replace (2 ^ s - 1) with (Z.ones s) by (rewrite Z.ones_equiv; lia).
    transitivity (Z.ldiff last (Z.ones s)).
    - apply Z.bits_inj'. intros i Hi. unfold u64, wrap.
      rewrite Z.land_spec, Z.ldiff_spec, Z.testbit_mod_pow2, Z.lnot_spec by lia.
      destruct (Z.ltb_spec i 64); [done|].
      by rewrite (testbit_high last 64) by lia.
    - rewrite Z.ldiff_ones_r, Z.shiftl_mul_pow2, Z.shiftr_div_pow2 by lia.
      pose proof (Z.div_mod last (2 ^ s)). lia. }
  pose proof (Z.mod_pos_bound last (2 ^ s) Hp). pose proof (Z.mod_pos_bound time (2 ^ s) Hp).
  pose proof (Z.div_mod last (2 ^ s) ltac:(lia)). pose proof (Z.div_mod time (2 ^ s) ltac:(lia)).
  assert (time / 2 ^ s = last / 2 ^ s \/ time / 2 ^ s = last / 2 ^ s + 1) as [E|E].
  { assert (last / 2 ^ s <= time / 2 ^ s) by (apply Z.div_le_mono; lia).
    assert (time / 2 ^ s <= (last + 1 * 2 ^ s) / 2 ^ s) as Hd by (apply Z.div_le_mono; lia).
    rewrite Z.div_add in Hd; lia. }
  - replace (time mod 2 ^ s + (last - last mod 2 ^ s)) with time by (rewrite E in *; lia).
    rewrite u64_small by lia. by case_cmp.
  - replace (time mod 2 ^ s + (last - last mod 2 ^ s)) with (time - 2 ^ s) by (rewrite E in *; lia).
    assert (0 <= 2 ^ s * (last / 2 ^ s)) by (apply Z.mul_nonneg_nonneg, Z.div_pos; lia).
    rewrite u64_small by (rewrite E in *; lia). case_cmp. cbn [mbind option_bind].
    rewrite u64_small by lia. f_equal. lia.
Qed.

(** A relative timestamp: the exclusive or with the last one. *)
Lemma processTS_rel_spec s last time :
  0 < last <= time -> processTS s TS_rel last (Z.lxor last time) = Some time.
Proof.
  intros Hl. unfold processTS. cbn [mbind option_bind].
  destruct (Z.eqb_spec last 0); [lia|].
  rewrite <-Z.lxor_assoc, Z.lxor_nilpotent, Z.lxor_0_l. by case_cmp.
Qed.

(** ** Addresses *)

Lemma toBytes_even a : 0 <= a < 2 ^ 64 -> a mod 2 = 0 -> toBytes (a / 2) = a.
Proof.
  intros Ha He. unfold toBytes. rewrite Z.shiftl_mul_pow2 by lia.
  rewrite u64_small; dlia.
Qed.

(** The exclusive or with the last address, sent without its low bit, gives back
    the address. *)
Lemma lxor_address last target :
  0 <= last < 2 ^ 64 -> 0 <= target < 2 ^ 64 -> last mod 2 = 0 -> target mod 2 = 0 ->
  Z.lxor last (toBytes (Z.lxor last target / 2)) = target.
Proof.
  intros Hl Ht Hle Hte. rewrite toBytes_even.
  - by rewrite <-Z.lxor_assoc, Z.lxor_nilpotent, Z.lxor_0_l.
  - by apply lxor_bound.
  - rewrite <-Z.bit0_mod in *. rewrite Z.lxor_spec. by destruct (Z.testbit last 0), (Z.testbit target 0).
Qed.

(** Sign extension of an address of [n] bits. *)
Lemma signExtendAddr_spec n a :
  1 <= n <= 64 -> 0 <= a < 2 ^ n ->
  signExtendAddr n a = Some (u64 (if a <? 2 ^ (n - 1) then a else a - 2 ^ n)).
Proof.
  intros Hn Ha. pose proof (pow2_pos (n - 1) ltac:(lia)).
  assert (2 ^ n = 2 * 2 ^ (n - 1)) as H2 by (rewrite <-Z.pow_succ_r by lia; f_equal; lia).
  assert (2 ^ n <= 2 ^ 64) by (apply Z.pow_le_mono_r; lia).
  unfold signExtendAddr. rewrite !shl64_small by lia. cbn [mbind option_bind].
  rewrite Z.mul_1_l, (u64_small (2 ^ (n - 1))) by lia.
  assert (u64 ((2 ^ 64 - 1) * 2 ^ (n - 1)) = 2 ^ 64 - 2 ^ (n - 1)) as ->.
  { unfold u64, wrap. symmetry. apply Z.mod_unique with (2 ^ (n - 1) - 1); lia. }
  assert (Z.land a (2 ^ (n - 1)) = if a <? 2 ^ (n - 1) then 0 else 2 ^ (n - 1)) as ->.
  { pose proof (land_pow2 a (n - 1) ltac:(lia)) as Hl.
    assert (Z.testbit a (n - 1) = negb (a <? 2 ^ (n - 1))) as Hbit.
    { rewrite Z.testbit_odd, Z.shiftr_div_pow2 by lia. destruct (Z.ltb_spec a (2 ^ (n - 1))).
      - by rewrite Z.div_small by lia.
      - by replace (a / 2 ^ (n - 1)) with 1 by (apply Z.div_unique with (a - 2 ^ (n - 1)); lia). }
    apply Z.bits_inj'. intros i Hi. rewrite Z.land_spec, Z.pow2_bits_eqb by lia.
    destruct (Z.eqb_spec (n - 1) i) as [<-|Hne].
    - rewrite Hbit. destruct (a <? _); cbn; [by rewrite Z.bits_0|].
      by rewrite Z.pow2_bits_true by lia.
    - rewrite andb_false_r. destruct (a <? _); [by rewrite Z.bits_0|].
      by rewrite Z.pow2_bits_false by lia. }
  destruct (Z.ltb_spec a (2 ^ (n - 1))).
  - cbn. by rewrite u64_small by lia.
  - destruct (Z.eqb_spec (2 ^ (n - 1)) 0); [lia|]. f_equal.
    unfold u64, wrap. rewrite <-(Z.mod_unique (a - 2 ^ n) (2 ^ 64) (-1) (2 ^ 64 - 2 ^ n + a)) by lia.
    set (b := a - 2 ^ (n - 1)).
    replace (2 ^ 64 - 2 ^ (n - 1)) with ((2 ^ (65 - n) - 1) * 2 ^ (n - 1)).
    2:{ rewrite Z.mul_sub_distr_r, <-Z.pow_add_r by lia. replace (65 - n + (n - 1)) with 64 by lia. lia. }
    transitivity (b + (2 ^ (65 - n) - 1) * 2 ^ (n - 1)).
    2:{ rewrite Z.mul_sub_distr_r, <-Z.pow_add_r by lia.
        replace (65 - n + (n - 1)) with 64 by lia. unfold b. lia. }
    rewrite <-(lor_disjoint_add b) by lia. apply Z.bits_inj'. intros i Hi.
    rewrite !Z.lor_spec. rewrite (Z.mul_pow2_bits _ (n - 1)) by lia.
    replace (2 ^ (65 - n) - 1) with (Z.ones (65 - n)) by (rewrite Z.ones_equiv; lia).
    destruct (Z.ltb_spec i (n - 1)).
    + rewrite (Z.testbit_neg_r _ (i - (n - 1))) by lia. rewrite !orb_false_r.
      replace a with (b + 1 * 2 ^ (n - 1)) by (unfold b; lia).
      rewrite <-(Z.mod_pow2_bits_low (b + 1 * 2 ^ (n - 1)) (n - 1)) by lia.
      by rewrite Z.mod_add, Z.mod_pow2_bits_low by lia.
    + destruct (Z.ltb_spec i 64).
      * rewrite Z.ones_spec_low by lia. by rewrite !orb_true_r.
      * rewrite Z.ones_spec_high by lia. by rewrite !(testbit_high _ 64) by lia.
Qed.

(** ** One core *)

Section retire.
Context {K Perf : Type} `{!CodeMemory K} `{!PerfSink Perf}.
Context (uninit : Inst) (converterStatus : Z -> DQErr).
Implicit Type t : Trace K Perf.

(** The current core is in the arrays, with these elements. *)
Record here_is (c : CoreState) (cc : CoreCounts) t : Prop := {
  hi_core : 0 <= currentCore t;
  hi_state : tr_cores t !! Z.to_nat (currentCore t) = Some c;
  hi_counts : at_core (currentCore t) (tr_walker t) cc;
}.

(** The trace with these elements for its current core. *)
Definition put_here (c : CoreState) (cc : CoreCounts) t : Trace K Perf :=
  set_cores (<[Z.to_nat (currentCore t) := c]> (tr_cores t))
    (set_walker (upd (currentCore t) cc (tr_walker t)) t).

Lemma here_put c cc t c' cc' : here_is c cc t -> here_is c' cc' (put_here c' cc' t).
Proof.
  intros [H1 H2 H3]. split; [done| |].
  - apply list_lookup_insert_eq. by apply lookup_lt_Some in H2.
  - by apply at_upd with cc.
Qed.

Lemma put_put c cc c' cc' t : put_here c' cc' (put_here c cc t) = put_here c' cc' t.
Proof.
  unfold put_here, set_cores, set_walker, currentCore. cbn.
  by rewrite list_insert_insert_eq, upd_upd.
Qed.

Lemma put_id c cc t : here_is c cc t -> put_here c cc t = t.
Proof.
  intros [_ H2 H3]. unfold put_here. rewrite (upd_id _ _ _ H3). unfold set_cores, set_walker. cbn.
  rewrite list_insert_id by done. by destruct t.
Qed.

(** A computation may start from the state in that form. *)
Lemma from_put {A} (m : M (Trace K Perf) DQErr A) c cc t r :
  here_is c cc t -> m (put_here c cc t) = r -> m t = r.
Proof. intros Ht. by rewrite put_id. Qed.

Section here.
Context (c : CoreState) (cc : CoreCounts) (t : Trace K Perf).
Hypothesis Ht : here_is c cc t.

Lemma coreAt_ok : coreAt (currentCore t) t = Ok t c.
Proof. unfold coreAt. by rewrite (proj2 (Z.leb_le _ _) (hi_core _ _ _ Ht)), (hi_state _ _ _ Ht). Qed.

Lemma here_ok : here t = Ok t c.
Proof. unfold here. erewrite bind_ok by done. apply coreAt_ok. Qed.

Lemma setCore_ok f : setCore (currentCore t) f t = Ok (put_here (f c) cc t) tt.
Proof.
  unfold setCore. erewrite bind_ok by apply coreAt_ok. unfold modify. f_equal.
  unfold put_here. by rewrite (upd_id _ _ _ (hi_counts _ _ _ Ht)).
Qed.

Lemma setHere_ok f : setHere f t = Ok (put_here (f c) cc t) tt.
Proof. unfold setHere. erewrite bind_ok by done. apply setCore_ok. Qed.

Lemma onCoreCounts_ok {A} (m : M CoreCounts DQErr A) cc' a :
  m cc = Ok cc' a -> onCoreCounts (currentCore t) m t = Ok (put_here c cc' t) a.
Proof.
  intros Hm. unfold onCoreCounts, onWalker, zoom.
  rewrite (counted_ok _ _ _ _ _ _ (hi_counts _ _ _ Ht) Hm). f_equal.
  unfold put_here, set_cores. cbn. by rewrite (list_insert_id _ _ c) by apply Ht.
Qed.

Lemma countType_ok : countType t = Ok t (getCurrentCountType cc).
Proof.
  unfold countType. erewrite bind_ok by done. rewrite (onCoreCounts_ok _ cc (getCurrentCountType cc)) by done.
  by rewrite put_id.
Qed.

(** The time after a message of the kind. *)
Definition newTime (kind : tsType) : option Z :=
  if nm_haveTimestamp (tr_nm t)
  then processTS (se_tsSize (tr_settings t)) kind (co_lastTime c) (nm_timestamp (tr_nm t))
  else Some (co_lastTime c).

Lemma updateTS_ok kind time :
  newTime kind = Some time -> updateTS kind t = Ok (put_here (set_lastTime time c) cc t) tt.
Proof.
  unfold newTime, updateTS. erewrite (bind_ok get) by done. intros Hn. case_match.
  - erewrite bind_ok by apply here_ok. rewrite Hn. erewrite bind_ok by done. apply setHere_ok.
  - simplify_eq. unfold mret, M_ret. f_equal. rewrite <-(put_id c cc t) at 1 by done.
    f_equal. by destruct c.
Qed.

Lemma xorFaddr_ok a :
  xorFaddr a t =
    Ok (put_here (set_lastFaddr (if co_lastFaddr c =? 0 then 0
                                 else Z.lxor (co_lastFaddr c) (toBytes a)) c) cc t) tt.
Proof.
  unfold xorFaddr. erewrite bind_ok by apply here_ok. destruct (Z.eqb_spec (co_lastFaddr c) 0) as [E|].
  - unfold mret, M_ret. f_equal. rewrite <-(put_id c cc t) at 1 by done.
    f_equal. rewrite <-E. by destruct c.
  - apply setHere_ok.
Qed.

Lemma pcFromFaddr_ok :
  pcFromFaddr t = Ok (put_here (set_currentAddress (co_lastFaddr c) c) cc t) tt.
Proof. unfold pcFromFaddr. erewrite bind_ok by apply here_ok. apply setHere_ok. Qed.
End here.

(** ** The operations, on a state given by the elements of the core *)

Section at_put.
Context (c0 : CoreState) (cc0 : CoreCounts) (t : Trace K Perf).
Hypothesis Ht : here_is c0 cc0 t.
Context (c : CoreState) (cc : CoreCounts).
#[local] Abbreviation s := (put_here c cc t).

Lemma put_here_is : here_is c cc s.
Proof. by apply here_put with c0 cc0. Qed.

Lemma put_here_ok : here s = Ok s c.
Proof. apply (here_ok _ _ _ put_here_is). Qed.

Lemma put_setCore f : setCore (currentCore t) f s = Ok (put_here (f c) cc t) tt.
Proof. etrans; [apply (setCore_ok _ _ _ put_here_is f)|by rewrite put_put]. Qed.

Lemma put_setHere f : setHere f s = Ok (put_here (f c) cc t) tt.
Proof. etrans; [apply (setHere_ok _ _ _ put_here_is f)|by rewrite put_put]. Qed.

Lemma put_onCoreCounts {A} (m : M CoreCounts DQErr A) cc' a :
  m cc = Ok cc' a -> onCoreCounts (currentCore t) m s = Ok (put_here c cc' t) a.
Proof. intros Hm. etrans; [apply (onCoreCounts_ok _ _ _ put_here_is m cc' a Hm)|by rewrite put_put]. Qed.

Lemma put_countType : countType s = Ok s (getCurrentCountType cc).
Proof. apply (countType_ok _ _ _ put_here_is). Qed.

Lemma put_updateTS kind time :
  newTime c t kind = Some time -> updateTS kind s = Ok (put_here (set_lastTime time c) cc t) tt.
Proof. intros Hn. etrans; [apply (updateTS_ok _ _ _ put_here_is kind time Hn)|by rewrite put_put]. Qed.

Lemma put_xorFaddr a :
  xorFaddr a s =
    Ok (put_here (set_lastFaddr (if co_lastFaddr c =? 0 then 0
                                 else Z.lxor (co_lastFaddr c) (toBytes a)) c) cc t) tt.
Proof. etrans; [apply (xorFaddr_ok _ _ _ put_here_is a)|by rewrite put_put]. Qed.

Lemma put_pcFromFaddr :
  pcFromFaddr s = Ok (put_here (set_currentAddress (co_lastFaddr c) c) cc t) tt.
Proof. etrans; [apply (pcFromFaddr_ok _ _ _ put_here_is)|by rewrite put_put]. Qed.
End at_put.

(** ** Messages *)

(** The address of a message that gives it in full; the exclusive or of the
    messages that give it relative to the last one. *)
Definition fullAddress (nm : NexusMessage) : option Z :=
  match nm_tcode nm, nm_body nm with
  | TCODE_SYNC, B_sync _ a _ | TCODE_DIRECT_BRANCH_WS, B_directBranchWS _ a _
  | TCODE_INDIRECT_BRANCH_WS, B_indirectBranchWS _ a _ _
  | TCODE_INDIRECTBRANCHHISTORY_WS, B_indirectHistoryWS _ a _ _ _ => Some a
  | _, _ => None
  end.

Definition diffAddress (nm : NexusMessage) : option Z :=
  match nm_tcode nm, nm_body nm with
  | TCODE_INDIRECT_BRANCH, B_indirectBranch _ a _
  | TCODE_INDIRECTBRANCHHISTORY, B_indirectHistory _ a _ _ => Some a
  | _, _ => None
  end.

(** The element of the core after each. *)
Definition synced (time a : Z) (c : CoreState) : CoreState :=
  set_prevMsgWasSync true (set_currentAddress (toBytes a) (set_lastFaddr (toBytes a)
    (set_lastTime time c))).

Definition relocated (time a : Z) (c : CoreState) : CoreState :=
  let faddr := if co_lastFaddr c =? 0 then 0 else Z.lxor (co_lastFaddr c) (toBytes a) in
  set_prevMsgWasSync false (set_currentAddress faddr (set_lastFaddr faddr (set_lastTime time c))).

(** An index that is [-1] or one of the processes. *)
Definition process_ok (c : CoreState) t : Prop :=
  co_currentProcessIndex c < 0 \/ is_Some (tr_processes t !! Z.to_nat (co_currentProcessIndex c)).

Lemma pidOf_ok c t : process_ok c t -> exists pid, pidOf (co_currentProcessIndex c) t = Ok t pid.
Proof.
  unfold pidOf. destruct (Z.leb_spec 0 (co_currentProcessIndex c)) as [E|]; [|by eexists].
  intros [?|[p Hp]]; [lia|]. eexists. erewrite bind_ok; [done|]. unfold processAt.
  by rewrite (proj2 (Z.leb_le _ _) E), Hp.
Qed.

Section messages.
Context (c : CoreState) (cc : CoreCounts) (t : Trace K Perf).
Hypothesis Ht : here_is c cc t.
Hypothesis Hnm : nm_coreId (tr_nm t) = currentCore t.
Hypothesis Hp : process_ok c t.

Lemma syncAt_ok a time :
  getCurrentCountType cc = COUNTTYPE_none -> newTime c t TS_full = Some time ->
  syncAt (currentCore t) a t =
    Ok (put_here (synced time a c) (resetCounts (set_stack (resetStack (cc_stack cc)) cc)) t) tt.
Proof.
  intros Hc Hn. apply (from_put _ c cc); [done|]. unfold syncAt, requireNoCounts.
  erewrite bind_ok.
  2:{ erewrite bind_ok by by eapply put_countType. rewrite decide_True by done. done. }
  erewrite bind_ok by by eapply put_updateTS. erewrite bind_ok by by eapply put_setHere.
  erewrite bind_ok by by eapply put_pcFromFaddr.
  erewrite bind_ok by by eapply put_onCoreCounts. erewrite bind_ok by by eapply put_onCoreCounts.
  etrans; [by eapply put_setCore|done].
Qed.

Lemma processTraceMessage_sync a time :
  fullAddress (tr_nm t) = Some a ->
  getCurrentCountType cc = COUNTTYPE_none -> newTime c t TS_full = Some time ->
  processTraceMessage uninit converterStatus t =
    Ok (put_here (synced time a c) (resetCounts (set_stack (resetStack (cc_stack cc)) cc)) t) false.
Proof.
  intros Ha Hc Hn. unfold processTraceMessage. erewrite bind_ok by done. rewrite Hnm.
  erewrite bind_ok by by eapply coreAt_ok. destruct (pidOf_ok c t Hp) as [pid E].
  erewrite bind_ok by exact E. unfold fullAddress in Ha.
  by repeat case_match; simplify_eq; erewrite bind_ok by by eapply syncAt_ok.
Qed.

Lemma processTraceMessage_diff a time :
  diffAddress (tr_nm t) = Some a ->
  getCurrentCountType cc = COUNTTYPE_none -> newTime c t TS_rel = Some time ->
  processTraceMessage uninit converterStatus t = Ok (put_here (relocated time a c) cc t) false.
Proof.
  intros Ha Hc Hn. unfold processTraceMessage. erewrite bind_ok by done. rewrite Hnm.
  erewrite bind_ok by by eapply coreAt_ok. destruct (pidOf_ok c t Hp) as [pid E].
  erewrite bind_ok by exact E. unfold diffAddress in Ha.
  repeat case_match; simplify_eq; apply (from_put _ c cc); try done.
  - erewrite bind_ok; [done|]. erewrite bind_ok by by eapply put_updateTS.
    erewrite bind_ok by by eapply put_xorFaddr. erewrite bind_ok by by eapply put_pcFromFaddr.
    etrans; [by eapply put_setCore|done].
  - erewrite bind_ok; [done|]. unfold requireNoBranches. erewrite bind_ok.
    2:{ erewrite bind_ok by by eapply put_countType. by rewrite Hc. }
    erewrite bind_ok by by eapply put_updateTS.
    erewrite bind_ok by by eapply put_xorFaddr. erewrite bind_ok by by eapply put_pcFromFaddr.
    etrans; [by eapply put_setCore|done].
Qed.

Lemma processTraceMessage_direct time :
  nm_tcode (tr_nm t) = TCODE_DIRECT_BRANCH \/ nm_tcode (tr_nm t) = TCODE_CORRELATION ->
  newTime c t TS_rel = Some time ->
  processTraceMessage uninit converterStatus t =
    Ok (put_here (set_prevMsgWasSync false (set_lastTime time c)) cc t) false.
Proof.
  intros Ha Hn. unfold processTraceMessage. erewrite bind_ok by done. rewrite Hnm.
  erewrite bind_ok by by eapply coreAt_ok. destruct (pidOf_ok c t Hp) as [pid E].
  erewrite bind_ok by exact E.
  destruct Ha as [-> | ->]; apply (from_put _ c cc); try done; (erewrite bind_ok; [done|]);
    erewrite bind_ok by (by eapply put_updateTS); (etrans; [by eapply put_setCore|done]).
Qed.
End messages.

(** ** Reset *)

(** A core that waits for a message with a full address. *)
Definition waiting (c : CoreState) : Prop :=
  co_state c = TRACE_STATE_GETFIRSTSYNCMSG /\ co_currentAddress c = 0 /\ co_lastFaddr c = 0 /\
  co_lastTime c = 0 /\ co_prevMsgWasSync c = false.

Lemma resetCore_waiting b c : waiting (resetCore b c).
Proof. by destruct b. Qed.

Lemma resetCounts_none cc : getCurrentCountType (resetCounts cc) = COUNTTYPE_none.
Proof. done. Qed.

Lemma resetTrace_all core t p :
  core < 0 -> tr_processes t !! 0%nat = Some p ->
  exists t', resetTrace core t = Ok t' tt /\
    wk_status (tr_walker t') = DQERR_OK /\ tr_readNewTraceMessage t' = true /\
    Forall waiting (tr_cores t') /\ length (tr_cores t') = length (tr_cores t) /\
    Forall (fun cc => getCurrentCountType cc = COUNTTYPE_none) (wk_counts (tr_walker t')) /\
    cc_stack <$> wk_counts (tr_walker t') = cc_stack <$> wk_counts (tr_walker t).
Proof.
  intros Hc Hp. unfold resetTrace. rewrite (proj2 (Z.ltb_lt _ _) Hc).
  assert (processAt 0 t = Ok t p) as E.
  { unfold processAt. change (Z.to_nat 0) with 0%nat. cbn [Z.leb Z.compare]. by rewrite Hp. }
  erewrite bind_ok by exact E. eexists. split; [done|]. cbn.
  repeat split.
  - apply Forall_map, Forall_true. intros. apply resetCore_waiting.
  - apply length_map.
  - apply Forall_map, Forall_true. intros. apply resetCounts_none.
  - rewrite <-list_fmap_compose. done.
Qed.
End retire.
