(* ===== verification/ItcPrint.v ===== *)
(** * Text printed by the traced program
    (src/dqr.cpp, [ITCPrint] and [TsList]).

    A program prints by writing words to a channel; each core has a ring buffer of
    characters, cut into messages by NULs, and a circular list of [TsList] objects
    that give the times of the messages.  The objects are taken from and returned to
    one free list for all cores, so the model keeps the heap they live in: a pointer
    is an index of [ip_heap], and a null pointer is [None]. *)

From S2P Require Import Prelude Nexus.

(** What the state machine asks of the printer: whether the data was text. *)
Class ItcSink (I : Type) := print : Z -> Z -> Z -> Z -> M I DQErr bool.

(** ** Data *)

(** [message], a pointer into the buffer, is written but never read. *)
Record TsList := {
  ts_prev : option nat;
  ts_next : option nat;
  ts_terminated : bool;
  ts_startTime : Z;
  ts_endTime : Z;
  ts_message : option Z;
}.
Definition newTsList : TsList := {|
  ts_prev := None; ts_next := None; ts_terminated := false; ts_startTime := 0; ts_endTime := 0;
  ts_message := None |}.

Definition set_prev p (t : TsList) : TsList := {|
  ts_prev := p; ts_next := ts_next t; ts_terminated := ts_terminated t;
  ts_startTime := ts_startTime t; ts_endTime := ts_endTime t; ts_message := ts_message t |}.
Definition set_next p (t : TsList) : TsList := {|
  ts_prev := ts_prev t; ts_next := p; ts_terminated := ts_terminated t;
  ts_startTime := ts_startTime t; ts_endTime := ts_endTime t; ts_message := ts_message t |}.
Definition set_terminated b (t : TsList) : TsList := {|
  ts_prev := ts_prev t; ts_next := ts_next t; ts_terminated := b;
  ts_startTime := ts_startTime t; ts_endTime := ts_endTime t; ts_message := ts_message t |}.
Definition set_startTime x (t : TsList) : TsList := {|
  ts_prev := ts_prev t; ts_next := ts_next t; ts_terminated := ts_terminated t;
  ts_startTime := x; ts_endTime := ts_endTime t; ts_message := ts_message t |}.
Definition set_endTime x (t : TsList) : TsList := {|
  ts_prev := ts_prev t; ts_next := ts_next t; ts_terminated := ts_terminated t;
  ts_startTime := ts_startTime t; ts_endTime := x; ts_message := ts_message t |}.
Definition set_message x (t : TsList) : TsList := {|
  ts_prev := ts_prev t; ts_next := ts_next t; ts_terminated := ts_terminated t;
  ts_startTime := ts_startTime t; ts_endTime := ts_endTime t; ts_message := x |}.

(** A format string of a no-load-string print: the number of its arguments and which
    of them are signed. *)
Record NlString := { nl_nf : Z; nl_signedMask : Z; nl_format : option (list Z) }.

(** The elements of the arrays [pbuff], [pbi], [pbo], [numMsgs] and [tsList]. *)
Record PrintQ := {
  pq_buff : list Z;
  pq_pbi : Z;
  pq_pbo : Z;
  pq_numMsgs : Z;
  pq_tsList : option nat;
}.
Definition set_buff b (q : PrintQ) : PrintQ := {|
  pq_buff := b; pq_pbi := pq_pbi q; pq_pbo := pq_pbo q; pq_numMsgs := pq_numMsgs q;
  pq_tsList := pq_tsList q |}.
Definition set_pbi i (q : PrintQ) : PrintQ := {|
  pq_buff := pq_buff q; pq_pbi := i; pq_pbo := pq_pbo q; pq_numMsgs := pq_numMsgs q;
  pq_tsList := pq_tsList q |}.
Definition set_pbo o (q : PrintQ) : PrintQ := {|
  pq_buff := pq_buff q; pq_pbi := pq_pbi q; pq_pbo := o; pq_numMsgs := pq_numMsgs q;
  pq_tsList := pq_tsList q |}.
Definition set_numMsgs n (q : PrintQ) : PrintQ := {|
  pq_buff := pq_buff q; pq_pbi := pq_pbi q; pq_pbo := pq_pbo q; pq_numMsgs := n;
  pq_tsList := pq_tsList q |}.
Definition set_tsList p (q : PrintQ) : PrintQ := {|
  pq_buff := pq_buff q; pq_pbi := pq_pbi q; pq_pbo := pq_pbo q; pq_numMsgs := pq_numMsgs q;
  pq_tsList := p |}.

Record ITCPrint := {
  ip_itcOptFlags : Z;
  ip_numCores : Z;
  ip_buffSize : Z;
  ip_printChannel : Z;
  ip_nlsStrings : option (list NlString);
  ip_queues : list PrintQ;
  ip_freeList : option nat;
  ip_heap : list TsList;
}.
Definition set_queues q (s : ITCPrint) : ITCPrint := {|
  ip_itcOptFlags := ip_itcOptFlags s; ip_numCores := ip_numCores s; ip_buffSize := ip_buffSize s;
  ip_printChannel := ip_printChannel s; ip_nlsStrings := ip_nlsStrings s; ip_queues := q;
  ip_freeList := ip_freeList s; ip_heap := ip_heap s |}.
Definition set_freeList f (s : ITCPrint) : ITCPrint := {|
  ip_itcOptFlags := ip_itcOptFlags s; ip_numCores := ip_numCores s; ip_buffSize := ip_buffSize s;
  ip_printChannel := ip_printChannel s; ip_nlsStrings := ip_nlsStrings s; ip_queues := ip_queues s;
  ip_freeList := f; ip_heap := ip_heap s |}.
Definition set_heap h (s : ITCPrint) : ITCPrint := {|
  ip_itcOptFlags := ip_itcOptFlags s; ip_numCores := ip_numCores s; ip_buffSize := ip_buffSize s;
  ip_printChannel := ip_printChannel s; ip_nlsStrings := ip_nlsStrings s; ip_queues := ip_queues s;
  ip_freeList := ip_freeList s; ip_heap := h |}.

Definition ITC_OPT_PRINT : Z := 1.
Definition ITC_OPT_NLS : Z := 2.

(** The constructor: the buffers are not initialised, [fill] is what they hold. *)
Definition newITCPrint (itcPrintOpts numCores buffSize channel : Z) (nls : option (list NlString))
    (fill : Z) : ITCPrint :=
  let bad := (numCores <=? 0) || (buffSize <=? 0) in
  let numCores := if bad then 1 else numCores in
  let buffSize := if bad then 1024 else buffSize in
  {| ip_itcOptFlags := itcPrintOpts; ip_numCores := numCores; ip_buffSize := buffSize;
     ip_printChannel := channel; ip_nlsStrings := nls;
     ip_queues := replicate (Z.to_nat numCores)
       {| pq_buff := replicate (Z.to_nat buffSize) fill; pq_pbi := 0; pq_pbo := 0;
          pq_numMsgs := 0; pq_tsList := None |};
     ip_freeList := None; ip_heap := [] |}.

(** ** Access *)

#[local] Abbreviation IM := (M ITCPrint DQErr).

(** The arrays at a core; outside them the access is undefined. *)
Definition queueAt (core : Z) : IM PrintQ := fun s =>
  lift_opt (if 0 <=? core then ip_queues s !! Z.to_nat core else None) s.
Definition setQueue (core : Z) (f : PrintQ -> PrintQ) : IM unit :=
  q ← queueAt core; modify (fun s => set_queues (<[Z.to_nat core := f q]> (ip_queues s)) s).

(** [*p], and an assignment to a member of it. *)
Definition deref (p : option nat) : IM TsList := fun s =>
  lift_opt (i ← p; ip_heap s !! i) s.
Definition assign (p : option nat) (f : TsList -> TsList) : IM unit := fun s =>
  match p with
  | None => Undef
  | Some i =>
      match ip_heap s !! i with
      | None => Undef
      | Some t => Ok (set_heap (<[i := f t]> (ip_heap s)) s) tt
      end
  end.

(** [new TsList()]. *)
Definition newTs : IM (option nat) := fun s =>
  Ok (set_heap (ip_heap s ++ [newTsList]) s) (Some (length (ip_heap s))).

(** [pbuff[core][pbi[core]] = b;] *)
Definition store (core b : Z) : IM unit :=
  q ← queueAt core;
  if (0 <=? pq_pbi q) && (pq_pbi q <? Z.of_nat (length (pq_buff q)))
  then setQueue core (fun q => set_buff (<[Z.to_nat (pq_pbi q) := b]> (pq_buff q)) q)
  else undef.

(** [i += 1; if (i >= buffSize) i = 0;] *)
Definition wrapNext (size i : Z) : Z := if size <=? i + 1 then 0 else i + 1.

Definition bumpIn (core : Z) : IM unit :=
  s ← get; setQueue core (fun q => set_pbi (wrapNext (ip_buffSize s) (pq_pbi q)) q).
Definition bumpOut (core : Z) : IM unit :=
  s ← get; setQueue core (fun q => set_pbo (wrapNext (ip_buffSize s) (pq_pbo q)) q).
Definition countMsg (core n : Z) : IM unit :=
  setQueue core (fun q => set_numMsgs (pq_numMsgs q + n) q).

(** A character, and a NUL that ends a message. *)
Definition putChar (core b : Z) : IM unit := store core b ≫= fun _ => bumpIn core.

Definition roomInITCPrintQ (core : Z) : IM Z :=
  s ← get;
  if ip_numCores s <=? core then mret 0
  else
    q ← queueAt core;
    mret (if pq_pbo q <? pq_pbi q then ip_buffSize s - pq_pbi q + pq_pbo q - 1
          else if pq_pbi q <? pq_pbo q then pq_pbo q - pq_pbi q - 1
          else ip_buffSize s - 1).

(** ** Printing *)

(** An object from the free list, or a new one. *)
Definition allocTs : IM (option nat) :=
  s ← get;
  match ip_freeList s with
  | Some i =>
      w ← deref (Some i);
      modify (set_freeList (ts_next w)) ≫= fun _ =>
      assign (Some i) (set_terminated false) ≫= fun _ =>
      assign (Some i) (set_message None) ≫= fun _ => mret (Some i)
  | None => newTs
  end.

(** [workingtlp] becomes the newest object of the circle of [tlp]. *)
Definition linkTs (tlp w : option nat) : IM unit :=
  match tlp with
  | None =>
      assign w (set_next w) ≫= fun _ => assign w (set_prev w)
  | Some _ =>
      assign w (set_next tlp) ≫= fun _ =>
      t ← deref tlp;
      assign w (set_prev (ts_prev t)) ≫= fun _ =>
      assign tlp (set_prev w) ≫= fun _ =>
      w' ← deref w;
      assign (ts_prev w') (set_next w)
  end.

(** [&pbuff[core][pbi[core]]], as the index. *)
Definition mark (core : Z) (w : option nat) : IM unit :=
  q ← queueAt core; assign w (set_message (Some (pq_pbi q))).

(** The [int16_t] and [int8_t] parts of the word, or the unsigned ones. *)
Definition part (w : Z) (signed : bool) (x : Z) : Z := if signed then swrap w x else wrap w x.

(** A field of 11 or 10 bits; the sign is extended by or-ing the high bits. *)
Definition field3 (bits : Z) (signed : bool) (x : Z) : Z :=
  let v := Z.land x (2 ^ bits - 1) in
  if signed && Z.testbit v (bits - 1) then i32 (Z.lor v (2 ^ 32 - 2 ^ bits)) else v.

(** The arguments of the format string, taken from the word; [None] for too many. *)
Definition nlsArgs (nl : NlString) (data : Z) : option (list Z) :=
  let signed i := Z.testbit (nl_signedMask nl) i in
  match nl_nf nl with
  | 0 => Some []
  | 1 => Some [data]
  | 2 => Some [part 16 (signed 0) (Z.shiftr data 16); part 16 (signed 1) data]
  | 3 => Some [field3 11 (signed 0) (Z.shiftr data 21); field3 11 (signed 1) (Z.shiftr data 10);
               field3 10 (signed 2) data]
  | 4 => Some [part 8 (signed 0) (Z.shiftr data 24); part 8 (signed 1) (Z.shiftr data 16);
               part 8 (signed 2) (Z.shiftr data 8); part 8 (signed 3) data]
  | _ => None
  end.

Section printing.
(** [sprintf] with integer arguments, and the message for a bad format string,
    [sprintf(dst,"Error: invalid number ...",channel,format)]. *)
Context (sprintf : list Z -> list Z -> list Z) (badArgs : Z -> list Z -> list Z).

(** The text of a no-load-string print; [dst] has 256 characters. *)
Definition nlsText (channel : Z) (nl : NlString) (format : list Z) (data : Z) : option (list Z) :=
  let dst := match nlsArgs nl data with
             | Some args => sprintf format args
             | None => badArgs channel format
             end in
  if Z.of_nat (length dst) <? 256 then Some dst else None.

(** The characters of a text, as long as there is room. *)
Fixpoint putText (core : Z) (room : Z) (text : list Z) : IM unit :=
  match text with
  | [] => mret tt
  | b :: text =>
      if 2 <=? room then putChar core b ≫= fun _ => putText core (room - 1) text
      else putText core room text
  end.

(** [ITC_OPT_NLS]: the message in progress is ended, and the text is a message of
    its own. *)
Definition printNls (core : Z) (tlp : option nat) (text : list Z) (tstamp : Z) : IM bool :=
  (match tlp with
   | None => mret tt
   | Some _ =>
       t ← deref tlp;
       if ts_terminated t then mret tt
       else
         putChar core 0 ≫= fun _ => countMsg core 1 ≫= fun _ => assign tlp (set_terminated true)
   end) ≫= fun _ =>
  w ← allocTs;
  linkTs tlp w ≫= fun _ =>
  assign w (set_startTime tstamp) ≫= fun _ =>
  assign w (set_endTime tstamp) ≫= fun _ =>
  mark core w ≫= fun _ =>
  setQueue core (set_tsList w) ≫= fun _ =>
  room ← roomInITCPrintQ core;
  putText core room text ≫= fun _ =>
  putChar core 0 ≫= fun _ =>
  assign w (set_terminated true) ≫= fun _ =>
  countMsg core 1 ≫= fun _ => mret true.

(** The loop over the bytes of the word. *)
Fixpoint printBytes (core : Z) (w : option nat) (room : Z) (bytes : list Z) : IM unit :=
  match bytes with
  | [] => mret tt
  | b :: bytes =>
      if 2 <=? room then
        putChar core b ≫= fun _ =>
        if b =? 0 then
          countMsg core 1 ≫= fun _ => assign w (set_terminated true) ≫= fun _ =>
          printBytes core w (room - 1) bytes
        else if (b =? 10) || (b =? 13) then
          putChar core 0 ≫= fun _ =>
          countMsg core 1 ≫= fun _ => assign w (set_terminated true) ≫= fun _ =>
          printBytes core w (room - 2) bytes
        else printBytes core w (room - 1) bytes
      else printBytes core w room bytes
  end.

(** The bytes of a word, least significant first. *)
Definition wordBytes (data : Z) : list Z :=
  [Z.land data 255; Z.land (Z.shiftr data 8) 255; Z.land (Z.shiftr data 16) 255; Z.shiftr data 24].

(** [ITC_OPT_PRINT], for a write to the channel: the object in progress, or a new
    one. *)
Definition printWord (core : Z) (tlp : option nat) (bytes : list Z) (tstamp : Z) : IM bool :=
  fresh ← (match tlp with
           | None => mret true
           | Some _ => t ← deref tlp; mret (ts_terminated t)
           end);
  w ← (if fresh : bool then
         w ← allocTs;
         linkTs tlp w ≫= fun _ =>
         assign w (set_terminated false) ≫= fun _ =>
         assign w (set_startTime tstamp) ≫= fun _ =>
         mark core w ≫= fun _ =>
         setQueue core (set_tsList w) ≫= fun _ => mret w
       else mret tlp);
  assign w (set_endTime tstamp) ≫= fun _ =>
  room ← roomInITCPrintQ core;
  printBytes core w room bytes ≫= fun _ =>
  store core 0 ≫= fun _ => mret true.

(** [ITCPrint::print(core,addr,data,tstamp)]: whether it was text. *)
Definition itcPrint (core addr data tstamp : Z) : IM bool :=
  s ← get;
  if ip_numCores s <=? core then mret false
  else
    q ← queueAt core;
    let tlp := pq_tsList q in
    let channel := addr / 4 in
    let isPrint :=
      if negb (Z.land (ip_itcOptFlags s) ITC_OPT_PRINT =? 0) then
        if (addr <? u32 (u32 (ip_printChannel s) * 4)) || (u32 ((u32 (ip_printChannel s) + 1) * 4) <=? addr)
        then mret false
        else printWord core tlp (take (4 - Z.to_nat (Z.land addr 3)) (wordBytes data)) tstamp
      else mret false in
    match (if negb (Z.land (ip_itcOptFlags s) ITC_OPT_NLS =? 0) && (Z.land addr 3 =? 0)
           then ip_nlsStrings s else None) with
    | None => isPrint
    | Some nls =>
        nl ← lift_opt (nls !! Z.to_nat channel);
        match nl_format nl with
        | None => isPrint
        | Some format =>
            text ← lift_opt (nlsText channel nl format data);
            printNls core tlp text tstamp
        end
    end.

#[export] Instance ITCPrint_sink : ItcSink ITCPrint := itcPrint.
End printing.

(** ** Queries *)

Definition haveITCPrintMsgs (s : ITCPrint) : bool :=
  existsb (fun q => negb (pq_numMsgs q =? 0)) (take (Z.to_nat (ip_numCores s)) (ip_queues s)).

(** A mask of the cores with [f]; [1 << core] is undefined from 32 on. *)
Definition coreMask (f : PrintQ -> bool) (s : ITCPrint) : option Z :=
  foldr (fun '(k, q) o => m ← o; if f q then if 32 <=? k then None else Some (Z.lor m (i32 (2 ^ k)))
                                 else Some m)
    (Some 0) (zip (Z.of_nat <$> seq 0 (length (ip_queues s))) (ip_queues s)).

Definition getITCPrintMask : ITCPrint -> option Z := coreMask (fun q => negb (pq_numMsgs q =? 0)).
Definition getITCFlushMask : ITCPrint -> option Z :=
  coreMask (fun q => (0 <? pq_numMsgs q) || negb (pq_pbo q =? pq_pbi q)).

Definition haveITCPrintData (s : ITCPrint) : list Z * list bool :=
  (pq_numMsgs <$> ip_queues s, (fun q => negb (pq_pbi q =? pq_pbo q)) <$> ip_queues s).

(** ** Reading *)

(** [tsl] leaves the circle of the core and goes to the free list. *)
Definition unlinkTs (core : Z) (tsl : option nat) : IM unit :=
  q ← queueAt core;
  t ← deref tsl;
  (if decide (ts_next t = tsl) then setQueue core (set_tsList None)
   else
     assign (pq_tsList q) (set_prev (ts_prev t)) ≫= fun _ =>
     h ← deref (pq_tsList q);
     t ← deref tsl;
     if decide (ts_next h = tsl) then assign (pq_tsList q) (set_next (ts_next t)) else mret tt) ≫= fun _ =>
  s ← get;
  assign tsl (set_next (ip_freeList s)) ≫= fun _ =>
  assign tsl (set_prev None) ≫= fun _ =>
  modify (set_freeList tsl).

(** The oldest object, if its message has ended. *)
Definition consumeTerminatedTsList (core : Z) : IM (option nat) :=
  q ← queueAt core;
  if 0 <? pq_numMsgs q then
    match pq_tsList q with
    | None => mret None
    | Some i =>
        h ← deref (Some i);
        t ← deref (ts_prev h);
        if ts_terminated t then unlinkTs core (ts_prev h) ≫= fun _ => mret (ts_prev h) else mret None
    end
  else mret None.

Definition consumeOldestTsList (core : Z) : IM (option nat) :=
  rv ← consumeTerminatedTsList core;
  match rv with
  | Some _ => mret rv
  | None =>
      q ← queueAt core;
      match pq_tsList q with
      | None => mret None
      | Some i => unlinkTs core (Some i) ≫= fun _ => mret (Some i)
      end
  end.

(** [pbuff[core][pbo[core]]]. *)
Definition peek (core : Z) : IM Z :=
  q ← queueAt core;
  lift_opt (if 0 <=? pq_pbo q then pq_buff q !! Z.to_nat (pq_pbo q) else None).

(** The characters up to the NUL, at most [max] if there is a bound. *)
Fixpoint takeText (fuel : nat) (core : Z) (max : option Z) : IM (list Z) :=
  match fuel with
  | O => fun _ => NoFuel
  | S fuel =>
      b ← peek core;
      if (b =? 0) || (match max with Some n => n <=? 1 | None => false end) then mret []
      else
        bumpOut core ≫= fun _ =>
        text ← takeText fuel core ((fun n => n - 1) <$> max);
        mret (b :: text)
  end.

(** What the getters answer: the text, the start and the end time. *)
Definition Text : Type := list Z * Z * Z.

Section reading.
Context (fuel : nat).

(** The body shared by the two getters; [max] is [dstLen]. *)
Definition getText (core : Z) (max : option Z) : IM (option Text) :=
  s ← get;
  if ip_numCores s <=? core then mret None
  else if (match max with Some n => n <=? 0 | None => false end) then mret None
  else
    q ← queueAt core;
    if 0 <? pq_numMsgs q then
      tsl ← consumeTerminatedTsList core;
      match tsl with
      | None => mret None
      | Some _ =>
          t ← deref tsl;
          countMsg core (-1) ≫= fun _ =>
          text ← takeText fuel core max;
          bumpOut core ≫= fun _ =>
          mret (Some (text, ts_startTime t, ts_endTime t))
      end
    else mret None.

Definition getITCPrintMsg (core dstLen : Z) : IM (option Text) := getText core (Some dstLen).
Definition getITCPrintStr (core : Z) : IM (option Text) := getText core None.

(** The same with the message in progress. *)
Definition flushText (core : Z) (max : option Z) : IM (option Text) :=
  s ← get;
  if ip_numCores s <=? core then mret None
  else if (match max with Some n => n <=? 0 | None => false end) then mret None
  else
    q ← queueAt core;
    if 0 <? pq_numMsgs q then getText core max
    else if negb (pq_pbo q =? pq_pbi q) then
      tsl ← consumeOldestTsList core;
      match tsl with
      | None => mret None
      | Some _ =>
          t ← deref tsl;
          if ts_terminated t then mret None
          else
            text ← takeText fuel core max;
            mret (Some (text, ts_startTime t, ts_endTime t))
      end
    else mret None.

Definition flushITCPrintMsg (core dstLen : Z) : IM (option Text) := flushText core (Some dstLen).
Definition flushITCPrintStr (core : Z) : IM (option Text) := flushText core None.
End reading.
