(* ===== verification/ItcQueue.v ===== *)
(** * The printed text is read back: [ITCPrint] for one core

    An abstract queue of messages, and the proof that the ring buffer, the circle of
    [TsList] objects and the free list of ItcPrint.v implement it, for one core and
    for words that fit and end at most one message. *)

From S2P Require Import Prelude Nexus ItcPrint.
From stdpp Require Import list.
#[local] Open Scope Z_scope.

(** ** The ring buffer *)

(** The place of the [i]-th character to read. *)
Definition slot (size pbo : Z) (i : nat) : Z :=
  let j := pbo + Z.of_nat i in if j <? size then j else j - size.

(** The buffer holds [l]. *)
Record ring (size : Z) (l : list Z) (q : PrintQ) : Prop := {
  rg_buff : Z.of_nat (length (pq_buff q)) = size;
  rg_fit : Z.of_nat (length l) < size;
  rg_pbo : 0 <= pq_pbo q < size;
  rg_pbi : pq_pbi q = slot size (pq_pbo q) (length l);
  rg_at : forall i b, l !! i = Some b -> pq_buff q !! Z.to_nat (slot size (pq_pbo q) i) = Some b;
}.

(** The ring, the number of messages and the newest object. *)
Definition queue (size : Z) (l : list Z) (n : Z) (p : option nat) (q : PrintQ) : Prop :=
  ring size l q /\ pq_numMsgs q = n /\ pq_tsList q = p.

Lemma slot_bounds size o i : 0 <= o < size -> Z.of_nat i < size -> 0 <= slot size o i < size.
Proof. unfold slot. intros. case_cmp; lia. Qed.

Lemma slot_inj size o i j : 0 <= o < size -> Z.of_nat i < size -> Z.of_nat j < size ->
  slot size o i = slot size o j -> i = j.
Proof. unfold slot. intros ???. case_cmp; lia. Qed.

Lemma slot_S size o i : 0 <= o < size -> Z.of_nat i < size ->
  slot size (wrapNext size o) i = slot size o (S i).
Proof. unfold slot, wrapNext. intros. case_cmp; lia. Qed.

Lemma slot_next size o i : 0 <= o < size -> Z.of_nat i < size ->
  wrapNext size (slot size o i) = slot size o (S i).
Proof. unfold slot, wrapNext. intros. case_cmp; lia. Qed.

(** A write at [pbi] does not touch the characters to read. *)
Lemma ring_store size l q b :
  ring size l q -> ring size l (set_buff (<[Z.to_nat (pq_pbi q) := b]> (pq_buff q)) q).
Proof.
  intros [Hb Hf Ho Hi Ha]. split; simpl; try done.
  - by rewrite length_insert.
  - intros i x Hx. pose proof (lookup_lt_Some _ _ _ Hx). rewrite list_lookup_insert_ne; [eauto|].
    rewrite Hi. intros E.
    assert (slot size (pq_pbo q) (length l) = slot size (pq_pbo q) i) as E'.
    { pose proof (slot_bounds size (pq_pbo q) i Ho). pose proof (slot_bounds size (pq_pbo q) (length l) Ho). lia. }
    apply slot_inj in E'; lia.
Qed.

Lemma ring_push size l q b :
  ring size l q -> Z.of_nat (length l) + 1 < size ->
  ring size (l ++ [b])
    (set_pbi (wrapNext size (pq_pbi q)) (set_buff (<[Z.to_nat (pq_pbi q) := b]> (pq_buff q)) q)).
Proof.
  intros H Hr. pose proof (ring_store _ _ _ b H) as [_ _ _ _ Ha']. destruct H as [Hb Hf Ho Hi Ha].
  simpl in Ha'. split; simpl; try done.
  - by rewrite length_insert.
  - rewrite length_app. simpl. lia.
  - rewrite Hi, slot_next, length_app by lia. f_equal. simpl. lia.
  - intros i x [Hx|[Hl Hx]]%lookup_app_Some; [by apply Ha'|].
    assert (i = length l) as -> by (apply lookup_lt_Some in Hx; simpl in Hx; lia).
    rewrite Nat.sub_diag in Hx. injection Hx as ->. rewrite <-Hi.
    rewrite list_lookup_insert_eq; [done|]. pose proof (slot_bounds size (pq_pbo q) (length l)). lia.
Qed.

Lemma ring_pop size b l q :
  ring size (b :: l) q -> ring size l (set_pbo (wrapNext size (pq_pbo q)) q).
Proof.
  intros [Hb Hf Ho Hi Ha]. simpl in Hf. split; simpl; try done; try lia.
  - unfold wrapNext. case_cmp; lia.
  - rewrite slot_S by lia. done.
  - intros i x Hx. pose proof (lookup_lt_Some _ _ _ Hx).
    rewrite slot_S by lia. by apply (Ha (S i)).
Qed.

(** ** One core *)

(** What the constructor fixes. *)
Record Config := { cf_flags : Z; cf_size : Z; cf_channel : Z; cf_nls : option (list NlString) }.

Definition core1 (c : Config) (q : PrintQ) (fl : option nat) (h : list TsList) : ITCPrint := {|
  ip_itcOptFlags := cf_flags c; ip_numCores := 1; ip_buffSize := cf_size c;
  ip_printChannel := cf_channel c; ip_nlsStrings := cf_nls c; ip_queues := [q];
  ip_freeList := fl; ip_heap := h |}.

Section queues.
Context (c : Config).
#[local] Abbreviation size := (cf_size c).

Lemma setQueue_core1 f q fl h : setQueue 0 f (core1 c q fl h) = Ok (core1 c (f q) fl h) tt.
Proof. done. Qed.

Lemma queueAt_core1 q fl h : queueAt 0 (core1 c q fl h) = Ok (core1 c q fl h) q.
Proof. done. Qed.

Lemma store_core1 l b q fl h : ring size l q ->
  store 0 b (core1 c q fl h) = Ok (core1 c (set_buff (<[Z.to_nat (pq_pbi q) := b]> (pq_buff q)) q) fl h) tt.
Proof.
  intros [Hb Hf Ho Hi _]. unfold store. rewrite (bind_ok _ _ _ _ _ (queueAt_core1 _ _ _)).
  pose proof (slot_bounds size (pq_pbo q) (length l) Ho Hf). rewrite <-Hi in *. rewrite Hb. by case_cmp.
Qed.

Lemma countMsg_spec l n m p q fl h : queue size l n p q ->
  exists q', countMsg 0 m (core1 c q fl h) = Ok (core1 c q' fl h) tt /\ queue size l (n + m) p q'.
Proof. intros ([] & <- & <-). eexists. split; [done|]. split; [by constructor|done]. Qed.

Lemma store_spec l n p b q fl h : queue size l n p q ->
  exists q', store 0 b (core1 c q fl h) = Ok (core1 c q' fl h) tt /\ queue size l n p q'.
Proof.
  intros (H & <- & <-). pose proof (ring_store _ _ _ b H).
  eexists. split; [by apply store_core1 with l|done].
Qed.

Lemma putChar_spec l n p b q fl h : queue size l n p q -> Z.of_nat (length l) + 1 < size ->
  exists q', putChar 0 b (core1 c q fl h) = Ok (core1 c q' fl h) tt /\ queue size (l ++ [b]) n p q'.
Proof.
  intros (H & <- & <-) Hr. pose proof (ring_push _ _ _ b H Hr).
  eexists. split; [|done].
  unfold putChar. by rewrite (bind_ok _ _ _ _ _ (store_core1 _ b _ fl h H)).
Qed.

Lemma room_spec l n p q fl h : queue size l n p q ->
  roomInITCPrintQ 0 (core1 c q fl h) = Ok (core1 c q fl h) (size - 1 - Z.of_nat (length l)).
Proof.
  intros ([Hb Hf Ho Hi _] & _ & _). unfold roomInITCPrintQ.
  rewrite bind_get. cbn [ip_numCores core1 Z.leb Z.compare].
  rewrite (bind_ok _ _ _ _ _ (queueAt_core1 _ _ _)).
  unfold mret, M_ret. f_equal. cbn [ip_buffSize core1]. unfold slot in Hi.
  destruct (Z.ltb_spec (pq_pbo q + Z.of_nat (length l)) size); case_cmp; lia.
Qed.

Lemma bumpOut_spec b l n p q fl h : queue size (b :: l) n p q ->
  exists q', bumpOut 0 (core1 c q fl h) = Ok (core1 c q' fl h) tt /\ queue size l n p q'.
Proof. intros (H & <- & <-). pose proof (ring_pop _ _ _ _ H). by eexists. Qed.

Lemma peek_spec b l n p q fl h : queue size (b :: l) n p q ->
  peek 0 (core1 c q fl h) = Ok (core1 c q fl h) b.
Proof.
  intros ([Hb Hf Ho Hi Ha] & _ & _). unfold peek. rewrite (bind_ok _ _ _ _ _ (queueAt_core1 _ _ _)).
  specialize (Ha O b eq_refl). unfold slot in Ha. rewrite Z.add_0_r in Ha.
  destruct (Z.ltb_spec (pq_pbo q) size); [|lia]. destruct (Z.leb_spec 0 (pq_pbo q)); [|lia].
  unfold lift_opt. by rewrite Ha.
Qed.

(** The text up to the NUL. *)
Lemma takeText_spec fuel text l n p fl h : forall q,
  queue size (text ++ 0 :: l) n p q -> Forall (fun b => b <> 0) text -> (length text < fuel)%nat ->
  exists q', takeText fuel 0 None (core1 c q fl h) = Ok (core1 c q' fl h) text /\ queue size (0 :: l) n p q'.
Proof.
  revert fuel. induction text as [|b text IH]; intros fuel q Hq Hn Hf.
  - destruct fuel as [|fuel]; [simpl in Hf; lia|]. cbn [takeText].
    rewrite (bind_ok _ _ _ _ _ (peek_spec _ _ _ _ _ _ _ Hq)). eauto.
  - destruct fuel as [|fuel]; [simpl in Hf; lia|]. cbn [takeText]. inversion Hn as [|?? Hb Hn']; subst.
    rewrite (bind_ok _ _ _ _ _ (peek_spec _ _ _ _ _ _ _ Hq)).
    rewrite (proj2 (Z.eqb_neq b 0)) by done. cbn [orb].
    destruct (bumpOut_spec _ _ _ _ _ fl h Hq) as (q1 & E1 & Hq1). rewrite (bind_ok _ _ _ _ _ E1).
    destruct (IH fuel q1 Hq1 Hn' ltac:(simpl in Hf; lia)) as (q2 & E2 & Hq2).
    cbn [fmap option_fmap option_map]. rewrite (bind_ok _ _ _ _ _ E2). eauto.
Qed.

(** A text that fits is copied. *)
Lemma putText_spec text : forall l n p q fl h,
  queue size l n p q -> Z.of_nat (length l + length text) + 2 <= size ->
  exists q', putText 0 (size - 1 - Z.of_nat (length l)) text (core1 c q fl h) = Ok (core1 c q' fl h) tt /\
    queue size (l ++ text) n p q'.
Proof.
  induction text as [|b text IH]; intros l n p q fl h Hq Hf; cbn [putText].
  - exists q. rewrite app_nil_r. done.
  - cbn [length] in Hf. destruct (Z.leb_spec 2 (size - 1 - Z.of_nat (length l))); [|lia].
    destruct (putChar_spec _ _ _ b _ fl h Hq ltac:(lia)) as (q1 & E1 & Hq1). rewrite (bind_ok _ _ _ _ _ E1).
    destruct (IH _ _ _ _ fl h Hq1) as (q2 & E2 & Hq2); [rewrite length_app; simpl; lia|].
    exists q2. rewrite <-app_assoc in Hq2. split; [|done]. rewrite <-E2. f_equal. rewrite length_app. simpl. lia.
Qed.
End queues.

(** ** The circle of [TsList] objects *)

Definition prevOf (h : list TsList) (p : nat) : option (option nat) := ts_prev <$> h !! p.
Definition nextOf (h : list TsList) (p : nat) : option (option nat) := ts_next <$> h !! p.
(** The times of a message, and whether it has ended. *)
Definition infoOf (h : list TsList) (p : nat) : option (Z * Z * bool) :=
  (fun t => (ts_startTime t, ts_endTime t, ts_terminated t)) <$> h !! p.

(** [ps]: the objects of the circle, the oldest first; [free]: the free list.  [prev]
    leads from an object to the next newer one and from the newest to the oldest;
    [next] is only right for the newest object. *)
Record links (h : list TsList) (ps free : list nat) : Prop := {
  lk_dup : NoDup (ps ++ free);
  lk_prev : forall i p, ps !! i = Some p ->
    prevOf h p = Some (match ps !! S i with Some r => Some r | None => head ps end);
  lk_next : (2 <= length ps)%nat -> forall p, p ∈ ps -> exists r, nextOf h p = Some r /\ r <> Some p;
  lk_newest : forall i p r, ps !! i = Some r -> ps !! S i = Some p -> S (S i) = length ps ->
    nextOf h p = Some (Some r);
  lk_free : forall i p, free !! i = Some p -> nextOf h p = Some (free !! S i);
}.

(** [tsList]: the newest object; of an empty circle, null or the object that was
    freed last. *)
Definition newest (h : list TsList) (tl : option nat) (ps free : list nat) : Prop :=
  match last ps with
  | Some n => tl = Some n
  | None => tl = None \/
      exists x, tl = Some x /\ head free = Some x /\ prevOf h x = Some None /\
        exists i, infoOf h x = Some i /\ i.2 = true
  end.

Section heap.
Context (c : Config).

Lemma assign_spec i f q fl h : is_Some (h !! i) ->
  assign (Some i) f (core1 c q fl h) = Ok (core1 c q fl (alter f i h)) tt.
Proof.
  intros [t Ht]. unfold assign. cbn [ip_heap core1]. rewrite Ht.
  unfold set_heap. cbn. do 2 f_equal. apply list_eq. intros j.
  destruct (decide (i = j)) as [<-|Hj].
  - rewrite list_lookup_insert_eq by (by eapply lookup_lt_Some). by rewrite list_lookup_alter_eq, Ht.
  - by rewrite list_lookup_insert_ne, list_lookup_alter_ne.
Qed.

Lemma deref_spec i t q fl h : h !! i = Some t ->
  deref (Some i) (core1 c q fl h) = Ok (core1 c q fl h) t.
Proof. intros Ht. unfold deref. cbn. by rewrite Ht. Qed.
End heap.

(** A member that the assignment does not change, and the member assigned. *)
Lemma alter_other {A} (g : TsList -> A) f i (h : list TsList) p :
  (forall t, g (f t) = g t) -> g <$> alter f i h !! p = g <$> h !! p.
Proof.
  intros Hf. destruct (decide (p = i)) as [->|]; [|by rewrite list_lookup_alter_ne].
  rewrite list_lookup_alter_eq. destruct (h !! i); [|done]. simpl. by rewrite Hf.
Qed.
Lemma alter_same {A} (g : TsList -> A) f x i (h : list TsList) p :
  (forall t, g (f t) = x) -> is_Some (h !! i) ->
  g <$> alter f i h !! p = if decide (p = i) then Some x else g <$> h !! p.
Proof.
  intros Hf [t Ht]. destruct (decide (p = i)) as [->|]; [|by rewrite list_lookup_alter_ne].
  rewrite list_lookup_alter_eq, Ht. simpl. by rewrite Hf.
Qed.
Lemma alter_is_Some f i (h : list TsList) p : is_Some (h !! p) -> is_Some (alter f i h !! p).
Proof. intros [t Ht]. apply lookup_lt_is_Some. rewrite length_alter. by eapply lookup_lt_Some. Qed.
#[local] Hint Resolve alter_is_Some : core.
Ltac alters :=
  unfold prevOf, nextOf, infoOf;
  repeat ((rewrite alter_other by done) || 
    (erewrite alter_same; [|intros; cbn; reflexivity|solve [eauto using alter_is_Some, mk_is_Some]])).

(** An object for a new message: it is in use nowhere. *)
Lemma allocTs_spec c h ps free q : links h ps free ->
  exists w h1 free1,
    allocTs (core1 c q (head free) h) = Ok (core1 c q (head free1) h1) (Some w) /\
    NoDup (w :: ps ++ free1) /\ is_Some (h1 !! w) /\
    (forall p, p ∈ ps ++ free1 -> h1 !! p = h !! p) /\
    (free = [] /\ free1 = [] \/ free = w :: free1 /\ prevOf h1 w = prevOf h w).
Proof.
  intros [Hd Hp Hn Hw Hf]. unfold allocTs.
  assert (forall p, p ∈ ps ++ free -> is_Some (h !! p)) as Hin.
  { intros p [[i Hi]%list_elem_of_lookup_1|[i Hi]%list_elem_of_lookup_1]%elem_of_app.
    - pose proof (Hp i p Hi) as E. unfold prevOf in E. destruct (h !! p); [eauto|done].
    - pose proof (Hf i p Hi) as E. unfold nextOf in E. destruct (h !! p); [eauto|done]. }
  destruct free as [|w free]; cbn [head]; rewrite bind_get.
  - exists (length h), (h ++ [newTsList]), []. split_and!; [done| |..].
    + apply NoDup_cons. split; [|done]. intros [t Ht]%Hin. apply lookup_lt_Some in Ht. lia.
    + rewrite lookup_app_r by lia. rewrite Nat.sub_diag. eauto.
    + intros p [t Ht]%Hin. by rewrite lookup_app_l by (by eapply lookup_lt_Some).
    + by left.
  - destruct (Hin w) as [t Ht]; [set_solver|].
    pose proof (Hf O w eq_refl) as Hnx. unfold nextOf in Hnx. rewrite Ht in Hnx. injection Hnx as Hnx.
    cbn [ip_freeList core1]. rewrite (bind_ok _ _ _ _ _ (deref_spec _ _ _ _ _ _ Ht)).
    rewrite bind_modify. change (set_freeList (ts_next t) _) with (core1 c q (ts_next t) h).
    erewrite (bind_ok (assign _ _)) by (apply assign_spec; eauto).
    erewrite (bind_ok (assign _ _)) by (apply assign_spec; rewrite list_lookup_alter_eq, Ht; eauto).
    apply NoDup_app in Hd as Hd'. destruct Hd' as (Hd1 & Hd2 & Hd3).
    apply NoDup_cons in Hd3 as [Hw3 Hd3].
    exists w, (alter (set_message None) w (alter (set_terminated false) w h)), free. split_and!.
    + by rewrite Hnx, head_lookup.
    + apply NoDup_cons. split; [|apply NoDup_app; set_solver]. set_solver.
    + rewrite !list_lookup_alter_eq, Ht. eauto.
    + intros p Hpin. assert (p <> w) by (intros ->; apply elem_of_app in Hpin; set_solver).
      by rewrite !list_lookup_alter_ne.
    + right. split; [done|]. by alters.
Qed.

(** The new object becomes the newest; nothing else of the circle changes. *)
Lemma linkTs_some c h q fl n w tn : n <> w -> h !! n = Some tn -> is_Some (h !! w) ->
  (forall o, ts_prev tn = Some o -> o <> w) -> is_Some (o ← ts_prev tn; h !! o) ->
  exists h', linkTs (Some n) (Some w) (core1 c q fl h) = Ok (core1 c q fl h') tt /\
    (forall p, infoOf h' p = infoOf h p) /\
    (forall p, prevOf h' p = if decide (p = w) then Some (ts_prev tn) else
                             if decide (p = n) then Some (Some w) else prevOf h p) /\
    (forall p, nextOf h' p = if decide (p = w) then Some (Some n) else
                             if decide (Some p = ts_prev tn) then Some (Some w) else nextOf h p).
Proof.
  intros Hnw Hn [tw Hw] Ho [to Hto]. destruct (ts_prev tn) as [o|] eqn:Eo; [|done]. specialize (Ho o eq_refl).
  cbn in Hto. unfold linkTs.
  erewrite (bind_ok (assign _ _)) by (apply assign_spec; eauto).
  erewrite (bind_ok (deref _)) by (apply deref_spec; by rewrite list_lookup_alter_ne).
  erewrite (bind_ok (assign _ _)) by (apply assign_spec; rewrite list_lookup_alter_eq, Hw; eauto).
  erewrite (bind_ok (assign _ _)) by (apply assign_spec; rewrite !list_lookup_alter_ne, Hn by done; eauto).
  erewrite (bind_ok (deref _)) by
    (apply deref_spec; by rewrite list_lookup_alter_ne, !list_lookup_alter_eq, Hw).
  eexists. split.
  { cbn [fmap option_fmap option_map ts_prev set_prev set_next]. rewrite Eo. apply assign_spec.
    destruct (decide (o = n)) as [->|].
    - rewrite list_lookup_alter_eq, !list_lookup_alter_ne, Hn by done. eauto.
    - rewrite !list_lookup_alter_ne, Hto by done. eauto. }
  split_and!; intros p; alters; [done|..]; repeat case_decide; simplify_eq; try done.
Qed.

Lemma linkTs_alone c h q fl w tl : tl = None \/ tl = Some w /\ prevOf h w = Some None ->
  is_Some (h !! w) ->
  exists h', linkTs tl (Some w) (core1 c q fl h) = Ok (core1 c q fl h') tt /\
    (forall p, infoOf h' p = infoOf h p) /\
    (forall p, prevOf h' p = if decide (p = w) then Some (Some w) else prevOf h p) /\
    (forall p, nextOf h' p = if decide (p = w) then Some (Some w) else nextOf h p).
Proof.
  intros Htl [t Ht]. unfold linkTs.
  destruct Htl as [->|[-> Hp]].
  - erewrite (bind_ok (assign _ _)) by (apply assign_spec; eauto).
    eexists. split; [apply assign_spec; rewrite list_lookup_alter_eq, Ht; eauto|].
    split_and!; intros p; by alters.
  - erewrite (bind_ok (assign _ _)) by (apply assign_spec; eauto).
    erewrite (bind_ok (deref _)) by (apply deref_spec; by rewrite list_lookup_alter_eq, Ht).
    erewrite (bind_ok (assign _ _)) by (apply assign_spec; rewrite list_lookup_alter_eq, Ht; eauto).
    erewrite (bind_ok (assign _ _)) by (apply assign_spec; rewrite !list_lookup_alter_eq, Ht; eauto).
    erewrite (bind_ok (deref _)) by (apply deref_spec; by rewrite !list_lookup_alter_eq, Ht).
    eexists. split; [apply assign_spec; rewrite !list_lookup_alter_eq, Ht; eauto|].
    split_and!; intros p; alters; repeat case_decide; by simplify_eq.
Qed.

Lemma lookup_head_last (ps : list nat) n : last ps = Some n ->
  exists o, head ps = Some o /\ o ∈ ps /\ ps !! (length ps - 1)%nat = Some n.
Proof.
  destruct ps as [|o ps]; [done|]. intros H. exists o. rewrite last_lookup in H.
  split_and!; [done|set_solver|]. rewrite <-H. f_equal. simpl. lia.
Qed.

(** The circle after [linkTs], given the free list of before. *)
Lemma links_snoc h h' ps n o w free : links h ps free -> last ps = Some n -> head ps = Some o ->
  NoDup ((ps ++ [w]) ++ free) ->
  (forall p, p ∈ ps ++ free -> p <> w) ->
  (forall p, p ∈ w :: ps ++ free -> prevOf h' p = if decide (p = w) then Some (Some o) else
     if decide (p = n) then Some (Some w) else prevOf h p) ->
  (forall p, p ∈ w :: ps ++ free -> nextOf h' p = if decide (p = w) then Some (Some n) else
     if decide (p = o) then Some (Some w) else nextOf h p) ->
  links h' (ps ++ [w]) free.
Proof.
  intros [Hd Hp Hn Hw Hf] Hl Ho HD Hne Hp' Hn'.
  destruct (lookup_head_last ps n Hl) as (o' & Ho' & Hoin & Hln). simplify_eq.
  apply NoDup_app in Hd as (Hdp & Hdf & _).
  assert (0 < length ps)%nat by (destruct ps; [done|simpl; lia]).
  assert (forall p, p ∈ ps -> p ∈ w :: ps ++ free) as Mp by (intros; right; apply elem_of_app; by left).
  assert (forall p, p ∈ free -> p ∈ w :: ps ++ free) as Mf by (intros; right; apply elem_of_app; by right).
  assert (w ∈ w :: ps ++ free) as Mw by left.
  split; [done|..].
  - intros i p [Hi|[Hi Hx]]%lookup_app_Some.
    + assert (p ∈ ps) as Hin by (by apply list_elem_of_lookup_2 with i).
      assert (p <> w) by (apply Hne, elem_of_app; by left).
      rewrite Hp', decide_False by auto. pose proof (lookup_lt_Some _ _ _ Hi).
      destruct (decide (S i = length ps)) as [E|E].
      * assert (p = n) as -> by (replace (length ps - 1)%nat with i in Hln by lia; congruence).
        rewrite decide_True, lookup_app_r, E, Nat.sub_diag by lia. done.
      * assert (p <> n).
        { intros ->. pose proof (NoDup_lookup ps i _ n Hdp Hi Hln). lia. }
        rewrite decide_False, lookup_app_l, (Hp i p Hi) by (done || lia).
        destruct (lookup_lt_is_Some_2 ps (S i) ltac:(lia)) as [r ->]. done.
    + apply list_lookup_singleton_Some in Hx as [Hx <-].
      rewrite Hp', decide_True, lookup_ge_None_2 by (done || rewrite ?length_app; simpl; lia).
      destruct ps; [done|]. simpl in *. congruence.
  - intros _ p [Hin|Hin]%elem_of_app; [|apply list_elem_of_singleton in Hin as ->].
    + assert (p <> w) by (apply Hne, elem_of_app; by left).
      rewrite Hn', decide_False by auto. destruct (decide (p = o)) as [->|]; [exists (Some w); split; congruence|].
      apply Hn; [|done]. destruct ps as [|? [|? ps]]; simpl in *; [lia| |lia].
      apply list_elem_of_singleton in Hin. simplify_eq.
    + exists (Some n). rewrite Hn', decide_True by done. split; [done|]. intros [= ->].
      apply (Hne w); [apply elem_of_app; left; by eapply list_elem_of_lookup_2|done].
  - intros i p r Hr Hpi Hlen. rewrite length_app in Hlen. simpl in Hlen.
    rewrite lookup_app_r in Hpi by lia. apply list_lookup_singleton_Some in Hpi as [_ <-].
    rewrite lookup_app_l in Hr by lia. replace i with (length ps - 1)%nat in Hr by lia.
    rewrite Hn', decide_True by done. congruence.
  - intros i p Hi. assert (p ∈ free) by (by eapply list_elem_of_lookup_2).
    assert (p <> w) by (apply Hne, elem_of_app; by right).
    rewrite Hn', decide_False, decide_False by (auto || intros ->; by apply (Hdf o)). by apply Hf.
Qed.
(** A new object is taken and becomes the newest. *)
Lemma links_new c h ps free q tl : links h ps free -> newest h tl ps free ->
  exists w h1 free1 h2,
    allocTs (core1 c q (head free) h) = Ok (core1 c q (head free1) h1) (Some w) /\
    linkTs tl (Some w) (core1 c q (head free1) h1) = Ok (core1 c q (head free1) h2) tt /\
    links h2 (ps ++ [w]) free1 /\ is_Some (infoOf h2 w) /\
    (forall p, p ∈ ps -> infoOf h2 p = infoOf h p).
Proof.
  intros Hl Hn. destruct (allocTs_spec c h ps free q Hl) as (w & h1 & free1 & Ea & Hd & Hw & Hsame & Hold).
  apply NoDup_cons in Hd as [Hwd Hd]. apply NoDup_app in Hd as (Hd1 & Hd2 & Hd3).
  assert (NoDup ((ps ++ [w]) ++ free1)) as HD.
  { rewrite <-app_assoc. apply NoDup_app. split_and!; [done| |].
    - intros x Hx. rewrite elem_of_app, list_elem_of_singleton. intros [->|Hx'];
        [apply Hwd, elem_of_app; by left|by apply (Hd2 x)].
    - apply NoDup_app. split_and!; [apply NoDup_singleton| |done].
      intros x ->%list_elem_of_singleton Hx. apply Hwd, elem_of_app. by right. }
  assert (forall p, p ∈ ps ++ free1 -> p <> w /\ prevOf h1 p = prevOf h p /\
            nextOf h1 p = nextOf h p /\ infoOf h1 p = infoOf h p) as Hs.
  { intros p Hp. split; [by intros ->|]. unfold prevOf, nextOf, infoOf. by rewrite Hsame. }
  assert (links h1 ps free1) as Hl1.
  { destruct Hl as [? Hp Hnx Hnw Hf]. split.
    - apply NoDup_app. done.
    - intros i p Hi. rewrite (proj1 (proj2 (Hs p ltac:(apply elem_of_app; left; by eapply list_elem_of_lookup_2)))). eauto.
    - intros Hlen p Hin. destruct (Hs p ltac:(apply elem_of_app; by left)) as (_ & _ & -> & _). eauto.
    - intros i p r Hr Hpi Hlen.
      destruct (Hs p ltac:(apply elem_of_app; left; by eapply list_elem_of_lookup_2)) as (_ & _ & -> & _). eauto.
    - intros i p Hi.
      destruct (Hs p ltac:(apply elem_of_app; right; by eapply list_elem_of_lookup_2)) as (_ & _ & -> & _).
      destruct Hold as [[-> ->]|[-> _]]; [done|]. by apply (Hf (S i)). }
  unfold newest in Hn. destruct (last ps) as [n|] eqn:El.
  - subst tl. destruct (lookup_head_last ps n El) as (o & Ho & Hoin & Hln).
    assert (n ∈ ps) as Hnin by (by eapply list_elem_of_lookup_2).
    pose proof (lk_prev _ _ _ Hl1 _ _ Hln) as Hpn.
    rewrite lookup_ge_None_2 in Hpn by lia. rewrite Ho in Hpn. unfold prevOf in Hpn.
    destruct (h1 !! n) as [tn|] eqn:En; [|done]. injection Hpn as Hpn.
    assert (forall p, p ∈ ps -> p <> w) as Hpw by (intros p ?; apply Hs, elem_of_app; by left).
    destruct (linkTs_some c h1 q (head free1) n w tn) as (h2 & E2 & Hi2 & Hp2 & Hn2); [by apply Hpw|done|done|..].
    { rewrite Hpn. intros ? [= <-]. by apply Hpw. }
    { rewrite Hpn. cbn. apply list_elem_of_lookup_1 in Hoin as [i Hi].
      pose proof (lk_prev _ _ _ Hl1 _ _ Hi) as Hpo. unfold prevOf in Hpo. by destruct (h1 !! o). }
    exists w, h1, free1, h2. split_and!; [done..| | |].
    + apply (links_snoc h1 h2 ps n o w free1); try done; [intros p ?; by apply Hs| |]; intros p _.
      * by rewrite Hp2, Hpn.
      * rewrite Hn2, Hpn. by repeat case_decide; simplify_eq.
    + rewrite Hi2. unfold infoOf. destruct Hw as [? ->]. eauto.
    + intros p Hin. rewrite Hi2. apply Hs, elem_of_app. by left.
  - apply last_None in El as ->.
    destruct (linkTs_alone c h1 q (head free1) w tl) as (h2 & E2 & Hi2 & Hp2 & Hn2); [|done|].
    { destruct Hn as [->|(x & -> & Hx & Hpx & _)]; [by left|right].
      destruct Hold as [[-> _]|[-> Hpw]]; simplify_eq/=. by rewrite Hpw. }
    exists w, h1, free1, h2. split_and!; [done..| | |by intros p ?%not_elem_of_nil].
    + split; [done|..]; simpl.
      * intros [|i] p Hi; simplify_eq/=. by rewrite Hp2, decide_True.
      * lia.
      * intros i p r Hr Hpi. by destruct i.
      * intros i p Hi. rewrite Hn2, decide_False; [by apply (lk_free _ _ _ Hl1)|].
        apply Hs, elem_of_app. right. by eapply list_elem_of_lookup_2.
    + rewrite Hi2. unfold infoOf. destruct Hw as [? ->]. eauto.
Qed.

(** The circle and the free list after the oldest object is unlinked. *)
Lemma links_tail h h' o rest n free : links h (o :: rest) free -> last rest = Some n ->
  (forall p, prevOf h' p = if decide (p = o) then Some None else
     if decide (p = n) then Some (head rest) else prevOf h p) ->
  (forall p, p <> o -> p <> n \/ (2 <= length rest)%nat -> nextOf h' p = nextOf h p) ->
  nextOf h' o = Some (head free) ->
  links h' rest (o :: free).
Proof.
  intros [Hd Hp Hn Hw Hf] Hl Hp' Hn' Ho. simpl in Hd. apply NoDup_cons in Hd as [Ho1 Hd].
  apply NoDup_app in Hd as (Hd1 & Hd2 & Hd3).
  destruct (lookup_head_last rest n Hl) as (_ & _ & _ & Hln).
  assert (forall p, p ∈ rest -> p <> o) as Hro by (intros p ? ->; apply Ho1, elem_of_app; by left).
  assert (n ∈ rest) as Hnin by (by eapply list_elem_of_lookup_2).
  split.
  - apply NoDup_app. split_and!; [done| |].
    + intros x Hx [->|Hx']%elem_of_cons; [by apply (Hro o)|by apply (Hd2 x)].
    + apply NoDup_cons. split; [|done]. intros ?. apply Ho1, elem_of_app. by right.
  - intros i p Hi. assert (p ∈ rest) by (by eapply list_elem_of_lookup_2).
    rewrite Hp', decide_False by auto. destruct (decide (p = n)) as [->|Hpn].
    + pose proof (NoDup_lookup rest i _ n Hd1 Hi Hln). pose proof (lookup_lt_Some _ _ _ Hi).
      by rewrite lookup_ge_None_2 by lia.
    + rewrite (Hp (S i) p Hi). simpl. destruct (rest !! S i) eqn:E; [done|].
      apply lookup_ge_None_1 in E. pose proof (lookup_lt_Some _ _ _ Hi).
      replace (length rest - 1)%nat with i in Hln by lia. congruence.
  - intros Hlen p Hin. rewrite Hn' by auto. apply Hn; [simpl; lia|by right].
  - intros i p r Hr Hpi Hlen. assert (p ∈ rest) by (by eapply list_elem_of_lookup_2).
    rewrite Hn' by (auto; right; lia). apply (Hw (S i)); simpl; auto.
  - intros [|i] p Hi; simplify_eq/=.
    + by rewrite Ho, head_lookup.
    + assert (p ∈ free) by (by eapply list_elem_of_lookup_2).
      rewrite Hn'; [by apply Hf| |].
      * intros ->. apply Ho1, elem_of_app. by right.
      * left. intros ->. by apply (Hd2 n).
Qed.

Lemma links_is_Some h ps free p : links h ps free -> p ∈ ps -> is_Some (h !! p).
Proof.
  intros H [i Hi]%list_elem_of_lookup_1. pose proof (lk_prev _ _ _ H _ _ Hi) as E.
  unfold prevOf in E. destruct (h !! p); [eauto|done].
Qed.

(** The last steps of [unlinkTs]. *)
Lemma free_spec c o q fl h : is_Some (h !! o) ->
  exists h',
    (s ← get; assign (Some o) (set_next (ip_freeList s)) ≫= fun _ =>
     assign (Some o) (set_prev None) ≫= fun _ => modify (set_freeList (Some o))) (core1 c q fl h) =
      Ok (core1 c q (Some o) h') tt /\
    (forall p, infoOf h' p = infoOf h p) /\
    (forall p, prevOf h' p = if decide (p = o) then Some None else prevOf h p) /\
    (forall p, nextOf h' p = if decide (p = o) then Some fl else nextOf h p).
Proof.
  intros [t Ht]. rewrite bind_get.
  erewrite (bind_ok (assign _ _)) by (apply assign_spec; eauto).
  erewrite (bind_ok (assign _ _)) by (apply assign_spec; rewrite list_lookup_alter_eq, Ht; eauto).
  eexists. split; [done|]. cbn [ip_heap ip_freeList core1]. split_and!; intros p; alters; by repeat case_decide.
Qed.

(** The only object of the circle. *)
Lemma unlinkTs_only c q h o free i : links h [o] free -> pq_tsList q = Some o ->
  infoOf h o = Some i -> i.2 = true ->
  exists h' tl,
    unlinkTs 0 (Some o) (core1 c q (head free) h) = Ok (core1 c (set_tsList tl q) (Some o) h') tt /\
    links h' [] (o :: free) /\ newest h' tl [] (o :: free) /\
    (forall p, infoOf h' p = infoOf h p).
Proof.
  intros Hl Hq Hi Hterm.
  destruct (links_is_Some h _ _ o Hl ltac:(left)) as [t Ht].
  unfold unlinkTs. rewrite (bind_ok _ _ _ _ _ (queueAt_core1 _ _ _ _)).
  erewrite (bind_ok (deref _)) by (by apply deref_spec). rewrite Hq.
  assert (forall h' , (forall p, prevOf h' p = if decide (p = o) then Some None else prevOf h p) ->
    (forall p, nextOf h' p = if decide (p = o) then Some (head free) else nextOf h p) ->
    links h' [] (o :: free)) as Hl'.
  { intros h' Hp' Hn'. destruct Hl as [Hd _ _ _ Hf]. split; try done; [simpl; lia|].
    intros [|j] p Hj; simplify_eq/=; rewrite Hn'.
    - by rewrite decide_True, head_lookup.
    - rewrite decide_False; [by apply Hf|]. intros ->. apply NoDup_cons in Hd as [Hd _].
      apply Hd. by eapply list_elem_of_lookup_2. }
  destruct (decide (ts_next t = Some o)) as [Ho|Ho].
  - rewrite (bind_ok _ _ _ _ _ (setQueue_core1 _ _ _ _ _)).
    destruct (free_spec c o (set_tsList None q) (head free) h ltac:(eauto)) as (h' & E & Hi' & Hp' & Hn').
    exists h', None. split_and!; [exact E|by apply Hl'|by left|done].
  - rewrite bind_assoc. erewrite (bind_ok (assign _ _)) by (apply assign_spec; eauto).
    rewrite bind_assoc. erewrite (bind_ok (deref _)) by (apply deref_spec; by rewrite list_lookup_alter_eq, Ht).
    rewrite bind_assoc. erewrite (bind_ok (deref _)) by (apply deref_spec; by rewrite list_lookup_alter_eq, Ht).
    rewrite decide_False by done. rewrite ret_bind.
    destruct (free_spec c o q (head free) (alter (set_prev (ts_prev t)) o h)) as (h' & E & Hi' & Hp' & Hn');
      [eauto using alter_is_Some, mk_is_Some|].
    assert (forall p, infoOf h' p = infoOf h p) as Hi2 by (intros p; rewrite Hi'; by alters).
    exists h', (Some o). split_and!; [by destruct q; simpl in *; subst| | |done].
    + apply Hl'; intros p; rewrite ?Hp', ?Hn'; destruct (decide (p = o)); [done|..|done|]; alters.
      * by rewrite decide_False.
      * done.
    + right. exists o. split_and!; [done..| |]; [by rewrite Hp', decide_True|].
      exists i. by rewrite Hi2.
Qed.

(** In a longer circle the oldest object is not its own [next]; the newest object
    points to it when there are two. *)
Lemma links_longer h o rest free n : links h (o :: rest) free -> last rest = Some n ->
  exists t tn, h !! o = Some t /\ h !! n = Some tn /\ n <> o /\
    ts_prev t = head rest /\ ts_next t <> Some o /\
    (ts_next tn = Some o -> length rest = 1%nat).
Proof.
  intros Hl Hn. destruct (lookup_head_last rest n Hn) as (r & Hr & Hrin & Hln).
  assert (n ∈ rest) as Hnin by (by eapply list_elem_of_lookup_2).
  pose proof (lk_dup _ _ _ Hl) as Hd. simpl in Hd. apply NoDup_cons in Hd as [Ho1 _].
  assert (0 < length rest)%nat as Hlen by (destruct rest; [done|simpl; lia]).
  destruct (links_is_Some h _ _ o Hl ltac:(left)) as [t Ht].
  destruct (links_is_Some h _ _ n Hl ltac:(by right)) as [tn Htn].
  exists t, tn. split_and!; [done|done| | | |].
  - intros ->. by apply Ho1, elem_of_app; left.
  - pose proof (lk_prev _ _ _ Hl 0%nat o eq_refl) as Hpo. unfold prevOf in Hpo. rewrite Ht in Hpo.
    injection Hpo as ->. by destruct rest.
  - destruct (lk_next _ _ _ Hl ltac:(simpl; lia) o ltac:(left)) as (x & Hx & Hxo).
    unfold nextOf in Hx. rewrite Ht in Hx. injection Hx as Hx. congruence.
  - intros Hnx. destruct (decide (length rest = 1%nat)); [done|]. exfalso.
    destruct (lookup_lt_is_Some_2 rest (length rest - 2) ltac:(lia)) as [s Hs].
    assert (nextOf h n = Some (Some s)) as E.
    { apply (lk_newest _ _ _ Hl (length rest - 1) n s); simpl; [|done|lia].
      by replace (length rest - 1)%nat with (S (length rest - 2)) by lia. }
    unfold nextOf in E. rewrite Htn in E. injection E as E. assert (s = o) as -> by congruence.
    apply Ho1, elem_of_app. left. by eapply list_elem_of_lookup_2.
Qed.

(** An object of a longer circle. *)
Lemma unlinkTs_more c q h o rest free n : links h (o :: rest) free ->
  last rest = Some n -> pq_tsList q = Some n ->
  exists h',
    unlinkTs 0 (Some o) (core1 c q (head free) h) = Ok (core1 c q (Some o) h') tt /\
    links h' rest (o :: free) /\ (forall p, infoOf h' p = infoOf h p).
Proof.
  intros Hl Hn Hq.
  destruct (links_longer h o rest free n Hl Hn) as (t & tn & Ht & Htn & Hno & Hpo & Hto & Hlen).
  unfold unlinkTs. rewrite (bind_ok _ _ _ _ _ (queueAt_core1 _ _ _ _)).
  erewrite (bind_ok (deref _)) by (by apply deref_spec). rewrite Hq, decide_False by congruence.
  rewrite bind_assoc. erewrite (bind_ok (assign _ _)) by (apply assign_spec; eauto).
  rewrite bind_assoc. erewrite (bind_ok (deref _)) by (apply deref_spec; by rewrite list_lookup_alter_eq, Htn).
  rewrite bind_assoc. erewrite (bind_ok (deref _)) by (apply deref_spec; by rewrite list_lookup_alter_ne).
  rewrite Hpo. set (h1 := alter (set_prev (head rest)) n h).
  assert (exists h2,
    (if decide (ts_next (set_prev (head rest) tn) = Some o) then assign (Some n) (set_next (ts_next t))
     else mret tt) (core1 c q (head free) h1) = Ok (core1 c q (head free) h2) tt /\
    (forall p, infoOf h2 p = infoOf h1 p) /\ (forall p, prevOf h2 p = prevOf h1 p) /\
    (forall p, p <> n \/ (2 <= length rest)%nat -> nextOf h2 p = nextOf h1 p) /\ is_Some (h2 !! o))
    as (h2 & E2 & Hi2 & Hp2 & Hn2 & Hs2).
  { assert (is_Some (h1 !! o)) by (unfold h1; rewrite list_lookup_alter_ne by done; eauto).
    case_decide as Hnx; [|by exists h1].
    eexists. split; [apply assign_spec; unfold h1; rewrite list_lookup_alter_eq, Htn; eauto|].
    split_and!; [intros p; by alters|intros p; by alters| |by rewrite list_lookup_alter_ne].
    intros p [Hp|Hp]; [unfold nextOf; by rewrite list_lookup_alter_ne|]. specialize (Hlen Hnx). lia. }
  rewrite (bind_ok _ _ _ _ _ E2). clear E2.
  destruct (free_spec c o q (head free) h2 Hs2) as (h' & E & Hi' & Hp' & Hn').
  exists h'. split_and!; [exact E| |].
  - apply (links_tail h h' o rest n free Hl Hn).
    + intros p. rewrite Hp', Hp2. unfold h1. destruct (decide (p = o)); [done|]. by alters.
    + intros p Hpo' Hpn. rewrite Hn', decide_False, Hn2 by done. unfold h1. by alters.
    + by rewrite Hn', decide_True.
  - intros p. rewrite Hi', Hi2. unfold h1. by alters.
Qed.

Lemma queue_tsList size l n p tl q : queue size l n p q -> queue size l n tl (set_tsList tl q).
Proof. intros ([] & <- & <-). split; [by constructor|done]. Qed.

(** [consumeTerminatedTsList] takes the oldest message off the circle. *)
Lemma consume_spec c size l q h o rest free tl m i : queue size l m tl q -> 0 < m ->
  links h (o :: rest) free -> newest h tl (o :: rest) free -> infoOf h o = Some i -> i.2 = true ->
  exists h' tl' q',
    consumeTerminatedTsList 0 (core1 c q (head free) h) = Ok (core1 c q' (Some o) h') (Some o) /\
    queue size l m tl' q' /\ links h' rest (o :: free) /\ newest h' tl' rest (o :: free) /\
    (forall p, infoOf h' p = infoOf h p).
Proof.
  intros Hq Hm Hl Hn Hi Ht. pose proof Hq as (_ & Hqm & Hqt).
  unfold newest in Hn. destruct (last (o :: rest)) as [n|] eqn:En; [|by apply last_None in En]. subst tl.
  destruct (lookup_head_last _ _ En) as (? & [= <-] & _ & Hln).
  pose proof (lk_prev _ _ _ Hl _ _ Hln) as Hpn. rewrite lookup_ge_None_2 in Hpn by (simpl; lia).
  unfold prevOf in Hpn. destruct (h !! n) as [tn|] eqn:Etn; [|done]. injection Hpn as Hpn.
  destruct (links_is_Some h _ _ o Hl ltac:(left)) as [t Hto].
  assert (ts_terminated t = true) as Htt by (unfold infoOf in Hi; rewrite Hto in Hi; by simplify_eq/=).
  unfold consumeTerminatedTsList. rewrite (bind_ok _ _ _ _ _ (queueAt_core1 _ _ _ _)), Hqm, Hqt.
  destruct (Z.ltb_spec 0 m); [|lia].
  erewrite (bind_ok (deref _)) by (by apply deref_spec). rewrite Hpn. cbn [head].
  erewrite (bind_ok (deref _)) by (by apply deref_spec). rewrite Htt.
  destruct rest as [|r rest].
  - injection En as <-.
    destruct (unlinkTs_only c q h o free i Hl Hqt Hi Ht) as (h' & tl & E & Hl' & Hn' & Hi').
    exists h', tl, (set_tsList tl q). rewrite (bind_ok _ _ _ _ _ E). split_and!; [done| |done..].
    by apply queue_tsList with (Some o).
  - assert (last (r :: rest) = Some n) as En' by done.
    destruct (unlinkTs_more c q h o (r :: rest) free n Hl En' Hqt) as (h' & E & Hl' & Hi').
    exists h', (Some n), q. rewrite (bind_ok _ _ _ _ _ E). split_and!; [done..| |done].
    unfold newest. by rewrite En'.
Qed.
