(* ===== verification/ItcText.v ===== *)
(** * The abstract queue of messages, and its refinement by [ITCPrint] *)

From S2P Require Import Prelude Nexus ItcPrint ItcQueue.
From stdpp Require Import list.
#[local] Open Scope Z_scope.

(** ** The abstract queue *)

(** The messages that have ended, the oldest first, and the one in progress; each
    with the times of its first and its last write. *)
Record Printed := { pd_done : list Text; pd_cur : option Text }.

Definition nothingPrinted : Printed := {| pd_done := []; pd_cur := None |}.

(** A write of up to four characters, of which the last may end the message. *)
Inductive Ending := Open | Nul | Eol (b : Z).

Definition word (body : list Z) (e : Ending) : list Z :=
  body ++ match e with Open => [] | Nul => [0] | Eol b => [b] end.
(** What of it is text: an end of line is. *)
Definition textOf (body : list Z) (e : Ending) : list Z :=
  body ++ match e with Eol b => [b] | Open | Nul => [] end.

Definition writeText (body : list Z) (e : Ending) (time : Z) (p : Printed) : Printed :=
  let '(text, start) := match pd_cur p with
                        | Some (text, start, _) => (text, start)
                        | None => ([], time)
                        end in
  let msg := (text ++ textOf body e, start, time) in
  match e with
  | Open => {| pd_done := pd_done p; pd_cur := Some msg |}
  | Nul | Eol _ => {| pd_done := pd_done p ++ [msg]; pd_cur := None |}
  end.

(** A no-load-string print ends the message in progress. *)
Definition lineText (text : list Z) (time : Z) (p : Printed) : Printed := {|
  pd_done := pd_done p ++ option_list (pd_cur p) ++ [(text, time, time)]; pd_cur := None |}.

Definition readText (p : Printed) : Printed * option Text :=
  match pd_done p with
  | [] => (p, None)
  | msg :: done => ({| pd_done := done; pd_cur := pd_cur p |}, Some msg)
  end.

(** The characters of the ring buffer. *)
Definition chars (p : Printed) : list Z :=
  concat ((fun m : Text => m.1.1 ++ [0]) <$> pd_done p) ++ from_option (fun m : Text => m.1.1) [] (pd_cur p).

(** The operations, and when they fit. *)
Inductive Op :=
| Write (body : list Z) (e : Ending) (time : Z)
| Line (text : list Z) (time : Z)
| Read.

Definition plain (b : Z) : Prop := b <> 0 /\ b <> 10 /\ b <> 13.

Definition applyOp (o : Op) (p : Printed) : Printed * option Text :=
  match o with
  | Write body e time => (writeText body e time p, None)
  | Line text time => (lineText text time p, None)
  | Read => readText p
  end.

(** The characters are text, the buffer has room for them and the NULs. *)
Definition opFits (size : Z) (o : Op) (p : Printed) : Prop :=
  match o with
  | Write body e time => Forall plain body /\ (forall b, e = Eol b -> b = 10 \/ b = 13) /\
      Z.of_nat (length (chars p) + length (word body e)) + 2 <= size
  | Line text time => Forall (fun b => b <> 0) text /\
      Z.of_nat (length (chars p) + length text) + 3 <= size
  | Read => True
  end.

Fixpoint applyOps (os : list Op) (p : Printed) : Printed * list (option Text) :=
  match os with
  | [] => (p, [])
  | o :: os => let '(p, r) := applyOp o p in let '(p, rs) := applyOps os p in (p, r :: rs)
  end.
Fixpoint opsFit (size : Z) (os : list Op) (p : Printed) : Prop :=
  match os with
  | [] => True
  | o :: os => opFits size o p /\ opsFit size os (applyOp o p).1
  end.

(** ** The calls *)

Section calls.
Context (sprintf : list Z -> list Z -> list Z) (badArgs : Z -> list Z -> list Z) (c : Config) (fuel : nat).

(** The call of [ITCPrint] that an operation stands for. *)
Inductive call : Op -> M ITCPrint DQErr (option Text) -> Prop :=
| call_write body e time addr data :
    Z.land (cf_flags c) ITC_OPT_PRINT <> 0 ->
    Z.land (cf_flags c) ITC_OPT_NLS = 0 \/ Z.land addr 3 <> 0 \/ cf_nls c = None ->
    0 <= cf_channel c < 2 ^ 29 -> cf_channel c * 4 <= addr < cf_channel c * 4 + 4 ->
    take (4 - Z.to_nat (Z.land addr 3)) (wordBytes data) = word body e ->
    call (Write body e time)
      (itcPrint sprintf badArgs 0 addr data time ≫= fun b => if b : bool then mret None else undef)
| call_line text time addr data nls nl format :
    Z.land (cf_flags c) ITC_OPT_NLS <> 0 -> Z.land addr 3 = 0 -> cf_nls c = Some nls ->
    nls !! Z.to_nat (addr / 4) = Some nl -> nl_format nl = Some format ->
    nlsText sprintf badArgs (addr / 4) nl format data = Some text ->
    call (Line text time)
      (itcPrint sprintf badArgs 0 addr data time ≫= fun b => if b : bool then mret None else undef)
| call_read : call Read (getITCPrintStr fuel 0).

Fixpoint runCalls (ms : list (M ITCPrint DQErr (option Text))) : M ITCPrint DQErr (list (option Text)) :=
  match ms with
  | [] => mret []
  | m :: ms => r ← m; rs ← runCalls ms; mret (r :: rs)
  end.
End calls.

(** ** The representation *)

(** From a state with [P], [m] returns [a] in a state with [Q]. *)
Definition runs {S E A} (P : S -> Prop) (m : M S E A) (a : A) (Q : S -> Prop) : Prop :=
  forall s, P s -> exists s', m s = Ok s' a /\ Q s'.

Lemma runs_bind {S E A B} (P Q R : S -> Prop) (m : M S E A) (k : A -> M S E B) a b :
  runs P m a Q -> runs Q (k a) b R -> runs P (m ≫= k) b R.
Proof.
  intros Hm Hk s Hs. destruct (Hm s Hs) as (s1 & E1 & H1). destruct (Hk s1 H1) as (s2 & E2 & H2).
  exists s2. by rewrite (bind_ok _ _ _ _ _ E1).
Qed.
Lemma runs_ret {S E A} (P : S -> Prop) (a : A) : runs (E:=E) P (mret a) a P.
Proof. intros s Hs. by exists s. Qed.

Lemma runs_use {S E A} (P Q R : S -> Prop) (m : M S E A) a s :
  P s -> runs P m a Q -> (forall s', Q s' -> R s') -> exists s', m s = Ok s' a /\ R s'.
Proof. intros Hs Hm HR. destruct (Hm s Hs) as (s' & E1 & H). eauto. Qed.

(** The ring holds [l], [n] messages; [tsList] is [tl], and [w] the newest object of
    the circle [ps], whose times and ends are [is]. *)
Definition holds (c : Config) (l : list Z) (n : Z) (tl w : option nat) (ps : list nat)
    (fs : list (Z * Z * bool)) (s : ITCPrint) : Prop :=
  exists q h free, s = core1 c q (head free) h /\ queue (cf_size c) l n tl q /\ links h ps free /\
    newest h w ps free /\ Forall2 (fun p i => infoOf h p = Some i) ps fs.

Section steps.
Context (c : Config).
#[local] Abbreviation size := (cf_size c).

Lemma runs_putChar l n tl w ps fs b : Z.of_nat (length l) + 1 < size ->
  runs (holds c l n tl w ps fs) (putChar 0 b) tt (holds c (l ++ [b]) n tl w ps fs).
Proof.
  intros Hl s (q & h & free & -> & Hq & H). destruct (putChar_spec c l n tl b q (head free) h Hq Hl) as (q' & E & Hq').
  eexists. split; [exact E|]. by exists q', h, free.
Qed.

Lemma runs_store l n tl w ps fs b : runs (holds c l n tl w ps fs) (store 0 b) tt (holds c l n tl w ps fs).
Proof.
  intros s (q & h & free & -> & Hq & H). destruct (store_spec c l n tl b q (head free) h Hq) as (q' & E & Hq').
  eexists. split; [exact E|]. by exists q', h, free.
Qed.

Lemma runs_count l n m tl w ps fs :
  runs (holds c l n tl w ps fs) (countMsg 0 m) tt (holds c l (n + m) tl w ps fs).
Proof.
  intros s (q & h & free & -> & Hq & H). destruct (countMsg_spec c l n m tl q (head free) h Hq) as (q' & E & Hq').
  eexists. split; [exact E|]. by exists q', h, free.
Qed.

Lemma runs_room l n tl w ps fs :
  runs (holds c l n tl w ps fs) (roomInITCPrintQ 0) (size - 1 - Z.of_nat (length l)) (holds c l n tl w ps fs).
Proof.
  intros s (q & h & free & -> & Hq & H). eexists. split; [by apply room_spec with n tl|]. by exists q, h, free.
Qed.

Lemma runs_putText l n tl w ps fs text : Z.of_nat (length l + length text) + 2 <= size ->
  runs (holds c l n tl w ps fs) (putText 0 (size - 1 - Z.of_nat (length l)) text) tt
    (holds c (l ++ text) n tl w ps fs).
Proof.
  intros Hl s (q & h & free & -> & Hq & H).
  destruct (putText_spec c text l n tl q (head free) h Hq Hl) as (q' & E & Hq').
  eexists. split; [exact E|]. by exists q', h, free.
Qed.

Lemma runs_setTs l n tl p w ps fs :
  runs (holds c l n tl w ps fs) (setQueue 0 (set_tsList p)) tt (holds c l n p w ps fs).
Proof.
  intros s (q & h & free & -> & Hq & H). eexists. split; [done|].
  exists (set_tsList p q), h, free. split; [done|]. split; [by apply queue_tsList with tl|done].
Qed.

(** A new object becomes the newest; its times are not set yet. *)
Lemma new_object l n tl ps fs s : holds c l n tl tl ps fs s ->
  exists w s1 s2 i, allocTs s = Ok s1 (Some w) /\ linkTs tl (Some w) s1 = Ok s2 tt /\
    holds c l n tl (Some w) (ps ++ [w]) (fs ++ [i]) s2.
Proof.
  intros (q & h & free & -> & Hq & Hl & Hn & Hf).
  destruct (links_new c h ps free q tl Hl Hn) as (w & h1 & free1 & h2 & Ea & El & Hl2 & [i Hi] & Hsame).
  exists w, (core1 c q (head free1) h1), (core1 c q (head free1) h2), i. split_and!; [done..|].
  exists q, h2, free1. split_and!; [done..| |].
  - unfold newest. by rewrite last_snoc.
  - apply Forall2_app; [|by repeat constructor]. apply Forall2_same_length_lookup_2.
    { by apply Forall2_length in Hf. }
    intros j p x Hp Hx. rewrite Hsame by (by eapply list_elem_of_lookup_2).
    by eapply (Forall2_lookup_lr _ _ _ _ _ _ Hf).
Qed.

(** An assignment to the times or the end of the newest object. *)
Lemma runs_assign f g l n tl w ps fs i :
  (forall t, ts_prev (f t) = ts_prev t /\ ts_next (f t) = ts_next t) ->
  (forall t, (ts_startTime (f t), ts_endTime (f t), ts_terminated (f t)) =
     g (ts_startTime t, ts_endTime t, ts_terminated t)) ->
  runs (holds c l n tl (Some w) (ps ++ [w]) (fs ++ [i])) (assign (Some w) f) tt
    (holds c l n tl (Some w) (ps ++ [w]) (fs ++ [g i])).
Proof.
  intros Hp Hg s (q & h & free & -> & Hq & Hl & Hn & Hf).
  assert (w ∈ ps ++ [w]) as Hin by (apply elem_of_app; right; by left).
  eexists. split; [apply assign_spec; by eapply links_is_Some|].
  assert (forall p, prevOf (alter f w h) p = prevOf h p) as Hp' by (intros; unfold prevOf; apply alter_other, Hp).
  assert (forall p, nextOf (alter f w h) p = nextOf h p) as Hn' by (intros; unfold nextOf; apply alter_other, Hp).
  exists q, (alter f w h), free. split_and!; [done..| | |].
  - destruct Hl as [Hd H1 H2 H3 H4]. split; intros; rewrite ?Hp', ?Hn' in *; eauto.
  - unfold newest. by rewrite last_snoc.
  - apply Forall2_app_inv in Hf as [Hf1 Hf2]; [|by apply Forall2_length in Hf; rewrite !length_app in Hf; simpl in Hf; lia].
    apply Forall2_app.
    + pose proof (lk_dup _ _ _ Hl) as Hd. apply NoDup_app in Hd as (Hd & _). apply NoDup_app in Hd as (_ & Hd & _).
      apply Forall2_same_length_lookup_2; [by apply Forall2_length in Hf1|].
      intros j p x Hpj Hx. unfold infoOf. rewrite list_lookup_alter_ne.
      * by eapply (Forall2_lookup_lr _ _ _ _ _ _ Hf1).
      * intros ->. apply (Hd p); [by eapply list_elem_of_lookup_2|by left].
    + apply Forall2_cons_1 in Hf2 as [Hw _]. constructor; [|done].
      unfold infoOf in *. rewrite list_lookup_alter_eq. destruct (h !! w); [|done].
      simpl in *. rewrite Hg. congruence.
Qed.

Lemma runs_terminate b l n tl w ps fs x y z :
  runs (holds c l n tl (Some w) (ps ++ [w]) (fs ++ [(x, y, z)])) (assign (Some w) (set_terminated b)) tt
    (holds c l n tl (Some w) (ps ++ [w]) (fs ++ [(x, y, b)])).
Proof. by apply (runs_assign _ (fun i => (i.1, b))). Qed.
Lemma runs_start t l n tl w ps fs x y z :
  runs (holds c l n tl (Some w) (ps ++ [w]) (fs ++ [(x, y, z)])) (assign (Some w) (set_startTime t)) tt
    (holds c l n tl (Some w) (ps ++ [w]) (fs ++ [(t, y, z)])).
Proof. by apply (runs_assign _ (fun i => (t, i.1.2, i.2))). Qed.
Lemma runs_end t l n tl w ps fs x y z :
  runs (holds c l n tl (Some w) (ps ++ [w]) (fs ++ [(x, y, z)])) (assign (Some w) (set_endTime t)) tt
    (holds c l n tl (Some w) (ps ++ [w]) (fs ++ [(x, t, z)])).
Proof. by apply (runs_assign _ (fun i => (i.1.1, t, i.2))). Qed.
Lemma runs_mark l n tl w ps fs i :
  runs (holds c l n tl (Some w) (ps ++ [w]) (fs ++ [i])) (mark 0 (Some w)) tt
    (holds c l n tl (Some w) (ps ++ [w]) (fs ++ [i])).
Proof.
  intros s Hs. pose proof Hs as (q & h & free & -> & _). unfold mark.
  rewrite (bind_ok _ _ _ _ _ (queueAt_core1 _ _ _ _)). revert Hs. by apply (runs_assign _ (fun i => i)).
Qed.

(** ** Printing *)

Definition ended (e : Ending) : bool := match e with Open => false | Nul | Eol _ => true end.
(** What a write adds to the buffer. *)
Definition stored (body : list Z) (e : Ending) : list Z :=
  textOf body e ++ (if ended e then [0] else []).

Lemma runs_printBytes body e : forall l n tl w ps fs x y,
  Forall plain body -> (forall b, e = Eol b -> b = 10 \/ b = 13) ->
  Z.of_nat (length l + length (word body e)) + 2 <= size ->
  runs (holds c l n tl (Some w) (ps ++ [w]) (fs ++ [(x, y, false)]))
    (printBytes 0 (Some w) (size - 1 - Z.of_nat (length l)) (word body e)) tt
    (holds c (l ++ stored body e) (n + Z.b2z (ended e)) tl (Some w) (ps ++ [w]) (fs ++ [(x, y, ended e)])).
Proof.
  induction body as [|b body IH]; intros l n tl w ps fs x y Hb He Hl.
  - unfold word, stored, textOf in *. destruct e as [| |b]; cbn [app length ended Z.b2z printBytes] in *.
    + rewrite Z.add_0_r, app_nil_r. apply runs_ret.
    + destruct (Z.leb_spec 2 (size - 1 - Z.of_nat (length l))); [|lia].
      eapply runs_bind; [apply runs_putChar; lia|]. cbn [Z.eqb].
      eapply runs_bind; [apply runs_count|]. eapply runs_bind; [apply runs_terminate|]. apply runs_ret.
    + destruct (Z.leb_spec 2 (size - 1 - Z.of_nat (length l))); [|lia].
      eapply runs_bind; [apply runs_putChar; lia|].
      assert ((b =? 0) = false /\ (b =? 10) || (b =? 13) = true) as [-> ->] by (destruct (He b eq_refl); by subst).
      eapply runs_bind; [apply runs_putChar; rewrite length_app; simpl; lia|].
      eapply runs_bind; [apply runs_count|]. eapply runs_bind; [apply runs_terminate|].
      rewrite <-app_assoc. apply runs_ret.
  - inversion Hb as [|?? (H0 & H10 & H13) Hb']; subst. cbn [word app printBytes].
    change (word (b :: body) e) with (b :: word body e) in Hl. cbn [length] in Hl.
    destruct (Z.leb_spec 2 (size - 1 - Z.of_nat (length l))); [|lia].
    eapply runs_bind; [apply runs_putChar; lia|].
    rewrite (proj2 (Z.eqb_neq b 0)), (proj2 (Z.eqb_neq b 10)), (proj2 (Z.eqb_neq b 13)) by done. cbn [orb].
    replace (l ++ stored (b :: body) e) with ((l ++ [b]) ++ stored body e) by (by rewrite <-app_assoc).
    replace (size - 1 - Z.of_nat (length l) - 1) with (size - 1 - Z.of_nat (length (l ++ [b])))
      by (rewrite length_app; simpl; lia).
    apply IH; try done. rewrite length_app. simpl. lia.
Qed.

(** The times and the ends of the messages. *)
Definition infos (p : Printed) : list (Z * Z * bool) :=
  ((fun m : Text => (m.1.2, m.2, true)) <$> pd_done p) ++
  option_list ((fun m : Text => (m.1.2, m.2, false)) <$> pd_cur p).

Definition repr (p : Printed) (s : ITCPrint) : Prop :=
  exists tl ps, holds c (chars p) (Z.of_nat (length (pd_done p))) tl tl ps (infos p) s.

(** Without a message in progress the newest object, if any, has ended. *)
Lemma fresh_spec l n tl ps fs s q : holds c l n tl tl ps fs s ->
  (forall i, last fs = Some i -> i.2 = q) -> (fs = [] -> q = true) ->
  (match tl with None => mret true | Some _ => t ← deref tl; mret (ts_terminated t) end) s =
    Ok s (match tl with None => true | Some _ => q end).
Proof.
  intros (qu & h & free & -> & _ & Hl & Hn & Hf) Hi He. destruct tl as [x|]; [|done].
  assert (exists i, infoOf h x = Some i /\ i.2 = q) as (i & Hx & Hq).
  { unfold newest in Hn. destruct (last ps) as [m|] eqn:El.
    - injection Hn as ->. rewrite last_lookup in El.
      assert (length fs = length ps) as Hlen by (by apply Forall2_length in Hf).
      destruct (lookup_lt_is_Some_2 fs (pred (length ps))) as [i Hli].
      { rewrite Hlen. by apply lookup_lt_Some in El. }
      exists i. split; [by eapply (Forall2_lookup_lr _ _ _ _ _ _ Hf)|].
      apply Hi. by rewrite last_lookup, Hlen.
    - apply last_None in El as ->. apply Forall2_nil_inv_l in Hf as ->.
      destruct Hn as [|(x' & [= <-] & _ & _ & i & Hx & Ht)]; [done|]. exists i. by rewrite He. }
  unfold infoOf in Hx. destruct (h !! x) as [t|] eqn:Et; [|done]. injection Hx as <-.
  erewrite (bind_ok (deref _)) by (by apply deref_spec). simpl in Hq. by rewrite Hq.
Qed.

(** The states at the start of a call: there is no object, or the newest is [w]. *)
Lemma holds_newest l n tl ps fs s : holds c l n tl tl ps fs s -> forall fs' i, fs = fs' ++ [i] ->
  exists w ps', tl = Some w /\ ps = ps' ++ [w].
Proof.
  intros (q & h & free & _ & _ & _ & Hn & Hf) fs' i ->.
  apply Forall2_app_inv_r in Hf as (ps' & pw & _ & Hw & ->).
  apply Forall2_cons_inv_r in Hw as (w & ? & _ & Hnil & ->). apply Forall2_nil_inv_r in Hnil as ->.
  unfold newest in Hn. rewrite last_snoc in Hn. eauto.
Qed.

Lemma chars_write body e t p : chars (writeText body e t p) = chars p ++ stored body e.
Proof.
  unfold chars, writeText, stored. destruct p as [dn [[[text st] en]|]], e; simpl;
    rewrite ?fmap_app, ?concat_app; simpl; by rewrite ?app_nil_r, <-?app_assoc.
Qed.
Lemma done_write body e t p : Z.of_nat (length (pd_done (writeText body e t p))) =
  Z.of_nat (length (pd_done p)) + Z.b2z (ended e).
Proof.
  unfold writeText. destruct p as [dn [[[text st] en]|]], e; simpl; rewrite ?length_app; simpl; lia.
Qed.
Lemma infos_write body e t p : infos (writeText body e t p) =
  ((fun m : Text => (m.1.2, m.2, true)) <$> pd_done p) ++
  [(match pd_cur p with Some m => m.1.2 | None => t end, t, ended e)].
Proof.
  unfold infos, writeText. destruct p as [dn [[[text st] en]|]], e; simpl; rewrite ?fmap_app, ?app_nil_r; done.
Qed.

(** The part of [printWord] after the object is chosen. *)
Lemma runs_wordTail body e t l n w ps fs x y :
  Forall plain body -> (forall b, e = Eol b -> b = 10 \/ b = 13) ->
  Z.of_nat (length l + length (word body e)) + 2 <= size ->
  runs (holds c l n (Some w) (Some w) (ps ++ [w]) (fs ++ [(x, y, false)]))
    (assign (Some w) (set_endTime t) ≫= fun _ =>
     room ← roomInITCPrintQ 0;
     printBytes 0 (Some w) room (word body e) ≫= fun _ =>
     store 0 0 ≫= fun _ => mret true) true
    (holds c (l ++ stored body e) (n + Z.b2z (ended e)) (Some w) (Some w) (ps ++ [w]) (fs ++ [(x, t, ended e)])).
Proof.
  intros Hb He Hl. eapply runs_bind; [apply runs_end|]. eapply runs_bind; [apply runs_room|].
  eapply runs_bind; [by apply runs_printBytes|]. eapply runs_bind; [apply runs_store|]. apply runs_ret.
Qed.

Lemma printWord_spec body e t p tl ps s : opFits size (Write body e t) p ->
  holds c (chars p) (Z.of_nat (length (pd_done p))) tl tl ps (infos p) s ->
  exists s', printWord 0 tl (word body e) t s = Ok s' true /\ repr (writeText body e t p) s'.
Proof.
  intros (Hb & He & Hl) H. unfold printWord, repr.
  setoid_rewrite chars_write. setoid_rewrite done_write. setoid_rewrite infos_write.
  destruct (pd_cur p) as [[[text st] en]|] eqn:Ec.
  - assert (infos p = ((fun m : Text => (m.1.2, m.2, true)) <$> pd_done p) ++ [(st, en, false)]) as Ei
      by (unfold infos; by rewrite Ec).
    rewrite Ei in H. destruct (holds_newest _ _ _ _ _ _ H _ _ eq_refl) as (w & ps' & -> & ->).
    erewrite bind_ok by (apply (fresh_spec _ _ _ _ _ _ false H);
      [intros ?; rewrite last_snoc; by intros [= <-]|by intros [_ ?]%app_eq_nil]).
    cbv iota. rewrite ret_bind.
    destruct (runs_wordTail body e t _ _ w ps' _ st en Hb He Hl s H) as (s' & E & H').
    exists s'. split; [exact E|]. by exists (Some w), (ps' ++ [w]).
  - assert (infos p = (fun m : Text => (m.1.2, m.2, true)) <$> pd_done p) as Ei
      by (unfold infos; by rewrite Ec, app_nil_r).
    rewrite Ei in H.
    erewrite bind_ok by (apply (fresh_spec _ _ _ _ _ _ true H); [|done];
      intros i; rewrite fmap_last; destruct (last (pd_done p)); [by intros [= <-]|done]).
    replace (match tl with Some _ => true | None => true end) with true by (by destruct tl). cbv iota.
    destruct (new_object _ _ _ _ _ _ H) as (w & s1 & s2 & [[x y] z] & Ea & El & H2).
    rewrite !bind_assoc, (bind_ok _ _ _ _ _ Ea), !bind_assoc, (bind_ok _ _ _ _ _ El).
    eapply runs_use; [exact H2| |intros s' Hs'; eexists _, _; exact Hs'].
    eapply runs_bind.
    + eapply runs_bind; [apply runs_terminate|]. eapply runs_bind; [apply runs_start|].
      eapply runs_bind; [apply runs_mark|]. eapply runs_bind; [apply runs_setTs|]. apply runs_ret.
    + by apply runs_wordTail.
Qed.

(** ** No-load-string prints *)

Lemma chars_line text t p : chars (lineText text t p) =
  chars p ++ (if pd_cur p is Some _ then [0] else []) ++ text ++ [0].
Proof.
  unfold chars, lineText. destruct p as [dn [[[cur st] en]|]]; simpl;
    rewrite !fmap_app, !concat_app; simpl; by rewrite ?app_nil_r, <-?app_assoc.
Qed.
Lemma done_line text t p : Z.of_nat (length (pd_done (lineText text t p))) =
  Z.of_nat (length (pd_done p)) + Z.b2z (if pd_cur p is Some _ then true else false) + 1.
Proof.
  unfold lineText. destruct p as [dn [cur|]]; simpl; rewrite !length_app; simpl; lia.
Qed.
Lemma infos_line text t p : infos (lineText text t p) =
  ((fun m : Text => (m.1.2, m.2, true)) <$> pd_done p ++ option_list (pd_cur p)) ++ [(t, t, true)].
Proof.
  unfold infos, lineText. destruct p as [dn [cur|]]; simpl; by rewrite ?fmap_app, ?app_nil_r, <-?app_assoc.
Qed.

(** The message in progress is ended. *)
Lemma endCurrent_spec p tl ps s : Z.of_nat (length (chars p)) + 1 < size ->
  holds c (chars p) (Z.of_nat (length (pd_done p))) tl tl ps (infos p) s ->
  exists s',
    (match tl with
     | None => mret tt
     | Some _ =>
         t ← deref tl;
         if ts_terminated t then mret tt
         else
           putChar 0 0 ≫= fun _ => countMsg 0 1 ≫= fun _ => assign tl (set_terminated true)
     end) s = Ok s' tt /\
    holds c (chars p ++ (if pd_cur p is Some _ then [0] else []))
      (Z.of_nat (length (pd_done p)) + Z.b2z (if pd_cur p is Some _ then true else false)) tl tl ps
      ((fun m : Text => (m.1.2, m.2, true)) <$> pd_done p ++ option_list (pd_cur p)) s'.
Proof.
  intros Hl H. destruct (pd_cur p) as [[[text st] en]|] eqn:Ec.
  - assert (infos p = ((fun m : Text => (m.1.2, m.2, true)) <$> pd_done p) ++ [(st, en, false)]) as Ei
      by (unfold infos; by rewrite Ec).
    rewrite Ei in H. destruct (holds_newest _ _ _ _ _ _ H _ _ eq_refl) as (w & ps' & -> & ->).
    pose proof (fresh_spec _ _ _ _ _ _ false H ltac:(intros ?; rewrite last_snoc; by intros [= <-])
      ltac:(by intros [_ ?]%app_eq_nil)) as Hfr.
    apply bind_inv in Hfr as (s1 & t & Et & Ht). injection Ht as -> Ht.
    rewrite (bind_ok _ _ _ _ _ Et), Ht. rewrite fmap_app.
    eapply runs_use; [exact H| |intros s' Hs'; exact Hs'].
    eapply runs_bind; [by apply runs_putChar|]. eapply runs_bind; [apply runs_count|]. apply runs_terminate.
  - assert (infos p = (fun m : Text => (m.1.2, m.2, true)) <$> pd_done p) as Ei
      by (unfold infos; by rewrite Ec, app_nil_r).
    rewrite Ei in H. cbn [option_list Z.b2z]. rewrite !app_nil_r, Z.add_0_r. exists s. split; [|done].
    pose proof (fresh_spec _ _ _ _ _ _ true H ltac:(intros i; rewrite fmap_last;
      destruct (last (pd_done p)); [by intros [= <-]|done]) ltac:(done)) as Hfr.
    destruct tl as [x|]; [|done].
    apply bind_inv in Hfr as (s1 & t & Et & Ht). injection Ht as -> Ht.
    by rewrite (bind_ok _ _ _ _ _ Et), Ht.
Qed.

Lemma printNls_spec text t p tl ps s : opFits size (Line text t) p ->
  holds c (chars p) (Z.of_nat (length (pd_done p))) tl tl ps (infos p) s ->
  exists s', printNls 0 tl text t s = Ok s' true /\ repr (lineText text t p) s'.
Proof.
  intros (Hb & Hl) H. unfold printNls, repr.
  setoid_rewrite chars_line. setoid_rewrite done_line. setoid_rewrite infos_line.
  destruct (endCurrent_spec p tl ps s ltac:(lia) H) as (s1 & E1 & H1). rewrite (bind_ok _ _ _ _ _ E1).
  destruct (new_object _ _ _ _ _ _ H1) as (w & s2 & s3 & [[x y] z] & Ea & El & H3).
  rewrite (bind_ok _ _ _ _ _ Ea), (bind_ok _ _ _ _ _ El).
  assert (Z.of_nat (length (if pd_cur p is Some _ then [0] else [])) <= 1) by (destruct (pd_cur p); simpl; lia).
  eapply runs_use; [exact H3| |intros s' Hs'; eexists _, _; exact Hs'].
  eapply runs_bind; [apply runs_start|]. eapply runs_bind; [apply runs_end|].
  eapply runs_bind; [apply runs_mark|]. eapply runs_bind; [apply runs_setTs|].
  eapply runs_bind; [apply runs_room|].
  eapply runs_bind; [apply runs_putText; rewrite length_app; lia|].
  eapply runs_bind; [apply runs_putChar; rewrite !length_app; lia|].
  eapply runs_bind; [apply runs_terminate|].
  eapply runs_bind; [apply runs_count|]. rewrite <-!app_assoc. apply runs_ret.
Qed.

(** ** Reading *)

Definition clean (p : Printed) : Prop :=
  Forall (fun m : Text => Forall (fun b => b <> 0) m.1.1) (pd_done p ++ option_list (pd_cur p)).

Lemma clean_applyOp o p : opFits size o p -> clean p -> clean (applyOp o p).1.
Proof.
  unfold clean. destruct p as [dn cur], o as [body e t|text t|]; simpl.
  - intros (Hb & He & _) H. apply Forall_app in H as [Hd Hc].
    assert (Forall (fun b => b <> 0) (textOf body e)) as Ht.
    { apply Forall_app. split; [rewrite Forall_forall in *; intros x Hx; apply (Hb x Hx)|].
      destruct e as [| |b]; [done..|]. constructor; [|done]. by destruct (He b eq_refl) as [-> | ->]. }
    unfold writeText. simpl. destruct cur as [[[text st] en]|]; simpl in *.
    + apply Forall_cons_1 in Hc as [Hc _].
      destruct e; simpl; rewrite ?app_nil_r; apply Forall_app; (split; [done|]);
        constructor; try done; simpl; by apply Forall_app.
    + destruct e; simpl; rewrite ?app_nil_r; apply Forall_app; (split; [done|]); by constructor.
  - intros (Ht & _) H. rewrite app_nil_r, app_assoc. apply Forall_app. split; [done|]. by constructor.
  - intros _ H. unfold readText. destruct dn; simpl in *; [done|]. by apply Forall_cons_1 in H as [_ H].
Qed.

Lemma chars_read m dn cur : chars {| pd_done := m :: dn; pd_cur := cur |} =
  m.1.1 ++ 0 :: chars {| pd_done := dn; pd_cur := cur |}.
Proof. unfold chars. simpl. by rewrite <-!app_assoc. Qed.

Lemma getITCPrintStr_spec fuel p s : repr p s -> clean p -> (Z.to_nat size <= fuel)%nat ->
  exists s', getITCPrintStr fuel 0 s = Ok s' (readText p).2 /\ repr (readText p).1 s'.
Proof.
  intros (tl & ps & H) Hc Hfuel. destruct p as [[|[[text st] en] dn] cur]; unfold readText; simpl.
  { exists s. split; [|by exists tl, ps]. destruct H as (q & h & free & -> & (_ & Hq & _) & _).
    unfold getITCPrintStr, getText. rewrite bind_get. cbn [ip_numCores core1 Z.leb Z.compare].
    rewrite (bind_ok _ _ _ _ _ (queueAt_core1 _ _ _ _)). by rewrite Hq. }
  destruct H as (q & h & free & -> & Hq & Hl & Hn & Hf). rewrite chars_read in Hq. simpl in Hq.
  apply Forall2_cons_inv_r in Hf as (o & ps' & Ho & Hf & ->).
  destruct (consume_spec c _ _ q h o ps' free tl _ _ Hq ltac:(simpl; lia) Hl Hn Ho eq_refl)
    as (h' & tl' & q1 & E1 & Hq1 & Hl1 & Hn1 & Hi1).
  unfold getITCPrintStr, getText. rewrite bind_get. cbn [ip_numCores core1 Z.leb Z.compare].
  rewrite (bind_ok _ _ _ _ _ (queueAt_core1 _ _ _ _)).
  destruct Hq as (_ & -> & _). cbn [pd_done length]. destruct (Z.ltb_spec 0 (Z.of_nat (S (length dn)))); [|lia].
  rewrite (bind_ok _ _ _ _ _ E1). rewrite <-Hi1 in Ho. unfold infoOf in Ho.
  destruct (h' !! o) as [t|] eqn:Et; [|done]. injection Ho as Hst Hen _.
  erewrite (bind_ok (deref _)) by (by apply deref_spec).
  destruct (countMsg_spec c _ _ (-1) _ q1 (Some o) h' Hq1) as (q2 & E2 & Hq2). rewrite (bind_ok _ _ _ _ _ E2).
  assert (length text < fuel)%nat as Hlt.
  { destruct Hq1 as ([_ Hfit _ _ _] & _). rewrite length_app in Hfit. lia. }
  apply Forall_cons_1 in Hc as [Hc _].
  destruct (takeText_spec c fuel text _ _ _ (Some o) h' q2 Hq2 Hc Hlt) as (q3 & E3 & Hq3).
  rewrite (bind_ok _ _ _ _ _ E3).
  destruct (bumpOut_spec c _ _ _ _ q3 (Some o) h' Hq3) as (q4 & E4 & Hq4). rewrite (bind_ok _ _ _ _ _ E4).
  eexists. split; [by rewrite Hst, Hen|].
  exists tl', ps', q4, h', (o :: free). split_and!; [done| |done..|].
  - simpl length in Hq4 |- *. by replace (Z.of_nat (S (length dn)) + -1) with (Z.of_nat (length dn)) in Hq4 by lia.
  - eapply Forall2_impl; [exact Hf|]. intros ?? Hx. by rewrite Hi1.
Qed.
End steps.

(** ** The refinement *)

Section refinement.
Context (sprintf : list Z -> list Z -> list Z) (badArgs : Z -> list Z -> list Z).

Lemma repr_start c p s : repr c p s -> exists q h free ps,
  s = core1 c q (head free) h /\
  holds c (chars p) (Z.of_nat (length (pd_done p))) (pq_tsList q) (pq_tsList q) ps (infos p) s.
Proof.
  intros (tl & ps & q & h & free & -> & Hq & H). destruct Hq as (? & ? & <-).
  exists q, h, free, ps. split; [done|]. by exists q, h, free.
Qed.

(** A write to the channel. *)
Lemma itcPrint_write c body e time addr data p s :
  Z.land (cf_flags c) ITC_OPT_PRINT <> 0 ->
  Z.land (cf_flags c) ITC_OPT_NLS = 0 \/ Z.land addr 3 <> 0 \/ cf_nls c = None ->
  0 <= cf_channel c < 2 ^ 29 -> cf_channel c * 4 <= addr < cf_channel c * 4 + 4 ->
  take (4 - Z.to_nat (Z.land addr 3)) (wordBytes data) = word body e ->
  repr c p s -> opFits (cf_size c) (Write body e time) p ->
  exists s', itcPrint sprintf badArgs 0 addr data time s = Ok s' true /\ repr c (writeText body e time p) s'.
Proof.
  intros Hpr Hnls Hch Haddr Hw Hr Hfit. destruct (repr_start c p s Hr) as (q & h & free & ps & -> & H).
  destruct (printWord_spec c body e time p _ _ _ Hfit H) as (s' & E & H').
  exists s'. split; [|done]. unfold itcPrint. rewrite bind_get.
  cbn [ip_numCores ip_itcOptFlags ip_printChannel ip_nlsStrings core1 Z.leb Z.compare].
  rewrite (bind_ok _ _ _ _ _ (queueAt_core1 _ _ _ _)), Hw.
  assert ((if negb (Z.land (cf_flags c) ITC_OPT_NLS =? 0) && (Z.land addr 3 =? 0) then cf_nls c else None) = None)
    as ->.
  { destruct Hnls as [-> |[Ha|Hn]]; [done| |].
    - rewrite (proj2 (Z.eqb_neq (Z.land addr 3) 0)) by done. by rewrite andb_false_r.
    - rewrite Hn. by destruct (_ && _). }
  rewrite (proj2 (Z.eqb_neq (Z.land (cf_flags c) ITC_OPT_PRINT) 0)) by done. cbn [negb].
  rewrite (u32_small (cf_channel c)), (u32_small (cf_channel c * 4)), (u32_small ((cf_channel c + 1) * 4)) by lia.
  by case_cmp.
Qed.

Lemma itcPrint_line c text time addr data nls nl format p s :
  Z.land (cf_flags c) ITC_OPT_NLS <> 0 -> Z.land addr 3 = 0 -> cf_nls c = Some nls ->
  nls !! Z.to_nat (addr / 4) = Some nl -> nl_format nl = Some format ->
  nlsText sprintf badArgs (addr / 4) nl format data = Some text ->
  repr c p s -> opFits (cf_size c) (Line text time) p ->
  exists s', itcPrint sprintf badArgs 0 addr data time s = Ok s' true /\ repr c (lineText text time p) s'.
Proof.
  intros Hfl Ha Hn Hnl Hf Ht Hr Hfit. destruct (repr_start c p s Hr) as (q & h & free & ps & -> & H).
  destruct (printNls_spec c text time p _ _ _ Hfit H) as (s' & E & H').
  exists s'. split; [|done]. unfold itcPrint. rewrite bind_get.
  cbn [ip_numCores ip_itcOptFlags ip_printChannel ip_nlsStrings core1 Z.leb Z.compare].
  rewrite (bind_ok _ _ _ _ _ (queueAt_core1 _ _ _ _)), Ha, (proj2 (Z.eqb_neq (Z.land (cf_flags c) ITC_OPT_NLS) 0)) by done. cbn [negb andb Z.eqb].
  by rewrite Hn, Hnl, lift_bind, Hf, Ht, lift_bind.
Qed.

Lemma call_refines c fuel o m p s : call sprintf badArgs c fuel o m -> (Z.to_nat (cf_size c) <= fuel)%nat ->
  repr c p s -> clean p -> opFits (cf_size c) o p ->
  exists s', m s = Ok s' (applyOp o p).2 /\ repr c (applyOp o p).1 s'.
Proof.
  intros [body e time addr data Hpr Hn Hch Ha Hw|text time addr data nls nl format Hfl Ha Hn Hnl Hf Ht|] Hfuel Hr Hc Hfit.
  - destruct (itcPrint_write c body e time addr data p s Hpr Hn Hch Ha Hw Hr Hfit) as (s' & E & H').
    exists s'. by rewrite (bind_ok _ _ _ _ _ E).
  - destruct (itcPrint_line c text time addr data nls nl format p s Hfl Ha Hn Hnl Hf Ht Hr Hfit) as (s' & E & H').
    exists s'. by rewrite (bind_ok _ _ _ _ _ E).
  - apply getITCPrintStr_spec; auto.
Qed.

Lemma calls_refine c fuel os ms : Forall2 (call sprintf badArgs c fuel) os ms ->
  (Z.to_nat (cf_size c) <= fuel)%nat -> forall p s, repr c p s -> clean p -> opsFit (cf_size c) os p ->
  exists s', runCalls ms s = Ok s' (applyOps os p).2 /\ repr c (applyOps os p).1 s'.
Proof.
  intros H Hfuel. induction H as [|o m os ms Ho _ IH]; intros p s Hr Hc Hfit; [by exists s|].
  destruct Hfit as [Hfit Hfits]. cbn [runCalls applyOps].
  destruct (call_refines c fuel o m p s Ho Hfuel Hr Hc Hfit) as (s1 & E1 & Hr1). rewrite (bind_ok _ _ _ _ _ E1).
  pose proof (clean_applyOp c o p Hfit Hc) as Hc1. destruct (applyOp o p) as [p1 r1].
  destruct (IH p1 s1 Hr1 Hc1 Hfits) as (s2 & E2 & Hr2). rewrite (bind_ok _ _ _ _ _ E2).
  destruct (applyOps os p1) as [p2 rs]. eauto.
Qed.

(** What the constructor builds represents the empty queue. *)
Lemma repr_new flags size channel nls fill : 0 < size ->
  repr {| cf_flags := flags; cf_size := size; cf_channel := channel; cf_nls := nls |} nothingPrinted
    (newITCPrint flags 1 size channel nls fill).
Proof.
  intros Hs. exists None, []. unfold newITCPrint. cbn [Z.leb Z.compare orb].
  destruct (Z.leb_spec size 0); [lia|].
  eexists _, _, []. split; [reflexivity|]. split_and!.
  - split; [|done]. split; simpl; rewrite ?length_replicate; [lia..| |by intros []].
    unfold slot. by case_cmp.
  - split; simpl; [constructor|done|lia|by intros []|by intros []].
  - by left.
  - constructor.
Qed.
End refinement.

(** ** Runs that go wrong *)

Section runs.
#[local] Abbreviation noFormat := (fun _ _ : list Z => @nil Z).
#[local] Abbreviation noError := (fun (_ : Z) (_ : list Z) => @nil Z).

(** One character, written to the last byte of channel 0, and a word. *)
Definition putByte (core b time : Z) : M ITCPrint DQErr (option Text) :=
  itcPrint noFormat noError core 3 b time ≫= fun _ => mret None.
Definition putWord (core w time : Z) : M ITCPrint DQErr (option Text) :=
  itcPrint noFormat noError core 0 w time ≫= fun _ => mret None.

Definition answers {S E A} (r : Res S E A) : option A :=
  match r with Ok _ a => Some a | _ => None end.

(** A flushed message is still in progress, but its object is on the free list: the
    next line follows a null pointer. *)
Lemma flush_then_print :
  runCalls [putByte 0 97 1; putByte 0 10 1; putByte 0 98 2; putByte 0 10 2; putByte 0 99 3;
            getITCPrintStr 16 0; getITCPrintStr 16 0; flushITCPrintStr 16 0; putByte 0 100 4; putByte 0 10 5;
            getITCPrintStr 16 0]
    (newITCPrint ITC_OPT_PRINT 1 16 0 None 0) = Undef.
Proof. reflexivity. Qed.

(** A word that ends two messages has one object for both: the second message is
    never read, and the next line gives its text. *)
Lemma two_lines_in_a_word :
  answers (runCalls [putWord 0 (97 + 13 * 2 ^ 8 + 10 * 2 ^ 16 + 98 * 2 ^ 24) 1; getITCPrintStr 16 0;
                     getITCPrintStr 16 0; putByte 0 10 2; getITCPrintStr 16 0]
    (newITCPrint ITC_OPT_PRINT 1 16 0 None 0)) =
  Some [None; Some ([97; 13], 1, 1); None; None; Some ([10], 2, 2)].
Proof. reflexivity. Qed.

(** Two cores.  After three messages of a core were read, [tsList] of that core still
    points to the last object, which is on the free list of both cores: core 1 takes
    it, and core 0 uses it too. *)
Definition threeLines (core : Z) : list (M ITCPrint DQErr (option Text)) :=
  [putByte core 97 1; putByte core 10 1; putByte core 98 2; putByte core 10 2; putByte core 99 3;
   putByte core 10 3; getITCPrintStr 16 core; getITCPrintStr 16 core; getITCPrintStr 16 core].

Lemma two_cores_null :
  runCalls (threeLines 0 ++ [putByte 1 100 4; putByte 1 10 4; putByte 0 101 5; putByte 0 10 5;
                             getITCPrintStr 16 0; getITCPrintStr 16 1])
    (newITCPrint ITC_OPT_PRINT 2 16 0 None 0) = Undef.
Proof. reflexivity. Qed.

Lemma two_cores_times :
  (fun l => drop 13 l) <$> answers (runCalls
      (threeLines 0 ++ [putByte 1 100 4; putByte 0 101 5; putByte 0 10 5; putByte 1 10 6; getITCPrintStr 16 0])
    (newITCPrint ITC_OPT_PRINT 2 16 0 None 0)) = Some [Some ([101; 10], 6, 6)].
Proof. reflexivity. Qed.

(** A short destination: the character after the part that fits is lost, and the rest
    is read as a message of its own. *)
Lemma short_destination :
  (fun l => drop 4 l) <$> answers (runCalls
      [putByte 0 97 1; putByte 0 98 1; putByte 0 99 1; putByte 0 10 1;
       getITCPrintMsg 16 0 2; putByte 0 10 2; getITCPrintMsg 16 0 8]
    (newITCPrint ITC_OPT_PRINT 1 16 0 None 0)) = Some [Some ([97], 1, 1); None; Some ([99; 10], 2, 2)].
Proof. reflexivity. Qed.
End runs.
