(* ===== verification/Cycles.v ===== *)
(** * Cycle-accurate traces (src/trace.cpp, [CATraceRec] and [CATrace])

    A second file gives the cycles: records of 32 words, of which each word holds 30
    bits of data and two of an address.  In an instruction trace each bit says
    whether one of the two pipes finished an instruction in a cycle; in a vector
    trace each 6 bits say what a cycle did, and go to a queue until the instruction
    they belong to is known. *)

From S2P Require Import Prelude Nexus Decode.

(** What [CATrace::consume] reports of an instruction. *)
Record CAInfo := {
  ca_caFlags : Z;
  ca_pipeCycles : Z;
  ca_viStartCycles : Z;
  ca_viFinishCycles : Z;
  ca_depths : Z * Z * Z * Z;
}.

Class CycleTrace (CA : Type) := {
  consume : InstType -> M CA DQErr CAInfo;
  rewind : M CA DQErr unit;
  getCATraceStartAddr : CA -> Z;
}.

(** ** Data *)

Inductive CATraceType := CATRACE_NONE | CATRACE_INSTRUCTION | CATRACE_VECTOR.

Definition CAVFLAG_V0 : Z := 32.
Definition CAVFLAG_V1 : Z := 16.
Definition CAVFLAG_VISTART : Z := 8.
Definition CAVFLAG_VIARITH : Z := 4.
Definition CAVFLAG_VISTORE : Z := 2.
Definition CAVFLAG_VILOAD : Z := 1.

Definition CAFLAG_PIPE0 : Z := 1.
Definition CAFLAG_PIPE1 : Z := 2.
Definition CAFLAG_VSTART : Z := 8.
Definition CAFLAG_VSTORE : Z := 16.
Definition CAFLAG_VLOAD : Z := 32.
Definition CAFLAG_VARITH : Z := 64.

Record CATraceRec := { cr_offset : Z; cr_address : Z; cr_data : list Z }.

(** An item of the queue. *)
Record CATraceQItem := {
  cq_cycle : Z;
  cq_record : Z;
  cq_qDepth : Z;
  cq_arithInProcess : Z;
  cq_loadInProcess : Z;
  cq_storeInProcess : Z;
}.
Definition set_record r (i : CATraceQItem) : CATraceQItem := {|
  cq_cycle := cq_cycle i; cq_record := r; cq_qDepth := cq_qDepth i;
  cq_arithInProcess := cq_arithInProcess i; cq_loadInProcess := cq_loadInProcess i;
  cq_storeInProcess := cq_storeInProcess i |}.
Definition newItem (cycle record : Z) : CATraceQItem := {|
  cq_cycle := cycle; cq_record := record; cq_qDepth := 0; cq_arithInProcess := 0;
  cq_loadInProcess := 0; cq_storeInProcess := 0 |}.

(** [caTraceQ] is null, or an array of [traceQSize] items. *)
Record CATrace := {
  ct_status : DQErr;
  ct_caType : CATraceType;
  ct_caBuffer : list Z;
  ct_caBufferIndex : Z;
  ct_blockRecNum : Z;
  ct_startAddr : Z;
  ct_catr : CATraceRec;
  ct_traceQOut : Z;
  ct_traceQIn : Z;
  ct_caTraceQ : option (list CATraceQItem);
}.
Definition set_ctStatus e (c : CATrace) : CATrace := {|
  ct_status := e; ct_caType := ct_caType c; ct_caBuffer := ct_caBuffer c;
  ct_caBufferIndex := ct_caBufferIndex c; ct_blockRecNum := ct_blockRecNum c;
  ct_startAddr := ct_startAddr c; ct_catr := ct_catr c; ct_traceQOut := ct_traceQOut c;
  ct_traceQIn := ct_traceQIn c; ct_caTraceQ := ct_caTraceQ c |}.
Definition set_index i (c : CATrace) : CATrace := {|
  ct_status := ct_status c; ct_caType := ct_caType c; ct_caBuffer := ct_caBuffer c;
  ct_caBufferIndex := i; ct_blockRecNum := ct_blockRecNum c;
  ct_startAddr := ct_startAddr c; ct_catr := ct_catr c; ct_traceQOut := ct_traceQOut c;
  ct_traceQIn := ct_traceQIn c; ct_caTraceQ := ct_caTraceQ c |}.
Definition set_block n (c : CATrace) : CATrace := {|
  ct_status := ct_status c; ct_caType := ct_caType c; ct_caBuffer := ct_caBuffer c;
  ct_caBufferIndex := ct_caBufferIndex c; ct_blockRecNum := n;
  ct_startAddr := ct_startAddr c; ct_catr := ct_catr c; ct_traceQOut := ct_traceQOut c;
  ct_traceQIn := ct_traceQIn c; ct_caTraceQ := ct_caTraceQ c |}.
Definition set_startAddr a (c : CATrace) : CATrace := {|
  ct_status := ct_status c; ct_caType := ct_caType c; ct_caBuffer := ct_caBuffer c;
  ct_caBufferIndex := ct_caBufferIndex c; ct_blockRecNum := ct_blockRecNum c;
  ct_startAddr := a; ct_catr := ct_catr c; ct_traceQOut := ct_traceQOut c;
  ct_traceQIn := ct_traceQIn c; ct_caTraceQ := ct_caTraceQ c |}.
Definition set_catr r (c : CATrace) : CATrace := {|
  ct_status := ct_status c; ct_caType := ct_caType c; ct_caBuffer := ct_caBuffer c;
  ct_caBufferIndex := ct_caBufferIndex c; ct_blockRecNum := ct_blockRecNum c;
  ct_startAddr := ct_startAddr c; ct_catr := r; ct_traceQOut := ct_traceQOut c;
  ct_traceQIn := ct_traceQIn c; ct_caTraceQ := ct_caTraceQ c |}.
Definition set_traceQ out inn (c : CATrace) : CATrace := {|
  ct_status := ct_status c; ct_caType := ct_caType c; ct_caBuffer := ct_caBuffer c;
  ct_caBufferIndex := ct_caBufferIndex c; ct_blockRecNum := ct_blockRecNum c;
  ct_startAddr := ct_startAddr c; ct_catr := ct_catr c; ct_traceQOut := out;
  ct_traceQIn := inn; ct_caTraceQ := ct_caTraceQ c |}.
Definition set_items q (c : CATrace) : CATrace := {|
  ct_status := ct_status c; ct_caType := ct_caType c; ct_caBuffer := ct_caBuffer c;
  ct_caBufferIndex := ct_caBufferIndex c; ct_blockRecNum := ct_blockRecNum c;
  ct_startAddr := ct_startAddr c; ct_catr := ct_catr c; ct_traceQOut := ct_traceQOut c;
  ct_traceQIn := ct_traceQIn c; ct_caTraceQ := Some q |}.

#[local] Abbreviation CM := (M CATrace DQErr).

(** [status = e; return e;] *)
Definition failWith {A} (e : DQErr) : CM A := modify (set_ctStatus e) ≫= fun _ => throw e.

(** [status = rc; return rc;] around a call. *)
Definition noting {A} (m : CM A) : CM A := fun c =>
  match m c with
  | Err c e => Err (set_ctStatus e c) e
  | r => r
  end.

(** ** Records *)

(** The words of a record hold 30 bits; bit 29 is the oldest. *)
Fixpoint skipBits (w : Z) (n : nat) (offset : Z) : nat * Z :=
  match n with
  | O => (O, offset)
  | S b => if Z.testbit w (Z.of_nat b) then (n, offset) else skipBits w b (offset + 1)
  end.

(** The loops of [CATraceRec::consumeCAInstruction] over the words from the current
    one on, of which [n] bits are left: the bit found, and [offset]. *)
Fixpoint findBit (words : list Z) (n : nat) (offset : Z) : option Z * Z :=
  match words with
  | [] => (None, offset)
  | w :: words =>
      match skipBits w n offset with
      | (S b, offset) => (Some (Z.of_nat b), offset)
      | (O, offset) => findBit words 30 offset
      end
  end.

(** [CATraceRec::consumeCAInstruction]: the pipe and the cycle. *)
Definition recInstruction (r : CATraceRec) : CATraceRec * option (Z * Z) :=
  if 30 * 32 <=? cr_offset r then (r, None)
  else
    let '(bit, offset) := findBit (drop (Z.to_nat (cr_offset r / 30)) (cr_data r))
                            (30 - Z.to_nat (cr_offset r mod 30)) (cr_offset r) in
    let at_ o := {| cr_offset := o; cr_address := cr_address r; cr_data := cr_data r |} in
    match bit with
    | None => (at_ offset, None)
    | Some b => (at_ (offset + 1), Some (if Z.odd b then CAFLAG_PIPE0 else CAFLAG_PIPE1, offset / 2))
    end.

(** The loop of [CATraceRec::consumeCAVector]; its bound lets it look at [data[32]]. *)
Fixpoint skipWords (fuel : nat) (data : list Z) (dataIndex : Z) : option Z :=
  match fuel with
  | O => Some dataIndex
  | S fuel =>
      if dataIndex <=? 32 then
        w ← data !! Z.to_nat dataIndex;
        if Z.land w (Z.ones 30) =? 0 then skipWords fuel data (dataIndex + 1) else Some dataIndex
      else Some dataIndex
  end.

Definition recVector (r : CATraceRec) : option (CATraceRec * option (Z * Z)) :=
  i ← skipWords 34 (cr_data r) (cr_offset r);
  if 32 <=? i then Some (r, None)
  else
    w ← cr_data r !! Z.to_nat i;
    Some ({| cr_offset := i + 1; cr_address := cr_address r; cr_data := cr_data r |}, Some (w, i * 5)).

(** [*(uint32_t* )(&caBuffer[i])], and the index moves on. *)
Definition nextWord : CM Z :=
  c ← get;
  let i := Z.to_nat (ct_caBufferIndex c) in
  match ct_caBuffer c !! i, ct_caBuffer c !! S i, ct_caBuffer c !! S (S i), ct_caBuffer c !! S (S (S i)) with
  | Some b0, Some b1, Some b2, Some b3 =>
      modify (set_index (ct_caBufferIndex c + 4)) ≫= fun _ =>
      mret (b0 + b1 * 2 ^ 8 + b2 * 2 ^ 16 + b3 * 2 ^ 24)
  | _, _, _, _ => undef
  end.

(** [(int)caBufferIndex > (int)(caBufferSize - n)]. *)
Definition beyond (n : Z) (c : CATrace) : bool :=
  Z.of_nat (length (ct_caBuffer c)) - n <? ct_caBufferIndex c.

(** The loop that looks for the first word of a record. *)
Fixpoint firstWord (fuel : nat) (d : Z) : CM Z :=
  match fuel with
  | O => fun _ => NoFuel
  | S fuel =>
      let last := Z.shiftr d 30 in
      d ← nextWord;
      c ← get;
      if beyond 4 c then failWith DQERR_EOF
      else if negb (Z.shiftr d 30 =? 3) && negb (last =? 0) then firstWord fuel d
      else mret d
  end.

(** The other 31 words: the data, and the address made of their upper bits. *)
Fixpoint restWords (n : nat) (i : Z) : CM (list Z * Z) :=
  match n with
  | O => mret ([], 0)
  | S n =>
      d ← nextWord;
      '(data, addr) ← restWords n (i + 1);
      mret (Z.land d (Z.ones 30) :: data, Z.lor (u64 (Z.shiftl (Z.shiftr d 30) (2 * (i - 1)))) addr)
  end.

Definition parseNextCATraceRec : CM unit :=
  c ← get;
  match ct_status c with
  | DQERR_OK =>
      if beyond 4 c then failWith DQERR_EOF
      else
        let firstRecord := ct_caBufferIndex c =? 0 in
        d ← (if firstRecord then firstWord (S (length (ct_caBuffer c))) 0 else nextWord);
        c ← get;
        if beyond (4 * 31) c then throw DQERR_EOF
        else
          '(data, addr) ← restWords 31 1;
          let d0 := Z.land d (Z.ones 30) in
          modify (fun c => set_catr {| cr_offset := 0; cr_address := addr;
                                       cr_data := (if firstRecord then Z.lor d0 (2 ^ 29) else d0) :: data |}
                             (set_block (if firstRecord then 0 else ct_blockRecNum c + 1) c))
  | e => throw e
  end.

(** The constructor, given the content of the file.  [garbage] is what [new] leaves in
    the array of the queue. *)
Definition newCATrace (content : list Z) (catype : CATraceType) (garbage : CATraceQItem) : CM unit := fun c0 =>
  let c := {|
    ct_status := DQERR_OK; ct_caType := catype; ct_caBuffer := content; ct_caBufferIndex := 0;
    ct_blockRecNum := 0; ct_startAddr := ct_startAddr c0; ct_catr := ct_catr c0; ct_traceQOut := 0; ct_traceQIn := 0;
    ct_caTraceQ := match catype with CATRACE_VECTOR => Some (replicate 512 garbage) | _ => None end |} in
  match catype with
  | CATRACE_NONE => Ok (set_ctStatus DQERR_ERR c) tt
  | _ =>
      match parseNextCATraceRec c with
      | Ok c _ => Ok (set_startAddr (cr_address (ct_catr c)) (set_ctStatus DQERR_OK c)) tt
      | Err c e => Ok (set_startAddr (cr_address (ct_catr c)) (set_ctStatus e c)) tt
      | Undef => Undef
      | NoFuel => NoFuel
      end
  end.

(** [CATrace::rewind]. *)
Definition rewindCA : CM unit := fun c =>
  let c := set_catr {| cr_offset := 0; cr_address := 0; cr_data := cr_data (ct_catr c) |} (set_index 0 c) in
  let done e c := set_traceQ 0 0 (set_startAddr (cr_address (ct_catr c)) (set_ctStatus e c)) in
  match parseNextCATraceRec c with
  | Ok c _ => Ok (done DQERR_OK c) tt
  | Err c e => Err (done e c) e
  | Undef => Undef
  | NoFuel => NoFuel
  end.

(** ** The queue of a vector trace *)

Definition traceQSize (c : CATrace) : Z := match ct_caTraceQ c with Some q => Z.of_nat (length q) | None => 0 end.

(** [i += 1; if (i >= traceQSize) i = 0;] *)
Definition nextSlot (size i : Z) : Z := if size <=? i + 1 then 0 else i + 1.

Definition item (i : Z) : CM CATraceQItem := fun c =>
  lift_opt (q ← ct_caTraceQ c; if 0 <=? i then q !! Z.to_nat i else None) c.
Definition setItem (i : Z) (f : CATraceQItem -> CATraceQItem) : CM unit :=
  x ← item i;
  modify (fun c => match ct_caTraceQ c with
                   | Some q => set_items (<[Z.to_nat i := f x]> q) c
                   | None => c
                   end).

Definition roomQ (c : CATrace) : Z :=
  if ct_traceQIn c =? ct_traceQOut c then traceQSize c - 1
  else if ct_traceQIn c <? ct_traceQOut c then ct_traceQOut c - ct_traceQIn c - 1
  else traceQSize c - ct_traceQIn c + ct_traceQOut c - 1.

(** [while ((i != traceQIn) && (record == 0) == empty) i += 1;] *)
Fixpoint skipItems (fuel : nat) (empty : bool) (i : Z) : CM Z :=
  match fuel with
  | O => fun _ => NoFuel
  | S fuel =>
      c ← get;
      if i =? ct_traceQIn c then mret i
      else
        x ← item i;
        if Bool.eqb (cq_record x =? 0) empty then skipItems fuel empty (nextSlot (traceQSize c) i) else mret i
  end.

(** The turns of the loops are bounded by the size of the queue. *)
Definition turns (c : CATrace) : nat := S (Z.to_nat (traceQSize c)).

Fixpoint packLoop (fuel : nat) (dst src : Z) : CM Z :=
  match fuel with
  | O => fun _ => NoFuel
  | S fuel =>
      c ← get;
      if negb (dst =? ct_traceQIn c) && negb (src =? ct_traceQIn c) then
        dst ← skipItems (turns c) false dst;
        if dst =? ct_traceQIn c then packLoop fuel dst src
        else
          src ← skipItems (turns c) true (nextSlot (traceQSize c) dst);
          if src =? ct_traceQIn c then packLoop fuel dst src
          else
            x ← item src;
            setItem dst (fun _ => x) ≫= fun _ =>
            setItem src (fun x => newItem (cq_cycle x) 0) ≫= fun _ =>
            packLoop fuel dst src
      else mret dst
  end.

Definition packQ : CM unit :=
  c ← get;
  dst ← packLoop (S (turns c)) (ct_traceQOut c) (ct_traceQOut c);
  if dst =? ct_traceQIn c then mret tt
  else modify (set_traceQ (ct_traceQOut c) (nextSlot (traceQSize c) dst)).

(** The five cycles of a word. *)
Fixpoint addItems (n : nat) (data t : Z) : CM unit :=
  match n with
  | O => mret tt
  | S n =>
      let rec := Z.land (u8 (Z.shiftr data (6 * Z.of_nat n))) 63 in
      (if rec =? 0 then mret tt
       else
         c ← get;
         setItem (ct_traceQIn c) (fun _ => newItem t rec) ≫= fun _ =>
         modify (set_traceQ (ct_traceQOut c) (nextSlot (traceQSize c) (ct_traceQIn c)))) ≫= fun _ =>
      addItems n data (u32 (t + 1))
  end.

Definition addQ (data t : Z) : CM unit :=
  c ← get;
  (if roomQ c <? 5 then
     packQ ≫= fun _ => c ← get; if roomQ c <? 5 then throw DQERR_ERR else mret tt
   else mret tt) ≫= fun _ =>
  addItems 5 data t.

(** More turns than there are words to come. *)
Definition wordsLeft (c : CATrace) : nat := (length (ct_caBuffer c) + 34)%nat.

(** The loops that read a record until there is something in it. *)
Fixpoint nextVector (fuel : nat) : CM (Z * Z) :=
  match fuel with
  | O => fun _ => NoFuel
  | S fuel =>
      c ← get;
      '(r, o) ← lift_opt (recVector (ct_catr c));
      modify (set_catr r) ≫= fun _ =>
      match o with
      | Some x => mret x
      | None => noting parseNextCATraceRec ≫= fun _ => nextVector fuel
      end
  end.

(** [parseNextVectorRecord]: [newDataStart]. *)
Definition parseNextVectorRecord : CM Z :=
  c ← get;
  '(record, cycles) ← nextVector (wordsLeft c);
  c ← get;
  let newDataStart := ct_traceQIn c in
  noting (addQ record (u32 (cycles + u32 (ct_blockRecNum c * 5 * 32)))) ≫= fun _ =>
  modify (set_ctStatus DQERR_OK) ≫= fun _ => mret newDataStart.

(** [CATrace::consumeCAInstruction]. *)
Fixpoint nextInstructionBit (fuel : nat) : CM (Z * Z) :=
  match fuel with
  | O => fun _ => NoFuel
  | S fuel =>
      c ← get;
      let '(r, o) := recInstruction (ct_catr c) in
      modify (set_catr r) ≫= fun _ =>
      match o with
      | Some x => mret x
      | None => noting parseNextCATraceRec ≫= fun _ => nextInstructionBit fuel
      end
  end.

Definition consumeCAInstruction : CM (Z * Z) :=
  c ← get;
  '(pipe, cycles) ← nextInstructionBit (wordsLeft c);
  c ← get;
  mret (pipe, u32 (cycles + u32 (ct_blockRecNum c * 15 * 32))).

(** ** Finding the bits of an instruction in the queue *)

(** A pipe bit of the items from [QStart] on: where, the cycle and the pipe. *)
Fixpoint scanPipe (fuel : nat) (QStart : Z) : CM (Z * option (Z * Z)) :=
  match fuel with
  | O => fun _ => NoFuel
  | S fuel =>
      c ← get;
      if QStart =? ct_traceQIn c then mret (QStart, None)
      else
        x ← item QStart;
        if negb (Z.land (cq_record x) CAVFLAG_V0 =? 0) then
          setItem QStart (fun x => set_record (Z.ldiff (cq_record x) CAVFLAG_V0) x) ≫= fun _ =>
          mret (QStart, Some (cq_cycle x, CAFLAG_PIPE0))
        else if negb (Z.land (cq_record x) CAVFLAG_V1 =? 0) then
          setItem QStart (fun x => set_record (Z.ldiff (cq_record x) CAVFLAG_V1) x) ≫= fun _ =>
          mret (QStart, Some (cq_cycle x, CAFLAG_PIPE1))
        else scanPipe fuel (nextSlot (traceQSize c) QStart)
  end.

(** The search, with more records while nothing is found. *)
Fixpoint pipeLoop (fuel : nat) (QStart : Z) : CM (Z * (Z * Z)) :=
  match fuel with
  | O => fun _ => NoFuel
  | S fuel =>
      c ← get;
      '(q, o) ← scanPipe (turns c) QStart;
      match o with
      | Some x => mret (q, x)
      | None => q ← noting parseNextVectorRecord; pipeLoop fuel q
      end
  end.

Definition consumeCAPipe (QStart : Z) : CM (Z * (Z * Z)) :=
  c ← get;
  match ct_caTraceQ c with
  | None => throw DQERR_ERR
  | Some _ => pipeLoop (S (33 * wordsLeft c)) QStart
  end.

(** What is looked for. *)
Inductive VectorEvent := VISTART | VIARITH | VISTORE | VILOAD.
Definition vflag (t : VectorEvent) : Z :=
  match t with
  | VISTART => CAVFLAG_VISTART | VIARITH => CAVFLAG_VIARITH
  | VISTORE => CAVFLAG_VISTORE | VILOAD => CAVFLAG_VILOAD
  end.

(** Queue depth, and the arithmetic instructions, loads and stores in process. *)
Definition Depths : Type := Z * Z * Z * Z.
Definition depthsOf (x : CATraceQItem) : Depths :=
  (cq_qDepth x, cq_arithInProcess x, cq_loadInProcess x, cq_storeInProcess x).
Definition addDepth (t : VectorEvent) (d : Depths) : Depths :=
  let '(q, a, l, s) := d in
  match t with
  | VISTART => (u8 (q + 1), a, l, s)
  | VIARITH => (q, u8 (a + 1), l, s)
  | VISTORE => (q, a, l, u8 (s + 1))
  | VILOAD => (q, a, u8 (l + 1), s)
  end.
Definition set_depths (d : Depths) (x : CATraceQItem) : CATraceQItem :=
  let '(q, a, l, s) := d in
  {| cq_cycle := cq_cycle x; cq_record := cq_record x; cq_qDepth := q; cq_arithInProcess := a;
     cq_loadInProcess := l; cq_storeInProcess := s |}.

Fixpoint scanVector (fuel : nat) (t : VectorEvent) (QStart : Z) : CM (Z * option Z) :=
  match fuel with
  | O => fun _ => NoFuel
  | S fuel =>
      c ← get;
      if QStart =? ct_traceQIn c then mret (QStart, None)
      else
        setItem QStart (fun x => set_depths (addDepth t (depthsOf x)) x) ≫= fun _ =>
        x ← item QStart;
        if negb (Z.land (cq_record x) (vflag t) =? 0) then
          setItem QStart (fun x => set_record (Z.ldiff (cq_record x) (vflag t)) x) ≫= fun _ =>
          mret (nextSlot (traceQSize c) QStart, Some (cq_cycle x))
        else scanVector fuel t (nextSlot (traceQSize c) QStart)
  end.

Fixpoint vectorLoop (fuel : nat) (t : VectorEvent) (QStart : Z) : CM (Z * Z) :=
  match fuel with
  | O => fun _ => NoFuel
  | S fuel =>
      c ← get;
      '(q, o) ← scanVector (turns c) t QStart;
      match o with
      | Some cycle => mret (q, cycle)
      | None => q ← noting parseNextVectorRecord; vectorLoop fuel t q
      end
  end.

(** [consumeCAVector]: the new [QStart], the cycle, and the depths at the start. *)
Definition consumeCAVector (QStart : Z) (t : VectorEvent) : CM (Z * Z * Depths) :=
  c ← get;
  match ct_caTraceQ c with
  | None => throw DQERR_ERR
  | Some _ =>
      QStart ← (if QStart =? ct_traceQIn c then noting parseNextVectorRecord else mret QStart);
      x ← item QStart;
      '(q, cycle) ← vectorLoop (S (33 * wordsLeft c)) t QStart;
      mret (q, cycle, addDepth t (depthsOf x))
  end.

(** The finish bits that an instruction of a type has, and its flags. *)
Definition vectorFinish (ty : InstType) : option (list VectorEvent * Z) :=
  match ty with
  | INST_VECT_ARITH => Some ([VIARITH], Z.lor CAFLAG_VSTART CAFLAG_VARITH)
  | INST_VECT_LOAD | INST_VECT_AMO => Some ([VILOAD], Z.lor CAFLAG_VSTART CAFLAG_VLOAD)
  | INST_VECT_STORE => Some ([VISTORE], Z.lor CAFLAG_VSTART CAFLAG_VSTORE)
  | INST_VECT_AMO_WW => Some ([VILOAD; VISTORE], Z.lor (Z.lor CAFLAG_VSTART CAFLAG_VLOAD) CAFLAG_VSTORE)
  | _ => None
  end.

(** The finish bits, one after the other: the last cycle, and the depths that the first
    one gives. *)
Fixpoint finishes (q : Z) (ts : list VectorEvent) (first : option Depths) (cycle : Z) : CM (Z * Depths) :=
  match ts with
  | [] => mret (cycle, default (0, 0, 0, 0) first)
  | t :: ts =>
      '(q, cycle, d) ← noting (consumeCAVector q t);
      finishes q ts (Some (default d first)) cycle
  end.

(** The items that are used up leave the queue. *)
Fixpoint dropEmpty (fuel : nat) : CM unit :=
  match fuel with
  | O => fun _ => NoFuel
  | S fuel =>
      c ← get;
      x ← item (ct_traceQOut c);
      if (cq_record x =? 0) && negb (ct_traceQOut c =? ct_traceQIn c) then
        modify (set_traceQ (nextSlot (traceQSize c) (ct_traceQOut c)) (ct_traceQIn c)) ≫= fun _ => dropEmpty fuel
      else mret tt
  end.

Section consuming.
(** What the variables of the caller hold that [consume] does not assign. *)
Context (unset : Z).

(** [CATrace::consume]. *)
Definition consumeCA (iType : InstType) : CM CAInfo :=
  c ← get;
  match ct_status c with
  | DQERR_OK =>
      match ct_caType c with
      | CATRACE_NONE => throw DQERR_ERR
      | CATRACE_INSTRUCTION =>
          '(pipe, cycles) ← noting consumeCAInstruction;
          mret {| ca_caFlags := pipe; ca_pipeCycles := cycles; ca_viStartCycles := unset;
                  ca_viFinishCycles := unset; ca_depths := (0, 0, 0, 0) |}
      | CATRACE_VECTOR =>
          '(q, (cycles, pipe)) ← noting (consumeCAPipe (ct_traceQOut c));
          info ← (match vectorFinish iType with
                  | Some (ts, flags) =>
                      '(q, start, (qDepth, _, _, _)) ← noting (consumeCAVector q VISTART);
                      '(finish, (_, arith, load, store)) ← finishes q ts None 0;
                      mret {| ca_caFlags := Z.lor pipe flags; ca_pipeCycles := cycles;
                              ca_viStartCycles := start; ca_viFinishCycles := finish;
                              ca_depths := (qDepth, arith, load, store) |}
                  | None =>
                      mret {| ca_caFlags := pipe; ca_pipeCycles := cycles; ca_viStartCycles := unset;
                              ca_viFinishCycles := unset; ca_depths := (unset, unset, unset, unset) |}
                  end);
          c ← get;
          dropEmpty (turns c) ≫= fun _ => mret info
      end
  | e => throw e
  end.

#[export] Instance CATrace_cycles : CycleTrace CATrace := {|
  consume := consumeCA; rewind := rewindCA;
  getCATraceStartAddr := ct_startAddr |}.
End consuming.
