(* ===== verification/Settings.v ===== *)
(** * Settings (src/trace.cpp, [TraceSettings])

    What a trace is set up with: from the constructor's defaults, and from the
    properties of a file ([addSettings]). *)

From stdpp Require Import strings functions.
From Stdlib Require Import Ascii.
From Stdlib Require String.
From S2P Require Import Prelude Nexus NextAddr ObjDump Symbols SrcFiles Cycles CText PropFile.

(** ** The members *)

Inductive NameMember :=
| odName | tfName | efName | vdsoName | caName | pfName | mfNameList | pids | cutPath | srcRoot | hostName | kmemPath.
Inductive NumMember :=
| srcBits | archSize | numAddrBits | itcPrintOpts | itcPrintBufferSize | itcPrintChannel | freq | addrDispFlags | startTime
| tsSize | itcPerfChannel | itcPerfMarkerValue.
Inductive BoolMember := tolerateErrors | CTFConversion | eventConversionEnable | filterControlEvents | itcPerfEnable.
#[export] Instance NameMember_eq_dec : EqDecision NameMember.
Proof. solve_decision. Defined.
#[export] Instance NumMember_eq_dec : EqDecision NumMember.
Proof. solve_decision. Defined.
#[export] Instance BoolMember_eq_dec : EqDecision BoolMember.
Proof. solve_decision. Defined.

(** The members of a type are a function; a name is null or a string. *)
Record TraceSettings := {
  ts_name : NameMember -> option (list ascii);
  ts_num : NumMember -> Z;
  ts_bool : BoolMember -> bool;
  ts_tType : TraceType;
  ts_caType : CATraceType;
  ts_pathType : PathType;
}.
Definition setName m v (s : TraceSettings) : TraceSettings := {|
  ts_name := <[m := v]> (ts_name s); ts_num := ts_num s; ts_bool := ts_bool s; ts_tType := ts_tType s;
  ts_caType := ts_caType s; ts_pathType := ts_pathType s |}.
Definition setNum m v (s : TraceSettings) : TraceSettings := {|
  ts_name := ts_name s; ts_num := <[m := v]> (ts_num s); ts_bool := ts_bool s; ts_tType := ts_tType s;
  ts_caType := ts_caType s; ts_pathType := ts_pathType s |}.
Definition setBool m v (s : TraceSettings) : TraceSettings := {|
  ts_name := ts_name s; ts_num := ts_num s; ts_bool := <[m := v]> (ts_bool s); ts_tType := ts_tType s;
  ts_caType := ts_caType s; ts_pathType := ts_pathType s |}.
Definition set_tType t (s : TraceSettings) : TraceSettings := {|
  ts_name := ts_name s; ts_num := ts_num s; ts_bool := ts_bool s; ts_tType := t; ts_caType := ts_caType s;
  ts_pathType := ts_pathType s |}.
Definition set_caType t (s : TraceSettings) : TraceSettings := {|
  ts_name := ts_name s; ts_num := ts_num s; ts_bool := ts_bool s; ts_tType := ts_tType s; ts_caType := t;
  ts_pathType := ts_pathType s |}.
Definition set_pathType t (s : TraceSettings) : TraceSettings := {|
  ts_name := ts_name s; ts_num := ts_num s; ts_bool := ts_bool s; ts_tType := ts_tType s; ts_caType := ts_caType s;
  ts_pathType := t |}.

Definition ITC_OPT_PRINT : Z := 1.
Definition ITC_OPT_NLS : Z := 2.
Definition ADDRDISP_WIDTHAUTO : Z := 1.

Definition newTraceSettings : TraceSettings := {|
  ts_name := fun _ => None;
  ts_num := fun m =>
    match m with
    | itcPrintOpts => ITC_OPT_NLS | itcPrintBufferSize => 4096 | itcPerfChannel => 6 | itcPerfMarkerValue => 0x70657266
    | startTime => -1 | tsSize => 40 | _ => 0
    end;
  ts_bool := fun _ => false;
  ts_tType := TRACETYPE_unknown; ts_caType := CATRACE_NONE; ts_pathType := PATH_TO_UNIX |}.

#[local] Abbreviation SM := (M TraceSettings DQErr).

(** ** Values *)

(** A value is null or a string. *)
Definition Value : Type := option (list ascii).

(** A copy of the value, if there is one; and if it is not empty. *)
Definition copyValue (m : NameMember) (value : Value) : SM unit :=
  match value with Some v => modify (setName m (Some v)) | None => mret tt end.
Definition copyNonEmpty (m : NameMember) (value : Value) : SM unit :=
  match value with Some ((_ :: _) as v) => modify (setName m (Some v)) | _ => mret tt end.

(** [strtol] of a value that is not empty, cut to the type of the member; it is an error if there is
    no number, after the member was set. *)
Definition numValue (m : NumMember) (cut : Z -> Z) (value : Value) : SM unit :=
  match value with
  | Some ((_ :: _) as v) =>
      let '(x, n) := strtol 0 v in
      modify (setNum m (cut x)) ≫= fun _ => if (n =? 0)%nat then throw DQERR_ERR else mret tt
  | _ => mret tt
  end.

(** The bool, and whether it is an error. *)
Definition propertyToBool (src : Value) : bool * bool :=
  match src with
  | Some ((_ :: _) as v) =>
      if strcasecmp (chars "true") v then (true, true)
      else if strcasecmp (chars "false") v then (false, true)
      else let '(x, n) := strtol 0 v in (negb (x =? 0), negb (n =? 0)%nat)
  | _ => (false, true)
  end.
(** A member that is passed by reference is set before the error. *)
Definition boolValue (m : BoolMember) (value : Value) : SM unit :=
  let '(b, ok) := propertyToBool value in
  modify (setBool m b) ≫= fun _ => if ok then mret tt else throw DQERR_ERR.
Definition boolOption (f : bool -> TraceSettings -> TraceSettings) (value : Value) : SM unit :=
  let '(b, ok) := propertyToBool value in
  if ok then modify (f b) else throw DQERR_ERR.

Definition propertyToObjdumpName : Value -> SM unit := copyValue odName.
Definition propertyToKMemPath : Value -> SM unit := copyValue kmemPath.
Definition propertyToArchSize : Value -> SM unit := numValue archSize i32.
Definition propertyToTraceType (value : Value) : SM unit :=
  match value with
  | Some ((_ :: _) as v) =>
      modify (set_tType
        (if strcasecmp v (chars "teInstNone") then TRACETYPE_unknown
         else if strcasecmp v (chars "teInstEvent") then TRACETYPE_EVENT
         else if strcasecmp v (chars "teInstPath") then TRACETYPE_PATH
         else if strcasecmp v (chars "teInstBTMSync") then TRACETYPE_BTM
         else if strcasecmp v (chars "teInstHTMSyncNoOpt") then TRACETYPE_HTMNOOPT
         else if strcasecmp v (chars "teInstHTMSync") then TRACETYPE_HTM
         else TRACETYPE_unknown))
  | _ => mret tt
  end.
Definition propertyToTFName : Value -> SM unit := copyValue tfName.
Definition propertyToEFName (value : Value) : SM unit :=
  match value with
  | Some ((_ :: _) as v) =>
      s ← get;
      match ts_name s mfNameList with
      | Some _ => throw DQERR_ERR
      | None => modify (setName efName (Some v))
      end
  | _ => mret tt
  end.
Definition propertyToVDSOName : Value -> SM unit := copyNonEmpty vdsoName.
Definition propertyToPFName : Value -> SM unit := copyValue pfName.
Definition propertyToPids : Value -> SM unit := copyValue pids.
Definition propertyToMFName (value : Value) : SM unit :=
  match value with
  | Some v =>
      s ← get;
      match ts_name s efName with
      | Some _ => throw DQERR_ERR
      | None => modify (setName mfNameList (Some v))
      end
  | None => mret tt
  end.

(** The number of bits is set before it is checked. *)
Definition propertyToAddrDispFlags (value : Value) : SM unit :=
  match value with
  | Some ((_ :: _) as v) =>
      modify (setNum addrDispFlags 0) ≫= fun _ =>
      let '(x, n) := strtol 10 v in
      let l := i32 x in
      (match drop n v with
       | [] => modify (setNum numAddrBits l)
       | "+"%char :: _ => modify (fun s => setNum addrDispFlags ADDRDISP_WIDTHAUTO (setNum numAddrBits l s))
       | _ => throw DQERR_ERR
       end) ≫= fun _ =>
      if (l <? 32) || (64 <? l) then throw DQERR_ERR else mret tt
  | _ => mret tt
  end.
Definition propertyToSrcBits : Value -> SM unit := numValue srcBits i32.
Definition propertyToNumAddrBits : Value -> SM unit := numValue numAddrBits i32.
Definition propertyToITCPrintOpts : Value -> SM unit :=
  boolOption (fun b => setNum itcPrintOpts (if b then Z.lor ITC_OPT_PRINT ITC_OPT_NLS else ITC_OPT_NLS)).
Definition propertyToITCPrintChannel : Value -> SM unit := numValue itcPrintChannel i32.
Definition propertyToITCPrintBufferSize : Value -> SM unit := numValue itcPrintBufferSize i32.
Definition propertyToTolerateErrors : Value -> SM unit := boolOption (setBool tolerateErrors).
Definition propertyToITCPerfEnable : Value -> SM unit := boolOption (setBool itcPerfEnable).
Definition propertyToITCPerfChannel : Value -> SM unit := numValue itcPerfChannel i32.
Definition propertyToITCPerfMarkerValue : Value -> SM unit := numValue itcPerfMarkerValue u32.
Definition propertyToSrcRoot : Value -> SM unit := copyValue srcRoot.
Definition propertyToSrcCutPath : Value -> SM unit := copyValue cutPath.
Definition propertyToCAName : Value -> SM unit := copyValue caName.
Definition propertyToCAType (value : Value) : SM unit :=
  match value with
  | Some ((_ :: _) as v) =>
      if strcasecmp v (chars "none") || strcasecmp v (chars "catrace_none") then modify (set_caType CATRACE_NONE)
      else if strcasecmp v (chars "vector") || strcasecmp v (chars "catrace_vector") then modify (set_caType CATRACE_VECTOR)
      else if strcasecmp v (chars "instruction") || strcasecmp v (chars "catrace_instruction")
      then modify (set_caType CATRACE_INSTRUCTION)
      else throw DQERR_ERR
  | _ => mret tt
  end.
Definition propertyToPathType (value : Value) : SM unit :=
  match value with
  | Some ((_ :: _) as v) =>
      if strcasecmp (chars "unix") v then modify (set_pathType PATH_TO_UNIX)
      else if strcasecmp (chars "windows") v then modify (set_pathType PATH_TO_WINDOWS)
      else if strcasecmp (chars "raw") v then modify (set_pathType PATH_RAW)
      else throw DQERR_ERR
  | _ => mret tt
  end.
Definition propertyToCTFEnable : Value -> SM unit := boolValue CTFConversion.
Definition propertyToEventConversionEnable : Value -> SM unit := boolValue eventConversionEnable.
Definition propertyToFreq : Value -> SM unit := numValue freq u32.
Definition propertyToStartTime : Value -> SM unit := numValue startTime i64.
Definition propertyToHostName : Value -> SM unit := copyNonEmpty hostName.
Definition propertyToTSSize : Value -> SM unit := numValue tsSize i32.

(** ** A file of properties *)

Definition settingsTable : list (String.string * (Value -> SM unit)) := [
  ("tolerateErrors", propertyToTolerateErrors); ("rtd", propertyToTFName); ("elf", propertyToEFName);
  ("vdso", propertyToVDSOName); ("pcd", propertyToPFName); ("pids", propertyToPids); ("map", propertyToMFName);
  ("srcbits", propertyToSrcBits); ("addrbits", propertyToNumAddrBits);
  ("trace.config.boolean.enable.itc.print.processing", propertyToITCPrintOpts);
  ("trace.config.int.itc.print.channel", propertyToITCPrintChannel);
  ("trace.config.int.itc.print.buffersize", propertyToITCPrintBufferSize);
  ("trace.config.int.itc.perf", propertyToITCPerfEnable); ("trace.config.int.itc.perf.channel", propertyToITCPerfChannel);
  ("trace.config.int.itc.perf.marker", propertyToITCPerfMarkerValue);
  ("source.root", propertyToSrcRoot); ("source.cutpath", propertyToSrcCutPath); ("caFile", propertyToCAName);
  ("caType", propertyToCAType); ("TSSize", propertyToTSSize); ("pathType", propertyToPathType); ("freq", propertyToFreq);
  ("ctfenable", propertyToCTFEnable); ("eventConversionEnable", propertyToEventConversionEnable);
  ("addressdisplayflags", propertyToAddrDispFlags); ("starttime", propertyToStartTime); ("hostname", propertyToHostName);
  ("objdump", propertyToObjdumpName); ("kmempath", propertyToKMemPath); ("archsize", propertyToArchSize);
  ("teinstruction", propertyToTraceType)]%string.

(** A property of another name is left aside. *)
Definition addProperty (name value : list ascii) : SM unit :=
  match List.find (fun h => strcasecmp (chars h.1) name) settingsTable with
  | Some h => h.2 (Some value)
  | None => mret tt
  end.

Definition itcConflict (s : TraceSettings) : bool :=
  ts_bool s itcPerfEnable && negb (Z.land (ts_num s itcPrintOpts) ITC_OPT_PRINT =? 0) &&
  (ts_num s itcPrintChannel =? ts_num s itcPerfChannel).

(** The settings and the parser; the loop gives the return code that ends it. *)
Definition onProps {A} (m : M PropParser DQErr A) : M (TraceSettings * PropParser) DQErr (DQErr + A) := fun '(s, p) =>
  match m p with
  | Ok p a => Ok (s, p) (inr a)
  | Err p e => Ok (s, p) (inl e)
  | Undef => Undef
  | NoFuel => NoFuel
  end.
Definition onSettings {A} (m : SM A) : M (TraceSettings * PropParser) DQErr A := fun '(s, p) =>
  match m s with
  | Ok s a => Ok (s, p) a
  | Err s e => Err (s, p) e
  | Undef => Undef
  | NoFuel => NoFuel
  end.

Fixpoint settingsLoop (n : nat) : M (TraceSettings * PropParser) DQErr DQErr :=
  match n with
  | O => fun _ => NoFuel
  | S n =>
      r ← onProps getNextProperty;
      match r with
      | inl e => mret e
      | inr (name, value) =>
          sp ← get;
          name ← lift_opt (stringAt sp.2 name);
          value ← lift_opt (stringAt sp.2 value);
          onSettings (addProperty name value) ≫= fun _ =>
          settingsLoop n
      end
  end.

(** [fuel] of one more than the lines of the file is enough. *)
Definition addSettings (fuel : nat) : M (TraceSettings * PropParser) DQErr unit :=
  modify (fun '(s, p) => (s, rewind p)) ≫= fun _ =>
  rc ← settingsLoop fuel;
  sp ← get;
  if itcConflict sp.1 then throw DQERR_ERR
  else if bool_decide (rc = DQERR_EOF) then mret tt
  else throw DQERR_ERR.
