(* ===== verification/SettingsRead.v ===== *)
(** * Reading a file of properties back

    The text of a file of properties and comments, and what [addSettings] makes of it: the
    settings that its properties give, one after the other, and what they mean. *)

From stdpp Require Import strings functions.
From Stdlib Require Import Ascii.
From Stdlib Require String.
From S2P Require Import Prelude Nexus NextAddr ObjDump ObjDumpPrint Symbols SrcFiles Cycles CText PropFile Settings.

(** ** The text of a file *)

Definition LF : ascii := "010"%char.
Definition CR : ascii := "013"%char.

(** A comment or an empty line, and a property, with what is around its words. *)
Inductive PropBody :=
| PB_comment (text : list ascii)
| PB_prop (ws1 name ws2 ws3 value tail : list ascii).
Inductive LineEnd := End_LF | End_CRLF | End_file.
Record PropText := { pt_body : PropBody; pt_end : LineEnd }.

Definition bodyText (b : PropBody) : list ascii :=
  match b with
  | PB_comment text => text
  | PB_prop ws1 name ws2 ws3 value tail => ws1 ++ name ++ ws2 ++ "="%char :: ws3 ++ value ++ tail
  end.
Definition endText (e : LineEnd) : list ascii := match e with End_LF => [LF] | End_CRLF => [CR; LF] | End_file => [] end.
Definition ptText (l : PropText) : list ascii := bodyText (pt_body l) ++ endText (pt_end l).
Definition fileText (ls : list PropText) : list ascii := concat (ptText <$> ls).

(** Characters of a line, and of a word. *)
Definition lineChar (c : ascii) : bool := negb (bool_decide (c = LF)) && negb (bool_decide (c = CR)) && negb (bool_decide (c = NUL)).
Definition wordChar (c : ascii) : bool := negb (endsWord c) && negb (tabOrSpace c).
Definition body_ok (b : PropBody) : Prop :=
  match b with
  | PB_comment text => forallb lineChar text = true /\ match text with c :: _ => c = "#"%char | [] => True end
  | PB_prop ws1 name ws2 ws3 value tail =>
      forallb tabOrSpace ws1 = true /\ name <> [] /\ forallb wordChar name = true /\
      forallb tabOrSpace ws2 = true /\ match ws2 with c :: _ => c = " "%char | [] => True end /\
      forallb tabOrSpace ws3 = true /\ forallb wordChar value = true /\ forallb lineChar tail = true /\
      match tail with c :: _ => c = "#"%char \/ c = " "%char /\ value <> [] | [] => True end
  end.
(** Only the last line may lack its end, and then it is not empty. *)
Fixpoint file_ok (ls : list PropText) : Prop :=
  match ls with
  | [] => True
  | l :: ls =>
      body_ok (pt_body l) /\ match pt_end l with End_file => ls = [] /\ bodyText (pt_body l) <> [] | _ => True end /\ file_ok ls
  end.

Definition propOf (l : PropText) : option (list ascii * list ascii) :=
  match pt_body l with PB_prop _ name _ _ value _ => Some (name, value) | PB_comment _ => None end.

(** ** Lists *)

Lemma insert_middle {A} (l1 : list A) x y l2 : <[length l1 := x]> (l1 ++ y :: l2) = l1 ++ x :: l2.
Proof.
  induction l1 as [|z l1 IH]; [done|]. change (z :: <[length l1 := x]> (l1 ++ y :: l2) = z :: l1 ++ x :: l2). by rewrite IH.
Qed.

Lemma countWhile_app f l d rest : forallb f l = true -> f d = false -> countWhile f (l ++ d :: rest) = length l.
Proof.
  intros H Hd. induction l as [|c l IH]; cbn [app countWhile forallb length] in *; [by rewrite Hd|].
  apply andb_true_iff in H as [-> H]. by rewrite IH.
Qed.

Lemma forallb_weaken {A} (f g : A -> bool) l : (forall x, f x = true -> g x = true) -> forallb f l = true -> forallb g l = true.
Proof. intros H. rewrite !forallb_forall. auto. Qed.

Lemma lookup_after {A} (l1 l2 l3 : list A) i : (l1 ++ l2 ++ l3) !! (length l1 + length l2 + i)%nat = l3 !! i.
Proof. rewrite (lookup_app_r l1), (lookup_app_r l2) by lia. f_equal. lia. Qed.
Lemma lookup_next {A} (l1 l2 l3 : list A) : (l1 ++ l2 ++ l3) !! (length l1 + length l2)%nat = l3 !! O.
Proof. rewrite <-(lookup_after l1 l2 l3 0). f_equal. lia. Qed.

(** ** Words *)

Lemma wordChar_spec c : wordChar c = true -> endsWord c = false /\ tabOrSpace c = false /\ endOfText c = false /\
  bool_decide (c = "="%char) = false /\ c <> NUL /\ c <> CR /\ c <> LF.
Proof.
  unfold wordChar. intros [H1%negb_true_iff H2%negb_true_iff]%andb_true_iff. pose proof H1 as H. unfold endsWord in H.
  apply orb_false_iff in H as [[_ H4]%orb_false_iff H5]. split_and!; [done..| | |]; intros ->; by vm_compute in H4.
Qed.

Lemma token_word pre ws w d rest : forallb tabOrSpace ws = true -> w <> [] -> forallb wordChar w = true -> endsWord d = true ->
  getNextToken (pre ++ ws ++ w ++ d :: rest) (length pre) =
    Some ((length pre + length ws)%nat, (length pre + length ws + length w)%nat).
Proof.
  intros Hws Hw Hwc Hd. destruct w as [|c w]; [done|]. pose proof Hwc as Hall. cbn [forallb] in Hwc. apply andb_true_iff in Hwc as [Hc _].
  destruct (wordChar_spec c Hc) as (H1 & H2 & H3 & H4 & _). unfold getNextToken. rewrite drop_app_length. cbn [app].
  rewrite (countWhile_app tabOrSpace ws c) by done.
  rewrite lookup_next.
  cbn [lookup list_lookup mbind option_bind]. rewrite H3, H4, <-drop_drop, !drop_app_length.
  change (c :: w ++ d :: rest) with ((c :: w) ++ d :: rest).
  rewrite (countWhile_app (fun c => negb (endsWord c)) (c :: w) d); [| |by rewrite Hd].
  2: { apply (forallb_weaken wordChar); [|done]. intros x Hx. by destruct (wordChar_spec x Hx) as (-> & _). }
  rewrite lookup_after, lookup_app_r, Nat.sub_diag by lia. done.
Qed.

Lemma token_eq pre ws rest : forallb tabOrSpace ws = true ->
  getNextToken (pre ++ ws ++ "="%char :: rest) (length pre) = Some ((length pre + length ws)%nat, S (length pre + length ws)%nat).
Proof.
  intros Hws. unfold getNextToken. rewrite drop_app_length, (countWhile_app tabOrSpace ws "="%char) by done.
  by rewrite lookup_next.
Qed.

Lemma token_none pre ws d rest : forallb tabOrSpace ws = true -> endOfText d = true ->
  getNextToken (pre ++ ws ++ d :: rest) (length pre) = Some ((length pre + length ws)%nat, (length pre + length ws)%nat).
Proof.
  intros Hws Hd. unfold getNextToken.
  assert (tabOrSpace d = false) as Hb.
  { unfold tabOrSpace. apply orb_false_iff. split; apply bool_decide_eq_false_2; intros ->; by vm_compute in Hd. }
  rewrite drop_app_length, (countWhile_app tabOrSpace ws d) by done.
  rewrite lookup_next. cbn. by rewrite Hd.
Qed.

(** ** The text in memory *)

Lemma stripped_line l : forallb lineChar l = true -> stripped <$> l = l.
Proof.
  induction l as [|c l IH]; [done|]. cbn [forallb fmap list_fmap]. intros [Hc Hl]%andb_true_iff. rewrite IH by done. f_equal.
  unfold lineChar in Hc. apply andb_true_iff in Hc as [[H1%negb_true_iff H2%negb_true_iff]%andb_true_iff _].
  unfold stripped. change "013"%char with CR. change "010"%char with LF. by rewrite H1, H2.
Qed.

Lemma word_line l : forallb wordChar l = true -> forallb lineChar l = true.
Proof.
  apply forallb_weaken. intros c Hc. destruct (wordChar_spec c Hc) as (_ & _ & _ & _ & H1 & H2 & H3).
  unfold lineChar. by rewrite !bool_decide_eq_false_2.
Qed.
Lemma blank_line l : forallb tabOrSpace l = true -> forallb lineChar l = true.
Proof.
  apply forallb_weaken. intros c Hc. unfold tabOrSpace in Hc. apply orb_true_iff in Hc as [H|H]; apply bool_decide_eq_true in H; by subst c.
Qed.
Lemma body_line b : body_ok b -> forallb lineChar (bodyText b) = true.
Proof.
  destruct b as [text|ws1 name ws2 ws3 value tail]; cbn [body_ok bodyText]; [by intros [H _]|].
  intros (H1 & _ & H2 & H3 & _ & H4 & H5 & H6 & _). rewrite !forallb_app. cbn [forallb]. rewrite !forallb_app.
  by rewrite (blank_line ws1), (word_line name), (blank_line ws2), (blank_line ws3), (word_line value), H6.
Qed.

(** The lines that are left, as they are in memory. *)
Definition memoryText (ls : list PropText) : list ascii := (stripped <$> fileText ls) ++ [NUL].

Lemma memory_cons l ls : memoryText (l :: ls) = (stripped <$> ptText l) ++ memoryText ls.
Proof. unfold memoryText, fileText. cbn [fmap list_fmap concat]. by rewrite fmap_app, <-app_assoc. Qed.

(** The line ends with a NUL. *)
Lemma memory_line l ls : file_ok (l :: ls) -> exists t, memoryText (l :: ls) = bodyText (pt_body l) ++ NUL :: t.
Proof.
  intros (Hb & He & _). rewrite memory_cons. unfold ptText. rewrite fmap_app, (stripped_line _ (body_line _ Hb)), <-app_assoc.
  destruct (pt_end l); [by eexists..|]. destruct He as [-> _]. by eexists.
Qed.

Fixpoint linesAt (o : nat) (ls : list PropText) : list PropLine :=
  match ls with
  | [] => []
  | l :: ls => {| ln_line := o; ln_name := None; ln_value := None |} :: linesAt (o + length (ptText l)) ls
  end.

(** [ls] are the lines that are left, the first of them the [k]-th, at [o]. *)
Record linesLeft (k o : nat) (ls : list PropText) (p : PropParser) : Prop := {
  ll_status : pr_status p = DQERR_OK;
  ll_next : pr_nextLine p = k;
  ll_text : drop o (pr_buff p) = memoryText ls;
  ll_lines : exists lines, pr_lines p = Some lines /\ drop k lines = linesAt o ls /\ length lines = (k + length ls)%nat;
}.

Lemma linesAt_length o ls : length (linesAt o ls) = length ls.
Proof. revert o. induction ls as [|l ls IH]; intros o; [done|]. cbn. by rewrite IH. Qed.

Lemma linesLeft_line k o l ls p : linesLeft k o (l :: ls) p ->
  lineAt k p = Ok p {| ln_line := o; ln_name := None; ln_value := None |}.
Proof.
  intros [_ _ _ (lines & El & Ed & _)]. unfold lineAt. rewrite bind_get, El. cbn [mbind option_bind].
  apply (f_equal (fun l => l !! O)) in Ed. rewrite lookup_drop, Nat.add_0_r in Ed. by rewrite Ed.
Qed.

Lemma linesLeft_tail k o l ls p : linesLeft k o (l :: ls) p ->
  linesLeft (S k) (o + length (ptText l)) ls (set_nextLine (S k) p).
Proof.
  intros [H1 H2 H3 (lines & El & Ed & Hl)]. split; cbn; [done|done| |].
  - rewrite <-drop_drop, H3, memory_cons. rewrite <-(length_fmap stripped). apply drop_app_length.
  - exists lines. split; [done|]. split; [|cbn in Hl; lia]. replace (S k) with (k + 1)%nat by lia. rewrite <-drop_drop, Ed. done.
Qed.

(** ** The next property *)

Definition comment (l : PropText) : Prop := match pt_body l with PB_comment _ => True | _ => False end.

Lemma comment_token l ls : comment l -> file_ok (l :: ls) -> getNextToken (memoryText (l :: ls)) 0 = Some (O, O).
Proof.
  intros Hc Hok. destruct (memory_line l ls Hok) as [t ->]. destruct Hok as (Hb & _). unfold comment in Hc.
  destruct (pt_body l) as [text|]; [|done]. destruct Hb as [_ Hb]. cbn [bodyText].
  destruct text as [|c text]; cbn [app]; [apply (token_none [] [] NUL); done|]. subst c. by apply (token_none [] [] "#"%char).
Qed.

Lemma set_next_id k p : pr_nextLine p = k -> set_nextLine k p = p.
Proof. intros <-. by destruct p. Qed.

(** The loop over comments ends at the next line, or at the end. *)
Lemma skip_comments cs ls : Forall comment cs -> forall k o p n N, linesLeft k o (cs ++ ls) p -> file_ok (cs ++ ls) ->
  N = (k + length (cs ++ ls))%nat -> (length (cs ++ ls) <= n)%nat -> cs ++ ls <> [] ->
  match ls with
  | [] => skipLines n N 0 p = Ok (set_nextLine N p) (O, O)
  | l :: ls' => exists o', linesLeft (k + length cs) o' (l :: ls') (set_nextLine (k + length cs) p) /\
      forall s e, getNextToken (memoryText (l :: ls')) 0 = Some (s, e) -> s <> e ->
      skipLines n N 0 p = Ok (set_nextLine (k + length cs) p) (s, e)
  end.
Proof.
  induction 1 as [|c cs Hc Hcs IH]; intros k o p n N Hp Hok -> Hn Hne.
  - cbn [app length] in *. destruct ls as [|l ls]; [done|]. rewrite Nat.add_0_r, (set_next_id k p) by apply (ll_next _ _ _ _ Hp).
    exists o. split; [done|]. intros s e E Hse. destruct n as [|n]; [cbn in Hn; lia|]. cbn [skipLines].
    rewrite bind_get, (ll_next _ _ _ _ Hp), (bind_ok _ _ _ _ _ (linesLeft_line _ _ _ _ _ Hp)). unfold textFrom. cbn [ln_line].
    rewrite (ll_text _ _ _ _ Hp), E, lift_bind. by destruct (Nat.eqb_spec s e).
  - cbn [app] in Hp, Hok. pose proof (comment_token c (cs ++ ls) Hc Hok) as Ec. destruct n as [|n]; [cbn in Hn; lia|].
    assert (forall N, skipLines (S n) N 0 p = if (S k <? N)%nat then skipLines n N 0 (set_nextLine (S k) p) else Ok (set_nextLine (S k) p) (O, O)) as Eskip.
    { intros N. cbn [skipLines]. rewrite bind_get, (ll_next _ _ _ _ Hp), (bind_ok _ _ _ _ _ (linesLeft_line _ _ _ _ _ Hp)).
      unfold textFrom. cbn [ln_line]. rewrite (ll_text _ _ _ _ Hp), Ec, lift_bind. cbn [Nat.eqb]. rewrite bind_modify.
      by destruct (S k <? N)%nat. }
    pose proof (linesLeft_tail _ _ _ _ _ Hp) as Hp2. destruct Hok as (_ & _ & Hok).
    destruct (decide (cs ++ ls = [])) as [E0|Hne2].
    + apply app_eq_nil in E0 as [-> ->]. rewrite Eskip. change (length ([c] ++ [])) with 1%nat. replace (k + 1)%nat with (S k) by lia.
      by rewrite (proj2 (Nat.ltb_ge (S k) (S k))) by lia.
    + specialize (IH (S k) _ _ n (k + length ((c :: cs) ++ ls))%nat Hp2 Hok ltac:(cbn; lia) ltac:(cbn in Hn; lia) Hne2).
      assert ((S k <? k + length ((c :: cs) ++ ls))%nat = true) as Elt.
      { apply Nat.ltb_lt. cbn. destruct (cs ++ ls) as [|x l0]; [done|]. cbn. lia. }
      destruct ls as [|l ls].
      * by rewrite Eskip, Elt, IH.
      * destruct IH as (o' & H1 & H2). replace (k + length (c :: cs))%nat with (S k + length cs)%nat by (cbn; lia).
        exists o'. split; [exact H1|]. intros s e E Hse. rewrite Eskip, Elt. by apply H2.
Qed.

(** A line with a property, cut where the parser writes NULs. *)
Lemma prop_cut ws1 name ws2 ws3 value tail t : body_ok (PB_prop ws1 name ws2 ws3 value tail) ->
  exists x mid y post, bodyText (PB_prop ws1 name ws2 ws3 value tail) ++ NUL :: t = ws1 ++ name ++ x :: mid ++ value ++ y :: post /\
    x :: mid = ws2 ++ "="%char :: ws3 /\ y :: post = tail ++ NUL :: t /\ endsWord x = true /\ endsWord y = true /\
    (value = [] -> endOfText y = true).
Proof.
  intros (_ & _ & _ & _ & H2 & _ & _ & _ & Ht). cbn [bodyText].
  assert (exists x mid, ws2 ++ "="%char :: ws3 = x :: mid /\ endsWord x = true) as (x & mid & E1 & Hx).
  { destruct ws2 as [|c ws2]; cbn [app]; [by eexists _, _|]. subst c. by eexists _, _. }
  assert (exists y post, tail ++ NUL :: t = y :: post /\ endsWord y = true /\ (value = [] -> endOfText y = true)) as (y & post & E2 & Hy & Hv).
  { destruct tail as [|c tail]; cbn [app]; [by eexists _, _|]. destruct Ht as [->|[-> Hv]]; by eexists _, _. }
  exists x, mid, y, post. split_and!; try done. rewrite <-E2. repeat (rewrite <-app_assoc; cbn [app]). do 2 f_equal.
  change (x :: mid ++ value ++ tail ++ NUL :: t) with ((x :: mid) ++ value ++ tail ++ NUL :: t). rewrite <-E1.
  repeat (rewrite <-app_assoc; cbn [app]). done.
Qed.

Lemma prop_tokens ws1 name ws2 ws3 value tail t : body_ok (PB_prop ws1 name ws2 ws3 value tail) ->
  let text := bodyText (PB_prop ws1 name ws2 ws3 value tail) ++ NUL :: t in
  let e := (length ws1 + length name)%nat in let q := (e + length ws2)%nat in let v := (S q + length ws3)%nat in
  getNextToken text 0 = Some (length ws1, e) /\ getNextToken text e = Some (q, S q) /\ text !! q = Some "="%char /\
  getNextToken text (S q) = Some (v, (v + length value)%nat).
Proof.
  intros Hok text e q v. destruct (prop_cut _ _ _ _ _ _ t Hok) as (x & mid & y & post & E & E1 & E2 & Hx & Hy & Hv).
  fold text in E. destruct Hok as (H1 & Hn & H2 & H3 & _ & H4 & H5 & _).
  assert (text = ws1 ++ name ++ ws2 ++ "="%char :: ws3 ++ value ++ y :: post) as Et.
  { unfold text. cbn [bodyText]. rewrite E2. by repeat (rewrite <-app_assoc; cbn [app]). }
  split_and!.
  - rewrite E. by apply (token_word [] ws1 name x).
  - rewrite Et, app_assoc. unfold q, e. rewrite <-length_app. by apply token_eq.
  - rewrite Et, app_assoc, (app_assoc (ws1 ++ name)), lookup_app_r by (rewrite !length_app; unfold q, e; lia).
    replace (q - _)%nat with O by (rewrite !length_app; unfold q, e; lia). done.
  - assert (text = (ws1 ++ name ++ ws2 ++ ["="%char]) ++ ws3 ++ value ++ y :: post) as ->
      by (rewrite Et; by repeat (rewrite <-app_assoc; cbn [app])).
    assert (S q = length (ws1 ++ name ++ ws2 ++ ["="%char])) as -> by (rewrite !length_app; cbn; unfold q, e; lia).
    unfold v. assert (S q = length (ws1 ++ name ++ ws2 ++ ["="%char])) as Eq by (rewrite !length_app; cbn; unfold q, e; lia). rewrite Eq.
    destruct value as [|c value].
    + cbn [app length]. rewrite Nat.add_0_r. apply token_none; [done|by apply Hv].
    + by apply token_word.
Qed.

Lemma cstring_word l t : forallb lineChar l = true -> cstring (l ++ NUL :: t) = l.
Proof.
  induction l as [|c l IH]; [done|]. cbn [forallb app]. intros [Hc Hl]%andb_true_iff.
  assert (c <> NUL) as Hne by (intros ->; done). transitivity (c :: cstring (l ++ NUL :: t)); [|by rewrite IH].
  destruct c as [[] [] [] [] [] [] [] []]; done.
Qed.

Lemma stringAt_word p i l t : drop i (pr_buff p) = l ++ NUL :: t -> forallb lineChar l = true -> stringAt p i = Some l.
Proof.
  intros E Hl. unfold stringAt. rewrite E, bool_decide_eq_true_2, cstring_word; [done|done|].
  apply elem_of_app. right. apply elem_of_cons. by left.
Qed.

Lemma write_two B x mid value y post :
  <[(length B + (S (length mid) + length value))%nat := NUL]> (<[length B := NUL]> (B ++ x :: mid ++ value ++ y :: post)) =
    B ++ NUL :: mid ++ value ++ NUL :: post.
Proof.
  rewrite insert_middle. replace (B ++ NUL :: mid ++ value ++ y :: post) with ((B ++ NUL :: mid ++ value) ++ y :: post)
    by (by repeat (rewrite <-app_assoc; cbn [app])).
  replace (length B + _)%nat with (length (B ++ NUL :: mid ++ value)) by (rewrite length_app; cbn; rewrite length_app; lia).
  rewrite insert_middle. by repeat (rewrite <-app_assoc; cbn [app]).
Qed.

(** The two NULs are written after the name and after the value, and nothing that is left of
    the text changes. *)
Lemma prop_written A ws1 name ws2 ws3 value tail t len buff : body_ok (PB_prop ws1 name ws2 ws3 value tail) ->
  let text := bodyText (PB_prop ws1 name ws2 ws3 value tail) ++ NUL :: t in
  let e := (length ws1 + length name)%nat in let v := (S (e + length ws2) + length ws3)%nat in
  (length (bodyText (PB_prop ws1 name ws2 ws3 value tail)) <= len)%nat ->
  buff = <[(length A + (v + length value))%nat := NUL]> (<[(length A + e)%nat := NUL]> (A ++ text)) ->
  (exists t1, drop (length A + length ws1) buff = name ++ NUL :: t1) /\ (exists t2, drop (length A + v) buff = value ++ NUL :: t2) /\
  drop (length A + len) buff = drop len text.
Proof.
  intros Hok text e v Hlen ->. destruct (prop_cut _ _ _ _ _ _ t Hok) as (x & mid & y & post & E & E1 & _).
  fold text in E.
  assert (S (length mid) = (length ws2 + S (length ws3))%nat) as Hmid by (apply (f_equal length) in E1; rewrite length_app in E1; cbn in E1; lia).
  assert (forall B, <[(length B + (v + length value))%nat := NUL]> (<[(length B + e)%nat := NUL]> (B ++ text)) =
    B ++ ws1 ++ name ++ NUL :: mid ++ value ++ NUL :: post) as Eb.
  { intros B. rewrite E. pose proof (write_two (B ++ ws1 ++ name) x mid value y post) as H. rewrite <-!app_assoc in H. rewrite <-H.
    f_equal; [|f_equal]; rewrite !length_app; unfold v, e; lia. }
  rewrite Eb. split_and!.
  - eexists. rewrite <-drop_drop, !drop_app_length. done.
  - eexists. rewrite <-drop_drop, drop_app_length.
    replace (ws1 ++ name ++ NUL :: mid ++ value ++ NUL :: post) with ((ws1 ++ name ++ NUL :: mid) ++ value ++ NUL :: post)
      by (by repeat (rewrite <-app_assoc; cbn [app])).
    replace v with (length (ws1 ++ name ++ NUL :: mid)) by (rewrite !length_app; cbn; unfold v, e; lia). by rewrite drop_app_length.
  - rewrite <-drop_drop, drop_app_length. specialize (Eb []). cbn [length app Nat.add] in Eb. rewrite <-Eb.
    assert (length (bodyText (PB_prop ws1 name ws2 ws3 value tail)) = v + length value + length tail)%nat as El
      by (cbn [bodyText]; repeat (rewrite length_app; cbn [length]); unfold v, e; lia).
    assert (drop len (<[e := NUL]> text) = drop len text) as Ed by (apply drop_insert_lt; unfold v in El; lia).
    destruct (decide (v + length value < len)%nat) as [Hlt|Hge]; [by rewrite drop_insert_lt|].
    rewrite list_insert_id; [done|]. rewrite list_lookup_insert_ne by (unfold v; lia).
    unfold text. rewrite lookup_app_r by lia. by replace (_ - _)%nat with O by lia.
Qed.

Lemma next_end cs k o p : Forall comment cs -> linesLeft k o cs p -> file_ok cs ->
  exists p', getNextProperty p = Err p' DQERR_EOF.
Proof.
  intros Hc Hp Hok. pose proof Hp as [Hs Hk Ht (lines & El & Ed & Hl)]. unfold getNextProperty. rewrite bind_get, Hs, El.
  rewrite bool_decide_eq_true_2 by done. cbn [negb]. rewrite Hk. destruct (Nat.leb_spec (length lines) k) as [|Hlt]; [by eexists|].
  destruct cs as [|c cs]; [cbn in Hl; lia|].
  rewrite (bind_ok _ _ _ _ _ (linesLeft_line _ _ _ _ _ Hp)). cbn [ln_name ln_value].
  pose proof (skip_comments (c :: cs) [] Hc k o p (length lines) (length lines)) as H. rewrite app_nil_r in H.
  specialize (H Hp Hok Hl ltac:(lia) ltac:(done)). cbn [app] in H. rewrite (bind_ok _ _ _ _ _ H). rewrite bind_get. cbn [set_nextLine pr_nextLine].
  rewrite Nat.leb_refl. by eexists.
Qed.

Lemma next_property cs l ls k o p name value : Forall comment cs -> linesLeft k o (cs ++ l :: ls) p -> file_ok (cs ++ l :: ls) ->
  propOf l = Some (name, value) ->
  exists p' n v k' o', getNextProperty p = Ok p' (n, v) /\ stringAt p' n = Some name /\ stringAt p' v = Some value /\
    linesLeft k' o' ls p'.
Proof.
  intros Hc Hp Hok Hprop. pose proof Hp as [Hs Hk _ (lines & El & Ed & Hl)]. unfold getNextProperty. rewrite bind_get, Hs, El.
  rewrite bool_decide_eq_true_2 by done. cbn [negb]. rewrite Hk.
  assert (k < length lines)%nat as Hlt by (rewrite Hl, length_app; cbn; lia). destruct (Nat.leb_spec (length lines) k) as [|_]; [lia|].
  assert (exists l0 ls0, cs ++ l :: ls = l0 :: ls0) as (l0 & ls0 & E0) by (destruct cs; by eexists _, _).
  pose proof Hp as Hp0. rewrite E0 in Hp0. rewrite (bind_ok _ _ _ _ _ (linesLeft_line _ _ _ _ _ Hp0)). cbn [ln_name ln_value].
  assert (length (cs ++ l :: ls) <= length lines)%nat as Hcs by lia.
  destruct (skip_comments cs (l :: ls) Hc k o p (length lines) (length lines) Hp Hok Hl Hcs ltac:(by destruct cs)) as (o2 & Hp2 & Hskip).
  assert (file_ok (l :: ls)) as Hok2 by (clear - Hok; induction cs as [|c cs IH]; [done|]; apply IH; by destruct Hok as (_ & _ & ?)).
  destruct (memory_line l ls Hok2) as [t Et]. pose proof Hok2 as (Hb & He & _). unfold propOf in Hprop.
  destruct (pt_body l) as [|ws1 name2 ws2 ws3 value2 tail] eqn:Eb; [done|]. injection Hprop as -> ->.
  destruct (prop_tokens _ _ _ _ _ _ t Hb) as (T1 & T2 & T3 & T4).
  set (k2 := (k + length cs)%nat) in *. set (text := bodyText _ ++ NUL :: t) in *. rewrite Et in Hskip.
  assert (length ws1 <> length ws1 + length name)%nat as Hne by (destruct Hb as (_ & Hn & _); destruct name; [done|cbn; lia]).
  rewrite (bind_ok _ _ _ _ _ (Hskip _ _ T1 Hne)), bind_get. cbn [set_nextLine pr_nextLine].
  assert (k2 < length lines)%nat as Hk2 by (unfold k2; rewrite Hl, length_app; cbn; lia).
  destruct (Nat.leb_spec (length lines) k2) as [|_]; [lia|].
  rewrite (bind_ok _ _ _ _ _ (linesLeft_line _ _ _ _ _ Hp2)). unfold textFrom. cbn [ln_line]. rewrite (ll_text _ _ _ _ Hp2), Et.
  destruct (Z.eqb_spec (Z.of_nat (length ws1) - Z.of_nat (length ws1 + length name)) 1) as [|_]; [lia|]. cbn [andb].
  rewrite T2, lift_bind. cbv beta iota zeta.
  rewrite T3, bool_decide_eq_true_2 by done. cbn [negb]. rewrite orb_false_r.
  destruct (Nat.eqb_spec (length ws1 + length name + length ws2) (S (length ws1 + length name + length ws2))) as [|_]; [lia|].
  replace (S (length ws1 + length name + length ws2) - (length ws1 + length name + length ws2) =? 1)%nat with true
    by (symmetry; apply Nat.eqb_eq; lia). cbn [orb negb]. rewrite T4, lift_bind. cbv beta iota zeta.
  match goal with |- context [Z.of_nat ?a - Z.of_nat (?a + ?b) =? 1] => destruct (Z.eqb_spec (Z.of_nat a - Z.of_nat (a + b)) 1) as [|_]; [lia|] end.
  cbn [andb]. rewrite bind_modify.
  pose proof (ll_text _ _ _ _ Hp2) as Htext. cbn [set_nextLine pr_buff] in Htext.
  assert (o2 <= length (pr_buff p))%nat as Ho2.
  { destruct (decide (o2 <= length (pr_buff p))%nat) as [|Hgt]; [done|]. rewrite drop_ge, Et in Htext by lia. by destruct (bodyText _). }
  set (A := take o2 (pr_buff p)). assert (length A = o2) as HA by (unfold A; rewrite length_take; lia).
  assert (pr_buff p = A ++ text) as Ebuf by (unfold A; by rewrite <-Et, <-Htext, take_drop).
  set (p2 := set_pr_buff _ _).
  destruct (prop_written A ws1 name ws2 ws3 value tail t (length (ptText l)) (pr_buff p2) Hb) as ((t1 & W1) & (t2 & W2) & W3).
  { unfold ptText. rewrite Eb, length_app. lia. }
  { unfold p2. cbn. by rewrite Ebuf, HA. }
  rewrite HA in W1, W2, W3. exists p2, (o2 + length ws1)%nat. eexists. exists (S k2), (o2 + length (ptText l))%nat. split; [done|].
  destruct Hb as (_ & _ & Hn & _ & _ & _ & Hvl & _).
  split; [by apply (stringAt_word p2 _ _ t1 W1), word_line|]. split; [by apply (stringAt_word p2 _ _ t2 W2), word_line|].
  split.
  - done.
  - done.
  - rewrite W3. change (bodyText _ ++ NUL :: t) with text. rewrite <-Et, memory_cons, <-(length_fmap stripped). apply drop_app_length.
  - eexists. split; [done|]. split; [|rewrite length_insert; unfold k2; rewrite Hl, length_app; cbn; lia].
    destruct (ll_lines _ _ _ _ Hp2) as (lines2 & El2 & Ed2 & _). cbn [set_nextLine pr_lines] in El2. rewrite El in El2. injection El2 as <-.
    rewrite drop_insert_lt by lia. replace (S k2) with (k2 + 1)%nat by lia. by rewrite <-drop_drop, Ed2.
Qed.

(** ** The parser of a file *)

Lemma starts_count s i text : length (lineStarts s i text) = length (linesFrom s text).
Proof.
  revert s i. induction text as [|c text IH]; intros s i; [done|]. cbn [lineStarts linesFrom]. rewrite !length_app, IH. by destruct s.
Qed.

Lemma lines_count text : Z.of_nat (length (lineStarts true 0 text)) = countLines text.
Proof.
  rewrite starts_count. destruct text as [|c text]; [done|]. pose proof (lines_counted (c :: text) true ltac:(done)). lia.
Qed.

(** Inside of a line, up to its end. *)
Lemma starts_inside u rest : forall i, Forall (fun c => c <> LF) u -> lineStarts false i (u ++ rest) = lineStarts false (i + length u) rest.
Proof.
  induction u as [|c u IH]; intros i Hu; cbn [app lineStarts length]; [by rewrite Nat.add_0_r|].
  apply list.Forall_cons in Hu as [Hc Hu]. rewrite bool_decide_eq_false_2 by done. rewrite IH by done. by rewrite Nat.add_succ_r.
Qed.
Lemma starts_line u rest i : Forall (fun c => c <> LF) u ->
  lineStarts true i (u ++ LF :: rest) = i :: lineStarts true (i + length (u ++ [LF])) rest.
Proof.
  intros Hu. destruct u as [|c u]; cbn [app lineStarts length].
  - rewrite bool_decide_eq_true_2 by done. by rewrite Nat.add_1_r.
  - apply list.Forall_cons in Hu as [Hc Hu]. rewrite bool_decide_eq_false_2, starts_inside by done. cbn [app lineStarts].
    rewrite bool_decide_eq_true_2 by done. rewrite length_app. cbn. do 2 f_equal. lia.
Qed.
Lemma starts_last u i : Forall (fun c => c <> LF) u -> u <> [] -> lineStarts true i u = [i].
Proof.
  destruct u as [|c u]; [done|]. intros [Hc Hu]%list.Forall_cons _. cbn [lineStarts]. rewrite bool_decide_eq_false_2 by done.
  pose proof (starts_inside u [] (S i) Hu) as H. rewrite app_nil_r in H. by rewrite H.
Qed.

Lemma line_noLF l : forallb lineChar l = true -> Forall (fun c => c <> LF) l.
Proof. intros H. apply list.Forall_forall. rewrite forallb_forall in H. intros c Hc ->. by specialize (H LF ltac:(by apply list_elem_of_In)). Qed.

Lemma starts_file ls : file_ok ls -> forall i,
  (fun i => {| ln_line := i; ln_name := None; ln_value := None |}) <$> lineStarts true i (fileText ls) = linesAt i ls.
Proof.
  induction ls as [|l ls IH]; intros Hok i; [done|]. destruct Hok as (Hb & He & Hok). pose proof (body_line _ Hb) as Hl%line_noLF.
  unfold fileText. cbn [fmap list_fmap concat]. change (concat (list_fmap _ _ ptText ls)) with (fileText ls). cbn [linesAt].
  rewrite <-IH by done. unfold ptText. set (u := bodyText (pt_body l)) in *. destruct (pt_end l); cbn [endText].
  - rewrite <-app_assoc. cbn [app]. by rewrite starts_line.
  - replace (u ++ [CR; LF]) with ((u ++ [CR]) ++ [LF]) by (by rewrite <-app_assoc). rewrite <-(app_assoc (u ++ [CR])). cbn [app].
    rewrite starts_line; [done|]. apply list.Forall_app. split; [done|]. by constructor.
  - destruct He as [-> Hne]. cbn. rewrite !app_nil_r. by rewrite starts_last.
Qed.

Lemma newPropParser_file ls : file_ok ls ->
  exists p, newPropParser (Some (Content (fileText ls))) = Some p /\ linesLeft 0 0 ls p.
Proof.
  intros Hok. unfold newPropParser. rewrite lines_count, Z.ltb_irrefl, Z.eqb_refl. eexists. split; [done|]. split; try done.
  cbn [pr_lines]. eexists. split; [done|]. rewrite starts_file by done. split; [done|]. apply linesAt_length.
Qed.

(** ** The settings of a file *)

Fixpoint addAll (props : list (list ascii * list ascii)) : M TraceSettings DQErr unit :=
  match props with
  | [] => mret tt
  | (name, value) :: props => addProperty name value ≫= fun _ => addAll props
  end.
Definition propsOf (ls : list PropText) : list (list ascii * list ascii) := omap propOf ls.

Lemma comments_split ls : exists cs, Forall comment cs /\
  (ls = cs \/ exists l rest name value, ls = cs ++ l :: rest /\ propOf l = Some (name, value)).
Proof.
  induction ls as [|l ls (cs & Hcs & H)]; [exists []; split; [constructor|by left]|]. destruct (propOf l) as [[name value]|] eqn:E.
  - exists []. split; [constructor|]. right. by exists l, ls, name, value.
  - exists (l :: cs). split.
    + constructor; [|done]. unfold propOf in E. unfold comment. by destruct (pt_body l).
    + destruct H as [->|(l2 & rest & name & value & -> & E2)]; [by left|]. right. by exists l2, rest, name, value.
Qed.

Lemma propsOf_comments cs ls : Forall comment cs -> propsOf (cs ++ ls) = propsOf ls.
Proof.
  unfold propsOf. induction 1 as [|c cs Hc Hcs IH]; [done|]. cbn [app omap list_omap]. rewrite IH.
  unfold comment in Hc. unfold propOf at 1. by destruct (pt_body c).
Qed.

Definition withProps {A} (r : Res TraceSettings DQErr A) (p : PropParser) (k : TraceSettings -> A -> Res (TraceSettings * PropParser) DQErr DQErr) :
    Res (TraceSettings * PropParser) DQErr DQErr :=
  match r with Ok s a => k s a | Err s e => Err (s, p) e | Undef => Undef | NoFuel => NoFuel end.

Lemma file_ok_app cs ls : file_ok (cs ++ ls) -> file_ok ls.
Proof. induction cs as [|c cs IH]; [done|]. intros (_ & _ & H). by apply IH. Qed.

Lemma loop_reads fuel : forall ls k o s p, (length ls < fuel)%nat -> file_ok ls -> linesLeft k o ls p ->
  exists p', settingsLoop fuel (s, p) = withProps (addAll (propsOf ls) s) p' (fun s _ => Ok (s, p') DQERR_EOF).
Proof.
  induction fuel as [|fuel IH]; intros ls k o s p Hf Hok Hp; [lia|]. cbn [settingsLoop].
  destruct (comments_split ls) as (cs & Hcs & [->|(l & rest & name & value & -> & E)]).
  - destruct (next_end cs k o p Hcs Hp Hok) as [p' E]. exists p'. pose proof (propsOf_comments cs [] Hcs) as Ep. rewrite app_nil_r in Ep.
    rewrite Ep. unfold mbind, M_bind, onProps. by rewrite E.
  - destruct (next_property cs l rest k o p name value Hcs Hp Hok E) as (p2 & n & v & k2 & o2 & E1 & E2 & E3 & Hp2).
    rewrite propsOf_comments by done. unfold propsOf at 1. cbn [omap list_omap]. rewrite E. cbn [addAll].
    apply file_ok_app in Hok. destruct Hok as (_ & _ & Hok). rewrite length_app in Hf. cbn in Hf.
    assert (forall s, exists p', settingsLoop fuel (s, p2) = withProps (addAll (propsOf rest) s) p' (fun s _ => Ok (s, p') DQERR_EOF)) as IH2
      by (intros s2; apply (IH rest k2 o2 s2 p2); [lia|done|done]).
    unfold mbind, M_bind, onProps, get, lift_opt, onSettings. rewrite E1. cbn [snd]. rewrite E2, E3.
    destruct (addProperty name value s) as [s2 []|s2 e| |].
    + destruct (IH2 s2) as [p' E4]. exists p'. exact E4.
    + by exists p2.
    + by exists p2.
    + by exists p2.
Qed.

(** ** The meaning of a file of settings

    The settings that the properties of a file stand for, and that [addSettings] makes exactly
    them. *)

(** *** Settings *)

(** A name of a file, a number, a switch, printing ITC messages or not, the types of the trace, of
    the cycle-accurate trace and of paths, and the width of addresses, at least or exactly. *)
Inductive Setting :=
| Set_name (m : NameMember) (v : list ascii)
| Set_num (m : NumMember) (x : Z)
| Set_bool (m : BoolMember) (b : bool)
| Set_itcPrint (b : bool)
| Set_tType (t : TraceType)
| Set_caType (t : CATraceType)
| Set_pathType (t : PathType)
| Set_addrBits (x : Z) (auto : bool).

Definition effect (st : Setting) (s : TraceSettings) : TraceSettings :=
  match st with
  | Set_name m v => setName m (Some v) s
  | Set_num m x => setNum m x s
  | Set_bool m b => setBool m b s
  | Set_itcPrint b => setNum itcPrintOpts (if b then 3 else 2) s
  | Set_tType t => set_tType t s
  | Set_caType t => set_caType t s
  | Set_pathType t => set_pathType t s
  | Set_addrBits x auto => let s := setNum numAddrBits x (setNum addrDispFlags 0 s) in if auto then setNum addrDispFlags 1 s else s
  end.

(** The name of its property. *)
Definition propName (st : Setting) : String.string := (
  match st with
  | Set_name m _ =>
      match m with
      | odName => "objdump" | tfName => "rtd" | efName => "elf" | vdsoName => "vdso" | caName => "cafile" | pfName => "pcd"
      | mfNameList => "map" | pids => "pids" | cutPath => "source.cutpath" | srcRoot => "source.root" | hostName => "hostname"
      | kmemPath => "kmempath"
      end
  | Set_num m _ =>
      match m with
      | srcBits => "srcbits" | archSize => "archsize" | numAddrBits => "addrbits"
      | itcPrintBufferSize => "trace.config.int.itc.print.buffersize" | itcPrintChannel => "trace.config.int.itc.print.channel"
      | freq => "freq" | startTime => "starttime" | tsSize => "tssize" | itcPerfChannel => "trace.config.int.itc.perf.channel"
      | itcPerfMarkerValue => "trace.config.int.itc.perf.marker" | itcPrintOpts | addrDispFlags => ""
      end
  | Set_bool m _ =>
      match m with
      | tolerateErrors => "tolerateerrors" | CTFConversion => "ctfenable" | eventConversionEnable => "eventconversionenable"
      | itcPerfEnable => "trace.config.int.itc.perf" | filterControlEvents => ""
      end
  | Set_itcPrint _ => "trace.config.boolean.enable.itc.print.processing"
  | Set_tType _ => "teinstruction" | Set_caType _ => "catype" | Set_pathType _ => "pathtype"
  | Set_addrBits _ _ => "addressdisplayflags"
  end)%string.

(** Numbers are decimal, without a leading zero, or hexadecimal. *)
Inductive NumText (x : Z) : list ascii -> Prop :=
| NT_dec n : 10 ^ Z.of_nat n <= x < 10 ^ Z.of_nat (S n) -> NumText x (writeDigits 10 (S n) x)
| NT_hex n : 0 <= x < 16 ^ Z.of_nat (S n) -> NumText x ("0"%char :: "x"%char :: writeDigits 16 (S n) x).

Definition valueText (st : Setting) (w : list ascii) : Prop :=
  let says t := strcasecmp (chars t) w = true in
  match st with
  | Set_name _ v => w = v
  | Set_num _ x => NumText x w
  | Set_bool _ b | Set_itcPrint b => says (if b then "true" else "false")%string
  | Set_tType t =>
      says (match t with
            | TRACETYPE_BTM => "teInstBTMSync" | TRACETYPE_HTM => "teInstHTMSync" | TRACETYPE_HTMNOOPT => "teInstHTMSyncNoOpt"
            | TRACETYPE_EVENT => "teInstEvent" | TRACETYPE_PATH => "teInstPath" | _ => "teInstNone"
            end)%string
  | Set_caType t =>
      match t with
      | CATRACE_NONE => says "none"%string \/ says "catrace_none"%string
      | CATRACE_VECTOR => says "vector"%string \/ says "catrace_vector"%string
      | CATRACE_INSTRUCTION => says "instruction"%string \/ says "catrace_instruction"%string
      end
  | Set_pathType t => says (match t with PATH_TO_UNIX => "unix" | PATH_TO_WINDOWS => "windows" | PATH_RAW => "raw" end)%string
  | Set_addrBits x auto => exists n, x < 10 ^ Z.of_nat (S n) /\ w = writeDigits 10 (S n) x ++ (if auto then ["+"%char] else [])
  end.

(** The members that have a property, and the values that fit. *)
Definition setting_ok (st : Setting) : Prop :=
  match st with
  | Set_name m v => match m with efName | vdsoName | hostName => v <> [] | _ => True end
  | Set_num m x =>
      match m with
      | itcPrintOpts | addrDispFlags => False
      | freq | itcPerfMarkerValue => 0 <= x < 2 ^ 32
      | startTime => 0 <= x < 2 ^ 63
      | _ => 0 <= x < 2 ^ 31
      end
  | Set_bool m _ => m <> filterControlEvents
  | Set_tType t => t <> TRACETYPE_VCD
  | Set_addrBits x _ => 32 <= x <= 64
  | _ => True
  end.

(** A property is written for a setting: its name in upper or lower case. *)
Definition denotes (prop : list ascii * list ascii) (st : Setting) : Prop :=
  strcasecmp (chars (propName st)) prop.1 = true /\ valueText st prop.2.

(** *** One property *)

Definition handler (st : Setting) : Value -> M TraceSettings DQErr unit :=
  match st with
  | Set_name m _ =>
      match m with
      | odName => propertyToObjdumpName | tfName => propertyToTFName | efName => propertyToEFName | vdsoName => propertyToVDSOName
      | caName => propertyToCAName | pfName => propertyToPFName | mfNameList => propertyToMFName | pids => propertyToPids
      | cutPath => propertyToSrcCutPath | srcRoot => propertyToSrcRoot | hostName => propertyToHostName
      | kmemPath => propertyToKMemPath
      end
  | Set_num m _ =>
      match m with
      | itcPerfMarkerValue => propertyToITCPerfMarkerValue | freq => propertyToFreq | startTime => propertyToStartTime
      | m => numValue m i32
      end
  | Set_bool m _ =>
      match m with
      | tolerateErrors => propertyToTolerateErrors | itcPerfEnable => propertyToITCPerfEnable
      | m => boolValue m
      end
  | Set_itcPrint _ => propertyToITCPrintOpts
  | Set_tType _ => propertyToTraceType
  | Set_caType _ => propertyToCAType
  | Set_pathType _ => propertyToPathType
  | Set_addrBits _ _ => propertyToAddrDispFlags
  end.

Lemma strcasecmp_as a b c : strcasecmp a b = true -> strcasecmp c b = strcasecmp c a.
Proof. unfold strcasecmp. intros ->%bool_decide_eq_true. done. Qed.
Lemma strcasecmp_sym a b : strcasecmp a b = strcasecmp b a.
Proof. unfold strcasecmp. apply bool_decide_ext. naive_solver. Qed.

Lemma find_ext {A} (f g : A -> bool) l : (forall x, f x = g x) -> List.find f l = List.find g l.
Proof. intros H. induction l as [|x l IH]; [done|]. cbn. by rewrite H, IH. Qed.

Lemma add_handled st name value : setting_ok st -> strcasecmp (chars (propName st)) name = true ->
  addProperty name value = handler st (Some value).
Proof.
  intros Hok Hn. unfold addProperty.
  rewrite (find_ext _ (fun h => strcasecmp (chars h.1) (chars (propName st)))) by (intros h; by apply strcasecmp_as).
  destruct st as [[] ?|[] ?|[] ?| | | | |]; try done; by destruct Hok.
Qed.

Lemma num_text x w : NumText x w -> x < 2 ^ 63 -> exists n c t, w = c :: t /\ strtol 0 w = (x, S n).
Proof.
  intros [n Hx|n Hx] H63.
  - destruct (writeDigits_head 10 n x) as (t & E & _); [lia| |].
    { assert (0 < 10 ^ Z.of_nat n) by (apply Z.pow_pos_nonneg; lia). lia. }
    rewrite strtol_decimal by done. rewrite E. by eexists _, _, _.
  - rewrite strtol_hex by done. eexists (n + 2)%nat, _, _. split; [done|]. f_equal. lia.
Qed.

Lemma i64_small x : - 2 ^ 63 <= x < 2 ^ 63 -> i64 x = x.
Proof.
  intros H. unfold i64, swrap, wrap. destruct (decide (0 <= x)).
  - rewrite Z.mod_small by lia. case_match; lia.
  - replace (x mod 2 ^ 64) with (x + 2 ^ 64) by (symmetry; rewrite <-(Z.mod_add _ 1) by lia; apply Z.mod_small; lia). case_match; lia.
Qed.

Lemma numValue_set m cut x w s : NumText x w -> 0 <= x < 2 ^ 63 -> cut x = x -> numValue m cut (Some w) s = Ok (setNum m x s) tt.
Proof.
  intros Hw Hx Hc. destruct (num_text x w Hw ltac:(lia)) as (n & c & t & -> & E). unfold numValue. rewrite E.
  unfold modify, mbind, M_bind. by rewrite Hc.
Qed.

(** A word that is told case apart is not another one. *)
Lemma says_not t u w : strcasecmp (chars t) w = true -> strcasecmp (chars u) (chars t) = false -> strcasecmp (chars u) w = false.
Proof. intros H <-. by apply strcasecmp_as. Qed.
Lemma says_nonempty t w : strcasecmp (chars t) w = true -> chars t <> [] -> exists c l, w = c :: l.
Proof. unfold strcasecmp. intros H%bool_decide_eq_true Ht. destruct w as [|c l]; [by destruct (chars t)|by eexists _, _]. Qed.

Lemma bool_text (b : bool) w : strcasecmp (chars (if b then "true" else "false")%string) w = true -> propertyToBool (Some w) = (b, true).
Proof.
  intros H. destruct (says_nonempty _ _ H) as (c & l & ->); [by destruct b|]. unfold propertyToBool.
  destruct b; [by rewrite H|]. by rewrite (says_not _ "true"%string _ H), H by done.
Qed.

Lemma boolValue_set m (b : bool) w s : strcasecmp (chars (if b then "true" else "false")%string) w = true ->
  boolValue m (Some w) s = Ok (setBool m b s) tt.
Proof. intros H. unfold boolValue. by rewrite (bool_text b). Qed.
Lemma boolOption_set f (b : bool) w s : strcasecmp (chars (if b then "true" else "false")%string) w = true ->
  boolOption f (Some w) s = Ok (f b s) tt.
Proof. intros H. unfold boolOption. by rewrite (bool_text b). Qed.

Lemma tType_set t w s : setting_ok (Set_tType t) -> valueText (Set_tType t) w -> propertyToTraceType (Some w) s = Ok (set_tType t s) tt.
Proof.
  intros Ht H. cbn in H. assert (exists c (l : list ascii), w = cons c l) as (c & l & E) by (apply (says_nonempty _ _ H); by destruct t).
  unfold propertyToTraceType. rewrite E, <-E. rewrite !(strcasecmp_sym w). unfold modify. do 2 f_equal.
  destruct t; try done; repeat (rewrite (says_not _ _ _ H) by done); by rewrite H.
Qed.
Lemma caType_set t w s : valueText (Set_caType t) w -> propertyToCAType (Some w) s = Ok (set_caType t s) tt.
Proof.
  intros H. assert (exists c (l : list ascii), w = cons c l) as (c & l & E) by (destruct t, H as [H|H]; by apply (says_nonempty _ _ H)).
  unfold propertyToCAType. rewrite E, <-E. rewrite !(strcasecmp_sym w).
  destruct t, H as [H|H]; repeat (rewrite (says_not _ _ _ H) by done); rewrite ?H, ?orb_true_r; done.
Qed.
Lemma pathType_set t w s : valueText (Set_pathType t) w -> propertyToPathType (Some w) s = Ok (set_pathType t s) tt.
Proof.
  intros H. cbn in H. assert (exists c (l : list ascii), w = cons c l) as (c & l & E) by (apply (says_nonempty _ _ H); by destruct t).
  unfold propertyToPathType. rewrite E, <-E. destruct t; repeat (rewrite (says_not _ _ _ H) by done); by rewrite H.
Qed.
Lemma addrBits_set x auto w s : 32 <= x <= 64 -> valueText (Set_addrBits x auto) w ->
  propertyToAddrDispFlags (Some w) s = Ok (effect (Set_addrBits x auto) s) tt.
Proof.
  intros Hx (n & Hn & E). assert (strtol 10 w = (x, S n) /\ drop (S n) w = (if auto then ["+"%char] else [])) as [E1 E2].
  { subst w. split; [|by apply drop_app_length'; rewrite writeDigits_length]. apply strtol_base; [by left|lia|lia| | |]; by destruct auto. }
  assert (exists c (l : list ascii), w = cons c l) as (c & l & Ew).
  { destruct w as [|c l]; [|by eexists _, _]. apply (f_equal length) in E. rewrite length_app, writeDigits_length in E. done. }
  unfold propertyToAddrDispFlags. rewrite Ew, <-Ew, bind_modify, E1. cbv zeta beta iota. rewrite E2, i32_small by lia.
  replace ((x <? 32) || (64 <? x)) with false by (symmetry; apply orb_false_iff; split; apply Z.ltb_ge; lia). destruct auto; reflexivity.
Qed.

(** The property of a setting makes it; an ELF file and mapping files exclude each other. *)
Definition free (st : Setting) (s : TraceSettings) : Prop :=
  match st with
  | Set_name efName _ => ts_name s mfNameList = None
  | Set_name mfNameList _ => ts_name s efName = None
  | _ => True
  end.

Lemma add_set prop st s : setting_ok st -> denotes prop st -> free st s -> addProperty prop.1 prop.2 s = Ok (effect st s) tt.
Proof.
  intros Hok [Hn Hv] Hf. rewrite (add_handled st) by done. destruct prop as [name w]. cbn [fst snd] in *. destruct st as [m v|m x|m b|b|t|t|t|x auto].
  - cbn in Hv. subst w. destruct m; cbn in Hok, Hf |- *; try done; destruct v as [|c v]; try done; unfold mbind, M_bind, get; by rewrite Hf.
  - cbn [handler effect]. assert (0 <= x < 2 ^ 63) as Hx by (destruct m; cbn in Hok; lia).
    destruct m; try done; cbn in Hok; apply numValue_set; try done; try (apply i32_small; lia); try (apply u32_small; lia). apply i64_small; lia.
  - destruct m; try done; (by apply boolValue_set) || (by apply (boolOption_set (setBool _))).
  - by apply (boolOption_set (fun b : bool => setNum itcPrintOpts (if b then 3 else 2))) with (b := b).
  - by apply tType_set.
  - by apply caType_set.
  - by apply pathType_set.
  - by apply addrBits_set.
Qed.

(** *** All of them *)

Definition effects (l : list Setting) (s : TraceSettings) : TraceSettings := foldl (fun s st => effect st s) s l.

(** The program is given as an ELF file or as mapping files, not both. *)
Definition oneSource (l : list Setting) (s : TraceSettings) : Prop :=
  (ts_name s mfNameList = None /\ forall v, Set_name mfNameList v ∉ l) \/ (ts_name s efName = None /\ forall v, Set_name efName v ∉ l).

Lemma oneSource_free st l s : oneSource (st :: l) s -> free st s /\ oneSource l (effect st s).
Proof.
  intros [[H1 H2]|[H1 H2]]; (split; [|]).
  - destruct st as [[]| | | | | | |]; try done. by destruct (H2 v); left.
  - left. split; [|intros v Hv; by apply (H2 v); right]. destruct st as [[] v| | | | | | |x []]; try done. by destruct (H2 v); left.
  - destruct st as [[]| | | | | | |]; try done. by destruct (H2 v); left.
  - right. split; [|intros v Hv; by apply (H2 v); right]. destruct st as [[] v| | | | | | |x []]; try done. by destruct (H2 v); left.
Qed.

Lemma addAll_effects props l : Forall2 denotes props l -> Forall setting_ok l -> forall s, oneSource l s ->
  addAll props s = Ok (effects l s) tt.
Proof.
  induction 1 as [|[name value] st props l Hd _ IH]; intros Hl s Hs; [done|]. apply list.Forall_cons in Hl as [Hok Hl].
  apply oneSource_free in Hs as [Hf Hs]. cbn [addAll]. rewrite (bind_ok _ _ _ _ _ (add_set _ _ _ Hok Hd Hf)). by apply IH.
Qed.

(** *** A file of settings *)

Lemma settings_read ls l s fuel :
  file_ok ls -> (length ls < fuel)%nat ->
  Forall2 denotes (propsOf ls) l -> Forall setting_ok l -> oneSource l s ->
  exists p p', newPropParser (Some (Content (SettingsRead.fileText ls))) = Some p /\ pr_status p = DQERR_OK /\
    addSettings fuel (s, p) =
      if itcConflict (effects l s) then Err (effects l s, p') DQERR_ERR else Ok (effects l s, p') tt.
Proof.
  intros Hls Hf Hd Hl Hs. destruct (newPropParser_file ls Hls) as (p & Ep & Hp).
  assert (rewind p = p) as Er by (apply set_next_id; apply Hp).
  destruct (loop_reads fuel ls 0 0 s p Hf Hls Hp) as [p' E]. rewrite (addAll_effects _ _ Hd Hl s Hs) in E.
  exists p, p'. split; [done|]. split; [apply Hp|]. unfold addSettings. rewrite bind_modify, Er, (bind_ok _ _ _ _ _ E), bind_get. cbn [fst].
  by destruct (itcConflict _).
Qed.
