(* ===== verification/NlsStrings.v ===== *)
(** * No-load strings (src/dqr.cpp, [ElfReader::parseNLSStrings])

    The section [.comment] of an ELF file may hold format strings, each after its index
    and a colon: the traced program prints one of them by writing its index and its
    arguments to a channel. *)

From stdpp Require Import strings.
From Stdlib Require Import Ascii.
From Stdlib Require String.
From S2P Require Import Prelude Nexus ObjDump ObjDumpPrint CText PropFile SettingsRead ItcPrint ElfFile.

(** ** One format string *)

Definition signedConversion (c : ascii) : bool := bool_decide (c ∈ chars "di").
Definition unsignedConversion (c : ascii) : bool := bool_decide (c ∈ chars "ouxXeEfFgGaAcspnM").

(** The number of arguments and the mask of the signed ones, from [nf] and [mask] on;
    [percent] is [state]. *)
Fixpoint scanFormat (percent : bool) (nf mask : Z) (l : list ascii) : option (Z * Z) :=
  match l with
  | [] => Some (nf, mask)
  | c :: l =>
      if negb percent then scanFormat (bool_decide (c = "%"%char)) nf mask l
      else if bool_decide (c = "%"%char) then scanFormat false nf mask l
      else if signedConversion c then
        if nf <? 32 then scanFormat false (nf + 1) (Z.lor mask (i32 (Z.shiftl 1 nf))) l else None
      else if unsignedConversion c then scanFormat false (nf + 1) mask l
      else scanFormat true nf mask l
  end.

(** ** The section *)

(** The index of the last character that [strtol] looks at, in base 0. *)
Definition lastRead (l : list ascii) : nat :=
  let ws := spaces l in
  let s := (ws + (sign (drop ws l)).2)%nat in
  let n := (strtol 0 l).2 in
  match drop s l with
  | "0"%char :: x :: _ => if bool_decide (x = "x"%char) || bool_decide (x = "X"%char) then Nat.max (s + 2) n else Nat.max s n
  | _ => Nat.max s n
  end.

Definition notNUL (c : ascii) : bool := negb (bool_decide (c = NUL)).
Definition noStrings : list NlString := replicate 32 {| nl_nf := 0; nl_signedMask := 0; nl_format := None |}.

(** The strings of [data], which is what is left of the section; [None] where the code reads
    beyond it.  The mask of a string that comes twice is that of both. *)
Fixpoint nlsLoop (n : nat) (data : list ascii) (strings : list NlString) : Res unit DQErr (list NlString) :=
  match n with
  | O => NoFuel
  | S n =>
      match data with
      | [] => Ok tt strings
      | _ =>
          if (length data <=? lastRead data)%nat then Undef
          else
            let '(x, k) := strtol 0 data in
            let skipString l := nlsLoop n (drop (S (countWhile notNUL l)) l) strings in
            if (k =? 0)%nat then skipString data
            else
              let index := i32 x in
              let rest := drop k data in
              match rest with
              | ":"%char :: text =>
                  if (32 <=? index) || (index <? 0) then skipString rest
                  else
                    let e := countWhile notNUL text in
                    if (length text <=? e)%nat then Undef
                    else
                      match strings !! Z.to_nat index with
                      | None => Undef
                      | Some s =>
                          match scanFormat false 0 (nl_signedMask s) (take e text) with
                          | None => Undef
                          | Some (nf, mask) =>
                              nlsLoop n (drop (S e) text) (<[Z.to_nat index := {|
                                nl_nf := nf; nl_signedMask := mask; nl_format := Some (code_of <$> take e text) |}]> strings)
                          end
                      end
              | _ => skipString rest
              end
      end
  end.

(** [section] is what finding the ELF file and reading so many bytes at an offset comes to. *)
Definition parseNLSStrings (section : Z -> Z -> DQErr + list ascii) (f : ElfFile) : Res unit DQErr (list NlString) :=
  match List.find (fun s => strcmp (sc_name s) (chars ".comment"))
          (omap (fun p => im_store (ef_image f) !! p) (im_codeSectionLst (ef_image f))) with
  | None => Ok tt noStrings
  | Some sp =>
      match section (sc_offset sp) (i32 (sc_size sp)) with
      | inl e => Err tt e
      | inr data => nlsLoop (S (length data)) data noStrings
      end
  end.

(** ** Formats *)

(** The parts of a format string. *)
Inductive Piece :=
| P_text (c : ascii)
| P_percent
| P_conversion (mods : list ascii) (c : ascii).
Definition pieceText (p : Piece) : list ascii :=
  match p with P_text c => [c] | P_percent => chars "%%" | P_conversion mods c => "%"%char :: mods ++ [c] end.
Definition modifier (c : ascii) : bool :=
  notNUL c && negb (bool_decide (c = "%"%char)) && negb (signedConversion c) && negb (unsignedConversion c).
Definition piece_ok (p : Piece) : Prop :=
  match p with
  | P_text c => c <> "%"%char /\ c <> NUL
  | P_percent => True
  | P_conversion mods c => forallb modifier mods = true /\ (signedConversion c = true \/ unsignedConversion c = true)
  end.
Definition formatText (l : list Piece) : list ascii := concat (pieceText <$> l).

(** Which of the arguments are signed. *)
Definition arguments (l : list Piece) : list bool :=
  omap (fun p => match p with P_conversion _ c => Some (signedConversion c) | _ => None end) l.
Fixpoint maskOf (i : Z) (l : list bool) : Z :=
  match l with [] => 0 | b :: l => Z.lor (if b : bool then Z.shiftl 1 i else 0) (maskOf (i + 1) l) end.

Lemma scan_modifiers mods c l nf mask : forallb modifier mods = true ->
  scanFormat true nf mask (mods ++ c :: l) = scanFormat true nf mask (c :: l).
Proof.
  induction mods as [|m mods IH]; [done|]. cbn [forallb app]. intros [Hm H]%andb_true_iff.
  unfold modifier in Hm. apply andb_true_iff in Hm as [[[_ H1%negb_true_iff]%andb_true_iff H2%negb_true_iff]%andb_true_iff H3%negb_true_iff].
  cbn [scanFormat negb]. rewrite H1, H2, H3. by apply IH.
Qed.

Lemma conversion_percent c : signedConversion c = true \/ unsignedConversion c = true -> bool_decide (c = "%"%char) = false.
Proof. intros H. apply bool_decide_eq_false_2. intros ->. by destruct H. Qed.

Lemma scan_format l : Forall piece_ok l -> forall nf mask, 0 <= nf -> nf + Z.of_nat (length (arguments l)) <= 31 ->
  scanFormat false nf mask (formatText l) = Some (nf + Z.of_nat (length (arguments l)), Z.lor mask (maskOf nf (arguments l))).
Proof.
  induction 1 as [|p l Hp _ IH]; intros nf mask Hnf Hlen.
  - cbn. by rewrite Z.lor_0_r, Z.add_0_r.
  - unfold formatText. cbn [fmap list_fmap concat]. change (concat _) with (formatText l). destruct p as [c| |mods c].
    + destruct Hp as [Hc _]. cbn [pieceText app scanFormat negb]. rewrite bool_decide_eq_false_2 by done. by apply IH.
    + cbn [pieceText chars String.list_ascii_of_string app scanFormat negb]. rewrite bool_decide_eq_true_2 by done. by apply IH.
    + destruct Hp as [Hm Hc]. cbn [pieceText app scanFormat negb]. rewrite bool_decide_eq_true_2, <-app_assoc by done. cbn [app].
      rewrite scan_modifiers by done. cbn [scanFormat negb]. rewrite (conversion_percent c Hc).
      unfold arguments in *. cbn [omap list_omap length] in *. change (list_omap _ _ _ l) with (arguments l) in *. cbn [maskOf].
      destruct (signedConversion c).
      * destruct (Z.ltb_spec nf 32); [|lia]. rewrite IH, Z.lor_assoc by lia. f_equal. f_equal; [lia|]. f_equal. f_equal.
        apply i32_small. rewrite Z.shiftl_1_l. assert (0 < 2 ^ nf) by (apply Z.pow_pos_nonneg; lia).
        assert (2 ^ nf <= 2 ^ 30) by (apply Z.pow_le_mono_r; lia). lia.
      * destruct Hc as [?| ->]; [done|]. rewrite IH by lia. f_equal. f_equal. lia.
Qed.

(** ** Reading a section back *)

(** The strings of a section: any text that is no number, or an index and a format. *)
Inductive NlsText :=
| NT_other (text : list ascii)
| NT_format (index : nat) (l : list Piece).
Definition indexText (i : nat) : list ascii := writeDigits 10 (if (i <? 10)%nat then 1 else 2)%nat (Z.of_nat i).
Definition nlsText (t : NlsText) : list ascii :=
  match t with NT_other text => text | NT_format i l => indexText i ++ ":"%char :: formatText l end ++ [NUL].
Definition noNumber (text : list ascii) : Prop :=
  match text with c :: _ => isspace c = false /\ c <> "+"%char /\ c <> "-"%char /\ digitIn 10 c = None | [] => True end.
Definition text_ok (t : NlsText) : Prop :=
  match t with
  | NT_other text => noNumber text /\ forallb notNUL text = true
  | NT_format i l => (i < 32)%nat /\ Forall piece_ok l /\ (length (arguments l) <= 31)%nat
  end.

Lemma alter_insert {A} (l : list A) i f x : l !! i = Some x -> alter f i l = <[i := f x]> l.
Proof.
  revert i. induction l as [|y l IH]; intros [|i] E; try done; [by injection E as ->|]. cbn. f_equal. by apply IH.
Qed.

(** What the strings of a section make of the table. *)
Definition addString (strings : list NlString) (t : NlsText) : list NlString :=
  match t with
  | NT_other _ => strings
  | NT_format i l =>
      alter (fun s => {| nl_nf := Z.of_nat (length (arguments l)); nl_signedMask := Z.lor (nl_signedMask s) (maskOf 0 (arguments l));
                         nl_format := Some (code_of <$> formatText l) |}) i strings
  end.

Lemma other_strtol text c l : noNumber text -> forallb notNUL text = true -> text ++ [NUL] = c :: l -> forall rest,
  strtol 0 (c :: l ++ rest) = (0, O) /\ lastRead (c :: l ++ rest) = O.
Proof.
  intros Hn Hz E rest. assert (isspace c = false /\ c <> "+"%char /\ c <> "-"%char /\ digitIn 10 c = None) as (H1 & H2 & H3 & H4).
  { destruct text as [|d text]; cbn in E; injection E as <- <-; [by vm_compute|done]. }
  assert (sign (c :: l ++ rest) = (false, O)) as Es by (destruct c as [[] [] [] [] [] [] [] []]; done).
  assert (basePrefix 0 (c :: l ++ rest) = (10, O)) as Eb by (destruct c as [[] [] [] [] [] [] [] []]; done).
  assert (strtol 0 (c :: l ++ rest) = (0, O)) as E1.
  { unfold strtol, scanNumber. cbn [spaces]. rewrite H1. cbn [drop]. rewrite Es. cbn [drop Nat.add]. rewrite Eb. cbn [drop Nat.add digits].
    by rewrite H4. }
  split; [done|]. unfold lastRead. rewrite E1. cbn [spaces]. rewrite H1. cbn [drop]. rewrite Es.
  destruct c as [[] [] [] [] [] [] [] []]; done.
Qed.

Lemma index_strtol i rest : (i < 32)%nat ->
  strtol 0 (indexText i ++ ":"%char :: rest) = (Z.of_nat i, length (indexText i)) /\
  lastRead (indexText i ++ ":"%char :: rest) = length (indexText i).
Proof.
  intros Hi. destruct i as [|i]; [destruct rest as [|d rest]; split; reflexivity|].
  do 31 (destruct i as [|i]; [split; reflexivity|]). lia.
Qed.
Lemma index_start i : (i < 32)%nat -> (0 < length (indexText i) <= 2)%nat.
Proof. unfold indexText. rewrite writeDigits_length. destruct (i <? 10)%nat; lia. Qed.

Lemma countWhile_NUL l rest : forallb notNUL l = true -> countWhile notNUL (l ++ NUL :: rest) = length l.
Proof. intros H. by apply countWhile_app. Qed.

Lemma format_noNUL l : Forall piece_ok l -> forallb notNUL (formatText l) = true.
Proof.
  unfold formatText. induction 1 as [|p l Hp _ IH]; [done|]. cbn [fmap list_fmap concat]. rewrite forallb_app, IH, andb_true_r.
  destruct p as [c| |mods c].
  - destruct Hp as [_ Hc]. cbn. unfold notNUL. by rewrite bool_decide_eq_false_2.
  - done.
  - destruct Hp as [Hm Hc]. cbn [pieceText forallb]. rewrite forallb_app.
    rewrite (forallb_weaken modifier notNUL); [|intros x Hx; unfold modifier in Hx; by apply andb_true_iff in Hx as [[[-> _]%andb_true_iff _]%andb_true_iff _]|done].
    assert (notNUL c = true) as Hz; [|cbn; by rewrite Hz]. unfold notNUL. rewrite bool_decide_eq_false_2; [done|].
    intros ->. by destruct Hc.
Qed.

Lemma nls_read l : Forall text_ok l -> forall n strings, (length (concat (nlsText <$> l)) < n)%nat -> length strings = 32%nat ->
  nlsLoop n (concat (nlsText <$> l)) strings = Ok tt (foldl addString strings l).
Proof.
  induction 1 as [|t l Ht _ IH]; intros [|n] strings Hn Hs; cbn [fmap list_fmap concat length] in *; try lia; [done|].
  set (rest := concat (nlsText <$> l)) in *. rewrite length_app in Hn. cbn [foldl]. destruct t as [text|i fs].
  - destruct Ht as [Hno Hz]. unfold nlsText at 1. unfold nlsText in Hn at 1. rewrite length_app in Hn. cbn in Hn.
    destruct (text ++ [NUL]) as [|c t] eqn:E; [by destruct text|]. destruct (other_strtol text c t Hno Hz E rest) as [E1 E2].
    cbn [nlsLoop app]. rewrite E2, E1. cbn [length Nat.leb Nat.eqb].
    change (c :: t ++ rest) with ((c :: t) ++ rest). rewrite <-E, <-app_assoc. cbn [app]. rewrite countWhile_NUL by done.
    replace (drop (S (length text)) (text ++ NUL :: rest)) with rest.
    + apply IH; [lia|done].
    + change (NUL :: rest) with ([NUL] ++ rest). rewrite app_assoc. symmetry. apply drop_app_length'. rewrite length_app. cbn. lia.
  - destruct Ht as (Hi & Hf & Hlen). pose proof (index_start i Hi) as Hd. pose proof (format_noNUL fs Hf) as Hz.
    unfold nlsText in Hn at 1. rewrite !length_app in Hn. cbn in Hn.
    unfold nlsText at 1. rewrite <-!app_assoc. cbn [app]. rewrite <-?app_assoc. cbn [app].
    set (text := formatText fs ++ NUL :: rest). destruct (index_strtol i text Hi) as [E1 E2].
    cbn [nlsLoop]. destruct (indexText i ++ ":"%char :: text) as [|c t] eqn:E; [by destruct (indexText i)|].
    rewrite E2, E1, <-E, length_app. cbn [length]. destruct (Nat.leb_spec (length (indexText i) + S (length text)) (length (indexText i))); [lia|].
    destruct (Nat.eqb_spec (length (indexText i)) 0); [lia|]. rewrite drop_app_length.
    rewrite i32_small by lia. destruct (Z.leb_spec 32 (Z.of_nat i)); [lia|]. destruct (Z.ltb_spec (Z.of_nat i) 0); [lia|]. cbn [orb].
    assert (countWhile notNUL text = length (formatText fs)) as -> by by apply countWhile_NUL.
    assert (length text = length (formatText fs) + S (length rest))%nat as -> by apply length_app.
    destruct (Nat.leb_spec (length (formatText fs) + S (length rest)) (length (formatText fs))); [lia|].
    rewrite Nat2Z.id. destruct (lookup_lt_is_Some_2 strings i) as [s Es]; [lia|]. rewrite Es.
    unfold text. rewrite take_app_length, scan_format by (done || lia). cbn [Z.add].
    replace (drop (S (length (formatText fs))) (formatText fs ++ NUL :: rest)) with rest
      by (change (NUL :: rest) with ([NUL] ++ rest); rewrite app_assoc; symmetry; apply drop_app_length'; rewrite length_app; cbn; lia).
    rewrite IH; [|lia|by rewrite length_insert]. cbn [addString]. do 2 f_equal. rewrite Z.add_0_l.
    by rewrite (alter_insert strings i _ s Es).
Qed.
