(* ===== verification/CyclesRead.v ===== *)
(** * An instruction trace gives its set bits, in order

    Whatever the file holds, the calls of [CATrace::consume] in an instruction trace
    give the pipe and the cycle of each set bit of its blocks of 32 words, in the
    order of the cycles, and then report the end of the file. *)

From S2P Require Import Prelude Nexus Decode Cycles.

(** ** What the file says *)

(** The bits of a word below bit [n], the oldest first. *)
Fixpoint wordBits (w : Z) (n : nat) : list bool :=
  match n with O => [] | S b => Z.testbit w (Z.of_nat b) :: wordBits w b end.
Fixpoint bitsOf (words : list Z) : list bool :=
  match words with [] => [] | w :: words => wordBits w 30 ++ bitsOf words end.

(** The places of the set bits, counted from [i]. *)
Fixpoint ones (i : Z) (bs : list bool) : list Z :=
  match bs with
  | [] => []
  | b :: bs => (if b then [i] else []) ++ ones (i + 1) bs
  end.

(** The word at a place of the file. *)
Definition word32 (content : list Z) (i : Z) : Z :=
  let b k := default 0 (content !! Z.to_nat (i + k)) in
  b 0 + b 1 * 2 ^ 8 + b 2 * 2 ^ 16 + b 3 * 2 ^ 24.

(** The data of block [k]; the first bit of the file counts as set. *)
Definition blockData (content : list Z) (k : nat) : list Z :=
  let w i := Z.land (word32 content (128 * Z.of_nat k + 4 * Z.of_nat i)) (Z.ones 30) in
  (if decide (k = O) then Z.lor (w O) (2 ^ 29) else w O) :: (w <$> seq 1 31).

(** Two bits for each cycle, the first for pipe 0. *)
Definition bitEvent (k : nat) (i : Z) : Z * Z :=
  (if Z.even i then CAFLAG_PIPE0 else CAFLAG_PIPE1, u32 (i / 2 + u32 (Z.of_nat k * 15 * 32))).
Definition eventsFrom (content : list Z) (k : nat) (offset : nat) : list (Z * Z) :=
  bitEvent k <$> ones (Z.of_nat offset) (drop offset (bitsOf (blockData content k))).

Definition blocks (content : list Z) : nat := (length content / 128)%nat.
Definition instructionEvents (content : list Z) : list (Z * Z) :=
  concat ((fun k => eventsFrom content k 0) <$> seq 0 (blocks content)).

(** ** Bits of a record *)

Lemma length_wordBits w n : length (wordBits w n) = n.
Proof. induction n; simpl; congruence. Qed.

Lemma length_bitsOf words : length (bitsOf words) = (30 * length words)%nat.
Proof.
  induction words as [|w words IH]; [done|]. cbn [bitsOf length].
  rewrite length_app, length_wordBits. lia.
Qed.

Lemma drop_wordBits w n k : drop k (wordBits w n) = wordBits w (n - k).
Proof.
  revert k. induction n as [|n IH]; intros [|k]; try done. cbn [wordBits drop]. rewrite IH. done.
Qed.

Lemma drop_bitsOf words o : (o < 30 * length words)%nat ->
  drop o (bitsOf words) =
  match drop (o / 30) words with
  | [] => []
  | w :: ws => wordBits w (30 - o mod 30) ++ bitsOf ws
  end.
Proof.
  revert o. induction words as [|w words IH]; intros o Ho; [simpl in Ho; lia|].
  cbn [bitsOf]. destruct (decide (o < 30)%nat) as [H|H].
  - rewrite Nat.div_small, Nat.mod_small by done. cbn [drop].
    by rewrite drop_app_le, drop_wordBits by (rewrite length_wordBits; lia).
  - rewrite drop_app_ge by (rewrite length_wordBits; lia). rewrite length_wordBits.
    rewrite IH by (simpl in Ho; lia). remember (o - 30)%nat as o' eqn:E. assert (o = o' + 1 * 30)%nat as -> by lia.
    rewrite Nat.div_add, Nat.Div0.mod_add by lia. by rewrite Nat.add_1_r.
Qed.

(** [skipBits] stops at the first set bit. *)
Lemma skipBits_spec w n o : forall rest,
  match skipBits w n o with
  | (O, o') => o' = o + Z.of_nat n /\ ones o (wordBits w n ++ rest) = ones o' rest
  | (S b, o') => o <= o' /\ o' - o + Z.of_nat (S b) = Z.of_nat n /\
      ones o (wordBits w n ++ rest) = o' :: ones (o' + 1) (wordBits w b ++ rest)
  end.
Proof.
  revert o. induction n as [|n IH]; intros o rest; cbn [skipBits wordBits app ones].
  - split; [lia|done].
  - destruct (Z.testbit w (Z.of_nat n)).
    + split; [lia|]. split; [lia|done].
    + specialize (IH (o + 1) rest). destruct (skipBits w n (o + 1)) as [[|b] o']; cbn [app].
      * destruct IH as [-> ->]. split; [lia|done].
      * destruct IH as (? & ? & ->). split; [lia|]. split; [lia|done].
Qed.

Lemma findBit_cons w words n offset : findBit (w :: words) n offset =
  match skipBits w n offset with
  | (S b, offset) => (Some (Z.of_nat b), offset)
  | (O, offset) => findBit words 30 offset
  end.
Proof. done. Qed.

Lemma bit_parity o n o' b : (o + n) mod 30 = 0 -> o' - o + Z.of_nat (S b) = n ->
  Z.odd (Z.of_nat b) = Z.even o'.
Proof.
  intros Hm Hb. pose proof (Z.div_mod (o + n) 30 ltac:(lia)) as Hq.
  replace (Z.of_nat b) with (2 * (15 * ((o + n) / 30)) - (1 + o')) by lia.
  rewrite <-Z.negb_even, Z.even_sub, Z.even_mul, Z.even_add. cbn. by destruct (Z.even o').
Qed.

Lemma findBit_spec words : forall w n o, (n <= 30)%nat -> 0 <= o -> (o + Z.of_nat n) mod 30 = 0 ->
  let bits := wordBits w n ++ bitsOf words in
  match findBit (w :: words) n o with
  | (None, _) => ones o bits = []
  | (Some b, o') =>
      o <= o' < o + Z.of_nat (length bits) /\ Z.odd b = Z.even o' /\
      ones o bits = o' :: ones (o' + 1) (drop (Z.to_nat (o' + 1 - o)) bits)
  end.
Proof.
  induction words as [|w' words IH]; intros w n o Hn Ho Hm bits; subst bits; rewrite findBit_cons;
    pose proof (skipBits_spec w n o) as Hs; destruct (skipBits w n o) as [[|b] o1].
  - destruct (Hs (bitsOf [])) as [_ ->]. done.
  - destruct (Hs (bitsOf [])) as (H1 & H2 & ->).
    split; [rewrite length_app, length_wordBits; lia|]. split.
    + by eapply bit_parity.
    + do 2 f_equal. rewrite drop_app_le by (rewrite length_wordBits; lia). rewrite drop_wordBits. do 2 f_equal. lia.
  - destruct (Hs (bitsOf (w' :: words))) as [-> ->].
    specialize (IH w' 30%nat (o + Z.of_nat n) ltac:(lia) ltac:(lia)). cbn zeta in IH.
    change (bitsOf (w' :: words)) with (wordBits w' 30 ++ bitsOf words) in *.
    destruct (findBit (w' :: words) 30 (o + Z.of_nat n)) as [[b|] o2]; [|apply IH; dlia].
    destruct IH as (H1 & H2 & ->); [dlia|]. rewrite (length_app (wordBits w n)), length_wordBits.
    split; [lia|]. split; [done|]. do 2 f_equal.
    rewrite (drop_app_ge (wordBits w n)) by (rewrite length_wordBits; lia). rewrite length_wordBits. f_equal. lia.
  - destruct (Hs (bitsOf (w' :: words))) as (H1 & H2 & ->).
    split; [rewrite length_app, length_wordBits; lia|]. split.
    + by eapply bit_parity.
    + do 2 f_equal. rewrite drop_app_le by (rewrite length_wordBits; lia). rewrite drop_wordBits. do 2 f_equal. lia.
Qed.

(** ** Reading a block *)

Lemma nextWord_spec c : 0 <= ct_caBufferIndex c -> beyond 4 c = false ->
  nextWord c = Ok (set_index (ct_caBufferIndex c + 4) c) (word32 (ct_caBuffer c) (ct_caBufferIndex c)).
Proof.
  intros Hi Hb%Z.ltb_ge. unfold nextWord. rewrite bind_get.
  set (i := ct_caBufferIndex c) in *. set (buf := ct_caBuffer c) in *.
  assert (forall k, 0 <= k < 4 -> exists b, buf !! Z.to_nat (i + k) = Some b) as Hk
    by (intros k Hk; apply lookup_lt_is_Some_2; lia).
  unfold word32. destruct (Hk 0 ltac:(lia)) as [b0 E0], (Hk 1 ltac:(lia)) as [b1 E1],
    (Hk 2 ltac:(lia)) as [b2 E2], (Hk 3 ltac:(lia)) as [b3 E3].
  rewrite E0, E1, E2, E3. rewrite Z.add_0_r in E0.
  replace (S (Z.to_nat i)) with (Z.to_nat (i + 1)) by lia.
  replace (S (Z.to_nat (i + 1))) with (Z.to_nat (i + 2)) by lia.
  replace (S (Z.to_nat (i + 2))) with (Z.to_nat (i + 3)) by lia.
  by rewrite E0, E1, E2, E3.
Qed.

Lemma restWords_spec n : forall i c, 0 <= ct_caBufferIndex c ->
  ct_caBufferIndex c + 4 * Z.of_nat n <= Z.of_nat (length (ct_caBuffer c)) ->
  exists addr, restWords n i c = Ok (set_index (ct_caBufferIndex c + 4 * Z.of_nat n) c)
    ((fun m => Z.land (word32 (ct_caBuffer c) (ct_caBufferIndex c + 4 * Z.of_nat m)) (Z.ones 30)) <$> seq 0 n, addr).
Proof.
  induction n as [|n IH]; intros i c Hi Hl; cbn [restWords].
  - exists 0. rewrite Z.add_0_r. by destruct c.
  - rewrite (bind_ok _ _ _ _ _ (nextWord_spec c Hi ltac:(apply Z.ltb_ge; lia))).
    destruct (IH (i + 1) (set_index (ct_caBufferIndex c + 4) c)) as [addr E]; [cbn; lia|cbn -[Z.mul Z.of_nat]; lia|].
    rewrite (bind_ok _ _ _ _ _ E). eexists. cbn [set_index ct_caBufferIndex ct_caBuffer].
    unfold mret, M_ret. f_equal; [unfold set_index; cbn; f_equal; lia|]. f_equal.
    cbn [seq fmap list_fmap]. f_equal; [by rewrite Z.mul_0_r, Z.add_0_r|].
    rewrite <-fmap_S_seq, <-list_fmap_compose. apply list_fmap_ext. intros ? m _. cbn [compose].
    do 2 f_equal. lia.
Qed.

(** The state in which block [k] is to come. *)
Definition before (k : nat) (c : CATrace) : Prop :=
  ct_status c = DQERR_OK /\ ct_caBufferIndex c = 128 * Z.of_nat k.

Lemma firstWord_spec c fuel : ct_caBufferIndex c = 0 -> beyond 4 c = false ->
  firstWord (S fuel) 0 c =
    let c' := set_index 4 c in
    if beyond 4 c' then Err (set_ctStatus DQERR_EOF c') DQERR_EOF
    else Ok c' (word32 (ct_caBuffer c) 0).
Proof.
  intros Hi Hb. cbn [firstWord]. rewrite (bind_ok _ _ _ _ _ (nextWord_spec c ltac:(lia) Hb)), bind_get, Hi.
  cbn zeta. change (0 + 4) with 4. destruct (beyond 4 (set_index 4 c)); [done|].
  change (Z.shiftr 0 30 =? 0) with true. cbn [negb]. rewrite andb_false_r. reflexivity.
Qed.

(** A block that is there. *)
Lemma parse_block c k : before k c -> (k < blocks (ct_caBuffer c))%nat ->
  exists addr, parseNextCATraceRec c =
    Ok (set_catr {| cr_offset := 0; cr_address := addr; cr_data := blockData (ct_caBuffer c) k |}
          (set_block (if decide (k = O) then 0 else ct_blockRecNum c + 1)
            (set_index (128 * Z.of_nat (S k)) c))) tt.
Proof.
  intros [Hst Hi] Hk. assert (128 * Z.of_nat (S k) <= Z.of_nat (length (ct_caBuffer c))) as Hlen.
  { unfold blocks in Hk. pose proof (Nat.Div0.mul_div_le (length (ct_caBuffer c)) 128). lia. }
  unfold parseNextCATraceRec. rewrite bind_get, Hst.
  assert (beyond 4 c = false) as Hb by (apply Z.ltb_ge; lia). rewrite Hb.
  assert ((if ct_caBufferIndex c =? 0 then firstWord (S (length (ct_caBuffer c))) 0 else nextWord) c =
    Ok (set_index (128 * Z.of_nat k + 4) c) (word32 (ct_caBuffer c) (128 * Z.of_nat k))) as E.
  { destruct (Z.eqb_spec (ct_caBufferIndex c) 0) as [H0|H0].
    - rewrite firstWord_spec by done. cbn zeta. assert (k = O) as -> by lia.
      assert (beyond 4 (set_index 4 c) = false) as -> by (apply Z.ltb_ge; cbn; lia). done.
    - rewrite nextWord_spec by (lia || done). by rewrite Hi. }
  rewrite (bind_ok _ _ _ _ _ E), bind_get.
  assert (beyond (4 * 31) (set_index (128 * Z.of_nat k + 4) c) = false) as -> by (apply Z.ltb_ge; cbn; lia).
  destruct (restWords_spec 31 1 (set_index (128 * Z.of_nat k + 4) c)) as [addr Er]; [cbn; lia|cbn; lia|].
  rewrite (bind_ok _ _ _ _ _ Er). exists addr. cbn [set_index ct_caBufferIndex ct_caBuffer ct_blockRecNum].
  unfold modify. f_equal. unfold set_catr, set_block, set_index. cbn -[blockData Z.of_nat seq Z.mul].
  assert ((ct_caBufferIndex c =? 0) = bool_decide (k = O)) as ->
    by (rewrite Hi; destruct (Z.eqb_spec (128 * Z.of_nat k) 0); [rewrite bool_decide_true|rewrite bool_decide_false]; lia || done).
  f_equal.
  - lia.
  - by destruct (decide (k = O)) as [->|]; [|rewrite bool_decide_false].
  - f_equal. unfold blockData. f_equal.
    + rewrite Z.mul_0_r, Z.add_0_r. by destruct (decide (k = O)) as [->|]; [|rewrite bool_decide_false].
    + rewrite <-fmap_S_seq, <-list_fmap_compose. apply list_fmap_ext. intros ? m _. cbn [compose].
      do 2 f_equal. lia.
Qed.

(** Behind the last block: the end of the file. *)
Lemma parse_end c k : before k c -> (blocks (ct_caBuffer c) <= k)%nat ->
  exists c', parseNextCATraceRec c = Err c' DQERR_EOF.
Proof.
  intros [Hst Hi] Hk. assert (Z.of_nat (length (ct_caBuffer c)) < 128 * Z.of_nat (S k)) as Hlen.
  { unfold blocks in Hk. pose proof (Nat.mul_succ_div_gt (length (ct_caBuffer c)) 128 ltac:(lia)). lia. }
  unfold parseNextCATraceRec. rewrite bind_get, Hst.
  destruct (beyond 4 c) eqn:Hb; [by eexists|].
  assert (beyond (4 * 31) (set_index (128 * Z.of_nat k + 4) c) = true) as Hb2 by (apply Z.ltb_lt; cbn; lia).
  destruct (Z.eqb_spec (ct_caBufferIndex c) 0) as [H0|H0].
  - pose proof (firstWord_spec c (length (ct_caBuffer c)) H0 Hb) as E. cbn zeta in E.
    assert (k = O) as -> by lia.
    destruct (beyond 4 (set_index 4 c)).
    + eexists. by rewrite (bind_err _ _ _ _ _ E).
    + eexists. rewrite (bind_ok _ _ _ _ _ E), bind_get. change (128 * Z.of_nat 0 + 4) with 4 in Hb2. by rewrite Hb2.
  - eexists. rewrite (bind_ok _ _ _ _ _ (nextWord_spec c ltac:(lia) Hb)), bind_get, Hi. by rewrite Hb2.
Qed.

(** ** The instructions of a block *)

Lemma length_blockData content k : length (blockData content k) = 32%nat.
Proof. unfold blockData. destruct (decide (k = O)); cbn [length]; by rewrite length_fmap, length_seq. Qed.

Lemma length_blockBits content k : length (bitsOf (blockData content k)) = 960%nat.
Proof. by rewrite length_bitsOf, length_blockData. Qed.

(** The record of block [k] with the bits up to [o] consumed. *)
Definition within (content : list Z) (k o : nat) (r : CATraceRec) : Prop :=
  cr_data r = blockData content k /\ cr_offset r = Z.of_nat o /\ (o <= 960)%nat.

Lemma recInstruction_spec content k o r : within content k o r ->
  match recInstruction r with
  | (_, None) => eventsFrom content k o = []
  | (r', Some (pipe, cycles)) => exists o', within content k o' r' /\
      eventsFrom content k o = (pipe, u32 (cycles + u32 (Z.of_nat k * 15 * 32))) :: eventsFrom content k o'
  end.
Proof.
  intros (Hd & Ho & Hl). unfold recInstruction, eventsFrom. rewrite Hd, Ho.
  change (30 * 32) with 960. pose proof (length_blockBits content k) as Hb. destruct (Z.leb_spec 960 (Z.of_nat o)).
  { by rewrite drop_ge by lia. }
  assert (Z.to_nat (Z.of_nat o / 30) = (o / 30)%nat) as -> by (change 30 with (Z.of_nat 30); rewrite <-Nat2Z.inj_div; lia).
  assert (Z.to_nat (Z.of_nat o mod 30) = (o mod 30)%nat) as -> by (change 30 with (Z.of_nat 30); rewrite <-Nat2Z.inj_mod; lia).
  assert (o / 30 < 32)%nat as Hq by (apply Nat.Div0.div_lt_upper_bound; lia).
  pose proof (drop_bitsOf (blockData content k) o) as Hdrop. rewrite length_blockData in Hdrop.
  specialize (Hdrop ltac:(lia)). pose proof (length_drop (blockData content k) (o / 30)) as Hlen.
  rewrite length_blockData in Hlen. pose proof (Nat.mod_upper_bound o 30 ltac:(lia)) as Hm.
  pose proof (Nat.div_mod o 30 ltac:(lia)) as Hdm.
  destruct (drop (o / 30) (blockData content k)) as [|w ws]; [cbn [length] in Hlen; lia|].
  pose proof (findBit_spec ws w (30 - o mod 30) (Z.of_nat o) ltac:(lia) ltac:(lia)) as Hf.
  rewrite <-Hdrop in Hf. cbn zeta in Hf. destruct (findBit (w :: ws) _ _) as [[b|] o1].
  - destruct Hf as (H1 & H2 & H3).
    { replace (Z.of_nat o + Z.of_nat (30 - o mod 30)) with (Z.of_nat (S (o / 30)) * 30) by lia.
      apply Z.mod_mul. lia. }
    rewrite length_drop, Hb in H1. exists (Z.to_nat (o1 + 1)).
    split; [split; [done|]; cbn [cr_offset]; lia|]. rewrite H3, drop_drop. cbn [fmap list_fmap].
    unfold bitEvent at 1. rewrite H2, Z2Nat.id by lia. do 4 f_equal. lia.
  - rewrite Hf; [done|]. replace (Z.of_nat o + Z.of_nat (30 - o mod 30)) with (Z.of_nat (S (o / 30)) * 30) by lia.
    apply Z.mod_mul. lia.
Qed.

(** ** The instructions of the file *)

(** What is still to come in block [k] from bit [o] on, and in the blocks behind it. *)
Definition remaining (content : list Z) (k o : nat) : list (Z * Z) :=
  eventsFrom content k o ++
  concat ((fun k => eventsFrom content k 0) <$> seq (S k) (blocks content - S k)).

Definition inBlock (content : list Z) (k : nat) (c : CATrace) : Prop :=
  before (S k) c /\ (k < blocks content)%nat /\ ct_caType c = CATRACE_INSTRUCTION /\
  ct_caBuffer c = content /\ ct_blockRecNum c = Z.of_nat k.
Definition reading (content : list Z) (k o : nat) (c : CATrace) : Prop :=
  inBlock content k c /\ within content k o (ct_catr c).

Lemma remaining_next content k o : eventsFrom content k o = [] -> (S k < blocks content)%nat ->
  remaining content k o = remaining content (S k) 0.
Proof.
  intros E Hk. unfold remaining. rewrite E. cbn [app].
  by replace (blocks content - S k)%nat with (S (blocks content - S (S k))) by lia.
Qed.

Lemma remaining_last content k o : eventsFrom content k o = [] -> (blocks content <= S k)%nat ->
  remaining content k o = [].
Proof. intros E Hk. unfold remaining. rewrite E. by replace (blocks content - S k)%nat with O by lia. Qed.

Lemma remaining_all content : (0 < blocks content)%nat -> remaining content 0 0 = instructionEvents content.
Proof.
  intros H. unfold instructionEvents, remaining. destruct (blocks content) as [|n]; [lia|].
  cbn [seq fmap list_fmap concat]. by rewrite Nat.sub_1_r.
Qed.

Lemma read_on content k c : inBlock content k c ->
  exists c', noting parseNextCATraceRec c =
    (if decide (S k < blocks content)%nat then Ok c' tt else Err c' DQERR_EOF) /\
  if decide (S k < blocks content)%nat then reading content (S k) 0 c' else ct_status c' = DQERR_EOF.
Proof.
  intros (Hb & Hk & Ht & Hbuf & Hn). destruct (decide _) as [H|H].
  - destruct (parse_block c (S k) Hb) as [addr E]; [by rewrite Hbuf|].
    eexists. unfold noting. rewrite E. split; [done|]. rewrite Hbuf. destruct Hb as [Hs Hi].
    destruct (decide (S k = O)); [done|].
    repeat split; cbn -[Z.mul Z.of_nat blockData]; try done; lia.
  - destruct (parse_end c (S k) Hb) as [c' E]; [rewrite Hbuf; lia|].
    eexists. unfold noting. by rewrite E.
Qed.

Lemma nextInstructionBit_spec content fuel : forall k o c, reading content k o c ->
  (blocks content - k < fuel)%nat ->
  match remaining content k o with
  | [] => exists c', nextInstructionBit fuel c = Err c' DQERR_EOF /\ ct_status c' = DQERR_EOF
  | ev :: rest => exists c' k' o' pipe cycles, nextInstructionBit fuel c = Ok c' (pipe, cycles) /\
      reading content k' o' c' /\ remaining content k' o' = rest /\
      ev = (pipe, u32 (cycles + u32 (ct_blockRecNum c' * 15 * 32)))
  end.
Proof.
  induction fuel as [|fuel IH]; intros k o c Hr Hf; [lia|]. cbn [nextInstructionBit]. rewrite bind_get.
  destruct Hr as [Hr Hw]. pose proof (recInstruction_spec _ _ _ _ Hw) as Hs.
  destruct (recInstruction (ct_catr c)) as [r [[pipe cycles]|]]; rewrite bind_modify.
  - destruct Hs as (o' & Hw' & E). unfold remaining at 1. rewrite E. cbn [app].
    exists (set_catr r c), k, o', pipe, cycles. split; [done|]. split; [by destruct Hr as ([] & ?)|].
    split; [done|]. destruct Hr as (? & ? & ? & ? & Hn). cbn [set_catr ct_blockRecNum]. by rewrite Hn.
  - destruct (read_on content k (set_catr r c)) as (c' & E & Hc'); [by destruct Hr as ([] & ?)|].
    destruct (decide _) as [H|H].
    + rewrite (remaining_next _ _ _ Hs H), (bind_ok _ _ _ _ _ E). destruct Hr as (? & ? & ?). apply IH; [done|lia].
    + rewrite (remaining_last _ _ _ Hs) by lia. exists c'. by rewrite (bind_err _ _ _ _ _ E).
Qed.

Section events.
Context (unset : Z).

(** What a sequence of calls of [consume] gives; nothing more once a call has no result. *)
Fixpoint consumeEach (tys : list InstType) (c : CATrace) : list (DQErr + Z * Z) :=
  match tys with
  | [] => []
  | ty :: tys =>
      match consumeCA unset ty c with
      | Ok c i => inr (ca_caFlags i, ca_pipeCycles i) :: consumeEach tys c
      | Err c e => inl e :: consumeEach tys c
      | Undef | NoFuel => []
      end
  end.

(** The calls after the end. *)
Lemma consumeEach_end tys c : ct_status c = DQERR_EOF ->
  consumeEach tys c = replicate (length tys) (inl DQERR_EOF).
Proof.
  intros H. induction tys as [|ty tys IH]; [done|]. cbn [consumeEach length replicate].
  unfold consumeCA. rewrite bind_get, H. cbn [throw]. by rewrite IH.
Qed.

Lemma wordsLeft_blocks content c : ct_caBuffer c = content -> (blocks content < wordsLeft c)%nat.
Proof.
  intros E. unfold wordsLeft, blocks. rewrite E. pose proof (Nat.Div0.div_le_upper_bound (length content) 128 (length content)). lia.
Qed.

(** A call in the middle of the file. *)
Lemma consumeCA_spec content k o c ty : reading content k o c ->
  match remaining content k o with
  | [] => exists c', consumeCA unset ty c = Err c' DQERR_EOF /\ ct_status c' = DQERR_EOF
  | ev :: rest => exists c' k' o' i, consumeCA unset ty c = Ok c' i /\
      (ca_caFlags i, ca_pipeCycles i) = ev /\ reading content k' o' c' /\ remaining content k' o' = rest
  end.
Proof.
  intros Hr. pose proof Hr as [((Hs & _) & Hk & Ht & Hbuf & _) _].
  pose proof (wordsLeft_blocks _ _ Hbuf) as Hf.
  pose proof (nextInstructionBit_spec content (wordsLeft c) k o c Hr ltac:(lia)) as Hn.
  unfold consumeCA. rewrite bind_get, Hs, Ht.
  destruct (remaining content k o) as [|ev rest].
  - destruct Hn as (c' & E & Hc').
    assert (noting consumeCAInstruction c = Err (set_ctStatus DQERR_EOF c') DQERR_EOF) as E'
      by (unfold noting, consumeCAInstruction; rewrite bind_get; by rewrite (bind_err _ _ _ _ _ E)).
    eexists. by rewrite (bind_err _ _ _ _ _ E').
  - destruct Hn as (c' & k' & o' & pipe & cycles & E & Hr' & Hrest & ->).
    assert (noting consumeCAInstruction c = Ok c' (pipe, u32 (cycles + u32 (ct_blockRecNum c' * 15 * 32)))) as E'
      by (unfold noting, consumeCAInstruction; rewrite bind_get; by rewrite (bind_ok _ _ _ _ _ E)).
    eexists c', k', o', _. rewrite (bind_ok _ _ _ _ _ E'). done.
Qed.

Lemma consumeEach_spec content tys : forall k o c, reading content k o c ->
  consumeEach tys c = (inr <$> take (length tys) (remaining content k o)) ++
    replicate (length tys - length (remaining content k o)) (inl DQERR_EOF).
Proof.
  induction tys as [|ty tys IH]; intros k o c Hr; [done|]. cbn [consumeEach length].
  pose proof (consumeCA_spec content k o c ty Hr) as H. destruct (remaining content k o) as [|ev rest].
  - destruct H as (c' & -> & H). by rewrite consumeEach_end.
  - destruct H as (c' & k' & o' & i & -> & <- & Hr' & <-). cbn [take fmap list_fmap length app Nat.sub].
    f_equal. by apply IH.
Qed.

Lemma newCATrace_spec content g c0 : exists c, newCATrace content CATRACE_INSTRUCTION g c0 = Ok c tt /\
  if decide (blocks content = O) then ct_status c = DQERR_EOF else reading content 0 0 c.
Proof.
  unfold newCATrace. set (c := Build_CATrace _ _ _ _ _ _ _ _ _ _).
  assert (before 0 c) as Hb by done. destruct (decide (blocks content = O)) as [H|H].
  - destruct (parse_end c 0 Hb) as [c' ->]; [change (blocks content <= 0)%nat; lia|]. by eexists.
  - destruct (parse_block c 0 Hb) as [addr ->]; [change (0 < blocks content)%nat; lia|]. eexists. split; [done|].
    repeat split; cbn -[Z.mul Z.of_nat blockData blocks]; try done; lia.
Qed.

(** All the calls on a trace that was just opened. *)
Lemma consume_new content g c0 tys : exists c, newCATrace content CATRACE_INSTRUCTION g c0 = Ok c tt /\
  consumeEach tys c = (inr <$> take (length tys) (instructionEvents content)) ++
    replicate (length tys - length (instructionEvents content)) (inl DQERR_EOF).
Proof.
  destruct (newCATrace_spec content g c0) as (c & E & Hc). exists c. split; [done|].
  destruct (decide _) as [H|H].
  - rewrite consumeEach_end by done. unfold instructionEvents. rewrite H. cbn. by rewrite Nat.sub_0_r, take_nil.
  - rewrite <-remaining_all by lia. by apply consumeEach_spec.
Qed.

(** [rewind] starts over, unless the end has been reached: the status stays
    [DQERR_EOF], and no call gives an instruction any more. *)
Lemma rewind_reading content k o c tys : reading content k o c ->
  exists c', rewindCA c = Ok c' tt /\
  consumeEach tys c' = (inr <$> take (length tys) (instructionEvents content)) ++
    replicate (length tys - length (instructionEvents content)) (inl DQERR_EOF).
Proof.
  intros [((Hs & Hi) & Hk & Ht & Hbuf & Hn) Hw]. unfold rewindCA. set (c1 := set_catr _ _).
  destruct (parse_block c1 0) as [addr ->]; [done|change (0 < blocks (ct_caBuffer c))%nat; rewrite Hbuf; lia|].
  eexists. split; [done|]. rewrite <-remaining_all by lia. apply consumeEach_spec.
  repeat split; cbn -[Z.mul Z.of_nat blockData blocks]; try done; try lia. by rewrite Hbuf.
Qed.

Lemma rewind_at_end c tys : ct_status c = DQERR_EOF ->
  exists c', rewindCA c = Err c' DQERR_EOF /\ consumeEach tys c' = replicate (length tys) (inl DQERR_EOF).
Proof.
  intros H. unfold rewindCA, parseNextCATraceRec. rewrite bind_get. cbn [set_catr set_index ct_status].
  rewrite H. cbn [throw]. eexists. split; [done|]. by apply consumeEach_end.
Qed.

(** The state after some calls. *)
Fixpoint consumed (tys : list InstType) (c : CATrace) : option CATrace :=
  match tys with
  | [] => Some c
  | ty :: tys =>
      match consumeCA unset ty c with
      | Ok c _ | Err c _ => consumed tys c
      | Undef | NoFuel => None
      end
  end.

Lemma consumed_end tys c : ct_status c = DQERR_EOF -> consumed tys c = Some c.
Proof.
  intros H. induction tys as [|ty tys IH]; [done|]. cbn [consumed]. unfold consumeCA. rewrite bind_get, H. done.
Qed.

Lemma consumed_spec content tys : forall k o c, reading content k o c ->
  exists c', consumed tys c = Some c' /\
  if decide (length tys <= length (remaining content k o))%nat then exists k' o', reading content k' o' c'
  else ct_status c' = DQERR_EOF.
Proof.
  induction tys as [|ty tys IH]; intros k o c Hr; cbn [consumed length].
  - exists c. split; [done|]. destruct (decide _); [eauto|lia].
  - pose proof (consumeCA_spec content k o c ty Hr) as H. destruct (remaining content k o) as [|ev rest].
    + destruct H as (c' & -> & H). exists c'. rewrite consumed_end by done. by destruct (decide _) as [?%Nat.nle_succ_0|].
    + destruct H as (c' & k' & o' & i & -> & _ & Hr' & <-).
      destruct (IH k' o' c' Hr') as (c1 & E & H1). exists c1. split; [done|]. cbn [length].
      destruct (decide (length tys <= _)%nat), (decide (S _ <= _)%nat); done || lia.
Qed.

(** Some calls on a trace that was just opened, then [rewind], then more calls. *)
Lemma rewind_new content g c0 tys tys' : exists c c1, newCATrace content CATRACE_INSTRUCTION g c0 = Ok c tt /\
  consumed tys c = Some c1 /\
  if decide (0 < blocks content /\ length tys <= length (instructionEvents content))%nat
  then exists c2, rewindCA c1 = Ok c2 tt /\
    consumeEach tys' c2 = (inr <$> take (length tys') (instructionEvents content)) ++
      replicate (length tys' - length (instructionEvents content)) (inl DQERR_EOF)
  else exists c2, rewindCA c1 = Err c2 DQERR_EOF /\
    consumeEach tys' c2 = replicate (length tys') (inl DQERR_EOF).
Proof.
  destruct (newCATrace_spec content g c0) as (c & E & Hc). exists c. destruct (decide (blocks content = O)) as [H|H].
  - exists c. split; [done|]. split; [by apply consumed_end|]. destruct (decide _) as [[]|]; [lia|].
    by apply rewind_at_end.
  - destruct (consumed_spec content tys 0 0 c Hc) as (c1 & E1 & H1). exists c1. split; [done|]. split; [done|].
    rewrite remaining_all in H1 by lia. destruct (decide (length tys <= _)%nat) as [Hl|Hl].
    + rewrite decide_True by (split; [lia|done]). destruct H1 as (k & o & H1). by eapply rewind_reading.
    + rewrite decide_False by tauto. by apply rewind_at_end.
Qed.
End events.
