(* ===== verification/NextInstr.v ===== *)
(** * The decoder's state machine

    [Trace::NextInstruction]: each call runs the state machine of the current
    core until there is something to return: an instruction, a message, a line of
    source, or an error.  Messages are read when the last one is retired; a
    message with counts is retired when the instructions it counts have been
    returned. *)

From S2P Require Import Prelude Nexus Slices Source Framing Analytics Messages Counts Decode.
From S2P Require Import Memory NextAddr Perf State Process ItcPrint Cycles.

(** ** What a call returns *)

(** [class Instruction] without its texts.  The queue depths are [None] when they
    are copied from variables that nothing was assigned to. *)
Record InstInfo := {
  ii_coreId : Z;
  ii_pid : Z;
  ii_prv : Z;
  ii_CRFlag : Z;
  ii_brFlags : BranchFlags;
  ii_address : Z;
  ii_instSize : Z;
  ii_instruction : Z;
  ii_timestamp : Z;
  ii_caFlags : Z;
  ii_pipeCycles : Z;
  ii_VIStartCycles : Z;
  ii_VIFinishCycles : Z;
  ii_depths : option (Z * Z * Z * Z);
}.

(** The core, process and privilege of a source line; its text is left out. *)
Record SrcInfo := { si_coreId : Z; si_pid : Z; si_prv : Z }.

Record Out := {
  ou_inst : option InstInfo;
  ou_msg : option NexusMessage;
  ou_src : option SrcInfo;
}.
Definition noOut : Out := {| ou_inst := None; ou_msg := None; ou_src := None |}.

(** ** The parts the state machine calls *)

(** The description of an instruction by the disassembler of a process, which is told by its index,
    and by the memory of the kernel. *)
Class Disassembly (K D : Type) := {
  disassemble : nat -> Z -> M D DQErr InstInfo;
  kernelDisassemble : Z -> M K DQErr InstInfo;
}.

(** ** The state *)

Record Decoder (K Perf Src D I CA : Type) := {
  de_trace : Trace K Perf;
  de_sfp : option (SliceParser Src);
  de_analytics : Analytics;
  de_instructionInfo : InstInfo;
  de_disassembler : D;
  de_itcPrint : option I;
  de_caTrace : option CA;
  de_syncCount : Z;
  de_caSyncAddr : Z;
  de_lastCycle : list Z;
  de_eCycleCount : list Z;
  de_out : Out;
}.
Arguments de_trace {K Perf Src D I CA} d.
Arguments de_sfp {K Perf Src D I CA} d.
Arguments de_analytics {K Perf Src D I CA} d.
Arguments de_instructionInfo {K Perf Src D I CA} d.
Arguments de_disassembler {K Perf Src D I CA} d.
Arguments de_itcPrint {K Perf Src D I CA} d.
Arguments de_caTrace {K Perf Src D I CA} d.
Arguments de_syncCount {K Perf Src D I CA} d.
Arguments de_caSyncAddr {K Perf Src D I CA} d.
Arguments de_lastCycle {K Perf Src D I CA} d.
Arguments de_eCycleCount {K Perf Src D I CA} d.
Arguments de_out {K Perf Src D I CA} d.

(** How one turn of the loop ends: a return, or the next turn. *)
Inductive Turn := Return (rc : DQErr) | Again.

Section machine.
Context {K Perf Src D I CA : Type} `{!CodeMemory K} `{!PerfSink Perf} `{!ByteSource Src}.
Context `{!Disassembly K D} `{!ItcSink I} `{!CycleTrace CA}.
Context (uninit : Inst) (converterStatus : Z -> DQErr).
(** The bit of the control events in the filter mask, from a generated header. *)
Context (et_controlIndex : Z).
(** What an address variable holds that nothing was assigned to. *)
Context (uninitAddr : Z).
(** Which of the three results the caller asks for. *)
Context (wantInst wantMsg wantSrc : bool).

#[local] Abbreviation Dec := (Decoder K Perf Src D I CA).
#[local] Abbreviation DM := (M (Decoder K Perf Src D I CA) DQErr).
Implicit Type d : Dec.

Definition set_trace v d : Dec := {|
  de_trace := v; de_sfp := de_sfp d; de_analytics := de_analytics d;
  de_instructionInfo := de_instructionInfo d; de_disassembler := de_disassembler d;
  de_itcPrint := de_itcPrint d; de_caTrace := de_caTrace d; de_syncCount := de_syncCount d;
  de_caSyncAddr := de_caSyncAddr d; de_lastCycle := de_lastCycle d;
  de_eCycleCount := de_eCycleCount d; de_out := de_out d |}.
Definition set_sfp v d : Dec := {|
  de_trace := de_trace d; de_sfp := v; de_analytics := de_analytics d;
  de_instructionInfo := de_instructionInfo d; de_disassembler := de_disassembler d;
  de_itcPrint := de_itcPrint d; de_caTrace := de_caTrace d; de_syncCount := de_syncCount d;
  de_caSyncAddr := de_caSyncAddr d; de_lastCycle := de_lastCycle d;
  de_eCycleCount := de_eCycleCount d; de_out := de_out d |}.
Definition set_analytics v d : Dec := {|
  de_trace := de_trace d; de_sfp := de_sfp d; de_analytics := v;
  de_instructionInfo := de_instructionInfo d; de_disassembler := de_disassembler d;
  de_itcPrint := de_itcPrint d; de_caTrace := de_caTrace d; de_syncCount := de_syncCount d;
  de_caSyncAddr := de_caSyncAddr d; de_lastCycle := de_lastCycle d;
  de_eCycleCount := de_eCycleCount d; de_out := de_out d |}.
Definition set_instructionInfo v d : Dec := {|
  de_trace := de_trace d; de_sfp := de_sfp d; de_analytics := de_analytics d;
  de_instructionInfo := v; de_disassembler := de_disassembler d; de_itcPrint := de_itcPrint d;
  de_caTrace := de_caTrace d; de_syncCount := de_syncCount d; de_caSyncAddr := de_caSyncAddr d;
  de_lastCycle := de_lastCycle d; de_eCycleCount := de_eCycleCount d; de_out := de_out d |}.
Definition set_disassembler v d : Dec := {|
  de_trace := de_trace d; de_sfp := de_sfp d; de_analytics := de_analytics d;
  de_instructionInfo := de_instructionInfo d; de_disassembler := v; de_itcPrint := de_itcPrint d;
  de_caTrace := de_caTrace d; de_syncCount := de_syncCount d; de_caSyncAddr := de_caSyncAddr d;
  de_lastCycle := de_lastCycle d; de_eCycleCount := de_eCycleCount d; de_out := de_out d |}.
Definition set_itcPrint v d : Dec := {|
  de_trace := de_trace d; de_sfp := de_sfp d; de_analytics := de_analytics d;
  de_instructionInfo := de_instructionInfo d; de_disassembler := de_disassembler d;
  de_itcPrint := v; de_caTrace := de_caTrace d; de_syncCount := de_syncCount d;
  de_caSyncAddr := de_caSyncAddr d; de_lastCycle := de_lastCycle d;
  de_eCycleCount := de_eCycleCount d; de_out := de_out d |}.
Definition set_caTrace v d : Dec := {|
  de_trace := de_trace d; de_sfp := de_sfp d; de_analytics := de_analytics d;
  de_instructionInfo := de_instructionInfo d; de_disassembler := de_disassembler d;
  de_itcPrint := de_itcPrint d; de_caTrace := v; de_syncCount := de_syncCount d;
  de_caSyncAddr := de_caSyncAddr d; de_lastCycle := de_lastCycle d;
  de_eCycleCount := de_eCycleCount d; de_out := de_out d |}.
Definition set_syncCount v d : Dec := {|
  de_trace := de_trace d; de_sfp := de_sfp d; de_analytics := de_analytics d;
  de_instructionInfo := de_instructionInfo d; de_disassembler := de_disassembler d;
  de_itcPrint := de_itcPrint d; de_caTrace := de_caTrace d; de_syncCount := v;
  de_caSyncAddr := de_caSyncAddr d; de_lastCycle := de_lastCycle d;
  de_eCycleCount := de_eCycleCount d; de_out := de_out d |}.
Definition set_caSyncAddr v d : Dec := {|
  de_trace := de_trace d; de_sfp := de_sfp d; de_analytics := de_analytics d;
  de_instructionInfo := de_instructionInfo d; de_disassembler := de_disassembler d;
  de_itcPrint := de_itcPrint d; de_caTrace := de_caTrace d; de_syncCount := de_syncCount d;
  de_caSyncAddr := v; de_lastCycle := de_lastCycle d; de_eCycleCount := de_eCycleCount d;
  de_out := de_out d |}.
Definition set_lastCycle v d : Dec := {|
  de_trace := de_trace d; de_sfp := de_sfp d; de_analytics := de_analytics d;
  de_instructionInfo := de_instructionInfo d; de_disassembler := de_disassembler d;
  de_itcPrint := de_itcPrint d; de_caTrace := de_caTrace d; de_syncCount := de_syncCount d;
  de_caSyncAddr := de_caSyncAddr d; de_lastCycle := v; de_eCycleCount := de_eCycleCount d;
  de_out := de_out d |}.
Definition set_eCycleCount v d : Dec := {|
  de_trace := de_trace d; de_sfp := de_sfp d; de_analytics := de_analytics d;
  de_instructionInfo := de_instructionInfo d; de_disassembler := de_disassembler d;
  de_itcPrint := de_itcPrint d; de_caTrace := de_caTrace d; de_syncCount := de_syncCount d;
  de_caSyncAddr := de_caSyncAddr d; de_lastCycle := de_lastCycle d; de_eCycleCount := v;
  de_out := de_out d |}.
Definition set_out v d : Dec := {|
  de_trace := de_trace d; de_sfp := de_sfp d; de_analytics := de_analytics d;
  de_instructionInfo := de_instructionInfo d; de_disassembler := de_disassembler d;
  de_itcPrint := de_itcPrint d; de_caTrace := de_caTrace d; de_syncCount := de_syncCount d;
  de_caSyncAddr := de_caSyncAddr d; de_lastCycle := de_lastCycle d;
  de_eCycleCount := de_eCycleCount d; de_out := v |}.

(** ** Parts of a turn *)

Definition onTrace {A} (m : M (Trace K Perf) DQErr A) : DM A := fun d =>
  zoom (fun t => set_trace t d) m (de_trace d).

(** The return code of a call that may fail. *)
Definition attempt {S A} (m : M S DQErr A) : M S DQErr (DQErr + A) := fun s =>
  match m s with
  | Ok s a => Ok s (inr a)
  | Err s e => Ok s (inl e)
  | Undef => Undef
  | NoFuel => NoFuel
  end.

Definition theCore : DM Z := d ← get; mret (currentCore (de_trace d)).
Definition theNm : DM NexusMessage := d ← get; mret (tr_nm (de_trace d)).
Definition atCore : DM CoreState := onTrace here.
Definition setAtCore (f : CoreState -> CoreState) : DM unit := onTrace (setHere f).
Definition setStatusD (e : DQErr) : DM unit := onTrace (setStatus e).
Definition toState (s : State) : DM unit := setAtCore (set_state s).
Definition setRead (b : bool) : DM unit := onTrace (modify (set_readNewTraceMessage b)).
Definition returnStatus : DM Turn :=
  d ← get; mret (Return (wk_status (tr_walker (de_trace d)))).

(** [status = e; state[currentCore] = s; return status;] *)
Definition finish (e : DQErr) (s : State) : DM Turn :=
  setStatusD e ≫= fun _ => toState s ≫= fun _ => mret (Return e).
Definition failed : DM Turn := finish DQERR_ERR TRACE_STATE_ERROR.

(** [tolerantError = true;], and either the error state or a reset. *)
Definition tolerate : DM Turn :=
  onTrace (modify (set_tolerantError true)) ≫= fun _ =>
  d ← get;
  if se_tolerateErrors (tr_settings (de_trace d)) then
    onTrace (resetTrace (currentCore (de_trace d))) ≫= fun _ => mret (Return DQERR_OK)
  else failed.

(** [NexusMessage::processITCPrintData]. *)
Definition processITCPrintData (nm : NexusMessage) : DM bool := fun d =>
  let call core addr data := zoom (fun i => set_itcPrint (Some i) d) (print core addr data (nm_time nm)) in
  match de_itcPrint d, nm_tcode nm with
  | Some i, TCODE_DATA_ACQUISITION =>
      match nm_body nm with
      | B_dataAcquisition idTag data => call (nm_coreId nm) idTag data i
      | _ => Undef
      end
  | Some i, TCODE_AUXACCESS_WRITE =>
      match nm_body nm with
      | B_auxAccessWrite data addr => call (nm_coreId nm) addr data i
      | _ => Undef
      end
  | _, _ => Ok d false
  end.

(** The copy of [nm] that is returned. *)
Definition stamp (address time : Z) (process : option (Z * Z)) (nm : NexusMessage) : NexusMessage := {|
  nm_msgNum := nm_msgNum nm; nm_tcode := nm_tcode nm; nm_haveTimestamp := nm_haveTimestamp nm;
  nm_timestamp := nm_timestamp nm; nm_currentAddress := address; nm_time := time;
  nm_coreId := nm_coreId nm;
  nm_prv := default (nm_prv nm) (snd <$> process); nm_pid := default (nm_pid nm) (fst <$> process);
  nm_body := nm_body nm; nm_offset := nm_offset nm; nm_rawData := nm_rawData nm |}.

(** [if (msgInfo != nullptr) { messageInfo = nm; ... }]: the message is returned
    unless it was consumed. *)
Definition giveMsg (consumed : bool) (m : NexusMessage) : DM unit :=
  if consumed then mret tt
  else
    printed ← processITCPrintData m;
    if printed : bool then mret tt
    else modify (fun d => set_out {| ou_inst := ou_inst (de_out d); ou_msg := Some m;
                                     ou_src := ou_src (de_out d) |} d).

Definition deliver (want consumed : bool) (address : Z) : DM unit :=
  if want then
    nm ← theNm; c ← atCore;
    giveMsg consumed (stamp address (co_lastTime c)
                        (Some (u32 (co_currentPid c), co_currentPrv c)) nm)
  else mret tt.

(** The usual address. *)
Definition deliverHere (want consumed : bool) : DM unit :=
  c ← atCore; deliver want consumed (co_currentAddress c).

(** [kMem], if there is one and the address is in it, with its start. *)
Definition kernelAt (addr : Z) (m : TraceMem K) : option (Z * K) :=
  match tm_kMem m with
  | Some (start, k) => if start <=? addr then Some (start, k) else None
  | None => None
  end.
Definition set_kernel (start : Z) (k : K) : Dec -> Dec := fun d =>
  let w := tr_walker (de_trace d) in
  set_trace (set_walker (set_mem (set_kMem start (wk_mem w) k) w) (de_trace d)) d.

Definition disassembleKernel (start : Z) (k : K) (addr : Z) : DM bool := fun d =>
  match kernelDisassemble addr k with
  | Ok k i => Ok (set_instructionInfo i (set_kernel start k d)) true
  | Err k _ => Ok (set_kernel start k d) false
  | Undef => Undef
  | NoFuel => NoFuel
  end.
Definition disassembleUser (i : nat) (addr : Z) : DM bool := fun d =>
  match disassemble i addr (de_disassembler d) with
  | Ok x i => Ok (set_instructionInfo i (set_disassembler x d)) true
  | Err x _ => Ok (set_disassembler x d) false
  | Undef => Undef
  | NoFuel => NoFuel
  end.

(** [Disassemble(addr)]: whether it succeeded. *)
Definition Disassemble (addr : Z) : DM bool :=
  d ← get;
  match kernelAt addr (wk_mem (tr_walker (de_trace d))) with
  | Some (start, k) => disassembleKernel start k addr
  | None =>
      c ← atCore;
      match co_currentDisassembler c with
      | None => mret false
      | Some i => disassembleUser i addr
      end
  end.

(** [*srcInfo = &sourceInfo;] with its core, process and privilege. *)
Definition giveSrc : DM unit :=
  core ← theCore; c ← atCore;
  modify (fun d => set_out {| ou_inst := ou_inst (de_out d); ou_msg := ou_msg (de_out d);
    ou_src := Some {| si_coreId := core; si_pid := co_currentPid c; si_prv := co_currentPrv c |}
  |} d).

(** [*instInfo = &instructionInfo;] *)
Definition giveInst (i : InstInfo) : DM unit :=
  modify (fun d => set_out {| ou_inst := Some i; ou_msg := ou_msg (de_out d);
                              ou_src := ou_src (de_out d) |} (set_instructionInfo i d)).

(** The source line of the current address, for a process that is decoded. *)
Definition sourceHere (want : bool) : DM unit :=
  c ← atCore;
  if want && (0 <=? co_currentProcessIndex c) then
    ok ← Disassemble (co_currentAddress c);
    if ok : bool then giveSrc else mret tt
  else mret tt.

(** [processTraceMessage(nm,currentAddress[..],lastFaddr[..],lastTime[..],consumed)];
    when it fails nothing was consumed. *)
Definition retire : DM (DQErr + bool) :=
  onTrace (attempt (processTraceMessage uninit converterStatus)).

(** ** Reading a message *)

(** A computation of the parser; a null [sfp] was refused before. *)
Definition onSfp {A} (m : M (SliceParser Src * Analytics) DQErr A) : DM A := fun d =>
  match de_sfp d with
  | None => Undef
  | Some p => zoom (fun s => set_sfp (Some (fst s)) (set_analytics (snd s) d)) m
                (p, de_analytics d)
  end.

(** The [do ... while (haveMsg == false)] loop; [Some rc] is a return. *)
Fixpoint readLoop (fuel : nat) : DM (option DQErr) :=
  match fuel with
  | O => fun _ => NoFuel
  | S fuel' =>
      nm ← theNm;
      r ← attempt (onSfp (readNextTraceMsg fuel nm));
      match r with
      | inl DQERR_EOF =>
          toState TRACE_STATE_DONE ≫= fun _ =>
          setStatusD DQERR_EOF ≫= fun _ => mret (Some DQERR_EOF)
      | inl DQERR_BM =>
          onTrace (modify (set_tolerantError true)) ≫= fun _ =>
          d ← get;
          if se_tolerateErrors (tr_settings (de_trace d))
          then onTrace (resetTrace (-1)) ≫= fun _ => readLoop fuel'
          else toState TRACE_STATE_ERROR ≫= fun _ => mret (Some DQERR_ERR)
      | inl _ =>
          setStatusD DQERR_ERR ≫= fun _ =>
          toState TRACE_STATE_ERROR ≫= fun _ => mret (Some DQERR_ERR)
      | inr None => readLoop fuel'
      | inr (Some nm) => onTrace (modify (set_nm nm)) ≫= fun _ => mret None
      end
  end.

(** The messages that a trace may hold. *)
Definition decodable (t : TCode) : bool :=
  match t with
  | TCODE_INDIRECT_BRANCH | TCODE_SYNC | TCODE_DIRECT_BRANCH_WS | TCODE_INDIRECT_BRANCH_WS
  | TCODE_INCIRCUITTRACE | TCODE_INCIRCUITTRACE_WS | TCODE_INDIRECTBRANCHHISTORY
  | TCODE_INDIRECTBRANCHHISTORY_WS | TCODE_DIRECT_BRANCH | TCODE_DATA_ACQUISITION
  | TCODE_ERROR | TCODE_CORRELATION | TCODE_OWNERSHIP_TRACE | TCODE_RESOURCEFULL => true
  | _ => false
  end.

(** The address fields of a message from a Linux trace are sign extended. *)
Definition signExtendBody (bits : Z) (b : Body) : option Body :=
  let ext := signExtendAddr bits in
  let ict (mk : ICTReason -> Z -> Z -> option Z -> Body) cksrc ckdf a0 a1 :=
    match cksrc with
    | ICT_EXT_TRIG | ICT_WATCHPOINT | ICT_EXCEPTION | ICT_INTERRUPT | ICT_CONTEXT
    | ICT_PC_SAMPLE => x ← ext a0; Some (mk cksrc ckdf x a1)
    | ICT_INFERABLECALL =>
        x ← ext a0;
        if ckdf =? 1 then y ← a1; y ← ext y; Some (mk cksrc ckdf x (Some y))
        else Some (mk cksrc ckdf x a1)
    | _ => Some (mk cksrc ckdf a0 a1)
    end in
  match b with
  | B_indirectBranch i a t => x ← ext a; Some (B_indirectBranch i x t)
  | B_sync i a s => x ← ext a; Some (B_sync i x s)
  | B_directBranchWS i a s => x ← ext a; Some (B_directBranchWS i x s)
  | B_indirectBranchWS i a t s => x ← ext a; Some (B_indirectBranchWS i x t s)
  | B_indirectHistory i a t h => x ← ext a; Some (B_indirectHistory i x t h)
  | B_indirectHistoryWS i a t h s => x ← ext a; Some (B_indirectHistoryWS i x t h s)
  | B_ict cksrc ckdf a0 a1 => ict B_ict cksrc ckdf a0 a1
  | B_ictWS cksrc ckdf a0 a1 => ict B_ictWS cksrc ckdf a0 a1
  | b => Some b
  end.

(** Messages that only history traces have. *)
Definition historyOnly (nm : NexusMessage) : bool :=
  match nm_tcode nm, nm_body nm with
  | TCODE_CORRELATION, B_correlation _ _ cdf _ => cdf =? 1
  | TCODE_OWNERSHIP_TRACE, _ | TCODE_RESOURCEFULL, _ | TCODE_INDIRECTBRANCHHISTORY, _
  | TCODE_INDIRECTBRANCHHISTORY_WS, _ => true
  | _, _ => false
  end.

(** The control messages that the settings filter out. *)
Definition filtered (mask : Z) (nm : NexusMessage) : option bool :=
  match nm_tcode nm with
  | TCODE_INCIRCUITTRACE | TCODE_INCIRCUITTRACE_WS =>
      src ← getCKSRC nm;
      Some (bool_decide (src = ICT_CONTROL) && Z.testbit mask et_controlIndex)
  | _ => Some false
  end.

(** What follows the reading of a message: [inl] is a return, [inr] says whether
    the results of this turn are held back. *)
Definition prepare : DM (Turn + bool) :=
  setRead false ≫= fun _ =>
  nm ← theNm;
  onTrace (onWalker (modify (fun w => {|
    wk_status := wk_status w; wk_traceType := wk_traceType w; wk_currentCore := nm_coreId nm;
    wk_archSize := wk_archSize w; wk_counts := wk_counts w; wk_mem := wk_mem w |}))) ≫= fun _ =>
  d ← get;
  let se := tr_settings (de_trace d) in
  let btm := bool_decide (wk_traceType (tr_walker (de_trace d)) = TRACETYPE_BTM) in
  if (se_linuxTrace se || btm) && negb (decodable (nm_tcode nm)) then
    r ← failed; mret (inl r)
  else
    (if se_linuxTrace se then
       b ← lift_opt (signExtendBody (se_bitsPerAddress se) (nm_body nm));
       onTrace (modify (set_nm (set_body b nm)))
     else mret tt) ≫= fun _ =>
    (if btm && historyOnly nm
     then onTrace (onWalker (modify (set_traceType TRACETYPE_HTM)))
     else mret tt) ≫= fun _ =>
    hidden ← lift_opt (filtered (se_eventFilterMask se) nm);
    mret (inr hidden).

(** ** The states *)

(** The end of a call that returns without an error, and reads a message next. *)
Definition nextMessage : DM Turn := setRead true ≫= fun _ => returnStatus.
Definition returnOk : DM Turn := setStatusD DQERR_OK ≫= fun _ => mret (Return DQERR_OK).

Section turn.
(** Which results this turn gives. *)
Context (wI wM wS : bool).

(** [processTraceMessage] with its error exit: the message is returned, and the
    error tolerated or not. *)
Definition retireOr (k : bool -> DM Turn) : DM Turn :=
  r ← retire;
  match r with
  | inl _ => deliverHere wM false ≫= fun _ => tolerate
  | inr consumed => k consumed
  end.

(** The kinds of in-circuit trace messages without an instruction: the time only,
    and the triggers and watchpoints of an instruction trace. *)
Definition ictNoInst (nm : NexusMessage) : option bool :=
  src ← getCKSRC nm;
  ckdf ← getCKDF nm;
  Some (bool_decide (src = ICT_EXT_TRIG \/ src = ICT_WATCHPOINT) && (ckdf =? 0)).

Definition ictTimeOnly (nm : NexusMessage) : option bool :=
  src ← getCKSRC nm;
  ckdf ← getCKDF nm;
  Some (bool_decide (src = ICT_CONTROL) && (ckdf =? 0)).

(** The instruction and the source line of an event. *)
Definition eventInst (nm : NexusMessage) : DM unit :=
  c ← atCore;
  if (wI || wS) && (0 <=? co_currentProcessIndex c) then
    ok ← Disassemble (co_currentAddress c);
    if negb ok then mret tt
    else
      (if wI then
         cksrc ← lift_opt (getCKSRC nm);
         core ← theCore;
         r ← onTrace (onWalker (attempt (getCRBRFlags uninit cksrc (co_currentAddress c))));
         let '(cr, br) := match r with inr f => f | inl _ => (isNone, BRFLAG_none) end in
         d ← get;
         let i := de_instructionInfo d in
         giveInst {|
           ii_coreId := core; ii_pid := u32 (co_currentPid c); ii_prv := co_currentPrv c;
           ii_CRFlag := cr; ii_brFlags := br; ii_address := ii_address i;
           ii_instSize := ii_instSize i; ii_instruction := ii_instruction i;
           ii_timestamp := co_lastTime c; ii_caFlags := ii_caFlags i;
           ii_pipeCycles := ii_pipeCycles i; ii_VIStartCycles := ii_VIStartCycles i;
           ii_VIFinishCycles := ii_VIFinishCycles i; ii_depths := Some (0, 0, 0, 0) |}
       else mret tt) ≫= fun _ =>
      if wS then giveSrc else mret tt
  else mret tt.

Definition resetCountsHere : DM unit :=
  core ← theCore; onTrace (onCoreCounts core (modify resetCounts)).

(** The end of the first state: the message is returned. *)
Definition firstDone (consumed : bool) : DM Turn :=
  setRead true ≫= fun _ => deliverHere wM consumed ≫= fun _ => returnOk.

(** [TRACE_STATE_GETFIRSTSYNCMSG]: only a message with a full address leaves this
    state. *)
Definition getFirstSyncMsg : DM Turn :=
  nm ← theNm;
  match nm_tcode nm with
  | TCODE_SYNC | TCODE_DIRECT_BRANCH_WS | TCODE_INDIRECT_BRANCH_WS
  | TCODE_INDIRECTBRANCHHISTORY_WS =>
      retireOr (fun consumed =>
        sourceHere wS ≫= fun _ =>
        resetCountsHere ≫= fun _ =>
        toState TRACE_STATE_GETNEXTMSG ≫= fun _ =>
        firstDone consumed)
  | TCODE_INCIRCUITTRACE_WS =>
      retireOr (fun consumed =>
        c ← atCore;
        (if co_currentAddress c =? 0 then setAtCore (set_currentAddress (co_lastFaddr c))
         else mret tt) ≫= fun _ =>
        nm ← theNm;
        timeOnly ← lift_opt (ictTimeOnly nm);
        noInst ← lift_opt (ictNoInst nm);
        (if timeOnly : bool then mret tt
         else
           (if noInst : bool then mret tt else eventInst nm) ≫= fun _ =>
           resetCountsHere ≫= fun _ =>
           toState TRACE_STATE_GETNEXTMSG) ≫= fun _ =>
        firstDone consumed)
  | TCODE_DATA_ACQUISITION | TCODE_OWNERSHIP_TRACE | TCODE_INCIRCUITTRACE
  | TCODE_DIRECT_BRANCH | TCODE_INDIRECT_BRANCH | TCODE_INDIRECTBRANCHHISTORY
  | TCODE_RESOURCEFULL | TCODE_CORRELATION => retireOr firstDone
  | TCODE_ERROR =>
      r ← retire;
      deliverHere wM (match r with inr b => b | inl _ => false end) ≫= fun _ =>
      d ← get;
      match r with
      | inl _ =>
          onTrace (modify (set_tolerantError true)) ≫= fun _ =>
          if se_tolerateErrors (tr_settings (de_trace d))
          then onTrace (resetTrace (-1)) ≫= fun _ => mret (Return DQERR_OK)
          else failed
      | inr _ => onTrace (resetTrace (-1)) ≫= fun _ => mret (Return DQERR_OK)
      end
  | _ => deliver wM false 0 ≫= fun _ => tolerate
  end.

(** The branch type of a message; [BTYPE_UNDEFINED] if it has none. *)
Definition btypeOf (nm : NexusMessage) : BType :=
  match nm_body nm with
  | B_indirectBranchWS _ _ b _ | B_indirectBranch _ _ b
  | B_indirectHistory _ _ b _ | B_indirectHistoryWS _ _ b _ _ => b
  | _ => BTYPE_UNDEFINED
  end.

(** [TRACE_STATE_RETIREMESSAGE]: the counts of the message are used up. *)
Definition retireMessage : DM Turn :=
  nm ← theNm;
  match nm_tcode nm with
  | TCODE_SYNC | TCODE_DIRECT_BRANCH_WS | TCODE_INDIRECT_BRANCH_WS
  | TCODE_INDIRECTBRANCHHISTORY_WS | TCODE_DIRECT_BRANCH | TCODE_INDIRECT_BRANCH
  | TCODE_INDIRECTBRANCHHISTORY | TCODE_RESOURCEFULL =>
      retireOr (fun consumed =>
        deliverHere wM consumed ≫= fun _ =>
        d ← get;
        sourceHere (wS && bool_decide (ou_src (de_out d) = None)) ≫= fun _ =>
        (if decide (btypeOf nm = BTYPE_EXCEPTION) then setAtCore (set_enterISR isInterrupt)
         else mret tt) ≫= fun _ =>
        setRead true ≫= fun _ =>
        toState TRACE_STATE_GETNEXTMSG ≫= fun _ =>
        returnOk)
  | TCODE_CORRELATION =>
      r ← retire;
      c ← atCore;
      (if wM then
         i_cnt ← lift_opt (match nm_body nm with
                           | B_correlation _ i _ _ => int_of (i * 2)
                           | _ => None
                           end);
         deliver wM (match r with inr b => b | inl _ => false end)
           (addrPlus (co_lastFaddr c) i_cnt)
       else mret tt) ≫= fun _ =>
      match r with
      | inl _ => tolerate
      | inr _ =>
          core ← theCore;
          onTrace (resetTrace core) ≫= fun _ => mret (Return DQERR_OK)
      end
  | _ => failed
  end.

(** The change of process by an ownership message: [before] is what held before
    it. *)
Definition ownershipState (before : CoreState) : DM unit :=
  core ← theCore;
  c ← atCore;
  match 0 <=? co_currentProcessIndex before, 0 <=? co_currentProcessIndex c with
  | true, true => mret tt
  | true, false =>
      onTrace (onCoreCounts core (modify resetCounts)) ≫= fun _ =>
      onTrace (onCoreCounts core (modify (fun c => set_stack (resetStack (cc_stack c)) c))) ≫= fun _ =>
      toState TRACE_STATE_GETFIRSTSYNCMSG
  | false, true =>
      if co_prevMsgWasSync before then mret tt else toState TRACE_STATE_GETFIRSTSYNCMSG
  | false, false => toState TRACE_STATE_GETFIRSTSYNCMSG
  end.

(** [TRACE_STATE_GETNEXTMSG]: a message with counts starts the instructions it
    counts; the others are returned at once. *)
Definition getNextMsg : DM Turn :=
  nm ← theNm;
  match nm_tcode nm with
  | TCODE_DIRECT_BRANCH | TCODE_INDIRECT_BRANCH | TCODE_SYNC | TCODE_DIRECT_BRANCH_WS
  | TCODE_INDIRECT_BRANCH_WS | TCODE_CORRELATION | TCODE_INDIRECTBRANCHHISTORY
  | TCODE_INDIRECTBRANCHHISTORY_WS | TCODE_RESOURCEFULL =>
      c ← atCore;
      if 0 <=? co_currentProcessIndex c then
        r ← onTrace (attempt (onCoreCounts (nm_coreId nm) (setCounts nm)));
        match r with
        | inl _ => deliverHere wM false ≫= fun _ => tolerate
        | inr _ => toState TRACE_STATE_GETNEXTINSTRUCTION ≫= fun _ => mret Again
        end
      else
        r ← retire;
        deliverHere wM (match r with inr b => b | inl _ => false end) ≫= fun _ =>
        match r with
        | inl _ => tolerate
        | inr _ => setRead true ≫= fun _ => mret (Return DQERR_OK)
        end
  | TCODE_INCIRCUITTRACE | TCODE_INCIRCUITTRACE_WS =>
      retireOr (fun consumed =>
        nm ← theNm;
        timeOnly ← lift_opt (ictTimeOnly nm);
        noInst ← lift_opt (ictNoInst nm);
        c ← atCore;
        addr ← (if timeOnly : bool then mret (co_currentAddress c)
                else if noInst : bool then mret (co_lastFaddr c)
                else if wI || wS then
                  eventInst nm ≫= fun _ => mret (co_currentAddress c)
                else mret uninitAddr);
        deliver wM consumed addr ≫= fun _ => nextMessage)
  | TCODE_ERROR =>
      onTrace (updateTS TS_rel) ≫= fun _ =>
      deliverHere wM false ≫= fun _ =>
      onTrace (resetTrace (-1)) ≫= fun _ => nextMessage
  | TCODE_DATA_ACQUISITION =>
      retireOr (fun consumed => deliverHere wM consumed ≫= fun _ => nextMessage)
  | TCODE_OWNERSHIP_TRACE =>
      before ← atCore;
      retireOr (fun consumed =>
        tag ← lift_opt (match nm_body nm with B_ownership _ _ _ tag => Some tag | _ => None end);
        match tag with
        | 0 | 2 | 3 =>
            (if tag =? 2 then ownershipState before else mret tt) ≫= fun _ =>
            deliverHere wM consumed ≫= fun _ => nextMessage
        | _ => mret (Return DQERR_ERR)
        end)
  | _ => failed
  end.

(** The cycle-accurate trace, once it is in step: [None] if there is none for this
    instruction; [inl] is a return. *)
Definition cycles (ty : InstType) : DM (Turn + option (CAInfo * Z)) :=
  d ← get;
  match de_caTrace d with
  | None => mret (inr None)
  | Some ca =>
      let next := de_syncCount d - 1 in
      if (0 <? de_syncCount d) && negb (de_caSyncAddr d =? ii_address (de_instructionInfo d))
         && (next =? 0)
      then modify (set_syncCount 0) ≫= fun _ => r ← failed; mret (inl r)
      else
        (if 0 <? de_syncCount d
         then modify (set_syncCount (if de_caSyncAddr d =? ii_address (de_instructionInfo d)
                                     then 0 else next))
         else mret tt) ≫= fun _ =>
        d ← get;
        if negb (de_syncCount d =? 0) then mret (inr None)
        else
          r ← (fun d => zoom (fun ca => set_caTrace (Some ca) d) (attempt (consume ty)) ca);
          match r with
          | inl DQERR_EOF => r ← finish DQERR_EOF TRACE_STATE_DONE; mret (inl r)
          | inl e => r ← finish e TRACE_STATE_ERROR; mret (inl r)
          | inr info =>
              setStatusD DQERR_OK ≫= fun _ =>
              core ← theCore;
              prev ← lift_opt (de_lastCycle d !! Z.to_nat core);
              let k := Z.to_nat core in
              modify (fun d =>
                set_lastCycle (<[k := ca_pipeCycles info]> (de_lastCycle d))
                  (set_eCycleCount (<[k := u32 (ca_pipeCycles info - prev)]> (de_eCycleCount d)) d))
              ≫= fun _ => mret (inr (Some (info, prev)))
          end
  end.

(** The instruction that is returned. *)
Definition giveInstruction (cr : Z) (br : BranchFlags) (ca : option (CAInfo * Z)) : DM unit :=
  core ← theCore;
  c ← atCore;
  d ← get;
  let i := de_instructionInfo d in
  cycles ← lift_opt (de_eCycleCount d !! Z.to_nat core);
  giveInst {|
    ii_coreId := core; ii_pid := u32 (co_currentPid c); ii_prv := co_currentPrv c;
    ii_CRFlag := Z.lor cr (co_enterISR c); ii_brFlags := br; ii_address := ii_address i;
    ii_instSize := ii_instSize i; ii_instruction := ii_instruction i;
    ii_timestamp := match ca with Some (x, _) => ca_pipeCycles x | None => co_lastTime c end;
    ii_caFlags := match ca with Some (x, _) => ca_caFlags x | None => ii_caFlags i end;
    ii_pipeCycles := match ca with Some _ => cycles | None => ii_pipeCycles i end;
    ii_VIStartCycles := match ca with
                        | Some (x, prev) => u32 (ca_viStartCycles x - prev)
                        | None => ii_VIStartCycles i
                        end;
    ii_VIFinishCycles := match ca with
                         | Some (x, prev) => u32 (ca_viFinishCycles x - prev - 1)
                         | None => ii_VIFinishCycles i
                         end;
    ii_depths := fmap (fun x => ca_depths (fst x)) ca |} ≫= fun _ =>
  setAtCore (set_enterISR isNone).

Definition countTypeHere : DM CountType := onTrace countType.

(** What follows [nextAddr]: the instruction is returned, and the message is
    retired if its counts are used up. *)
Definition instructionDone (inst : Inst) (addr cr : Z) (br : BranchFlags) : DM Turn :=
  setAtCore (set_currentAddress addr) ≫= fun _ =>
  ca ← cycles (in_type inst);
  match ca with
  | inl r => mret r
  | inr ca =>
      (if wI then giveInstruction cr br ca else mret tt) ≫= fun _ =>
      (if wS then giveSrc else mret tt) ≫= fun _ =>
      core ← theCore;
      d ← get;
      a ← lift_opt (updateInstructionInfo core (in_size inst) cr br (de_analytics d));
      modify (set_analytics a) ≫= fun _ =>
      setStatusD (an_status a) ≫= fun _ =>
      if decide (an_status a = DQERR_OK) then
        ct ← countTypeHere;
        if decide (ct = COUNTTYPE_none)
        then toState TRACE_STATE_RETIREMESSAGE ≫= fun _ => mret Again
        else returnStatus
      else toState TRACE_STATE_ERROR ≫= fun _ => returnStatus
  end.

(** [TRACE_STATE_GETNEXTINSTRUCTION]. *)
Definition getNextInstruction : DM Turn :=
  ct ← countTypeHere;
  c ← atCore;
  if decide (ct = COUNTTYPE_none)
  then toState TRACE_STATE_RETIREMESSAGE ≫= fun _ => mret Again
  else if co_currentProcessIndex c <? 0
  then toState TRACE_STATE_ERROR ≫= fun _ => mret (Return DQERR_ERR)
  else
    let bad := deliverHere wM false ≫= fun _ => tolerate in
    r ← onTrace (onWalker (attempt (inst ← readInst (co_currentAddress c);
                                    modify (set_wstatus DQERR_OK) ≫= fun _ =>
                                    decodeInst uninit inst)));
    match r with
    | inl _ => bad
    | inr inst =>
        Disassemble (co_currentAddress c) ≫= fun _ =>
        core ← theCore;
        nm ← theNm;
        r ← onTrace (onWalker (attempt (nextAddr uninit core (co_currentAddress c) nm)));
        match r with
        | inl _ => bad
        | inr (addr, cr, br) =>
            setStatusD DQERR_OK ≫= fun _ =>
            if decide (addr = ADDRESS_NONE) then
              if decide (br = BRFLAG_unknown)
              then toState TRACE_STATE_RETIREMESSAGE ≫= fun _ => mret Again
              else
                ct ← countTypeHere;
                if decide (ct = COUNTTYPE_none) then instructionDone inst addr cr br else bad
            else instructionDone inst addr cr br
        end
    end.

(** ** Getting in step with a cycle-accurate trace *)

(** The address at which a sync message starts the trace: [inl true], any other
    message to return; [inl false], an error. *)
Definition syncStart (nm : NexusMessage) : option (bool + Z) :=
  match nm_tcode nm with
  | TCODE_INCIRCUITTRACE_WS =>
      src ← getCKSRC nm;
      match src with
      | ICT_INFERABLECALL | ICT_EXT_TRIG | ICT_EXCEPTION | ICT_INTERRUPT | ICT_CONTEXT
      | ICT_WATCHPOINT | ICT_PC_SAMPLE => Some (inl true)
      | ICT_CONTROL =>
          ckdf ← getCKDF nm;
          if ckdf =? 1 then
            x ← getCKData nm 1;
            if (x =? 2) || (x =? 4) then a ← getF_Addr nm; Some (inr (toBytes a))
            else Some (inl true)
          else Some (inl true)
      | ICT_NONE | ICT_reserved _ => Some (inl false)
      end
  | _ =>
      s ← getSyncReason nm;
      match s with
      | SYNC_EXIT_DEBUG | SYNC_TRACE_ENABLE => a ← getF_Addr nm; Some (inr (toBytes a))
      | SYNC_NONE | SYNC_reserved _ => Some (inl false)
      | _ => Some (inl true)
      end
  end.

(** The switch of [Trace::nextCAAddr]: the next address and the saved return
    address, [ADDRESS_NONE] when they are not known. *)
Definition caFlow (inst : Inst) (addr saved : Z) : Z * Z :=
  let next := addrPlus addr (bytesOf inst) in
  let target := addrPlus addr (in_imm inst) in
  match in_type inst with
  | INST_JAL | INST_C_JAL => (target, if isLink (in_rd inst) then next else saved)
  | INST_C_J => (target, saved)
  | INST_JALR =>
      if isLink (in_rd inst) then
        if negb (isLink (in_rs1 inst)) then (ADDRESS_NONE, next)
        else if negb (in_rd inst =? in_rs1 inst) then (saved, ADDRESS_NONE)
        else (ADDRESS_NONE, next)
      else if isLink (in_rs1 inst) then (saved, ADDRESS_NONE)
      else (ADDRESS_NONE, saved)
  | INST_C_JR => if isLink (in_rs1 inst) then (saved, ADDRESS_NONE) else (ADDRESS_NONE, saved)
  | INST_C_JALR => if in_rs1 inst =? REG_5 then (saved, addr) else (ADDRESS_NONE, next)
  | INST_EBREAK | INST_ECALL | INST_MRET | INST_SRET | INST_URET => (ADDRESS_NONE, saved)
  | ty =>
      if isCondBranch ty
      then (if next =? target then target else ADDRESS_NONE, saved)
      else (next, saved)
  end.

(** [Trace::nextCAAddr]: the two references, and whether it succeeded. *)
Definition nextCAAddr (addr saved : Z) : M (Walker (TraceMem K)) DQErr (Z * Z * bool) :=
  r ← attempt (fun w =>
        zoom (fun m => set_mem m w) (elfFetch (wk_currentCore w) addr) (wk_mem w));
  match r with
  | inl e => modify (set_wstatus e) ≫= fun _ => mret (addr, saved, false)
  | inr inst =>
      modify (set_wstatus DQERR_OK) ≫= fun _ =>
      r ← attempt (decodeInst uninit inst);
      match r with
      | inl _ => mret (addr, saved, false)
      | inr i =>
          let '(addr, saved) := caFlow i addr saved in
          mret (addr, saved, negb (addr =? ADDRESS_NONE))
      end
  end.

(** The loop of at most 30 instructions; [Some] is a return. *)
Fixpoint caSync (n : nat) (teAddr saved : Z) : DM (option Turn) :=
  match n with
  | O => mret None
  | S n =>
      d ← get;
      if teAddr =? de_caSyncAddr d then mret None
      else
        '(addr, saved, ok) ← onTrace (onWalker (nextCAAddr (de_caSyncAddr d) saved));
        modify (set_caSyncAddr addr) ≫= fun _ =>
        if negb ok then mret None
        else
          r ← (fun d => match de_caTrace d with
                        | None => Undef
                        | Some ca => zoom (fun ca => set_caTrace (Some ca) d)
                                       (attempt (consume INST_SCALER)) ca
                        end);
          match r with
          | inl DQERR_EOF => r ← finish DQERR_EOF TRACE_STATE_DONE; mret (Some r)
          | inl e => r ← finish e TRACE_STATE_ERROR; mret (Some r)
          | inr _ => caSync n teAddr saved
          end
  end.

(** [syncCount = 16; caTrace->rewind(); caSyncAddr = caTrace->getCATraceStartAddr();]:
    what [rewind] returns is not looked at. *)
Definition rewindCATrace : DM unit :=
  modify (set_syncCount 16) ≫= fun _ =>
  _ ← (fun d => match de_caTrace d with
                | None => Undef
                | Some ca => zoom (fun ca => set_caTrace (Some ca) d) (attempt rewind) ca
                end);
  modify (fun d => match de_caTrace d with
                   | Some ca => set_caSyncAddr (getCATraceStartAddr ca) d
                   | None => d
                   end).

(** The messages returned before the start is found: without the process. *)
Definition deliverBare (consumed : bool) (addr : Z) (time : NexusMessage -> CoreState -> Z)
    : DM unit :=
  if wM then
    nm ← theNm; c ← atCore; giveMsg consumed (stamp addr (time nm c) None nm)
  else mret tt.

(** [TRACE_STATE_SYNCCATE]. *)
Definition syncCATE : DM Turn :=
  d ← get;
  nm ← theNm;
  match de_caTrace d with
  | None => failed
  | Some _ =>
      let byTime (_ : NexusMessage) (c : CoreState) := co_lastTime c in
      let start :=
        s ← lift_opt (syncStart nm);
        match s with
        | inl true =>
            r ← retire;
            match r with
            | inl _ => failed
            | inr consumed =>
                (if wM then
                   a ← lift_opt (getF_Addr nm);
                   deliverBare consumed (toBytes a) (fun nm _ => nm_time nm)
                 else mret tt) ≫= fun _ =>
                setRead true ≫= fun _ => returnOk
            end
        | inl false => failed
        | inr teAddr =>
            modify (fun d => match de_caTrace d with
                             | Some ca => set_caSyncAddr (getCATraceStartAddr ca) d
                             | None => d
                             end) ≫= fun _ =>
            r ← caSync 30 teAddr ADDRESS_NONE;
            match r with
            | Some r => mret r
            | None =>
                d ← get;
                (if teAddr =? de_caSyncAddr d then mret tt else rewindCATrace) ≫= fun _ =>
                toState TRACE_STATE_GETFIRSTSYNCMSG ≫= fun _ => mret Again
            end
        end in
      match nm_tcode nm with
      | TCODE_ERROR =>
          onTrace (updateTS TS_rel) ≫= fun _ =>
          c ← atCore;
          deliverBare false (co_currentAddress c) byTime ≫= fun _ =>
          onTrace (resetTrace (-1)) ≫= fun _ =>
          setRead true ≫= fun _ => returnOk
      | TCODE_SYNC | TCODE_DIRECT_BRANCH_WS | TCODE_INDIRECT_BRANCH_WS
      | TCODE_INDIRECTBRANCHHISTORY_WS | TCODE_INCIRCUITTRACE_WS => start
      | TCODE_DEBUG_STATUS | TCODE_DEVICE_ID | TCODE_DATA_WRITE | TCODE_DATA_READ
      | TCODE_CORRECTION | TCODE_DATA_WRITE_WS | TCODE_DATA_READ_WS | TCODE_WATCHPOINT
      | TCODE_UNDEFINED => failed
      | _ =>
          c ← atCore;
          r ← (if co_lastFaddr c =? 0 then mret (inr false) else retire);
          match r with
          | inl _ => failed
          | inr consumed =>
              c ← atCore;
              deliverBare consumed (co_currentAddress c) byTime ≫= fun _ =>
              setRead true ≫= fun _ => returnOk
          end
      end
  end.

(** One turn of the switch. *)
Definition turn : DM Turn :=
  c ← atCore;
  match co_state c with
  | TRACE_STATE_SYNCCATE => syncCATE
  | TRACE_STATE_GETFIRSTSYNCMSG => getFirstSyncMsg
  | TRACE_STATE_RETIREMESSAGE => retireMessage
  | TRACE_STATE_GETNEXTMSG => getNextMsg
  | TRACE_STATE_GETNEXTINSTRUCTION => getNextInstruction
  | TRACE_STATE_DONE => setStatusD DQERR_DONE ≫= fun _ => mret (Return DQERR_DONE)
  | TRACE_STATE_ERROR => setStatusD DQERR_ERR ≫= fun _ => mret (Return DQERR_ERR)
  end.
End turn.

(** ** The loop *)

(** The [for (;;)] loop: [fuel] bounds the turns and the bytes read. *)
Fixpoint loop (fuel : nat) : DM DQErr :=
  match fuel with
  | O => fun _ => NoFuel
  | S fuel' =>
      d ← get;
      r ← (if tr_readNewTraceMessage (de_trace d) then
             rc ← readLoop fuel;
             match rc with
             | Some rc => mret (inl (Return rc))
             | None => prepare
             end
           else mret (inr false));
      r ← (match r with
           | inl r => mret r
           | inr hidden =>
               turn (wantInst && negb hidden) (wantMsg && negb hidden) (wantSrc && negb hidden)
           end);
      match r with
      | Return rc => mret rc
      | Again => loop fuel'
      end
  end.

(** [Trace::NextInstruction(instInfo,msgInfo,srcInfo)]: the return code; the
    results are in [de_out], and nothing is there at first, since the other
    [NextInstruction] passes null pointers. *)
Definition NextInstruction (fuel : nat) : DM DQErr :=
  modify (set_out noOut) ≫= fun _ =>
  d ← get;
  match de_sfp d with
  | None => setStatusD DQERR_ERR ≫= fun _ => mret DQERR_ERR
  | Some _ =>
      let status := wk_status (tr_walker (de_trace d)) in
      if decide (status = DQERR_OK)
      then onTrace (modify (set_tolerantError false)) ≫= fun _ => loop fuel
      else mret status
  end.
End machine.
