(* ===== verification/Disasm.v ===== *)
(** * Disassembly and source lines (src/dqr.cpp, [Disassembler] and [KMem])

    The description of the instruction at an address: its encoding and text, the symbol
    it belongs to, and its source line, from the object files of a process or from the
    dumps of the pages of the kernel.  The code caches descriptions in the sections
    ([getCachedInfo], [setCachedInfo]), but their array [cachedInfo] is never allocated:
    nothing is ever found in it. *)

From stdpp Require Import strings.
From Stdlib Require Import Ascii.
From Stdlib Require String.
From S2P Require Import Prelude Nexus Decode Memory NextAddr ObjDump ObjCode Symbols SrcFiles ElfFile Analytics NextInstr.

(** ** What is known of an instruction *)

(** The members of [class Instruction] that disassembling assigns. *)
Record Shown := {
  sh_address : Z;
  sh_instSize : Z;
  sh_instruction : Z;
  sh_instructionText : option (list ascii);
  sh_addressLabel : option (list ascii);
  sh_addressLabelOffset : Z;
}.
Definition set_sh_address a (x : Shown) : Shown := {|
  sh_address := a; sh_instSize := sh_instSize x; sh_instruction := sh_instruction x;
  sh_instructionText := sh_instructionText x; sh_addressLabel := sh_addressLabel x;
  sh_addressLabelOffset := sh_addressLabelOffset x |}.
Definition set_encoding size inst (text : option (list ascii)) (x : Shown) : Shown := {|
  sh_address := sh_address x; sh_instSize := size; sh_instruction := inst; sh_instructionText := text;
  sh_addressLabel := sh_addressLabel x; sh_addressLabelOffset := sh_addressLabelOffset x |}.
Definition set_sh_size size (x : Shown) : Shown := {|
  sh_address := sh_address x; sh_instSize := size; sh_instruction := sh_instruction x;
  sh_instructionText := sh_instructionText x; sh_addressLabel := sh_addressLabel x;
  sh_addressLabelOffset := sh_addressLabelOffset x |}.
Definition set_label l offset (x : Shown) : Shown := {|
  sh_address := sh_address x; sh_instSize := sh_instSize x; sh_instruction := sh_instruction x;
  sh_instructionText := sh_instructionText x; sh_addressLabel := l; sh_addressLabelOffset := offset |}.

(** [class Source]. *)
Record SourceInfo := {
  so_sourceFile : option (list ascii);
  so_cutPathIndex : Z;
  so_sourceFunction : option (list ascii);
  so_sourceLineNum : Z;
  so_sourceLine : option (list ascii);
}.
Definition noSource : SourceInfo := {|
  so_sourceFile := None; so_cutPathIndex := 0; so_sourceFunction := None; so_sourceLineNum := 0; so_sourceLine := None |}.

(** The encoding at an index of a section: the size, and the instruction; [inl] if it is
    longer than 32 bits. *)
Definition encodingAt (sec : ElfSection) (index : Z) : option (unit + Z * Z) :=
  inst ← element (sc_code sec) index;
  match decodeInstructionSize inst with
  | None => Some (inl tt)
  | Some size =>
      if 16 <? size then
        high ← element (sc_code sec) (index + 1);
        Some (inr (size, Z.lor inst (u32 (Z.shiftl high 16))))
      else Some (inr (size, inst))
  end.

(** ** The disassembler of a process *)

(** The sections are those of the [ElfReader], whose list it points to; an empty list is
    a null pointer. *)
Record Disassembler := {
  ds_status : DQErr;
  ds_sectionLst : list ElfSection;
  ds_symtab : Symtab;
  ds_cachedAddr : Z;
  ds_cached : option (ElfSection * Z);
  ds_instruction : Shown;
  ds_source : SourceInfo;
  ds_fileReader : FileReader;
  ds_pType : PathType;
}.
Definition set_ds_status e (d : Disassembler) : Disassembler := {|
  ds_status := e; ds_sectionLst := ds_sectionLst d; ds_symtab := ds_symtab d; ds_cachedAddr := ds_cachedAddr d;
  ds_cached := ds_cached d; ds_instruction := ds_instruction d; ds_source := ds_source d;
  ds_fileReader := ds_fileReader d; ds_pType := ds_pType d |}.
Definition set_ds_symtab t (d : Disassembler) : Disassembler := {|
  ds_status := ds_status d; ds_sectionLst := ds_sectionLst d; ds_symtab := t; ds_cachedAddr := ds_cachedAddr d;
  ds_cached := ds_cached d; ds_instruction := ds_instruction d; ds_source := ds_source d;
  ds_fileReader := ds_fileReader d; ds_pType := ds_pType d |}.
Definition set_cached addr sp index (d : Disassembler) : Disassembler := {|
  ds_status := ds_status d; ds_sectionLst := ds_sectionLst d; ds_symtab := ds_symtab d; ds_cachedAddr := addr;
  ds_cached := Some (sp, index); ds_instruction := ds_instruction d; ds_source := ds_source d;
  ds_fileReader := ds_fileReader d; ds_pType := ds_pType d |}.
Definition upd_instruction f (d : Disassembler) : Disassembler := {|
  ds_status := ds_status d; ds_sectionLst := ds_sectionLst d; ds_symtab := ds_symtab d; ds_cachedAddr := ds_cachedAddr d;
  ds_cached := ds_cached d; ds_instruction := f (ds_instruction d); ds_source := ds_source d;
  ds_fileReader := ds_fileReader d; ds_pType := ds_pType d |}.
Definition set_source x (d : Disassembler) : Disassembler := {|
  ds_status := ds_status d; ds_sectionLst := ds_sectionLst d; ds_symtab := ds_symtab d; ds_cachedAddr := ds_cachedAddr d;
  ds_cached := ds_cached d; ds_instruction := ds_instruction d; ds_source := x;
  ds_fileReader := ds_fileReader d; ds_pType := ds_pType d |}.
Definition set_fileReader r (d : Disassembler) : Disassembler := {|
  ds_status := ds_status d; ds_sectionLst := ds_sectionLst d; ds_symtab := ds_symtab d; ds_cachedAddr := ds_cachedAddr d;
  ds_cached := ds_cached d; ds_instruction := ds_instruction d; ds_source := ds_source d;
  ds_fileReader := r; ds_pType := ds_pType d |}.
Definition set_pType t (d : Disassembler) : Disassembler := {|
  ds_status := ds_status d; ds_sectionLst := ds_sectionLst d; ds_symtab := ds_symtab d; ds_cachedAddr := ds_cachedAddr d;
  ds_cached := ds_cached d; ds_instruction := ds_instruction d; ds_source := ds_source d;
  ds_fileReader := ds_fileReader d; ds_pType := t |}.

(** [garbage] is what the new object has in [instruction] and [source]. *)
Definition newDisassembler (garbage : Shown * SourceInfo) (stp : Symtab) (sp : list ElfSection) : Disassembler := {|
  ds_status := DQERR_OK; ds_sectionLst := sp; ds_symtab := stp; ds_cachedAddr := 0; ds_cached := None;
  ds_instruction := garbage.1; ds_source := garbage.2; ds_fileReader := newFileReader; ds_pType := PATH_TO_UNIX |}.

Definition setPathType (pt : PathType) : Disassembler -> Disassembler := set_pType pt.

#[local] Abbreviation DM := (M Disassembler DQErr).

Definition dsFails {A} : DM A := modify (set_ds_status DQERR_ERR) ≫= fun _ => throw DQERR_ERR.

Definition Disassembler_subSrcPath (cutPath newRoot : option (list ascii)) : DM unit :=
  modify (fun d => set_ds_status DQERR_OK (set_fileReader (subSrcPath cutPath newRoot (ds_fileReader d)) d)).

(** [sectionLst->getSectionByAddress(addr)]; an error if there is none. *)
Definition sectionOf (addr : Z) : DM ElfSection :=
  d ← get;
  match List.find (hasAddress addr) (ds_sectionLst d) with
  | Some sp => mret sp
  | None => throw DQERR_ERR
  end.

Definition cacheSrcInfo (addr : Z) : DM unit :=
  sp ← sectionOf addr;
  modify (set_cached addr sp (codeIndex (codeSection sp) addr)).

(** The symbol of an address, if there is one. *)
Definition symbolAt (addr : Z) : DM (option Sym) :=
  p ← (fun d => zoom (fun t => set_ds_symtab t d) (lookupSymbolByAddress addr) (ds_symtab d));
  match p with
  | None => mret None
  | Some p => d ← get; x ← lift_opt (st_symLst (ds_symtab d) !! p); mret (Some x)
  end.
(** The distance from the symbol, an [int]. *)
Definition labelOffset (addr : Z) (x : Sym) : Z := i32 (u64 (addr - sy_vmaOffset x - sy_address x)).

Definition getFunctionName (addr : Z) : DM (option (list ascii) * Z) :=
  x ← symbolAt addr;
  mret (match x with Some x => (Some (sy_name x), labelOffset addr x) | None => (None, 0) end).

Definition findNearestLine (addr : Z) : DM (option (list ascii) * Z) :=
  if addr =? 0 then mret (None, 0)
  else
    d ← get;
    (if addr =? ds_cachedAddr d then mret tt else cacheSrcInfo addr) ≫= fun _ =>
    d ← get;
    '(sp, index) ← lift_opt (ds_cached d);
    file ← lift_opt (element (sc_fName sp) index);
    line ← lift_opt (element (sc_line sp) index);
    mret (file, i32 line).

(** The array [fprime] has 2048 elements, and a longer name gets an array of its own. *)
Definition saneFits (file sane : list ascii) : bool := negb (length file =? 2048)%nat || (length sane <? 2048)%nat.

Definition addFunction (p : nat) (function : list ascii) (r : FileReader) : FileReader :=
  set_files (alter (fun fl =>
    if bool_decide (function ∈ fl_funcs fl) then fl
    else {| fl_name := fl_name fl; fl_cutPathIndex := fl_cutPathIndex fl; fl_funcs := function :: fl_funcs fl;
            fl_lines := fl_lines fl |}) p (fr_files r)) r.

Section sources.
Context (contents : list ascii -> option (list ascii)).

(** The references are assigned one by one, so an error leaves a part of them. *)
Definition getSrcLines (addr : Z) : DM unit :=
  modify (set_source noSource) ≫= fun _ =>
  '(file, line) ← findNearestLine addr;
  match file with
  | None => mret tt
  | Some file =>
      let number := u32 line in
      let src fn cut func text := modify (set_source {|
        so_sourceFile := fn; so_cutPathIndex := cut; so_sourceFunction := func; so_sourceLineNum := number;
        so_sourceLine := text |}) in
      src None 0 None None ≫= fun _ =>
      '(function, _) ← getFunctionName addr;
      d ← get;
      let sane := sanePath (ds_pType d) file in
      if negb (saneFits file sane) then undef
      else
        let '(r, p) := findFile contents sane (ds_fileReader d) in
        modify (set_fileReader r) ≫= fun _ =>
        match p with
        | None => dsFails
        | Some p =>
            fl ← lift_opt (fr_files r !! p);
            (match function with
             | Some f => modify (fun d => set_fileReader (addFunction p f (ds_fileReader d)) d)
             | None => mret tt
             end) ≫= fun _ =>
            src (Some (fl_name fl)) (fl_cutPathIndex fl) function
              (if (1 <=? line) && (line <=? fl_lineCount fl)
               then default [] (fl_lines fl) !! Z.to_nat (line - 1) else None)
        end
  end.

Definition getInstruction (addr : Z) : DM unit :=
  sp ← sectionOf addr;
  let index := codeIndex (codeSection sp) addr in
  modify (upd_instruction (set_sh_address addr)) ≫= fun _ =>
  enc ← lift_opt (encodingAt sp index);
  match enc with
  | inl _ => dsFails
  | inr (size, inst) =>
      text ← lift_opt (element (sc_diss sp) index);
      modify (upd_instruction (set_encoding size inst text)) ≫= fun _ =>
      x ← symbolAt addr;
      modify (upd_instruction (match x with
        | Some x => set_label (Some (sy_name x)) (labelOffset addr x)
        | None => set_label None 0
        end))
  end.

(** [Disassembler::disassemble] *)
Definition disassembleAt (addr : Z) : DM unit :=
  sectionOf addr ≫= fun _ =>
  getInstruction addr ≫= fun _ =>
  getSrcLines addr.
End sources.

Definition lookupInstructionByAddress (addr : Z) : DM (Z * Z) :=
  d ← get;
  match ds_sectionLst d with
  | [] => dsFails
  | _ =>
      (if addr =? ds_cachedAddr d then mret tt else cacheSrcInfo addr) ≫= fun _ =>
      d ← get;
      match ds_cached d with
      | None => dsFails
      | Some (sp, index) =>
          enc ← lift_opt (encodingAt sp index);
          match enc with
          | inl _ => dsFails
          | inr (size, inst) => mret (inst, size)
          end
      end
  end.

(** ** The memory of the kernel *)

(** [page] tells what running the objdump program on the file of a page comes to. *)
Record KMem := {
  km_status : DQErr;
  km_startAddr : Z;
  km_image : Image;
  km_cachedSection : option nat;
  km_instruction : Shown;
}.
Definition set_km_status e (k : KMem) : KMem := {|
  km_status := e; km_startAddr := km_startAddr k; km_image := km_image k; km_cachedSection := km_cachedSection k;
  km_instruction := km_instruction k |}.
Definition set_km_image im (k : KMem) : KMem := {|
  km_status := km_status k; km_startAddr := km_startAddr k; km_image := im; km_cachedSection := km_cachedSection k;
  km_instruction := km_instruction k |}.
Definition set_km_cached p (k : KMem) : KMem := {|
  km_status := km_status k; km_startAddr := km_startAddr k; km_image := km_image k; km_cachedSection := p;
  km_instruction := km_instruction k |}.
Definition set_km_instruction x (k : KMem) : KMem := {|
  km_status := km_status k; km_startAddr := km_startAddr k; km_image := km_image k; km_cachedSection := km_cachedSection k;
  km_instruction := x |}.

Definition newKMem (start_address archsize : Z) : KMem := {|
  km_status := DQERR_OK; km_startAddr := start_address;
  km_image := {| im_archSize := archsize; im_store := []; im_codeSectionLst := []; im_symLst := []; im_srcFiles := [] |};
  km_cachedSection := None;
  km_instruction := {| sh_address := 0; sh_instSize := 0; sh_instruction := 0; sh_instructionText := None;
                       sh_addressLabel := None; sh_addressLabelOffset := 0 |} |}.

(** Here the end of a section is outside of it. *)
Definition inPage (addr : Z) (s : ElfSection) : bool :=
  (u64 (sc_startAddr s + sc_vmaOffset s) <=? addr) && (addr <? u64 (sc_endAddr s + sc_vmaOffset s)).

Fixpoint pageOf (addr : Z) (store : list ElfSection) (l : list nat) : option (option nat) :=
  match l with
  | [] => Some None
  | p :: l => sec ← store !! p; if inPage addr sec then Some (Some p) else pageOf addr store l
  end.

#[local] Abbreviation KM := (M KMem DQErr).

Definition findSection (addr : Z) : KM (option nat) :=
  k ← get;
  cached ← lift_opt (match km_cachedSection k with
                     | Some p => sec ← im_store (km_image k) !! p; Some (if inPage addr sec then Some p else None)
                     | None => Some None
                     end);
  match cached with
  | Some p => mret (Some p)
  | None =>
      found ← lift_opt (pageOf addr (im_store (km_image k)) (im_codeSectionLst (km_image k)));
      match found with
      | Some p => modify (set_km_cached (Some p)) ≫= fun _ => mret (Some p)
      | None => mret None
      end
  end.

Definition PAGE : Z := 4096.

Section kernel.
Context (fuel : nat) (page : Z -> Exec).

(** The section of an address, whose page is read if it was not before. *)
Definition pageSection (addr : Z) : KM ElfSection :=
  let at_ p := k ← get; lift_opt (im_store (km_image k) !! p) in
  found ← findSection addr;
  match found with
  | Some p => at_ p
  | None =>
      let pageAddr := Z.land addr (u64 (Z.lnot (PAGE - 1))) in
      k ← get;
      loaded ← (fun k => match dumpBlob fuel pageAddr (u64 (pageAddr + PAGE)) (page pageAddr) (km_image k) with
                         | Ok im _ => Ok (set_km_image im k) true
                         | Err im _ => Ok (set_km_image im k) false
                         | Undef => Undef
                         | NoFuel => NoFuel
                         end);
      if negb loaded then modify (set_km_status DQERR_ERR) ≫= fun _ => throw DQERR_ERR
      else
        found ← findSection addr;
        match found with
        | Some p => at_ p
        | None => throw DQERR_ERR
        end
  end.

Definition KMem_disassemble (addr : Z) : KM unit :=
  sp ← pageSection addr;
  let index := codeIndex (codeSection sp) addr in
  modify (fun k => set_km_instruction (set_sh_address addr (km_instruction k)) k) ≫= fun _ =>
  enc ← lift_opt (encodingAt sp index);
  match enc with
  | inl _ => modify (set_km_status DQERR_ERR) ≫= fun _ => throw DQERR_ERR
  | inr (size, inst) =>
      text ← lift_opt (element (sc_diss sp) index);
      modify (fun k => set_km_instruction (set_label None 0 (set_encoding size inst text (km_instruction k))) k)
  end.

Definition KMem_getInstructionByAddress (addr : Z) : KM Z :=
  sp ← pageSection addr;
  if negb (inPage addr sp) then modify (set_km_status DQERR_ERR) ≫= fun _ => throw DQERR_ERR
  else
    enc ← lift_opt (encodingAt sp (codeIndex (codeSection sp) addr));
    match enc with
    | inl _ => modify (set_km_status DQERR_ERR) ≫= fun _ => throw DQERR_ERR
    | inr (_, inst) => mret inst
    end.

Definition KMem_memory : CodeMemory KMem := fun _ => KMem_getInstructionByAddress.
End kernel.

(** ** The disassemblers as parts of the decoder *)

(** The disassemblers of the processes; the members of [instruction] that no disassembler assigns are
    those of [dd_rest]. *)
Record Disassemblers := {
  dd_all : list Disassembler;
  dd_rest : InstInfo;
}.
Definition set_dd (i : nat) (s : Disassemblers) (d : Disassembler) : Disassemblers := {|
  dd_all := <[i := d]> (dd_all s); dd_rest := dd_rest s |}.

Definition infoOf (rest : InstInfo) (x : Shown) : InstInfo := {|
  ii_coreId := 0; ii_pid := ii_pid rest; ii_prv := ii_prv rest; ii_CRFlag := 0; ii_brFlags := BRFLAG_none;
  ii_address := sh_address x; ii_instSize := sh_instSize x; ii_instruction := sh_instruction x; ii_timestamp := 0;
  ii_caFlags := ii_caFlags rest; ii_pipeCycles := ii_pipeCycles rest; ii_VIStartCycles := ii_VIStartCycles rest;
  ii_VIFinishCycles := ii_VIFinishCycles rest; ii_depths := ii_depths rest |}.

Definition userInfo (contents : list ascii -> option (list ascii)) (i : nat) (addr : Z) : M Disassemblers DQErr InstInfo :=
  s ← get;
  d ← lift_opt (dd_all s !! i);
  (fun s => zoom (set_dd i s) (disassembleAt contents addr) d) ≫= fun _ =>
  s ← get;
  d ← lift_opt (dd_all s !! i);
  mret (infoOf (dd_rest s) (ds_instruction d)).

(** [rest] are the members that [KMem::disassemble] does not assign. *)
Definition kernelInfo (fuel : nat) (page : Z -> Exec) (rest : InstInfo) (addr : Z) : KM InstInfo :=
  KMem_disassemble fuel page addr ≫= fun _ =>
  k ← get;
  mret (infoOf rest (km_instruction k)).

(** [Trace::Disassemble] (src/trace.cpp) chooses between them. *)
Definition Disassemblers_disassembly (fuel : nat) (page : Z -> Exec) (rest : InstInfo) (contents : list ascii -> option (list ascii))
    : Disassembly KMem Disassemblers := {|
  disassemble := userInfo contents; kernelDisassemble := kernelInfo fuel page rest |}.
