(* ===== verification/Described.v ===== *)
(** * What the disassembler tells of an address

    [Disassembler::disassemble] on the state that [ElfReader] leaves: the instruction,
    its symbol and its source line, whatever addresses were looked at before; and that this
    is what was printed in the dump that was read. *)

From stdpp Require Import strings.
From Stdlib Require Import Ascii.
From Stdlib Require String.
From S2P Require Import Prelude Nexus Decode Memory ObjDump ObjDumpText ObjDumpPrint ObjDumpRead ObjCode Symbols SrcFiles ElfFile Disasm.

Section described.
Context (contents : list ascii -> option (list ascii)) (store : list ElfSection) (syms : list Sym).

(** The state between two calls. *)
Record dis_ok (d : Disassembler) : Prop := {
  do_table : table_ok store syms (ds_symtab d);
  do_reader : reader_ok (ds_fileReader d);
  do_current : reader_current contents (ds_fileReader d);
  do_cached : match ds_cached d with
              | Some (sp, i) => List.find (hasAddress (ds_cachedAddr d)) (ds_sectionLst d) = Some sp /\
                                i = codeIndex (codeSection sp) (ds_cachedAddr d)
              | None => ds_cachedAddr d = 0
              end;
}.

(** The parts that the calls leave alone. *)
Record dis_same (d d' : Disassembler) : Prop := {
  dm_sections : ds_sectionLst d' = ds_sectionLst d;
  dm_pType : ds_pType d' = ds_pType d;
  dm_cut : fr_cutPath (ds_fileReader d') = fr_cutPath (ds_fileReader d);
  dm_root : fr_newRoot (ds_fileReader d') = fr_newRoot (ds_fileReader d);
  dm_syms : st_symLst (ds_symtab d') = st_symLst (ds_symtab d);
  dm_ptrs : st_symPtrArray (ds_symtab d') = st_symPtrArray (ds_symtab d);
}.
Lemma dis_same_refl d : dis_same d d.
Proof. by split. Qed.
Lemma dis_same_trans d1 d2 d3 : dis_same d1 d2 -> dis_same d2 d3 -> dis_same d1 d3.
Proof. intros [] []. split; congruence. Qed.

(** The symbol of an address: of those that cover it, the first in the order. *)
Definition symbolOf (d : Disassembler) (addr : Z) : option Sym :=
  p ← firstCovering (ds_symtab d) addr; st_symLst (ds_symtab d) !! p.

Lemma symbolOf_same d d' addr : dis_same d d' -> symbolOf d' addr = symbolOf d addr.
Proof. intros [_ _ _ _ E1 E2]. unfold symbolOf, firstCovering. by rewrite E1, E2. Qed.

Lemma symbolOf_spec addr d : dis_ok d -> addr <> 0 ->
  match symbolOf d addr with
  | Some x => x ∈ st_symLst (ds_symtab d) /\ covers addr x = true /\
      forall y, y ∈ st_symLst (ds_symtab d) -> covers addr y = true -> y = x \/ symCompareFunc x y <= 0
  | None => forall y, y ∈ st_symLst (ds_symtab d) -> covers addr y = false
  end.
Proof.
  intros Hd Ha. destruct (lookup_spec store syms _ addr (do_table _ Hd) Ha) as (t & found & _ & _ & _ & _ & E & Hf).
  unfold symbolOf. rewrite <-E. destruct found as [p|]; cbn [mbind option_bind]; [|done].
  destruct Hf as (x & Hx & Hc & Hmin). rewrite Hx. split_and!; [by apply (list_elem_of_lookup_2 _ p)|done|].
  intros y [q Hq]%list_elem_of_lookup Hy. destruct (Hmin q y Hq Hy) as [->|?]; [left; congruence|by right].
Qed.

Lemma symbolAt_spec addr d : dis_ok d -> addr <> 0 ->
  exists d', symbolAt addr d = Ok d' (symbolOf d addr) /\ dis_ok d' /\ dis_same d d' /\
    ds_instruction d' = ds_instruction d /\ ds_source d' = ds_source d /\ ds_fileReader d' = ds_fileReader d.
Proof.
  intros Hd Ha. destruct (lookup_spec store syms _ addr (do_table _ Hd) Ha) as (t & found & E & Ht & Hs & Hp & Ef & Hf).
  exists (set_ds_symtab t d). split; [|split; [destruct Hd; by split|by split]].
  unfold symbolAt, symbolOf, mbind, M_bind, zoom. rewrite E, <-Ef. destruct found as [p|]; [|done].
  destruct Hf as (x & Hx & _). unfold get, lift_opt. cbn [ds_symtab set_ds_symtab option_bind]. by rewrite Hs, Hx.
Qed.

Lemma cacheSrcInfo_spec addr sp d : List.find (hasAddress addr) (ds_sectionLst d) = Some sp ->
  cacheSrcInfo addr d = Ok (set_cached addr sp (codeIndex (codeSection sp) addr) d) tt.
Proof. intros E. unfold cacheSrcInfo, sectionOf. rewrite bind_assoc, bind_get, E. done. Qed.

Lemma set_cached_ok addr sp d : dis_ok d -> List.find (hasAddress addr) (ds_sectionLst d) = Some sp ->
  dis_ok (set_cached addr sp (codeIndex (codeSection sp) addr) d).
Proof. intros [] E. by split. Qed.

(** The line of an address, cached or not. *)
Lemma findNearestLine_spec addr sp file line d : dis_ok d -> addr <> 0 ->
  List.find (hasAddress addr) (ds_sectionLst d) = Some sp ->
  element (sc_fName sp) (codeIndex (codeSection sp) addr) = Some file ->
  element (sc_line sp) (codeIndex (codeSection sp) addr) = Some line ->
  exists d', findNearestLine addr d = Ok d' (file, i32 line) /\ dis_ok d' /\ dis_same d d' /\
    ds_instruction d' = ds_instruction d /\ ds_source d' = ds_source d /\ ds_fileReader d' = ds_fileReader d /\
    ds_symtab d' = ds_symtab d.
Proof.
  intros Hd Ha Hsp Hf Hl. unfold findNearestLine. destruct (Z.eqb_spec addr 0); [done|]. rewrite bind_get.
  destruct (Z.eqb_spec addr (ds_cachedAddr d)) as [E|Hne].
  - rewrite ret_bind, bind_get. pose proof (do_cached _ Hd) as Hc. destruct (ds_cached d) as [[sp2 i]|]; [|congruence].
    destruct Hc as [H1 H2]. rewrite <-E in H1, H2. rewrite Hsp in H1. apply (inj Some) in H1 as <-. subst i.
    rewrite lift_bind, Hf, lift_bind, Hl, lift_bind. exists d. by split_and!.
  - rewrite (bind_ok _ _ _ _ _ (cacheSrcInfo_spec _ _ _ Hsp)), bind_get. cbn [ds_cached set_cached].
    rewrite lift_bind, Hf, lift_bind, Hl, lift_bind. eexists. split; [done|]. split; [by apply set_cached_ok|]. by split_and!.
Qed.

(** The instruction, with its label. *)
Definition shownOf (addr size inst : Z) (text : option (list ascii)) (x : option Sym) : Shown := {|
  sh_address := addr; sh_instSize := size; sh_instruction := inst; sh_instructionText := text;
  sh_addressLabel := sy_name <$> x; sh_addressLabelOffset := match x with Some x => labelOffset addr x | None => 0 end |}.

Lemma getInstruction_spec addr sp size inst text d : dis_ok d -> addr <> 0 ->
  List.find (hasAddress addr) (ds_sectionLst d) = Some sp ->
  encodingAt sp (codeIndex (codeSection sp) addr) = Some (inr (size, inst)) ->
  element (sc_diss sp) (codeIndex (codeSection sp) addr) = Some text ->
  exists d', getInstruction addr d = Ok d' tt /\ dis_ok d' /\ dis_same d d' /\
    ds_instruction d' = shownOf addr size inst text (symbolOf d addr) /\ ds_fileReader d' = ds_fileReader d.
Proof.
  intros Hd Ha Hsp He Ht. unfold getInstruction, sectionOf. rewrite bind_assoc, bind_get, Hsp, ret_bind, bind_modify.
  rewrite He, lift_bind, Ht, lift_bind, bind_modify.
  set (d1 := upd_instruction (set_encoding size inst text) _).
  assert (dis_ok d1) as Hd1 by (destruct Hd; by split).
  destruct (symbolAt_spec addr d1 Hd1 Ha) as (d2 & E & Hd2 & Hsame & Hi & _ & Hr).
  rewrite (bind_ok _ _ _ _ _ E). eexists. split; [done|].
  split; [destruct Hd2; by split|]. split; [destruct Hsame; by split|].
  cbn [upd_instruction ds_instruction ds_fileReader]. split; [|by rewrite Hr]. rewrite Hi.
  change (symbolOf d1 addr) with (symbolOf d addr). by destruct (symbolOf d addr).
Qed.

(** The source line: the line of the file, as it was when it was read. *)
Definition textLine (content : option (list ascii)) (line : Z) : option (list ascii) :=
  let lines := default [] (linesFrom true <$> content) in
  if (1 <=? line) && (line <=? Z.of_nat (length lines)) then lines !! Z.to_nat (line - 1) else None.
Definition sourceOf (r : FileReader) (pt : PathType) (file : option (list ascii)) (line : Z) (x : option Sym) : SourceInfo :=
  match file with
  | None => noSource
  | Some file =>
      let opened := openFile contents r (sanePath pt file) in {|
      so_sourceFile := Some (sanePath pt file); so_cutPathIndex := opened.2; so_sourceFunction := sy_name <$> x;
      so_sourceLineNum := u32 (i32 line); so_sourceLine := textLine opened.1 (i32 line) |}
  end.

Lemma sourceOf_paths r r' pt file line x : fr_cutPath r' = fr_cutPath r -> fr_newRoot r' = fr_newRoot r ->
  sourceOf r' pt file line x = sourceOf r pt file line x.
Proof. intros H1 H2. unfold sourceOf. destruct file; [|done]. by rewrite (openFile_paths contents r r'). Qed.

Lemma addFunction_ok p f r : reader_ok r -> reader_current contents r ->
  reader_ok (addFunction p f r) /\ reader_current contents (addFunction p f r).
Proof.
  intros [Hn Hl] Hc. unfold addFunction. set (g := fun fl => _).
  assert (forall fl, fl_name (g fl) = fl_name fl) as Hname by (intros fl; unfold g; by destruct (bool_decide _)).
  split; [split; cbn [set_files fr_files fr_lastFile]|].
  - replace (fl_name <$> alter g p (fr_files r)) with (fl_name <$> fr_files r); [done|].
    apply list_eq. intros i. rewrite !list_lookup_fmap. destruct (decide (p = i)) as [->|Hne].
    + rewrite list_lookup_alter_eq. destruct (fr_files r !! i) as [fl|]; cbn [fmap option_fmap option_map]; [by rewrite Hname|done].
    + by rewrite list_lookup_alter_ne by done.
  - destruct (fr_lastFile r) as [q|]; [|done]. rewrite lookup_lt_is_Some, length_alter. by apply lookup_lt_is_Some.
  - unfold reader_current in *. cbn [set_files fr_files]. apply Forall_alter; [done|]. intros fl Efl H.
    assert (fl_lines (g fl) = fl_lines fl /\ fl_cutPathIndex (g fl) = fl_cutPathIndex fl) as [E1 E2]
      by (unfold g; by destruct (bool_decide _)).
    rewrite Hname, E1, E2. by rewrite !(openFile_paths contents r (set_files _ r)).
Qed.

Lemma getSrcLines_spec addr sp file line d : dis_ok d -> addr <> 0 ->
  List.find (hasAddress addr) (ds_sectionLst d) = Some sp ->
  element (sc_fName sp) (codeIndex (codeSection sp) addr) = Some file ->
  element (sc_line sp) (codeIndex (codeSection sp) addr) = Some line ->
  match file with Some file => saneFits file (sanePath (ds_pType d) file) = true | None => True end ->
  exists d', getSrcLines contents addr d = Ok d' tt /\ dis_ok d' /\ dis_same d d' /\
    ds_instruction d' = ds_instruction d /\
    ds_source d' = sourceOf (ds_fileReader d) (ds_pType d) file line (symbolOf d addr).
Proof.
  intros Hd Ha Hsp Hf Hl Hfit. unfold getSrcLines. rewrite bind_modify. set (d1 := set_source noSource d).
  assert (dis_ok d1) as Hd1 by (destruct Hd; by split).
  destruct (findNearestLine_spec addr sp file line d1 Hd1 Ha Hsp Hf Hl) as (d2 & E & Hd2 & Hsame2 & Hi2 & Hs2 & Hr2 & Ht2).
  rewrite (bind_ok _ _ _ _ _ E). destruct file as [file|].
  2: { exists d2. split; [done|]. split; [done|]. split; [destruct Hsame2; by split|]. by split. }
  rewrite bind_modify. set (d3 := set_source _ d2). assert (dis_ok d3) as Hd3 by (destruct Hd2; by split).
  destruct (symbolAt_spec addr d3 Hd3 Ha) as (d4 & E4 & Hd4 & Hsame4 & Hi4 & Hs4 & Hr4).
  assert (dis_same d d4) as Hsame by (apply (dis_same_trans d d2); [destruct Hsame2; by split|destruct Hsame4; by split]).
  assert (symbolOf d3 addr = symbolOf d addr) as Ex by (change (symbolOf d3 addr) with (symbolOf d2 addr);
    change (symbolOf d addr) with (symbolOf d1 addr); by apply symbolOf_same).
  rewrite Ex in E4. set (x := symbolOf d addr) in *.
  unfold getFunctionName. rewrite bind_assoc, (bind_ok _ _ _ _ _ E4), ret_bind.
  assert (match x with Some x => (Some (sy_name x), labelOffset addr x) | None => (None, 0) end =
    (sy_name <$> x, match x with Some x => labelOffset addr x | None => 0 end)) as -> by (by destruct x).
  rewrite bind_get, (dm_pType _ _ Hsame), Hfit. cbn [negb].
  destruct (findFile_spec contents (sanePath (ds_pType d) file) (ds_fileReader d4) (do_reader _ Hd4)) as (r & p & _ & Ef & _).
  rewrite Ef. destruct (findFile_current _ _ _ _ _ (do_reader _ Hd4) (do_current _ Hd4) Ef)
    as (fl & Hrok & Hrc & Hfl & Hn & Hcut & Hroot & Hlines & Hcuti).
  rewrite bind_modify, Hfl, lift_bind.
  rewrite (openFile_paths contents (ds_fileReader d)) in Hlines, Hcuti by apply Hsame.
  assert (forall r', reader_ok r' -> reader_current contents r' -> fr_cutPath r' = fr_cutPath r -> fr_newRoot r' = fr_newRoot r ->
    forall d5, d5 = set_fileReader r' d4 -> exists d',
      (modify (set_source {| so_sourceFile := Some (fl_name fl); so_cutPathIndex := fl_cutPathIndex fl;
        so_sourceFunction := sy_name <$> x; so_sourceLineNum := u32 (i32 line);
        so_sourceLine := if (1 <=? i32 line) && (i32 line <=? fl_lineCount fl)
          then default [] (fl_lines fl) !! Z.to_nat (i32 line - 1) else None |}) : M Disassembler DQErr unit) d5 = Ok d' tt /\
      dis_ok d' /\ dis_same d d' /\ ds_instruction d' = ds_instruction d /\
      ds_source d' = sourceOf (ds_fileReader d) (ds_pType d) (Some file) line x) as Hend.
  { intros r' H1 H2 H3 H4 d5 ->. eexists. split; [done|]. split; [destruct Hd4; by split|].
    split; [destruct Hsame; split; cbn; congruence|]. split; [cbn; by rewrite Hi4|].
    cbn [set_source ds_source sourceOf]. unfold textLine, fl_lineCount. by rewrite Hn, Hcuti, Hlines. }
  destruct x as [x|]; cbn [fmap option_fmap option_map].
  - rewrite bind_modify. destruct (addFunction_ok p (sy_name x) r Hrok Hrc) as [H1 H2]. by apply (Hend (addFunction p (sy_name x) r)).
  - rewrite ret_bind. by apply (Hend r).
Qed.

(** An instruction is described by its encoding, its text, the symbol that it is of and
    its source line; the next calls find the same. *)
Lemma disassembleAt_spec addr sp size inst text file line d : dis_ok d -> addr <> 0 ->
  List.find (hasAddress addr) (ds_sectionLst d) = Some sp ->
  let i := codeIndex (codeSection sp) addr in
  encodingAt sp i = Some (inr (size, inst)) -> element (sc_diss sp) i = Some text ->
  element (sc_fName sp) i = Some file -> element (sc_line sp) i = Some line ->
  match file with Some file => saneFits file (sanePath (ds_pType d) file) = true | None => True end ->
  exists d', disassembleAt contents addr d = Ok d' tt /\ dis_ok d' /\ dis_same d d' /\
    ds_instruction d' = shownOf addr size inst text (symbolOf d addr) /\
    ds_source d' = sourceOf (ds_fileReader d) (ds_pType d) file line (symbolOf d addr).
Proof.
  intros Hd Ha Hsp i He Ht Hf Hl Hfit. unfold disassembleAt, sectionOf. rewrite bind_assoc, bind_get, Hsp, ret_bind.
  destruct (getInstruction_spec addr sp size inst text d Hd Ha Hsp He Ht) as (d1 & E1 & Hd1 & Hsame1 & Hi1 & Hr1).
  rewrite (bind_ok _ _ _ _ _ E1).
  destruct (getSrcLines_spec addr sp file line d1 Hd1 Ha) as (d2 & E2 & Hd2 & Hsame2 & Hi2 & Hs2);
    [by rewrite (dm_sections _ _ Hsame1)|done|done|by rewrite (dm_pType _ _ Hsame1)|].
  exists d2. split; [done|]. split; [done|]. split; [by apply (dis_same_trans d d1)|].
  rewrite Hi2, Hi1, Hs2, Hr1, (dm_pType _ _ Hsame1), (symbolOf_same d d1) by done. done.
Qed.
End described.

(** ** From an object file to its disassembler

    Reading a printed dump, sealing the reader and looking at an address: the instruction
    that was printed there, with its text, its symbol and its source line. *)

(** *** The names of the files of local symbols *)

(** Names that are not as long as the buffer of [getSrcLines]. *)
Definition short (f : option (list ascii)) : Prop := match f with Some name => (length name < 1024)%nat | None => True end.

(** What naming lines leaves of a section: all but the lines of no file. *)
Record named_only (sec sec' : ElfSection) : Prop := {
  no_bare : bare sec' = bare sec;
  no_code : sc_code sec' = sc_code sec;
  no_diss : sc_diss sec' = sc_diss sec;
  no_arrays : is_Some (sc_fName sec) -> is_Some (sc_line sec) -> is_Some (sc_fName sec') /\ is_Some (sc_line sec');
  no_sized : sized sec -> sized sec';
  no_text i text f line : contentAt sec (PText i) = Some (CText text f line) ->
    exists f' line', contentAt sec' (PText i) = Some (CText text f' line') /\ (is_Some f -> f' = f /\ line' = line) /\ (short f -> short f');
}.

Lemma named_only_refl sec : named_only sec sec.
Proof. split; try done. intros i text f line E. by exists f, line. Qed.
Lemma named_only_trans a b c : named_only a b -> named_only b c -> named_only a c.
Proof.
  intros H1 H2. split.
  - by rewrite (no_bare _ _ H2), (no_bare _ _ H1).
  - by rewrite (no_code _ _ H2), (no_code _ _ H1).
  - by rewrite (no_diss _ _ H2), (no_diss _ _ H1).
  - intros Hf Hl. destruct (no_arrays _ _ H1 Hf Hl). by apply (no_arrays _ _ H2).
  - intros Hs. by apply (no_sized _ _ H2), (no_sized _ _ H1).
  - intros i text f line E. destruct (no_text _ _ H1 _ _ _ _ E) as (f1 & l1 & E1 & K1 & S1).
    destruct (no_text _ _ H2 _ _ _ _ E1) as (f2 & l2 & E2 & K2 & S2). exists f2, l2. split; [done|]. split; [|by auto].
    intros Hf. destruct (K1 Hf) as [-> ->]. by apply K2.
Qed.

Lemma nameLine_ok name i sec : short (Some name) -> sized sec -> is_Some (sc_fName sec) -> is_Some (sc_line sec) -> 0 <= i < Z.of_nat (slots sec) ->
  exists sec', nameLine name i sec = Some sec' /\ named_only sec sec'.
Proof.
  intros Hsh Hsz [fn Ef] [ln El] Hi. pose proof Hsz as (H1 & H2 & H3 & H4). specialize (H3 _ El). specialize (H4 _ Ef).
  unfold nameLine. rewrite Ef. cbn [mbind option_bind].
  destruct (lookup_lt_is_Some_2 fn (Z.to_nat i)) as [old Eo]; [lia|]. rewrite Eo. cbn [mbind option_bind].
  destruct old as [f|]; [exists sec; split; [done|apply named_only_refl]|]. rewrite El. cbn [mbind option_bind].
  rewrite update_ok by lia. cbn [mbind option_bind]. eexists. split; [done|]. split; try done.
  - intros _. split_and!; cbn; [done|done| |]; intros l [= <-]; unfold slots; cbn; by rewrite length_insert.
  - intros j text f line. cbn [contentAt sc_diss sc_fName sc_line]. rewrite Ef, El.
    destruct (element (sc_diss sec) j) as [[text'|]|]; try done. cbn [mbind option_bind]. rewrite !element_insert by lia.
    assert (element (Some fn) i = Some None) as Ei by (unfold element; cbn; destruct (Z.leb_spec 0 i); [done|lia]).
    destruct (bool_decide_reflect (j = i)) as [->|Hne].
    + rewrite Ei. cbn [mbind option_bind]. destruct (element (Some ln) i); [|done]. cbn. intros [= <- <- <-].
      exists (Some name), 0. split; [done|]. split; [by intros [? [=]]|done].
    + intros E. exists f, line. by split_and!.
Qed.

Lemma nameLines_ok n name : short (Some name) -> forall i sec, sized sec -> is_Some (sc_fName sec) -> is_Some (sc_line sec) ->
  0 <= i -> i + Z.of_nat n <= Z.of_nat (slots sec) -> i + Z.of_nat n < 2 ^ 32 ->
  exists sec', nameLines n name i sec = Some sec' /\ named_only sec sec'.
Proof.
  intros Hsh. induction n as [|n IH]; intros i sec Hs Hf Hl H0 Hn H32; cbn [nameLines]; [exists sec; split; [done|apply named_only_refl]|].
  rewrite u32_small by lia. destruct (nameLine_ok name i sec Hsh Hs Hf Hl) as (sec1 & -> & H1); [lia|]. cbn [mbind option_bind].
  destruct (no_arrays _ _ H1 Hf Hl) as [Hf1 Hl1].
  destruct (IH (i + 1) sec1) as (sec2 & -> & H2); [by apply (no_sized _ _ H1)|done|done|lia| |lia|].
  { rewrite (slots_bare sec1 sec) by apply (no_bare _ _ H1). lia. }
  exists sec2. split; [done|]. by apply (named_only_trans _ sec1).
Qed.

(** A symbol with a file lies in a section whose lines are known. *)
Definition symbol_inside (store : list ElfSection) (x : Sym) : Prop :=
  match sy_srcFile x, sy_section x with
  | Some name, Some p =>
      match store !! p with
      | Some sec =>
          short (Some name) /\ (Z.land (sc_flags sec) sect_CODE <> 0 ->
          is_Some (sc_fName sec) /\ is_Some (sc_line sec) /\ sc_size sec + 1 < 2 ^ 31 /\ 0 <= sc_startAddr sec <= sy_address x /\
          sy_address x < 2 ^ 64 /\ sy_address x + 2 <= sc_startAddr sec + sc_size sec /\ 0 <= sy_size x /\
          sy_address x + sy_size x <= sc_startAddr sec + sc_size sec)
      | None => False
      end
  | _, _ => True
  end.

(** The sections of a store whose lines may have been named. *)
Definition stores_named (store store' : list ElfSection) : Prop := Forall2 named_only store store'.

Lemma stores_named_refl store : stores_named store store.
Proof. induction store; constructor; [apply named_only_refl|done]. Qed.
Lemma stores_named_trans a b c : stores_named a b -> stores_named b c -> stores_named a c.
Proof.
  unfold stores_named. intros H. revert c. induction H as [|x y a b Hxy Hab IH]; intros c Hc; inversion Hc; subst; constructor.
  - by apply (named_only_trans _ y).
  - by apply IH.
Qed.

Lemma nameSymbol_ok x store : Forall sized store -> symbol_inside store x ->
  exists store', nameSymbol x store = Some store' /\ stores_named store store'.
Proof.
  intros Hs Hx. pose proof (stores_named_refl store) as Hrefl.
  unfold nameSymbol, symbol_inside in *. destruct (sy_srcFile x) as [name|]; [|by exists store].
  destruct (sy_section x) as [p|]; [|by exists store]. destruct (store !! p) as [sec|] eqn:Ep; [|done]. cbn [mbind option_bind].
  destruct (Z.eqb_spec (Z.land (sc_flags sec) sect_CODE) 0); [by exists store|]. cbn [negb].
  destruct Hx as [Hsh Hx]. destruct (Hx ltac:(done)) as (Hf & Hl & H31 & Ha & H64 & H2 & Hz & Hend).
  assert (sized sec) as Hsec by (by eapply Forall_lookup_1).
  assert (Z.of_nat (slots sec) = (sc_size sec + 1) / 2) as Esl by (unfold slots; rewrite u32_small, Z2Nat.id by dlia; done).
  rewrite (u64_small (sy_address x - sc_startAddr sec)), (u32_small ((_ - _) / 2)), (u32_small (sy_size x)) by dlia.
  destruct (nameLines_ok (Nat.max 1 (Z.to_nat (sy_size x / 2))) name Hsh ((sy_address x - sc_startAddr sec) / 2) sec Hsec Hf Hl)
    as (sec' & -> & Hn); [dlia|rewrite Esl; dlia|dlia|].
  cbn [mbind option_bind]. eexists. split; [done|]. unfold stores_named.
  apply list.Forall2_same_length_lookup_2; [by rewrite length_insert|]. intros i a b Ea Eb.
  destruct (decide (p = i)) as [->|Hne].
  - rewrite list_lookup_insert_eq in Eb by (by apply lookup_lt_Some in Ea). simplify_eq. done.
  - rewrite list_lookup_insert_ne in Eb by done. simplify_eq. apply named_only_refl.
Qed.

Lemma named_lookup store store' p sec : stores_named store store' -> store !! p = Some sec ->
  exists sec', store' !! p = Some sec' /\ named_only sec sec'.
Proof. intros H E. by apply (list.Forall2_lookup_l _ _ _ _ _ H). Qed.

Lemma bare_fields a b : bare a = bare b -> sc_flags a = sc_flags b /\ sc_size a = sc_size b /\ sc_startAddr a = sc_startAddr b /\
  sc_endAddr a = sc_endAddr b /\ sc_vmaOffset a = sc_vmaOffset b.
Proof. by intros [= _ -> -> -> -> -> _ _]. Qed.

Lemma symbol_inside_named store store' x : stores_named store store' -> symbol_inside store x -> symbol_inside store' x.
Proof.
  intros Hn. unfold symbol_inside. destruct (sy_srcFile x); [|done]. destruct (sy_section x) as [p|]; [|done].
  destruct (store !! p) as [sec|] eqn:E; [|done]. destruct (named_lookup _ _ _ _ Hn E) as (sec' & -> & H).
  destruct (bare_fields _ _ (no_bare _ _ H)) as (-> & -> & -> & _ & _). intros [Hsh Hx]. split; [done|]. intros Hc. destruct (Hx Hc) as (Hf & Hl & Hr).
  destruct (no_arrays _ _ H Hf Hl). done || (split; [done|split; [done|exact Hr]]).
Qed.

Lemma named_sized store store' : stores_named store store' -> Forall sized store -> Forall sized store'.
Proof. induction 1 as [|a b store store' Hab H IH]; intros Hs; [done|]. apply list.Forall_cons in Hs as [Ha Hs]. constructor; [by apply (no_sized _ _ Hab)|by apply IH]. Qed.

Lemma fixup_ok syms : forall store, Forall sized store -> Forall (symbol_inside store) syms ->
  exists store', fixupSourceFiles syms store = Some store' /\ stores_named store store'.
Proof.
  induction syms as [|x syms IH]; intros store Hs Hx; cbn [fixupSourceFiles]; [exists store; split; [done|apply stores_named_refl]|].
  apply list.Forall_cons in Hx as [Hx Hxs]. destruct (nameSymbol_ok x store Hs Hx) as (store1 & -> & H1). cbn [mbind option_bind].
  destruct (IH store1) as (store2 & -> & H2); [by eapply named_sized| |].
  { apply (list.Forall_impl _ _ _ Hxs). intros y. by apply symbol_inside_named. }
  exists store2. split; [done|]. by apply (stores_named_trans _ store1).
Qed.

(** What is found at an address, after the names. *)
Lemma shows_named store store' l addr long v text f line : stores_named store store' ->
  shows (sectionsAt store l) addr long v text f line ->
  exists f' line', shows (sectionsAt store' l) addr long v text f' line' /\ (is_Some f -> f' = f /\ line' = line) /\ (short f -> short f').
Proof.
  intros Hn (sp & Hsp & Hi & Ht & Hc & Hc2).
  assert (exists sp', List.find (hasAddress addr) (sectionsAt store' l) = Some sp' /\ named_only sp sp') as (sp' & Hsp' & H).
  { clear - Hn Hsp. induction l as [|p l IH]; [done|]. unfold sectionsAt in *. cbn [omap list_omap] in *.
    destruct (store !! p) as [a|] eqn:E.
    - destruct (named_lookup _ _ _ _ Hn E) as (b & -> & Hab). cbn [List.find] in *.
      assert (hasAddress addr b = hasAddress addr a) as -> by (unfold hasAddress, inSection, codeSection; cbn;
        by destruct (bare_fields _ _ (no_bare _ _ Hab)) as (_ & _ & -> & -> & ->)).
      destruct (hasAddress addr a); [|by apply IH]. injection Hsp as ->. by exists b.
    - apply IH in Hsp. destruct (store' !! p) as [b|] eqn:E'; [|done]. exfalso.
      apply (list.Forall2_lookup_r _ _ _ _ _ Hn) in E' as (a & Ea & _). congruence. }
  assert (codeIndex (codeSection sp') addr = codeIndex (codeSection sp) addr) as Eidx.
  { unfold codeIndex, codeSection. cbn. by destruct (bare_fields _ _ (no_bare _ _ H)) as (_ & _ & -> & _ & ->). }
  destruct (no_text _ _ H _ _ _ _ Ht) as (f' & line' & Ht' & Hk). exists f', line'. split; [|done].
  exists sp'. rewrite Eidx. split; [done|]. cbn [contentAt] in Hc, Hc2 |- *. rewrite (no_code _ _ H). split_and!; try done.
  rewrite <-Hi. unfold instructionAt, halfword, codeSection. cbn. by rewrite (no_code _ _ H).
Qed.

(** The encoding, where there is an instruction. *)
Lemma encoding_of sec i v : instructionAt (codeSection sec) i = Some (inr v) ->
  exists size, encodingAt sec i = Some (inr (size, v)) /\ decodeInstructionSize v = Some size.
Proof.
  unfold instructionAt, encodingAt.
  assert (forall j, halfword (codeSection sec) j = element (sc_code sec) j) as E.
  { intros j. unfold halfword, element. cbn. destruct (sc_code sec); cbn; by destruct (0 <=? j). }
  rewrite !E. destruct (element (sc_code sec) i) as [h|]; [|done]. cbn [mbind option_bind]. unfold decodeInstructionSize.
  destruct (Z.land h 3 =? 3) eqn:E3.
  - destruct (Z.land h 31 =? 31) eqn:E31; [done|]. change (16 <? 32) with true. cbv iota.
    destruct (element (sc_code sec) (i + 1)) as [g|]; [|done]. cbn [mbind option_bind]. intros [= <-]. exists 32. split; [done|].
    assert (forall m, 0 <= m -> m <= 16 -> Z.land (Z.lor h (u32 (Z.shiftl g 16))) (Z.ones m) = Z.land h (Z.ones m)) as Hm.
    { intros m Hm1 Hm2. apply Z.bits_inj'. intros j Hj. rewrite !Z.land_spec, Z.lor_spec. unfold u32, wrap. destruct (Z.ltb_spec j m).
      - rewrite Z.mod_pow2_bits_low by lia. rewrite Z.shiftl_spec by lia. rewrite (Z.testbit_neg_r g) by lia. by rewrite orb_false_r.
      - rewrite Z.ones_spec_high by lia. by rewrite !andb_false_r. }
    change 3 with (Z.ones 2) at 1. change 31 with (Z.ones 5) at 1. rewrite !Hm by lia. change (Z.ones 2) with 3. change (Z.ones 5) with 31.
    by rewrite E3, E31.
  - change (16 <? 16) with false. cbv iota. intros [= <-]. exists 16. by rewrite E3.
Qed.

(** *** The symbols of a dump *)

Section loaded.
Context (vmaOffset : Z) (d : Dump).

(** The symbols with the files that they are local to. *)
Fixpoint filed (file : option (list ascii)) (ds : list DumpSymbol) : list (DumpSymbol * option (list ascii)) :=
  match ds with
  | [] => []
  | x :: ds => (x, if negb (Z.land (symbolFlags x) symFile =? 0) then None else fileAfter x file) :: filed (fileAfter x file) ds
  end.

Definition hasInst (l : DumpLine) : bool := match l with DL_inst _ _ _ _ _ _ _ => true | _ => false end.

(** A symbol of a section lies in it; one of a file, in a section of which there is a
    disassembly. *)
Definition symbol_fits (x : DumpSymbol * option (list ascii)) : Prop :=
  0 <= dy_address x.1 /\ dy_address x.1 + vmaOffset < 2 ^ 63 /\
  match keptNamed vmaOffset d (dy_section x.1) with
  | Some k =>
      0 <= sc_startAddr k <= dy_address x.1 /\ 0 <= dy_size x.1 /\
      dy_address x.1 + dy_size x.1 <= sc_startAddr k + sc_size k /\ sc_startAddr k + sc_size k < 2 ^ 64 /\
      match x.2 with
      | Some _ => dy_address x.1 + 2 <= sc_startAddr k + sc_size k /\
          Exists (fun b => db_name b = dy_section x.1 /\ existsb hasInst (db_lines b) = true) (d_blocks d)
      | None => True
      end
  | None => True
  end.
Definition symbols_ok : Prop := d_symbols d <> [] /\ 0 <= vmaOffset /\ Forall symbol_fits (filed None (d_symbols d)).

Definition symOf (store : list ElfSection) (l : list nat) (x : DumpSymbol * option (list ascii)) : Sym :=
  let sec := getSectionByName store l (dy_section x.1) in {|
  sy_name := dy_name x.1; sy_flags := symbolFlags x.1; sy_section := sec;
  sy_vmaOffset := default vmaOffset (i ← sec; sc_vmaOffset <$> store !! i);
  sy_address := dy_address x.1; sy_size := dy_size x.1; sy_srcFile := x.2 |}.
Lemma symbolsOf_filed store l ds : forall file, symbolsOf vmaOffset store l ds file = symOf store l <$> filed file ds.
Proof. induction ds as [|x ds IH]; intros file; cbn [symbolsOf filed fmap list_fmap]; [done|]. by rewrite IH. Qed.

Lemma filed_short w x f ds : Forall (symbol_ok w) ds -> forall file, short file -> (x, f) ∈ filed file ds -> short f.
Proof.
  induction 1 as [|y ds Hy Hds IH]; intros file Hf; cbn [filed]; [by intros ?%elem_of_nil|].
  assert (short (fileAfter y file)) as Hs.
  { unfold fileAfter. destruct (negb _); [destruct Hy as (_ & _ & _ & _ & _ & _ & _ & Hl); cbn; lia|by destruct (_ || _)]. }
  intros [[= -> ->]|H]%elem_of_cons; [by destruct (negb _)|by eapply IH].
Qed.

Lemma keptNamed_fields name k : keptNamed vmaOffset d name = Some k ->
  sc_vmaOffset k = vmaOffset /\ sc_endAddr k = u64 (sc_startAddr k + sc_size k - 1).
Proof.
  intros [Hin _]%List.find_some. unfold kept in Hin. apply in_rev, list_elem_of_In, list_elem_of_omap in Hin as (x & _ & E).
  unfold ObjDumpRead.sectionOf in E. destruct (_ || _); [|done]. by injection E as <-.
Qed.

Lemma section_named store l p name : places store l (kept vmaOffset d) -> getSectionByName store l name = Some p ->
  exists sec, store !! p = Some sec /\ keptNamed vmaOffset d name = Some (bare sec).
Proof.
  intros Hp. rewrite byName_find. intros E. destruct (findPlace_prop _ _ _ _ E) as (sec & Hsec & _). exists sec. split; [done|].
  unfold keptNamed. rewrite (findPlace_places _ _ _ _ Hp), E. cbn [mbind option_bind]. by rewrite Hsec.
Qed.

Section symbols.
Context (store : list ElfSection) (l : list nat) (Hplaces : places store l (kept vmaOffset d)) (Hsyms : symbols_ok).
Let syms : list Sym := rev (symbolsOf vmaOffset store l (d_symbols d) None).

Lemma sym_filed x : x ∈ syms -> exists y, y ∈ filed None (d_symbols d) /\ x = symOf store l y /\ symbol_fits y.
Proof using Hsyms.
  intros Hx. unfold syms in Hx. rewrite symbolsOf_filed in Hx. apply list_elem_of_In, in_rev, list_elem_of_In in Hx.
  apply list_elem_of_fmap in Hx as (y & -> & Hy). exists y. split_and!; [done..|]. destruct Hsyms as (_ & _ & H).
  rewrite List.Forall_forall in H. by apply H, list_elem_of_In.
Qed.

Lemma sym_vma y : sy_vmaOffset (symOf store l y) = vmaOffset.
Proof using Hplaces.
  cbn. destruct (getSectionByName store l _) as [p|] eqn:E; [|done]. cbn [mbind option_bind].
  destruct (section_named _ _ _ _ Hplaces E) as (sec & -> & Hk). cbn. by destruct (keptNamed_fields _ _ Hk) as [H _].
Qed.

Lemma syms_low : Forall lowSym syms.
Proof using Hplaces Hsyms.
  apply list.Forall_forall. intros x (y & _ & -> & Hf)%sym_filed. unfold lowSym. rewrite sym_vma. cbn.
  destruct Hf as (? & ? & _), Hsyms as (_ & ? & _). lia.
Qed.
Lemma syms_placed : Forall (placed store) syms.
Proof using Hplaces Hsyms.
  apply list.Forall_forall. intros x (y & _ & -> & _)%sym_filed. unfold placed. cbn.
  destruct (getSectionByName store l _) as [p|] eqn:E; [|done].
  destruct (section_named _ _ _ _ Hplaces E) as (sec & -> & _). by eexists.
Qed.
End symbols.

Lemma linesCells_text sec ls : existsb hasInst ls = true -> forall cur, exists i x, (PText i, x) ∈ linesCells sec cur ls.
Proof.
  induction ls as [|l ls IH]; [done|]. cbn [existsb linesCells]. intros H cur. destruct (hasInst l) eqn:El.
  - destruct l; try done. cbn [lineCells]. eexists _, _. apply elem_of_app. left. apply elem_of_cons. by left.
  - destruct (IH H (lineNext l cur)) as (i & x & Hx). exists i, x. apply elem_of_app. by right.
Qed.

(** A section of which there is a disassembly has its lines. *)
Lemma section_lines s s' p sec b : layout_ok vmaOffset d -> reads_dump vmaOffset d s s' -> b ∈ d_blocks d ->
  existsb hasInst (db_lines b) = true -> getSectionByName (od_store s') (od_sp s') (db_name b) = Some p ->
  od_store s' !! p = Some sec -> is_Some (sc_fName sec) /\ is_Some (sc_line sec) /\ sc_size sec + 1 < 2 ^ 31.
Proof.
  intros (Hl & _) Hr Hb Hi Hp Hsec. rewrite List.Forall_forall in Hl. specialize (Hl b ltac:(by apply list_elem_of_In)).
  unfold block_inside in Hl. destruct (section_named _ _ _ _ (rd_places _ _ _ _ Hr) Hp) as (sec2 & Hsec2 & Hk).
  rewrite Hsec in Hsec2. apply (inj Some) in Hsec2 as <-. rewrite Hk in Hl. destruct Hl as (H31 & _ & _).
  destruct (linesCells_text (bare sec) _ Hi (None, 0)) as (i & x & Hx).
  pose proof (rd_cells _ _ _ _ Hr b (PText i) x Hb) as Hc. unfold blockCells in Hc. rewrite Hk in Hc. specialize (Hc Hx).
  unfold cellOf in Hc. rewrite Hp in Hc. cbn [mbind option_bind] in Hc. rewrite Hsec in Hc. cbn [mbind option_bind contentAt] in Hc.
  destruct (element (sc_diss sec) i) as [[text|]|]; try done. cbn [mbind option_bind] in Hc.
  destruct (sc_fName sec) as [fn|]; [|done]. destruct (sc_line sec) as [ln|].
  - split_and!; [by eexists..|exact H31].
  - by destruct (element (Some fn) i).
Qed.

Lemma symbols_inside `{!Qsort} `{!QsortLaws} s s' t w : layout_ok vmaOffset d -> reads_dump vmaOffset d s s' -> symbols_ok ->
  Forall (symbol_ok w) (d_symbols d) ->
  table_ok (od_store s') (rev (symbolsOf vmaOffset (od_store s') (od_sp s') (d_symbols d) None)) t ->
  Forall (symbol_inside (od_store s')) (st_symLst t).
Proof.
  intros Hl Hr Hs Hw Ht. pose proof (rd_places _ _ _ _ Hr) as Hp.
  pose proof (sym_filed (od_store s') (od_sp s') Hs) as Hf. set (syms := rev _) in *.
  apply list.Forall_forall. intros x Hx. pose proof Hx as [i Hi]%list_elem_of_lookup.
  destruct (unsized_lookup _ _ _ _ (to_unsized _ _ _ Ht) Hi) as (x0 & Hx0%list_elem_of_lookup_2 & E0).
  destruct (Hf x0 Hx0) as (y & Hy & -> & Hfit). unfold symbol_inside.
  rewrite (unsized_eq sy_srcFile _ _ (fun _ _ => eq_refl) E0). rewrite (unsized_eq sy_address _ _ (fun _ _ => eq_refl) E0).
  destruct (sy_section x) as [p|] eqn:Ep; [|by destruct (sy_srcFile _)].
  rewrite (unsized_eq sy_section _ _ (fun _ _ => eq_refl) E0) in Ep. cbn [symOf sy_srcFile sy_address sy_section] in *.
  destruct (section_named _ _ _ _ Hp Ep) as (sec & Hsec & Hk).
  destruct y as [y [name|]]; [|done]. cbn [fst snd] in *. rewrite Hsec.
  destruct (keptNamed_fields _ _ Hk) as [Hvma Hend]. pose proof Hfit as (Hy0 & H63 & Hfk). cbn [fst snd] in *. rewrite Hk in Hfk.
  destruct Hfk as (Hst & Hsz & Hen & H64 & H2 & (b & Hb & En & Hin)%List.Exists_exists). cbn in Hst, Hen, H64, H2, Hend.
  split; [by apply (filed_short w y _ _ Hw None)|]. intros _.
  rewrite <-En in Ep. destruct (section_lines s s' p sec b Hl Hr ltac:(by apply list_elem_of_In) Hin Ep Hsec) as (Hfn & Hln & H31).
  rewrite En in Ep.
  destruct (table_inside (od_store s') p sec vmaOffset syms Hsec (proj1 (proj2 Hs))) with (t := t) (x := x) as [Hz He]; [|done..| |].
  - intros z (u & Hu & -> & Hfu)%Hf Eu. cbn [symOf sy_section] in Eu. destruct (section_named _ _ _ _ Hp Eu) as (sec2 & Hsec2 & Hk2).
    rewrite Hsec in Hsec2. apply (inj Some) in Hsec2 as <-. destruct Hfu as (? & ? & Hfu). rewrite Hk2 in Hfu. cbn in Hfu.
    split; [by apply sym_vma|]. cbn. lia.
  - by rewrite (unsized_eq sy_section _ _ (fun _ _ => eq_refl) E0).
  - rewrite (unsized_eq sy_address _ _ (fun _ _ => eq_refl) E0) in He. cbn in He. split_and!; try done; lia.
Qed.

(** *** The reader *)

Definition sectionsOf (f : ElfFile) : list ElfSection := sectionsAt (im_store (ef_image f)) (im_codeSectionLst (ef_image f)).

Definition emptyImage (archSize : Z) : Image :=
  {| im_archSize := archSize; im_store := []; im_codeSectionLst := []; im_symLst := []; im_srcFiles := [] |}.

Lemma reader_new fuel garbage reads : dump_ok fuel d -> layout_ok vmaOffset d ->
  holds {| pp_buffer := []; pp_reads := reads |} (dumpText d) ->
  exists s', reads_dump vmaOffset d (dumpOf [] elfType_32_little (emptyImage garbage)) s' /\
    newElfReader fuel garbage vmaOffset (Some (ExecPipe reads)) =
      Ok {| ef_status := DQERR_OK; ef_sealed := false; ef_bitsPerAddress := Some (if d_64 d then 64 else 32);
            ef_image := imageOf s'; ef_symtab := None |} tt.
Proof.
  intros Hd Hl Hh. destruct (dump_read vmaOffset d fuel _ (dumpOf [] elfType_32_little (emptyImage garbage)) Hd Hl ltac:(constructor) Hh)
    as (s' & E & Hr). exists s'. split; [done|]. unfold newElfReader, mbind, M_bind, constructed, onImage, zoom, dumpElf, runDump.
  cbn [ef_image]. change (dumpOf reads _ _) with (set_pipe {| pp_buffer := []; pp_reads := reads |} (dumpOf [] elfType_32_little (emptyImage garbage))).
  rewrite E. cbn. rewrite (rd_arch _ _ _ _ Hr). by destruct (d_64 d).
Qed.

Lemma reader_sealed `{!Qsort} `{!QsortLaws} fuel s s' : dump_ok fuel d -> layout_ok vmaOffset d -> symbols_ok -> od_symLst s = [] ->
  reads_dump vmaOffset d s s' ->
  exists f t store', seal {| ef_status := DQERR_OK; ef_sealed := false; ef_bitsPerAddress := Some (if d_64 d then 64 else 32);
      ef_image := imageOf s'; ef_symtab := None |} = Ok f tt /\
    ef_status f = DQERR_OK /\ ef_bitsPerAddress f = Some (if d_64 d then 64 else 32) /\ ef_symtab f = Some t /\
    table_ok (od_store s') (rev (symbolsOf vmaOffset (od_store s') (od_sp s') (d_symbols d) None)) t /\
    stores_named (od_store s') store' /\ im_archSize (ef_image f) = (if d_64 d then 64 else 32) /\
    im_store (ef_image f) = store' /\ im_codeSectionLst (ef_image f) = od_codeSectionLst s'.
Proof.
  intros Hd Hl Hs Hnil Hr. pose proof (rd_places _ _ _ _ Hr) as Hp.
  pose proof (syms_low _ _ Hp Hs) as Hlow. pose proof (syms_placed _ _ Hp Hs) as Hpl.
  pose proof (rd_symbols _ _ _ _ Hr) as Hsy. rewrite Hnil, app_nil_r in Hsy. set (syms := rev _) in *.
  assert (exists x l, syms = x :: l) as (x & l & Esyms).
  { destruct syms as [|x l] eqn:E; [|by exists x, l]. exfalso. destruct Hs as [Hs _]. apply Hs.
    apply (f_equal length) in E. unfold syms in E. rewrite symbolsOf_filed, length_rev, length_fmap in E.
    by destruct (d_symbols d). }
  destruct (newSymtab_ok (od_store s') syms Hlow Hpl) as (t & Et & Ht).
  assert (Forall (symbol_ok (width d)) (d_symbols d)) as Hw by apply Hd.
  pose proof (symbols_inside _ _ _ _ Hl Hr Hs Hw Ht) as Hin.
  destruct (fixup_ok _ _ (rd_sized _ _ _ _ Hr) Hin) as (store' & Ef & Hn).
  eexists _, t, store'. unfold seal, mbind, M_bind, get, modify. cbn [ef_sealed set_sealed ef_image imageOf im_symLst].
  rewrite Hsy, Esyms, <-Esyms. unfold lift_opt. cbn [im_store imageOf ef_image]. rewrite Et. cbn. rewrite Ef. split; [done|].
  split_and!; try done. cbn. apply (rd_arch _ _ _ _ Hr).
Qed.
End loaded.

(** *** The disassembler *)

Lemma rightLength_size (long : bool) v : rightLength long v -> decodeInstructionSize v = Some (if long then 32 else 16).
Proof.
  unfold rightLength, decodeInstructionSize. change 3 with (Z.ones 2) at 3. change 31 with (Z.ones 5) at 2.
  rewrite !Z.land_ones by lia. change (2 ^ 2) with 4. change (2 ^ 5) with 32. destruct long.
  - intros (_ & -> & H). change (3 =? Z.ones 2) with true. change (Z.ones 5) with 31. destruct (Z.eqb_spec (v mod 32) 31); done.
  - intros (_ & H). change (Z.ones 2) with 3. destruct (Z.eqb_spec (v mod 4) 3); done.
Qed.

Lemma instruction_described contents store syms addr long v text f line ds : dis_ok contents store syms ds -> addr <> 0 ->
  shows (ds_sectionLst ds) addr long v text f line -> rightLength long v -> short f ->
  exists ds', disassembleAt contents addr ds = Ok ds' tt /\ dis_ok contents store syms ds' /\ dis_same ds ds' /\
    ds_instruction ds' = shownOf addr (if long then 32 else 16) v (Some text) (Described.symbolOf ds addr) /\
    ds_source ds' = sourceOf contents (ds_fileReader ds) (ds_pType ds) f line (Described.symbolOf ds addr).
Proof.
  intros Hd Ha (sp & Hsp & Hi & Ht & _) Hlen Hf. destruct (encoding_of sp _ v Hi) as (size & He & Hsize).
  rewrite (rightLength_size long v Hlen) in Hsize. apply (inj Some) in Hsize as <-. cbn [contentAt] in Ht.
  destruct (element (sc_diss sp) _) as [[text'|]|] eqn:E1; try done. cbn [mbind option_bind] in Ht.
  destruct (element (sc_fName sp) _) as [f'|] eqn:E2; [|done]. destruct (element (sc_line sp) _) as [line'|] eqn:E3; [|done].
  injection Ht as -> -> ->. apply (disassembleAt_spec contents store syms addr sp _ _ (Some text) f line ds Hd Ha Hsp He E1 E2 E3).
  destruct f as [name|]; [|done]. unfold saneFits. cbn in Hf. by destruct (Nat.eqb_spec (length name) 2048); [lia|].
Qed.

Lemma dis_new contents store syms t g secs cut root pt : table_ok store syms t ->
  dis_ok contents store syms (set_pType pt (set_fileReader (subSrcPath cut root newFileReader) (newDisassembler g t secs))).
Proof.
  intros Ht. split; [done| |constructor|done]. by apply subSrcPath_ok, newFileReader_ok.
Qed.

Lemma marked_short w l c ls : Forall (line_ok w) ls -> forall cur, short cur.1 -> (l, c) ∈ marked cur ls -> short c.1.
Proof.
  induction 1 as [|x ls Hx Hls IH]; intros cur Hc; cbn [marked]; [by intros ?%elem_of_nil|].
  intros [[= -> ->]|H]%elem_of_cons; [done|]. apply (IH (lineNext x cur)); [|done].
  destruct x; cbn [lineNext fst]; try done. by destruct Hx as (_ & ? & _).
Qed.
