(* ===== verification/Maps.v ===== *)
(** * Processes (src/trace.cpp, [parsePidList], [parseMappingFile] and the [build] functions)

    The processes of a trace are built from one ELF file, or from a list of pids with their
    mapping files, in the format of /proc/pid/maps.  What the files contain and what
    running the objdump program on them comes to are arguments.  What a build that fails has
    already put into the array of processes is not modelled: the caller gives up. *)

From stdpp Require Import strings.
From Stdlib Require Import Ascii.
From Stdlib Require String.
From S2P Require Import Prelude Nexus Memory ObjDump ObjCode Symbols SrcFiles ElfFile NextAddr NextInstr Disasm CText PropFile.

(** A pointer into a string is what is left of it, with its NUL. *)
#[local] Abbreviation TM := (M (list ascii) DQErr).

Definition peek : TM ascii := l ← get; lift_opt (head l).
Definition move (n : nat) : TM unit := modify (drop n).
Definition syntax {A} : TM A := throw DQERR_ERR.
(** [strtoll] and its check that there is a number. *)
Definition number (base : Z) : TM Z :=
  l ← get; let '(x, n) := strtol base l in if (n =? 0)%nat then syntax else move n ≫= fun _ => mret x.
Definition skip (f : ascii -> bool) : TM unit := modify (fun l => drop (countWhile f l) l).
Definition isc (c d : ascii) : bool := bool_decide (c = d).

(** ** Lists of pids *)

Fixpoint pidNumbers (n : nat) : TM (list Z) :=
  match n with
  | O => mret []
  | S n =>
      x ← number 10;
      c ← peek;
      if negb (isc c ",") && negb (isc c NUL) then syntax
      else move 1 ≫= fun _ => l ← pidNumbers n; mret (i32 x :: l)
  end.

Definition commas (l : list ascii) : nat := length (List.filter (fun c => isc c ",") l).

(** The pids, [None] for the error. *)
Definition parsePidList (value : option (list ascii)) : Res (list ascii) DQErr (list Z) :=
  match value with
  | Some ((_ :: _) as v) => pidNumbers (S (commas v)) (v ++ [NUL])
  | _ => Ok [] []
  end.

(** ** Mapping files *)

(** An element of the list that the parser makes, with its name. *)
Record MapEntry := { me_name : list ascii; me_eType : ElfType; me_map : AddressMap }.

Definition notSpace (c : ascii) : bool := negb (isc c " ") && negb (isc c NUL).
Definition inLine (c : ascii) : bool := negb (isc c "010") && negb (isc c "013") && negb (isc c NUL).
Definition lineBreak (c : ascii) : bool := isc c "010" || isc c "013".

(** Up to the end of the line, or to a digit 0: the name is copied to an array of 1024
    characters. *)
Definition inName (c : ascii) : bool := negb (isc c "010") && negb (isc c "013") && negb (isc c "0").
Definition pathName : TM (list ascii) :=
  l ← get;
  c ← peek;
  let n := countWhile inName l in
  _ ← lift_opt (l !! n);
  let name := (if isc c "/" then ["."%char] else []) ++ take n l in
  if (length name <? 1024)%nat then mret (cstring name) else undef.

Definition littleType (archSize : Z) : option ElfType :=
  if archSize =? 0 then Some elfType_32_little
  else if archSize =? 32 then Some elfType_32_little
  else if archSize =? 64 then Some elfType_64_little
  else None.
Definition binaryType (archSize : Z) : option ElfType :=
  if archSize =? 32 then Some elfType_32_binary else if archSize =? 64 then Some elfType_64_binary else None.

(** [*start] is not the end of the text. *)
Definition notEnd : TM unit := c ← peek; if isc c NUL then syntax else mret tt.

Section mapping.
Context (archSize : Z) (vdsoName : option (list ascii)).

Definition mapEntry (name : list ascii) (startAddr endAddr : Z) : TM MapEntry :=
  let entry n t isBlob := {| me_name := n; me_eType := t;
    me_map := {| am_isBlob := isBlob; am_startAddr := startAddr; am_endAddr := endAddr |} |} in
  if strcasecmp (chars "[vdso]") name then
    let n := default (chars "vdso") vdsoName in
    if negb (length n <? 1024)%nat then undef
    else match binaryType archSize with Some t => mret (entry n t true) | None => syntax end
  else match littleType archSize with Some t => mret (entry name t false) | None => syntax end.

(** What follows the x of an executable mapping; [start] stays at the name, if it is not
    at the end of the text. *)
Definition mapFile (startAddr endAddr : Z) : TM MapEntry :=
  move 1 ≫= fun _ => skip notSpace ≫= fun _ => skip (isc " ") ≫= fun _ => notEnd ≫= fun _ =>
  number 16 ≫= fun _ => skip (isc " ") ≫= fun _ => notEnd ≫= fun _ =>
  skip notSpace ≫= fun _ => notEnd ≫= fun _ => move 1 ≫= fun _ =>
  number 10 ≫= fun _ => skip (isc " ") ≫= fun _ => notEnd ≫= fun _ =>
  name ← pathName;
  e ← mapEntry name startAddr endAddr;
  c ← peek;
  (if isc c NUL then mret tt else move 1) ≫= fun _ =>
  mret e.

(** One line; [None] if the mapping is not executable. *)
Definition mapLine : TM (option MapEntry) :=
  startAddr ← number 16;
  c ← peek;
  if negb (isc c "-") then syntax
  else
    move 1 ≫= fun _ =>
    endAddr ← number 16;
    c ← peek;
    if negb (isc c " ") then syntax
    else
      move 1 ≫= fun _ =>
      c ← peek;
      if negb (isc c "r") && negb (isc c "-") then syntax
      else
        move 1 ≫= fun _ =>
        c ← peek;
        if negb (isc c "w") && negb (isc c "-") then syntax
        else
          move 1 ≫= fun _ =>
          c ← peek;
          e ← (if isc c "x" then e ← mapFile (u64 startAddr) (u64 endAddr); mret (Some e) else mret None);
          skip inLine ≫= fun _ =>
          skip lineBreak ≫= fun _ =>
          mret e.

Fixpoint mapLines (n : nat) : TM (list MapEntry) :=
  match n with
  | O => fun _ => NoFuel
  | S n =>
      c ← peek;
      if isc c NUL then mret []
      else
        e ← mapLine;
        l ← mapLines n;
        mret (match e with Some e => e :: l | None => l end)
  end.

(** The mappings that are executable; their number is [codeSections].  [None]: the file
    cannot be read.  Every line has more than one character. *)
Definition parseMappingFile (file : option (list ascii)) : Res (list ascii) DQErr (list MapEntry) :=
  match file with
  | None => Err [] DQERR_ERR
  | Some text =>
      (skip (fun c => lineBreak c || isc c " ") ≫= fun _ => mapLines (S (length text))) (text ++ [NUL])
  end.
End mapping.

(** ** Processes *)

(** [struct process], as far as it is built here. *)
Record Built := {
  bp_pid : Z;
  bp_elfName : option (list ascii);
  bp_elfReader : option ElfFile;
  bp_disassembler : option Disassembler;
}.

(** The members of [Trace] that are used; [processes] is null or an array. *)
Record Builder := {
  tb_status : DQErr;
  tb_archSize : Z;
  tb_vdsoName : option (list ascii);
  tb_processes : option (list Built);
}.
Definition set_tb_status e (b : Builder) : Builder := {|
  tb_status := e; tb_archSize := tb_archSize b; tb_vdsoName := tb_vdsoName b; tb_processes := tb_processes b |}.
Definition set_tb_archSize n (b : Builder) : Builder := {|
  tb_status := tb_status b; tb_archSize := n; tb_vdsoName := tb_vdsoName b; tb_processes := tb_processes b |}.
Definition set_processes l (b : Builder) : Builder := {|
  tb_status := tb_status b; tb_archSize := tb_archSize b; tb_vdsoName := tb_vdsoName b; tb_processes := l |}.

#[local] Abbreviation BM := (M Builder DQErr).
Definition buildFails {A} : BM A := modify (set_tb_status DQERR_ERR) ≫= fun _ => throw DQERR_ERR.

(** A call on an [ElfReader], its errors being those of its caller. *)
Definition tryElf (r : Res ElfFile DQErr unit) : BM ElfFile :=
  match r with
  | Ok f _ => mret f
  | Err _ _ => buildFails
  | Undef => undef
  | NoFuel => fun _ => NoFuel
  end.

Section build.
Context `{!Qsort} (fuel : nat) (objdump : list ascii -> ElfType -> Z -> Exec) (maps : list ascii -> option (list ascii)).
Context (garbage : Z * (Shown * SourceInfo)).

Definition newReader (name : list ascii) (vmaOffset : Z) : BM ElfFile :=
  tryElf (newElfReader fuel garbage.1 vmaOffset (Some (objdump name elfType_32_little 0))).

(** What the objdump program is started with for the file of a mapping. *)
Definition execOf (f : ElfFile) (e : MapEntry) : Exec :=
  if am_isBlob (me_map e)
  then objdump (me_name e) (if im_archSize (ef_image f) =? 32 then elfType_32_binary else elfType_64_binary) (am_startAddr (me_map e))
  else objdump (me_name e) elfType_32_little 0.
Fixpoint addMappings (l : list MapEntry) (f : ElfFile) : BM ElfFile :=
  match l with
  | [] => mret f
  | e :: l => f ← tryElf (addElfFile fuel (Some (execOf f e)) (Some (me_map e)) f); addMappings l f
  end.

(** Sealing the reader and making the disassembler. *)
Definition finish (pid : Z) (name : list ascii) (f : ElfFile) : BM Built :=
  f ← tryElf (seal f);
  match ef_symtab f, im_codeSectionLst (ef_image f) with
  | Some t, _ :: _ =>
      mret {| bp_pid := pid; bp_elfName := Some name; bp_elfReader := Some f;
              bp_disassembler := Some (newDisassembler garbage.2 t
                (sectionsAt (im_store (ef_image f)) (im_codeSectionLst (ef_image f)))) |}
  | _, _ => buildFails
  end.

(** The first mapping is the program; without one the list is null. *)
Definition buildProcess (pid : Z) (mapFileName : list ascii) : BM Built :=
  if pid <? 0 then buildFails
  else
    b ← get;
    match parseMappingFile (tb_archSize b) (tb_vdsoName b) (maps mapFileName) with
    | Ok _ [] => undef
    | Ok _ (e :: l) =>
        f ← newReader (me_name e) (if (2 <? length (e :: l))%nat then am_startAddr (me_map e) else 0);
        (if tb_archSize b =? 0 then modify (set_tb_archSize (im_archSize (ef_image f))) else mret tt) ≫= fun _ =>
        f ← addMappings l f;
        finish pid (me_name e) f
    | Err _ _ => buildFails
    | Undef => undef
    | NoFuel => fun _ => NoFuel
    end.

Definition buildElfProcess (elfName : option (list ascii)) : BM unit :=
  b ← get;
  match tb_processes b, elfName with
  | None, Some name =>
      f ← newReader name 0;
      p ← finish (-1) name f;
      modify (set_processes (Some [p]))
  | _, _ => buildFails
  end.

Definition noProcess : Built := {| bp_pid := -2; bp_elfName := None; bp_elfReader := None; bp_disassembler := None |}.

(** The turns of the loop of [buildMFProcesses], from the [i]-th on; [startIndex] is a place
    in the list of names, which [endIndex] is not. *)
Fixpoint buildList (nameList : list ascii) (n i startIndex : nat) : BM unit :=
  match n with
  | O => mret tt
  | S n =>
      let '(x, k) := strtol 10 (drop startIndex nameList) in
      c ← lift_opt (nameList !! (startIndex + k)%nat);
      if negb (isc c ",") then buildFails
      else
        let pid := i32 x in
        let start := S k in
        let len := countWhile (fun c => negb (isc c ";") && negb (isc c NUL)) (drop start nameList) in
        let e := (start + len)%nat in
        if (len =? 0)%nat then buildFails
        else if (1024 <=? len)%nat then undef
        else
          p ← buildProcess pid (take len (drop start nameList));
          b ← get;
          ps ← lift_opt (tb_processes b);
          modify (set_processes (Some (<[i := p]> ps))) ≫= fun _ =>
          c ← lift_opt (nameList !! e);
          buildList nameList n (S i) (if isc c NUL then e else S e)
  end.

Definition buildMFProcesses (nameList : option (list ascii)) : BM unit :=
  b ← get;
  match tb_processes b, nameList with
  | None, Some names =>
      let n := commas names in
      if (n =? 0)%nat then buildFails
      else modify (set_processes (Some (replicate n noProcess))) ≫= fun _ => buildList (names ++ [NUL]) n 0 0
  | _, _ => buildFails
  end.
End build.
