(* ===== verification/Configure.v ===== *)
(** * Setting a trace up (src/trace.cpp, [Trace::configure] and the constructors)

    From the settings to a decoder that has not read anything: the trace file, the
    processes, the printer and the cycle-accurate trace.  What the files contain, what
    the objdump program prints and whether the converters can create their files are
    arguments, and so is what new objects hold in members that nothing is assigned to. *)

From stdpp Require Import strings.
From Stdlib Require Import Ascii.
From Stdlib Require String.
From S2P Require Import Prelude Nexus Slices Source Framing Analytics Messages Counts Decode Memory.
From S2P Require Import NextAddr Perf State Process ItcPrint Cycles NextInstr ObjDump Symbols SrcFiles ElfFile.
From S2P Require Import Disasm CText PropFile Settings Maps NlsStrings.

(** The world outside: the trace file or the server, the file of the cycle-accurate trace,
    the mapping files, what objdump gives for a file, the sections of ELF files, and the
    status of the CTF and performance converters of a program. *)
Record World (Src : Type) := {
  wo_openFile : list ascii -> DQErr + Src;
  wo_connect : list ascii -> DQErr + Src;
  wo_caFile : list ascii -> option (list Z);
  wo_maps : list ascii -> option (list ascii);
  wo_objdump : list ascii -> list ascii -> ElfType -> Z -> Exec;
  wo_elfSection : list ascii -> Z -> Z -> DQErr + list ascii;
  wo_ctfStatus : list ascii -> DQErr;
  wo_perfStatus : list ascii -> DQErr;
}.
Arguments wo_openFile {Src} w.
Arguments wo_connect {Src} w.
Arguments wo_caFile {Src} w.
Arguments wo_maps {Src} w.
Arguments wo_objdump {Src} w.
Arguments wo_elfSection {Src} w.
Arguments wo_ctfStatus {Src} w.
Arguments wo_perfStatus {Src} w.

(** What new objects hold before anything is assigned. *)
Record Garbage := {
  ga_elf : Z * (Shown * SourceInfo);
  ga_msg : list Z;
  ga_ca : CATrace;
  ga_caItem : CATraceQItem;
  ga_itc : Z;
  ga_perf : PerfCore;
  ga_info : InstInfo;
}.

(** ** The trace file *)

(** Whether a name is that of a file: before its colon, if it has one, there is just one
    letter.  Otherwise it is a server and its port. *)
Definition havePath (filename : list ascii) : bool :=
  let i := countWhile (fun c => negb (bool_decide (c = ":"%char))) filename in
  match filename !! i with
  | None => true
  | Some _ => bool_decide (length (List.filter letter (take i filename)) = 1%nat)
  end.

Definition newSliceFileParser {Src} (w : World Src) (g : Garbage) (filename : list ascii) (srcBits : Z)
    : DQErr + SliceParser Src :=
  match (if havePath filename then wo_openFile w filename else wo_connect w filename) with
  | inl e => inl e
  | inr src => inr (newSliceParser srcBits (ga_msg g) src)
  end.

(** ** The state that [configure] leaves *)

(** [1 << srcbits], an [int]. *)
Definition shiftedOne (srcbits : Z) : option Z := if (0 <=? srcbits) && (srcbits <? 32) then Some (i32 (2 ^ srcbits)) else None.

Definition prv_unknown : Z := 255.
Definition KSTART : Z := 0xffffffff80000000.

Definition newCore (bare : bool) : CoreState := {|
  co_currentAddress := 0; co_lastFaddr := 0; co_lastTime := 0; co_state := TRACE_STATE_GETFIRSTSYNCMSG;
  co_prevMsgWasSync := false; co_currentPid := if bare then 0 else -1; co_currentPrv := prv_unknown;
  co_currentProcessIndex := if bare then 0 else -1; co_currentDisassembler := Some O; co_enterISR := isNone |}.
Definition newProcess (p : Built) : Process PerfConverter := {|
  pr_pid := bp_pid p; pr_elfName := bool_decide (is_Some (bp_elfName p)); pr_ctf := false; pr_eventConverter := false;
  pr_perfConverter := None |}.
Definition newInfo : InstInfo := {|
  ii_coreId := 0; ii_pid := 0; ii_prv := 0; ii_CRFlag := isNone; ii_brFlags := BRFLAG_none; ii_address := 0;
  ii_instSize := 0; ii_instruction := 0; ii_timestamp := 0; ii_caFlags := 0; ii_pipeCycles := 0;
  ii_VIStartCycles := 0; ii_VIFinishCycles := 0; ii_depths := None |}.

Section configure.
Context {Src : Type} `{!Qsort} (fuel : nat) (et_controlIndex : Z) (w : World Src) (g : Garbage).

#[local] Abbreviation Dec := (Decoder KMem PerfConverter Src Disassemblers ITCPrint CATrace).
#[local] Abbreviation BM := (M Builder DQErr).

(** [status = rc; return rc;] *)
Definition stops_with {A} (e : DQErr) : BM A := modify (set_tb_status e) ≫= fun _ => throw e.
(** A call that is given up with [DQERR_ERR]. *)
Definition orFail {A} (m : BM A) : BM A := fun b =>
  match m b with Err b _ => Err (set_tb_status DQERR_ERR b) DQERR_ERR | r => r end.

(** ** The parts of the decoder that options add *)

(** [Trace::subSrcPath] *)
Fixpoint subAll (cut root : option (list ascii)) (l : list Disassembler) : BM (list Disassembler) :=
  match l with
  | [] => mret []
  | d :: l =>
      match Disassembler_subSrcPath cut root d with
      | Ok d _ => l ← subAll cut root l; mret (d :: l)
      | Err _ _ => buildFails
      | Undef => undef
      | NoFuel => fun _ => NoFuel
      end
  end.

(** [Trace::setITCPrintOptions]; the strings are those of the first process. *)
Definition setITCPrintOptions (srcbits itcFlags buffSize channel : Z) (elfName : list ascii) (f : ElfFile) : BM (option ITCPrint) :=
  if itcFlags =? 0 then mret None
  else
    match parseNLSStrings (wo_elfSection w elfName) f with
    | Ok _ nls =>
        cores ← lift_opt (shiftedOne srcbits);
        mret (Some (newITCPrint itcFlags cores buffSize channel (Some nls) (ga_itc g)))
    | Err _ e => stops_with e
    | Undef => undef
    | NoFuel => fun _ => NoFuel
    end.

(** [Trace::setCATraceFile] *)
Definition setCATraceFile (name : list ascii) (catype : CATraceType) : BM CATrace :=
  match wo_caFile w name with
  | None => stops_with DQERR_ERR
  | Some content =>
      match newCATrace content catype (ga_caItem g) (ga_ca g) with
      | Ok c _ => if bool_decide (ct_status c = DQERR_OK) then mret c else stops_with (ct_status c)
      | Err _ e => stops_with e
      | Undef => undef
      | NoFuel => fun _ => NoFuel
      end
  end.

(** [Trace::enableCTFConverter] and [Trace::enablePerfConverter], for the process of the first
    core; what [configure] does with their errors is included.  They are told that there are
    [1 << srcbits] cores. *)
Definition processOf (processIndex srcbits : Z) (l : list Built) : BM (nat * list ascii) :=
  if processIndex <? 0 then stops_with DQERR_ERR
  else
    b ← lift_opt (l !! Z.to_nat processIndex);
    match bp_elfName b with
    | Some name => _ ← lift_opt (shiftedOne srcbits); mret (Z.to_nat processIndex, name)
    | None => stops_with DQERR_ERR
    end.
Definition enableCTFConverter (processIndex srcbits : Z) (l : list Built) (ps : list (Process PerfConverter))
    : BM (list (Process PerfConverter)) :=
  '(i, name) ← processOf processIndex srcbits l;
  match wo_ctfStatus w name with
  | DQERR_OK => mret (alter (fun p => {| pr_pid := pr_pid p; pr_elfName := pr_elfName p; pr_ctf := true;
                       pr_eventConverter := pr_eventConverter p; pr_perfConverter := pr_perfConverter p |}) i ps)
  | e => stops_with e
  end.
Definition enablePerfConverter (processIndex srcbits channel marker : Z) (l : list Built) (ps : list (Process PerfConverter))
    : BM (list (Process PerfConverter)) :=
  '(i, name) ← processOf processIndex srcbits l;
  match wo_perfStatus w name with
  | DQERR_OK => mret (alter (set_perfConverter (Some (newPerfConverter (u32 channel) marker (ga_perf g)))) i ps)
  | e => stops_with e
  end.

(** ** [Trace::configure] *)

(** The processes that the settings tell: whether they are those of an operating system. *)
Definition buildProcesses (s : TraceSettings) : BM bool :=
  let objdump := wo_objdump w (default (chars "riscv64-unknown-elf-objdump") (ts_name s odName)) in
  match ts_name s efName, ts_name s mfNameList with
  | Some _, Some _ => buildFails
  | Some name, None => orFail (buildElfProcess fuel objdump (ga_elf g) (Some name)) ≫= fun _ => mret false
  | None, Some names => orFail (buildMFProcesses fuel objdump (wo_maps w) (ga_elf g) (Some names)) ≫= fun _ => mret true
  | None, None => buildFails
  end.

(** The readers and the disassemblers of the processes, which all have both. *)
Definition partsOf (l : list Built) : option (list (ElfFile * Disassembler)) :=
  mapM (fun p => f ← bp_elfReader p; d ← bp_disassembler p; Some (f, d)) l.

(** The state at the end, from what was made for it. *)
Definition assembled (s : TraceSettings) (linux : bool) (pidList : list Z) (bits archSize : Z) (l : list Built)
    (parts : list (ElfFile * Disassembler)) (ds : list Disassembler) (sfp : SliceParser Src) (itc : option ITCPrint)
    (ca : option CATrace) (ps : list (Process PerfConverter)) : Dec :=
  let bare := negb linux in
  let core := if ca then set_state TRACE_STATE_SYNCCATE (newCore bare) else newCore bare in
  let all {A} (x : A) := replicate (Z.to_nat DQR_MAXCORES) x in
  {| de_trace := {|
       tr_walker := {|
         wk_status := DQERR_OK;
         wk_traceType := if decide (ts_tType s = TRACETYPE_unknown) then TRACETYPE_BTM else ts_tType s;
         wk_currentCore := 0; wk_archSize := archSize; wk_counts := newCount;
         wk_mem := {| tm_kMem := if linux then Some (KSTART, newKMem KSTART archSize) else None;
                      tm_readers := (fun p => memoryOf p.1) <$> parts; tm_currentElfReader := all (Some O) |} |};
       tr_cores := all core; tr_processes := ps;
       tr_settings := {|
         se_pidList := pidList; se_eventConvert := ts_bool s eventConversionEnable; se_tsSize := ts_num s tsSize;
         se_bitsPerAddress := bits; se_linuxTrace := linux; se_tolerateErrors := ts_bool s tolerateErrors;
         se_eventFilterMask := if ts_bool s filterControlEvents then Z.shiftl 1 et_controlIndex else 0 |};
       tr_nm := newNexusMessage; tr_readNewTraceMessage := true; tr_tolerantError := false; tr_emitted := [] |};
     de_sfp := Some sfp; de_analytics := newAnalytics; de_instructionInfo := newInfo;
     de_disassembler := {| dd_all := ds; dd_rest := ga_info g |};
     de_itcPrint := itc; de_caTrace := ca; de_syncCount := 0; de_caSyncAddr := 2 ^ 64 - 1;
     de_lastCycle := all 0; de_eCycleCount := all 0; de_out := noOut |}.

(** What follows when the processes are there. *)
Definition configureRest (s : TraceSettings) (sfp : SliceParser Src) (pidList : list Z) (linux : bool) (l : list Built) : BM Dec :=
  parts ← lift_opt (partsOf l);
  '(f, _) ← lift_opt (head parts);
  let ds := (fun p => setPathType (ts_pathType s) p.2) <$> parts in
  let archSize := im_archSize (ef_image f) in
  (if linux then modify (set_tb_archSize archSize) else mret tt) ≫= fun _ =>
  bits ← (if ts_num s numAddrBits =? 0 then lift_opt (ef_bitsPerAddress f) else mret (ts_num s numAddrBits));
  elfName ← lift_opt (p ← head l; bp_elfName p);
  itc ← orFail (setITCPrintOptions (ts_num s srcBits) (ts_num s itcPrintOpts) (ts_num s itcPrintBufferSize)
                  (ts_num s itcPrintChannel) elfName f);
  ca ← (match ts_name s caName, ts_caType s with
        | Some name, CATRACE_NONE => mret None
        | Some name, t => c ← orFail (setCATraceFile name t); mret (Some c)
        | None, _ => mret None
        end);
  let processIndex := if linux then -1 else 0 in
  ps ← (if ts_bool s CTFConversion then enableCTFConverter processIndex (ts_num s srcBits) l (newProcess <$> l)
        else mret (newProcess <$> l));
  ps ← (if ts_bool s itcPerfEnable then
          if (ts_num s itcPrintChannel =? ts_num s itcPerfChannel) && negb (ts_num s itcPrintOpts =? 0) &&
             negb (ts_num s itcPrintOpts =? Settings.ITC_OPT_NLS)
          then buildFails
          else enablePerfConverter processIndex (ts_num s srcBits) (ts_num s itcPerfChannel) (ts_num s itcPerfMarkerValue) l ps
        else mret ps);
  ds ← (match ts_name s cutPath, ts_name s srcRoot with
        | None, None => mret ds
        | cut, root => subAll cut root ds
        end);
  mret (assembled s linux pidList bits archSize l parts ds sfp itc ca ps).

Definition newBuilder (vdsoName : option (list ascii)) (s : TraceSettings) : Builder := {|
  tb_status := DQERR_OK; tb_archSize := Z.max 0 (ts_num s Settings.archSize); tb_vdsoName := vdsoName; tb_processes := None |}.

(** The members that the constructors set are set again here; [vdsoName] is not, and is null
    before. *)
Definition configure (s : TraceSettings) : Res Builder DQErr Dec :=
  (match ts_name s tfName with
   | None => buildFails
   | Some name =>
       match newSliceFileParser w g name (ts_num s srcBits) with
       | inl _ => buildFails
       | inr sfp =>
           match parsePidList (ts_name s pids) with
           | Ok _ pidList =>
               linux ← buildProcesses s;
               b ← get;
               l ← lift_opt (tb_processes b);
               configureRest s sfp pidList linux l
           | Err _ _ => buildFails
           | Undef => undef
           | NoFuel => fun _ => NoFuel
           end
       end
   end) (newBuilder (ts_name s vdsoName) s).

(** ** The constructors *)

(** [Trace::Trace(pf_name)], from a file of properties: the decoder, or the status. *)
Definition newTrace (properties : option FileRead) (n : nat) : Res unit DQErr Dec :=
  match properties with
  | None => Err tt DQERR_ERR
  | Some file =>
      match newPropParser (Some file) with
      | None => Undef
      | Some p =>
          if negb (bool_decide (pr_status p = DQERR_OK)) then Err tt (pr_status p)
          else
            match addSettings n (newTraceSettings, p) with
            | Ok (s, _) _ =>
                match configure s with
                | Ok _ d => Ok tt d
                | Err _ e => Err tt e
                | Undef => Undef
                | NoFuel => NoFuel
                end
            | Err _ e => Err tt e
            | Undef => Undef
            | NoFuel => NoFuel
            end
      end
  end.

(** [Trace::Trace(tf_name,ef_name,...)]; the errors of the settings are left aside. *)
Definition newTraceOf (tf_name ef_name odExe : option (list ascii)) (addrBits dispFlags srcbits fr : Z) : Res unit DQErr Dec :=
  let try m s := match m s with Ok s _ | Err s _ => s | _ => s end in
  let s := try (propertyToObjdumpName odExe) (try (propertyToEFName ef_name) (try (propertyToTFName tf_name) newTraceSettings)) in
  match configure (setNum freq fr (setNum srcBits srcbits (setNum addrDispFlags dispFlags (setNum numAddrBits addrBits s)))) with
  | Ok _ d => Ok tt d
  | Err _ e => Err tt e
  | Undef => Undef
  | NoFuel => NoFuel
  end.
End configure.

(** ** What the caller asks of a trace *)

(** [Trace::getPidMap]: the name of a program without its leading dot, and where its last part
    starts. *)
Definition shortNameIndex (name : list ascii) : nat :=
  match head (reverse (List.filter (fun j => bool_decide (name !! j = Some "/"%char)) (seq 1 (length name)))) with
  | Some j => S j
  | None => match name with "/"%char :: _ => 1%nat | _ => O end
  end.
Definition pidName (en : list ascii) : list ascii :=
  match en with "."%char :: "/"%char :: _ => tail en | _ => en end.
Definition getPidMap (l : list Built) : list (Z * option (list ascii * nat)) :=
  (fun p => (bp_pid p, match bp_elfReader p, bp_elfName p with
                       | Some _, Some en => Some (pidName en, shortNameIndex (pidName en))
                       | _, _ => None
                       end)) <$> l.
