(* ===== verification/MapsRead.v ===== *)
(** * Reading pids and mappings back

    The text of a list of pids and of a mapping file, and what the parsers make of them. *)

From stdpp Require Import strings.
From Stdlib Require Import Ascii.
From Stdlib Require String.
From S2P Require Import Prelude Nexus ObjDump ObjDumpPrint ElfFile CText PropFile SettingsRead Maps.

(** ** Steps of the parser *)

Lemma bind_peek {B} c l (k : ascii -> M (list ascii) DQErr B) : (peek ≫= k) (c :: l) = k c (c :: l).
Proof. done. Qed.
Lemma bind_move1 {B} c l (k : unit -> M (list ascii) DQErr B) : (move 1 ≫= k) (c :: l) = k tt l.
Proof. done. Qed.

(** The next character ends a number. *)
Definition ends (base : Z) (l : list ascii) : Prop := match l with c :: _ => digitIn base c = None /\ c <> "x"%char /\ c <> "X"%char | [] => True end.

Lemma bind_number {B} base n x l (k : Z -> M (list ascii) DQErr B) : base = 10 \/ base = 16 ->
  0 <= x < base ^ Z.of_nat (S n) -> x < 2 ^ 63 -> ends base l ->
  (number base ≫= k) (writeDigits base (S n) x ++ l) = k x l.
Proof.
  intros Hb Hx H63 Hl. assert (number base (writeDigits base (S n) x ++ l) = Ok l x) as E; [|by rewrite (bind_ok _ _ _ _ _ E)].
  unfold number. rewrite bind_get, strtol_base; [| |done|done|by destruct l; [|apply Hl]| |].
  - destruct (Nat.eqb_spec (S n) 0); [lia|]. unfold move. rewrite bind_modify.
    rewrite drop_app_length'; [done|]. by rewrite writeDigits_length.
  - done.
  - intros t ->. by destruct Hl as (_ & ? & _).
  - intros t ->. by destruct Hl as (_ & _ & ?).
Qed.

Lemma bind_skip {B} f l d rest (k : unit -> M (list ascii) DQErr B) : forallb f l = true -> f d = false ->
  (skip f ≫= k) (l ++ d :: rest) = k tt (d :: rest).
Proof. intros H Hd. unfold skip. rewrite bind_modify, (countWhile_app f l d) by done. by rewrite drop_app_length. Qed.

Lemma bind_skip1 {B} f c d rest (k : unit -> M (list ascii) DQErr B) : f c = true -> f d = false ->
  (skip f ≫= k) (c :: d :: rest) = k tt (d :: rest).
Proof. intros Hc. apply (bind_skip f [c]). cbn. by rewrite Hc. Qed.

Lemma bind_notEnd {B} c l (k : unit -> M (list ascii) DQErr B) : c <> NUL -> (notEnd ≫= k) (c :: l) = k tt (c :: l).
Proof. intros Hc. unfold notEnd. rewrite bind_assoc, bind_peek. unfold isc. by rewrite bool_decide_eq_false_2. Qed.

(** ** Lists of pids *)

(** A pid with as many digits as one more than the number beside it. *)
Definition pidText (p : nat * Z) : list ascii := writeDigits 10 (S p.1) p.2.
Definition pidsText (p : nat * Z) (l : list (nat * Z)) : list ascii := pidText p ++ concat ((fun q => ","%char :: pidText q) <$> l).

Lemma pids_read p l : Forall (fun p => 0 <= p.2 < 10 ^ Z.of_nat (S p.1) /\ p.2 < 2 ^ 31) (p :: l) ->
  pidNumbers (S (length l)) (pidsText p l ++ [NUL]) = Ok [] (p :: l).*2.
Proof.
  revert p. induction l as [|q l IH]; intros p Hp; apply list.Forall_cons in Hp as [[Hx H31] Hl]; cbn [pidNumbers length];
    unfold pidsText, pidText at 1; cbn [fmap list_fmap concat]; rewrite <-app_assoc; (rewrite bind_number; [|by left|done|lia|by vm_compute; split_and!]).
  - cbn [app]. rewrite bind_peek. change (negb (isc NUL ",") && negb (isc NUL NUL)) with false. cbv iota. rewrite bind_move1. unfold mret, M_ret. cbn. by rewrite i32_small by lia.
  - cbn [app]. rewrite bind_peek. change (negb (isc "," ",") && negb (isc "," NUL)) with false. cbv iota. rewrite bind_move1, <-app_assoc.
    change (pidText q ++ concat _ ++ [NUL]) with (pidText q ++ concat ((fun q => ","%char :: pidText q) <$> l) ++ [NUL]).
    rewrite app_assoc. change (pidText q ++ concat _) with (pidsText q l). specialize (IH q Hl). cbn [length] in IH.
    rewrite (bind_ok _ _ _ _ _ IH). cbn. by rewrite i32_small by lia.
Qed.

Lemma commas_app a b : commas (a ++ b) = (commas a + commas b)%nat.
Proof. unfold commas. by rewrite List.filter_app, length_app. Qed.
Lemma commas_digits n x : 0 <= x -> commas (writeDigits 10 n x) = O.
Proof.
  revert x. induction n as [|n IH]; intros x Hx; [done|]. cbn [writeDigits]. rewrite commas_app, IH by (apply Z.div_pos; lia).
  assert (0 <= x mod 10 < 16) as Hd by (pose proof (Z.mod_pos_bound x 10); lia).
  apply digitChar_cases in Hd as (d & -> & Hd). do 16 (destruct d as [|d]; [done|]). lia.
Qed.

Lemma parse_pids p l : Forall (fun p => 0 <= p.2 < 10 ^ Z.of_nat (S p.1) /\ p.2 < 2 ^ 31) (p :: l) ->
  parsePidList (Some (pidsText p l)) = Ok [] (p :: l).*2.
Proof.
  intros Hp. assert (commas (pidsText p l) = length l) as Hc.
  { unfold pidsText. rewrite commas_app. apply list.Forall_cons in Hp as [[H0 _] Hl]. unfold pidText at 1. rewrite commas_digits by lia.
    induction Hl as [|q l [Hq _] Hl IH]; [done|]. cbn [fmap list_fmap concat length]. rewrite commas_app.
    change (commas (","%char :: pidText q)) with (S (commas (pidText q))). unfold pidText at 1. rewrite commas_digits by lia. lia. }
  assert (exists c t, pidsText p l = c :: t) as (c & t & E).
  { unfold pidsText, pidText. destruct (writeDigits 10 (S p.1) p.2) as [|c t] eqn:E; [|by eexists _, _].
    apply (f_equal length) in E. by rewrite writeDigits_length in E. }
  pose proof (pids_read p l Hp) as H. rewrite <-Hc in H. unfold parsePidList. rewrite E in H |- *. exact H.
Qed.

(** ** Mapping files *)

(** A line of a mapping file: an address range, the permissions, the offset in the file, the device,
    the inode, and the name. *)
Record MapText := {
  mt_digits : nat; mt_start : Z; mt_end : Z;
  mt_r : bool; mt_w : bool; mt_x : bool; mt_p : bool;
  mt_offset : Z;
  mt_dev : list ascii;
  mt_inodeDigits : nat; mt_inode : Z;
  mt_gap : nat;
  mt_path : list ascii;
}.
Definition perm (b : bool) (c : ascii) : ascii := if b then c else "-"%char.
(** The line from the third permission on, and the whole line. *)
Definition mapTail (m : MapText) : list ascii :=
  perm (mt_x m) "x" :: (if mt_p m then "p"%char else "s"%char) :: " "%char ::
  writeDigits 16 8 (mt_offset m) ++ " "%char :: mt_dev m ++ " "%char ::
  writeDigits 10 (S (mt_inodeDigits m)) (mt_inode m) ++ replicate (S (mt_gap m)) " "%char ++ mt_path m.
Definition mapText (m : MapText) : list ascii :=
  writeDigits 16 (S (mt_digits m)) (mt_start m) ++ "-"%char :: writeDigits 16 (S (mt_digits m)) (mt_end m) ++
  " "%char :: perm (mt_r m) "r" :: perm (mt_w m) "w" :: mapTail m ++ [LF].

(** Some mappings have no name; no part of a line has line breaks. *)
Definition mapping_ok (m : MapText) : Prop :=
  0 <= mt_start m < 16 ^ Z.of_nat (S (mt_digits m)) /\ 0 <= mt_end m < 16 ^ Z.of_nat (S (mt_digits m)) /\
  mt_start m < 2 ^ 63 /\ mt_end m < 2 ^ 63 /\ 0 <= mt_offset m < 2 ^ 32 /\
  mt_dev m <> [] /\ forallb (fun c => lineChar c && negb (isc c " ")) (mt_dev m) = true /\
  0 <= mt_inode m < 10 ^ Z.of_nat (S (mt_inodeDigits m)) /\ mt_inode m < 2 ^ 63 /\
  forallb lineChar (mt_path m) = true /\ (length (mt_path m) < 1023)%nat /\
  match mt_path m with c :: _ => c <> " "%char | [] => True end.
(** An executable mapping without a name takes the line after it away. *)
Definition nameless (m : MapText) : bool := mt_x m && bool_decide (mt_path m = []).
Fixpoint linesSeen (l : list MapText) : list MapText :=
  match l with
  | [] => []
  | m :: l => m :: (if nameless m then match l with _ :: l => linesSeen l | [] => [] end else linesSeen l)
  end.

(** The name that is read: a path gets a dot in front, and a digit 0 ends it. *)
Definition nameRead (path : list ascii) : list ascii :=
  (match path with "/"%char :: _ => ["."%char] | _ => [] end) ++ take (countWhile (fun c => negb (isc c "0")) path) path.

Section mapping.
Context (archSize : Z) (vdsoName : option (list ascii)).

Definition entryOf (m : MapText) : option MapEntry :=
  if mt_x m then
    let vdso := strcasecmp (chars "[vdso]") (nameRead (mt_path m)) in
    t ← (if vdso then binaryType archSize else littleType archSize);
    Some {| me_name := if vdso then default (chars "vdso") vdsoName else nameRead (mt_path m); me_eType := t;
            me_map := {| am_isBlob := vdso; am_startAddr := mt_start m; am_endAddr := mt_end m |} |}
  else None.
Definition arch_ok (m : MapText) : Prop := mt_x m = true -> is_Some (entryOf m).

Lemma line_skip l : forallb lineChar l = true -> forallb inLine l = true.
Proof.
  apply forallb_weaken. unfold lineChar, inLine, isc, LF, CR. intros c H. apply andb_true_iff in H as [[-> ->]%andb_true_iff ->]. done.
Qed.

Lemma countWhile_stop f g l d rest : forallb (fun c => bool_decide (f c = g c)) l = true -> f d = false ->
  countWhile f (l ++ d :: rest) = countWhile g l.
Proof.
  intros H Hd. induction l as [|c l IH]; cbn [app countWhile forallb] in *; [by rewrite Hd|].
  apply andb_true_iff in H as [Hc%bool_decide_eq_true H]. rewrite Hc, IH by done. done.
Qed.

Lemma countWhile_le f l : (countWhile f l <= length l)%nat.
Proof. induction l as [|c l IH]; cbn; [lia|]. destruct (f c); lia. Qed.

Lemma cstring_line l : forallb lineChar l = true -> cstring l = l.
Proof.
  intros H. pose proof (cstring_word l [] H) as E. clear H. induction l as [|c l IH]; [done|].
  assert (c = NUL \/ c <> NUL) as [->|Hc] by (destruct (decide (c = NUL)); auto); [done|].
  assert (forall t, cstring (c :: t) = c :: cstring t) as Ec by (intros t; destruct c as [[] [] [] [] [] [] [] []]; done).
  cbn [app] in E. rewrite Ec in E |- *. injection E as E. by rewrite IH.
Qed.

Lemma bind_pathName {B} path rest (k : list ascii -> M (list ascii) DQErr B) : forallb lineChar path = true ->
  (length path < 1023)%nat -> (pathName ≫= k) (path ++ LF :: rest) = k (nameRead path) (path ++ LF :: rest).
Proof.
  intros Hp Hlen. assert (pathName (path ++ LF :: rest) = Ok (path ++ LF :: rest) (nameRead path)) as E; [|by rewrite (bind_ok _ _ _ _ _ E)].
  unfold pathName. rewrite bind_get. destruct path as [|c path]; [done|]. set (l := c :: path) in *.
  assert (countWhile inName (l ++ LF :: rest) = countWhile (fun c => negb (isc c "0")) l) as ->.
  { apply countWhile_stop; [|done]. revert Hp. apply forallb_weaken. intros x Hx. apply bool_decide_eq_true.
    unfold lineChar in Hx. unfold inName, isc. apply andb_true_iff in Hx as [[H1 H2]%andb_true_iff _].
    change "010"%char with LF. change "013"%char with CR. by rewrite H1, H2. }
  set (n := countWhile _ l). assert (n <= length l)%nat as Hn by apply countWhile_le.
  change (peek (l ++ LF :: rest)) with (@Ok (list ascii) DQErr ascii (l ++ LF :: rest) c).
  assert (peek (l ++ LF :: rest) = Ok (l ++ LF :: rest) c) as Epk by done. rewrite (bind_ok _ _ _ _ _ Epk).
  assert (is_Some ((l ++ LF :: rest) !! n)) as [x Ex] by (apply lookup_lt_is_Some; rewrite length_app, length_cons; lia).
  rewrite Ex, lift_bind, take_app_le by lia.
  assert ((if isc c "/" then ["."%char] else []) ++ take n l = nameRead l) as ->.
  { unfold nameRead. fold n. f_equal. unfold l, isc. destruct (bool_decide_reflect (c = "/"%char)) as [->|]; [done|].
    by destruct c as [[] [] [] [] [] [] [] []]. }
  assert (forallb lineChar (nameRead l) = true) as Hline.
  { unfold nameRead. fold n. rewrite forallb_app. apply andb_true_iff. split; [by destruct c as [[] [] [] [] [] [] [] []]|].
    rewrite <-(take_drop n l), forallb_app in Hp. by apply andb_true_iff in Hp as [? _]. }
  assert (length (nameRead l) < 1024)%nat as Hl.
  { unfold nameRead. fold n. rewrite length_app, length_take. destruct l as [|y l']; [cbn; lia|].
    assert (length (match y :: l' with "/"%char :: _ => ["."%char] | _ => [] end) <= 1)%nat by (destruct y as [[] [] [] [] [] [] [] []]; cbn; lia). lia. }
  apply Nat.ltb_lt in Hl. rewrite Hl. by rewrite cstring_line.
Qed.

(** What follows the line does not look like its end. *)
Definition nextLine_ok (rest : list ascii) : Prop := match rest with c :: _ => lineBreak c = false | [] => False end.

Lemma to_line_end {A} (a : A) l rest : forallb lineChar l = true -> nextLine_ok rest ->
  (skip inLine ≫= fun _ => skip lineBreak ≫= fun _ => mret a) (l ++ LF :: rest) = Ok rest a.
Proof.
  intros Hl Hr. rewrite bind_skip; [|by apply line_skip|done]. destruct rest as [|c rest]; [done|].
  change (LF :: c :: rest) with ([LF] ++ c :: rest). by rewrite bind_skip.
Qed.

Lemma bind_mapEntry {B} m rest (k : MapEntry -> M (list ascii) DQErr B) e : mt_x m = true -> entryOf m = Some e ->
  (length (default (chars "vdso") vdsoName) < 1024)%nat -> mapping_ok m ->
  (mapEntry archSize vdsoName (nameRead (mt_path m)) (u64 (mt_start m)) (u64 (mt_end m)) ≫= k) rest = k e rest.
Proof.
  intros Hx He Hv (H1 & H2 & H3 & H4 & _). unfold entryOf in He. rewrite Hx in He. rewrite !u64_small by lia. unfold mapEntry.
  destruct (strcasecmp _ _).
  - apply Nat.ltb_lt in Hv. rewrite Hv. cbn [negb]. destruct (binaryType archSize); [|done]. by injection He as <-.
  - destruct (littleType archSize); [|done]. by injection He as <-.
Qed.


(** A text that starts with no space, line break or NUL. *)
Definition starts (l : list ascii) : Prop :=
  match l with c :: _ => c <> " "%char /\ c <> NUL /\ lineBreak c = false | [] => False end.

Definition begins (l : list ascii) : Prop := match l with c :: _ => c <> " "%char /\ c <> NUL | [] => False end.
Lemma starts_begins l : starts l -> begins l.
Proof. destruct l; [done|]. by intros (? & ? & _). Qed.
Lemma bind_spaces {B} n l (k : unit -> M (list ascii) DQErr B) : begins l ->
  (skip (isc " ") ≫= k) (replicate n " "%char ++ l) = k tt l.
Proof.
  destruct l as [|c l]; [done|]. intros (Hc & _). apply bind_skip.
  - apply forallb_forall. intros x Hx%list_elem_of_In%elem_of_replicate_inv. by subst.
  - unfold isc. apply bool_decide_eq_false_2. congruence.
Qed.
Lemma bind_space {B} l (k : unit -> M (list ascii) DQErr B) : begins l -> (skip (isc " ") ≫= k) (" "%char :: l) = k tt l.
Proof. apply (bind_spaces 1). Qed.
Lemma bind_starts {B} l (k : unit -> M (list ascii) DQErr B) : begins l -> (notEnd ≫= k) l = k tt l.
Proof. destruct l as [|c l]; [done|]. intros (_ & Hc). by apply bind_notEnd. Qed.

Lemma digits_start base n x rest : base = 10 \/ base = 16 -> 0 <= x < base ^ Z.of_nat (S n) -> starts (writeDigits base (S n) x ++ rest).
Proof.
  intros Hb Hx. assert (0 < base ^ Z.of_nat n) as Hpos by (apply Z.pow_pos_nonneg; lia).
  destruct (writeDigits_head base n x ltac:(lia) Hx) as (t & -> & _).
  assert (0 <= x / base ^ Z.of_nat n < 16) as Hd.
  { rewrite Nat2Z.inj_succ, Z.pow_succ_r in Hx by lia. split; [apply Z.div_pos; lia|].
    apply Z.lt_le_trans with base; [apply Z.div_lt_upper_bound; lia|lia]. }
  cbn. apply digitChar_cases in Hd as (d & -> & Hd). do 16 (destruct d as [|d]; [done|]). lia.
Qed.

Lemma line_starts c l rest : forallb lineChar (c :: l) = true -> c <> " "%char -> starts ((c :: l) ++ rest).
Proof.
  intros H Hc. split; [done|]. cbn [forallb] in H. unfold lineChar in H.
  apply andb_true_iff in H as [[[H1 H2]%andb_true_iff H3%negb_true_iff]%andb_true_iff _]. apply negb_true_iff in H1, H2. split.
  - by apply bool_decide_eq_false in H3.
  - unfold lineBreak, isc. change "010"%char with LF. change "013"%char with CR. by rewrite H1, H2.
Qed.

Lemma path_begins m rest : mapping_ok m -> begins (mt_path m ++ LF :: rest).
Proof.
  intros (_ & _ & _ & _ & _ & _ & _ & _ & _ & Hp & _ & Hpath). destruct (mt_path m); [done|].
  by apply starts_begins, line_starts.
Qed.
Lemma dev_starts m rest : mapping_ok m -> starts (mt_dev m ++ rest) /\ forallb notSpace (mt_dev m) = true.
Proof.
  intros (_ & _ & _ & _ & _ & Hd & Hdc & _). destruct (mt_dev m) as [|c dev] eqn:E; [done|]. split.
  - cbn [forallb] in Hdc. apply andb_true_iff in Hdc as [[H1 H2%negb_true_iff]%andb_true_iff Hd2].
    apply line_starts; [|intros ->; by vm_compute in H2]. cbn [forallb]. rewrite H1. revert Hd2. apply forallb_weaken.
    by intros x [-> _]%andb_true_iff.
  - revert Hdc. apply forallb_weaken. intros x [H1 H2]%andb_true_iff. unfold notSpace. rewrite H2. cbn.
    unfold lineChar in H1. by apply andb_true_iff in H1 as [_ ?].
Qed.

Lemma mapFile_reads m rest e : mt_x m = true -> entryOf m = Some e -> (length (default (chars "vdso") vdsoName) < 1024)%nat ->
  mapping_ok m ->
  mapFile archSize vdsoName (u64 (mt_start m)) (u64 (mt_end m)) (mapTail m ++ LF :: rest) = Ok (tail (mt_path m ++ LF :: rest)) e.
Proof.
  intros Hx He Hv Hok. pose proof Hok as (_ & _ & _ & _ & Ho & _ & _ & Hi & Hi63 & Hp & Hlen & _).
  assert (mapTail m ++ LF :: rest = _) as ->
    by (unfold mapTail; rewrite Hx; cbn [app]; do 3 (rewrite <-!app_assoc; cbn [app]); reflexivity).
  unfold mapFile. rewrite bind_move1, bind_skip1 by (destruct (mt_p m); done).
  rewrite bind_space, bind_starts by (apply starts_begins, digits_start; [by right|exact Ho]).
  rewrite (bind_number 16 7) by (by right || done || (by cbn; lia)).
  match goal with |- context [mt_dev m ++ ?t] => destruct (dev_starts m t Hok) as [Hds%starts_begins Hdc] end.
  rewrite bind_space, bind_starts, bind_skip, bind_notEnd, bind_move1 by done.
  rewrite bind_number; [|by left|done|done|by vm_compute; split_and!].
  pose proof (path_begins m rest Hok) as Hs.
  rewrite bind_spaces, bind_starts, bind_pathName, (bind_mapEntry m _ _ e) by done.
  destruct (mt_path m ++ LF :: rest) as [|c path]; [done|]. rewrite bind_peek. unfold isc.
  rewrite bool_decide_eq_false_2 by apply Hs. by rewrite bind_move1.
Qed.

(** One of the first two permissions. *)
Lemma bind_perm {B} b c l (k : ascii -> M (list ascii) DQErr B) : (peek ≫= k) (perm b c :: l) = k (perm b c) (perm b c :: l).
Proof. done. Qed.
Lemma perm_ok b c : negb (isc (perm b c) c) && negb (isc (perm b c) "-") = false.
Proof. unfold perm, isc. destruct b; [by rewrite bool_decide_eq_true_2|by rewrite andb_comm]. Qed.

Lemma forallb_cons_2 f (c : ascii) l : f c = true -> forallb f l = true -> forallb f (c :: l) = true.
Proof. cbn. by intros -> ->. Qed.
Lemma forallb_app_2 f (l l' : list ascii) : forallb f l = true -> forallb f l' = true -> forallb f (l ++ l') = true.
Proof. rewrite forallb_app. by intros -> ->. Qed.

Lemma digits_line base n x : 2 <= base <= 16 -> 0 <= x -> forallb lineChar (writeDigits base n x) = true.
Proof.
  intros Hb. revert x. induction n as [|n IH]; intros x Hx; [done|]. cbn [writeDigits].
  apply forallb_app_2; [apply IH, Z.div_pos; lia|].
  assert (0 <= x mod base < 16) as Hd by (pose proof (Z.mod_pos_bound x base); lia).
  apply digitChar_cases in Hd as (d & -> & Hd). do 16 (destruct d as [|d]; [done|]). lia.
Qed.
Lemma spaces_line n : forallb lineChar (replicate n " "%char) = true.
Proof. apply forallb_forall. intros x Hx%list_elem_of_In%elem_of_replicate_inv. by subst. Qed.

Lemma tail_line m : mapping_ok m -> forallb lineChar (mapTail m) = true.
Proof.
  intros (_ & _ & _ & _ & Ho & _ & Hd & Hi & _ & Hp & _). unfold mapTail.
  do 3 (apply forallb_cons_2; [by unfold perm; repeat case_match|]).
  apply forallb_app_2; [apply digits_line; lia|]. apply forallb_cons_2; [done|]. apply forallb_app_2.
  { revert Hd. apply forallb_weaken. by intros c [-> _]%andb_true_iff. }
  apply forallb_cons_2; [done|]. apply forallb_app_2; [apply digits_line; lia|]. by apply forallb_app_2; [apply spaces_line|].
Qed.

(** A line is read up to the name, or up to the third permission. *)
Lemma mapLine_reads m rest : mapping_ok m -> arch_ok m -> (length (default (chars "vdso") vdsoName) < 1024)%nat ->
  mapLine archSize vdsoName (mapText m ++ rest) =
    (skip inLine ≫= fun _ => skip lineBreak ≫= fun _ => mret (entryOf m)) (if mt_x m then tail (mt_path m ++ LF :: rest) else mapTail m ++ LF :: rest).
Proof.
  intros Hok Ha Hv. pose proof Hok as (Hs & He & Hs63 & He63 & _).
  assert (mapText m ++ rest = _) as -> by (unfold mapText; do 3 (rewrite <-!app_assoc; cbn [app]); reflexivity).
  unfold mapLine. rewrite bind_number; [|by right|done|done|by vm_compute; split_and!].
  rewrite bind_peek. cbn [isc negb]. change (isc "-" "-") with true. cbn [negb]. rewrite bind_move1.
  rewrite bind_number; [|by right|done|done|by vm_compute; split_and!].
  rewrite bind_peek. change (isc " " " ") with true. cbn [negb]. rewrite bind_move1.
  rewrite bind_peek, perm_ok, bind_move1, bind_peek, perm_ok, bind_move1.
  assert (exists t, mapTail m ++ LF :: rest = perm (mt_x m) "x" :: t) as [t Et] by by eexists.
  rewrite Et, bind_peek, <-Et. destruct (mt_x m) eqn:Hx; cbv beta.
  - destruct (Ha Hx) as [e Ee]. change (isc (perm true "x") "x") with true. cbv iota.
    rewrite bind_assoc, (bind_ok _ _ _ _ _ (mapFile_reads m rest e Hx Ee Hv Hok)), Ee. done.
  - change (isc (perm false "x") "x") with false. cbv iota. unfold entryOf. by rewrite Hx.
Qed.
(** The text that is left starts at the next line, *)
Lemma mapLine_named m rest : mapping_ok m -> arch_ok m -> (length (default (chars "vdso") vdsoName) < 1024)%nat -> nextLine_ok rest ->
  nameless m = false -> mapLine archSize vdsoName (mapText m ++ rest) = Ok rest (entryOf m).
Proof.
  intros Hok Ha Hv Hr Hn. rewrite mapLine_reads by done. pose proof Hok as (_ & _ & _ & _ & _ & _ & _ & _ & _ & Hp & _). unfold nameless in Hn.
  destruct (mt_x m); [|apply to_line_end; [by apply tail_line|done]]. destruct (mt_path m) as [|c path]; [done|].
  apply to_line_end; [|done]. by apply andb_true_iff in Hp as [_ ?].
Qed.
(** or, after a line without a name, at the one after it. *)
Lemma mapLine_nameless m line rest : mapping_ok m -> arch_ok m -> (length (default (chars "vdso") vdsoName) < 1024)%nat ->
  nameless m = true -> forallb lineChar line = true -> nextLine_ok rest ->
  mapLine archSize vdsoName (mapText m ++ line ++ LF :: rest) = Ok rest (entryOf m).
Proof.
  intros Hok Ha Hv [Hx Hp%bool_decide_eq_true]%andb_true_iff Hl Hr. rewrite mapLine_reads, Hx, Hp by done. by apply to_line_end.
Qed.
Lemma mapLine_last m : mapping_ok m -> arch_ok m -> (length (default (chars "vdso") vdsoName) < 1024)%nat ->
  nameless m = true -> mapLine archSize vdsoName (mapText m ++ [NUL]) = Ok [NUL] (entryOf m).
Proof. intros Hok Ha Hv [Hx Hp%bool_decide_eq_true]%andb_true_iff. by rewrite mapLine_reads, Hx, Hp by done. Qed.

Lemma mapText_line m : mapping_ok m -> exists line, mapText m = line ++ [LF] /\ forallb lineChar line = true.
Proof.
  intros Hok. pose proof Hok as ([Hs _] & [He _] & _).
  exists (writeDigits 16 (S (mt_digits m)) (mt_start m) ++ "-"%char :: writeDigits 16 (S (mt_digits m)) (mt_end m) ++
    " "%char :: perm (mt_r m) "r" :: perm (mt_w m) "w" :: mapTail m). split.
  - unfold mapText. repeat (rewrite <-app_assoc; cbn [app]). done.
  - repeat first [by apply tail_line | apply digits_line; lia | apply forallb_app_2 | apply forallb_cons_2; [by unfold perm; repeat case_match|] | done].
Qed.

(** The lines of a file, and the end of the text. *)
Definition mapsText (l : list MapText) : list ascii := concat (mapText <$> l).

Lemma file_next l : Forall mapping_ok l -> exists c t, mapsText l ++ [NUL] = c :: t /\ lineBreak c = false /\ c <> " "%char /\ (c = NUL -> l = []).
Proof.
  destruct l as [|m l]; intros Hl; [by eexists _, _|]. apply list.Forall_cons in Hl as [(Hs & _) _].
  assert (starts (mapsText (m :: l) ++ [NUL])) as Hst.
  { unfold mapsText, mapText. cbn [fmap list_fmap concat]. rewrite <-!app_assoc. apply digits_start; [by right|done]. }
  destruct (_ ++ _) as [|c t]; [done|]. destruct Hst as (H1 & H2 & H3). by eexists _, _.
Qed.

Lemma file_goes_on l : Forall mapping_ok l -> nextLine_ok (mapsText l ++ [NUL]).
Proof. intros Hl. by destruct (file_next l Hl) as (c & t & -> & ? & _). Qed.

Lemma mapLines_read n l : Forall mapping_ok l -> Forall arch_ok l -> (length (default (chars "vdso") vdsoName) < 1024)%nat ->
  (length l < n)%nat -> mapLines archSize vdsoName n (mapsText l ++ [NUL]) = Ok [NUL] (omap entryOf (linesSeen l)).
Proof.
  intros Hl Ha Hv. revert l Hl Ha. induction n as [|n IH]; intros l Hl Ha Hn; [lia|]. destruct l as [|m l]; [done|]. cbn [length] in Hn.
  destruct (file_next _ Hl) as (c & t & E & _ & _ & Hc). apply list.Forall_cons in Hl as [Hm Hl], Ha as [Ham Ha].
  cbn [mapLines]. rewrite E, bind_peek, <-E. unfold isc at 1. rewrite bool_decide_eq_false_2 by (intros Ec; by specialize (Hc Ec)).
  unfold mapsText at 1. cbn [fmap list_fmap concat linesSeen]. rewrite <-app_assoc. fold (mapsText l).
  assert (forall l', Forall mapping_ok l' -> Forall arch_ok l' -> (length l' < n)%nat ->
    mapLine archSize vdsoName (mapText m ++ mapsText l ++ [NUL]) = Ok (mapsText l' ++ [NUL]) (entryOf m) ->
    (e ← mapLine archSize vdsoName; l ← mapLines archSize vdsoName n; mret (match e with Some e => e :: l | None => l end))
      (mapText m ++ mapsText l ++ [NUL]) = Ok [NUL] (omap entryOf (m :: linesSeen l'))) as Hgo.
  { intros l' Hl' Ha' Hn' El. rewrite (bind_ok _ _ _ _ _ El), (bind_ok _ _ _ _ _ (IH l' Hl' Ha' Hn')). cbn [omap list_omap]. by destruct (entryOf m). }
  destruct (nameless m) eqn:Em; [|apply Hgo; [done|done|lia|by apply mapLine_named, Em; [..|apply file_goes_on]]].
  destruct l as [|m2 l2]; [apply (Hgo []); [done|done|cbn in *; lia|by apply mapLine_last]|].
  pose proof Hl as [Hm2 Hl2]%list.Forall_cons. pose proof Ha as [_ Ha2]%list.Forall_cons.
  apply Hgo; [done|done|cbn [length] in Hn; lia|]. destruct (mapText_line m2 Hm2) as (line & Eline & Hline).
  unfold mapsText at 1. cbn [fmap list_fmap concat]. rewrite Eline, <-!app_assoc. cbn [app]. apply mapLine_nameless; try done. by apply file_goes_on.
Qed.

Lemma mappings_read l : Forall mapping_ok l -> Forall arch_ok l -> (length (default (chars "vdso") vdsoName) < 1024)%nat ->
  parseMappingFile archSize vdsoName (Some (mapsText l)) = Ok [NUL] (omap entryOf (linesSeen l)).
Proof.
  intros Hl Ha Hv. unfold parseMappingFile. destruct (file_next l Hl) as (c & t & E & Hb & Hc & _).
  unfold skip. rewrite bind_modify, E. cbn [countWhile]. unfold isc. rewrite Hb, bool_decide_eq_false_2 by done. cbn [orb drop].
  rewrite <-E. apply mapLines_read; [done..|].
  assert (length l <= length (mapsText l))%nat; [|lia]. clear. unfold mapsText. induction l as [|m l IH]; [done|].
  cbn [fmap list_fmap concat length]. rewrite length_app. unfold mapText at 1. rewrite length_app. cbn [length]. lia.
Qed.
End mapping.
