(* ===== verification/Termination.v ===== *)
(** * Every call returns

    [NextInstruction] is a loop without a bound.  It goes round again only from
    one state to a lower one, so that a call on a file returns after it has read
    one message and taken a few turns.  The exception is a message of more than 64
    bytes when errors are tolerated: then no number of turns is enough.  At the end of a
    file, and after an error, every call returns at once, with the same code. *)

From S2P Require Import Prelude Nexus Slices Source Framing Analytics Messages Counts Decode Memory NextAddr Walk Perf State Process.
From S2P Require Import Retire ItcPrint Cycles NextInstr.

(** ** Computations that do not run out of fuel *)

(** [keeps P m]: from a state with [P] the computation ends, and in a state with
    [P] again. *)
Definition keeps {S E A} (P : S -> Prop) (m : M S E A) : Prop :=
  forall s, P s ->
    match m s with
    | Ok s' _ | Err s' _ => P s'
    | Undef => True
    | NoFuel => False
    end.

(** [m] ends. *)
#[global] Abbreviation halts := (keeps (fun _ => True)).

Section keeps.
Context {S E : Type} (P : S -> Prop).

Lemma keeps_bind {A B} (m : M S E A) (k : A -> M S E B) :
  keeps P m -> (forall a, keeps P (k a)) -> keeps P (m ≫= k).
Proof.
  intros Hm Hk s Hs. unfold mbind, M_bind. specialize (Hm s Hs).
  destruct (m s) as [s1 a|s1 e| |]; try done. by apply Hk.
Qed.

Lemma keeps_ret {A} (a : A) : keeps (E := E) P (mret a).
Proof. by intros s Hs. Qed.
Lemma keeps_throw {A} (e : E) : keeps P (throw (A := A) e).
Proof. by intros s Hs. Qed.
Lemma keeps_undef {A} : keeps P (undef (E := E) (A := A)).
Proof. by intros s Hs. Qed.
Lemma keeps_get : keeps (E := E) P get.
Proof. by intros s Hs. Qed.
Lemma keeps_gets {A} (f : S -> A) : keeps (E := E) P (gets f).
Proof. by intros s Hs. Qed.
Lemma keeps_modify f : (forall s, P s -> P (f s)) -> keeps (E := E) P (modify f).
Proof. intros Hf s Hs. by apply Hf. Qed.
Lemma keeps_lift_opt {A} (o : option A) : keeps (E := E) P (lift_opt o).
Proof. intros s Hs. by destruct o. Qed.
End keeps.

Lemma keeps_zoom {S T E A} (P : S -> Prop) (Q : T -> Prop) (put : T -> S) (m : M T E A) t :
  keeps Q m -> Q t -> (forall t, Q t -> P (put t)) ->
  match zoom put m t with
  | Ok s' _ | Err s' _ => P s'
  | Undef => True
  | NoFuel => False
  end.
Proof. intros Hm Ht Hp. unfold zoom. specialize (Hm t Ht). destruct (m t); auto. Qed.

Lemma keeps_attempt {S A} (P : S -> Prop) (m : M S DQErr A) : keeps P m -> keeps P (attempt m).
Proof. intros Hm s Hs. unfold attempt. specialize (Hm s Hs). by destruct (m s). Qed.

Lemma keeps_asErr {S A} (P : S -> Prop) (m : M S DQErr A) :
  keeps P m -> keeps P (fun s => asErr (m s)).
Proof. intros Hm s Hs. unfold asErr. specialize (Hm s Hs). by destruct (m s). Qed.

Create HintDb keeps.
#[export] Hint Resolve keeps_ret keeps_throw keeps_undef keeps_get keeps_gets
  keeps_lift_opt keeps_attempt keeps_asErr : keeps.
#[export] Hint Extern 2 (keeps _ (modify _)) => apply keeps_modify; solve [auto] : keeps.

(** Follows the structure of a computation: its steps, its branches, and the
    lemmas of the operations it calls. *)
Ltac follow :=
  repeat first
    [ progress intros
    | solve [eauto 3 with keeps]
    | match goal with
      | |- keeps _ (mbind _ _) => apply keeps_bind
      | |- keeps _ (match ?x with _ => _ end) => destruct x
      | |- keeps _ (let _ := _ in _) => cbv zeta
      | |- keeps _ ((fun _ => _) _) => cbv beta
      end
    | apply keeps_bind ].

(** ** The parser *)

Section parser.
Context {Src : Type}.
Implicit Type p : SliceParser Src.

Lemma fail_halts {A} e : halts (fail (Src := Src) (A := A) e).
Proof. unfold fail. follow. Qed.

Lemma byteAt_halts i : halts (byteAt (Src := Src) i).
Proof. intros p _. unfold byteAt. apply (keeps_lift_opt (fun _ => True)); done. Qed.

#[local] Hint Resolve fail_halts byteAt_halts : keeps.

Lemma byteAt_inv i p : (exists x, byteAt i p = Ok p x /\ 0 <= i) \/ byteAt i p = Undef.
Proof.
  unfold byteAt. destruct (Z.leb_spec 0 i); [|by right].
  destruct (sp_msg p !! _) as [x|]; [|by right]. left. by exists x.
Qed.

Lemma middleBits_halts fuel : forall i consumed remaining tmp,
  remaining < Z.of_nat fuel + 6 -> halts (middleBits (Src := Src) fuel i consumed remaining tmp).
Proof.
  induction fuel as [|fuel IH]; intros; cbn [middleBits];
    destruct (Z.ltb_spec remaining 6); try lia; follow; apply IH; lia.
Qed.

Lemma noteEom_halts i : halts (noteEom (Src := Src) i).
Proof. unfold noteEom. follow. Qed.
#[local] Hint Resolve noteEom_halts : keeps.

Lemma parseFixedField_halts width : halts (parseFixedField (Src := Src) width).
Proof.
  unfold parseFixedField. destruct (Z.leb_spec width 0); [by apply fail_halts|].
  apply keeps_bind; [apply keeps_get|]. intros p. cbv zeta.
  pose proof (Z.mod_pos_bound (sp_bitIndex p) 6 eq_refl). follow.
  - apply middleBits_halts. lia.
Qed.

(** The last slice ends the loop: [varBits] takes a step per slice. *)
Lemma varBits_halts fuel : forall i w v p,
  sp_msgSlices p - i <= Z.of_nat fuel -> 0 < Z.of_nat fuel ->
  match varBits fuel i w v p with NoFuel => False | _ => True end.
Proof.
  induction fuel as [|fuel IH]; intros i w v p Hi Hf; [lia|]. cbn [varBits].
  unfold byteAt, lift_opt, get, mbind, M_bind.
  destruct (if 0 <=? i then _ else _) as [x|]; [|done].
  destruct (negb _); [done|]. destruct (Z.leb_spec (sp_msgSlices p) (i + 1)); [done|].
  destruct (if 0 <=? i + 1 then _ else _) as [y|]; [|done].
  destruct (shl64 _ _) as [t|]; [|done]. apply IH; lia.
Qed.

Lemma parseVarField_halts : halts (parseVarField (Src := Src)).
Proof.
  intros p _. unfold parseVarField, get. unfold mbind at 1, M_bind at 1. cbv zeta.
  set (i := sp_bitIndex p / 6).
  destruct (Z.leb_spec (sp_msgSlices p) i); [by apply fail_halts|].
  destruct (byteAt_inv i p) as [[x [E Hi]]|E]; [|by unfold mbind, M_bind; rewrite E].
  erewrite bind_ok by exact E.
  pose proof (varBits_halts (S (Z.to_nat (sp_msgSlices p))) i (6 - sp_bitIndex p mod 6)
                (Z.shiftr x (sp_bitIndex p mod 6 + 2)) p ltac:(lia) ltac:(lia)) as Hv.
  unfold mbind at 1, M_bind at 1. destruct (varBits _ _ _ _ p) as [p' [[j w] v]|p' e| |]; try done.
  match goal with |- match ?m p' with _ => _ end => enough (halts m) as Hm by (by apply Hm) end.
  follow.
Qed.
#[local] Hint Resolve parseFixedField_halts parseVarField_halts : keeps.

Lemma checked_halts {A} (m : M (SliceParser Src) DQErr A) : halts m -> halts (checked m).
Proof. intros Hm p _. unfold checked. specialize (Hm p I). by destruct (m p). Qed.
#[local] Hint Resolve checked_halts : keeps.

Lemma fixedField_halts width : halts (fixedField (Src := Src) width).
Proof. apply checked_halts, parseFixedField_halts. Qed.
Lemma varField_halts : halts (varField (Src := Src)).
Proof. apply checked_halts, parseVarField_halts. Qed.
#[local] Hint Resolve fixedField_halts varField_halts : keeps.

Lemma onParser_halts {A} (m : M (SliceParser Src) DQErr A) : halts m -> halts (onParser m).
Proof. intros Hm [p a] _. unfold onParser. specialize (Hm p I). cbn [fst]. by destruct (m p). Qed.

Lemma account_halts nm bits ts addr : halts (account (Src := Src) nm bits ts addr).
Proof.
  intros [p a] _. unfold account. destruct (updateTraceInfo _ _ _ _ _ _) as [a'|]; [|done].
  by destruct (decide _).
Qed.

Lemma parseMsg_halts t (fields : M (SliceParser Src) DQErr (Body * Z * Z)) nm :
  halts fields -> halts (parseMsg t fields nm).
Proof.
  intros Hf. unfold parseMsg, parseSrc, parseTimestamp. follow;
    first [apply onParser_halts|apply account_halts]; follow.
Qed.

Lemma ictFields_halts : halts (ictFields (Src := Src)).
Proof. unfold ictFields. follow. Qed.
#[local] Hint Resolve ictFields_halts : keeps.

Lemma parseByTCode_halts t nm : halts (parseByTCode (Src := Src) t nm).
Proof.
  unfold parseByTCode. destruct (tcode_of t) as [[]|]; try apply keeps_throw;
    apply parseMsg_halts; follow.
Qed.

Lemma parseFramed_halts nm : halts (parseFramed (Src := Src) nm).
Proof.
  intros s _. unfold parseFramed.
  set (nm' := set_raw _ _ nm).
  pose proof (keeps_bind (fun _ => True) (onParser (parseFixedField 6))
                (fun val => parseByTCode (u8 val) nm')
                (onParser_halts _ (parseFixedField_halts 6))
                (fun val => parseByTCode_halts (u8 val) nm') s I) as H.
  cbv beta in H. match type of H with match ?r with _ => _ end => by destruct r as [[]| | |] end.
Qed.

(** With more fuel than bytes to come. *)
Lemma readNextTraceMsg_halts `{!ByteSource Src} `{!ByteSourceLaws Src} fuel nm p a :
  frame_ok p -> (length (pending (sp_source p)) < fuel)%nat ->
  match readNextTraceMsg fuel nm (p, a) with
  | Ok (p', _) r => r = None -> src_dry (sp_source p')
  | Err _ _ | Undef => True
  | NoFuel => False
  end.
Proof.
  intros Hp Hf. unfold readNextTraceMsg. cbn [fst snd]. destruct (decide _) as [Hs|]; [|done].
  pose proof (readBinaryMsg_spec fuel p Hp Hs Hf) as H. unfold frame_post in H.
  destruct (readBinaryMsg fuel p) as [p' [|]|p' e| |]; try done.
  - unfold mbind, M_bind. pose proof (parseFramed_halts nm (p', a) I) as Hh.
    by destruct (parseFramed nm (p', a)) as [[]| | |].
  - by destruct H as (_ & _ & _ & _ & ?).
Qed.
End parser.

(** ** The parts of a turn *)

(** What the parts behind an interface promise. *)
Class Ending (K Perf D I CA : Type) `{!CodeMemory K} `{!PerfSink Perf} `{!Disassembly K D}
    `{!ItcSink I} `{!CycleTrace CA} := {
  fetch_halts : forall core addr, halts (fetch (Mem := K) core addr);
  processITCPerf_halts : forall core ts tag data, halts (processITCPerf (Perf := Perf) core ts tag data);
  disassemble_halts : forall i addr, halts (disassemble (K := K) (D := D) i addr);
  kernelDisassemble_halts : forall addr, halts (kernelDisassemble (K := K) (D := D) addr);
  print_halts : forall core addr data ts, halts (print (I := I) core addr data ts);
  consume_halts : forall t, halts (consume (CA := CA) t);
  rewind_halts : halts (rewind (CA := CA));
}.

#[local] Hint Extern 1 (keeps _ (modify _)) => apply keeps_modify; done : keeps.

Section memory.
Context {K : Type} `{!CodeMemory K} (Hfetch : forall core addr, halts (fetch (Mem := K) core addr)).

Lemma elfInstructionByAddress_halts addr : halts (elfInstructionByAddress addr).
Proof using Type. unfold elfInstructionByAddress. follow. Qed.

Lemma elfFetch_halts core addr : halts (elfFetch (K := K) core addr).
Proof using Type.
  intros t _. unfold elfFetch. destruct (readerOf core t) as [[i r]|]; [|done].
  unfold zoom. pose proof (elfInstructionByAddress_halts addr r I) as H.
  by destruct (elfInstructionByAddress addr r).
Qed.

Lemma getInstructionByAddress_halts core addr : halts (getInstructionByAddress (K := K) core addr).
Proof using Hfetch.
  intros t _. unfold getInstructionByAddress.
  destruct (tm_kMem t) as [[start k]|]; [|by apply elfFetch_halts].
  destruct (start <=? addr); [|by apply elfFetch_halts].
  unfold zoom. pose proof (Hfetch core addr k I) as H. by destruct (fetch core addr k).
Qed.
End memory.

Section walker.
Context {Mem : Type} `{!CodeMemory Mem} (uninit : Inst).
Context (Hfetch : forall core addr, halts (fetch (Mem := Mem) core addr)).

Lemma onCounts_halts {A} (m : M Count DQErr A) : halts m -> halts (onCounts (Mem := Mem) m).
Proof using Type. intros Hm w _. unfold onCounts. by eapply keeps_zoom. Qed.

Lemma onCore_halts {A} core (m : M CoreCounts DQErr A) : halts m -> halts (onCore core m).
Proof using Type.
  intros Hm c _. unfold onCore. destruct (if 0 <=? core then _ else _) as [cc|]; [|done].
  specialize (Hm cc I). by destruct (m cc).
Qed.

Lemma counted_halts {A} core (m : M CoreCounts DQErr A) : halts m -> halts (counted (Mem := Mem) core m).
Proof using Type. intros. by apply onCounts_halts, onCore_halts. Qed.

Lemma pushAddr_halts core a : halts (pushAddr core a).
Proof using Type. apply onCore_halts. intros c _. by destruct (push a (cc_stack c)). Qed.
Lemma popAddr_halts core : halts (popAddr core).
Proof using Type. apply onCore_halts. intros c _. by destruct (pop (cc_stack c)). Qed.

Lemma consumeICnt_halts n : halts (consumeICnt n).
Proof using Type. unfold consumeICnt. follow. Qed.
Lemma consumeHistory_halts : halts consumeHistory.
Proof using Type. unfold consumeHistory. follow. Qed.
Lemma consumeTakenCount_halts : halts consumeTakenCount.
Proof using Type. unfold consumeTakenCount. follow. Qed.
Lemma consumeNotTakenCount_halts : halts consumeNotTakenCount.
Proof using Type. unfold consumeNotTakenCount. follow. Qed.

Lemma setCounts_halts nm : halts (setCounts nm).
Proof using Type.
  unfold setCounts, when, setICnt, setHistory, setTakenCount, setNotTakenCount. follow.
Qed.

#[local] Hint Resolve onCounts_halts counted_halts pushAddr_halts popAddr_halts consumeICnt_halts
  consumeHistory_halts consumeTakenCount_halts consumeNotTakenCount_halts : keeps.

Lemma readInst_halts addr : halts (readInst (Mem := Mem) addr).
Proof using Hfetch.
  intros w _. unfold readInst. pose proof (Hfetch (wk_currentCore w) addr (wk_mem w) I) as H.
  by destruct (fetch _ _ _).
Qed.

Lemma stop_halts {A} e : halts (stop (Mem := Mem) (A := A) e).
Proof using Type. unfold stop. follow. Qed.
#[local] Hint Resolve readInst_halts stop_halts : keeps.

Lemma decodeInst_halts i : halts (decodeInst (Mem := Mem) uninit i).
Proof using Type. unfold decodeInst. follow. Qed.
#[local] Hint Resolve decodeInst_halts : keeps.

Lemma indirectJump_halts core addr d cr mask pc :
  halts (indirectJump (Mem := Mem) core addr d cr mask pc).
Proof using Type. unfold indirectJump, moreICnt. follow. Qed.
#[local] Hint Resolve indirectJump_halts : keeps.

Lemma doBranch_halts core addr d nm : halts (doBranch (Mem := Mem) core addr d nm).
Proof using Type.
  unfold doBranch, branchHTM, branchByMessage, branchBTM, moreICnt. follow.
Qed.
#[local] Hint Resolve doBranch_halts : keeps.

Lemma runInst_halts core addr d nm : halts (runInst (Mem := Mem) core addr d nm).
Proof using Type.
  unfold runInst, doJAL, doJALR, doC_JR, doC_JALR. cbv zeta.
  destruct (isCondBranch _); [|destruct (in_type d)]; follow.
Qed.
#[local] Hint Resolve runInst_halts : keeps.

Lemma nextAddr_halts core addr nm : halts (nextAddr (Mem := Mem) uninit core addr nm).
Proof using Hfetch. unfold nextAddr. follow. Qed.

Lemma nextAddrTarget_halts addr : halts (nextAddrTarget (Mem := Mem) uninit addr).
Proof using Hfetch. unfold nextAddrTarget. follow. Qed.

Lemma getCRBRFlags_halts src addr : halts (getCRBRFlags (Mem := Mem) uninit src addr).
Proof using Hfetch. unfold getCRBRFlags. follow. Qed.
End walker.

(** A predicate of the state that only looks at whether a message is to be read. *)
Definition flagOnly {K Perf} (P : Trace K Perf -> Prop) : Prop :=
  forall t t', tr_readNewTraceMessage t' = tr_readNewTraceMessage t -> P t -> P t'.

Section trace.
Context {K Perf : Type} `{!CodeMemory K} `{!PerfSink Perf} (uninit : Inst).
Context (converterStatus : Z -> DQErr).
Context (Hfetch : forall core addr, halts (fetch (Mem := K) core addr)).
Context (Hperf : forall core ts tag data, halts (processITCPerf (Perf := Perf) core ts tag data)).
Context (P : Trace K Perf -> Prop) (HP : flagOnly P).
#[local] Abbreviation T := (M (Trace K Perf) DQErr).

Lemma keeps_update f :
  (forall t, tr_readNewTraceMessage (f t) = tr_readNewTraceMessage t) ->
  keeps P (modify f : T unit).
Proof using HP. intros Hf. apply keeps_modify. intros t Ht. by apply (HP t). Qed.
#[local] Hint Extern 1 (keeps P (modify _)) => apply keeps_update; done : keeps.

Lemma onWalker_keeps {A} (m : M (Walker (TraceMem K)) DQErr A) :
  halts m -> keeps P (onWalker (Perf := Perf) m).
Proof using HP.
  intros Hm t Ht. unfold onWalker. eapply keeps_zoom; [done..|].
  intros w _. by apply (HP t).
Qed.
#[local] Hint Resolve onWalker_keeps : keeps.

Lemma setStatus_keeps e : keeps P (setStatus e : T unit).
Proof using HP. apply onWalker_keeps. follow. Qed.

Lemma coreAt_keeps k : keeps P (coreAt k : T CoreState).
Proof using Type. intros t Ht. unfold coreAt, lift_opt. by destruct (if 0 <=? k then _ else _). Qed.
Lemma processAt_keeps k : keeps P (processAt k : T (Process Perf)).
Proof using Type. intros t Ht. unfold processAt, lift_opt. by destruct (if 0 <=? k then _ else _). Qed.
#[local] Hint Resolve setStatus_keeps coreAt_keeps processAt_keeps : keeps.

Lemma setCore_keeps k f : keeps P (setCore k f : T unit).
Proof using HP. unfold setCore. follow. Qed.
Lemma setProcess_keeps k f : keeps P (setProcess k f : T unit).
Proof using HP. unfold setProcess. follow. Qed.
Lemma selectReader_keeps k o : keeps P (selectReader k o : T unit).
Proof using HP. apply onWalker_keeps. follow. Qed.
Lemma onCoreCounts_keeps {A} k (m : M CoreCounts DQErr A) :
  halts m -> keeps P (onCoreCounts k m : T A).
Proof using HP. intros. by apply onWalker_keeps, counted_halts. Qed.
#[local] Hint Resolve setCore_keeps setProcess_keeps selectReader_keeps onCoreCounts_keeps : keeps.

Lemma here_keeps : keeps P (here : T CoreState).
Proof using Type. unfold here. follow. Qed.
Lemma setHere_keeps f : keeps P (setHere f : T unit).
Proof using HP. unfold setHere. follow. Qed.
#[local] Hint Resolve here_keeps setHere_keeps : keeps.

Lemma processPidPriv_keeps core pid v prv : keeps P (processPidPriv core pid v prv : T Z).
Proof using HP. unfold processPidPriv. follow. Qed.
Lemma enableEventConverter_keeps i : keeps P (enableEventConverter converterStatus i : T unit).
Proof using HP. unfold enableEventConverter. follow. Qed.
#[local] Hint Resolve processPidPriv_keeps enableEventConverter_keeps : keeps.

Lemma log_keeps i e : keeps P (log i e : T unit).
Proof using HP. unfold log. follow. Qed.
#[local] Hint Resolve log_keeps : keeps.

Lemma convert_keeps i e : keeps P (convert converterStatus i e : T unit).
Proof using HP. unfold convert. follow. Qed.
#[local] Hint Resolve convert_keeps : keeps.

Lemma emit_keeps i e : keeps P (emit converterStatus i e : T unit).
Proof using HP. unfold emit. follow. Qed.
Lemma updateTS_keeps ty : keeps P (updateTS ty : T unit).
Proof using HP. unfold updateTS. follow. Qed.
Lemma xorFaddr_keeps a : keeps P (xorFaddr a : T unit).
Proof using HP. unfold xorFaddr. follow. Qed.
Lemma setFaddr_keeps a : keeps P (setFaddr a : T unit).
Proof using HP. unfold setFaddr. follow. Qed.
Lemma pcFromFaddr_keeps : keeps P (pcFromFaddr : T unit).
Proof using HP. unfold pcFromFaddr. follow. Qed.
Lemma countType_keeps : keeps P (countType : T CountType).
Proof using HP. unfold countType. follow. Qed.
#[local] Hint Resolve emit_keeps updateTS_keeps xorFaddr_keeps setFaddr_keeps pcFromFaddr_keeps
  countType_keeps : keeps.

Lemma requireNoCounts_keeps : keeps P (requireNoCounts : T unit).
Proof using HP. unfold requireNoCounts. follow. Qed.
Lemma requireNoBranches_keeps : keeps P (requireNoBranches : T unit).
Proof using HP. unfold requireNoBranches. follow. Qed.
#[local] Hint Resolve requireNoCounts_keeps requireNoBranches_keeps : keeps.
Lemma syncAt_keeps core a : keeps P (syncAt core a : T unit).
Proof using HP. unfold syncAt. follow. Qed.
Lemma wantsCalls_keeps i : keeps P (wantsCalls i : T (option bool)).
Proof using Type. unfold wantsCalls. follow. Qed.
Lemma targetOf_keeps pc : keeps P (targetOf uninit pc : T (Z * Z)).
Proof using HP Hfetch.
  apply keeps_asErr, onWalker_keeps, nextAddrTarget_halts.
  intros core addr. by apply getInstructionByAddress_halts.
Qed.
Lemma storeTarget_keeps a : keeps P (storeTarget a : T unit).
Proof using HP. apply keeps_update. intros t. by destruct (nm_body (tr_nm t)). Qed.
Lemma ctfCallRet_keeps i pc dst cr : keeps P (ctfCallRet i pc dst cr : T unit).
Proof using HP. unfold ctfCallRet. follow. Qed.
Lemma contextSwitch_keeps core i d : keeps P (contextSwitch core i d : T (Z * Z * Z)).
Proof using HP. unfold contextSwitch. follow. Qed.
#[local] Hint Resolve syncAt_keeps wantsCalls_keeps targetOf_keeps storeTarget_keeps
  ctfCallRet_keeps contextSwitch_keeps : keeps.

Lemma processICT_keeps core i pid src ckdf d0 d1 :
  keeps P (processICT uninit converterStatus core i pid src ckdf d0 d1 : T unit).
Proof using HP Hfetch. unfold processICT, second. destruct src; follow. Qed.
Lemma processICTWS_keeps core i pid src ckdf d0 d1 :
  keeps P (processICTWS uninit converterStatus core i pid src ckdf d0 d1 : T unit).
Proof using HP Hfetch. unfold processICTWS, second. destruct src; follow. Qed.
#[local] Hint Resolve processICT_keeps processICTWS_keeps : keeps.

Lemma perfData_keeps core i tag data : keeps P (perfData core i tag data : T bool).
Proof using HP Hperf.
  unfold perfData. follow. unfold onPerf. intros t Ht.
  eapply keeps_zoom; [apply Hperf|done|]. intros p' _. by apply (HP t).
Qed.
#[local] Hint Resolve perfData_keeps : keeps.

Lemma processTraceMessage_keeps : keeps P (processTraceMessage uninit converterStatus : T bool).
Proof using HP Hfetch Hperf.
  unfold processTraceMessage, pidOf. cbv zeta. follow.
Qed.
End trace.

Section decoder.
Context {K Perf Src D I CA : Type} `{!CodeMemory K} `{!PerfSink Perf} `{!ByteSource Src}.
Context `{!Disassembly K D} `{!ItcSink I} `{!CycleTrace CA} `{!Ending K Perf D I CA}.
Context (uninit : Inst) (converterStatus : Z -> DQErr) (et_controlIndex uninitAddr : Z).
#[local] Abbreviation Dec := (Decoder K Perf Src D I CA).
#[local] Abbreviation DM := (M (Decoder K Perf Src D I CA) DQErr).
Implicit Type d : Dec.

Definition ofTrace (P : Trace K Perf -> Prop) (d : Dec) : Prop := P (de_trace d).

Section keeping.
Context (P : Trace K Perf -> Prop) (HP : flagOnly P).
#[local] Abbreviation PD := (ofTrace P).
#[local] Hint Extern 1 (keeps _ (modify _)) => apply keeps_modify; done : keeps.

Lemma onTrace_keeps {A} (m : M (Trace K Perf) DQErr A) : keeps P m -> keeps PD (onTrace m : DM A).
Proof using Type. intros Hm d Hd. unfold onTrace. apply (keeps_zoom PD P); [exact Hm|exact Hd|]. intros t Ht. exact Ht. Qed.

Lemma theCore_keeps : keeps PD (theCore : DM Z).
Proof using Type. unfold theCore. follow. Qed.
Lemma theNm_keeps : keeps PD (theNm : DM NexusMessage).
Proof using Type. unfold theNm. follow. Qed.
Lemma atCore_keeps : keeps PD (atCore : DM CoreState).
Proof using Type. apply onTrace_keeps, here_keeps. Qed.
Lemma setAtCore_keeps f : keeps PD (setAtCore f : DM unit).
Proof using HP. by apply onTrace_keeps, setHere_keeps. Qed.
Lemma setStatusD_keeps e : keeps PD (setStatusD e : DM unit).
Proof using HP. by apply onTrace_keeps, setStatus_keeps. Qed.
Lemma onWalkerD_keeps {A} (m : M (Walker (TraceMem K)) DQErr A) :
  halts m -> keeps PD (onTrace (onWalker m) : DM A).
Proof using HP. intros. by apply onTrace_keeps, onWalker_keeps. Qed.
#[local] Hint Resolve theCore_keeps theNm_keeps atCore_keeps setAtCore_keeps setStatusD_keeps
  onWalkerD_keeps : keeps.

Lemma toState_keeps s : keeps PD (toState s : DM unit).
Proof using HP. unfold toState. follow. Qed.
#[local] Hint Resolve toState_keeps : keeps.

Lemma processITCPrintData_keeps nm : keeps PD (processITCPrintData nm : DM bool).
Proof using HP Ending0.
  intros d Hd. unfold processITCPrintData.
  destruct (de_itcPrint d), (nm_tcode nm); try exact Hd; destruct (nm_body nm); try done;
    (eapply keeps_zoom; [apply print_halts|done..]).
Qed.
#[local] Hint Resolve processITCPrintData_keeps : keeps.

Lemma giveMsg_keeps b nm : keeps PD (giveMsg b nm : DM unit).
Proof using HP Ending0. unfold giveMsg. follow. Qed.
#[local] Hint Resolve giveMsg_keeps : keeps.
Lemma deliver_keeps w b a : keeps PD (deliver w b a : DM unit).
Proof using HP Ending0. unfold deliver. follow. Qed.
#[local] Hint Resolve deliver_keeps : keeps.
Lemma deliverHere_keeps w b : keeps PD (deliverHere w b : DM unit).
Proof using HP Ending0. unfold deliverHere. follow. Qed.

Lemma disassembleKernel_keeps start k a : keeps PD (disassembleKernel start k a : DM bool).
Proof using HP Ending0.
  intros d Hd. unfold disassembleKernel. pose proof (kernelDisassemble_halts a k Logic.I) as H.
  destruct (kernelDisassemble a k); try done; by apply (HP (de_trace d)).
Qed.
Lemma disassembleUser_keeps i a : keeps PD (disassembleUser i a : DM bool).
Proof using Ending0.
  intros d Hd. unfold disassembleUser. pose proof (disassemble_halts i a (de_disassembler d) Logic.I) as H.
  by destruct (disassemble _ _ _).
Qed.
#[local] Hint Resolve disassembleKernel_keeps disassembleUser_keeps : keeps.
Lemma Disassemble_keeps a : keeps PD (Disassemble a : DM bool).
Proof using HP Ending0. unfold Disassemble. follow. Qed.
Lemma giveSrc_keeps : keeps PD (giveSrc : DM unit).
Proof using Type. unfold giveSrc. follow. Qed.
Lemma giveInst_keeps i : keeps PD (giveInst i : DM unit).
Proof using Type. unfold giveInst. follow. Qed.
#[local] Hint Resolve deliverHere_keeps Disassemble_keeps giveSrc_keeps giveInst_keeps : keeps.

Lemma sourceHere_keeps w : keeps PD (sourceHere w : DM unit).
Proof using HP Ending0. unfold sourceHere. follow. Qed.
Lemma fetchD_halts core addr : halts (fetch (Mem := TraceMem K) core addr).
Proof using Ending0. apply getInstructionByAddress_halts, fetch_halts. Qed.
#[local] Hint Resolve fetchD_halts : keeps.
Lemma retire_keeps : keeps PD (retire uninit converterStatus : DM (DQErr + bool)).
Proof using HP Ending0.
  apply onTrace_keeps, keeps_attempt.
  apply processTraceMessage_keeps; [apply fetch_halts|apply processITCPerf_halts|done].
Qed.
Lemma countTypeHere_keeps : keeps PD (countTypeHere : DM CountType).
Proof using HP. by apply onTrace_keeps, countType_keeps. Qed.
Lemma onCoreCountsD_keeps {A} k (m : M CoreCounts DQErr A) :
  halts m -> keeps PD (onTrace (onCoreCounts k m) : DM A).
Proof using HP. intros. by apply onTrace_keeps, onCoreCounts_keeps. Qed.
#[local] Hint Resolve sourceHere_keeps retire_keeps countTypeHere_keeps onCoreCountsD_keeps : keeps.
Lemma resetCountsHere_keeps : keeps PD (resetCountsHere : DM unit).
Proof using HP. unfold resetCountsHere. follow. Qed.
#[local] Hint Resolve resetCountsHere_keeps : keeps.
Lemma eventInst_keeps wI wS nm : keeps PD (eventInst uninit wI wS nm : DM unit).
Proof using HP Ending0.
  unfold eventInst. follow. apply onWalkerD_keeps, keeps_attempt, getCRBRFlags_halts, fetchD_halts.
Qed.
Lemma ownershipState_keeps c : keeps PD (ownershipState c : DM unit).
Proof using HP. unfold ownershipState. follow. Qed.
Lemma giveInstruction_keeps cr br ca : keeps PD (giveInstruction cr br ca : DM unit).
Proof using HP. unfold giveInstruction. follow. Qed.
End keeping.

#[local] Hint Resolve onWalkerD_keeps toState_keeps setStatusD_keeps deliverHere_keeps deliver_keeps
  theCore_keeps theNm_keeps atCore_keeps setAtCore_keeps Disassemble_keeps giveSrc_keeps
  giveInst_keeps sourceHere_keeps fetchD_halts retire_keeps countTypeHere_keeps onCoreCountsD_keeps
  resetCountsHere_keeps eventInst_keeps ownershipState_keeps giveInstruction_keeps giveMsg_keeps : keeps.

(** *** Turns *)

(** [leads P m Q]: from a state with [P] the turn ends; if it is to be followed by
    another one, in a state with [Q]. *)
Definition leads (P : Trace K Perf -> Prop) (m : DM Turn) (Q : Dec -> Prop) : Prop :=
  forall d, P (de_trace d) ->
    match m d with
    | Ok d' Again => Q d'
    | Ok _ (Return _) | Err _ _ | Undef => True
    | NoFuel => False
    end.

Lemma leads_bind {A} P (m : DM A) k Q :
  keeps (ofTrace P) m -> (forall a, leads P (k a) Q) -> leads P (m ≫= k) Q.
Proof.
  intros Hm Hk d Hd. unfold mbind, M_bind. specialize (Hm d Hd).
  destruct (m d) as [d1 a|d1 e| |]; try done. by apply Hk.
Qed.

Lemma leads_return P Q e : leads P (mret (Return e)) Q.
Proof. by intros d Hd. Qed.

Definition reading (b : bool) (t : Trace K Perf) : Prop := tr_readNewTraceMessage t = b.
Definition anyTrace (t : Trace K Perf) : Prop := True.
Lemma reading_flag b : flagOnly (reading b).
Proof. intros t t'. unfold reading. congruence. Qed.
Lemma anyTrace_flag : flagOnly anyTrace.
Proof. done. Qed.

(** A turn that is the last one. *)
#[local] Abbreviation last m := (leads anyTrace m (fun _ => False)).
Lemma leads_last P (m : DM Turn) Q : last m -> leads P m Q.
Proof. intros Hm d _. specialize (Hm d Logic.I). by destruct (m d) as [? []| | |]. Qed.

(** No message is to be read, and the core is in a state with [R]. *)
Definition inState (R : State -> Prop) (d : Dec) : Prop :=
  reading false (de_trace d) /\
  exists d' c, atCore d = Ok d' c /\ R (co_state c).

Lemma again_in (R : State -> Prop) s :
  R s -> leads (reading false) (toState s ≫= fun _ => mret Again) (inState R).
Proof.
  intros Hs d Hd. unfold mbind, M_bind. unfold toState, setAtCore, onTrace, zoom, setHere.
  unfold mbind, M_bind, get, setCore, coreAt, lift_opt.
  set (t := de_trace d) in *. unfold mbind, M_bind.
  destruct (if 0 <=? currentCore t then _ else _) as [c|] eqn:E; [|done].
  split; [done|]. unfold atCore, onTrace, zoom, here, coreAt, lift_opt, get.
  unfold mbind, M_bind, currentCore in *. cbn [de_trace set_trace set_cores tr_walker tr_cores].
  destruct (0 <=? wk_currentCore (tr_walker t)); [|done].
  rewrite list_lookup_insert_eq by (by apply lookup_lt_is_Some_1).
  by eexists _, _.
Qed.

Ltac lead :=
  repeat first
    [ progress intros
    | apply leads_return
    | assumption
    | match goal with
      | |- leads _ (mbind _ _) _ => apply leads_bind; [solve [follow]|]
      | |- leads _ (match ?x with _ => _ end) _ => destruct x
      | |- leads _ (let _ := _ in _) _ => cbv zeta
      | |- leads _ ((fun _ => _) _) _ => cbv beta
      end
    | solve [eauto 2 with keeps] ].

#[local] Hint Extern 1 (keeps _ (modify _)) => apply keeps_modify; done : keeps.
#[local] Hint Resolve reading_flag anyTrace_flag onTrace_keeps updateTS_keeps : keeps.

Lemma setRead_halts b : keeps (ofTrace anyTrace) (setRead b : DM unit).
Proof. apply onTrace_keeps. follow. Qed.
Lemma resetTrace_halts core : keeps anyTrace (resetTrace core : M (Trace K Perf) DQErr unit).
Proof.
  pose proof anyTrace_flag as HP. unfold resetTrace.
  pose proof (@setCore_keeps K Perf anyTrace HP).
  pose proof (@processAt_keeps K Perf anyTrace).
  pose proof (fun k m => @onCoreCounts_keeps K Perf anyTrace HP unit k m).
  pose proof (@selectReader_keeps K Perf anyTrace HP).
  pose proof (@setStatus_keeps K Perf anyTrace HP).
  follow.
Qed.
#[local] Hint Resolve setRead_halts resetTrace_halts : keeps.

Lemma returnStatus_last : last (returnStatus : DM Turn).
Proof. unfold returnStatus. lead. Qed.
Lemma finish_last e s : last (finish e s : DM Turn).
Proof. unfold finish. lead. Qed.
Lemma failed_last : last (failed : DM Turn).
Proof. apply finish_last. Qed.
#[local] Hint Resolve returnStatus_last finish_last failed_last : keeps.
Lemma tolerate_last : last (tolerate : DM Turn).
Proof. unfold tolerate. lead. Qed.
Lemma nextMessage_last : last (nextMessage : DM Turn).
Proof. unfold nextMessage. lead. Qed.
Lemma returnOk_last : last (returnOk : DM Turn).
Proof. unfold returnOk. lead. Qed.
#[local] Hint Resolve tolerate_last nextMessage_last returnOk_last : keeps.

Section turns.
Context (wI wM wS : bool).

Lemma retireOr_last k : (forall b, last (k b)) -> last (retireOr uninit converterStatus wM k : DM Turn).
Proof. intros Hk. unfold retireOr. lead. Qed.

Lemma firstDone_last b : last (firstDone wM b : DM Turn).
Proof. unfold firstDone. lead. Qed.
#[local] Hint Resolve firstDone_last : keeps.

Lemma getFirstSyncMsg_last : last (getFirstSyncMsg uninit converterStatus wI wM wS : DM Turn).
Proof.
  unfold getFirstSyncMsg. apply leads_bind; [follow|]. intros nm.
  destruct (nm_tcode nm); first [apply retireOr_last; intros b|idtac]; lead.
Qed.

Lemma retireMessage_last : last (retireMessage uninit converterStatus wM wS : DM Turn).
Proof.
  unfold retireMessage. apply leads_bind; [follow|]. intros nm.
  destruct (nm_tcode nm); first [apply retireOr_last; intros b|idtac]; lead.
Qed.

(** Which states can follow which in a call: [Again] leads to a lower rank. *)
Definition rank (s : State) : nat :=
  match s with
  | TRACE_STATE_GETNEXTMSG => 2%nat
  | TRACE_STATE_GETNEXTINSTRUCTION | TRACE_STATE_SYNCCATE => 1%nat
  | _ => 0%nat
  end.
#[local] Abbreviation down n := (inState (fun s => rank s = n)).

Lemma getNextMsg_down :
  leads (reading false) (getNextMsg uninit converterStatus uninitAddr wI wM wS : DM Turn) (down 1%nat).
Proof.
  assert (forall nm, keeps (reading false)
    (attempt (onCoreCounts (nm_coreId nm) (setCounts nm)) : M (Trace K Perf) DQErr _)) as Hc
    by (intros; apply keeps_attempt, onCoreCounts_keeps, setCounts_halts; apply reading_flag).
  unfold getNextMsg. apply leads_bind; [follow|]. intros nm.
  assert (leads (reading false)
    (toState TRACE_STATE_GETNEXTINSTRUCTION ≫= fun _ => mret Again : DM Turn) (down 1%nat)) as Ha
    by by apply again_in.
  destruct (nm_tcode nm);
    try (apply leads_last;
         first [apply retireOr_last; intros b|apply leads_bind; [follow|]; intros c; apply retireOr_last
               |idtac]; lead; fail);
    apply leads_bind; try (follow; fail); intros c; destruct (0 <=? co_currentProcessIndex c);
    try (apply leads_last; lead; fail);
    (apply leads_bind; [apply onTrace_keeps, Hc|]; intros []; [apply leads_last; lead|done]).
Qed.

Lemma consumeD_keeps P (ca : CA) ty :
  keeps (ofTrace P) (fun d => zoom (fun ca => set_caTrace (Some ca) d) (attempt (consume ty)) ca
                     : Res Dec DQErr (DQErr + CAInfo)).
Proof.
  intros d Hd. eapply (keeps_zoom (ofTrace P) (fun _ => True));
    [apply keeps_attempt, consume_halts|done|by intros ? _].
Qed.
#[local] Hint Resolve consumeD_keeps : keeps.

Lemma finish_keeps P e s : flagOnly P -> keeps (ofTrace P) (finish e s : DM Turn).
Proof. intros HP. unfold finish. follow. Qed.
#[local] Hint Resolve finish_keeps : keeps.

Lemma cycles_keeps ty : keeps (ofTrace (reading false)) (cycles ty : DM (Turn + option (CAInfo * Z))).
Proof. unfold cycles, failed. follow. Qed.
#[local] Hint Resolve cycles_keeps : keeps.

(** What [cycles] answers is never another turn. *)
Definition yields {A} (R : A -> Prop) (m : DM A) : Prop := forall d d' a, m d = Ok d' a -> R a.

Lemma yields_bind {A B} (R : B -> Prop) (m : DM A) k : (forall a, yields R (k a)) -> yields R (m ≫= k).
Proof. intros Hk d d' b (d1 & a & _ & H)%bind_inv. by eapply Hk. Qed.
Lemma yields_ret {A} (R : A -> Prop) a : R a -> yields R (mret a).
Proof. intros Ha d d' b [= _ <-]. done. Qed.

Definition returning (r : Turn) : Prop := match r with Return _ => True | Again => False end.

Lemma finish_yields e s : yields (fun r => returning r) (finish e s).
Proof. unfold finish. repeat (apply yields_bind; intros). by apply yields_ret. Qed.

Lemma finish_inl_yields {B} e s :
  yields (fun x : Turn + B => match x with inl r => returning r | inr _ => True end)
    (r ← finish e s; mret (inl r)).
Proof.
  intros d d' b (d1 & r & Hr & [= _ <-])%bind_inv. exact (finish_yields _ _ _ _ _ Hr).
Qed.

Lemma cycles_yields ty :
  yields (fun x => match x with inl r => returning r | inr _ => True end) (cycles ty : DM _).
Proof.
  unfold cycles, failed.
  repeat first [apply finish_inl_yields|by apply yields_ret|apply yields_bind; intros
               |match goal with |- yields _ (match ?x with _ => _ end) => destruct x end].
Qed.

Lemma leads_yields {A} P R (m : DM A) k Q :
  keeps (ofTrace P) m -> yields R m -> (forall a, R a -> leads P (k a) Q) -> leads P (m ≫= k) Q.
Proof.
  intros Hm HR Hk d Hd. unfold mbind, M_bind. specialize (Hm d Hd). specialize (HR d).
  destruct (m d) as [d1 a|d1 e| |]; try done. by eapply Hk; [eapply HR|].
Qed.

Lemma instructionDone_down inst addr cr br :
  leads (reading false) (instructionDone wI wS inst addr cr br : DM Turn) (down 0%nat).
Proof.
  assert (leads (reading false)
    (toState TRACE_STATE_RETIREMESSAGE ≫= fun _ => mret Again : DM Turn) (down 0%nat)) as Ha
    by by apply again_in.
  assert (leads (reading false) (returnStatus : DM Turn) (down 0%nat)) by apply leads_last, returnStatus_last.
  unfold instructionDone. apply leads_bind; [follow|]. intros _.
  eapply leads_yields; [follow|apply cycles_yields|].
  intros [[e|]|ca] Hr; [apply leads_return|done|]. lead.
Qed.

Lemma getNextInstruction_down :
  leads (reading false) (getNextInstruction uninit wI wM wS : DM Turn) (down 0%nat).
Proof.
  assert (leads (reading false)
    (toState TRACE_STATE_RETIREMESSAGE ≫= fun _ => mret Again : DM Turn) (down 0%nat)) as Ha
    by by apply again_in.
  pose proof instructionDone_down as Hd.
  assert (leads (reading false) (deliverHere wM false ≫= fun _ => tolerate : DM Turn) (down 0%nat)) as Hb
    by (apply leads_last; lead).
  assert (forall pc, keeps (ofTrace (reading false))
    (onTrace (onWalker (attempt (inst ← readInst pc;
       modify (set_wstatus DQERR_OK) ≫= fun _ => decodeInst uninit inst))) : DM _)) as Hread.
  { intros pc. apply onWalkerD_keeps; [apply reading_flag|]. apply keeps_attempt.
    pose proof (readInst_halts (fetchD_halts)). pose proof (@decodeInst_halts (TraceMem K) uninit).
    follow. }
  assert (forall core pc nm, keeps (ofTrace (reading false))
    (onTrace (onWalker (attempt (nextAddr uninit core pc nm))) : DM _)) as Hnext.
  { intros. apply onWalkerD_keeps; [apply reading_flag|].
    apply keeps_attempt, nextAddr_halts, fetchD_halts. }
  unfold getNextInstruction. lead.
Qed.

Lemma nextCAAddr_halts addr saved : halts (nextCAAddr (K := K) uninit addr saved).
Proof.
  unfold nextCAAddr. apply keeps_bind.
  - apply keeps_attempt. intros w _. eapply keeps_zoom; [apply elfFetch_halts|done..].
  - pose proof (@decodeInst_halts (TraceMem K) uninit). follow.
Qed.

Lemma caSync_down n te saved : keeps (ofTrace (reading false)) (caSync uninit n te saved : DM (option Turn)).
Proof.
  pose proof reading_flag.
  revert saved. induction n as [|n IH]; intros saved; cbn [caSync]; [follow|].
  apply keeps_bind; [follow|]. intros d. destruct (te =? _); [follow|].
  apply keeps_bind; [apply onWalkerD_keeps; [auto|apply nextCAAddr_halts]|]. intros [[a s] ok].
  apply keeps_bind; [follow|]. intros _. destruct (negb ok); [follow|].
  apply keeps_bind.
  - intros d' Hd. destruct (de_caTrace d') as [ca|]; [|done].
    exact (consumeD_keeps (reading false) ca INST_SCALER d' Hd).
  - follow.
Qed.

Lemma rewind_keeps : keeps (ofTrace (reading false)) (rewindCATrace : DM unit).
Proof.
  pose proof reading_flag. unfold rewindCATrace. apply keeps_bind; [follow|]. intros _. apply keeps_bind.
  - intros d Hd. destruct (de_caTrace d) as [ca|]; [|done].
    eapply (keeps_zoom (ofTrace (reading false)) (fun _ => True));
      [apply keeps_attempt, rewind_halts|done|by intros ? _].
  - intros _. apply keeps_modify. intros d. by destruct (de_caTrace d).
Qed.

Lemma finish_some_yields e s :
  yields (fun o => match o with Some r => returning r | None => True end)
    (r ← finish e s; mret (Some r)).
Proof.
  intros d d' b (d1 & r & Hr & [= _ <-])%bind_inv. exact (finish_yields _ _ _ _ _ Hr).
Qed.

Lemma caSync_yields n te saved :
  yields (fun o => match o with Some r => returning r | None => True end)
    (caSync uninit n te saved : DM (option Turn)).
Proof.
  revert saved. induction n as [|n IH]; intros saved; cbn [caSync]; [by apply yields_ret|].
  repeat first [by apply yields_ret|apply IH
    |apply finish_some_yields
    |match goal with |- yields _ (match ?x with _ => _ end) => destruct x end
    |apply yields_bind; intros].
Qed.

Lemma syncCATE_down :
  leads (reading false) (syncCATE uninit converterStatus wM : DM Turn) (down 0%nat).
Proof.
  assert (leads (reading false)
    (toState TRACE_STATE_GETFIRSTSYNCMSG ≫= fun _ => mret Again : DM Turn) (down 0%nat)) as Ha
    by by apply again_in.
  assert (forall (f : Dec -> Dec), (forall d, tr_readNewTraceMessage (de_trace (f d)) =
    tr_readNewTraceMessage (de_trace d)) -> keeps (ofTrace (reading false)) (modify f : DM unit)) as Hm.
  { intros f Hf. apply keeps_modify. intros d. unfold ofTrace, reading. by rewrite Hf. }
  assert (forall b a f, keeps (ofTrace anyTrace) (deliverBare wM b a f : DM unit)) as Hb
    by (intros; unfold deliverBare; follow).
  unfold syncCATE. cbv zeta. apply leads_bind; [follow|]. intros d0.
  apply leads_bind; [follow|]. intros nm. destruct (de_caTrace d0); [|apply leads_last, failed_last].
  destruct (nm_tcode nm);
    match goal with
    | |- leads _ (mbind _ (lift_opt _)) _ => idtac
    | |- _ => apply leads_last; lead
    end;
    (apply leads_bind; [follow|]; intros [[]|te];
     [apply leads_last; lead|apply leads_last, failed_last|]);
    (apply leads_bind; [apply Hm; intros d; by destruct (de_caTrace d)|]; intros _);
    (eapply leads_yields; [apply caSync_down|apply caSync_yields|]);
    (intros [[e|]|] Hr; [apply leads_return|done|]);
    (apply leads_bind; [follow|]; intros d1);
    (apply leads_bind; [destruct (te =? _); [follow|apply rewind_keeps]|by intros]).
Qed.

(** One turn. *)
Lemma turn_down d :
  reading false (de_trace d) ->
  match turn uninit converterStatus uninitAddr wI wM wS d with
  | Ok d' Again => exists d1 c, atCore d = Ok d1 c /\ inState (fun s => (rank s < rank (co_state c))%nat) d'
  | Ok _ (Return _) | Err _ _ | Undef => True
  | NoFuel => False
  end.
Proof.
  intros Hd. unfold turn. pose proof (atCore_keeps (reading false) d Hd) as Hk.
  unfold mbind, M_bind. destruct (atCore d) as [d1 c|d1 e| |] eqn:E; try done.
  assert (forall (m : DM Turn) n, leads (reading false) m (down n) -> (n < rank (co_state c))%nat ->
    match m d1 with
    | Ok d' Again => exists d2 c', Ok d1 c = Ok (E := DQErr) d2 c' /\
        inState (fun s => (rank s < rank (co_state c'))%nat) d'
    | Ok _ (Return _) | Err _ _ | Undef => True
    | NoFuel => False
    end) as Hdown.
  { intros m n Hm Hn. specialize (Hm d1 Hk). destruct (m d1) as [d2 []| | |]; try done.
    exists d1, c. split; [done|]. destruct Hm as (Hr & d3 & c3 & H3 & HR). split; [done|].
    exists d3, c3. by rewrite HR. }
  assert (forall m : DM Turn, last m ->
    match m d1 with
    | Ok d' Again => exists d2 c', Ok d1 c = Ok (E := DQErr) d2 c' /\
        inState (fun s => (rank s < rank (co_state c'))%nat) d'
    | Ok _ (Return _) | Err _ _ | Undef => True
    | NoFuel => False
    end) as Hlast.
  { intros m Hm. specialize (Hm d1 Logic.I). by destruct (m d1) as [d2 []| | |]. }
  destruct (co_state c) eqn:Es.
  - eapply (Hdown _ 0%nat); [apply syncCATE_down|cbn; lia].
  - apply Hlast, getFirstSyncMsg_last.
  - apply Hlast, retireMessage_last.
  - eapply (Hdown _ 1%nat); [apply getNextMsg_down|cbn; lia].
  - eapply (Hdown _ 0%nat); [apply getNextInstruction_down|cbn; lia].
  - done.
  - done.
Qed.
End turns.

Lemma prepare_reads d :
  match prepare et_controlIndex d with
  | Ok d' (inl r) => returning r
  | Ok d' (inr _) => reading false (de_trace d')
  | Err _ _ | Undef => True
  | NoFuel => False
  end.
Proof.
  unfold prepare. unfold mbind at 1, M_bind at 1. cbn [setRead onTrace zoom modify].
  set (d1 := set_trace _ d). assert (reading false (de_trace d1)) as Hd1 by done.
  match goal with |- match ?m d1 with _ => _ end =>
    assert (keeps (ofTrace (reading false)) m) as Hk;
    [|assert (yields (fun x => match x with inl r => returning r | inr _ => True end) m) as Hy;
      [|specialize (Hk d1 Hd1); specialize (Hy d1); destruct (m d1) as [d' [r|h]| | |];
        [exact (Hy _ _ eq_refl)|exact Hk|done..]]]
  end.
  - pose proof reading_flag. unfold failed.
    assert (forall f, (forall w, wk_status (f w) = wk_status w) ->
      keeps (ofTrace (reading false)) (onTrace (onWalker (modify f)) : DM unit)) as Hw
      by (intros; apply onWalkerD_keeps; follow).
    assert (forall n, keeps (ofTrace (reading false)) (onTrace (modify (set_nm n)) : DM unit)) as Hn
      by (intros; apply onTrace_keeps, keeps_modify; done).
    follow; first [apply Hw|apply Hn]; done.
  - cbv zeta. unfold failed.
    repeat first [apply finish_inl_yields|by apply yields_ret
      |match goal with |- yields _ (match ?x with _ => _ end) => destruct x end
      |apply yields_bind; intros].
Qed.

(** From a state in which no message is to be read. *)
Lemma loop_halts wI wM wS fuel : forall n d,
  inState (fun s => (rank s < n)%nat) d -> (n <= fuel)%nat ->
  loop uninit converterStatus et_controlIndex uninitAddr wI wM wS fuel d <> NoFuel.
Proof.
  induction fuel as [|fuel IH]; intros n d (Hr & d0 & c0 & Hc0 & HR) Hn; [lia|]. cbn [loop].
  erewrite bind_ok by done. unfold reading in Hr. rewrite Hr.
  erewrite bind_ok by done. cbv beta iota.
  pose proof (turn_down (wI && negb false) (wM && negb false) (wS && negb false) d Hr) as Ht.
  unfold mbind, M_bind. destruct (turn _ _ _ _ _ _ d) as [d' [e|]|d' e| |]; try done.
  destruct Ht as (d1 & c & Hc & Hin). rewrite Hc0 in Hc. simplify_eq.
  by apply (IH (rank (co_state c))); [|lia].
Qed.
End decoder.

(** ** A call on a file *)

Section call.
Context {K Perf D I CA : Type} `{!CodeMemory K} `{!PerfSink Perf} `{!Disassembly K D}.
Context `{!ItcSink I} `{!CycleTrace CA} `{!Ending K Perf D I CA}.
Context (uninit : Inst) (converterStatus : Z -> DQErr) (et_controlIndex uninitAddr : Z).
Implicit Type d : Decoder K Perf File D I CA.
#[local] Abbreviation Next wI wM wS :=
  (NextInstruction uninit converterStatus et_controlIndex uninitAddr wI wM wS).

(** Reading a message, when errors are not tolerated. *)
Lemma readLoop_halts fuel d p :
  de_sfp d = Some p -> frame_ok p -> (length (pending (sp_source p)) < fuel)%nat ->
  se_tolerateErrors (tr_settings (de_trace d)) = false ->
  readLoop fuel d <> NoFuel.
Proof using Ending0.
  intros Hp Hok Hf Ht. destruct fuel as [|fuel]; [lia|]. cbn [readLoop].
  erewrite bind_ok by done.
  pose proof (readNextTraceMsg_halts (S fuel) (tr_nm (de_trace d)) p (de_analytics d) Hok Hf) as Hr.
  unfold mbind at 1, M_bind at 1, attempt, onSfp. rewrite Hp. unfold zoom.
  destruct (readNextTraceMsg _ _ _) as [[p' a'] [nm|]|[p' a'] e| |]; try done.
  - by destruct (Hr eq_refl).
  - clear Hr.
    assert (forall (m : M (Decoder K Perf File D I CA) DQErr (option DQErr)) d',
      keeps (ofTrace anyTrace) m -> m d' <> NoFuel) as Hm.
    { intros m d' Hm E. specialize (Hm d' Logic.I). by rewrite E in Hm. }
    pose proof (toState_keeps (K := K) (Perf := Perf) (Src := File) (D := D) (I := I) (CA := CA)
                  anyTrace anyTrace_flag) as Hto.
    pose proof (setStatusD_keeps (K := K) (Perf := Perf) (Src := File) (D := D) (I := I) (CA := CA)
                  anyTrace anyTrace_flag) as Hst.
    destruct e; try (apply Hm; follow; fail).
    cbv beta iota. erewrite bind_ok by done. erewrite bind_ok by done.
    change (tr_settings (de_trace _)) with (tr_settings (de_trace d)). rewrite Ht.
    apply Hm. follow.
Qed.

(** Every call returns: it takes at most three turns after reading a message. *)
Lemma NextInstruction_returns wI wM wS fuel d p :
  de_sfp d = Some p -> frame_ok p ->
  se_tolerateErrors (tr_settings (de_trace d)) = false ->
  (length (pending (sp_source p)) + 3 < fuel)%nat ->
  Next wI wM wS fuel d <> NoFuel.
Proof using Ending0.
  intros Hp Hok Ht Hf. unfold NextInstruction. erewrite bind_ok by done. erewrite bind_ok by done.
  cbn [set_out de_sfp de_trace]. rewrite Hp.
  destruct (decide _); [|done].
  set (d1 := set_trace (set_tolerantError false (de_trace d)) (set_out noOut d)).
  rewrite (bind_ok _ _ _ d1 tt) by done.
  assert (de_sfp d1 = Some p) as Hp1 by done.
  assert (se_tolerateErrors (tr_settings (de_trace d1)) = false) as Ht1 by done.
  clearbody d1. destruct fuel as [|fuel]; [lia|]. cbn [loop]. erewrite bind_ok by done.
  assert (forall (h : bool) d2, reading false (de_trace d2) ->
    (r ← turn uninit converterStatus uninitAddr (wI && negb h) (wM && negb h) (wS && negb h);
     match r with
     | Return rc => mret rc
     | Again => loop uninit converterStatus et_controlIndex uninitAddr wI wM wS fuel
     end) d2 <> NoFuel) as Hturn.
  { intros h d2 Hr. unfold mbind, M_bind.
    pose proof (turn_down uninit converterStatus uninitAddr (wI && negb h) (wM && negb h)
                  (wS && negb h) d2 Hr) as Hd.
    destruct (turn _ _ _ _ _ _ d2) as [d3 [rc|]|d3 er| |]; try done.
    destruct Hd as (d4 & c & _ & Hin). eapply loop_halts; [exact Hin|].
    destruct (co_state c); cbn; lia. }
  destruct (tr_readNewTraceMessage (de_trace d1)) eqn:Er.
  - pose proof (readLoop_halts (S fuel) d1 p Hp1 Hok ltac:(lia) Ht1) as Hl.
    rewrite bind_assoc. unfold mbind at 1, M_bind at 1.
    destruct (readLoop (S fuel) d1) as [d2 [rc|]|d2 er| |]; try done.
    pose proof (prepare_reads et_controlIndex d2) as Hpr.
    unfold mbind at 1, M_bind at 1.
    destruct (prepare et_controlIndex d2) as [d3 [r|h]|d3 er| |]; try done.
    + by destruct r.
    + by apply (Hturn h d3).
  - erewrite bind_ok by done. by apply (Hturn false d1).
Qed.
End call.

(** ** A message that is too long *)

(** A file whose next message is longer than 64 bytes. *)
Lemma readBinaryMsg_long fuel (p : SliceParser File) rest :
  frame_ok p -> sp_status p = DQERR_OK -> next_frame (stream p) = FLong rest ->
  (length (pending (sp_source p)) < fuel)%nat ->
  exists p', readBinaryMsg fuel p = Err p' DQERR_BM /\ sp_status p' = DQERR_BM.
Proof.
  intros Hok Hs Hl Hf. pose proof (readBinaryMsg_spec fuel p Hok Hs Hf) as Hb.
  unfold frame_post in Hb. rewrite Hl in Hb.
  destruct (readBinaryMsg fuel p) as [p' [|]|p' e| |]; try done.
  - by destruct Hb as (_&_&_&_&_&_&_&?).
  - by destruct Hb as (_&_&_&_&?).
  - destruct Hb as (Hok' & Hs' & [[-> _]|(Hfail & Hn & Hi)]); [by exists p'|].
    exfalso. destruct Hfail as [Hr _]. destruct (decide (sp_pendingMsgIndex p' = 0)) as [E|].
    + unfold stream, carried in Hn. cbn in Hn. by rewrite E, Hr in Hn.
    + rewrite next_frame_carried in Hn by (done || destruct Hok'; lia).
      cbn [pending File_laws] in Hn. change (pending (sp_source p')) with (f_rest (sp_source p')) in Hn.
      rewrite Hr in Hn. unfold MSG_SIZE in *.
      destruct (64 - Z.to_nat (sp_pendingMsgIndex p'))%nat eqn:E; [destruct Hok'; lia|done].
Qed.

Section overlong.
Context {K Perf D I CA : Type} `{!CodeMemory K} `{!PerfSink Perf}.
Context `{!Disassembly K D} `{!ItcSink I} `{!CycleTrace CA}.
Context (uninit : Inst) (converterStatus : Z -> DQErr) (et_controlIndex uninitAddr : Z).
Implicit Type d : Decoder K Perf File D I CA.

Lemma resetTrace_keeps_processes (t : Trace K Perf) pr :
  tr_processes t !! 0%nat = Some pr ->
  exists t', resetTrace (-1) t = Ok t' tt /\ tr_settings t' = tr_settings t /\
    tr_processes t' = tr_processes t.
Proof using Type.
  intros Hp. unfold resetTrace.
  assert (processAt 0 t = Ok t pr) as E.
  { unfold processAt. change (Z.to_nat 0) with 0%nat. cbn [Z.leb Z.compare]. by rewrite Hp. }
  erewrite bind_ok by exact E. by eexists.
Qed.

(** A bad message is tolerated: the decoder resets itself and asks again. *)
Lemma readLoop_again fuel d p p' a' :
  de_sfp d = Some p ->
  readNextTraceMsg (S fuel) (tr_nm (de_trace d)) (p, de_analytics d) = Err (p', a') DQERR_BM ->
  se_tolerateErrors (tr_settings (de_trace d)) = true ->
  is_Some (tr_processes (de_trace d) !! 0%nat) ->
  exists d', readLoop (S fuel) d = readLoop fuel d' /\ de_sfp d' = Some p' /\
    se_tolerateErrors (tr_settings (de_trace d')) = true /\
    is_Some (tr_processes (de_trace d') !! 0%nat).
Proof using Type.
  intros Hp Er Ht [pr Hpr]. cbn [readLoop]. set (d1 := set_sfp (Some p') (set_analytics a' d)).
  assert (attempt (onSfp (readNextTraceMsg (S fuel) (tr_nm (de_trace d)))) d = Ok d1 (inl DQERR_BM)) as E
    by (unfold attempt, onSfp, zoom; by rewrite Hp, Er).
  set (d2 := set_trace (set_tolerantError true (de_trace d1)) d1).
  destruct (resetTrace_keeps_processes (de_trace d2) pr Hpr) as (t' & Et & Hse & Hps).
  exists (set_trace t' d2). split; [|split; [done|split; [by cbn; rewrite Hse|exists pr; by cbn; rewrite Hps]]].
  erewrite bind_ok by done. erewrite bind_ok by exact E. cbv beta iota.
  rewrite (bind_ok _ _ d1 d2 tt) by done. erewrite bind_ok by done.
  change (tr_settings (de_trace d2)) with (tr_settings (de_trace d)). rewrite Ht.
  by rewrite (bind_ok (onTrace (resetTrace (-1))) _ d2 (set_trace t' d2) tt)
    by (unfold onTrace, zoom; by rewrite Et).
Qed.

(** The parser keeps the error and answers it again without reading. *)
Lemma readLoop_hangs fuel : forall d p,
  de_sfp d = Some p -> sp_status p = DQERR_BM ->
  se_tolerateErrors (tr_settings (de_trace d)) = true ->
  is_Some (tr_processes (de_trace d) !! 0%nat) ->
  readLoop fuel d = NoFuel.
Proof using Type.
  induction fuel as [|fuel IH]; intros d p Hp Hs Ht Hpr; [done|].
  destruct (readLoop_again fuel d p p (de_analytics d)) as (d' & -> & ? & ? & ?); [done| |done..|].
  - rewrite readNextTraceMsg_stuck by (by rewrite Hs). by rewrite Hs.
  - by apply (IH d' p).
Qed.

(** No number of turns is enough. *)
Lemma NextInstruction_hangs wI wM wS fuel d p rest :
  de_sfp d = Some p -> frame_ok p -> sp_status p = DQERR_OK ->
  next_frame (stream p) = FLong rest ->
  wk_status (tr_walker (de_trace d)) = DQERR_OK ->
  tr_readNewTraceMessage (de_trace d) = true ->
  se_tolerateErrors (tr_settings (de_trace d)) = true ->
  is_Some (tr_processes (de_trace d) !! 0%nat) ->
  (length (pending (sp_source p)) < fuel)%nat ->
  NextInstruction uninit converterStatus et_controlIndex uninitAddr wI wM wS fuel d = NoFuel.
Proof using Type.
  intros Hp Hok Hs Hl Hw Hread Ht Hpr Hf. unfold NextInstruction.
  erewrite bind_ok by done. erewrite bind_ok by done. cbn [set_out de_sfp de_trace].
  rewrite Hp, decide_True by done.
  set (d1 := set_trace (set_tolerantError false (de_trace d)) (set_out noOut d)).
  rewrite (bind_ok _ _ _ d1 tt) by done.
  assert (de_sfp d1 = Some p) as Hp1 by done.
  destruct fuel as [|fuel]; [lia|]. cbn [loop]. erewrite bind_ok by done.
  change (tr_readNewTraceMessage (de_trace d1)) with (tr_readNewTraceMessage (de_trace d)).
  rewrite Hread, bind_assoc. unfold mbind at 1, M_bind at 1.
  enough (readLoop (S fuel) d1 = NoFuel) as -> by done.
  destruct (readBinaryMsg_long (S fuel) p rest Hok Hs Hl Hf) as (p' & Eb & Hs').
  destruct (readLoop_again fuel d1 p p' (de_analytics d1)) as (d' & -> & ? & ? & ?);
    [done| |done..|by apply (readLoop_hangs _ _ p')].
  unfold readNextTraceMsg. cbn [fst snd]. by rewrite decide_True, Eb by done.
Qed.
End overlong.

(** ** The end of a trace

    At the end of the file, and after an error, every call returns the same code
    and changes nothing any more. *)

(** *** Reading at the end of a file *)

Lemma readBinaryMsg_eof fuel (p : SliceParser File) :
  sp_flushMessage p = false -> sp_pendingMsgIndex p = 0 -> f_rest (sp_source p) = [] ->
  f_ioerr (sp_source p) = false ->
  readBinaryMsg (S fuel) p = Err (set_status DQERR_EOF p) DQERR_EOF.
Proof.
  intros Hf Hi Hr He.
  assert (next_byte (sp_source p) = (sp_source p, RFail DQERR_EOF)) as En
    by (change (file_next (sp_source p) = (sp_source p, RFail DQERR_EOF)); unfold file_next;
        by rewrite Hr, He).
  unfold readBinaryMsg. erewrite bind_ok by done. rewrite Hf.
  erewrite bind_ok by done. cbn [negb]. erewrite bind_ok by done. rewrite Hi. cbn [Z.eqb].
  erewrite bind_err; [done|]. cbn [findStart]. erewrite bind_err; [done|].
  unfold nextByte. rewrite En. by destruct p.
Qed.

Lemma readNextTraceMsg_eof fuel (p : SliceParser File) a nm :
  sp_status p = DQERR_OK -> sp_flushMessage p = false -> sp_pendingMsgIndex p = 0 ->
  f_rest (sp_source p) = [] -> f_ioerr (sp_source p) = false ->
  readNextTraceMsg (S fuel) nm (p, a) = Err (set_status DQERR_EOF p, a) DQERR_EOF.
Proof.
  intros Hs Hf Hi Hr He. unfold readNextTraceMsg. cbn [fst snd]. rewrite decide_True by done.
  rewrite readBinaryMsg_eof by done. by destruct p.
Qed.

(** *** The decoder *)

Section ending.
Context {K Perf Src D I CA : Type} `{!CodeMemory K} `{!PerfSink Perf} `{!ByteSource Src}.
Context `{!Disassembly K D} `{!ItcSink I} `{!CycleTrace CA}.
Context (uninit : Inst) (converterStatus : Z -> DQErr) (et_controlIndex uninitAddr : Z).
Context (wantInst wantMsg wantSrc : bool).

(** A call after an error. *)
Lemma NextInstruction_stuck fuel (d : Decoder K Perf Src D I CA) p :
  de_sfp d = Some p -> wk_status (tr_walker (de_trace d)) <> DQERR_OK ->
  NextInstruction uninit converterStatus et_controlIndex uninitAddr wantInst wantMsg wantSrc fuel d =
    Ok (set_out noOut d) (wk_status (tr_walker (de_trace d))).
Proof.
  intros Hp Hs. unfold NextInstruction. erewrite bind_ok by done. erewrite bind_ok by done.
  cbn [set_out de_sfp]. rewrite Hp. by rewrite decide_False by done.
Qed.
End ending.

Section end_of_file.
Context {K Perf D I CA : Type} `{!CodeMemory K} `{!PerfSink Perf}.
Context `{!Disassembly K D} `{!ItcSink I} `{!CycleTrace CA}.
Context (uninit : Inst) (converterStatus : Z -> DQErr) (et_controlIndex uninitAddr : Z).
Context (wantInst wantMsg wantSrc : bool).
Implicit Type d : Decoder K Perf File D I CA.

#[local] Abbreviation Next :=
  (NextInstruction uninit converterStatus et_controlIndex uninitAddr wantInst wantMsg wantSrc).

(** The parser is at the end of its file. *)
Record at_eof (p : SliceParser File) : Prop := {
  ae_status : sp_status p = DQERR_OK;
  ae_flush : sp_flushMessage p = false;
  ae_pending : sp_pendingMsgIndex p = 0;
  ae_rest : f_rest (sp_source p) = [];
  ae_io : f_ioerr (sp_source p) = false;
}.

Lemma readLoop_eof fuel d p c cc :
  de_sfp d = Some p -> at_eof p -> here_is c cc (de_trace d) ->
  exists d', readLoop (S fuel) d = Ok d' (Some DQERR_EOF) /\ de_out d' = de_out d /\
    wk_status (tr_walker (de_trace d')) = DQERR_EOF /\ is_Some (de_sfp d').
Proof.
  intros Hp [] Hc. set (d1 := set_sfp (Some (set_status DQERR_EOF p)) d).
  assert (attempt (onSfp (readNextTraceMsg (S fuel) (tr_nm (de_trace d)))) d = Ok d1 (inl DQERR_EOF)) as E1.
  { unfold attempt, onSfp, zoom. rewrite Hp, readNextTraceMsg_eof by done. by destruct d. }
  assert (toState TRACE_STATE_DONE d1 =
    Ok (set_trace (put_here (set_state TRACE_STATE_DONE c) cc (de_trace d)) d1) tt) as E2.
  { unfold toState, setAtCore, onTrace, zoom. by rewrite (setHere_ok c cc (de_trace d)). }
  eexists. split.
  - cbn [readLoop]. erewrite bind_ok by done. erewrite bind_ok by exact E1. cbn beta iota.
    erewrite bind_ok by exact E2. by erewrite bind_ok by done.
  - done.
Qed.

(** The first call at the end of the file, and all that follow. *)
Lemma NextInstruction_eof fuel d p c cc :
  de_sfp d = Some p -> at_eof p -> wk_status (tr_walker (de_trace d)) = DQERR_OK ->
  tr_readNewTraceMessage (de_trace d) = true -> here_is c cc (de_trace d) ->
  exists d', Next (S fuel) d = Ok d' DQERR_EOF /\ de_out d' = noOut /\
    forall fuel', Next fuel' d' = Ok d' DQERR_EOF.
Proof.
  intros Hp He Hw Hread Hc.
  set (d1 := set_trace (set_tolerantError false (de_trace d)) (set_out noOut d)).
  destruct (readLoop_eof fuel d1 p c cc Hp He) as (d' & E & Ho & Hst & [p' Hp']); [by destruct Hc|].
  exists d'. split; [|split; [done|]].
  - unfold NextInstruction. erewrite bind_ok by done. erewrite bind_ok by done.
    cbn [set_out de_sfp de_trace]. rewrite Hp, decide_True by done.
    rewrite (bind_ok _ _ _ d1 tt) by done. cbn [loop]. erewrite (bind_ok get) by done.
    change (tr_readNewTraceMessage (de_trace d1)) with (tr_readNewTraceMessage (de_trace d)).
    rewrite Hread. erewrite bind_ok by (by erewrite bind_ok by exact E). by erewrite bind_ok by done.
  - intros fuel'.
    rewrite (NextInstruction_stuck _ _ _ _ _ _ _ fuel' d' p') by (done || by rewrite Hst).
    rewrite Hst. f_equal. destruct d'. cbn in *. by rewrite Ho.
Qed.
End end_of_file.
