(* ===== verification/Assembly.v ===== *)
(** * The parts put together

    [PerfConverter] and [ITCPrint] as parts of the decoder: their operations end, so
    that every call of the assembled decoder does. *)

From S2P Require Import Prelude Nexus Analytics Memory NextAddr Perf State ItcPrint Cycles NextInstr Termination.

(** ** [PerfConverter] *)

#[local] Abbreviation St := (PerfCore * list (Z * Z * PerfLine))%type.
#[local] Abbreviation PM := (M St DQErr).

(** The states in which a write is always consumed, or fails. *)
Definition taking (s : St) : Prop :=
  pf_state s.1 = perfStateSync \/ pf_state s.1 = perfStateGetCntrRecord \/ pf_state s.1 = perfStateError.

(** [m] ends, and if it does not consume the write it leaves such a state. *)
Definition settles (m : PM bool) : Prop := forall s,
  match m s with
  | Ok s' false => taking s'
  | Ok _ true | Err _ _ | Undef => True
  | NoFuel => False
  end.

Lemma settles_bind {A} (m : PM A) k : halts m -> (forall a, settles (k a)) -> settles (m ≫= k).
Proof.
  intros Hm Hk s. unfold mbind, M_bind. specialize (Hm s I). destruct (m s); try done. apply Hk.
Qed.
Lemma settles_true (m : PM unit) : halts m -> settles (m ≫= fun _ => mret true).
Proof. intros Hm. by apply settles_bind. Qed.
Lemma settles_to s : s = perfStateSync \/ s = perfStateGetCntrRecord \/ s = perfStateError ->
  settles (toPerf s ≫= fun _ => mret false).
Proof. intros Hs [c l]. cbn. destruct Hs as [-> |[-> | ->]]; [by left|by right; left|by right; right]. Qed.

Ltac settle :=
  repeat first
    [ progress intros
    | apply settles_to; tauto
    | apply settles_true; solve [follow]
    | match goal with
      | |- settles (mret true) => by intros ?
      | |- settles (throw _) => by intros ?
      | |- settles (match ?x with _ => _ end) => destruct x
      | |- settles (mbind _ _) => apply settles_bind; [solve [follow]|]
      end ].

Lemma updPerf_halts f : halts (updPerf f).
Proof. by intros [c l] _. Qed.
Lemma toPerf_halts s : halts (toPerf s).
Proof. apply updPerf_halts. Qed.
Lemma perfLine_halts core ts x : halts (perfLine core ts x).
Proof. by intros [c l] _. Qed.
#[local] Hint Resolve updPerf_halts toPerf_halts perfLine_halts : keeps.

Lemma startCnts_halts : halts startCnts.
Proof. unfold startCnts. follow. Qed.
#[local] Hint Resolve startCnts_halts : keeps.
Lemma gotAddr_halts core ts a : halts (gotAddr core ts a).
Proof. unfold gotAddr. follow. Qed.
Lemma gotCallSite_halts core ts a : halts (gotCallSite core ts a).
Proof. unfold gotCallSite. follow. Qed.
Lemma saveLow_halts x : halts (saveLow x).
Proof. apply updPerf_halts. Qed.
Lemma emitCount_halts core ts d : halts (emitCount core ts d).
Proof. unfold emitCount. follow. Qed.
Lemma advance_halts : halts advance.
Proof. unfold advance. follow. Qed.
#[local] Hint Resolve gotAddr_halts gotCallSite_halts saveLow_halts emitCount_halts advance_halts : keeps.

Lemma getAddress_settles data got : (forall a, halts (got a)) -> settles (getAddress data got).
Proof. intros Hg. unfold getAddress. settle. Qed.

Lemma getCnts_settles core ts addr data : settles (getCnts core ts addr data).
Proof.
  unfold getCnts. apply settles_bind; [follow|]. intros [c l]. destruct (Z.land addr 3) as [|[p|[p|p|]|]|p]; settle.
Qed.

Lemma perfTurn_settles marker core ts addr data : settles (perfTurn marker core ts addr data).
Proof.
  unfold perfTurn. apply settles_bind; [follow|]. intros [c l].
  destruct (pf_state c); try (apply getAddress_settles; intros; follow); try apply getCnts_settles; settle.
Qed.

Lemma taking_consumes marker core ts addr data s : taking s ->
  match perfTurn marker core ts addr data s with Ok _ b => b = true | Err _ _ | Undef => True | NoFuel => False end.
Proof.
  intros Hs. destruct s as [c l]. unfold perfTurn. rewrite bind_get. unfold taking in Hs. cbn [fst] in Hs.
  destruct Hs as [-> |[-> | ->]]; [by destruct (data =? marker)|by destruct (Z.land addr 3 =? 3)|done].
Qed.

Lemma perfLoop_halts marker core ts addr data : halts (perfLoop marker core ts addr data 3).
Proof.
  intros s _. cbn [perfLoop]. unfold mbind at 1, M_bind at 1. pose proof (perfTurn_settles marker core ts addr data s) as H.
  destruct (perfTurn marker core ts addr data s) as [s1 [|]|s1 e| |]; try done.
  unfold mbind at 1, M_bind at 1. pose proof (taking_consumes marker core ts addr data s1 H) as H2.
  destruct (perfTurn marker core ts addr data s1) as [s2 b|s2 e| |]; try done. by rewrite H2.
Qed.

Lemma perfProcess_halts core ts addr data : halts (perfProcess core ts addr data).
Proof.
  intros p _. unfold perfProcess. cbn zeta. destruct (_ || _); [done|].
  destruct (pc_cores p !! Z.to_nat core) as [c|]; [|done].
  pose proof (perfLoop_halts (pc_markerValue p) core ts addr data (c, pc_lines p) I) as H.
  by destruct (perfLoop _ _ _ _ _ _ _).
Qed.

(** ** [ITCPrint] *)

Section itc.
Context (sprintf : list Z -> list Z -> list Z) (badArgs : Z -> list Z -> list Z).

Lemma queueAt_halts core : halts (queueAt core).
Proof. intros s _. unfold queueAt. destruct (0 <=? core); [|done]. unfold lift_opt. by destruct (_ !! _). Qed.
Lemma deref_halts p : halts (deref p).
Proof. intros s _. unfold deref, lift_opt. by destruct (mbind _ p). Qed.
Lemma assign_halts p f : halts (assign p f).
Proof. intros s _. unfold assign. destruct p as [i|]; [|done]. by destruct (_ !! i). Qed.
Lemma newTs_halts : halts newTs.
Proof. by intros s _. Qed.
#[local] Hint Resolve queueAt_halts deref_halts assign_halts newTs_halts : keeps.

Lemma setQueue_halts core f : halts (setQueue core f).
Proof. unfold setQueue. follow. Qed.
#[local] Hint Resolve setQueue_halts : keeps.
Lemma store_halts core b : halts (store core b).
Proof. unfold store. follow. Qed.
Lemma bumpIn_halts core : halts (bumpIn core).
Proof. unfold bumpIn. follow. Qed.
#[local] Hint Resolve store_halts bumpIn_halts : keeps.
Lemma putChar_halts core b : halts (putChar core b).
Proof. unfold putChar. follow. Qed.
Lemma room_halts core : halts (roomInITCPrintQ core).
Proof. unfold roomInITCPrintQ. follow. Qed.
Lemma allocTs_halts : halts allocTs.
Proof. unfold allocTs. follow. Qed.
Lemma linkTs_halts tlp w : halts (linkTs tlp w).
Proof. unfold linkTs. follow. Qed.
Lemma mark_halts core w : halts (mark core w).
Proof. unfold mark. follow. Qed.
Lemma countMsg_halts core n : halts (countMsg core n).
Proof. apply setQueue_halts. Qed.
#[local] Hint Resolve putChar_halts room_halts allocTs_halts linkTs_halts mark_halts countMsg_halts : keeps.

Lemma putText_halts core text : forall room, halts (putText core room text).
Proof. induction text as [|b text IH]; intros room; cbn [putText]; follow. Qed.
Lemma printBytes_halts core w bytes : forall room, halts (printBytes core w room bytes).
Proof. induction bytes as [|b bytes IH]; intros room; cbn [printBytes]; follow. Qed.
#[local] Hint Resolve putText_halts printBytes_halts : keeps.

Lemma printNls_halts core tlp text ts : halts (printNls core tlp text ts).
Proof. unfold printNls. follow. Qed.
Lemma printWord_halts core tlp bytes ts : halts (printWord core tlp bytes ts).
Proof. unfold printWord. follow. Qed.
#[local] Hint Resolve printNls_halts printWord_halts : keeps.

Lemma itcPrint_halts core addr data ts : halts (itcPrint sprintf badArgs core addr data ts).
Proof. unfold itcPrint. follow. Qed.
End itc.

(** ** The decoder with both *)

Lemma parts_end {K D CA : Type} `{!CodeMemory K} `{!Disassembly K D} `{!CycleTrace CA} sprintf badArgs :
  (forall core addr, halts (fetch (Mem := K) core addr)) ->
  (forall i addr, halts (disassemble (K := K) (D := D) i addr)) ->
  (forall addr, halts (kernelDisassemble (K := K) (D := D) addr)) ->
  (forall t, halts (consume (CA := CA) t)) -> halts (rewind (CA := CA)) ->
  @Ending K PerfConverter D ITCPrint CA _ _ _ (ITCPrint_sink sprintf badArgs) _.
Proof.
  intros Hf Hd Hk Hc Hr. split; try done.
  - intros. apply perfProcess_halts.
  - intros. apply itcPrint_halts.
Qed.
