(* ===== verification/Swt.v ===== *)
(** * The socket server's view of the trace (src/swt.cpp)

    The server of software traces finds the data acquisition messages in the bytes of
    a serial port: an unwrapper collects the slices of a field into a buffer of bits
    and calls a slice acceptor, and the reassembler, which is one, puts a message
    together.  The queues of the clients are modelled too. *)

From S2P Require Import Prelude Nexus.

(** ** A buffer of bits *)

(** [buf[bitpos/8] & (1 << bitpos%8)] as 0 or 1. *)
Definition buf_get_bit (buf : list Z) (bitpos : Z) : option Z :=
  b ← buf !! Z.to_nat (bitpos / 8); Some (Z.b2z (Z.testbit b (bitpos mod 8))).

Definition buf_set_bit (buf : list Z) (bitpos bitval : Z) : option (list Z) :=
  let i := Z.to_nat (bitpos / 8) in
  b ← buf !! i;
  Some (<[i := if bitval =? 0 then Z.ldiff b (2 ^ (bitpos mod 8)) else Z.lor b (2 ^ (bitpos mod 8))]> buf).

(** The low [numbits] bits of [src] go to [buf] from bit [bufbitpos] up. *)
Fixpoint u8_to_buf (src : Z) (numbits : nat) (buf : list Z) (bufbitpos : Z) : option (list Z) :=
  match numbits with
  | O => Some buf
  | S n => buf ← buf_set_bit buf bufbitpos (Z.land src 1); u8_to_buf (Z.shiftr src 1) n buf (bufbitpos + 1)
  end.

(** The loop [for (i = 0; i < numbits; i++)] from [i] on, with [n] turns left. *)
Fixpoint bufLoop (buf : list Z) (bufbitpos i : Z) (n : nat) (val : Z) : option Z :=
  match n with
  | O => Some val
  | S n =>
      bit ← buf_get_bit buf (bufbitpos + i);
      x ← shl64 bit i;
      bufLoop buf bufbitpos (i + 1) n (Z.lor val x)
  end.
Definition buf_to_u64 (buf : list Z) (bufbitpos numbits : Z) : option Z :=
  bufLoop buf bufbitpos 0 (Z.to_nat numbits) 0.

(** ** Unwrapping slices *)

(** [class NexusSliceAcceptor]. *)
Class SliceAcceptor (A : Type) := {
  startMessage : Z -> M A DQErr unit;
  messageData : Z -> list Z -> bool -> M A DQErr unit;
  endField : M A DQErr unit;
  endMessage : M A DQErr unit;
}.

Definition MAX_DATA : Z := 4096.

Record Unwrapper (A : Type) := {
  un_acceptor : A;
  un_inMessage : bool;
  un_data : list Z;
  un_datanumbits : Z;
  un_dataoverflowed : bool;
}.
Arguments un_acceptor {A} u.
Arguments un_inMessage {A} u.
Arguments un_data {A} u.
Arguments un_datanumbits {A} u.
Arguments un_dataoverflowed {A} u.

Definition noData : list Z := replicate (Z.to_nat MAX_DATA) 0.

Section unwrapper.
Context {A : Type} `{!SliceAcceptor A}.
Implicit Type u : Unwrapper A.

Definition newUnwrapper (a : A) : Unwrapper A := {|
  un_acceptor := a; un_inMessage := false; un_data := noData; un_datanumbits := 0;
  un_dataoverflowed := false |}.

Definition set_acceptor u a : Unwrapper A := {|
  un_acceptor := a; un_inMessage := un_inMessage u; un_data := un_data u;
  un_datanumbits := un_datanumbits u; un_dataoverflowed := un_dataoverflowed u |}.
Definition set_inMessage b u : Unwrapper A := {|
  un_acceptor := un_acceptor u; un_inMessage := b; un_data := un_data u;
  un_datanumbits := un_datanumbits u; un_dataoverflowed := un_dataoverflowed u |}.
Definition set_data d n u : Unwrapper A := {|
  un_acceptor := un_acceptor u; un_inMessage := un_inMessage u; un_data := d;
  un_datanumbits := n; un_dataoverflowed := un_dataoverflowed u |}.
Definition set_overflowed b u : Unwrapper A := {|
  un_acceptor := un_acceptor u; un_inMessage := un_inMessage u; un_data := un_data u;
  un_datanumbits := un_datanumbits u; un_dataoverflowed := b |}.

(** [memset(data,0,sizeof(data)); dataoverflowed = false; datanumbits = 0;] *)
Definition emptyData u : Unwrapper A := set_overflowed false (set_data noData 0 u).

(** A call of the acceptor. *)
Definition callback (m : M A DQErr unit) : M (Unwrapper A) DQErr unit := fun u =>
  match m (un_acceptor u) with
  | Ok a x => Ok (set_acceptor u a) x
  | Err a e => Err (set_acceptor u a) e
  | Undef => Undef
  | NoFuel => NoFuel
  end.

Definition appendByte (byte : Z) : M (Unwrapper A) DQErr unit :=
  let meso := Z.land byte 3 in
  let mdo := Z.shiftr byte 2 in
  u ← get;
  if negb (un_inMessage u) && (meso =? 0) then
    modify (set_inMessage true) ≫= fun _ => callback (startMessage mdo)
  else if un_inMessage u then
    (if un_datanumbits u <? MAX_DATA * 8 - 6 then
       d ← lift_opt (u8_to_buf mdo 6 (un_data u) (un_datanumbits u));
       modify (set_data d (un_datanumbits u + 6))
     else modify (set_overflowed true)) ≫= fun _ =>
    if meso =? 0 then mret tt
    else
      u ← get;
      callback (messageData (un_datanumbits u) (un_data u) (un_dataoverflowed u)) ≫= fun _ =>
      (if Z.testbit meso 0 then callback endField else mret tt) ≫= fun _ =>
      (if Z.testbit meso 1 then callback endMessage ≫= fun _ => modify (set_inMessage false)
       else mret tt) ≫= fun _ =>
      modify emptyData
  else mret tt.
End unwrapper.

(** ** Data acquisition messages *)

Record DataAcquisition := {
  dq_haveTimestamp : bool;
  dq_timestamp : Z;
  dq_haveSrc : bool;
  dq_src : Z;
  dq_tcode : Z;
  dq_idtag : Z;
  dq_dqdata : Z;
}.
(** [NexusDataAcquisitionMessage::clear]. *)
Definition clearedMessage : DataAcquisition := {|
  dq_haveTimestamp := false; dq_timestamp := 0; dq_haveSrc := false; dq_src := 0; dq_tcode := 7;
  dq_idtag := 0; dq_dqdata := 0 |}.

Record Reassembler := {
  rs_srcbits : Z;
  rs_acceptingMessage : bool;
  rs_fieldcount : Z;
  rs_messageHasOverflowedField : bool;
  rs_messageReady : bool;
  rs_dqm : DataAcquisition;
}.
Definition newReassembler (srcbits : Z) : Reassembler := {|
  rs_srcbits := srcbits; rs_acceptingMessage := false; rs_fieldcount := 0;
  rs_messageHasOverflowedField := false; rs_messageReady := false; rs_dqm := clearedMessage |}.

Definition set_dqm m (r : Reassembler) : Reassembler := {|
  rs_srcbits := rs_srcbits r; rs_acceptingMessage := rs_acceptingMessage r;
  rs_fieldcount := rs_fieldcount r; rs_messageHasOverflowedField := rs_messageHasOverflowedField r;
  rs_messageReady := rs_messageReady r; rs_dqm := m |}.
Definition set_fieldcount n (r : Reassembler) : Reassembler := {|
  rs_srcbits := rs_srcbits r; rs_acceptingMessage := rs_acceptingMessage r; rs_fieldcount := n;
  rs_messageHasOverflowedField := rs_messageHasOverflowedField r;
  rs_messageReady := rs_messageReady r; rs_dqm := rs_dqm r |}.
Definition set_hasOverflowed b (r : Reassembler) : Reassembler := {|
  rs_srcbits := rs_srcbits r; rs_acceptingMessage := rs_acceptingMessage r;
  rs_fieldcount := rs_fieldcount r; rs_messageHasOverflowedField := b;
  rs_messageReady := rs_messageReady r; rs_dqm := rs_dqm r |}.
Definition set_ready b (r : Reassembler) : Reassembler := {|
  rs_srcbits := rs_srcbits r; rs_acceptingMessage := rs_acceptingMessage r;
  rs_fieldcount := rs_fieldcount r; rs_messageHasOverflowedField := rs_messageHasOverflowedField r;
  rs_messageReady := b; rs_dqm := rs_dqm r |}.

Definition resetFor (tcode : Z) (r : Reassembler) : Reassembler := {|
  rs_srcbits := rs_srcbits r; rs_acceptingMessage := (tcode =? 7); rs_fieldcount := 0;
  rs_messageHasOverflowedField := false; rs_messageReady := false; rs_dqm := clearedMessage |}.

Definition set_tag (src : option Z) (idtag : Z) (m : DataAcquisition) : DataAcquisition := {|
  dq_haveTimestamp := dq_haveTimestamp m; dq_timestamp := dq_timestamp m;
  dq_haveSrc := bool_decide (is_Some src) || dq_haveSrc m; dq_src := default (dq_src m) src;
  dq_tcode := dq_tcode m; dq_idtag := idtag; dq_dqdata := dq_dqdata m |}.
Definition set_dqdata x (m : DataAcquisition) : DataAcquisition := {|
  dq_haveTimestamp := dq_haveTimestamp m; dq_timestamp := dq_timestamp m;
  dq_haveSrc := dq_haveSrc m; dq_src := dq_src m;
  dq_tcode := dq_tcode m; dq_idtag := dq_idtag m; dq_dqdata := x |}.
Definition set_dqtime x (m : DataAcquisition) : DataAcquisition := {|
  dq_haveTimestamp := true; dq_timestamp := x; dq_haveSrc := dq_haveSrc m; dq_src := dq_src m;
  dq_tcode := dq_tcode m; dq_idtag := dq_idtag m; dq_dqdata := dq_dqdata m |}.

(** [NexusMessageReassembler::messageData]. *)
Definition reassembleData (numbits : Z) (data : list Z) (overflowed : bool) : M Reassembler DQErr unit :=
  r ← get;
  if rs_acceptingMessage r then
    if overflowed then modify (set_hasOverflowed true)
    else
      match rs_fieldcount r with
      | 0 =>
          src ← (if rs_srcbits r =? 0 then mret None
                 else v ← lift_opt (buf_to_u64 data 0 (rs_srcbits r)); mret (Some (u32 v)));
          tag ← lift_opt (buf_to_u64 data (if rs_srcbits r =? 0 then 0 else rs_srcbits r)
                            (numbits - rs_srcbits r));
          modify (fun r => set_dqm (set_tag src (u32 tag) (rs_dqm r)) r)
      | 1 =>
          v ← lift_opt (buf_to_u64 data 0 (Z.min numbits 32));
          modify (fun r => set_dqm (set_dqdata (u32 v) (rs_dqm r)) r)
      | 2 =>
          v ← lift_opt (buf_to_u64 data 0 (Z.min numbits 64));
          modify (fun r => set_dqm (set_dqtime v (rs_dqm r)) r)
      | _ => mret tt
      end
  else mret tt.

(** [NexusMessageReassembler::endMessage]. *)
Definition finishMessage (r : Reassembler) : Reassembler :=
  if rs_acceptingMessage r then {|
    rs_srcbits := rs_srcbits r; rs_acceptingMessage := false; rs_fieldcount := rs_fieldcount r;
    rs_messageHasOverflowedField := rs_messageHasOverflowedField r;
    rs_messageReady := ((2 <=? rs_fieldcount r) && (rs_fieldcount r <=? 3) &&
                        negb (rs_messageHasOverflowedField r)) || rs_messageReady r;
    rs_dqm := rs_dqm r |}
  else r.

#[export] Instance Reassembler_acceptor : SliceAcceptor Reassembler := {|
  startMessage tcode := modify (resetFor tcode);
  messageData := reassembleData;
  endField := modify (fun r => set_fieldcount (rs_fieldcount r + 1) r);
  endMessage := modify finishMessage;
|}.

(** [NexusMessageReassembler::getMessage]. *)
Definition getMessage (r : Reassembler) : Reassembler * option DataAcquisition :=
  if rs_messageReady r then (set_ready false r, Some (rs_dqm r)) else (r, None).

(** ** [NexusStream] *)

Definition NexusStream : Type := Unwrapper Reassembler.
Definition newNexusStream (srcbits : Z) : NexusStream := newUnwrapper (newReassembler srcbits).

Definition appendByteAndCheckForMessage (byte : Z) : M NexusStream DQErr (option DataAcquisition) :=
  appendByte byte ≫= fun _ =>
  u ← get;
  let '(r, msg) := getMessage (un_acceptor u) in
  modify (fun u => set_acceptor u r) ≫= fun _ => mret msg.

(** The messages of a number of bytes, as the loop of [serviceConnections] gets them. *)
Fixpoint feed (bytes : list Z) : M NexusStream DQErr (list DataAcquisition) :=
  match bytes with
  | [] => mret []
  | b :: bytes =>
      o ← appendByteAndCheckForMessage b;
      l ← feed bytes;
      mret (option_list o ++ l)
  end.

(** ** [SwtMessageStreamBuilder] *)

Record Builder := { bd_curslice : Z; bd_cursliceOffset : Z; bd_slices : list Z }.

#[local] Abbreviation BM := (M Builder DQErr).

Definition set_slice cur off (b : Builder) : Builder :=
  {| bd_curslice := cur; bd_cursliceOffset := off; bd_slices := bd_slices b |}.

Definition flushSlice : BM unit := modify (fun b =>
  {| bd_curslice := 0; bd_cursliceOffset := 2; bd_slices := bd_slices b ++ [bd_curslice b] |}).

Definition beginMessage : BM unit := modify (set_slice 0 2).

Definition addLiteralSlice (slice : Z) : BM unit :=
  modify (fun b => set_slice slice (bd_cursliceOffset b) b) ≫= fun _ => flushSlice.

(** The loop of [append]; each turn takes bits or ends a full slice. *)
Fixpoint appendBits (fuel : nat) (val left : Z) : BM unit :=
  match fuel with
  | O => fun _ => NoFuel
  | S fuel =>
      if left =? 0 then mret tt
      else
        b ← get;
        let chunk := Z.min left (8 - bd_cursliceOffset b) in
        (if bd_cursliceOffset b =? 8 then flushSlice else mret tt) ≫= fun _ =>
        modify (fun b => set_slice
          (u8 (Z.lor (bd_curslice b) (Z.shiftl (Z.land val (Z.ones chunk)) (bd_cursliceOffset b))))
          (bd_cursliceOffset b + chunk) b) ≫= fun _ =>
        appendBits fuel (Z.shiftr val chunk) (left - chunk)
  end.
Definition append (val numbits : Z) : BM unit := appendBits (Z.to_nat (2 * numbits + 1)) val numbits.

(** The loop of [minBits] over [bit = n-1 ... 0]; [1 << bit] is an [int]. *)
Fixpoint leadingZeros (val : Z) (n : nat) (result : Z) : option Z :=
  match n with
  | O => Some result
  | S bit =>
      if 32 <=? Z.of_nat bit then None
      else if Z.land val (u64 (i32 (2 ^ Z.of_nat bit))) =? 0 then leadingZeros val bit (result - 1)
      else Some result
  end.
Definition minBits (val numbits : Z) : option Z :=
  r ← leadingZeros val (Z.to_nat numbits) numbits; Some (Z.max r 1).

Definition mark (m : Z) : BM unit :=
  modify (fun b => set_slice (Z.lor (bd_curslice b) m) (bd_cursliceOffset b) b).

Definition appendFixedField (val numbits : Z) (endOfMessage : bool) : BM unit :=
  append val numbits ≫= fun _ =>
  if endOfMessage then mark 3 ≫= fun _ => flushSlice else mret tt.

Definition appendVarField (val numbits : Z) (endOfMessage : bool) : BM unit :=
  n ← lift_opt (minBits val numbits);
  append val n ≫= fun _ =>
  mark (if endOfMessage then 3 else 1) ≫= fun _ => flushSlice.

(** The tag of a write of [size] bytes to a channel. *)
Definition tagOf (itcIdx size : Z) : Z :=
  u32 (itcIdx * 4 + (if size =? 2 then 2 else if size =? 1 then 3 else 0)).

Definition addDataAcquisitionMessage (srcbits src itcIdx size data : Z) (haveTimestamp : bool)
    (timestamp : Z) : BM unit :=
  beginMessage ≫= fun _ =>
  appendFixedField 7 6 false ≫= fun _ =>
  appendFixedField src srcbits false ≫= fun _ =>
  appendVarField (tagOf itcIdx size) 32 false ≫= fun _ =>
  appendVarField data (size * 8) (negb haveTimestamp) ≫= fun _ =>
  if haveTimestamp then appendVarField timestamp 64 true else mret tt.

Definition addMalformedDataAcquisitionMessageNoTag (srcbits src itcIdx size data : Z)
    (haveTimestamp : bool) (timestamp : Z) : BM unit :=
  beginMessage ≫= fun _ =>
  appendFixedField 7 6 false ≫= fun _ =>
  appendFixedField src srcbits false ≫= fun _ =>
  appendVarField data (size * 8) (negb haveTimestamp) ≫= fun _ =>
  if haveTimestamp then appendVarField timestamp 64 true else mret tt.

(** ** The clients of the server *)

(** A connection; the socket and the address are not modelled. *)
Record IoConnection := {
  io_bytesToSend : list Z;
  io_bytesReceived : list Z;
  io_withholding : bool;
  io_itcFilterMask : Z;
}.
Definition newIoConnection : IoConnection := {|
  io_bytesToSend := []; io_bytesReceived := []; io_withholding := false; io_itcFilterMask := 0 |}.

Definition enqueue (str : list Z) (c : IoConnection) : IoConnection := {|
  io_bytesToSend := io_bytesToSend c ++ str; io_bytesReceived := io_bytesReceived c;
  io_withholding := io_withholding c; io_itcFilterMask := io_itcFilterMask c |}.
Definition set_withholding b (c : IoConnection) : IoConnection := {|
  io_bytesToSend := io_bytesToSend c; io_bytesReceived := io_bytesReceived c;
  io_withholding := b; io_itcFilterMask := io_itcFilterMask c |}.

Definition getQueueLength (c : IoConnection) : Z := Z.of_nat (length (io_bytesToSend c)).

Definition QUEUE_STALLED_CLIENT_SUSPICION_THRESHOLD : Z := 512 * 1024.

#[local] Abbreviation CM := (M (list IoConnection) DQErr).

(** [*it], and an assignment through it; [end()] cannot be dereferenced. *)
Definition client (it : nat) : CM IoConnection := fun cs => lift_opt (cs !! it) cs.
Definition setClient (it : nat) (f : IoConnection -> IoConnection) : CM unit :=
  c ← client it; modify (<[it := f c]>).

(** The loop over the clients: [n] of them are left, from [it] on.  [text] is what is
    put in the queue of a client that reads.  The iterator has moved on when
    [withholding] is assigned. *)
Fixpoint queueTo (text : IoConnection -> option (list Z)) (n it : nat) : CM unit :=
  match n with
  | O => mret tt
  | S n =>
      c ← client it;
      let shouldWithhold := QUEUE_STALLED_CLIENT_SUSPICION_THRESHOLD <? getQueueLength c in
      (if shouldWithhold then mret tt
       else match text c with Some str => setClient it (enqueue str) | None => mret tt end) ≫= fun _ =>
      setClient (S it) (set_withholding shouldWithhold) ≫= fun _ =>
      queueTo text n (S it)
  end.

Definition queueSerialBytesToClients (bytes : list Z) : CM unit :=
  cs ← get; queueTo (fun _ => Some bytes) (length cs) 0.

Section server.
(** [NexusDataAcquisitionMessage::serialized], a text. *)
Context (serialized : DataAcquisition -> list Z).

Definition queueMessageToClients (msg : DataAcquisition) : CM unit :=
  let chan := dq_idtag msg / 4 in
  cs ← get;
  queueTo (fun c =>
      if (chan <? 32) && Z.testbit (io_itcFilterMask c) chan then None else Some (serialized msg))
    (length cs) 0.
End server.

(** The characters [serviceConnections] prints of a message. *)
Definition printedChars (itcPrintChannel : Z) (msg : DataAcquisition) : list Z :=
  let c i := u8 (Z.shiftr (dq_dqdata msg) (8 * i)) in
  if dq_idtag msg / 4 =? itcPrintChannel then
    match dq_idtag msg mod 4 with
    | 0 => [c 0; c 1; c 2; c 3]
    | 2 => [c 0; c 1]
    | 3 => [c 0]
    | _ => []
    end
  else [].

(** ** [isItcFilterCommand] *)

Definition isspace (c : Z) : bool := (c =? 32) || ((9 <=? c) && (c <=? 13)).
Definition toupper (c : Z) : Z := if (97 <=? c) && (c <=? 122) then c - 32 else c.

(** The rest of a text after its first [w]. *)
Fixpoint after (w str : list Z) : option (list Z) :=
  if bool_decide (take (length w) str = w) then Some (drop (length w) str)
  else match str with [] => None | _ :: str => after w str end.

Fixpoint skipSpaces (str : list Z) : list Z :=
  match str with c :: str' => if isspace c then skipSpaces str' else str | [] => [] end.

(** The value of a character of the mask. *)
Definition nybble (c : Z) : Z :=
  if (48 <=? c) && (c <=? 57) then c - 48
  else if (65 <=? toupper c) && (toupper c <=? 70) then c - 65 + 10
  else 0.

Fixpoint readMask (str : list Z) (mask : Z) : Z :=
  match str with
  | c :: str =>
      if (c =? 0) || isspace c then mask
      else readMask str (Z.lor (u32 (Z.shiftl mask 4)) (nybble c))
  | [] => mask
  end.

(** [itcfilter]. *)
Definition filterWord : list Z := [105; 116; 99; 102; 105; 108; 116; 101; 114].

Definition isItcFilterCommand (str : list Z) : option Z :=
  rest ← after filterWord str; Some (readMask (skipSpaces rest) 0).
