(* ===== verification/SwtTrip.v ===== *)
(** * The reassembler reads what the encoder writes

    Of any stream of encoded messages the socket server's [NexusStream] gives back
    the data acquisition messages. *)

From S2P Require Import Prelude Nexus Slices Source Framing Analytics Messages Encode RoundTrip Swt.

(** ** Bits of a buffer *)

(** The number in a buffer: bit [j] of it is bit [j mod 8] of byte [j / 8]. *)
Definition holdsBits (buf : list Z) (v : Z) : Prop :=
  Z.of_nat (length buf) = MAX_DATA /\ 0 <= v /\
  forall j, 0 <= j < 8 * MAX_DATA ->
    exists b, buf !! Z.to_nat (j / 8) = Some b /\ Z.testbit b (j mod 8) = Z.testbit v j.

Lemma get_bit_spec buf v j : holdsBits buf v -> 0 <= j < 8 * MAX_DATA ->
  buf_get_bit buf j = Some (Z.b2z (Z.testbit v j)).
Proof. intros (_ & _ & H) Hj. destruct (H j Hj) as (b & Hb & Ht). unfold buf_get_bit. rewrite Hb. simpl. by rewrite Ht. Qed.

Lemma noData_holds : holdsBits noData 0.
Proof.
  unfold noData. split; [by rewrite length_replicate|]. split; [done|]. intros j Hj. exists 0.
  rewrite !Z.bits_0. split; [|done]. apply lookup_replicate_2. unfold MAX_DATA in *. dlia.
Qed.

Lemma shl_bit (b : bool) i : 0 <= i < 64 -> shl64 (Z.b2z b) i = Some (Z.b2z b * 2 ^ i).
Proof.
  intros Hi. rewrite shl64_small by done. f_equal. apply u64_small.
  assert (0 < 2 ^ i < 2 ^ 64) by (split; [apply pow2_pos; lia|apply Z.pow_lt_mono_r; lia]).
  destruct b; simpl Z.b2z; lia.
Qed.

Lemma bufLoop_spec buf v pos n : forall i val, holdsBits buf v -> 0 <= pos -> 0 <= i ->
  i + Z.of_nat n <= 64 -> pos + i + Z.of_nat n <= 8 * MAX_DATA -> val = slice v pos i ->
  bufLoop buf pos i n val = Some (slice v pos (i + Z.of_nat n)).
Proof.
  induction n as [|n IH]; intros i val Hb Hp Hi Hn Hpn ->; cbn [bufLoop].
  - by rewrite Z.add_0_r.
  - rewrite (get_bit_spec buf v) by (done || lia). cbn [mbind option_bind].
    rewrite shl_bit by lia. cbn [mbind option_bind].
    rewrite (IH (i + 1)); [do 2 f_equal; lia|done|lia..|].
    bitwise k. rewrite <-Z.shiftl_mul_pow2, Z.shiftl_spec by lia.
    destruct (Z.ltb_spec k i), (Z.ltb_spec k (i + 1)); try lia; cbn [andb orb].
    + rewrite (Z.testbit_neg_r _ (k - i)) by lia. by rewrite orb_false_r.
    + replace (k - i) with 0 by lia. rewrite Z.b2z_bit0. f_equal. lia.
    + destruct (Z.testbit v (pos + i)); simpl Z.b2z; [|apply Z.bits_0].
      change 1 with (2 ^ 0). rewrite Z.pow2_bits_eqb by lia. destruct (Z.eqb_spec 0 (k - i)); [lia|done].
Qed.

Lemma buf_to_u64_spec buf v pos n : holdsBits buf v -> 0 <= pos -> 0 <= n <= 64 ->
  pos + n <= 8 * MAX_DATA -> buf_to_u64 buf pos n = Some (slice v pos n).
Proof.
  intros Hb Hp Hn Hpn. unfold buf_to_u64. rewrite (bufLoop_spec buf v pos (Z.to_nat n) 0 0); try lia.
  - by rewrite Z.add_0_l, Z2Nat.id by lia.
  - done.
  - unfold slice. by rewrite Z.mod_1_r.
Qed.

(** Writing a bit that was clear. *)
Lemma set_bit_spec buf v j (b : bool) : holdsBits buf v -> 0 <= j < 8 * MAX_DATA -> v < 2 ^ j ->
  exists buf', buf_set_bit buf j (Z.b2z b) = Some buf' /\ holdsBits buf' (v + Z.b2z b * 2 ^ j).
Proof.
  intros (Hlen & Hv0 & H) Hj Hv. destruct (H j Hj) as (x & Hx & Hxj).
  unfold buf_set_bit. rewrite Hx. cbn [mbind option_bind]. eexists. split; [done|].
  pose proof (pow2_pos j ltac:(lia)).
  split; [by rewrite length_insert|]. split; [destruct b; simpl Z.b2z; lia|].
  intros k Hk. destruct (H k Hk) as (y & Hy & Hyk).
  rewrite <-(lor_disjoint_add v (Z.b2z b) j) by lia. rewrite Z.lor_spec, <-Z.shiftl_mul_pow2 by lia.
  rewrite Z.shiftl_spec by lia.
  assert (Z.testbit (Z.b2z b) (k - j) = (k =? j) && b) as ->.
  { destruct (Z.eqb_spec k j) as [->|].
    - rewrite Z.sub_diag. apply Z.b2z_bit0.
    - destruct (Z.ltb_spec k j); [by apply Z.testbit_neg_r; lia|].
      destruct b; simpl Z.b2z; [|apply Z.bits_0]. change 1 with (2 ^ 0). apply Z.pow2_bits_false. lia. }
  destruct (decide (Z.to_nat (k / 8) = Z.to_nat (j / 8))) as [E|E].
  - rewrite E, list_lookup_insert_eq by (by eapply lookup_lt_Some). eexists. split; [done|].
    assert (k / 8 = j / 8) as E8 by (apply Z2Nat.inj in E; dlia). rewrite E, Hx in Hy. injection Hy as <-.
    assert ((k mod 8 =? j mod 8) = (k =? j)) as Hm.
    { destruct (Z.eqb_spec (k mod 8) (j mod 8)), (Z.eqb_spec k j); try done; subst; try done; exfalso; dlia. }
    pose proof (Z.mod_pos_bound k 8 ltac:(lia)). pose proof (Z.mod_pos_bound j 8 ltac:(lia)).
    destruct b; cbn [Z.b2z Z.eqb].
    + rewrite Z.lor_spec, Hyk, Z.pow2_bits_eqb, andb_true_r, Z.eqb_sym, Hm by lia. done.
    + rewrite Z.ldiff_spec, Hyk, Z.pow2_bits_eqb, andb_false_r, orb_false_r, Z.eqb_sym, Hm by lia.
      destruct (Z.eqb_spec k j) as [->|]; cbn [negb]; [|apply andb_true_r].
      rewrite andb_false_r. symmetry. apply testbit_high with j; lia.
  - rewrite list_lookup_insert_ne by done. exists y. split; [done|]. rewrite Hyk.
    destruct (Z.eqb_spec k j) as [->|]; [done|]. by rewrite orb_false_r.
Qed.

Lemma u8_to_buf_spec n : forall src buf v pos, holdsBits buf v -> 0 <= pos -> v < 2 ^ pos ->
  pos + Z.of_nat n <= 8 * MAX_DATA ->
  exists buf', u8_to_buf src n buf pos = Some buf' /\
    holdsBits buf' (v + (src mod 2 ^ Z.of_nat n) * 2 ^ pos).
Proof.
  induction n as [|n IH]; intros src buf v pos Hb Hp Hv Hn; cbn [u8_to_buf].
  - exists buf. split; [done|]. by rewrite Z.mod_1_r, Z.mul_0_l, Z.add_0_r.
  - assert (Z.land src 1 = Z.b2z (Z.testbit src 0)) as -> by (rewrite land_1; symmetry; apply Z.bit0_mod).
    destruct (set_bit_spec buf v pos (Z.testbit src 0) Hb ltac:(lia) Hv) as (b1 & E1 & H1).
    rewrite E1. cbn [mbind option_bind]. rewrite Z.shiftr_div_pow2 by lia.
    pose proof (pow2_pos pos Hp). assert (2 ^ (pos + 1) = 2 * 2 ^ pos) as Hp1 by (rewrite Z.pow_add_r by lia; lia).
    destruct (IH (src / 2 ^ 1) b1 _ (pos + 1) H1 ltac:(lia)) as (b2 & E2 & H2); [destruct (Z.testbit src 0); simpl Z.b2z; lia|lia|].
    exists b2. split; [done|]. replace (v + src mod 2 ^ Z.of_nat (S n) * 2 ^ pos) with
      (v + Z.b2z (Z.testbit src 0) * 2 ^ pos + (src / 2 ^ 1) mod 2 ^ Z.of_nat n * 2 ^ (pos + 1)); [done|].
    replace (Z.of_nat (S n)) with (1 + Z.of_nat n) by lia.
    rewrite <-(mod_split src 1 (Z.of_nat n)), Z.bit0_mod, Hp1 by lia. change (2 ^ 1) with 2. ring.
Qed.

(** ** A group of slices *)

Definition inField (a : Reassembler) (d : list Z) (b : Z) : NexusStream := {|
  un_acceptor := a; un_inMessage := true; un_data := d; un_datanumbits := b; un_dataoverflowed := false |}.
(** Between messages, or at the start of a field. *)
Definition between (inMessage : bool) (a : Reassembler) : NexusStream := {|
  un_acceptor := a; un_inMessage := inMessage; un_data := noData; un_datanumbits := 0;
  un_dataoverflowed := false |}.

(** What the end of a field calls. *)
Definition groupEnd (m n : Z) (d : list Z) : M Reassembler DQErr unit :=
  messageData n d false ≫= fun _ =>
  (if Z.testbit m 0 then endField else mret tt) ≫= fun _ =>
  if Z.testbit m 1 then endMessage else mret tt.

Lemma callback_ok (m : M Reassembler DQErr unit) (u : NexusStream) a :
  m (un_acceptor u) = Ok a tt -> callback m u = Ok (set_acceptor u a) tt.
Proof. intros E. unfold callback. by rewrite E. Qed.

Lemma shiftr_byte s m : 0 <= m < 4 -> Z.shiftr (4 * s + m) 2 = s.
Proof. intros. rewrite Z.shiftr_div_pow2 by lia. dlia. Qed.

(** A slice inside a field. *)
Lemma append_slice a d b v s : 0 <= s < 64 -> holdsBits d v -> 0 <= b < 32000 -> v < 2 ^ b ->
  exists d', holdsBits d' (v + s * 2 ^ b) /\
    forall m, 0 <= m < 4 -> appendByte (4 * s + m) (inField a d b) =
      if m =? 0 then Ok (inField a d' (b + 6)) tt
      else
        (callback (messageData (b + 6) d' false) ≫= fun _ =>
         (if Z.testbit m 0 then callback endField else mret tt) ≫= fun _ =>
         (if Z.testbit m 1 then callback endMessage ≫= fun _ => modify (set_inMessage false)
          else mret tt) ≫= fun _ =>
         modify emptyData) (inField a d' (b + 6)).
Proof.
  intros Hs Hd Hb Hv. destruct (u8_to_buf_spec 6 s d v b Hd ltac:(lia) Hv) as (d' & E & Hd'); [unfold MAX_DATA; lia|].
  rewrite Z.mod_small in Hd' by (change (2 ^ Z.of_nat 6) with 64; lia).
  exists d'. split; [done|]. intros m Hm. unfold appendByte.
  rewrite (mseo_bits s m Hm), shiftr_byte by done.
  rewrite bind_get. cbn [un_inMessage inField negb andb un_datanumbits un_data].
  unfold MAX_DATA. destruct (Z.ltb_spec b (4096 * 8 - 6)); [|lia].
  rewrite E. destruct (m =? 0); done.
Qed.

Lemma getMessage_quiet a : rs_messageReady a = false -> getMessage a = (a, None).
Proof. intros E. unfold getMessage. by rewrite E. Qed.

Lemma feed_quiet b bytes u u' : appendByte b u = Ok u' tt -> rs_messageReady (un_acceptor u') = false ->
  feed (b :: bytes) u = feed bytes u'.
Proof.
  intros E Hq. cbn [feed]. unfold appendByteAndCheckForMessage.
  rewrite bind_assoc, (bind_ok _ _ _ _ _ E), bind_assoc, bind_get, getMessage_quiet by done.
  destruct u'. unfold mbind, M_bind, mret, M_ret. cbn. by destruct (feed bytes _).
Qed.

Lemma callback_if (c : bool) (m : M Reassembler DQErr unit) (u : NexusStream) a :
  (if c then m else mret tt) (un_acceptor u) = Ok a tt ->
  (if c then callback m else mret tt) u = Ok (set_acceptor u a) tt.
Proof. destruct c; [apply callback_ok|]. intros [= <-]. by destruct u. Qed.

(** The last slice of a field. *)
Lemma feed_end s m a d b v a' rest : 0 <= s < 64 -> holdsBits d v -> 0 <= b < 32000 -> v < 2 ^ b ->
  0 < m < 4 -> (forall d', holdsBits d' (v + s * 2 ^ b) -> groupEnd m (b + 6) d' a = Ok a' tt) ->
  feed (4 * s + m :: rest) (inField a d b) =
    (l ← feed rest; mret (option_list (getMessage a').2 ++ l))
      (between (negb (Z.testbit m 1)) (getMessage a').1).
Proof.
  intros Hs Hd Hb Hv Hm He. destruct (append_slice a d b v s Hs Hd Hb Hv) as (d' & Hd' & E).
  specialize (E m ltac:(lia)). rewrite (proj2 (Z.eqb_neq m 0)) in E by lia.
  specialize (He d' Hd'). unfold groupEnd in He. apply bind_inv in He as (a1 & [] & E1 & He).
  apply bind_inv in He as (a2 & [] & E2 & E3).
  assert (appendByte (4 * s + m) (inField a d b) = Ok (between (negb (Z.testbit m 1)) a') tt) as Ea.
  { rewrite E, (bind_ok _ _ _ _ _ (callback_ok _ (inField a d' (b + 6)) a1 E1)).
    rewrite (bind_ok _ _ _ _ _ (callback_if _ _ (set_acceptor (inField a d' (b + 6)) a1) a2 E2)).
    destruct (Z.testbit m 1); [|injection E3 as ->; reflexivity].
    rewrite bind_assoc.
    by rewrite (bind_ok _ _ _ _ _ (callback_ok _ (set_acceptor (inField a d' (b + 6)) a2) a' E3)). }
  cbn [feed]. unfold appendByteAndCheckForMessage.
  rewrite bind_assoc, (bind_ok _ _ _ _ _ Ea), bind_assoc, bind_get.
  cbn [un_acceptor between]. by destruct (getMessage a') as [a3 o].
Qed.

Lemma group_bytes_1 u m : group_bytes u 1 m = [4 * (u mod 64) + m].
Proof.
  unfold group_bytes. change (Z.to_nat 1) with 1%nat. cbn [seq fmap list_fmap].
  change (6 * Z.of_nat 0) with 0. by rewrite slice_low.
Qed.

Lemma group_bytes_S u n m : 0 < n -> group_bytes u (n + 1) m = 4 * (u mod 64) :: group_bytes (u / 64) n m.
Proof.
  intros Hn. unfold group_bytes. replace (Z.to_nat (n + 1)) with (S (Z.to_nat n)) by lia.
  cbn [seq fmap list_fmap]. f_equal.
  - destruct (Z.eqb_spec (Z.of_nat 0) (n + 1 - 1)); [lia|].
    unfold MSEO_NORMAL. change (6 * Z.of_nat 0) with 0. rewrite slice_low. change (2 ^ 6) with 64. lia.
  - rewrite <-fmap_S_seq, <-list_fmap_compose. apply list_fmap_ext. intros i k Hk. cbn [compose].
    f_equal.
    + f_equal. unfold slice. rewrite Z.div_div by (try apply Z.pow_nonzero; lia).
      change 64 with (2 ^ 6). rewrite <-Z.pow_add_r by lia. do 2 f_equal. f_equal. lia.
    + destruct (Z.eqb_spec (Z.of_nat (S k)) (n + 1 - 1)), (Z.eqb_spec (Z.of_nat k) (n - 1)); lia.
Qed.

(** A whole field: [groupEnd] sees its number. *)
Lemma feed_group k : forall u m a d b v a' rest,
  0 <= u < 2 ^ (6 * (Z.of_nat k + 1)) -> holdsBits d v -> 0 <= b -> b + 6 * Z.of_nat k < 32000 -> v < 2 ^ b ->
  0 < m < 4 -> rs_messageReady a = false ->
  (forall d', holdsBits d' (v + u * 2 ^ b) -> groupEnd m (b + 6 * (Z.of_nat k + 1)) d' a = Ok a' tt) ->
  feed (group_bytes u (Z.of_nat k + 1) m ++ rest) (inField a d b) =
    (l ← feed rest; mret (option_list (getMessage a').2 ++ l))
      (between (negb (Z.testbit m 1)) (getMessage a').1).
Proof.
  induction k as [|k IH]; intros u m a d b v a' rest Hu Hd Hb Hbk Hv Hm Hr He.
  - change (Z.of_nat 0 + 1) with 1 in *. rewrite group_bytes_1. cbn [app].
    change (2 ^ (6 * 1)) with 64 in Hu. rewrite (Z.mod_small u 64) by lia.
    apply feed_end with v; [lia|done|lia|done|done|exact He].
  - replace (Z.of_nat (S k) + 1) with ((Z.of_nat k + 1) + 1) in * by lia.
    rewrite group_bytes_S by lia. cbn [app].
    destruct (append_slice a d b v (u mod 64) ltac:(apply Z.mod_pos_bound; lia) Hd ltac:(lia) Hv) as (d' & Hd' & E).
    specialize (E 0 ltac:(lia)). rewrite Z.add_0_r in E. cbn [Z.eqb] in E.
    rewrite (feed_quiet _ _ _ _ E) by done.
    assert (2 ^ (b + 6) = 64 * 2 ^ b) as Hp by (rewrite Z.pow_add_r by lia; change (2 ^ 6) with 64; lia).
    pose proof (pow2_pos b Hb). pose proof (Z.mod_pos_bound u 64 ltac:(lia)).
    apply IH with (v + u mod 64 * 2 ^ b); [|done|lia|lia|nia|done|done|].
    + replace (6 * (Z.of_nat k + 1 + 1)) with (6 + 6 * (Z.of_nat k + 1)) in Hu by lia.
      rewrite Z.pow_add_r in Hu by lia. change (2 ^ 6) with 64 in Hu.
      split; [apply Z.div_pos; lia|apply Z.div_lt_upper_bound; lia].
    + intros d2 Hd2. replace (b + 6 + 6 * (Z.of_nat k + 1)) with (b + 6 * (Z.of_nat k + 1 + 1)) by lia.
      apply He. replace (v + u * 2 ^ b) with (v + u mod 64 * 2 ^ b + u / 64 * 2 ^ (b + 6)); [done|].
      rewrite Hp. rewrite (Z.div_mod u 64) at 3 by lia. ring.
Qed.

(** The first group, whose first slice is the TCODE. *)
Lemma feed_first u n m a a' rest : 1 < n -> 0 <= u < 2 ^ (6 * n) -> 6 * n < 32000 -> 0 < m < 4 ->
  (forall d', holdsBits d' (u / 64) -> groupEnd m (6 * (n - 1)) d' (resetFor (u mod 64) a) = Ok a' tt) ->
  feed (group_bytes u n m ++ rest) (between false a) =
    (l ← feed rest; mret (option_list (getMessage a').2 ++ l))
      (between (negb (Z.testbit m 1)) (getMessage a').1).
Proof.
  intros Hn Hu Hb Hm He. replace n with ((n - 1) + 1) by lia. rewrite group_bytes_S by lia. cbn [app].
  assert (appendByte (4 * (u mod 64)) (between false a) = Ok (inField (resetFor (u mod 64) a) noData 0) tt) as E.
  { unfold appendByte. rewrite bind_get.
    pose proof (mseo_bits (u mod 64) 0 ltac:(lia)) as Hz. pose proof (shiftr_byte (u mod 64) 0 ltac:(lia)) as Hs.
    rewrite Z.add_0_r in Hz, Hs. by rewrite Hz, Hs. }
  rewrite (feed_quiet _ _ _ _ E) by done.
  replace (n - 1) with (Z.of_nat (Z.to_nat (n - 2)) + 1) in * by lia.
  apply (feed_group (Z.to_nat (n - 2)) (u / 64) m _ noData 0 0); [|apply noData_holds|lia|lia|done|done|done|].
  - replace (6 * n) with (6 + 6 * (Z.of_nat (Z.to_nat (n - 2)) + 1)) in Hu by lia.
    rewrite Z.pow_add_r in Hu by lia. change (2 ^ 6) with 64 in Hu.
    split; [apply Z.div_pos; lia|apply Z.div_lt_upper_bound; lia].
  - intros d' Hd'. rewrite Z.mul_1_r, Z.add_0_l in Hd'. rewrite Z.add_0_l. by apply He.
Qed.

(** A later group. *)
Lemma feed_next u n m a a' rest : 0 < n -> 0 <= u < 2 ^ (6 * n) -> 6 * n < 32000 -> 0 < m < 4 ->
  rs_messageReady a = false ->
  (forall d', holdsBits d' u -> groupEnd m (6 * n) d' a = Ok a' tt) ->
  feed (group_bytes u n m ++ rest) (between true a) =
    (l ← feed rest; mret (option_list (getMessage a').2 ++ l))
      (between (negb (Z.testbit m 1)) (getMessage a').1).
Proof.
  intros Hn Hu Hb Hm Hr He. replace n with (Z.of_nat (Z.to_nat (n - 1)) + 1) in * by lia.
  apply (feed_group (Z.to_nat (n - 1)) u m a noData 0 0); try done; [apply noData_holds|lia|].
  intros d' Hd'. rewrite Z.mul_1_r, Z.add_0_l in Hd'. rewrite Z.add_0_l. by apply He.
Qed.

(** ** Messages *)

(** What the stream gives of a message. *)
Definition heard (sb core : Z) (b : Body) (ts : option Z) : list DataAcquisition :=
  match b with
  | B_dataAcquisition tag data =>
      [{| dq_haveTimestamp := bool_decide (is_Some ts); dq_timestamp := default 0 ts;
          dq_haveSrc := negb (sb =? 0); dq_src := core; dq_tcode := 7; dq_idtag := tag; dq_dqdata := data |}]
  | _ => []
  end.

(** Between messages, with nothing left to report. *)
Definition idle (sb : Z) (u : NexusStream) : Prop :=
  exists a, u = between false a /\ rs_srcbits a = sb /\ rs_messageReady a = false.

(** A message of another type: the reassembler does not look at its fields. *)
Definition ignoring (sb : Z) (a : Reassembler) : Prop :=
  rs_srcbits a = sb /\ rs_messageReady a = false /\ rs_acceptingMessage a = false.

Lemma ignoring_end sb a m n d : ignoring sb a -> exists a', groupEnd m n d a = Ok a' tt /\ ignoring sb a'.
Proof.
  intros (Hs & Hr & Ha). unfold groupEnd, messageData, Reassembler_acceptor, reassembleData.
  rewrite bind_assoc, bind_get, Ha, ret_bind.
  unfold endField, endMessage, mbind, M_bind, modify, mret, M_ret, finishMessage.
  destruct (Z.testbit m 0), (Z.testbit m 1); cbn; rewrite ?Ha; eexists; (split; [reflexivity|]); done.
Qed.

Lemma ignoring_all sb m n a : ignoring sb a ->
  exists a', ignoring sb a' /\ forall d, groupEnd m n d a = Ok a' tt.
Proof.
  intros Ha. destruct (ignoring_end sb a m n noData Ha) as (a1 & E & H1). exists a1. split; [done|].
  intros d. rewrite <-E. destruct Ha as (_ & _ & Ha).
  unfold groupEnd, messageData, Reassembler_acceptor, reassembleData.
  by rewrite !bind_assoc, !bind_get, Ha, !ret_bind.
Qed.

Lemma ret_nil_app {A} (m : M NexusStream DQErr (list A)) u : (l ← m; mret ([] ++ l)) u = m u.
Proof. unfold mbind, M_bind, mret, M_ret. by destruct (m u). Qed.

Lemma last_mark_pos gs : 0 < last_mark gs < 4.
Proof. by destruct gs. Qed.

Lemma feed_ignored gs : forall sb a rest, Forall group_wf gs -> total gs <= 49 -> gs <> [] ->
  ignoring sb a -> exists a', ignoring sb a' /\
    feed (groups_bytes gs ++ rest) (between true a) = feed rest (between false a').
Proof.
  induction gs as [|[u n] gs IH]; intros sb a rest Hwf Ht Hne Ha; [done|].
  apply Forall_cons_1 in Hwf as [[Hn Hu] Hwf]. cbn [fst snd] in *.
  change (total ((u, n) :: gs)) with (n + total gs) in Ht. pose proof (total_nonneg gs Hwf).
  cbn [groups_bytes]. rewrite <-app_assoc.
  destruct (ignoring_all sb (last_mark gs) (6 * n) a Ha) as (a1 & H1 & E1).
  rewrite (feed_next u n (last_mark gs) a a1 _ Hn Hu ltac:(lia) (last_mark_pos gs) ltac:(apply Ha) (fun d _ => E1 d)).
  destruct H1 as (Hs1 & Hr1 & Ha1). rewrite getMessage_quiet by done. cbn [fst snd option_list].
  rewrite ret_nil_app. destruct gs as [|g gs].
  - exists a1. by repeat split.
  - destruct (IH sb a1 rest Hwf ltac:(lia) ltac:(done)) as (a2 & H2 & E2); [by repeat split|]. by exists a2.
Qed.

(** A data acquisition message: its two or three fields are put together. *)
Lemma slice_all u n : 0 <= u < 2 ^ n -> slice u 0 n = u.
Proof. intros. rewrite slice_low. by apply Z.mod_small. Qed.

Definition tagged sb core tag : DataAcquisition :=
  set_tag (if sb =? 0 then None else Some core) tag clearedMessage.

(** The first field holds the source and the tag. *)
Lemma tag_end sb core tag a n d m : 0 <= sb <= 16 -> 0 <= core < 2 ^ sb -> 0 <= tag < 2 ^ 32 ->
  rs_srcbits a = sb -> sb + num_bits tag <= n <= sb + 60 -> holdsBits d (core + tag * 2 ^ sb) ->
  m = MSEO_VAR_END ->
  groupEnd m n d (resetFor 7 a) = Ok (set_fieldcount 1 (set_dqm (tagged sb core tag) (resetFor 7 a))) tt.
Proof.
  intros Hsb Hc Ht Ha Hn Hd ->. pose proof (num_bits_pos tag ltac:(lia)).
  unfold groupEnd, messageData, Reassembler_acceptor, reassembleData.
  rewrite bind_assoc, bind_get.
  cbn [resetFor rs_acceptingMessage rs_fieldcount rs_srcbits Z.eqb Pos.eqb]. rewrite Ha.
  assert (buf_to_u64 d (if sb =? 0 then 0 else sb) (n - sb) = Some tag) as Etag.
  { rewrite (buf_to_u64_spec d (core + tag * 2 ^ sb)); [|done|case_cmp; lia|lia|unfold MAX_DATA; case_cmp; lia].
    f_equal. replace (if sb =? 0 then 0 else sb) with sb by (case_cmp; lia). unfold slice.
    rewrite Z.div_add, Z.div_small, Z.add_0_l by (pose proof (pow2_pos sb); lia).
    apply Z.mod_small. split; [lia|]. apply lt_pow_num_bits; lia. }
  unfold tagged. destruct (Z.eqb_spec sb 0) as [->|Hne].
  - rewrite bind_assoc, ret_bind, bind_assoc, Etag, lift_bind, (u32_small tag) by lia. reflexivity.
  - assert (buf_to_u64 d 0 sb = Some core) as Ecore.
    { rewrite (buf_to_u64_spec d (core + tag * 2 ^ sb)) by (try done; unfold MAX_DATA; lia).
      f_equal. rewrite slice_low, Z.mod_add, Z.mod_small by (pose proof (pow2_pos sb); lia). done. }
    assert (core < 2 ^ 32) by (pose proof (Z.pow_lt_mono_r 2 sb 32); lia).
    rewrite !bind_assoc, Ecore, lift_bind, ret_bind, bind_assoc, Etag, lift_bind.
    by rewrite (u32_small tag), (u32_small core) by lia.
Qed.

(** The second field holds the data, the third the time. *)
Definition accepting (r : Reassembler) (count : Z) : Prop :=
  rs_acceptingMessage r = true /\ rs_fieldcount r = count /\ rs_messageHasOverflowedField r = false /\
  rs_messageReady r = false.

(** After the end of a field, and of the message if [m] says so. *)
Definition stepped (m : Z) (dqm : DataAcquisition) (r : Reassembler) : Reassembler :=
  let r := set_fieldcount (rs_fieldcount r + 1) (set_dqm dqm r) in
  if m =? MSEO_END then finishMessage r else r.

Lemma data_end m data n d r : m = MSEO_END \/ m = MSEO_VAR_END -> 0 <= data < 2 ^ 32 ->
  num_bits data <= n < 32000 -> holdsBits d data -> accepting r 1 ->
  groupEnd m n d r = Ok (stepped m (set_dqdata data (rs_dqm r)) r) tt.
Proof.
  intros Hm Hd Hn Hb (Ha & Hc & Ho & Hr). pose proof (num_bits_pos data ltac:(lia)).
  unfold groupEnd, messageData, Reassembler_acceptor, reassembleData.
  rewrite bind_assoc, bind_get, Ha, Hc.
  rewrite (buf_to_u64_spec d data) by (try done; unfold MAX_DATA; lia).
  pose proof (num_bits_le data 32 ltac:(lia) Hd).
  assert (data < 2 ^ Z.min n 32) by (apply lt_pow_num_bits; lia).
  rewrite slice_all, bind_assoc, lift_bind, (u32_small data), bind_modify by lia.
  destruct Hm as [-> | ->]; reflexivity.
Qed.

Lemma time_end ts n d r : 0 <= ts < 2 ^ 64 -> num_bits ts <= n < 32000 -> holdsBits d ts -> accepting r 2 ->
  groupEnd MSEO_END n d r = Ok (stepped MSEO_END (set_dqtime ts (rs_dqm r)) r) tt.
Proof.
  intros Hd Hn Hb (Ha & Hc & Ho & Hr). pose proof (num_bits_pos ts ltac:(lia)).
  unfold groupEnd, messageData, Reassembler_acceptor, reassembleData.
  rewrite bind_assoc, bind_get, Ha, Hc.
  rewrite (buf_to_u64_spec d ts) by (try done; unfold MAX_DATA; lia).
  pose proof (num_bits_le ts 64 ltac:(lia) Hd).
  assert (ts < 2 ^ Z.min n 64) by (apply lt_pow_num_bits; lia).
  rewrite slice_all, bind_assoc, lift_bind, bind_modify by lia.
  reflexivity.
Qed.

Lemma stepped_end dqm r c : accepting r c -> 1 <= c <= 2 ->
  getMessage (stepped MSEO_END dqm r) =
    (set_ready false (stepped MSEO_END dqm r), Some dqm) /\
  rs_srcbits (stepped MSEO_END dqm r) = rs_srcbits r.
Proof.
  intros (Ha & Hc & Ho & Hr) Hb. unfold stepped, finishMessage, getMessage. cbn. rewrite Ha, Hc, Ho, Hr. cbn.
  case_cmp. done.
Qed.

Lemma var_group_bounds v w : 0 <= v < 2 ^ w -> 0 < w <= 64 ->
  0 < num_slices (num_bits v) <= 12 /\ 0 <= v < 2 ^ (6 * num_slices (num_bits v)) /\
  num_bits v <= 6 * num_slices (num_bits v).
Proof.
  intros Hv Hw. pose proof (num_bits_pos v ltac:(lia)). pose proof (num_bits_le v w ltac:(lia) Hv).
  pose proof (num_slices_bounds (num_bits v)). split; [lia|]. split; [|lia].
  split; [lia|]. apply lt_pow_num_bits; lia.
Qed.

(** The message the reassembler has after its first group. *)
Definition afterTag sb core tag (a : Reassembler) : Reassembler :=
  set_fieldcount 1 (set_dqm (tagged sb core tag) (resetFor 7 a)).

(** The fields after the tag. *)
Lemma feed_dataFields sb core tag data ts a rest :
  0 <= data < 2 ^ 32 -> in_range 64 (default 0 ts) = true -> rs_srcbits a = sb ->
  exists u', idle sb u' /\
    feed (groups_bytes (var_groups ([data] ++ option_list ts)) ++ rest) (between true (afterTag sb core tag a)) =
    (l ← feed rest;
     mret ([(if ts is Some t then set_dqtime t else id) (set_dqdata data (tagged sb core tag))] ++ l)) u'.
Proof.
  intros Hdata Hts Ha. apply in_range_spec in Hts.
  destruct (var_group_bounds data 32 ltac:(lia) ltac:(lia)) as (Hn & Hd & Hnb).
  assert (accepting (afterTag sb core tag a) 1) as Hacc by done.
  cbn [app var_groups fmap list_fmap groups_bytes]. rewrite <-app_assoc.
  destruct ts as [t|]; cbn [option_list var_groups fmap list_fmap groups_bytes last_mark app].
  - destruct (var_group_bounds t 64 ltac:(cbn in Hts; lia) ltac:(lia)) as (Hn2 & Ht & Hnb2).
    set (r1 := stepped MSEO_VAR_END (set_dqdata data (tagged sb core tag)) (afterTag sb core tag a)).
    rewrite (feed_next data _ MSEO_VAR_END _ r1) by
      (try done; try lia; intros d' Hd'; apply data_end; try done; try lia; by right).
    rewrite getMessage_quiet by done. cbn [fst snd option_list]. rewrite ret_nil_app.
    change (negb (Z.testbit MSEO_VAR_END 1)) with true.
    assert (accepting r1 2) as Hacc2 by done.
    change (groups_bytes _) with (group_bytes t (num_slices (num_bits t)) MSEO_END ++ []). rewrite app_nil_r.
    rewrite (feed_next t _ MSEO_END _ (stepped MSEO_END (set_dqtime t (rs_dqm r1)) r1)) by
      (try done; try lia; intros d' Hd'; apply time_end; try done; lia).
    destruct (stepped_end (set_dqtime t (rs_dqm r1)) r1 2 Hacc2 ltac:(lia)) as (-> & Hsb). cbn [fst snd].
    eexists. split; [|reflexivity]. eexists. split; [reflexivity|]. split; [exact (eq_trans Hsb Ha)|reflexivity].
  - rewrite (feed_next data _ MSEO_END _ (stepped MSEO_END (set_dqdata data (tagged sb core tag)) (afterTag sb core tag a))) by
      (try done; try lia; intros d' Hd'; apply data_end; try done; try lia; by left).
    destruct (stepped_end (set_dqdata data (tagged sb core tag)) _ 1 Hacc ltac:(lia)) as (-> & Hsb). cbn [fst snd].
    eexists. split; [|reflexivity]. eexists. split; [reflexivity|]. split; [exact (eq_trans Hsb Ha)|reflexivity].
Qed.

(** One encoded message. *)
Lemma feed_encode sb core b ts u rest : encodable sb core b ts = true -> idle sb u ->
  exists u', idle sb u' /\
    feed (encode sb core b ts ++ rest) u = (l ← feed rest; mret (heard sb core b ts ++ l)) u'.
Proof.
  intros Henc (a & -> & Ha & Hr). pose proof (encode_groups_wf sb core b ts Henc) as Hg.
  destruct (encodable_spec _ _ _ _ Henc) as (Hwf & Hsb & Hcore & _ & Hts & _).
  pose proof (wf_body_fields b Hwf) as Hbf. unfold encode.
  destruct (body_fields b) as [[fs v] vs] eqn:Eb. destruct Hg as (-> & Hgwf & Hn & Htot).
  destruct Hbf as (Hfs & Hw & Hv & Hvs & Hlen).
  set (n := num_slices (6 + sb + fixed_width fs + num_bits v)) in *.
  set (U := pack ((6, tcode_val (body_tcode b)) :: src_field sb core ++ fs) v) in *.
  apply Forall_cons_1 in Hgwf as [[_ HU] Hgwf]. cbn [fst snd] in HU.
  change (total (?g :: ?gs)) with (snd g + total gs) in Htot. cbn [snd] in Htot.
  pose proof (total_nonneg _ Hgwf).
  assert (U mod 64 = tcode_val (body_tcode b) /\ U / 64 = pack (src_field sb core ++ fs) v) as [Hlow Hhigh].
  { unfold U. cbn [pack]. change (2 ^ 6) with 64. pose proof (tcode_val_range (body_tcode b)).
    rewrite Z.mod_add, Z.mod_small, Z.div_add, Z.div_small by (change (2 ^ 6) with 64 in *; lia). lia. }
  cbn [groups_bytes]. rewrite <-app_assoc.
  destruct (decide (body_tcode b = TCODE_DATA_ACQUISITION)) as [Edq|Edq].
  - destruct b; try done. cbn [body_fields] in Eb. injection Eb as <- <- <-.
    rewrite app_nil_r in Hhigh. apply andb_true_iff in Hwf as [_ [Htag Hdata]%andb_true_iff]. rewrite in_range_spec in Htag, Hdata.
    pose proof (num_slices_bounds (6 + sb + fixed_width [] + num_bits idTag)) as Hns. fold n in Hns.
    cbn [fixed_width foldr] in Hns. pose proof (num_bits_le idTag 32 ltac:(lia) Htag).
    assert (pack (src_field sb core) idTag = core + idTag * 2 ^ sb) as Hpack.
    { unfold src_field. destruct (Z.ltb_spec 0 sb); [done|]. assert (sb = 0) as -> by lia. simpl in *. lia. }
    rewrite (feed_first U n (last_mark _) a (afterTag sb core idTag a)) by
      (try done; try lia; intros d Hd; rewrite Hlow; apply tag_end; try done; try lia; by rewrite <-Hpack, <-Hhigh).
    change (last_mark (var_groups ([data] ++ option_list ts))) with MSEO_VAR_END.
    rewrite getMessage_quiet by done. cbn [fst snd option_list]. rewrite ret_nil_app.
    change (negb (Z.testbit MSEO_VAR_END 1)) with true.
    destruct (feed_dataFields sb core idTag data ts a rest Hdata Hts Ha) as (u' & Hu' & E).
    exists u'. split; [done|]. rewrite E. unfold heard, tagged.
    destruct ts, (Z.eqb_spec sb 0) as [->|]; try reflexivity; simpl in Hcore; by replace core with 0 by lia.
  - assert (heard sb core b ts = []) as -> by (by destruct b).
    assert (ignoring sb (resetFor (U mod 64) a)) as Hig.
    { split; [done|]. split; [done|].
      change (rs_acceptingMessage (resetFor ?x a)) with (x =? 7). rewrite Hlow. by destruct b. }
    set (gs := var_groups (vs ++ option_list ts)) in *.
    destruct (ignoring_all sb (last_mark gs) (6 * (n - 1)) _ Hig) as (a1 & H1 & E1).
    rewrite (feed_first U n (last_mark gs) a a1) by (try done; try lia; apply last_mark_pos).
    destruct H1 as (Hs1 & Hr1 & Ha1). rewrite getMessage_quiet by done. cbn [fst snd option_list].
    rewrite ret_nil_app. setoid_rewrite ret_nil_app. destruct gs as [|g gs'] eqn:Egs.
    + exists (between false a1). split; [by exists a1|done].
    + destruct (feed_ignored (g :: gs') sb a1 rest Hgwf ltac:(lia) ltac:(done)) as (a2 & (H2 & H2' & _) & E2);
        [by repeat split|]. exists (between false a2). split; [by exists a2|exact E2].
Qed.

Lemma feed_app l1 l2 u : feed (l1 ++ l2) u = (a ← feed l1; b ← feed l2; mret (a ++ b)) u.
Proof.
  revert u. induction l1 as [|x l1 IH]; intros u; cbn [app feed].
  - by rewrite ret_bind, ret_nil_app.
  - rewrite !bind_assoc. unfold mbind, M_bind in *. destruct (appendByteAndCheckForMessage x u) as [u1 o| | |]; try done.
    rewrite IH. destruct (feed l1 u1) as [u2 a| | |]; try done. unfold mret, M_ret.
    destruct (feed l2 u2); try done. by rewrite app_assoc.
Qed.

(** A stream of messages. *)
Lemma feed_all sb ms : forall u,
  Forall (fun m => let '(core, b, ts) := m in encodable sb core b ts = true) ms -> idle sb u ->
  exists u', idle sb u' /\
    feed (encode_all sb ms) u = Ok u' (concat ((fun m => let '(core, b, ts) := m in heard sb core b ts) <$> ms)).
Proof.
  induction ms as [|[[core b] ts] ms IH]; intros u Hms Hu; [by exists u|].
  apply Forall_cons_1 in Hms as [Hm Hms]. unfold encode_all. cbn [fmap list_fmap concat].
  destruct (feed_encode sb core b ts u (encode_all sb ms) Hm Hu) as (u1 & Hu1 & E1).
  destruct (IH u1 Hms Hu1) as (u2 & Hu2 & E2). exists u2. split; [done|].
  unfold encode_all in *. rewrite E1. by rewrite (bind_ok _ _ _ _ _ E2).
Qed.

(** ** Joining a stream in its middle *)

(** Whatever was read before: outside of a message the buffer is empty. *)
Definition synced (sb : Z) (u : NexusStream) : Prop :=
  rs_srcbits (un_acceptor u) = sb /\ rs_messageReady (un_acceptor u) = false /\
  (un_inMessage u = false -> un_data u = noData /\ un_datanumbits u = 0 /\ un_dataoverflowed u = false).

(** The reassembler's callbacks leave its width alone. *)
Definition keepsBits (sb : Z) (m : M Reassembler DQErr unit) : Prop :=
  forall r r', rs_srcbits r = sb -> m r = Ok r' tt -> rs_srcbits r' = sb.

Lemma lift_inv {S E A} (o : option A) (s s' : S) a : lift_opt (E:=E) o s = Ok s' a -> s' = s /\ o = Some a.
Proof. unfold lift_opt. destruct o; [|done]. by intros [= -> ->]. Qed.

Lemma reassembleData_keeps sb n d o : keepsBits sb (reassembleData n d o).
Proof.
  intros r r' Hr. unfold reassembleData. rewrite bind_get.
  destruct (rs_acceptingMessage r); [|by intros [= <-]].
  destruct o; [by intros [= <-]|].
  destruct (rs_fieldcount r) as [|[[]|[]|]|]; try (by intros [= <-]).
  - intros (r1 & src & E1 & E)%bind_inv. apply bind_inv in E as (r2 & tag & E2 & E). injection E as <-.
    assert (r1 = r) as ->.
    { destruct (rs_srcbits r =? 0); [by injection E1 as <- _|].
      apply bind_inv in E1 as (? & v & [-> _]%lift_inv & E3). by injection E3 as <- _. }
    apply lift_inv in E2 as [-> _]. done.
  - intros (r1 & v & [-> _]%lift_inv & E)%bind_inv. by injection E as <-.
  - intros (r1 & v & [-> _]%lift_inv & E)%bind_inv. by injection E as <-.
Qed.

Lemma callback_inv (m : M Reassembler DQErr unit) (u u' : NexusStream) :
  callback m u = Ok u' tt -> exists a, m (un_acceptor u) = Ok a tt /\ u' = set_acceptor u a.
Proof. unfold callback. destruct (m (un_acceptor u)) as [a []| | |]; try done. intros [= <-]. eauto. Qed.

(** The callbacks at the end of a field, and what they leave of the unwrapper. *)
Lemma callback_keeps sb (m : M Reassembler DQErr unit) (u u' : NexusStream) :
  keepsBits sb m -> rs_srcbits (un_acceptor u) = sb -> callback m u = Ok u' tt ->
  rs_srcbits (un_acceptor u') = sb /\ un_inMessage u' = un_inMessage u.
Proof. intros Hm Hu (a & E & ->)%callback_inv. split; [by apply (Hm (un_acceptor u))|done]. Qed.

Lemma meso_end b : Z.testbit b 1 = true -> Z.land b 3 <> 0 /\ Z.testbit (Z.land b 3) 1 = true.
Proof.
  intros H. assert (Z.testbit (Z.land b 3) 1 = true) as Ht by (by rewrite Z.land_spec, H).
  split; [|done]. intros E. by rewrite E in Ht.
Qed.

Lemma appendByte_synced sb b (u u' : NexusStream) : synced sb u -> appendByte b u = Ok u' tt ->
  rs_srcbits (un_acceptor u') = sb /\
  (un_inMessage u' = false -> un_data u' = noData /\ un_datanumbits u' = 0 /\ un_dataoverflowed u' = false) /\
  (Z.testbit b 1 = true -> un_inMessage u' = false).
Proof.
  intros (Hsb & Hr & Hidle). unfold appendByte. rewrite bind_get.
  destruct (un_inMessage u) eqn:Em; cbn [negb andb].
  - intros (u1 & [] & E1 & E)%bind_inv.
    assert (rs_srcbits (un_acceptor u1) = sb /\ un_inMessage u1 = true) as [H1 Hm1].
    { destruct (un_datanumbits u <? _).
      - apply bind_inv in E1 as (u0 & d & [-> _]%lift_inv & E1). by injection E1 as <-.
      - by injection E1 as <-. }
    destruct (Z.eqb_spec (Z.land b 3) 0) as [Ez|Ez].
    + injection E as <-. split; [done|]. split; [by rewrite Hm1|]. by intros [? _]%meso_end.
    + rewrite bind_get in E. apply bind_inv in E as (u2 & [] & E2 & E).
      destruct (callback_keeps sb _ _ _ (reassembleData_keeps sb _ _ _) H1 E2) as [H2 Hm2].
      apply bind_inv in E as (u3 & [] & E3 & E).
      assert (rs_srcbits (un_acceptor u3) = sb /\ un_inMessage u3 = un_inMessage u2) as [H3 Hm3].
      { destruct (Z.testbit (Z.land b 3) 0); [|by injection E3 as <-].
        apply (callback_keeps sb endField); [|done|exact E3]. by intros r r' ? [= <-]. }
      apply bind_inv in E as (u4 & [] & E4 & E). injection E as <-.
      assert (rs_srcbits (un_acceptor u4) = sb /\ (Z.testbit (Z.land b 3) 1 = true -> un_inMessage u4 = false))
        as [H4 Hm4].
      { destruct (Z.testbit (Z.land b 3) 1); [|by injection E4 as <-].
        apply bind_inv in E4 as (u5 & [] & E5 & E4). injection E4 as <-. split; [|done].
        apply (callback_keeps sb endMessage u3 u5); [|done|exact E5].
        intros r r' <- [= <-]. unfold finishMessage. by destruct (rs_acceptingMessage r). }
      split; [done|]. split; [done|]. intros [_ Ht]%meso_end. by apply Hm4.
  - destruct (Z.land b 3 =? 0) eqn:Ez.
    + rewrite bind_modify. intros (a & E & ->)%callback_inv. injection E as <-.
      split; [done|]. split; [done|]. intros [? _]%meso_end. by apply Z.eqb_eq in Ez.
    + intros [= <-]. by rewrite Em.
Qed.

(** The messages before do not matter once a slice has ended one. *)
Lemma feed_synced sb l : forall (u u' : NexusStream) out, synced sb u -> feed l u = Ok u' out ->
  synced sb u' /\ forall l' b, l = l' ++ [b] -> Z.testbit b 1 = true -> idle sb u'.
Proof.
  induction l as [|x l IH]; intros u u' out Hu; cbn [feed].
  { intros [= <- _]. split; [done|]. by intros [] b. }
  intros (u1 & o & E1 & E)%bind_inv. unfold appendByteAndCheckForMessage in E1.
  apply bind_inv in E1 as (u0 & [] & E0 & E1). rewrite bind_get in E1.
  destruct (appendByte_synced sb x u u0 Hu E0) as (Hsb & He & Hend).
  assert (synced sb u1 /\ (Z.testbit x 1 = true -> idle sb u1)) as [H1 Hi1].
  { destruct (getMessage (un_acceptor u0)) as [r msg] eqn:Eg. rewrite bind_modify in E1. injection E1 as <- _.
    assert (rs_srcbits r = sb /\ rs_messageReady r = false) as [Hr1 Hr2].
    { unfold getMessage in Eg. destruct (rs_messageReady (un_acceptor u0)) eqn:Er; by simplify_eq. }
    split; [done|]. intros Hx. exists r. split; [|done]. specialize (Hend Hx). specialize (He Hend).
    destruct u0, He as (Hd & Hn & Ho). simpl in *. by subst. }
  apply bind_inv in E as (u2 & out2 & E2 & E). injection E as -> _.
  destruct (IH u1 u' out2 H1 E2) as [H2 Hi2]. split; [done|].
  intros [|y l'] b Hl Hb; simpl in Hl; injection Hl as -> ->.
  - injection E2 as <- _. by apply Hi1.
  - by apply (Hi2 l' b).
Qed.

Lemma newNexusStream_idle sb : idle sb (newNexusStream sb) /\ synced sb (newNexusStream sb).
Proof. split; [by eexists|done]. Qed.

(** *** What a listener does of any bytes at all

    There is one thing that is undefined: a tag of more than 64 bits is shifted out of its
    variable.  For that a message of type 7, which starts with the byte 28, has to have ten
    slices or more before the one that ends its first field. *)

Definition midField (x : Z) : Prop := Z.land x 3 = 0.
Definition wideTag (l : list Z) : Prop :=
  exists l1 f e l2, l = l1 ++ 28 :: f ++ e :: l2 /\ Forall midField f /\ (10 <= length f)%nat.

Lemma u8_to_buf_total num : forall src buf pos, 0 <= pos -> pos + Z.of_nat num <= 8 * Z.of_nat (length buf) ->
  exists buf', u8_to_buf src num buf pos = Some buf' /\ length buf' = length buf.
Proof.
  induction num as [|num IH]; intros src buf pos Hp Hl; cbn [u8_to_buf]; [by exists buf|].
  unfold buf_set_bit. destruct (lookup_lt_is_Some_2 buf (Z.to_nat (pos / 8))) as [b Eb]; [dlia|]. rewrite Eb. cbn [mbind option_bind].
  set (buf1 := <[_ := _]> buf). assert (length buf1 = length buf) as Hl1 by apply length_insert.
  destruct (IH (Z.shiftr src 1) buf1 (pos + 1) ltac:(lia) ltac:(lia)) as (buf' & E & Hl'). exists buf'. split; [exact E|lia].
Qed.

Lemma bufLoop_total n : forall buf pos i val, 0 <= pos -> 0 <= i -> i + Z.of_nat n <= 64 ->
  pos + i + Z.of_nat n <= 8 * Z.of_nat (length buf) -> is_Some (bufLoop buf pos i n val).
Proof.
  induction n as [|n IH]; intros buf pos i val Hp Hi H64 Hl; cbn [bufLoop]; [by eexists|].
  unfold buf_get_bit. destruct (lookup_lt_is_Some_2 buf (Z.to_nat ((pos + i) / 8))) as [b Eb]; [dlia|]. rewrite Eb. cbn [mbind option_bind].
  unfold shl64. destruct (Z.leb_spec 0 i), (Z.ltb_spec i 64); try lia. cbn [andb mbind option_bind]. apply IH; lia.
Qed.
Lemma buf_to_u64_total buf pos n : 0 <= pos -> n <= 64 -> pos + Z.max n 0 <= 8 * Z.of_nat (length buf) -> is_Some (buf_to_u64 buf pos n).
Proof. intros. unfold buf_to_u64. apply bufLoop_total; lia. Qed.

(** What a listener has of the bytes that it was given. *)
Record hearing (sb : Z) (l : list Z) (u : NexusStream) : Prop := {
  hg_srcbits : rs_srcbits (un_acceptor u) = sb;
  hg_data : Z.of_nat (length (un_data u)) = MAX_DATA;
  hg_bits : 0 <= un_datanumbits u < 8 * MAX_DATA;
  hg_idle : un_inMessage u = false -> un_datanumbits u = 0;
  hg_count : 0 <= rs_fieldcount (un_acceptor u);
  hg_tag : un_inMessage u = true -> rs_acceptingMessage (un_acceptor u) = true -> rs_fieldcount (un_acceptor u) = 0 ->
    exists l1 f, l = l1 ++ 28 :: f /\ Forall midField f /\ un_datanumbits u <= 6 * Z.of_nat (length f);
}.

(** The data of a field are taken, unless it is a tag that is too wide. *)
Lemma reassembleData_total n d o r : 0 <= rs_srcbits r <= 64 -> Z.of_nat (length d) = MAX_DATA -> 0 <= n < 8 * MAX_DATA -> 0 <= rs_fieldcount r ->
  (exists r', reassembleData n d o r = Ok r' tt /\ rs_srcbits r' = rs_srcbits r /\ rs_acceptingMessage r' = rs_acceptingMessage r /\
     rs_fieldcount r' = rs_fieldcount r) \/
  reassembleData n d o r = Undef /\ rs_acceptingMessage r = true /\ rs_fieldcount r = 0 /\ 64 < n.
Proof.
  intros Hsb Hd Hn Hc. unfold reassembleData, MAX_DATA in *. rewrite bind_get.
  destruct (rs_acceptingMessage r) eqn:Ea; [|left; by exists r]. destruct o; [left; by eexists|].
  assert (forall k, k <= 64 -> is_Some (buf_to_u64 d 0 (Z.min n k))) as Hmin by (intros k Hk; apply buf_to_u64_total; lia).
  destruct (rs_fieldcount r) as [|[[]|[]|]|] eqn:Ef; try lia; try (left; by exists r).
  - assert (is_Some (buf_to_u64 d 0 (rs_srcbits r))) as [v Ev] by (apply buf_to_u64_total; lia). rewrite Ev.
    assert (exists src, (if rs_srcbits r =? 0 then mret None else v ← lift_opt (Some v); mret (Some (u32 v))) r = Ok (E := DQErr) r src) as [src Es]
      by (destruct (_ =? _); by eexists). rewrite (bind_ok _ _ _ _ _ Es).
    destruct (buf_to_u64 d (if rs_srcbits r =? 0 then 0 else rs_srcbits r) (n - rs_srcbits r)) as [tag|] eqn:Et.
    + left. rewrite lift_bind. by eexists.
    + right. split_and!; try done. destruct (decide (64 < n)) as [|Hle]; [done|]. exfalso. revert Et. apply not_eq_None_Some.
      apply buf_to_u64_total; destruct (Z.eqb_spec (rs_srcbits r) 0); lia.
  - destruct (Hmin 64 ltac:(lia)) as [v Ev]. rewrite Ev, lift_bind. left. by eexists.
  - destruct (Hmin 32 ltac:(lia)) as [v Ev]. rewrite Ev, lift_bind. left. by eexists.
Qed.

(** The end of a field, and the field after it. *)
Definition fieldEnd (meso : Z) : M NexusStream DQErr unit :=
  u ← get;
  callback (messageData (un_datanumbits u) (un_data u) (un_dataoverflowed u)) ≫= fun _ =>
  (if Z.testbit meso 0 then callback endField else mret tt) ≫= fun _ =>
  (if Z.testbit meso 1 then callback endMessage ≫= fun _ => modify (set_inMessage false) else mret tt) ≫= fun _ =>
  modify emptyData.

Lemma meso_ends x : Z.land x 3 <> 0 -> Z.testbit (Z.land x 3) 0 = false -> Z.testbit (Z.land x 3) 1 = true.
Proof. rewrite land_3. intros H. assert (x mod 4 = 1 \/ x mod 4 = 2 \/ x mod 4 = 3) as [-> | [-> | ->]] by dlia; done. Qed.

Lemma fieldEnd_total sb l u x : 0 <= sb <= 64 -> Z.land x 3 <> 0 -> rs_srcbits (un_acceptor u) = sb ->
  Z.of_nat (length (un_data u)) = MAX_DATA -> 0 <= un_datanumbits u < 8 * MAX_DATA -> 0 <= rs_fieldcount (un_acceptor u) -> un_inMessage u = true ->
  (exists u', fieldEnd (Z.land x 3) u = Ok u' tt /\ hearing sb l u') \/
  fieldEnd (Z.land x 3) u = Undef /\ rs_acceptingMessage (un_acceptor u) = true /\ rs_fieldcount (un_acceptor u) = 0 /\ 64 < un_datanumbits u.
Proof.
  intros Hsb Hx Hs Hd Hn Hc Hm. unfold fieldEnd. rewrite bind_get. change messageData with reassembleData.
  destruct (reassembleData_total (un_datanumbits u) (un_data u) (un_dataoverflowed u) (un_acceptor u) ltac:(lia) Hd Hn Hc)
    as [(r & E & Hr1 & Hr2 & Hr3)|(E & Ha & H0 & Hw)].
  2: { right. split; [|done]. unfold mbind, M_bind, callback. by rewrite E. }
  left. erewrite bind_ok by (unfold callback; by rewrite E).
  assert (Z.of_nat (length noData) = MAX_DATA) as Hno by done.
  pose proof (meso_ends x Hx) as Hend. destruct (Z.testbit (Z.land x 3) 0), (Z.testbit (Z.land x 3) 1); try (by specialize (Hend eq_refl));
    (eexists; split; [reflexivity|]); split; cbn -[finishMessage MAX_DATA noData]; unfold finishMessage; cbn -[MAX_DATA noData];
    repeat case_match; cbn -[MAX_DATA noData]; unfold MAX_DATA in *; try done; try lia; intros; lia.
Qed.

Lemma appendByte_total sb l u x : 0 <= sb <= 64 -> hearing sb l u ->
  (exists u', appendByte x u = Ok u' tt /\ hearing sb (l ++ [x]) u') \/ appendByte x u = Undef /\ wideTag (l ++ [x]).
Proof.
  intros Hsb [Hs Hd Hn Hi Hc Ht]. unfold appendByte. rewrite bind_get. destruct (un_inMessage u) eqn:Em; cbn [negb andb].
  2: { left. destruct (Z.eqb_spec (Z.land x 3) 0) as [Hx|Hx].
    - rewrite bind_modify. eexists. split; [reflexivity|]. split; cbn -[MAX_DATA]; try done; try lia. intros _ Ha _.
      exists l, []. split; [|split; [done|rewrite Hi by done; cbn; lia]]. do 2 f_equal. apply Z.eqb_eq in Ha.
      rewrite Z.shiftr_div_pow2 in Ha by lia. rewrite land_3 in Hx. change (2 ^ 2) with 4 in Ha. dlia.
    - eexists. split; [reflexivity|]. split; first [done | by rewrite Em]. }
  set (m := if un_datanumbits u <? MAX_DATA * 8 - 6 then _ else _).
  assert (exists u1, m u = Ok u1 tt /\ un_acceptor u1 = un_acceptor u /\ un_inMessage u1 = true /\ Z.of_nat (length (un_data u1)) = MAX_DATA /\
    0 <= un_datanumbits u1 < 8 * MAX_DATA /\ un_datanumbits u1 <= un_datanumbits u + 6) as (u1 & E1 & Ha & Hm1 & Hd1 & Hn1 & Hn1').
  { unfold m. unfold MAX_DATA in *. destruct (Z.ltb_spec (un_datanumbits u) (4096 * 8 - 6)).
    - destruct (u8_to_buf_total 6 (Z.shiftr x 2) (un_data u) (un_datanumbits u) ltac:(lia) ltac:(lia)) as (d & E & Hl).
      rewrite E. eexists. split; [reflexivity|]. cbn. rewrite Em. split_and!; try done; lia.
    - eexists. split; [reflexivity|]. cbn. rewrite Em. split_and!; try done; lia. }
  rewrite (bind_ok _ _ _ _ _ E1). destruct (Z.eqb_spec (Z.land x 3) 0) as [Hx|Hx].
  - left. exists u1. split; [done|]. split; rewrite ?Ha; try done; [by rewrite Hm1|]. intros _ H1 H2.
    destruct (Ht eq_refl H1 H2) as (l1 & f & -> & Hf & Hb). exists l1, (f ++ [x]). split; [by rewrite <-app_assoc|].
    split; [apply list.Forall_app; split; [done|by apply list.Forall_singleton]|]. rewrite length_app. cbn. lia.
  - destruct (fieldEnd_total sb (l ++ [x]) u1 x Hsb Hx ltac:(by rewrite Ha) Hd1 Hn1 ltac:(by rewrite Ha) Hm1) as [H|(E & H1 & H2 & Hw)]; [by left|].
    right. split; [exact E|]. rewrite Ha in *. destruct (Ht eq_refl H1 H2) as (l1 & f & -> & Hf & Hb).
    exists l1, f, x, []. split; [by rewrite <-app_assoc|]. split; [done|lia].
Qed.

Lemma feed_total sb bytes : 0 <= sb <= 64 -> forall l u, hearing sb l u ->
  (exists u' out, feed bytes u = Ok u' out) \/ feed bytes u = Undef /\ wideTag (l ++ bytes).
Proof.
  intros Hsb. induction bytes as [|x bytes IH]; intros l u Hu; cbn [feed]; [left; by eexists _, _|].
  unfold appendByteAndCheckForMessage. destruct (appendByte_total sb l u x Hsb Hu) as [(u1 & E & H1)|[E Hw]].
  2: { right. split; [rewrite bind_assoc; unfold mbind at 1, M_bind; by rewrite E|]. destruct Hw as (l1 & f & e & l2 & El & Hf & Hl).
       exists l1, f, e, (l2 ++ bytes). split; [|done]. change (x :: bytes) with ([x] ++ bytes). rewrite app_assoc, El, <-app_assoc. cbn [app]. by rewrite <-app_assoc. }
  rewrite bind_assoc, (bind_ok _ _ _ _ _ E), bind_assoc, bind_get. destruct (getMessage (un_acceptor u1)) as [r o] eqn:Eg.
  rewrite bind_assoc, bind_modify, ret_bind.
  assert (hearing sb (l ++ [x]) (set_acceptor u1 r)) as H2.
  { destruct H1. unfold getMessage in Eg. destruct (rs_messageReady _); injection Eg as <- <-; by split. }
  rewrite (cons_middle x l bytes), app_assoc. destruct (IH _ _ H2) as [(u' & out & E2)|[E2 Hw]].
  - left. rewrite (bind_ok _ _ _ _ _ E2). by eexists _, _.
  - right. split; [|exact Hw]. unfold mbind, M_bind. by rewrite E2.
Qed.

Lemma new_hearing sb : hearing sb [] (newNexusStream sb).
Proof. by split. Qed.

(** A stream joined in the middle: after any bytes of which the last ends a message,
    the messages that follow are all heard. *)
Lemma feed_joined sb noise b out u ms :
  feed (noise ++ [b]) (newNexusStream sb) = Ok u out -> Z.testbit b 1 = true ->
  Forall (fun m => let '(core, b, ts) := m in encodable sb core b ts = true) ms ->
  exists u', feed ((noise ++ [b]) ++ encode_all sb ms) (newNexusStream sb) =
    Ok u' (out ++ concat ((fun m => let '(core, b, ts) := m in heard sb core b ts) <$> ms)).
Proof.
  intros E Hb Hms. destruct (newNexusStream_idle sb) as [_ Hs].
  destruct (feed_synced sb _ _ _ _ Hs E) as [_ Hi]. specialize (Hi noise b eq_refl Hb).
  destruct (feed_all sb ms u Hms Hi) as (u' & _ & E2). exists u'.
  rewrite feed_app, (bind_ok _ _ _ _ _ E). by rewrite (bind_ok _ _ _ _ _ E2).
Qed.

(** ** The builder writes what the encoder writes *)

Lemma land_bit val bit : 0 <= val < 2 ^ (bit + 1) -> 0 <= bit < 32 ->
  Z.land val (u64 (i32 (2 ^ bit))) = if val <? 2 ^ bit then 0 else 2 ^ bit.
Proof.
  intros Hv Hb. pose proof (pow2_pos bit ltac:(lia)).
  assert (2 ^ (bit + 1) = 2 * 2 ^ bit) as Hp by (rewrite Z.pow_add_r by lia; lia).
  assert (forall k, 0 <= k <= bit -> Z.testbit (u64 (i32 (2 ^ bit))) k = (k =? bit)) as Hmask.
  { intros k Hk. destruct (decide (bit = 31)) as [->|].
    - change (u64 (i32 (2 ^ 31))) with (2 ^ 31 + (2 ^ 32 - 1) * 2 ^ 32).
      rewrite <-(Z.mod_pow2_bits_low _ 32) by lia. rewrite Z.mod_add by lia.
      rewrite Z.mod_small by lia. rewrite Z.pow2_bits_eqb by lia. apply Z.eqb_sym.
    - assert (2 ^ bit <= 2 ^ 30) by (apply Z.pow_le_mono_r; lia).
      rewrite i32_small, u64_small, Z.pow2_bits_eqb by lia. apply Z.eqb_sym. }
  apply Z.bits_inj'. intros k Hk. rewrite Z.land_spec.
  destruct (Z.leb_spec k bit).
  - rewrite Hmask by lia. destruct (Z.eqb_spec k bit) as [->|Hne].
    + rewrite andb_true_r. destruct (Z.ltb_spec val (2 ^ bit)).
      * rewrite Z.bits_0. by apply testbit_high with bit; lia.
      * rewrite Z.pow2_bits_true by lia. apply Z.testbit_true; [lia|].
        replace (val / 2 ^ bit) with 1; [done|]. apply Z.div_unique with (val - 2 ^ bit); lia.
    + rewrite andb_false_r. destruct (val <? 2 ^ bit); [by rewrite Z.bits_0|]. by rewrite Z.pow2_bits_false by lia.
  - rewrite (testbit_high val (bit + 1)) by lia. destruct (val <? 2 ^ bit); [by rewrite Z.bits_0|].
    by rewrite Z.pow2_bits_false by lia.
Qed.

Lemma num_bits_exact val w : 0 <= w -> 2 ^ w <= val < 2 ^ (w + 1) -> num_bits val = w + 1.
Proof.
  intros Hw Hv. pose proof (pow2_pos w Hw). unfold num_bits. destruct (Z.eqb_spec val 0); [lia|].
  f_equal. apply Z.log2_unique; lia.
Qed.

Lemma minBits_spec val numbits : 0 < numbits <= 32 -> 0 <= val < 2 ^ numbits ->
  minBits val numbits = Some (num_bits val).
Proof.
  intros Hn Hv. unfold minBits. replace numbits with (Z.of_nat (Z.to_nat numbits)) in * by lia.
  rewrite Nat2Z.id. assert (0 < Z.to_nat numbits)%nat as Hpos by lia. revert Hn Hv Hpos.
  generalize (Z.to_nat numbits) as n. clear numbits. induction n as [|n IH]; [lia|].
  intros Hn Hv _. cbn [leadingZeros]. destruct (Z.leb_spec 32 (Z.of_nat n)); [lia|].
  replace (Z.of_nat (S n)) with (Z.of_nat n + 1) in * by lia.
  rewrite land_bit by lia. pose proof (pow2_pos (Z.of_nat n) ltac:(lia)).
  destruct (Z.ltb_spec val (2 ^ Z.of_nat n)); cbn [Z.eqb].
  - replace (Z.of_nat n + 1 - 1) with (Z.of_nat n) by lia. destruct n as [|n]; [|apply IH; lia].
    cbn. change (2 ^ Z.of_nat 0) with 1 in *. by replace val with 0 by lia.
  - rewrite (proj2 (Z.eqb_neq _ 0)) by lia. cbn [mbind option_bind].
    rewrite (num_bits_exact val (Z.of_nat n)) by lia. f_equal. lia.
Qed.

(** A number of 64 bits: the first shift of the loop is undefined. *)
Lemma minBits_64 val : minBits val 64 = None.
Proof. done. Qed.

(** The builder after [w] bits [u] of a group that starts after the slices [pre]: the
    full slices are out, up to the last one, which may still be in [curslice]. *)
Definition building (pre : list Z) (u w : Z) (b : Builder) : Prop :=
  exists k : nat, 6 * Z.of_nat k <= w <= 6 * Z.of_nat k + 6 /\ 0 <= u < 2 ^ w /\
    b = {| bd_curslice := 4 * (u / 2 ^ (6 * Z.of_nat k)); bd_cursliceOffset := 2 + w - 6 * Z.of_nat k;
           bd_slices := pre ++ ((fun i => 4 * slice u (6 * Z.of_nat i) 6) <$> seq 0 k) |}.

Lemma building_more u x w c (k : nat) : 0 <= u < 2 ^ w -> 6 * Z.of_nat k <= w -> 0 <= x < 2 ^ c -> 0 <= c ->
  ((fun i => 4 * slice (u + x * 2 ^ w) (6 * Z.of_nat i) 6) <$> seq 0 k) =
  ((fun i => 4 * slice u (6 * Z.of_nat i) 6) <$> seq 0 k).
Proof.
  intros Hu Hk Hx Hc. apply list_fmap_ext. intros i j Hj. apply lookup_seq in Hj as [-> Hj]. f_equal.
  bitwise t. destruct (Z.ltb_spec t 6); [|done]. cbn [andb].
  rewrite <-(Z.mod_pow2_bits_low _ w) by lia. rewrite Z.mod_add by (apply Z.pow_nonzero; lia).
  by rewrite Z.mod_small by done.
Qed.

(** A turn of the loop that takes bits. *)
Lemma building_chunk u w (k : nat) val c : 6 * Z.of_nat k <= w -> 0 <= u < 2 ^ w -> 0 <= c ->
  w + c <= 6 * Z.of_nat k + 6 ->
  4 * ((u + val mod 2 ^ c * 2 ^ w) / 2 ^ (6 * Z.of_nat k)) =
  u8 (Z.lor (4 * (u / 2 ^ (6 * Z.of_nat k))) (Z.shiftl (Z.land val (Z.ones c)) (2 + w - 6 * Z.of_nat k))).
Proof.
  intros Hk Hu Hc Hw. set (K := 6 * Z.of_nat k) in *. set (x := val mod 2 ^ c).
  assert (0 <= x < 2 ^ c) as Hx by (by apply Z.mod_pos_bound, pow2_pos).
  rewrite Z.land_ones by done. fold x. rewrite Z.shiftl_mul_pow2 by lia.
  assert (0 <= u / 2 ^ K < 2 ^ (w - K)) as Hq.
  { apply div_pow2_bound; [lia..|]. by replace (K + (w - K)) with w by lia. }
  assert (2 ^ w = 2 ^ (w - K) * 2 ^ K) as Hwk by (rewrite <-Z.pow_add_r by lia; f_equal; lia).
  assert (2 ^ (2 + w - K) = 4 * 2 ^ (w - K)) as H4.
  { replace (2 + w - K) with (2 + (w - K)) by lia. by rewrite Z.pow_add_r by lia. }
  rewrite lor_disjoint_add by lia. rewrite H4, Hwk, Z.mul_assoc, Z.div_add by (apply Z.pow_nonzero; lia).
  assert (2 ^ c * 2 ^ (w - K) <= 64) as Hcw.
  { rewrite <-Z.pow_add_r by lia. change 64 with (2 ^ 6). apply Z.pow_le_mono_r; lia. }
  pose proof (pow2_pos (w - K) ltac:(lia)). rewrite u8_small; [ring|nia].
Qed.

Lemma mod_split_mul val u w c n : 0 <= w -> 0 <= c <= n ->
  u + val mod 2 ^ c * 2 ^ w + (Z.shiftr val c) mod 2 ^ (n - c) * 2 ^ (w + c) = u + val mod 2 ^ n * 2 ^ w.
Proof.
  intros Hw Hc. rewrite Z.shiftr_div_pow2 by lia. replace n with (c + (n - c)) at 2 by lia.
  rewrite <-(mod_split val c (n - c)), Z.pow_add_r by lia. ring.
Qed.

Lemma building_bound u x w c : 0 <= w -> 0 <= c -> 0 <= u < 2 ^ w -> 0 <= x < 2 ^ c -> 0 <= u + x * 2 ^ w < 2 ^ (w + c).
Proof. intros. pose proof (pow2_pos w). rewrite Z.pow_add_r by lia. nia. Qed.

Lemma appendBits_spec fuel : forall val left pre u w b, building pre u w b -> 0 <= left ->
  (if bd_cursliceOffset b =? 8 then 2 * left + 1 else Z.max 1 (2 * left)) <= Z.of_nat fuel ->
  exists b', appendBits fuel val left b = Ok b' tt /\
    building pre (u + val mod 2 ^ left * 2 ^ w) (w + left) b' /\ (0 < left -> bd_cursliceOffset b' <> 2).
Proof.
  induction fuel as [|fuel IH]; intros val left pre u w b Hb Hl Hf.
  { destruct (bd_cursliceOffset b =? 8); lia. }
  cbn [appendBits]. destruct (Z.eqb_spec left 0) as [->|Hne].
  { exists b. split; [done|]. split; [|lia]. by rewrite Z.mod_1_r, Z.mul_0_l, !Z.add_0_r. }
  destruct Hb as (k & Hk & Hu & ->). rewrite bind_get. cbn [bd_cursliceOffset] in *.
  destruct (Z.eqb_spec (2 + w - 6 * Z.of_nat k) 8) as [E8|E8].
  - replace (8 - (2 + w - 6 * Z.of_nat k)) with 0 by lia. rewrite Z.min_r by lia.
    unfold flushSlice. rewrite !bind_modify. cbn [set_slice bd_curslice bd_cursliceOffset bd_slices].
    rewrite Z.land_0_r, Z.shiftl_0_l, Z.lor_0_r, Z.shiftr_0_r, Z.sub_0_r.
    apply IH; [|done|].
    + exists (S k). split; [lia|]. split; [done|]. unfold set_slice. cbn -[seq Z.of_nat]. f_equal; [|lia|].
      * rewrite Z.div_small; [done|]. by replace (6 * Z.of_nat (S k)) with w by lia.
      * rewrite seq_S, fmap_app, app_assoc. cbn [fmap list_fmap]. do 3 f_equal.
        replace (6 * Z.of_nat (0 + k)) with (6 * Z.of_nat k) by lia. unfold slice.
        symmetry. apply Z.mod_small. apply div_pow2_bound; [lia..|].
        by replace (6 * Z.of_nat k + 6) with w by lia.
    + cbn. case_cmp; lia.
  - set (c := Z.min left (8 - (2 + w - 6 * Z.of_nat k))) in *.
    rewrite ret_bind, bind_modify. cbn [set_slice bd_curslice bd_cursliceOffset bd_slices].
    assert (0 <= val mod 2 ^ c < 2 ^ c) as Hx by (apply Z.mod_pos_bound, pow2_pos; lia).
    destruct (IH (Z.shiftr val c) (left - c) pre (u + val mod 2 ^ c * 2 ^ w) (w + c)
      {| bd_curslice := 4 * ((u + val mod 2 ^ c * 2 ^ w) / 2 ^ (6 * Z.of_nat k));
         bd_cursliceOffset := 2 + w - 6 * Z.of_nat k + c;
         bd_slices := pre ++ ((fun i => 4 * slice u (6 * Z.of_nat i) 6) <$> seq 0 k) |})
      as (b' & E & Hb' & Hoff).
    + exists k. split; [lia|]. split; [apply building_bound; lia|].
      rewrite (building_more u (val mod 2 ^ c) w c k) by lia. f_equal. lia.
    + lia.
    + cbn [bd_cursliceOffset]. case_cmp; lia.
    + rewrite building_chunk in E by lia. exists b'. split; [exact E|].
      rewrite mod_split_mul in Hb' by lia. replace (w + c + (left - c)) with (w + left) in Hb' by lia.
      split; [done|]. intros _. destruct (decide (0 < left - c)); [by apply Hoff|].
      assert (left = c) as Hlc by lia. rewrite Hlc, Z.sub_diag in E. destruct fuel as [|fuel]; [lia|].
      cbn [appendBits Z.eqb] in E. injection E as <-. cbn. lia.
Qed.

Lemma append_spec val n pre u w b : building pre u w b -> 0 <= n ->
  exists b', append val n b = Ok b' tt /\ building pre (u + val mod 2 ^ n * 2 ^ w) (w + n) b' /\
    (0 < n -> bd_cursliceOffset b' <> 2).
Proof.
  intros Hb Hn. unfold append. apply appendBits_spec; [done|done|]. case_cmp; lia.
Qed.

(** The last slice of a group is marked and the group is complete. *)
Lemma building_end pre u w m b : building pre u w b -> bd_cursliceOffset b <> 2 -> 0 <= m < 4 ->
  (mark m ≫= fun _ => flushSlice) b =
    Ok {| bd_curslice := 0; bd_cursliceOffset := 2; bd_slices := pre ++ group_bytes u (num_slices w) m |} tt.
Proof.
  intros (k & Hk & Hu & ->) Hoff Hm. cbn in Hoff. unfold mark, flushSlice. rewrite bind_modify.
  unfold modify. cbn. do 2 f_equal. rewrite <-app_assoc. f_equal.
  assert (num_slices w = Z.of_nat k + 1) as -> by (unfold num_slices; symmetry; apply Z.div_unique with (w + 5 - 6 * (Z.of_nat k + 1)); lia).
  unfold group_bytes. replace (Z.to_nat (Z.of_nat k + 1)) with (S k) by lia. rewrite seq_S, fmap_app. f_equal.
  - apply list_fmap_ext. intros i j Hj. apply lookup_seq in Hj as [-> Hj].
    destruct (Z.eqb_spec (Z.of_nat (0 + i)) (Z.of_nat k + 1 - 1)); [lia|]. unfold MSEO_NORMAL. lia.
  - cbn [fmap list_fmap]. f_equal. destruct (Z.eqb_spec (Z.of_nat (0 + k)) (Z.of_nat k + 1 - 1)); [|lia].
    replace (4 * (u / 2 ^ (6 * Z.of_nat k))) with ((u / 2 ^ (6 * Z.of_nat k)) * 2 ^ 2) by ring.
    rewrite Z.lor_comm, lor_disjoint_add by (change (2 ^ 2) with 4; lia). change (2 ^ 2) with 4. unfold slice.
    rewrite Nat.add_0_l. rewrite (Z.mod_small (u / _)); [ring|].
    apply div_pow2_bound; [lia..|]. split; [lia|]. eapply Z.lt_le_trans; [apply Hu|]. apply Z.pow_le_mono_r; lia.
Qed.

Lemma building_start pre : building pre 0 0 {| bd_curslice := 0; bd_cursliceOffset := 2; bd_slices := pre |}.
Proof. exists O. cbn. split; [lia|]. split; [lia|]. by rewrite app_nil_r. Qed.

(** A variable field at the end of a group that has begun. *)
Lemma appendVarField_spec pre u w b val numbits (last : bool) : building pre u w b ->
  0 < numbits <= 32 -> 0 <= val < 2 ^ numbits ->
  appendVarField val numbits last b = Ok {| bd_curslice := 0; bd_cursliceOffset := 2;
    bd_slices := pre ++ group_bytes (u + val * 2 ^ w) (num_slices (w + num_bits val)) (if last then 3 else 1) |} tt.
Proof.
  intros Hb Hn Hv. unfold appendVarField. rewrite (minBits_spec val numbits), lift_bind by done.
  pose proof (num_bits_pos val ltac:(lia)). pose proof (num_bits_lt val ltac:(lia)).
  destruct (append_spec val (num_bits val) pre u w b Hb ltac:(lia)) as (b1 & E1 & H1 & Hoff).
  rewrite (bind_ok _ _ _ _ _ E1). rewrite Z.mod_small in H1 by lia.
  rewrite (building_end pre _ _ (if last then 3 else 1) b1 H1) by (try (apply Hoff; lia); by destruct last). done.
Qed.

Lemma builder_encodes srcbits src itcIdx size data ts cur off pre :
  0 <= srcbits <= 16 -> 0 <= src < 2 ^ srcbits -> size = 1 \/ size = 2 \/ size = 4 ->
  0 <= data < 2 ^ (8 * size) ->
  addDataAcquisitionMessage srcbits src itcIdx size data false ts
    {| bd_curslice := cur; bd_cursliceOffset := off; bd_slices := pre |} =
  Ok {| bd_curslice := 0; bd_cursliceOffset := 2;
        bd_slices := pre ++ encode srcbits src (B_dataAcquisition (tagOf itcIdx size) data) None |} tt.
Proof.
  intros Hsb Hsrc Hsize Hdata. unfold addDataAcquisitionMessage, beginMessage. rewrite bind_modify.
  set (b0 := set_slice 0 2 _). set (tag := tagOf itcIdx size).
  assert (0 <= tag < 2 ^ 32) as Htag by apply u32_bounds.
  destruct (append_spec 7 6 pre 0 0 b0 (building_start pre) ltac:(lia)) as (b1 & E1 & H1 & _).
  unfold appendFixedField. rewrite bind_assoc, (bind_ok _ _ _ _ _ E1), ret_bind.
  change (0 + 7 mod 2 ^ 6 * 2 ^ 0) with 7 in H1. change (0 + 6) with 6 in H1.
  destruct (append_spec src srcbits pre 7 6 b1 H1 ltac:(lia)) as (b2 & E2 & H2 & _).
  rewrite bind_assoc, (bind_ok _ _ _ _ _ E2), ret_bind. rewrite Z.mod_small in H2 by done.
  rewrite (bind_ok _ _ _ _ _ (appendVarField_spec pre _ _ b2 tag 32 false H2 ltac:(lia) Htag)).
  rewrite (bind_ok _ _ _ _ _ (appendVarField_spec _ 0 0 _ data (size * 8) true (building_start _)
    ltac:(lia) ltac:(by rewrite Z.mul_comm))).
  unfold encode, encode_groups, body_fields, field_groups. rewrite <-app_assoc.
  cbn [option_list app fmap list_fmap groups_bytes last_mark body_tcode tcode_val]. rewrite !app_nil_r.
  unfold mret, M_ret. do 4 f_equal.
  - unfold src_field. destruct (Z.ltb_spec 0 srcbits); cbn [pack fixed_width foldr fst snd].
    + rewrite Z.pow_add_r by lia. f_equal; [ring|f_equal; lia].
    + assert (srcbits = 0) as -> by lia. simpl in Hsrc. f_equal.
      replace src with 0 by lia. change (6 + 0) with 6. lia.
  - rewrite Z.add_0_l, Z.mul_1_r. done.
Qed.

(** With a time it is undefined. *)
Lemma builder_timestamp srcbits src itcIdx size data ts b :
  0 <= srcbits <= 16 -> 0 <= src < 2 ^ srcbits -> size = 1 \/ size = 2 \/ size = 4 ->
  0 <= data < 2 ^ (8 * size) ->
  addDataAcquisitionMessage srcbits src itcIdx size data true ts b = Undef.
Proof.
  intros Hsb Hsrc Hsize Hdata. destruct b as [cur off pre].
  unfold addDataAcquisitionMessage, beginMessage. rewrite bind_modify.
  set (b0 := set_slice 0 2 _). set (tag := tagOf itcIdx size).
  assert (0 <= tag < 2 ^ 32) as Htag by apply u32_bounds.
  destruct (append_spec 7 6 pre 0 0 b0 (building_start pre) ltac:(lia)) as (b1 & E1 & H1 & _).
  unfold appendFixedField. rewrite bind_assoc, (bind_ok _ _ _ _ _ E1), ret_bind.
  destruct (append_spec src srcbits pre _ _ b1 H1 ltac:(lia)) as (b2 & E2 & H2 & _).
  rewrite bind_assoc, (bind_ok _ _ _ _ _ E2), ret_bind.
  rewrite (bind_ok _ _ _ _ _ (appendVarField_spec pre _ _ b2 tag 32 false H2 ltac:(lia) Htag)).
  rewrite (bind_ok _ _ _ _ _ (appendVarField_spec _ 0 0 _ data (size * 8) false (building_start _)
    ltac:(lia) ltac:(by rewrite Z.mul_comm))). done.
Qed.

(** ** The clients *)

(** With any client at all the loop writes through the end of the list. *)
Lemma queueTo_undef text n : forall (cs : list IoConnection) it,
  (it + n)%nat = length cs -> (0 < n)%nat -> queueTo text n it cs = Undef.
Proof.
  induction n as [|n IH]; intros cs it Hlen Hn; [lia|]. cbn [queueTo]. unfold client at 1.
  destruct (lookup_lt_is_Some_2 cs it ltac:(lia)) as [c Hc].
  unfold mbind at 1, M_bind at 1. rewrite Hc. cbn [lift_opt].
  set (w := _ <? _). set (m := if w then mret tt else _).
  assert (exists cs', m cs = Ok cs' tt /\ length cs' = length cs) as (cs' & E & Hl).
  { unfold m. destruct w; [by exists cs|]. destruct (text c) as [str|]; [|by exists cs].
    unfold setClient, client. unfold mbind, M_bind. rewrite Hc. cbn. eexists. split; [done|]. by rewrite length_insert. }
  rewrite (bind_ok _ _ _ _ _ E). unfold setClient, client. rewrite bind_assoc.
  destruct (decide (n = O)) as [->|Hne].
  - unfold mbind, M_bind. rewrite lookup_ge_None_2 by lia. done.
  - destruct (lookup_lt_is_Some_2 cs' (S it) ltac:(lia)) as [c' Hc'].
    unfold mbind at 1, M_bind at 1. rewrite Hc'. cbn [lift_opt]. rewrite bind_modify.
    apply IH; [rewrite length_insert|]; lia.
Qed.

(** A mask in capital letters is read; a small letter [c] gives [c - 'A' + 10]. *)
Definition hexDigit (d : Z) : Z := if d <? 10 then 48 + d else 55 + d.

Lemma readMask_app ds : forall rest m, Forall (fun d => 0 <= d < 16) ds ->
  readMask (hexDigit <$> ds ++ rest) m = readMask (hexDigit <$> rest) (foldl (fun m d => Z.lor (u32 (Z.shiftl m 4)) d) m ds).
Proof.
  induction ds as [|d ds IH]; intros rest m Hd; [done|]. apply Forall_cons_1 in Hd as [Hd Hds].
  cbn [app fmap list_fmap readMask foldl].
  assert (((hexDigit d =? 0) || isspace (hexDigit d)) = false /\ nybble (hexDigit d) = d) as [-> ->].
  { assert (d ∈ [0;1;2;3;4;5;6;7;8;9;10;11;12;13;14;15]) as Hin.
    { rewrite !elem_of_cons. lia. }
    repeat (apply elem_of_cons in Hin as [->|Hin]; [done|]). by apply not_elem_of_nil in Hin. }
  by apply IH.
Qed.
