(* ===== verification/Execution.v ===== *)
(** * Executions and their traces

    What a history trace of an execution looks like, and what the decoder is
    expected to return for it.  An execution is cut into segments: each ends with
    a message that gives the number of halfwords executed, the outcomes of the
    conditional branches, and the address where the execution goes on. *)

From S2P Require Import Prelude Nexus Analytics Encode Counts Decode Memory NextAddr Walk.

(** ** Histories *)

(** The history word of a list of outcomes, below a stop bit. *)
Definition historyOf (outs : list bool) : Z :=
  foldl (fun h b => 2 * h + Z.b2z b) 1 outs.

Lemma historyOf_snoc outs b : historyOf (outs ++ [b]) = 2 * historyOf outs + Z.b2z b.
Proof. unfold historyOf. by rewrite foldl_app. Qed.

Lemma historyOf_bounds outs :
  2 ^ Z.of_nat (length outs) <= historyOf outs < 2 * 2 ^ Z.of_nat (length outs).
Proof.
  induction outs as [|b outs IH] using rev_ind; [by vm_compute|].
  rewrite historyOf_snoc, length_app, Nat2Z.inj_add, Z.pow_add_r by lia. cbn [length].
  change (2 ^ Z.of_nat 1) with 2. destruct b; cbn [Z.b2z]; lia.
Qed.

Lemma historyOf_log2 outs : Z.log2 (historyOf outs) = Z.of_nat (length outs).
Proof.
  apply Z.log2_unique; [lia|]. pose proof (historyOf_bounds outs).
  rewrite Z.pow_succ_r by lia. lia.
Qed.

Lemma outcomes_historyOf outs : outcomes (length outs) (historyOf outs) = outs.
Proof.
  induction outs as [|b outs IH] using rev_ind; [done|].
  pose proof (historyOf_bounds outs). pose proof (pow2_pos (Z.of_nat (length outs)) ltac:(lia)).
  rewrite historyOf_snoc, length_app, Nat.add_comm. cbn [length Nat.add].
  rewrite outcomes_half by (destruct b; cbn; lia). f_equal.
  - replace ((2 * historyOf outs + Z.b2z b) / 2) with (historyOf outs); [done|].
    apply Z.div_unique with (Z.b2z b); destruct b; cbn [Z.b2z]; lia.
  - f_equal. rewrite Z.add_comm. apply Z.add_b2z_double_bit0.
Qed.

Lemma historyOf_range outs : (length outs <= 31)%nat -> 0 < historyOf outs < 2 ^ 32.
Proof.
  intros Hl. pose proof (historyOf_bounds outs). pose proof (pow2_pos (Z.of_nat (length outs)) ltac:(lia)).
  assert (2 ^ Z.of_nat (length outs) <= 2 ^ 31) by (apply Z.pow_le_mono_r; lia). lia.
Qed.

(** ** Segments *)

(** [sg_count] instructions with the outcomes [sg_outs], after which the execution
    goes on at [sg_target]; the message is of type [sg_btype], and is sent at
    [sg_time] if the trace has timestamps. *)
Record Segment := {
  sg_count : nat;
  sg_outs : list bool;
  sg_target : Z;
  sg_btype : BType;
  sg_time : option Z;
}.

(** What a call returns of an instruction: the address, the flags and the time;
    and of a message: its fields, the address after it and its time. *)
Record Expected := {
  ex_inst : option (Z * Z * BranchFlags * Z);
  ex_msg : option (Body * option Z * Z * Z);
}.

(** The calls for one segment: the last one also returns the message. *)
Fixpoint segmentCalls (pc isr last : Z) (m : Body * option Z * Z * Z) (path : list Outcome)
    : list Expected :=
  match path with
  | [] => []
  | (pc', cr, br) :: path =>
      {| ex_inst := Some (pc, Z.lor cr isr, br, last);
         ex_msg := match path with [] => Some m | _ => None end |}
      :: segmentCalls pc' isNone last m path
  end.

Section trace.
Context (prog : Z -> option Inst) (cap core : Z).

(** The message of a segment from [pc], of [i] halfwords. *)
Definition segmentBody (pc i : Z) (s : Segment) : Body :=
  B_indirectHistory i (Z.lxor pc (sg_target s) / 2) (sg_btype s) (historyOf (sg_outs s)).

Definition segmentStamp (last : Z) (s : Segment) : option Z := Z.lxor last <$> sg_time s.

(** The instruction after an exception message is flagged. *)
Definition segmentISR (s : Segment) : Z :=
  if decide (sg_btype s = BTYPE_EXCEPTION) then isInterrupt else isNone.

(** The messages of an execution from [pc] and what the decoder is to return for
    them; [None] if the segments are not an execution of the program. *)
Fixpoint trace (pc : Z) (st : list Z) (isr last : Z) (segs : list Segment)
    : option (list (Z * Body * option Z) * list Expected) :=
  match segs with
  | [] => Some ([], [])
  | s :: segs =>
      '(path, i, _, st', outs) ← refRun prog cap (S (sg_count s)) pc st (sg_outs s);
      match outs with
      | _ :: _ => None
      | [] =>
          let body := segmentBody pc i s in
          let ts := segmentStamp last s in
          let time := default last (sg_time s) in
          '(ms, calls) ← trace (sg_target s) st' (segmentISR s) time segs;
          Some ((core, body, ts) :: ms,
                segmentCalls pc isr last (body, ts, sg_target s, time) path ++ calls)
      end
  end.

(** The addresses are even and not 0, which stands for an unknown address; the
    times do not decrease, and are not 0, which stands for an unknown time; at
    most 31 branches fit in a history. *)
Fixpoint segments_ok (last : Z) (segs : list Segment) : bool :=
  match segs with
  | [] => true
  | s :: segs =>
      (sg_target s mod 2 =? 0) && (0 <? sg_target s) && (sg_target s <? 2 ^ 64) &&
      (Z.of_nat (length (sg_outs s)) <=? 31) &&
      match sg_time s with
      | Some t => (0 <? last) && (last <=? t) && (t <? 2 ^ 64)
      | None => true
      end &&
      segments_ok (default last (sg_time s)) segs
  end.
End trace.
