(* ===== verification/Reconstruct.v ===== *)
(** * From bytes to instructions

    The whole decoder on a history trace of one hart: a file that holds the
    encodings of the messages of an execution is turned back into that execution,
    instruction by instruction.  The trace is of a bare-metal program, without a
    cycle-accurate trace, and the caller asks for instructions and messages. *)

From S2P Require Import Prelude Nexus Slices Source Framing Analytics Messages Encode RoundTrip.
From S2P Require Import Counts Decode Memory NextAddr Walk Perf State Process Retire ItcPrint Cycles NextInstr Execution.

Section reconstruct.
Context {K Perf D I CA : Type} `{!CodeMemory K} `{!CodeMemoryLaws (TraceMem K)} `{!PerfSink Perf}.
Context `{!Disassembly K D} `{!ItcSink I} `{!CycleTrace CA}.
Context (uninit : Inst) (converterStatus : Z -> DQErr) (et_controlIndex uninitAddr : Z).

#[local] Abbreviation Dec := (Decoder K Perf File D I CA).
#[local] Abbreviation DM := (M (Decoder K Perf File D I CA) DQErr).
#[local] Abbreviation Walk := (Walker (TraceMem K)).

(** ** The part of the state that changes *)

(** The members that decoding instructions changes. *)
Record View := {
  v_walker : Walk;
  v_core : CoreState;
  v_nm : NexusMessage;
  v_read : bool;
  v_tolerant : bool;
  v_parser : SliceParser File;
  v_analytics : Analytics;
  v_inst : InstInfo;
  v_disassembler : D;
  v_out : Out;
}.

Context (core : Z) (d0 : Dec).

(** [d0] with these members. *)
Definition view (v : View) : Dec := {|
  de_trace := {|
    tr_walker := v_walker v; tr_cores := <[Z.to_nat core := v_core v]> (tr_cores (de_trace d0));
    tr_processes := tr_processes (de_trace d0); tr_settings := tr_settings (de_trace d0);
    tr_nm := v_nm v; tr_readNewTraceMessage := v_read v; tr_tolerantError := v_tolerant v;
    tr_emitted := tr_emitted (de_trace d0) |};
  de_sfp := Some (v_parser v); de_analytics := v_analytics v;
  de_instructionInfo := v_inst v; de_disassembler := v_disassembler v;
  de_itcPrint := de_itcPrint d0; de_caTrace := de_caTrace d0; de_syncCount := de_syncCount d0;
  de_caSyncAddr := de_caSyncAddr d0; de_lastCycle := de_lastCycle d0;
  de_eCycleCount := de_eCycleCount d0; de_out := v_out v |}.

Definition with_walker w v : View := {|
  v_walker := w; v_core := v_core v; v_nm := v_nm v; v_read := v_read v;
  v_tolerant := v_tolerant v; v_parser := v_parser v; v_analytics := v_analytics v;
  v_inst := v_inst v; v_disassembler := v_disassembler v; v_out := v_out v |}.
Definition with_core c v : View := {|
  v_walker := v_walker v; v_core := c; v_nm := v_nm v; v_read := v_read v;
  v_tolerant := v_tolerant v; v_parser := v_parser v; v_analytics := v_analytics v;
  v_inst := v_inst v; v_disassembler := v_disassembler v; v_out := v_out v |}.
Definition with_read b v : View := {|
  v_walker := v_walker v; v_core := v_core v; v_nm := v_nm v; v_read := b;
  v_tolerant := v_tolerant v; v_parser := v_parser v; v_analytics := v_analytics v;
  v_inst := v_inst v; v_disassembler := v_disassembler v; v_out := v_out v |}.
Definition with_nm n v : View := {|
  v_walker := v_walker v; v_core := v_core v; v_nm := n; v_read := v_read v;
  v_tolerant := v_tolerant v; v_parser := v_parser v; v_analytics := v_analytics v;
  v_inst := v_inst v; v_disassembler := v_disassembler v; v_out := v_out v |}.
Definition with_tolerant b v : View := {|
  v_walker := v_walker v; v_core := v_core v; v_nm := v_nm v; v_read := v_read v;
  v_tolerant := b; v_parser := v_parser v; v_analytics := v_analytics v;
  v_inst := v_inst v; v_disassembler := v_disassembler v; v_out := v_out v |}.
Definition with_parser p a v : View := {|
  v_walker := v_walker v; v_core := v_core v; v_nm := v_nm v; v_read := v_read v;
  v_tolerant := v_tolerant v; v_parser := p; v_analytics := a;
  v_inst := v_inst v; v_disassembler := v_disassembler v; v_out := v_out v |}.
Definition with_inst i x v : View := {|
  v_walker := v_walker v; v_core := v_core v; v_nm := v_nm v; v_read := v_read v;
  v_tolerant := v_tolerant v; v_parser := v_parser v; v_analytics := v_analytics v;
  v_inst := i; v_disassembler := x; v_out := v_out v |}.
Definition with_out o v : View := {|
  v_walker := v_walker v; v_core := v_core v; v_nm := v_nm v; v_read := v_read v;
  v_tolerant := v_tolerant v; v_parser := v_parser v; v_analytics := v_analytics v;
  v_inst := v_inst v; v_disassembler := v_disassembler v; v_out := o |}.

(** ** What the trace is like *)

Record bare_metal : Prop := {
  bm_core : 0 <= core < DQR_MAXCORES;
  bm_cores : (Z.to_nat core < length (tr_cores (de_trace d0)))%nat;
  bm_cycles : (Z.to_nat core < length (de_eCycleCount d0))%nat;
  bm_ca : de_caTrace d0 = None;
  bm_linux : se_linuxTrace (tr_settings (de_trace d0)) = false;
  bm_filter : Z.testbit (se_eventFilterMask (tr_settings (de_trace d0))) et_controlIndex = false;
  bm_process : is_Some (tr_processes (de_trace d0) !! 0%nat);
}.

Hypothesis Hbm : bare_metal.
Implicit Type v : View.

(** ** The operations on a view *)

Definition mine v : Prop := wk_currentCore (v_walker v) = core.

Lemma view_cores v :
  tr_cores (de_trace (view v)) = <[Z.to_nat core := v_core v]> (tr_cores (de_trace d0)).
Proof. done. Qed.

Lemma view_here v cc : mine v -> at_core core (v_walker v) cc -> here_is (v_core v) cc (de_trace (view v)).
Proof.
  intros Hv Hc. assert (currentCore (de_trace (view v)) = core) as E by done.
  split; rewrite E; [apply Hbm| |done].
  rewrite view_cores. apply list_lookup_insert_eq, Hbm.
Qed.

Lemma put_here_view v c cc :
  mine v -> put_here c cc (de_trace (view v)) =
    de_trace (view (with_core c (with_walker (upd core cc (v_walker v)) v))).
Proof.
  intros Hv. unfold put_here. assert (currentCore (de_trace (view v)) = core) as -> by done.
  rewrite view_cores, list_insert_insert_eq. done.
Qed.

Lemma onTrace_ok {A} (m : M (Trace K Perf) DQErr A) v v' a :
  m (de_trace (view v)) = Ok (de_trace (view v')) a ->
  view v' = set_trace (de_trace (view v')) (view v) ->
  onTrace m (view v) = Ok (view v') a.
Proof. intros Hm Hv. unfold onTrace, zoom. by rewrite Hm, Hv. Qed.

Lemma onWalker_ok {A} (m : M Walk DQErr A) v w a :
  m (v_walker v) = Ok w a -> onTrace (onWalker m) (view v) = Ok (view (with_walker w v)) a.
Proof. intros Hm. unfold onTrace, zoom, onWalker, zoom. cbn. by rewrite Hm. Qed.

Lemma setStatusD_ok v e :
  setStatusD e (view v) = Ok (view (with_walker (set_wstatus e (v_walker v)) v)) tt.
Proof. by apply onWalker_ok. Qed.

Lemma theCore_ok v : mine v -> theCore (view v) = Ok (view v) core.
Proof. intros Hv. unfold theCore. erewrite bind_ok by done. by rewrite <-Hv. Qed.

Lemma theNm_ok v : theNm (view v) = Ok (view v) (v_nm v).
Proof. done. Qed.

Lemma setRead_ok b v : setRead b (view v) = Ok (view (with_read b v)) tt.
Proof. done. Qed.

Lemma lift_some {S A} (o : option A) x (s : S) : o = Some x -> (lift_opt o s : Res S DQErr A) = Ok s x.
Proof. by intros ->. Qed.

Lemma attempt_ok {S A} (m : M S DQErr A) s s' a : m s = Ok s' a -> attempt m s = Ok s' (inr a).
Proof. unfold attempt. by intros ->. Qed.

Lemma get_ok {S} (s : S) : @get S DQErr s = Ok s s.
Proof. done. Qed.

(** The current core has counts. *)
Section counts.
Context (cc : CoreCounts) (v : View).
Hypothesis (Hv : mine v) (Hc : at_core core (v_walker v) cc).

Lemma atCore_ok : atCore (view v) = Ok (view v) (v_core v).
Proof. apply onTrace_ok; [|done]. by eapply here_ok, view_here. Qed.

Lemma setAtCore_ok f : setAtCore f (view v) = Ok (view (with_core (f (v_core v)) v)) tt.
Proof.
  apply onTrace_ok; [|done]. etrans; [by eapply setHere_ok, view_here|].
  rewrite put_here_view by done. by rewrite (upd_id _ _ _ Hc).
Qed.

Lemma toState_ok s : toState s (view v) = Ok (view (with_core (set_state s (v_core v)) v)) tt.
Proof. apply setAtCore_ok. Qed.

Lemma countTypeHere_ok : countTypeHere (view v) = Ok (view v) (getCurrentCountType cc).
Proof. apply onTrace_ok; [|done]. by eapply countType_ok, view_here. Qed.

Lemma coreCounts_ok {A} (m : M CoreCounts DQErr A) cc' a :
  m cc = Ok cc' a ->
  onTrace (onCoreCounts core m) (view v) = Ok (view (with_walker (upd core cc' (v_walker v)) v)) a.
Proof. intros Hm. apply onWalker_ok. by apply (counted_ok core m (v_walker v) cc). Qed.

Lemma resetCountsHere_ok :
  resetCountsHere (view v) = Ok (view (with_walker (upd core (resetCounts cc) (v_walker v)) v)) tt.
Proof. unfold resetCountsHere. erewrite bind_ok by by apply theCore_ok. by apply coreCounts_ok. Qed.

(** The message that is returned. *)
Definition out_msg m (o : Out) : Out := {| ou_inst := ou_inst o; ou_msg := Some m; ou_src := ou_src o |}.

Definition delivered v : NexusMessage :=
  stamp (co_currentAddress (v_core v)) (co_lastTime (v_core v))
    (Some (u32 (co_currentPid (v_core v)), co_currentPrv (v_core v))) (v_nm v).

(** Messages that hold no data for the ITC print. *)
Definition not_data v : Prop :=
  nm_tcode (v_nm v) <> TCODE_DATA_ACQUISITION /\ nm_tcode (v_nm v) <> TCODE_AUXACCESS_WRITE.

Lemma printed_none (m : NexusMessage) (d : Dec) :
  nm_tcode m <> TCODE_DATA_ACQUISITION -> nm_tcode m <> TCODE_AUXACCESS_WRITE ->
  processITCPrintData m d = Ok d false.
Proof. intros. unfold processITCPrintData. destruct (de_itcPrint d), (nm_tcode m); done. Qed.

Lemma deliverHere_ok :
  not_data v ->
  deliverHere true false (view v) = Ok (view (with_out (out_msg (delivered v) (v_out v)) v)) tt.
Proof.
  intros [H1 H2]. unfold deliverHere, deliver, giveMsg. erewrite bind_ok by apply atCore_ok.
  erewrite bind_ok by done. erewrite bind_ok by apply atCore_ok. cbn beta iota.
  by erewrite bind_ok by by apply printed_none.
Qed.
End counts.

(** ** The next message *)

(** The parser has a message. *)
Lemma readLoop_ok fuel v p a nm :
  (0 < fuel)%nat ->
  readNextTraceMsg fuel (v_nm v) (v_parser v, v_analytics v) = Ok (p, a) (Some nm) ->
  readLoop fuel (view v) = Ok (view (with_nm nm (with_parser p a v))) None.
Proof.
  intros Hf Hr. destruct fuel as [|fuel]; [lia|]. cbn [readLoop]. erewrite bind_ok by done.
  erewrite bind_ok.
  2:{ unfold attempt, onSfp, zoom. cbn [view de_sfp de_analytics de_trace tr_nm].
      by rewrite Hr. }
  done.
Qed.

(** What the decoder's walker is like when it is about to be told the core: a
    branch trace turns out to be a history trace by its first history message. *)
Definition at_message (nm : NexusMessage) (w : Walk) : Walk :=
  let w := {| wk_status := wk_status w; wk_traceType := wk_traceType w; wk_currentCore := nm_coreId nm;
              wk_archSize := wk_archSize w; wk_counts := wk_counts w; wk_mem := wk_mem w |} in
  if bool_decide (wk_traceType w = TRACETYPE_BTM) && historyOnly nm
  then set_traceType TRACETYPE_HTM w else w.

Lemma prepare_ok v :
  decodable (nm_tcode (v_nm v)) = true ->
  filtered et_controlIndex (se_eventFilterMask (tr_settings (de_trace d0))) (v_nm v) = Some false ->
  prepare et_controlIndex (view v) =
    Ok (view (with_walker (at_message (v_nm v) (v_walker v)) (with_read false v))) (inr false).
Proof.
  intros Hd Hf. unfold prepare. erewrite bind_ok by apply setRead_ok.
  erewrite bind_ok by apply theNm_ok. erewrite bind_ok by by apply onWalker_ok.
  erewrite bind_ok by apply get_ok.
  cbn [view de_trace tr_settings with_read with_walker v_nm v_walker tr_walker wk_traceType].
  rewrite (bm_linux Hbm), Hd, andb_false_r.
  erewrite bind_ok by done. unfold at_message. cbn [wk_traceType].
  destruct (bool_decide _ && historyOnly (v_nm v)) eqn:E.
  - erewrite bind_ok by by apply onWalker_ok. by rewrite Hf.
  - erewrite bind_ok by done. by rewrite Hf.
Qed.

(** ** The states for messages *)

Lemma retire_ok v c' cc' :
  mine v ->
  processTraceMessage uninit converterStatus (de_trace (view v)) =
    Ok (put_here c' cc' (de_trace (view v))) false ->
  retire uninit converterStatus (view v) =
    Ok (view (with_core c' (with_walker (upd core cc' (v_walker v)) v))) (inr false).
Proof.
  intros Hv Hp. apply onTrace_ok; [|done]. unfold attempt. rewrite Hp. by rewrite put_here_view.
Qed.

Lemma returnOk_ok v :
  returnOk (view v) = Ok (view (with_walker (set_wstatus DQERR_OK (v_walker v)) v)) (Return DQERR_OK).
Proof. unfold returnOk. by erewrite bind_ok by apply setStatusD_ok. Qed.

(** The current core uses the first process. *)
Definition first_process v : Prop := co_currentProcessIndex (v_core v) = 0 /\ co_currentDisassembler (v_core v) = Some 0%nat.

Lemma first_process_ok v : first_process v -> process_ok (v_core v) (de_trace (view v)).
Proof. intros [E _]. right. rewrite E. apply Hbm. Qed.

Section messages.
Context (v : View) (cc : CoreCounts) (a time : Z).
Hypothesis (Hv : mine v) (Hc : at_core core (v_walker v) cc).
Hypothesis (Hnm : nm_coreId (v_nm v) = core) (Hp : first_process v).
Hypothesis (Hnone : getCurrentCountType cc = COUNTTYPE_none).

(** The view after the return. *)
Definition retired (c' : CoreState) (cc' : CoreCounts) : View :=
  let v1 := with_core c' (with_walker (upd core cc' (v_walker v)) v) in
  with_walker (set_wstatus DQERR_OK (upd core cc' (v_walker v)))
    (with_core (set_state TRACE_STATE_GETNEXTMSG c')
       (with_out (out_msg (delivered v1) (v_out v)) (with_read true v))).

Lemma getFirstSyncMsg_ok :
  nm_tcode (v_nm v) = TCODE_SYNC -> fullAddress (v_nm v) = Some a ->
  newTime (v_core v) (de_trace (view v)) TS_full = Some time ->
  getFirstSyncMsg uninit converterStatus true true false (view v) =
    Ok (view (retired (synced time a (v_core v))
                (resetCounts (set_stack (resetStack (cc_stack cc)) cc))))
      (Return DQERR_OK).
Proof.
  intros Ht Ha Hn. unfold getFirstSyncMsg. erewrite bind_ok by apply theNm_ok. rewrite Ht.
  unfold retireOr. erewrite bind_ok.
  2:{ apply retire_ok; [done|]. eapply processTraceMessage_sync; try done.
      - by apply view_here.
      - exact (eq_trans Hnm (eq_sym Hv)).
      - by apply first_process_ok. }
  set (cc1 := resetCounts _). set (v1 := with_core _ _).
  assert (mine v1) as Hv1 by done.
  assert (at_core core (v_walker v1) cc1) as Hc1 by by apply at_upd with cc.
  cbn beta iota. erewrite bind_ok by (unfold sourceHere; by erewrite bind_ok by by eapply atCore_ok).
  erewrite bind_ok by by eapply resetCountsHere_ok.
  assert (at_core core (upd core (resetCounts cc1) (v_walker v1)) (resetCounts cc1)) as Hc2
    by by apply at_upd with cc1.
  erewrite bind_ok by by eapply toState_ok.
  unfold firstDone. erewrite bind_ok by apply setRead_ok.
  erewrite bind_ok.
  2:{ eapply deliverHere_ok; [done|exact Hc2|]. unfold not_data.
      change (nm_tcode (v_nm v) <> TCODE_DATA_ACQUISITION /\ nm_tcode (v_nm v) <> TCODE_AUXACCESS_WRITE).
      by rewrite Ht. }
  etrans; [apply returnOk_ok|].
  unfold retired, v1. cbn [v_walker with_walker with_core with_out with_read].
  by rewrite upd_upd.
Qed.

(** The core after a history message. *)
Definition after_history (c : CoreState) : CoreState :=
  let c' := relocated time a c in
  if decide (btypeOf (v_nm v) = BTYPE_EXCEPTION) then set_enterISR isInterrupt c' else c'.

Lemma after_history_is c :
  let f := if co_lastFaddr c =? 0 then 0 else Z.lxor (co_lastFaddr c) (toBytes a) in
  let c' := after_history c in
  co_currentAddress c' = f /\ co_lastFaddr c' = f /\ co_lastTime c' = time /\
  co_enterISR c' = (if decide (btypeOf (v_nm v) = BTYPE_EXCEPTION) then isInterrupt else co_enterISR c) /\
  co_currentProcessIndex c' = co_currentProcessIndex c /\ co_currentDisassembler c' = co_currentDisassembler c.
Proof. unfold after_history. by case_decide. Qed.

Lemma retireMessage_ok :
  nm_tcode (v_nm v) = TCODE_INDIRECTBRANCHHISTORY -> diffAddress (v_nm v) = Some a ->
  newTime (v_core v) (de_trace (view v)) TS_rel = Some time ->
  retireMessage uninit converterStatus true false (view v) =
    Ok (view (retired (after_history (v_core v)) cc)) (Return DQERR_OK).
Proof.
  intros Ht Ha Hn. unfold retireMessage. erewrite bind_ok by apply theNm_ok. rewrite Ht.
  unfold retireOr. erewrite bind_ok.
  2:{ apply retire_ok; [done|]. eapply processTraceMessage_diff; try done.
      - by apply view_here.
      - exact (eq_trans Hnm (eq_sym Hv)).
      - by apply first_process_ok. }
  cbn beta iota. rewrite (upd_id _ _ _ Hc). set (v1 := with_core _ _).
  assert (mine v1) as Hv1 by done.
  assert (at_core core (v_walker v1) cc) as Hc1 by done.
  erewrite bind_ok.
  2:{ eapply deliverHere_ok; [done|exact Hc1|]. unfold not_data.
      change (nm_tcode (v_nm v) <> TCODE_DATA_ACQUISITION /\ nm_tcode (v_nm v) <> TCODE_AUXACCESS_WRITE).
      by rewrite Ht. }
  erewrite bind_ok by apply get_ok.
  erewrite bind_ok by (unfold sourceHere; by erewrite bind_ok by by eapply atCore_ok).
  unfold after_history, retired. rewrite (upd_id _ _ _ Hc). case_decide.
  - erewrite bind_ok by by eapply setAtCore_ok. erewrite bind_ok by apply setRead_ok.
    erewrite bind_ok by by eapply toState_ok. etrans; [apply returnOk_ok|done].
  - erewrite bind_ok by done. erewrite bind_ok by apply setRead_ok.
    erewrite bind_ok by by eapply toState_ok. etrans; [apply returnOk_ok|done].
Qed.

Lemma getNextMsg_ok w :
  nm_tcode (v_nm v) = TCODE_INDIRECTBRANCHHISTORY ->
  counted core (setCounts (v_nm v)) (v_walker v) = Ok w tt ->
  (exists cc', at_core core w cc') -> wk_currentCore w = core ->
  getNextMsg uninit converterStatus uninitAddr true true false (view v) =
    Ok (view (with_core (set_state TRACE_STATE_GETNEXTINSTRUCTION (v_core v)) (with_walker w v))) Again.
Proof.
  intros Ht Hs [cc' Hc'] Hw. unfold getNextMsg. erewrite bind_ok by apply theNm_ok. rewrite Ht.
  erewrite bind_ok by by eapply atCore_ok. rewrite (proj1 Hp). cbn [Z.leb Z.compare].
  erewrite bind_ok.
  2:{ apply (onTrace_ok _ v (with_walker w v) (inr tt)); [|done].
      unfold attempt, onCoreCounts, onWalker, zoom.
      cbn [view de_trace tr_walker]. rewrite Hnm, Hs. done. }
  cbn beta iota. by erewrite bind_ok by by eapply (toState_ok cc' (with_walker w v)).
Qed.
End messages.

(** ** Instructions *)

(** What is said of an instruction that is returned. *)
Definition inst_is (addr cr : Z) (br : BranchFlags) (time : Z) (i : InstInfo) : Prop :=
  ii_coreId i = core /\ ii_address i = addr /\ ii_CRFlag i = cr /\ ii_brFlags i = br /\
  ii_timestamp i = time.

Definition out_inst i (o : Out) : Out := {| ou_inst := Some i; ou_msg := ou_msg o; ou_src := ou_src o |}.

Lemma giveInst_ok v i :
  giveInst i (view v) = Ok (view (with_out (out_inst i (v_out v)) (with_inst i (v_disassembler v) v))) tt.
Proof. done. Qed.

Lemma setAnalytics_ok v an :
  modify (set_analytics an) (view v) = (Ok (view (with_parser (v_parser v) an v)) tt : Res _ DQErr _).
Proof. done. Qed.

Lemma giveInstruction_ok v cc cr br :
  mine v -> at_core core (v_walker v) cc ->
  exists i, giveInstruction cr br None (view v) =
      Ok (view (with_core (set_enterISR isNone (v_core v))
                  (with_out (out_inst i (v_out v)) (with_inst i (v_disassembler v) v)))) tt /\
    inst_is (ii_address (v_inst v)) (Z.lor cr (co_enterISR (v_core v))) br (co_lastTime (v_core v)) i.
Proof.
  intros Hv Hc. destruct (lookup_lt_is_Some_2 _ _ (bm_cycles Hbm)) as [cyc Hcyc].
  eexists. split.
  - unfold giveInstruction. erewrite bind_ok by by apply theCore_ok.
    erewrite bind_ok by by eapply atCore_ok. erewrite bind_ok by apply get_ok.
    erewrite bind_ok.
    2:{ unfold lift_opt. cbn [view de_eCycleCount]. by rewrite Hcyc. }
    erewrite bind_ok by apply giveInst_ok. etrans; [by eapply setAtCore_ok|done].
  - done.
Qed.

Lemma updateInstructionInfo_ok size cr br an :
  size = 16 \/ size = 32 -> exists an', updateInstructionInfo core size cr br an = Some an' /\
    an_status an' = an_status an.
Proof.
  intros Hs. unfold updateInstructionInfo.
  rewrite (proj2 (Z.leb_gt DQR_MAXCORES core)) by apply (bm_core Hbm).
  eexists. split; [done|]. destruct Hs as [-> | ->]; cbn; by repeat case_match.
Qed.

Lemma cycles_ok v ty : cycles ty (view v) = Ok (view v) (inr None).
Proof. unfold cycles. erewrite bind_ok by apply get_ok. cbn [view de_caTrace]. by rewrite (bm_ca Hbm). Qed.

Lemma instructionDone_ok v cc inst addr cr br :
  mine v -> at_core core (v_walker v) cc -> in_size inst = 16 \/ in_size inst = 32 ->
  an_status (v_analytics v) = DQERR_OK ->
  exists i an, inst_is (ii_address (v_inst v)) (Z.lor cr (co_enterISR (v_core v))) br
                 (co_lastTime (v_core v)) i /\ an_status an = DQERR_OK /\
    let c' := set_enterISR isNone (set_currentAddress addr (v_core v)) in
    let v' := with_walker (set_wstatus DQERR_OK (v_walker v)) (with_parser (v_parser v) an
                (with_core c' (with_out (out_inst i (v_out v)) (with_inst i (v_disassembler v) v)))) in
    instructionDone true false inst addr cr br (view v) =
      if decide (getCurrentCountType cc = COUNTTYPE_none)
      then Ok (view (with_core (set_state TRACE_STATE_RETIREMESSAGE c') v')) Again
      else Ok (view v') (Return DQERR_OK).
Proof.
  intros Hv Hc Hs Ha.
  set (v1 := with_core (set_currentAddress addr (v_core v)) v).
  destruct (giveInstruction_ok v1 cc cr br) as (i & Ei & Hi); [done..|].
  destruct (updateInstructionInfo_ok (in_size inst) cr br (v_analytics v) Hs) as (an & Ean & Han).
  exists i, an. split; [done|]. split; [congruence|]. cbn zeta.
  unfold instructionDone. erewrite bind_ok by by eapply setAtCore_ok.
  erewrite bind_ok by apply cycles_ok. cbn beta iota. erewrite bind_ok by exact Ei.
  erewrite bind_ok by done. erewrite bind_ok by by apply theCore_ok.
  erewrite bind_ok by apply get_ok. erewrite bind_ok by (eapply lift_some; exact Ean).
  erewrite bind_ok by apply setAnalytics_ok.
  erewrite bind_ok by apply setStatusD_ok. rewrite decide_True by congruence.
  erewrite bind_ok by by eapply countTypeHere_ok. rewrite Han, Ha. case_decide.
  - by erewrite bind_ok by by eapply toState_ok.
  - done.
Qed.

(** ** One instruction *)

Context (prog : Z -> option Inst) (cap : Z).

(** What describes an instruction at an address: the memory of the kernel, which it leaves as
    settled as it was, or the disassembler of the first process, which stays in one of the states [Inv]. *)
Definition describes_at (Inv : D -> Prop) (m : TraceMem K) (x : D) (addr : Z) : Prop :=
  match kernelAt addr m with
  | Some (start, k) => exists k' i, kernelDisassemble addr k = Ok k' i /\ ii_address i = addr /\
      settled (set_kMem start m k') /\ forall c a, code (set_kMem start m k') c a = code m c a
  | None => exists x' i, disassemble 0 addr x = Ok x' i /\ ii_address i = addr /\ Inv x'
  end.

(** Every instruction of the program that can be read is described; no instruction is at [-1]. *)
Context (Inv : D -> Prop).
Hypothesis Hdis : forall (m : TraceMem K) (x : D) addr, settled m -> is_Some (code m core addr) -> Inv x -> is_Some (prog addr) ->
  describes_at Inv m x addr.
Hypothesis Hnone : prog ADDRESS_NONE = None.

#[local] Abbreviation walks := (walking (Mem := TraceMem K) uninit core prog cap).

Lemma walks_core st outs units w : walks st outs units w -> wk_currentCore w = core.
Proof. by intros []. Qed.

Lemma walks_units st outs units w pc d :
  walks st outs units w -> prog pc = Some d ->
  1 <= unitsOf d <= 2 /\ (in_size d = 16 \/ in_size d = 32).
Proof.
  intros [_ _ _ Ha Hp _] Hd.
  split; [by eapply (units_range (Mem := TraceMem K))|by eapply (size_range (Mem := TraceMem K))].
Qed.

Lemma walks_exhausted st w cc :
  walks st [] 0 w -> at_core core w cc -> getCurrentCountType cc = COUNTTYPE_none.
Proof. apply (walking_exhausted (Mem := TraceMem K)). Qed.

Lemma walks_at st outs units w : walks st outs units w -> exists cc, at_core core w cc.
Proof. intros Hw. destruct (wa_counts _ _ _ _ _ _ _ _ Hw) as (cc & Hc & _). eauto. Qed.

Lemma Disassemble_ok v st outs units :
  walks st outs units (v_walker v) -> first_process v -> Inv (v_disassembler v) -> is_Some (prog (co_currentAddress (v_core v))) ->
  exists i x w, Disassemble (co_currentAddress (v_core v)) (view v) = Ok (view (with_inst i x (with_walker w v))) true /\
    ii_address i = co_currentAddress (v_core v) /\ Inv x /\ walks st outs units w.
Proof.
  intros Hw [_ Hp] HI [d Hd]. set (addr := co_currentAddress _) in *. destruct (walks_at _ _ _ _ Hw) as [cc Hc].
  destruct (wa_holds _ _ _ _ _ _ _ _ Hw) as [Hs Hh]. destruct (Hh _ _ Hd) as (j & Hj & _). rewrite (walks_core _ _ _ _ Hw) in Hj.
  pose proof (Hdis _ (v_disassembler v) addr Hs ltac:(by eexists) HI ltac:(by eexists)) as H. unfold describes_at in H.
  unfold Disassemble. erewrite bind_ok by apply get_ok. cbn [view de_trace tr_walker].
  destruct (kernelAt addr (wk_mem (v_walker v))) as [[start k]|].
  - destruct H as (k' & i & E & Hi & Hm). exists i, (v_disassembler v), (set_mem (set_kMem start (wk_mem (v_walker v)) k') (v_walker v)).
    unfold disassembleKernel. rewrite E. split; [done|]. split; [done|]. split; [done|].
    pose proof (wa_status _ _ _ _ _ _ _ _ Hw) as Est. pose proof (walking_mem _ _ _ _ _ _ _ _ _ Hm Hw) as H. 
    unfold set_wstatus, set_mem in *. cbn in *. by rewrite <-Est in H.
  - destruct H as (x & i & E & Hi & HIx). exists i, x, (v_walker v). erewrite bind_ok by (eapply atCore_ok; [exact (walks_core _ _ _ _ Hw)|exact Hc]).
    rewrite Hp. unfold disassembleUser. cbn [view de_disassembler]. rewrite E. by destruct v.
Qed.

Lemma read_ok v st outs units d :
  walks st outs units (v_walker v) -> prog (co_currentAddress (v_core v)) = Some d ->
  exists i w, onTrace (onWalker (attempt (
      inst ← readInst (co_currentAddress (v_core v));
      modify (set_wstatus DQERR_OK) ≫= fun _ => decodeInst uninit inst))) (view v) =
    Ok (view (with_walker w v)) (inr i) /\ walks st outs units w /\ i = d.
Proof.
  intros Hw Hd. destruct (readInst_ok _ _ _ _ _ (wa_holds _ _ _ _ _ _ _ _ Hw) Hd) as (m & i & Er & Hm & Ei).
  exists d, (set_wstatus DQERR_OK (set_mem m (v_walker v))). split; [|split; [|done]].
  - apply onWalker_ok. unfold attempt. erewrite (bind_ok (readInst _)) by exact Er.
    erewrite bind_ok by done. unfold decodeInst. erewrite bind_ok by done.
    cbn [set_wstatus set_mem wk_archSize]. by rewrite Ei.
  - by apply walking_mem.
Qed.

Section instruction.
Context (v : View) (st : list Z) (outs : list bool) (units : Z) (d : Inst) (o : Outcome)
  (st' : list Z) (outs' : list bool).
Hypothesis (Hw : walks st outs units (v_walker v)) (Hpc : prog (co_currentAddress (v_core v)) = Some d).
Hypothesis (Hr : refStep cap d (co_currentAddress (v_core v)) st outs = Some (o, st', outs')).
Hypothesis (Hu : unitsOf d <= units) (Hp : first_process v).
Hypothesis (Ha : an_status (v_analytics v) = DQERR_OK) (HI : Inv (v_disassembler v)).

(** Nothing is left of the message. *)
Definition over : Prop := units - unitsOf d = 0 /\ outs' = [].
#[local] Instance over_dec : Decision over.
Proof. unfold over. apply _. Defined.

Hypothesis Hleave : fst (fst o) = ADDRESS_NONE -> over.

Lemma getNextInstruction_ok :
  exists w i x an, walks st' outs' (units - unitsOf d) w /\ an_status an = DQERR_OK /\ Inv x /\
    inst_is (co_currentAddress (v_core v)) (Z.lor (snd (fst o)) (co_enterISR (v_core v))) (snd o)
      (co_lastTime (v_core v)) i /\
    let c' := set_enterISR isNone (set_currentAddress (fst (fst o)) (v_core v)) in
    let v' := with_walker w (with_parser (v_parser v) an
                (with_core c' (with_out (out_inst i (v_out v)) (with_inst i x v)))) in
    getNextInstruction uninit true true false (view v) =
      if decide over
      then Ok (view (with_core (set_state TRACE_STATE_RETIREMESSAGE c') v')) Again
      else Ok (view v') (Return DQERR_OK).
Proof.
  destruct (walks_at _ _ _ _ Hw) as [cc Hc]. pose proof (walks_core _ _ _ _ Hw) as Hv.
  destruct (walks_units _ _ _ _ _ _ Hw Hpc) as [Hun Hsz].
  destruct (read_ok v _ _ _ _ Hw Hpc) as (i0 & w1 & E1 & Hw1 & ->).
  destruct (Disassemble_ok (with_walker w1 v) _ _ _ Hw1) as (i1 & x & w1' & E2 & Hi1 & HIx & Hw1');
    [done|done|by eexists|]. cbn [with_walker v_core] in E2, Hi1.
  destruct (nextAddr_follows uninit core (v_nm v) prog cap st outs units w1' _ d o st' outs' Hw1' Hpc Hr Hu)
    as (w2 & E3 & Hw2).
  destruct (walks_at _ _ _ _ Hw2) as [cc2 Hc2].
  set (v2 := with_walker (set_wstatus DQERR_OK w2) (with_inst i1 x (with_walker w1' v))).
  destruct (instructionDone_ok v2 cc2 d (fst (fst o)) (snd (fst o)) (snd o))
    as (i & an & Hi & Han & E4); [apply Hw2|done..|].
  exists (set_wstatus DQERR_OK (set_wstatus DQERR_OK w2)), i, x, an.
  split; [by apply walking_status, walking_status|]. split; [done|]. split; [done|].
  split; [by rewrite <-Hi1|]. cbn zeta in *.
  assert (getCurrentCountType cc2 = COUNTTYPE_none <-> over) as Hov
    by (apply (walking_none _ _ _ _ _ _ _ _ _ Hw2); [lia|done]).
  rewrite (decide_ext (getCurrentCountType cc2 = COUNTTYPE_none) over) in E4 by done.
  unfold getNextInstruction. erewrite bind_ok by by eapply countTypeHere_ok.
  erewrite bind_ok by by eapply atCore_ok.
  rewrite decide_False.
  2:{ rewrite (walking_none _ _ _ _ _ _ _ _ _ Hw); [lia|lia|done]. }
  rewrite (proj1 Hp). cbn [Z.ltb Z.compare]. erewrite bind_ok by exact E1. cbn beta iota.
  erewrite bind_ok by exact E2. erewrite bind_ok by by apply theCore_ok; apply Hw1'.
  erewrite bind_ok by apply theNm_ok.
  erewrite bind_ok.
  2:{ apply onWalker_ok, attempt_ok. exact E3. }
  destruct o as [[pc cr] br]. cbn [fst snd] in *. cbn beta iota.
  erewrite bind_ok by apply setStatusD_ok.
  destruct (decide (pc = ADDRESS_NONE)) as [Hn|Hn].
  - pose proof (refStep_known _ _ _ _ _ _ _ _ Hr) as Hb. cbn in Hb. rewrite decide_False by done.
    erewrite bind_ok by (eapply (countTypeHere_ok cc2); [exact (walks_core _ _ _ _ Hw2)|exact Hc2]).
    rewrite decide_True by by apply Hov, Hleave. exact E4.
  - exact E4.
Qed.
End instruction.

(** ** Between the calls *)

Context (sb : Z).

(** What holds of every view between two turns: [bytes] are still to be read, and
    the last message was at [faddr] and [last]. *)
Record steady (bytes : list Z) (faddr last isr : Z) v : Prop := {
  sd_process : first_process v;
  sd_analytics : an_status (v_analytics v) = DQERR_OK;
  sd_frame : frame_ok (v_parser v);
  sd_parser : sp_status (v_parser v) = DQERR_OK;
  sd_srcbits : sp_srcbits (v_parser v) = sb;
  sd_stream : stream (v_parser v) = bytes;
  sd_faddr : co_lastFaddr (v_core v) = faddr;
  sd_time : co_lastTime (v_core v) = last;
  sd_isr : co_enterISR (v_core v) = isr;
  sd_dis : Inv (v_disassembler v);
}.

(** The walker of a trace that is a history trace, or not yet known to be one. *)
Definition on_core (w : Walk) : Walk := {|
  wk_status := wk_status w; wk_traceType := wk_traceType w; wk_currentCore := core;
  wk_archSize := wk_archSize w; wk_counts := wk_counts w; wk_mem := wk_mem w |}.

Definition history_walks (st : list Z) (w : Walk) : Prop :=
  (wk_traceType w = TRACETYPE_BTM \/ wk_traceType w = TRACETYPE_HTM) /\
  walks st [] 0 (set_traceType TRACETYPE_HTM (on_core w)).

(** The next message is to be read. *)
Record boundary (bytes : list Z) (pc last isr : Z) (st : list Z) v : Prop := {
  bd_steady : steady bytes pc last isr v;
  bd_walks : history_walks st (v_walker v);
  bd_read : v_read v = true;
  bd_state : co_state (v_core v) = TRACE_STATE_GETNEXTMSG;
  bd_pc : co_currentAddress (v_core v) = pc;
}.

(** Instructions of the message [m] are left. *)
Record inside (bytes : list Z) (faddr last isr : Z) (m : Body * option Z) (pc : Z) (st : list Z)
    (outs : list bool) (units : Z) v : Prop := {
  in_steady : steady bytes faddr last isr v;
  in_walks : walks st outs units (v_walker v);
  in_read : v_read v = false;
  in_state : co_state (v_core v) = TRACE_STATE_GETNEXTINSTRUCTION;
  in_pc : co_currentAddress (v_core v) = pc;
  in_nm : message_is core (fst m) (snd m) (v_nm v);
}.

Lemma on_core_same w :
  wk_traceType w = TRACETYPE_HTM -> wk_currentCore w = core -> set_traceType TRACETYPE_HTM (on_core w) = w.
Proof. destruct w; cbn. by intros -> ->. Qed.

Lemma walks_history st w cc :
  walks st [] 0 w -> at_core core w cc -> history_walks st (set_wstatus DQERR_OK (upd core cc w)).
Proof.
  intros Hw Hc. rewrite (upd_id _ _ _ Hc). split; [right; apply (wa_type _ _ _ _ _ _ _ _ Hw)|].
  rewrite on_core_same; [by apply walking_status| |exact (walks_core _ _ _ _ Hw)].
  apply (wa_type _ _ _ _ _ _ _ _ Hw).
Qed.

Lemma message_at nm w st b ts i u bt h :
  message_is core b ts nm -> b = B_indirectHistory i u bt h -> history_walks st w ->
  walks st [] 0 (at_message nm w).
Proof.
  intros (Ht & Hb & Hc & _) -> [Hty Hw]. unfold at_message. cbn zeta.
  assert (historyOnly nm = true) as -> by (unfold historyOnly; by rewrite Ht). rewrite andb_true_r.
  cbn [wk_traceType]. rewrite Hc. destruct Hty as [E|E]; rewrite E.
  - rewrite bool_decide_true by done. exact Hw.
  - rewrite bool_decide_false by done. exact Hw.
Qed.

#[local] Abbreviation run := (loop uninit converterStatus et_controlIndex uninitAddr true true false).

(** A history message is read, and its instructions follow. *)
Lemma loop_history fuel bytes pc last isr st v i u bt h ts :
  boundary (encode sb core (B_indirectHistory i u bt h) ts ++ bytes) pc last isr st v ->
  encodable sb core (B_indirectHistory i u bt h) ts = true ->
  (length (encode sb core (B_indirectHistory i u bt h) ts ++ bytes) < S fuel)%nat ->
  0 < h < 2 ^ 32 ->
  exists v', run (S fuel) (view v) = run fuel (view v') /\ v_out v' = v_out v /\
    inside bytes pc last isr (B_indirectHistory i u bt h, ts) pc st
      (outcomes (Z.to_nat (Z.log2 h)) h) i v'.
Proof.
  intros [Hs Hw Hread Hstate Hpc] Henc Hf Hh. set (b := B_indirectHistory i u bt h) in *.
  destruct Hs as [Hp Ha Hok Hst Hsb Hstr Hfa Hti Hisr].
  destruct (file_delivers (S fuel) (v_parser v) (v_analytics v) (v_nm v) core b ts bytes)
    as (p & a & nm & Er & Hnm & Hstr' & Hok' & Hst' & Hsb' & Ha' & _);
    [by rewrite Hsb|done..|by rewrite Hsb|rewrite <-Hstr in Hf; unfold stream in Hf;
     rewrite length_app in Hf; lia|].
  pose proof Hnm as (Ht & Hb & Hc & Hhave & Hval).
  set (v1 := with_nm nm (with_parser p a v)).
  pose proof (message_at nm _ st b ts i u bt h Hnm eq_refl Hw) as Hw1.
  assert (messageCounts nm = Some (inr (Some (i, h, 0, 0)))) as Hmc.
  { unfold messageCounts. by rewrite Ht, Hb. }
  assert (0 <= i < 2 ^ 31) as Hi.
  { unfold encodable in Henc. cbn in Henc. unfold in_range in Henc. lia. }
  destruct (walking_set uninit core nm prog cap st _ i h Hw1 Hmc Hh Hi) as (w2 & E2 & Hw2).
  set (v2 := with_walker (at_message nm (v_walker v)) (with_read false v1)).
  exists (with_core (set_state TRACE_STATE_GETNEXTINSTRUCTION (v_core v)) (with_walker w2 v2)).
  split; [|split; [done|]].
  - cbn [loop]. erewrite bind_ok by apply get_ok. cbn [view de_trace tr_readNewTraceMessage].
    rewrite Hread. erewrite bind_ok.
    2:{ erewrite bind_ok by (apply readLoop_ok; [lia|exact Er]). apply prepare_ok.
        - cbn. by rewrite Ht.
        - cbn. unfold filtered. by rewrite Ht. }
    cbn beta iota. destruct (walks_at _ _ _ _ Hw1) as [cc Hcc].
    erewrite bind_ok.
    2:{ unfold turn. erewrite bind_ok.
        2:{ apply (atCore_ok cc v2); [exact (walks_core _ _ _ _ Hw1)|exact Hcc]. }
        cbn [v2 v1 with_walker with_read with_nm with_parser v_core]. rewrite Hstate.
        apply (getNextMsg_ok v2 cc); [exact (walks_core _ _ _ _ Hw1)|exact Hcc|done..|exact E2| |].
        - by destruct (walks_at _ _ _ _ Hw2); eauto.
        - exact (walks_core _ _ _ _ Hw2). }
    done.
  - split; try done. split; try done. exact (eq_trans Hsb' Hsb).
Qed.

(** ** A call inside a segment *)

(** A turn without a message to read. *)
Lemma loop_turn fuel v :
  v_read v = false ->
  run (S fuel) (view v) =
    (r ← turn uninit converterStatus uninitAddr true true false;
     match r with Return rc => mret rc | Again => run fuel end) (view v).
Proof.
  intros Hread. cbn [loop]. erewrite bind_ok by apply get_ok.
  cbn [view de_trace tr_readNewTraceMessage]. rewrite Hread. by erewrite bind_ok by done.
Qed.

Lemma turn_ok v cc :
  mine v -> at_core core (v_walker v) cc ->
  turn uninit converterStatus uninitAddr true true false (view v) =
    match co_state (v_core v) with
    | TRACE_STATE_GETNEXTINSTRUCTION => getNextInstruction uninit true true false
    | TRACE_STATE_RETIREMESSAGE => retireMessage uninit converterStatus true false
    | TRACE_STATE_GETFIRSTSYNCMSG => getFirstSyncMsg uninit converterStatus true true false
    | TRACE_STATE_GETNEXTMSG => getNextMsg uninit converterStatus uninitAddr true true false
    | _ => turn uninit converterStatus uninitAddr true true false
    end (view v).
Proof.
  intros Hv Hc. destruct (co_state (v_core v)) eqn:E; try done; unfold turn;
    (erewrite bind_ok by by eapply atCore_ok); by rewrite E.
Qed.

(** What is returned. *)
Definition inst_given (addr cr : Z) (br : BranchFlags) (last : Z) (o o' : Out) : Prop :=
  exists i, o' = out_inst i o /\ inst_is addr cr br last i.

Section inside.
Context (bytes : list Z) (faddr last isr : Z) (m : Body * option Z) (pc : Z) (st : list Z)
  (outs : list bool) (units : Z) (v : View) (d : Inst) (o : Outcome) (st' : list Z) (outs' : list bool).
Hypothesis (Hin : inside bytes faddr last isr m pc st outs units v) (Hd : prog pc = Some d).
Hypothesis (Hr : refStep cap d pc st outs = Some (o, st', outs')) (Hu : unitsOf d <= units).

Lemma loop_inside fuel :
  fst (fst o) <> ADDRESS_NONE -> ~ (units - unitsOf d = 0 /\ outs' = []) ->
  exists v', run (S fuel) (view v) = Ok (view v') DQERR_OK /\
    inst_given pc (Z.lor (snd (fst o)) isr) (snd o) last (v_out v) (v_out v') /\
    inside bytes faddr last isNone m (fst (fst o)) st' outs' (units - unitsOf d) v'.
Proof.
  intros Hn Hov. destruct Hin as [[Hp Ha Hok Hst Hsb Hstr Hfa Hti Hisr HI] Hw Hread Hs Hpc Hnm].
  destruct (walks_at _ _ _ _ Hw) as [cc Hc]. pose proof (walks_core _ _ _ _ Hw) as Hv.
  destruct (getNextInstruction_ok v st outs units d o st' outs') as (w & i & x & an & Hw' & Han & HIx & Hi & E);
    try done; [by rewrite Hpc|by rewrite Hpc|]. cbn zeta in E.
  rewrite decide_False in E by done.
  eexists. split.
  - rewrite loop_turn by done.
    erewrite bind_ok by (rewrite (turn_ok v cc Hv Hc), Hs; exact E). done.
  - split; [|split; try done; by split].
    exists i. split; [done|]. by rewrite <-Hpc, <-Hti, <-Hisr.
Qed.

(** The message that is returned. *)
Definition msg_given (b : Body) (ts : option Z) (addr time : Z) (nm : NexusMessage) : Prop :=
  message_is core b ts nm /\ nm_currentAddress nm = addr /\ nm_time nm = time.

Lemma loop_last fuel s i target time :
  m = (segmentBody faddr i s, segmentStamp last s) -> target = sg_target s ->
  time = default last (sg_time s) ->
  0 < faddr < 2 ^ 64 -> faddr mod 2 = 0 -> 0 < target < 2 ^ 64 -> target mod 2 = 0 ->
  match sg_time s with Some t => 0 < last <= t | None => True end ->
  units - unitsOf d = 0 /\ outs' = [] ->
  exists v' nm o1, run (S (S fuel)) (view v) = Ok (view v') DQERR_OK /\
    inst_given pc (Z.lor (snd (fst o)) isr) (snd o) last (v_out v) o1 /\
    msg_given (fst m) (snd m) target time nm /\ v_out v' = out_msg nm o1 /\
    boundary bytes target time (segmentISR s) st' v'.
Proof.
  intros Hm -> -> Hf Hfe Ht Hte Htime Hov.
  destruct Hin as [[Hp Ha Hok Hst Hsb Hstr Hfa Hti Hisr HI] Hw Hread Hs Hpc Hnm].
  destruct (walks_at _ _ _ _ Hw) as [cc Hc]. pose proof (walks_core _ _ _ _ Hw) as Hv.
  destruct (getNextInstruction_ok v st outs units d o st' outs') as (w & j & x & an & Hw' & Han & HIx & Hj & E);
    try done; [by rewrite Hpc|by rewrite Hpc|]. cbn zeta in E. rewrite decide_True in E by done.
  set (v1 := with_core (set_state TRACE_STATE_RETIREMESSAGE _) _) in E.
  destruct (walks_at _ _ _ _ Hw') as [cc1 Hc1]. pose proof (walks_core _ _ _ _ Hw') as Hv1.
  rewrite (proj1 Hov), (proj2 Hov) in Hw'.
  assert (getCurrentCountType cc1 = COUNTTYPE_none) as Hct
    by by apply (walks_exhausted _ _ _ Hw').
  destruct Hnm as (Htc & Hb & Hco & Hhave & Hval). rewrite Hm in Htc, Hb, Hhave, Hval. cbn in Htc, Hb.
  assert (newTime (v_core v1) (de_trace (view v1)) TS_rel = Some (default last (sg_time s))) as Hnt.
  { unfold newTime. cbn [v1 v_core]. cbn. rewrite Hhave, Hval, Hti. cbn. unfold segmentStamp.
    destruct (sg_time s) as [t|]; cbn; [|done]. by apply processTS_rel_spec. }
  pose proof (retireMessage_ok v1 cc1 (Z.lxor faddr (sg_target s) / 2)
                (default last (sg_time s)) Hv1 Hc1 Hco Hp Hct) as E2.
  specialize (E2 Htc). specialize (E2 ltac:(unfold diffAddress; cbn; by rewrite Htc, Hb) Hnt).
  eexists _, _, (out_inst j (v_out v)). split.
  - rewrite loop_turn by done. erewrite bind_ok by (rewrite (turn_ok v cc Hv Hc), Hs; exact E).
    cbn beta iota. rewrite loop_turn by done.
    erewrite bind_ok by (rewrite (turn_ok v1 cc1 Hv1 Hc1); exact E2). done.
  - destruct (after_history_is v1 (Z.lxor faddr (sg_target s) / 2) (default last (sg_time s)) (v_core v1))
      as (Hcp & Hcf & Hct' & Hci & Hcx & Hcd).
    assert (co_lastFaddr (v_core v1) = faddr) as Hlf by done. rewrite Hlf in Hcp, Hcf.
    destruct (Z.eqb_spec faddr 0); [lia|]. rewrite lxor_address in Hcp, Hcf by lia.
    split; [exists j; split; [done|by rewrite <-Hpc, <-Hti, <-Hisr]|].
    split; [|split; [reflexivity|]].
    + rewrite Hm. by split.
    + split; [|by apply walks_history|done|done|exact Hcp].
      split; [exact (conj (eq_trans Hcx (proj1 Hp)) (eq_trans Hcd (proj2 Hp)))|done..|exact Hcf|exact Hct'| |exact HIx].
      etrans; [exact Hci|]. unfold segmentISR, btypeOf.
      change (v_nm v1) with (v_nm v). by rewrite Hb.
Qed.
End inside.

(** ** The first message *)

(** Nothing has been read; the history of the return addresses does not matter. *)
Record fresh (bytes : list Z) v : Prop := {
  fr_process : first_process v;
  fr_analytics : an_status (v_analytics v) = DQERR_OK;
  fr_frame : frame_ok (v_parser v);
  fr_parser : sp_status (v_parser v) = DQERR_OK;
  fr_srcbits : sp_srcbits (v_parser v) = sb;
  fr_stream : stream (v_parser v) = bytes;
  fr_read : v_read v = true;
  fr_state : co_state (v_core v) = TRACE_STATE_GETFIRSTSYNCMSG;
  fr_time : co_lastTime (v_core v) = 0;
  fr_isr : co_enterISR (v_core v) = isNone;
  fr_walks : exists st, history_walks st (v_walker v);
  fr_dis : Inv (v_disassembler v);
}.

#[local] Abbreviation tsSize := (se_tsSize (tr_settings (de_trace d0))).

Lemma sync_at nm w st b ts i a s :
  message_is core b ts nm -> b = B_sync i a s -> history_walks st w ->
  history_walks st (at_message nm w) /\ wk_currentCore (at_message nm w) = core.
Proof.
  intros (Ht & Hb & Hc & _) -> [Hty Hw]. unfold at_message. cbn zeta.
  assert (historyOnly nm = false) as -> by (unfold historyOnly; by rewrite Ht).
  rewrite andb_false_r, Hc. done.
Qed.

Lemma history_reset st w cc :
  history_walks st w -> wk_currentCore w = core -> at_core core w cc ->
  history_walks [] (set_wstatus DQERR_OK (upd core (resetCounts (set_stack (resetStack (cc_stack cc)) cc)) w)).
Proof.
  intros [Hty Hw] Hc Hcc. split; [done|].
  exact (walking_status _ _ _ _ _ _ _ _ (walking_reset _ _ _ _ _ _ cc Hw Hcc)).
Qed.

Lemma history_at st w : history_walks st w -> exists cc, at_core core w cc.
Proof. intros [_ Hw]. by apply walks_at in Hw. Qed.

Lemma loop_sync fuel bytes v i addr sy ts :
  fresh (encode sb core (B_sync i (addr / 2) sy) ts ++ bytes) v ->
  encodable sb core (B_sync i (addr / 2) sy) ts = true ->
  (length (encode sb core (B_sync i (addr / 2) sy) ts ++ bytes) < S fuel)%nat ->
  0 < addr < 2 ^ 64 -> addr mod 2 = 0 ->
  0 < tsSize < 64 -> match ts with Some t => t < 2 ^ tsSize | None => True end ->
  exists v' nm, run (S fuel) (view v) = Ok (view v') DQERR_OK /\
    msg_given (B_sync i (addr / 2) sy) ts addr (default 0 ts) nm /\ v_out v' = out_msg nm (v_out v) /\
    boundary bytes addr (default 0 ts) isNone [] v'.
Proof.
  intros [Hp Ha Hok Hst Hsb Hstr Hread Hstate Hti Hisr [st Hw]] Henc Hf Had Hae Hs Hts.
  set (b := B_sync i (addr / 2) sy) in *.
  destruct (file_delivers (S fuel) (v_parser v) (v_analytics v) (v_nm v) core b ts bytes)
    as (p & a & nm & Er & Hnm & Hstr' & Hok' & Hst' & Hsb' & Ha' & _);
    [by rewrite Hsb|done..|by rewrite Hsb|rewrite <-Hstr in Hf; unfold stream in Hf;
     rewrite length_app in Hf; lia|].
  pose proof Hnm as (Ht & Hb & Hc & Hhave & Hval).
  set (v1 := with_nm nm (with_parser p a v)).
  destruct (sync_at nm _ st b ts i _ sy Hnm eq_refl Hw) as [Hw1 Hc1].
  set (v2 := with_walker (at_message nm (v_walker v)) (with_read false v1)).
  destruct (history_at _ _ Hw1) as [cc Hcc].
  assert (newTime (v_core v2) (de_trace (view v2)) TS_full = Some (default 0 ts)) as Hnt.
  { unfold newTime. cbn. rewrite Hhave, Hval, Hti. destruct ts as [t|]; [|done]. cbn.
    assert (0 <= t < 2 ^ 64) by (unfold encodable, in_range in Henc; cbn in Henc; lia).
    etrans; [|apply (processTS_full_spec tsSize 0 t); lia]. f_equal. by rewrite Z.mod_small by lia. }
  assert (getCurrentCountType cc = COUNTTYPE_none) as Hct.
  { destruct Hw1 as [_ Hw1]. by apply (walks_exhausted _ _ _ Hw1). }
  pose proof (getFirstSyncMsg_ok v2 cc (addr / 2) (default 0 ts) Hc1 Hcc Hc Hp Hct Ht) as E.
  specialize (E ltac:(unfold fullAddress; cbn; by rewrite Ht, Hb) Hnt).
  exists (retired v2 (synced (default 0 ts) (addr / 2) (v_core v2))
            (resetCounts (set_stack (resetStack (cc_stack cc)) cc))).
  eexists. split; [|split; [|split; [reflexivity|]]].
  - cbn [loop]. erewrite bind_ok by apply get_ok. cbn [view de_trace tr_readNewTraceMessage].
    rewrite Hread. erewrite bind_ok.
    2:{ erewrite bind_ok by (apply readLoop_ok; [lia|exact Er]). apply prepare_ok.
        - cbn. by rewrite Ht.
        - cbn. unfold filtered. by rewrite Ht. }
    cbn beta iota.
    pose proof (turn_ok v2 cc Hc1 Hcc) as Et. change (v_core v2) with (v_core v) in Et.
    rewrite Hstate, E in Et. by erewrite bind_ok by exact Et.
  - split; [done|]. split; [|done]. cbn. by rewrite toBytes_even by lia.
  - split; [|by eapply history_reset|done|done|cbn; by rewrite toBytes_even by lia].
    split; try done; [exact (eq_trans Hsb' Hsb)|cbn; by rewrite toBytes_even by lia].
Qed.

(** ** The calls *)

#[local] Abbreviation Next :=
  (NextInstruction uninit converterStatus et_controlIndex uninitAddr true true false).

(** A call, and [n] more: the return codes and the results. *)
Definition thenCalls (next : DM (list (DQErr * Out))) (r : DM DQErr) : DM (list (DQErr * Out)) :=
  rc ← r; d ← get; l ← next; mret ((rc, de_out d) :: l).

Fixpoint calls (fuel n : nat) : DM (list (DQErr * Out)) :=
  match n with
  | O => mret []
  | S n => thenCalls (calls fuel n) (Next fuel)
  end.

(** The result of a call is the expected one. *)
Definition given (x : Expected) (r : DQErr * Out) : Prop :=
  fst r = DQERR_OK /\ ou_src (snd r) = None /\
  match ex_inst x with
  | Some (addr, cr, br, time) => exists i, ou_inst (snd r) = Some i /\ inst_is addr cr br time i
  | None => ou_inst (snd r) = None
  end /\
  match ex_msg x with
  | Some (b, ts, addr, time) => exists nm, ou_msg (snd r) = Some nm /\ msg_given b ts addr time nm
  | None => ou_msg (snd r) = None
  end.

(** The view at the start of a call. *)
Definition started v : View := with_tolerant false (with_out noOut v).

Lemma Next_ok fuel v :
  wk_status (v_walker v) = DQERR_OK -> Next fuel (view v) = run fuel (view (started v)).
Proof.
  intros Hs. unfold NextInstruction. erewrite bind_ok by done. erewrite bind_ok by apply get_ok.
  cbn [set_out view de_sfp]. rewrite decide_True by done. by erewrite bind_ok by done.
Qed.

Lemma started_inside bytes faddr last isr m pc st outs units v :
  inside bytes faddr last isr m pc st outs units v ->
  inside bytes faddr last isr m pc st outs units (started v).
Proof. intros [[]]. split; try done. Qed.

Lemma started_boundary bytes pc last isr st v :
  boundary bytes pc last isr st v -> boundary bytes pc last isr st (started v).
Proof. intros [[]]. split; try done. Qed.

Lemma started_fresh bytes v : fresh bytes v -> fresh bytes (started v).
Proof. by intros []. Qed.

Lemma thenCalls_eq next r r' s s' : r s = r' s' -> thenCalls next r s = thenCalls next r' s'.
Proof. intros E. unfold thenCalls, mbind, M_bind. by rewrite E. Qed.

Lemma thenCalls_ok (next : DM (list (DQErr * Out))) (r : DM DQErr) s v rc d' l :
  r s = Ok (view v) rc -> next (view v) = Ok d' l ->
  thenCalls next r s = Ok d' ((rc, v_out v) :: l).
Proof.
  intros Hr Hn. unfold thenCalls. erewrite bind_ok by exact Hr. erewrite bind_ok by apply get_ok.
  by erewrite bind_ok by exact Hn.
Qed.

Lemma history_status st w : history_walks st w -> wk_status w = DQERR_OK.
Proof. intros [_ Hw]. exact (wa_status _ _ _ _ _ _ _ _ Hw). Qed.

Lemma refRun_units n st0 outs0 units w pc st outs path used pc' st' outs' :
  walks st0 outs0 units w -> refRun prog cap (S n) pc st outs = Some (path, used, pc', st', outs') ->
  1 <= used.
Proof.
  intros Hw Hr. apply refRun_S in Hr as (d & o & st1 & outs1 & path1 & used1 & Hd & _ & Hr & _ & ->).
  destruct (walks_units _ _ _ _ _ _ Hw Hd) as [Hu _].
  assert (0 <= used1); [|lia]. destruct Hw as [_ _ _ Ha Hp _]. by eapply (refRun_nonneg (Mem := TraceMem K)).
Qed.

(** The conditions on a segment. *)
Definition segment_ok (faddr last : Z) (s : Segment) : Prop :=
  (0 < faddr < 2 ^ 64 /\ faddr mod 2 = 0) /\
  (0 < sg_target s < 2 ^ 64 /\ sg_target s mod 2 = 0) /\
  match sg_time s with Some t => 0 < last <= t | None => True end.

Lemma segment_calls fuel bytes faddr last i s n : forall fuel' isr pc st outs units v path pc' st',
  let m := (segmentBody faddr i s, segmentStamp last s) in
  inside bytes faddr last isr m pc st outs units v -> v_out v = noOut ->
  refRun prog cap (S n) pc st outs = Some (path, units, pc', st', []) ->
  segment_ok faddr last s -> (2 <= fuel)%nat -> (2 <= fuel')%nat ->
  exists v' l, thenCalls (calls fuel n) (run fuel') (view v) = Ok (view v') l /\
    Forall2 given
      (segmentCalls pc isr last (fst m, snd m, sg_target s, default last (sg_time s)) path) l /\
    boundary bytes (sg_target s) (default last (sg_time s)) (segmentISR s) st' v'.
Proof.
  induction n as [|n IH]; intros fuel' isr pc st outs units v path pc' st' m Hin Hout Hr Hseg Hf Hf';
    pose proof (in_walks _ _ _ _ _ _ _ _ _ _ Hin) as Hw;
    apply refRun_S in Hr as (d & o & st1 & outs1 & path1 & used1 & Hd & Hs & Hr & -> & Hu);
    destruct Hseg as ([Hfa Hfe] & [Hta Hte] & Htime).
  - cbn in Hr. simplify_eq. destruct fuel' as [|[|fuel']]; [lia..|].
    destruct (loop_last bytes faddr last isr m pc st outs _ v d o st' [] Hin Hd Hs ltac:(lia) fuel' s i
      (sg_target s) _ eq_refl eq_refl eq_refl) as (v' & nm & o1 & E & (j & -> & Hj) & Hnm & Ho & Hb);
      try done; [split; [lia|done]|].
    eexists v', _. split; [by eapply thenCalls_ok|]. destruct o as [[pc1 cr] br]. cbn in *.
    split; [|done]. constructor; [|constructor]. rewrite Ho, Hout.
    split; [done|]. split; [done|]. split; cbn; eauto.
  - pose proof (refRun_units _ _ _ _ _ _ _ _ _ _ _ _ _ Hw Hr) as Hu1.
    destruct fuel' as [|fuel']; [lia|].
    destruct (loop_inside bytes faddr last isr m pc st outs units v d o st1 outs1 Hin Hd Hs ltac:(lia) fuel')
      as (v1 & E & (j & Ho & Hj) & Hin1).
    { intros Hn. apply refRun_S in Hr as (d' & _ & _ & _ & _ & _ & Hd' & _). rewrite Hn in Hd'. congruence. }
    { lia. }
    replace (units - unitsOf d) with used1 in Hin1 by lia.
    destruct (IH fuel isNone _ _ _ _ (started v1) _ _ _ (started_inside _ _ _ _ _ _ _ _ _ _ Hin1) eq_refl Hr)
      as (v' & l & El & Hl & Hb); [by split|done..|].
    exists v'. eexists. split.
    + eapply thenCalls_ok; [exact E|]. cbn [calls]. rewrite <-El. apply thenCalls_eq, Next_ok.
      by destruct (in_walks _ _ _ _ _ _ _ _ _ _ Hin1).
    + split; [|done]. destruct o as [[pc1 cr] br]. cbn [segmentCalls]. cbn [fst snd] in *.
      constructor; [|exact Hl].
      assert (path1 <> []) as Hp
        by (apply refRun_S in Hr as (? & ? & ? & ? & ? & ? & _ & _ & _ & -> & _); done).
      rewrite Ho, Hout. split; [done|]. split; [done|]. cbn. destruct path1; [done|]. eauto.
Qed.

(** ** The whole trace *)

Lemma calls_app fuel n k (d : Dec) :
  calls fuel (n + k) d = (l1 ← calls fuel n; l2 ← calls fuel k; mret (l1 ++ l2)) d.
Proof.
  revert d. induction n as [|n IH]; intros d.
  - cbn [calls Nat.add]. rewrite ret_bind. symmetry. apply bind_ret.
  - cbn [calls Nat.add]. unfold thenCalls at 1 2, mbind, M_bind, mret, M_ret.
    destruct (Next fuel d) as [d1 rc| | |]; try done. unfold get. rewrite IH.
    unfold mbind, M_bind, mret, M_ret. destruct (calls fuel n d1) as [d2 l1| | |]; try done.
    by destruct (calls fuel k d2).
Qed.

Lemma refRun_length n : forall pc st outs path used pc' st' outs',
  refRun prog cap n pc st outs = Some (path, used, pc', st', outs') -> length path = n.
Proof.
  induction n as [|n IH]; intros pc st outs path used pc' st' outs' Hr.
  - cbn in Hr. by simplify_eq.
  - apply refRun_S in Hr as (d & o & st1 & outs1 & path1 & used1 & _ & _ & Hr & -> & _).
    cbn. f_equal. by eapply IH.
Qed.

Lemma segmentCalls_length m path : forall pc isr last, length (segmentCalls pc isr last m path) = length path.
Proof. induction path as [|[[a cr] br] path IH]; intros; cbn; [done|]. by rewrite IH. Qed.

Lemma segments_ok_cons last s segs :
  segments_ok last (s :: segs) = true ->
  (0 < sg_target s < 2 ^ 64 /\ sg_target s mod 2 = 0) /\ (length (sg_outs s) <= 31)%nat /\
  match sg_time s with Some t => 0 < last <= t | None => True end /\
  segments_ok (default last (sg_time s)) segs = true.
Proof.
  cbn [segments_ok]. rewrite !andb_true_iff, Z.eqb_eq, !Z.ltb_lt, Z.leb_le.
  intros (((((? & ?) & ?) & ?) & Ht) & ?). repeat split; try done; try lia.
  destruct (sg_time s); [lia|done].
Qed.

#[local] Abbreviation well_formed ms :=
  (Forall (fun m : Z * Body * option Z => let '(c, b, ts) := m in encodable sb c b ts = true) ms).

Lemma segment_of_bytes fuel v s i path pc pc' st st' isr last bytes :
  let b := segmentBody pc i s in let ts := segmentStamp last s in
  boundary (encode sb core b ts ++ bytes) pc last isr st v -> encodable sb core b ts = true ->
  refRun prog cap (S (sg_count s)) pc st (sg_outs s) = Some (path, i, pc', st', []) ->
  segment_ok pc last s -> (length (sg_outs s) <= 31)%nat ->
  (length (encode sb core b ts ++ bytes) + 2 < fuel)%nat ->
  exists v' l, calls fuel (S (sg_count s)) (view v) = Ok (view v') l /\
    Forall2 given (segmentCalls pc isr last (b, ts, sg_target s, default last (sg_time s)) path) l /\
    boundary bytes (sg_target s) (default last (sg_time s)) (segmentISR s) st' v'.
Proof.
  intros b ts Hb Henc Hr Hs Ho Hf. destruct fuel as [|fuel]; [lia|].
  destruct (loop_history fuel bytes pc last isr st (started v) i _ _ _ ts (started_boundary _ _ _ _ _ _ Hb) Henc)
    as (v1 & E & Hout & Hin); [unfold b, segmentBody in Hf; lia|by apply historyOf_range|].
  rewrite historyOf_log2, Nat2Z.id, outcomes_historyOf in Hin.
  destruct (segment_calls (S fuel) bytes pc last i s (sg_count s) fuel isr pc st _ _ v1 _ _ _ Hin Hout Hr Hs)
    as (v' & l & El & Hl & Hb'); [lia..|].
  exists v', l. split; [|done]. cbn [calls]. rewrite <-El. apply thenCalls_eq. rewrite <-E.
  apply Next_ok. eapply history_status, Hb.
Qed.

Lemma trace_calls fuel rest segs : forall v pc st isr last ms xs,
  boundary (encode_all sb ms ++ rest) pc last isr st v ->
  trace prog cap core pc st isr last segs = Some (ms, xs) -> well_formed ms ->
  segments_ok last segs = true -> 0 < pc < 2 ^ 64 -> pc mod 2 = 0 ->
  (length (encode_all sb ms ++ rest) + 2 < fuel)%nat ->
  exists v' l, calls fuel (length xs) (view v) = Ok (view v') l /\ Forall2 given xs l /\
    stream (v_parser v') = rest.
Proof.
  induction segs as [|s segs IH]; intros v pc st isr last ms xs Hb Ht Hwf Hok Hpc Hpe Hf.
  - cbn in Ht. simplify_eq. exists v, []. split; [done|]. split; [constructor|]. apply Hb.
  - cbn [trace] in Ht.
    destruct (refRun prog cap (S (sg_count s)) pc st (sg_outs s)) as [[[[[path i] pc'] st'] outs]|] eqn:Hr;
      [|done]. cbn in Ht. destruct outs; [|done].
    destruct (trace prog cap core (sg_target s) st' _ _ segs) as [[ms1 xs1]|] eqn:Ht1; [|done].
    cbn in Ht. simplify_eq. apply Forall_cons_1 in Hwf as [Henc Hwf].
    apply segments_ok_cons in Hok as ([Hta Hte] & Ho & Htime & Hok).
    change (encode_all sb ((core, ?b, ?ts) :: ms1)) with (encode sb core b ts ++ encode_all sb ms1) in Hb, Hf.
    rewrite <-app_assoc in Hb, Hf.
    destruct (segment_of_bytes fuel v s i path pc pc' st st' isr last _ Hb Henc Hr) as (v1 & l1 & E1 & Hl1 & Hb1);
      [by split; [|split]|done|done|].
    destruct (IH v1 _ _ _ _ _ _ Hb1 Ht1) as (v2 & l2 & E2 & Hl2 & Hst); [done..|rewrite length_app in Hf; lia|].
    exists v2, (l1 ++ l2). rewrite length_app, segmentCalls_length, (refRun_length _ _ _ _ _ _ _ _ _ Hr).
    split; [|split; [by apply Forall2_app|done]].
    rewrite calls_app. erewrite bind_ok by exact E1. by erewrite bind_ok by exact E2.
Qed.

Lemma sync_trace_calls fuel rest segs v i addr sy ts ms xs :
  let first := (core, B_sync i (addr / 2) sy, ts) in
  fresh (encode_all sb (first :: ms) ++ rest) v -> well_formed (first :: ms) ->
  trace prog cap core addr [] isNone (default 0 ts) segs = Some (ms, xs) ->
  segments_ok (default 0 ts) segs = true -> 0 < addr < 2 ^ 64 -> addr mod 2 = 0 ->
  0 < tsSize < 64 -> match ts with Some t => t < 2 ^ tsSize | None => True end ->
  (length (encode_all sb (first :: ms) ++ rest) + 2 < fuel)%nat ->
  exists v' l, calls fuel (S (length xs)) (view v) = Ok (view v') l /\
    Forall2 given ({| ex_inst := None; ex_msg := Some (snd (fst first), ts, addr, default 0 ts) |} :: xs) l /\
    stream (v_parser v') = rest.
Proof.
  intros first Hv Hwf Ht Hok Ha Hae Hs Hts Hf. apply Forall_cons_1 in Hwf as [Henc Hwf].
  change (encode_all sb (first :: ms)) with (encode sb core (B_sync i (addr / 2) sy) ts ++ encode_all sb ms)
    in Hv, Hf.
  rewrite <-app_assoc in Hv, Hf. destruct fuel as [|fuel]; [lia|].
  destruct (loop_sync fuel _ (started v) i addr sy ts (started_fresh _ _ Hv) Henc)
    as (v1 & nm & E & Hnm & Hout & Hb); [lia|done..|].
  destruct (trace_calls (S fuel) rest segs v1 _ _ _ _ _ _ Hb Ht Hwf Hok Ha Hae)
    as (v2 & l & E2 & Hl & Hst); [rewrite length_app in Hf; lia|].
  exists v2. eexists. split; [|split; [|exact Hst]].
  - cbn [calls]. eapply thenCalls_ok; [|exact E2]. rewrite <-E. apply Next_ok.
    destruct (fr_walks _ _ Hv) as [st Hw]. by eapply history_status.
  - constructor; [|exact Hl]. rewrite Hout. split; [done|]. split; [done|]. cbn. eauto.
Qed.
End reconstruct.

(** ** The decoder *)

(** The program in the memory of a core. *)
Definition programOf {Mem} `{!CodeMemory Mem} (uninit : Inst) (core arch : Z) (m : Mem) (pc : Z)
    : option Inst :=
  if pc =? ADDRESS_NONE then None
  else
    i ← code m core pc;
    let '(rc, d) := decodeInstruction i arch uninit in
    if rc =? 0 then Some d else None.

Lemma programOf_holds {Mem} `{!CodeMemory Mem} `{!CodeMemoryLaws Mem} uninit (w : Walker Mem) : settled (wk_mem w) ->
  holds uninit (programOf uninit (wk_currentCore w) (wk_archSize w) (wk_mem w)) w.
Proof.
  intros Hs. split; [done|]. intros pc i Hpc. unfold programOf in Hpc. destruct (pc =? ADDRESS_NONE); [done|].
  destruct (code _ _ pc) as [j|] eqn:Ej; [|done]. exists j. split; [done|]. cbn in Hpc.
  destruct (decodeInstruction j _ uninit) as [rc i'] eqn:Ei. destruct (Z.eqb_spec rc 0); [|done].
  by simplify_eq.
Qed.

Section decoder.
Context {K Perf D I CA : Type} `{!CodeMemory K} `{!CodeMemoryLaws (TraceMem K)} `{!PerfSink Perf}.
Context `{!Disassembly K D} `{!ItcSink I} `{!CycleTrace CA}.
Context (uninit : Inst) (converterStatus : Z -> DQErr) (et_controlIndex uninitAddr : Z).
Implicit Type d : Decoder K Perf File D I CA.

Definition program (core : Z) d : Z -> option Inst :=
  let w := tr_walker (de_trace d) in programOf uninit core (wk_archSize w) (wk_mem w).

(** A part of the program. *)
Definition part_of (core : Z) (prog : Z -> option Inst) d : Prop := forall pc i, prog pc = Some i -> program core d pc = Some i.

(** In the states [Inv] the disassembler, and in a settled memory the kernel's, describe every
    instruction of a program that can be read. *)
Definition describes (core : Z) (prog : Z -> option Inst) (Inv : D -> Prop) d : Prop :=
  Inv (de_disassembler d) /\
  forall (m : TraceMem K) (x : D) addr, settled m -> is_Some (code m core addr) -> Inv x -> is_Some (prog addr) ->
    describes_at Inv m x addr.

(** A decoder that has read no message of the core, at the start of [bytes]. *)
Record unstarted (core sb cap : Z) (bytes : list Z) d : Prop := {
  un_bare : bare_metal et_controlIndex core d;
  un_parser : exists p, de_sfp d = Some p /\ frame_ok p /\ sp_status p = DQERR_OK /\
    sp_srcbits p = sb /\ stream p = bytes;
  un_core : exists c, tr_cores (de_trace d) !! Z.to_nat core = Some c /\
    (co_currentProcessIndex c = 0 /\ co_currentDisassembler c = Some 0%nat) /\ co_state c = TRACE_STATE_GETFIRSTSYNCMSG /\
    co_lastTime c = 0 /\ co_enterISR c = isNone;
  un_counts : exists cc st, wk_counts (tr_walker (de_trace d)) !! Z.to_nat core = Some cc /\
    counts_hold cap st [] 0 cc;
  un_status : wk_status (tr_walker (de_trace d)) = DQERR_OK /\ an_status (de_analytics d) = DQERR_OK;
  un_type : wk_traceType (tr_walker (de_trace d)) = TRACETYPE_BTM \/
            wk_traceType (tr_walker (de_trace d)) = TRACETYPE_HTM;
  un_arch : wk_archSize (tr_walker (de_trace d)) = 32 \/ wk_archSize (tr_walker (de_trace d)) = 64;
  un_read : tr_readNewTraceMessage (de_trace d) = true;
  un_memory : settled (wk_mem (tr_walker (de_trace d)));
}.

(** A decoder in the form of a view. *)
Definition viewOf d (c : CoreState) (p : SliceParser File) : View := {|
  v_walker := tr_walker (de_trace d); v_core := c; v_nm := tr_nm (de_trace d);
  v_read := tr_readNewTraceMessage (de_trace d); v_tolerant := tr_tolerantError (de_trace d);
  v_parser := p; v_analytics := de_analytics d; v_inst := de_instructionInfo d;
  v_disassembler := de_disassembler d; v_out := de_out d |}.

Lemma view_viewOf core d c p :
  de_sfp d = Some p -> tr_cores (de_trace d) !! Z.to_nat core = Some c ->
  view core d (viewOf d c p) = d.
Proof.
  intros Hp Hc. unfold view, viewOf. cbn. rewrite list_insert_id by done.
  destruct d as [t ? ? ? ? ? ? ? ? ? ? ?]. cbn in *. rewrite Hp. by destruct t.
Qed.

Lemma fresh_viewOf core sb cap bytes prog Inv d c p : part_of core prog d ->
  unstarted core sb cap bytes d -> Inv (de_disassembler d) -> de_sfp d = Some p ->
  tr_cores (de_trace d) !! Z.to_nat core = Some c ->
  fresh uninit core prog cap Inv sb bytes (viewOf d c p).
Proof.
  intros Hpart [Hb (p' & Hp' & Hf & Hs & Hsb & Hst) (c' & Hc' & Hx & Hstate & Ht & Hi) (cc & st & Hcc & Hh)
    [Hw Ha] Hty Har Hr Hm] HI Hp Hc.
  rewrite Hp in Hp'. rewrite Hc in Hc'. simplify_eq. split; try done.
  exists st. split; [done|]. split; try done.
  - destruct (programOf_holds uninit (on_core core (tr_walker (de_trace d))) Hm) as [Hset Hholds].
    split; [exact Hset|]. intros pc i0 Hpc. apply Hholds, (Hpart _ _ Hpc).
  - exists cc. split; [|done]. split; [|done]. apply (bm_core _ _ _ Hb).
Qed.

(** [segs] is an execution of the program from [addr]; [xs] is what the calls are
    to return for its messages [ms], and for the first message, which gives the
    address. *)
Lemma reconstruct core sb cap fuel rest segs prog Inv d i addr sy ts ms xs :
  let first := (core, B_sync i (addr / 2) sy, ts) in
  unstarted core sb cap (encode_all sb (first :: ms) ++ rest) d ->
  part_of core prog d -> describes core prog Inv d ->
  Forall (fun m => let '(c, b, ts) := m in encodable sb c b ts = true) (first :: ms) ->
  trace prog cap core addr [] isNone (default 0 ts) segs = Some (ms, xs) ->
  segments_ok (default 0 ts) segs = true -> 0 < addr < 2 ^ 64 -> addr mod 2 = 0 ->
  0 < se_tsSize (tr_settings (de_trace d)) < 64 ->
  match ts with Some t => t < 2 ^ se_tsSize (tr_settings (de_trace d)) | None => True end ->
  (length (encode_all sb (first :: ms) ++ rest) + 2 < fuel)%nat ->
  exists d' l p',
    calls uninit converterStatus et_controlIndex uninitAddr fuel (S (length xs)) d = Ok d' l /\
    Forall2 (given core)
      ({| ex_inst := None; ex_msg := Some (B_sync i (addr / 2) sy, ts, addr, default 0 ts) |} :: xs) l /\
    de_sfp d' = Some p' /\ stream p' = rest.
Proof.
  intros first Hd Hpart [HI Hdis] Hwf Ht Hok Ha Hae Hs Hts Hf.
  destruct (un_parser _ _ _ _ _ Hd) as (p & Hp & _). destruct (un_core _ _ _ _ _ Hd) as (c & Hc & _).
  pose proof (fresh_viewOf _ _ _ _ prog Inv _ _ _ Hpart Hd HI Hp Hc) as Hfr.
  assert (prog ADDRESS_NONE = None) as Hn.
  { destruct (prog ADDRESS_NONE) as [j|] eqn:E; [|done]. by apply Hpart in E. }
  destruct (sync_trace_calls uninit converterStatus et_controlIndex uninitAddr core d (un_bare _ _ _ _ _ Hd)
    prog cap Inv Hdis Hn sb fuel rest segs _ i addr sy ts ms xs Hfr Hwf Ht Hok Ha Hae Hs Hts Hf)
    as (v' & l & E & Hl & Hst).
  rewrite view_viewOf in E by done. by eexists _, l, (v_parser v').
Qed.
End decoder.
