(* ===== verification/Whole.v ===== *)
(** * A trace from its settings to its instructions

    What [Trace::configure] makes of the settings of a bare-metal trace whose object file
    is printed by objdump: a decoder that has read nothing, whose memory holds the printed
    program and whose disassembler describes it. *)

From stdpp Require Import strings.
From Stdlib Require Import Ascii.
From Stdlib Require String.
From S2P Require Import Prelude Nexus Slices Source Framing Analytics Messages Encode RoundTrip Counts Decode Memory.
From S2P Require Import ObjDump ObjDumpText ObjDumpPrint ObjDumpRead ObjCode Symbols SrcFiles ElfFile.
From S2P Require Import NextAddr Walk Perf State Process ItcPrint Cycles NextInstr Disasm Described.
From S2P Require Import CText PropFile Settings SettingsRead Maps NlsStrings Configure Execution Reconstruct.

(** ** The printed program *)

(** The addresses and the encodings of the instructions of a dump. *)
Definition printedLine (l : DumpLine) : option (Z * Z) :=
  match l with DL_inst _ _ a _ v _ _ => Some (u64 (a + 0), v) | _ => None end.
Definition printedInsts (d : Dump) : list (Z * Z) := omap printedLine (concat (db_lines <$> d_blocks d)).

(** The program: the first instruction that is printed for an address, if it can be decoded. *)
Definition printed (uninit : Inst) (d : Dump) (pc : Z) : option Inst :=
  if (pc =? 0) || (pc =? ADDRESS_NONE) then None
  else
    p ← List.find (fun p : Z * Z => p.1 =? pc) (printedInsts d);
    let '(rc, i) := decodeInstruction p.2 (if d_64 d then 64 else 32) uninit in
    if rc =? 0 then Some i else None.

Lemma printed_line uninit d pc i : printed uninit d pc = Some i ->
  pc <> 0 /\ pc <> ADDRESS_NONE /\ exists b pad k a long v gap text fName line, b ∈ d_blocks d /\
    (DL_inst pad k a long v gap text, (fName, line)) ∈ marked (None, 0) (db_lines b) /\ u64 (a + 0) = pc /\
    decodeInstruction v (if d_64 d then 64 else 32) uninit = (0, i).
Proof.
  unfold printed. destruct (Z.eqb_spec pc 0), (Z.eqb_spec pc ADDRESS_NONE); try done. cbn [orb].
  destruct (List.find _ _) as [[x v]|] eqn:E; [|done]. cbn [mbind option_bind snd].
  destruct (decodeInstruction v _ uninit) as [rc j] eqn:Ed. destruct (Z.eqb_spec rc 0) as [->|]; [|done].
  intros [= ->]. split_and!; [done..|]. apply List.find_some in E as [Hin Hx%Z.eqb_eq]. cbn in Hx. subst x.
  apply list_elem_of_In, list_elem_of_omap in Hin as (l & Hl & El).
  apply list_elem_of_In, List.in_concat in Hl as (ls & (b & <- & Hb)%List.in_map_iff & Hl%list_elem_of_In).
  destruct l as [| | |pad k a long v' gap text|]; try done. injection El as <- ->.
  destruct (line_marked _ _ Hl (None, 0)) as [[f line] Hm].
  exists b, pad, k, a, long, v, gap, text, f, line. split_and!; try done. by apply list_elem_of_In.
Qed.

(** ** The process of the object file *)

(** The process, of which the reader and the disassembler know what was printed. *)
Record process_loaded (d : Dump) (name : list ascii) (g : Shown * SourceInfo) (p : Built) (f : ElfFile)
    (dis : Disassembler) : Prop := {
  pl_name : bp_elfName p = Some name;
  pl_reader : bp_elfReader p = Some f;
  pl_disassembler : bp_disassembler p = Some dis;
  pl_arch : im_archSize (ef_image f) = if d_64 d then 64 else 32;
  pl_bits : ef_bitsPerAddress f = Some (if d_64 d then 64 else 32);
  pl_table : exists store syms t, table_ok store syms t /\ dis = newDisassembler g t (sectionsOf f);
  pl_code b pad k a long v gap text fName line : b ∈ d_blocks d ->
    (DL_inst pad k a long v gap text, (fName, line)) ∈ marked (None, 0) (db_lines b) ->
    rightLength long v /\ exists fName' line', short fName' /\ shows (sectionsOf f) (u64 (a + 0)) long v text fName' line';
}.

(** What a reader and a disassembler know that are made from the output of objdump. *)
Lemma reader_built `{!Qsort} `{!QsortLaws} fuel garbage d reads name :
  dump_ok fuel d -> layout_ok 0 d -> symbols_ok 0 d -> kept 0 d <> [] ->
  ObjDumpText.holds {| pp_buffer := []; pp_reads := reads |} (dumpText d) ->
  exists f0 f t p l, newElfReader fuel garbage.1 0 (Some (ExecPipe reads)) = Ok f0 tt /\ seal f0 = Ok f tt /\
    ef_symtab f = Some t /\ im_codeSectionLst (ef_image f) = p :: l /\
    let dis := newDisassembler garbage.2 t (sectionsAt (im_store (ef_image f)) (p :: l)) in
    process_loaded d name garbage.2 {| bp_pid := -1; bp_elfName := Some name; bp_elfReader := Some f; bp_disassembler := Some dis |} f dis.
Proof.
  intros Hd Hl Hs Hk Hh. destruct (reader_new 0 d fuel garbage.1 reads Hd Hl Hh) as (s' & Hr & E0).
  destruct (reader_sealed 0 d fuel (dumpOf [] elfType_32_little (emptyImage garbage.1)) s' Hd Hl Hs eq_refl Hr)
    as (f & t & store' & E & Hst & Hbits & Et & Ht & Hn & Harch & Est & Elst).
  assert (exists p l, im_codeSectionLst (ef_image f) = p :: l) as (p & l & Ep).
  { rewrite Elst, (rd_sections _ _ _ _ Hr). pose proof (rd_places _ _ _ _ Hr) as Hp.
    destruct Hp as [|p k l ks]; [done|]. by eexists _, _. }
  eexists _, f, t, p, l. split; [exact E0|]. split_and!; [done..|]. cbn zeta.
  split; try done; [by eexists _, _, t; split; [exact Ht|]; unfold sectionsOf; rewrite Ep|].
  intros b' pad k a long v gap text fName line Hb' Hm.
  assert (Forall (line_ok (width d)) (db_lines b')) as Hlines.
  { destruct Hd as (_ & _ & _ & _ & _ & _ & _ & Hb2 & _). rewrite List.Forall_forall in Hb2. apply Hb2. by apply list_elem_of_In. }
  split.
  - destruct Hl as (_ & _ & Hf). rewrite List.Forall_forall in Hf. specialize (Hf b' ltac:(by apply list_elem_of_In)).
    rewrite List.Forall_forall in Hf. apply (Hf (DL_inst pad k a long v gap text)). by apply list_elem_of_In, (marked_line _ _ _ _ Hm).
  - destruct (shows_named _ _ _ _ _ _ _ _ _ Hn (rd_code _ _ _ _ Hr b' pad k a long v gap text fName line Hb' Hm))
      as (fName' & line' & Hsh & _ & Hshort).
    exists fName', line'. unfold sectionsOf. rewrite Est, Elst. split; [|done].
    apply Hshort. by apply (marked_short _ _ _ _ Hlines (None, 0) I Hm).
Qed.

Lemma process_built `{!Qsort} `{!QsortLaws} fuel objdump garbage d reads name b :
  dump_ok fuel d -> layout_ok 0 d -> symbols_ok 0 d -> kept 0 d <> [] ->
  ObjDumpText.holds {| pp_buffer := []; pp_reads := reads |} (dumpText d) ->
  objdump name elfType_32_little 0 = ExecPipe reads -> tb_processes b = None ->
  exists p f dis, buildElfProcess fuel objdump garbage (Some name) b = Ok (set_processes (Some [p]) b) tt /\
    process_loaded d name garbage.2 p f dis.
Proof.
  intros Hd Hl Hs Hk Hh He Hb. destruct (reader_built fuel garbage d reads name Hd Hl Hs Hk Hh) as (f0 & f & t & p & l & E0 & E & Et & Ep & Hp).
  eexists _, f, _. split; [|exact Hp].
  unfold buildElfProcess. rewrite bind_get, Hb. unfold newReader. rewrite He, E0. cbn [tryElf].
  rewrite ret_bind. unfold Maps.finish. rewrite bind_assoc, E. cbn [tryElf]. by rewrite ret_bind, Et, Ep, ret_bind.
Qed.

(** ** The settings *)

Section whole.
Context `{Q : !Qsort} `{L : !QsortLaws} (fuel kfuel : nat) (page : Z -> Exec) (kernelRest : InstInfo) (contents : list ascii -> option (list ascii)).
Context (uninit : Inst) (converterStatus : Z -> DQErr) (et_controlIndex uninitAddr unset : Z).
Context (sprintf : list Z -> list Z -> list Z) (badArgs : Z -> list Z -> list Z).

(** There is no kernel in the memory of a bare-metal trace: the law is only asked for where
    there is none. *)
#[local] Instance kernel_memory : CodeMemory KMem := KMem_memory kfuel page.
#[local] Instance kernel_laws : CodeMemoryLaws KMem.
Proof using. by exists (fun _ => False). Defined.
#[local] Instance printer : ItcSink ITCPrint := ITCPrint_sink sprintf badArgs.
#[local] Instance cycles : CycleTrace CATrace := CATrace_cycles unset.
#[local] Instance disassembly : Disassembly KMem Disassemblers := Disassemblers_disassembly kfuel page kernelRest contents.

(** The settings of a bare-metal trace without a converter or a cycle-accurate trace: the
    trace file holds [bytes], and objdump prints [dump] for the object file. *)
Record bare_settings (w : World File) (g : Garbage) (s : TraceSettings) (bytes : list Z) (dump : Dump) : Prop := {
  bs_file : exists name, ts_name s tfName = Some name /\ havePath name = true /\
    wo_openFile w name = inr {| f_rest := bytes; f_pos := 0; f_ioerr := false |};
  bs_message : Z.of_nat (length (ga_msg g)) = MSG_SIZE;
  bs_elf : exists name reads, ts_name s efName = Some name /\
    wo_objdump w (default (chars "riscv64-unknown-elf-objdump") (ts_name s odName)) name elfType_32_little 0 = ExecPipe reads /\
    ObjDumpText.holds {| pp_buffer := []; pp_reads := reads |} (dumpText dump) /\
    (ts_num s itcPrintOpts = 0 \/ exists l, Forall text_ok l /\ forall offset size,
       wo_elfSection w name offset size = inr (concat (nlsText <$> l)));
  bs_bare : ts_name s mfNameList = None /\ ts_name s Settings.pids = None;
  bs_cycles : ts_name s caName = None;
  bs_converters : ts_bool s CTFConversion = false /\ ts_bool s itcPerfEnable = false;
  bs_filter : ts_bool s filterControlEvents = false;
  bs_srcBits : 0 <= ts_num s srcBits < 32;
  bs_type : ts_tType s = TRACETYPE_unknown \/ ts_tType s = TRACETYPE_BTM \/ ts_tType s = TRACETYPE_HTM;
  bs_dump : dump_ok fuel dump /\ layout_ok 0 dump /\ symbols_ok 0 dump /\ kept 0 dump <> [];
}.

(** The printer, with the strings of the object file. *)
Lemma strings_parsed w f name srcbits opts size channel g (b : Builder) : 0 <= srcbits < 32 ->
  (opts = 0 \/ exists l, Forall text_ok l /\ forall offset size, wo_elfSection (Src:=File) w name offset size = inr (concat (nlsText <$> l))) ->
  exists itc, setITCPrintOptions w g srcbits opts size channel name f b = Ok b itc.
Proof using.
  intros Hb Hs. unfold setITCPrintOptions. destruct (Z.eqb_spec opts 0); [by eexists|]. destruct Hs as [?|(l & Hl & Hw)]; [done|].
  assert (exists strings, parseNLSStrings (wo_elfSection w name) f = Ok tt strings) as [strings ->].
  { unfold parseNLSStrings. destruct (List.find _ _) as [sp|]; [|by eexists]. rewrite Hw, nls_read by (done || lia). by eexists. }
  unfold shiftedOne. destruct (Z.leb_spec 0 srcbits), (Z.ltb_spec srcbits 32); try lia. cbn [andb]. rewrite lift_bind. by eexists.
Qed.

(** What [configure] leaves. *)
Lemma configured w g s bytes dump : bare_settings w g s bytes dump ->
  exists b p f dis itc name, process_loaded dump name (ga_elf g).2 p f dis /\
    configure fuel et_controlIndex w g s = Ok b
      (assembled et_controlIndex g s false [] (if ts_num s numAddrBits =? 0 then if d_64 dump then 64 else 32 else ts_num s numAddrBits)
         (if d_64 dump then 64 else 32) [p] [(f, dis)]
         [set_fileReader (subSrcPath (ts_name s cutPath) (ts_name s srcRoot) newFileReader) (setPathType (ts_pathType s) dis)]
         (newSliceParser (ts_num s srcBits) (ga_msg g) {| f_rest := bytes; f_pos := 0; f_ioerr := false |}) itc None [newProcess p]).
Proof using L.
  intros [(tf & Etf & Hpath & Hopen) _ (ef & reads & Eef & Hdump & Hholds & Hnls) [Emf Epids] Eca [Ectf Eperf] _ Hbits _
    (Hd & Hl & Hs & Hk)].
  unfold configure. rewrite Etf. unfold newSliceFileParser. rewrite Hpath, Hopen. rewrite Epids. cbn [parsePidList].
  set (b0 := newBuilder _ s). destruct (process_built fuel _ (ga_elf g) dump reads ef b0 Hd Hl Hs Hk Hholds Hdump eq_refl)
    as (p & f & dis & E & Hp). set (b := set_processes _ b0) in E.
  destruct (strings_parsed w f ef (ts_num s srcBits) (ts_num s itcPrintOpts) (ts_num s itcPrintBufferSize)
    (ts_num s itcPrintChannel) g b Hbits Hnls) as [itc Eitc].
  exists b, p, f, dis, itc, ef. split; [done|].
  unfold buildProcesses. rewrite Eef, Emf. unfold orFail at 1. rewrite bind_assoc.
  erewrite bind_ok by (by rewrite E). rewrite ret_bind, bind_get. change (tb_processes b) with (Some [p]). rewrite lift_bind.
  assert (partsOf [p] = Some [(f, dis)]) as Eparts
    by (unfold partsOf; cbn; by rewrite (pl_reader _ _ _ _ _ _ Hp), (pl_disassembler _ _ _ _ _ _ Hp)).
  assert ((p ← head [p]; bp_elfName p) = Some ef) as Ename by apply (pl_name _ _ _ _ _ _ Hp).
  unfold configureRest. rewrite Eparts, lift_bind. change (head [(f, dis)]) with (Some (f, dis)). rewrite lift_bind, ret_bind.
  rewrite (pl_bits _ _ _ _ _ _ Hp), (pl_arch _ _ _ _ _ _ Hp).
  set (bits := if _ =? 0 then lift_opt _ else _).
  assert (bits b = Ok b (if ts_num s numAddrBits =? 0 then if d_64 dump then 64 else 32 else ts_num s numAddrBits)) as Ebits
    by (unfold bits; by destruct (_ =? 0)).
  rewrite (bind_ok _ _ _ _ _ Ebits), Ename, lift_bind.
  assert (orFail (setITCPrintOptions w g (ts_num s srcBits) (ts_num s itcPrintOpts) (ts_num s itcPrintBufferSize)
    (ts_num s itcPrintChannel) ef f) b = Ok b itc) as Eitc2 by (unfold orFail; by rewrite Eitc).
  rewrite (bind_ok _ _ _ _ _ Eitc2), Eca, ret_bind, Ectf, ret_bind, Eperf, ret_bind.
  destruct (pl_table _ _ _ _ _ _ Hp) as (store & syms & t & _ & Edis).
  destruct (ts_name s cutPath), (ts_name s srcRoot); rewrite Edis; try done.
Qed.

(** ** The decoder *)

Section decoder.
Context (w : World File) (g : Garbage) (s : TraceSettings) (bytes : list Z) (dump : Dump).
Context (Hs : bare_settings w g s bytes dump).
Context (name : list ascii) (p : Built) (f : ElfFile) (dis : Disassembler).
Context (Hp : process_loaded dump name (ga_elf g).2 p f dis) (bits : Z) (itc : option ITCPrint).
Let arch : Z := if d_64 dump then 64 else 32.
Let d0 : Disassembler :=
  set_fileReader (subSrcPath (ts_name s cutPath) (ts_name s srcRoot) newFileReader) (setPathType (ts_pathType s) dis).
Let d : Decoder KMem PerfConverter File Disassemblers ITCPrint CATrace :=
  assembled et_controlIndex g s false [] bits arch [p] [(f, dis)] [d0]
    (newSliceParser (ts_num s srcBits) (ga_msg g) {| f_rest := bytes; f_pos := 0; f_ioerr := false |}) itc None [newProcess p].

Lemma assembled_unstarted core : 0 <= core < DQR_MAXCORES ->
  unstarted et_controlIndex core (ts_num s srcBits) STACK_SIZE bytes d.
Proof using Hs.
  intros Hc. assert (Z.to_nat core < 16)%nat as Hn by (unfold DQR_MAXCORES in Hc; lia). split.
  - split; try done.
    + cbn [d assembled de_trace tr_settings se_eventFilterMask]. rewrite (bs_filter _ _ _ _ _ Hs). apply Z.bits_0.
  - eexists. split; [done|]. split; [by apply newSliceParser_ok; [apply Hs|]|done].
  - eexists. split; [by apply lookup_replicate_2|]. done.
  - exists newCoreCounts, []. split; [by apply lookup_replicate_2|].
    destruct (newAddrStack_ok STACK_SIZE) as [H1 H2]; [done|]. split; try done; cbn; lia.
  - done.
  - cbn. destruct (bs_type _ _ _ _ _ Hs) as [->|[->| ->]]; [by left|by left|by right].
  - unfold d, arch. cbn. destruct (d_64 dump); [by right|by left].
  - done.
  - done.
Qed.

Lemma assembled_code core pad k a (long : bool) v gap text b : 0 <= core < DQR_MAXCORES -> b ∈ d_blocks dump ->
  forall c, (DL_inst pad k a long v gap text, c) ∈ marked (None, 0) (db_lines b) ->
  code (wk_mem (tr_walker (de_trace d))) core (u64 (a + 0)) = Some v.
Proof using Hp.
  intros Hc Hb [fName line] Hm. rewrite code_elf by done. unfold readerOf.
  destruct (pl_code _ _ _ _ _ _ Hp _ _ _ _ _ _ _ _ _ _ Hb Hm) as (_ & f' & l' & _ & Hsh).
  cbn [d assembled de_trace tr_walker wk_mem tm_currentElfReader tm_readers].
  destruct (Z.leb_spec 0 core); [|lia]. rewrite lookup_replicate_2 by (unfold DQR_MAXCORES in *; lia).
  cbn [mbind option_bind]. cbn [fmap list_fmap lookup list_lookup fst snd mbind option_bind].
  unfold code, fetch, ElfReader_memory. by rewrite (shows_fetch (memoryOf f) _ _ _ _ _ _ _ _ eq_refl Hsh).
Qed.

Lemma assembled_part core : 0 <= core < DQR_MAXCORES -> part_of uninit core (printed uninit dump) d.
Proof using Hp.
  intros Hc pc i Hi. destruct (printed_line _ _ _ _ Hi) as (_ & Hne & b & pad & k & a & long & v & gap & text & fn & line & Hb & Hm & <- & Hd).
  unfold program, programOf. destruct (Z.eqb_spec (u64 (a + 0)) ADDRESS_NONE); [done|].
  rewrite (assembled_code core pad k a long v gap text b Hc Hb _ Hm). cbn [mbind option_bind].
  change (wk_archSize _) with arch. unfold arch. by rewrite Hd.
Qed.

Lemma assembled_describes core : 0 <= core < DQR_MAXCORES ->
  exists Inv, describes core (printed uninit dump) Inv d.
Proof using Hp.
  intros Hc. destruct (pl_table _ _ _ _ _ _ Hp) as (store & syms & t & Ht & Edis).
  exists (fun dd => exists ds, dd_all dd !! 0%nat = Some ds /\ dis_ok contents store syms ds /\ dis_same d0 ds). split.
  - exists d0. split; [done|]. split; [|apply dis_same_refl].
    unfold d0. rewrite Edis.
    exact (dis_new contents store syms t _ _ (ts_name s cutPath) (ts_name s srcRoot) (ts_pathType s) Ht).
  - intros m dd pc Hset _ (ds & Hds & Hok & Hsame) [i Hi]. unfold describes_at.
    assert (kernelAt pc m = None) as ->.
    { unfold kernelAt. change (mem_settled m) in Hset. unfold mem_settled in Hset. by destruct (tm_kMem m) as [[start k]|]. }
    destruct (printed_line _ _ _ _ Hi) as (Hpc & _ & b & pad & k & a & long & v & gap & text & fn & line & Hb & Hm & Ea & _).
    destruct (pl_code _ _ _ _ _ _ Hp _ _ _ _ _ _ _ _ _ _ Hb Hm) as (Hlen & f' & l' & Hshort & Hsh). rewrite Ea in Hsh.
    assert (sectionsOf f = ds_sectionLst ds) as Esec.
    { rewrite (dm_sections _ _ Hsame). unfold d0. by rewrite Edis. }
    rewrite Esec in Hsh.
    destruct (instruction_described contents store syms pc long v text f' l' ds Hok Hpc Hsh Hlen Hshort)
      as (ds' & E & Hok' & Hsame' & Hi' & _).
    exists (set_dd 0 dd ds'). eexists. split; [|split].
    + unfold NextInstr.disassemble, disassembly, Disassemblers_disassembly, userInfo. rewrite bind_get, Hds, lift_bind.
      erewrite bind_ok by (unfold zoom; by rewrite E). rewrite bind_get. cbn [set_dd dd_all].
      rewrite list_lookup_insert_eq by (by apply lookup_lt_Some in Hds). by rewrite lift_bind.
    + cbn. by rewrite Hi'.
    + exists ds'. split; [apply list_lookup_insert_eq; by apply lookup_lt_Some in Hds|].
      split; [done|]. by apply (dis_same_trans d0 ds).
Qed.
End decoder.

(** From the settings to the instructions: the calls return the execution. *)
Lemma configured_reconstructs w g s dump core n rest segs i addr sy ts ms xs :
  let first := (core, B_sync i (addr / 2) sy, ts) in let sb := ts_num s srcBits in
  bare_settings w g s (encode_all sb (first :: ms) ++ rest) dump -> 0 <= core < DQR_MAXCORES ->
  Forall (fun m => let '(c, b, ts) := m in encodable sb c b ts = true) (first :: ms) ->
  trace (printed uninit dump) STACK_SIZE core addr [] isNone (default 0 ts) segs = Some (ms, xs) ->
  segments_ok (default 0 ts) segs = true -> 0 < addr < 2 ^ 64 -> addr mod 2 = 0 ->
  0 < ts_num s tsSize < 64 -> match ts with Some t => t < 2 ^ ts_num s tsSize | None => True end ->
  (length (encode_all sb (first :: ms) ++ rest) + 2 < n)%nat ->
  exists b d d' l p', configure fuel et_controlIndex w g s = Ok b d /\
    calls uninit converterStatus et_controlIndex uninitAddr n (S (length xs)) d = Ok d' l /\
    Forall2 (given core)
      ({| ex_inst := None; ex_msg := Some (B_sync i (addr / 2) sy, ts, addr, default 0 ts) |} :: xs) l /\
    de_sfp d' = Some p' /\ stream p' = rest.
Proof using L.
  intros first sb Hs Hc Hwf Ht Hok Ha Hae Hsz Hts Hn.
  destruct (configured w g s _ dump Hs) as (b & p & f & dis & itc & name & Hp & E). exists b.
  destruct (assembled_describes g s (encode_all sb (first :: ms) ++ rest) dump name p f dis Hp
    (if ts_num s numAddrBits =? 0 then if d_64 dump then 64 else 32 else ts_num s numAddrBits) itc core Hc) as [Inv Hdis].
  match type of E with _ = Ok _ ?x => exists x; set (d := x) in * end.
  destruct (reconstruct uninit converterStatus et_controlIndex uninitAddr core sb STACK_SIZE n rest segs
    (printed uninit dump) Inv d i addr sy ts ms xs) as (d' & l & p' & Hcalls); try done.
  - by apply (assembled_unstarted w).
  - by eapply assembled_part.
  - by exists d', l, p'.
Qed.

(** ** The constructor *)

(** With the settings in a file of properties. *)
Lemma trace_reconstructs w g ls l fl dump core n rest segs i addr sy ts ms xs :
  let first := (core, B_sync i (addr / 2) sy, ts) in let s := effects l newTraceSettings in let sb := ts_num s srcBits in
  file_ok ls -> (length ls < fl)%nat -> Forall2 denotes (propsOf ls) l -> Forall setting_ok l -> oneSource l newTraceSettings ->
  itcConflict s = false ->
  bare_settings w g s (encode_all sb (first :: ms) ++ rest) dump -> 0 <= core < DQR_MAXCORES ->
  Forall (fun m => let '(c, b, ts) := m in encodable sb c b ts = true) (first :: ms) ->
  trace (printed uninit dump) STACK_SIZE core addr [] isNone (default 0 ts) segs = Some (ms, xs) ->
  segments_ok (default 0 ts) segs = true -> 0 < addr < 2 ^ 64 -> addr mod 2 = 0 ->
  0 < ts_num s tsSize < 64 -> match ts with Some t => t < 2 ^ ts_num s tsSize | None => True end ->
  (length (encode_all sb (first :: ms) ++ rest) + 2 < n)%nat ->
  exists d d' out p', newTrace fuel et_controlIndex w g (Some (Content (SettingsRead.fileText ls))) fl = Ok tt d /\
    calls uninit converterStatus et_controlIndex uninitAddr n (S (length xs)) d = Ok d' out /\
    Forall2 (given core)
      ({| ex_inst := None; ex_msg := Some (B_sync i (addr / 2) sy, ts, addr, default 0 ts) |} :: xs) out /\
    de_sfp d' = Some p' /\ stream p' = rest.
Proof using L.
  intros first s sb Hls Hfl Hd Hl Hone Hitc Hs Hc Hwf Ht Hok Ha Hae Hsz Hts Hn.
  destruct (settings_read ls l newTraceSettings fl Hls Hfl Hd Hl Hone) as (q & q' & E1 & Est & E2). fold s in E2. rewrite Hitc in E2.
  destruct (configured_reconstructs w g s dump core n rest segs i addr sy ts ms xs Hs Hc Hwf Ht Hok Ha Hae Hsz Hts Hn)
    as (b & d & d' & out & p' & E & H). exists d, d', out, p'. split; [|exact H].
  unfold newTrace. rewrite E1, Est, bool_decide_eq_true_2 by done. cbn [negb]. by rewrite E2, E.
Qed.
End whole.
