(* ===== verification/Properties.v ===== *)
(** * Properties: the parts of the decoder.

    Theorems on the parsers, the counts, the statistics and the instruction
    decoder, each with a witness at a concrete input where its hypotheses hold.
    They are proved from the lemmas of the component files. *)

From S2P Require Import Prelude Nexus Slices Source Framing Analytics Messages Encode.
From S2P Require Import RoundTrip Counts Decode.

(** ** Inputs of the witnesses *)

Definition exBody : Body := B_indirectBranch 37 0x80001234 BTYPE_EXCEPTION.
Definition exBody2 : Body :=
  B_indirectHistoryWS 12 0xffffffff80001234 BTYPE_INDIRECT 0xb5 SYNC_TRACE_ENABLE.
Definition exMsgs : list (Z * Body * option Z) := [(3, exBody, Some 99); (0, exBody2, None)].
Definition exFile (bytes : list Z) : File := {| f_rest := bytes; f_pos := 0; f_ioerr := false |}.
Definition exParser (bytes : list Z) : SliceParser File :=
  newSliceParser 2 (replicate 64 0) (exFile bytes).
(** A socket that delivers the bytes in two parts, dry in between. *)
Definition exSock (bs1 bs2 : list Z) : Sock :=
  {| sk_script := [RAvail bs1; RAgain; RAvail bs2]; sk_buffer := replicate 2048 0;
     sk_in := 5; sk_out := 5 |}.
Definition exSockParser (bs1 bs2 : list Z) : SliceParser Sock :=
  newSliceParser 2 (replicate 64 0) (exSock bs1 bs2).

Lemma exParser_ok bytes : frame_ok (exParser bytes).
Proof. by apply newSliceParser_ok. Defined.
Lemma exSock_ok bs1 bs2 : sock_ok (exSock bs1 bs2).
Proof. split; [done|]. by split. Defined.
Lemma exSockParser_ok bs1 bs2 : frame_ok (exSockParser bs1 bs2).
Proof. apply newSliceParser_ok; [done|apply exSock_ok]. Defined.

(** ** From bytes to messages *)

(** C3: a trace file that holds the encodings of any well-formed messages, in
    order, is read back as exactly these messages: [n] calls of
    [readNextTraceMsg] deliver the [n] messages with their type, source, fields
    and timestamp, leave what follows in the file, and no error in [status]. *)
Theorem file_roundtrip fuel (ms : list (Z * Body * option Z)) (p : SliceParser File) a nm rest :
  Forall (fun m => let '(core, b, ts) := m in encodable (sp_srcbits p) core b ts = true) ms ->
  frame_ok p -> sp_status p = DQERR_OK -> an_status a = DQERR_OK ->
  stream p = encode_all (sp_srcbits p) ms ++ rest -> (length (stream p) < fuel)%nat ->
  exists p' a' l, readMsgs fuel (length ms) nm (p, a) = Ok (p', a') l /\
    Forall2 (fun m nm' => let '(core, b, ts) := m in message_is core b ts nm') ms l /\
    stream p' = rest /\ sp_status p' = DQERR_OK.
Proof. apply readMsgs_file. Qed.

Lemma file_roundtrip_witness :
  exists p' a' l,
    readMsgs 100 2 newNexusMessage (exParser (encode_all 2 exMsgs ++ [7; 7]), newAnalytics) =
      Ok (p', a') l /\
    Forall2 (fun m nm' => let '(core, b, ts) := m in message_is core b ts nm') exMsgs l /\
    stream p' = [7; 7] /\ sp_status p' = DQERR_OK.
Proof.
  apply (file_roundtrip 100 exMsgs (exParser (encode_all 2 exMsgs ++ [7; 7])) newAnalytics
           newNexusMessage [7; 7]).
  - repeat constructor.
  - apply exParser_ok.
  - reflexivity.
  - reflexivity.
  - reflexivity.
  - vm_compute. lia.
Defined.

(** C15: on any byte source, a stream whose next message is an encoded one: the
    call delivers that message, with its fields, its number and its [8] bits per
    byte accounted to its core, and takes it off the stream; or the source has no
    byte yet or fails, and the message is still the next one. *)
Theorem message_delivered {Src} `{!ByteSource Src} `{!ByteSourceLaws Src}
    fuel (p : SliceParser Src) a nm core b ts rest :
  encodable (sp_srcbits p) core b ts = true ->
  frame_ok p -> sp_status p = DQERR_OK -> an_status a = DQERR_OK ->
  next_frame (stream p) = next_frame (encode (sp_srcbits p) core b ts ++ rest) ->
  (length (pending (sp_source p)) < fuel)%nat ->
  delivers p a nm core b ts rest (readNextTraceMsg fuel nm (p, a)).
Proof. apply readNextTraceMsg_delivers. Qed.

Lemma message_delivered_witness :
  delivers (exSockParser (0 :: take 5 (encode 2 3 exBody None)) (drop 5 (encode 2 3 exBody None)))
    newAnalytics newNexusMessage 3 exBody None []
    (readNextTraceMsg 100 newNexusMessage
       (exSockParser (0 :: take 5 (encode 2 3 exBody None)) (drop 5 (encode 2 3 exBody None)),
        newAnalytics)).
Proof.
  apply (message_delivered 100 (exSockParser (0 :: take 5 (encode 2 3 exBody None))
           (drop 5 (encode 2 3 exBody None)))).
  - reflexivity.
  - apply exSockParser_ok.
  - reflexivity.
  - reflexivity.
  - reflexivity.
  - vm_compute. lia.
Defined.

(** C18: [readBinaryMsg] cuts the stream exactly as the reference [next_frame]
    does, wherever the source runs dry or fails: leading bytes that cannot start
    a message are skipped, the message is the bytes up to the first END slice, 64
    bytes at most, and a longer one is reported as [DQERR_BM]. *)
Theorem framing_refines {Src} `{!ByteSource Src} `{!ByteSourceLaws Src}
    fuel (p : SliceParser Src) :
  frame_ok p -> sp_status p = DQERR_OK ->
  (length (pending (sp_source p)) < fuel)%nat ->
  frame_post p (readBinaryMsg fuel p).
Proof. apply readBinaryMsg_spec. Qed.

Lemma framing_refines_witness :
  frame_post (exParser [255; 1; 0; 16; 92; 37; 7]) (readBinaryMsg 10 (exParser [255; 1; 0; 16; 92; 37; 7])).
Proof.
  apply (framing_refines 10 (exParser [255; 1; 0; 16; 92; 37; 7])).
  - apply exParser_ok.
  - reflexivity.
  - vm_compute. lia.
Defined.

(** A file and a socket that deliver the same bytes are cut into the same
    messages, however the socket splits them. *)
Lemma framing_source_independent fuel fuel' (p : SliceParser File) (q : SliceParser Sock) p' q' :
  frame_ok p -> sp_status p = DQERR_OK -> (length (pending (sp_source p)) < fuel)%nat ->
  frame_ok q -> sp_status q = DQERR_OK -> (length (pending (sp_source q)) < fuel')%nat ->
  next_frame (stream p) = next_frame (stream q) ->
  readBinaryMsg fuel p = Ok p' true -> readBinaryMsg fuel' q = Ok q' true ->
  take (Z.to_nat (sp_msgSlices p')) (sp_msg p') = take (Z.to_nat (sp_msgSlices q')) (sp_msg q') /\
  stream p' = stream q'.
Proof.
  intros Hp Hps Hpf Hq Hqs Hqf Heq Ep Eq.
  pose proof (readBinaryMsg_spec fuel p Hp Hps Hpf) as Hfp.
  pose proof (readBinaryMsg_spec fuel' q Hq Hqs Hqf) as Hfq.
  rewrite Ep in Hfp. rewrite Eq in Hfq.
  destruct Hfp as (_&_&_&_&_&_&_&Hfp), Hfq as (_&_&_&_&_&_&_&Hfq).
  rewrite Hfp, Hfq in Heq. by injection Heq.
Qed.

Definition exSockAll (bs : list Z) : SliceParser Sock :=
  newSliceParser 2 (replicate 64 0)
    {| sk_script := [RAvail bs]; sk_buffer := replicate 2048 0; sk_in := 5; sk_out := 5 |}.

Lemma framing_source_independent_witness :
  exists p' q',
    readBinaryMsg 20 (exParser [0; 16; 92; 37; 7; 3]) = Ok p' true /\
    readBinaryMsg 20 (exSockAll [0; 16; 92; 37; 7; 3]) = Ok q' true /\
    take (Z.to_nat (sp_msgSlices p')) (sp_msg p') = take (Z.to_nat (sp_msgSlices q')) (sp_msg q') /\
    stream p' = stream q'.
Proof.
  eexists _, _. split; [vm_compute; reflexivity|]. split; [vm_compute; reflexivity|].
  apply (framing_source_independent 20 20 (exParser [0; 16; 92; 37; 7; 3])
           (exSockAll [0; 16; 92; 37; 7; 3])).
  - apply exParser_ok.
  - reflexivity.
  - vm_compute. lia.
  - apply newSliceParser_ok; [reflexivity|]. split; [reflexivity|]. by split.
  - reflexivity.
  - vm_compute. lia.
  - vm_compute. reflexivity.
  - vm_compute. reflexivity.
  - vm_compute. reflexivity.
Defined.

(** C24: refilling the ring buffer from the socket neither loses, duplicates nor
    reorders a byte, whatever [recv] returns and however the buffer wraps, and
    keeps both indices inside the buffer. *)
Theorem ring_preserves_stream k :
  sock_ok k -> sock_ok (fst (bufferSWT k)) /\ sock_pending (fst (bufferSWT k)) = sock_pending k.
Proof. apply bufferSWT_ok. Qed.

Lemma ring_preserves_stream_witness :
  sock_ok (fst (bufferSWT (exSock [1; 2; 3] [4]))) /\
  sock_pending (fst (bufferSWT (exSock [1; 2; 3] [4]))) = [1; 2; 3; 4].
Proof. apply (ring_preserves_stream (exSock [1; 2; 3] [4])), exSock_ok. Defined.

(** Three slices of the number 0x12345, with room for a last one. *)
Definition exGroup : SliceParser File :=
  set_msgSlices 4 (set_msg (group_bytes 0x12345 4 MSEO_END ++ replicate 60 0) (exParser [])).

Lemma exGroup_at : group_at (sp_msg exGroup) 0 0x12345 4 MSEO_END.
Proof. by apply (group_at_bytes _ _ _ _ _ (replicate 60 0)). Defined.

(** C30: a variable field is read as the rest of its group of slices, whatever its width [w]
    and value.  Up to 69 bits it is returned modulo 2^64, with its width, and ends the message
    exactly when its last slice is marked END; but if it is wider than 64 bits and one of its top
    two bits is set, which for 65 and 66 bits can be so for a value of 64 bits, it is refused.  Of
    more bits the last slice is shifted by 64 or more, which is undefined. *)
Theorem var_field_value {Src} (p : SliceParser Src) i0 u n m b0 :
  group_at (sp_msg p) i0 u n m -> 0 <= m < 4 -> m <> MSEO_NORMAL ->
  sp_bitIndex p = 6 * i0 + b0 -> 0 <= b0 < 6 * n -> i0 + n <= sp_msgSlices p ->
  let w := 6 * n - b0 in
  if w <=? 69 then
    if (64 <? w) && (2 ^ (w - 2) <=? slice u b0 w) then parseVarField p = Err (set_status DQERR_ERR p) DQERR_ERR
    else exists p' e,
      parseVarField p = Ok p' (u64 (slice u b0 w), w) /\
      p' = set_cursor (6 * (i0 + n)) e p /\
      (m <> MSEO_END -> e = sp_eom p) /\ (m = MSEO_END -> e = true)
  else parseVarField p = Undef.
Proof. apply parseVarField_total. Qed.

(** An in-circuit trace message with a one-bit source and the address
    [0xffffffff80001234]. *)
Definition exWide : SliceParser File :=
  set_msgSlices 13 (set_msg (group_bytes (0xffffffff80001234 * 2 ^ 13) 13 MSEO_END ++
                             replicate 51 0) (exParser [])).

(** A field of 21 bits, and one of 65 bits that is refused. *)
Lemma var_field_value_witness :
  (exists p' e,
    parseVarField (set_bitIndex 3 exGroup) = Ok p' (slice 0x12345 3 21, 21) /\
    p' = set_cursor 24 e (set_bitIndex 3 exGroup) /\
    (MSEO_END <> MSEO_END -> e = sp_eom (set_bitIndex 3 exGroup)) /\ (MSEO_END = MSEO_END -> e = true)) /\
  parseVarField (set_bitIndex 13 exWide) = Err (set_status DQERR_ERR (set_bitIndex 13 exWide)) DQERR_ERR.
Proof.
  split.
  - apply (var_field_value (set_bitIndex 3 exGroup) 0 0x12345 4 MSEO_END 3).
    + apply exGroup_at.
    + by split.
    + discriminate.
    + reflexivity.
    + lia.
    + vm_compute. discriminate.
  - apply (var_field_value (set_bitIndex 13 exWide) 0 (0xffffffff80001234 * 2 ^ 13) 13 MSEO_END 13).
    + by apply (group_at_bytes _ _ _ _ _ (replicate 51 0)).
    + by split.
    + discriminate.
    + reflexivity.
    + lia.
    + vm_compute. discriminate.
Defined.

(** reading a fixed field of any message, well formed or not, never reads
    outside [msg], never shifts by 64 or more, and fails only past the end of
    the message. *)
Lemma fixed_field_safe {Src} (p : SliceParser Src) width :
  Z.of_nat (length (sp_msg p)) = MSG_SIZE -> 0 <= sp_bitIndex p -> sp_msgSlices p <= MSG_SIZE ->
  width <= 64 ->
  match parseFixedField width p with
  | Ok p' _ => sp_bitIndex p' = sp_bitIndex p + width /\ 0 < width /\
               sp_bitIndex p' < 6 * sp_msgSlices p
  | Err _ e => e = if width <=? 0 then DQERR_ERR else DQERR_EOM
  | Undef | NoFuel => False
  end.
Proof. apply parseFixedField_in. Qed.

Lemma fixed_field_safe_witness :
  match parseFixedField 20 (set_msgSlices 3 (exParser [])) with
  | Ok p' _ => sp_bitIndex p' = sp_bitIndex (set_msgSlices 3 (exParser [])) + 20 /\ 0 < 20 /\
               sp_bitIndex p' < 6 * sp_msgSlices (set_msgSlices 3 (exParser []))
  | Err _ e => e = if 20 <=? 0 then DQERR_ERR else DQERR_EOM
  | Undef | NoFuel => False
  end.
Proof.
  apply (fixed_field_safe (set_msgSlices 3 (exParser [])) 20).
  - reflexivity.
  - vm_compute. discriminate.
  - vm_compute. discriminate.
  - lia.
Defined.

(** C35: a message that is rejected for anything but an unsupported TCODE stops
    the parser for good: [readNextTraceMsg] reports it as [DQERR_BM], "skipping
    message", but [status] keeps the error, and every later call returns it
    without reading a byte. *)
Theorem rejected_message_stops {Src} `{!ByteSource Src} nm (p : SliceParser Src) a p' a' e :
  an_status a = DQERR_OK -> parseFramed nm (p, a) = Err (p', a') e ->
  e = DQERR_BM /\
  ((exists v p1, parseFixedField 6 p = Ok p1 v /\ supported (u8 v) = false) \/
   sp_status p' <> DQERR_OK /\
   forall fuel nm', readNextTraceMsg fuel nm' (p', a') = Err (p', a') (sp_status p')).
Proof.
  intros Ha E. destruct (parseFramed_error nm p a p' a' e Ha E) as [-> [Hs|(v & E1 & Hv & _)]].
  - split; [done|]. right. split; [done|]. intros. by apply readNextTraceMsg_stuck.
  - split; [done|]. left. eauto.
Qed.

(** A direct branch message too short for its source field of seven bits. *)
Lemma rejected_message_stops_witness :
  exists p' a' e, parseFramed newNexusMessage
      (newSliceParser 7 ([12; 3] ++ replicate 62 0) (exFile [5]), newAnalytics) =
      Err (p', a') e /\ e = DQERR_BM /\
    ((exists v p1, parseFixedField 6 (newSliceParser 7 ([12; 3] ++ replicate 62 0) (exFile [5])) =
        Ok p1 v /\ supported (u8 v) = false) \/
     sp_status p' <> DQERR_OK /\
     forall fuel nm', readNextTraceMsg fuel nm' (p', a') = Err (p', a') (sp_status p')).
Proof.
  eexists _, _, _. split; [vm_compute; reflexivity|].
  apply (rejected_message_stops newNexusMessage
           (newSliceParser 7 ([12; 3] ++ replicate 62 0) (exFile [5])) newAnalytics).
  - reflexivity.
  - vm_compute. reflexivity.
Defined.

(** ** Messages *)

(** C40: on a message whose struct is the one of its type, no accessor reads a
    member of the union that the parser has not written, except [getHistory] on a
    correlation message without a history, and, on an in-circuit trace message without a
    second [CKDATA], [getCKData] of index 1, and [getICTCallReturnTarget] if it is an
    inferable call: these three are exact.  [getCKData] is asked for the two elements that
    there are. *)
Theorem accessors_type_safe nm :
  body_matches (nm_tcode nm) (nm_body nm) = true ->
  is_Some (getI_Cnt nm) /\ is_Some (getU_Addr nm) /\ is_Some (getF_Addr nm) /\
  is_Some (getB_Type nm) /\ is_Some (getSyncReason nm) /\ is_Some (getEType nm) /\
  is_Some (getCKDF nm) /\ is_Some (getCKSRC nm) /\ is_Some (getCKData nm 0) /\
  (is_Some (getCKData nm 1) <-> ckdata_unset nm = false) /\
  is_Some (getCDF nm) /\ is_Some (getEVCode nm) /\ is_Some (getData nm) /\
  is_Some (getAddr nm) /\ is_Some (getIdTag nm) /\ is_Some (getProcessId nm) /\
  is_Some (getRCode nm) /\ is_Some (getRData nm) /\
  (is_Some (getHistory nm) <-> history_unset nm = false) /\
  (is_Some (getICTCallReturnTarget nm) <-> target_unset nm = false).
Proof. apply accessors_defined. Qed.

Definition exNm (b : Body) : NexusMessage := set_body b (set_head (body_tcode b) 0 newNexusMessage).

Lemma accessors_type_safe_witness :
  is_Some (getI_Cnt (exNm exBody)) /\ is_Some (getU_Addr (exNm exBody)) /\
  (is_Some (getHistory (exNm exBody)) <-> history_unset (exNm exBody) = false).
Proof.
  destruct (accessors_type_safe (exNm exBody) eq_refl) as (H1 & H2 & H3).
  split; [exact H1|]. split; [exact H2|]. apply H3.
Defined.

(** ** Statistics *)

(** a message with the struct of its type is always accounted for: one
    message in total, its bits added to its core, the status unchanged, and no
    counter of another core touched. *)
Lemma statistics_of_message nm bits mseo ts addr a :
  nm_coreId nm < DQR_MAXCORES -> body_matches (nm_tcode nm) (nm_body nm) = true ->
  exists a', updateTraceInfo nm bits mseo ts addr a = Some a' /\
    an_status a' = an_status a /\
    an_all a' num_trace_msgs_all_cores = u32 (an_all a num_trace_msgs_all_cores + 1) /\
    an_core a' (nm_coreId nm) trace_bits = u32 (an_core a (nm_coreId nm) trace_bits + bits) /\
    forall k c, k <> nm_coreId nm -> an_core a' k c = an_core a k c.
Proof.
  intros Hk Hm. destruct (updateTraceInfo_ok nm bits mseo ts addr a Hk Hm) as (a' & E & Hs).
  exists a'. split; [done|]. split; [done|]. by apply (updateTraceInfo_totals _ _ _ _ _ _ _ E).
Qed.

Lemma statistics_of_message_witness :
  exists a', updateTraceInfo (exNm exBody) 88 22 0 36 newAnalytics = Some a' /\
    an_status a' = DQERR_OK /\ an_all a' num_trace_msgs_all_cores = 1 /\
    an_core a' 0 trace_bits = 88 /\ forall k c, k <> 0 -> an_core a' k c = 0.
Proof. apply (statistics_of_message (exNm exBody) 88 22 0 36 newAnalytics); reflexivity. Defined.

(** The loop over a history counts every branch below the stop bit, but
    starting from [taken = -1] it reports one taken branch too few: taken and not
    taken add up to one less than the branches of the history. *)
Lemma history_statistics h :
  0 < h < 2 ^ 64 ->
  let l := outcomes (Z.to_nat (Z.log2 h)) h in
  histLoop 64 h (-1) (-1) 0 =
    (Z.log2 h - 1, count_outcomes true l - 1, count_outcomes false l) /\
  count_outcomes true l + count_outcomes false l = Z.log2 h.
Proof.
  intros Hh. cbn zeta. pose proof (Z.log2_nonneg h).
  assert (Z.log2 h < 64) by (apply Z.log2_lt_pow2; lia). split.
  - rewrite histLoop_spec by lia.
    by replace (-1 + Z.log2 h) with (Z.log2 h - 1) by lia;
      replace (-1 + count_outcomes true (outcomes (Z.to_nat (Z.log2 h)) h))
        with (count_outcomes true (outcomes (Z.to_nat (Z.log2 h)) h) - 1) by lia.
  - rewrite count_outcomes_total, length_outcomes. lia.
Qed.

Lemma history_statistics_witness :
  histLoop 64 0xb5 (-1) (-1) 0 = (6, 3, 3) /\ 4 + 3 = 7.
Proof. apply (history_statistics 0xb5). split; reflexivity. Defined.

(** ** Counts and the call stack *)

(** C36: the return address stack is a list of at most [n] addresses: any sequence of
    calls of [push], [pop] and [reset] on a new [AddrStack] of size [n] returns what
    the same calls on the list return, 1 for an address that does not fit and -1 where
    there is none, and leaves the addresses of the list on the stack. *)
Theorem stack_refines n cs : 0 <= n ->
  callsOf (listCall n) cs [] =
    (contents (callsOf stackCall cs (newAddrStack n)).1, (callsOf stackCall cs (newAddrStack n)).2).
Proof.
  intros Hn. destruct (newAddrStack_ok n Hn) as [Hok Hc]. rewrite <-Hc. by apply (stack_calls cs (newAddrStack n)).
Qed.

Lemma stack_refines_witness :
  (callsOf stackCall [Push 5; Push 6; Push 7; Pop; Reset_; Pop] (newAddrStack 2)).2 = [0; 0; 1; 6; 0; ADDRESS_NONE].
Proof.
  pose proof (stack_refines 2 [Push 5; Push 6; Push 7; Pop; Reset_; Pop] ltac:(discriminate)) as H.
  symmetry. apply (f_equal snd H).
Defined.

(** C37: however the counts of a core are set and consumed, a history, a taken
    count and a not-taken count are never in use together, and the history cursor
    stays below the stop bit. *)
Theorem counts_exclusive c : rtc count_step newCoreCounts c -> counts_inv c.
Proof.
  assert (forall c0 c, rtc count_step c0 c -> counts_inv c0 -> counts_inv c) as H.
  { induction 1 as [|c0 c1 c2 Hs _ IH]; [done|]. intros Hc. apply IH. by eapply count_step_inv. }
  intros Hr. apply (H _ _ Hr), newCoreCounts_inv.
Qed.

Lemma counts_exclusive_witness : counts_inv (set_hist 0xb5 6 newCoreCounts).
Proof.
  apply counts_exclusive. apply (rtc_l _ _ (set_hist 0xb5 6 newCoreCounts)); [|apply rtc_refl].
  exists (OpSetHistory 0xb5). split; [split; [discriminate|reflexivity]|].
  left. vm_compute. reflexivity.
Defined.

(** C38: a history word of up to 31 branches, set and then consumed until it is
    used up, yields the outcome of every branch in order, the bits below the stop
    bit from the most significant one down, and then no more. *)
Theorem history_read_back h c :
  countsBusy c = false -> 0 < h < 2 ^ 32 ->
  (setHistory h ≫= fun _ => consumeAll 33) c =
    Ok (set_hist h (-1) c) (outcomes (Z.to_nat (Z.log2 h)) h).
Proof. apply setHistory_consumeAll. Qed.

Lemma history_read_back_witness :
  (setHistory 0xb5 ≫= fun _ => consumeAll 33) newCoreCounts =
    Ok (set_hist 0xb5 (-1) newCoreCounts) [false; true; true; false; true; false; true].
Proof. apply (history_read_back 0xb5 newCoreCounts); [reflexivity|split; reflexivity]. Defined.

(** Of a longer history, the branch at bit 31 always counts as taken,
    because the mask [1 << 31] is sign extended over the stop bit, and a branch
    above bit 31 is an undefined shift. *)
Lemma long_history_misread c :
  (cc_histBit c = 31 -> 2 ^ 32 <= cc_history c < 2 ^ 64 -> isTaken c = Some true) /\
  (32 <= cc_histBit c -> isTaken c = None).
Proof. split; [apply isTaken_31|apply isTaken_32]. Qed.

(** 32 branches, none of them taken. *)
Lemma long_history_misread_witness :
  isTaken (set_hist (2 ^ 32) 31 newCoreCounts) = Some true /\
  isTaken (set_hist (2 ^ 33) 32 newCoreCounts) = None.
Proof.
  split.
  - apply (proj1 (long_history_misread (set_hist (2 ^ 32) 31 newCoreCounts)));
      [reflexivity|split; vm_compute; [discriminate|reflexivity]].
  - apply (proj2 (long_history_misread (set_hist (2 ^ 33) 32 newCoreCounts))). vm_compute. discriminate.
Defined.

(** C24: [setCounts] on an idle core with a history message sets the count and
    the history together, with the cursor at the first branch. *)
Lemma setCounts_history nm i h c :
  messageCounts nm = Some (inr (Some (i, h, 0, 0))) -> 0 < h < 2 ^ 64 ->
  countsBusy c = false -> - 2 ^ 31 <= cc_i_cnt c + i < 2 ^ 31 ->
  setCounts nm c = Ok (set_hist h (Z.log2 h - 1) (set_i_cnt (cc_i_cnt c + i) c)) tt.
Proof. apply setCounts_spec. Qed.

Lemma setCounts_history_witness :
  setCounts (exNm exBody2) newCoreCounts = Ok (set_hist 0xb5 6 (set_i_cnt 12 newCoreCounts)) tt.
Proof.
  apply (setCounts_history (exNm exBody2) 12 0xb5 newCoreCounts); try reflexivity; vm_compute;
    split; try reflexivity; discriminate.
Defined.

(** ** Instruction decoding *)

Definition exInst : Inst := unknownInst 0.

(** C39: every jump, call, return and branch of the base and of the compressed
    instruction set, assembled from registers and an offset of its range, is decoded
    as that instruction with its registers and its offset, on RV32 and on RV64; only
    the register of a compressed branch is cut to two bits. *)
Theorem assembled_decoded x a d :
  a = 32 \/ a = 64 -> asm_ok a x -> decodeInstruction (assemble x) a d = (0, instOf x).
Proof. apply decode_assembled. Qed.

Lemma assembled_decoded_witness :
  decodeInstruction (assemble (CBranch true 6 (-2))) 64 exInst =
    (0, mkInst 16 INST_C_BNEZ 2 REG_unknown (-2) true).
Proof. apply (assembled_decoded (CBranch true 6 (-2)) 64 exInst); [by right|split; [lia|by split]]. Defined.

(** [decodeInstructionSize] and [decodeInstruction] agree: on the size of
    every instruction, and on refusing those longer than 32 bits. *)
Lemma decoders_agree_on_size i a d :
  a = 32 \/ a = 64 ->
  match decodeInstructionSize i with
  | Some n => fst (decodeInstruction i a d) = 0 /\ in_size (snd (decodeInstruction i a d)) = n
  | None => decodeInstruction i a d = (1, d)
  end.
Proof. apply decode_size. Qed.
