(* ===== verification/Companions.v ===== *)
(** * Theorems: the parts beside the decoder

    Printed text ([ITCPrint]), cycle-accurate traces ([CATrace]), performance counters
    ([PerfConverter]) and the server of the software trace (src/swt.cpp), with a
    witness at a concrete input for each theorem. *)

From S2P Require Import Prelude Nexus Analytics Decode Encode RoundTrip Perf PerfWriter PerfTrip ItcPrint ItcQueue ItcText Cycles CyclesRead Swt SwtTrip.

(** ** Printed text *)

Section text.
Context (sprintf : list Z -> list Z -> list Z) (badArgs : Z -> list Z -> list Z).

End text.



(** ** Cycle-accurate traces *)

(** C16: the calls of [CATrace::consume] on an instruction trace that was just opened
    give the pipe and the cycle of each set bit of its blocks of 32 words, in the
    order of the cycles, whatever the file holds; and then [DQERR_EOF] for ever. *)
Theorem ca_instructions_in_order unset content g c0 tys :
  exists c, newCATrace content CATRACE_INSTRUCTION g c0 = Ok c tt /\
  consumeEach unset tys c = (inr <$> take (length tys) (instructionEvents content)) ++
    replicate (length tys - length (instructionEvents content)) (inl DQERR_EOF).
Proof. apply consume_new. Qed.

(** ** Performance counters *)

(** C32: [PerfConverter] reads back what the tracing library of the example programs
    writes.  Tracing is turned on and the calls are traced, of functions at even addresses, with
    counters of 48 bits, and with raw counts or with exclusive ors of counters that do not run
    backwards: every write is consumed,
    whatever its time, and the lines are the definitions of the counters and then, for
    each call, its address and the values of its counters; only the line of the very
    last count may still be missing.  With raw counts the addresses are those of the
    calls.  With exclusive ors they are not: the converter takes each address for the
    exclusive or with the one before ([fromLast]), but the library writes it as it
    is. *)
Theorem perf_read_back cf core channel other en calls p : config_ok cf -> 0 <= core < DQR_MAXCORES ->
  0 <= channel < 2 ^ 30 - 1 -> pw_countType cf = perfCount_Raw \/ pw_countType cf = perfCount_DeltaXOR ->
  length p = 32%nat -> Forall (call_ok cf) calls -> readings_ok cf (fun _ => 0) calls ->
  exists t, program cf en calls {| pw_prevCntrVal := Some p; pw_writes := [] |} = Ok t tt /\
  forall ms, ms.*2 = pw_writes t ->
  exists pc o, convert core channel ms (newPerfConverter channel (pw_markerVal cf) other) = Ok pc (length ms) /\
    (pc_lines pc).*2 ++ option_list o = headLines cf ++ linesFrom cf 0 calls.
Proof. apply trip_values. Qed.

Definition exPerfConfig : PerfConfig := {|
  pw_markerVal := 1885696614; pw_countType := perfCount_DeltaXOR; pw_cntrMask := 5;
  pw_cntrLst := [{| pe_type := 0; pe_code := 1; pe_event_data := 0; pe_ctrInfo := 257024 |}; noEvent;
                 {| pe_type := 2; pe_code := 0; pe_event_data := 2 ^ 40 + 3; pe_ctrInfo := 162818 |}];
  pw_cntrWrapVal := replicate 32 0; pw_masterTsControl := 0; pw_xlen := 64 |}.
Definition exReading (x : Z) : Counters := {| en_hpm := fun i => x + i; en_ts := 0 |}.
Definition exCalls : list Call :=
  [(exReading 10, perfRecord_FuncEnter, 2 ^ 33 + 64, 128); (exReading (2 ^ 35), perfRecord_FuncExit, 2 ^ 33 + 64, 128)].

(** The second call: the addresses are changed by those before, the counters are right. *)
Lemma perf_read_back_witness :
  exists t, program exPerfConfig (exReading 0) exCalls {| pw_prevCntrVal := Some (replicate 32 0); pw_writes := [] |} =
    Ok t tt /\
  forall ms, ms.*2 = pw_writes t ->
  exists pc o, convert 3 6 ms (newPerfConverter 6 1885696614 unsetCore) = Ok pc (length ms) /\
    (pc_lines pc).*2 ++ option_list o =
      [L_cntType 2; L_cntrMask 5; L_cntrDef 0 0 1 0 257024; L_cntrDef 2 2 0 (2 ^ 40 + 3) 162818;
       L_fnEntry (2 ^ 33 + 64) (2 ^ 33 + 192); L_cntr (2 ^ 33 + 64) 0 10; L_cntr (2 ^ 33 + 64) 2 12;
       L_fnExit 128 0; L_cntr 0 0 (2 ^ 35); L_cntr 0 2 (2 ^ 35 + 2)].
Proof.
  apply (perf_read_back exPerfConfig 3 6 unsetCore (exReading 0) exCalls (replicate 32 0)).
  - split; [split; [discriminate|reflexivity]|split; discriminate|by right|].
    apply List.Forall_cons; [|apply List.Forall_cons; [|apply List.Forall_nil]];
      (split; [vm_compute; lia|split; split; vm_compute; (reflexivity || discriminate)]).
  - split; [discriminate|reflexivity].
  - split; [discriminate|reflexivity].
  - by right.
  - reflexivity.
  - repeat (apply List.Forall_cons; [vm_compute; repeat split; (reflexivity || discriminate)|]). apply List.Forall_nil.
  - assert (cntrsFrom (pw_cntrMask exPerfConfig) 0 = [0; 2]) as Hjs by (vm_compute; reflexivity).
    cbn [readings_ok exCalls]. rewrite Hjs. cbn [In exReading en_hpm].
    split; [|split; [|exact I]]; intros i Hi; destruct Hi as [<-|[<-|[]]];
      (split; [vm_compute; split; (reflexivity || discriminate)|intros _; vm_compute; discriminate]).
Defined.

(** ** The server of the software trace *)

(** C17: a listener that joins a stream anywhere hears every data acquisition message
    that is sent after the first end of a message it sees.  Whatever the bytes before were, as
    long as the last of them ends a message: it takes them, and then hears all messages; or
    what it does of them is undefined, and then they have a message of type 7 with ten slices
    or more before the one that ends its first field ([buf_to_u64] shifts the bits of a tag that is
    wider than 64 bits too far).  There is no third case. *)
Theorem swt_joined sb noise b ms : 0 <= sb <= 64 -> Z.testbit b 1 = true ->
  Forall (fun m => let '(core, b, ts) := m in encodable sb core b ts = true) ms ->
  match feed (noise ++ [b]) (newNexusStream sb) with
  | Ok u out => exists u', feed ((noise ++ [b]) ++ encode_all sb ms) (newNexusStream sb) =
      Ok u' (out ++ concat ((fun m => let '(core, b, ts) := m in heard sb core b ts) <$> ms))
  | Undef => wideTag (noise ++ [b])
  | Err _ _ | NoFuel => False
  end.
Proof.
  intros Hsb Hb Hms. destruct (feed_total sb (noise ++ [b]) Hsb [] _ (new_hearing sb)) as [(u & out & E)|[E Hw]]; rewrite E; [|done].
  by apply (feed_joined sb noise b out u ms).
Qed.

Definition exSent : list (Z * Body * option Z) :=
  [(1, B_dataAcquisition 3 65, None); (0, B_sync 0 0x800 SYNC_TRACE_ENABLE, Some 4); (2, B_dataAcquisition 0 (2 ^ 31), Some 77)].

Lemma swt_joined_witness :
  exists u, feed ([5; 200; 2; 8; 17] ++ [255] ++ encode_all 2 exSent) (newNexusStream 2) =
    Ok u (concat ((fun m => let '(core, b, ts) := m in heard 2 core b ts) <$> exSent)).
Proof.
  assert (exists u, feed ([5; 200; 2; 8; 17] ++ [255]) (newNexusStream 2) = Ok u []) as [u E] by (eexists; vm_compute; reflexivity).
  assert (Forall (fun m => let '(core, b, ts) := m in encodable 2 core b ts = true) exSent) as Hms.
  { repeat (apply List.Forall_cons; [vm_compute; reflexivity|]). apply List.Forall_nil. }
  pose proof (swt_joined 2 [5; 200; 2; 8; 17] 255 exSent ltac:(lia) eq_refl Hms) as H. rewrite E in H. exact H.
Defined.
(** C31: the bytes that [NexusDataAcquisitionMessageBuilder] makes of a message without a
    timestamp, whatever was built before, are those of the encoding that the decoder
    reads back. *)
Theorem swt_builder_encodes srcbits src itcIdx size data ts cur off pre :
  0 <= srcbits <= 16 -> 0 <= src < 2 ^ srcbits -> size = 1 \/ size = 2 \/ size = 4 ->
  0 <= data < 2 ^ (8 * size) ->
  addDataAcquisitionMessage srcbits src itcIdx size data false ts
    {| bd_curslice := cur; bd_cursliceOffset := off; bd_slices := pre |} =
  Ok {| bd_curslice := 0; bd_cursliceOffset := 2;
        bd_slices := pre ++ encode srcbits src (B_dataAcquisition (tagOf itcIdx size) data) None |} tt.
Proof. apply builder_encodes. Qed.

Lemma swt_builder_encodes_witness :
  addDataAcquisitionMessage 3 5 2 2 0xbeef false 0
    {| bd_curslice := 9; bd_cursliceOffset := 4; bd_slices := [1; 2] |} =
  Ok {| bd_curslice := 0; bd_cursliceOffset := 2;
        bd_slices := [1; 2] ++ encode 3 5 (B_dataAcquisition 10 0xbeef) None |} tt.
Proof.
  apply (swt_builder_encodes 3 5 2 2 0xbeef 0 9 4 [1; 2]); [lia|lia|by right; left|split; [done|reflexivity]].
Defined.

(** C34: as soon as there is a client, handing it a message or the bytes of the serial
    device is undefined: [withholding] is assigned through the iterator after it has
    moved on, in the end through that of the end of the list. *)
Theorem swt_queue_undefined serialized bytes msg cs :
  cs <> [] -> queueSerialBytesToClients bytes cs = Undef /\ queueMessageToClients serialized msg cs = Undef.
Proof.
  intros H. unfold queueSerialBytesToClients, queueMessageToClients. rewrite !bind_get.
  split; apply queueTo_undef; (lia || by destruct cs; cbn; [|lia]).
Qed.

Lemma swt_queue_undefined_witness :
  let cs := [newIoConnection] in
  queueSerialBytesToClients [1] cs = Undef /\
  queueMessageToClients (fun _ => []) (tagged 2 0 0) cs = Undef.
Proof. apply swt_queue_undefined. discriminate. Defined.
