(* ===== verification/Theorems.v ===== *)
(** * Theorems: the decoder as a whole.

    From the bytes of a trace to the instructions of the execution, with a witness
    at a concrete input for each theorem.  They are proved from the lemmas of the
    component files. *)

From S2P Require Import Prelude Nexus Slices Source Framing Analytics Messages Encode RoundTrip.
From S2P Require Import Counts Decode Memory NextAddr Walk Perf State Process Retire ItcPrint Cycles NextInstr Execution.
From S2P Require Import Reconstruct Termination.

(** ** A concrete decoder *)

(** No kernel memory, no converter, no ITC print, no cycle-accurate trace; the
    disassembler knows nothing but the address. *)
#[local] Instance exKernel : CodeMemory unit := fun _ _ => throw DQERR_ERR.
#[local] Instance exKernel_laws : CodeMemoryLaws unit.
Proof. by exists (fun _ => True). Defined.
#[local] Instance exPerf : PerfSink unit := fun _ _ _ _ => mret false.
#[local] Instance exItc : ItcSink unit := fun _ _ _ _ => mret false.
#[local] Instance exCycles : CycleTrace unit := {|
  consume := fun _ => throw DQERR_EOF; rewind := mret tt; getCATraceStartAddr := fun _ => 0 |}.

Definition exInfo (addr : Z) : InstInfo := {|
  ii_coreId := 0; ii_pid := 0; ii_prv := 0; ii_CRFlag := 0; ii_brFlags := BRFLAG_none;
  ii_address := addr; ii_instSize := 0; ii_instruction := 0; ii_timestamp := 0; ii_caFlags := 0;
  ii_pipeCycles := 0; ii_VIStartCycles := 0; ii_VIFinishCycles := 0; ii_depths := None |}.
#[local] Instance exDisassembly : Disassembly unit unit := {|
  disassemble := fun _ addr => mret (exInfo addr); kernelDisassemble := fun _ => throw DQERR_ERR |}.

(** At [0x1000]: [c.nop; beq a0, a1, +8; jal ra, +16; jr a0], and at [0x1016]:
    [c.nop; ret]. *)
Definition halves (i : Z) : list Z := [i mod 2 ^ 16; i / 2 ^ 16].
Definition exCode : list Z :=
  [1] ++ halves (asmBranch 0 10 11 8) ++ halves (asmJAL 1 16) ++ halves (asmJALR 0 10 0) ++
  [0; 0; 0; 0; 1; asmCR 0 1].
Definition exReader : ElfReader := {|
  er_status := DQERR_OK; er_archSize := 32;
  er_codeSectionLst := [{| cs_startAddr := 0x1000; cs_endAddr := 0x1019; cs_vmaOffset := 0;
                           cs_code := exCode |}] |}.
Definition exWalker : Walker (TraceMem unit) := {|
  wk_status := DQERR_OK; wk_traceType := TRACETYPE_BTM; wk_currentCore := 0; wk_archSize := 32;
  wk_counts := replicate 1 newCoreCounts;
  wk_mem := {| tm_kMem := None; tm_readers := [exReader]; tm_currentElfReader := [Some 0%nat] |} |}.
Definition exCore : CoreState := {|
  co_currentAddress := 0; co_lastFaddr := 0; co_lastTime := 0; co_state := TRACE_STATE_GETFIRSTSYNCMSG;
  co_prevMsgWasSync := false; co_currentPid := 0; co_currentPrv := 0; co_currentProcessIndex := 0;
  co_currentDisassembler := Some 0%nat; co_enterISR := isNone |}.
Definition exTrace : Trace unit unit := {|
  tr_walker := exWalker; tr_cores := [exCore];
  tr_processes := [{| pr_pid := -1; pr_elfName := true; pr_ctf := false; pr_eventConverter := false;
                      pr_perfConverter := None |}];
  tr_settings := {| se_pidList := []; se_eventConvert := false; se_tsSize := 40;
                    se_bitsPerAddress := 64; se_linuxTrace := false; se_tolerateErrors := false;
                    se_eventFilterMask := 0 |};
  tr_nm := newNexusMessage; tr_readNewTraceMessage := true; tr_tolerantError := false;
  tr_emitted := [] |}.
Definition exDecoder (bytes : list Z) : Decoder unit unit File unit unit unit := {|
  de_trace := exTrace;
  de_sfp := Some (newSliceParser 2 (replicate 64 0)
                    {| f_rest := bytes; f_pos := 0; f_ioerr := false |});
  de_analytics := newAnalytics; de_instructionInfo := exInfo 0; de_disassembler := tt;
  de_itcPrint := None; de_caTrace := None; de_syncCount := 0; de_caSyncAddr := 0;
  de_lastCycle := [0]; de_eCycleCount := [0]; de_out := noOut |}.

(** From [0x1000]: the branch is not taken, a call and a return, and the jump goes
    to [0x1002]; there the branch is taken, and the jump is cut short by an
    exception to [0x1000]. *)
Definition exSegments : list Segment :=
  [{| sg_count := 5; sg_outs := [false]; sg_target := 0x1002; sg_btype := BTYPE_INDIRECT; sg_time := Some 120 |};
   {| sg_count := 1; sg_outs := [true]; sg_target := 0x1000; sg_btype := BTYPE_EXCEPTION; sg_time := Some 150 |}].
Definition exUninit : Inst := unknownInst 0.
Definition exRun : list (Z * Body * option Z) * list Expected :=
  default ([], []) (trace (program exUninit 0 (exDecoder [])) STACK_SIZE 0 0x1000 [] isNone 100 exSegments).
Definition exFirst : Z * Body * option Z := (0, B_sync 0 (0x1000 / 2) SYNC_TRACE_ENABLE, Some 100).
Definition exBytes : list Z := encode_all 2 (exFirst :: fst exRun).


(** ** From bytes to instructions *)

(** C2: the decoder reconstructs an execution.  A trace file holds the encodings of
    a sync message at [addr] and of one history message for each segment of an
    execution of a program in the code memory, of which every instruction is described: by the
    disassembler of the first process, or by the memory of the kernel where that is.  Then the calls of
    [NextInstruction] return exactly the instructions of that execution, in order,
    each with its address, its call, return and branch flags and the time, and each
    message with the last instruction it reports; all of them return [DQERR_OK], and
    what follows in the file is left. *)
Theorem trace_reconstructed {K Perf D I CA : Type} `{!CodeMemory K} `{!CodeMemoryLaws (TraceMem K)}
    `{!PerfSink Perf} `{!Disassembly K D} `{!ItcSink I} `{!CycleTrace CA}
    (uninit : Inst) (converterStatus : Z -> DQErr) (et_controlIndex uninitAddr : Z)
    (core sb cap : Z) (fuel : nat) (rest : list Z) (segs : list Segment)
    (prog : Z -> option Inst) (Inv : D -> Prop)
    (d : Decoder K Perf File D I CA) (i addr : Z) (sy : SyncReason) (ts : option Z)
    (ms : list (Z * Body * option Z)) (xs : list Expected) :
  let first := (core, B_sync i (addr / 2) sy, ts) in
  unstarted et_controlIndex core sb cap (encode_all sb (first :: ms) ++ rest) d ->
  part_of uninit core prog d -> describes core prog Inv d ->
  Forall (fun m => let '(c, b, ts) := m in encodable sb c b ts = true) (first :: ms) ->
  trace prog cap core addr [] isNone (default 0 ts) segs = Some (ms, xs) ->
  segments_ok (default 0 ts) segs = true -> 0 < addr < 2 ^ 64 -> addr mod 2 = 0 ->
  0 < se_tsSize (tr_settings (de_trace d)) < 64 ->
  match ts with Some t => t < 2 ^ se_tsSize (tr_settings (de_trace d)) | None => True end ->
  (length (encode_all sb (first :: ms) ++ rest) + 2 < fuel)%nat ->
  exists d' l p',
    calls uninit converterStatus et_controlIndex uninitAddr fuel (S (length xs)) d = Ok d' l /\
    Forall2 (given core)
      ({| ex_inst := None; ex_msg := Some (B_sync i (addr / 2) sy, ts, addr, default 0 ts) |} :: xs) l /\
    de_sfp d' = Some p' /\ stream p' = rest.
Proof. apply reconstruct. Qed.

Lemma exBare bytes : bare_metal 0 0 (exDecoder bytes).
Proof. split; try done; try (by eexists); vm_compute; lia. Defined.

Lemma exUnstarted bytes : unstarted 0 0 2 STACK_SIZE bytes (exDecoder bytes).
Proof.
  split; try done; try (by left).
  - apply exBare.
  - eexists. split; [reflexivity|]. split; [by apply newSliceParser_ok|]. done.
  - eexists. by split; [reflexivity|].
  - exists newCoreCounts, []. split; [reflexivity|]. split; try done; try (cbn; lia);
      by apply newAddrStack_ok.
Defined.

Lemma exDescribes bytes : describes 0 (program exUninit 0 (exDecoder [])) (fun _ => True) (exDecoder bytes).
Proof.
  split; [done|]. intros m x addr _ Hc _ _. unfold describes_at, kernelAt. destruct (tm_kMem m) as [[start []]|] eqn:E; [|by eexists _, _].
  destruct (Z.leb_spec start addr); [|by eexists _, _]. rewrite (code_kMem m start tt) in Hc by done. by destruct Hc.
Defined.

Lemma exEncodable :
  Forall (fun m => let '(c, b, ts) := m in encodable 2 c b ts = true) (exFirst :: fst exRun).
Proof.
  assert (forallb (fun m => let '(c, b, ts) := m in encodable 2 c b ts) (exFirst :: fst exRun) = true)
    as H by (vm_compute; reflexivity).
  rewrite List.forallb_forall in H. apply Forall_forall. intros [[c b] ts] Hm.
  exact (H _ Hm).
Defined.

(** The calls of the example: the sync message, and eight instructions. *)
Lemma trace_reconstructed_witness :
  exists d' l p',
    calls exUninit (fun _ => DQERR_OK) 0 0 100 9 (exDecoder (exBytes ++ [7])) = Ok d' l /\
    Forall2 (given 0)
      [{| ex_inst := None; ex_msg := Some (B_sync 0 0x800 SYNC_TRACE_ENABLE, Some 100, 0x1000, 100) |};
       {| ex_inst := Some (0x1000, 0, BRFLAG_none, 100); ex_msg := None |};
       {| ex_inst := Some (0x1002, 0, BRFLAG_notTaken, 100); ex_msg := None |};
       {| ex_inst := Some (0x1006, isCall, BRFLAG_none, 100); ex_msg := None |};
       {| ex_inst := Some (0x1016, 0, BRFLAG_none, 100); ex_msg := None |};
       {| ex_inst := Some (0x1018, isReturn, BRFLAG_none, 100); ex_msg := None |};
       {| ex_inst := Some (0x100a, 0, BRFLAG_none, 100);
          ex_msg := Some (B_indirectHistory 9 1 BTYPE_INDIRECT 2, Some 28, 0x1002, 120) |};
       {| ex_inst := Some (0x1002, 0, BRFLAG_taken, 120); ex_msg := None |};
       {| ex_inst := Some (0x100a, 0, BRFLAG_none, 120);
          ex_msg := Some (B_indirectHistory 4 1 BTYPE_EXCEPTION 3, Some 238, 0x1000, 150) |}] l /\
    de_sfp d' = Some p' /\ stream p' = [7].
Proof.
  apply (trace_reconstructed exUninit (fun _ => DQERR_OK) 0 0 0 2 STACK_SIZE 100 [7] exSegments
           (program exUninit 0 (exDecoder [])) (fun _ => True)
           (exDecoder (exBytes ++ [7])) 0 0x1000 SYNC_TRACE_ENABLE (Some 100) (fst exRun) (snd exRun)).
  - apply exUnstarted.
  - by intros pc i.
  - apply exDescribes.
  - apply exEncodable.
  - vm_compute. reflexivity.
  - reflexivity.
  - lia.
  - reflexivity.
  - vm_compute. split; reflexivity.
  - vm_compute. reflexivity.
  - vm_compute. lia.
Defined.

(** C4: one message.  From a state with nothing left of the counts, a message with
    a count and a history, and the segment of an execution it reports: taking the
    counts and calling [nextAddr] for each instruction gives the addresses and the
    flags of the execution, and uses up the counts exactly. *)
Theorem segment_followed {Mem} `{!CodeMemory Mem} `{!CodeMemoryLaws Mem} uninit core nm prog cap st
    (w : Walker Mem) i h n pc path pc' st' :
  walking uninit core prog cap st [] 0 w -> messageCounts nm = Some (inr (Some (i, h, 0, 0))) ->
  0 < h < 2 ^ 32 -> i < 2 ^ 31 ->
  refRun prog cap n pc st (outcomes (Z.to_nat (Z.log2 h)) h) = Some (path, i, pc', st', []) ->
  exists w', segment uninit core nm n pc w = Ok w' path /\ walking uninit core prog cap st' [] 0 w'.
Proof. apply segment_follows. Qed.

Definition exHistoryNm : NexusMessage :=
  set_body (B_indirectHistory 9 1 BTYPE_INDIRECT 2)
    (set_head TCODE_INDIRECTBRANCHHISTORY 0 newNexusMessage).
Definition exHistory : Walker (TraceMem unit) := set_traceType TRACETYPE_HTM exWalker.
Definition exProgram : Z -> option Inst := programOf exUninit 0 32 (wk_mem exWalker).

Lemma exWalking : walking exUninit 0 exProgram STACK_SIZE [] [] 0 exHistory.
Proof.
  split; try done; [by left| |].
  - by apply (programOf_holds exUninit exHistory).
  - exists newCoreCounts. split; [by split|]. split; try done; try (cbn; lia); by apply newAddrStack_ok.
Defined.

Lemma segment_followed_witness :
  exists w', segment exUninit 0 exHistoryNm 6 0x1000 exHistory =
      Ok w' [(0x1002, isNone, BRFLAG_none); (0x1006, isNone, BRFLAG_notTaken);
             (0x1016, isCall, BRFLAG_none); (0x1018, isNone, BRFLAG_none);
             (0x100a, isReturn, BRFLAG_none); (ADDRESS_NONE, isNone, BRFLAG_none)] /\
    walking exUninit 0 exProgram STACK_SIZE [] [] 0 w'.
Proof.
  eapply (segment_followed exUninit 0 exHistoryNm exProgram STACK_SIZE [] exHistory 9 2 6 0x1000).
  - apply exWalking.
  - reflexivity.
  - split; reflexivity.
  - reflexivity.
  - vm_compute. reflexivity.
Defined.

(** ** The end of a trace *)

(** C21: at the end of the file the call returns [DQERR_EOF] and no result, and so
    does every later call, without changing the state any more. *)
Theorem end_of_trace {K Perf D I CA : Type} `{!CodeMemory K} `{!PerfSink Perf} `{!Disassembly K D}
    `{!ItcSink I} `{!CycleTrace CA} (uninit : Inst) (converterStatus : Z -> DQErr)
    (et_controlIndex uninitAddr : Z) (wantInst wantMsg wantSrc : bool) fuel
    (d : Decoder K Perf File D I CA) p c cc :
  de_sfp d = Some p -> at_eof p -> wk_status (tr_walker (de_trace d)) = DQERR_OK ->
  tr_readNewTraceMessage (de_trace d) = true -> here_is c cc (de_trace d) ->
  let Next := NextInstruction uninit converterStatus et_controlIndex uninitAddr wantInst wantMsg wantSrc in
  exists d', Next (S fuel) d = Ok d' DQERR_EOF /\ de_out d' = noOut /\
    forall fuel', Next fuel' d' = Ok d' DQERR_EOF.
Proof. apply NextInstruction_eof. Qed.

Lemma end_of_trace_witness :
  exists d', NextInstruction exUninit (fun _ => DQERR_OK) 0 0 true true true 1 (exDecoder []) =
      Ok d' DQERR_EOF /\ de_out d' = noOut /\
    forall fuel', NextInstruction exUninit (fun _ => DQERR_OK) 0 0 true true true fuel' d' = Ok d' DQERR_EOF.
Proof.
  eapply (end_of_trace exUninit (fun _ => DQERR_OK) 0 0 true true true 0 (exDecoder [])).
  - reflexivity.
  - by split.
  - reflexivity.
  - reflexivity.
  - apply (Build_here_is exCore newCoreCounts); [discriminate|reflexivity|by split].
Defined.

(** C13: a call of [NextInstruction] on a file returns, whatever the file and the state
    are, unless errors are tolerated: it reads at most one message, and goes through
    its states in one direction.  So as many turns are enough as there are bytes left,
    and four. *)
Theorem call_returns {K Perf D I CA : Type} `{!CodeMemory K} `{!PerfSink Perf} `{!Disassembly K D}
    `{!ItcSink I} `{!CycleTrace CA} `{!Ending K Perf D I CA} (uninit : Inst)
    (converterStatus : Z -> DQErr) (et_controlIndex uninitAddr : Z) (wantInst wantMsg wantSrc : bool)
    fuel (d : Decoder K Perf File D I CA) p :
  de_sfp d = Some p -> frame_ok p -> se_tolerateErrors (tr_settings (de_trace d)) = false ->
  (length (pending (sp_source p)) + 3 < fuel)%nat ->
  NextInstruction uninit converterStatus et_controlIndex uninitAddr wantInst wantMsg wantSrc fuel d <> NoFuel.
Proof. apply NextInstruction_returns. Qed.

#[local] Instance exEnding : Ending unit unit unit unit unit.
Proof. by split. Defined.

Lemma exFrame_ok bytes : frame_ok (newSliceParser 2 (replicate 64 0)
  {| f_rest := bytes; f_pos := 0; f_ioerr := false |}).
Proof. by apply newSliceParser_ok. Defined.

Lemma call_returns_witness :
  NextInstruction exUninit (fun _ => DQERR_OK) 0 0 true true false 9 (exDecoder [1; 2; 3; 255; 7]) <> NoFuel.
Proof. eapply call_returns; [reflexivity|apply exFrame_ok|reflexivity|apply Nat.lt_succ_diag_r]. Defined.

(** C22: when errors are tolerated, a call on a file whose next message is longer than 64
    bytes does not return: no number of turns is enough.  The parser keeps the error,
    and answers it again without reading. *)
Theorem overlong_message_hangs {K Perf D I CA : Type} `{!CodeMemory K} `{!PerfSink Perf} `{!Disassembly K D}
    `{!ItcSink I} `{!CycleTrace CA} (uninit : Inst) (converterStatus : Z -> DQErr)
    (et_controlIndex uninitAddr : Z) (wantInst wantMsg wantSrc : bool)
    fuel (d : Decoder K Perf File D I CA) p rest :
  de_sfp d = Some p -> frame_ok p -> sp_status p = DQERR_OK -> next_frame (stream p) = FLong rest ->
  wk_status (tr_walker (de_trace d)) = DQERR_OK -> tr_readNewTraceMessage (de_trace d) = true ->
  se_tolerateErrors (tr_settings (de_trace d)) = true -> is_Some (tr_processes (de_trace d) !! 0%nat) ->
  (length (pending (sp_source p)) < fuel)%nat ->
  NextInstruction uninit converterStatus et_controlIndex uninitAddr wantInst wantMsg wantSrc fuel d = NoFuel.
Proof. apply NextInstruction_hangs. Qed.

(** A file of slices that never end a message. *)
Definition exTolerant : Decoder unit unit File unit unit unit :=
  set_trace {| tr_walker := exWalker; tr_cores := tr_cores exTrace; tr_processes := tr_processes exTrace;
               tr_settings := {| se_pidList := []; se_eventConvert := false; se_tsSize := 40;
                                 se_bitsPerAddress := 64; se_linuxTrace := false; se_tolerateErrors := true;
                                 se_eventFilterMask := 0 |};
               tr_nm := newNexusMessage; tr_readNewTraceMessage := true; tr_tolerantError := false;
               tr_emitted := [] |} (exDecoder (replicate 70 4)).

Lemma overlong_message_hangs_witness :
  NextInstruction exUninit (fun _ => DQERR_OK) 0 0 true true false 200 exTolerant = NoFuel.
Proof.
  eapply overlong_message_hangs; try reflexivity.
  - apply exFrame_ok.
  - by eexists.
  - vm_compute. lia.
Defined.

(** After an error every call returns the code of the error, gives no result
    and leaves the decoder as it is. *)
Lemma errors_are_final {K Perf Src D I CA : Type} `{!CodeMemory K} `{!PerfSink Perf}
    `{!ByteSource Src} `{!Disassembly K D} `{!ItcSink I} `{!CycleTrace CA} (uninit : Inst)
    (converterStatus : Z -> DQErr) (et_controlIndex uninitAddr : Z) (wantInst wantMsg wantSrc : bool)
    fuel (d : Decoder K Perf Src D I CA) p :
  de_sfp d = Some p -> wk_status (tr_walker (de_trace d)) <> DQERR_OK ->
  NextInstruction uninit converterStatus et_controlIndex uninitAddr wantInst wantMsg wantSrc fuel d =
    Ok (set_out noOut d) (wk_status (tr_walker (de_trace d))).
Proof. apply NextInstruction_stuck. Qed.

Definition exFailed : Decoder unit unit File unit unit unit :=
  set_trace (set_walker (set_wstatus DQERR_ERR exWalker) exTrace) (exDecoder [1; 2; 3]).

Lemma errors_are_final_witness :
  NextInstruction exUninit (fun _ => DQERR_OK) 0 0 true true false 5 exFailed =
    Ok (set_out noOut exFailed) DQERR_ERR.
Proof. eapply (errors_are_final exUninit (fun _ => DQERR_OK) 0 0 true true false 5 exFailed);
  [reflexivity|discriminate]. Defined.

(** ** Retiring messages *)

(** C19: a message with a full address sets the address and the last address of its
    core to it, and the time to its full timestamp; it empties the return address
    stack and the counts, and changes nothing else. *)
Theorem sync_retired {K Perf : Type} `{!CodeMemory K} `{!PerfSink Perf} uninit converterStatus
    (c : CoreState) (cc : CoreCounts) (t : Trace K Perf) a time :
  here_is c cc t -> nm_coreId (tr_nm t) = currentCore t -> process_ok c t ->
  fullAddress (tr_nm t) = Some a -> getCurrentCountType cc = COUNTTYPE_none ->
  newTime c t TS_full = Some time ->
  processTraceMessage uninit converterStatus t =
    Ok (put_here (synced time a c) (resetCounts (set_stack (resetStack (cc_stack cc)) cc)) t) false.
Proof. intros. by apply processTraceMessage_sync. Qed.

Definition exRetire (b : Body) : Trace unit unit :=
  set_nm (set_body b (set_head (body_tcode b) 0 newNexusMessage)) exTrace.

Lemma exHere t : here_is exCore newCoreCounts (set_nm t exTrace).
Proof. split; [discriminate|reflexivity|by split]. Defined.

Lemma sync_retired_witness :
  processTraceMessage exUninit (fun _ => DQERR_OK) (exRetire (B_sync 0 0x800 SYNC_TRACE_ENABLE)) =
    Ok (put_here (synced 0 0x800 exCore)
          (resetCounts (set_stack (resetStack (newAddrStack STACK_SIZE)) newCoreCounts))
          (exRetire (B_sync 0 0x800 SYNC_TRACE_ENABLE))) false.
Proof.
  apply (sync_retired exUninit (fun _ => DQERR_OK) exCore newCoreCounts
           (exRetire (B_sync 0 0x800 SYNC_TRACE_ENABLE)) 0x800 0).
  - apply exHere.
  - reflexivity.
  - right. by eexists.
  - reflexivity.
  - reflexivity.
  - reflexivity.
Defined.

(** C20: an indirect branch message carries the exclusive or of the last address and
    the target, without the low bit: once its counts are used up, the core is at
    the target, and the counts and the stack are not touched. *)
Theorem indirect_retired {K Perf : Type} `{!CodeMemory K} `{!PerfSink Perf} uninit converterStatus
    (c : CoreState) (cc : CoreCounts) (t : Trace K Perf) target time :
  here_is c cc t -> nm_coreId (tr_nm t) = currentCore t -> process_ok c t ->
  diffAddress (tr_nm t) = Some (Z.lxor (co_lastFaddr c) target / 2) ->
  0 < co_lastFaddr c < 2 ^ 64 -> co_lastFaddr c mod 2 = 0 ->
  0 <= target < 2 ^ 64 -> target mod 2 = 0 ->
  getCurrentCountType cc = COUNTTYPE_none -> newTime c t TS_rel = Some time ->
  processTraceMessage uninit converterStatus t =
    Ok (put_here (set_prevMsgWasSync false (set_currentAddress target (set_lastFaddr target
                    (set_lastTime time c)))) cc t) false.
Proof.
  intros Ht Hnm Hp Ha Hl Hle Htg Hte Hc Hn.
  rewrite (processTraceMessage_diff uninit converterStatus c cc t Ht Hnm Hp _ time Ha Hc Hn).
  unfold relocated. destruct (Z.eqb_spec (co_lastFaddr c) 0); [lia|]. by rewrite lxor_address by lia.
Qed.

Definition exMoving : CoreState := set_lastFaddr 0x1000 exCore.
Definition exIndirect : Trace unit unit :=
  set_cores [exMoving] (exRetire (B_indirectBranch 3 (Z.lxor 0x1000 0x2008 / 2) BTYPE_INDIRECT)).

Lemma indirect_retired_witness :
  processTraceMessage exUninit (fun _ => DQERR_OK) exIndirect =
    Ok (put_here (set_prevMsgWasSync false (set_currentAddress 0x2008 (set_lastFaddr 0x2008
                    (set_lastTime 0 exMoving)))) newCoreCounts exIndirect) false.
Proof.
  apply (indirect_retired exUninit (fun _ => DQERR_OK) exMoving newCoreCounts exIndirect 0x2008 0).
  - split; [discriminate|reflexivity|by split].
  - reflexivity.
  - right. by eexists.
  - reflexivity.
  - split; reflexivity.
  - reflexivity.
  - split; [discriminate|reflexivity].
  - reflexivity.
  - reflexivity.
  - reflexivity.
Defined.

(** C23: a full timestamp of [s] bits gives the time back, if less than [2 ^ s] have
    gone by since the last one, across any number of wraps of the low bits. *)
Theorem full_timestamp s last time :
  0 < s < 64 -> 0 <= last <= time -> time < last + 2 ^ s -> time < 2 ^ 64 ->
  processTS s TS_full last (time mod 2 ^ s) = Some time.
Proof. apply processTS_full_spec. Qed.

Lemma full_timestamp_witness : processTS 40 TS_full (2 ^ 41 - 5) ((2 ^ 41 + 7) mod 2 ^ 40) = Some (2 ^ 41 + 7).
Proof.
  apply (full_timestamp 40 (2 ^ 41 - 5) (2 ^ 41 + 7)); try (split; reflexivity); try reflexivity.
  split; discriminate.
Defined.

(** A relative timestamp, the exclusive or with the last time, gives the time
    back, unless the last time is 0, which stands for an unknown time. *)
Lemma relative_timestamp s last time :
  (0 < last <= time -> processTS s TS_rel last (Z.lxor last time) = Some time) /\
  processTS s TS_rel 0 (Z.lxor 0 time) = Some 0.
Proof. split; [apply processTS_rel_spec|done]. Qed.

Lemma relative_timestamp_witness : processTS 40 TS_rel 100 (Z.lxor 100 120) = Some 120.
Proof. apply (relative_timestamp 40 100 120). lia. Defined.

(** An address of [n] bits is extended with its sign to 64 bits. *)
Lemma address_extended n a :
  1 <= n <= 64 -> 0 <= a < 2 ^ n ->
  signExtendAddr n a = Some (u64 (if a <? 2 ^ (n - 1) then a else a - 2 ^ n)).
Proof. apply signExtendAddr_spec. Qed.

Lemma address_extended_witness : signExtendAddr 39 (2 ^ 38 + 16) = Some (2 ^ 64 - 2 ^ 38 + 16).
Proof. apply (address_extended 39 (2 ^ 38 + 16)); [lia|split; [discriminate|reflexivity]]. Defined.

(** A reset of all cores leaves no error, and every core waiting for a message
    with a full address, without counts; but the return address stacks keep what
    they hold. *)
Lemma reset_restarts {K Perf : Type} `{!CodeMemory K} `{!PerfSink Perf} core (t : Trace K Perf) p :
  core < 0 -> tr_processes t !! 0%nat = Some p ->
  exists t', resetTrace core t = Ok t' tt /\
    wk_status (tr_walker t') = DQERR_OK /\ tr_readNewTraceMessage t' = true /\
    Forall waiting (tr_cores t') /\ length (tr_cores t') = length (tr_cores t) /\
    Forall (fun cc => getCurrentCountType cc = COUNTTYPE_none) (wk_counts (tr_walker t')) /\
    cc_stack <$> wk_counts (tr_walker t') = cc_stack <$> wk_counts (tr_walker t).
Proof. apply resetTrace_all. Qed.
