(* ===== verification/Objects.v ===== *)
(** * Theorems: object files, settings and mapping files

    What [ObjDump] (src/dqr.cpp) makes of the text that it reads through a pipe from
    the external objdump, and what [TraceSettings::addSettings] and the parser of mapping files
    (src/trace.cpp) make of the texts they are given, with a witness at a concrete text for each
    theorem. *)

From stdpp Require Import strings functions.
From Stdlib Require Import Ascii.
From Stdlib Require String.
From S2P Require Import Prelude Nexus NextAddr Memory ObjDump ObjDumpText ObjDumpPrint ObjDumpRead ObjCode Symbols SrcFiles ElfFile.
From S2P Require Import Cycles CText PropFile Settings SettingsRead Maps MapsRead Disasm Described.

(** C5: a disassembly that objdump prints is read back.  Whatever the pieces are in
    which a pipe gives the text of a dump, [parseObjDump] succeeds, with the width of
    its addresses, its sections of code in front of those read before, and its symbols,
    each with its section and the file that it is local to; and at the address of each
    printed instruction [ElfReader::getInstructionByAddress] then gives that
    instruction, as long as the instructions lie in their sections without overlapping. *)
Theorem dump_fetched fuel vmaOffset d p s :
  dump_ok fuel d -> layout_ok vmaOffset d -> Forall sized (od_store s) -> holds p (dumpText d) ->
  exists s' l, parseObjDump fuel vmaOffset 0 0 (set_pipe p s) = Ok s' tt /\
    od_archSize s' = (if d_64 d then 64 else 32) /\
    od_codeSectionLst s' = l ++ od_codeSectionLst s /\ places (od_store s') l (kept vmaOffset d) /\
    od_symLst s' = rev (symbolsOf vmaOffset (od_store s') l (d_symbols d) None) ++ od_symLst s /\
    forall b pad k a long v gap text, b ∈ d_blocks d -> DL_inst pad k a long v gap text ∈ db_lines b ->
    forall r, er_codeSectionLst r = codeSections (od_store s') (od_codeSectionLst s') ->
    elfInstructionByAddress (u64 (a + vmaOffset)) r = Ok (set_er_status DQERR_OK r) v.
Proof.
  intros Hd Hl Hs Hp. destruct (dump_read vmaOffset d fuel p s Hd Hl Hs Hp) as (s' & E & Hr).
  exists s', (od_sp s'). pose proof (rd_arch _ _ _ _ Hr). pose proof (rd_sections _ _ _ _ Hr). pose proof (rd_places _ _ _ _ Hr).
  pose proof (rd_symbols _ _ _ _ Hr). split_and!; try done. intros b pad k a long v gap text Hb Hin r Er.
  destruct (line_marked _ _ Hin (None, 0)) as [[f line] Hm].
  apply (shows_fetch r _ _ _ long v text f line Er). by apply (rd_code _ _ _ _ Hr b pad k a long v gap text f line).
Qed.

(** A dump of two sections of which one has code, at an address that is moved by 0x1000. *)
Definition exDump : Dump := {|
  d_64 := true; d_file := chars "a.elf";
  d_sections := [
    {| ds_index := 0; ds_name := chars ".text"; ds_pad := 9; ds_size := 6; ds_vma := 0x10078; ds_lma := 0x10078;
       ds_off := 0x78; ds_align := ("2**1", 2)%string; ds_flags := [("CONTENTS", sect_CONTENTS); ("CODE", sect_CODE)]%string |};
    {| ds_index := 1; ds_name := chars ".data"; ds_pad := 9; ds_size := 16; ds_vma := 0x11078; ds_lma := 0x11078;
       ds_off := 0x178; ds_align := ("2**3", 8)%string; ds_flags := [("DATA", sect_DATA)]%string |}];
  d_symbols := [
    {| dy_address := 0; dy_flags := chars "l    df"; dy_section := chars "*ABS*"; dy_size := 0; dy_name := chars "a.c" |};
    {| dy_address := 0x10078; dy_flags := chars "g     F"; dy_section := chars ".text"; dy_size := 6; dy_name := chars "main" |}];
  d_blocks := [
    {| db_name := chars ".text"; db_lines := [
      DL_label 0x10078 (chars "main"); DL_func (chars "main"); DL_source (chars "/home/a.c") 2 12;
      DL_inst 3 5 0x10078 false 0x1141 16 (chars "addi	sp,sp,-16");
      DL_source (chars "/home/a.c") 2 13;
      DL_inst 3 5 0x1007a true 0x00b50533 10 (chars "add	a0,a0,a1"); DL_dots] |}];
|}.

Definition exReader : Pipe := {| pp_buffer := []; pp_reads := [] |}.
Definition exState : ObjDump := {|
  od_pipe := exReader; od_eType := elfType_32_little; od_sp := []; od_archSize := 0; od_store := [];
  od_codeSectionLst := []; od_symLst := []; od_srcFiles := [] |}.

(** The text in pieces of 64 characters. *)
Fixpoint pieces (n : nat) (l : list ascii) : list (option (list ascii)) :=
  match n, l with
  | S n, _ :: _ => Some (take 64 l) :: pieces n (drop 64 l)
  | _, _ => []
  end.
Definition exPipe : Pipe := {| pp_buffer := []; pp_reads := pieces 30 (dumpText exDump) |}.


(** The conditions on a dump are decidable. *)
#[export] Instance ElfSection_eq_dec : EqDecision ElfSection.
Proof. solve_decision. Defined.
#[export] Instance section_ok_dec fuel w d : Decision (section_ok fuel w d).
Proof. unfold section_ok. apply _. Defined.
#[export] Instance symbol_ok_dec w d : Decision (symbol_ok w d).
Proof. unfold symbol_ok. apply _. Defined.
#[export] Instance line_ok_dec w l : Decision (line_ok w l).
Proof. destruct l; cbn [line_ok]; apply _. Defined.
#[export] Instance block_ok_dec fuel w b : Decision (block_ok fuel w b).
Proof. unfold block_ok. apply _. Defined.
#[export] Instance dump_ok_dec fuel d : Decision (dump_ok fuel d).
Proof.
  unfold dump_ok. assert (Decision (d_blocks d <> [])) by (destruct (d_blocks d); [right|left]; auto). apply _.
Defined.
#[export] Instance inside_dec k a long : Decision (inside k a long).
Proof. unfold inside. apply _. Defined.
#[export] Instance block_inside_dec N b : Decision (block_inside N b).
Proof.
  unfold block_inside. destruct (N _); [|apply _].
  assert (forall k l, Decision (lineInside k l)) by (intros k []; cbn [lineInside]; apply _). apply _.
Defined.
#[export] Instance instruction_fits_dec vmaOffset d name l : Decision (instruction_fits vmaOffset d name l).
Proof. destruct l; cbn [instruction_fits]; try apply _. unfold rightLength. destruct long; apply _. Defined.
#[export] Instance layout_ok_dec vmaOffset d : Decision (layout_ok vmaOffset d).
Proof. unfold layout_ok. apply _. Defined.

Lemma exDump_ok : dump_ok 32 exDump.
Proof. apply (bool_decide_unpack _). by vm_compute. Defined.
Lemma exLayout_ok : layout_ok 0x1000 exDump.
Proof. apply (bool_decide_unpack _). by vm_compute. Defined.
Lemma exPipe_holds : holds exPipe (dumpText exDump).
Proof.
  split; [|by vm_compute]. vm_compute. repeat (apply List.Forall_cons; [by eexists _, _|]). apply List.Forall_nil.
Defined.
Lemma exState_sized : Forall sized (od_store exState).
Proof. apply List.Forall_nil. Defined.

Lemma dump_fetched_witness :
  match parseObjDump 32 0x1000 0 0 (set_pipe exPipe exState) with
  | Ok s' _ => forall r, er_codeSectionLst r = codeSections (od_store s') (od_codeSectionLst s') ->
      elfInstructionByAddress 0x11078 r = Ok (set_er_status DQERR_OK r) 0x1141 /\
      elfInstructionByAddress 0x1107a r = Ok (set_er_status DQERR_OK r) 0x00b50533
  | _ => False
  end.
Proof.
  destruct (dump_fetched 32 0x1000 exDump exPipe exState exDump_ok exLayout_ok exState_sized exPipe_holds)
    as (s' & l & -> & _ & _ & _ & _ & H).
  intros r Hr. split.
  - apply (H _ 3%nat 5%nat 0x10078 false 0x1141 16%nat (chars "addi	sp,sp,-16") (list_elem_of_here _ _)); [|done].
    do 3 apply list_elem_of_further. apply list_elem_of_here.
  - apply (H _ 3%nat 5%nat 0x1007a true 0x00b50533 10%nat (chars "add	a0,a0,a1") (list_elem_of_here _ _)); [|done].
    do 5 apply list_elem_of_further. apply list_elem_of_here.
Defined.

(** ** The description of an address *)

(** C6: the disassembler tells what objdump printed.  A dump whose symbols lie in its
    sections is read by a new [ElfReader] and sealed, and then a [Disassembler] on it
    describes every printed instruction, in any order and any number of times: its
    address, its size, its encoding and its text, the name of its symbol and the distance
    to it, and, if a source line was printed before it, that file, its name made sane,
    that line and its text.  The symbol is the first, in the order of
    [symCompareFunc], of those that cover the address. *)
Theorem dump_described `{!Qsort} `{!QsortLaws} fuel garbage vmaOffset d reads :
  dump_ok fuel d -> layout_ok vmaOffset d -> symbols_ok vmaOffset d ->
  holds {| pp_buffer := []; pp_reads := reads |} (dumpText d) ->
  exists f0 f t, newElfReader fuel garbage vmaOffset (Some (ExecPipe reads)) = Ok f0 tt /\ seal f0 = Ok f tt /\
    ef_status f = DQERR_OK /\ ef_bitsPerAddress f = Some (if d_64 d then 64 else 32) /\ ef_symtab f = Some t /\
  forall contents g cut root pt d0,
    Disassembler_subSrcPath cut root (setPathType pt (newDisassembler g t (sectionsOf f))) = Ok d0 tt ->
  exists I : Disassembler -> Prop, I d0 /\
    forall ds b pad k a long v gap text fName line, I ds -> b ∈ d_blocks d ->
    (DL_inst pad k a long v gap text, (fName, line)) ∈ marked (None, 0) (db_lines b) ->
    let addr := u64 (a + vmaOffset) in let symbol := symbolOf d0 addr in addr <> 0 ->
    exists ds', disassembleAt contents addr ds = Ok ds' tt /\ I ds' /\
      ds_instruction ds' = shownOf addr (if long then 32 else 16) v (Some text) symbol /\
      (is_Some fName -> ds_source ds' = sourceOf contents (ds_fileReader d0) pt fName line symbol) /\
      match symbol with
      | Some x => x ∈ st_symLst t /\ covers addr x = true /\
          forall y, y ∈ st_symLst t -> covers addr y = true -> y = x \/ symCompareFunc x y <= 0
      | None => forall y, y ∈ st_symLst t -> covers addr y = false
      end.
Proof.
  intros Hd Hl Hs Hh. destruct (reader_new vmaOffset d fuel garbage reads Hd Hl Hh) as (s' & Hr & E0).
  destruct (reader_sealed vmaOffset d fuel (dumpOf [] elfType_32_little (emptyImage garbage)) s' Hd Hl Hs eq_refl Hr) as (f & t & store' & E & Hst & Hbits & Et & Ht & Hn & _ & Est & Elst).
  assert (sectionsOf f = sectionsAt store' (od_codeSectionLst s')) as Hsec by (unfold sectionsOf; by rewrite Est, Elst).
  eexists _, f, t. split; [exact E0|]. split_and!; [done..|]. intros contents g cut root pt d0 E1.
  assert (d0 = set_pType pt (set_fileReader (subSrcPath cut root newFileReader) (newDisassembler g t (sectionsOf f)))) as ->
    by (by injection E1 as <-). clear E1. set (d0 := set_pType _ _).
  set (syms := rev _) in Ht.
  exists (fun ds => dis_ok contents (od_store s') syms ds /\ dis_same d0 ds). split; [split; [by apply dis_new|apply dis_same_refl]|].
  intros ds b pad k a long v gap text fName line [Hok Hsame] Hb Hm addr symbol Ha.
  destruct (shows_named _ _ _ _ _ _ _ _ _ Hn (rd_code _ _ _ _ Hr b pad k a long v gap text fName line Hb Hm))
    as (fName' & line' & Hsh & Hkeep & Hshort). rewrite <-Hsec in Hsh. change (sectionsOf f) with (ds_sectionLst d0) in Hsh.
  rewrite <-(dm_sections _ _ Hsame) in Hsh.
  assert (Forall (line_ok (width d)) (db_lines b)) as Hlines.
  { destruct Hd as (_ & _ & _ & _ & _ & _ & _ & Hb2 & _). rewrite List.Forall_forall in Hb2. apply Hb2. by apply list_elem_of_In. }
  assert (rightLength long v) as Hlen.
  { destruct Hl as (_ & _ & Hf). rewrite List.Forall_forall in Hf. specialize (Hf b ltac:(by apply list_elem_of_In)).
    rewrite List.Forall_forall in Hf. apply (Hf (DL_inst pad k a long v gap text)). by apply list_elem_of_In, (marked_line _ _ _ _ Hm). }
  destruct (instruction_described contents _ _ addr long v text fName' line' ds Hok Ha Hsh Hlen) as (ds' & E1 & Hok' & Hsame' & Hi & Hso).
  { apply Hshort. by apply (marked_short _ _ _ _ Hlines (None, 0) I Hm). }
  rewrite (symbolOf_same d0 ds addr Hsame) in Hi, Hso. exists ds'. split; [done|].
  split; [split; [done|by apply (dis_same_trans d0 ds)]|]. split; [done|]. split.
  - intros Hfn. destruct (Hkeep Hfn) as [-> ->]. rewrite Hso, (dm_pType _ _ Hsame).
    by apply sourceOf_paths; [apply (dm_cut _ _ Hsame)|apply (dm_root _ _ Hsame)].
  - apply (symbolOf_spec contents (od_store s') syms addr d0); [by apply dis_new|done].
Qed.

#[export] Instance symbol_fits_dec vmaOffset d x : Decision (symbol_fits vmaOffset d x).
Proof. unfold symbol_fits. destruct (keptNamed _ _ _), x as [? [?|]]; apply _. Defined.
#[export] Instance symbols_ok_dec vmaOffset d : Decision (symbols_ok vmaOffset d).
Proof.
  unfold symbols_ok. assert (Decision (d_symbols d <> [])) by (destruct (d_symbols d); [right|left]; auto). apply _.
Defined.
Lemma exSymbols_ok : symbols_ok 0x1000 exDump.
Proof. apply (bool_decide_unpack _). by vm_compute. Defined.

Definition exGarbage : Shown * SourceInfo :=
  ({| sh_address := 0; sh_instSize := 0; sh_instruction := 0; sh_instructionText := None; sh_addressLabel := None;
      sh_addressLabelOffset := 0 |}, noSource).
(** One file, of two lines. *)
Definition exContents (name : list ascii) : option (list ascii) :=
  if bool_decide (name = chars "/home/a.c") then Some (chars "int main" ++ ["010"%char] ++ chars "}") else None.

Lemma dump_described_witness :
  match newElfReader 32 7 0x1000 (Some (ExecPipe (pieces 30 (dumpText exDump)))) with
  | Ok f0 _ =>
      match seal f0 with
      | Ok f _ =>
          exists t, ef_symtab f = Some t /\
          match Disassembler_subSrcPath None None (setPathType PATH_TO_UNIX (newDisassembler exGarbage t (sectionsOf f))) with
          | Ok d0 _ => exists ds, disassembleAt exContents 0x1107a d0 = Ok ds tt /\
              ds_instruction ds = shownOf 0x1107a 32 0x00b50533 (Some (chars "add	a0,a0,a1")) (symbolOf d0 0x1107a)
          | _ => False
          end
      | _ => False
      end
  | _ => False
  end.
Proof.
  destruct (dump_described 32 7 0x1000 exDump (pieces 30 (dumpText exDump)) exDump_ok exLayout_ok exSymbols_ok exPipe_holds)
    as (f0 & f & t & -> & -> & _ & _ & Et & H). exists t. split; [done|].
  destruct (Disassembler_subSrcPath None None _) as [d0 []|?|?|] eqn:E; try done.
  destruct (H exContents exGarbage None None PATH_TO_UNIX d0 E) as (J & H0 & HJ).
  edestruct (HJ d0 _ 3%nat 5%nat 0x1007a true 0x00b50533 10%nat (chars "add	a0,a0,a1") (Some (chars "/home/a.c")) 13
    H0 (list_elem_of_here _ _)) as (ds & E1 & _ & E2 & _).
  - do 5 apply list_elem_of_further. apply list_elem_of_here.
  - done.
  - exists ds. by split.
Defined.

(** C28: between the first and the last symbol of a section of which no symbol has a
    size, the symbol of an address is one that is the nearest before it: the table is made of
    any list of such symbols, whatever sort [qsort] is. *)
Theorem nearest_symbol `{!Qsort} `{!QsortLaws} store k v syms addr : 0 <= v -> is_Some (store !! k) ->
  Forall (plainSym k v) syms -> 0 < addr < 2 ^ 64 ->
  (exists x, x ∈ syms /\ sy_address x + v <= addr) -> (exists z, z ∈ syms /\ addr < sy_address z + v) ->
  exists t t' p x, newSymtab store syms = Some t /\ lookupSymbolByAddress addr t = Ok t' (Some p) /\ syms !! p = Some x /\
    sy_address x + v <= addr /\ forall y, y ∈ syms -> sy_address y + v <= addr -> sy_address y <= sy_address x.
Proof.
  intros Hv Hk Hp Ha Hx Hz. destruct (newSymtab_ok store syms) as (t & E & Ht).
  - apply (list.Forall_impl _ _ _ Hp). intros y (_ & _ & _ & Ev & Hy & Hy2). unfold lowSym. rewrite Ev. lia.
  - apply (list.Forall_impl _ _ _ Hp). intros y (Es & _). unfold placed. by rewrite Es.
  - destruct (nearest_found store k v syms Hv Hp t Ht addr Ha Hx Hz) as (t' & p & x & E2 & _ & Hpx & H1 & H2).
    exists t, t', p, x. by split_and!.
Qed.

Definition exSym (name : String.string) (a : Z) : Sym := {|
  sy_name := chars name; sy_flags := symLocal; sy_section := Some 0%nat; sy_vmaOffset := 16; sy_address := a; sy_size := 0;
  sy_srcFile := None |}.
Lemma nearest_symbol_witness :
  exists t t' p, newSymtab [emptySection (chars ".text") 0 99 16 sect_CODE 100 0 2] [exSym "c" 80; exSym "a" 0; exSym "b" 40] = Some t /\
    lookupSymbolByAddress 70 t = Ok t' (Some p) /\ p = 2%nat.
Proof.
  destruct (nearest_symbol [emptySection (chars ".text") 0 99 16 sect_CODE 100 0 2] 0 16
    [exSym "c" 80; exSym "a" 0; exSym "b" 40] 70) as (t & t' & p & x & E1 & E2 & Ex & H1 & H2).
  - done.
  - by eexists.
  - repeat (apply List.Forall_cons; [by repeat split|]). apply List.Forall_nil.
  - done.
  - exists (exSym "a" 0). split; [do 1 apply list_elem_of_further; apply list_elem_of_here|done].
  - exists (exSym "c" 80). split; [apply list_elem_of_here|done].
  - exists t, t', p. split_and!; [done..|].
    specialize (H2 (exSym "b" 40) ltac:(do 2 apply list_elem_of_further; apply list_elem_of_here) ltac:(done)).
    destruct p as [|[|[|p]]]; cbn in Ex; (apply (inj Some) in Ex as <- || done); cbn in H1, H2; lia || done.
Defined.

(** ** Paths *)

(** C29: [sanePath] takes an absolute path, with slashes of either kind, to the one that
    it means: empty parts and dots are dropped, each [..] takes the part before it away, as
    long as it does not leave the root, the separators are those of the type of path, and
    the last part stays as it is. *)
Theorem path_made_sane pt c dirs last ds : pt <> PATH_RAW -> slash c = true ->
  Forall (fun d => name d.1 = true /\ slash d.2 = true) dirs -> name last = true -> enterAll [] dirs.*1 = Some ds ->
  sanePath pt (c :: pathText dirs last) = concat (cons (separator pt) <$> rev ds) ++ separator pt :: last.
Proof. intros. by rewrite (sanePath_absolute pt c dirs last ds), rendered_text, <-app_assoc. Qed.

Lemma path_made_sane_witness :
  sanePath PATH_TO_UNIX (chars "/home/./a//b/../src\main.c") = chars "/home/a/src/main.c".
Proof.
  change (chars "/home/./a//b/../src\main.c") with ("/"%char :: pathText
    [(chars "home", "/"%char); (chars ".", "/"%char); (chars "a", "/"%char); ([], "/"%char); (chars "b", "/"%char);
     (chars "..", "/"%char); (chars "src", "\"%char)] (chars "main.c")).
  rewrite (path_made_sane PATH_TO_UNIX "/"%char _ (chars "main.c") [chars "src"; chars "a"; chars "home"]);
    [done|done|done| |done|by vm_compute].
  repeat (apply List.Forall_cons; [done|]). apply List.Forall_nil.
Defined.

(** ** Settings and processes

    What [TraceSettings::addSettings] and the parser of mapping files (src/trace.cpp) make of the
    texts they are given, with a witness at a concrete text for each theorem. *)




(** C26: a mapping file is read as what it says.  Of the lines of a file, in the format of
    /proc/pid/maps, exactly those of executable mappings are returned, in order, each with its
    range of addresses, the file or, for [vdso], the blob, and the type that objdump is told; a
    digit 0 ends the name of the file.  But an executable mapping without a name, which is
    returned with an empty name, takes the line after it away ([linesSeen], trace.cpp:6620): what is on that
    line is not returned. *)
Theorem mappings_read_back archSize vdsoName l :
  Forall mapping_ok l -> Forall (arch_ok archSize vdsoName) l -> (length (default (chars "vdso") vdsoName) < 1024)%nat ->
  parseMappingFile archSize vdsoName (Some (mapsText l)) = Ok [NUL] (omap (entryOf archSize vdsoName) (linesSeen l)).
Proof. apply mappings_read. Qed.

(** A program, its data and its vdso, and code without a name, which hides the library after it. *)
Definition exMappings : list MapText := [
  {| mt_digits := 7; mt_start := 0x10000; mt_end := 0x12000; mt_r := true; mt_w := false; mt_x := true; mt_p := true;
     mt_offset := 0; mt_dev := chars "fd:00"; mt_inodeDigits := 2; mt_inode := 123; mt_gap := 5; mt_path := chars "/bin/a10" |};
  {| mt_digits := 7; mt_start := 0x12000; mt_end := 0x13000; mt_r := true; mt_w := true; mt_x := false; mt_p := true;
     mt_offset := 0; mt_dev := chars "00:00"; mt_inodeDigits := 0; mt_inode := 0; mt_gap := 5; mt_path := [] |};
  {| mt_digits := 7; mt_start := 0x20000; mt_end := 0x21000; mt_r := true; mt_w := false; mt_x := true; mt_p := true;
     mt_offset := 0; mt_dev := chars "00:00"; mt_inodeDigits := 0; mt_inode := 0; mt_gap := 5; mt_path := chars "[vdso]" |};
  {| mt_digits := 7; mt_start := 0x30000; mt_end := 0x31000; mt_r := true; mt_w := true; mt_x := true; mt_p := true;
     mt_offset := 0; mt_dev := chars "00:00"; mt_inodeDigits := 0; mt_inode := 0; mt_gap := 0; mt_path := [] |};
  {| mt_digits := 7; mt_start := 0x40000; mt_end := 0x41000; mt_r := true; mt_w := false; mt_x := true; mt_p := true;
     mt_offset := 0; mt_dev := chars "fd:00"; mt_inodeDigits := 2; mt_inode := 124; mt_gap := 5; mt_path := chars "/lib/c" |}].

Lemma mappings_read_back_witness :
  parseMappingFile 64 None (Some (mapsText exMappings)) = Ok [NUL] [
    {| me_name := chars "./bin/a1"; me_eType := elfType_64_little;
       me_map := {| am_isBlob := false; am_startAddr := 0x10000; am_endAddr := 0x12000 |} |};
    {| me_name := chars "vdso"; me_eType := elfType_64_binary;
       me_map := {| am_isBlob := true; am_startAddr := 0x20000; am_endAddr := 0x21000 |} |};
    {| me_name := []; me_eType := elfType_64_little;
       me_map := {| am_isBlob := false; am_startAddr := 0x30000; am_endAddr := 0x31000 |} |}].
Proof.
  apply (mappings_read_back 64 None exMappings).
  - do 5 (apply list.Forall_cons; split; [unfold mapping_ok; cbn -[Z.pow lt]; split_and!; done || lia|]). done.
  - do 5 (apply list.Forall_cons; split; [intros Hx; discriminate Hx || (by eexists)|]). done.
  - vm_compute. lia.
Defined.
