(* ===== verification/Runs.v ===== *)
(** * Theorems: from files to instructions

    What a [Trace] (src/trace.cpp) that is made from files returns for the execution that
    they are about, and the strings of an ELF file, with a witness at concrete files for
    each theorem. *)

From stdpp Require Import strings.
From Stdlib Require Import Ascii.
From Stdlib Require String.
From S2P Require Import Prelude Nexus Slices Source Framing Analytics Messages Encode RoundTrip Counts Decode Memory.
From S2P Require Import ObjDump ObjDumpText ObjDumpPrint ObjDumpRead ObjCode Symbols SrcFiles ElfFile.
From S2P Require Import NextAddr Walk Perf State Process ItcPrint Cycles NextInstr Disasm Described.
From S2P Require Import CText PropFile Settings SettingsRead Maps NlsStrings Configure Execution Reconstruct Whole.
From S2P Require Import Objects.

Section runs.
Context `{Q : !Qsort} `{L : !QsortLaws} (fuel kfuel : nat) (page : Z -> Exec) (kernelRest : InstInfo) (contents : list ascii -> option (list ascii)).
Context (uninit : Inst) (converterStatus : Z -> DQErr) (et_controlIndex uninitAddr unset : Z).
Context (sprintf : list Z -> list Z -> list Z) (badArgs : Z -> list Z -> list Z).

#[local] Instance noKernel : CodeMemory KMem := kernel_memory kfuel page.
#[local] Instance objectFiles : Disassembly KMem Disassemblers := Whole.disassembly kfuel page kernelRest contents.
#[local] Instance itcPrinter : ItcSink ITCPrint := printer sprintf badArgs.
#[local] Instance caTrace : CycleTrace CATrace := cycles unset.

(** C1: from files to instructions.  A properties file gives the settings of a bare-metal
    trace: a trace file and an object file.  objdump prints a dump for the object file, whose
    instructions lie in its sections without overlapping; the trace file holds the encodings of
    a sync message and of one history message for each segment of an execution of the
    printed program.  Then the constructor makes a [Trace], and the calls of
    [NextInstruction] on it return exactly that execution, each instruction with its
    address, flags and time, and leave the rest of the file. *)
Theorem trace_from_files (w : World File) g ls l fl dump core n rest segs i addr sy ts ms xs :
  let first := (core, B_sync i (addr / 2) sy, ts) in
  let s := effects l newTraceSettings in let sb := ts_num s srcBits in
  file_ok ls -> (length ls < fl)%nat -> Forall2 denotes (propsOf ls) l -> Forall setting_ok l ->
  oneSource l newTraceSettings -> itcConflict s = false ->
  bare_settings fuel w g s (encode_all sb (first :: ms) ++ rest) dump -> 0 <= core < DQR_MAXCORES ->
  Forall (fun m => let '(c, b, ts) := m in encodable sb c b ts = true) (first :: ms) ->
  trace (printed uninit dump) STACK_SIZE core addr [] isNone (default 0 ts) segs = Some (ms, xs) ->
  segments_ok (default 0 ts) segs = true -> 0 < addr < 2 ^ 64 -> addr mod 2 = 0 ->
  0 < ts_num s tsSize < 64 -> match ts with Some t => t < 2 ^ ts_num s tsSize | None => True end ->
  (length (encode_all sb (first :: ms) ++ rest) + 2 < n)%nat ->
  exists d d' out p', newTrace fuel et_controlIndex w g (Some (Content (SettingsRead.fileText ls))) fl = Ok tt d /\
    calls uninit converterStatus et_controlIndex uninitAddr n (S (length xs)) d = Ok d' out /\
    Forall2 (given core)
      ({| ex_inst := None; ex_msg := Some (B_sync i (addr / 2) sy, ts, addr, default 0 ts) |} :: xs) out /\
    de_sfp d' = Some p' /\ stream p' = rest.
Proof. apply trace_reconstructs. Qed.
End runs.

(** The settings: a trace and an object file, four sources, and no-load strings. *)
Definition exFiles : list PropText := [
  {| pt_body := PB_prop [] (chars "rtd") [] [] (chars "a.rtd") []; pt_end := End_LF |};
  {| pt_body := PB_prop [] (chars "elf") (chars " ") [] (chars "a.elf") (chars " # the program"); pt_end := End_LF |};
  {| pt_body := PB_prop [] (chars "srcbits") [] [] (chars "2") []; pt_end := End_LF |};
  {| pt_body := PB_prop [] (chars "trace.config.boolean.enable.itc.print.processing") [] [] (chars "true") []; pt_end := End_LF |}].
Definition exRunSettings : list Setting := [Set_name tfName (chars "a.rtd"); Set_name efName (chars "a.elf"); Set_num srcBits 2; Set_itcPrint true].

(** A no-load string, after the name of the compiler. *)
Definition exStrings : list NlsText := [
  NT_other (chars "GCC: 12");
  NT_format 3 [P_text "x"; P_text "="; P_conversion (chars "0l") "d"; P_percent; P_conversion [] "s"]].

(** Two instructions, an exception that goes back to the first of them, and the same again. *)
Definition exRunSegments : list Segment := [
  {| sg_count := 1; sg_outs := []; sg_target := 0x10078; sg_btype := BTYPE_EXCEPTION; sg_time := Some 120 |};
  {| sg_count := 1; sg_outs := []; sg_target := 0x10078; sg_btype := BTYPE_EXCEPTION; sg_time := Some 150 |}].
Definition exNoInst : Inst := unknownInst 0.
Definition exExecution : list (Z * Body * option Z) * list Expected :=
  default ([], []) (trace (printed exNoInst exDump) STACK_SIZE 0 0x10078 [] isNone 100 exRunSegments).
Definition exMessages : list (Z * Body * option Z) :=
  (0, B_sync 0 (0x10078 / 2) SYNC_TRACE_ENABLE, Some 100) :: exExecution.1.

Definition exWorld : World File := {|
  wo_openFile := fun name =>
    if bool_decide (name = chars "a.rtd")
    then inr {| f_rest := encode_all 2 exMessages ++ [7]; f_pos := 0; f_ioerr := false |} else inl DQERR_OPEN;
  wo_connect := fun _ => inl DQERR_ERR;
  wo_caFile := fun _ => None;
  wo_maps := fun _ => None;
  wo_objdump := fun _ name _ _ => if bool_decide (name = chars "a.elf") then ExecPipe (pieces 30 (dumpText exDump)) else ExecFailed;
  wo_elfSection := fun _ _ _ => inr (concat (nlsText <$> exStrings));
  wo_ctfStatus := fun _ => DQERR_ERR;
  wo_perfStatus := fun _ => DQERR_ERR;
|}.
Definition exInfo : InstInfo := {|
  ii_coreId := 9; ii_pid := 9; ii_prv := 9; ii_CRFlag := 9; ii_brFlags := BRFLAG_taken; ii_address := 9; ii_instSize := 9;
  ii_instruction := 9; ii_timestamp := 9; ii_caFlags := 9; ii_pipeCycles := 9; ii_VIStartCycles := 9; ii_VIFinishCycles := 9;
  ii_depths := None |}.
Definition exItem : CATraceQItem := {|
  cq_cycle := 9; cq_record := 9; cq_qDepth := 9; cq_arithInProcess := 9; cq_loadInProcess := 9; cq_storeInProcess := 9 |}.
Definition exGarbageAll : Garbage := {|
  ga_elf := (9, exGarbage); ga_msg := replicate 64 9;
  ga_ca := {| ct_status := DQERR_OK; ct_caType := CATRACE_NONE; ct_caBuffer := []; ct_caBufferIndex := 0; ct_blockRecNum := 0;
              ct_startAddr := 0; ct_catr := {| cr_offset := 0; cr_address := 0; cr_data := [] |}; ct_traceQOut := 0; ct_traceQIn := 0;
              ct_caTraceQ := None |};
  ga_caItem := exItem; ga_itc := 9;
  ga_perf := {| pf_state := perfStateError; pf_cntrMaskIndex := 9; pf_cntrMask := 9; pf_valuePending := true; pf_cntType := 9;
                pf_cntrType := 9; pf_cntrCode := 9; pf_cntrEventData := 9; pf_recordType := 9; pf_savedLow32 := 9;
                pf_lastAddress := 9; pf_cntrAddress := 9; pf_lastCount := None |};
  ga_info := exInfo |}.

Lemma exStrings_ok : Forall text_ok exStrings.
Proof.
  apply list.Forall_cons. split; [split; [by split_and!|done]|]. apply list.Forall_cons. split; [|done].
  split; [lia|]. split; [|cbn; lia]. repeat (apply list.Forall_cons; split; [done || (split; done) || (split; [done|by left; vm_compute]) || (split; [done|by right; vm_compute])|]). done.
Defined.

Lemma exBare_settings :
  bare_settings 32 exWorld exGarbageAll (effects exRunSettings newTraceSettings) (encode_all 2 exMessages ++ [7]) exDump.
Proof.
  split; try done.
  - exists (chars "a.rtd"). by split_and!.
  - exists (chars "a.elf"), (pieces 30 (dumpText exDump)). split; [done|]. split; [by vm_compute|]. split; [exact exPipe_holds|].
    right. exists exStrings. split; [exact exStrings_ok|done].
  - by left.
  - split; [apply exDump_ok|]. split; [apply (bool_decide_unpack _); by vm_compute|].
    split; [apply (bool_decide_unpack _); by vm_compute|]. by vm_compute.
Defined.

#[local] Instance exKernel : CodeMemory KMem := kernel_memory 0 (fun _ => ExecFailed).
#[local] Instance exObjects : Disassembly KMem Disassemblers := Whole.disassembly 0 (fun _ => ExecFailed) newInfo exContents.
#[local] Instance exPrinter : ItcSink ITCPrint := printer (fun _ _ => []) (fun _ _ => []).
#[local] Instance exCycles : CycleTrace CATrace := cycles 0.

Lemma trace_from_files_witness :
  exists d d' out p', newTrace 32 0 exWorld exGarbageAll (Some (Content (SettingsRead.fileText exFiles))) 5 = Ok tt d /\
    calls exNoInst (fun _ => DQERR_OK) 0 0 100 5 d = Ok d' out /\
    Forall2 (given 0)
      [{| ex_inst := None; ex_msg := Some (B_sync 0 0x803c SYNC_TRACE_ENABLE, Some 100, 0x10078, 100) |};
       {| ex_inst := Some (0x10078, 0, BRFLAG_none, 100); ex_msg := None |};
       {| ex_inst := Some (0x1007a, 0, BRFLAG_none, 100);
          ex_msg := Some (B_indirectHistory 3 0 BTYPE_EXCEPTION 1, Some 28, 0x10078, 120) |};
       {| ex_inst := Some (0x10078, isInterrupt, BRFLAG_none, 120); ex_msg := None |};
       {| ex_inst := Some (0x1007a, 0, BRFLAG_none, 120);
          ex_msg := Some (B_indirectHistory 3 0 BTYPE_EXCEPTION 1, Some 238, 0x10078, 150) |}] out /\
    de_sfp d' = Some p' /\ stream p' = [7].
Proof.
  apply (trace_from_files 32 0 (fun _ => ExecFailed) newInfo exContents exNoInst (fun _ => DQERR_OK) 0 0 0 (fun _ _ => []) (fun _ _ => [])
    exWorld exGarbageAll exFiles exRunSettings 5 exDump 0 100 [7] exRunSegments 0 0x10078 SYNC_TRACE_ENABLE (Some 100)
    exExecution.1 exExecution.2).
  - cbn. split_and!; try done; right; by split_and!.
  - cbn. lia.
  - repeat constructor; cbn; try done. apply (NT_dec 2 0). lia.
  - repeat constructor; cbn; done || lia.
  - left. split; [done|]. intros v Hv%list_elem_of_In. repeat destruct Hv as [Hv|Hv]; done.
  - by vm_compute.
  - exact exBare_settings.
  - done.
  - apply List.Forall_forall. intros [[c b] ts] Hm.
    assert (forallb (fun m => let '(c, b, ts) := m in encodable 2 c b ts) exMessages = true) as H by by vm_compute.
    rewrite List.forallb_forall in H. exact (H _ Hm).
  - by vm_compute.
  - done.
  - lia.
  - done.
  - by vm_compute.
  - by vm_compute.
  - vm_compute. lia.
Defined.

(** C27: the no-load strings of an ELF file are read as what they say.  In the section
    [.comment] texts that do not start with a number are skipped; every other one is an index
    and a format, of which the table then has the text, the number of arguments, and
    the mask of those that are signed; a string without one is as the table has it at first. *)
Theorem nls_strings_read section f sp l :
  List.find (fun s => strcmp (sc_name s) (chars ".comment")) (sectionsOf f) = Some sp ->
  section (sc_offset sp) (i32 (sc_size sp)) = inr (concat (nlsText <$> l)) -> Forall text_ok l ->
  parseNLSStrings section f = Ok tt (foldl addString noStrings l).
Proof.
  intros Hsp Hs Hl. unfold parseNLSStrings. change (omap _ _) with (sectionsOf f). rewrite Hsp, Hs.
  by apply nls_read; [done|lia|].
Qed.

Definition exComment : ElfFile := {|
  ef_status := DQERR_OK; ef_sealed := true; ef_bitsPerAddress := Some 64;
  ef_image := {| im_archSize := 64; im_store := [emptySection (chars ".comment") 0 31 0 0 32 64 0]; im_codeSectionLst := [0%nat];
                 im_symLst := []; im_srcFiles := [] |};
  ef_symtab := None |}.

Lemma nls_strings_read_witness :
  parseNLSStrings (fun _ _ => inr (concat (nlsText <$> exStrings))) exComment =
    Ok tt (<[3%nat := {| nl_nf := 2; nl_signedMask := 1; nl_format := Some (code_of <$> chars "x=%0ld%%%s") |}]> noStrings).
Proof.
  apply (nls_strings_read (fun _ _ => inr (concat (nlsText <$> exStrings))) exComment
    (emptySection (chars ".comment") 0 31 0 0 32 64 0) exStrings); [done|done|apply exStrings_ok].
Defined.
