(* ===== verification/Ctf.v ===== *)
(** * Calls and returns in the Common Trace Format (src/trace.cpp, [CTFConverter])

    For each core a stream of packets: a first one that tells the program, and then packets
    of calls and returns, which are collected in a buffer until it is full.  A file is the
    list of the bytes that were written to it. *)

From stdpp Require Import strings.
From Stdlib Require Import Ascii.
From Stdlib Require String.
From S2P Require Import Prelude Nexus Analytics ObjDump SrcFiles State.

(** ** The structures that are written, in little-endian order *)

Fixpoint le (n : nat) (x : Z) : list Z :=
  match n with O => [] | S n => x mod 256 :: le n (x / 256) end.

(** [CTF::event_type] *)
Definition event_funcEntry : Z := 1.
Definition event_funcExit : Z := 2.
Definition event_stateDumpStart : Z := 3.
Definition event_stateDumpBinInfo : Z := 4.
Definition event_stateDumpEnd : Z := 7.
Definition event_extended : Z := 0xffff.

(** The header of an event is a union of two forms; an id of 0xffff tells the second. *)
Inductive EventHeader :=
| Compact (event_id timestamp : Z)
| Extended (event_id timestamp : Z).
Definition headerBytes (h : EventHeader) : list Z :=
  match h with
  | Compact id ts => le 2 id ++ le 4 ts
  | Extended id ts => le 2 event_extended ++ le 4 id ++ le 8 ts
  end.
(** The type of the event, and what the members of the union read: the time of the compact
    form is where the extended one has its type. *)
Definition eventType (h : EventHeader) : Z := match h with Compact id _ | Extended id _ => id end.
Definition compactTimestamp (h : EventHeader) : Z := match h with Compact _ ts => ts | Extended id _ => id end.
Definition extendedTimestamp (h : EventHeader) : option Z :=
  match h with Compact _ _ => None | Extended _ ts => Some ts end.

(** An event; calls and returns have the same payload. *)
Record Event := { ev_header : EventHeader; ev_pc : Z; ev_pcDst : Z }.

Record EventContext := { ec_vpid : Z; ec_vtid : Z; ec_procname : list Z }.
Definition contextBytes (c : EventContext) : list Z := le 4 (ec_vpid c) ++ le 4 (ec_vtid c) ++ ec_procname c.

(** ** The converter *)

(** The elements of the arrays that belong to a core; a file that is not open is -1. *)
Record CTFCore := {
  cr_fd : option (list Z);
  cr_eventBuffer : option (list (option Event));
  cr_eventIndex : Z;
  cr_eventContext : EventContext;
  cr_headerFlag : bool;
}.
Definition set_fd f (c : CTFCore) : CTFCore := {|
  cr_fd := f; cr_eventBuffer := cr_eventBuffer c; cr_eventIndex := cr_eventIndex c;
  cr_eventContext := cr_eventContext c; cr_headerFlag := cr_headerFlag c |}.
Definition set_eventBuffer b (c : CTFCore) : CTFCore := {|
  cr_fd := cr_fd c; cr_eventBuffer := b; cr_eventIndex := cr_eventIndex c;
  cr_eventContext := cr_eventContext c; cr_headerFlag := cr_headerFlag c |}.
Definition set_eventIndex i (c : CTFCore) : CTFCore := {|
  cr_fd := cr_fd c; cr_eventBuffer := cr_eventBuffer c; cr_eventIndex := i;
  cr_eventContext := cr_eventContext c; cr_headerFlag := cr_headerFlag c |}.
Definition set_eventContext x (c : CTFCore) : CTFCore := {|
  cr_fd := cr_fd c; cr_eventBuffer := cr_eventBuffer c; cr_eventIndex := cr_eventIndex c;
  cr_eventContext := x; cr_headerFlag := cr_headerFlag c |}.
Definition set_headerFlag b (c : CTFCore) : CTFCore := {|
  cr_fd := cr_fd c; cr_eventBuffer := cr_eventBuffer c; cr_eventIndex := cr_eventIndex c;
  cr_eventContext := cr_eventContext c; cr_headerFlag := b |}.

Record CTFConverter := {
  cf_status : DQErr;
  cf_numCores : Z;
  cf_packetSeqNum : Z;
  cf_frequency : Z;
  cf_archSize : Z;
  cf_elfName : option (list Z);
  cf_metadata : option (list ascii);
  cf_cores : list CTFCore;
}.
Definition set_cf_status e (c : CTFConverter) : CTFConverter := {|
  cf_status := e; cf_numCores := cf_numCores c; cf_packetSeqNum := cf_packetSeqNum c; cf_frequency := cf_frequency c;
  cf_archSize := cf_archSize c; cf_elfName := cf_elfName c; cf_metadata := cf_metadata c; cf_cores := cf_cores c |}.
Definition set_packetSeqNum n (c : CTFConverter) : CTFConverter := {|
  cf_status := cf_status c; cf_numCores := cf_numCores c; cf_packetSeqNum := n; cf_frequency := cf_frequency c;
  cf_archSize := cf_archSize c; cf_elfName := cf_elfName c; cf_metadata := cf_metadata c; cf_cores := cf_cores c |}.
Definition set_cf_elfName n (c : CTFConverter) : CTFConverter := {|
  cf_status := cf_status c; cf_numCores := cf_numCores c; cf_packetSeqNum := cf_packetSeqNum c; cf_frequency := cf_frequency c;
  cf_archSize := cf_archSize c; cf_elfName := n; cf_metadata := cf_metadata c; cf_cores := cf_cores c |}.
Definition set_metadata m (c : CTFConverter) : CTFConverter := {|
  cf_status := cf_status c; cf_numCores := cf_numCores c; cf_packetSeqNum := cf_packetSeqNum c; cf_frequency := cf_frequency c;
  cf_archSize := cf_archSize c; cf_elfName := cf_elfName c; cf_metadata := m; cf_cores := cf_cores c |}.
Definition set_cf_cores l (c : CTFConverter) : CTFConverter := {|
  cf_status := cf_status c; cf_numCores := cf_numCores c; cf_packetSeqNum := cf_packetSeqNum c; cf_frequency := cf_frequency c;
  cf_archSize := cf_archSize c; cf_elfName := cf_elfName c; cf_metadata := cf_metadata c; cf_cores := l |}.

#[local] Abbreviation CM := (M CTFConverter DQErr).

(** The elements of a core; there are [DQR_MAXCORES]. *)
Definition ctfCore (core : Z) : CM CTFCore :=
  c ← get; lift_opt (if 0 <=? core then cf_cores c !! Z.to_nat core else None).
Definition updCTFCore (core : Z) (f : CTFCore -> CTFCore) : CM unit :=
  ctfCore core ≫= fun _ => modify (fun c => set_cf_cores (alter f (Z.to_nat core) (cf_cores c)) c).

(** [write(fd[core],...)]: all of the bytes, unless the file is not open. *)
Definition ctfWrite (core : Z) (bytes : list Z) : CM Z :=
  c ← ctfCore core;
  match cr_fd c with
  | Some file => updCTFCore core (set_fd (Some (file ++ bytes))) ≫= fun _ => mret (Z.of_nat (length bytes))
  | None => mret (-1)
  end.
(** A call whose return code is not looked at. *)
Definition ignoring (m : CM unit) : CM unit := fun c => match m c with Err c _ => Ok c tt | r => r end.

(** ** Packets *)

Definition writeTracePacketHeader (core : Z) : CM unit :=
  n ← ctfWrite core (le 4 0xc1fc1fc1 ++ le 4 core);
  if n =? 8 then mret tt else throw DQERR_ERR.

(** The size of the context of a packet, and the bits of a packet with [size] bytes of events. *)
Definition sizeofContext : Z := 52.
Definition packetBits (size : Z) : Z := u64 (u64 (i32 (size * 8)) + sizeofContext * 8 + 8 * 8).

Definition writeStreamPacketContext (core ts_begin ts_end size : Z) : CM unit :=
  c ← get;
  n ← ctfWrite core (le 8 ts_begin ++ le 8 ts_end ++ le 8 (packetBits size) ++ le 8 (packetBits size) ++
                     le 8 (cf_packetSeqNum c) ++ le 8 0 ++ le 4 core);
  if n =? sizeofContext then mret tt else throw DQERR_ERR.

Definition writeStreamHeaders (core ts_begin ts_end size : Z) : CM unit :=
  ignoring (writeTracePacketHeader core) ≫= fun _ => ignoring (writeStreamPacketContext core ts_begin ts_end size).

(** The element of the buffer at an index. *)
Definition eventAt (core : Z) (i : nat) : CM Event :=
  c ← ctfCore core;
  lift_opt (b ← cr_eventBuffer c; mjoin (b !! i)).

Definition sizeofEventContext : Z := 25.
(** The bytes of an event; [None] if it is neither a call nor a return. *)
Definition eventSize (e : Event) : option Z :=
  let head := match ev_header e with Compact _ _ => 2 + 4 | Extended _ _ => 2 + 12 end in
  let et := eventType (ev_header e) in
  if (et =? event_funcEntry) || (et =? event_funcExit) then Some (head + sizeofEventContext + 16) else None.
Fixpoint addSizes (core : Z) (i n : nat) (size : Z) : CM Z :=
  match n with
  | O => mret size
  | S n =>
      e ← eventAt core i;
      match eventSize e with
      | Some s => addSizes core (S i) n (i32 (size + s))
      | None => modify (set_cf_status DQERR_ERR) ≫= fun _ => throw DQERR_ERR
      end
  end.
Definition computeEventSizes (core : Z) : CM Z :=
  c ← ctfCore core; addSizes core 0 (Z.to_nat (cr_eventIndex c)) 0.

(** Three events with headers in the extended form. *)
Definition computeBinInfoSize : CM Z :=
  c ← get;
  name ← lift_opt (cf_elfName c);
  mret (i32 (14 * 3 + sizeofEventContext * 3 + (8 + 8 + (Z.of_nat (length name) + 1) + 1 + 1 + 1))).

(** The header and the context of an event. *)
Definition writeDumpEvent (core id timestamp : Z) : CM unit :=
  ctfWrite core (headerBytes (Extended id timestamp)) ≫= fun _ =>
  c ← ctfCore core;
  ctfWrite core (contextBytes (cr_eventContext c)) ≫= fun _ => mret tt.

(** The last byte is taken from the lowest of [_baddr]. *)
Definition writeBinInfo (core timestamp : Z) : CM unit :=
  size ← computeBinInfoSize;
  writeStreamHeaders core timestamp timestamp size ≫= fun _ =>
  writeDumpEvent core event_stateDumpStart timestamp ≫= fun _ =>
  writeDumpEvent core event_stateDumpBinInfo timestamp ≫= fun _ =>
  ctfWrite core (le 8 0x40000000) ≫= fun _ =>
  ctfWrite core (le 8 0x10000000) ≫= fun _ =>
  c ← get;
  name ← lift_opt (cf_elfName c);
  ctfWrite core (name ++ [0]) ≫= fun _ =>
  ctfWrite core (le 1 0) ≫= fun _ =>
  ctfWrite core (le 1 0) ≫= fun _ =>
  ctfWrite core (take 1 (le 8 0x40000000)) ≫= fun _ =>
  writeDumpEvent core event_stateDumpEnd timestamp.

Definition writeEvent (core : Z) (i : nat) : CM unit :=
  e ← eventAt core i;
  let et := eventType (ev_header e) in
  ctfWrite core (headerBytes (ev_header e)) ≫= fun _ =>
  c ← ctfCore core;
  ctfWrite core (contextBytes (cr_eventContext c)) ≫= fun _ =>
  if (et =? event_funcEntry) || (et =? event_funcExit)
  then ctfWrite core (le 8 (ev_pc e) ++ le 8 (ev_pcDst e)) ≫= fun _ => mret tt
  else throw DQERR_ERR.
Fixpoint writeEvents (core : Z) (i n : nat) : CM unit :=
  match n with
  | O => mret tt
  | S n => ignoring (writeEvent core i) ≫= fun _ => writeEvents core (S i) n
  end.

(** The time at the end of a packet has the high half of the time at its start. *)
Definition packetEnd (first last : Event) (index ts_begin : Z) : Z :=
  if 1 <? index then Z.lor (u64 (Z.shiftl (Z.shiftr ts_begin 32) 32)) (compactTimestamp (ev_header last)) else ts_begin.

Definition flushEvents (core : Z) : CM unit :=
  c ← ctfCore core;
  if cr_eventIndex c =? 0 then mret tt
  else
    match cr_eventBuffer c with
    | None => mret tt
    | Some _ =>
        (if cr_headerFlag c then mret tt
         else
           first ← eventAt core 0;
           ts ← lift_opt (extendedTimestamp (ev_header first));
           writeBinInfo core ts ≫= fun _ =>
           updCTFCore core (set_headerFlag true)) ≫= fun _ =>
        size ← (fun s => match computeEventSizes core s with
                         | Ok s n => Ok s (Some n)
                         | Err s _ => Ok s None
                         | Undef => Undef
                         | NoFuel => NoFuel
                         end);
        match size with
        | None => mret tt
        | Some size =>
            first ← eventAt core 0;
            ts_begin ← lift_opt (extendedTimestamp (ev_header first));
            last ← eventAt core (Z.to_nat (cr_eventIndex c - 1));
            writeStreamHeaders core ts_begin (packetEnd first last (cr_eventIndex c) ts_begin) size ≫= fun _ =>
            writeEvents core 0 (Z.to_nat (cr_eventIndex c)) ≫= fun _ =>
            updCTFCore core (set_eventIndex 0) ≫= fun _ =>
            modify (fun s => set_packetSeqNum (i32 (cf_packetSeqNum s + 1)) s)
        end
    end.

(** ** Adding events *)

(** [new event[20]]; it counts as full when it has as many events as there are cores. *)
Definition newEvents : list (option Event) := replicate 20 None.
Definition eventHeader (index id ts : Z) : EventHeader := if index =? 0 then Extended id ts else Compact id (u32 ts).

(** [CTFConverter::addCall] and [addRet], which differ in the type of the event. *)
Definition addEvent (id core srcAddr dstAddr eventTS : Z) : CM unit :=
  c ← ctfCore core;
  (match cr_eventBuffer c with Some _ => mret tt | None => updCTFCore core (set_eventBuffer (Some newEvents)) end) ≫= fun _ =>
  (if cr_eventIndex c =? DQR_MAXCORES
   then fun s => match flushEvents core s with Err s e => Err (set_cf_status e s) e | r => r end
   else mret tt) ≫= fun _ =>
  c ← ctfCore core;
  b ← lift_opt (cr_eventBuffer c);
  let i := cr_eventIndex c in
  if (0 <=? i) && (i <? Z.of_nat (length b)) then
    updCTFCore core (fun c => set_eventIndex (i + 1) (set_eventBuffer (Some (<[Z.to_nat i := Some {|
      ev_header := eventHeader i id eventTS; ev_pc := srcAddr; ev_pcDst := dstAddr |}]> b)) c))
  else undef.
Definition addCall : Z -> Z -> Z -> Z -> CM unit := addEvent event_funcEntry.
Definition addRet : Z -> Z -> Z -> Z -> CM unit := addEvent event_funcExit.

(** The destructor flushes the buffers; the files are closed. *)
Fixpoint flushAll (i n : nat) : CM unit :=
  match n with
  | O => mret tt
  | S n =>
      c ← ctfCore (Z.of_nat i);
      (if 0 <? cr_eventIndex c then ignoring (flushEvents (Z.of_nat i)) else mret tt) ≫= fun _ =>
      flushAll (S i) n
  end.
Definition closeCTFConverter : CM unit := flushAll 0 (Z.to_nat DQR_MAXCORES).

(** What the decoder's calls of the converter of a process come to. *)
Definition ctfEmit (e : Z * Z * Z * Emit) : CM unit :=
  match e with
  | (_, core, ts, CtfAddCall src dst) => addCall core src dst ts
  | (_, core, ts, CtfAddRet src dst) => addRet core src dst ts
  | _ => mret tt
  end.

(** ** The names of files *)

(** One more than the index of the last character of this kind, or 0. *)
Definition afterLast (f : ascii -> bool) (l : list ascii) : nat :=
  match list_find (fun c => f c = true) (rev l) with Some (i, _) => (length l - i)%nat | None => O end.

Definition isAbsolute (name : list ascii) : bool :=
  match name with
  | c :: rest =>
      slash c || match rest with ":"%char :: "\"%char :: _ => true | _ => false end
  | [] => false
  end.

(** The base name of a file, its name and its absolute path; [cwd] is the current directory.
    [None]: a name or the path is too long for its array. *)
Definition getPathsNames (cwd : list ascii) (baseNameIn : option (list ascii)) : option (list ascii * list ascii * list ascii) :=
  match baseNameIn with
  | None => Some ([], [], [])
  | Some name =>
      let sep := afterLast slash name in
      let en := drop sep name in
      let ext := afterLast (fun c => bool_decide (c = "."%char)) en in
      let ebn := if (ext =? 0)%nat then en else take (ext - 1) en in
      let full := (if isAbsolute name then [] else cwd ++ ["/"%char]) ++ take sep name in
      if (length en <? 256)%nat && (length full <? 512)%nat then Some (ebn, en, full) else None
  end.

(** ** Metadata *)

(** In the texts here a bar is the end of a line, a circumflex a tab, and an apostrophe a
    quotation mark. *)
Definition tsdl (s : String.string) : list ascii :=
  (fun c => if bool_decide (c = "|"%char) then "010"%char else if bool_decide (c = "^"%char) then "009"%char
            else if bool_decide (c = "'"%char) then "034"%char else c) <$> chars s.

Definition CTFMetadataHeader : list ascii := tsdl "/* CTF 1.8 */||".
Definition CTFMetadataTypeAlias : list ascii := tsdl (
  "typealias integer {size = 8; align = 8; signed = false; } := uint8_t;|" ++
  "typealias integer {size = 16; align = 8; signed = false; } := uint16_t;|" ++
  "typealias integer {size = 32; align = 8; signed = false; } := uint32_t;|" ++
  "typealias integer {size = 64; align = 8; signed = false; } := uint64_t;|" ++
  "typealias integer {size = 64; align = 8; signed = false; } := unsigned long;|" ++
  "typealias integer {size = 5; align = 8; signed = false; } := uint5_t;|" ++
  "typealias integer {size = 27; align = 8; signed = false; } := uint27_t;||")%string.
Definition CTFMetadataTraceDef : list ascii := tsdl (
  "trace {|^major = 1;|^minor = 8;|^byte_order = le;|" ++
  "^packet.header := struct {|^^uint32_t magic;|^^uint32_t stream_id;|^};|};||")%string.
(** The conversions are given as the texts between them. *)
Definition CTFMetadataEnvDef (archSize name date host : list ascii) : list ascii :=
  tsdl ("env {|^domain = 'ust';|^tracer_name = 'lttng-ust';|^tracer_major = 2;|^tracer_minor = 11;|" ++
        "^tracer_buffering_scheme = 'uid';|^tracer_buffering_id = 1000;|^architecture_bit_width = ") ++ archSize ++
  tsdl ";|^trace_name = '" ++ name ++ tsdl "';|^trace_creation_datetime = '" ++ date ++ tsdl "';|^hostname = '" ++ host ++
  tsdl "';|};||".
Definition CTFMetadataClockDef (freq offset : list ascii) : list ascii :=
  tsdl ("clock {|^name = 'monotonic';|^uuid = 'cb35f5a5-f0a6-441f-b5c7-c7fb50c2e051';|^description = 'Monotonic Clock';|" ++
        "^freq = ") ++ freq ++
  tsdl "; /* Frequency, in Hz */|^/* clock value offset from Epoch is: offset * (1/freq) */|^offset = " ++ offset ++
  tsdl (";|};||typealias integer {|^size = 27; align = 1; signed = false;|^map = clock.monotonic.value;|" ++
        "} := uint27_clock_monotonic_t;||typealias integer {|^size = 32; align = 8; signed = false;|" ++
        "^map = clock.monotonic.value;|} := uint32_clock_monotonic_t;||typealias integer {|" ++
        "^size = 64; align = 8; signed = false;|^map = clock.monotonic.value;|} := uint64_clock_monotonic_t;||").
Definition CTFMetadataPacketContext : list ascii := tsdl (
  "struct packet_context {|^uint64_clock_monotonic_t timestamp_begin;|^uint64_clock_monotonic_t timestamp_end;|" ++
  "^uint64_t content_size;|^uint64_t packet_size;|^uint64_t packet_seq_num;|^unsigned long events_discarded;|" ++
  "^uint32_t cpu_id;|};||")%string.
Definition CTFMetadataEventHeaders : list ascii := tsdl (
  "struct event_header_compact {|^enum : uint5_t { compact = 0 ... 30, extended = 31 } id;|^variant <id> {|" ++
  "^^struct {|^^^uint27_clock_monotonic_t timestamp;|^^} compact;|^^struct {|^^^uint32_t id;|" ++
  "^^^uint64_clock_monotonic_t timestamp;|^^} extended;|^} v;|} align(8);||" ++
  "struct event_header_large {|^enum : uint16_t { compact = 0 ... 65534, extended = 65535 } id;|^variant <id> {|" ++
  "^^struct {|^^^uint32_clock_monotonic_t timestamp;|^^} compact;|^^struct {|^^^uint32_t id;|" ++
  "^^^uint64_clock_monotonic_t timestamp;|^^} extended;|^} v;|} align(8);||")%string.
Definition CTFMetadataStreamDef : list ascii := tsdl (
  "stream {|^id = 0;|^event.header := struct event_header_large;|^packet.context := struct packet_context;|" ++
  "^event.context := struct {|" ++
  "^^integer { size = 32; align = 8; signed = 1; encoding = none; base = 10; } _vpid;|" ++
  "^^integer { size = 32; align = 8; signed = 1; encoding = none; base = 10; } _vtid;|" ++
  "^^integer { size = 8; align = 8; signed = 1; encoding = UTF8; base = 10; } _procname[17];|^};|};||")%string.
Definition callRetDef (name id close : String.string) : list ascii := tsdl (
  "event {|^name = 'lttng_ust_cyg_profile:" ++ name ++ "';|^id = " ++ id ++ ";|^stream_id = 0;|^loglevel = 12;|^fields := struct {|" ++
  "^^integer { size = 64; align = 8; signed = 0; encoding = none; base = 16; } _addr;|" ++
  "^^integer { size = 64; align = 8; signed = 0; encoding = none; base = 16; } _call_site;|^};|" ++ close ++ "||")%string.
Definition CTFMetadataCallEventDef : list ascii := callRetDef "func_entry" "1" "^};".
Definition CTFMetadataRetEventDef : list ascii := callRetDef "func_exit" "2" "};".
Definition CTFMetadataStatedumpStart : list ascii := tsdl (
  "event {|^name = 'lttng_ust_statedump:start';|^id = 3;|^stream_id = 0;|^loglevel = 13;|^fields := struct {|^};|};||")%string.
Definition CTFMetadataStatedumpBinInfo : list ascii := tsdl (
  "event {|^name = 'lttng_ust_statedump:bin_info';|^id = 4;|^stream_id = 0;|^loglevel = 13;|^fields := struct {|" ++
  "^^integer { size = 64; align = 8; signed = 0; encoding = none; base = 16; } _baddr;|" ++
  "^^integer { size = 64; align = 8; signed = 0; encoding = none; base = 10; } _memsz;|^^string _path;|" ++
  "^^integer { size = 8; align = 8; signed = 0; encoding = none; base = 10; } _is_pic;|" ++
  "^^integer { size = 8; align = 8; signed = 0; encoding = none; base = 10; } _has_build_id;|" ++
  "^^integer { size = 8; align = 8; signed = 0; encoding = none; base = 10; } _has_debug_link;|^};|};||")%string.
Definition CTFMetadataStatedumpEnd : list ascii := tsdl (
  "event {|^name = 'lttng_ust_statedump:end';|^id = 7;|^stream_id = 0;|^loglevel = 13;|^fields := struct {|^};|};||")%string.

(** The file, from the two texts that are filled in. *)
Definition writeCTFMetadata (env clock : list ascii) : list ascii :=
  concat [CTFMetadataHeader; CTFMetadataTypeAlias; CTFMetadataTraceDef; env; clock; CTFMetadataPacketContext;
          CTFMetadataEventHeaders; CTFMetadataStreamDef; CTFMetadataCallEventDef; CTFMetadataRetEventDef;
          CTFMetadataStatedumpStart; CTFMetadataStatedumpBinInfo; CTFMetadataStatedumpEnd].

(** ** The constructor *)

(** The conversion [%d] of a number below 2^64. *)
Fixpoint decimal (n : nat) (x : Z) (l : list ascii) : list ascii :=
  match n with
  | O => l
  | S n =>
      let l := ascii_of_N (Z.to_N (48 + x mod 10)) :: l in
      if x <? 10 then l else decimal n (x / 10) l
  end.
Definition percent_d (x : Z) : list ascii := if x <? 0 then "-"%char :: decimal 20 (- x) [] else decimal 20 x [].

(** What the system gives: the current directory, whether the directory can be made and
    the files opened, the time, how a time is written, with its zone or without, and the
    name of the host. *)
Record CtfSystem := {
  cs_cwd : list ascii;
  cs_mkdir : bool;
  cs_open : nat -> bool;
  cs_openMetadata : bool;
  cs_time : Z;
  cs_date : bool -> Z -> list ascii;
  cs_hostName : list ascii;
}.

(** [_procname], of 17 characters. *)
Definition procName (elf : list ascii) : list Z :=
  let name := code_of <$> take 16 elf in name ++ replicate (17 - length name) 0.

Definition newCTFCore (i : nat) : CTFCore := {|
  cr_fd := None; cr_eventBuffer := None; cr_eventIndex := 0;
  cr_eventContext := {| ec_vpid := 1; ec_vtid := Z.of_nat i; ec_procname := replicate 17 0 |}; cr_headerFlag := false |}.

(** The files of the first [n] cores, up to the first that cannot be opened. *)
Fixpoint openAll (sys : CtfSystem) (i n : nat) : CM unit :=
  match n with
  | O => mret tt
  | S n =>
      if cs_open sys i then updCTFCore (Z.of_nat i) (set_fd (Some [])) ≫= fun _ => openAll sys (S i) n
      else throw DQERR_ERR
  end.
Fixpoint nameAll (name : list Z) (i n : nat) : CM unit :=
  match n with
  | O => mret tt
  | S n =>
      updCTFCore (Z.of_nat i) (fun c => set_eventContext {|
        ec_vpid := ec_vpid (cr_eventContext c); ec_vtid := ec_vtid (cr_eventContext c); ec_procname := name |} c) ≫= fun _ =>
      nameAll name (S i) n
  end.

(** The names of the streams, [dir/ctf/base_%d.ctf], and of the metadata fit into their
    arrays, and the directory and the base name, which are a part of the format that [sprintf] is
    given, have no conversions. *)
Definition namesFit (base dir : list ascii) : bool :=
  (length dir + 4 + Nat.max (length base + 7) 8 <? 512)%nat && forallb (fun c => negb (bool_decide (c = "%"%char))) (dir ++ base).

(** [status = DQERR_ERR; return;] is an error here. *)
Definition buildCTF (sys : CtfSystem) (elf rtd : option (list ascii)) (numCores t : Z) (hostName : option (list ascii)) : CM unit :=
  match elf with
  | None => throw DQERR_ERR
  | Some _ =>
      if DQR_MAXCORES <? numCores then throw DQERR_ERR
      else
        '(base, name, path) ← lift_opt (getPathsNames (cs_cwd sys) elf);
        modify (set_cf_elfName (Some (code_of <$> path ++ name))) ≫= fun _ =>
        '(_, _, dir) ← lift_opt (getPathsNames (cs_cwd sys) rtd);
        if negb (cs_mkdir sys) then throw DQERR_ERR
        else if negb (namesFit base dir) then undef
        else
          openAll sys 0 (Z.to_nat numCores) ≫= fun _ =>
          nameAll (procName name) 0 (Z.to_nat numCores) ≫= fun _ =>
          if negb (cs_openMetadata sys) then throw DQERR_ERR
          else
            let seconds := if t =? -1 then cs_time sys else t in
            let date := cs_date sys (t =? -1) seconds in
            let host := default (cs_hostName sys) hostName in
            c ← get;
            let offset := seconds * 1000000000 in
            let clock := CTFMetadataClockDef (percent_d (i32 (cf_frequency c))) (percent_d offset) in
            let env := CTFMetadataEnvDef (percent_d (cf_archSize c)) base date host in
            if negb (bool_decide (- 2 ^ 63 <= offset < 2 ^ 63)) || (256 <=? length host)%nat ||
               (1024 <=? length clock)%nat || (1024 <=? length env)%nat then undef
            else modify (set_metadata (Some (writeCTFMetadata env clock)))
  end.

(** The status of the new converter is good, or it is an error. *)
Definition newCTFConverter (sys : CtfSystem) (elf rtd : option (list ascii)) (numCores arch_size freq t : Z)
    (hostName : option (list ascii)) : Res CTFConverter DQErr unit :=
  let start := {|
    cf_status := DQERR_OK; cf_numCores := numCores; cf_packetSeqNum := 0;
    cf_frequency := if freq =? 0 then 1000000000 else freq; cf_archSize := arch_size; cf_elfName := None;
    cf_metadata := None; cf_cores := newCTFCore <$> seq 0 (Z.to_nat DQR_MAXCORES) |} in
  match buildCTF sys elf rtd numCores t hostName start with
  | Ok c _ => Ok c tt
  | Err c e => Err (set_cf_status e c) e
  | r => r
  end.
