(* ===== verification/Floats.v ===== *)
(** * Floats: the quotients the program prints

    What the program uses of [float] and [double]: counters and times are converted,
    divided and multiplied, and printed with [%f].  A number is a fraction of two
    integers; conversion, division and product round to the 24 or 53 bits of the type,
    to the nearest number and to an even one of two.  The quotients of 32-bit counters
    and of 64-bit times are neither so large that they overflow nor so small that a bit is
    lost. *)

From stdpp Require Import strings.
From Stdlib Require Import Ascii.
From Stdlib Require String.
From S2P Require Import Prelude ObjDump Ctf.

(** ** Arithmetic *)

(** The integer nearest to [n / d], the even one of two. *)
Definition halfEven (n d : Z) : Z :=
  let q := n / d in
  match 2 * (n mod d) ?= d with
  | Lt => q
  | Gt => q + 1
  | Eq => if Z.even q then q else q + 1
  end.

(** What a calculation with numbers that are not negative gives: a fraction, an infinity, or
    no number. *)
Inductive Float :=
| Finite (n d : Z)
| Infinite
| NotANumber.

(** The [e] with [2 ^ e <= n / d < 2 ^ (e + 1)]. *)
Definition exponent (n d : Z) : Z :=
  let e := Z.log2 n - Z.log2 d in
  if n * 2 ^ Z.max 0 (- e) <? d * 2 ^ Z.max 0 e then e - 1 else e.

(** The number of [p] bits that is nearest to [n / d]. *)
Definition roundTo (p n d : Z) : Float :=
  if n =? 0 then Finite 0 1
  else
    let s := exponent n d - (p - 1) in
    if 0 <=? s then Finite (halfEven n (d * 2 ^ s) * 2 ^ s) 1
    else Finite (halfEven (n * 2 ^ (- s)) d) (2 ^ (- s)).

Definition floatBits : Z := 24.
Definition doubleBits : Z := 53.

Definition ofInt (p x : Z) : Float := roundTo p x 1.
Definition fdiv (p : Z) (a b : Float) : Float :=
  match a, b with
  | Finite n d, Finite n' d' =>
      if n' =? 0 then if n =? 0 then NotANumber else Infinite else roundTo p (n * d') (d * n')
  | Finite _ _, Infinite => Finite 0 1
  | Infinite, Finite _ _ => Infinite
  | _, _ => NotANumber
  end.
Definition fmul (p : Z) (a b : Float) : Float :=
  match a, b with
  | Finite n d, Finite n' d' => roundTo p (n * n') (d * d')
  | Infinite, Finite n _ | Finite n _, Infinite => if n =? 0 then NotANumber else Infinite
  | Infinite, Infinite => Infinite
  | _, _ => NotANumber
  end.

(** [((float)a)/b] of two integers, and [((float)a)/b*100.0], whose product is a [double]. *)
Definition ratio (a b : Z) : Float := fdiv floatBits (ofInt floatBits a) (ofInt floatBits b).
Definition percentage (a b : Z) : Float := fmul doubleBits (ratio a b) (Finite 100 1).

(** ** Printing *)

(** [%u] and [%llu]. *)
Definition percent_u (x : Z) : list ascii := decimal 20 x [].

(** The [n] digits of a number, with zeros in front. *)
Fixpoint fraction (n : nat) (x : Z) : list ascii :=
  match n with
  | O => []
  | S n => fraction n (x / 10) ++ [digitChar false (x mod 10)]
  end.

(** [%.kf]; what the C library prints for no number, [nan] or [-nan], is a parameter. *)
Definition percent_f (nan : list ascii) (k : nat) (x : Float) : list ascii :=
  match x with
  | Finite n d =>
      let v := halfEven (n * 10 ^ Z.of_nat k) d in
      percent_u (v / 10 ^ Z.of_nat k) ++ chars "." ++ fraction k (v mod 10 ^ Z.of_nat k)
  | Infinite => chars "inf"
  | NotANumber => nan
  end.

(** A field of at least [w] characters. *)
Definition padLeft (w : nat) (t : list ascii) : list ascii := replicate (w - length t) " "%char ++ t.

(** ** Their properties *)

Lemma halfEven_nearest n d : 0 < d -> 2 * Z.abs (halfEven n d * d - n) <= d.
Proof.
  intros Hd. unfold halfEven. pose proof (Z.div_mod n d ltac:(lia)). pose proof (Z.mod_pos_bound n d Hd).
  destruct (Z.compare_spec (2 * (n mod d)) d); [destruct (Z.even (n / d))| |]; nia.
Qed.
Lemma halfEven_exact q d : 0 < d -> halfEven (q * d) d = q.
Proof.
  intros Hd. unfold halfEven. rewrite Z.div_mul, Z.mod_mul by lia. by destruct (Z.compare_spec (2 * 0) d); [lia| |lia].
Qed.
Lemma halfEven_nonneg n d : 0 <= n -> 0 < d -> 0 <= halfEven n d.
Proof.
  intros Hn Hd. unfold halfEven. pose proof (Z.div_pos n d Hn Hd).
  destruct (2 * (n mod d) ?= d); [destruct (Z.even _)| |]; lia.
Qed.

(** An integer of at most [p] bits is not changed. *)
Lemma ofInt_exact p x : 0 <= x < 2 ^ p -> 1 <= p -> exists d, 0 < d /\ ofInt p x = Finite (x * d) d.
Proof.
  intros Hx Hp. unfold ofInt, roundTo. destruct (Z.eqb_spec x 0) as [->|Hx0]; [by exists 1|].
  assert (exponent x 1 = Z.log2 x) as E.
  { unfold exponent. change (Z.log2 1) with 0. rewrite Z.sub_0_r. pose proof (Z.log2_nonneg x).
    rewrite (Z.max_r 0 (Z.log2 x)) by lia. rewrite (Z.max_l 0) by lia. pose proof (Z.log2_spec x ltac:(lia)).
    destruct (Z.ltb_spec (x * 2 ^ 0) (1 * 2 ^ Z.log2 x)); [lia|done]. }
  rewrite E. assert (Z.log2 x < p) by (apply Z.log2_lt_pow2; lia). cbv zeta. destruct (Z.leb_spec 0 (Z.log2 x - (p - 1))) as [H1|H1].
  - replace (Z.log2 x - (p - 1)) with 0 by lia. exists 1. split; [done|].
    by rewrite <-(Z.mul_1_r x) at 1; rewrite halfEven_exact.
  - set (s := - (Z.log2 x - (p - 1))). exists (2 ^ s). split; [lia|]. f_equal.
    rewrite <-(Z.mul_1_r (x * 2 ^ s)) at 1. by rewrite halfEven_exact.
Qed.

Lemma decimal_length n : forall x l, (length (decimal n x l) <= n + length l)%nat.
Proof.
  induction n as [|n IH]; intros x l; cbn [decimal]; [lia|]. destruct (x <? 10); cbn [length]; [lia|].
  etrans; [apply IH|]. cbn [length]. lia.
Qed.
Lemma percent_d_length x : (length (percent_d x) <= 21)%nat.
Proof.
  unfold percent_d. pose proof (decimal_length 20 x []). pose proof (decimal_length 20 (- x) []). destruct (x <? 0); cbn [length] in *; lia.
Qed.
Lemma percent_u_length x : (length (percent_u x) <= 20)%nat.
Proof. unfold percent_u. etrans; [apply decimal_length|cbn; lia]. Qed.
Lemma fraction_length n : forall x, length (fraction n x) = n.
Proof. induction n as [|n IH]; intros x; [done|]. cbn [fraction]. rewrite length_app, IH. cbn. lia. Qed.
Lemma percent_f_length nan k x : (length nan <= 4)%nat -> (length (percent_f nan k x) <= 21 + k)%nat.
Proof.
  intros Hn. destruct x as [n d| |]; cbn [percent_f]; [|cbn; lia|lia].
  rewrite !length_app, fraction_length. pose proof (percent_u_length (halfEven (n * 10 ^ Z.of_nat k) d / 10 ^ Z.of_nat k)). change (length (chars ".")) with 1%nat. lia.
Qed.
Lemma padLeft_length w t : length (padLeft w t) = (w `max` length t)%nat.
Proof. unfold padLeft. rewrite length_app, length_replicate. lia. Qed.

(** The exponent of a fraction. *)
Lemma exponent_spec n d : 0 < n -> 0 < d -> d * 2 ^ Z.max 0 (exponent n d) <= n * 2 ^ Z.max 0 (- exponent n d).
Proof.
  intros Hn Hd. unfold exponent. pose proof (Z.log2_spec n Hn) as [Hn1 _]. pose proof (Z.log2_spec d Hd) as [_ Hd2].
  pose proof (Z.log2_nonneg n). pose proof (Z.log2_nonneg d). set (e := Z.log2 n - Z.log2 d) in *.
  destruct (Z.ltb_spec (n * 2 ^ Z.max 0 (- e)) (d * 2 ^ Z.max 0 e)) as [Hlt|]; [clear Hlt|lia].
  destruct (Z.le_gt_cases e 0) as [He|He].
  - rewrite (Z.max_l 0 (e - 1)), (Z.max_r 0 (- (e - 1))), Z.pow_0_r, Z.mul_1_r by lia.
    assert (2 ^ (- (e - 1)) * 2 ^ Z.log2 n = 2 ^ Z.succ (Z.log2 d)) as Hp by (rewrite <-Z.pow_add_r by lia; f_equal; lia).
    pose proof (Z.pow_pos_nonneg 2 (- (e - 1)) ltac:(lia) ltac:(lia)). nia.
  - rewrite (Z.max_r 0 (e - 1)), (Z.max_l 0 (- (e - 1))), Z.pow_0_r, Z.mul_1_r by lia.
    assert (2 ^ (e - 1) * 2 ^ Z.succ (Z.log2 d) = 2 ^ Z.log2 n) as Hp by (rewrite <-Z.pow_add_r by lia; f_equal; lia).
    pose proof (Z.pow_pos_nonneg 2 (e - 1) ltac:(lia) ltac:(lia)). nia.
Qed.

(** The nearest integer to a number of at least 1 is within a factor of 2 of it. *)
Lemma halfEven_factor n d : 0 < d <= n -> halfEven n d * d <= 2 * n /\ n <= 2 * (halfEven n d * d).
Proof. intros H. pose proof (halfEven_nearest n d ltac:(lia)). lia. Qed.

(** A number that was rounded is within a factor of 2 of the number. *)
Lemma roundTo_factor p n d : 1 <= p -> 0 <= n -> 0 < d ->
  exists n' d', roundTo p n d = Finite n' d' /\ 0 <= n' /\ 0 < d' /\ n' * d <= 2 * (n * d') /\ n * d' <= 2 * (n' * d).
Proof.
  intros Hp Hn Hd. unfold roundTo. destruct (Z.eqb_spec n 0) as [->|Hn0]; [exists 0, 1; split_and!; done || lia|].
  pose proof (exponent_spec n d ltac:(lia) Hd) as He. set (e := exponent n d) in *. cbv zeta. destruct (Z.leb_spec 0 (e - (p - 1))) as [Hs|Hs].
  - set (s := e - (p - 1)) in *. rewrite Z.max_r, Z.max_l, Z.pow_0_r, Z.mul_1_r in He by lia.
    assert (2 ^ s <= 2 ^ e) as Hse by (apply Z.pow_le_mono_r; lia). pose proof (Z.pow_pos_nonneg 2 s ltac:(lia) ltac:(lia)).
    pose proof (halfEven_factor n (d * 2 ^ s) ltac:(nia)) as [H1 H2]. pose proof (halfEven_nonneg n (d * 2 ^ s) Hn ltac:(nia)).
    exists (halfEven n (d * 2 ^ s) * 2 ^ s), 1. split_and!; [done|nia|lia|nia|nia].
  - set (s := - (e - (p - 1))) in *. pose proof (Z.pow_pos_nonneg 2 s ltac:(lia) ltac:(lia)).
    assert (d <= n * 2 ^ s) as Hds.
    { destruct (Z.le_gt_cases 0 e).
      - rewrite Z.max_r, Z.max_l, Z.pow_0_r, Z.mul_1_r in He by lia. pose proof (Z.pow_pos_nonneg 2 e ltac:(lia) ltac:(lia)). nia.
      - rewrite Z.max_l, Z.max_r, Z.pow_0_r, Z.mul_1_r in He by lia. assert (2 ^ (- e) <= 2 ^ s) by (apply Z.pow_le_mono_r; lia). nia. }
    pose proof (halfEven_factor (n * 2 ^ s) d ltac:(lia)) as [H1 H2]. pose proof (halfEven_nonneg (n * 2 ^ s) d ltac:(nia) Hd).
    exists (halfEven (n * 2 ^ s) d), (2 ^ s). split_and!; [done|done|lia|nia|nia].
Qed.

Lemma ofInt_factor p x : 1 <= p -> 0 <= x -> exists a b, ofInt p x = Finite a b /\ 0 <= a /\ 0 < b /\ a <= 2 * (x * b) /\ x * b <= 2 * a.
Proof. intros Hp Hx. destruct (roundTo_factor p x 1 Hp Hx) as (a & b & E & H); [done|]. exists a, b. split; [exact E|]. lia. Qed.

(** A share is printed with at most four digits before the point. *)
Lemma percentage_bound x n : 0 <= x <= n -> 0 < n -> exists a b, percentage x n = Finite a b /\ 0 <= a /\ 0 < b /\ a <= 1600 * b.
Proof.
  intros Hx Hn. destruct (ofInt_factor 24 x) as (a & b & Ea & Ha & Hb & Ha1 & Ha2); [lia..|].
  destruct (ofInt_factor 24 n) as (c & e & Ec & Hc & He & Hc1 & Hc2); [lia..|].
  assert (0 < c) as Hc0 by nia. unfold percentage, ratio, floatBits, doubleBits. rewrite Ea, Ec. cbn [fdiv]. destruct (Z.eqb_spec c 0); [lia|].
  destruct (roundTo_factor 24 (a * e) (b * c)) as (f & g & Ef & Hf & Hg & Hf1 & _); [nia..|]. rewrite Ef. cbn [fmul].
  assert (f <= 8 * g) as Hf8.
  { assert (f * (b * c) <= 8 * g * (b * c)); [|nia]. assert (a * e <= 2 * (n * b * e)) by nia. assert (n * e * (b * g) <= 2 * c * (b * g)) by nia. nia. }
  destruct (roundTo_factor 53 (f * 100) (g * 1)) as (h & k & Eh & Hh & Hk & Hh1 & _); [nia..|]. rewrite Eh. exists h, k. split_and!; try done. nia.
Qed.

Lemma decimal_small n m : forall x l, 0 <= x < 10 ^ Z.of_nat m -> (0 < m)%nat -> (length (decimal n x l) <= m + length l)%nat.
Proof.
  revert m. induction n as [|n IH]; intros m x l Hx Hm; cbn [decimal]; [lia|]. destruct (Z.ltb_spec x 10); [cbn [length]; lia|].
  destruct m as [|m]; [lia|]. rewrite Nat2Z.inj_succ, Z.pow_succ_r in Hx by lia.
  assert (0 < m)%nat by (destruct m; [cbn in Hx; lia|lia]). etrans; [apply (IH m)|cbn [length]; lia]; [|done].
  split; [by apply Z.div_pos; lia|apply Z.div_lt_upper_bound; lia].
Qed.

Lemma percent_f_share nan x n : 0 <= x <= n -> 0 < n -> (length (percent_f nan 2 (percentage x n)) <= 7)%nat.
Proof.
  intros Hx Hn. destruct (percentage_bound x n Hx Hn) as (a & b & -> & Ha & Hb & Hab). cbn [percent_f]. rewrite !length_app, fraction_length.
  change (length (chars ".")) with 1%nat. change (10 ^ Z.of_nat 2) with 100. pose proof (halfEven_nearest (a * 100) b Hb).
  pose proof (halfEven_nonneg (a * 100) b ltac:(lia) Hb). set (v := halfEven (a * 100) b) in *.
  assert (0 <= v / 100 < 10 ^ Z.of_nat 4) as Hv.
  { split; [by apply Z.div_pos|]. apply Z.div_lt_upper_bound; [lia|]. change (10 ^ Z.of_nat 4) with 10000. nia. }
  pose proof (decimal_small 20 4 (v / 100) [] Hv ltac:(lia)). unfold percent_u. cbn [length] in *. lia.
Qed.

(** Half of a counter, two thirds, and a time. *)
Example percent_f_values : forall nan,
  (percent_f nan 2 (percentage 1 2), percent_f nan 2 (percentage 2 3), percent_f nan 2 (percentage 16777217 16777216),
   percent_f nan 8 (fdiv doubleBits (ofInt doubleBits 1) (ofInt doubleBits 3)), percent_f nan 2 (ratio 0 0), percent_f nan 2 (ratio 5 0),
   percent_f nan 2 (ratio 1 8)) =
  (chars "50.00", chars "66.67", chars "100.00", chars "0.33333333", nan, chars "inf", chars "0.12").
Proof. done. Qed.
