(* ===== verification/CtfRead.v ===== *)
(** * The streams of calls and returns are read back

    A reader of the streams of [CTFConverter], written from the metadata, and the proof that
    it gives back the calls and returns that the converter was told, with their times; and
    what each operation of the converter writes. *)

From stdpp Require Import strings.
From Stdlib Require Import Ascii.
From S2P Require Import Prelude Nexus Analytics ObjDump State Ctf.

(** ** The reader *)

Inductive CtfEvent :=
| FuncEntry (addr call_site : Z)
| FuncExit (addr call_site : Z)
| DumpStart
| BinInfo (baddr memsz : Z) (path : list Z) (is_pic has_build_id has_debug_link : Z)
| DumpEnd.
Record TimedEvent := { te_time : Z; te_vpid : Z; te_vtid : Z; te_procname : list Z; te_event : CtfEvent }.
Record Packet := { pk_stream : Z; pk_begin : Z; pk_end : Z; pk_cpu : Z; pk_events : list TimedEvent }.

(** An integer of [n] bytes. *)
Fixpoint getLE (n : nat) (l : list Z) : option (Z * list Z) :=
  match n with
  | O => Some (0, l)
  | S n => match l with [] => None | b :: l => '(x, l) ← getLE n l; Some (b + 256 * x, l) end
  end.
Definition getBytes (n : nat) (l : list Z) : option (list Z * list Z) :=
  if (n <=? length l)%nat then Some (take n l, drop n l) else None.
Fixpoint getString (l : list Z) : option (list Z * list Z) :=
  match l with
  | [] => None
  | 0 :: l => Some ([], l)
  | b :: l => '(s, l) ← getString l; Some (b :: s, l)
  end.

(** A time of which only the low 32 bits are known: the first that is not before [now]. *)
Definition advanceClock (now low : Z) : Z :=
  let t := now / 2 ^ 32 * 2 ^ 32 + low in if t <? now then t + 2 ^ 32 else t.

Definition getHeader (now : Z) (l : list Z) : option (Z * Z * list Z) :=
  '(id, l) ← getLE 2 l;
  if id =? 0xffff then '(id, l) ← getLE 4 l; '(ts, l) ← getLE 8 l; Some (id, ts, l)
  else '(low, l) ← getLE 4 l; Some (id, advanceClock now low, l).
Definition getPayload (id : Z) (l : list Z) : option (CtfEvent * list Z) :=
  match id with
  | 1 => '(a, l) ← getLE 8 l; '(s, l) ← getLE 8 l; Some (FuncEntry a s, l)
  | 2 => '(a, l) ← getLE 8 l; '(s, l) ← getLE 8 l; Some (FuncExit a s, l)
  | 3 => Some (DumpStart, l)
  | 4 =>
      '(a, l) ← getLE 8 l; '(s, l) ← getLE 8 l; '(path, l) ← getString l;
      '(f1, l) ← getLE 1 l; '(f2, l) ← getLE 1 l; '(f3, l) ← getLE 1 l; Some (BinInfo a s path f1 f2 f3, l)
  | 7 => Some (DumpEnd, l)
  | _ => None
  end.
Definition getEvent (now : Z) (l : list Z) : option (TimedEvent * list Z) :=
  '(id, ts, l) ← getHeader now l;
  '(vpid, l) ← getLE 4 l; '(vtid, l) ← getLE 4 l; '(name, l) ← getBytes 17 l;
  '(e, l) ← getPayload id l;
  Some ({| te_time := ts; te_vpid := vpid; te_vtid := vtid; te_procname := name; te_event := e |}, l).
Fixpoint getEvents (n : nat) (now : Z) (l : list Z) : option (list TimedEvent) :=
  match n, l with
  | _, [] => Some []
  | O, _ => None
  | S n, _ => '(e, l) ← getEvent now l; es ← getEvents n (te_time e) l; Some (e :: es)
  end.

(** The header, the context, and the events in what is left of its size; 60 bytes are before
    them. *)
Definition getPacket (l : list Z) : option (Packet * list Z) :=
  '(magic, l) ← getLE 4 l; '(stream, l) ← getLE 4 l;
  '(first, l) ← getLE 8 l; '(last, l) ← getLE 8 l; '(content, l) ← getLE 8 l; '(size, l) ← getLE 8 l;
  '(_, l) ← getLE 8 l; '(_, l) ← getLE 8 l; '(cpu, l) ← getLE 4 l;
  if (magic =? 0xc1fc1fc1) && (content =? size) && (480 <=? size) && (size mod 8 =? 0) then
    '(body, l) ← getBytes (Z.to_nat (size / 8 - 60)) l;
    es ← getEvents (length body) first body;
    Some ({| pk_stream := stream; pk_begin := first; pk_end := last; pk_cpu := cpu; pk_events := es |}, l)
  else None.
Fixpoint readStream (n : nat) (l : list Z) : option (list Packet) :=
  match n, l with
  | _, [] => Some []
  | O, _ => None
  | S n, _ => '(p, l) ← getPacket l; ps ← readStream n l; Some (p :: ps)
  end.

(** The metadata defines one stream, with the id 0 ([CTFMetadataStreamDef]), and all events are of it:
    a reader that keeps to this refuses a packet of another. *)
Definition definedStream (id : Z) : bool := id =? 0.
Definition readDefined (n : nat) (l : list Z) : option (list Packet) :=
  ps ← readStream n l; if forallb (fun p => definedStream (pk_stream p)) ps then Some ps else None.

(** ** Reading what was written *)

Lemma length_le n x : length (le n x) = n.
Proof. revert x. induction n as [|n IH]; intros x; cbn; [done|]. by rewrite IH. Qed.

Lemma getLE_mod n : forall x l, getLE n (le n x ++ l) = Some (x mod 256 ^ Z.of_nat n, l).
Proof.
  induction n as [|n IH]; intros x l; [cbn; by rewrite Z.mod_1_r|]. cbn [le app getLE]. rewrite IH. cbn [mbind option_bind].
  do 2 f_equal. rewrite Nat2Z.inj_succ, Z.pow_succ_r, Z.rem_mul_r by lia. lia.
Qed.
Lemma getLE_le n x l : 0 <= x < 256 ^ Z.of_nat n -> getLE n (le n x ++ l) = Some (x, l).
Proof. intros. by rewrite getLE_mod, Z.mod_small. Qed.

Lemma getLE_2 x l : 0 <= x < 2 ^ 16 -> getLE 2 (le 2 x ++ l) = Some (x, l).
Proof. apply (getLE_le 2). Qed.
Lemma getLE_4 x l : 0 <= x < 2 ^ 32 -> getLE 4 (le 4 x ++ l) = Some (x, l).
Proof. apply (getLE_le 4). Qed.
Lemma getLE_8 x l : 0 <= x < 2 ^ 64 -> getLE 8 (le 8 x ++ l) = Some (x, l).
Proof. apply (getLE_le 8). Qed.

Lemma getBytes_app n a l : length a = n -> getBytes n (a ++ l) = Some (a, l).
Proof.
  intros <-. unfold getBytes. rewrite length_app. destruct (Nat.leb_spec (length a) (length a + length l)); [|lia].
  by rewrite take_app_length, drop_app_length.
Qed.

Lemma getString_app s l : Forall (fun b => b <> 0) s -> getString (s ++ 0 :: l) = Some (s, l).
Proof. induction 1 as [|b s Hb _ IH]; [done|]. cbn. rewrite IH. by destruct b. Qed.

Lemma advance_clock now t : now <= t < now + 2 ^ 32 -> advanceClock now (t mod 2 ^ 32) = t.
Proof.
  intros H. unfold advanceClock. pose proof (Z.div_mod t (2 ^ 32) ltac:(lia)). pose proof (Z.div_mod now (2 ^ 32) ltac:(lia)).
  pose proof (Z.mod_pos_bound t (2 ^ 32) ltac:(lia)). pose proof (Z.mod_pos_bound now (2 ^ 32) ltac:(lia)).
  assert (t / 2 ^ 32 = now / 2 ^ 32 \/ t / 2 ^ 32 = now / 2 ^ 32 + 1) as [E|E] by nia.
  - destruct (Z.ltb_spec (now / 2 ^ 32 * 2 ^ 32 + t mod 2 ^ 32) now); lia.
  - destruct (Z.ltb_spec (now / 2 ^ 32 * 2 ^ 32 + t mod 2 ^ 32) now); lia.
Qed.

(** ** Calls and returns *)

(** A call of [addCall] or [addRet]. *)
Record Added := { ad_core : Z; ad_ret : bool; ad_src : Z; ad_dst : Z; ad_time : Z }.
Definition added_ok (a : Added) : Prop :=
  0 <= ad_src a < 2 ^ 64 /\ 0 <= ad_dst a < 2 ^ 64 /\ 0 <= ad_time a < 2 ^ 64.
Definition addedId (a : Added) : Z := if ad_ret a then event_funcExit else event_funcEntry.
Definition addOne (a : Added) : M CTFConverter DQErr unit :=
  (if ad_ret a then addRet else addCall) (ad_core a) (ad_src a) (ad_dst a) (ad_time a).

(** What is to be read of it. *)
Definition timedOf (x : EventContext) (t : Z) (e : CtfEvent) : TimedEvent :=
  {| te_time := t; te_vpid := ec_vpid x; te_vtid := ec_vtid x; te_procname := ec_procname x; te_event := e |}.
Definition eventOf (a : Added) : CtfEvent := if ad_ret a then FuncExit (ad_src a) (ad_dst a) else FuncEntry (ad_src a) (ad_dst a).
Definition addedEvent (x : EventContext) (a : Added) : TimedEvent := timedOf x (ad_time a) (eventOf a).

Definition context_ok (x : EventContext) : Prop :=
  0 <= ec_vpid x < 2 ^ 32 /\ 0 <= ec_vtid x < 2 ^ 32 /\ length (ec_procname x) = 17%nat.

(** The event in the buffer: the first of a packet is in the extended form. *)
Definition evOf (first : bool) (a : Added) : Event := {|
  ev_header := if first then Extended (addedId a) (ad_time a) else Compact (addedId a) (u32 (ad_time a));
  ev_pc := ad_src a; ev_pcDst := ad_dst a |}.
Definition groupEvents (g : list Added) : list Event :=
  match g with [] => [] | a :: g => evOf true a :: (evOf false <$> g) end.
Definition eventBytes (x : EventContext) (e : Event) : list Z :=
  headerBytes (ev_header e) ++ contextBytes x ++ le 8 (ev_pc e) ++ le 8 (ev_pcDst e).

(** Each time is less than 2^32 after the one before it. *)
Fixpoint timesFrom (now : Z) (l : list Added) : Prop :=
  match l with [] => True | a :: l => now <= ad_time a < now + 2 ^ 32 /\ timesFrom (ad_time a) l end.
Definition times_ok (l : list Added) : Prop := match l with [] => True | a :: l => timesFrom (ad_time a) l end.

Lemma getPayload_added a l : added_ok a -> getPayload (addedId a) (le 8 (ad_src a) ++ le 8 (ad_dst a) ++ l) = Some (eventOf a, l).
Proof.
  intros (Hs & Hd & _). unfold addedId, eventOf. destruct (ad_ret a); cbn [getPayload event_funcExit event_funcEntry];
    rewrite getLE_8 by done; cbn [mbind option_bind]; rewrite getLE_8 by done; done.
Qed.

(** After the header of an event comes the same for every one. *)
Lemma getEvent_bytes x now h id t payload e l : context_ok x ->
  (forall l, getHeader now (h ++ l) = Some (id, t, l)) -> (forall l, getPayload id (payload ++ l) = Some (e, l)) ->
  getEvent now (h ++ contextBytes x ++ payload ++ l) = Some (timedOf x t e, l).
Proof.
  intros (Hp & Ht & Hn) Hh Hpay. unfold getEvent, contextBytes. rewrite Hh. cbn [mbind option_bind]. rewrite <-!app_assoc.
  rewrite getLE_4 by done. cbn [mbind option_bind]. rewrite getLE_4 by done. cbn [mbind option_bind].
  rewrite getBytes_app by done. cbn [mbind option_bind]. by rewrite Hpay.
Qed.

Lemma getHeader_extended now id t l : 0 <= id < 2 ^ 32 -> 0 <= t < 2 ^ 64 ->
  getHeader now (headerBytes (Extended id t) ++ l) = Some (id, t, l).
Proof.
  intros Hi Ht. unfold getHeader, headerBytes. rewrite <-!app_assoc, getLE_2 by (unfold event_extended; lia). cbn [mbind option_bind].
  change (event_extended =? 65535) with true. cbv iota. rewrite getLE_4 by done. cbn [mbind option_bind].
  by rewrite getLE_8 by done.
Qed.
Lemma getHeader_compact now id t l : 0 <= id < 0xffff -> now <= t < now + 2 ^ 32 ->
  getHeader now (headerBytes (Compact id (u32 t)) ++ l) = Some (id, t, l).
Proof.
  intros Hi Ht. unfold getHeader, headerBytes. rewrite <-!app_assoc, getLE_2 by lia. cbn [mbind option_bind].
  destruct (Z.eqb_spec id 65535); [lia|]. pose proof (Z.mod_pos_bound t (2 ^ 32) ltac:(lia)) as Hm.
  unfold u32, wrap. rewrite getLE_4 by lia. cbn [mbind option_bind]. by rewrite advance_clock.
Qed.

Lemma addedId_range a : 0 <= addedId a < 0xffff.
Proof. unfold addedId. by destruct (ad_ret a). Qed.

Lemma getEvent_added x first now a l : context_ok x -> added_ok a -> (first = false -> now <= ad_time a < now + 2 ^ 32) ->
  getEvent now (eventBytes x (evOf first a) ++ l) = Some (addedEvent x a, l).
Proof.
  intros Hx Ha Ht. pose proof (addedId_range a). unfold eventBytes. rewrite <-!app_assoc.
  rewrite (app_assoc (le 8 _)). apply (getEvent_bytes x now _ (addedId a)); [done| |].
  - intros l'. destruct first; cbn [evOf ev_header].
    + apply getHeader_extended; [lia|apply Ha].
    + apply getHeader_compact; [lia|by apply Ht].
  - intros l'. rewrite <-app_assoc. by apply getPayload_added.
Qed.

Lemma eventBytes_length x e : context_ok x ->
  length (eventBytes x e) = (match ev_header e with Compact _ _ => 47 | Extended _ _ => 55 end)%nat.
Proof.
  intros (_ & _ & Hn). unfold eventBytes, contextBytes. rewrite !length_app, Hn, !length_le.
  destruct (ev_header e); cbn [headerBytes]; by rewrite !length_app, !length_le.
Qed.

Lemma getEvents_cons n now b l e l' es : getEvent now (b ++ l) = Some (e, l') -> b <> [] -> getEvents n (te_time e) l' = Some es ->
  getEvents (S n) now (b ++ l) = Some (e :: es).
Proof.
  intros E Hb Es. destruct b as [|z b]; [done|]. cbn [app] in *. cbn [getEvents]. rewrite E. cbn [mbind option_bind]. by rewrite Es.
Qed.

Lemma bytes_nonempty x e : context_ok x -> eventBytes x e <> [].
Proof. intros Hx E. pose proof (eventBytes_length x e Hx) as H. rewrite E in H. by destruct (ev_header e). Qed.

Lemma getEvents_compact x g : context_ok x -> Forall added_ok g -> forall n now, timesFrom now g -> (length g <= n)%nat ->
  getEvents n now (concat (eventBytes x <$> (evOf false <$> g))) = Some (addedEvent x <$> g).
Proof.
  intros Hx. induction 1 as [|a g Ha _ IH]; intros n now Ht Hn; [by destruct n|].
  destruct n as [|n]; cbn in Hn; [lia|]. destruct Ht as [Ht Hts]. cbn [fmap list_fmap concat].
  eapply getEvents_cons; [by apply getEvent_added|by apply bytes_nonempty|]. apply IH; [done|lia].
Qed.

Lemma getEvents_group x g n now : context_ok x -> Forall added_ok g -> times_ok g -> (length g <= n)%nat ->
  getEvents n now (concat (eventBytes x <$> groupEvents g)) = Some (addedEvent x <$> g).
Proof.
  intros Hx Hg Ht Hn. destruct Hg as [|a g Ha Hg]; [by destruct n|]. destruct n as [|n]; cbn in Hn; [lia|].
  cbn [groupEvents fmap list_fmap concat]. eapply getEvents_cons; [by apply getEvent_added|by apply bytes_nonempty|].
  apply getEvents_compact; try done. lia.
Qed.

(** ** Packets *)

Definition packetBytes (k first last seq : Z) (body : list Z) : list Z :=
  (le 4 0xc1fc1fc1 ++ le 4 k) ++ (le 8 first ++ le 8 last ++ le 8 (packetBits (Z.of_nat (length body))) ++
   le 8 (packetBits (Z.of_nat (length body))) ++ le 8 seq ++ le 8 0 ++ le 4 k) ++ body.

Lemma packetBits_small n : 0 <= n < 2 ^ 27 -> packetBits n = 8 * (n + 60).
Proof. intros H. unfold packetBits, sizeofContext. rewrite i32_small, (u64_small (n * 8)), u64_small by lia. lia. Qed.

Lemma getPacket_bytes k first last seq body es l : 0 <= k < 2 ^ 32 -> 0 <= first < 2 ^ 64 ->
  Z.of_nat (length body) < 2 ^ 27 -> getEvents (length body) first body = Some es ->
  getPacket (packetBytes k first last seq body ++ l) =
    Some ({| pk_stream := k; pk_begin := first; pk_end := last mod 2 ^ 64; pk_cpu := k; pk_events := es |}, l).
Proof.
  intros Hk Hf Hb He. unfold getPacket, packetBytes. rewrite <-!app_assoc.
  do 2 (rewrite getLE_4 by lia; cbn [mbind option_bind]). rewrite getLE_8 by lia. cbn [mbind option_bind].
  rewrite getLE_mod. cbn [mbind option_bind]. rewrite packetBits_small by lia. do 2 (rewrite getLE_8 by lia; cbn [mbind option_bind]). rewrite getLE_mod. cbn [mbind option_bind].
  rewrite getLE_8 by lia; cbn [mbind option_bind]. rewrite getLE_4 by lia; cbn [mbind option_bind].
  rewrite !Z.eqb_refl. destruct (Z.leb_spec 480 (8 * (Z.of_nat (length body) + 60))); [|lia].
  replace (8 * (Z.of_nat (length body) + 60)) with ((Z.of_nat (length body) + 60) * 8) by lia. rewrite Z.mod_mul, Z.div_mul by lia.
  cbn [andb Z.eqb]. rewrite getBytes_app by lia. cbn [mbind option_bind]. by rewrite He.
Qed.

(** The packet that tells the program. *)
Definition dumpPiece (x : EventContext) (id t : Z) (payload : list Z) : list Z :=
  headerBytes (Extended id t) ++ contextBytes x ++ payload.
Definition binInfoBytes (name : list Z) : list Z :=
  le 8 0x40000000 ++ le 8 0x10000000 ++ (name ++ [0]) ++ le 1 0 ++ le 1 0 ++ take 1 (le 8 0x40000000).
Definition dumpBody (x : EventContext) (name : list Z) (t : Z) : list Z :=
  dumpPiece x event_stateDumpStart t [] ++ dumpPiece x event_stateDumpBinInfo t (binInfoBytes name) ++
  dumpPiece x event_stateDumpEnd t [].
Definition dumpEvents (x : EventContext) (name : list Z) (t : Z) : list TimedEvent :=
  timedOf x t <$> [DumpStart; BinInfo 0x40000000 0x10000000 name 0 0 0; DumpEnd].

Lemma getEvents_piece n now x id t payload e l es : context_ok x -> 0 <= id < 2 ^ 32 -> 0 <= t < 2 ^ 64 ->
  (forall l, getPayload id (payload ++ l) = Some (e, l)) -> getEvents n t l = Some es ->
  getEvents (S n) now (dumpPiece x id t payload ++ l) = Some (timedOf x t e :: es).
Proof.
  intros Hx Hi Ht Hp Hes. apply (getEvents_cons _ _ _ _ (timedOf x t e) l); [|done|done].
  unfold dumpPiece. rewrite <-!app_assoc. apply (getEvent_bytes x now _ id); try done. intros l'. by apply getHeader_extended.
Qed.

Lemma getEvents_dump x name t n now : context_ok x -> Forall (fun b => b <> 0) name -> 0 <= t < 2 ^ 64 -> (3 <= n)%nat ->
  getEvents n now (dumpBody x name t) = Some (dumpEvents x name t).
Proof.
  intros Hx Hname Ht Hn. destruct n as [|[|[|n]]]; try lia. unfold dumpBody, dumpEvents. cbn [fmap list_fmap].
  apply getEvents_piece; try done. apply getEvents_piece; try done.
  - intros l. unfold binInfoBytes. rewrite <-!app_assoc. cbn [getPayload event_stateDumpBinInfo].
    rewrite getLE_8 by done. cbn [mbind option_bind]. rewrite getLE_8 by done. cbn [mbind option_bind app].
    by rewrite getString_app.
  - rewrite <-(app_nil_r (dumpPiece _ _ _ [])). apply getEvents_piece; try done. by destruct n.
Qed.

(** ** What the converter writes

    The operations of [CTFConverter] on the file of a core, and the streams that any sequence
    of calls and returns leaves in the files. *)

(** *** One core *)

Section core.
Context (k : nat) (s : CTFConverter) (Hk : (k < length (cf_cores s))%nat).
#[local] Abbreviation K := (Z.of_nat k).

Definition put (c : CTFCore) : CTFConverter := set_cf_cores (<[k := c]> (cf_cores s)) s.
Definition wrote (bytes : list Z) (c : CTFCore) : CTFCore := set_fd ((fun f => f ++ bytes) <$> cr_fd c) c.

Lemma wrote_wrote a b c : wrote b (wrote a c) = wrote (a ++ b) c.
Proof using. unfold wrote, set_fd. cbn. destruct (cr_fd c); cbn; by rewrite ?app_assoc. Qed.
Lemma wrote_nil c : wrote [] c = c.
Proof using. unfold wrote, set_fd. destruct c as [[f|] ? ? ? ?]; cbn; by rewrite ?app_nil_r. Qed.

Lemma ctfCore_ok c : ctfCore K (put c) = Ok (put c) c.
Proof using Hk.
  unfold ctfCore. rewrite bind_get. destruct (Z.leb_spec 0 K); [|lia]. cbn [put set_cf_cores cf_cores].
  by rewrite Nat2Z.id, list_lookup_insert_eq.
Qed.

Lemma updCTFCore_ok f c : updCTFCore K f (put c) = Ok (put (f c)) tt.
Proof using Hk.
  unfold updCTFCore. rewrite (bind_ok _ _ _ _ _ (ctfCore_ok c)). unfold modify. f_equal. unfold put, set_cf_cores. cbn. f_equal.
  rewrite Nat2Z.id. apply list_eq. intros i. destruct (decide (k = i)) as [<-|Hne].
  - by rewrite list_lookup_alter_eq, !list_lookup_insert_eq.
  - by rewrite list_lookup_alter_ne, !list_lookup_insert_ne by done.
Qed.

Context (c : CTFCore) (Hopen : is_Some (cr_fd c)).

Lemma ctfWrite_ok bytes : ctfWrite K bytes (put c) = Ok (put (wrote bytes c)) (Z.of_nat (length bytes)).
Proof using Hk Hopen.
  unfold ctfWrite. rewrite (bind_ok _ _ _ _ _ (ctfCore_ok c)). destruct Hopen as [f E]. rewrite E.
  rewrite (bind_ok _ _ _ _ _ (updCTFCore_ok _ c)). unfold mret, M_ret. f_equal. unfold wrote. by rewrite E.
Qed.
Lemma wrote_open bytes : is_Some (cr_fd (wrote bytes c)).
Proof using Hopen. destruct Hopen as [f E]. unfold wrote. cbn. rewrite E. by eexists. Qed.
End core.

(** An operation that writes these bytes to the file of the core and returns. *)
Definition writes (k : nat) (m : M CTFConverter DQErr unit) (s : CTFConverter) (bytes : list Z) (P : CTFCore -> Prop) : Prop :=
  forall c, is_Some (cr_fd c) -> P c -> m (put k s c) = Ok (put k s (wrote bytes c)) tt.

Section writing.
Context (k : nat) (s : CTFConverter) (Hk : (k < length (cf_cores s))%nat) (x : EventContext).
Context (P : CTFCore -> Prop) (HP : forall c b, P c -> P (wrote b c)) (HPx : forall c, P c -> cr_eventContext c = x).
#[local] Abbreviation K := (Z.of_nat k).
#[local] Abbreviation W m bytes := (writes k m s bytes P).

Lemma writes_bind m1 (m2 : unit -> M CTFConverter DQErr unit) a b : W m1 a -> W (m2 tt) b -> W (m1 ≫= m2) (a ++ b).
Proof using HP.
  intros H1 H2 c Ho Hx. rewrite (bind_ok _ _ _ _ _ (H1 c Ho Hx)), <-wrote_wrote. apply H2; [by apply wrote_open|by apply HP].
Qed.
Lemma writes_write (m : Z -> M CTFConverter DQErr unit) a b : W (m (Z.of_nat (length a))) b -> W (ctfWrite K a ≫= m) (a ++ b).
Proof using Hk HP HPx.
  intros H c Ho Hx. rewrite (bind_ok _ _ _ _ _ (ctfWrite_ok k s Hk c Ho a)), <-wrote_wrote. apply H; [by apply wrote_open|by apply HP].
Qed.
Lemma writes_last (m : Z -> M CTFConverter DQErr unit) a : W (m (Z.of_nat (length a))) [] -> W (ctfWrite K a ≫= m) a.
Proof using Hk HP HPx. intros H. pose proof (writes_write m a [] H) as Hw. by rewrite app_nil_r in Hw. Qed.
Lemma writes_ret : W (mret tt) [].
Proof using. intros c _ _. by rewrite wrote_nil. Qed.
Lemma writes_context (m : CTFCore -> M CTFConverter DQErr unit) b :
  (forall c, P c -> W (m c) b) -> W (ctfCore K ≫= m) b.
Proof using Hk HP HPx. intros H c Ho Hx. rewrite (bind_ok _ _ _ _ _ (ctfCore_ok k s Hk c)). by apply (H c Hx). Qed.
Lemma writes_ignoring m b : W m b -> W (ignoring m) b.
Proof using. intros H c Ho Hx. unfold ignoring. by rewrite (H c Ho Hx). Qed.
Lemma writes_name (m : CTFConverter -> M CTFConverter DQErr unit) b : (forall c, W (m (put k s c)) b) -> W (get ≫= m) b.
Proof using. intros H c Ho Hx. rewrite bind_get. by apply H. Qed.

Lemma writeStreamHeaders_ok first last size :
  W (writeStreamHeaders K first last size)
    ((le 4 0xc1fc1fc1 ++ le 4 K) ++ (le 8 first ++ le 8 last ++ le 8 (packetBits size) ++ le 8 (packetBits size) ++
     le 8 (cf_packetSeqNum s) ++ le 8 0 ++ le 4 K)).
Proof using Hk HP HPx.
  apply writes_bind; apply writes_ignoring.
  - apply writes_last. rewrite length_app, !length_le. apply writes_ret.
  - apply writes_name. intros c. apply writes_last.
    rewrite !length_app, !length_le. apply writes_ret.
Qed.

Lemma writeDumpEvent_ok id t : W (writeDumpEvent K id t) (dumpPiece x id t []).
Proof using Hk HP HPx.
  apply writes_write. apply writes_context. intros c Hc. rewrite (HPx c Hc). apply writes_write. apply writes_ret.
Qed.

(** *** Events *)

(** The buffer has these events. *)
Definition holding (evs : list Event) (c : CTFCore) : Prop :=
  exists b, cr_eventBuffer c = Some b /\ length b = 20%nat /\ cr_eventIndex c = Z.of_nat (length evs) /\
    forall i e, evs !! i = Some e -> b !! i = Some (Some e).

Context (evs : list Event) (HPe : forall c, P c -> holding evs c).

Lemma eventAt_ok c i e : P c -> evs !! i = Some e -> eventAt K i (put k s c) = Ok (put k s c) e.
Proof using Hk HPe.
  intros Hc He. destruct (HPe c Hc) as (b & Eb & _ & _ & Hb). unfold eventAt.
  rewrite (bind_ok _ _ _ _ _ (ctfCore_ok k s Hk c)), Eb. cbn [mbind option_bind]. by rewrite (Hb i e He).
Qed.

Definition isCallRet (e : Event) : Prop := eventType (ev_header e) = event_funcEntry \/ eventType (ev_header e) = event_funcExit.

Lemma writeEvent_ok i e : evs !! i = Some e -> isCallRet e -> W (writeEvent K i) (eventBytes x e).
Proof using Hk HP HPx HPe.
  intros He Ht c Ho Hc. unfold writeEvent. rewrite (bind_ok _ _ _ _ _ (eventAt_ok c i e Hc He)). revert c Ho Hc.
  apply writes_write, writes_context. intros c Hc. rewrite (HPx c Hc). apply writes_write.
  assert ((eventType (ev_header e) =? event_funcEntry) || (eventType (ev_header e) =? event_funcExit) = true) as ->
    by (by destruct Ht as [-> | ->]).
  apply writes_last, writes_ret.
Qed.

Lemma writeEvents_ok n : forall i es, Forall isCallRet es -> length es = n -> (forall j e, es !! j = Some e -> evs !! (i + j)%nat = Some e) ->
  W (writeEvents K i n) (concat (eventBytes x <$> es)).
Proof using Hk HP HPx HPe.
  induction n as [|n IH]; intros i [|e es] Ht Hn He; try done; [apply writes_ret|].
  apply list.Forall_cons in Ht as [Ht Hts]. cbn [writeEvents fmap list_fmap concat]. apply writes_bind.
  - apply writes_ignoring, writeEvent_ok; [|done]. rewrite <-(Nat.add_0_r i). by apply (He O).
  - apply IH; [done|by injection Hn|]. intros j e' Hj. replace (S i + j)%nat with (i + S j)%nat by lia. by apply He.
Qed.

Lemma eventSize_ok e : context_ok x -> isCallRet e -> eventSize e = Some (Z.of_nat (length (eventBytes x e))).
Proof using Type.
  intros Hx Ht. rewrite eventBytes_length by done. unfold eventSize.
  assert ((eventType (ev_header e) =? event_funcEntry) || (eventType (ev_header e) =? event_funcExit) = true) as ->
    by (by destruct Ht as [-> | ->]).
  by destruct (ev_header e).
Qed.

Lemma addSizes_ok c : context_ok x -> P c -> forall n i es size, Forall isCallRet es -> length es = n ->
  (forall j e, es !! j = Some e -> evs !! (i + j)%nat = Some e) -> 0 <= size ->
  size + Z.of_nat (length (concat (eventBytes x <$> es))) < 2 ^ 31 ->
  addSizes K i n size (put k s c) = Ok (put k s c) (size + Z.of_nat (length (concat (eventBytes x <$> es)))).
Proof using Hk HPe.
  intros Hx Hc n. induction n as [|n IH]; intros i [|e es] size Ht Hn He H0 Hmax; try done.
  - cbn. by rewrite Z.add_0_r.
  - apply list.Forall_cons in Ht as [Ht Hts]. cbn [addSizes fmap list_fmap concat] in *. rewrite length_app in *.
    assert (evs !! i = Some e) as Hi by (rewrite <-(Nat.add_0_r i); by apply (He O)).
    rewrite (bind_ok _ _ _ _ _ (eventAt_ok c i e Hc Hi)), (eventSize_ok e Hx Ht), i32_small by lia.
    rewrite (IH (S i) es); [f_equal; lia|done|by injection Hn| |lia|lia].
    intros j e' Hj. replace (S i + j)%nat with (i + S j)%nat by lia. by apply He.
Qed.

Lemma writeBinInfo_ok t name : cf_elfName s = Some name -> Z.of_nat (length name) < 2 ^ 20 -> context_ok x ->
  W (writeBinInfo K t) (packetBytes K t t (cf_packetSeqNum s) (dumpBody x name t)).
Proof using Hk HP HPx.
  intros Hname Hlen Hx.
  assert (Z.of_nat (length (dumpBody x name t)) = 14 * 3 + 25 * 3 + (8 + 8 + (Z.of_nat (length name) + 1) + 1 + 1 + 1)) as Hbody.
  { destruct Hx as (_ & _ & Hp). unfold dumpBody, dumpPiece, binInfoBytes, contextBytes, headerBytes.
    rewrite !length_app, length_take, !length_le, Hp. cbn [length]. lia. }
  intros c Ho Hc. unfold writeBinInfo, computeBinInfoSize. rewrite bind_assoc, bind_get. change (cf_elfName (put k s c)) with (cf_elfName s).
  rewrite Hname, bind_assoc, lift_bind, ret_bind. unfold sizeofEventContext. rewrite <-Hbody, i32_small by lia.
  unfold packetBytes. rewrite (app_assoc (_ ++ _)). revert c Ho Hc.
  apply writes_bind; [apply writeStreamHeaders_ok|]. unfold dumpBody.
  apply writes_bind; [apply writeDumpEvent_ok|].
  assert (forall y, dumpPiece x event_stateDumpBinInfo t (binInfoBytes name) ++ y = dumpPiece x event_stateDumpBinInfo t [] ++
    le 8 0x40000000 ++ le 8 0x10000000 ++ (name ++ [0]) ++ le 1 0 ++ le 1 0 ++ take 1 (le 8 0x40000000) ++ y) as ->.
  { intros y. unfold dumpPiece, binInfoBytes. by rewrite <-!app_assoc. }
  apply writes_bind; [apply writeDumpEvent_ok|]. do 2 apply writes_write. apply writes_name. intros c.
  change (cf_elfName (put k s c)) with (cf_elfName s). rewrite Hname. unfold lift_opt at 1.
  apply writes_write, writes_write, writes_write, writes_write. apply writeDumpEvent_ok.
Qed.
End writing.

(** *** Flushing *)

Section flushing.
Context (k : nat) (s : CTFConverter) (Hk : (k < length (cf_cores s))%nat) (x : EventContext) (Hx : context_ok x).
Context (name : list Z) (Hname : cf_elfName s = Some name) (Hlen : Z.of_nat (length name) < 2 ^ 20).
#[local] Abbreviation K := (Z.of_nat k).

Definition ready (evs : list Event) (c : CTFCore) : Prop := cr_eventContext c = x /\ holding evs c.
Lemma ready_wrote evs c b : ready evs c -> ready evs (wrote b c).
Proof using Type. done. Qed.

Lemma group_callret g : Forall isCallRet (groupEvents g).
Proof using Type.
  assert (forall b a, isCallRet (evOf b a)) as H.
  { intros b a. unfold isCallRet, evOf, addedId. destruct b, (ad_ret a); cbn; by (left + right). }
  destruct g as [|a g]; [constructor|]. constructor; [apply H|]. apply list.Forall_fmap, list.Forall_true. intros. apply H.
Qed.
Lemma group_length g : length (groupEvents g) = length g.
Proof using Type. destruct g; cbn; by rewrite ?length_fmap. Qed.
Lemma group_body g : (length g <= 16)%nat -> 0 <= Z.of_nat (length (concat (eventBytes x <$> groupEvents g))) < 1000.
Proof using Hx.
  clear Hk Hlen Hname. assert (forall l : list Added, length (concat (eventBytes x <$> (evOf false <$> l))) = (47 * length l)%nat) as H.
  { induction l as [|a l IH]; [done|]. cbn [fmap list_fmap concat]. rewrite length_app, (eventBytes_length x _ Hx). cbn in *. lia. }
  destruct g as [|a g]; cbn [groupEvents fmap list_fmap concat length]; [cbn; lia|]. rewrite length_app, (eventBytes_length x _ Hx), H.
  cbn [evOf ev_header]. lia.
Qed.

(** The bytes of a flush, and the core after it. *)
Definition lastTime (g : list Added) (t : Z) : Z :=
  match groupEvents g with
  | e :: es => packetEnd e (default e (list.last es)) (Z.of_nat (length g)) t
  | [] => 0
  end.
Definition flushBytes (flag : bool) (seq : Z) (g : list Added) : list Z :=
  match g with
  | [] => []
  | a :: _ =>
      (if flag then [] else packetBytes K (ad_time a) (ad_time a) seq (dumpBody x name (ad_time a))) ++
      packetBytes K (ad_time a) (lastTime g (ad_time a)) seq (concat (eventBytes x <$> groupEvents g))
  end.
Definition flushed (seq : Z) (g : list Added) (c : CTFCore) : CTFCore :=
  set_eventIndex 0 (set_headerFlag true (wrote (flushBytes (cr_headerFlag c) seq g) c)).

Lemma flushEvents_ok g c : g <> [] -> (length g <= 16)%nat -> is_Some (cr_fd c) -> ready (groupEvents g) c ->
  flushEvents K (put k s c) =
    Ok (put k (set_packetSeqNum (i32 (cf_packetSeqNum s + 1)) s) (flushed (cf_packetSeqNum s) g c)) tt.
Proof using Hk Hx Hname Hlen.
  intros Hg Hl Ho Hc. destruct g as [|a g]; [done|]. set (evs := groupEvents (a :: g)) in *.
  assert (evs !! 0%nat = Some (evOf true a)) as H0 by done.
  destruct Hc as [Hctx Hh]. pose proof Hh as (b & Eb & _ & Ei & _).
  pose proof (group_length (a :: g)) as Elen. fold evs in Elen. rewrite Elen in Ei.
  unfold flushEvents. rewrite (bind_ok _ _ _ _ _ (ctfCore_ok k s Hk c)), Ei, Eb.
  destruct (Z.eqb_spec (Z.of_nat (length (a :: g))) 0); [cbn in *; lia|].
  set (dump := if cr_headerFlag c then [] else packetBytes K (ad_time a) (ad_time a) (cf_packetSeqNum s) (dumpBody x name (ad_time a))).
  set (c1 := set_headerFlag true (wrote dump c)).
  set (P := ready evs).
  assert (forall c b, P c -> P (wrote b c)) as HP by done.
  assert (forall c, P c -> cr_eventContext c = x) as HPx by (intros ? [? _]; done).
  assert (forall c, P c -> holding evs c) as HPe by (intros ? [_ ?]; done).
  assert (P c) as Hc by done. assert (P c1) as Hc1 by done.
  assert (is_Some (cr_fd c1)) as Ho1 by (by apply (wrote_open c Ho)).
  erewrite bind_ok.
  2: { instantiate (1 := tt). instantiate (1 := put k s c1). unfold c1, dump. destruct (cr_headerFlag c) eqn:Ef.
       - rewrite wrote_nil. unfold mret, M_ret. f_equal. f_equal. by destruct c; cbn in *; subst.
       - rewrite (bind_ok _ _ _ _ _ (eventAt_ok k s Hk P evs HPe c 0 _ Hc H0)). cbn [evOf ev_header extendedTimestamp]. rewrite lift_bind.
         rewrite (bind_ok _ _ _ _ _ (writeBinInfo_ok k s Hk x P HP HPx _ name Hname Hlen Hx c Ho Hc)). by rewrite updCTFCore_ok. }
  assert (computeEventSizes K (put k s c1) = Ok (put k s c1) (Z.of_nat (length (concat (eventBytes x <$> evs))))) as Esize.
  { unfold computeEventSizes. rewrite (bind_ok _ _ _ _ _ (ctfCore_ok k s Hk c1)). change (cr_eventIndex c1) with (cr_eventIndex c).
    rewrite Ei, Nat2Z.id. pose proof (group_body (a :: g) Hl) as Hbody. fold evs in Hbody.
    rewrite (addSizes_ok k s Hk x P evs HPe c1 Hx Hc1 _ 0 evs); [done|apply group_callret|done|done|lia|lia]. }
  erewrite bind_ok by (by rewrite Esize). cbv iota.
  rewrite (bind_ok _ _ _ _ _ (eventAt_ok k s Hk P evs HPe c1 0 _ Hc1 H0)). cbn [evOf ev_header extendedTimestamp]. rewrite lift_bind.
  fold (evOf true a). set (last := default (evOf true a) (list.last (evOf false <$> g))).
  assert (evs !! Z.to_nat (Z.of_nat (length (a :: g)) - 1) = Some last) as Hlast.
  { replace (Z.to_nat (Z.of_nat (length (a :: g)) - 1)) with (pred (length evs)) by (rewrite Elen; lia).
    rewrite <-last_lookup. unfold last, evs. cbn [groupEvents]. rewrite last_cons. by destruct (list.last _). }
  rewrite (bind_ok _ _ _ _ _ (eventAt_ok k s Hk P evs HPe c1 _ _ Hc1 Hlast)).
  rewrite (bind_ok _ _ _ _ _ (writeStreamHeaders_ok k s Hk x P HP HPx _ _ _ c1 Ho1 Hc1)).
  erewrite bind_ok.
  2: { apply (writeEvents_ok k s Hk x P HP HPx evs HPe _ 0 evs); [apply group_callret|lia|done|by apply wrote_open|done]. }
  rewrite (bind_ok _ _ _ _ _ (updCTFCore_ok k s Hk _ _)). unfold modify. f_equal.
  unfold flushed, put, set_packetSeqNum, set_cf_cores. cbn [cf_cores cf_status cf_numCores cf_packetSeqNum cf_frequency cf_archSize cf_elfName cf_metadata].
  do 2 f_equal. rewrite wrote_wrote. unfold c1. f_equal. unfold flushBytes. fold dump.
  rewrite <-(wrote_wrote dump). unfold packetBytes at 1. rewrite app_assoc. done.
Qed.
End flushing.

(** *** The stream of a core *)

Section stream.
Context (k : nat) (x : EventContext) (name : list Z).
#[local] Abbreviation K := (Z.of_nat k).

(** The groups that were flushed, with the number of their packet. *)
Fixpoint streamBytes (flag : bool) (gs : list (Z * list Added)) : list Z :=
  match gs with [] => [] | (seq, g) :: gs => flushBytes k x name flag seq g ++ streamBytes true gs end.
Definition isGroup (g : Z * list Added) : Prop := g.2 <> [] /\ (length g.2 <= 16)%nat.

Lemma streamBytes_app gs seq g : forall flag,
  streamBytes flag (gs ++ [(seq, g)]) = streamBytes flag gs ++ flushBytes k x name (flag || bool_decide (gs <> [])) seq g.
Proof using Type.
  induction gs as [|[seq' g'] gs IH]; intros flag; cbn [streamBytes app].
  - by rewrite orb_false_r, app_nil_r.
  - rewrite IH, app_assoc. f_equal. f_equal. by destruct flag.
Qed.

(** What the buffer and the file of a core have of the events that were added. *)
Record core_inv (c : CTFCore) (ops : list Added) (gs : list (Z * list Added)) (pending : list Added) : Prop := {
  ci_ops : ops = concat (snd <$> gs) ++ pending;
  ci_groups : Forall isGroup gs;
  ci_pending : (length pending <= 16)%nat;
  ci_file : cr_fd c = Some (streamBytes false gs);
  ci_flag : cr_headerFlag c = bool_decide (gs <> []);
  ci_context : cr_eventContext c = x;
  ci_index : cr_eventIndex c = Z.of_nat (length pending);
  ci_buffer : match cr_eventBuffer c with
              | Some b => length b = 20%nat /\ forall i e, groupEvents pending !! i = Some e -> b !! i = Some (Some e)
              | None => pending = []
              end;
}.

Lemma core_inv_holding c ops gs pending b : core_inv c ops gs pending -> cr_eventBuffer c = Some b ->
  ready x (groupEvents pending) c.
Proof using Type.
  intros H Eb. split; [apply H|]. exists b. pose proof (ci_buffer _ _ _ _ H) as Hb. rewrite Eb in Hb. destruct Hb as [Hl Hb].
  split_and!; try done. rewrite group_length. apply (ci_index _ _ _ _ H).
Qed.

Lemma core_inv_flushed c ops gs pending seq b : core_inv c ops gs pending -> pending <> [] -> cr_eventBuffer c = Some b ->
  core_inv (flushed k x name seq pending c) ops (gs ++ [(seq, pending)]) [].
Proof using Type.
  intros [H1 H2 H3 H4 H5 H6 H7 H8] Hp Eb. rewrite Eb in H8. split; cbn [flushed set_eventIndex set_headerFlag wrote set_fd cr_fd
    cr_headerFlag cr_eventContext cr_eventIndex cr_eventBuffer]; try done.
  - rewrite fmap_app, concat_app. cbn. by rewrite !app_nil_r.
  - apply list.Forall_app. split; [done|]. apply list.Forall_singleton. by split.
  - cbn; lia.
  - rewrite H4, H5, streamBytes_app. done.
  - rewrite bool_decide_eq_true_2; [done|]. by destruct gs.
  - rewrite Eb. by destruct H8.
Qed.

Lemma core_inv_alloc c ops gs pending : core_inv c ops gs pending -> cr_eventBuffer c = None ->
  core_inv (set_eventBuffer (Some newEvents) c) ops gs pending.
Proof using Type.
  intros [H1 H2 H3 H4 H5 H6 H7 H8] Eb. rewrite Eb in H8. subst pending. split; try done.
Qed.

(** The event that is put into the buffer. *)
Definition withEvent (a : Added) (b : list (option Event)) (c : CTFCore) : CTFCore :=
  let i := cr_eventIndex c in
  set_eventIndex (i + 1) (set_eventBuffer (Some (<[Z.to_nat i := Some {|
    ev_header := eventHeader i (addedId a) (ad_time a); ev_pc := ad_src a; ev_pcDst := ad_dst a |}]> b)) c).

Lemma core_inv_add c ops gs pending b a : core_inv c ops gs pending -> cr_eventBuffer c = Some b -> (length pending < 16)%nat ->
  core_inv (withEvent a b c) (ops ++ [a]) gs (pending ++ [a]).
Proof using Type.
  intros [H1 H2 H3 H4 H5 H6 H7 H8] Eb Hlt. rewrite Eb in H8. destruct H8 as [Hb H8]. split; try done.
  - by rewrite H1, app_assoc.
  - rewrite length_app. cbn. lia.
  - cbn. rewrite H7, length_app. cbn. lia.
  - cbn [withEvent set_eventIndex set_eventBuffer cr_eventBuffer]. rewrite H7, Nat2Z.id. split; [by rewrite length_insert|].
    assert (groupEvents (pending ++ [a]) = groupEvents pending ++ [evOf (bool_decide (pending = [])) a]) as ->.
    { destruct pending as [|y l]; [done|]. cbn [app groupEvents]. rewrite fmap_app. done. }
    pose proof (group_length pending) as Hgl. intros i e [He|[Hge He]]%lookup_app_Some.
    + rewrite list_lookup_insert_ne; [by apply H8|]. apply lookup_lt_Some in He. lia.
    + rewrite list_lookup_singleton in He. destruct (i - _)%nat eqn:Ei; [|done]. apply (inj Some) in He as <-.
      replace i with (length pending) by lia. rewrite list_lookup_insert_eq by lia. f_equal. f_equal. unfold evOf, eventHeader.
      destruct pending as [|y l]; [done|]. rewrite bool_decide_eq_false_2 by done. cbn [length].
      destruct (Z.eqb_spec (Z.of_nat (S (length l))) 0); [lia|done].
Qed.
End stream.

(** *** Reading a stream *)

Lemma times_ok_app l1 l2 : times_ok (l1 ++ l2) -> times_ok l1 /\ times_ok l2.
Proof.
  assert (forall l now, timesFrom now (l ++ l2) -> timesFrom now l /\ times_ok l2) as H.
  { induction l as [|a l IH]; intros now; cbn [app timesFrom]; [destruct l2; cbn; tauto|]. intros [Ha Hl]. apply IH in Hl. tauto. }
  destruct l1 as [|a l1]; [done|]. cbn. apply H.
Qed.

Lemma packetBytes_length k first last seq body : (60 <= length (packetBytes k first last seq body))%nat.
Proof. unfold packetBytes. rewrite !length_app, !length_le. lia. Qed.

Lemma packetBytes_nonempty k first last seq body : packetBytes k first last seq body <> [].
Proof. intros E. pose proof (packetBytes_length k first last seq body) as H. rewrite E in H. cbn in H. lia. Qed.

Lemma readStream_packet n b l p ps : getPacket (b ++ l) = Some (p, l) -> b <> [] -> readStream n l = Some ps ->
  readStream (S n) (b ++ l) = Some (p :: ps).
Proof.
  intros E Hb Hl. destruct b as [|z b]; [done|]. cbn [app] in *. cbn [readStream]. rewrite E. cbn [mbind option_bind]. by rewrite Hl.
Qed.

Section reading.
Context (k : nat) (Hk : (k < 16)%nat) (x : EventContext) (Hx : context_ok x).
Context (name : list Z) (Hname : Forall (fun b => b <> 0) name) (Hlen : Z.of_nat (length name) < 2 ^ 20).

Definition ofThis (p : Packet) : Prop := pk_stream p = Z.of_nat k /\ pk_cpu p = Z.of_nat k.

Lemma body_length g : length (concat (eventBytes x <$> groupEvents g)) = (match g with [] => 0 | _ :: g => 55 + 47 * length g end)%nat.
Proof using Hx.
  clear Hk Hname Hlen. destruct g as [|a g]; [done|]. cbn [groupEvents fmap list_fmap concat].
  rewrite length_app, (eventBytes_length x _ Hx). cbn [evOf ev_header]. f_equal.
  induction g as [|y g IH]; [done|]. cbn [fmap list_fmap concat]. rewrite length_app, (eventBytes_length x _ Hx), IH. cbn. lia.
Qed.

Lemma readStream_group n a g last seq l ps : Forall added_ok (a :: g) -> times_ok (a :: g) -> (length (a :: g) <= 16)%nat ->
  readStream n l = Some ps ->
  exists p, readStream (S n) (packetBytes (Z.of_nat k) (ad_time a) last seq (concat (eventBytes x <$> groupEvents (a :: g))) ++ l) =
    Some (p :: ps) /\ ofThis p /\ pk_events p = addedEvent x <$> a :: g.
Proof using Hk Hx.
  clear Hname Hlen. intros Hg Ht Hl Hps.
  exists {| pk_stream := Z.of_nat k; pk_begin := ad_time a; pk_end := last mod 2 ^ 64; pk_cpu := Z.of_nat k;
            pk_events := addedEvent x <$> a :: g |}. split; [|by split].
  apply readStream_packet; [|apply packetBytes_nonempty|exact Hps].
  pose proof (body_length (a :: g)) as Hb. cbn [length] in Hl.
  assert (0 <= ad_time a < 2 ^ 64) as Ha by (by apply list.Forall_cons in Hg as [(_ & _ & ?) _]).
  apply getPacket_bytes; [lia|exact Ha|rewrite Hb; lia|].
  apply getEvents_group; try done. rewrite Hb. cbn [length]. lia.
Qed.

Lemma readStream_dump n t seq l ps : 0 <= t < 2 ^ 64 -> readStream n l = Some ps ->
  exists p, readStream (S n) (packetBytes (Z.of_nat k) t t seq (dumpBody x name t) ++ l) = Some (p :: ps) /\
    ofThis p /\ pk_events p = dumpEvents x name t.
Proof using Hk Hx Hname Hlen.
  intros Ht Hps.
  exists {| pk_stream := Z.of_nat k; pk_begin := t; pk_end := t mod 2 ^ 64; pk_cpu := Z.of_nat k;
            pk_events := dumpEvents x name t |}. split; [|by split].
  apply readStream_packet; [|apply packetBytes_nonempty|exact Hps].
  assert (length (dumpBody x name t) = 137 + length name)%nat as Hb.
  { destruct Hx as (_ & _ & Hp). unfold dumpBody, dumpPiece, binInfoBytes, contextBytes, headerBytes.
    rewrite !length_app, length_take, !length_le, Hp. cbn [length]. lia. }
  apply getPacket_bytes; [lia|done|lia|]. apply getEvents_dump; try done. lia.
Qed.

Lemma readStream_rest gs : Forall isGroup gs -> Forall added_ok (concat gs.*2) -> times_ok (concat gs.*2) ->
  forall n, (length gs <= n)%nat -> exists ps, readStream n (streamBytes k x name true gs) = Some ps /\ Forall ofThis ps /\
    concat (pk_events <$> ps) = addedEvent x <$> concat gs.*2.
Proof using Hk Hx.
  clear Hname Hlen. induction 1 as [|[seq g] gs [Hne Hl] _ IH]; intros Ha Ht n Hn; [exists []; by destruct n|].
  cbn [fmap list_fmap concat] in *. change (list_fmap _ _ snd gs) with (gs.*2) in *. cbn [snd] in *.
  apply list.Forall_app in Ha as [Ha1 Ha2]. apply times_ok_app in Ht as [Ht1 Ht2]. cbn [length] in Hn.
  destruct n as [|n]; [lia|]. destruct (IH Ha2 Ht2 n ltac:(lia)) as (ps & E & Hps & Hev).
  destruct g as [|a g]; [done|]. cbn [streamBytes flushBytes app].
  destruct (readStream_group n a g (lastTime (a :: g) (ad_time a)) seq _ ps Ha1 Ht1 Hl E) as (p & Ep & Hp & Epe).
  exists (p :: ps). split; [exact Ep|]. split; [by constructor|]. cbn [fmap list_fmap concat]. change (list_fmap _ _ pk_events ps) with (pk_events <$> ps).
  by rewrite Epe, Hev, fmap_app.
Qed.

(** The stream of a core: the events that were added, after the packet that tells the
    program. *)
Lemma readStream_ok gs : Forall isGroup gs -> Forall added_ok (concat gs.*2) -> times_ok (concat gs.*2) ->
  exists ps, readStream (length (streamBytes k x name false gs)) (streamBytes k x name false gs) = Some ps /\ Forall ofThis ps /\
    concat (pk_events <$> ps) = match concat gs.*2 with
                                | [] => []
                                | a :: l => dumpEvents x name (ad_time a) ++ (addedEvent x <$> a :: l)
                                end.
Proof using Hk Hx Hname Hlen.
  intros Hg Ha Ht. destruct gs as [|[seq [|a g]] gs]; [by exists []|by apply list.Forall_cons in Hg as [[? _] _]|].
  assert (forall gs, Forall isGroup gs -> (length gs <= length (streamBytes k x name true gs))%nat) as Hfuel.
  { clear. induction 1 as [|[seq [|a g]] gs [Hne _] _ IH]; [done|done|]. cbn [streamBytes flushBytes length app].
    rewrite length_app. pose proof (packetBytes_length (Z.of_nat k) (ad_time a) (lastTime (a :: g) (ad_time a)) seq
      (concat (eventBytes x <$> groupEvents (a :: g)))). lia. }
  specialize (Hfuel _ Hg).
  assert (streamBytes k x name false ((seq, a :: g) :: gs) =
    packetBytes (Z.of_nat k) (ad_time a) (ad_time a) seq (dumpBody x name (ad_time a)) ++ streamBytes k x name true ((seq, a :: g) :: gs)) as ->
    by (cbn [streamBytes flushBytes]; by rewrite <-!app_assoc).
  pose proof (packetBytes_length (Z.of_nat k) (ad_time a) (ad_time a) seq (dumpBody x name (ad_time a))) as Hp. rewrite length_app.
  destruct (length (packetBytes _ _ _ _ _)) as [|m]; [lia|]. cbn [Nat.add].
  destruct (readStream_rest _ Hg Ha Ht (m + length (streamBytes k x name true ((seq, a :: g) :: gs))) ltac:(lia)) as (ps & E & Hps & Hev).
  assert (0 <= ad_time a < 2 ^ 64) as Hat by (by apply list.Forall_cons in Ha as [(_ & _ & ?) _]).
  destruct (readStream_dump _ (ad_time a) seq _ ps Hat E) as (p & Ep & Hp' & Epe).
  exists (p :: ps). split; [exact Ep|]. split; [by constructor|]. cbn [fmap list_fmap concat]. change (list_fmap _ _ pk_events ps) with (pk_events <$> ps).
  by rewrite Epe, Hev.
Qed.
End reading.
