(* ===== verification/CtfStreams.v ===== *)
(** * The streams of a converter

    What any sequence of calls and returns leaves in the files of the cores: the invariant of
    the converter, that every operation keeps it, and that the destructor leaves no event in a
    buffer. *)

From stdpp Require Import strings.
From Stdlib Require Import Ascii.
From S2P Require Import Prelude Nexus Analytics ObjDump SrcFiles State Ctf CtfRead.

(** The events of a core. *)
Definition ofCore (k : nat) (ops : list Added) : list Added :=
  base.filter (fun a => ad_core a = Z.of_nat k) ops.

Lemma ofCore_snoc k ops a : ofCore k (ops ++ [a]) = ofCore k ops ++ (if decide (ad_core a = Z.of_nat k) then [a] else []).
Proof. unfold ofCore. rewrite list.filter_app, list.filter_cons, list.filter_nil. by case_decide. Qed.

Lemma put_same k s c : cf_cores s !! k = Some c -> put k s c = s.
Proof. intros E. unfold put, set_cf_cores. rewrite list_insert_id by done. by destruct s. Qed.
Lemma seq_same s : set_packetSeqNum (cf_packetSeqNum s) s = s.
Proof. by destruct s. Qed.

(** ** One core *)

Section adding.
Context (k : nat) (s : CTFConverter) (Hk : (k < length (cf_cores s))%nat) (x : EventContext) (name : list Z).
#[local] Abbreviation K := (Z.of_nat k).

Lemma alloc_core c ops gs pending : core_inv k x name c ops gs pending ->
  exists b c', (match cr_eventBuffer c with Some _ => mret tt | None => updCTFCore K (set_eventBuffer (Some newEvents)) end) (put k s c) =
    Ok (put k s c') tt /\ core_inv k x name c' ops gs pending /\ cr_eventBuffer c' = Some b /\ cr_eventIndex c' = cr_eventIndex c.
Proof using Hk.
  intros H. destruct (cr_eventBuffer c) as [b|] eqn:Eb.
  - exists b, c. by split_and!.
  - exists newEvents, (set_eventBuffer (Some newEvents) c). rewrite updCTFCore_ok by done. split_and!; try done. by apply core_inv_alloc.
Qed.

Lemma withEvent_core c ops gs pending a b : core_inv k x name c ops gs pending -> cr_eventBuffer c = Some b ->
  (length pending < 16)%nat ->
  (c ← ctfCore K; b ← lift_opt (cr_eventBuffer c);
   if (0 <=? cr_eventIndex c) && (cr_eventIndex c <? Z.of_nat (length b)) then
     updCTFCore K (fun c' => set_eventIndex (cr_eventIndex c + 1) (set_eventBuffer (Some (<[Z.to_nat (cr_eventIndex c) := Some {|
       ev_header := eventHeader (cr_eventIndex c) (addedId a) (ad_time a); ev_pc := ad_src a; ev_pcDst := ad_dst a |}]> b)) c'))
   else undef) (put k s c) = Ok (put k s (withEvent a b c)) tt.
Proof using Hk.
  intros H Eb Hlt. rewrite (bind_ok _ _ _ _ _ (ctfCore_ok k s Hk c)), Eb, lift_bind.
  pose proof (ci_index _ _ _ _ _ _ _ H) as Hi. pose proof (ci_buffer _ _ _ _ _ _ _ H) as Hb. rewrite Eb in Hb. destruct Hb as [Hb _].
  destruct (Z.leb_spec 0 (cr_eventIndex c)); [|lia]. destruct (Z.ltb_spec (cr_eventIndex c) (Z.of_nat (length b))); [|lia].
  cbn [andb]. by rewrite updCTFCore_ok.
Qed.

End adding.

Section one.
Context (k : nat) (s : CTFConverter) (Hk : (k < length (cf_cores s))%nat) (x : EventContext) (Hx : context_ok x).
Context (name : list Z) (Hname : cf_elfName s = Some name) (Hlen : Z.of_nat (length name) < 2 ^ 20).
#[local] Abbreviation K := (Z.of_nat k).

(** A flush leaves the buffer empty, with its events in the file. *)
Lemma flushEvents_core c ops gs pending : core_inv k x name c ops gs pending -> pending <> [] ->
  exists seq c' gs', flushEvents K (put k s c) = Ok (put k (set_packetSeqNum seq s) c') tt /\
    core_inv k x name c' ops gs' [] /\ is_Some (cr_eventBuffer c').
Proof using All.
  intros H Hp. destruct (cr_eventBuffer c) as [b|] eqn:Eb.
  2: { pose proof (ci_buffer _ _ _ _ _ _ _ H) as Hb. by rewrite Eb in Hb. }
  pose proof (core_inv_flushed k x name c ops gs pending (cf_packetSeqNum s) b H Hp Eb) as H'.
  do 3 eexists. split; [|split; [exact H'|]].
  - apply (flushEvents_ok k s Hk x Hx name Hname Hlen); [done|apply H| |by eapply core_inv_holding].
    rewrite (ci_file _ _ _ _ _ _ _ H). by eexists.
  - unfold flushed. cbn. rewrite Eb. by eexists.
Qed.

(** A call or return is added to the events of its core. *)
Lemma addOne_core c ops gs pending a : core_inv k x name c ops gs pending -> ad_core a = K ->
  exists seq c' gs' pending', addOne a (put k s c) = Ok (put k (set_packetSeqNum seq s) c') tt /\
    core_inv k x name c' (ops ++ [a]) gs' pending'.
Proof using All.
  intros H Ha.
  assert (addOne a = addEvent (addedId a) K (ad_src a) (ad_dst a) (ad_time a)) as -> by (unfold addOne, addedId; rewrite Ha; by destruct (ad_ret a)).
  destruct (alloc_core k s Hk x name c ops gs pending H) as (b & c1 & E1 & H1 & Eb1 & Ei1).
  pose proof (ci_index _ _ _ _ _ _ _ H) as Hi. pose proof (ci_pending _ _ _ _ _ _ _ H) as Hp.
  unfold addEvent. rewrite (bind_ok _ _ _ _ _ (ctfCore_ok k s Hk c)), (bind_ok _ _ _ _ _ E1), Hi.
  destruct (Z.eqb_spec (Z.of_nat (length pending)) DQR_MAXCORES) as [E16|Hne]; unfold DQR_MAXCORES in *.
  - assert (pending <> []) as Hn by (intros ->; cbn in E16; lia).
    destruct (flushEvents_core c1 ops gs pending H1 Hn) as (seq & c2 & gs2 & E2 & H2 & [b2 Eb2]).
    assert ((fun s0 => match flushEvents K s0 with Err s1 e => Err (set_cf_status e s1) e | r => r end) (put k s c1) =
      Ok (put k (set_packetSeqNum seq s) c2) tt) as E2' by (cbv beta; by rewrite E2).
    rewrite (bind_ok _ _ _ _ _ E2').
    exists seq, (withEvent a b2 c2), gs2, ([] ++ [a]). split; [|apply core_inv_add; [done..|cbn; lia]].
    exact (withEvent_core k (set_packetSeqNum seq s) Hk x name c2 ops gs2 [] a b2 H2 Eb2 ltac:(cbn; lia)).
  - rewrite ret_bind. exists (cf_packetSeqNum s), (withEvent a b c1), gs, (pending ++ [a]). rewrite seq_same.
    split; [|apply core_inv_add; [done..|lia]]. exact (withEvent_core k s Hk x name c1 ops gs pending a b H1 Eb1 ltac:(lia)).
Qed.

Lemma flushAll_core c ops gs pending : core_inv k x name c ops gs pending ->
  exists seq c' gs', (if 0 <? cr_eventIndex c then ignoring (flushEvents K) else mret tt) (put k s c) =
    Ok (put k (set_packetSeqNum seq s) c') tt /\ core_inv k x name c' ops gs' [].
Proof using All.
  intros H. pose proof (ci_index _ _ _ _ _ _ _ H) as Hi. rewrite Hi. destruct (Z.ltb_spec 0 (Z.of_nat (length pending))) as [Hl|Hl].
  - assert (pending <> []) as Hn by (by intros ->). destruct (flushEvents_core c ops gs pending H Hn) as (seq & c' & gs' & E & H' & _).
    exists seq, c', gs'. split; [|done]. unfold ignoring. by rewrite E.
  - destruct pending; [|cbn in Hl; lia]. exists (cf_packetSeqNum s), c, gs. by rewrite seq_same.
Qed.
End one.

(** ** All the cores *)

Section converter.
Context (name : list Z) (Hlen : Z.of_nat (length name) < 2 ^ 20) (X : nat -> EventContext) (HX : forall k, (k < 16)%nat -> context_ok (X k)).
Context (n : nat) (Hn : (n <= 16)%nat).

(** The converter of [n] cores after these events; the buffers of the first [closed] cores
    are empty. *)
Record conv_inv (closed : nat) (s : CTFConverter) (ops : list Added) : Prop := {
  cv_name : cf_elfName s = Some name;
  cv_length : length (cf_cores s) = 16%nat;
  cv_core : forall k c, cf_cores s !! k = Some c -> (k < n)%nat ->
    exists gs pending, core_inv k (X k) name c (ofCore k ops) gs pending /\ ((k < closed)%nat -> pending = []);
  cv_others : forall k c, cf_cores s !! k = Some c -> (n <= k)%nat -> cr_eventIndex c = 0;
}.

Lemma conv_put closed closed' s ops ops' k seq c' gs pending : conv_inv closed s ops -> (k < n)%nat ->
  core_inv k (X k) name c' (ofCore k ops') gs pending -> (forall j, j <> k -> ofCore j ops' = ofCore j ops) ->
  ((k < closed')%nat -> pending = []) -> (forall j, j <> k -> (j < closed')%nat -> (j < closed)%nat) ->
  conv_inv closed' (put k (set_packetSeqNum seq s) c') ops'.
Proof using Type.
  clear Hn Hlen. intros [H1 H2 H3 H4] Hk Hc Hops Hcl Hcl'. split; [done|by cbn; rewrite length_insert| |]; cbn [put set_cf_cores set_packetSeqNum cf_cores];
    intros j c [[<- [<- _]]|[Hne Hj]]%list_lookup_insert_Some; intros Hjn; try lia.
  - by exists gs, pending.
  - rewrite (Hops j) by done. destruct (H3 j c Hj Hjn) as (gs' & p' & Hinv & Hp'). exists gs', p'. split; [done|].
    intros ?. apply Hp', Hcl'; [done|lia].
  - by apply (H4 j).
Qed.

Lemma core_exists closed s ops k : conv_inv closed s ops -> (k < n)%nat -> exists c, cf_cores s !! k = Some c.
Proof using Hn. clear Hlen. intros H Hk. apply lookup_lt_is_Some_2. rewrite (cv_length _ _ _ H). lia. Qed.

Lemma addOne_ok s ops a : conv_inv 0 s ops -> 0 <= ad_core a < Z.of_nat n ->
  exists s', addOne a s = Ok s' tt /\ conv_inv 0 s' (ops ++ [a]).
Proof using All.
  intros H Ha. set (k := Z.to_nat (ad_core a)). assert (k < n)%nat as Hk by (unfold k; lia).
  destruct (core_exists 0 s ops k H Hk) as [c Ec]. destruct (cv_core _ _ _ H k c Ec Hk) as (gs & pending & Hc & _).
  pose proof (cv_length _ _ _ H) as Hl. assert (ad_core a = Z.of_nat k) as Hak by (unfold k; lia).
  destruct (addOne_core k s ltac:(lia) (X k) (HX k ltac:(lia)) name (cv_name _ _ _ H) Hlen c _ gs pending a Hc Hak)
    as (seq & c' & gs' & p' & E & Hc'). rewrite (put_same k s c Ec) in E. exists (put k (set_packetSeqNum seq s) c'). split; [exact E|].
  apply (conv_put 0 0 s ops (ops ++ [a]) k seq c' gs' p' H Hk); [|intros j Hj|lia|lia].
  - rewrite ofCore_snoc, decide_True by done. exact Hc'.
  - rewrite ofCore_snoc, decide_False by lia. by rewrite app_nil_r.
Qed.

Lemma flushAll_ok m : forall i s ops, conv_inv i s ops -> (i + m = 16)%nat ->
  exists s', flushAll i m s = Ok s' tt /\ conv_inv n s' ops.
Proof using All.
  induction m as [|m IH]; intros i s ops H Hi; cbn [flushAll].
  - exists s. split; [done|]. destruct H as [H1 H2 H3 H4]. split; try done. intros k c Hc Hk. destruct (H3 k c Hc Hk) as (gs & p & Hinv & Hp).
    exists gs, p. split; [done|]. intros _. apply Hp. lia.
  - pose proof (cv_length _ _ _ H) as Hl. destruct (lookup_lt_is_Some_2 (cf_cores s) i ltac:(lia)) as [c Ec].
    assert (ctfCore (Z.of_nat i) s = Ok s c) as Eget by (rewrite <-(put_same i s c Ec) at 1; rewrite ctfCore_ok by lia; by rewrite put_same).
    rewrite (bind_ok _ _ _ _ _ Eget). destruct (decide (i < n)%nat) as [Hin|Hin].
    + destruct (cv_core _ _ _ H i c Ec Hin) as (gs & pending & Hc & _).
      destruct (flushAll_core i s ltac:(lia) (X i) (HX i ltac:(lia)) name (cv_name _ _ _ H) Hlen c _ gs pending Hc) as (seq & c' & gs' & E & Hc').
      rewrite (put_same i s c Ec) in E. rewrite (bind_ok _ _ _ _ _ E). apply IH; [|lia].
      by apply (conv_put i (S i) s ops ops i seq c' gs' [] H Hin); [..|lia].
    + rewrite (cv_others _ _ _ H i c Ec ltac:(lia)). change (0 <? 0) with false. cbv iota. rewrite ret_bind. apply IH; [|lia].
      destruct H as [H1 H2 H3 H4]. split; try done. intros k c' Hc Hk. destruct (H3 k c' Hc Hk) as (gs & p & Hinv & Hp).
      exists gs, p. split; [done|]. intros ?. apply Hp. lia.
Qed.
End converter.

(** ** A new converter *)

(** The cores from [i] on, [m] of them, were changed in this way. *)
Definition altered (f : CTFCore -> CTFCore) (i m : nat) (s s' : CTFConverter) : Prop :=
  cf_elfName s' = cf_elfName s /\ length (cf_cores s') = length (cf_cores s) /\
  forall k, cf_cores s' !! k = (fun c => if decide (i <= k < i + m)%nat then f c else c) <$> cf_cores s !! k.

Lemma altered_refl f i s : altered f i 0 s s.
Proof.
  split_and!; [done..|]. intros k. destruct (cf_cores s !! k); cbn; [|done]. rewrite decide_False by lia. done.
Qed.

Lemma altered_step f i m s s1 s' : updCTFCore (Z.of_nat i) f s = Ok s1 tt -> altered f (S i) m s1 s' -> altered f i (S m) s s'.
Proof.
  intros E (H1 & H2 & H3). unfold updCTFCore in E. apply bind_inv in E as (s0 & c & E0 & E).
  assert (s0 = s) as ->.
  { unfold ctfCore in E0. rewrite bind_get in E0. unfold lift_opt in E0.
    destruct (0 <=? Z.of_nat i); [|done]. destruct (cf_cores s !! Z.to_nat (Z.of_nat i)); by simplify_eq. }
  unfold modify in E. apply (f_equal (fun r => match r with Ok s _ => Some s | _ => None end)) in E. simplify_eq.
  cbn [set_cf_cores cf_elfName cf_cores] in *. rewrite Nat2Z.id in *. split_and!; [done|by rewrite H2, length_alter|].
  intros k. rewrite H3. destruct (decide (k = i)) as [->|Hne].
  - rewrite list_lookup_alter_eq. destruct (cf_cores s !! i); cbn; [|done]. rewrite decide_False, decide_True by lia. done.
  - rewrite list_lookup_alter_ne by done. destruct (cf_cores s !! k); cbn; [|done]. do 2 case_decide; try done; lia.
Qed.

Lemma openAll_altered sys m : forall i s s', openAll sys i m s = Ok s' tt -> altered (set_fd (Some [])) i m s s'.
Proof.
  induction m as [|m IH]; intros i s s' E; cbn [openAll] in E.
  - injection E as <-. apply altered_refl.
  - destruct (cs_open sys i); [|done]. apply bind_inv in E as (s1 & [] & E1 & E). eapply altered_step; [exact E1|by apply IH].
Qed.

Definition withProcName (name : list Z) (c : CTFCore) : CTFCore := set_eventContext {|
  ec_vpid := ec_vpid (cr_eventContext c); ec_vtid := ec_vtid (cr_eventContext c); ec_procname := name |} c.
Lemma nameAll_altered name m : forall i s s', nameAll name i m s = Ok s' tt -> altered (withProcName name) i m s s'.
Proof.
  induction m as [|m IH]; intros i s s' E; cbn [nameAll] in E.
  - injection E as <-. apply altered_refl.
  - apply bind_inv in E as (s1 & [] & E1 & E). eapply altered_step; [exact E1|by apply IH].
Qed.

(** What a new converter has: the name of the program, and for each of its cores an open file
    and a context that tells the program. *)
Definition coreContext (name : list ascii) (k : nat) : EventContext :=
  {| ec_vpid := 1; ec_vtid := Z.of_nat k; ec_procname := procName name |}.
Definition programName (path name : list ascii) : list Z := code_of <$> path ++ name.

Lemma newCTFConverter_inv sys elf rtd n arch freq t host s : newCTFConverter sys elf rtd n arch freq t host = Ok s tt ->
  n <= 16 /\ exists e base nm path, elf = Some e /\ getPathsNames (cs_cwd sys) (Some e) = Some (base, nm, path) /\
    conv_inv (programName path nm) (coreContext nm) (Z.to_nat n) 0 s [].
Proof.
  unfold newCTFConverter. set (start := {| cf_status := _ |}). destruct (buildCTF _ _ _ _ _ _ start) as [c []| | |] eqn:E; try done.
  intros [= <-]. unfold buildCTF in E. destruct elf as [e|]; [|done]. destruct (Z.ltb_spec DQR_MAXCORES n) as [|Hn]; [done|]. unfold DQR_MAXCORES in *.
  split; [lia|]. apply bind_inv in E as (s0 & [[base nm] path] & E0 & E). unfold lift_opt in E0. destruct (getPathsNames (cs_cwd sys) (Some e)) eqn:Ep; [|done].
  injection E0 as <- ->. exists e, base, nm, path. split_and!; [done..|].
  rewrite bind_modify in E. apply bind_inv in E as (s1 & [[b1 n1] dir] & E1 & E). unfold lift_opt in E1. destruct (getPathsNames (cs_cwd sys) rtd); [|done].
  injection E1 as <- _. destruct (cs_mkdir sys); [|done]. cbn [negb] in E. destruct (namesFit base dir); [|done]. cbn [negb] in E.
  apply bind_inv in E as (s2 & [] & E2 & E). apply bind_inv in E as (s3 & [] & E3 & E). destruct (cs_openMetadata sys); [|done]. cbn [negb] in E.
  rewrite bind_get in E. destruct (_ || _); [done|]. unfold modify in E. injection E as <-.
  apply openAll_altered in E2 as (A1 & A2 & A3). apply nameAll_altered in E3 as (B1 & B2 & B3).
  split; cbn [set_metadata cf_elfName cf_cores].
  - by rewrite B1, A1.
  - by rewrite B2, A2.
  - intros k c Hk Hlt. rewrite B3, A3 in Hk. cbn [set_cf_elfName cf_cores start] in Hk. rewrite list_lookup_fmap, lookup_seq_lt in Hk by lia.
    cbn [fmap option_fmap option_map] in Hk. rewrite !decide_True in Hk by lia. injection Hk as <-. exists [], []. split; [|done].
    split; try done. cbn. lia.
  - intros k c Hk Hlt. rewrite B3, A3 in Hk. cbn [set_cf_elfName cf_cores start] in Hk. rewrite list_lookup_fmap in Hk.
    destruct (seq _ _ !! k) as [j|]; [|done]. cbn [fmap option_fmap option_map] in Hk. rewrite !decide_False in Hk by lia. by injection Hk as <-.
Qed.

Lemma coreContext_ok name k : (k < 16)%nat -> context_ok (coreContext name k).
Proof.
  intros Hk. split_and!; cbn [coreContext ec_vpid ec_vtid ec_procname]; [lia..|]. unfold procName.
  rewrite length_app, length_fmap, length_take, length_replicate. lia.
Qed.

(** The characters of a path are those of the name, of the current directory, and slashes. *)
Lemma getPathsNames_chars (P : ascii -> Prop) cwd e base nm path : P "/"%char -> Forall P cwd -> Forall P e ->
  getPathsNames cwd (Some e) = Some (base, nm, path) -> Forall P (path ++ nm) /\ Z.of_nat (length (path ++ nm)) < 768.
Proof.
  intros Hs Hcwd He E. unfold getPathsNames in E. destruct (_ && _) eqn:El; [|done]. injection E as _ <- <-.
  apply andb_true_iff in El as [E1%Nat.ltb_lt E2%Nat.ltb_lt]. split; [|rewrite length_app; lia].
  apply list.Forall_app. split; [|by apply Forall_drop]. apply list.Forall_app. split; [|by apply Forall_take].
  destruct (isAbsolute e); [done|]. apply list.Forall_app. by split; [|apply list.Forall_singleton].
Qed.
Lemma programName_chars path nm : Forall (fun c => c <> "000"%char) (path ++ nm) -> Forall (fun b => b <> 0) (programName path nm).
Proof.
  intros H. apply list.Forall_fmap. eapply list.Forall_impl; [exact H|]. intros c Hc E. apply Hc. unfold code_of in E. cbn in E.
  rewrite <-(ascii_N_embedding c). by replace (N_of_ascii c) with 0%N by lia.
Qed.

(** ** What the decoder tells a converter *)

(** The call or return that an emission is, if it is one. *)
Definition addedOf (e : Z * Z * Z * Emit) : option Added :=
  match e with
  | (_, core, ts, CtfAddCall src dst) => Some {| ad_core := core; ad_ret := false; ad_src := src; ad_dst := dst; ad_time := ts |}
  | (_, core, ts, CtfAddRet src dst) => Some {| ad_core := core; ad_ret := true; ad_src := src; ad_dst := dst; ad_time := ts |}
  | _ => None
  end.
Fixpoint convertAll (es : list (Z * Z * Z * Emit)) : M CTFConverter DQErr unit :=
  match es with [] => mret tt | e :: es => ctfEmit e ≫= fun _ => convertAll es end.

Lemma ctfEmit_added e : ctfEmit e = match addedOf e with Some a => addOne a | None => mret tt end.
Proof. by destruct e as [[[? ?] ?] []]. Qed.

Lemma convertAll_ok name X n es : Z.of_nat (length name) < 2 ^ 20 -> (forall k, (k < 16)%nat -> context_ok (X k)) -> (n <= 16)%nat ->
  Forall (fun a => 0 <= ad_core a < Z.of_nat n) (omap addedOf es) ->
  forall s ops, conv_inv name X n 0 s ops -> exists s', convertAll es s = Ok s' tt /\ conv_inv name X n 0 s' (ops ++ omap addedOf es).
Proof.
  intros Hlen HX Hn. induction es as [|e es IH]; intros Hes s ops H; [exists s; cbn; by rewrite app_nil_r|].
  cbn [convertAll]. rewrite ctfEmit_added. cbn [omap list_omap] in *. destruct (addedOf e) as [a|].
  - apply list.Forall_cons in Hes as [Ha Hes]. destruct (addOne_ok name Hlen X HX n Hn s ops a H Ha) as (s1 & E1 & H1).
    destruct (IH Hes s1 _ H1) as (s' & E & H'). exists s'. rewrite (bind_ok _ _ _ _ _ E1). split; [exact E|]. by rewrite <-app_assoc in H'.
  - rewrite ret_bind. by apply IH.
Qed.

(** The file of a core is a stream that reads as the events of the core.  A reader that knows only the
    streams of the metadata refuses it if it has a packet and is not that of core 0. *)
Definition readsAs (name : list Z) (x : EventContext) (k : nat) (ops : list Added) (s : CTFConverter) : Prop :=
  exists c file ps, cf_cores s !! k = Some c /\ cr_fd c = Some file /\ readStream (length file) file = Some ps /\
    Forall (ofThis k) ps /\
    readDefined (length file) file = (match ops, k with [], _ | _, O => Some ps | _, _ => None end) /\
    concat (pk_events <$> ps) = match ops with
                                | [] => []
                                | a :: _ => dumpEvents x name (ad_time a) ++ (addedEvent x <$> ops)
                                end.

(** What the packets of a core are to a reader of the defined stream. *)
Lemma readDefined_ofThis {A} k n file ps (ops : list A) l : readStream n file = Some ps -> Forall (ofThis k) ps ->
  concat (pk_events <$> ps) = match ops with [] => [] | a :: ops => l a ops end -> (forall a ops, l a ops <> []) ->
  (ops = [] -> ps = []) ->
  readDefined n file = match ops, k with [], _ | _, O => Some ps | _, _ => None end.
Proof.
  intros E H Hev Hl He. unfold readDefined. rewrite E. cbn [mbind option_bind]. destruct ops as [|a ops]; [by rewrite He|].
  destruct k as [|k].
  - replace (forallb _ ps) with true; [done|]. symmetry. clear -H. induction H as [|p ps [Hp _] _ IH]; [done|]. cbn. by rewrite Hp, IH.
  - destruct H as [|p ps [Hp _] _]; [by destruct (Hl a ops)|]. cbn [forallb]. unfold definedStream. rewrite Hp.
    by destruct (Z.eqb_spec (Z.of_nat (S k)) 0); [lia|].
Qed.

Lemma conv_reads name X n s ops k : Forall (fun b => b <> 0) name -> Z.of_nat (length name) < 2 ^ 20 ->
  (forall k, (k < 16)%nat -> context_ok (X k)) -> (n <= 16)%nat -> (k < n)%nat ->
  Forall added_ok (ofCore k ops) -> times_ok (ofCore k ops) -> conv_inv name X n n s ops -> readsAs name (X k) k (ofCore k ops) s.
Proof.
  intros Hname Hlen HX Hn Hk Ha Ht H. destruct (core_exists name X n Hn n s ops k H Hk) as [c Ec].
  destruct (cv_core _ _ _ _ _ _ H k c Ec Hk) as (gs & pending & Hc & ->%(fun h => h Hk)).
  pose proof (ci_ops _ _ _ _ _ _ _ Hc) as Hops. rewrite app_nil_r in Hops. rewrite Hops in *.
  destruct (readStream_ok k ltac:(lia) (X k) (HX k ltac:(lia)) name Hname Hlen gs (ci_groups _ _ _ _ _ _ _ Hc) Ha Ht) as (ps & E & Hps & Hev).
  exists c, (streamBytes k (X k) name false gs), ps. split_and!; [done|apply (ci_file _ _ _ _ _ _ _ Hc)|done..| |].
  - eapply (readDefined_ofThis k _ _ _ _ _ E Hps); [rewrite Hev; by destruct (concat gs.*2)|by intros a l|].
    intros En. destruct (ci_groups _ _ _ _ _ _ _ Hc) as [|[seq [|a g]] gs [Hne _] _]; [by injection E as <-|done|done].
  - rewrite Hev. by destruct (concat gs.*2).
Qed.
