(* ===== verification/Events.v ===== *)
(** * Lines of text for events (src/trace.cpp, [EventConverter])

    Each event is a line of a file of all events and of a file of the events of its type.  A
    file is the text that was written to it. *)

From stdpp Require Import strings.
From Stdlib Require Import Ascii.
From Stdlib Require String.
From S2P Require Import Prelude Nexus NextAddr Analytics ObjDump SrcFiles State Symbols Disasm Ctf.

(** [CTF::event_t] *)
Definition et_controlIndex : nat := 0.
Definition et_extTriggerIndex : nat := 1.
Definition et_callRetIndex : nat := 2.
Definition et_exceptionIndex : nat := 3.
Definition et_interruptIndex : nat := 4.
Definition et_hContextIndex : nat := 5.
Definition et_sContextIndex : nat := 6.
Definition et_privContextIndex : nat := 7.
Definition et_watchpointIndex : nat := 8.
Definition et_periodicIndex : nat := 9.
Definition et_numEventTypes : nat := 10.

(** A file that is not open has no text; [elfNamePath] is not assigned before the common
    file is open.  The disassembler is that of the process. *)
Record EventConverter := {
  vc_status : DQErr;
  vc_numCores : Z;
  vc_frequency : Z;
  vc_eventNameGen : list ascii;
  vc_eventFDs : list (option (list ascii));
  vc_eventFD : option (list ascii);
  vc_elfNamePath : option (list ascii);
  vc_disassembler : option Disassembler;
}.
Definition set_vc_status e (c : EventConverter) : EventConverter := {|
  vc_status := e; vc_numCores := vc_numCores c; vc_frequency := vc_frequency c; vc_eventNameGen := vc_eventNameGen c;
  vc_eventFDs := vc_eventFDs c; vc_eventFD := vc_eventFD c; vc_elfNamePath := vc_elfNamePath c; vc_disassembler := vc_disassembler c |}.
Definition set_eventFDs f (c : EventConverter) : EventConverter := {|
  vc_status := vc_status c; vc_numCores := vc_numCores c; vc_frequency := vc_frequency c; vc_eventNameGen := vc_eventNameGen c;
  vc_eventFDs := f; vc_eventFD := vc_eventFD c; vc_elfNamePath := vc_elfNamePath c; vc_disassembler := vc_disassembler c |}.
Definition set_eventFD f (c : EventConverter) : EventConverter := {|
  vc_status := vc_status c; vc_numCores := vc_numCores c; vc_frequency := vc_frequency c; vc_eventNameGen := vc_eventNameGen c;
  vc_eventFDs := vc_eventFDs c; vc_eventFD := f; vc_elfNamePath := vc_elfNamePath c; vc_disassembler := vc_disassembler c |}.
Definition set_disassembler d (c : EventConverter) : EventConverter := {|
  vc_status := vc_status c; vc_numCores := vc_numCores c; vc_frequency := vc_frequency c; vc_eventNameGen := vc_eventNameGen c;
  vc_eventFDs := vc_eventFDs c; vc_eventFD := vc_eventFD c; vc_elfNamePath := vc_elfNamePath c; vc_disassembler := d |}.

#[local] Abbreviation VM := (M EventConverter DQErr).

(** ** Texts *)

Definition lf : ascii := "010"%char.
(** [%08lx] *)
Definition percent_08lx (x : Z) : list ascii := formatHex false 8 x.
(** What [snprintf] leaves in a buffer of 512 characters, as many of them as the whole text has. *)
Definition inBuffer (t : list ascii) : option (list ascii) :=
  if (length t <? 512)%nat then Some t else if (length t =? 512)%nat then Some (take 511 t ++ ["000"%char]) else None.

Definition getExceptionCauseText (cause : Z) : list ascii :=
  let exceptionCauseMap := chars <$> [
    "Instruction address misaligned"; "Instruction access fault"; "Illegal instruction"; "Breakpoint";
    "Load address misaligned"; "Load access fault"; "Store/AMO address misaligned"; "Store/AMO access fault";
    "Environment call from U-mode"; "Environment call from S-mode"; "Reserved"; "Environment call from M-mode";
    "Instruction page fault"; "Load page fault"; "Reserved"; "Store/AMO page fault"]%string in
  if (0 <=? cause) && (cause <? Z.of_nat (length exceptionCauseMap)) then default [] (exceptionCauseMap !! Z.to_nat cause)
  else if ((24 <=? cause) && (cause <=? 31)) || ((48 <=? cause) && (cause <=? 63)) then chars "Custom"
  else chars "Reserved".
Definition getInterruptCauseText (cause : Z) : list ascii :=
  let eventCauseMap := chars <$> [
    "Reserved"; "Supervisor software interrupt"; "Reserved"; "Machine software interrupt"; "Reserved";
    "Supervisor timer interrupt"; "Reserved"; "Machine timer interrupt"; "Reserved"; "Supervisor external interrupt";
    "Reserved"; "Machine external interrupt"]%string in
  if (0 <=? cause) && (cause <? Z.of_nat (length eventCauseMap)) then default [] (eventCauseMap !! Z.to_nat cause)
  else if 16 <=? cause then chars "Custom"
  else chars "Reserved".
Definition getControlText (control : Z) : list ascii :=
  let controlMap := chars <$> [
    "No Event"; "Reserved"; "Trace On"; "Trace Off"; "Exit Debug"; "Enter Debug"; "Exit Reset"; "Enter Reset"]%string in
  if (0 <=? control) && (control <? Z.of_nat (length controlMap)) then default [] (controlMap !! Z.to_nat control)
  else chars "Reserved".

(** A line starts with the core and the time; [%d] reads the low half of the time. *)
Definition lineStart (core ts : Z) : list ascii := chars "[" ++ percent_d core ++ chars "] " ++ percent_d (i32 ts) ++ chars " ".
Definition pidStr (pid : Z) : list ascii := if pid =? -1 then [] else chars "Pid=" ++ percent_d pid ++ chars " ".
Definition pcText (pc : Z) : list ascii := chars "PC=0x" ++ percent_08lx pc.

Definition extTrigEventText (core ts pid ckdf pc id : Z) : list ascii :=
  lineStart core ts ++ chars "[External Trigger] " ++ pidStr pid ++ pcText pc ++
  (if ckdf =? 0 then chars " ID=[--]" else chars " ID=[" ++ percent_d id ++ chars "]").
Definition watchpointText (core ts pid ckdf pc id : Z) : list ascii :=
  lineStart core ts ++ pidStr pid ++ chars "[Watchpoint] " ++ pcText pc ++
  (if ckdf =? 0 then chars " ID=[--]" else chars " ID=[" ++ percent_d id ++ chars "]").
(** The format for an exception has a conversion that does not exist. *)
Definition callRetText (core ts pid pc pcDest crFlags : Z) : option (list ascii) :=
  let has f := negb (Z.land crFlags f =? 0) in
  let line name := Some (lineStart core ts ++ pidStr pid ++ chars name ++ pcText pc ++
                         chars " PCDest=[0x" ++ percent_08lx pcDest ++ chars "]") in
  if has isCall then line "[Call] "%string
  else if has isInterrupt then line "[Interrupt] "%string
  else if has isException then None
  else if has isReturn then line "[Return] "%string
  else if has isExceptionReturn then line "[Exception Return] "%string
  else line "[Call/Return?? "%string.
Definition exceptionText (core ts pid pc cause : Z) : list ascii :=
  lineStart core ts ++ pidStr pid ++ chars "[Exception] " ++ pcText pc ++ chars " Cause=[" ++ percent_d cause ++ chars ":" ++
  getExceptionCauseText cause ++ chars "]".
Definition interruptText (core ts pid pc cause : Z) : list ascii :=
  lineStart core ts ++ pidStr pid ++ chars "[Interrupt] " ++ pcText pc ++ chars " Cause=[" ++ percent_d cause ++ chars ":" ++
  getInterruptCauseText cause ++ chars "]".
Definition contextText (newContext : list ascii) (core ts prevPid pc pid : Z) : list ascii :=
  lineStart core ts ++ pidStr prevPid ++ chars "[" ++ newContext ++ chars "] " ++ pcText pc ++ chars " Pid=[" ++
  percent_d (i32 pid) ++ chars "]".
Definition periodicText (core ts pid pc : Z) : list ascii :=
  lineStart core ts ++ pidStr pid ++ chars "[PC Sample] " ++ pcText pc ++ chars " 0=[0]".
Definition controlText (core ts pid ckdf control pc : Z) : list ascii :=
  lineStart core ts ++ pidStr pid ++ chars "[Control] " ++ (if ckdf =? 0 then chars "PC=0x0" else pcText pc) ++
  chars " Control=[" ++ percent_d control ++ chars ":" ++ getControlText control ++ chars "]".

(** ** Writing *)

(** [sprintf(msgBuff,eventNameGen,extension)]: the name ends in a conversion, and has to have no other. *)
Definition eventFileName (gen ext : list ascii) : option (list ascii) :=
  let stem := take (length gen - 2) gen in
  if forallb (fun c => negb (bool_decide (c = "%"%char))) stem && (length (stem ++ ext) <? 512)%nat then Some (stem ++ ext) else None.

Definition ffl (file function : option (list ascii)) (line : Z) : list ascii :=
  chars " ffl:" ++ default [] file ++ chars ":" ++ default [] function ++ chars ":" ++ percent_d (i32 line) ++ [lf].

Section files.
(** Whether a file can be opened, and what the source files contain. *)
Context (opens : list ascii -> bool) (contents : list ascii -> option (list ascii)).

(** The file of a type of events is opened for its first one; false if it cannot be. *)
Definition openEvent (i : nat) (ext : list ascii) : VM bool :=
  c ← get;
  fd ← lift_opt (vc_eventFDs c !! i);
  match fd with
  | Some _ => mret true
  | None =>
      name ← lift_opt (eventFileName (vc_eventNameGen c) ext);
      if opens name then
        head ← lift_opt (vc_elfNamePath c);
        modify (set_eventFDs (<[i := Some head]> (vc_eventFDs c))) ≫= fun _ => mret true
      else modify (set_vc_status DQERR_ERR) ≫= fun _ => mret false
  end.

(** The source line of an address.  The references that [getSrcLines] assigns are variables
    here, and not the members of the disassembler. *)
Definition srcInfo (strict : bool) (pc : Z) : VM (list ascii) :=
  c ← get;
  match vc_disassembler c with
  | None => mret [lf]
  | Some d =>
      let back d' := modify (set_disassembler (Some (set_source (ds_source d) d'))) in
      match getSrcLines contents pc d with
      | Ok d' _ =>
          let x := ds_source d' in
          let info function := mret (ffl (so_sourceFile x) function (so_sourceLineNum x)) in
          match so_sourceFunction x with
          | Some f => back d' ≫= fun _ => info (Some f)
          | None =>
              match getFunctionName pc d' with
              | Ok d' (f, _) => back d' ≫= fun _ => info f
              | Err d' _ => back d' ≫= fun _ => if strict then throw DQERR_ERR else info None
              | Undef => undef
              | NoFuel => fun _ => NoFuel
              end
          end
      | Err d' _ => back d' ≫= fun _ => mret [lf]
      | Undef => undef
      | NoFuel => fun _ => NoFuel
      end
  end.

(** The line is written to the files that are open. *)
Definition writeBoth (i : nat) (t : list ascii) : VM unit :=
  modify (fun c => set_eventFDs (alter (fmap (fun f => f ++ t)) i (vc_eventFDs c)) (set_eventFD ((fun f => f ++ t) <$> vc_eventFD c) c)).

(** What the functions below have in common. *)
Definition emitLine (i : nat) (ext : String.string) (onFail : VM unit) (strict : bool) (pc : Z) (text : option (list ascii)) : VM unit :=
  ok ← openEvent i (chars ext);
  if ok : bool then
    info ← srcInfo strict pc;
    text ← lift_opt (text ≫= inBuffer);
    info ← lift_opt (inBuffer info);
    writeBoth i (text ++ info)
  else onFail.

Definition emitExtTrigEvent (core ts pid ckdf pc id : Z) : VM unit :=
  emitLine et_extTriggerIndex "trigger" (mret tt) true pc (Some (extTrigEventText core ts pid ckdf pc id)).
Definition emitWatchpoint (core ts pid ckdf pc id : Z) : VM unit :=
  emitLine et_watchpointIndex "watchpoint" (mret tt) true pc (Some (watchpointText core ts pid ckdf pc id)).
Definition emitCallRet (core ts pid ckdf pc pcDest crFlags : Z) : VM unit :=
  emitLine et_callRetIndex "callret" (mret tt) true pc (callRetText core ts pid pc pcDest crFlags).
Definition emitException (core ts pid ckdf pc cause : Z) : VM unit :=
  emitLine et_exceptionIndex "exception" (mret tt) true pc (Some (exceptionText core ts pid pc cause)).
Definition emitInterrupt (core ts pid ckdf pc cause : Z) : VM unit :=
  emitLine et_interruptIndex "interrupt" (mret tt) true pc (Some (interruptText core ts pid pc cause)).
(** The type of a context: its file, its name and its extension. *)
Definition contextOf (tag : Z) : option (nat * String.string * String.string) :=
  match tag with
  | 0 => Some (et_privContextIndex, "PrivContext", "privcontext")%string
  | 2 => Some (et_sContextIndex, "SContext", "scontext")%string
  | 3 => Some (et_hContextIndex, "hContext", "hcontext")%string
  | _ => None
  end.
Definition emitContext (core ts prevPid ckdf pc pid tag : Z) : VM unit :=
  match contextOf tag with
  | Some (i, name, ext) => emitLine i ext (throw DQERR_ERR) false pc (Some (contextText (chars name) core ts prevPid pc pid))
  | None => throw DQERR_ERR
  end.
Definition emitPeriodic (core ts pid ckdf pc : Z) : VM unit :=
  emitLine et_periodicIndex "periodic" (mret tt) true pc (Some (periodicText core ts pid pc)).
Definition emitControl (core ts pid ckdf control pc : Z) : VM unit :=
  emitLine et_controlIndex "control" (mret tt) true pc (Some (controlText core ts pid ckdf control pc)).

(** What the decoder's calls of the converter of a process come to. *)
Definition eventEmit (e : Z * Z * Z * Emit) : VM unit :=
  let '(_, core, ts, e) := e in
  match e with
  | EmitExtTrigEvent pid ckdf pc id => emitExtTrigEvent core ts pid ckdf pc id
  | EmitWatchpoint pid ckdf pc id => emitWatchpoint core ts pid ckdf pc id
  | EmitCallRet pid ckdf pc pcDest crFlags => emitCallRet core ts pid ckdf pc pcDest crFlags
  | EmitException pid ckdf pc cause => emitException core ts pid ckdf pc cause
  | EmitInterrupt pid ckdf pc cause => emitInterrupt core ts pid ckdf pc cause
  | EmitContext prevPid ckdf pc pid tag => emitContext core ts prevPid ckdf pc pid tag
  | EmitPeriodic pid ckdf pc => emitPeriodic core ts pid ckdf pc
  | EmitControl pid ckdf control pc => emitControl core ts pid ckdf control pc
  | CtfAddCall _ _ | CtfAddRet _ _ => mret tt
  end.

(** ** The constructor *)

(** [mkdirs] says whether the directory is there or can be made.  The name of the object file
    must not be a null pointer; the names have to fit in their arrays. *)
Definition newEventConverter (cwd : list ascii) (mkdirs : bool) (elf rtd : option (list ascii)) (disassembler : option Disassembler)
    (numCores freq : Z) : Res EventConverter DQErr unit :=
  let start := {|
    vc_status := DQERR_ERR; vc_numCores := numCores; vc_frequency := freq; vc_eventNameGen := [];
    vc_eventFDs := replicate et_numEventTypes None; vc_eventFD := None; vc_elfNamePath := None; vc_disassembler := disassembler |} in
  match elf, getPathsNames cwd elf, getPathsNames cwd rtd with
  | Some elfName, Some (base, _, _), Some (_, _, dir) =>
      let gen := dir ++ chars "events" ++ ["/"%char] ++ base ++ chars ".%s" in
      let head := chars "# ELFPATH=" ++ elfName ++ [lf] in
      if (512 <=? length (dir ++ base ++ chars ".events"))%nat then Undef
      else if negb (opens (dir ++ base ++ chars ".events")) then Err start DQERR_ERR
      else if (512 <=? length gen)%nat then Undef
      else
        let c status gen := {|
          vc_status := status; vc_numCores := numCores; vc_frequency := freq; vc_eventNameGen := gen;
          vc_eventFDs := replicate et_numEventTypes None; vc_eventFD := Some head; vc_elfNamePath := Some head;
          vc_disassembler := disassembler |} in
        if mkdirs then Ok (c DQERR_OK gen) tt else Err (c DQERR_ERR (dir ++ chars "events")) DQERR_ERR
  | _, _, _ => Undef
  end.
End files.
