(* ===== verification/EventsRead.v ===== *)
(** * The lines of events are read back

    A reader of the lines of [EventConverter], and the proof that it gives back every event
    that the converter was told, in the common file and in the files of the types, for any
    sequence of events. *)

From stdpp Require Import strings.
From Stdlib Require Import Ascii.
From Stdlib Require String.
From S2P Require Import Prelude Nexus Memory NextAddr Analytics ObjDump ObjDumpPrint ObjCode SrcFiles State Symbols ElfFile Disasm.
From S2P Require Import Described Ctf Floats Events.

(** ** The reader *)

Inductive EventValue :=
| V_none
| V_number (n : Z)
| V_address (a : Z)
| V_cause (n : Z) (name : list ascii).
Record EventText := {
  el_core : Z; el_ts : Z; el_pid : option Z; el_name : list ascii; el_pc : Z; el_key : list ascii; el_value : EventValue;
}.

(** The text before the first [c], and what comes after it. *)
Fixpoint upTo (c : ascii) (l : list ascii) : option (list ascii * list ascii) :=
  match l with
  | [] => None
  | x :: l => if decide (x = c) then Some ([], l) else '(w, l) ← upTo c l; Some (x :: w, l)
  end.
Fixpoint strip (p l : list ascii) : option (list ascii) :=
  match p, l with
  | [], _ => Some l
  | c :: p, x :: l => if decide (x = c) then strip p l else None
  | _, _ => None
  end.
Definition readInt (w : list ascii) : option Z :=
  match w with
  | "-"%char :: w => x ← isStringADecNumber w; Some (- x)
  | _ => isStringADecNumber w
  end.
Definition readPid (l : list ascii) : option (option Z * list ascii) :=
  match strip (chars "Pid=") l with
  | Some l => '(w, l) ← upTo " " l; x ← readInt w; Some (Some x, l)
  | None => Some (None, l)
  end.
Definition readValue (w : list ascii) : option EventValue :=
  if decide (w = chars "--") then Some V_none
  else
    match strip (chars "0x") w with
    | Some w => x ← isStringAHexNumber w; Some (V_address x)
    | None =>
        match upTo ":" w with
        | Some (w, t) => x ← readInt w; Some (V_cause x t)
        | None => x ← readInt w; Some (V_number x)
        end
    end.

(** An event, the rest of its line, and the lines after it. *)
Definition readEvent (l : list ascii) : option (EventText * list ascii * list ascii) :=
  l ← strip (chars "[") l; '(w, l) ← upTo "]" l; core ← readInt w;
  l ← strip (chars " ") l; '(w, l) ← upTo " " l; ts ← readInt w;
  '(pid1, l) ← readPid l;
  l ← strip (chars "[") l; '(name, l) ← upTo "]" l; l ← strip (chars " ") l;
  '(pid2, l) ← readPid l;
  l ← strip (chars "PC=0x") l; '(w, l) ← upTo " " l; pc ← isStringAHexNumber w;
  '(key, l) ← upTo "=" l; l ← strip (chars "[") l; '(w, l) ← upTo "]" l; v ← readValue w;
  '(info, l) ← upTo lf l;
  Some ({| el_core := core; el_ts := ts; el_pid := match pid1 with Some _ => pid1 | None => pid2 end;
           el_name := name; el_pc := pc; el_key := key; el_value := v |}, info, l).
Fixpoint readEvents (n : nat) (l : list ascii) : option (list (EventText * list ascii)) :=
  match n, l with
  | _, [] => Some []
  | O, _ => None
  | S n, _ => '(e, info, l) ← readEvent l; es ← readEvents n l; Some ((e, info) :: es)
  end.
(** A file: the name of the program, and the events. *)
Definition readFile (l : list ascii) : option (list ascii * list (EventText * list ascii)) :=
  l ← strip (chars "# ELFPATH=") l; '(elf, l) ← upTo lf l; es ← readEvents (length l) l; Some (elf, es).

(** ** Words *)

Lemma upTo_app c w l : Forall (fun x => x <> c) w -> upTo c (w ++ c :: l) = Some (w, l).
Proof.
  induction 1 as [|x w Hx _ IH]; cbn [app upTo]; [by rewrite decide_True|]. rewrite decide_False by done. by rewrite IH.
Qed.
Lemma upTo_None c w : Forall (fun x => x <> c) w -> upTo c w = None.
Proof. induction 1 as [|x w Hx _ IH]; cbn [upTo]; [done|]. rewrite decide_False by done. by rewrite IH. Qed.
Lemma strip_app p l : strip p (p ++ l) = Some l.
Proof. induction p as [|c p IH]; cbn [app strip]; [by destruct l|]. by rewrite decide_True. Qed.

(** The characters of numbers. *)
Definition numberChar (c : ascii) : bool := match hexDigit c with Some _ => true | None => bool_decide (c = "-"%char) end.
Lemma number_plain c w : numberChar c = false -> Forall numberChar w -> Forall (fun x => x <> c) w.
Proof. intros Hc H. eapply list.Forall_impl; [exact H|]. intros x Hx ->. by rewrite Hc in Hx. Qed.

Lemma digit_number d : 0 <= d < 16 -> numberChar (digitChar false d).
Proof. intros Hd. unfold numberChar. by rewrite hexDigit_char. Qed.
Lemma digit_code d : 0 <= d < 10 -> ascii_of_N (Z.to_N (48 + d)) = digitChar false d.
Proof. intros H. unfold digitChar. by destruct (Z.ltb_spec d 10); [|lia]. Qed.

Lemma decimal_chars n : forall x l, 0 <= x -> Forall numberChar l -> Forall numberChar (decimal n x l).
Proof.
  induction n as [|n IH]; intros x l Hx Hl; cbn [decimal]; [done|].
  pose proof (Z.mod_pos_bound x 10 ltac:(lia)). pose proof (Z.div_pos x 10 ltac:(lia) ltac:(lia)).
  assert (Forall numberChar (ascii_of_N (Z.to_N (48 + x mod 10)) :: l)) as H' by
    (constructor; [rewrite digit_code by lia; apply digit_number; lia|done]).
  destruct (x <? 10); [done|by apply IH].
Qed.
Lemma percent_d_chars x : Forall numberChar (percent_d x).
Proof.
  unfold percent_d. destruct (Z.ltb_spec x 0); [constructor; [done|]|]; by apply decimal_chars; [lia|].
Qed.
Lemma percent_x_chars x : 0 <= x -> Forall numberChar (percent_08lx x).
Proof.
  unfold percent_08lx, formatHex. generalize (8 `max` hexLength 16 x)%nat. intros n. revert x. induction n as [|n IH]; intros x Hx; cbn; [constructor|].
  pose proof (Z.mod_pos_bound x 16 ltac:(lia)). apply list.Forall_app. split; [apply IH; by apply Z.div_pos|].
  constructor; [by apply digit_number|constructor].
Qed.

Lemma decimal_value n : forall x l, 0 <= x < 10 ^ Z.of_nat n -> x < 2 ^ 64 -> (0 < n)%nat ->
  numeral decDigit 10 (decimal n x l) 0 = numeral decDigit 10 l x.
Proof.
  induction n as [|n IH]; intros x l Hx H64 Hn; [lia|]. cbn [decimal].
  pose proof (Z.mod_pos_bound x 10 ltac:(lia)) as Hm. pose proof (Z.div_mod x 10 ltac:(lia)) as Hd.
  pose proof (Z.div_pos x 10 ltac:(lia) ltac:(lia)). rewrite digit_code by lia.
  destruct (Z.ltb_spec x 10) as [Hs|Hs].
  - cbn [numeral]. rewrite decDigit_char by lia. cbn [mbind option_bind]. rewrite u64_small by lia. f_equal. rewrite Z.mod_small by lia. lia.
  - rewrite Nat2Z.inj_succ, Z.pow_succ_r in Hx by lia.
    assert (0 < n)%nat as Hn' by (destruct n; [cbn in Hx; lia|lia]). rewrite IH by lia.
    cbn [numeral]. rewrite decDigit_char by lia. cbn [mbind option_bind]. rewrite u64_small by lia. f_equal. lia.
Qed.
Lemma decimal_cons n x l : (0 < n)%nat -> 0 <= x -> exists c t, decimal n x l = c :: t /\ (Forall numberChar l -> numberChar c).
Proof.
  intros Hn Hx. assert (forall m y k, 0 <= y -> k <> [] -> exists c t, decimal m y k = c :: t) as H.
  { induction m as [|m IH]; intros y k Hy Hk; cbn [decimal]; [destruct k; [done|by do 2 eexists]|].
    destruct (y <? 10); [by do 2 eexists|]. apply IH; [by apply Z.div_pos|done]. }
  destruct n as [|n]; [lia|]. assert (exists c t, decimal (S n) x l = c :: t) as (c & t & E).
  { cbn [decimal]. destruct (x <? 10); [by do 2 eexists|]. apply H; [by apply Z.div_pos|done]. }
  exists c, t. split; [done|]. intros Hl. pose proof (decimal_chars (S n) x l Hx Hl) as Hc. rewrite E in Hc. by apply list.Forall_cons in Hc as [? _].
Qed.
Lemma decimal_head n : forall x l c t, 0 <= x -> (forall c' t', l = c' :: t' -> decDigit c' <> None) -> decimal n x l = c :: t -> decDigit c <> None.
Proof.
  induction n as [|n IH]; intros x l c t Hx Hl E; cbn [decimal] in E; [by eapply Hl|].
  pose proof (Z.mod_pos_bound x 10 ltac:(lia)) as Hm. rewrite digit_code in E by lia.
  destruct (x <? 10); [injection E as <- _; by rewrite decDigit_char by lia|].
  refine (IH (x / 10) _ c t ltac:(by apply Z.div_pos) _ E). intros c' t' [= <- _]. by rewrite decDigit_char by lia.
Qed.

Lemma readInt_d x : - 2 ^ 63 <= x < 2 ^ 63 -> readInt (percent_d x) = Some x.
Proof.
  intros Hx. unfold percent_d, readInt. destruct (Z.ltb_spec x 0) as [H|H].
  - unfold isStringADecNumber. rewrite decimal_value by lia. cbn. f_equal. lia.
  - unfold isStringADecNumber. pose proof (decimal_value 20 x [] ltac:(lia) ltac:(lia) ltac:(lia)) as Hv. cbn [numeral] in Hv.
    destruct (decimal_cons 20 x [] ltac:(lia) H) as (c & t & E & _).
    pose proof (decimal_head 20 x [] c t H ltac:(done) E) as Hh. rewrite E in *. by destruct c as [[] [] [] [] [] [] [] []].
Qed.
Lemma hexLength_bound n : forall x, 0 <= x < 16 ^ Z.of_nat n -> x < 16 ^ Z.of_nat (hexLength n x).
Proof.
  induction n as [|n IH]; intros x Hx; [apply Hx|]. cbn [hexLength]. destruct (Z.eqb_spec x 0); [subst; cbn; lia|].
  rewrite Nat2Z.inj_succ, Z.pow_succ_r in * by lia. specialize (IH (x / 16) ltac:(split; [apply Z.div_pos; lia|apply Z.div_lt_upper_bound; lia])).
  pose proof (Z.div_mod x 16 ltac:(lia)). pose proof (Z.mod_pos_bound x 16 ltac:(lia)). lia.
Qed.
Lemma hexLength_le n : forall x, (hexLength n x <= n)%nat.
Proof. induction n as [|n IH]; intros x; cbn; [done|]. destruct (x =? 0); [lia|]. specialize (IH (x / 16)). lia. Qed.
Lemma hex_x x : 0 <= x < 2 ^ 64 -> isStringAHexNumber (percent_08lx x) = Some x.
Proof.
  intros Hx. unfold percent_08lx, formatHex. apply hex_value; [|lia]. split; [lia|].
  pose proof (hexLength_bound 16 x ltac:(lia)) as Hb. eapply Z.lt_le_trans; [exact Hb|]. apply Z.pow_le_mono_r; lia.
Qed.

(** ** Lines *)

Definition valueText (v : EventValue) : list ascii :=
  match v with
  | V_none => chars "--"
  | V_number n => percent_d n
  | V_address a => chars "0x" ++ percent_08lx a
  | V_cause n name => percent_d n ++ ":"%char :: name
  end.
Definition pidText (pid : option Z) : list ascii :=
  match pid with Some p => chars "Pid=" ++ percent_d p ++ " "%char :: [] | None => [] end.
(** The pid comes before the name of the event or after it. *)
Definition lineText (after : bool) (pc : list ascii) (r : EventText) : list ascii :=
  let name := chars "[" ++ el_name r ++ "]"%char :: chars " " in
  chars "[" ++ percent_d (el_core r) ++ "]"%char :: chars " " ++ percent_d (el_ts r) ++ " "%char ::
  (if after then name ++ pidText (el_pid r) else pidText (el_pid r) ++ name) ++
  chars "PC=0x" ++ pc ++ " "%char :: el_key r ++ "="%char :: chars "[" ++ valueText (el_value r) ++ ["]"%char].

Definition small (x : Z) : Prop := - 2 ^ 63 <= x < 2 ^ 63.
Definition value_ok (v : EventValue) : Prop :=
  match v with
  | V_none => True
  | V_number n => small n
  | V_address a => 0 <= a < 2 ^ 64
  | V_cause n name => small n /\ Forall (fun x => x <> "]"%char) name /\ (length name <= 40)%nat
  end.
Record text_ok (r : EventText) : Prop := {
  to_core : small (el_core r);
  to_ts : small (el_ts r);
  to_pid : match el_pid r with Some p => small p | None => True end;
  to_name : Forall (fun x => x <> "]"%char) (el_name r) /\ (length (el_name r) <= 40)%nat;
  to_key : Forall (fun x => x <> "="%char) (el_key r) /\ (length (el_key r) <= 40)%nat;
  to_value : value_ok (el_value r);
}.

Lemma strip_0x w t : Forall numberChar w -> t = [] \/ (exists t', t = ":"%char :: t') -> strip (chars "0x") (w ++ t) = None.
Proof.
  intros Hw Ht. destruct Hw as [|a w Ha Hw].
  { destruct Ht as [-> |[t' ->]]; done. }
  cbn [app strip chars String.list_ascii_of_string]. destruct (decide (a = "0"%char)) as [->|]; [|done].
  destruct Hw as [|b w Hb Hw]; cbn [app].
  - destruct Ht as [-> |[t' ->]]; done.
  - destruct (decide (b = "x"%char)) as [->|]; done.
Qed.

Lemma readValue_text v : value_ok v -> readValue (valueText v) = Some v.
Proof.
  intros Hv. unfold readValue. destruct v as [|n|a|n name]; cbn [valueText].
  - done.
  - destruct (decide _) as [E|_].
    { pose proof (readInt_d n Hv) as H. rewrite E in H. done. }
    rewrite <-(app_nil_r (percent_d n)) at 1. rewrite strip_0x by (apply percent_d_chars || by left).
    rewrite upTo_None by (apply number_plain, percent_d_chars; done). by rewrite readInt_d.
  - destruct (decide _) as [E|_]; [done|]. rewrite strip_app. by rewrite hex_x.
  - destruct Hv as (Hn & _ & _). destruct (decide _) as [E|_].
    { assert (":"%char ∈ chars "--") as H by (rewrite <-E; apply elem_of_app; right; left). cbn in H. set_solver. }
    rewrite strip_0x by (apply percent_d_chars || (right; by eexists)).
    rewrite upTo_app by (apply number_plain, percent_d_chars; done). by rewrite readInt_d.
Qed.
Lemma valueText_plain v : value_ok v -> Forall (fun x => x <> "]"%char) (valueText v).
Proof.
  destruct v as [|n|a|n name]; cbn [valueText value_ok]; intros Hv.
  - by repeat constructor.
  - apply number_plain, percent_d_chars; done.
  - apply list.Forall_app. split; [by repeat constructor|]. apply number_plain; [done|]. apply percent_x_chars. lia.
  - apply list.Forall_app. split; [apply number_plain, percent_d_chars; done|]. constructor; [done|apply Hv].
Qed.

Lemma readPid_text pid l : match pid with Some p => small p | None => strip (chars "Pid=") l = None end ->
  readPid (pidText pid ++ l) = Some (pid, l).
Proof.
  intros Hp. unfold readPid. destruct pid as [p|]; cbn [pidText].
  - rewrite <-app_assoc, strip_app, <-app_assoc. cbn [app]. rewrite upTo_app by (apply number_plain, percent_d_chars; done).
    cbn [mbind option_bind]. by rewrite readInt_d.
  - cbn [app]. by rewrite Hp.
Qed.

Lemma readEvent_line after pc r info l : text_ok r -> isStringAHexNumber pc = Some (el_pc r) -> Forall numberChar pc ->
  Forall (fun x => x <> lf) info -> readEvent (lineText after pc r ++ info ++ lf :: l) = Some (r, info, l).
Proof.
  intros [Hcore Hts Hpid [Hname _] [Hkey _] Hv] Epc Hpc Hinfo. unfold readEvent, lineText.
  rewrite <-?app_assoc, strip_app. cbn [mbind option_bind].
  rewrite <-?app_assoc. cbn [app]. rewrite upTo_app by (apply number_plain, percent_d_chars; done). cbn [mbind option_bind].
  rewrite readInt_d by done. cbn [mbind option_bind].
  rewrite <-?app_assoc, strip_app. cbn [mbind option_bind].
  rewrite <-?app_assoc. cbn [app]. rewrite upTo_app by (apply number_plain, percent_d_chars; done). cbn [mbind option_bind].
  rewrite readInt_d by done. cbn [mbind option_bind].
  assert (forall (q1 q2 : option Z) m, match q1 with Some _ => q1 | None => q2 end = el_pid r ->
    readPid m = Some (q2, chars "PC=0x" ++ pc ++ " "%char :: el_key r ++ "="%char :: chars "[" ++ valueText (el_value r) ++ "]"%char :: info ++ lf :: l) ->
    (l0 ← strip (chars "[") (chars "[" ++ el_name r ++ "]"%char :: chars " " ++ m);
     '(name, l1) ← upTo "]" l0; l2 ← strip (chars " ") l1; '(pid2, l3) ← readPid l2;
     l4 ← strip (chars "PC=0x") l3; '(w, l5) ← upTo " " l4; pc0 ← isStringAHexNumber w;
     '(key, l6) ← upTo "=" l5; l7 ← strip (chars "[") l6; '(w0, l8) ← upTo "]" l7; v ← readValue w0;
     '(info0, l9) ← upTo lf l8;
     Some ({| el_core := el_core r; el_ts := el_ts r; el_pid := match q1 with Some _ => q1 | None => pid2 end;
              el_name := name; el_pc := pc0; el_key := key; el_value := v |}, info0, l9)) = Some (r, info, l)) as Hrest.
  { intros q1 q2 m Hq Hm. rewrite strip_app. cbn [mbind option_bind]. rewrite upTo_app by done. cbn [mbind option_bind].
    rewrite strip_app. cbn [mbind option_bind]. rewrite Hm. cbn [mbind option_bind]. rewrite strip_app. cbn [mbind option_bind].
    rewrite upTo_app by (by apply number_plain). cbn [mbind option_bind]. rewrite Epc. cbn [mbind option_bind].
    rewrite upTo_app by done. cbn [mbind option_bind]. rewrite strip_app. cbn [mbind option_bind].
    rewrite upTo_app by (by apply valueText_plain). cbn [mbind option_bind]. rewrite readValue_text by done. cbn [mbind option_bind].
    rewrite upTo_app by done. cbn [mbind option_bind]. rewrite Hq. by destruct r. }
  destruct after; do 4 (rewrite <-?app_assoc; cbn [app]).
  - match goal with |- (readPid ?m ≫= _) = _ => change (readPid m) with (readPid (pidText None ++ m)) end.
    rewrite readPid_text by done. cbn [mbind option_bind]. apply (Hrest None (el_pid r)); [done|].
    apply readPid_text. by destruct (el_pid r).
  - rewrite readPid_text by (by destruct (el_pid r)). cbn [mbind option_bind].
    apply (Hrest (el_pid r) None); [by destruct (el_pid r)|]. done.
Qed.

(** ** What an event says *)

(** The line of an event: its type, the address whose source line is told, and its text. *)
Record Line := { ln_index : nat; ln_pc : Z; ln_after : bool; ln_word : list ascii; ln_text : EventText }.

Definition pidOf (pid : Z) : option Z := if pid =? -1 then None else Some pid.
Definition idOf (ckdf id : Z) : EventValue := if ckdf =? 0 then V_none else V_number id.
Definition callRetName (crFlags : Z) : option String.string :=
  let has f := negb (Z.land crFlags f =? 0) in
  if has isCall then Some "Call"%string
  else if has isInterrupt then Some "Interrupt"%string
  else if has isException then None
  else if has isReturn then Some "Return"%string
  else if has isExceptionReturn then Some "Exception Return"%string
  else None.
Definition textLine (core ts : Z) (i : nat) (after : bool) (pid : Z) (name : String.string) (pc : Z) (key : String.string) (v : EventValue) : Line := {|
  ln_index := i; ln_pc := pc; ln_after := after; ln_word := percent_08lx pc;
  ln_text := {| el_core := core; el_ts := i32 ts; el_pid := pidOf pid; el_name := chars name; el_pc := pc;
                el_key := chars key; el_value := v |} |}.
Definition lineOf (e : Z * Z * Z * Emit) : option Line :=
  let '(_, core, ts, e) := e in
  match e with
  | EmitExtTrigEvent pid ckdf pc id => Some (textLine core ts et_extTriggerIndex true pid "External Trigger" pc "ID" (idOf ckdf id))
  | EmitWatchpoint pid ckdf pc id => Some (textLine core ts et_watchpointIndex false pid "Watchpoint" pc "ID" (idOf ckdf id))
  | EmitCallRet pid ckdf pc pcDest crFlags =>
      name ← callRetName crFlags; Some (textLine core ts et_callRetIndex false pid name pc "PCDest" (V_address pcDest))
  | EmitException pid ckdf pc cause =>
      Some (textLine core ts et_exceptionIndex false pid "Exception" pc "Cause" (V_cause cause (getExceptionCauseText cause)))
  | EmitInterrupt pid ckdf pc cause =>
      Some (textLine core ts et_interruptIndex false pid "Interrupt" pc "Cause" (V_cause cause (getInterruptCauseText cause)))
  | EmitContext prevPid ckdf pc pid tag =>
      '(i, name, _) ← contextOf tag; Some (textLine core ts i false prevPid name pc "Pid" (V_number (i32 pid)))
  | EmitPeriodic pid ckdf pc => Some (textLine core ts et_periodicIndex false pid "PC Sample" pc "0" (V_number 0))
  | EmitControl pid ckdf control pc =>
      let v := V_cause control (getControlText control) in
      if ckdf =? 0 then
        Some {| ln_index := et_controlIndex; ln_pc := pc; ln_after := false; ln_word := chars "0";
                ln_text := {| el_core := core; el_ts := i32 ts; el_pid := pidOf pid; el_name := chars "Control"; el_pc := 0;
                              el_key := chars "Control"; el_value := v |} |}
      else Some (textLine core ts et_controlIndex false pid "Control" pc "Control" v)
  | CtfAddCall _ _ | CtfAddRet _ _ => None
  end.

(** The numbers of an event are those of the decoder: a call or return says what it is, and
    a context is of a type that has a file. *)
Definition address_ok (pc : Z) : Prop := 0 <= pc < 2 ^ 64.
Definition event_ok (e : Z * Z * Z * Emit) : Prop :=
  let '(_, core, ts, e) := e in
  small core /\
  match e with
  | EmitExtTrigEvent pid _ pc id | EmitWatchpoint pid _ pc id => small pid /\ address_ok pc /\ small id
  | EmitCallRet pid _ pc pcDest crFlags => small pid /\ address_ok pc /\ address_ok pcDest /\ is_Some (callRetName crFlags)
  | EmitException pid _ pc cause | EmitInterrupt pid _ pc cause => small pid /\ address_ok pc /\ small cause
  | EmitContext prevPid _ pc _ tag => small prevPid /\ address_ok pc /\ is_Some (contextOf tag)
  | EmitPeriodic pid _ pc => small pid /\ address_ok pc
  | EmitControl pid _ control pc => small pid /\ address_ok pc /\ small control
  | CtfAddCall _ _ | CtfAddRet _ _ => True
  end.

Lemma pidStr_text pid : pidStr pid = pidText (pidOf pid).
Proof. unfold pidStr, pidOf. by destruct (pid =? -1). Qed.
Lemma pidOf_small pid : small pid -> match pidOf pid with Some p => small p | None => True end.
Proof. unfold pidOf. by destruct (pid =? -1). Qed.
Lemma small_i32 x : small (i32 x).
Proof. pose proof (i32_bounds x). unfold small. lia. Qed.

(** The texts of a table are short and have no bracket. *)
Definition tableText (t : list ascii) : Prop := Forall (fun x => x <> "]"%char) t /\ (length t <= 40)%nat.
#[local] Instance tableText_dec t : Decision (tableText t).
Proof. unfold tableText. apply _. Defined.
Lemma table_text (table : list String.string) (i : Z) d : forallb (fun s => bool_decide (tableText (chars s))) table = true -> tableText d ->
  tableText (if (0 <=? i) && (i <? Z.of_nat (length (chars <$> table))) then default [] ((chars <$> table) !! Z.to_nat i) else d).
Proof.
  intros Ht Hd. destruct (_ && _); [|done]. destruct ((chars <$> table) !! Z.to_nat i) as [t|] eqn:E; cbn; [|split; [constructor|cbn; lia]].
  apply list_lookup_fmap_Some in E as (s & -> & Hs). rewrite List.forallb_forall in Ht.
  apply (bool_decide_unpack _), bool_decide_pack, (bool_decide_eq_true_1 _), Ht, list_elem_of_In, (list_elem_of_lookup_2 _ _ _ Hs).
Qed.
Lemma exceptionCause_text cause : tableText (getExceptionCauseText cause).
Proof.
  unfold getExceptionCauseText. cbv zeta. apply (table_text [_; _; _; _; _; _; _; _; _; _; _; _; _; _; _; _]); [by vm_compute|].
  destruct (_ || _); apply (bool_decide_unpack _); by vm_compute.
Qed.
Lemma interruptCause_text cause : tableText (getInterruptCauseText cause).
Proof.
  unfold getInterruptCauseText. cbv zeta. apply (table_text [_; _; _; _; _; _; _; _; _; _; _; _]); [by vm_compute|].
  destruct (16 <=? cause); apply (bool_decide_unpack _); by vm_compute.
Qed.
Lemma control_text control : tableText (getControlText control).
Proof.
  unfold getControlText. cbv zeta. apply (table_text [_; _; _; _; _; _; _; _]); [by vm_compute|].
  apply (bool_decide_unpack _); by vm_compute.
Qed.

(** The line of an event that is as it should be. *)
Definition line_ok (ln : Line) : Prop :=
  text_ok (ln_text ln) /\ isStringAHexNumber (ln_word ln) = Some (el_pc (ln_text ln)) /\ Forall numberChar (ln_word ln) /\
  (length (ln_word ln) <= 16)%nat /\ (ln_index ln < et_numEventTypes)%nat /\ address_ok (ln_pc ln).
Definition outText (ln : Line) : list ascii := lineText (ln_after ln) (ln_word ln) (ln_text ln).

Lemma percent_x_length x : (length (percent_08lx x) <= 16)%nat.
Proof. unfold percent_08lx, formatHex. rewrite hex_length. pose proof (hexLength_le 16 x). lia. Qed.

Lemma textLine_ok core ts i after pid name pc key v : small core -> small pid -> address_ok pc -> value_ok v -> (i < 10)%nat ->
  bool_decide (Forall (fun x => x <> "]"%char) (chars name)) && (length (chars name) <=? 40)%nat &&
  bool_decide (Forall (fun x => x <> "="%char) (chars key)) && (length (chars key) <=? 40)%nat = true ->
  line_ok (textLine core ts i after pid name pc key v).
Proof.
  intros Hc Hp Hpc Hv Hi H. apply andb_true_iff in H as [[[H1 H2]%andb_true_iff H3]%andb_true_iff H4].
  apply Nat.leb_le in H2, H4. apply bool_decide_eq_true in H1, H3.
  split_and!; cbn [textLine ln_text ln_word ln_index ln_pc el_pc]; try done.
  - split; cbn; try done; [apply small_i32|by apply pidOf_small].
  - by apply hex_x.
  - apply percent_x_chars, Hpc.
  - apply percent_x_length.
Qed.

Lemma idOf_ok ckdf id : small id -> value_ok (idOf ckdf id).
Proof. unfold idOf. by destruct (ckdf =? 0). Qed.
Lemma callRetName_ok f name : callRetName f = Some name ->
  name ∈ ["Call"; "Interrupt"; "Return"; "Exception Return"]%string.
Proof.
  unfold callRetName. intros E. repeat (destruct (negb _); [by simplify_eq; set_solver|]). done.
Qed.
Lemma contextOf_ok tag i name ext : contextOf tag = Some (i, name, ext) ->
  (i, name, ext) ∈ [(et_privContextIndex, "PrivContext", "privcontext"); (et_sContextIndex, "SContext", "scontext"); (et_hContextIndex, "hContext", "hcontext")]%string.
Proof. unfold contextOf. intros E. repeat case_match; simplify_eq; set_solver. Qed.

Lemma lineOf_ok e ln : event_ok e -> lineOf e = Some ln -> line_ok ln.
Proof.
  destruct e as [[[p core] ts] e]. intros [Hc He] E. cbn [lineOf] in E. destruct e; cbn in He.
  - injection E as <-. apply textLine_ok; try done; [apply He..| |unfold et_extTriggerIndex; lia]. apply idOf_ok, He.
  - injection E as <-. apply textLine_ok; try done; [apply He..| |unfold et_watchpointIndex; lia]. apply idOf_ok, He.
  - destruct (callRetName crFlags) as [name|] eqn:En; [|done]. injection E as <-. apply callRetName_ok in En.
    apply textLine_ok; try done; [apply He..|unfold et_callRetIndex; lia|]. set_unfold in En. by destruct_or! En; subst name.
  - injection E as <-. apply textLine_ok; try done; [apply He..| |unfold et_exceptionIndex; lia].
    split; [apply He|apply exceptionCause_text].
  - injection E as <-. apply textLine_ok; try done; [apply He..| |unfold et_interruptIndex; lia].
    split; [apply He|apply interruptCause_text].
  - destruct (contextOf tag) as [[[i name] ext]|] eqn:En; [|done]. injection E as <-. apply contextOf_ok in En.
    set_unfold in En. destruct_or! En; injection En as -> -> ->;
      (apply textLine_ok; try done; [apply He..|apply small_i32|unfold et_privContextIndex, et_sContextIndex, et_hContextIndex; lia]).
  - injection E as <-. apply textLine_ok; try done; [apply He..|unfold et_periodicIndex; lia].
  - assert (value_ok (V_cause control (getControlText control))) as Hv by (split; [apply He|apply control_text]).
    destruct (ckdf =? 0); injection E as <-.
    + split_and!; cbn [ln_text ln_word ln_index ln_pc el_pc]; try done; try (apply He); [|by repeat constructor|cbn; lia|unfold et_controlIndex, et_numEventTypes; lia].
      split; cbn; try done; [apply small_i32|apply pidOf_small, He|split; [by repeat constructor|lia]|split; [by repeat constructor|lia]].
    + apply textLine_ok; try done; [apply He..|unfold et_controlIndex; lia].
  - done.
  - done.
Qed.

(** ** The files of events

    What any sequence of events leaves in the files of [EventConverter], and that it is read
    back. *)

(** *** One event *)

Ltac texts := unfold lineStart, pcText; rewrite ?pidStr_text; unfold chars; cbn [String.list_ascii_of_string app];
  do 6 (rewrite <-?app_assoc; cbn [app]).

Section emit.
Context (opens : list ascii -> bool) (contents : list ascii -> option (list ascii)).

(** The file that a line goes to, and what is done if it cannot be opened. *)
Definition emitsLine (m : M EventConverter DQErr unit) (ln : Line) : Prop :=
  exists ext onFail strict, (length (chars ext) <= 11)%nat /\
    m = emitLine opens contents (ln_index ln) ext onFail strict (ln_pc ln) (Some (outText ln)).

Lemma emitsLine_intro i ext onFail strict pc text ln : (length (chars ext) <= 11)%nat -> i = ln_index ln -> pc = ln_pc ln ->
  text = Some (outText ln) -> emitsLine (emitLine opens contents i ext onFail strict pc text) ln.
Proof. intros He -> -> ->. by exists ext, onFail, strict. Qed.

Lemma callRetText_line core ts pid pc pcDest crFlags name : callRetName crFlags = Some name ->
  callRetText core ts pid pc pcDest crFlags =
    Some (outText (textLine core ts et_callRetIndex false pid name pc "PCDest" (V_address pcDest))).
Proof.
  unfold callRetName, callRetText. intros E.
  repeat (destruct (negb _); [simplify_eq; f_equal; unfold outText, textLine, lineText; cbn [ln_after ln_word ln_text el_core el_ts el_pid el_name el_pc el_key el_value valueText]; by texts|]).
  done.
Qed.

Lemma eventEmit_line e ln : lineOf e = Some ln -> emitsLine (eventEmit opens contents e) ln.
Proof.
  destruct e as [[[p core] ts] e]. intros E. cbn [lineOf] in E. destruct e; cbn [eventEmit];
    try (injection E as <-; apply emitsLine_intro; [cbn; lia|done|done|]; f_equal; unfold outText, textLine, lineText;
         cbn [ln_after ln_word ln_text el_core el_ts el_pid el_name el_pc el_key el_value valueText]).
  - unfold extTrigEventText, idOf. destruct (ckdf =? 0); cbn [valueText]; by texts.
  - unfold watchpointText, idOf. destruct (ckdf =? 0); cbn [valueText]; by texts.
  - destruct (callRetName crFlags) as [name|] eqn:En; [|done]. injection E as <-. apply emitsLine_intro; [cbn; lia|done|done|].
    by apply callRetText_line.
  - unfold exceptionText. by texts.
  - unfold interruptText. by texts.
  - unfold emitContext. destruct (contextOf tag) as [[[i name] ext]|] eqn:En; [|done]. injection E as <-.
    apply contextOf_ok in En. apply emitsLine_intro; [set_unfold in En; destruct_or! En; injection En as -> -> ->; cbn; lia|done|done|].
    f_equal. unfold outText, textLine, lineText, contextText.
    cbn [ln_after ln_word ln_text el_core el_ts el_pid el_name el_pc el_key el_value valueText]. by texts.
  - unfold periodicText. by texts.
  - unfold emitControl, controlText. destruct (ckdf =? 0); injection E as <-; (apply emitsLine_intro; [cbn; lia|done|done|]);
      f_equal; unfold outText, textLine, lineText;
      cbn [ln_after ln_word ln_text el_core el_ts el_pid el_name el_pc el_key el_value valueText]; by texts.
  - done.
  - done.
Qed.
Lemma eventEmit_none e : event_ok e -> lineOf e = None -> eventEmit opens contents e = mret tt.
Proof.
  destruct e as [[[p core] ts] e]. intros [_ He] E. cbn [lineOf] in E. destruct e; try done; cbn in He.
  - destruct He as (_ & _ & _ & [name Hn]). by rewrite Hn in E.
  - destruct He as (_ & _ & [[[i name] ext] Hn]). by rewrite Hn in E.
  - by destruct (ckdf =? 0).
Qed.
End emit.


Lemma outText_length ln : line_ok ln -> (length (outText ln) < 512)%nat.
Proof.
  intros ([_ _ _ [_ Hname] [_ Hkey] Hv] & _ & _ & Hw & _). unfold outText, lineText.
  pose proof (percent_d_length (el_core (ln_text ln))). pose proof (percent_d_length (el_ts (ln_text ln))).
  assert (length (valueText (el_value (ln_text ln))) <= 62)%nat as Hval.
  { destruct (el_value (ln_text ln)) as [|n|a|n name]; cbn [valueText]; unfold chars; cbn [String.list_ascii_of_string app length].
    - lia.
    - pose proof (percent_d_length n). lia.
    - pose proof (percent_x_length a). lia.
    - destruct Hv as (_ & _ & Hl). rewrite length_app. pose proof (percent_d_length n). cbn [length]. lia. }
  assert (length (pidText (el_pid (ln_text ln))) <= 26)%nat as Hpid.
  { destruct (el_pid (ln_text ln)) as [p|]; cbn [pidText]; [|cbn; lia]. rewrite !length_app. pose proof (percent_d_length p).
    change (length (chars "Pid=")) with 4%nat. cbn [length]. lia. }
  destruct (ln_after ln); rewrite !length_app; cbn [length]; rewrite !length_app; cbn [length]; rewrite ?length_app; cbn [length];
    rewrite ?length_app; cbn [length]; rewrite ?length_app; change (length (chars "[")) with 1%nat; change (length (chars " ")) with 1%nat;
    change (length (chars "PC=0x")) with 5%nat; cbn [length]; lia.
Qed.

Lemma inBuffer_fits t : (length t < 512)%nat -> inBuffer t = Some t.
Proof. intros H. unfold inBuffer. by destruct (Nat.ltb_spec (length t) 512); [|lia]. Qed.

(** *** Every event *)

Section files.
Context (opens : list ascii -> bool) (contents : list ascii -> option (list ascii)) (Hopens : forall name, opens name = true).
Context (stem head : list ascii) (Hstem : forallb (fun c => negb (bool_decide (c = "%"%char))) stem = true).
Context (Hfit : (length stem + 11 < 512)%nat).

(** What is told of the source lines of these addresses, for a disassembler with this
    invariant. *)
Definition sources (I : option Disassembler -> Prop) (P : Z -> Prop) (info : Z -> list ascii) : Prop :=
  (forall strict pc c, P pc -> I (vc_disassembler c) ->
    exists d, srcInfo contents strict pc c = Ok (set_disassembler d c) (info pc ++ [lf]) /\ I d) /\
  forall pc, P pc -> Forall (fun x => x <> lf) (info pc) /\ (length (info pc) < 511)%nat.
Context (I : option Disassembler -> Prop) (P : Z -> Prop) (info : Z -> list ascii) (Hsources : sources I P info).

Definition lineOut (ln : Line) : list ascii := outText ln ++ info (ln_pc ln) ++ [lf].
Definition ofType (i : nat) (ls : list Line) : list Line := base.filter (fun ln => ln_index ln = i) ls.
Definition fileOf (ls : list Line) : list ascii := head ++ concat (lineOut <$> ls).
Definition fileOfType (i : nat) (ls : list Line) : option (list ascii) :=
  match ofType i ls with [] => None | ls => Some (fileOf ls) end.

Lemma fileOf_snoc ls ln : fileOf (ls ++ [ln]) = fileOf ls ++ lineOut ln.
Proof using Type. unfold fileOf. rewrite fmap_app, concat_app. cbn. by rewrite app_nil_r, app_assoc. Qed.
Lemma ofType_snoc i ls ln : ofType i (ls ++ [ln]) = ofType i ls ++ (if decide (ln_index ln = i) then [ln] else []).
Proof using Type. unfold ofType. rewrite list.filter_app, list.filter_cons, list.filter_nil. by case_decide. Qed.
Lemma fileOfType_snoc i ls ln : fileOfType i (ls ++ [ln]) =
  if decide (ln_index ln = i) then Some (default head (fileOfType i ls) ++ lineOut ln) else fileOfType i ls.
Proof using Type.
  unfold fileOfType. rewrite ofType_snoc. case_decide; [|by rewrite app_nil_r].
  assert (ofType i ls ++ [ln] <> []) as H' by (by destruct (ofType i ls)). destruct (ofType i ls ++ [ln]) as [|z l] eqn:E; [done|].
  rewrite <-E, fileOf_snoc. f_equal. f_equal. destruct (ofType i ls); [|done]. unfold fileOf. cbn. by rewrite app_nil_r.
Qed.

Record files_inv (c : EventConverter) (ls : list Line) : Prop := {
  fi_gen : vc_eventNameGen c = stem ++ chars "%s";
  fi_common : vc_eventFD c = Some (fileOf ls);
  fi_head : vc_elfNamePath c = Some head;
  fi_types : length (vc_eventFDs c) = 10%nat /\ forall i, (i < 10)%nat -> vc_eventFDs c !! i = Some (fileOfType i ls);
  fi_disassembler : I (vc_disassembler c);
}.

Lemma eventFileName_ok ext : (length ext <= 11)%nat -> eventFileName (stem ++ chars "%s") ext = Some (stem ++ ext).
Proof using Hstem Hfit.
  intros He. unfold eventFileName. rewrite length_app. change (length (chars "%s")) with 2%nat.
  replace (length stem + 2 - 2)%nat with (length stem) by lia. rewrite take_app_length, Hstem, length_app. cbn [andb].
  by destruct (Nat.ltb_spec (length stem + length ext) 512); [|lia].
Qed.

(** The file of a type is open, with what it has. *)
Lemma openEvent_ok c ls i ext : files_inv c ls -> (i < 10)%nat -> (length ext <= 11)%nat ->
  openEvent opens i ext c = Ok (set_eventFDs (<[i := Some (default head (fileOfType i ls))]> (vc_eventFDs c)) c) true.
Proof using Hopens Hstem Hfit.
  intros H Hi He. unfold openEvent. rewrite bind_get. destruct (fi_types _ _ H) as [_ Hf]. rewrite (Hf i Hi), lift_bind.
  destruct (fileOfType i ls) as [f|] eqn:Ef; cbn [default].
  - unfold mret, M_ret. f_equal. rewrite list_insert_id by (rewrite (Hf i Hi); by rewrite Ef). by destruct c.
  - rewrite (fi_gen _ _ H), eventFileName_ok, lift_bind, Hopens, (fi_head _ _ H), lift_bind, bind_modify by done. done.
Qed.

Lemma emit_ok m c ls ln : files_inv c ls -> line_ok ln -> P (ln_pc ln) -> emitsLine opens contents m ln ->
  exists c', m c = Ok c' tt /\ files_inv c' (ls ++ [ln]).
Proof using All.
  intros H Hln Hp (ext & onFail & strict & He & ->). pose proof Hln as (_ & _ & _ & _ & Hi & _). set (i := ln_index ln) in *. unfold emitLine.
  rewrite (bind_ok _ _ _ _ _ (openEvent_ok c ls i (chars ext) H Hi He)).
  set (c1 := set_eventFDs _ c). destruct Hsources as [Hsrc Hinfo].
  destruct (Hsrc strict (ln_pc ln) c1 Hp (fi_disassembler _ _ H)) as (d & Ed & Hd). rewrite (bind_ok _ _ _ _ _ Ed).
  destruct (Hinfo _ Hp) as [_ Hl]. cbn [mbind option_bind]. rewrite (inBuffer_fits (outText ln)), lift_bind by (by apply outText_length).
  rewrite inBuffer_fits, lift_bind by (rewrite length_app; cbn; lia). unfold writeBoth, modify. eexists. split; [done|].
  destruct (fi_types _ _ H) as [Hlen Hf].
  split; cbn [set_eventFDs set_eventFD set_disassembler vc_eventNameGen vc_eventFD vc_elfNamePath vc_eventFDs vc_disassembler c1].
  - apply (fi_gen _ _ H).
  - rewrite (fi_common _ _ H). cbn. f_equal. by rewrite fileOf_snoc.
  - apply (fi_head _ _ H).
  - split; [by rewrite length_alter, length_insert|]. intros j Hj. rewrite fileOfType_snoc. case_decide as Hij.
    + fold i in Hij. subst j. rewrite list_lookup_alter_eq, list_lookup_insert_eq by lia. cbn. done.
    + fold i in Hij. rewrite list_lookup_alter_ne, list_lookup_insert_ne by done. by apply Hf.
  - exact Hd.
Qed.
End files.

(** *** Reading the files *)

Definition told (info : Z -> list ascii) (ln : Line) : EventText * list ascii := (ln_text ln, info (ln_pc ln)).

Lemma lineText_nonempty after pc r : lineText after pc r <> [].
Proof. done. Qed.

Lemma readEvents_ok info ls : Forall line_ok ls -> Forall (fun ln => Forall (fun x => x <> lf) (info (ln_pc ln))) ls ->
  forall n, (length ls <= n)%nat -> readEvents n (concat (lineOut info <$> ls)) = Some (told info <$> ls).
Proof.
  induction 1 as [|ln ls (Ht & Ew & Hw & _) _ IH]; intros Hinfo n Hn; [by destruct n|].
  apply list.Forall_cons in Hinfo as [Hi Hinfo]. destruct n as [|n]; cbn in Hn; [lia|]. cbn [fmap list_fmap concat].
  unfold lineOut at 1. rewrite <-!app_assoc. cbn [app].
  pose proof (readEvent_line (ln_after ln) (ln_word ln) (ln_text ln) (info (ln_pc ln)) (concat (lineOut info <$> ls)) Ht Ew Hw Hi) as E.
  unfold outText. destruct (lineText _ _ _) as [|c t] eqn:El; [by apply lineText_nonempty in El|]. cbn [app readEvents] in *. rewrite E.
  cbn [mbind option_bind]. rewrite (IH Hinfo n) by lia. done.
Qed.

Lemma readFile_ok elf info ls : Forall (fun x => x <> lf) elf -> Forall line_ok ls ->
  Forall (fun ln => Forall (fun x => x <> lf) (info (ln_pc ln))) ls ->
  readFile (fileOf (chars "# ELFPATH=" ++ elf ++ [lf]) info ls) = Some (elf, told info <$> ls).
Proof.
  intros He Hls Hinfo. unfold readFile, fileOf. rewrite <-!app_assoc, strip_app. cbn [mbind option_bind app].
  rewrite upTo_app by done. cbn [mbind option_bind]. rewrite (readEvents_ok info ls Hls Hinfo); [done|].
  clear. induction ls as [|ln ls IH]; [done|]. cbn [fmap list_fmap concat length]. unfold lineOut at 1. rewrite !length_app. cbn [length]. lia.
Qed.

Fixpoint emitAll (opens : list ascii -> bool) (contents : list ascii -> option (list ascii)) (es : list (Z * Z * Z * Emit)) : M EventConverter DQErr unit :=
  match es with [] => mret tt | e :: es => eventEmit opens contents e ≫= fun _ => emitAll opens contents es end.

Lemma emitAll_ok opens contents stem head I P info : (forall name, opens name = true) ->
  forallb (fun c => negb (bool_decide (c = "%"%char))) stem = true -> (length stem + 11 < 512)%nat -> sources contents I P info ->
  forall es c ls, Forall event_ok es -> Forall (fun ln => P (ln_pc ln)) (omap lineOf es) -> files_inv stem head I info c ls ->
  exists c', emitAll opens contents es c = Ok c' tt /\ files_inv stem head I info c' (ls ++ omap lineOf es).
Proof.
  intros Ho Hs Hf Hsrc. induction es as [|e es IH]; intros c ls Hes Hp H; [exists c; cbn; by rewrite app_nil_r|].
  apply list.Forall_cons in Hes as [He Hes]. cbn [emitAll omap list_omap] in *. destruct (lineOf e) as [ln|] eqn:El.
  - apply list.Forall_cons in Hp as [Hp1 Hp].
    destruct (emit_ok opens contents Ho stem head Hs Hf I P info Hsrc _ c ls ln H (lineOf_ok e ln He El) Hp1 (eventEmit_line _ _ e ln El)) as (c1 & E1 & H1).
    destruct (IH c1 _ Hes Hp H1) as (c' & E & H'). exists c'. rewrite (bind_ok _ _ _ _ _ E1). split; [exact E|]. by rewrite <-app_assoc in H'.
  - rewrite (eventEmit_none _ _ e He El), ret_bind. by apply IH.
Qed.

Lemma lines_ok es : Forall event_ok es -> Forall line_ok (omap lineOf es).
Proof.
  intros H. apply list.Forall_forall. intros ln (e & He & El)%list_elem_of_omap. rewrite list.Forall_forall in H. by apply (lineOf_ok e), El; apply H.
Qed.

(** *** A new converter *)

(** The names of the files, and that they fit. *)
Definition namesOk (cwd : list ascii) (elf rtd : option (list ascii)) : bool :=
  match getPathsNames cwd elf, getPathsNames cwd rtd with
  | Some (base, _, _), Some (_, _, dir) =>
      forallb (fun c => negb (bool_decide (c = "%"%char))) (dir ++ base) && (length (dir ++ base) + 19 <? 512)%nat
  | _, _ => false
  end.

Lemma newEventConverter_inv opens cwd elf rtd d n freq c I info : (forall name, opens name = true) -> namesOk cwd (Some elf) rtd = true -> I d ->
  newEventConverter opens cwd true (Some elf) rtd d n freq = Ok c tt ->
  exists stem, forallb (fun c => negb (bool_decide (c = "%"%char))) stem = true /\ (length stem + 11 < 512)%nat /\
    files_inv stem (chars "# ELFPATH=" ++ elf ++ [lf]) I info c [].
Proof.
  intros Ho Hn Hd E. unfold namesOk in Hn. unfold newEventConverter in E.
  destruct (getPathsNames cwd (Some elf)) as [[[base nm] path]|]; [|done]. destruct (getPathsNames cwd rtd) as [[[b2 n2] dir]|]; [|done].
  apply andb_true_iff in Hn as [Hp Hl%Nat.ltb_lt]. rewrite length_app in Hl. rewrite Ho in E. cbn [negb] in E.
  destruct (512 <=? _)%nat; [done|]. destruct (512 <=? _)%nat; [done|]. apply (f_equal (fun r => match r with Ok c _ => Some c | _ => None end)) in E.
  apply (inj Some) in E as <-.
  exists (dir ++ chars "events" ++ ["/"%char] ++ base ++ ["."%char]). split_and!.
  - rewrite !forallb_app in *. apply andb_true_iff in Hp as [-> ->]. done.
  - rewrite !length_app. change (length (chars "events")) with 6%nat. cbn [length]. lia.
  - split; cbn [vc_eventNameGen vc_eventFD vc_elfNamePath vc_eventFDs vc_disassembler]; try done.
    + rewrite <-!app_assoc. done.
    + unfold fileOf. cbn [fmap list_fmap concat]. by rewrite app_nil_r.
    + split; [done|]. intros i Hi. by apply lookup_replicate_2.
Qed.

(** Without a disassembler nothing is told of source lines. *)
Lemma no_sources contents : sources contents (fun d => d = None) (fun _ => True) (fun _ => []).
Proof.
  split; [|intros; split; [constructor|cbn; lia]]. intros strict pc c _ Hd. exists None. split; [|done]. unfold srcInfo. rewrite bind_get, Hd.
  unfold mret, M_ret. f_equal. destruct c; cbn in *; by subst.
Qed.

(** *** A disassembler *)

Section disassembler.
Context (contents : list ascii -> option (list ascii)) (store : list ElfSection) (syms : list Sym) (d0 : Disassembler).

(** The file and the line of an address. *)
Definition lineAt (pc : Z) : option (option (list ascii) * Z) :=
  sp ← List.find (hasAddress pc) (ds_sectionLst d0);
  file ← element (sc_fName sp) (codeIndex (codeSection sp) pc);
  line ← element (sc_line sp) (codeIndex (codeSection sp) pc);
  Some (file, line).
(** What is told of it: the name of its file made sane, its symbol, and its line. *)
Definition sourceInfo (pc : Z) : list ascii :=
  match lineAt pc with
  | Some (file, line) =>
      let x := sourceOf contents (ds_fileReader d0) (ds_pType d0) file line (symbolOf d0 pc) in
      chars " ffl:" ++ default [] (so_sourceFile x) ++ chars ":" ++ default [] (sy_name <$> symbolOf d0 pc) ++ chars ":" ++
      percent_d (i32 (so_sourceLineNum x))
  | None => []
  end.
Definition toldAt (pc : Z) : Prop :=
  pc <> 0 /\ (exists file line, lineAt pc = Some (file, line) /\
    match file with Some file => saneFits file (sanePath (ds_pType d0) file) = true | None => True end) /\
  Forall (fun x => x <> lf) (sourceInfo pc) /\ (length (sourceInfo pc) < 511)%nat.
Definition likeFirst (o : option Disassembler) : Prop := exists d, o = Some d /\ dis_ok contents store syms d /\ dis_same d0 d.

Lemma likeFirst_source x d : dis_ok contents store syms d -> dis_same d0 d -> likeFirst (Some (set_source x d)).
Proof using Type. intros [] []. eexists. split; [done|]. by split. Qed.

(** What the calls for the source line of such an address give, whatever was looked at before. *)
Lemma told_lines pc d : toldAt pc -> dis_ok contents store syms d -> dis_same d0 d ->
  exists d1 d2 f, getSrcLines contents pc d = Ok d1 tt /\
    match so_sourceFunction (ds_source d1) with
    | Some g => f = Some g /\ d2 = d1
    | None => exists o, getFunctionName pc d1 = Ok d2 (f, o)
    end /\
    dis_ok contents store syms d2 /\ dis_same d0 d2 /\
    ffl (so_sourceFile (ds_source d1)) f (so_sourceLineNum (ds_source d1)) = sourceInfo pc ++ [lf].
Proof using Type.
  intros (Hpc & (file & line & Eline & Hfit) & _) Hd Hsame.
  unfold lineAt in Eline. destruct (List.find _ _) as [sp|] eqn:Esp; [|done]. cbn [mbind option_bind] in Eline.
  destruct (element (sc_fName sp) _) as [f|] eqn:Ef; [|done]. cbn [mbind option_bind] in Eline.
  destruct (element (sc_line sp) _) as [l|] eqn:El; [|done]. cbn [mbind option_bind] in Eline. injection Eline as -> ->.
  destruct (getSrcLines_spec contents store syms pc sp file line d Hd Hpc) as (d1 & E1 & Hd1 & Hs1 & _ & Hsrc);
    [by rewrite (dm_sections _ _ Hsame)|done|done|by rewrite (dm_pType _ _ Hsame)|].
  rewrite (symbolOf_same d0 d), (dm_pType _ _ Hsame) in Hsrc by done.
  rewrite (sourceOf_paths contents (ds_fileReader d0)) in Hsrc by apply Hsame.
  assert (dis_same d0 d1) as Hs01 by (by apply (dis_same_trans d0 d)).
  assert (ffl (so_sourceFile (ds_source d1)) (sy_name <$> symbolOf d0 pc) (so_sourceLineNum (ds_source d1)) = sourceInfo pc ++ [lf]) as Htext.
  { unfold sourceInfo, lineAt. rewrite Esp. cbn [mbind option_bind]. rewrite Ef. cbn [mbind option_bind].
    rewrite El. cbn [mbind option_bind]. rewrite Hsrc. unfold ffl. by rewrite <-!app_assoc. }
  destruct (so_sourceFunction (ds_source d1)) as [fn|] eqn:Efn.
  - exists d1, d1, (sy_name <$> symbolOf d0 pc). rewrite Efn. split_and!; try done. rewrite Hsrc in Efn. by destruct file.
  - destruct (symbolAt_spec contents store syms pc d1 Hd1 Hpc) as (d2 & E2 & Hd2 & Hs2 & _).
    rewrite (symbolOf_same d0 d1) in E2 by done.
    exists d1, d2, (sy_name <$> symbolOf d0 pc). rewrite Efn. split_and!; try done; [|by apply (dis_same_trans d0 d1)].
    unfold getFunctionName. rewrite (bind_ok _ _ _ _ _ E2). destruct (symbolOf d0 pc) as [x|]; by eexists.
Qed.

Lemma described_sources : dis_ok contents store syms d0 -> sources contents likeFirst toldAt sourceInfo.
Proof using Type.
  intros Hd0. split; [|by intros pc (_ & _ & ?)]. intros strict pc c Ht (d & Ed & Hd & Hsame).
  destruct (told_lines pc d Ht Hd Hsame) as (d1 & d2 & f & E1 & Hf & Hd2 & Hs2 & Htext).
  unfold srcInfo. rewrite bind_get, Ed, E1. exists (Some (set_source (ds_source d) d2)). split; [|by apply likeFirst_source].
  rewrite <-Htext. destruct (so_sourceFunction (ds_source d1)) as [g|]; [by destruct Hf as [-> ->]|]. destruct Hf as [o ->]. done.
Qed.
End disassembler.
