(* ===== verification/Outputs.v ===== *)
(** * Theorems: the files that are written

    What the converters of src/trace.cpp write for the calls that the decoder makes is read
    back, with a witness at concrete calls. *)

From stdpp Require Import strings.
From Stdlib Require Import Ascii.
From Stdlib Require String.
From S2P Require Import Prelude Nexus Analytics ObjDump SrcFiles State Symbols Disasm Ctf CtfRead CtfStreams Events EventsRead.

(** C7: the streams of calls and returns are read back.  A converter that was made for [n]
    cores is told the calls and returns that the decoder emits, in any order of the cores, and
    destroyed.  If the times of each core do not go back, and go on by less than 2^32 from one
    event to the next, the stream of a core is made of packets that carry the number of the core as
    their stream id.  A reader of the layout of packets and events that the metadata describes,
    which takes any stream id, finds exactly the events of the core with their addresses and
    times, each in the context of the program, after a packet that names the program.  The
    metadata defines the stream 0 only: a reader that keeps to that finds the same in the stream
    of core 0, and refuses the stream of any other core that has an event. *)
Theorem ctf_read_back sys elf rtd n arch freq t host s es :
  newCTFConverter sys elf rtd n arch freq t host = Ok s tt ->
  Forall (fun c => c <> "000"%char) (cs_cwd sys ++ default [] elf) ->
  Forall (fun a => added_ok a /\ 0 <= ad_core a < n) (omap addedOf es) ->
  (forall k, times_ok (ofCore k (omap addedOf es))) ->
  exists s' base name path, (convertAll es ≫= fun _ => closeCTFConverter) s = Ok s' tt /\
    getPathsNames (cs_cwd sys) elf = Some (base, name, path) /\
    forall k, Z.of_nat k < n ->
      readsAs (programName path name) (coreContext name k) k (ofCore k (omap addedOf es)) s'.
Proof.
  intros E Hc Ha Ht. apply newCTFConverter_inv in E as (Hn & e & base & name & path & -> & Ep & Hinv).
  apply list.Forall_app in Hc as [Hcwd He].
  destruct (getPathsNames_chars (fun c => c <> "000"%char) _ _ _ _ _ ltac:(done) Hcwd He Ep) as [Hchars Hlen].
  apply programName_chars in Hchars. rewrite <-(length_fmap code_of) in Hlen. fold (programName path name) in Hlen.
  destruct (convertAll_ok (programName path name) (coreContext name) (Z.to_nat n) es ltac:(lia) (coreContext_ok name) ltac:(lia)
    ltac:(eapply list.Forall_impl; [exact Ha|]; intros a [_ ?]; lia) s [] Hinv) as (s1 & E1 & H1).
  destruct (flushAll_ok (programName path name) ltac:(lia) (coreContext name) (coreContext_ok name) (Z.to_nat n) ltac:(lia) 16 0 s1 _ H1 eq_refl)
    as (s2 & E2 & H2).
  exists s2, base, name, path. rewrite (bind_ok _ _ _ _ _ E1). split_and!; [exact E2|done|].
  intros k Hk. apply (conv_reads _ (coreContext name) (Z.to_nat n)); [done|lia|apply coreContext_ok|lia|lia| |apply Ht|exact H2].
  apply list.Forall_forall. intros a [_ Hin]%list_elem_of_filter. rewrite list.Forall_forall in Ha. by apply Ha.
Qed.

Definition exSystem : CtfSystem := {|
  cs_cwd := chars "/tmp"; cs_mkdir := true; cs_open := fun _ => true; cs_openMetadata := true; cs_time := 5;
  cs_date := fun _ _ => chars "2024"; cs_hostName := chars "host" |}.
(** Eighteen calls and returns of core 0, which are more than a buffer holds, and a call of
    core 1; and an emission that is not for this converter. *)
Definition exEmitted : list (Z * Z * Z * Emit) :=
  ((fun i : nat => (0, 0, 100 + Z.of_nat i, if Nat.even i then CtfAddCall 0x1000 0x2000 else CtfAddRet 0x2004 0x1004)) <$> seq 0 18) ++
  [(0, 0, 200, EmitPeriodic 0 0 0x1000); (0, 1, 50, CtfAddCall 0x8000 0x9000)].
Definition exConverter : CTFConverter :=
  match newCTFConverter exSystem (Some (chars "a.elf")) (Some (chars "t.rtd")) 2 32 0 (-1) None with
  | Ok s _ | Err s _ => s
  | _ => {| cf_status := DQERR_ERR; cf_numCores := 0; cf_packetSeqNum := 0; cf_frequency := 0; cf_archSize := 0; cf_elfName := None;
            cf_metadata := None; cf_cores := [] |}
  end.

#[local] Instance added_ok_dec a : Decision (added_ok a).
Proof. unfold added_ok. apply _. Defined.
#[local] Instance timesFrom_dec now l : Decision (timesFrom now l).
Proof. revert now. induction l as [|a l IH]; intros now; cbn; apply _. Defined.
#[local] Instance times_ok_dec l : Decision (times_ok l).
Proof. destruct l; cbn; apply _. Defined.

Lemma exEmitted_times k : times_ok (ofCore k (omap addedOf exEmitted)).
Proof.
  destruct k as [|[|k]]; [apply (bool_decide_unpack _); by vm_compute..|].
  replace (ofCore (S (S k)) (omap addedOf exEmitted)) with (@nil Added); [done|]. symmetry. unfold ofCore.
  assert (Forall (fun a => ad_core a < 2) (omap addedOf exEmitted)) as H by (apply (bool_decide_unpack _); by vm_compute).
  induction H as [|a l Ha _ IH]; [done|]. rewrite list.filter_cons, decide_False by lia. exact IH.
Defined.

Lemma ctf_read_back_witness :
  exists s' base name path, (convertAll exEmitted ≫= fun _ => closeCTFConverter) exConverter = Ok s' tt /\
    getPathsNames (chars "/tmp") (Some (chars "a.elf")) = Some (base, name, path) /\
    forall k, Z.of_nat k < 2 -> readsAs (programName path name) (coreContext name k) k (ofCore k (omap addedOf exEmitted)) s'.
Proof.
  apply (ctf_read_back exSystem (Some (chars "a.elf")) (Some (chars "t.rtd")) 2 32 0 (-1) None).
  - by vm_compute.
  - apply (bool_decide_unpack _). by vm_compute.
  - apply (bool_decide_unpack _). by vm_compute.
  - exact exEmitted_times.
Defined.

(** ** Lines of events *)

(** C8: the lines of events are read back.  A converter that was made in a directory where
    files can be opened is told what the decoder emits.  If each event is one that has a line,
    the file of all events reads as all of them in order, each with its core, its time as an
    [int], its pid, address and values, and with what the disassembler tells of the
    source line of its address; the file of a type of events reads as those of its type, and
    it is made with the first of them. *)
Theorem events_read_back opens contents cwd elf rtd disassembler n freq c es I P info :
  (forall name, opens name = true) -> namesOk cwd (Some elf) rtd = true -> Forall (fun x => x <> lf) elf ->
  sources contents I P info -> I disassembler ->
  newEventConverter opens cwd true (Some elf) rtd disassembler n freq = Ok c tt ->
  Forall event_ok es -> Forall (fun ln => P (ln_pc ln)) (omap lineOf es) ->
  exists c', emitAll opens contents es c = Ok c' tt /\
    (vc_eventFD c' ≫= readFile) = Some (elf, told info <$> omap lineOf es) /\
    forall i, (i < et_numEventTypes)%nat -> exists f, vc_eventFDs c' !! i = Some f /\
      (f ≫= readFile) = match ofType i (omap lineOf es) with
                        | [] => None
                        | ls => Some (elf, told info <$> ls)
                        end.
Proof.
  intros Ho Hn He Hsrc Hd E Hes Hp. destruct (newEventConverter_inv opens cwd elf rtd disassembler n freq c I info Ho Hn Hd E) as (stem & Hs & Hf & H).
  destruct (emitAll_ok opens contents stem _ I P info Ho Hs Hf Hsrc es c [] Hes Hp H) as (c' & E' & H'). cbn [app] in H'.
  exists c'. split; [exact E'|]. pose proof (lines_ok es Hes) as Hls.
  assert (Forall (fun ln => Forall (fun x => x <> lf) (info (ln_pc ln))) (omap lineOf es)) as Hinfo
    by (eapply list.Forall_impl; [exact Hp|]; intros ln Hln; by apply Hsrc).
  split; [rewrite (fi_common _ _ _ _ _ _ H'); by apply readFile_ok|].
  intros i Hi. destruct (fi_types _ _ _ _ _ _ H') as [_ Hfi]. eexists. split; [by apply Hfi|]. unfold fileOfType.
  assert (forall Q, Forall Q (omap lineOf es) -> Forall Q (ofType i (omap lineOf es))) as Hsub
    by (intros Q HQ; unfold ofType; apply list.Forall_forall; intros ln [_ Hln]%list_elem_of_filter; rewrite list.Forall_forall in HQ; by apply HQ).
  pose proof (Hsub _ Hls) as Hls'. pose proof (Hsub _ Hinfo) as Hinfo'. destruct (ofType i (omap lineOf es)) as [|ln ls]; [done|].
  by apply readFile_ok.
Qed.

(** Events of several types, one without an id, and one that has no line. *)
Definition exEvents : list (Z * Z * Z * Emit) :=
  [(0, 0, 100, EmitControl (-1) 0 2 0x8000); (0, 0, 101, EmitCallRet 7 0 0x8000 0x9000 1); (0, 1, 2 ^ 31, EmitWatchpoint 7 0 0x8004 3);
   (0, 0, 103, CtfAddCall 0x8000 0x9000); (0, 0, 104, EmitExtTrigEvent 7 1 0x8008 3); (0, 0, 105, EmitException 7 0 0x800c 8);
   (0, 0, 106, EmitContext 7 0 0x8010 9 2); (0, 0, 107, EmitPeriodic (-1) 0 0xffffffff80000000); (0, 0, 108, EmitCallRet (-1) 0 0x9004 0x8004 2)].
Definition exEventConverter : EventConverter :=
  match newEventConverter (fun _ => true) (chars "/tmp") true (Some (chars "a.elf")) (Some (chars "t.rtd")) None 2 0 with
  | Ok c _ | Err c _ => c
  | _ => {| vc_status := DQERR_ERR; vc_numCores := 0; vc_frequency := 0; vc_eventNameGen := []; vc_eventFDs := [];
            vc_eventFD := None; vc_elfNamePath := None; vc_disassembler := None |}
  end.

Lemma events_read_back_witness :
  exists c', emitAll (fun _ => true) (fun _ => None) exEvents exEventConverter = Ok c' tt /\
    (vc_eventFD c' ≫= readFile) = Some (chars "a.elf", told (fun _ => []) <$> omap lineOf exEvents) /\
    forall i, (i < et_numEventTypes)%nat -> exists f, vc_eventFDs c' !! i = Some f /\
      (f ≫= readFile) = match ofType i (omap lineOf exEvents) with
                        | [] => None
                        | ls => Some (chars "a.elf", told (fun _ => []) <$> ls)
                        end.
Proof.
  apply (events_read_back (fun _ => true) (fun _ => None) (chars "/tmp") (chars "a.elf") (Some (chars "t.rtd")) None 2 0 exEventConverter
    exEvents (fun d => d = None) (fun _ => True) (fun _ => [])).
  - done.
  - by vm_compute.
  - by repeat constructor.
  - apply no_sources.
  - done.
  - by vm_compute.
  - repeat constructor; try done; unfold small, address_ok; try lia; by eexists.
  - apply list.Forall_true. done.
Defined.
