(* ===== verification/BranchFlags.v ===== *)
(** * What the readers of other records of a run share

    The instruction that they give, and its flags from the one after it, which
    [Simulator::computeBranchFlags] (src/dqr.cpp) and [VCD::computeBranchFlags] (src/vcd.cpp)
    find with the same code: whether an instruction calls or returns, whether a branch was
    taken, and whether an interrupt came before the next instruction. *)

From S2P Require Import Prelude Nexus Analytics Counts Decode Memory NextAddr Disasm.

(** The flag of an interrupt that is seen at the next instruction: 0 if its address is not known,
    or is where this one leads to. *)
Definition isrAfter (next expected : Z) : Z := if negb (next =? 0) && negb (expected =? next) then isInterrupt else 0.

(** What the switch adds to the flags, the outcome of a branch, and [enterISR]. *)
Definition switchFlags (addr next : Z) (d : Inst) : Z * BranchFlags * Z :=
  let straight := addrPlus addr (bytesOf d) in
  let target := addrPlus addr (in_imm d) in
  let link := if isLink (in_rd d) then isCall else 0 in
  match in_type d with
  | INST_JAL | INST_C_JAL => (link, BRFLAG_none, isrAfter next target)
  | INST_JALR => (jalrFlag d, BRFLAG_none, 0)
  | INST_BEQ | INST_BNE | INST_BLT | INST_BGE | INST_BLTU | INST_BGEU | INST_C_BEQZ | INST_C_BNEZ =>
      if next =? 0 then (0, BRFLAG_none, 0)
      else if next =? straight then (0, BRFLAG_notTaken, 0)
      else if next =? target then (0, BRFLAG_taken, 0)
      else (0, BRFLAG_none, isInterrupt)
  | INST_C_J => (0, BRFLAG_none, isrAfter next target)
  | INST_C_JR => (if isLink (in_rs1 d) then isReturn else 0, BRFLAG_none, 0)
  | INST_C_JALR => (if in_rs1 d =? REG_5 then isSwap else isCall, BRFLAG_none, 0)
  | INST_EBREAK | INST_ECALL => (isException, BRFLAG_none, 0)
  | INST_MRET | INST_SRET | INST_URET => (isExceptionReturn, BRFLAG_none, 0)
  | _ => (0, BRFLAG_none, isrAfter next straight)
  end.

(** [uninit] is what the local variables have; [isr] is [enterISR] of the core.  The new
    [enterISR], and the flags if the instruction can be decoded. *)
Definition branchFlags (uninit : Inst) (archSize isr addr inst next : Z) : Z * option (Z * BranchFlags) :=
  let '(rc, d) := decodeInstruction inst archSize uninit in
  if rc =? 0 then let '(cr, br, isr') := switchFlags addr next d in (isr', Some (Z.lor isr cr, br))
  else (0, None).

(** ** What is given *)

(** The members of [instructionInfo] and [sourceInfo]; those that the disassembler assigns are
    [li_shown] and [li_source]. *)
Record Listed := {
  li_shown : Shown;
  li_source : SourceInfo;
  li_coreId : Z;
  li_CRFlag : Z;
  li_brFlags : BranchFlags;
  li_timestamp : Z;
  li_caFlags : Z;
  li_pipeCycles : Z;
  li_r0Val : Z;
  li_r1Val : Z;
  li_wVal : Z;
}.

(** The flags that say what of it is given. *)
Definition TRACE_HAVE_INSTINFO : Z := 1.
Definition TRACE_HAVE_SRCINFO : Z := 4.
