(* ===== verification/Listing.v ===== *)
(** * Runs of a program, and what is listed of them

    The flags that the next address tells of an instruction are those of the reference
    machine, if the addresses are a run of the program; and an instruction that was printed is
    described. *)

From stdpp Require Import strings.
From Stdlib Require Import Ascii.
From Stdlib Require String.
From S2P Require Import Prelude Nexus Analytics Counts Decode Memory NextAddr Walk NextInstr ObjDump ObjDumpText ObjDumpPrint ObjDumpRead.
From S2P Require Import ObjCode Symbols SrcFiles ElfFile Cycles Disasm Described CText PropFile Settings Maps Configure Whole BranchFlags.

(** ** Flags of an execution *)

(** Where an instruction leads to, if the program determines it, and where an interrupt is
    seen. *)
Definition goesTo (d : Inst) (pc' next : Z) : Prop := match flowOf d with Leaving _ _ => True | _ => next = pc' end.
Definition interrupted (d : Inst) (pc next : Z) : Prop :=
  match flowOf d with
  | Straight => next <> addrPlus pc (bytesOf d)
  | Branching => next <> addrPlus pc (bytesOf d) /\ next <> addrPlus pc (in_imm d)
  | Jumping _ => next <> addrPlus pc (in_imm d)
  | _ => False
  end.
(** A branch to the next instruction counts as not taken. *)
Definition plain (d : Inst) (pc : Z) : Prop := flowOf d = Branching -> addrPlus pc (in_imm d) <> addrPlus pc (bytesOf d).

(** What the flags of one instruction are, by the kind of its flow. *)
Lemma switchFlags_flow pc next d : next <> 0 -> switchFlags pc next d =
  match flowOf d with
  | Straight => (isNone, BRFLAG_none, isrAfter next (addrPlus pc (bytesOf d)))
  | Branching =>
      if next =? addrPlus pc (bytesOf d) then (0, BRFLAG_notTaken, 0)
      else if next =? addrPlus pc (in_imm d) then (0, BRFLAG_taken, 0)
      else (0, BRFLAG_none, isInterrupt)
  | Jumping l => (if l then isCall else isNone, BRFLAG_none, isrAfter next (addrPlus pc (in_imm d)))
  | Returning => (isReturn, BRFLAG_none, 0)
  | Swapping => (isSwap, BRFLAG_none, 0)
  | Leaving _ cr => (cr, BRFLAG_none, 0)
  end.
Proof.
  intros Hn. unfold switchFlags, flowOf, jalrFlag. assert ((next =? 0) = false) as -> by (by apply Z.eqb_neq).
  destruct (in_type d); try reflexivity; try (by destruct (isLink (in_rd d))); try (by destruct (isLink (in_rs1 d))).
  - by destruct (isLink (in_rd d)), (isLink (in_rs1 d)), (in_rd d =? in_rs1 d).
  - by destruct (in_rs1 d =? REG_5).
Qed.

Lemma isrAfter_there next : isrAfter next next = 0.
Proof. unfold isrAfter. rewrite Z.eqb_refl. by rewrite andb_false_r. Qed.
Lemma isrAfter_elsewhere next a : next <> 0 -> next <> a -> isrAfter next a = isInterrupt.
Proof. intros ??. unfold isrAfter. destruct (Z.eqb_spec next 0), (Z.eqb_spec a next); try done; congruence. Qed.

Lemma flags_step cap d pc st outs pc' cr br st' outs' next : refStep cap d pc st outs = Some ((pc', cr, br), st', outs') ->
  next <> 0 -> goesTo d pc' next -> plain d pc -> switchFlags pc next d = (cr, br, 0).
Proof.
  intros E Hn Hl Hp. rewrite switchFlags_flow by done. unfold refStep in E. unfold goesTo, plain in *.
  destruct (flowOf d) as [| |[]| | |[] ?]; repeat case_match; simplify_eq; rewrite ?isrAfter_there, ?Z.eqb_refl in *; try done.
  exfalso. apply Hp; [done|]. by apply Z.eqb_eq.
Qed.

Lemma flags_interrupted cap d pc st outs pc' cr br st' outs' next : refStep cap d pc st outs = Some ((pc', cr, br), st', outs') ->
  next <> 0 -> interrupted d pc next -> switchFlags pc next d = (cr, BRFLAG_none, isInterrupt).
Proof.
  intros E Hn Hi. rewrite switchFlags_flow by done. unfold refStep in E. unfold interrupted in *.
  destruct (flowOf d) as [| |[]| | |[] ?]; try done; repeat case_match; simplify_eq;
    rewrite ?isrAfter_elsewhere in * by (done || congruence); try done; try (apply Z.eqb_eq in H0; tauto).
  all: try by (rewrite ?Z.eqb_eq in *; tauto).
Qed.

Lemma flags_last cap d pc st outs pc' cr br st' outs' : refStep cap d pc st outs = Some ((pc', cr, br), st', outs') ->
  switchFlags pc 0 d = (cr, BRFLAG_none, 0).
Proof.
  intros E. unfold switchFlags, refStep, flowOf, jalrFlag, isrAfter in *. cbn [Z.eqb negb andb].
  destruct (in_type d), (isLink (in_rd d)), (isLink (in_rs1 d)), (in_rd d =? in_rs1 d), (in_rs1 d =? REG_5); cbn [negb] in *;
    repeat case_match; by simplify_eq.
Qed.

(** ** Runs *)

(** The addresses of a run of the program, and its instructions with their flags.  An
    interrupt is seen where the address is not the one that the last instruction leads to; the
    first instruction of its handler has the flag.  The outcome of the last branch is not
    known, nor that of an interrupted one. *)
Inductive runs (prog : Z -> option Inst) (cap : Z) : Z -> list Z -> list bool -> list Z -> list (Inst * Z * BranchFlags) -> Prop :=
| runs_none isr st outs : runs prog cap isr st outs [] []
| runs_last isr st outs pc d pc' cr br st' outs' : prog pc = Some d -> refStep cap d pc st outs = Some ((pc', cr, br), st', outs') ->
    runs prog cap isr st outs [pc] [(d, Z.lor isr cr, BRFLAG_none)]
| runs_step isr st outs pc d pc' cr br st' outs' next l xs :
    prog pc = Some d -> refStep cap d pc st outs = Some ((pc', cr, br), st', outs') ->
    goesTo d pc' next -> plain d pc -> runs prog cap isNone st' outs' (next :: l) xs ->
    runs prog cap isr st outs (pc :: next :: l) ((d, Z.lor isr cr, br) :: xs)
| runs_interrupt isr st outs pc d pc' cr br st' outs' next l xs :
    prog pc = Some d -> refStep cap d pc st outs = Some ((pc', cr, br), st', outs') ->
    interrupted d pc next -> runs prog cap isInterrupt st' outs' (next :: l) xs ->
    runs prog cap isr st outs (pc :: next :: l) ((d, Z.lor isr cr, BRFLAG_none) :: xs).

(** The flags of the first instruction, from the address of the second. *)
Lemma runs_flags prog cap isr st outs pc l x xs : (forall pc, pc ∈ l -> pc <> 0) -> runs prog cap isr st outs (pc :: l) (x :: xs) ->
  exists cr br isr' st' outs', prog pc = Some x.1.1 /\ switchFlags pc (match l with [] => 0 | next :: _ => next end) x.1.1 = (cr, br, isr') /\
    x.1.2 = Z.lor isr cr /\ x.2 = br /\ runs prog cap isr' st' outs' l xs.
Proof.
  intros H0 H. inversion H; subst.
  - eexists cr, _, _, [], []. split; [done|]. split; [by eapply flags_last|]. split_and!; try done. constructor.
  - eexists cr, _, _, _, _. split; [done|]. split; [eapply flags_step; [done| |done..]; apply H0; left|]. by split_and!.
  - eexists cr, _, _, _, _. split; [done|]. split; [eapply flags_interrupted; [done| |done]; apply H0; left|]. by split_and!.
Qed.

(** ** What is listed *)

(** An instruction at an address and a time, after one at the time [t], or the first one if that
    is 0. *)
Record told (uninit : Inst) (archSize t : Z) (place : Z * Z) (x : Inst * Z * BranchFlags) (info : Listed) : Prop := {
  to_address : sh_address (li_shown info) = place.1;
  to_instruction : decodeInstruction (sh_instruction (li_shown info)) archSize uninit = (0, x.1.1);
  to_CRFlag : li_CRFlag info = x.1.2;
  to_brFlags : li_brFlags info = x.2;
  to_timestamp : li_timestamp info = place.2;
  to_pipeCycles : li_pipeCycles info = if t =? 0 then 0 else u32 (place.2 - t);
}.
Fixpoint allTold (uninit : Inst) (archSize t : Z) (rs : list (Z * Z)) (xs : list (Inst * Z * BranchFlags)) (l : list Listed) : Prop :=
  match rs, xs, l with
  | r :: rs, x :: xs, i :: l => told uninit archSize t r x i /\ allTold uninit archSize r.2 rs xs l
  | [], [], [] => True
  | _, _, _ => False
  end.

Lemma u32_u64 x : u32 (u64 x) = u32 x.
Proof. unfold u32, u64, wrap. rewrite <-!Z.land_ones, <-Z.land_assoc by lia. by change (Z.land (Z.ones 64) (Z.ones 32)) with (Z.ones 32). Qed.

(** ** The instructions that were printed *)

Section listing.
Context (uninit : Inst) (contents : list ascii -> option (list ascii)) (dump : Dump) (name : list ascii) (g : Shown * SourceInfo).
Context (p : Built) (f : ElfFile) (dis : Disassembler) (Hp : process_loaded dump name g p f dis).
Context (store : list ElfSection) (syms : list Sym) (d0 : Disassembler) (Hsec : ds_sectionLst d0 = sectionsOf f).
Let arch : Z := if d_64 dump then 64 else 32.

(** What was printed for an address is read, and described. *)
Lemma printed_known pc i : printed uninit dump pc = Some i -> exists inst, decodeInstruction inst arch uninit = (0, i) /\
  (forall r, er_codeSectionLst r = er_codeSectionLst (memoryOf f) -> elfInstructionByAddress pc r = Ok (set_er_status DQERR_OK r) inst) /\
  forall ds, dis_ok contents store syms ds -> dis_same d0 ds -> exists ds', disassembleAt contents pc ds = Ok ds' tt /\
    dis_ok contents store syms ds' /\ dis_same d0 ds' /\ sh_address (ds_instruction ds') = pc /\ sh_instruction (ds_instruction ds') = inst.
Proof using Hp Hsec.
  intros (Hpc & _ & b & pad & k & a & long & v & gap & text & fn & line & Hb & Hm & Ea & Hd)%printed_line.
  destruct (pl_code _ _ _ _ _ _ Hp _ _ _ _ _ _ _ _ _ _ Hb Hm) as (Hlen & f' & l' & Hshort & Hsh). rewrite Ea in Hsh.
  exists v. split; [done|]. split.
  - intros r Hr. apply (shows_fetch r _ _ _ _ _ _ _ _ Hr Hsh).
  - intros ds Hok Hsame. assert (sectionsOf f = ds_sectionLst ds) as Es by (by rewrite (dm_sections _ _ Hsame)).
    rewrite Es in Hsh. destruct (instruction_described contents store syms pc long v text f' l' ds Hok Hpc Hsh Hlen Hshort)
      as (ds' & E & Hok' & Hsame' & Hi & _).
    exists ds'. rewrite Hi. split_and!; try done. by apply (dis_same_trans d0 ds).
Qed.
End listing.
