(* ===== verification/Vcd.v ===== *)
(** * Value change dumps (src/vcd.cpp)

    A file of records, each a time and the address of the instruction that was executed then.
    The instructions are read from the object file, and the flags of one are told by
    the address of the next. *)

From stdpp Require Import strings.
From Stdlib Require Import Ascii.
From Stdlib Require String.
From S2P Require Import Prelude Nexus Analytics Counts Decode Memory NextAddr NextInstr ObjDump ObjCode Symbols SrcFiles ElfFile.
From S2P Require Import Cycles Disasm CText PropFile Settings Maps BranchFlags.

(** ** Numbers in the other byte order *)

Definition bswap_uint16 (val : Z) : Z := u16 (Z.lor (Z.shiftl val 8) (Z.shiftr val 8)).
Definition bswap_uint32 (val : Z) : Z :=
  let val := Z.lor (Z.land (Z.shiftl val 8) 0xFF00FF00) (Z.land (Z.shiftr val 8) 0x00FF00FF) in
  Z.lor (Z.land (Z.shiftl val 16) 0xFFFF0000) (Z.land (Z.shiftr val 16) 0x0000FFFF).
Definition bswap_uint64 (val : Z) : Z :=
  let val := Z.lor (Z.land (Z.shiftl val 8) 0xFF00FF00FF00FF00) (Z.land (Z.shiftr val 8) 0x00FF00FF00FF00FF) in
  let val := Z.lor (Z.land (Z.shiftl val 16) 0xFFFF0000FFFF0000) (Z.land (Z.shiftr val 16) 0x0000FFFF0000FFFF) in
  Z.lor (u64 (Z.shiftl val 32)) (Z.shiftr val 32).

(** A number of [n] bytes in memory, of which the first is the lowest. *)
Fixpoint load (n : nat) (l : list Z) : option Z :=
  match n, l with
  | O, _ => Some 0
  | S n, b :: l => x ← load n l; Some (Z.lor b (Z.shiftl x 8))
  | _, [] => None
  end.

(** ** Records *)

Definition VCD_REC_SIZE : nat := 30.
Definition VCD_REC_TIMESTAMP_OFFSET : nat := 0.
Definition VCD_REC_FLAGS_OFFSET : nat := 8.
Definition VCD_REC_PC_OFFSET : nat := 10.
Definition VCD_REC_OPCODE_OFFSET : nat := 18.
Definition VCD_REC_DELTAT_OFFSET : nat := 22.

Record VRec := { vr_ts : Z; vr_flags : Z; vr_pc : Z; vr_opcode : Z; vr_deltaT : Z }.
Definition VCDFLAG_PIPE : Z := 1.

(** The record at an index of the buffer; outside the buffer the access is undefined. *)
Definition recordAt (buff : list Z) (i : nat) : option VRec :=
  let at_ n off := load n (drop (i * VCD_REC_SIZE + off) buff) in
  ts ← at_ 8%nat VCD_REC_TIMESTAMP_OFFSET;
  flags ← at_ 2%nat VCD_REC_FLAGS_OFFSET;
  pc ← at_ 8%nat VCD_REC_PC_OFFSET;
  opcode ← at_ 4%nat VCD_REC_OPCODE_OFFSET;
  deltaT ← at_ 8%nat VCD_REC_DELTAT_OFFSET;
  Some {| vr_ts := bswap_uint64 ts; vr_flags := bswap_uint16 flags; vr_pc := bswap_uint64 pc;
          vr_opcode := bswap_uint32 opcode; vr_deltaT := bswap_uint64 deltaT |}.

(** ** The state *)

(** A file that is open: the bytes from its position on, and whether reading it fails. *)
Record PCDFile := { pcd_bytes : list Z; pcd_fails : bool }.

Record VCD := {
  vd_status : DQErr;
  vd_archSize : Z;
  vd_version : Z;
  vd_haveLookaheadVRec : bool;
  vd_lookaheadVRec : VRec;
  vd_info : Listed;
  vd_fd : option PCDFile;
  vd_totalPCDRecords : Z;
  vd_nextPCDRecord : Z;
  vd_numVCDRecords : Z;
  vd_currentVCDRecord : Z;
  vd_vcdBuff : option (list Z);
  vd_elfReader : option ElfFile;
  vd_disassembler : option Disassembler;
  vd_currentTime : list Z;
  vd_enterISR : list Z;
}.
Definition set_vd_status e (v : VCD) : VCD := {|
  vd_status := e; vd_archSize := vd_archSize v; vd_version := vd_version v; vd_haveLookaheadVRec := vd_haveLookaheadVRec v;
  vd_lookaheadVRec := vd_lookaheadVRec v; vd_info := vd_info v; vd_fd := vd_fd v; vd_totalPCDRecords := vd_totalPCDRecords v;
  vd_nextPCDRecord := vd_nextPCDRecord v; vd_numVCDRecords := vd_numVCDRecords v; vd_currentVCDRecord := vd_currentVCDRecord v;
  vd_vcdBuff := vd_vcdBuff v; vd_elfReader := vd_elfReader v; vd_disassembler := vd_disassembler v;
  vd_currentTime := vd_currentTime v; vd_enterISR := vd_enterISR v |}.
Definition set_lookahead b r (v : VCD) : VCD := {|
  vd_status := vd_status v; vd_archSize := vd_archSize v; vd_version := vd_version v; vd_haveLookaheadVRec := b;
  vd_lookaheadVRec := r; vd_info := vd_info v; vd_fd := vd_fd v; vd_totalPCDRecords := vd_totalPCDRecords v;
  vd_nextPCDRecord := vd_nextPCDRecord v; vd_numVCDRecords := vd_numVCDRecords v; vd_currentVCDRecord := vd_currentVCDRecord v;
  vd_vcdBuff := vd_vcdBuff v; vd_elfReader := vd_elfReader v; vd_disassembler := vd_disassembler v;
  vd_currentTime := vd_currentTime v; vd_enterISR := vd_enterISR v |}.
Definition set_vd_info i (v : VCD) : VCD := {|
  vd_status := vd_status v; vd_archSize := vd_archSize v; vd_version := vd_version v; vd_haveLookaheadVRec := vd_haveLookaheadVRec v;
  vd_lookaheadVRec := vd_lookaheadVRec v; vd_info := i; vd_fd := vd_fd v; vd_totalPCDRecords := vd_totalPCDRecords v;
  vd_nextPCDRecord := vd_nextPCDRecord v; vd_numVCDRecords := vd_numVCDRecords v; vd_currentVCDRecord := vd_currentVCDRecord v;
  vd_vcdBuff := vd_vcdBuff v; vd_elfReader := vd_elfReader v; vd_disassembler := vd_disassembler v;
  vd_currentTime := vd_currentTime v; vd_enterISR := vd_enterISR v |}.
(** The file, what of it is in the buffer, and the counts of records. *)
Definition set_records fd next num current buff (v : VCD) : VCD := {|
  vd_status := vd_status v; vd_archSize := vd_archSize v; vd_version := vd_version v; vd_haveLookaheadVRec := vd_haveLookaheadVRec v;
  vd_lookaheadVRec := vd_lookaheadVRec v; vd_info := vd_info v; vd_fd := fd; vd_totalPCDRecords := vd_totalPCDRecords v;
  vd_nextPCDRecord := next; vd_numVCDRecords := num; vd_currentVCDRecord := current;
  vd_vcdBuff := buff; vd_elfReader := vd_elfReader v; vd_disassembler := vd_disassembler v;
  vd_currentTime := vd_currentTime v; vd_enterISR := vd_enterISR v |}.
Definition set_parts f d (v : VCD) : VCD := {|
  vd_status := vd_status v; vd_archSize := vd_archSize v; vd_version := vd_version v; vd_haveLookaheadVRec := vd_haveLookaheadVRec v;
  vd_lookaheadVRec := vd_lookaheadVRec v; vd_info := vd_info v; vd_fd := vd_fd v; vd_totalPCDRecords := vd_totalPCDRecords v;
  vd_nextPCDRecord := vd_nextPCDRecord v; vd_numVCDRecords := vd_numVCDRecords v; vd_currentVCDRecord := vd_currentVCDRecord v;
  vd_vcdBuff := vd_vcdBuff v; vd_elfReader := f; vd_disassembler := d;
  vd_currentTime := vd_currentTime v; vd_enterISR := vd_enterISR v |}.
Definition set_cores time isr (v : VCD) : VCD := {|
  vd_status := vd_status v; vd_archSize := vd_archSize v; vd_version := vd_version v; vd_haveLookaheadVRec := vd_haveLookaheadVRec v;
  vd_lookaheadVRec := vd_lookaheadVRec v; vd_info := vd_info v; vd_fd := vd_fd v; vd_totalPCDRecords := vd_totalPCDRecords v;
  vd_nextPCDRecord := vd_nextPCDRecord v; vd_numVCDRecords := vd_numVCDRecords v; vd_currentVCDRecord := vd_currentVCDRecord v;
  vd_vcdBuff := vd_vcdBuff v; vd_elfReader := vd_elfReader v; vd_disassembler := vd_disassembler v;
  vd_currentTime := time; vd_enterISR := isr |}.

#[local] Abbreviation VM := (M VCD DQErr).

Definition vcdFails {A} (e : DQErr) : VM A := modify (set_vd_status e) ≫= fun _ => throw e.

(** [read(vcd_fd,...)] of at most [n] bytes. *)
Definition readPCD (n : nat) (f : PCDFile) : option (list Z * PCDFile) :=
  if pcd_fails f then None
  else Some (take n (pcd_bytes f), {| pcd_bytes := drop n (pcd_bytes f); pcd_fails := false |}).

Definition getTraceFileOffset : VM (Z * Z) := gets (fun v => (vd_totalPCDRecords v, vd_nextPCDRecord v)).

(** A new buffer of records, if all of the last one were used. *)
Definition fillBuff : VM unit :=
  v ← get;
  match vd_fd v with
  | None => vcdFails DQERR_ERR
  | Some f =>
      if vd_numVCDRecords v <=? vd_currentVCDRecord v then
        match readPCD (1000 * VCD_REC_SIZE) f with
        | None => vcdFails DQERR_ERR
        | Some (bytes, f) =>
            old ← lift_opt (vd_vcdBuff v);
            let num := Z.of_nat (length bytes / VCD_REC_SIZE) in
            let buff := Some (bytes ++ drop (length bytes) old) in
            if num =? 0 then
              modify (set_records (Some f) (vd_nextPCDRecord v) num (vd_currentVCDRecord v) buff) ≫= fun _ => vcdFails DQERR_EOF
            else modify (set_records (Some f) (vd_nextPCDRecord v) num 0 buff)
        end
      else mret tt
  end.
Definition getNextVRec : VM VRec :=
  fillBuff ≫= fun _ =>
  v ← get;
  buff ← lift_opt (vd_vcdBuff v);
  r ← lift_opt (recordAt buff (Z.to_nat (vd_currentVCDRecord v)));
  modify (set_records (vd_fd v) (i32 (vd_nextPCDRecord v + 1)) (vd_numVCDRecords v) (i32 (vd_currentVCDRecord v + 1)) (vd_vcdBuff v)) ≫= fun _ =>
  mret r.
(** [do getNextVRec while the address is 0]; each record is kept by [note]. *)
Fixpoint nextRecord (note : VRec -> VCD -> VCD) (fuel : nat) : VM VRec :=
  match fuel with
  | O => fun _ => NoFuel
  | S fuel => r ← getNextVRec; modify (note r) ≫= fun _ => if vr_pc r =? 0 then nextRecord note fuel else mret r
  end.

(** The address of the record after the next, or 0 if there is none: an error of the look-ahead is
    the end of the file. *)
Definition lookAhead (fuel : nat) : VM Z := fun v =>
  match nextRecord (fun r v => set_lookahead (vd_haveLookaheadVRec v) r v) fuel v with
  | Ok v r => Ok (set_lookahead true r v) (vr_pc r)
  | Err v _ => Ok (set_lookahead false (vd_lookaheadVRec v) v) 0
  | Undef => Undef
  | NoFuel => NoFuel
  end.
(** The record of the next instruction, and that address. *)
Definition nextRecords (fuel : nat) : VM (VRec * Z) :=
  v ← get;
  r ← (if vd_haveLookaheadVRec v
       then modify (set_lookahead false (vd_lookaheadVRec v)) ≫= fun _ => mret (vd_lookaheadVRec v)
       else nextRecord (fun _ v => v) fuel);
  lookaheadPC ← lookAhead fuel;
  mret (r, lookaheadPC).

Definition VCD_subSrcPath (cutPath newRoot : option (list ascii)) : VM unit := fun v =>
  match vd_disassembler v with
  | Some d =>
      match Disassembler_subSrcPath cutPath newRoot d with
      | Ok d _ => Ok (set_vd_status DQERR_OK (set_parts (vd_elfReader v) (Some d) v)) tt
      | Err d e => Err (set_vd_status e (set_parts (vd_elfReader v) (Some d) v)) e
      | Undef => Undef
      | NoFuel => NoFuel
      end
  | None => vcdFails DQERR_ERR v
  end.

Section vcd.
Context (uninit : Inst) (contents : list ascii -> option (list ascii)).

Definition VCD_computeBranchFlags (core currentAddr currentInst nextAddr : Z) : VM (Z * BranchFlags) :=
  v ← get;
  isr ← lift_opt (vd_enterISR v !! Z.to_nat core);
  let '(isr', res) := branchFlags uninit (vd_archSize v) isr currentAddr currentInst nextAddr in
  modify (set_cores (vd_currentTime v) (<[Z.to_nat core := isr']> (vd_enterISR v))) ≫= fun _ =>
  match res with Some r => mret r | None => vcdFails DQERR_ERR end.

(** The disassembler's [instruction] and [source] are copied, whatever was in
    [instructionInfo]. *)
Definition VCD_Disassemble (pc : Z) : VM unit := fun v =>
  match vd_disassembler v with
  | None => vcdFails DQERR_ERR v
  | Some d =>
      match disassembleAt contents pc d with
      | Ok d _ =>
          let i := vd_info v in
          Ok (set_vd_info {|
                li_shown := ds_instruction d; li_source := ds_source d; li_coreId := 0; li_CRFlag := li_CRFlag i;
                li_brFlags := li_brFlags i; li_timestamp := li_timestamp i; li_caFlags := li_caFlags i;
                li_pipeCycles := li_pipeCycles i; li_r0Val := li_r0Val i; li_r1Val := li_r1Val i; li_wVal := li_wVal i |}
              (set_parts (vd_elfReader v) (Some d) v)) tt
      | Err d _ => Err (set_vd_status DQERR_ERR (set_parts (vd_elfReader v) (Some d) v)) DQERR_ERR
      | Undef => Undef
      | NoFuel => NoFuel
      end
  end.

Definition buildInstructionFromVRec (r : VRec) (br : BranchFlags) (cr : Z) : VM unit :=
  (fun v => asErr (VCD_Disassemble (vr_pc r) v)) ≫= fun _ =>
  v ← get;
  t ← lift_opt (head (vd_currentTime v));
  let i := vd_info v in
  modify (set_vd_info {|
    li_shown := li_shown i; li_source := li_source i; li_coreId := li_coreId i; li_CRFlag := cr; li_brFlags := br;
    li_timestamp := vr_ts r; li_caFlags := if Z.land (vr_flags r) VCDFLAG_PIPE =? 0 then CAFLAG_PIPE1 else CAFLAG_PIPE0;
    li_pipeCycles := if t =? 0 then 0 else u32 (u64 (vr_ts r - t)); li_r0Val := 0; li_r1Val := 0; li_wVal := 0 |}) ≫= fun _ =>
  modify (set_cores (<[0%nat := vr_ts r]> (vd_currentTime v)) (vd_enterISR v)).

(** [elfReader->getInstructionByAddress] *)
Definition readInstruction (pc : Z) : VM Z := fun v =>
  match vd_elfReader v with
  | None => Undef
  | Some f =>
      let back r := set_parts (Some (set_ef_status (er_status r) f)) (vd_disassembler v) v in
      match elfInstructionByAddress pc (memoryOf f) with
      | Ok r i => Ok (back r) i
      | Err r _ => vcdFails DQERR_ERR (back r)
      | Undef => Undef
      | NoFuel => NoFuel
      end
  end.

(** A failure of the description of the instruction is not looked at. *)
Definition VCD_NextInstruction (fuel : nat) : VM Listed :=
  '(r, lookaheadPC) ← nextRecords fuel;
  inst ← readInstruction (vr_pc r);
  '(cr, br) ← VCD_computeBranchFlags 0 (vr_pc r) inst lookaheadPC;
  (fun v => match buildInstructionFromVRec r br cr v with Err v _ => Ok v tt | res => res end) ≫= fun _ =>
  v ← get;
  mret (vd_info v).
End vcd.

(** ** The constructors *)

(** A file is found by its name; objdump is told its own name and that of the object file.
    [garbage] is what new objects hold. *)
Section configure.
Context `{!Qsort} (fuel : nat) (objdump : list ascii -> list ascii -> ElfType -> Z -> Exec) (openPCD : list ascii -> option PCDFile).
Context (garbage : Z * (Shown * SourceInfo)).

Definition noInstruction (text : option (list ascii)) : Listed := {|
  li_shown := {| sh_address := 0; sh_instSize := 0; sh_instruction := 0; sh_instructionText := text; sh_addressLabel := None;
                 sh_addressLabelOffset := 0 |};
  li_source := noSource; li_coreId := 0; li_CRFlag := isNone; li_brFlags := BRFLAG_none; li_timestamp := 0; li_caFlags := 0;
  li_pipeCycles := 0; li_r0Val := 0; li_r1Val := 0; li_wVal := 0 |}.

(** The file, its version, and the number of records that it may have; the version that is read from a
    file of less than two bytes has what was there before. *)
Definition openRecords (name : Value) : VM unit :=
  match name with
  | None => vcdFails DQERR_ERR
  | Some name =>
      match openPCD name with
      | None => vcdFails DQERR_ERR
      | Some f =>
          match readPCD 2 f with
          | None => vcdFails DQERR_ERR
          | Some (bytes, f') =>
              v ← get;
              x ← lift_opt (load 2 (bytes ++ drop (length bytes) [vd_version v mod 256; vd_version v / 256]));
              let version := bswap_uint16 x in
              modify (fun v => {|
                vd_status := vd_status v; vd_archSize := vd_archSize v; vd_version := version;
                vd_haveLookaheadVRec := false; vd_lookaheadVRec := vd_lookaheadVRec v; vd_info := vd_info v;
                vd_fd := Some f'; vd_totalPCDRecords := i32 (Z.of_nat (length (pcd_bytes f) / VCD_REC_SIZE));
                vd_nextPCDRecord := vd_nextPCDRecord v; vd_numVCDRecords := 0; vd_currentVCDRecord := 0; vd_vcdBuff := Some [];
                vd_elfReader := None; vd_disassembler := None; vd_currentTime := vd_currentTime v; vd_enterISR := vd_enterISR v |}) ≫= fun _ =>
              if version =? 3 then mret tt else vcdFails DQERR_ERR
          end
      end
  end.

(** The [ElfReader] and the [Disassembler]. *)
Definition openObject (odName efName : Value) (pathType : PathType) : VM unit :=
  match efName with
  | None => vcdFails DQERR_ERR
  | Some name =>
      match newElfReader fuel garbage.1 0 (Some (objdump (default (chars "riscv64-unknown-elf-objdump") odName) name elfType_32_little 0)) with
      | Ok f _ =>
          match seal f with
          | Ok f _ =>
              match ef_symtab f, im_codeSectionLst (ef_image f) with
              | Some t, _ :: _ =>
                  modify (set_parts (Some f) (Some (setPathType pathType (newDisassembler garbage.2 t
                    (sectionsAt (im_store (ef_image f)) (im_codeSectionLst (ef_image f)))))))
              | _, _ => vcdFails DQERR_ERR
              end
          | Err _ _ => vcdFails DQERR_ERR
          | Undef => undef
          | NoFuel => fun _ => NoFuel
          end
      | Err _ _ => vcdFails DQERR_ERR
      | Undef => undef
      | NoFuel => fun _ => NoFuel
      end
  end.

Definition VCD_configure (s : TraceSettings) : VM unit :=
  openRecords (ts_name s pfName) ≫= fun _ =>
  openObject (ts_name s odName) (ts_name s efName) (ts_pathType s) ≫= fun _ =>
  v ← get;
  f ← lift_opt (vd_elfReader v);
  modify (fun v => {|
    vd_status := vd_status v; vd_archSize := im_archSize (ef_image f); vd_version := vd_version v;
    vd_haveLookaheadVRec := vd_haveLookaheadVRec v; vd_lookaheadVRec := vd_lookaheadVRec v;
    vd_info := noInstruction (sh_instructionText (li_shown (vd_info v))); vd_fd := vd_fd v;
    vd_totalPCDRecords := vd_totalPCDRecords v; vd_nextPCDRecord := vd_nextPCDRecord v; vd_numVCDRecords := vd_numVCDRecords v;
    vd_currentVCDRecord := vd_currentVCDRecord v; vd_vcdBuff := vd_vcdBuff v; vd_elfReader := vd_elfReader v;
    vd_disassembler := vd_disassembler v; vd_currentTime := vd_currentTime v;
    vd_enterISR := (fun _ => isNone) <$> vd_enterISR v |}) ≫= fun _ =>
  (match ts_name s cutPath, ts_name s srcRoot with
   | None, None => mret tt
   | cut, root => VCD_subSrcPath cut root
   end) ≫= fun _ =>
  modify (fun v => set_cores ((fun _ => 0) <$> vd_currentTime v) (vd_enterISR v) v).

(** [VCD::VCD(vcd_name,ef_name,odExe)]: the errors of the settings are left aside.  [start] is
    what the new object holds. *)
Definition cleared (start : VCD) (next : Z) : VCD := set_vd_status DQERR_OK {|
  vd_status := vd_status start; vd_archSize := vd_archSize start; vd_version := vd_version start;
  vd_haveLookaheadVRec := false; vd_lookaheadVRec := vd_lookaheadVRec start; vd_info := vd_info start;
  vd_fd := vd_fd start; vd_totalPCDRecords := vd_totalPCDRecords start; vd_nextPCDRecord := next; vd_numVCDRecords := 0;
  vd_currentVCDRecord := 0; vd_vcdBuff := None; vd_elfReader := None; vd_disassembler := None;
  vd_currentTime := vd_currentTime start; vd_enterISR := vd_enterISR start |}.
Definition newVCDof (start : VCD) (vcd_name ef_name odExe : option (list ascii)) : Res unit DQErr VCD :=
  let try m s := match m s with Ok s _ | Err s _ => s | _ => s end in
  let s := try (propertyToObjdumpName odExe) (try (propertyToEFName ef_name) (try (propertyToPFName vcd_name) newTraceSettings)) in
  match VCD_configure s (cleared start 0) with
  | Ok v _ => Ok tt (set_vd_status DQERR_OK v)
  | Err _ _ => Err tt DQERR_ERR
  | Undef => Undef
  | NoFuel => NoFuel
  end.

(** [VCD::VCD(pf_name)], from a file of properties; [nextPCDRecord] is not assigned here. *)
Definition newVCD (start : VCD) (properties : option FileRead) (n : nat) : Res unit DQErr VCD :=
  match properties with
  | None => Err tt DQERR_ERR
  | Some file =>
      match newPropParser (Some file) with
      | None => Undef
      | Some p =>
          if negb (bool_decide (pr_status p = DQERR_OK)) then Err tt (pr_status p)
          else
            match addSettings n (newTraceSettings, p) with
            | Ok (s, _) _ =>
                match VCD_configure s (cleared start (vd_nextPCDRecord start)) with
                | Ok v _ => Ok tt (set_vd_status DQERR_OK v)
                | Err _ e => Err tt e
                | Undef => Undef
                | NoFuel => NoFuel
                end
            | Err _ e => Err tt e
            | Undef => Undef
            | NoFuel => NoFuel
            end
      end
  end.
End configure.

(** ** The other form of [NextInstruction] *)

(** Whether the caller wants the instruction and the source line, and the flags of what it gets. *)
Definition VCD_NextInstructionFlags (uninit : Inst) (contents : list ascii -> option (list ascii)) (fuel : nat) (wantInst wantSrc : bool)
    : VM (Listed * Z) :=
  i ← VCD_NextInstruction uninit contents fuel;
  mret (i, Z.lor (if wantInst then TRACE_HAVE_INSTINFO else 0) (if wantSrc then TRACE_HAVE_SRCINFO else 0)).
