(* ===== verification/VcdRead.v ===== *)
(** * The records of a value change dump

    The records of a file are read in order, those without an address are passed over, and the
    one after the next is looked at; and a reader that is made from them gives the run. *)

From stdpp Require Import strings.
From Stdlib Require Import Ascii.
From Stdlib Require String.
From S2P Require Import Prelude Nexus Analytics Counts Decode Memory NextAddr Walk NextInstr ObjDump ObjDumpText ObjDumpPrint.
From S2P Require Import ObjDumpRead ObjCode Symbols SrcFiles ElfFile Cycles Disasm Described CText PropFile Settings Maps Configure.
From S2P Require Import Whole BranchFlags Listing Vcd.

(** ** Numbers *)

(** The bytes of a number, the highest first. *)
Definition bytesDown (n : nat) (x : Z) : list Z := (fun i : nat => Z.land (Z.shiftr x (8 * Z.of_nat i)) 255) <$> rev (seq 0 n).

Lemma length_bytesDown n x : length (bytesDown n x) = n.
Proof. unfold bytesDown. by rewrite length_fmap, length_rev, length_seq. Qed.

(** A function that works bit by bit is known from its values at single bits. *)
Definition linear (f : Z -> Z) : Prop := f 0 = 0 /\ forall a b, f (Z.lor a b) = Z.lor (f a) (f b).

Lemma linear_id : linear (fun x => x).
Proof. done. Qed.
Lemma linear_0 : linear (fun _ => 0).
Proof. done. Qed.
Lemma linear_lor f g : linear f -> linear g -> linear (fun x => Z.lor (f x) (g x)).
Proof.
  intros [Hf Hf'] [Hg Hg']. split; [by rewrite Hf, Hg|]. intros a b. rewrite Hf', Hg'. rewrite <-!Z.lor_assoc. f_equal.
  rewrite !Z.lor_assoc. f_equal. apply Z.lor_comm.
Qed.
Lemma linear_land f m : linear f -> linear (fun x => Z.land (f x) m).
Proof. intros [Hf Hf']. split; [by rewrite Hf|]. intros a b. by rewrite Hf', Z.land_lor_distr_l. Qed.
Lemma linear_shiftl f n : linear f -> linear (fun x => Z.shiftl (f x) n).
Proof. intros [Hf Hf']. split; [by rewrite Hf, Z.shiftl_0_l|]. intros a b. by rewrite Hf', Z.shiftl_lor. Qed.
Lemma linear_shiftr f n : linear f -> linear (fun x => Z.shiftr (f x) n).
Proof. intros [Hf Hf']. split; [by rewrite Hf, Z.shiftr_0_l|]. intros a b. by rewrite Hf', Z.shiftr_lor. Qed.
Lemma linear_wrap f w : 0 <= w -> linear f -> linear (fun x => wrap w (f x)).
Proof.
  intros Hw [Hf Hf']. split; [by rewrite Hf; apply Z.mod_0_l, Z.pow_nonzero|]. intros a b. unfold wrap.
  by rewrite Hf', <-!Z.land_ones, Z.land_lor_distr_l.
Qed.

Lemma linear_same f n x : linear f -> forallb (fun i : nat => f (2 ^ Z.of_nat i) =? 2 ^ Z.of_nat i) (seq 0 n) = true ->
  0 <= x < 2 ^ Z.of_nat n -> f x = x.
Proof.
  intros [H0 Hl] Hall. revert x. induction n as [|n IH]; intros x Hx; [by replace x with 0 by lia|].
  rewrite seq_S, forallb_app in Hall. apply andb_prop in Hall as [Hall Hn]. cbn in Hn. apply andb_prop in Hn as [Hn%Z.eqb_eq _].
  specialize (IH Hall). assert (x = Z.lor (x mod 2 ^ Z.of_nat n) (Z.shiftl (Z.b2z (Z.testbit x (Z.of_nat n))) (Z.of_nat n))) as E.
  { apply Z.bits_inj'. intros j Hj. rewrite Z.lor_spec, Z.shiftl_spec, Z.testbit_mod_pow2 by lia.
    destruct (Z.ltb_spec j (Z.of_nat n)) as [|Hge]; cbn [andb orb]; [by rewrite (Z.testbit_neg_r _ (j - _)), orb_false_r by lia|].
    destruct (Z.eq_dec j (Z.of_nat n)) as [->|]; [by rewrite Z.sub_diag, Z.b2z_bit0|].
    transitivity false; [|by destruct (Z.testbit x (Z.of_nat n)); cbn [Z.b2z]; rewrite ?Z.bits_0, ?(Z.bits_above_log2 1) by (cbn; lia)].
    destruct (Z.eq_dec x 0) as [->|]; [apply Z.bits_0|]. apply Z.bits_above_log2; [lia|]. apply Z.log2_lt_pow2; [lia|].
    apply Z.lt_le_trans with (2 ^ Z.of_nat (S n)); [lia|]. apply Z.pow_le_mono_r; lia. }
  rewrite E at 1. rewrite Hl, IH by (apply Z.mod_pos_bound; by apply pow2_pos; lia).
  rewrite E at 3. f_equal. destruct (Z.testbit x (Z.of_nat n)); cbn [Z.b2z]; [by rewrite Z.shiftl_1_l|]. by rewrite Z.shiftl_0_l.
Qed.

(** Reading what was written the other way round. *)
Definition loaded (n : nat) (x : Z) : Z := default 0 (load n (bytesDown n x)).

Lemma load_app n l t x : load n l = Some x -> load n (l ++ t) = Some x.
Proof.
  revert l x. induction n as [|n IH]; intros [|b l] x; cbn; try done. destruct (load n l) as [y|] eqn:E; [|done].
  intros [= <-]. by rewrite (IH l y E).
Qed.
Lemma load_loaded n x t : load n (bytesDown n x ++ t) = Some (loaded n x).
Proof.
  apply load_app. unfold loaded. cut (forall l, length l = n -> is_Some (load n l)).
  { intros H. destruct (H _ (length_bytesDown n x)) as [y Hy]. by rewrite Hy. }
  clear. induction n as [|n IH]; intros [|b l] [=]; cbn; [done|]. destruct (IH l) as [y ->]; [done|]. by eexists.
Qed.

Ltac linear := unfold loaded, bytesDown, bswap_uint16, bswap_uint32, bswap_uint64, u16, u64;
  cbn [load rev seq app fmap list_fmap mbind option_bind default]; repeat first [
    apply linear_lor | apply linear_land | apply linear_shiftl | apply linear_shiftr | apply linear_wrap; [lia|] | apply linear_id | apply linear_0].

Lemma bswap16_loaded x : 0 <= x < 2 ^ 16 -> bswap_uint16 (loaded 2 x) = x.
Proof. apply (linear_same (fun x => bswap_uint16 (loaded 2 x)) 16); [linear|by vm_compute]. Qed.
Lemma bswap32_loaded x : 0 <= x < 2 ^ 32 -> bswap_uint32 (loaded 4 x) = x.
Proof. apply (linear_same (fun x => bswap_uint32 (loaded 4 x)) 32); [linear|by vm_compute]. Qed.
Lemma bswap64_loaded x : 0 <= x < 2 ^ 64 -> bswap_uint64 (loaded 8 x) = x.
Proof. apply (linear_same (fun x => bswap_uint64 (loaded 8 x)) 64); [linear|by vm_compute]. Qed.

(** ** Records *)

Definition record_ok (r : VRec) : Prop :=
  0 <= vr_ts r < 2 ^ 64 /\ 0 <= vr_flags r < 2 ^ 16 /\ 0 <= vr_pc r < 2 ^ 64 /\ 0 <= vr_opcode r < 2 ^ 32 /\ 0 <= vr_deltaT r < 2 ^ 64.
Definition recordBytes (r : VRec) : list Z :=
  bytesDown 8 (vr_ts r) ++ bytesDown 2 (vr_flags r) ++ bytesDown 8 (vr_pc r) ++ bytesDown 4 (vr_opcode r) ++ bytesDown 8 (vr_deltaT r).
Definition recordsBytes (rs : list VRec) : list Z := concat (recordBytes <$> rs).

Lemma length_recordBytes r : length (recordBytes r) = VCD_REC_SIZE.
Proof. unfold recordBytes. by rewrite !length_app, !length_bytesDown. Qed.
Lemma length_recordsBytes rs : length (recordsBytes rs) = (length rs * VCD_REC_SIZE)%nat.
Proof.
  unfold recordsBytes. induction rs as [|r rs IH]; [done|]. cbn [fmap list_fmap concat]. rewrite length_app, IH, length_recordBytes. cbn. lia.
Qed.
Lemma drop_recordsBytes n rs t : (n <= length rs)%nat -> drop (n * VCD_REC_SIZE) (recordsBytes rs ++ t) = recordsBytes (drop n rs) ++ t.
Proof.
  intros Hn. rewrite <-(take_drop n rs) at 1. unfold recordsBytes. rewrite fmap_app, concat_app, <-app_assoc. apply drop_app_length'.
  fold (recordsBytes (take n rs)). by rewrite length_recordsBytes, length_take, Nat.min_l.
Qed.
Lemma take_recordsBytes n rs t : (n <= length rs)%nat -> take (n * VCD_REC_SIZE) (recordsBytes rs ++ t) = recordsBytes (take n rs).
Proof.
  intros Hn. rewrite <-(take_drop n rs) at 1. unfold recordsBytes. rewrite fmap_app, concat_app, <-app_assoc. apply take_app_length'.
  fold (recordsBytes (take n rs)). by rewrite length_recordsBytes, length_take, Nat.min_l.
Qed.

Lemma recordAt_ok rs i r t : rs !! i = Some r -> record_ok r -> recordAt (recordsBytes rs ++ t) i = Some r.
Proof.
  intros Hi (H1 & H2 & H3 & H4 & H5). unfold recordAt. cbn zeta. rewrite <-!drop_drop.
  rewrite drop_recordsBytes by (apply lookup_lt_Some in Hi; lia). rewrite (drop_S rs r i Hi). set (rest := drop (S i) rs).
  change (recordsBytes (r :: rest)) with (recordBytes r ++ recordsBytes rest). unfold recordBytes. rewrite <-!app_assoc.
  set (ts := bytesDown 8 (vr_ts r)). set (fl := bytesDown 2 (vr_flags r)). set (pc := bytesDown 8 (vr_pc r)). set (op := bytesDown 4 (vr_opcode r)).
  set (dt := bytesDown 8 (vr_deltaT r)).
  change VCD_REC_TIMESTAMP_OFFSET with 0%nat. change VCD_REC_FLAGS_OFFSET with (length ts). change VCD_REC_PC_OFFSET with (length ts + length fl)%nat.
  change VCD_REC_OPCODE_OFFSET with (length ts + (length fl + length pc))%nat.
  change VCD_REC_DELTAT_OFFSET with (length ts + (length fl + (length pc + length op)))%nat.
  rewrite <-!drop_drop, drop_0, !drop_app_length. unfold ts, fl, pc, op, dt. rewrite !load_loaded. cbn [mbind option_bind].
  rewrite !bswap64_loaded, bswap16_loaded, bswap32_loaded by done. by destruct r.
Qed.

(** ** Reading records in order *)

(** What is not read yet: [later] in the file and the rest of [buffered], of which the first
    [current] were used. *)
Record holds (v : VCD) (rs : list VRec) : Prop := {
  hd_records : exists buffered later junk tail,
    vd_fd v = Some {| pcd_bytes := recordsBytes later ++ tail; pcd_fails := false |} /\ (length tail < VCD_REC_SIZE)%nat /\
    vd_vcdBuff v = Some (recordsBytes buffered ++ junk) /\ vd_numVCDRecords v = Z.of_nat (length buffered) /\
    0 <= vd_currentVCDRecord v < 1001 /\ (length buffered <= 1000)%nat /\ rs = drop (Z.to_nat (vd_currentVCDRecord v)) buffered ++ later;
  hd_ok : Forall record_ok rs;
}.
(** Nothing but what is read, the counts of it, the look-ahead and the status differ. *)
Record onlyRead (v v' : VCD) : Prop := {
  or_arch : vd_archSize v' = vd_archSize v;
  or_have : vd_haveLookaheadVRec v' = vd_haveLookaheadVRec v;
  or_info : vd_info v' = vd_info v;
  or_elf : vd_elfReader v' = vd_elfReader v;
  or_dis : vd_disassembler v' = vd_disassembler v;
  or_time : vd_currentTime v' = vd_currentTime v;
  or_isr : vd_enterISR v' = vd_enterISR v;
}.
Lemma onlyRead_trans v1 v2 v3 : onlyRead v1 v2 -> onlyRead v2 v3 -> onlyRead v1 v3.
Proof. intros [] []. split; congruence. Qed.

(** A buffer of records from the file. *)
Lemma read_records later tail : (length tail < VCD_REC_SIZE)%nat -> exists bytes rest junk tail' n,
  readPCD (1000 * VCD_REC_SIZE) {| pcd_bytes := recordsBytes later ++ tail; pcd_fails := false |} =
    Some (bytes, {| pcd_bytes := recordsBytes rest ++ tail'; pcd_fails := false |}) /\
  (length tail' < VCD_REC_SIZE)%nat /\ n = (length bytes / VCD_REC_SIZE)%nat /\ bytes = recordsBytes (take n later) ++ junk /\
  rest = drop n later /\ (n <= length later)%nat /\ (n <= 1000)%nat /\ (n = 0%nat -> later = []).
Proof.
  intros Ht. unfold readPCD. cbn [pcd_fails pcd_bytes]. destruct (le_lt_dec 1000 (length later)) as [Hl|Hl].
  - exists (recordsBytes (take 1000 later)), (drop 1000 later), [], tail, 1000%nat.
    rewrite take_recordsBytes, drop_recordsBytes, app_nil_r, length_recordsBytes, length_take, Nat.min_l, Nat.div_mul by (done || lia).
    split_and!; try done; lia.
  - assert (length (recordsBytes later ++ tail) < 1000 * VCD_REC_SIZE)%nat as Hlen
      by (rewrite length_app, length_recordsBytes; unfold VCD_REC_SIZE in *; lia).
    exists (recordsBytes later ++ tail), [], tail, [], (length later).
    assert (length (recordsBytes later ++ tail) / VCD_REC_SIZE = length later)%nat as ->.
    { rewrite length_app, length_recordsBytes, Nat.div_add_l by done. rewrite (Nat.div_small _ _ Ht). lia. }
    rewrite take_ge, drop_ge, firstn_all, drop_all by lia. split_and!; try done; try lia.
    + unfold VCD_REC_SIZE. cbn. lia.
    + by destruct later.
Qed.

Lemma fillBuff_ok v r rs : holds v (r :: rs) -> exists v', fillBuff v = Ok v' tt /\ holds v' (r :: rs) /\ onlyRead v v' /\
  vd_currentVCDRecord v' < vd_numVCDRecords v' /\ vd_nextPCDRecord v' = vd_nextPCDRecord v.
Proof.
  intros [(b & later & junk & tail & Ef & Ht & Eb & En & Hc & Hb & E) Hok]. unfold fillBuff. rewrite bind_get, Ef.
  destruct (Z.leb_spec (vd_numVCDRecords v) (vd_currentVCDRecord v)) as [Hle|Hlt].
  - rewrite drop_ge in E by lia. cbn [app] in E.
    destruct (read_records later tail Ht) as (bytes & rest & junk' & tail' & n & -> & Ht' & -> & Ebytes & -> & Hn & Hn' & H0).
    rewrite Eb, lift_bind. set (n := (length bytes / VCD_REC_SIZE)%nat) in *. clearbody n.
    destruct (Z.eqb_spec (Z.of_nat n) 0) as [Hz|Hz]; [exfalso; rewrite H0 in E by lia; done|].
    eexists. split; [done|]. split; [|split; [by split|split; [cbn; lia|done]]]. split; [|done].
    exists (take n later), (drop n later). eexists _, tail'. cbn. split_and!; try done; try lia.
    + rewrite Ebytes at 1. by rewrite <-app_assoc.
    + by rewrite length_take, Nat.min_l.
    + rewrite length_take. lia.
    + by rewrite drop_0, take_drop.
  - exists v. split; [done|]. split; [|by split]. split; [|done]. by exists b, later, junk, tail.
Qed.

Lemma getNextVRec_ok v r rs : holds v (r :: rs) -> exists v', getNextVRec v = Ok v' r /\ holds v' rs /\ onlyRead v v' /\
  vd_nextPCDRecord v' = i32 (vd_nextPCDRecord v + 1).
Proof.
  intros H. destruct (fillBuff_ok v r rs H) as (v1 & E & [(b & later & junk & tail & Ef & Ht & Eb & En & Hc & Hb & Ers) Hok] & Ho & Hlt & Hnext).
  unfold getNextVRec. rewrite (bind_ok _ _ _ _ _ E), bind_get, Eb, lift_bind.
  destruct (lookup_lt_is_Some_2 b (Z.to_nat (vd_currentVCDRecord v1))) as [r' Hr']; [lia|].
  rewrite (drop_S _ _ _ Hr') in Ers. cbn [app] in Ers. injection Ers as <- Ers. apply list.Forall_cons in Hok as [Hr Hok].
  rewrite (recordAt_ok b _ r _ Hr' Hr), lift_bind, bind_modify. eexists. split; [done|]. split; [|split; [|cbn; by rewrite Hnext]].
  - split; [|done]. exists b, later, junk, tail. cbn. rewrite i32_small by lia. split_and!; try done; try lia.
    by replace (Z.to_nat (vd_currentVCDRecord v1 + 1)) with (S (Z.to_nat (vd_currentVCDRecord v1))) by lia.
  - destruct Ho. by split.
Qed.

Lemma getNextVRec_eof v : holds v [] -> exists v', getNextVRec v = Err v' DQERR_EOF /\ holds v' [] /\ onlyRead v v'.
Proof.
  intros [(b & later & junk & tail & Ef & Ht & Eb & En & Hc & Hb & E) _]. symmetry in E. apply app_nil in E as [E ->].
  assert (length b <= Z.to_nat (vd_currentVCDRecord v))%nat as Hle.
  { pose proof (length_drop b (Z.to_nat (vd_currentVCDRecord v))) as Hl. rewrite E in Hl. cbn in Hl. lia. }
  unfold getNextVRec, fillBuff. rewrite bind_assoc, bind_get, Ef. destruct (Z.leb_spec (vd_numVCDRecords v) (vd_currentVCDRecord v)); [|lia].
  destruct (read_records [] tail Ht) as (bytes & rest & junk' & tail' & n & -> & Ht' & -> & Ebytes & -> & Hn & Hn' & H0).
  rewrite Eb. set (n := (length bytes / VCD_REC_SIZE)%nat) in *. clearbody n. cbn in Hn. assert (n = 0%nat) as -> by lia. cbn.
  eexists. split; [done|]. split; [|by split]. split; [|done]. exists [], []. eexists _, tail'. cbn.
  split_and!; try done; try lia. by rewrite drop_nil.
Qed.

(** ** The records of instructions *)

Definition wanted (rs : list VRec) : list VRec := base.filter (fun r => vr_pc r <> 0) rs.

Lemma nextRecord_ok note n v rs : (forall r v, onlyRead v (note r v)) -> (forall r v rs, holds v rs -> holds (note r v) rs) ->
  holds v rs -> (length rs < n)%nat ->
  match wanted rs with
  | [] => exists v', nextRecord note n v = Err v' DQERR_EOF /\ holds v' [] /\ onlyRead v v'
  | r :: l => exists v' rs', nextRecord note n v = Ok v' r /\ holds v' rs' /\ onlyRead v v' /\ wanted rs' = l /\ (length rs' < length rs)%nat
  end.
Proof.
  intros Hn Hn'. revert v rs. induction n as [|n IH]; intros v [|r rs] H Hl; cbn in Hl; try lia; cbn [nextRecord].
  - destruct (getNextVRec_eof v H) as (v' & E & H'). exists v'. by rewrite (bind_err _ _ _ _ _ E).
  - destruct (getNextVRec_ok v r rs H) as (v1 & E & H1 & Ho & _). rewrite (bind_ok _ _ _ _ _ E), bind_modify.
    pose proof (onlyRead_trans _ _ _ Ho (Hn r v1)) as Ho1. pose proof (Hn' r _ _ H1) as H2. unfold wanted. rewrite list.filter_cons.
    destruct (Z.eqb_spec (vr_pc r) 0) as [Hz|Hz]; [rewrite decide_False by tauto|rewrite decide_True by done].
    + specialize (IH _ rs H2 ltac:(lia)). fold (wanted rs). destruct (wanted rs) as [|r' l].
      * destruct IH as (v' & E' & H' & Ho'). exists v'. split_and!; try done. by eapply onlyRead_trans.
      * destruct IH as (v' & rs' & E' & H' & Ho' & Hw & Hlen). exists v', rs'. split_and!; try done; [by eapply onlyRead_trans|cbn; lia].
    + exists (note r v1), rs. split_and!; try done. cbn. lia.
Qed.

(** What the next calls return, with the record that is looked ahead. *)
Inductive awaits (n : nat) (v : VCD) : list VRec -> Prop :=
| awaits_file rs : vd_haveLookaheadVRec v = false -> holds v rs -> (length rs < n)%nat -> awaits n v (wanted rs)
| awaits_lookahead rs : vd_haveLookaheadVRec v = true -> holds v rs -> (length rs < n)%nat ->
    awaits n v (vd_lookaheadVRec v :: wanted rs).

(** The parts of which a description is made. *)
Record sameParts (v v' : VCD) : Prop := {
  sp_arch : vd_archSize v' = vd_archSize v;
  sp_elf : vd_elfReader v' = vd_elfReader v;
  sp_dis : vd_disassembler v' = vd_disassembler v;
  sp_time : vd_currentTime v' = vd_currentTime v;
  sp_isr : vd_enterISR v' = vd_enterISR v;
}.

Lemma holds_lookahead b r v rs : holds v rs -> holds (set_lookahead b r v) rs.
Proof. intros [(bu & later & junk & tail & H) Hok]. split; [|done]. by exists bu, later, junk, tail. Qed.

Lemma lookahead_read n v rs : holds v rs -> (length rs < n)%nat -> exists v',
  lookAhead n v = Ok v' (match wanted rs with [] => 0 | r :: _ => vr_pc r end) /\ awaits n v' (wanted rs) /\ sameParts v v'.
Proof.
  intros H Hn. unfold lookAhead. pose proof (nextRecord_ok (fun r v => set_lookahead (vd_haveLookaheadVRec v) r v) n v rs ltac:(by split)
    ltac:(intros; by apply holds_lookahead) H Hn) as E.
  destruct (wanted rs) as [|r l].
  - destruct E as (v' & -> & H' & []). eexists. split; [done|]. split; [|by split].
    apply (awaits_file n _ []); [done|by apply holds_lookahead|cbn; lia].
  - destruct E as (v' & rs' & -> & H' & [] & <- & Hl). eexists. split; [done|]. split; [|by split].
    apply (awaits_lookahead n (set_lookahead true r v') rs'); [done|by apply holds_lookahead|lia].
Qed.

Lemma nextRecords_ok n v r rs : awaits n v (r :: rs) -> exists v', nextRecords n v = Ok v' (r, match rs with [] => 0 | x :: _ => vr_pc x end) /\
  awaits n v' rs /\ sameParts v v'.
Proof.
  intros H. unfold nextRecords. rewrite bind_get. inversion H as [rs0 Hh Hr Hl E|rs0 Hh Hr Hl E]; rewrite Hh.
  - pose proof (nextRecord_ok (fun _ v => v) n v rs0 ltac:(by split) ltac:(done) Hr Hl) as E'. rewrite E in E'.
    destruct E' as (v1 & rs1 & E1 & H1 & [] & <- & Hl1). rewrite (bind_ok _ _ _ _ _ E1).
    destruct (lookahead_read n v1 rs1 H1 ltac:(lia)) as (v2 & E2 & H2 & []).
    eexists. split; [by rewrite (bind_ok _ _ _ _ _ E2)|]. split; [done|]. split; congruence.
  - rewrite bind_assoc, bind_modify, ret_bind.
    destruct (lookahead_read n _ rs0 (holds_lookahead false (vd_lookaheadVRec v) v _ Hr) Hl) as (v2 & E' & H2 & []).
    eexists. split; [by rewrite (bind_ok _ _ _ _ _ E')|]. split; [done|]. by split.
Qed.

Lemma nextRecords_eof n v : awaits n v [] -> exists v', nextRecords n v = Err v' DQERR_EOF.
Proof.
  intros H. unfold nextRecords. rewrite bind_get. inversion H as [rs0 Hh Hr Hl E|]; rewrite Hh.
  pose proof (nextRecord_ok (fun _ v => v) n v rs0 ltac:(by split) ltac:(done) Hr Hl) as E'. rewrite E in E'.
  destruct E' as (v' & E' & _). exists v'. by rewrite (bind_err _ _ _ _ _ E').
Qed.

(** ** A run from its value change dump

    A reader that is made from the printed object file and a file of the records of a run gives
    the instructions of the run, with the flags that the reference machine has. *)

(** *** What is returned *)

(** The address and the time of an instruction. *)
Definition placeOf (r : VRec) : Z * Z := (vr_pc r, vr_ts r).
Definition pipeTold (r : VRec) (info : Listed) : Prop :=
  li_caFlags info = if Z.testbit (vr_flags r) 0 then CAFLAG_PIPE0 else CAFLAG_PIPE1.

Fixpoint nextInstructions (uninit : Inst) (contents : list ascii -> option (list ascii)) (n k : nat) : M VCD DQErr (list Listed) :=
  match k with
  | O => mret []
  | S k => i ← VCD_NextInstruction uninit contents n; l ← nextInstructions uninit contents n k; mret (i :: l)
  end.

(** *** One instruction *)

Section run.
Context (uninit : Inst) (contents : list ascii -> option (list ascii)) (dump : Dump) (name : list ascii) (g : Shown * SourceInfo).
Context (p : Built) (f : ElfFile) (dis : Disassembler) (Hp : process_loaded dump name g p f dis).
Context (store : list ElfSection) (syms : list Sym) (d0 : Disassembler) (Hsec : ds_sectionLst d0 = sectionsOf f).
Let arch : Z := if d_64 dump then 64 else 32.

(** The parts of a reader that was made, after an instruction at the time [t]. *)
Record knows (t isr : Z) (v : VCD) : Prop := {
  kn_arch : vd_archSize v = arch;
  kn_elf : exists f', vd_elfReader v = Some f' /\ ef_image f' = ef_image f;
  kn_dis : exists ds, vd_disassembler v = Some ds /\ dis_ok contents store syms ds /\ dis_same d0 ds;
  kn_time : exists ts, vd_currentTime v = t :: ts;
  kn_isr : exists isrs, vd_enterISR v = isr :: isrs;
}.
Lemma knows_same t isr v v' : knows t isr v -> sameParts v v' -> knows t isr v'.
Proof using. intros [] [E1 E2 E3 E4 E5]. by split; rewrite ?E1, ?E2, ?E3, ?E4, ?E5. Qed.

Lemma awaits_kept n v v' rs : awaits n v rs -> vd_haveLookaheadVRec v' = vd_haveLookaheadVRec v ->
  vd_lookaheadVRec v' = vd_lookaheadVRec v -> vd_fd v' = vd_fd v -> vd_vcdBuff v' = vd_vcdBuff v ->
  vd_numVCDRecords v' = vd_numVCDRecords v -> vd_currentVCDRecord v' = vd_currentVCDRecord v -> awaits n v' rs.
Proof using.
  intros H Eh El Ef Eb En Ec. assert (forall rs, holds v rs -> holds v' rs) as Hh.
  { intros rs' [Hr Hok]. split; [|done]. by rewrite Ef, Eb, En, Ec. }
  destruct H; [apply (awaits_file n v'); [congruence|auto|done]|]. rewrite <-El. apply (awaits_lookahead n v'); [congruence|auto|done].
Qed.

Lemma build_returned v r br cr ds ds' t ts : vd_disassembler v = Some ds -> disassembleAt contents (vr_pc r) ds = Ok ds' tt ->
  vd_currentTime v = t :: ts ->
  buildInstructionFromVRec contents r br cr v = Ok (set_cores (vr_ts r :: ts) (vd_enterISR v) (set_vd_info {|
    li_shown := ds_instruction ds'; li_source := ds_source ds'; li_coreId := 0; li_CRFlag := cr; li_brFlags := br; li_timestamp := vr_ts r;
    li_caFlags := if Z.land (vr_flags r) VCDFLAG_PIPE =? 0 then CAFLAG_PIPE1 else CAFLAG_PIPE0;
    li_pipeCycles := if t =? 0 then 0 else u32 (u64 (vr_ts r - t)); li_r0Val := 0; li_r1Val := 0; li_wVal := 0 |}
    (set_parts (vd_elfReader v) (Some ds') v))) tt.
Proof using.
  intros Ed E Et. unfold buildInstructionFromVRec. erewrite bind_ok by (unfold VCD_Disassemble; by rewrite Ed, E).
  rewrite bind_get. cbn. by rewrite Et.
Qed.

Lemma instruction_returned n t isr v r rs cr br isr' i : awaits n v (r :: rs) -> knows t isr v -> record_ok r ->
  0 <= t -> printed uninit dump (vr_pc r) = Some i ->
  switchFlags (vr_pc r) (match rs with [] => 0 | x :: _ => vr_pc x end) i = (cr, br, isr') ->
  exists v' info, VCD_NextInstruction uninit contents n v = Ok v' info /\ awaits n v' rs /\ knows (vr_ts r) isr' v' /\
    told uninit arch t (placeOf r) (i, Z.lor isr cr, br) info /\ pipeTold r info.
Proof using Hp Hsec.
  intros Ha Hk Hr Ht Hi Hf. unfold VCD_NextInstruction. destruct (nextRecords_ok n v r rs Ha) as (v1 & E1 & Ha1 & Hs1).
  rewrite (bind_ok _ _ _ _ _ E1). apply (knows_same _ _ _ _ Hk) in Hs1 as [Harch (f' & Ef & Eimg) (ds & Eds & Hok & Hsame) [ts Ets] [isrs Eisr]].
  destruct (printed_known uninit contents dump name g p f dis Hp store syms d0 Hsec _ _ Hi) as (inst & Hdec & Hread & Hdis). fold arch in Hdec.
  assert (er_codeSectionLst (memoryOf f') = er_codeSectionLst (memoryOf f)) as Ecode by (cbn; by rewrite Eimg).
  set (v2 := set_parts (Some (set_ef_status DQERR_OK f')) (Some ds) v1).
  assert (readInstruction (vr_pc r) v1 = Ok v2 inst) as E2.
  { unfold readInstruction. rewrite Ef, (Hread _ Ecode). by rewrite Eds. }
  rewrite (bind_ok _ _ _ _ _ E2). unfold VCD_computeBranchFlags. rewrite bind_assoc, bind_get.
  change (vd_enterISR v2) with (vd_enterISR v1). rewrite Eisr. change ((isr :: isrs) !! Z.to_nat 0) with (Some isr). rewrite bind_assoc, lift_bind.
  change (vd_archSize v2) with (vd_archSize v1). unfold branchFlags. rewrite Harch, Hdec, Z.eqb_refl, Hf, bind_assoc, bind_modify, ret_bind.
  change (<[Z.to_nat 0:=isr']> (isr :: isrs)) with (isr' :: isrs). set (v3 := set_cores _ _ v2).
  destruct (Hdis ds Hok Hsame) as (ds' & E3 & Hok' & Hsame' & Eaddr & Einst).
  erewrite bind_ok by (cbn beta; rewrite (build_returned v3 r br (Z.lor isr cr) ds ds' t ts) by done; done). rewrite bind_get.
  eexists _, _. split; [done|]. split; [|split; [|split]].
  - by apply (awaits_kept n v1).
  - split; cbn; try done; [by eexists; split| |by eexists|by eexists]. by exists ds'.
  - split; cbn; try done.
    + by rewrite Einst.
    + destruct (t =? 0); [done|]. apply u32_u64.
  - unfold pipeTold. cbn. change VCDFLAG_PIPE with (Z.ones 1). rewrite Z.land_ones by done. change (2 ^ 1) with 2.
    rewrite Zmod_odd, <-Z.bit0_odd. by destruct (Z.testbit _ 0).
Qed.

(** *** All of them *)

Lemma run_returned cap n rs : Forall record_ok rs -> Forall (fun r => vr_pc r <> 0) rs -> forall v t isr st outs xs,
  awaits n v rs -> knows t isr v -> 0 <= t -> runs (printed uninit dump) cap isr st outs (vr_pc <$> rs) xs ->
  exists v' l, nextInstructions uninit contents n (length rs) v = Ok v' l /\ awaits n v' [] /\ allTold uninit arch t (placeOf <$> rs) xs l /\ Forall2 pipeTold rs l.
Proof using Hp Hsec.
  induction 1 as [|r rs Hr Hrs IH]; intros Hpc v t isr st outs xs Ha Hk Ht Hruns.
  - exists v, []. inversion Hruns. by split_and!.
  - cbn [fmap list_fmap] in Hruns. destruct xs as [|x xs]; [by inversion Hruns|]. apply list.Forall_cons in Hpc as [Hpc0 Hpc].
    apply runs_flags in Hruns as (cr & br & isr' & st' & outs' & Hx & Hf & Hcr & Hbr & Hruns).
    2: { intros pc (r' & -> & Hr')%list_elem_of_fmap. rewrite list.Forall_forall in Hpc. by apply Hpc. }
    destruct (instruction_returned n t isr v r rs cr br isr' x.1.1) as (v1 & info & E1 & Ha1 & Hk1 & Htold & Hpipe); try done.
    { by destruct rs. }
    destruct (IH Hpc v1 (vr_ts r) isr' st' outs' xs) as (v2 & l & E2 & Ha2 & Hall & Hpipes); try done; [apply Hr|].
    exists v2, (info :: l). cbn [length nextInstructions]. rewrite (bind_ok _ _ _ _ _ E1), (bind_ok _ _ _ _ _ E2).
    split_and!; try done; [|by constructor]. split; [|done]. rewrite <-Hcr, <-Hbr in Htold. by destruct x as [[??]?].
Qed.

Lemma run_ends n v : awaits n v [] -> exists v', VCD_NextInstruction uninit contents n v = Err v' DQERR_EOF.
Proof using. intros [v' E]%nextRecords_eof. exists v'. unfold VCD_NextInstruction. by rewrite (bind_err _ _ _ _ _ E). Qed.
End run.

(** *** The reader that is made *)

Section built.
Context `{Q : !Qsort} `{L : !QsortLaws} (fuel : nat) (objdump : list ascii -> list ascii -> ElfType -> Z -> Exec).
Context (openPCD : list ascii -> option PCDFile) (garbage : Z * (Shown * SourceInfo)).

(** objdump prints the dump for the object file, and the file of records is open. *)
Record inputs (od : option (list ascii)) (name file : list ascii) (dump : Dump) (rs : list VRec) : Prop := {
  in_objdump : exists reads, objdump (default (chars "riscv64-unknown-elf-objdump") od) name elfType_32_little 0 = ExecPipe reads /\
    ObjDumpText.holds {| pp_buffer := []; pp_reads := reads |} (dumpText dump);
  in_dump : dump_ok fuel dump /\ layout_ok 0 dump /\ symbols_ok 0 dump /\ kept 0 dump <> [];
  in_file : exists tail, openPCD file = Some {| pcd_bytes := bytesDown 2 3 ++ recordsBytes rs ++ tail; pcd_fails := false |} /\
    (length tail < VCD_REC_SIZE)%nat;
  in_records : Forall record_ok rs;
}.

Lemma records_opened od name file dump rs v : inputs od name file dump rs -> exists v', openRecords openPCD (Some file) v = Ok v' tt /\
  holds v' rs /\ vd_haveLookaheadVRec v' = false /\ vd_currentTime v' = vd_currentTime v /\ vd_enterISR v' = vd_enterISR v.
Proof using.
  intros [_ _ (tail & E & Ht) Hok]. unfold openRecords. rewrite E. set (bytes := bytesDown 2 3) in *.
  assert (readPCD 2 {| pcd_bytes := bytes ++ recordsBytes rs ++ tail; pcd_fails := false |} =
    Some (bytes, {| pcd_bytes := recordsBytes rs ++ tail; pcd_fails := false |})) as -> by done.
  rewrite bind_get. unfold bytes. rewrite load_loaded, lift_bind, bswap16_loaded, bind_modify by done.
  eexists. split; [done|]. split; [|by split_and!]. split; [|done]. exists [], rs, [], tail. cbn. split_and!; try done; lia.
Qed.

Lemma objects_opened od name file dump rs pt v : inputs od name file dump rs -> exists f dis p,
  openObject fuel objdump garbage od (Some name) pt v = Ok (set_parts (Some f) (Some (setPathType pt dis)) v) tt /\
  process_loaded dump name garbage.2 p f dis.
Proof using L.
  intros [(reads & Eo & Hh) (Hd & Hl & Hs & Hk) _ _].
  destruct (reader_built fuel garbage dump reads name Hd Hl Hs Hk Hh) as (f0 & f & t & p & l & E0 & E & Et & Ep & Hp).
  eexists f, _, _. split; [|exact Hp]. unfold openObject. by rewrite Eo, E0, E, Et, Ep.
Qed.

Lemma vcd_built od name file dump rs start contents n : inputs od name file dump rs -> name <> [] -> (length rs < n)%nat ->
  vd_currentTime start <> [] -> vd_enterISR start <> [] ->
  exists v f dis p store syms d0, newVCDof fuel objdump openPCD garbage start (Some file) (Some name) od = Ok tt v /\
    process_loaded dump name garbage.2 p f dis /\ ds_sectionLst d0 = sectionsOf f /\ awaits n v (wanted rs) /\
    knows contents dump f store syms d0 0 isNone v.
Proof using L.
  intros Hi Hname Hn Ht Hisr. destruct (records_opened od name file dump rs (cleared start 0) Hi) as (v1 & E1 & H1 & Hhave & Etime & Eisr).
  unfold newVCDof. cbn zeta.
  match goal with |- context [VCD_configure _ _ _ _ ?x _] => set (s := x) end.
  assert (ts_name s pfName = Some file) as Epf by (destruct name; [done|by destruct od]).
  assert (ts_name s efName = Some name) as Eef by (destruct name; [done|by destruct od]).
  assert (ts_name s odName = od) as Eod by (destruct name; [done|by destruct od]).
  assert (ts_name s cutPath = None /\ ts_name s srcRoot = None) as [Ecut Eroot] by (destruct name; [done|by destruct od]).
  destruct (objects_opened od name file dump rs (ts_pathType s) v1 Hi) as (f & dis & p & E2 & Hp).
  destruct (pl_table _ _ _ _ _ _ Hp) as (store & syms & t & Htab & Edis).
  unfold VCD_configure. rewrite Epf, Eef, Eod, (bind_ok _ _ _ _ _ E1), (bind_ok _ _ _ _ _ E2), bind_get. cbn [vd_elfReader set_parts]. rewrite lift_bind, bind_modify, Ecut, Eroot.
  rewrite ret_bind. eexists _, f, dis, p, store, syms, (setPathType (ts_pathType s) dis).
  split; [done|]. split; [done|]. split; [by rewrite Edis|]. split.
  - apply (awaits_file n _ rs); [done| |done]. destruct H1 as [H1 Hok]. by split.
  - destruct (vd_currentTime start) as [|t0 ts] eqn:E3; [done|]. destruct (vd_enterISR start) as [|i0 isrs] eqn:E4; [done|].
    split; cbn.
    + apply (pl_arch _ _ _ _ _ _ Hp).
    + by exists f.
    + eexists. split; [done|]. rewrite Edis. split; [exact (dis_new contents store syms t _ _ None None _ Htab)|apply dis_same_refl].
    + rewrite Etime. cbn. rewrite E3. by eexists.
    + rewrite Eisr. cbn. rewrite E4. by eexists.
Qed.
End built.
