(* ===== verification/SimLines.v ===== *)
(** * The text of the simulator (src/dqr.cpp)

    [Simulator::readFile], [Simulator::parseLine] and [class SRec]: the lines that an ISA
    simulator prints, one for an instruction and others for vector and floating point registers. *)

From stdpp Require Import strings.
From Stdlib Require Import Ascii.
From Stdlib Require String.
From S2P Require Import Prelude Nexus ObjDump ObjDumpPrint Symbols CText.

(** ** The lines of a file *)

Definition NUL : ascii := "000"%char.
Definition CR : ascii := "013"%char.
Definition LF : ascii := "010"%char.

Definition asNul (c : ascii) : ascii := if bool_decide (c = CR) || bool_decide (c = LF) then NUL else c.

(** A line is the rest of the buffer from its first character on: what is in it after the end of
    the line are the lines after it.  [s] is whether a line starts here. *)
Fixpoint lineTexts (s : bool) (l : list ascii) : list (list ascii) :=
  match l with
  | [] => []
  | c :: l' => (if s then [asNul <$> l] else []) ++ lineTexts (bool_decide (c = LF)) l'
  end.
Definition countLF (l : list ascii) : nat := length (base.filter (fun c => c = LF) l).

(** The first character of the file is not looked at. *)
Definition readFile (file : list ascii) : option (list (list ascii)) :=
  let lines := lineTexts true (tail file) in
  if (S (countLF file) <=? length lines)%nat then None else Some lines.

(** ** Records *)

Record SRec := {
  sr_validLine : bool;
  sr_line : Z;
  sr_coreId : Z;
  sr_cycles : Z;
  sr_valid : Z;
  sr_haveFRF : bool;
  sr_haveVRF : bool;
  sr_frfAddr : Z;
  sr_pc : Z;
  sr_wvf : bool;
  sr_wReg : Z;
  sr_wVal : Z;
  sr_r1Reg : Z;
  sr_r2Reg : Z;
  sr_r1Val : Z;
  sr_r2Val : Z;
  sr_inst : Z;
  sr_dasm : Z;
}.
Definition startLine l (r : SRec) : SRec := {|
  sr_validLine := false; sr_line := l; sr_coreId := sr_coreId r; sr_cycles := sr_cycles r; sr_valid := 0; sr_haveFRF := false;
  sr_haveVRF := false; sr_frfAddr := sr_frfAddr r; sr_pc := sr_pc r; sr_wvf := sr_wvf r; sr_wReg := sr_wReg r;
  sr_wVal := sr_wVal r; sr_r1Reg := sr_r1Reg r; sr_r2Reg := sr_r2Reg r; sr_r1Val := sr_r1Val r; sr_r2Val := sr_r2Val r;
  sr_inst := sr_inst r; sr_dasm := sr_dasm r |}.
Definition set_coreId x (r : SRec) : SRec := {|
  sr_validLine := sr_validLine r; sr_line := sr_line r; sr_coreId := x; sr_cycles := sr_cycles r; sr_valid := sr_valid r;
  sr_haveFRF := sr_haveFRF r; sr_haveVRF := sr_haveVRF r; sr_frfAddr := sr_frfAddr r; sr_pc := sr_pc r; sr_wvf := sr_wvf r;
  sr_wReg := sr_wReg r; sr_wVal := sr_wVal r; sr_r1Reg := sr_r1Reg r; sr_r2Reg := sr_r2Reg r; sr_r1Val := sr_r1Val r;
  sr_r2Val := sr_r2Val r; sr_inst := sr_inst r; sr_dasm := sr_dasm r |}.
Definition set_cycles x (r : SRec) : SRec := {|
  sr_validLine := sr_validLine r; sr_line := sr_line r; sr_coreId := sr_coreId r; sr_cycles := x; sr_valid := sr_valid r;
  sr_haveFRF := sr_haveFRF r; sr_haveVRF := sr_haveVRF r; sr_frfAddr := sr_frfAddr r; sr_pc := sr_pc r; sr_wvf := sr_wvf r;
  sr_wReg := sr_wReg r; sr_wVal := sr_wVal r; sr_r1Reg := sr_r1Reg r; sr_r2Reg := sr_r2Reg r; sr_r1Val := sr_r1Val r;
  sr_r2Val := sr_r2Val r; sr_inst := sr_inst r; sr_dasm := sr_dasm r |}.
Definition set_valid x (r : SRec) : SRec := {|
  sr_validLine := sr_validLine r; sr_line := sr_line r; sr_coreId := sr_coreId r; sr_cycles := sr_cycles r; sr_valid := x;
  sr_haveFRF := sr_haveFRF r; sr_haveVRF := sr_haveVRF r; sr_frfAddr := sr_frfAddr r; sr_pc := sr_pc r; sr_wvf := sr_wvf r;
  sr_wReg := sr_wReg r; sr_wVal := sr_wVal r; sr_r1Reg := sr_r1Reg r; sr_r2Reg := sr_r2Reg r; sr_r1Val := sr_r1Val r;
  sr_r2Val := sr_r2Val r; sr_inst := sr_inst r; sr_dasm := sr_dasm r |}.
Definition set_pc x (r : SRec) : SRec := {|
  sr_validLine := sr_validLine r; sr_line := sr_line r; sr_coreId := sr_coreId r; sr_cycles := sr_cycles r;
  sr_valid := sr_valid r; sr_haveFRF := sr_haveFRF r; sr_haveVRF := sr_haveVRF r; sr_frfAddr := sr_frfAddr r; sr_pc := x;
  sr_wvf := sr_wvf r; sr_wReg := sr_wReg r; sr_wVal := sr_wVal r; sr_r1Reg := sr_r1Reg r; sr_r2Reg := sr_r2Reg r;
  sr_r1Val := sr_r1Val r; sr_r2Val := sr_r2Val r; sr_inst := sr_inst r; sr_dasm := sr_dasm r |}.
Definition set_wReg x (r : SRec) : SRec := {|
  sr_validLine := sr_validLine r; sr_line := sr_line r; sr_coreId := sr_coreId r; sr_cycles := sr_cycles r;
  sr_valid := sr_valid r; sr_haveFRF := sr_haveFRF r; sr_haveVRF := sr_haveVRF r; sr_frfAddr := sr_frfAddr r;
  sr_pc := sr_pc r; sr_wvf := sr_wvf r; sr_wReg := x; sr_wVal := sr_wVal r; sr_r1Reg := sr_r1Reg r; sr_r2Reg := sr_r2Reg r;
  sr_r1Val := sr_r1Val r; sr_r2Val := sr_r2Val r; sr_inst := sr_inst r; sr_dasm := sr_dasm r |}.
Definition set_frfAddr x (r : SRec) : SRec := {|
  sr_validLine := sr_validLine r; sr_line := sr_line r; sr_coreId := sr_coreId r; sr_cycles := sr_cycles r;
  sr_valid := sr_valid r; sr_haveFRF := sr_haveFRF r; sr_haveVRF := sr_haveVRF r; sr_frfAddr := x; sr_pc := sr_pc r;
  sr_wvf := sr_wvf r; sr_wReg := sr_wReg r; sr_wVal := sr_wVal r; sr_r1Reg := sr_r1Reg r; sr_r2Reg := sr_r2Reg r;
  sr_r1Val := sr_r1Val r; sr_r2Val := sr_r2Val r; sr_inst := sr_inst r; sr_dasm := sr_dasm r |}.
Definition set_write reg val (r : SRec) : SRec := {|
  sr_validLine := sr_validLine r; sr_line := sr_line r; sr_coreId := sr_coreId r; sr_cycles := sr_cycles r;
  sr_valid := sr_valid r; sr_haveFRF := sr_haveFRF r; sr_haveVRF := sr_haveVRF r; sr_frfAddr := sr_frfAddr r;
  sr_pc := sr_pc r; sr_wvf := sr_wvf r; sr_wReg := reg; sr_wVal := val; sr_r1Reg := sr_r1Reg r; sr_r2Reg := sr_r2Reg r;
  sr_r1Val := sr_r1Val r; sr_r2Val := sr_r2Val r; sr_inst := sr_inst r; sr_dasm := sr_dasm r |}.
Definition set_wvf b (r : SRec) : SRec := {|
  sr_validLine := sr_validLine r; sr_line := sr_line r; sr_coreId := sr_coreId r; sr_cycles := sr_cycles r;
  sr_valid := sr_valid r; sr_haveFRF := sr_haveFRF r; sr_haveVRF := sr_haveVRF r; sr_frfAddr := sr_frfAddr r;
  sr_pc := sr_pc r; sr_wvf := b; sr_wReg := sr_wReg r; sr_wVal := sr_wVal r; sr_r1Reg := sr_r1Reg r; sr_r2Reg := sr_r2Reg r;
  sr_r1Val := sr_r1Val r; sr_r2Val := sr_r2Val r; sr_inst := sr_inst r; sr_dasm := sr_dasm r |}.
Definition set_read1 reg val (r : SRec) : SRec := {|
  sr_validLine := sr_validLine r; sr_line := sr_line r; sr_coreId := sr_coreId r; sr_cycles := sr_cycles r;
  sr_valid := sr_valid r; sr_haveFRF := sr_haveFRF r; sr_haveVRF := sr_haveVRF r; sr_frfAddr := sr_frfAddr r;
  sr_pc := sr_pc r; sr_wvf := sr_wvf r; sr_wReg := sr_wReg r; sr_wVal := sr_wVal r; sr_r1Reg := reg; sr_r2Reg := sr_r2Reg r;
  sr_r1Val := val; sr_r2Val := sr_r2Val r; sr_inst := sr_inst r; sr_dasm := sr_dasm r |}.
Definition set_read2 reg val (r : SRec) : SRec := {|
  sr_validLine := sr_validLine r; sr_line := sr_line r; sr_coreId := sr_coreId r; sr_cycles := sr_cycles r;
  sr_valid := sr_valid r; sr_haveFRF := sr_haveFRF r; sr_haveVRF := sr_haveVRF r; sr_frfAddr := sr_frfAddr r;
  sr_pc := sr_pc r; sr_wvf := sr_wvf r; sr_wReg := sr_wReg r; sr_wVal := sr_wVal r; sr_r1Reg := sr_r1Reg r; sr_r2Reg := reg;
  sr_r1Val := sr_r1Val r; sr_r2Val := val; sr_inst := sr_inst r; sr_dasm := sr_dasm r |}.
Definition set_inst x (r : SRec) : SRec := {|
  sr_validLine := sr_validLine r; sr_line := sr_line r; sr_coreId := sr_coreId r; sr_cycles := sr_cycles r;
  sr_valid := sr_valid r; sr_haveFRF := sr_haveFRF r; sr_haveVRF := sr_haveVRF r; sr_frfAddr := sr_frfAddr r;
  sr_pc := sr_pc r; sr_wvf := sr_wvf r; sr_wReg := sr_wReg r; sr_wVal := sr_wVal r; sr_r1Reg := sr_r1Reg r;
  sr_r2Reg := sr_r2Reg r; sr_r1Val := sr_r1Val r; sr_r2Val := sr_r2Val r; sr_inst := x; sr_dasm := sr_dasm r |}.
Definition set_dasm x (r : SRec) : SRec := {|
  sr_validLine := sr_validLine r; sr_line := sr_line r; sr_coreId := sr_coreId r; sr_cycles := sr_cycles r;
  sr_valid := sr_valid r; sr_haveFRF := sr_haveFRF r; sr_haveVRF := sr_haveVRF r; sr_frfAddr := sr_frfAddr r;
  sr_pc := sr_pc r; sr_wvf := sr_wvf r; sr_wReg := sr_wReg r; sr_wVal := sr_wVal r; sr_r1Reg := sr_r1Reg r;
  sr_r2Reg := sr_r2Reg r; sr_r1Val := sr_r1Val r; sr_r2Val := sr_r2Val r; sr_inst := sr_inst r; sr_dasm := x |}.
Definition endLine frf vrf (r : SRec) : SRec := {|
  sr_validLine := true; sr_line := sr_line r; sr_coreId := sr_coreId r; sr_cycles := sr_cycles r; sr_valid := sr_valid r;
  sr_haveFRF := frf; sr_haveVRF := vrf; sr_frfAddr := sr_frfAddr r; sr_pc := sr_pc r; sr_wvf := sr_wvf r;
  sr_wReg := sr_wReg r; sr_wVal := sr_wVal r; sr_r1Reg := sr_r1Reg r; sr_r2Reg := sr_r2Reg r; sr_r1Val := sr_r1Val r;
  sr_r2Val := sr_r2Val r; sr_inst := sr_inst r; sr_dasm := sr_dasm r |}.

(** ** Reading a line *)

(** The record, and the text from [lp[ci]] on; a read past the end of the buffer is undefined. *)
#[local] Abbreviation PM := (M (SRec * list ascii) DQErr).

Definition upd_rec (f : SRec -> SRec) : PM unit := modify (fun '(r, t) => (f r, t)).
Definition rec : PM SRec := gets fst.
Definition curChar : PM ascii := '(_, t) ← get; lift_opt (head t).
Definition skipText (n : nat) : PM unit := modify (fun '(r, t) => (r, drop n t)).
Definition syntaxError {A} : PM A := throw DQERR_ERR.

Fixpoint afterBlanks (t : list ascii) : option (list ascii) :=
  match t with
  | [] => None
  | c :: t' => if bool_decide (c = " "%char) then afterBlanks t' else Some t
  end.
Definition blanks : PM unit := '(r, t) ← get; t ← lift_opt (afterBlanks t); modify (fun '(r, _) => (r, t)).

Definition expectChar (x : ascii) : PM unit := c ← curChar; if bool_decide (c = x) then skipText 1 else syntaxError.

(** [strncmp] with a text: it ends at the first character that differs. *)
Fixpoint startsWith (s t : list ascii) : option bool :=
  match s, t with
  | [], _ => Some true
  | _, [] => None
  | x :: s, c :: t => if bool_decide (c = x) then startsWith s t else Some false
  end.
Definition looking (s : list ascii) : PM bool := '(_, t) ← get; lift_opt (startsWith s t).
Definition expectText (s : list ascii) : PM unit := b ← looking s; if b : bool then skipText (length s) else syntaxError.

(** [strtoul] and [strtoull]: the value and the number of characters.  They look one
    character past the number, and past 0x. *)
Definition only0x (base : Z) (t : list ascii) : bool :=
  match t with ["0"%char; x] => (base =? 16) && (bool_decide (x = "x"%char) || bool_decide (x = "X"%char)) | _ => false end.
Definition strtoulAt (base : Z) (t : list ascii) : option (Z * nat) :=
  let start := (spaces t + (sign (drop (spaces t) t)).2)%nat in
  let '(v, n) := strtoul base t in
  if (length t <=? Nat.max start n)%nat || only0x base (drop start t) then None else Some (v, n).
(** The value is assigned before it is seen that there was no number. *)
Definition readNumber (base : Z) (put : Z -> SRec -> SRec) : PM Z :=
  '(_, t) ← get;
  '(v, n) ← lift_opt (strtoulAt base t);
  upd_rec (put v) ≫= fun _ => if (n =? 0)%nat then syntaxError else skipText n ≫= fun _ => mret v.

Definition isdigit (c : ascii) : bool := (48 <=? code_of c) && (code_of c <=? 57).
(** A flag, 0 or 1. *)
Definition readFlag (put : Z -> SRec -> SRec) : PM unit :=
  c ← curChar;
  if (48 <=? code_of c) && (code_of c <=? 49) then upd_rec (put (code_of c - 48)) ≫= fun _ => skipText 1 else syntaxError.

Fixpoint toBracket (t : list ascii) : option (list ascii) :=
  match t with
  | [] => None
  | c :: t' => if bool_decide (c = "]"%char) || bool_decide (c = NUL) then Some t else toBracket t'
  end.
Definition bracketed : PM unit := '(r, t) ← get; t ← lift_opt (toBracket t); modify (fun '(r, _) => (r, t)) ≫= fun _ => expectChar "]"%char.

(** The end of the line, where more text is only reported. *)
Definition lineEnd : PM unit := blanks ≫= fun _ => _ ← curChar; mret tt.

(** After the cycles: the records of a vector and of a floating point register. *)
Definition parseVrf : PM unit :=
  skipText 3 ≫= fun _ => expectChar "["%char ≫= fun _ =>
  readNumber 16 (fun v => set_wReg (i32 v)) ≫= fun _ =>
  expectChar "]"%char ≫= fun _ => blanks ≫= fun _ => expectChar "="%char ≫= fun _ => blanks ≫= fun _ =>
  expectChar "["%char ≫= fun _ => bracketed ≫= fun _ =>
  expectChar "["%char ≫= fun _ => bracketed ≫= fun _ =>
  lineEnd ≫= fun _ => upd_rec (fun r => endLine (sr_haveFRF r) true r).
Definition parseFrf : PM unit :=
  skipText 3 ≫= fun _ => expectChar "["%char ≫= fun _ =>
  readNumber 16 (fun v => set_wReg (i32 v)) ≫= fun _ =>
  expectChar "]"%char ≫= fun _ => blanks ≫= fun _ => expectChar "="%char ≫= fun _ => blanks ≫= fun _ =>
  expectChar "["%char ≫= fun _ => readNumber 16 set_frfAddr ≫= fun _ => expectChar "]"%char ≫= fun _ =>
  lineEnd ≫= fun _ => upd_rec (fun r => endLine true (sr_haveVRF r) r).

(** One operand; the number of those that are read. *)
Definition parseOperand (numReads : Z) : PM Z :=
  blanks ≫= fun _ =>
  c ← curChar;
  let wf := bool_decide (c = "W"%char) in
  let rf := bool_decide (c = "R"%char) in
  let numReads := if rf then numReads + 1 else numReads in
  if negb wf && negb rf then syntaxError
  else
    skipText 1 ≫= fun _ => expectChar "["%char ≫= fun _ => expectChar "r"%char ≫= fun _ =>
    reg ← readNumber 10 (fun _ r => r);
    expectChar "="%char ≫= fun _ =>
    val ← readNumber 16 (fun _ r => r);
    expectChar "]"%char ≫= fun _ =>
    let regNum := i32 (u32 reg) in
    let regVal := u32 val in
    (if wf
     then upd_rec (set_write regNum regVal) ≫= fun _ => expectChar "["%char ≫= fun _ =>
          readFlag (fun v => set_wvf (negb (v =? 0))) ≫= fun _ => expectChar "]"%char
     else upd_rec (if numReads =? 1 then set_read1 regNum regVal else set_read2 regNum regVal)) ≫= fun _ =>
    mret numReads.

Definition parseInst : PM unit :=
  expectChar "["%char ≫= fun _ => readFlag set_valid ≫= fun _ => expectChar "]"%char ≫= fun _ => blanks ≫= fun _ =>
  expectText (chars "pc=[") ≫= fun _ => readNumber 16 set_pc ≫= fun _ => expectChar "]"%char ≫= fun _ =>
  n ← parseOperand 0;
  n ← parseOperand n;
  _ ← parseOperand n;
  skipText 1 ≫= fun _ => blanks ≫= fun _ =>
  expectText (chars "inst=[") ≫= fun _ => readNumber 16 (fun v => set_inst (u32 v)) ≫= fun _ => expectChar "]"%char ≫= fun _ => blanks ≫= fun _ =>
  expectText (chars "DASM(") ≫= fun _ => readNumber 16 (fun v => set_dasm (u32 v)) ≫= fun _ => expectChar ")"%char ≫= fun _ =>
  lineEnd ≫= fun _ => upd_rec (fun r => endLine (sr_haveFRF r) (sr_haveVRF r) r).

(** A line that does not start with C and a number is a comment. *)
Definition parseText (core : Z) : PM unit :=
  blanks ≫= fun _ =>
  c ← curChar;
  if negb (bool_decide (c = "C"%char)) then mret tt
  else
    skipText 1 ≫= fun _ => blanks ≫= fun _ =>
    c ← curChar;
    if negb (isdigit c) then mret tt
    else
      readNumber 10 (fun v => set_coreId (u8 v)) ≫= fun _ =>
      r ← rec;
      if negb (core =? -1) && negb (core =? sr_coreId r) then mret tt
      else
        blanks ≫= fun _ => expectChar ":"%char ≫= fun _ =>
        readNumber 10 (fun v => set_cycles (u32 v)) ≫= fun _ => blanks ≫= fun _ =>
        vrf ← looking (chars "vrf");
        if vrf : bool then parseVrf
        else
          frf ← looking (chars "frf");
          if frf : bool then parseFrf else parseInst.

(** Of all cores, if [core] is -1.  Behind the last line the record is not touched. *)
Definition parseLine (lines : list (list ascii)) (l core : Z) : M SRec DQErr unit := fun r =>
  match lines !! Z.to_nat l with
  | None => Err r DQERR_EOF
  | Some t =>
      match parseText core (startLine l r, t) with
      | Ok (r, _) _ => Ok r tt
      | Err (r, _) e => Err r e
      | Undef => Undef
      | NoFuel => NoFuel
      end
  end.

(** [parseFile] checks all lines; the one record is used for all of them. *)
Definition parseFile (lines : list (list ascii)) : M SRec DQErr unit :=
  foldr (fun l k => parseLine lines (Z.of_nat l) (-1) ≫= fun _ => k) (mret tt) (seq 0 (length lines)).

(** ** Finding records *)

Definition wantedLine (r : SRec) : bool := sr_validLine r && negb (sr_valid r =? 0).

Fixpoint nextSrec (lines : list (list ascii)) (fuel : nat) (nextLine core : Z) : M SRec DQErr unit :=
  match fuel with
  | O => fun _ => NoFuel
  | S fuel =>
      parseLine lines nextLine core ≫= fun _ =>
      r ← get;
      if wantedLine r then mret tt else nextSrec lines fuel (nextLine + 1) core
  end.
(** There are no more turns than lines. *)
Definition getNextSrec (lines : list (list ascii)) : Z -> Z -> M SRec DQErr unit := nextSrec lines (S (length lines)).
