(* ===== verification/Simulator.v ===== *)
(** * The text of the simulator as instructions (src/dqr.cpp)

    [class Simulator]: the instructions of all cores in the order of their lines, with
    the flags that the next line of the same core tells. *)

From stdpp Require Import strings.
From Stdlib Require Import Ascii.
From Stdlib Require String.
From S2P Require Import Prelude Nexus Analytics Counts Decode Memory NextAddr NextInstr ObjDump ObjCode Symbols SrcFiles ElfFile.
From S2P Require Import Cycles Disasm CText PropFile Settings Maps BranchFlags SimLines.

(** ** The state *)

Record Simulator := {
  si_status : DQErr;
  si_archSize : Z;
  si_lines : list (list ascii);
  si_nextLine : Z;
  si_haveLookaheadSrec : bool;
  si_lookaheadSrec : SRec;
  si_info : Listed;
  si_elfReader : option ElfFile;
  si_disassembler : option Disassembler;
  si_cutPath : option (list ascii);
  si_newRoot : option (list ascii);
  si_currentTime : list Z;
  si_enterISR : list Z;
}.
Definition set_si_status e (s : Simulator) : Simulator := {|
  si_status := e; si_archSize := si_archSize s; si_lines := si_lines s; si_nextLine := si_nextLine s;
  si_haveLookaheadSrec := si_haveLookaheadSrec s; si_lookaheadSrec := si_lookaheadSrec s; si_info := si_info s;
  si_elfReader := si_elfReader s; si_disassembler := si_disassembler s; si_cutPath := si_cutPath s; si_newRoot := si_newRoot s;
  si_currentTime := si_currentTime s; si_enterISR := si_enterISR s |}.
Definition set_nextLine l (s : Simulator) : Simulator := {|
  si_status := si_status s; si_archSize := si_archSize s; si_lines := si_lines s; si_nextLine := l;
  si_haveLookaheadSrec := si_haveLookaheadSrec s; si_lookaheadSrec := si_lookaheadSrec s; si_info := si_info s;
  si_elfReader := si_elfReader s; si_disassembler := si_disassembler s; si_cutPath := si_cutPath s; si_newRoot := si_newRoot s;
  si_currentTime := si_currentTime s; si_enterISR := si_enterISR s |}.
Definition set_lookaheadSrec b r (s : Simulator) : Simulator := {|
  si_status := si_status s; si_archSize := si_archSize s; si_lines := si_lines s; si_nextLine := si_nextLine s;
  si_haveLookaheadSrec := b; si_lookaheadSrec := r; si_info := si_info s;
  si_elfReader := si_elfReader s; si_disassembler := si_disassembler s; si_cutPath := si_cutPath s; si_newRoot := si_newRoot s;
  si_currentTime := si_currentTime s; si_enterISR := si_enterISR s |}.
Definition set_si_info i (s : Simulator) : Simulator := {|
  si_status := si_status s; si_archSize := si_archSize s; si_lines := si_lines s; si_nextLine := si_nextLine s;
  si_haveLookaheadSrec := si_haveLookaheadSrec s; si_lookaheadSrec := si_lookaheadSrec s; si_info := i;
  si_elfReader := si_elfReader s; si_disassembler := si_disassembler s; si_cutPath := si_cutPath s; si_newRoot := si_newRoot s;
  si_currentTime := si_currentTime s; si_enterISR := si_enterISR s |}.
Definition set_si_disassembler d (s : Simulator) : Simulator := {|
  si_status := si_status s; si_archSize := si_archSize s; si_lines := si_lines s; si_nextLine := si_nextLine s;
  si_haveLookaheadSrec := si_haveLookaheadSrec s; si_lookaheadSrec := si_lookaheadSrec s; si_info := si_info s;
  si_elfReader := si_elfReader s; si_disassembler := d; si_cutPath := si_cutPath s; si_newRoot := si_newRoot s;
  si_currentTime := si_currentTime s; si_enterISR := si_enterISR s |}.
Definition set_roots c r (s : Simulator) : Simulator := {|
  si_status := si_status s; si_archSize := si_archSize s; si_lines := si_lines s; si_nextLine := si_nextLine s;
  si_haveLookaheadSrec := si_haveLookaheadSrec s; si_lookaheadSrec := si_lookaheadSrec s; si_info := si_info s;
  si_elfReader := si_elfReader s; si_disassembler := si_disassembler s; si_cutPath := c; si_newRoot := r;
  si_currentTime := si_currentTime s; si_enterISR := si_enterISR s |}.
Definition set_si_cores time isr (s : Simulator) : Simulator := {|
  si_status := si_status s; si_archSize := si_archSize s; si_lines := si_lines s; si_nextLine := si_nextLine s;
  si_haveLookaheadSrec := si_haveLookaheadSrec s; si_lookaheadSrec := si_lookaheadSrec s; si_info := si_info s;
  si_elfReader := si_elfReader s; si_disassembler := si_disassembler s; si_cutPath := si_cutPath s; si_newRoot := si_newRoot s;
  si_currentTime := time; si_enterISR := isr |}.

#[local] Abbreviation SM := (M Simulator DQErr).

Definition simFails {A} (e : DQErr) : SM A := modify (set_si_status e) ≫= fun _ => throw e.

Definition Simulator_getTraceFileOffset : SM (Z * Z) := gets (fun s => (Z.of_nat (length (si_lines s)), si_nextLine s)).

Definition Simulator_subSrcPath (cutPath newRoot : option (list ascii)) : SM unit := fun s =>
  let s := set_roots cutPath newRoot s in
  match si_disassembler s with
  | Some d =>
      match Disassembler_subSrcPath cutPath newRoot d with
      | Ok d _ => Ok (set_si_status DQERR_OK (set_si_disassembler (Some d) s)) tt
      | Err d e => Err (set_si_status e (set_si_disassembler (Some d) s)) e
      | Undef => Undef
      | NoFuel => NoFuel
      end
  | None => simFails DQERR_ERR s
  end.

(** ** The records of the next instruction *)

(** Whether the loops of [NextInstruction] read on. *)
Definition otherLine (r : SRec) : bool := negb (sr_validLine r) || (sr_valid r =? 0) || sr_haveFRF r || sr_haveVRF r.

(** [do getNextSrec while the record is not of an instruction]: the line that is read next, and the
    record. *)
Fixpoint untilInst (lines : list (list ascii)) (fuel : nat) (core : Z) : M (Z * SRec) DQErr unit := fun '(l, r) =>
  match fuel with
  | O => NoFuel
  | S fuel =>
      match getNextSrec lines l core r with
      | Ok r _ => let s := (i32 (sr_line r + 1), r) in if otherLine r then untilInst lines fuel core s else Ok s tt
      | Err r e => Err (l, r) e
      | Undef => Undef
      | NoFuel => NoFuel
      end
  end.
Definition findInst (lines : list (list ascii)) : Z -> M (Z * SRec) DQErr unit := untilInst lines (S (length lines)).

(** The record of the next line of an instruction; [uninit] is what the local variable has. *)
Definition nextInst (uninit : SRec) : SM SRec := fun s =>
  if si_haveLookaheadSrec s && (si_nextLine s =? sr_line (si_lookaheadSrec s))
  then Ok (set_nextLine (i32 (sr_line (si_lookaheadSrec s) + 1)) s) (si_lookaheadSrec s)
  else
    match findInst (si_lines s) (-1) (si_nextLine s, uninit) with
    | Ok (l, r) _ => Ok (set_nextLine l s) r
    | Err (l, _) e => Err (set_nextLine l s) e
    | Undef => Undef
    | NoFuel => NoFuel
    end.
(** The address of the one after it of the same core, or 0 if there is none: any error is the
    end of the file. *)
Definition Simulator_lookAhead (core : Z) : SM Z := fun s =>
  match findInst (si_lines s) core (si_nextLine s, si_lookaheadSrec s) with
  | Ok (_, r) _ => Ok (set_lookaheadSrec true r s) (sr_pc r)
  | Err (_, r) _ => Ok (set_lookaheadSrec false r s) 0
  | Undef => Undef
  | NoFuel => NoFuel
  end.

(** ** The next instruction *)

Definition CAFLAG_NONE : Z := 0.

Section simulator.
Context (uninit : Inst) (uninitRec : SRec) (contents : list ascii -> option (list ascii)).

Definition Simulator_computeBranchFlags (core currentAddr currentInst nextAddr : Z) : SM (Z * BranchFlags) :=
  s ← get;
  isr ← lift_opt (si_enterISR s !! Z.to_nat core);
  let '(isr', res) := branchFlags uninit (si_archSize s) isr currentAddr currentInst nextAddr in
  modify (set_si_cores (si_currentTime s) (<[Z.to_nat core := isr']> (si_enterISR s))) ≫= fun _ =>
  match res with Some r => mret r | None => simFails DQERR_ERR end.

Definition Simulator_Disassemble (r : SRec) : SM unit := fun s =>
  match si_disassembler s with
  | None => simFails DQERR_ERR s
  | Some d =>
      match disassembleAt contents (sr_pc r) d with
      | Ok d _ =>
          let i := si_info s in
          Ok (set_si_info {|
                li_shown := ds_instruction d; li_source := ds_source d; li_coreId := sr_coreId r; li_CRFlag := li_CRFlag i;
                li_brFlags := li_brFlags i; li_timestamp := li_timestamp i; li_caFlags := li_caFlags i;
                li_pipeCycles := li_pipeCycles i; li_r0Val := li_r0Val i; li_r1Val := li_r1Val i; li_wVal := li_wVal i |}
              (set_si_disassembler (Some d) s)) tt
      | Err d _ => Err (set_si_status DQERR_ERR (set_si_disassembler (Some d) s)) DQERR_ERR
      | Undef => Undef
      | NoFuel => NoFuel
      end
  end.

Definition buildInstructionFromSrec (r : SRec) (br : BranchFlags) (cr : Z) : SM unit :=
  (fun s => asErr (Simulator_Disassemble r s)) ≫= fun _ =>
  s ← get;
  t ← lift_opt (si_currentTime s !! Z.to_nat (sr_coreId r));
  let i := si_info s in
  modify (set_si_info {|
    li_shown := li_shown i; li_source := li_source i; li_coreId := li_coreId i; li_CRFlag := cr; li_brFlags := br;
    li_timestamp := sr_cycles r; li_caFlags := CAFLAG_NONE; li_pipeCycles := if t =? 0 then 0 else u32 (u64 (sr_cycles r - t));
    li_r0Val := sr_r1Val r; li_r1Val := sr_r2Val r; li_wVal := sr_wVal r |}) ≫= fun _ =>
  modify (set_si_cores (<[Z.to_nat (sr_coreId r) := sr_cycles r]> (si_currentTime s)) (si_enterISR s)).

(** The code of the instruction is that of the line; a failure of its description is not looked
    at. *)
Definition Simulator_NextInstruction : SM Listed :=
  s ← get;
  if Z.of_nat (length (si_lines s)) <=? si_nextLine s then throw DQERR_EOF
  else
    r ← nextInst uninitRec;
    lookaheadPC ← Simulator_lookAhead (sr_coreId r);
    '(cr, br) ← Simulator_computeBranchFlags (sr_coreId r) (sr_pc r) (sr_inst r) lookaheadPC;
    (fun s => match buildInstructionFromSrec r br cr s with Err s _ => Ok s tt | res => res end) ≫= fun _ =>
    s ← get;
    mret (si_info s).

(** The other form of it: whether the caller wants the instruction and the source line, and the
    flags of what it gets. *)
Definition Simulator_NextInstructionFlags (wantInst wantSrc : bool) : SM (Listed * Z) :=
  i ← Simulator_NextInstruction;
  mret (i, Z.lor (if wantInst then TRACE_HAVE_INSTINFO else 0) (if wantSrc then TRACE_HAVE_SRCINFO else 0)).
End simulator.

(** ** The constructor *)

(** [start] is what the new object holds, and [garbage] what new parts of it do; the tool is named by
    the caller. What [seal] returns is not looked at. *)
Definition newSimulator `{!Qsort} (fuel : nat) (objdump : option (list ascii) -> list ascii -> ElfType -> Z -> Exec)
    (files : list ascii -> option (list ascii)) (garbage : Z * (Shown * SourceInfo)) (start : Simulator)
    (f_name e_name odExe : option (list ascii)) : Res unit DQErr Simulator :=
  match f_name with
  | None => Err tt DQERR_ERR
  | Some name =>
      match files name ≫= SimLines.readFile with
      | None => Err tt DQERR_ERR
      | Some lines =>
          match newElfReader fuel garbage.1 0 ((fun e => objdump odExe e elfType_32_little 0) <$> e_name) with
          | Ok f _ =>
              match seal f with
              | Ok f _ | Err f _ =>
                  match ef_symtab f, im_codeSectionLst (ef_image f) with
                  | Some t, _ :: _ =>
                      Ok tt {|
                        si_status := DQERR_OK; si_archSize := im_archSize (ef_image f); si_lines := lines; si_nextLine := 0;
                        si_haveLookaheadSrec := si_haveLookaheadSrec start; si_lookaheadSrec := si_lookaheadSrec start;
                        si_info := si_info start; si_elfReader := Some f;
                        si_disassembler := Some (newDisassembler garbage.2 t
                          (sectionsAt (im_store (ef_image f)) (im_codeSectionLst (ef_image f))));
                        si_cutPath := None; si_newRoot := None; si_currentTime := replicate 16 0; si_enterISR := replicate 16 0 |}
                  | _, _ => Err tt DQERR_ERR
                  end
              | Undef => Undef
              | NoFuel => NoFuel
              end
          | Err _ _ => Err tt DQERR_ERR
          | Undef => Undef
          | NoFuel => NoFuel
          end
      end
  end.
