(* ===== verification/SimRead.v ===== *)
(** * The lines of the simulator are read back

    What an ISA simulator prints: lines of instructions of several cores, of floating point and
    vector registers, and comments.  Each instruction line is read as the record that it was
    printed for, and the others are passed over.  A reader that is made from the text
    gives the runs of the cores. *)

From stdpp Require Import strings.
From Stdlib Require Import Ascii.
From Stdlib Require String.
From S2P Require Import Prelude Nexus Analytics Counts Decode Memory NextAddr Walk NextInstr ObjDump ObjDumpText ObjDumpPrint.
From S2P Require Import ObjDumpRead ObjCode Symbols SrcFiles ElfFile Cycles Disasm Described CText PropFile Settings Maps Configure.
From S2P Require Import Whole BranchFlags Listing SimLines Simulator.

(** ** Lines *)

(** A number with blanks in front, and its digits. *)
Record Num := { nm_pad : nat; nm_digits : nat; nm_value : Z }.
Definition numText (base : Z) (n : Num) : list ascii := replicate (nm_pad n) " "%char ++ writeDigits base (S (nm_digits n)) (nm_value n).
Definition num_ok (base : Z) (n : Num) : Prop := 0 <= nm_value n < base ^ Z.of_nat (S (nm_digits n)) /\ nm_value n < 2 ^ 64.

(** A register and its value. *)
Record Operand := { op_reg : Num; op_val : Num }.
Definition operandText (o : Operand) : list ascii :=
  "["%char :: "r"%char :: numText 10 (op_reg o) ++ "="%char :: numText 16 (op_val o) ++ ["]"%char].
Definition operand_ok (o : Operand) : Prop := num_ok 10 (op_reg o) /\ num_ok 16 (op_val o).

Record InstLine := {
  il_core : Num;
  il_cycles : Num;
  il_valid : bool;
  il_pc : Num;
  il_write : Operand;
  il_wvf : bool;
  il_read1 : Operand;
  il_read2 : Operand;
  il_inst : Num;
  il_dasm : Num;
}.
Inductive SimLine :=
| SL_comment (text : list ascii)
| SL_inst (x : InstLine)
| SL_frf (core cycles reg addr : Num)
| SL_vrf (core cycles reg : Num) (value mask : list ascii).

Definition flagChar (b : bool) : ascii := if b then "1"%char else "0"%char.
Definition startText (core cycles : Num) : list ascii := "C"%char :: numText 10 core ++ ":"%char :: numText 10 cycles ++ [" "%char].
Definition instText (x : InstLine) : list ascii :=
  startText (il_core x) (il_cycles x) ++ "["%char :: flagChar (il_valid x) :: "]"%char :: " "%char :: chars "pc=[" ++ numText 16 (il_pc x) ++
  "]"%char :: " "%char :: "W"%char :: operandText (il_write x) ++ "["%char :: flagChar (il_wvf x) :: "]"%char :: " "%char :: "R"%char ::
  operandText (il_read1 x) ++ " "%char :: "R"%char :: operandText (il_read2 x) ++ " "%char :: chars "inst=[" ++ numText 16 (il_inst x) ++
  "]"%char :: " "%char :: chars "DASM(" ++ numText 16 (il_dasm x) ++ [")"%char].
Definition lineText (x : SimLine) : list ascii :=
  match x with
  | SL_comment text => text
  | SL_inst x => instText x
  | SL_frf core cycles reg addr =>
      startText core cycles ++ chars "frf[" ++ numText 16 reg ++ "]"%char :: "="%char :: "["%char :: numText 16 addr ++ ["]"%char]
  | SL_vrf core cycles reg value mask =>
      startText core cycles ++ chars "vrf[" ++ numText 16 reg ++ "]"%char :: "="%char :: "["%char :: value ++ "]"%char :: "["%char :: mask ++ ["]"%char]
  end.

(** A comment starts with another character than C, or what follows the C is no number. *)
Definition endsBlanks (P : ascii -> Prop) (t : list ascii) : Prop := exists n c t', t = replicate n " "%char ++ c :: t' /\ c <> " "%char /\ P c.
Definition comment_ok (text : list ascii) : Prop :=
  endsBlanks (fun c => c <> "C"%char) (text ++ [NUL]) \/
  exists n t, text = replicate n " "%char ++ "C"%char :: t /\ endsBlanks (fun c => isdigit c = false) (t ++ [NUL]).
Definition inst_ok (x : InstLine) : Prop :=
  num_ok 10 (il_core x) /\ num_ok 10 (il_cycles x) /\ num_ok 16 (il_pc x) /\ operand_ok (il_write x) /\ operand_ok (il_read1 x) /\
  operand_ok (il_read2 x) /\ num_ok 16 (il_inst x) /\ num_ok 16 (il_dasm x).
Definition noBracket (c : ascii) : Prop := c <> "]"%char /\ c <> NUL.
Definition line_ok (x : SimLine) : Prop :=
  match x with
  | SL_comment text => comment_ok text
  | SL_inst x => inst_ok x
  | SL_frf core cycles reg addr => num_ok 10 core /\ num_ok 10 cycles /\ num_ok 16 reg /\ num_ok 16 addr
  | SL_vrf core cycles reg value mask => num_ok 10 core /\ num_ok 10 cycles /\ num_ok 16 reg /\ Forall noBracket value /\ Forall noBracket mask
  end.

(** The record of a line: what is not in it is kept. *)
Definition regOf (o : Operand) : Z := i32 (u32 (nm_value (op_reg o))).
Definition valOf (o : Operand) : Z := u32 (nm_value (op_val o)).
Definition coreOf (x : InstLine) : Z := u8 (nm_value (il_core x)).
Definition recordOf (l : Z) (x : InstLine) (frfAddr : Z) : SRec := {|
  sr_validLine := true; sr_line := l; sr_coreId := coreOf x; sr_cycles := u32 (nm_value (il_cycles x));
  sr_valid := if il_valid x then 1 else 0; sr_haveFRF := false; sr_haveVRF := false; sr_frfAddr := frfAddr; sr_pc := nm_value (il_pc x);
  sr_wvf := il_wvf x; sr_wReg := regOf (il_write x); sr_wVal := valOf (il_write x); sr_r1Reg := regOf (il_read1 x);
  sr_r2Reg := regOf (il_read2 x); sr_r1Val := valOf (il_read1 x); sr_r2Val := valOf (il_read2 x); sr_inst := u32 (nm_value (il_inst x));
  sr_dasm := u32 (nm_value (il_dasm x)) |}.

(** ** Reading the pieces *)

#[local] Abbreviation PM := (M (SRec * list ascii) DQErr).

Section pieces.
Context {A : Type}.
Implicit Types (r : SRec) (t : list ascii).

Lemma skip_step n (k : unit -> PM A) r t : (skipText n ≫= k) (r, t) = k tt (r, drop n t).
Proof. done. Qed.
Lemma upd_step f (k : unit -> PM A) r t : (upd_rec f ≫= k) (r, t) = k tt (f r, t).
Proof. done. Qed.
Lemma rec_step (k : SRec -> PM A) r t : (rec ≫= k) (r, t) = k r (r, t).
Proof. done. Qed.
Lemma cur_step (k : ascii -> PM A) r c t : (curChar ≫= k) (r, c :: t) = k c (r, c :: t).
Proof. done. Qed.
Lemma expect_step x (k : unit -> PM A) r t : (expectChar x ≫= k) (r, x :: t) = k tt (r, t).
Proof. unfold expectChar. rewrite bind_assoc, cur_step, bool_decide_eq_true_2 by done. apply skip_step. Qed.

Lemma afterBlanks_ok n c t : c <> " "%char -> afterBlanks (replicate n " "%char ++ c :: t) = Some (c :: t).
Proof. intros Hc. induction n as [|n IH]; cbn [replicate app afterBlanks]; [by rewrite bool_decide_eq_false_2|done]. Qed.
Lemma blanks_step n c (k : unit -> PM A) r t : c <> " "%char -> (blanks ≫= k) (r, replicate n " "%char ++ c :: t) = k tt (r, c :: t).
Proof. intros Hc. unfold blanks. rewrite bind_assoc, bind_get, bind_assoc, afterBlanks_ok by done. done. Qed.
Lemma blanks0 c (k : unit -> PM A) r t : c <> " "%char -> (blanks ≫= k) (r, c :: t) = k tt (r, c :: t).
Proof. apply (blanks_step 0). Qed.
Lemma blanks1 c (k : unit -> PM A) r t : c <> " "%char -> (blanks ≫= k) (r, " "%char :: c :: t) = k tt (r, c :: t).
Proof. apply (blanks_step 1). Qed.

Lemma startsWith_app s t : startsWith s (s ++ t) = Some true.
Proof. induction s as [|c s IH]; [done|]. cbn. by rewrite bool_decide_eq_true_2. Qed.
Lemma expectText_step s (k : unit -> PM A) r t : (expectText s ≫= k) (r, s ++ t) = k tt (r, t).
Proof.
  unfold expectText, looking. rewrite !bind_assoc, bind_get, startsWith_app, lift_bind, skip_step. by rewrite drop_app_length.
Qed.
Lemma expectText_cons c s (k : unit -> PM A) r t : (expectText (c :: s) ≫= k) (r, c :: s ++ t) = k tt (r, t).
Proof. apply (expectText_step (c :: s)). Qed.
Lemma looking_yes s (k : bool -> PM A) r t : (looking s ≫= k) (r, s ++ t) = k true (r, s ++ t).
Proof. unfold looking. by rewrite bind_assoc, bind_get, startsWith_app, lift_bind. Qed.
Lemma looking_no c s (k : bool -> PM A) r x t : x <> c -> (looking (c :: s) ≫= k) (r, x :: t) = k false (r, x :: t).
Proof. intros Hx. unfold looking. rewrite bind_assoc, bind_get. cbn [startsWith]. by rewrite bool_decide_eq_false_2. Qed.

Lemma flag_step b put (k : unit -> PM A) r t : (readFlag put ≫= k) (r, flagChar b :: t) = k tt (put (if b then 1 else 0) r, t).
Proof. unfold readFlag. rewrite bind_assoc, cur_step. by destruct b. Qed.

Lemma toBracket_ok l t : Forall noBracket l -> toBracket (l ++ "]"%char :: t) = Some ("]"%char :: t).
Proof. induction 1 as [|c l [H1 H2] Hl IH]; [done|]. cbn. by rewrite !bool_decide_eq_false_2. Qed.
Lemma bracketed_step l (k : unit -> PM A) r t : Forall noBracket l -> (bracketed ≫= k) (r, l ++ "]"%char :: t) = k tt (r, t).
Proof.
  intros Hl. unfold bracketed. rewrite bind_assoc, bind_get, !bind_assoc, toBracket_ok by done. rewrite lift_bind, bind_assoc, bind_modify.
  apply expect_step.
Qed.
End pieces.

(** ** Numbers *)

Lemma spaces_pad n l : spaces l = 0%nat -> spaces (replicate n " "%char ++ l) = n.
Proof. intros Hl. induction n as [|n IH]; [done|]. cbn. by rewrite IH. Qed.
Lemma scanNumber_pad base n l : spaces l = 0%nat ->
  scanNumber base (replicate n " "%char ++ l) = let '(neg, v, m) := scanNumber base l in (neg, v, if (m =? 0)%nat then 0%nat else (n + m)%nat).
Proof.
  intros Hl. assert (forall k, drop (n + k) (replicate n " "%char ++ l) = drop k l) as Hdrop
    by (intros k; rewrite <-drop_drop, drop_app_length' by (by rewrite length_replicate); done).
  unfold scanNumber. rewrite (spaces_pad n l Hl), Hl. rewrite <-(Nat.add_0_r n) at 1. rewrite Hdrop. destruct (sign (drop 0 l)) as [neg s].
  rewrite Hdrop. cbn [Nat.add]. destruct (basePrefix base (drop s l)) as [b p]. rewrite <-Nat.add_assoc, Hdrop.
  destruct (digits b (drop (s + p) l) 0) as [v m].
  destruct (Nat.eqb_spec m 0) as [->|Hm]; [done|]. destruct (Nat.eqb_spec (s + p + m) 0); [lia|]. f_equal. lia.
Qed.

Definition numStop (base : Z) (c : ascii) : Prop := digitIn base c = None /\ c <> "x"%char /\ c <> "X"%char.

Lemma writeDigits_start base n x t : base = 10 \/ base = 16 -> 0 <= x < base ^ Z.of_nat (S n) -> exists c l,
  writeDigits base (S n) x ++ t = c :: l /\ isspace c = false /\ sign (c :: l) = (false, 0%nat) /\ c <> " "%char /\ (base = 10 -> isdigit c = true).
Proof.
  intros Hb Hx. assert (0 < base ^ Z.of_nat n) as Hpos by (apply Z.pow_pos_nonneg; lia).
  assert (0 <= x / base ^ Z.of_nat n < base) as Hd.
  { rewrite Nat2Z.inj_succ, Z.pow_succ_r in Hx by lia. split; [apply Z.div_pos; lia|apply Z.div_lt_upper_bound; lia]. }
  destruct (writeDigits_head base n x ltac:(lia) Hx) as (t' & E & _). rewrite E. eexists _, _. split; [done|].
  destruct (digitChar_cases (x / base ^ Z.of_nat n) ltac:(lia)) as (k & Ek & Hk). rewrite Ek in Hd |- *.
  do 16 (destruct k as [|k]; [split_and!; try done; intros ->; lia|]). lia.
Qed.

Lemma numText_start n t : num_ok 10 n -> exists c l, writeDigits 10 (S (nm_digits n)) (nm_value n) ++ t = c :: l /\ c <> " "%char /\ isdigit c = true.
Proof.
  intros [Hv _]. destruct (writeDigits_start 10 (nm_digits n) (nm_value n) t ltac:(by left) Hv) as (c & l & E & _ & _ & Hc & Hd).
  exists c, l. split_and!; auto.
Qed.

Lemma strtoulAt_num base n c t : base = 10 \/ base = 16 -> num_ok base n -> numStop base c ->
  strtoulAt base (numText base n ++ c :: t) = Some (nm_value n, length (numText base n)).
Proof.
  intros Hb [Hv H64] (Hs & Hx & HX). unfold strtoulAt, numText, strtoul.
  destruct (writeDigits_start base (nm_digits n) (nm_value n) (c :: t) Hb Hv) as (c1 & l1 & E & Hsp & Hsign & _).
  rewrite <-app_assoc. assert (spaces (writeDigits base (S (nm_digits n)) (nm_value n) ++ c :: t) = 0%nat) as H0 by (rewrite E; cbn; by rewrite Hsp).
  rewrite (spaces_pad _ _ H0), drop_app_length' by (by rewrite length_replicate). rewrite (scanNumber_pad _ _ _ H0).
  rewrite scanNumber_base by (try done; congruence). rewrite E, Hsign. cbn [Nat.eqb snd].
  destruct (Z.ltb_spec (nm_value n) (2 ^ 64)); [|lia]. rewrite u64_small by lia. rewrite <-E.
  assert (length (replicate (nm_pad n) " "%char ++ writeDigits base (S (nm_digits n)) (nm_value n)) = (nm_pad n + S (nm_digits n))%nat) as ->
    by (by rewrite length_app, length_replicate, writeDigits_length).
  rewrite Nat.add_0_r, drop_app_length' by (by rewrite length_replicate). rewrite !length_app, length_replicate, writeDigits_length. cbn [length].
  destruct (Nat.leb_spec (nm_pad n + (S (nm_digits n) + S (length t))) (Nat.max (nm_pad n) (nm_pad n + S (nm_digits n)))); [lia|]. cbn [orb].
  assert (only0x base (writeDigits base (S (nm_digits n)) (nm_value n) ++ c :: t) = false) as ->; [|done].
  pose proof (writeDigits_length base (S (nm_digits n)) (nm_value n)) as Hlen.
  destruct (writeDigits base (S (nm_digits n)) (nm_value n)) as [|d1 [|d2 l]]; [done| |]; cbn [app only0x].
  - destruct d1 as [[] [] [] [] [] [] [] []], t; try done. rewrite !bool_decide_eq_false_2 by done. apply andb_false_r.
  - destruct d1 as [[] [] [] [] [] [] [] []], l; done.
Qed.

Section readNumber.
Context {A : Type}.

Lemma number_step base put n (k : Z -> PM A) r c t : base = 10 \/ base = 16 -> num_ok base n -> numStop base c ->
  (readNumber base put ≫= k) (r, numText base n ++ c :: t) = k (nm_value n) (put (nm_value n) r, c :: t).
Proof.
  intros Hb Hn Hc. unfold readNumber. rewrite bind_assoc, bind_get, bind_assoc, strtoulAt_num by done. rewrite lift_bind, bind_assoc, upd_step.
  assert (length (numText base n) <> 0)%nat as H0 by (unfold numText; rewrite length_app, writeDigits_length; lia).
  destruct (Nat.eqb_spec (length (numText base n)) 0); [done|]. rewrite bind_assoc, skip_step, ret_bind. by rewrite drop_app_length.
Qed.
End readNumber.

(** ** Lines of each kind *)

(** One step of the parser on the text that is there. *)
Ltac stops := by split_and!.
Ltac step :=
  rewrite ?bind_assoc;
  first [rewrite expect_step | rewrite flag_step | rewrite upd_step | rewrite rec_step | rewrite cur_step | rewrite expectText_cons
    | rewrite blanks0 by done | rewrite blanks1 by done | rewrite ret_bind
    | rewrite number_step; [|by (left + right)|assumption|stops]
    | rewrite bracketed_step by assumption
    | rewrite skip_step; cbn [drop]; rewrite ?drop_0].

Section lines.
Context {A : Type}.

Lemma write_step o b n (k : Z -> PM A) r t : operand_ok o ->
  (parseOperand n ≫= k) (r, " "%char :: "W"%char :: operandText o ++ "["%char :: flagChar b :: "]"%char :: t) =
  k n (set_wvf b (set_write (regOf o) (valOf o) r), t).
Proof.
  intros [H1 H2]. unfold parseOperand, operandText. cbn [app]. rewrite <-app_assoc. cbn [app]. rewrite <-app_assoc. cbn [app].
  do 2 step. rewrite (bool_decide_eq_true_2 ("W"%char = "W"%char)) by done. rewrite (bool_decide_eq_false_2 ("W"%char = "R"%char)) by done.
  cbn [negb andb]. repeat step. by destruct b.
Qed.
Lemma read_step o n (k : Z -> PM A) r t : operand_ok o ->
  (parseOperand n ≫= k) (r, " "%char :: "R"%char :: operandText o ++ t) =
  k (n + 1) ((if n + 1 =? 1 then set_read1 (regOf o) (valOf o) else set_read2 (regOf o) (valOf o)) r, t).
Proof.
  intros [H1 H2]. unfold parseOperand, operandText. cbn [app]. rewrite <-app_assoc. cbn [app]. rewrite <-app_assoc. cbn [app].
  do 2 step. rewrite (bool_decide_eq_false_2 ("R"%char = "W"%char)) by done. rewrite (bool_decide_eq_true_2 ("R"%char = "R"%char)) by done.
  cbn [negb andb]. repeat step. done.
Qed.

Lemma lineEnd_step (k : unit -> PM A) r t : (lineEnd ≫= k) (r, NUL :: t) = k tt (r, NUL :: t).
Proof. unfold lineEnd. by repeat step. Qed.
End lines.

(** What comes before the record, and whether the line is of another core. *)
Lemma start_read core want cycles r c t : num_ok 10 core -> num_ok 10 cycles -> c <> " "%char ->
  exists t', parseText want (r, startText core cycles ++ c :: t) =
    (let r := set_coreId (u8 (nm_value core)) r in
     if negb (want =? -1) && negb (want =? u8 (nm_value core)) then Ok (r, t') tt
     else
       (vrf ← looking (chars "vrf");
        if vrf : bool then parseVrf else frf ← looking (chars "frf"); if frf : bool then parseFrf else parseInst)
       (set_cycles (u32 (nm_value cycles)) r, c :: t)).
Proof.
  intros Hcore Hcy Hc. unfold parseText, startText. cbn [app]. rewrite <-!app_assoc. cbn [app]. do 2 step.
  rewrite bool_decide_eq_true_2 by done. cbn [negb]. step. unfold numText at 1. rewrite <-app_assoc.
  destruct (numText_start core (":"%char :: (numText 10 cycles ++ [" "%char]) ++ c :: t) Hcore) as (d & l & E & Hd & Hdig).
  rewrite E, blanks_step, cur_step, Hdig by done. cbn [negb]. rewrite <-E.
  set (n0 := {| nm_pad := 0; nm_digits := nm_digits core; nm_value := nm_value core |}).
  change (writeDigits 10 (S (nm_digits core)) (nm_value core)) with (numText 10 n0). assert (num_ok 10 n0) as Hn0 by done.
  rewrite number_step; [|by left|done|stops]. step. cbn [sr_coreId set_coreId]. change (nm_value n0) with (nm_value core).
  eexists. destruct (negb (want =? -1) && negb (want =? u8 (nm_value core))); [done|].
  do 2 step. rewrite <-app_assoc. cbn [app]. step. by rewrite blanks1.
Qed.

(** A line of an instruction, of any core or of the right one. *)
Lemma inst_read want x l r t : inst_ok x -> want = -1 \/ want = coreOf x ->
  exists t', parseText want (startLine l r, instText x ++ NUL :: t) = Ok (recordOf l x (sr_frfAddr r), t') tt.
Proof.
  intros (H1 & H2 & H3 & H4 & H5 & H6 & H7 & H8) Hw. unfold instText. rewrite <-app_assoc. cbn [app].
  match goal with |- context [startText _ _ ++ "["%char :: ?y] => destruct (start_read (il_core x) want (il_cycles x) (startLine l r) "["%char y H1 H2 ltac:(done)) as [t' ->] end.
  cbn zeta. assert (negb (want =? -1) && negb (want =? u8 (nm_value (il_core x))) = false) as ->.
  { destruct Hw as [-> | ->]; [done|]. unfold coreOf. by rewrite Z.eqb_refl, andb_false_r. }
  change (chars "vrf") with ("v"%char :: chars "rf"). rewrite looking_no by done.
  change (chars "frf") with ("f"%char :: chars "rf"). rewrite looking_no by done.
  unfold parseInst. repeat (rewrite <-app_assoc; cbn [app]). change (chars "pc=[") with ("p"%char :: chars "c=[").
  change (chars "inst=[") with ("i"%char :: chars "nst=["). change (chars "DASM(") with ("D"%char :: chars "ASM(").
  cbn [app]. do 7 step. rewrite write_step by done. cbn [app]. rewrite !read_step by done. cbn [Z.add Z.eqb Pos.eqb Pos.add].
  do 9 step. rewrite lineEnd_step. eexists.
  reflexivity.
Qed.

(** A line of another core is passed over, before it is looked at. *)
Definition passedOver (r : SRec) : Prop := wantedLine r = false.

Lemma other_core want core cycles r c t : num_ok 10 core -> num_ok 10 cycles -> c <> " "%char -> want <> -1 -> want <> u8 (nm_value core) ->
  sr_validLine r = false -> exists s, parseText want (r, startText core cycles ++ c :: t) = Ok s tt /\ passedOver s.1.
Proof.
  intros H1 H2 Hc Hw Hw' Hr. destruct (start_read core want cycles r c t H1 H2 Hc) as [t' ->]. cbn zeta.
  destruct (Z.eqb_spec want (-1)), (Z.eqb_spec want (u8 (nm_value core))); try done. eexists. split; [done|].
  unfold passedOver, wantedLine. cbn. by rewrite Hr.
Qed.

Lemma comment_read want text r t : comment_ok text -> sr_validLine r = false -> exists s, parseText want (r, text ++ NUL :: t) = Ok s tt /\ passedOver s.1.
Proof.
  intros H Hr. unfold parseText. replace (text ++ NUL :: t) with ((text ++ [NUL]) ++ t) by by rewrite <-app_assoc.
  assert (passedOver r) as Hp by (unfold passedOver, wantedLine; by rewrite Hr).
  destruct H as [(n & c & t' & -> & Hc & HC)|(n & t1 & -> & (m & c & t' & E & Hc & Hd))].
  - rewrite <-app_assoc. cbn [app]. rewrite blanks_step, cur_step, bool_decide_eq_false_2 by done. cbn [negb]. by eexists.
  - rewrite <-!app_assoc. cbn [app]. rewrite blanks_step, cur_step, bool_decide_eq_true_2 by done. cbn [negb]. step.
    change (t1 ++ NUL :: t) with (t1 ++ [NUL] ++ t). rewrite app_assoc, E, <-app_assoc. cbn [app]. rewrite blanks_step, cur_step, Hd by done. cbn [negb]. by eexists.
Qed.

Lemma frf_read want core cycles reg addr r t : line_ok (SL_frf core cycles reg addr) -> sr_validLine r = false -> sr_valid r = 0 ->
  exists s, parseText want (r, lineText (SL_frf core cycles reg addr) ++ NUL :: t) = Ok s tt /\ passedOver s.1.
Proof.
  intros (H1 & H2 & H3 & H4) Hr Hr0. cbn [lineText]. change (chars "frf[") with ("f"%char :: chars "rf["). cbn [app]. rewrite <-app_assoc. cbn [app].
  match goal with |- context [startText _ _ ++ "f"%char :: ?y] => destruct (start_read core want cycles r "f"%char y H1 H2 ltac:(done)) as [t' ->] end.
  cbn zeta. destruct (_ && _); [eexists; split; [done|]; unfold passedOver, wantedLine; cbn; by rewrite Hr|].
  change (chars "vrf") with ("v"%char :: chars "rf"). rewrite looking_no by done.
  change (chars "rf[") with (chars "rf" ++ ["["%char]). repeat (rewrite <-app_assoc; cbn [app]).
  change ("f"%char :: chars "rf" ++ ?l) with (chars "frf" ++ l). rewrite looking_yes. unfold parseFrf. step. change (drop 3 (chars "frf" ++ ?l)) with l.
  repeat step. rewrite lineEnd_step. eexists. split; [done|]. unfold passedOver, wantedLine. cbn. by rewrite Hr0.
Qed.
Lemma vrf_read want core cycles reg v m r t : line_ok (SL_vrf core cycles reg v m) -> sr_validLine r = false -> sr_valid r = 0 ->
  exists s, parseText want (r, lineText (SL_vrf core cycles reg v m) ++ NUL :: t) = Ok s tt /\ passedOver s.1.
Proof.
  intros (H1 & H2 & H3 & H4 & H5) Hr Hr0. cbn [lineText]. change (chars "vrf[") with ("v"%char :: chars "rf["). cbn [app]. rewrite <-app_assoc. cbn [app].
  match goal with |- context [startText _ _ ++ "v"%char :: ?y] => destruct (start_read core want cycles r "v"%char y H1 H2 ltac:(done)) as [t' ->] end.
  cbn zeta. destruct (_ && _); [eexists; split; [done|]; unfold passedOver, wantedLine; cbn; by rewrite Hr|].
  change (chars "rf[") with (chars "rf" ++ ["["%char]). repeat (rewrite <-app_assoc; cbn [app]).
  change ("v"%char :: chars "rf" ++ ?l) with (chars "vrf" ++ l). rewrite looking_yes. unfold parseVrf. step. change (drop 3 (chars "vrf" ++ ?l)) with l.
  repeat step. rewrite lineEnd_step. eexists. split; [done|]. unfold passedOver, wantedLine. cbn. by rewrite Hr0.
Qed.

(** ** Finding lines of instructions *)

(** The lines that are listed: their numbers, and what was printed. *)
Fixpoint listedLines (l : Z) (L : list SimLine) : list (Z * InstLine) :=
  match L with
  | [] => []
  | SL_inst x :: L => if il_valid x then (l, x) :: listedLines (l + 1) L else listedLines (l + 1) L
  | _ :: L => listedLines (l + 1) L
  end.
Definition ofCore (k : Z) (xs : list (Z * InstLine)) : list (Z * InstLine) := base.filter (fun p => coreOf p.2 = k) xs.
(** Those of a core, or all of them for -1. *)
Definition matching (k : Z) (xs : list (Z * InstLine)) : list (Z * InstLine) := if decide (k = -1) then xs else ofCore k xs.

Lemma matching_nil k : matching k [] = [].
Proof. unfold matching. by destruct (decide _). Qed.

(** The text of a line, and what is in the buffer after it. *)
Definition holdsLine (x : SimLine) (t : list ascii) : Prop := exists rest, t = lineText x ++ NUL :: rest.

Lemma coreOf_bounds x : 0 <= coreOf x < 256.
Proof. apply u8_bounds. Qed.

(** A line is one that is found, or it is passed over. *)
Lemma line_read lines l k r x t : line_ok x -> 0 <= l -> lines !! Z.to_nat l = Some t -> holdsLine x t ->
  match matching k (listedLines l [x]) with
  | (_, y) :: _ => exists f, parseLine lines l k r = Ok (recordOf l y f) tt
  | [] => exists r', parseLine lines l k r = Ok r' tt /\ passedOver r'
  end.
Proof.
  intros Hx Hl Ht [rest ->]. unfold parseLine. rewrite Ht.
  assert (forall r1 text, (exists s, parseText k (r1, text) = Ok s tt /\ passedOver s.1) -> exists r', 
    match parseText k (r1, text) with
    | Ok (r, _) _ => Ok r tt
    | Err (r, _) e => Err r e
    | Undef => Undef
    | NoFuel => NoFuel
    end = (Ok r' tt : Res SRec DQErr unit) /\ passedOver r') as Hpass.
  { intros r1 text ([r' t'] & -> & Hr). by exists r'. }
  destruct x as [text|x|core cycles reg addr|core cycles reg v m]; cbn [listedLines].
  - rewrite matching_nil. apply Hpass. by apply comment_read.
  - unfold matching. cbn [lineText]. destruct (il_valid x) eqn:Ev.
    + destruct (decide (k = -1)) as [Hk|Hk]; [|unfold ofCore; rewrite list.filter_cons; cbn [snd]; destruct (decide (coreOf x = k)) as [E|E]].
      * destruct (inst_read k x l r rest Hx ltac:(by left)) as [t' ->]. by eexists.
      * destruct (inst_read k x l r rest Hx ltac:(by right)) as [t' ->]. by eexists.
      * cbn. apply Hpass. destruct Hx as (H1 & H2 & _). unfold instText. rewrite <-app_assoc. cbn [app].
        by apply other_core.
    + fold (matching k []). rewrite matching_nil. apply Hpass.
      destruct (decide (k = -1 \/ k = coreOf x)) as [Hk|Hk].
      * destruct (inst_read k x l r rest Hx Hk) as [t' ->]. eexists. split; [done|]. unfold passedOver, wantedLine. cbn. by rewrite Ev.
      * destruct Hx as (H1 & H2 & _). unfold instText. rewrite <-app_assoc. cbn [app].
        apply other_core; try done; intros ?; apply Hk; [by left|by right].
  - rewrite matching_nil. apply Hpass. by apply frf_read.
  - rewrite matching_nil. apply Hpass. by apply vrf_read.
Qed.

Lemma matching_cons k l x L : matching k (listedLines l (x :: L)) = matching k (listedLines l [x]) ++ matching k (listedLines (l + 1) L).
Proof.
  assert (listedLines l (x :: L) = listedLines l [x] ++ listedLines (l + 1) L) as ->
    by (destruct x as [|x| |]; try done; cbn; by destruct (il_valid x)).
  unfold matching, ofCore. destruct (decide (k = -1)); [done|]. by rewrite list.filter_app.
Qed.

(** From a line on, the first line that is looked for is found. *)
Lemma nextSrec_ok lines k L : Forall line_ok L -> forall n l r, 0 <= l -> Forall2 holdsLine L (drop (Z.to_nat l) lines) -> (length L < n)%nat ->
  match matching k (listedLines l L) with
  | (i, y) :: _ => exists f, nextSrec lines n l k r = Ok (recordOf i y f) tt /\ il_valid y = true
  | [] => exists r', nextSrec lines n l k r = Err r' DQERR_EOF
  end.
Proof.
  induction 1 as [|x L Hx HL IH]; intros n l r Hl HH Hn; destruct n as [|n]; cbn [length] in Hn; try lia; cbn [nextSrec].
  - cbn [listedLines]. rewrite matching_nil.
    apply Forall2_nil_inv_l in HH. exists r. unfold parseLine. erewrite bind_err; [done|].
    assert (lines !! Z.to_nat l = None) as ->; [|done]. apply lookup_ge_None_2. by apply skipn_all_iff.
  - destruct (drop (Z.to_nat l) lines) as [|t ls] eqn:E; [by inversion HH|]. apply list.Forall2_cons in HH as [Ht HH].
    assert (lines !! Z.to_nat l = Some t) as Elook.
    { rewrite <-(Nat.add_0_r (Z.to_nat l)), <-lookup_drop, E. done. }
    assert (drop (Z.to_nat (l + 1)) lines = ls) as Els.
    { replace (Z.to_nat (l + 1)) with (Z.to_nat l + 1)%nat by lia. by rewrite <-drop_drop, E. }
    pose proof (line_read lines l k r x t Hx Hl Elook Ht) as H1. rewrite matching_cons.
    destruct (matching k (listedLines l [x])) as [|[i y] l1] eqn:Em; cbn [app].
    + destruct H1 as (r' & E1 & Hp). rewrite (bind_ok _ _ _ _ _ E1), bind_get. unfold passedOver in Hp. rewrite Hp.
      apply IH; [lia|by rewrite Els|lia].
    + destruct H1 as (f & E1). exists f. assert (i = l /\ il_valid y = true) as [-> Hv].
      { assert ((i, y) ∈ matching k (listedLines l [x])) as Hin by (rewrite Em; apply list_elem_of_here).
        assert ((i, y) ∈ listedLines l [x]) as Hin2.
        { unfold matching in Hin. destruct (decide (k = -1)); [done|]. by apply list_elem_of_filter in Hin as [_ ?]. }
        destruct x as [|x0| |]; cbn in Hin2; try (by apply elem_of_nil in Hin2). destruct (il_valid x0) eqn:Ev; [|by apply elem_of_nil in Hin2].
        apply list_elem_of_singleton in Hin2. by simplify_eq. }
      split; [|done]. rewrite (bind_ok _ _ _ _ _ E1), bind_get. unfold wantedLine. cbn. by rewrite Hv.
Qed.

(** ** Files of lines *)

Definition unbroken (c : ascii) : Prop := c <> CR /\ c <> LF.
(** Lines that end in LF or CR LF. *)
Definition eolText (cr : bool) : list ascii := (if cr then [CR] else []) ++ [LF].
Definition simText (L : list (SimLine * bool)) : list ascii := concat ((fun p => lineText p.1 ++ eolText p.2) <$> L).

(** The lines that the file is read as: its first character is not looked at, so that an instruction
    in the first line is a comment, and an empty first line may be no line at all. *)
Definition asRead (L : list (SimLine * bool)) : list (SimLine * bool) :=
  match L with
  | [] => []
  | (x, cr) :: L => match lineText x with _ :: t => (SL_comment t, cr) :: L | [] => if cr : bool then (SL_comment [], false) :: L else L end
  end.
Lemma tail_asRead L : tail (simText L) = simText (asRead L).
Proof. destruct L as [|[x cr] L]; [done|]. unfold simText. cbn. by destruct (lineText x), cr. Qed.
Lemma asRead_length L : (length (asRead L) <= length L)%nat.
Proof. destruct L as [|[x cr] L]; [done|]. cbn. destruct (lineText x), cr; cbn; lia. Qed.

(** A first line that is a comment is still one without its first character. *)
Definition first_ok (L : list (SimLine * bool)) : Prop := match L with (SL_comment (_ :: t), _) :: _ => comment_ok t | _ => True end.
Lemma no_text_ok : comment_ok [].
Proof. left. by exists 0%nat, NUL, []. Qed.
Lemma start_rest core t : num_ok 10 core -> comment_ok (numText 10 core ++ t).
Proof.
  intros H. left. unfold numText. rewrite <-!app_assoc. destruct (numText_start core (t ++ [NUL]) H) as (c & l & -> & Hc & Hd).
  exists (nm_pad core), c, l. split; [done|]. split; [done|]. by intros ->.
Qed.
Lemma asRead_ok L : Forall line_ok L.*1 -> first_ok L -> Forall line_ok (asRead L).*1.
Proof.
  destruct L as [|[x cr] L]; [done|]. cbn [fmap list_fmap fst first_ok asRead]. intros [Hx HL]%list.Forall_cons Hf.
  assert (match lineText x with _ :: t => comment_ok t | [] => True end) as Ht.
  { destruct x as [[|c t]|x|core cycles reg addr|core cycles reg v m]; cbn [lineText line_ok] in *; try done.
    - unfold instText, startText. cbn [app]. rewrite <-!app_assoc. by apply start_rest, Hx.
    - unfold startText. cbn [app]. rewrite <-!app_assoc. by apply start_rest, Hx.
    - unfold startText. cbn [app]. rewrite <-!app_assoc. by apply start_rest, Hx. }
  destruct (lineText x), cr; cbn; try done; constructor; try done; apply no_text_ok.
Qed.

(** What is printed in a line can be anything but a line break. *)
Definition free_ok (x : SimLine) : Prop :=
  match x with SL_comment text => Forall unbroken text | SL_vrf _ _ _ v m => Forall unbroken v /\ Forall unbroken m | _ => True end.

Lemma digitChar_unbroken d : 0 <= d < 16 -> unbroken (digitChar false d).
Proof. intros (n & -> & Hn)%digitChar_cases. do 16 (destruct n as [|n]; [by split|]). lia. Qed.
Lemma writeDigits_unbroken base n x : 0 < base <= 16 -> Forall unbroken (writeDigits base n x).
Proof.
  intros Hb. revert x. induction n as [|n IH]; intros x; cbn [writeDigits]; [constructor|]. apply list.Forall_app. split; [done|].
  apply list.Forall_singleton, digitChar_unbroken. pose proof (Z.mod_pos_bound x base ltac:(lia)). lia.
Qed.
Lemma numText_unbroken base n : 0 < base <= 16 -> Forall unbroken (numText base n).
Proof. intros Hb. apply list.Forall_app. split; [|by apply writeDigits_unbroken]. by apply Forall_replicate. Qed.

Lemma flagChar_unbroken b : unbroken (flagChar b).
Proof. by destruct b. Qed.

Ltac unbroken := repeat first [
  apply numText_unbroken; lia | done | apply list.Forall_app; split | apply List.Forall_cons; [first [apply flagChar_unbroken | by split]|]].

Lemma lineText_unbroken x : free_ok x -> Forall unbroken (lineText x).
Proof.
  intros Hx. assert (Forall unbroken (chars "pc=[") /\ Forall unbroken (chars "inst=[") /\ Forall unbroken (chars "DASM(") /\
    Forall unbroken (chars "frf[") /\ Forall unbroken (chars "vrf[")) as (H1 & H2 & H3 & H4 & H5) by (split_and!; cbn; unbroken).
  destruct x as [text|x|core cycles reg addr|core cycles reg v m]; cbn [lineText]; [done|unfold instText, operandText, startText..].
  3: destruct Hx as [Hv Hm].
  all: unfold startText; unbroken.
Qed.

Lemma asNul_unbroken l : Forall unbroken l -> asNul <$> l = l.
Proof.
  induction 1 as [|c l [H1 H2] Hl IH]; [done|]. cbn. rewrite IH. unfold asNul. by rewrite !bool_decide_eq_false_2.
Qed.

Lemma lineTexts_false text cr rest : Forall unbroken text -> lineTexts false (text ++ eolText cr ++ rest) = lineTexts true rest.
Proof.
  induction 1 as [|c l [H1 H2] Hl IH]; [by destruct cr|]. cbn [app lineTexts]. by rewrite bool_decide_eq_false_2.
Qed.
Lemma lineTexts_line text cr rest : Forall unbroken text -> exists rest',
  lineTexts true (text ++ eolText cr ++ rest) = (text ++ NUL :: rest') :: lineTexts true rest.
Proof.
  intros Ht. assert (exists rest', asNul <$> (text ++ eolText cr ++ rest) = text ++ NUL :: rest') as [rest' E].
  { rewrite !fmap_app, (asNul_unbroken text Ht). by destruct cr; eexists. }
  exists rest'. rewrite <-E. destruct Ht as [|c l [H1 H2] Hl].
  - by destruct cr.
  - cbn [app lineTexts]. rewrite bool_decide_eq_false_2 by done. cbn [app]. by rewrite (lineTexts_false l).
Qed.

Lemma countLF_app l1 l2 : countLF (l1 ++ l2) = (countLF l1 + countLF l2)%nat.
Proof. unfold countLF. by rewrite list.filter_app, length_app. Qed.
Lemma countLF_eol cr : countLF (eolText cr) = 1%nat.
Proof. by destruct cr. Qed.

Lemma asRead_free L : Forall (fun p => free_ok p.1) L -> Forall (fun p => free_ok p.1) (asRead L).
Proof.
  destruct L as [|[x cr] L]; [done|]. intros [Hx HL]%list.Forall_cons. cbn. pose proof (lineText_unbroken x Hx) as Ht.
  destruct (lineText x) as [|c t], cr; try done; constructor; try done; by apply list.Forall_cons in Ht as [_ ?].
Qed.
Lemma simText_lines L : Forall (fun p => free_ok p.1) L ->
  Forall2 holdsLine L.*1 (lineTexts true (simText L)) /\ (length L <= countLF (simText L))%nat.
Proof.
  unfold simText. induction 1 as [|[x cr] L Hx HL [IH IH2]]; [split; [constructor|cbn; lia]|]. cbn [fmap list_fmap concat fst snd] in *.
  rewrite <-app_assoc. destruct (lineTexts_line (lineText x) cr (concat ((fun p => lineText p.1 ++ eolText p.2) <$> L)) (lineText_unbroken x Hx))
    as [rest' ->]. split; [constructor; [by exists rest'|exact IH]|]. rewrite !countLF_app, countLF_eol. cbn. lia.
Qed.

Lemma file_read L : Forall (fun p => free_ok p.1) L -> exists lines, readFile (simText L) = Some lines /\ Forall2 holdsLine (asRead L).*1 lines.
Proof.
  intros HL. destruct (simText_lines (asRead L) (asRead_free L HL)) as [H1 H2]. rewrite <-tail_asRead in *. eexists. unfold readFile.
  rewrite <-(list.Forall2_length _ _ _ H1), length_fmap. assert (countLF (tail (simText L)) <= countLF (simText L))%nat as Hle.
  { unfold countLF. destruct (simText L) as [|c t]; [done|]. cbn [tail]. rewrite list.filter_cons. destruct (decide (c = LF)); cbn; lia. }
  destruct (Nat.leb_spec (S (countLF (simText L))) (length (asRead L))); [lia|]. by split.
Qed.

(** ** Runs of several cores from the text of the simulator

    A reader that is made from the printed object file and the text of the simulator gives the
    instructions in the order of their lines, and to each core those of its run, with the flags that
    the reference machine has. *)

(** *** Where a reader is in the lines *)

Lemma listedLines_index l L i y : (i, y) ∈ listedLines l L -> l <= i < l + Z.of_nat (length L) /\ il_valid y = true.
Proof.
  revert l. induction L as [|x L IH]; intros l; cbn [listedLines length]; [by intros ?%elem_of_nil|].
  assert ((i, y) ∈ listedLines (l + 1) L -> l <= i < l + Z.of_nat (S (length L)) /\ il_valid y = true) as H
    by (intros [? ?]%IH; split; [lia|done]).
  destruct x as [|x| |]; try done. destruct (il_valid x) eqn:E; [|done]. intros [[= -> ->]|Hin]%elem_of_cons; [split; [lia|done]|by apply H].
Qed.

Lemma listedLines_next l L i y tl : listedLines l L = (i, y) :: tl ->
  tl = listedLines (i + 1) (drop (Z.to_nat (i + 1 - l)) L).
Proof.
  revert l. induction L as [|x L IH]; intros l; cbn [listedLines]; [done|].
  assert (listedLines (l + 1) L = (i, y) :: tl -> tl = listedLines (i + 1) (drop (Z.to_nat (i + 1 - l)) (x :: L))) as H.
  { intros E. assert (l + 1 <= i) by (apply (listedLines_index (l + 1) L i y); rewrite E; apply list_elem_of_here).
    rewrite (IH _ E). replace (Z.to_nat (i + 1 - l)) with (S (Z.to_nat (i + 1 - (l + 1)))) by lia. done. }
  destruct x as [|x| |]; try done. destruct (il_valid x); [|done]. intros [= <- <- <-]. by replace (Z.to_nat (l + 1 - l)) with 1%nat by lia.
Qed.

Lemma listedLines_here l L y : (l, y) ∈ listedLines l L -> exists tl, listedLines l L = (l, y) :: tl.
Proof.
  destruct L as [|x L]; cbn [listedLines]; [by intros ?%elem_of_nil|].
  assert ((l, y) ∈ listedLines (l + 1) L -> False) as H by (intros [? _]%listedLines_index; lia).
  destruct x as [|x| |]; try (by intros ?%H). destruct (il_valid x); [|by intros ?%H].
  intros [[= ->]|?%H]%elem_of_cons; [by eexists|done].
Qed.

Section reader.
Context (L : list SimLine) (lines : list (list ascii)) (HL : Forall line_ok L) (HH : Forall2 holdsLine L lines).
Context (Hmax : Z.of_nat (length L) < 2 ^ 31 - 1).

(** What is still to be given, from a line on. *)
Definition rest (l : Z) : list (Z * InstLine) := listedLines l (drop (Z.to_nat l) L).

Lemma rest_index l i y : 0 <= l -> (i, y) ∈ rest l -> l <= i < Z.of_nat (length L) /\ il_valid y = true.
Proof using. intros Hl H. apply listedLines_index in H as [H ?]. rewrite length_drop in H. split; [lia|done]. Qed.
Lemma rest_next l i y tl : 0 <= l -> rest l = (i, y) :: tl -> tl = rest (i + 1).
Proof using.
  intros Hl E. assert (l <= i) by (apply (rest_index l i y Hl); rewrite E; apply list_elem_of_here).
  rewrite (listedLines_next _ _ _ _ _ E), drop_drop. unfold rest. do 2 f_equal. lia.
Qed.

Lemma findInst_ok l k r : 0 <= l -> match matching k (rest l) with
  | (i, y) :: _ => exists f, findInst lines k (l, r) = Ok (i + 1, recordOf i y f) tt
  | [] => exists r', findInst lines k (l, r) = Err (l, r') DQERR_EOF
  end.
Proof using HL HH Hmax.
  intros Hl. pose proof (list.Forall2_length _ _ _ HH) as Hlen.
  assert (Forall line_ok (drop (Z.to_nat l) L)) as Hok by (by apply Forall_drop).
  assert (Forall2 holdsLine (drop (Z.to_nat l) L) (drop (Z.to_nat l) lines)) as Hh by (by apply Forall2_drop).
  pose proof (nextSrec_ok lines k _ Hok (S (length lines)) l r Hl Hh ltac:(rewrite length_drop; lia)) as H.
  unfold findInst. cbn [untilInst]. unfold getNextSrec. fold (rest l) in H. destruct (matching k (rest l)) as [|[i y] tl] eqn:E.
  - destruct H as [r' ->]. by eexists.
  - destruct H as (f & -> & Hv). exists f. unfold otherLine. cbn. rewrite Hv. cbn.
    assert ((i, y) ∈ rest l) as Hin.
    { assert ((i, y) ∈ matching k (rest l)) as Hin by (rewrite E; apply list_elem_of_here). unfold matching in Hin.
      destruct (decide (k = -1)); [done|]. by apply list_elem_of_filter in Hin as [_ ?]. }
    apply rest_index in Hin as [Hin _]; [|done]. by rewrite i32_small by lia.
Qed.

Record at_line (l : Z) (s : Simulator) : Prop := {
  al_lines : si_lines s = lines;
  al_next : si_nextLine s = l;
  al_ahead : si_haveLookaheadSrec s && (l =? sr_line (si_lookaheadSrec s)) = true ->
    exists i y f, si_lookaheadSrec s = recordOf i y f /\ (i, y) ∈ rest l;
}.

Lemma nextInst_ok l s uninit : 0 <= l -> at_line l s -> match rest l with
  | (i, y) :: _ => exists f, nextInst uninit s = Ok (set_nextLine (i + 1) s) (recordOf i y f)
  | [] => exists s', nextInst uninit s = Err s' DQERR_EOF
  end.
Proof using HL HH Hmax.
  intros Hl [Elines Enext Hahead]. unfold nextInst. rewrite Elines, Enext.
  pose proof (findInst_ok l (-1) uninit Hl) as Hfind. unfold matching in Hfind. rewrite decide_True in Hfind by done.
  destruct (si_haveLookaheadSrec s && (l =? sr_line (si_lookaheadSrec s))) eqn:Eb.
  - destruct (Hahead eq_refl) as (i & y & f & Er & Hin). apply andb_prop in Eb as [_ El%Z.eqb_eq]. rewrite Er in El |- *. cbn in El. subst i.
    pose proof (rest_index _ _ _ Hl Hin) as [Hb _]. destruct (listedLines_here _ _ _ Hin) as [tl Etl]. fold (rest l) in Etl. rewrite Etl.
    exists f. cbn. by rewrite i32_small by lia.
  - destruct (rest l) as [|[i y] tl].
    + destruct Hfind as [r' ->]. by eexists.
    + destruct Hfind as [f ->]. by exists f.
Qed.

Lemma simLookAhead_ok l s y : 0 <= l -> si_lines s = lines -> si_nextLine s = l -> exists b r,
  Simulator_lookAhead (coreOf y) s = Ok (set_lookaheadSrec b r s) (match ofCore (coreOf y) (rest l) with [] => 0 | (_, z) :: _ => nm_value (il_pc z) end) /\
  at_line l (set_lookaheadSrec b r s).
Proof using HL HH Hmax.
  intros Hl Elines Enext. unfold Simulator_lookAhead. rewrite Elines, Enext. pose proof (findInst_ok l (coreOf y) (si_lookaheadSrec s) Hl) as Hfind.
  unfold matching in Hfind. rewrite decide_False in Hfind by (pose proof (coreOf_bounds y); lia).
  destruct (ofCore (coreOf y) (rest l)) as [|[j z] tl] eqn:E.
  - destruct Hfind as [r' ->]. exists false, r'. split; [done|]. by split.
  - destruct Hfind as [f ->]. exists true, (recordOf j z f). split; [done|]. split; try done. intros _. exists j, z, f. split; [done|].
    assert ((j, z) ∈ ofCore (coreOf y) (rest l)) as Hin by (rewrite E; apply list_elem_of_here). by apply list_elem_of_filter in Hin as [_ ?].
Qed.
End reader.

(** *** What is given *)

Definition placeOfLine (p : Z * InstLine) : Z * Z := (nm_value (il_pc p.2), u32 (nm_value (il_cycles p.2))).
(** The core and the values of the operands. *)
Record operandsTold (p : Z * InstLine) (info : Listed) : Prop := {
  ot_core : li_coreId info = coreOf p.2;
  ot_r0 : li_r0Val info = valOf (il_read1 p.2);
  ot_r1 : li_r1Val info = valOf (il_read2 p.2);
  ot_w : li_wVal info = valOf (il_write p.2);
}.

Fixpoint simInstructions (uninit : Inst) (uninitRec : SRec) (contents : list ascii -> option (list ascii)) (n : nat)
    : M Simulator DQErr (list Listed) :=
  match n with
  | O => mret []
  | S n => i ← Simulator_NextInstruction uninit uninitRec contents; l ← simInstructions uninit uninitRec contents n; mret (i :: l)
  end.

Section run.
Context (uninit : Inst) (uninitRec : SRec) (contents : list ascii -> option (list ascii)).
Context (dump : Dump) (name : list ascii) (g : Shown * SourceInfo).
Context (p : Built) (f : ElfFile) (dis : Disassembler) (Hp : process_loaded dump name g p f dis).
Context (store : list ElfSection) (syms : list Sym) (d0 : Disassembler) (Hsec : ds_sectionLst d0 = sectionsOf f).
Context (L : list SimLine) (lines : list (list ascii)) (HL : Forall line_ok L) (HH : Forall2 holdsLine L lines).
Context (Hmax : Z.of_nat (length L) < 2 ^ 31 - 1).
Let arch : Z := if d_64 dump then 64 else 32.

(** The code that the simulator shows is that of the instruction that was printed. *)
Definition codeShown (y : InstLine) : Prop :=
  exists d, printed uninit dump (nm_value (il_pc y)) = Some d /\ decodeInstruction (u32 (nm_value (il_inst y))) arch uninit = (0, d).

(** The parts of a reader that was made, with the times and the interrupts of the cores. *)
Record sim_knows (ts isrs : list Z) (s : Simulator) : Prop := {
  sk_arch : si_archSize s = arch;
  sk_dis : exists ds, si_disassembler s = Some ds /\ dis_ok contents store syms ds /\ dis_same d0 ds;
  sk_time : si_currentTime s = ts;
  sk_isr : si_enterISR s = isrs;
}.

Lemma sim_built r br cr s ds ds' t : si_disassembler s = Some ds -> disassembleAt contents (sr_pc r) ds = Ok ds' tt ->
  si_currentTime s !! Z.to_nat (sr_coreId r) = Some t ->
  buildInstructionFromSrec contents r br cr s =
    Ok (set_si_cores (<[Z.to_nat (sr_coreId r) := sr_cycles r]> (si_currentTime s)) (si_enterISR s) (set_si_info {|
      li_shown := ds_instruction ds'; li_source := ds_source ds'; li_coreId := sr_coreId r; li_CRFlag := cr; li_brFlags := br;
      li_timestamp := sr_cycles r; li_caFlags := CAFLAG_NONE; li_pipeCycles := if t =? 0 then 0 else u32 (u64 (sr_cycles r - t));
      li_r0Val := sr_r1Val r; li_r1Val := sr_r2Val r; li_wVal := sr_wVal r |} (set_si_disassembler (Some ds') s))) tt.
Proof using.
  intros Ed E Et. unfold buildInstructionFromSrec. erewrite bind_ok by (unfold Simulator_Disassemble; by rewrite Ed, E).
  rewrite bind_get. cbn [si_currentTime set_si_info set_si_disassembler]. rewrite Et. done.
Qed.

Lemma sim_returned l s i y tl ts isrs t isr d cr br isr' : 0 <= l -> at_line L lines l s -> sim_knows ts isrs s -> rest L l = (i, y) :: tl ->
  ts !! Z.to_nat (coreOf y) = Some t -> isrs !! Z.to_nat (coreOf y) = Some isr ->
  printed uninit dump (nm_value (il_pc y)) = Some d -> decodeInstruction (u32 (nm_value (il_inst y))) arch uninit = (0, d) ->
  switchFlags (nm_value (il_pc y)) (match ofCore (coreOf y) tl with [] => 0 | (_, z) :: _ => nm_value (il_pc z) end) d = (cr, br, isr') ->
  exists s' info, Simulator_NextInstruction uninit uninitRec contents s = Ok s' info /\ at_line L lines (i + 1) s' /\
    sim_knows (<[Z.to_nat (coreOf y) := u32 (nm_value (il_cycles y))]> ts) (<[Z.to_nat (coreOf y) := isr']> isrs) s' /\
    told uninit arch t (placeOfLine (i, y)) (d, Z.lor isr cr, br) info /\ operandsTold (i, y) info.
Proof using Hp Hsec HL HH Hmax.
  intros Hl Hat [Harch (ds & Eds & Hok & Hsame) Ets Eisrs] Erest Ht Hisr Hd Hdec Hf.
  assert ((i, y) ∈ rest L l) as Hin by (rewrite Erest; apply list_elem_of_here).
  destruct (rest_index L l i y Hl Hin) as [Hi _]. pose proof (rest_next L l i y tl Hl Erest) as Etl.
  pose proof (nextInst_ok L lines HL HH Hmax l s uninitRec Hl Hat) as E1. rewrite Erest in E1. destruct E1 as [fa E1].
  unfold Simulator_NextInstruction. rewrite bind_get, (al_lines _ _ _ _ Hat), (al_next _ _ _ _ Hat), <-(list.Forall2_length _ _ _ HH).
  destruct (Z.leb_spec (Z.of_nat (length L)) l); [lia|]. rewrite (bind_ok _ _ _ _ _ E1).
  set (s1 := set_nextLine (i + 1) s) in *. cbn [sr_coreId recordOf].
  destruct (simLookAhead_ok L lines HL HH Hmax (i + 1) s1 y ltac:(lia) (al_lines _ _ _ _ Hat) eq_refl) as (b & r1 & E2 & Hat2).
  rewrite (bind_ok _ _ _ _ _ E2), <-Etl. set (next := match ofCore (coreOf y) tl with [] => 0 | _ => _ end) in *.
  set (s2 := set_lookaheadSrec b r1 s1) in *. unfold Simulator_computeBranchFlags. rewrite bind_assoc, bind_get.
  change (si_enterISR s2) with (si_enterISR s). rewrite Eisrs, Hisr. rewrite bind_assoc, lift_bind.
  change (si_archSize s2) with (si_archSize s). cbn [sr_pc sr_inst recordOf]. unfold branchFlags. rewrite Harch, Hdec, Z.eqb_refl, Hf.
  rewrite bind_assoc, bind_modify, ret_bind. set (s3 := set_si_cores _ _ s2).
  destruct (printed_known uninit contents dump name g p f dis Hp store syms d0 Hsec _ _ Hd) as (inst & Hdec2 & _ & Hdis). fold arch in Hdec2.
  destruct (Hdis ds Hok Hsame) as (ds' & E3 & Hok' & Hsame' & Eaddr & Einst).
  erewrite bind_ok by (cbn beta; rewrite (sim_built (recordOf i y fa) br (Z.lor isr cr) s3 ds ds' t) by (done || by cbn; rewrite Ets); done).
  rewrite bind_get. eexists _, _. split; [done|]. split; [|split; [|split]].
  - destruct Hat2 as [H1 H2 H3]. by split.
  - split; cbn; try done; [by exists ds'|by rewrite Ets].
  - split; cbn; try done; [by rewrite Einst|]. destruct (t =? 0); [done|]. apply u32_u64.
  - by split.
Qed.

Lemma sim_ends l s : 0 <= l -> at_line L lines l s -> rest L l = [] -> exists s', Simulator_NextInstruction uninit uninitRec contents s = Err s' DQERR_EOF.
Proof using HL HH Hmax.
  intros Hl Hat E. unfold Simulator_NextInstruction. rewrite bind_get. destruct (_ <=? _); [by eexists|].
  pose proof (nextInst_ok L lines HL HH Hmax l s uninitRec Hl Hat) as E1. rewrite E in E1. destruct E1 as [s' E1].
  exists s'. by rewrite (bind_err _ _ _ _ _ E1).
Qed.

(** All instructions that are left, and for each core those of its run. *)
Lemma sim_run_returned cap xs_left : forall l s ts isrs st outs xs, 0 <= l -> at_line L lines l s -> sim_knows ts isrs s -> rest L l = xs_left ->
  (forall q, q ∈ xs_left -> codeShown q.2 /\ coreOf q.2 < DQR_MAXCORES) -> length ts = 16%nat -> length isrs = 16%nat ->
  (forall k isr, 0 <= k -> isrs !! Z.to_nat k = Some isr ->
    runs (printed uninit dump) cap isr (st k) (outs k) ((fun q => nm_value (il_pc q.2)) <$> ofCore k xs_left) (xs k)) ->
  exists s' infos l', simInstructions uninit uninitRec contents (length xs_left) s = Ok s' infos /\ 0 <= l' /\ at_line L lines l' s' /\
    rest L l' = [] /\ Forall2 operandsTold xs_left infos /\
    forall k t, 0 <= k -> ts !! Z.to_nat k = Some t ->
      allTold uninit arch t (placeOfLine <$> ofCore k xs_left) (xs k) (base.filter (fun i => li_coreId i = k) infos).
Proof using Hp Hsec HL HH Hmax.
  induction xs_left as [|[i y] tl IH]; intros l s ts isrs st outs xs Hl Hat Hk Erest Hok Hts Hisrs Hruns.
  - exists s, [], l. split_and!; try done. intros k t Hk0 Htk. cbn.
    destruct (lookup_lt_is_Some_2 isrs (Z.to_nat k)) as [isr Hisr]; [apply lookup_lt_Some in Htk; lia|].
    specialize (Hruns k isr Hk0 Hisr). by inversion Hruns.
  - destruct (Hok (i, y) ltac:(apply list_elem_of_here)) as [(d & Hd & Hdec) Hc]. cbn [snd] in *. pose proof (coreOf_bounds y) as Hcb.
    set (c := coreOf y) in *. unfold DQR_MAXCORES in Hc.
    destruct (lookup_lt_is_Some_2 ts (Z.to_nat c)) as [t Ht]; [lia|]. destruct (lookup_lt_is_Some_2 isrs (Z.to_nat c)) as [isr Hisr]; [lia|].
    pose proof (Hruns c isr ltac:(lia) Hisr) as Hr. unfold ofCore in Hr. rewrite list.filter_cons, decide_True in Hr by done. fold (ofCore c tl) in Hr.
    cbn [fmap list_fmap snd] in Hr. destruct (xs c) as [|x xsc] eqn:Exs; [by inversion Hr|].
    apply runs_flags in Hr as (cr & br & isr' & st' & outs' & Hx & Hf & Hcr & Hbr & Hr).
    2: { intros pc (q & -> & Hq)%list_elem_of_fmap. apply list_elem_of_filter in Hq as [_ Hq].
         destruct (Hok q ltac:(by apply list_elem_of_further)) as [(d' & Hd' & _) _]. by destruct (printed_line _ _ _ _ Hd'). }
    assert (x.1.1 = d) as Ex by congruence. rewrite Ex in Hf.
    assert (match (fun q : Z * InstLine => nm_value (il_pc q.2)) <$> ofCore c tl with [] => 0 | next :: _ => next end =
      match ofCore c tl with [] => 0 | (_, z) :: _ => nm_value (il_pc z) end) as Enext by (by destruct (ofCore c tl) as [|[??]?]).
    rewrite Enext in Hf. destruct (sim_returned l s i y tl ts isrs t isr d cr br isr' Hl Hat Hk Erest Ht Hisr Hd Hdec Hf)
      as (s1 & info & E1 & Hat1 & Hk1 & Htold & Hops). fold c in Hk1.
    assert (l <= i) as Hli by (apply (rest_index L l i y Hl); rewrite Erest; apply list_elem_of_here).
    destruct (IH (i + 1) s1 _ _ (fun k => if decide (k = c) then st' else st k) (fun k => if decide (k = c) then outs' else outs k)
      (fun k => if decide (k = c) then xsc else xs k) ltac:(lia) Hat1 Hk1) as (s2 & infos & l' & E2 & Hl' & Hat2 & Hrest & Hall & Hcores).
    + symmetry. by apply (rest_next L l i y).
    + intros q Hq. apply Hok. by apply list_elem_of_further.
    + by rewrite length_insert.
    + by rewrite length_insert.
    + intros k isrk Hk0 Hlook. destruct (decide (k = c)) as [->|Hkc].
      * rewrite list_lookup_insert_eq in Hlook by lia. by injection Hlook as <-.
      * rewrite list_lookup_insert_ne in Hlook by lia. specialize (Hruns k isrk Hk0 Hlook). unfold ofCore in Hruns.
        rewrite list.filter_cons, decide_False in Hruns by (intros H; by apply Hkc). done.
    + exists s2, (info :: infos), l'. cbn [length simInstructions]. rewrite (bind_ok _ _ _ _ _ E1), (bind_ok _ _ _ _ _ E2).
      split_and!; try done; [by constructor|]. intros k tk Hk0 Htk. pose proof (ot_core _ _ Hops) as Ecore. cbn [snd] in Ecore. fold c in Ecore.
      unfold ofCore. rewrite !list.filter_cons. cbn [snd]. fold c. rewrite Ecore. destruct (decide (k = c)) as [->|Hkc].
      * rewrite !decide_True by done. rewrite Ht in Htk. injection Htk as <-. rewrite Exs. cbn [fmap list_fmap allTold]. split.
        -- rewrite <-Hcr, <-Hbr in Htold. rewrite <-Ex in Htold. by destruct x as [[??]?].
        -- specialize (Hcores c (u32 (nm_value (il_cycles y))) Hk0 ltac:(by rewrite list_lookup_insert_eq by lia)).
           by rewrite decide_True in Hcores by done.
      * rewrite !(decide_False (P := c = k)) by done. specialize (Hcores k tk Hk0 ltac:(by rewrite list_lookup_insert_ne by lia)).
        by rewrite decide_False in Hcores by done.
Qed.
End run.

(** *** The reader that is made *)

Section built.
Context `{Q : !Qsort} `{L : !QsortLaws} (fuel : nat) (objdump : option (list ascii) -> list ascii -> ElfType -> Z -> Exec).
Context (files : list ascii -> option (list ascii)) (garbage : Z * (Shown * SourceInfo)).

(** objdump prints the dump for the object file, and the file has the lines. *)
Record sim_inputs (od : option (list ascii)) (name file : list ascii) (dump : Dump) (ls : list (SimLine * bool)) : Prop := {
  si_objdump : exists reads, objdump od name elfType_32_little 0 = ExecPipe reads /\
    ObjDumpText.holds {| pp_buffer := []; pp_reads := reads |} (dumpText dump);
  si_dump : dump_ok fuel dump /\ layout_ok 0 dump /\ symbols_ok 0 dump /\ kept 0 dump <> [];
  si_file : files file = Some (simText ls);
  si_ok : Forall (fun x => line_ok x.1 /\ free_ok x.1) ls /\ first_ok ls /\ Z.of_nat (length ls) < 2 ^ 31 - 1;
}.

(** What the lines are read as is well formed too. *)
Lemma read_lines_ok od name file dump ls : sim_inputs od name file dump ls ->
  Forall line_ok (asRead ls).*1 /\ Z.of_nat (length (asRead ls).*1) < 2 ^ 31 - 1.
Proof using Type.
  intros [_ _ _ (Hok & Hf & Hmax)]. pose proof (asRead_length ls). rewrite length_fmap. split; [|lia]. apply asRead_ok; [|done].
  apply list.Forall_fmap. eapply list.Forall_impl; [exact Hok|]. by intros ? [? _].
Qed.

(** The constructor leaves what is known of the next record as it was; by chance, that may be a record
    of line 0. *)
Definition leftAhead (start : Simulator) : bool := si_haveLookaheadSrec start && (0 =? sr_line (si_lookaheadSrec start)).

Lemma simulator_built od name file dump ls start contents : sim_inputs od name file dump ls ->
  exists s f dis p store syms d0 lines, newSimulator fuel objdump files garbage start (Some file) (Some name) od = Ok tt s /\
    process_loaded dump name garbage.2 p f dis /\ ds_sectionLst d0 = sectionsOf f /\ Forall2 holdsLine (asRead ls).*1 lines /\
    si_lines s = lines /\ si_nextLine s = 0 /\ si_haveLookaheadSrec s = si_haveLookaheadSrec start /\
    si_lookaheadSrec s = si_lookaheadSrec start /\ sim_knows contents dump store syms d0 (replicate 16 0) (replicate 16 0) s.
Proof using L.
  intros [(reads & Eo & Hh) (Hd & Hl & Hs & Hk) Efile [Hok _]].
  destruct (file_read ls) as (lines & Elines & HH); [eapply list.Forall_impl; [exact Hok|]; by intros ? [_ ?]|].
  destruct (reader_built fuel garbage dump reads name Hd Hl Hs Hk Hh) as (f0 & f & t & p & l & E0 & E & Et & Ep & Hp).
  destruct (pl_table _ _ _ _ _ _ Hp) as (store & syms & t' & Htab & Edis).
  eexists _, f, _, _, store, syms, (newDisassembler garbage.2 t' (sectionsOf f)), lines. split; [|split; [exact Hp|]].
  - unfold newSimulator. rewrite Efile. cbn [mbind option_bind fmap option_fmap option_map]. by rewrite Elines, Eo, E0, E, Et, Ep.
  - do 6 (split; [done|]). split; try done; [apply (pl_arch _ _ _ _ _ _ Hp)|]. eexists. split; [done|]. rewrite Edis. split; [|apply dis_same_refl].
    exact (dis_new contents store syms t' _ _ None None PATH_TO_UNIX Htab).
Qed.
End built.
