(* ===== verification/MsgText.v ===== *)
(** * MsgText: the text of a message (src/dqr.cpp, [NexusMessage::messageToText],
    [messageToString], [dumpRawMessage], [dump] and [seconds])

    A text is made of pieces, one for each call of [snprintf], which is given what is
    left of the buffer; the pieces of a message are written one after the other.  A piece
    that reads a member of the union that was not written has no text ([None]). *)

From stdpp Require Import strings.
From Stdlib Require Import Ascii.
From Stdlib Require String.
From S2P Require Import Prelude Nexus Encode ObjDump Ctf Events Floats.

(** ** The pieces of a text *)

(** [snprintf(dst+n,dst_len-n,..)] for each piece: a piece is cut at the end of the buffer, but
    [n] grows by the whole of it; as soon as [n] is more than [dst_len] the difference wraps and the
    next piece is written beyond the buffer.  The result is the text up to its NUL. *)
Fixpoint snprintfs (dst_len : nat) (n : nat) (dst : list ascii) (pieces : list (list ascii)) : option (list ascii) :=
  match pieces with
  | [] => Some dst
  | p :: pieces =>
      if (dst_len <? n)%nat then None
      else snprintfs dst_len (n + length p) (dst ++ take (dst_len - n - 1) p) pieces
  end.

(** [%d] and [%x] of what the arguments are converted to. *)
Definition percent_02x (x : Z) : list ascii := formatHex false 2 x.
Definition percent_04x (x : Z) : list ascii := formatHex false 4 x.
Definition percent_int (x : Z) : list ascii := percent_d (i32 x).

Definition syncText (s : SyncReason) : list ascii := chars (
  match s with
  | SYNC_EVTI => "EVTI"
  | SYNC_EXIT_RESET => "Exit Reset"
  | SYNC_T_CNT => "T Count"
  | SYNC_EXIT_DEBUG => "Exit Debug"
  | SYNC_I_CNT_OVERFLOW => "I-Count Overflow"
  | SYNC_TRACE_ENABLE => "Trace Enable"
  | SYNC_WATCHPINT => "Watchpoint"
  | SYNC_FIFO_OVERRUN => "FIFO Overrun"
  | SYNC_EXIT_POWERDOWN => "Exit Powerdown"
  | SYNC_MESSAGE_CONTENTION => "Message Contention"
  | SYNC_PC_SAMPLE => "PC Sample"
  | SYNC_NONE => "None"
  | SYNC_reserved _ => "Bad Sync Reason"
  end)%string.

Definition btypeText (b : BType) : list ascii := chars (
  match b with
  | BTYPE_INDIRECT => "Indirect"
  | BTYPE_EXCEPTION => "Exception"
  | BTYPE_HARDWARE => "Hardware"
  | BTYPE_UNDEFINED => "Undefined"
  end)%string.

(** ** Before the type of the message *)

(** The bytes of the message, up to its end or the end of the array. *)
Fixpoint rawPieces (first : bool) (rawData : list Z) : list (list ascii) :=
  match rawData with
  | [] => []
  | b :: rawData =>
      ((if first then [] else chars ":") ++ percent_02x b) ::
      (if Z.land b 3 =? MSEO_END then [] else rawPieces false rawData)
  end.

(** The time, in seconds if there is a frequency. *)
Definition timePiece (targetFrequency : Z) (nm : NexusMessage) : list (list ascii) :=
  if nm_haveTimestamp nm then
    if targetFrequency =? 0 then [chars "Tics: " ++ percent_u (nm_time nm) ++ chars ", "]
    else [chars "time: " ++ percent_f [] 8 (fdiv doubleBits (ofInt doubleBits (nm_time nm)) (ofInt doubleBits targetFrequency)) ++ chars ", "]
  else [].

Definition headPieces (targetFrequency level : Z) (nm : NexusMessage) : list (list ascii) :=
  [chars "Msg # " ++ percent_int (nm_msgNum nm) ++ chars ", "] ++
  (if 3 <=? level then
     [chars "Offset " ++ percent_int (nm_offset nm) ++ chars ", "] ++ rawPieces true (nm_rawData nm) ++ [chars ", "]
   else []) ++
  timePiece targetFrequency nm ++
  (if decide (nm_tcode nm = TCODE_INCIRCUITTRACE \/ nm_tcode nm = TCODE_INCIRCUITTRACE_WS) then []
   else [chars "NxtAddr: " ++ percent_08lx (nm_currentAddress nm) ++ chars ", TCode: "]).

(** ** The types of messages *)

(** [case TCODE_OWNERSHIP_TRACE] *)
Definition modeTxt (v prv : Z) : list ascii :=
  if v =? 0 then
    match prv with
    | 0 => chars "U-mode: v=0, prv=00"
    | 1 => chars "S-mode: v=0, prv=01"
    | 3 => chars "M-mode: v=0, prv=11"
    | _ => chars "Bad prv: v=0, prv=10"
    end
  else
    match prv with
    | 0 => chars "VU-mode: v=1, prv=00"
    | 1 => chars "VS-mode: v=1, prv=01"
    | 2 => chars "Bad prv: v=1, prv=10"
    | _ => chars "Bad prv: v=1, prv=11"
    end.
Definition ownershipPieces (pid v prv tag : Z) : list (list ascii) :=
  match tag with
  | 0 => [chars " V or Prv change: "]
  | 1 => [chars " Bad ownership tag: b01: "]
  | 2 => [chars " sync or scontext change: pid=" ++ percent_int pid ++ chars ", "]
  | 3 => [chars " sync or hcontext change: pid=" ++ percent_int pid ++ chars ", "]
  | _ => []
  end ++ [modeTxt v prv].

(** [case TCODE_INDIRECT_BRANCH] *)
Definition indirectBranchPiece (i_cnt u_addr : Z) (b_type : BType) : list ascii :=
  chars " Branch Type: " ++ btypeText b_type ++ chars " (" ++ percent_int (btype_val b_type) ++ chars ") I-CNT: " ++ percent_int i_cnt ++
  chars " U-ADDR: 0x" ++ percent_08lx u_addr ++ chars " ".

(** [case TCODE_SYNC] *)
Definition syncPiece (i_cnt f_addr : Z) (sync : SyncReason) : list ascii :=
  chars " Reason: (" ++ percent_int (sync_val sync) ++ chars ") " ++ syncText sync ++ chars " I-CNT: " ++ percent_int i_cnt ++
  chars " F-Addr: 0x" ++ percent_08lx f_addr.

(** [case TCODE_DIRECT_BRANCH_WS] *)
Definition directBranchWSPiece (i_cnt f_addr : Z) (sync : SyncReason) : list ascii :=
  chars " Reason: (" ++ percent_int (sync_val sync) ++ chars ") " ++ syncText sync ++ chars " I-CNT: " ++ percent_int i_cnt ++
  chars " F-Addr: 0x" ++ percent_08lx f_addr.

(** [case TCODE_INDIRECT_BRANCH_WS] *)
Definition indirectBranchWSPiece (i_cnt f_addr : Z) (b_type : BType) (sync : SyncReason) : list ascii :=
  chars " Reason: (" ++ percent_int (sync_val sync) ++ chars ") " ++ syncText sync ++ chars " Branch Type " ++ btypeText b_type ++
  chars " (" ++ percent_int (btype_val b_type) ++ chars ") I-CNT: " ++ percent_int i_cnt ++ chars " F-Addr: 0x" ++ percent_08lx f_addr.

(** The data: a part of a word if the address is not on a word boundary. *)
Definition partOfWord (addr data : Z) : list ascii :=
  match Z.land addr 3 with
  | 2 => percent_04x (u16 data)
  | 3 => percent_02x (u8 data)
  | _ => percent_08lx data
  end.

(** [case TCODE_DATA_ACQUISITION] *)
Definition dataAcquisitionPiece (idTag data : Z) : list ascii :=
  chars " idTag: 0x" ++ percent_08lx idTag ++ chars " Data: 0x" ++ partOfWord idTag data.

(** [case TCODE_AUXACCESS_WRITE] *)
Definition auxAccessWritePiece (data addr : Z) : list ascii :=
  chars " Addr: 0x" ++ percent_08lx addr ++ chars " Data: 0x" ++ partOfWord addr data.

(** [case TCODE_RESOURCEFULL]: the member of the inner union that [rCode] names. *)
Definition resourceFullPieces (rCode : Z) (rd : RData) : option (list (list ascii)) :=
  data ← match rCode with
         | 0 => match rd with R_i_cnt i => Some (chars " I-CNT: " ++ percent_int i) | _ => None end
         | 1 => match rd with R_history h => Some (chars " History: 0x" ++ percent_08lx h) | _ => None end
         | 8 => match rd with R_notTakenCount n => Some (chars " Not Taken Count: " ++ percent_u n) | _ => None end
         | 9 => match rd with R_takenCount n => Some (chars " Taken Count: " ++ percent_u n) | _ => None end
         | _ => Some (chars " Invalid rCode")
         end;
  Some [chars " RCode: " ++ percent_int rCode; data].

(** [case TCODE_INDIRECTBRANCHHISTORY] *)
Definition indirectHistoryPiece (i_cnt u_addr : Z) (b_type : BType) (history : Z) : list ascii :=
  chars " Branch Type: " ++ btypeText b_type ++ chars " (" ++ percent_int (btype_val b_type) ++ chars ") I-CNT: " ++ percent_int i_cnt ++
  chars " U-ADDR: 0x" ++ percent_08lx u_addr ++ chars " History: 0x" ++ percent_08lx history.

(** [case TCODE_INDIRECTBRANCHHISTORY_WS] *)
Definition indirectHistoryWSPiece (i_cnt f_addr : Z) (b_type : BType) (history : Z) (sync : SyncReason) : list ascii :=
  chars " Reason: (" ++ percent_int (sync_val sync) ++ chars ") " ++ syncText sync ++ chars " Branch Type " ++ btypeText b_type ++
  chars " (" ++ percent_int (btype_val b_type) ++ chars ") I-CNT: " ++ percent_int i_cnt ++ chars " F-Addr: 0x" ++ percent_08lx f_addr ++
  chars " History: 0x" ++ percent_08lx history.

(** [case TCODE_CORRELATION] *)
Definition correlationPieces (history : option Z) (i_cnt cdf evcode : Z) : option (list (list ascii)) :=
  let codes := chars " EVCODE: " ++ percent_int evcode ++ chars " CDF: " ++ percent_int cdf ++ chars " I-CNT: " ++ percent_int i_cnt in
  if 0 <? cdf then (fun h => [codes; chars " History: 0x" ++ percent_08lx h]) <$> history else Some [codes].

(** A piece that reads [ckdata[1]]. *)
Definition readsData1 (d1 : option Z) (f : Z -> list ascii) : option (list ascii) := f <$> d1.
(** Which context changed. *)
Definition ictContextText (d1 : Z) : list ascii :=
  match Z.land d1 3 with 2 => chars "SContext " | 3 => chars "HContext " | _ => chars "?Context " end.

(** What is said of an in-circuit trace message; [address] is [currentAddress]. *)
Definition ictText (address : Z) (cksrc : ICTReason) (ckdf d0 : Z) (d1 : option Z) : option (list ascii) :=
  let src := percent_int (ict_val cksrc) in
  let addr := chars "U-ADDR: 0x" ++ percent_08lx d0 in
  let invalid name := chars " Error: messageToText(): " ++ chars name ++ chars ": invalid ict.ckdf value: " ++ percent_int ckdf in
  match cksrc with
  | ICT_EXT_TRIG =>
      if ckdf =? 0 then Some (chars " ICT Reason: External Trigger (" ++ src ++ chars ") " ++ addr)
      else if ckdf =? 1 then
        readsData1 d1 (fun d1 => chars " ICT Reason: External Trigger + ID (" ++ src ++ chars ") Trigger ID " ++ percent_int d1 ++ chars " " ++ addr)
      else Some (invalid "ICT_EXTERNAL_TRIG"%string)
  | ICT_WATCHPOINT =>
      if ckdf =? 0 then Some (chars " ICT Reason: Watchpoint (" ++ src ++ chars ") U-ADDR: 0x" ++ percent_08lx d0)
      else if ckdf =? 1 then
        readsData1 d1 (fun d1 => chars " ICT Reason: Watchpoint + ID (" ++ src ++ chars ") Trigger ID " ++ percent_int d1 ++ chars " " ++ addr)
      else Some (invalid "ICT_WATCHPOINT"%string)
  | ICT_INFERABLECALL =>
      if ckdf =? 0 then Some (chars " ICT Reason: Inferable Call (" ++ src ++ chars ") " ++ addr)
      else if ckdf =? 1 then
        readsData1 d1 (fun d1 => chars " ICT Reason: Call/Return (" ++ src ++ chars ") " ++ addr ++ chars " PCdest 0x" ++
          percent_08lx (Z.lxor address (u64 (Z.shiftl d1 1))))
      else Some (invalid "ICT_INFERABLECALL"%string)
  | ICT_EXCEPTION =>
      readsData1 d1 (fun d1 => chars " ICT Reason: Exception (" ++ src ++ chars ") Cause " ++ percent_int d1 ++ chars " " ++ addr)
  | ICT_INTERRUPT =>
      readsData1 d1 (fun d1 => chars " ICT Reason: Interrupt (" ++ src ++ chars ") Cause " ++ percent_int d1 ++ chars " " ++ addr)
  | ICT_CONTEXT =>
      readsData1 d1 (fun d1 => chars " ICT Reason: Context (" ++ src ++ chars ") " ++ ictContextText d1 ++ percent_int d1 ++ chars " Pid: " ++
        percent_d (Z.shiftr (i32 d1) 2) ++ chars " " ++ addr)
  | ICT_PC_SAMPLE => Some (chars " ICT Reason: Periodic (" ++ src ++ chars ") " ++ addr)
  | ICT_CONTROL =>
      if ckdf =? 0 then Some (chars " ICT Reason: Control (" ++ src ++ chars ") Control " ++ percent_int d0)
      else if ckdf =? 1 then
        readsData1 d1 (fun d1 => chars " ICT Reason: Control (" ++ src ++ chars ") Control " ++ percent_int d1 ++ chars " " ++ addr)
      else Some (invalid "ICT_CONTROL"%string)
  | ICT_NONE | ICT_reserved _ => Some (chars " Error: messageToText(): Invalid ICT Event: " ++ src)
  end.

Definition ictWSText (address : Z) (cksrc : ICTReason) (ckdf d0 : Z) (d1 : option Z) : option (list ascii) :=
  let src := percent_int (ict_val cksrc) in
  let addr := chars "F-ADDR: 0x" ++ percent_08lx d0 in
  let invalid name := chars " Error: messageToText(): " ++ chars name ++ chars ": invalid ictWS.ckdf value: " ++ percent_int ckdf in
  match cksrc with
  | ICT_EXT_TRIG =>
      if ckdf =? 0 then Some (chars " ICT Reason: External Trigger (" ++ src ++ chars ") " ++ addr)
      else if ckdf =? 1 then
        readsData1 d1 (fun d1 => chars " ICT Reason: External Trigger + ID (" ++ src ++ chars ") Trigger ID " ++ percent_int d1 ++ chars " " ++ addr)
      else Some (invalid "ICT_EXTERNAL_TRIG"%string)
  | ICT_WATCHPOINT =>
      if ckdf =? 0 then Some (chars " ICT Reason: Watchpoint (" ++ src ++ chars ") U-ADDR: 0x" ++ percent_08lx d0)
      else if ckdf =? 1 then
        readsData1 d1 (fun d1 => chars " ICT Reason: Watchpoint + ID (" ++ src ++ chars ") Trigger ID " ++ percent_int d1 ++ chars " " ++ addr)
      else Some (invalid "ICT_WATCHPOINT"%string)
  | ICT_INFERABLECALL =>
      if ckdf =? 0 then Some (chars " ICT Reason: Inferable Call (" ++ src ++ chars ") " ++ addr)
      else if ckdf =? 1 then
        readsData1 d1 (fun d1 => chars " ICT Reason: Call/Return (" ++ src ++ chars ") " ++ addr ++ chars " PCdest 0x" ++
          percent_08lx (Z.lxor address (u64 (Z.shiftl d1 1))))
      else Some (invalid "ICT_INFERABLECALL"%string)
  | ICT_EXCEPTION =>
      readsData1 d1 (fun d1 => chars " ICT Reason: Exception (" ++ src ++ chars ") Cause " ++ percent_int d1 ++ chars " " ++ addr)
  | ICT_INTERRUPT =>
      readsData1 d1 (fun d1 => chars " ICT Reason: Interrupt (" ++ src ++ chars ") Cause " ++ percent_int d1 ++ chars " " ++ addr)
  | ICT_CONTEXT =>
      readsData1 d1 (fun d1 => chars " ICT Reason: Context (" ++ src ++ chars ") " ++ ictContextText d1 ++ percent_int d1 ++ chars " Pid: " ++
        percent_d (Z.shiftr (i32 d1) 2) ++ chars " " ++ addr)
  | ICT_PC_SAMPLE => Some (chars " ICT Reason: Periodic (" ++ src ++ chars ") " ++ addr)
  | ICT_CONTROL =>
      if ckdf =? 0 then Some (chars " ICT Reason: Control (" ++ src ++ chars ") Control " ++ percent_int d0)
      else if ckdf =? 1 then
        readsData1 d1 (fun d1 => chars " ICT Reason: Control (" ++ src ++ chars ") Control " ++ percent_int d1 ++ chars " " ++ addr)
      else Some (invalid "ICT_CONTROL"%string)
  | ICT_NONE | ICT_reserved _ => Some (chars " Error: messageToText(): Invalid ICT Event: " ++ src)
  end.

(** What precedes the reason of an in-circuit trace message; the address is left out where the message has none. *)
Definition ictHead (name : list ascii) (tcode address : Z) (cksrc : ICTReason) (ckdf : Z) : list ascii :=
  let noAddress := bool_decide (cksrc = ICT_CONTROL) && (ckdf =? 0) in
  (if noAddress then [] else chars "Address: " ++ percent_08lx address ++ chars " ") ++ chars "TCode: " ++ name ++ chars " (" ++ percent_int tcode ++ chars ")".

(** The name of the type: what the text says of it at any level. *)
Definition tcodeText (t : TCode) : list ascii := chars (
  match t with
  | TCODE_DEBUG_STATUS => "DEBUG STATUS"
  | TCODE_DEVICE_ID => "DEVICE ID"
  | TCODE_OWNERSHIP_TRACE => "OWNERSHIP TRACE"
  | TCODE_DIRECT_BRANCH => "DIRECT BRANCH"
  | TCODE_INDIRECT_BRANCH => "INDIRECT BRANCH"
  | TCODE_DATA_WRITE => "DATA WRITE"
  | TCODE_DATA_READ => "DATA READ"
  | TCODE_DATA_ACQUISITION => "DATA ACQUISITION"
  | TCODE_ERROR => "ERROR"
  | TCODE_SYNC => "SYNC"
  | TCODE_CORRECTION => "Correction"
  | TCODE_DIRECT_BRANCH_WS => "DIRECT BRANCH WS"
  | TCODE_INDIRECT_BRANCH_WS => "INDIRECT BRANCH WS"
  | TCODE_DATA_WRITE_WS => "DATA WRITE WS"
  | TCODE_DATA_READ_WS => "DATA READ WS"
  | TCODE_WATCHPOINT => "TCode: WATCHPOINT"
  | TCODE_OUTPUT_PORTREPLACEMENT => "OUTPUT PORT REPLACEMENT"
  | TCODE_INPUT_PORTREPLACEMENT => "INPUT PORT REPLACEMENT"
  | TCODE_AUXACCESS_READ => "AUX ACCESS READ"
  | TCODE_AUXACCESS_WRITE => "AUX ACCESS WRITE"
  | TCODE_AUXACCESS_READNEXT => "AUX ACCESS READNEXT"
  | TCODE_AUXACCESS_WRITENEXT => "AUX ACCESS WRITENEXT"
  | TCODE_AUXACCESS_RESPONSE => "AUXACCESS RESPOINSE"
  | TCODE_RESOURCEFULL => "RESOURCE FULL"
  | TCODE_INDIRECTBRANCHHISTORY => "INDIRECT BRANCH HISTORY"
  | TCODE_INDIRECTBRANCHHISTORY_WS => "INDIRECT BRANCH HISTORY WS"
  | TCODE_REPEATBRANCH => "REPEAT BRANCH"
  | TCODE_REPEATINSTRUCTION => "REPEAT INSTRUCTION"
  | TCODE_REPEATINSTRUCTION_WS => "REPEAT INSTRUCTIN WS"
  | TCODE_CORRELATION => "CORRELATION"
  | TCODE_INCIRCUITTRACE => "INCIRCUITTRACE"
  | TCODE_INCIRCUITTRACE_WS => "INCIRCUITTRACE WS"
  | TCODE_UNDEFINED => "UNDEFINED"
  end)%string.

(** What is said of the body at level 2: the struct of the union that the type names is read. *)
Definition bodyPieces (nm : NexusMessage) : option (list (list ascii)) :=
  match nm_tcode nm with
  | TCODE_OWNERSHIP_TRACE => match nm_body nm with B_ownership pid v prv tag => Some (ownershipPieces pid v prv tag) | _ => None end
  | TCODE_DIRECT_BRANCH => match nm_body nm with B_directBranch i => Some [chars " I-CNT: " ++ percent_int i] | _ => None end
  | TCODE_INDIRECT_BRANCH => match nm_body nm with B_indirectBranch i u b => Some [indirectBranchPiece i u b] | _ => None end
  | TCODE_ERROR => match nm_body nm with B_error e => Some [chars " Error Type " ++ percent_int e] | _ => None end
  | TCODE_SYNC => match nm_body nm with B_sync i f s => Some [syncPiece i f s] | _ => None end
  | TCODE_DIRECT_BRANCH_WS => match nm_body nm with B_directBranchWS i f s => Some [directBranchWSPiece i f s] | _ => None end
  | TCODE_INDIRECT_BRANCH_WS => match nm_body nm with B_indirectBranchWS i f b s => Some [indirectBranchWSPiece i f b s] | _ => None end
  | TCODE_DATA_ACQUISITION => match nm_body nm with B_dataAcquisition t d => Some [dataAcquisitionPiece t d] | _ => None end
  | TCODE_AUXACCESS_WRITE => match nm_body nm with B_auxAccessWrite d a => Some [auxAccessWritePiece d a] | _ => None end
  | TCODE_RESOURCEFULL => match nm_body nm with B_resourceFull r rd => resourceFullPieces r rd | _ => None end
  | TCODE_INDIRECTBRANCHHISTORY => match nm_body nm with B_indirectHistory i u b h => Some [indirectHistoryPiece i u b h] | _ => None end
  | TCODE_INDIRECTBRANCHHISTORY_WS =>
      match nm_body nm with B_indirectHistoryWS i f b h s => Some [indirectHistoryWSPiece i f b h s] | _ => None end
  | TCODE_CORRELATION => match nm_body nm with B_correlation h i cdf e => correlationPieces h i cdf e | _ => None end
  | TCODE_INCIRCUITTRACE =>
      match nm_body nm with B_ict src df d0 d1 => (fun t => [t]) <$> ictText (nm_currentAddress nm) src df d0 d1 | _ => None end
  | TCODE_INCIRCUITTRACE_WS =>
      match nm_body nm with B_ictWS src df d0 d1 => (fun t => [t]) <$> ictWSText (nm_currentAddress nm) src df d0 d1 | _ => None end
  | _ => Some []
  end.

Definition typePiece (nm : NexusMessage) : option (list ascii) :=
  let t := tcode_val (nm_tcode nm) in
  let name := tcodeText (nm_tcode nm) in
  match nm_tcode nm with
  | TCODE_INCIRCUITTRACE => match nm_body nm with B_ict src df _ _ => Some (ictHead name t (nm_currentAddress nm) src df) | _ => None end
  | TCODE_INCIRCUITTRACE_WS => match nm_body nm with B_ictWS src df _ _ => Some (ictHead name t (nm_currentAddress nm) src df) | _ => None end
  | _ => Some (name ++ chars " (" ++ percent_int t ++ chars ")")
  end.

Definition messagePieces (targetFrequency level : Z) (nm : NexusMessage) : option (list (list ascii)) :=
  name ← typePiece nm;
  body ← (if 2 <=? level then bodyPieces nm else Some []);
  Some (headPieces targetFrequency level nm ++ [name] ++ body).

(** [messageToText] and [messageToString]; without a buffer nothing is written. *)
Definition messageToText (targetFrequency : Z) (dst_len : nat) (level : Z) (nm : NexusMessage) : option (list ascii) :=
  if (dst_len =? 0)%nat then Some []
  else if level <=? 0 then Some []
  else pieces ← messagePieces targetFrequency level nm; snprintfs dst_len 0 [] pieces.
Definition messageToString (targetFrequency level : Z) (nm : NexusMessage) : option (list ascii) :=
  messageToText targetFrequency 512 level nm.

(** [seconds] *)
Definition seconds (targetFrequency : Z) (nm : NexusMessage) : Float :=
  if nm_haveTimestamp nm then
    if targetFrequency =? 0 then ofInt doubleBits (nm_time nm)
    else fdiv doubleBits (ofInt doubleBits (nm_time nm)) (ofInt doubleBits targetFrequency)
  else Finite 0 1.

(** ** What is printed while looking for errors *)

(** [dumpRawMessage] *)
Fixpoint rawDump (rawData : list Z) : list ascii :=
  match rawData with
  | [] => chars "no end of message" ++ [lf]
  | b :: rawData => if Z.land b 3 =? MSEO_END then percent_02x b ++ [lf] else percent_02x b ++ chars " " ++ rawDump rawData
  end.
Definition dumpRawMessage (nm : NexusMessage) : list ascii :=
  chars "Raw Message # " ++ percent_int (nm_msgNum nm) ++ chars ": " ++ rawDump (nm_rawData nm).

(** A stream writes a number in base 16 as [%x] does. *)
Definition percent_x (x : Z) : list ascii := formatHex false 1 x.

(** [case TCODE_INCIRCUITTRACE] of [dump]; an event without an enumerator is not told. *)
Definition dumpICT (n : list ascii) (cksrc : ICTReason) (ckdf d0 : Z) (d1 : option Z) : option (list ascii) :=
  let head name := chars "  # Trace Message(" ++ n ++ chars "): In Circuit Trace " ++ chars name ++ chars ", cksrc=" ++ percent_d (ict_val cksrc) ++
    chars ", ckdf=" ++ percent_d ckdf in
  let pc := chars ", PC=0x" ++ percent_x d0 in
  let more (t : list ascii) (f : Z -> list ascii) := if 0 <? ckdf then (fun d1 => t ++ f d1 ++ [lf]) <$> d1 else Some (t ++ [lf]) in
  match cksrc with
  | ICT_EXT_TRIG => more (head "External Trigger"%string ++ pc) (fun d1 => chars ", ID=" ++ percent_u d1)
  | ICT_CONTROL =>
      if 0 <? ckdf then (fun d1 => head "Control"%string ++ pc ++ chars ", Control=" ++ percent_u d1 ++ [lf]) <$> d1
      else Some (head "Control"%string ++ chars ", Control=" ++ percent_u d0 ++ [lf])
  | ICT_INFERABLECALL => more (head "Call/Return"%string ++ pc) (fun d1 => chars ", PCDest=0x" ++ percent_x d1)
  | ICT_EXCEPTION => (fun d1 => head "Exception"%string ++ pc ++ chars ", Cause=" ++ percent_u d1 ++ [lf]) <$> d1
  | ICT_INTERRUPT => (fun d1 => head "Interrupt"%string ++ pc ++ chars ", Cause=" ++ percent_u d1 ++ [lf]) <$> d1
  | ICT_CONTEXT => (fun d1 => head "Context"%string ++ pc ++ chars ", Context=0x" ++ percent_x d1 ++ [lf]) <$> d1
  | ICT_WATCHPOINT => more (head "Watchpoint"%string ++ pc) (fun d1 => chars ", ID=" ++ percent_u d1)
  | ICT_PC_SAMPLE => Some (head "PC Sample"%string ++ pc ++ [lf])
  | ICT_NONE | ICT_reserved _ => Some []
  end.

(** [case TCODE_INCIRCUITTRACE_WS] of [dump]; an event without an enumerator is not told. *)
Definition dumpICTWS (n : list ascii) (cksrc : ICTReason) (ckdf d0 : Z) (d1 : option Z) : option (list ascii) :=
  let head name := chars "  # Trace Message(" ++ n ++ chars "): In Circuit Trace WS " ++ chars name ++ chars ", cksrc=" ++ percent_d (ict_val cksrc) ++
    chars ", ckdf=" ++ percent_d ckdf in
  let pc := chars ", PC=0x" ++ percent_x d0 in
  let more (t : list ascii) (f : Z -> list ascii) := if 0 <? ckdf then (fun d1 => t ++ f d1 ++ [lf]) <$> d1 else Some (t ++ [lf]) in
  match cksrc with
  | ICT_EXT_TRIG => more (head "External Trigger"%string ++ pc) (fun d1 => chars ", ID=" ++ percent_u d1)
  | ICT_CONTROL =>
      if 0 <? ckdf then (fun d1 => head "Control"%string ++ pc ++ chars ", Control=" ++ percent_u d1 ++ [lf]) <$> d1
      else Some (head "Control"%string ++ chars ", Control=" ++ percent_u d0 ++ [lf])
  | ICT_INFERABLECALL => more (head "Call/Return"%string ++ pc) (fun d1 => chars ", PCDest=0x" ++ percent_x d1)
  | ICT_EXCEPTION => (fun d1 => head "Exception"%string ++ pc ++ chars ", Cause=" ++ percent_u d1 ++ [lf]) <$> d1
  | ICT_INTERRUPT => (fun d1 => head "Interrupt"%string ++ pc ++ chars ", Cause=" ++ percent_u d1 ++ [lf]) <$> d1
  | ICT_CONTEXT => (fun d1 => head "Context"%string ++ pc ++ chars ", Context=0x" ++ percent_x d1 ++ [lf]) <$> d1
  | ICT_WATCHPOINT => more (head "Watchpoint"%string ++ pc) (fun d1 => chars ", ID=" ++ percent_u d1)
  | ICT_PC_SAMPLE => Some (head "PC Sample"%string ++ pc ++ [lf])
  | ICT_NONE | ICT_reserved _ => Some []
  end.

(** [case TCODE_RESOURCEFULL] of [dump] *)
Definition dumpResourceFull (n : list ascii) (rCode : Z) (rd : RData) : option (list ascii) :=
  let told key value := Some (chars "  # Trace Message(" ++ n ++ chars "): Resource Full, rCode=" ++ percent_d rCode ++ chars key ++ value ++ [lf]) in
  match rCode with
  | 0 => match rd with R_i_cnt i => told ", ICNT="%string (percent_d i) | _ => None end
  | 1 => match rd with R_history h => told ", History=0x"%string (percent_x h) | _ => None end
  | 8 => match rd with R_notTakenCount c => told ", Not taken="%string (percent_u c) | _ => None end
  | 9 => match rd with R_takenCount c => told ", Taken="%string (percent_u c) | _ => None end
  | _ => Some (chars "  # Trace Message(" ++ n ++ chars "): Resource Full, Invalid or unsupported rCode for reourceFull TCODE" ++ [lf])
  end.

(** [dump] *)
Definition dump (nm : NexusMessage) : option (list ascii) :=
  let n := percent_int (nm_msgNum nm) in
  let told (l : list ascii) := chars "  # Trace Message(" ++ n ++ chars "): " ++ l ++ [lf] in
  let core := chars "[" ++ percent_d (nm_coreId nm) ++ chars "]" in
  let unsupported name := Some (chars "unsupported " ++ chars name ++ chars " trace message" ++ [lf]) in
  match nm_tcode nm with
  | TCODE_DEBUG_STATUS => unsupported "debug status"%string
  | TCODE_DEVICE_ID => unsupported "device id"%string
  | TCODE_OWNERSHIP_TRACE => match nm_body nm with B_ownership pid _ _ _ => Some (told (chars "Ownership, pid=" ++ percent_d pid)) | _ => None end
  | TCODE_DIRECT_BRANCH => match nm_body nm with B_directBranch i => Some (told (chars "Direct Branch, ICNT=" ++ percent_d i)) | _ => None end
  | TCODE_INDIRECT_BRANCH =>
      match nm_body nm with
      | B_indirectBranch i u b => Some (told (chars "Indirect Branch, BTYPE=" ++ percent_d (btype_val b) ++ chars ", ICNT=" ++ percent_d i ++ chars ", UADDR=0x" ++ percent_x u))
      | _ => None
      end
  | TCODE_RESOURCEFULL => match nm_body nm with B_resourceFull r rd => (fun t => core ++ t) <$> dumpResourceFull n r rd | _ => None end
  | TCODE_INDIRECTBRANCHHISTORY =>
      match nm_body nm with
      | B_indirectHistory i u b h => Some (core ++ told (chars "Indirect Branch History, ICNT=" ++ percent_d i ++ chars ", BTYPE=" ++ percent_d (btype_val b) ++
          chars ", UADDR=0x" ++ percent_x u ++ chars ", history=0x" ++ percent_x h))
      | _ => None
      end
  | TCODE_DATA_WRITE => unsupported "data write"%string
  | TCODE_DATA_READ => unsupported "data read"%string
  | TCODE_DATA_ACQUISITION => unsupported "data acquisition"%string
  | TCODE_ERROR => match nm_body nm with B_error e => Some (told (chars "Error, ETYPE=" ++ percent_u e)) | _ => None end
  | TCODE_SYNC =>
      match nm_body nm with
      | B_sync i f s => Some (told (chars "Sync, SYNCREASON=" ++ percent_d (sync_val s) ++ chars ", ICNT=" ++ percent_d i ++ chars ", FADDR=0x" ++ percent_x f))
      | _ => None
      end
  | TCODE_CORRECTION => unsupported "correction"%string
  | TCODE_DIRECT_BRANCH_WS =>
      match nm_body nm with
      | B_directBranchWS i f s => Some (told (chars "Direct Branch With Sync, SYNCTYPE=" ++ percent_d (sync_val s) ++ chars ", ICNT=" ++ percent_d i ++
          chars ", FADDR=0x" ++ percent_x f))
      | _ => None
      end
  | TCODE_INDIRECT_BRANCH_WS =>
      match nm_body nm with
      | B_indirectBranchWS i f b s => Some (told (chars "Indirect Branch With sync, SYNCTYPE=" ++ percent_d (sync_val s) ++ chars ", BTYPE=" ++
          percent_d (btype_val b) ++ chars ", ICNT=" ++ percent_d i ++ chars ", FADDR=0x" ++ percent_x f))
      | _ => None
      end
  | TCODE_DATA_WRITE_WS => unsupported "data write with sync"%string
  | TCODE_DATA_READ_WS => unsupported "data read with sync"%string
  | TCODE_WATCHPOINT => unsupported "watchpoint"%string
  | TCODE_AUXACCESS_WRITE =>
      match nm_body nm with
      | B_auxAccessWrite d a => Some (told (chars "Auxillary Access Write, address=" ++ percent_x a ++ chars ", data=" ++ percent_x d))
      | _ => None
      end
  | TCODE_CORRELATION =>
      match nm_body nm with
      | B_correlation _ i cdf e => Some (told (chars "Correlation, EVCODE=" ++ percent_u e ++ chars ", CDF=" ++ percent_d cdf ++ chars ", ICNT=" ++ percent_d i))
      | _ => None
      end
  | TCODE_INCIRCUITTRACE => match nm_body nm with B_ict src df d0 d1 => dumpICT n src df d0 d1 | _ => None end
  | TCODE_INCIRCUITTRACE_WS => match nm_body nm with B_ictWS src df d0 d1 => dumpICTWS n src df d0 d1 | _ => None end
  | TCODE_INDIRECTBRANCHHISTORY_WS | TCODE_OUTPUT_PORTREPLACEMENT | TCODE_INPUT_PORTREPLACEMENT | TCODE_AUXACCESS_READ
  | TCODE_AUXACCESS_READNEXT | TCODE_AUXACCESS_WRITENEXT | TCODE_AUXACCESS_RESPONSE | TCODE_REPEATBRANCH | TCODE_REPEATINSTRUCTION
  | TCODE_REPEATINSTRUCTION_WS | TCODE_UNDEFINED =>
      let t := tcode_val (nm_tcode nm) in
      Some (chars "Error: NexusMessage::dump(): Unknown TCODE " ++ percent_d t ++ chars " (0x" ++ percent_x t ++ chars "), msgnum: " ++ n ++ [lf])
  end.
