(* ===== verification/MsgRead.v ===== *)
(** * The texts of messages

    How long the text of a message can be, and a reader of what it says at level 3: the
    number of the message, its place in the file and its bytes. *)

From stdpp Require Import strings.
From Stdlib Require Import Ascii.
From Stdlib Require String.
From S2P Require Import Prelude Nexus Encode RoundTrip ObjDump ObjDumpPrint Ctf Floats Events EventsRead MsgText.

(** ** The reader *)

(** The bytes of the message that the array holds. *)
Fixpoint messageBytes (rawData : list Z) : list Z :=
  match rawData with
  | [] => []
  | b :: rawData => b :: (if Z.land b 3 =? MSEO_END then [] else messageBytes rawData)
  end.

(** Bytes of two digits with colons between them. *)
Fixpoint readBytes (l : list ascii) : option (list Z) :=
  match l with
  | a :: b :: l =>
      x ← hexDigit a; y ← hexDigit b;
      match l with
      | [] => Some [16 * x + y]
      | c :: l => if decide (c = ":"%char) then bs ← readBytes l; Some (16 * x + y :: bs) else None
      end
  | _ => None
  end.

(** The number, the offset and the bytes at the start of a text. *)
Definition readMessage (t : list ascii) : option (Z * Z * list Z) :=
  t ← strip (chars "Msg # ") t; '(w, t) ← upTo "," t; n ← readInt w;
  t ← strip (chars " Offset ") t; '(w, t) ← upTo "," t; off ← readInt w;
  t ← strip (chars " ") t; '(w, _) ← upTo "," t; bs ← readBytes w;
  Some (n, off, bs).

(** ** Messages whose text reads what was not written *)

(** [ckdata[1]] of an exception, an interrupt or a context is printed whether the message has it or not. *)
Definition printsUnwritten (level : Z) (nm : NexusMessage) : bool :=
  (2 <=? level) &&
  match nm_body nm with
  | B_ict (ICT_EXCEPTION | ICT_INTERRUPT | ICT_CONTEXT) _ _ None | B_ictWS (ICT_EXCEPTION | ICT_INTERRUPT | ICT_CONTEXT) _ _ None => true
  | _ => false
  end.

(** The array of a message has its 32 bytes. *)
Definition raw_ok (nm : NexusMessage) : Prop := length (nm_rawData nm) = 32%nat /\ Forall (fun b => 0 <= b < 256) (nm_rawData nm).

(** ** Lengths *)

Lemma formatHex_length upper w x : (w <= 16)%nat -> (length (formatHex upper w x) <= 16)%nat.
Proof. intros Hw. unfold formatHex. rewrite hex_length. pose proof (hexLength_le 16 x). lia. Qed.

(** The length of a piece: of its parts, of which a number has at most 21 characters. *)
Ltac numberLengths := repeat match goal with
  | |- context [length (percent_d ?x)] => generalize (percent_d_length x); generalize (length (percent_d x)); intros ? ?
  | |- context [length (percent_u ?x)] => generalize (percent_u_length x); generalize (length (percent_u x)); intros ? ?
  | |- context [length (formatHex ?u ?w ?x)] => generalize (formatHex_length u w x ltac:(lia)); generalize (length (formatHex u w x)); intros ? ?
  end.
Ltac charsLengths := repeat match goal with
  | |- context [length (chars ?s)] => let n := eval vm_compute in (length (chars s)) in change (length (chars s)) with n
  end.
Ltac pieceLength := rewrite ?length_app, ?length_nil; unfold percent_02x, percent_04x, percent_08lx, percent_int; charsLengths; numberLengths; lia.

Definition sizes (l : list (list ascii)) : nat := length (concat l).
Lemma sizes_app a b : sizes (a ++ b) = (sizes a + sizes b)%nat.
Proof. unfold sizes. by rewrite concat_app, length_app. Qed.
Lemma sizes_one p : sizes [p] = length p.
Proof. unfold sizes. cbn [concat]. by rewrite app_nil_r. Qed.
Lemma sizes_cons p l : sizes (p :: l) = (length p + sizes l)%nat.
Proof. unfold sizes. cbn [concat]. by rewrite length_app. Qed.

Lemma syncText_length s : (length (syncText s) <= 18)%nat.
Proof. destruct s; vm_compute; lia. Qed.
Lemma btypeText_length b : (length (btypeText b) <= 9)%nat.
Proof. destruct b; vm_compute; lia. Qed.

Definition isICT (t : TCode) : bool := match t with TCODE_INCIRCUITTRACE | TCODE_INCIRCUITTRACE_WS => true | _ => false end.

Lemma rawPieces_size raw : Forall (fun b => 0 <= b < 256) raw -> forall first, (sizes (rawPieces first raw) <= 3 * length raw)%nat.
Proof.
  induction 1 as [|b raw Hb _ IH]; intros first; cbn [rawPieces]; [done|]. rewrite sizes_cons, length_app.
  assert (length (percent_02x b) = 2)%nat as ->.
  { unfold percent_02x, formatHex. rewrite hex_length. assert (hexLength 16 b <= 2)%nat; [|lia].
    cbn [hexLength]. destruct (b =? 0); [lia|]. destruct (b / 16 =? 0); [lia|].
    assert (b / 16 / 16 = 0) as -> by (rewrite Z.div_div by lia; apply Z.div_small; lia). cbn. lia. }
  specialize (IH false). destruct (Z.land b 3 =? MSEO_END), first; cbn [length]; unfold sizes in *; cbn; lia.
Qed.

Lemma timePiece_size freq nm : (sizes (timePiece freq nm) <= 37)%nat.
Proof.
  unfold timePiece. destruct (nm_haveTimestamp nm); [|cbn; lia]. destruct (freq =? 0); rewrite sizes_one, !length_app; charsLengths.
  - numberLengths. lia.
  - pose proof (percent_f_length [] 8 (fdiv doubleBits (ofInt doubleBits (nm_time nm)) (ofInt doubleBits freq)) ltac:(cbn; lia)). lia.
Qed.

Lemma head_size freq level nm : raw_ok nm -> (sizes (headPieces freq level nm) <= 194 + (if isICT (nm_tcode nm) then 0 else 34))%nat.
Proof.
  intros [Hl Hr]. unfold headPieces. rewrite !sizes_app, sizes_one. pose proof (timePiece_size freq nm) as Ht.
  assert (sizes (if (3 <=? level)%Z then [chars "Offset " ++ percent_int (nm_offset nm) ++ chars ", "] ++ rawPieces true (nm_rawData nm) ++ [chars ", "] else [])
    <= 128)%nat as Ho.
  { destruct (3 <=? level)%Z; [|cbn; lia]. rewrite !sizes_app, !sizes_one. pose proof (rawPieces_size _ Hr true) as H. rewrite Hl in H.
    pieceLength. }
  assert (sizes (if decide (nm_tcode nm = TCODE_INCIRCUITTRACE \/ nm_tcode nm = TCODE_INCIRCUITTRACE_WS) then []
    else [chars "NxtAddr: " ++ percent_08lx (nm_currentAddress nm) ++ chars ", TCode: "]) <= (if isICT (nm_tcode nm) then 0 else 34))%nat as Hn.
  { destruct (decide _) as [[-> | ->]|Hn]; [done..|].
    assert (isICT (nm_tcode nm) = false) as -> by (destruct (nm_tcode nm); try done; exfalso; apply Hn; auto). rewrite sizes_one. pieceLength. }
  assert (length (chars "Msg # " ++ percent_int (nm_msgNum nm) ++ chars ", ") <= 29)%nat as Hm by pieceLength.
  lia.
Qed.

Lemma type_size nm p : typePiece nm = Some p -> (length p <= 50 + (if isICT (nm_tcode nm) then 24 else 0))%nat.
Proof.
  unfold typePiece. cbv zeta. assert (length (tcodeText (nm_tcode nm)) <= 26)%nat as Hn by (destruct (nm_tcode nm); vm_compute; lia). intros Hp.
  assert (forall v, length (tcodeText (nm_tcode nm) ++ chars " (" ++ percent_int v ++ chars ")") <= 50)%nat as H
    by (intros v; pieceLength).
  destruct (nm_tcode nm); cbn [isICT]; try (apply (inj Some) in Hp as <-; eapply Nat.le_trans; [apply H|lia]);
    destruct (nm_body nm); try done; apply (inj Some) in Hp as <-; unfold ictHead, tcodeText;
    destruct (bool_decide _ && _); pieceLength.
Qed.

Lemma ictContextText_length d : length (ictContextText d) = 9%nat.
Proof. unfold ictContextText. by destruct (Z.land d 3) as [|[[]|[]|]|]. Qed.

Ltac ictLength H src d1 :=
  unfold readsData1 in H; cbv zeta in H; destruct src; cbn [fmap option_fmap option_map] in H;
  repeat (destruct (_ =? _) in H || destruct d1 in H; cbn [fmap option_fmap option_map] in H);
  try discriminate; apply (inj Some) in H as <-; rewrite ?length_app, ?ictContextText_length; pieceLength.
Lemma ictText_size a src df d0 d1 t : ictText a src df d0 d1 = Some t -> (length t <= 181)%nat.
Proof. unfold ictText. intros H. ictLength H src d1. Qed.
Lemma ictWSText_size a src df d0 d1 t : ictWSText a src df d0 d1 = Some t -> (length t <= 181)%nat.
Proof. unfold ictWSText. intros H. ictLength H src d1. Qed.

Lemma modeTxt_length v prv : (length (modeTxt v prv) <= 20)%nat.
Proof. unfold modeTxt. destruct (v =? 0)%Z; destruct prv as [|[[]|[]|]|]; vm_compute; lia. Qed.
Lemma ownershipPieces_size pid v prv tag : (sizes (ownershipPieces pid v prv tag) <= 181)%nat.
Proof.
  unfold ownershipPieces. rewrite sizes_app, sizes_one.
  pose proof (modeTxt_length v prv).
  assert (sizes match tag with
    | 0 => [chars " V or Prv change: "] | 1 => [chars " Bad ownership tag: b01: "]
    | 2 => [chars " sync or scontext change: pid=" ++ percent_int pid ++ chars ", "]
    | 3 => [chars " sync or hcontext change: pid=" ++ percent_int pid ++ chars ", "] | _ => [] end%Z <= 80)%nat as Ht.
  { destruct tag as [|[[]|[]|]|]; rewrite ?sizes_one; pieceLength || (cbn; lia). }
  lia.
Qed.

Lemma partOfWord_length t data : (length (partOfWord t data) <= 16)%nat.
Proof. unfold partOfWord. destruct (Z.land t 3) as [|[[]|[]|]|]; pieceLength. Qed.

Lemma resourceFullPieces_size r rd l : resourceFullPieces r rd = Some l -> (sizes l <= 181)%nat.
Proof.
  unfold resourceFullPieces. intros (p & Hp & Hl)%bind_Some. apply (inj Some) in Hl as <-. rewrite sizes_cons, sizes_one.
  assert (length p <= 50)%nat; [|pieceLength].
  destruct rd, r as [|[[[[]|[]|]|[[]|[]|]|]|[[[]|[]|]|[[]|[]|]|]|]|]; try discriminate; apply (inj Some) in Hp as <-; pieceLength.
Qed.

Lemma correlationPieces_size h i cdf e l : correlationPieces h i cdf e = Some l -> (sizes l <= 181)%nat.
Proof.
  unfold correlationPieces. cbv zeta. intros H. destruct (0 <? cdf)%Z; [destruct h; [|discriminate]; cbn [fmap option_fmap option_map] in H|];
    apply (inj Some) in H as <-; rewrite ?sizes_cons; change (sizes []) with O; pieceLength.
Qed.

Lemma body_size nm l : bodyPieces nm = Some l -> (sizes l <= 181)%nat.
Proof.
  unfold bodyPieces. intros H. destruct (nm_tcode nm); try (apply (inj Some) in H as <-; cbn; lia); destruct (nm_body nm); try discriminate.
  all: try (eapply resourceFullPieces_size; done); try (eapply correlationPieces_size; done).
  all: try (apply fmap_Some in H as (t & Ht & ->); rewrite sizes_one; first [by eapply ictText_size|by eapply ictWSText_size]).
  all: apply (inj Some) in H as <-; try apply ownershipPieces_size; rewrite ?sizes_one.
  all: unfold indirectBranchPiece, syncPiece, directBranchWSPiece, indirectBranchWSPiece, dataAcquisitionPiece, auxAccessWritePiece,
    indirectHistoryPiece, indirectHistoryWSPiece.
  all: try match goal with |- context [syncText ?s] => pose proof (syncText_length s) end.
  all: try match goal with |- context [btypeText ?b] => pose proof (btypeText_length b) end.
  all: try match goal with |- context [partOfWord ?t ?d] => pose proof (partOfWord_length t d) end.
  all: pieceLength.
Qed.

(** ** What the buffer holds *)

(** Pieces for which there is room are all there. *)
Lemma snprintfs_fit len pieces : forall n dst, (n + sizes pieces < len)%nat -> snprintfs len n dst pieces = Some (dst ++ concat pieces).
Proof.
  induction pieces as [|p pieces IH]; intros n dst H; cbn [snprintfs concat]; [by rewrite app_nil_r|].
  rewrite sizes_cons in H. destruct (Nat.ltb_spec len n); [lia|]. rewrite IH by lia. rewrite take_ge by lia. by rewrite <-app_assoc.
Qed.

(** The pieces of a message: all of them, unless one reads what was not written. *)
Lemma type_defined nm : body_matches (nm_tcode nm) (nm_body nm) = true -> exists p, typePiece nm = Some p.
Proof. unfold typePiece. cbv zeta. destruct (nm_tcode nm); try (by eexists); destruct (nm_body nm); try discriminate; by eexists. Qed.

Lemma body_defined nm : body_matches (nm_tcode nm) (nm_body nm) = true ->
  if printsUnwritten 2 nm then bodyPieces nm = None else is_Some (bodyPieces nm).
Proof.
  unfold bodyPieces, printsUnwritten. cbn [Z.leb Z.compare Pos.compare Pos.compare_cont andb].
  intros H. destruct (nm_tcode nm) eqn:Et; try done; destruct (nm_body nm) as
    [|?|? ? ?|? ? ?|? ? ? ?|? ? ? ?|? ? ? ? ?|r rd|? ? ?|?|h i cdf e|? ?|? ?|? ? ? ?|src df d0 d1|src df d0 d1]; try discriminate; try by eexists.
  - apply resource_codes in H. destruct rd; subst r; by eexists.
  - assert (cdf = match h with None => 0 | Some _ => 1 end) as -> by (eapply (option_codes (fun cd d => B_correlation d 0 cd 0)); [by left|exact H]). destruct h; by eexists.
  - assert (df = match d1 with None => 0 | Some _ => 1 end) as -> by (eapply (option_codes (fun cd d => B_ict ICT_CONTROL cd 0 d)); [by right; left|exact H]). destruct src, d1; done || by eexists.
  - assert (df = match d1 with None => 0 | Some _ => 1 end) as -> by (eapply (option_codes (fun cd d => B_ictWS ICT_CONTROL cd 0 d)); [by right; right|exact H]). destruct src, d1; done || by eexists.
Qed.

Lemma pieces_defined freq level nm : body_matches (nm_tcode nm) (nm_body nm) = true ->
  if printsUnwritten level nm then messagePieces freq level nm = None else
  exists name body, messagePieces freq level nm = Some (headPieces freq level nm ++ [name] ++ body) /\
    typePiece nm = Some name /\ (sizes body <= 181)%nat.
Proof.
  intros H. destruct (type_defined nm H) as [name En]. pose proof (body_defined nm H) as Hb. unfold messagePieces, printsUnwritten in *. rewrite En.
  cbn [Z.leb Z.compare Pos.compare Pos.compare_cont andb mbind option_bind] in *. destruct (2 <=? level); cbn [andb].
  - destruct (match nm_body nm with B_ict _ _ _ _ => _ | _ => _ end); [by rewrite Hb|]. destruct Hb as [body Eb]. rewrite Eb.
    exists name, body. split_and!; [done..|]. by apply (body_size nm).
  - exists name, []. split_and!; [done..|cbn; lia].
Qed.

(** ** The reader reads the text *)

Lemma number_not c x : numberChar c = false -> Forall (fun y => y <> c) (percent_d x).
Proof. intros Hc. apply number_plain; [done|apply percent_d_chars]. Qed.

Lemma readBytes_cons b bs t : 0 <= b < 256 -> readBytes t = Some bs ->
  readBytes (percent_02x b ++ ":"%char :: t) = Some (b :: bs) /\ readBytes (percent_02x b) = Some [b].
Proof.
  intros Hb Ht. assert (percent_02x b = [digitChar false (b / 16); digitChar false (b mod 16)]) as ->.
  { unfold percent_02x, formatHex. assert (hexLength 16 b <= 2)%nat as Hl.
    { cbn [hexLength]. destruct (b =? 0); [lia|]. destruct (b / 16 =? 0); [lia|].
      assert (b / 16 / 16 = 0) as -> by (rewrite Z.div_div by lia; apply Z.div_small; lia). cbn. lia. }
    rewrite Nat.max_l by lia. cbn [hexDigits app]. rewrite (Z.mod_small (b / 16)); [done|].
    split; [apply Z.div_pos; lia|apply Z.div_lt_upper_bound; lia]. }
  pose proof (Z.mod_pos_bound b 16 ltac:(lia)). pose proof (Z.div_mod b 16 ltac:(lia)).
  assert (0 <= b / 16 < 16) by (split; [apply Z.div_pos; lia|apply Z.div_lt_upper_bound; lia]).
  cbn [app readBytes]. rewrite !hexDigit_char by lia. cbn [mbind option_bind]. rewrite decide_True by done. rewrite Ht. cbn [mbind option_bind].
  replace (16 * (b / 16) + b mod 16) with b by lia. done.
Qed.

Lemma percent_02x_plain b : 0 <= b -> Forall (fun c => c <> ","%char) (percent_02x b).
Proof.
  intros Hb. apply number_plain; [done|]. unfold percent_02x, formatHex. generalize (2 `max` hexLength 16 b)%nat. intros n. revert b Hb.
  induction n as [|n IH]; intros b Hb; cbn [hexDigits]; [constructor|]. pose proof (Z.mod_pos_bound b 16 ltac:(lia)).
  apply list.Forall_app. split; [apply IH; by apply Z.div_pos|]. constructor; [by apply digit_number|constructor].
Qed.

Lemma readBytes_raw raw : raw <> [] -> Forall (fun b => 0 <= b < 256) raw ->
  readBytes (concat (rawPieces true raw)) = Some (messageBytes raw) /\ Forall (fun c => c <> ","%char) (concat (rawPieces true raw)).
Proof.
  intros Hne Hr. induction Hr as [|b raw Hb Hr IH]; [done|]. cbn [rawPieces concat messageBytes app].
  pose proof (percent_02x_plain b ltac:(lia)) as Hp. destruct (Z.land b 3 =? MSEO_END).
  { cbn [concat]. rewrite app_nil_r. split; [|done]. by apply (readBytes_cons b [0] (chars "00")). }
  destruct raw as [|b2 raw]; [cbn [rawPieces concat messageBytes]; rewrite app_nil_r; split; [by apply (readBytes_cons b [0] (chars "00"))|done]|].
  destruct (IH ltac:(done)) as [IH1 IH2]. change (concat (rawPieces false (b2 :: raw))) with (":"%char :: concat (rawPieces true (b2 :: raw))).
  split; [by apply readBytes_cons|]. apply list.Forall_app. split; [done|]. by constructor.
Qed.

(** The start of a text at level 3. *)
Lemma readMessage_head freq level nm rest : raw_ok nm -> 3 <= level ->
  readMessage (concat (headPieces freq level nm) ++ rest) = Some (i32 (nm_msgNum nm), i32 (nm_offset nm), messageBytes (nm_rawData nm)).
Proof.
  intros [Hl Hr] Hlev. unfold headPieces. destruct (Z.leb_spec 3 level); [|lia].
  destruct (readBytes_raw (nm_rawData nm)) as [Hb Hp]; [by intros E; rewrite E in Hl|done|]. rewrite !concat_app. cbn [concat].
  generalize (concat (timePiece freq nm)). intros t. generalize (concat (if decide (nm_tcode nm = TCODE_INCIRCUITTRACE \/ nm_tcode nm = TCODE_INCIRCUITTRACE_WS)
    then [] else [chars "NxtAddr: " ++ percent_08lx (nm_currentAddress nm) ++ chars ", TCode: "])). intros u.
  unfold readMessage. rewrite <-!app_assoc, strip_app. cbn [mbind option_bind]. unfold percent_int.
  change (chars ", ") with (","%char :: chars " "). cbn [app]. rewrite upTo_app by (by apply number_not). cbn [mbind option_bind].
  pose proof (small_i32 (nm_msgNum nm)). pose proof (small_i32 (nm_offset nm)). unfold small in *.
  rewrite readInt_d by lia. cbn [mbind option_bind].
  assert (forall l, strip (chars " Offset ") (chars " " ++ chars "Offset " ++ l) = Some l) as -> by (intros l; exact (strip_app (chars " Offset ") l)).
  cbn [mbind option_bind]. rewrite upTo_app by (by apply number_not). cbn [mbind option_bind]. rewrite readInt_d by lia. cbn [mbind option_bind].
  rewrite strip_app. cbn [mbind option_bind]. rewrite upTo_app by done. cbn [mbind option_bind]. by rewrite Hb.
Qed.
