(* ===== verification/AnalyticsText.v ===== *)
(** * AnalyticsText: the statistics as text (src/dqr.cpp, [Analytics::toText] and [toString])

    At level 1 a summary for all cores; at higher levels a table with a row for each counter, a
    column for each core that was seen, and, if messages name their core, a column for all of
    them.  A row is put together in an array of 512 characters, in which a column
    starts at one of nine tabs; then it is copied to what is left of the buffer of the caller. *)

From stdpp Require Import strings.
From Stdlib Require Import Ascii.
From Stdlib Require String.
From S2P Require Import Prelude Nexus Analytics ObjDump Ctf Floats Events.

(** ** The buffer of the caller *)

(** [snprintf(dst,dst_len,..)] and [updateDst]: what was written and how much is left. *)
Definition updateDst (n : Z) (dst_len : Z) : Z := if dst_len <=? n then 0 else dst_len - n.
Definition emitText (d : list ascii * Z) (s : list ascii) : list ascii * Z :=
  (fst d ++ take (Z.to_nat (snd d - 1)) s, updateDst (Z.of_nat (length s)) (snd d)).

(** ** A row of the table *)

(** [tabs] *)
Definition tabs : list nat := (fun k => 19 + 21 * k)%nat <$> seq 0 9.

(** [sprintf(tmp_dst+position,..)]; a row that does not fit in the array is undefined. *)
Definition putRow (t s : list ascii) : option (list ascii) := if (length t + length s <? 512)%nat then Some (t ++ s) else None.

(** [while (position < tabs[ts])]; there is no tab for a tenth column. *)
Definition padTo (ts : nat) (t : list ascii) : option (list ascii) := tab ← tabs !! ts; putRow t (replicate (tab - length t) " "%char).

(** The loop over the cores that were seen. *)
Fixpoint cells (show : Z -> list ascii) (cores : list Z) (ts : nat) (t : list ascii) : option (list ascii * nat) :=
  match cores with
  | [] => Some (t, ts)
  | i :: cores => t ← padTo ts t; t ← putRow t (show i); cells show cores (S ts) t
  end.

(** [%10u] *)
Definition percent_10u (x : Z) : list ascii := padLeft 10 (percent_u x).
(** What stands for a quotient by nothing. *)
Definition noQuotient : list ascii := chars "          -".

Section toText.
(** Whether the C library prints the sign of a result that is no number, and the object. *)
Context (negNan : bool) (srcBits : Z) (a : Analytics).

Definition nanText : list ascii := if negNan then chars "-nan" else chars "nan".
(** [%.2f] *)
Definition percent_2f (x : Float) : list ascii := percent_f nanText 2 x.

(** The cores whose bit is set. *)
Definition present : list Z := base.filter (fun i => Z.testbit (an_cores a) i = true) (seqZ 0 DQR_MAXCORES).
Definition count (c : CCtr) (i : Z) : Z := an_core a i c.

(** The totals that the loops keep in a [uint32_t]. *)
Definition sum32 (f : Z -> Z) : Z := fold_left (fun t i => u32 (t + f i)) present 0.
Definition least (f : Z -> Z) : Z := fold_left (fun t i => if (t =? 0) || (f i <? t) then f i else t) present 0.
Definition greatest (f : Z -> Z) : Z := fold_left (fun t i => if t <? f i then f i else t) present 0.

(** A row with a column for the total if messages have a source, and a row without. *)
Definition row (label : String.string) (show : Z -> list ascii) (total : list ascii) : option (list ascii) :=
  '(t, ts) ← cells show present 0 (chars label);
  if 0 <? srcBits then t ← padTo ts t; putRow t total else Some t.
Definition rowOfCores (label : String.string) (show : Z -> list ascii) : option (list ascii) := fst <$> cells show present 0 (chars label).

(** A counter, how much that is of another one, and an average. *)
Definition share (x n : Z) : list ascii :=
  if 0 <? n then percent_10u x ++ chars " (" ++ percent_2f (percentage x n) ++ chars "%)" else noQuotient.
Definition average (none : list ascii) (x n : Z) : list ascii := if 0 <? n then padLeft 13 (percent_2f (ratio x n)) else none.

Definition countRow (label : String.string) (c : CCtr) : option (list ascii) :=
  row label (fun i => percent_10u (count c i)) (percent_10u (sum32 (count c))).
Definition shareRow (label : String.string) (c per : CCtr) : option (list ascii) :=
  row label (fun i => share (count c i) (count per i)) (share (sum32 (count c)) (sum32 (count per))).
Definition leastRow (label : String.string) (c : CCtr) : option (list ascii) :=
  row label (fun i => percent_10u (count c i)) (percent_10u (least (count c))).
Definition greatestRow (label : String.string) (c : CCtr) : option (list ascii) :=
  row label (fun i => percent_10u (count c i)) (percent_10u (greatest (count c))).

(** ** The rows *)

Definition rowInstructions : option (list ascii) := countRow "Instructions"%string num_inst.
Definition rowCompressed : option (list ascii) := shareRow "  Compressed"%string num_inst16 num_inst.
Definition rowRV32 : option (list ascii) := shareRow "  RV32"%string num_inst32 num_inst.
(** The spaces before the total are printed to the standard output: the total is written behind the NUL that ends the row, and is not seen. *)
Definition rowTraceMsgs : option (list ascii) := 
  '(t, ts) ← cells (fun i => percent_10u (count num_trace_msgs i)) present 0 (chars "Trace Msgs"%string);
  if 0 <? srcBits then
    tab ← tabs !! ts;
    if (length t <? tab)%nat then Some t else putRow t (percent_10u (sum32 (count num_trace_msgs)))
  else Some t.
Definition rowSync : option (list ascii) := shareRow "  Sync"%string num_trace_syncs num_trace_msgs.
Definition rowDBranch : option (list ascii) := shareRow "  DBranch"%string num_trace_dbranch num_trace_msgs.
Definition rowIBranch : option (list ascii) := shareRow "  IBranch"%string num_trace_ibranch num_trace_msgs.
Definition rowDBranchWS : option (list ascii) := shareRow "  DBranch WS"%string num_trace_dbranchws num_trace_msgs.
Definition rowIBranchWS : option (list ascii) := shareRow "  IBranch WS"%string num_trace_ibranchws num_trace_msgs.
Definition rowDataAcq : option (list ascii) := shareRow "  Data Acq"%string num_trace_dataacq num_trace_msgs.
Definition rowCorrelation : option (list ascii) := shareRow "  Correlation"%string num_trace_correlation num_trace_msgs.
Definition rowAuxAccWrite : option (list ascii) := shareRow "  Aux Acc Write"%string num_trace_auxaccesswrite num_trace_msgs.
Definition rowOwnership : option (list ascii) := shareRow "  Ownership"%string num_trace_ownership num_trace_msgs.
Definition rowError : option (list ascii) := shareRow "  Error"%string num_trace_error num_trace_msgs.
Definition rowIHistory : option (list ascii) := shareRow "  IHistory"%string num_trace_ihistory num_trace_msgs.
Definition rowIHistoryWS : option (list ascii) := shareRow "  IHistory WS"%string num_trace_ihistoryws num_trace_msgs.
Definition rowRFullICNT : option (list ascii) := shareRow "  RFull ICNT"%string num_trace_resourcefull_i_cnt num_trace_msgs.
Definition rowRFullHIST : option (list ascii) := shareRow "  RFull HIST"%string num_trace_resourcefull_hist num_trace_msgs.
Definition rowRFullTaken : option (list ascii) := shareRow "  RFull Taken"%string num_trace_resourcefull_takenCount num_trace_msgs.
Definition rowRFullNTaken : option (list ascii) := shareRow "  RFull NTaken"%string num_trace_resourcefull_notTakenCount num_trace_msgs.
(** The total is that of the branch histories with sync. *)
Definition rowICTWS : option (list ascii) := 
  row "  ICT WS"%string (fun i => share (count num_trace_incircuittraceWS i) (count num_trace_msgs i))
    (share (sum32 (count num_trace_ihistoryws)) (sum32 (count num_trace_msgs))).
(** The total is that of the branch histories with sync. *)
Definition rowICT : option (list ascii) := 
  row "  ICT"%string (fun i => share (count num_trace_incircuittrace i) (count num_trace_msgs i))
    (share (sum32 (count num_trace_ihistoryws)) (sum32 (count num_trace_msgs))).
Definition rowTraceBitsTotal : option (list ascii) := countRow "Trace Bits Total"%string trace_bits.
Definition rowTraceBitsInst : option (list ascii) := 
  row "Trace Bits/Inst"%string (fun i => average noQuotient (count trace_bits i) (count num_inst i))
    (average noQuotient (sum32 (count trace_bits)) (sum32 (count num_inst))).
Definition rowInstTraceMsg : option (list ascii) := 
  row "Inst/Trace Msg"%string (fun i => average noQuotient (count num_inst i) (count num_trace_msgs i))
    (average noQuotient (sum32 (count num_inst)) (sum32 (count num_trace_msgs))).
(** The total leaves the branches of histories out. *)
Definition rowInstTakenBranch : option (list ascii) := 
  let messages i := count num_trace_dbranch i + count num_trace_ibranch i + count num_trace_dbranchws i + count num_trace_ibranchws i in
  let branches i := u32 (messages i + count num_trace_ihistory_taken_branches i + count num_trace_resourcefull_taken_branches i) in
  row "Inst/Taken Branch"%string (fun i => average noQuotient (count num_inst i) (branches i))
    (average noQuotient (sum32 (count num_inst)) (sum32 (fun i => u32 (messages i)))).
Definition rowAvgMsgLength : option (list ascii) := 
  row "Avg Msg Length"%string (fun i => average noQuotient (count trace_bits i) (count num_trace_msgs i))
    (average noQuotient (sum32 (count trace_bits)) (sum32 (count num_trace_msgs))).
Definition rowMinMsgLength : option (list ascii) := leastRow "Min Msg Length"%string trace_bits_min.
Definition rowMaxMsgLength : option (list ascii) := greatestRow "Max Msg Length"%string trace_bits_max.
Definition rowTimestampCounts : option (list ascii) := countRow "Timestamp Counts"%string num_trace_ts.
(** The bits of the timestamps of the cores that have any. *)
Definition timestampBits : Z := sum32 (fun i => if 0 <? count num_trace_ts i then count trace_bits_ts i else 0).
Definition rowTStampSizeAvg : option (list ascii) := 
  let none := chars "         0"%string in
  row "  TStamp Size Avg"%string (fun i => average none (count trace_bits_ts i) (count num_trace_ts i))
    (average none timestampBits (sum32 (count num_trace_ts))).
Definition rowTStampSizeMin : option (list ascii) := leastRow "  TStamp Size Min"%string trace_bits_ts_min.
Definition rowTStampSizeMax : option (list ascii) := greatestRow "  TStamp Size Max"%string trace_bits_ts_max.
Definition rowTimestampOfMsg : option (list ascii) := 
  let shown x n := if 0 <? n then padLeft 13 (percent_2f (percentage x n)) ++ chars "%"%string else noQuotient in
  row "Timestamp % of Msg"%string (fun i => shown (count trace_bits_ts i) (count trace_bits i))
    (shown timestampBits (sum32 (count trace_bits))).
Definition rowUADDRCounts : option (list ascii) := countRow "UADDR Counts"%string num_trace_uaddr.
Definition rowUADDRSizeAvg : option (list ascii) := 
  let none := chars "        0"%string in
  row "  UADDR Size Avg"%string (fun i => average none (count trace_bits_uaddr i) (count num_trace_uaddr i))
    (average none (sum32 (fun i => if 0 <? count num_trace_uaddr i then count trace_bits_uaddr i else 0)) (sum32 (count num_trace_uaddr))).
Definition rowUADDRSizeMin : option (list ascii) := leastRow "  UADDR Size Min"%string trace_bits_uaddr_min.
Definition rowUADDRSizeMax : option (list ascii) := greatestRow "  UADDR Size Max"%string trace_bits_uaddr_max.
Definition rowFADDRCounts : option (list ascii) := countRow "FADDR Counts"%string num_trace_faddr.
(** The total is of the bits of the last core only, and the addresses of all. *)
Definition rowFADDRSizeAvg : option (list ascii) := 
  let none := chars "        0"%string in
  let last := fold_left (fun t i => if 0 <? count num_trace_faddr i then count trace_bits_faddr i else t) present 0 in
  row "  FADDR Size Avg"%string (fun i => average none (count trace_bits_faddr i) (count num_trace_faddr i))
    (average none last (sum32 (count num_trace_faddr))).
Definition rowFADDRSizeMin : option (list ascii) := leastRow "  FADDR Size Min"%string trace_bits_faddr_min.
Definition rowFADDRSizeMax : option (list ascii) := greatestRow "  FADDR Size Max"%string trace_bits_faddr_max.
Definition rowTakenBranches : option (list ascii) := rowOfCores "Taken Branches"%string (fun i => percent_10u (count num_taken_branches i)).
Definition rowNotTakenBranches : option (list ascii) := rowOfCores "Not Taken Branches"%string (fun i => percent_10u (count num_notTaken_branches i)).
Definition rowCalls : option (list ascii) := rowOfCores "Calls"%string (fun i => percent_10u (count num_calls i)).
Definition rowReturns : option (list ascii) := rowOfCores "Returns"%string (fun i => percent_10u (count num_returns i)).
Definition rowSwaps : option (list ascii) := rowOfCores "Swaps"%string (fun i => percent_10u (count num_swaps i)).
Definition rowExceptions : option (list ascii) := rowOfCores "Exceptions"%string (fun i => percent_10u (count num_exceptions i)).
Definition rowExceptionReturns : option (list ascii) := rowOfCores "Exception Returns"%string (fun i => percent_10u (count num_exception_returns i)).
Definition rowInterrupts : option (list ascii) := rowOfCores "Interrupts"%string (fun i => percent_10u (count num_interrupts i)).

Definition rows : list (option (list ascii)) :=
  [rowInstructions; rowCompressed; rowRV32; rowTraceMsgs; rowSync; rowDBranch; rowIBranch; rowDBranchWS; rowIBranchWS; rowDataAcq;
   rowCorrelation; rowAuxAccWrite; rowOwnership; rowError; rowIHistory; rowIHistoryWS; rowRFullICNT; rowRFullHIST; rowRFullTaken;
   rowRFullNTaken; rowICTWS; rowICT; rowTraceBitsTotal; rowTraceBitsInst; rowInstTraceMsg; rowInstTakenBranch; rowAvgMsgLength;
   rowMinMsgLength; rowMaxMsgLength; rowTimestampCounts; rowTStampSizeAvg; rowTStampSizeMin; rowTStampSizeMax; rowTimestampOfMsg;
   rowUADDRCounts; rowUADDRSizeAvg; rowUADDRSizeMin; rowUADDRSizeMax; rowFADDRCounts; rowFADDRSizeAvg; rowFADDRSizeMin; rowFADDRSizeMax;
   rowTakenBranches; rowNotTakenBranches; rowCalls; rowReturns; rowSwaps; rowExceptions; rowExceptionReturns; rowInterrupts].

(** The heads of the columns, after an empty line. *)
Definition heads : option (list ascii) :=
  t ← fold_left (fun t i => t ← t; putRow t (chars "          Core " ++ percent_d i)) present (Some (lf :: chars "                 "));
  t ← (if 0 <? srcBits then putRow t (chars "               Total") else Some t);
  putRow t [lf].

(** ** The texts *)

(** The cores with timestamps. *)
Definition have_ts : Z := fold_left (fun m i => if 0 <? count num_trace_ts i then Z.lor m (Z.shiftl 1 i) else m) present 0.

(** The line at every level. *)
Definition firstLine : list (list ascii) :=
  [if srcBits =? 0 then chars "Trace Analytics: Single core"
   else chars "Trace Analytics: Multi core (src field " ++ percent_d srcBits ++ chars " bits)";
   (if have_ts =? 0 then chars "; Trace messages do not have timestamps"
    else if have_ts =? an_cores a then chars "; Trace messages have timestamps"
    else chars "; Some trace messages have timestamps") ++ [lf]].

(** The summary; the sum of the timestamps is an [int]. *)
Definition summary : list (list ascii) :=
  let g := an_all a in
  let insts := g num_inst_all_cores in
  let msgs := g num_trace_msgs_all_cores in
  let bits := g num_trace_bits_all_cores in
  let bits_ts := fold_left (fun t i => i32 (t + count trace_bits_ts i)) present 0 in
  [[lf];
   chars "Instructions             Compressed                   RV32" ++ [lf];
   if 0 <? insts then
     chars "  " ++ percent_10u insts ++ chars "    " ++ percent_10u (g num_inst16_all_cores) ++ chars " (" ++
     percent_2f (percentage (g num_inst16_all_cores) insts) ++ chars "%)    " ++ percent_10u (g num_inst32_all_cores) ++ chars " (" ++
     percent_2f (percentage (g num_inst32_all_cores) insts) ++ chars "%)" ++ [lf]
   else noQuotient;
   [lf];
   chars "Number of Trace Msgs      Avg Length    Min Length    Max Length    Total Length" ++ [lf];
   chars "          " ++ percent_10u msgs ++ chars "          " ++ padLeft 6 (percent_2f (ratio bits msgs)) ++ chars "    " ++
     percent_10u (g num_trace_bits_all_cores_min) ++ chars "    " ++ percent_10u (g num_trace_bits_all_cores_max) ++ chars "      " ++ percent_10u bits ++ [lf];
   [lf];
   if 0 <? insts then chars "Trace bits per instruction:     " ++ padLeft 5 (percent_2f (ratio bits insts)) ++ [lf] else chars "  --" ++ [lf];
   chars "Instructions per trace message: " ++ padLeft 5 (percent_2f (ratio insts msgs)) ++ [lf];
   if 0 <? g num_branches_all_cores then
     chars "Instructions per taken branch:  " ++ padLeft 5 (percent_2f (ratio insts (g num_branches_all_cores))) ++ [lf]
   else chars "--" ++ [lf]] ++
  (if 0 <? srcBits then
     let srcs := fmul floatBits (ofInt floatBits srcBits) (ofInt floatBits msgs) in
     [chars "Src bits % of message:          " ++
      padLeft 5 (percent_2f (fmul doubleBits (fdiv floatBits srcs (ofInt floatBits bits)) (Finite 100 1))) ++ chars "%" ++ [lf]]
   else []) ++
  [chars "Timestamp bits % of message:    " ++
   padLeft 5 (if bits_ts <? 0 then chars "-" ++ percent_2f (percentage (- bits_ts) bits) else percent_2f (percentage bits_ts bits)) ++ chars "%" ++ [lf]].

(** The table. *)
Definition table : option (list (list ascii)) :=
  heads ← heads;
  rows ← mapM id rows;
  Some (heads :: ((fun r => r ++ [lf]) <$> rows)).

Definition analyticsPieces (detailLevel : Z) : option (list (list ascii)) :=
  body ← (if detailLevel =? 1 then Some summary else table);
  Some (firstLine ++ body).

(** [toText]: a [dst_len] of 0 passes the check of the arguments, but there is no room for the NUL. *)
Definition toText (dst_len detailLevel : Z) : option (list ascii) :=
  if dst_len <? 0 then Some []
  else if dst_len =? 0 then None
  else if detailLevel <=? 0 then Some []
  else pieces ← analyticsPieces detailLevel; Some (fst (fold_left emitText pieces ([], dst_len))).
Definition toString (detailLevel : Z) : option (list ascii) := toText 4096 detailLevel.
End toText.
