(* ===== verification/AnalyticsRead.v ===== *)
(** * The table of the statistics is read back

    A reader of the columns of [Analytics::toText], and the proof that it finds the counters of
    each core and the totals that the program adds up. *)

From stdpp Require Import strings.
From Stdlib Require Import Ascii.
From Stdlib Require String.
From S2P Require Import Prelude Nexus Analytics ObjDump ObjDumpPrint Ctf Floats Events EventsRead AnalyticsText.

(** ** The reader *)

Fixpoint lines (l : list ascii) : list (list ascii) :=
  match l with
  | [] => []
  | c :: l =>
      if decide (c = lf) then [] :: lines l
      else match lines l with [] => [[c]] | x :: xs => (c :: x) :: xs end
  end.

Fixpoint pastSpaces (l : list ascii) : list ascii := match l with " "%char :: l => pastSpaces l | _ => l end.
Fixpoint digitsAt (l : list ascii) : list ascii :=
  match l with c :: l => match decDigit c with Some _ => c :: digitsAt l | None => [] end | [] => [] end.

(** The number in a column, if there is one. *)
Definition readColumn (k : nat) (line : list ascii) : option Z :=
  match digitsAt (pastSpaces (drop (19 + 21 * k) line)) with
  | [] => None
  | w => isStringADecNumber w
  end.

(** The rows that show counters: the line, the counter, the one that it is told as a share of, and what
    the column of the total holds: the sum, the least or the greatest of the counters, the sum of
    another one, or nothing. *)
Inductive Totalling := Sum | Least | Greatest | SumOf (c : CCtr) | Missing.
Record Entry := { en_line : nat; en_counter : CCtr; en_per : option CCtr; en_total : Totalling }.
Definition sharedEntry (line : nat) (c per : CCtr) : Entry := {| en_line := line; en_counter := c; en_per := Some per; en_total := Sum |}.
Definition countedEntry (line : nat) (c : CCtr) (t : Totalling) : Entry := {| en_line := line; en_counter := c; en_per := None; en_total := t |}.
Definition countTable : list Entry :=
  [countedEntry 3 num_inst Sum; sharedEntry 4 num_inst16 num_inst; sharedEntry 5 num_inst32 num_inst; countedEntry 6 num_trace_msgs Missing;
   sharedEntry 7 num_trace_syncs num_trace_msgs; sharedEntry 8 num_trace_dbranch num_trace_msgs; sharedEntry 9 num_trace_ibranch num_trace_msgs;
   sharedEntry 10 num_trace_dbranchws num_trace_msgs; sharedEntry 11 num_trace_ibranchws num_trace_msgs; sharedEntry 12 num_trace_dataacq num_trace_msgs;
   sharedEntry 13 num_trace_correlation num_trace_msgs; sharedEntry 14 num_trace_auxaccesswrite num_trace_msgs;
   sharedEntry 15 num_trace_ownership num_trace_msgs; sharedEntry 16 num_trace_error num_trace_msgs; sharedEntry 17 num_trace_ihistory num_trace_msgs;
   sharedEntry 18 num_trace_ihistoryws num_trace_msgs; sharedEntry 19 num_trace_resourcefull_i_cnt num_trace_msgs;
   sharedEntry 20 num_trace_resourcefull_hist num_trace_msgs; sharedEntry 21 num_trace_resourcefull_takenCount num_trace_msgs;
   sharedEntry 22 num_trace_resourcefull_notTakenCount num_trace_msgs;
   {| en_line := 23; en_counter := num_trace_incircuittraceWS; en_per := Some num_trace_msgs; en_total := SumOf num_trace_ihistoryws |};
   {| en_line := 24; en_counter := num_trace_incircuittrace; en_per := Some num_trace_msgs; en_total := SumOf num_trace_ihistoryws |};
   countedEntry 25 trace_bits Sum; countedEntry 30 trace_bits_min Least; countedEntry 31 trace_bits_max Greatest;
   countedEntry 32 num_trace_ts Sum; countedEntry 34 trace_bits_ts_min Least; countedEntry 35 trace_bits_ts_max Greatest;
   countedEntry 37 num_trace_uaddr Sum; countedEntry 39 trace_bits_uaddr_min Least; countedEntry 40 trace_bits_uaddr_max Greatest;
   countedEntry 41 num_trace_faddr Sum; countedEntry 43 trace_bits_faddr_min Least; countedEntry 44 trace_bits_faddr_max Greatest;
   countedEntry 45 num_taken_branches Missing; countedEntry 46 num_notTaken_branches Missing; countedEntry 47 num_calls Missing; countedEntry 48 num_returns Missing;
   countedEntry 49 num_swaps Missing; countedEntry 50 num_exceptions Missing; countedEntry 51 num_exception_returns Missing; countedEntry 52 num_interrupts Missing].

(** What a column shows: a share of nothing is not told. *)
Definition shown (x : Z) (per : option Z) : option Z :=
  match per with Some n => if 0 <? n then Some x else None | None => Some x end.
Definition totalOf (a : Analytics) (t : Totalling) (c : CCtr) : option Z :=
  match t with
  | Sum => Some (sum32 a (count a c))
  | Least => Some (least a (count a c))
  | Greatest => Some (greatest a (count a c))
  | SumOf c => Some (sum32 a (count a c))
  | Missing => None
  end.
Definition totalShown (a : Analytics) (e : Entry) : option Z :=
  x ← totalOf a (en_total e) (en_counter e); shown x ((fun p => sum32 a (count a p)) <$> en_per e).

(** The columns of the table. *)
Definition tableColumns (srcBits : Z) (a : Analytics) : nat := (length (present a) + if (0 <? srcBits)%Z then 1 else 0)%nat.

(** Counters are 32 bits, and what is told as a share is no more than what it is a share of. *)
Definition counters_ok (a : Analytics) : Prop := forall i c, 0 <= an_core a i c < 2 ^ 32.
Definition shares_ok (a : Analytics) : Prop :=
  forall e per i, e ∈ countTable -> en_per e = Some per -> count a (en_counter e) i <= count a per i.

(** ** Lines and columns *)

Definition plain (t : list ascii) : Prop := Forall (fun c => c <> lf) t.

Lemma lines_cons w l : plain w -> lines (w ++ lf :: l) = w :: lines l.
Proof.
  induction 1 as [|c w Hc _ IH]; cbn [app lines]; [by rewrite decide_True|]. rewrite decide_False by done. by rewrite IH.
Qed.
Lemma lines_rows rs : Forall plain rs -> lines (concat ((fun r => r ++ [lf]) <$> rs)) = rs.
Proof.
  induction 1 as [|r rs Hr _ IH]; [done|]. cbn [fmap list_fmap concat]. rewrite <-app_assoc. cbn [app]. by rewrite lines_cons, IH.
Qed.

Lemma decimal_digits n : forall x l, 0 <= x -> Forall (fun c => is_Some (decDigit c)) l -> Forall (fun c => is_Some (decDigit c)) (decimal n x l).
Proof.
  induction n as [|n IH]; intros x l Hx Hl; cbn [decimal]; [done|]. pose proof (Z.mod_pos_bound x 10 ltac:(lia)).
  assert (Forall (fun c => is_Some (decDigit c)) (ascii_of_N (Z.to_N (48 + x mod 10)) :: l)) as H'
    by (constructor; [rewrite digit_code by lia; rewrite decDigit_char by lia; by eexists|done]).
  destruct (x <? 10); [done|]. apply IH; [by apply Z.div_pos|done].
Qed.
Lemma percent_u_digits x : 0 <= x -> Forall (fun c => is_Some (decDigit c)) (percent_u x).
Proof. intros Hx. by apply decimal_digits. Qed.

Lemma digitsAt_app w rest : Forall (fun c => is_Some (decDigit c)) w -> (forall c t, rest = c :: t -> decDigit c = None) ->
  digitsAt (w ++ rest) = w.
Proof.
  intros Hw Hr. induction Hw as [|c w [d Hd] _ IH]; cbn [app digitsAt]; [|by rewrite Hd, IH].
  destruct rest as [|c rest]; [done|]. cbn [digitsAt]. by rewrite (Hr c rest).
Qed.
Lemma skipSpaces_pad n w : (forall t, w <> " "%char :: t) -> pastSpaces (replicate n " "%char ++ w) = w.
Proof.
  intros Hw. induction n as [|n IH]; cbn [replicate app pastSpaces]; [|exact IH].
  destruct w as [|[[] [] [] [] [] [] [] []] w]; try done. by destruct (Hw w).
Qed.

Lemma percent_u_cons x : 0 <= x -> exists c t, percent_u x = c :: t /\ decDigit c <> None.
Proof.
  intros Hx. unfold percent_u. destruct (decimal_cons 20 x [] ltac:(lia) Hx) as (c & t & E & _). exists c, t. split; [done|].
  eapply (decimal_head 20 x []); [done|done|exact E].
Qed.

(** A column that starts with a number, or with the sign that there is none. *)
Lemma readColumn_number k line x rest : drop (19 + 21 * k) line = percent_10u x ++ rest -> 0 <= x < 2 ^ 64 ->
  (forall c t, rest = c :: t -> decDigit c = None) -> readColumn k line = Some x.
Proof.
  intros E Hx Hr. unfold readColumn. rewrite E. unfold percent_10u, padLeft. rewrite <-app_assoc.
  destruct (percent_u_cons x ltac:(lia)) as (c & t & Ec & Hc).
  rewrite skipSpaces_pad by (intros u Hu; rewrite Ec in Hu; cbn [app] in Hu; by injection Hu as -> _).
  rewrite digitsAt_app by (done || (apply percent_u_digits; lia)). destruct (percent_u x) as [|c' t'] eqn:E'; [by rewrite Ec in E'|].
  rewrite <-E'. unfold isStringADecNumber, percent_u. by rewrite decimal_value by lia.
Qed.
Lemma readColumn_none k line rest : drop (19 + 21 * k) line = noQuotient ++ rest -> readColumn k line = None.
Proof. intros E. unfold readColumn. by rewrite E. Qed.

(** ** Columns are where the tabs say *)

Lemma tabs_lookup k : tabs !! k = if (k <? 9)%nat then Some (19 + 21 * k)%nat else None.
Proof. do 9 (destruct k as [|k]; [done|]). done. Qed.

Lemma put_Some t s r : putRow t s = Some r -> r = t ++ s.
Proof. unfold putRow. destruct (_ <? _)%nat; congruence. Qed.
Lemma put_fits t s : (length t + length s < 512)%nat -> putRow t s = Some (t ++ s).
Proof. intros H. unfold putRow. by destruct (Nat.ltb_spec (length t + length s) 512); [|lia]. Qed.

Lemma plain_app a b : plain a -> plain b -> plain (a ++ b).
Proof. intros Ha Hb. by apply list.Forall_app. Qed.
Lemma plain_replicate n : plain (replicate n " "%char).
Proof. apply Forall_replicate. done. Qed.

(** Columns of any size up to 47 characters are in the array, and on one line. *)
Definition small_cell (s : list ascii) : Prop := (length s <= 47)%nat /\ plain s.

Lemma padTo_fits ts t : (ts < 9)%nat -> (length t <= 19 + 47 * ts)%nat -> plain t ->
  exists r, padTo ts t = Some r /\ (length r <= 19 + 47 * ts)%nat /\ plain r.
Proof.
  intros Hts Ht Hp. unfold padTo. rewrite tabs_lookup. destruct (Nat.ltb_spec ts 9); [|lia]. cbn [mbind option_bind].
  rewrite put_fits by (rewrite length_replicate; lia). eexists. split; [done|].
  rewrite length_app, length_replicate. split; [lia|]. apply plain_app; [done|apply plain_replicate].
Qed.
Lemma put_cell ts t s : (ts < 9)%nat -> (length t <= 19 + 47 * ts)%nat -> plain t -> small_cell s ->
  exists r, putRow t s = Some r /\ (length r <= 19 + 47 * S ts)%nat /\ plain r.
Proof.
  intros Hts Ht Hp [Hs1 Hs2]. rewrite put_fits by lia. eexists. split; [done|]. rewrite length_app. split; [lia|by apply plain_app].
Qed.

Lemma cells_fit show cores : (forall i, small_cell (show i)) -> forall ts t, (ts + length cores <= 9)%nat -> (length t <= 19 + 47 * ts)%nat -> plain t ->
  exists r, cells show cores ts t = Some (r, (ts + length cores)%nat) /\ (length r <= 19 + 47 * (ts + length cores))%nat /\ plain r.
Proof.
  intros Hshow. induction cores as [|i cores IH]; intros ts t Hts Ht Hp; cbn [cells length] in *.
  { rewrite Nat.add_0_r. by exists t. }
  destruct (padTo_fits ts t ltac:(lia) Ht Hp) as (r & -> & Hr & Hpr). cbn [mbind option_bind].
  destruct (put_cell ts r (show i) ltac:(lia) Hr Hpr (Hshow i)) as (r2 & -> & Hr2 & Hpr2). cbn [mbind option_bind].
  destruct (IH (S ts) r2 ltac:(lia) Hr2 Hpr2) as (r3 & -> & Hr3 & Hpr3). exists r3. rewrite <-Nat.add_succ_comm. by split_and!.
Qed.

Lemma row_fits srcBits a label show total : (length (chars label) <=? 19)%nat && bool_decide (plain (chars label)) = true ->
  (forall i, small_cell (show i)) -> small_cell total -> (tableColumns srcBits a <= 9)%nat ->
  exists r, row srcBits a label show total = Some r /\ (length r <= 19 + 47 * tableColumns srcBits a)%nat /\ plain r.
Proof.
  intros [Hl%Nat.leb_le Hp%bool_decide_eq_true]%andb_true_iff Hshow Htot Hc. unfold row, tableColumns in *.
  destruct (cells_fit show (present a) Hshow 0 (chars label)) as (r & -> & Hr & Hpr); [destruct (0 <? srcBits)%Z; lia|lia|done|].
  cbn [mbind option_bind Nat.add] in *. destruct (0 <? srcBits)%Z; [|exists r; split_and!; [done|lia|done]].
  destruct (padTo_fits (length (present a)) r ltac:(lia) Hr Hpr) as (r2 & -> & Hr2 & Hpr2). cbn [mbind option_bind].
  destruct (put_cell (length (present a)) r2 total ltac:(lia) Hr2 Hpr2 Htot) as (r3 & -> & Hr3 & Hpr3). exists r3. split_and!; [done|lia|done].
Qed.

(** Too many columns: there is no tab for the last one. *)
Lemma cells_Some show cores : forall ts t r n, cells show cores ts t = Some (r, n) -> n = (ts + length cores)%nat /\ (cores = [] \/ n <= 9)%nat.
Proof.
  induction cores as [|i cores IH]; intros ts t r n E; cbn [cells] in E; [injection E as <- <-; split; [cbn; lia|by left]|].
  apply bind_Some in E as (t1 & E1 & (t2 & E2 & E3)%bind_Some). apply IH in E3 as [-> H3]. split; [cbn; lia|]. right.
  unfold padTo in E1. rewrite tabs_lookup in E1. destruct (Nat.ltb_spec ts 9); [|done]. destruct H3 as [-> |H3]; [cbn; lia|lia].
Qed.
Lemma row_too_wide srcBits a label show total : (9 < tableColumns srcBits a)%nat -> row srcBits a label show total = None.
Proof.
  intros Hc. unfold row, tableColumns in *. destruct (cells show (present a) 0 (chars label)) as [[r n]|] eqn:E; [|done].
  apply cells_Some in E as [-> Hn]. cbn [mbind option_bind Nat.add]. destruct (0 <? srcBits)%Z.
  - unfold padTo. rewrite tabs_lookup. destruct (Nat.ltb_spec (length (present a)) 9); [|done]. lia.
  - exfalso. destruct Hn as [Hn|Hn]; [rewrite Hn in Hc; cbn in Hc; lia|lia].
Qed.

(** Where the columns of narrow rows are. *)
Lemma padTo_exact ts t r : padTo ts t = Some r -> (length t <= 19 + 21 * ts)%nat ->
  r = t ++ replicate (19 + 21 * ts - length t) " "%char /\ length r = (19 + 21 * ts)%nat.
Proof.
  unfold padTo. rewrite tabs_lookup. intros E Ht. destruct (Nat.ltb_spec ts 9); [|done]. cbn [mbind option_bind] in E.
  apply put_Some in E as ->. split; [done|]. rewrite length_app, length_replicate. lia.
Qed.

(** What follows a text that should reach a tab: nothing, or a space if the text is short. *)
Definition tabFollows (ts : nat) (t u : list ascii) : Prop := u = [] \/ (exists r, u = " "%char :: r) \/ (19 + 21 * ts <= length t)%nat.

Lemma padTo_follows ts t r : padTo ts t = Some r -> (length t <= 19 + 21 * ts)%nat ->
  exists u, r = t ++ u /\ (forall v, tabFollows ts t (u ++ v)) /\ length r = (19 + 21 * ts)%nat.
Proof.
  intros E Ht. apply padTo_exact in E as [-> Hl]; [|done]. eexists. split; [done|]. split; [|done]. intros v.
  destruct (19 + 21 * ts - length t)%nat as [|n] eqn:En; [right; right; lia|]. right; left. by eexists.
Qed.

Lemma cells_follow show cores : (forall i, (length (show i) <= 21)%nat) -> forall ts t r n, cells show cores ts t = Some (r, n) ->
  (length t <= 19 + 21 * ts)%nat -> exists u, r = t ++ u /\ tabFollows ts t u /\ (length r <= 19 + 21 * n)%nat.
Proof.
  intros Hshow. induction cores as [|i cores IH]; intros ts t r n E Ht; cbn [cells] in E.
  { injection E as <- <-. exists []. rewrite app_nil_r. split_and!; [done|by left|done]. }
  apply bind_Some in E as (t1 & E1 & (t2 & E2 & E3)%bind_Some). destruct (padTo_follows _ _ _ E1 Ht) as (u & -> & Hu & Hl).
  apply put_Some in E2 as ->. apply IH in E3 as (u2 & -> & _ & Hr); [|rewrite length_app; specialize (Hshow i); lia].
  rewrite <-!app_assoc. eexists. split; [done|]. split; [apply Hu|]. by rewrite <-!app_assoc in Hr.
Qed.

Lemma cells_at show cores : (forall i, (length (show i) <= 21)%nat) -> forall ts t r n v, cells show cores ts t = Some (r, n) ->
  (length t <= 19 + 21 * ts)%nat -> tabFollows n r v -> forall k i, cores !! k = Some i ->
  exists rest, drop (19 + 21 * (ts + k)) (r ++ v) = show i ++ rest /\ (rest = [] \/ (exists w, rest = " "%char :: w) \/ (21 <= length (show i))%nat).
Proof.
  intros Hshow. induction cores as [|i cores IH]; intros ts t r n v E Ht Hv k j Hk; cbn [cells] in E; [done|].
  apply bind_Some in E as (t1 & E1 & (t2 & E2 & E3)%bind_Some). destruct (padTo_follows _ _ _ E1 Ht) as (u & -> & Hu & Hl).
  apply put_Some in E2 as ->. specialize (Hshow i) as Hi.
  assert (length ((t ++ u) ++ show i) <= 19 + 21 * S ts)%nat as Ht2 by (rewrite length_app; lia).
  destruct k as [|k]; cbn [lookup list_lookup] in Hk.
  - injection Hk as ->. destruct (cells_follow _ _ Hshow _ _ _ _ E3 Ht2) as (u2 & -> & Hu2 & Hr).
    rewrite Nat.add_0_r, <-!(app_assoc (t ++ u)), drop_app_length' by done. rewrite <-app_assoc. eexists. split; [done|].
    destruct Hu2 as [-> |[[w ->]|Hw]]; [|right; left; by eexists|right; right; rewrite length_app in Hw; lia].
    cbn [app]. destruct Hv as [-> |[[w ->]|Hw]]; [by left|right; left; by eexists|].
    apply cells_Some in E3 as [-> _]. rewrite app_nil_r in Hw. right; right. rewrite length_app in Hw. lia.
  - destruct (IH (S ts) _ _ _ v E3 Ht2 Hv k j Hk) as (rest & E & Hrest). exists rest. split; [|done]. rewrite <-E. f_equal. lia.
Qed.

(** The columns of a row, and that of its total. *)
Lemma row_at srcBits a label show total r : (length (chars label) <=? 19)%nat = true -> (forall i, (length (show i) <= 21)%nat) ->
  row srcBits a label show total = Some r ->
  (forall k i, present a !! k = Some i ->
    exists rest, drop (19 + 21 * k) r = show i ++ rest /\ (rest = [] \/ (exists w, rest = " "%char :: w) \/ (21 <= length (show i))%nat)) /\
  (0 < srcBits -> drop (19 + 21 * length (present a)) r = total).
Proof.
  intros Hl%Nat.leb_le Hshow E. unfold row in E. apply bind_Some in E as ([t n] & E1 & E2).
  destruct (cells_follow _ _ Hshow _ _ _ _ E1 ltac:(lia)) as (_ & _ & _ & Ht). pose proof (cells_Some _ _ _ _ _ _ E1) as [Hn _]. cbn [Nat.add] in Hn.
  destruct (Z.ltb_spec 0 srcBits) as [Hs|Hs].
  - apply bind_Some in E2 as (t2 & E2 & ->%put_Some). destruct (padTo_follows _ _ _ E2 Ht) as (u & -> & Hu & Hlen). split.
    + intros k i Hk. rewrite <-app_assoc. by apply (cells_at show (present a) Hshow 0 (chars label) t n (u ++ total) E1 ltac:(lia) (Hu total)).
    + intros _. rewrite <-Hn. by apply drop_app_length'.
  - injection E2 as <-. split; [|lia]. intros k i Hk. rewrite <-(app_nil_r t).
    apply (cells_at show (present a) Hshow 0 (chars label) t n [] E1 ltac:(lia)); [by left|done].
Qed.

(** ** Every cell is small *)

Lemma digit_plain x : ascii_of_N (Z.to_N (48 + x mod 10)) <> lf.
Proof.
  pose proof (Z.mod_pos_bound x 10 ltac:(lia)) as H. rewrite digit_code by lia. revert H. generalize (x mod 10). intros d Hd.
  assert (d = 0 \/ d = 1 \/ d = 2 \/ d = 3 \/ d = 4 \/ d = 5 \/ d = 6 \/ d = 7 \/ d = 8 \/ d = 9) as H by lia.
  by repeat destruct H as [->|H]; try subst d.
Qed.
Lemma decimal_plain n : forall x l, plain l -> plain (decimal n x l).
Proof.
  induction n as [|n IH]; intros x l Hl; cbn [decimal]; [done|].
  assert (plain (ascii_of_N (Z.to_N (48 + x mod 10)) :: l)) by (constructor; [apply digit_plain|done]). destruct (x <? 10); [done|by apply IH].
Qed.
Lemma percent_u_plain x : plain (percent_u x).
Proof. by apply decimal_plain, list.Forall_nil. Qed.
Lemma percent_d_plain x : plain (percent_d x).
Proof. unfold percent_d. destruct (x <? 0); [constructor; [done|]|]; by apply decimal_plain, list.Forall_nil. Qed.
Lemma fraction_plain n : forall x, plain (fraction n x).
Proof.
  induction n as [|n IH]; intros x; cbn [fraction]; [constructor|]. apply plain_app; [apply IH|]. constructor; [|constructor].
  rewrite <-digit_code by (pose proof (Z.mod_pos_bound x 10 ltac:(lia)); lia). apply digit_plain.
Qed.
Lemma padLeft_plain w t : plain t -> plain (padLeft w t).
Proof. intros Ht. apply plain_app; [apply plain_replicate|done]. Qed.
Lemma chars_plain s : bool_decide (plain (chars s)) = true -> plain (chars s).
Proof. by intros H%bool_decide_eq_true. Qed.

Lemma percent_2f_plain negNan x : plain (percent_2f negNan x).
Proof.
  unfold percent_2f, nanText. destruct x as [n d| |]; cbn [percent_f]; [|by apply chars_plain|by destruct negNan; apply chars_plain].
  apply plain_app; [apply percent_u_plain|]. apply plain_app; [by apply chars_plain|apply fraction_plain].
Qed.
Lemma percent_2f_length negNan x : (length (percent_2f negNan x) <= 23)%nat.
Proof. unfold percent_2f, nanText. apply (percent_f_length _ 2). destruct negNan; vm_compute; lia. Qed.

Lemma percent_10u_small x : small_cell (percent_10u x).
Proof.
  split; [|apply padLeft_plain, percent_u_plain]. unfold percent_10u. rewrite padLeft_length. pose proof (percent_u_length x). lia.
Qed.
Lemma share_small negNan x n : small_cell (share negNan x n).
Proof.
  unfold share. destruct (0 <? n); [|split; [vm_compute; lia|by apply chars_plain]]. pose proof (percent_10u_small x) as [_ H2]. split.
  - unfold percent_10u. rewrite !length_app, padLeft_length. pose proof (percent_u_length x). pose proof (percent_2f_length negNan (percentage x n)).
    change (length (chars " (")) with 2%nat. change (length (chars "%)")) with 2%nat. lia.
  - apply plain_app; [done|]. apply plain_app; [by apply chars_plain|]. apply plain_app; [apply percent_2f_plain|by apply chars_plain].
Qed.
Lemma average_small negNan none x n : small_cell none -> small_cell (average negNan none x n).
Proof.
  intros Hnone. unfold average. destruct (0 <? n); [|done]. split; [|apply padLeft_plain, percent_2f_plain].
  rewrite padLeft_length. pose proof (percent_2f_length negNan (ratio x n)). lia.
Qed.
Lemma chars_small s : (length (chars s) <=? 47)%nat && bool_decide (plain (chars s)) = true -> small_cell (chars s).
Proof. intros [H1%Nat.leb_le H2%bool_decide_eq_true]%andb_true_iff. by split. Qed.
Lemma percent_small negNan x n :
  small_cell (if 0 <? n then padLeft 13 (percent_2f negNan (percentage x n)) ++ chars "%" else noQuotient).
Proof.
  destruct (0 <? n); [|apply chars_small; vm_compute; reflexivity].
  split; [|apply plain_app; [apply padLeft_plain, percent_2f_plain|by apply chars_plain]].
  rewrite length_app, padLeft_length. pose proof (percent_2f_length negNan (percentage x n)). change (length (chars "%")) with 1%nat. lia.
Qed.

(** The rows are rows. *)
#[export] Hint Unfold rowInstructions rowCompressed rowRV32 rowSync rowDBranch rowIBranch rowDBranchWS rowIBranchWS rowDataAcq rowCorrelation
   rowAuxAccWrite rowOwnership rowError rowIHistory rowIHistoryWS rowRFullICNT rowRFullHIST rowRFullTaken rowRFullNTaken rowICTWS rowICT
   rowTraceBitsTotal rowTraceBitsInst rowInstTraceMsg rowInstTakenBranch rowAvgMsgLength rowMinMsgLength rowMaxMsgLength rowTimestampCounts
   rowTStampSizeAvg rowTStampSizeMin rowTStampSizeMax rowTimestampOfMsg rowUADDRCounts rowUADDRSizeAvg rowUADDRSizeMin rowUADDRSizeMax
   rowFADDRCounts rowFADDRSizeAvg rowFADDRSizeMin rowFADDRSizeMax rowTakenBranches rowNotTakenBranches rowCalls rowReturns rowSwaps
   rowExceptions rowExceptionReturns rowInterrupts
  countRow shareRow leastRow greatestRow : rows.

(** ** Every row is there if there are tabs for its columns *)

Section fits_row.
Context (negNan : bool) (srcBits : Z) (a : Analytics) (Hcolumns : (tableColumns srcBits a <= 9)%nat).

Definition fits_row (o : option (list ascii)) : Prop := exists r, o = Some r /\ (length r <= 19 + 47 * tableColumns srcBits a)%nat /\ plain r.

Lemma rowOfCores_fits label show : (length (chars label) <=? 19)%nat && bool_decide (plain (chars label)) = true ->
  (forall i, small_cell (show i)) -> fits_row (rowOfCores a label show).
Proof.
  intros [Hl%Nat.leb_le Hp%bool_decide_eq_true]%andb_true_iff Hshow. unfold fits_row, rowOfCores, tableColumns in *.
  destruct (cells_fit show (present a) Hshow 0 (chars label)) as (r & -> & Hr & Hpr); [lia|lia|done|]. exists r. split_and!; [done|lia|done].
Qed.
Lemma rowTraceMsgs_fits : fits_row (rowTraceMsgs srcBits a).
Proof.
  unfold fits_row, rowTraceMsgs, tableColumns in *.
  destruct (cells_fit (fun i => percent_10u (count a num_trace_msgs i)) (present a) ltac:(intros i; apply percent_10u_small) 0 (chars "Trace Msgs"))
    as (r & -> & Hr & Hpr); [lia|vm_compute; lia|by apply chars_plain|].
  cbn [mbind option_bind] in *. rewrite Nat.add_0_l in *. destruct (0 <? srcBits)%Z; [|exists r; split_and!; [done|lia|done]].
  rewrite tabs_lookup. destruct (Nat.ltb_spec (length (present a)) 9); [|lia]. cbn [mbind option_bind].
  destruct (length r <? _)%nat; [exists r; split_and!; [done|lia|done]|].
  destruct (put_cell (length (present a)) r (percent_10u (sum32 a (count a num_trace_msgs))) ltac:(lia) Hr Hpr (percent_10u_small _)) as (r3 & -> & Hr3 & Hpr3). exists r3. split_and!; [done|lia|done].
Qed.

Lemma rows_fit : Forall fits_row (rows negNan srcBits a).
Proof.
  unfold rows. repeat apply list.Forall_cons_2; [..|apply list.Forall_nil_2]; autounfold with rows; cbv zeta.
  all: lazymatch goal with
    | |- fits_row (rowTraceMsgs _ _) => apply rowTraceMsgs_fits
    | |- fits_row (rowOfCores _ _ _) => apply rowOfCores_fits; [vm_compute; reflexivity|intros i; apply percent_10u_small]
    | |- fits_row (row _ _ _ _ _) => apply row_fits; [vm_compute; reflexivity|intros i|..|exact Hcolumns]
    end.
  all: lazymatch goal with
    | |- small_cell (percent_10u _) => apply percent_10u_small
    | |- small_cell (share _ _ _) => apply share_small
    | |- small_cell (average _ _ _ _) => apply average_small, chars_small; vm_compute; reflexivity
    | |- _ => apply percent_small
    end.
Qed.
End fits_row.

(** ** The counters are read *)

Section entryReads.
Context (negNan : bool) (srcBits : Z) (a : Analytics) (Hcounters : counters_ok a) (Hshares : shares_ok a).

(** A row: the columns of the cores, and what follows them. *)
Definition rowed (label : String.string) (show : Z -> list ascii) (r : list ascii) : Prop :=
  exists t n v, cells show (present a) 0 (chars label) = Some (t, n) /\ r = t ++ v /\ tabFollows n t v.

(** What a cell is of an entry. *)
Definition entryCell (e : Entry) (i : Z) : list ascii :=
  match en_per e with Some per => share negNan (count a (en_counter e) i) (count a per i) | None => percent_10u (count a (en_counter e) i) end.
Definition entryReads (e : Entry) (r : list ascii) : Prop :=
  (forall k i, present a !! k = Some i -> readColumn k r = shown (count a (en_counter e) i) ((fun p => count a p i) <$> en_per e)) /\
  readColumn (length (present a)) r = (if 0 <? srcBits then totalShown a e else None).

Lemma percent_10u_length x : 0 <= x < 2 ^ 32 -> length (percent_10u x) = 10%nat.
Proof.
  intros Hx. unfold percent_10u. rewrite padLeft_length. unfold percent_u.
  pose proof (decimal_small 20 10 x [] ltac:(change (10 ^ Z.of_nat 10) with 10000000000; lia) ltac:(lia)) as H. cbn [length] in H. lia.
Qed.
Lemma cellOf_length e i : e ∈ countTable -> (length (entryCell e i) <= 21)%nat.
Proof.
  intros He. unfold entryCell. pose proof (Hcounters i (en_counter e)) as Hx. destruct (en_per e) as [per|] eqn:Ep.
  - pose proof (Hshares e per i He Ep) as Hs. unfold count in *. unfold share. destruct (Z.ltb_spec 0 (an_core a i per)) as [Hn|]; [|vm_compute; lia].
    rewrite !length_app, percent_10u_length by done. pose proof (percent_f_share (nanText negNan) (an_core a i (en_counter e)) (an_core a i per) ltac:(lia) Hn).
    unfold percent_2f. change (length (chars " (")) with 2%nat. change (length (chars "%)")) with 2%nat. lia.
  - unfold count. rewrite percent_10u_length by done. lia.
Qed.

Lemma shown_number k r x rest : drop (19 + 21 * k) r = percent_10u x ++ rest -> 0 <= x < 2 ^ 64 ->
  rest = [] \/ (exists w, rest = " "%char :: w) -> readColumn k r = Some x.
Proof.
  intros E Hx Hr. apply (readColumn_number k r x rest E Hx). intros c t ->. destruct Hr as [|[w [= -> _]]]; done.
Qed.
Lemma shown_share k r x n rest : drop (19 + 21 * k) r = share negNan x n ++ rest -> 0 <= x < 2 ^ 64 -> readColumn k r = shown x (Some n).
Proof.
  intros E Hx. unfold share, shown in *. destruct (0 <? n); [|by apply (readColumn_none k r rest)]. rewrite <-app_assoc in E.
  eapply shown_number; [exact E|done|]. right. by eexists.
Qed.

Lemma rowed_reads e label r k i : e ∈ countTable -> (length (chars label) <=? 19)%nat = true -> rowed label (entryCell e) r -> present a !! k = Some i ->
  readColumn k r = shown (count a (en_counter e) i) ((fun p => count a p i) <$> en_per e).
Proof.
  intros He Hl%Nat.leb_le (t & n & v & E & -> & Hv) Hk. pose proof (Hcounters i (en_counter e)) as Hx.
  destruct (cells_at (entryCell e) (present a) (fun i => cellOf_length e i He) 0 (chars label) t n v E ltac:(lia) Hv k i Hk) as (rest & Ed & Hrest).
  cbn [Nat.add] in Ed. unfold entryCell in *. destruct (en_per e) as [per|]; cbn [fmap option_fmap option_map].
  - eapply shown_share; [exact Ed|unfold count; lia].
  - cbn [shown]. eapply shown_number; [exact Ed|unfold count; lia|]. unfold count in Hrest. rewrite percent_10u_length in Hrest by done.
    destruct Hrest as [|[|]]; [by left|by right|lia].
Qed.

Lemma sum32_range c : 0 <= sum32 a (count a c) < 2 ^ 64.
Proof.
  unfold sum32. assert (forall l t, 0 <= t < 2 ^ 32 -> 0 <= fold_left (fun t i => u32 (t + count a c i)) l t < 2 ^ 32) as H.
  { intros l. induction l as [|i l IH]; intros t Ht; [done|]. cbn [fold_left]. apply IH, Z.mod_pos_bound. lia. }
  specialize (H (present a) 0 ltac:(lia)). lia.
Qed.
Lemma totalOf_range f c x : totalOf a f c = Some x -> 0 <= x < 2 ^ 64.
Proof.
  assert (forall g, (forall t i, 0 <= t < 2 ^ 32 -> 0 <= g t i < 2 ^ 32) -> 0 <= fold_left g (present a) 0 < 2 ^ 64) as H.
  { intros g Hg. assert (forall l t, 0 <= t < 2 ^ 32 -> 0 <= fold_left g l t < 2 ^ 32) as H.
    { intros l. induction l as [|i l IH]; intros t Ht; [done|]. cbn [fold_left]. by apply IH, Hg. }
    specialize (H (present a) 0 ltac:(lia)). lia. }
  destruct f; cbn [totalOf]; intros [= <-]; try apply sum32_range; unfold least, greatest; apply H; intros t i Ht;
    pose proof (Hcounters i c) as Hc; unfold count; [by destruct (_ || _)|by destruct (_ <? _)].
Qed.

(** There is nothing behind the last column. *)
Lemma readColumn_past k r : (length r <= 19 + 21 * k)%nat -> readColumn k r = None.
Proof. intros H. unfold readColumn. by rewrite drop_ge. Qed.

(** The rows of a table that has its columns. *)
Lemma row_reads e label total r : e ∈ countTable -> (length (chars label) <=? 19)%nat = true ->
  (exists x, totalOf a (en_total e) (en_counter e) = Some x /\ total = match en_per e with
     | Some per => share negNan x (sum32 a (count a per))
     | None => percent_10u x
     end) ->
  row srcBits a label (entryCell e) total = Some r -> entryReads e r.
Proof.
  intros He Hl (x & Hx & Htotal) E. split.
  - intros k i Hk. apply (rowed_reads e label r k i He Hl); [|done]. unfold row in E. apply bind_Some in E as ([t n] & E1 & E2). exists t, n.
    apply Nat.leb_le in Hl. destruct (cells_follow _ _ (fun i => cellOf_length e i He) _ _ _ _ E1 ltac:(lia)) as (_ & _ & _ & Ht).
    destruct (0 <? srcBits); [|injection E2 as <-; exists []; rewrite app_nil_r; split_and!; [done..|by left]].
    apply bind_Some in E2 as (t2 & E2 & ->%put_Some). destruct (padTo_follows _ _ _ E2 Ht) as (u & -> & Hu & _). exists (u ++ total).
    by rewrite <-app_assoc.
  - destruct (Z.ltb_spec 0 srcBits) as [Hs|Hs].
    + destruct (row_at srcBits a label (entryCell e) total r Hl (fun i => cellOf_length e i He) E) as [_ Hd]. specialize (Hd Hs).
      rewrite Htotal, <-(app_nil_r (match en_per e with Some _ => _ | None => _ end)) in Hd. pose proof (totalOf_range _ _ _ Hx).
      unfold totalShown. rewrite Hx. cbn [mbind option_bind].
      destruct (en_per e) as [per|]; cbn [fmap option_fmap option_map]; [by eapply shown_share|]. eapply shown_number; [exact Hd|done|by left].
    + apply Nat.leb_le in Hl. unfold row in E. apply bind_Some in E as ([t n] & E1 & E2).
      destruct (Z.ltb_spec 0 srcBits); [lia|]. injection E2 as <-.
      destruct (cells_follow _ _ (fun i => cellOf_length e i He) _ _ _ _ E1 ltac:(lia)) as (_ & _ & _ & Ht).
      apply cells_Some in E1 as [-> _]. by apply readColumn_past.
Qed.
Lemma rowOfCores_reads e label r : e ∈ countTable -> (length (chars label) <=? 19)%nat = true -> en_total e = Missing ->
  rowOfCores a label (entryCell e) = Some r -> entryReads e r.
Proof.
  intros He Hl Hn E. unfold rowOfCores in E. apply fmap_Some in E as ([t n] & E & ->). split.
  - intros k i Hk. apply (rowed_reads e label _ k i He Hl); [|done].
    exists t, n, []. rewrite app_nil_r. split_and!; [done..|by left].
  - apply Nat.leb_le in Hl. unfold totalShown. rewrite Hn.
    destruct (cells_follow _ _ (fun i => cellOf_length e i He) _ _ _ _ E ltac:(lia)) as (_ & _ & _ & Ht).
    apply cells_Some in E as [-> _]. cbn [fst]. rewrite readColumn_past by done. by destruct (0 <? srcBits).
Qed.

(** Cells that do not fill their columns end before the next tab. *)
Lemma cells_short show cores : (forall i, (length (show i) <= 20)%nat) -> forall ts t r n, cells show cores ts t = Some (r, n) ->
  (length t < 19 + 21 * ts)%nat -> (length r < 19 + 21 * n)%nat.
Proof.
  intros Hshow. induction cores as [|i cores IH]; intros ts t r n E Ht; cbn [cells] in E; [by injection E as <- <-|].
  apply bind_Some in E as (t1 & E1 & (t2 & E2 & E3)%bind_Some). destruct (padTo_follows _ _ _ E1 ltac:(lia)) as (u & -> & _ & Hl).
  apply put_Some in E2 as ->. apply IH in E3; [done|]. rewrite length_app. specialize (Hshow i). lia.
Qed.
Lemma rowTraceMsgs_reads e r : e ∈ countTable -> e = countedEntry 6 num_trace_msgs Missing -> rowTraceMsgs srcBits a = Some r -> entryReads e r.
Proof.
  intros He -> E. unfold rowTraceMsgs in E. apply bind_Some in E as ([t n] & E1 & E2).
  assert (length t < 19 + 21 * n)%nat as Ht.
  { assert (forall i, (length (percent_10u (count a num_trace_msgs i)) <= 20)%nat) as Hshow by (intros i; rewrite percent_10u_length by apply Hcounters; lia).
    apply (cells_short _ _ Hshow _ _ _ _ E1). vm_compute. lia. }
  assert (r = t) as ->.
  { destruct (0 <? srcBits)%Z; [|by injection E2]. rewrite tabs_lookup in E2. destruct (n <? 9)%nat; [|done]. cbn [mbind option_bind] in E2.
    destruct (Nat.ltb_spec (length t) (19 + 21 * n)); [by injection E2|lia]. }
  split.
  - intros k i Hk. eapply (rowed_reads _ "Trace Msgs"%string t k i He); [done| |done].
    change (fun i => percent_10u (count a num_trace_msgs i)) with (entryCell (countedEntry 6 num_trace_msgs Missing)) in E1. exists t, n, [].
    rewrite app_nil_r. split_and!; [done..|by left].
  - apply cells_Some in E1 as [-> _]. rewrite readColumn_past by lia. by destruct (0 <? srcBits).
Qed.

Lemma table_reads : Forall (fun e => exists o, rows negNan srcBits a !! (en_line e - 3)%nat = Some o /\ forall r, o = Some r -> entryReads e r) countTable.
Proof.
  assert (Forall (fun e => e ∈ countTable) countTable) as Hin by by apply list.Forall_forall.
  unfold countTable at 2 in Hin. unfold countTable. revert Hin.
  repeat (intros [He Hin]%list.Forall_cons; apply list.Forall_cons_2; [|revert Hin; clear He]); [..|intros _; apply list.Forall_nil_2].
  all: eexists; split; [reflexivity|]; intros r E; autounfold with rows in E; cbv zeta in E.
  all: lazymatch type of E with
    | rowTraceMsgs _ _ = _ => apply rowTraceMsgs_reads; [done|reflexivity|exact E]
    | rowOfCores _ _ _ = _ => eapply rowOfCores_reads; [exact He| |reflexivity|exact E]; vm_compute; reflexivity
    | row _ _ _ _ _ = _ => eapply row_reads; [exact He| | |exact E]; [vm_compute; reflexivity|]
    end.
  all: eexists; split; reflexivity.
Qed.
End entryReads.

(** ** The whole text *)

Lemma emit_all pieces : forall d len, 0 <= len ->
  fst (fold_left emitText pieces (d, len)) = d ++ take (Z.to_nat (len - 1)) (concat pieces).
Proof.
  induction pieces as [|s pieces IH]; intros d len Hlen; cbn [fold_left concat]; [by rewrite take_nil, app_nil_r|].
  unfold emitText at 2, updateDst. cbn [fst snd]. destruct (Z.leb_spec len (Z.of_nat (length s))) as [H|H].
  - rewrite IH by lia. change (Z.to_nat (0 - 1)) with O. rewrite take_0, app_nil_r. by rewrite take_app_le by lia.
  - rewrite IH by lia. rewrite <-app_assoc. f_equal. rewrite take_app. f_equal. f_equal. lia.
Qed.

Lemma heads_fit srcBits a : (tableColumns srcBits a <= 9)%nat ->
  exists h, heads srcBits a = Some (lf :: h ++ [lf]) /\ plain h /\ (length h <= 17 + 36 * tableColumns srcBits a)%nat.
Proof.
  intros Hc. unfold heads, tableColumns in *.
  assert (forall (l : list Z) m t, (length t = m)%nat -> (m + 36 * length l < 400)%nat -> plain t ->
    exists h, fold_left (fun t i => t ← t; putRow t (chars "          Core " ++ percent_d i)) l (Some (lf :: t)) = Some (lf :: h) /\ plain h /\
      (length h <= m + 36 * length l)%nat) as H.
  { induction l as [|i l IH]; intros m t Hm Hl Hp; cbn [fold_left length] in *; [exists t; split_and!; [done|done|lia]|].
    cbn [mbind option_bind]. assert (length (chars "          Core " ++ percent_d i) <= 36)%nat as Hi
      by (rewrite length_app; pose proof (percent_d_length i); change (length (chars "          Core ")) with 15%nat; lia).
    rewrite put_fits by (cbn [length]; lia). cbn [app].
    destruct (IH (m + length (chars "          Core " ++ percent_d i))%nat (t ++ chars "          Core " ++ percent_d i)) as (h & E & Hh & Hlen).
    - rewrite length_app. lia.
    - lia.
    - apply plain_app; [done|]. apply plain_app; [by apply chars_plain|apply percent_d_plain].
    - exists h. split_and!; [exact E|done|lia]. }
  destruct (H (present a) 17%nat (chars "                 ") eq_refl) as (h & -> & Hh & Hlen); [lia|by apply chars_plain|].
  cbn [mbind option_bind]. destruct (0 <? srcBits)%Z.
  - rewrite put_fits by (change (length (chars "               Total")) with 20%nat; cbn [length]; lia). cbn [mbind option_bind app].
    rewrite put_fits by (cbn [length]; rewrite length_app; change (length (chars "               Total")) with 20%nat; change (length [lf]) with 1%nat; lia).
    exists (h ++ chars "               Total"). split_and!; [done|by apply plain_app, chars_plain|].
    rewrite length_app. change (length (chars "               Total")) with 20%nat. lia.
  - cbn [mbind option_bind]. rewrite put_fits by (cbn [length]; lia). exists h. split_and!; [done|done|lia].
Qed.

Lemma firstLine_fits srcBits a : exists t, concat (firstLine srcBits a) = t ++ [lf] /\ plain t /\ (length t <= 113)%nat.
Proof.
  unfold firstLine. cbn [concat]. rewrite app_nil_r, app_assoc. eexists. split; [reflexivity|].
  set (x := if srcBits =? 0 then _ else _). set (y := if have_ts a =? 0 then _ else _).
  assert (small_cell y) as [Hy1 Hy2] by (unfold y; repeat case_match; apply chars_small; vm_compute; reflexivity).
  assert (plain x /\ (length x <= 66)%nat) as [Hx1 Hx2].
  { unfold x. destruct (srcBits =? 0)%Z; [split; [by apply chars_plain|vm_compute; lia]|]. split.
    - apply plain_app; [by apply chars_plain|]. apply plain_app; [apply percent_d_plain|by apply chars_plain].
    - rewrite !length_app. pose proof (percent_d_length srcBits). change (length (chars "Trace Analytics: Multi core (src field ")) with 39%nat.
      change (length (chars " bits)")) with 6%nat. lia. }
  split; [by apply plain_app|]. rewrite length_app. lia.
Qed.

Lemma rows_length rs n : Forall (fun r => (length r <= n)%nat) rs -> (length (concat ((fun r : list ascii => r ++ [lf]) <$> rs)) <= (n + 1) * length rs)%nat.
Proof. induction 1 as [|r rs Hr _ IH]; [cbn; lia|]. cbn [fmap list_fmap concat length]. rewrite !length_app. cbn [length]. lia. Qed.

(** A table with tabs for its columns: its lines. *)
Lemma table_lines negNan srcBits a level : (tableColumns srcBits a <= 9)%nat -> level <> 1 ->
  exists first h rs pieces, analyticsPieces negNan srcBits a level = Some pieces /\ lines (concat pieces) = first :: [] :: h :: rs /\
    Forall2 (fun o r => o = Some r) (rows negNan srcBits a) rs /\ ((tableColumns srcBits a <= 1)%nat -> (length (concat pieces) < 4096)%nat).
Proof.
  intros Hc Hlev. unfold analyticsPieces, table. destruct (Z.eqb_spec level 1); [done|].
  destruct (heads_fit srcBits a Hc) as (h & -> & Hh & Hhl). cbn [mbind option_bind].
  pose proof (rows_fit negNan srcBits a Hc) as Hrows.
  assert (exists rs, Forall2 (fun o r => o = Some r) (rows negNan srcBits a) rs /\ Forall plain rs /\
    Forall (fun r => (length r <= 19 + 47 * tableColumns srcBits a)%nat) rs) as (rs & H2 & Hp & Hl).
  { clear Hlev. induction Hrows as [|o os (r & -> & Hlr & Hpr) _ (rs & H2 & Hp & Hl)]; [exists []; split_and!; constructor|].
    exists (r :: rs). split_and!; by constructor. }
  assert (mapM id (rows negNan srcBits a) = Some rs) as -> by (apply mapM_Some; exact H2).
  cbn [mbind option_bind]. destruct (firstLine_fits srcBits a) as (t & Et & Ht & Htl).
  exists t, h, rs. eexists. split; [reflexivity|].
  assert (concat (firstLine srcBits a ++ (lf :: h ++ [lf]) :: ((fun r => r ++ [lf]) <$> rs)) =
    t ++ lf :: [] ++ lf :: h ++ lf :: concat ((fun r => r ++ [lf]) <$> rs)) as ->.
  { rewrite concat_app, Et. cbn [concat]. rewrite <-!app_assoc. cbn [app]. by rewrite <-app_assoc. }
  split_and!; [|done|].
  - rewrite lines_cons by done. rewrite lines_cons by constructor. rewrite lines_cons by done. by rewrite lines_rows.
  - intros H1. pose proof (rows_length rs _ Hl) as Hr. assert (length rs = 50)%nat as Hn by (apply Forall2_length in H2; by rewrite <-H2).
    rewrite Hn in Hr. rewrite !length_app. cbn [length app]. rewrite length_app. cbn [length]. lia.
Qed.

(** A table without tabs for its columns is not defined. *)
Lemma table_undefined negNan srcBits a level : (9 < tableColumns srcBits a)%nat -> level <> 1 -> analyticsPieces negNan srcBits a level = None.
Proof.
  intros Hc Hlev. unfold analyticsPieces, table. destruct (Z.eqb_spec level 1); [done|]. destruct (heads srcBits a); [|done]. cbn [mbind option_bind].
  unfold rows. cbn [mapM]. unfold rowInstructions, countRow. by rewrite row_too_wide.
Qed.
