(* ===== verification/InstText.v ===== *)
(** * InstText: addresses, instructions and source files as text (src/dqr.cpp,
    [Instruction] and [Source])

    What the accessors of a result make of it for printing: the address in so many digits,
    which grow with the largest address that was printed, the code and the text of
    the instruction, and the name of the source file without a path that the caller gives. *)

From stdpp Require Import strings.
From Stdlib Require Import Ascii.
From Stdlib Require String.
From S2P Require Import Prelude Nexus ObjDump ObjDumpPrint Ctf Floats Events EventsRead Settings MsgText MsgRead.

(** ** Addresses *)

Definition ADDRDISP_SEP : Z := 2.

(** The loop that makes [addrPrintWidth] wide enough; a shift by 64 or by less than 0 is undefined. *)
Fixpoint widen (fuel : nat) (address width : Z) : option Z :=
  let shift := 64 - width * 4 in
  match fuel with
  | O => None
  | S fuel =>
      if (shift <? 0) || (64 <=? shift) then None
      else if Z.shiftr (2 ^ 64 - 1) shift <? address then widen fuel address (width + 1) else Some width
  end.

(** The digits of [addressToText], and [addrPrintWidth] after it. *)
Definition addressDigits (addrDispFlags address width : Z) : option (list ascii * Z) :=
  width ← (if Z.testbit addrDispFlags 0 then widen 17 address width else Some width);
  let text :=
    if (8 <? width) && Z.testbit addrDispFlags 1 then
      formatHex false (Z.to_nat (width - 8)) (u32 (Z.shiftr address 32)) ++ chars "." ++ percent_08lx (u32 address)
    else formatHex false (Z.to_nat width) address in
  Some (text, width).

Definition labelPieces (labelLevel : Z) (addressLabel : option (list ascii)) (offset : Z) : list (list ascii) :=
  match addressLabel with
  | Some label =>
      if 1 <=? labelLevel then
        [chars " <" ++ label ++ (if offset =? 0 then [] else chars "+" ++ formatHex false 1 (u32 offset)) ++ chars ">"]
      else []
  | None => []
  end.

(** [addressToText] and [addressToString] *)
Definition addressToText (addrDispFlags : Z) (len : nat) (labelLevel address : Z) (addressLabel : option (list ascii)) (offset width : Z)
    : option (list ascii * Z) :=
  '(digits, width) ← addressDigits addrDispFlags address width;
  text ← snprintfs len 0 [] (digits :: labelPieces labelLevel addressLabel offset);
  Some (text, width).
Definition addressToString (addrDispFlags labelLevel address : Z) (addressLabel : option (list ascii)) (offset width : Z)
    : option (list ascii * Z) :=
  addressToText addrDispFlags 128 labelLevel address addressLabel offset width.

(** ** Instructions *)

(** [instructionToText] and [instructionToString] *)
Definition instructionToText (len : nat) (instruction instSize : Z) (instructionText : list ascii) : option (list ascii) :=
  snprintfs len 0 []
    [if instSize =? 32 then percent_08lx instruction ++ chars "    " ++ instructionText
     else percent_04x instruction ++ chars "        " ++ instructionText].
Definition instructionToString (instruction instSize : Z) (instructionText : list ascii) : option (list ascii) :=
  instructionToText 128 instruction instSize instructionText.

(** [addressLabelToString] *)
Definition addressLabelToString (addressLabel : option (list ascii)) : list ascii := default [] addressLabel.

(** ** Source files *)

(** [stripPath]: what follows the path, whose letters may differ in case and whose slashes may be
    backslashes; the whole name if it does not start with the path. *)
Fixpoint stripFrom (path s : list ascii) : option (list ascii) :=
  match path, s with
  | [], _ => Some s
  | c :: path, [] => None
  | c :: path, d :: s =>
      if decide (lower c = lower d) then stripFrom path s
      else if decide (c = "/"%char) then if decide (d = "\"%char) then stripFrom path s else None
      else if decide (c = "\"%char) then if decide (d = "/"%char) then stripFrom path s else None
      else None
  end.
Definition stripPath (path : option (list ascii)) (sourceFile : option (list ascii)) : option (list ascii) :=
  match path, sourceFile with
  | Some path, Some s => Some (default s (stripFrom path s))
  | _, _ => sourceFile
  end.

(** The characters that a name may have, and where it has others: each is reported. *)
Definition pathChar (c : ascii) : bool :=
  let n := code_of c in
  (97 <=? n) && (n <=? 122) || (65 <=? n) && (n <=? 90) || (48 <=? n) && (n <=? 57) ||
  bool_decide (c ∈ ["/"; "\"; "."; "_"; "-"; "+"; ":"]%char).
Definition bogusChars (sf : list ascii) : list (nat * ascii) := base.filter (fun x => negb (pathChar x.2)) (imap pair sf).

(** [sourceFileToString]: what is printed, and the result. *)
Definition sourceFileToString (path : list ascii) (sourceFile : option (list ascii)) : list (nat * ascii) * list ascii :=
  let sf := default [] (stripPath (Some path) sourceFile) in (bogusChars sf, sf).

(** ** Their properties *)

Lemma formatHex_value w x : 0 <= x < 2 ^ 64 -> isStringAHexNumber (formatHex false w x) = Some x.
Proof.
  intros Hx. unfold formatHex. assert (x < 16 ^ Z.of_nat (hexLength 16 x)) as Hl by (apply hexLength_bound; change (16 ^ Z.of_nat 16) with (2 ^ 64); lia).
  assert (16 ^ Z.of_nat (hexLength 16 x) <= 16 ^ Z.of_nat (w `max` hexLength 16 x)) by (apply Z.pow_le_mono_r; lia).
  by rewrite hex_value by lia.
Qed.

(** Widening ends, with room for the address and no more than 16 digits. *)
Lemma widen_spec address : 0 <= address < 2 ^ 64 -> forall fuel width, 1 <= width <= 16 -> 16 < width + Z.of_nat fuel ->
  exists w, widen fuel address width = Some w /\ width <= w <= 16 /\ address < 16 ^ w.
Proof.
  intros Ha. induction fuel as [|fuel IH]; intros width Hw Hf; [lia|]. cbn [widen]. cbv zeta.
  destruct (Z.ltb_spec (64 - width * 4) 0); [lia|]. destruct (Z.leb_spec 64 (64 - width * 4)); [lia|]. cbn [orb].
  assert (Z.shiftr (2 ^ 64 - 1) (64 - width * 4) = 16 ^ width - 1) as ->.
  { rewrite Z.shiftr_div_pow2 by lia. change 16 with (2 ^ 4). rewrite <-Z.pow_mul_r by lia.
    assert (2 ^ 64 = 2 ^ (4 * width) * 2 ^ (64 - width * 4)) as -> by (rewrite <-Z.pow_add_r by lia; f_equal; lia).
    pose proof (Z.pow_pos_nonneg 2 (64 - width * 4) ltac:(lia) ltac:(lia)). set (k := 2 ^ (64 - width * 4)) in *.
    replace (2 ^ (4 * width) * k - 1) with ((2 ^ (4 * width) - 1) * k + (k - 1)) by lia.
    rewrite Z.div_add_l, Z.div_small by lia. lia. }
  destruct (Z.ltb_spec (16 ^ width - 1) address).
  - assert (width <> 16) by (intros ->; change (16 ^ 16) with (2 ^ 64) in *; lia).
    destruct (IH (width + 1)) as (w & E & Hw2 & Hlt); [lia..|]. exists w. split; [done|]. lia.
  - exists width. split; [done|]. lia.
Qed.

(** The digits of an address are those of the address, without a separator. *)
Lemma addressDigits_value addrDispFlags address width : 0 <= address < 2 ^ 64 -> 1 <= width <= 16 -> Z.testbit addrDispFlags 1 = false ->
  exists t w, addressDigits addrDispFlags address width = Some (t, w) /\ width <= w <= 16 /\ isStringAHexNumber t = Some address.
Proof.
  intros Ha Hw Hsep. unfold addressDigits. rewrite Hsep. destruct (Z.testbit addrDispFlags 0).
  - destruct (widen_spec address Ha 17 width Hw ltac:(lia)) as (w & -> & Hw2 & _). cbn [mbind option_bind]. rewrite andb_false_r.
    exists (formatHex false (Z.to_nat w) address), w. split; [done|]. split; [done|]. by apply formatHex_value.
  - cbn [mbind option_bind]. rewrite andb_false_r. exists (formatHex false (Z.to_nat width) address), width. split; [done|]. split; [lia|]. by apply formatHex_value.
Qed.

(** A path in front is taken away. *)
Lemma stripFrom_app path s : stripFrom path (path ++ s) = Some s.
Proof. induction path as [|c path IH]; cbn [app stripFrom]; [by destruct s|]. by rewrite decide_True. Qed.
