(* ===== verification/PerfText.v ===== *)
(** * PerfText: the files of the performance counters (src/trace.cpp, [PerfConverter])

    The lines that [Perf] collects as what they say are text here: each goes to a file
    of all lines, and most go to the file of their counter, of the addresses or of the calls and
    returns, which is opened for its first line.  A file is the text that was written to it. *)

From stdpp Require Import strings.
From Stdlib Require Import Ascii.
From Stdlib Require String.
From S2P Require Import Prelude Nexus ObjDump SrcFiles Symbols Disasm Perf Ctf Floats Events.

(** ** The files *)

(** Of the enumeration of [PerfConverter]: the counters have the indices below 32. *)
Definition pt_addressIndex : nat := 32.
Definition pt_fnIndex : nat := 33.
Definition pt_numPerfTypes : nat := 34.

Record PerfFiles := {
  pl_status : DQErr;
  pl_perfFDs : list (option (list ascii));
  pl_perfFD : option (list ascii);
  pl_perfNameGen : list ascii;
  pl_elfNamePath : option (list ascii);
  pl_disassembler : option Disassembler;
}.
Definition set_pl_status e (c : PerfFiles) : PerfFiles := {|
  pl_status := e; pl_perfFDs := pl_perfFDs c; pl_perfFD := pl_perfFD c; pl_perfNameGen := pl_perfNameGen c;
  pl_elfNamePath := pl_elfNamePath c; pl_disassembler := pl_disassembler c |}.
Definition set_perfFDs l (c : PerfFiles) : PerfFiles := {|
  pl_status := pl_status c; pl_perfFDs := l; pl_perfFD := pl_perfFD c; pl_perfNameGen := pl_perfNameGen c;
  pl_elfNamePath := pl_elfNamePath c; pl_disassembler := pl_disassembler c |}.
Definition set_perfFD f (c : PerfFiles) : PerfFiles := {|
  pl_status := pl_status c; pl_perfFDs := pl_perfFDs c; pl_perfFD := f; pl_perfNameGen := pl_perfNameGen c;
  pl_elfNamePath := pl_elfNamePath c; pl_disassembler := pl_disassembler c |}.
Definition set_pl_disassembler d (c : PerfFiles) : PerfFiles := {|
  pl_status := pl_status c; pl_perfFDs := pl_perfFDs c; pl_perfFD := pl_perfFD c; pl_perfNameGen := pl_perfNameGen c;
  pl_elfNamePath := pl_elfNamePath c; pl_disassembler := d |}.

#[local] Abbreviation LM := (M PerfFiles DQErr).

(** ** Texts *)

(** The line that says what kind of counts follow. *)
Definition countTypeText (cntType : Z) : list ascii :=
  (if cntType =? perfCount_Raw then chars "# COUNT_TYPE: RAW"
   else if cntType =? perfCount_Delta then chars "# COUNT_TYPE: Delta"
   else if cntType =? perfCount_DeltaXOR then chars "# COUNT_TYPE: DeltaXOR"
   else chars "# COUNT_TYPE: unknown") ++ [lf].

Definition perfAddrText (core ts pc : Z) : list ascii := lineStart core ts ++ chars "PC=0x" ++ percent_08lx pc ++ chars " [Address]".
Definition perfFnEntryText (core ts fnAddr csAddr : Z) : list ascii :=
  lineStart core ts ++ chars "[Func Enter at 0x" ++ percent_08lx fnAddr ++ chars "] [Called From 0x" ++ percent_08lx csAddr ++ chars "]".
Definition perfFnExitText (core ts fnAddr csAddr : Z) : list ascii :=
  lineStart core ts ++ chars "[Func Exit] [Func at 0x" ++ percent_08lx fnAddr ++ chars "] [Returning to 0x" ++ percent_08lx csAddr ++ chars "]".
Definition perfCntrText (core ts pc cntrIndex cntrVal : Z) : list ascii :=
  lineStart core ts ++ chars "PC=0x" ++ percent_08lx pc ++ chars " [Perf Cntr] [Index=" ++ percent_d (i32 cntrIndex) ++ chars "] [Value=" ++
  percent_d (i64 cntrVal) ++ chars "] ".
Definition perfCntrMaskText (core ts cntrMask : Z) : list ascii :=
  lineStart core ts ++ chars "[Perf Cntr Mask] [Mask=0x" ++ percent_08lx cntrMask ++ chars "]" ++ [lf].
Definition perfCntrDefText (core ts cntrIndex cntrType cntrCode eventData cntrInfo : Z) : list ascii :=
  let csr := Z.land cntrInfo 0xfff in
  let bits := Z.land (Z.shiftr cntrInfo 12) 0x3f + 1 in
  lineStart core ts ++ chars "[Perf Cntr Def] [Counter=" ++ percent_d (i32 cntrIndex) ++ chars "] [Type=" ++ percent_d (i32 cntrType) ++
  chars "] [Code=" ++ percent_d (i32 cntrCode) ++ chars "] [EventData=0x" ++ percent_08lx eventData ++ chars "] [CntrCSR=0x" ++
  formatHex false 3 csr ++ chars "] [CntrBits=" ++ percent_d bits ++ chars "]" ++ [lf].

Section files.
(** Whether a file can be opened, and what the source files contain. *)
Context (opens : list ascii -> bool) (contents : list ascii -> option (list ascii)).

(** ** Writing *)

(** A file starts with the name of the program and the kind of the counts of the core. *)
Definition openPerf (i : nat) (ext : list ascii) (cntType : Z) : LM bool :=
  c ← get;
  fd ← lift_opt (pl_perfFDs c !! i);
  match fd with
  | Some _ => mret true
  | None =>
      name ← lift_opt (eventFileName (pl_perfNameGen c) ext);
      if opens name then
        head ← lift_opt (pl_elfNamePath c);
        modify (set_perfFDs (<[i := Some (head ++ countTypeText cntType)]> (pl_perfFDs c))) ≫= fun _ => mret true
      else modify (set_pl_status DQERR_ERR) ≫= fun _ => mret false
  end.

(** The source line of an address; without it there is no line. *)
Definition perfInfo (pc : Z) : LM (list ascii) :=
  c ← get;
  match pl_disassembler c with
  | None => mret [lf]
  | Some d =>
      let back d' := modify (set_pl_disassembler (Some (set_source (ds_source d) d'))) in
      match getSrcLines contents pc d with
      | Ok d' _ =>
          let x := ds_source d' in
          let info function := mret (ffl (so_sourceFile x) function (so_sourceLineNum x)) in
          match so_sourceFunction x with
          | Some f => back d' ≫= fun _ => info (Some f)
          | None =>
              match getFunctionName pc d' with
              | Ok d' (f, _) => back d' ≫= fun _ => info f
              | Err d' _ => back d' ≫= fun _ => throw DQERR_ERR
              | Undef => undef
              | NoFuel => fun _ => NoFuel
              end
          end
      | Err d' _ => back d' ≫= fun _ => throw DQERR_ERR
      | Undef => undef
      | NoFuel => fun _ => NoFuel
      end
  end.

Definition writeAll (t : list ascii) : LM unit := modify (fun c => set_perfFD ((fun f => f ++ t) <$> pl_perfFD c) c).
Definition writeTo (i : nat) (t : list ascii) : LM unit :=
  modify (fun c => set_perfFDs (alter (fmap (fun f => f ++ t)) i (pl_perfFDs c)) c).

(** A line with the source line of an address. *)
Definition emitAt (i : nat) (ext : list ascii) (cntType pc : Z) (text : list ascii) : LM unit :=
  ok ← openPerf i ext cntType;
  if ok : bool then
    info ← perfInfo pc;
    text ← lift_opt (inBuffer text);
    info ← lift_opt (inBuffer info);
    writeAll (text ++ info) ≫= fun _ => writeTo i (text ++ info)
  else mret tt.

Definition emitPerfAddr (cntType core ts pc : Z) : LM unit := emitAt pt_addressIndex (chars "address") cntType pc (perfAddrText core ts pc).
Definition emitPerfFnEntry (cntType core ts fnAddr csAddr : Z) : LM unit :=
  emitAt pt_fnIndex (chars "callret") cntType fnAddr (perfFnEntryText core ts fnAddr csAddr).
Definition emitPerfFnExit (cntType core ts fnAddr csAddr : Z) : LM unit :=
  emitAt pt_fnIndex (chars "callret") cntType csAddr (perfFnExitText core ts fnAddr csAddr).
Definition emitPerfCntr (cntType core ts pc cntrIndex cntrVal : Z) : LM unit :=
  emitAt (Z.to_nat cntrIndex) (chars "perfcounter" ++ percent_d (i32 cntrIndex)) cntType pc (perfCntrText core ts pc cntrIndex cntrVal).
Definition emitPerfCntType (cntType : Z) : LM unit := writeAll (countTypeText cntType).
Definition emitPerfCntrMask (core ts cntrMask : Z) : LM unit := writeAll (perfCntrMaskText core ts cntrMask).
(** The file of a counter has another name if its definition comes first. *)
Definition emitPerfCntrDef (type core ts cntrIndex cntrType cntrCode eventData cntrInfo : Z) : LM unit :=
  ok ← openPerf (Z.to_nat cntrIndex) (chars "perfchannel" ++ percent_d (i32 cntrIndex)) type;
  if ok : bool then
    let text := perfCntrDefText core ts cntrIndex cntrType cntrCode eventData cntrInfo in
    writeAll text ≫= fun _ => writeTo (Z.to_nat cntrIndex) text
  else mret tt.

(** A line of a core whose [cntType] is given; what the functions return is not looked at. *)
Definition discard (e : LM unit) : LM unit := fun c => match e c with Err c' _ => Ok c' tt | r => r end.
Definition emitPerf (cntType core ts : Z) (x : PerfLine) : LM unit :=
  discard match x with
  | L_cntType t => emitPerfCntType t
  | L_cntrMask m => emitPerfCntrMask core ts m
  | L_cntrDef i t c d info => emitPerfCntrDef cntType core ts i t c d info
  | L_addr pc => emitPerfAddr cntType core ts pc
  | L_fnEntry fn cs => emitPerfFnEntry cntType core ts fn cs
  | L_fnExit fn cs => emitPerfFnExit cntType core ts fn cs
  | L_cntr pc i v => emitPerfCntr cntType core ts pc i v
  end.

(** All lines, with the types that the cores have by then. *)
Fixpoint writeLines (types : Z -> Z) (l : list (Z * Z * PerfLine)) : LM unit :=
  match l with
  | [] => mret tt
  | (core, ts, x) :: l =>
      let types := match x with L_cntType t => fun k => if k =? core then t else types k | _ => types end in
      emitPerf (types core) core ts x ≫= fun _ => writeLines types l
  end.

(** ** The constructor *)

(** [mkdirs] says whether the directory is there or can be made; the names have to fit in their arrays. *)
Definition newPerfFiles (cwd : list ascii) (mkdirs : bool) (elf rtd : option (list ascii)) (disassembler : option Disassembler)
    : Res PerfFiles DQErr unit :=
  let c status gen fd head := {|
    pl_status := status; pl_perfFDs := replicate pt_numPerfTypes None; pl_perfFD := fd; pl_perfNameGen := gen;
    pl_elfNamePath := head; pl_disassembler := disassembler |} in
  match elf, getPathsNames cwd elf, getPathsNames cwd rtd with
  | Some elfName, Some (base, _, _), Some (_, _, dir) =>
      let gen := dir ++ chars "perf" ++ ["/"%char] ++ base ++ chars ".%s" in
      let head := chars "# ELFPATH=" ++ elfName ++ [lf] in
      if (512 <=? length (dir ++ base ++ chars ".perf"))%nat then Undef
      else if negb (opens (dir ++ base ++ chars ".perf")) then Err (c DQERR_ERR dir None None) DQERR_ERR
      else if (512 <=? length gen)%nat then Undef
      else if mkdirs then Ok (c DQERR_OK gen (Some head) (Some head)) tt
      else Err (c DQERR_ERR (dir ++ chars "perf") (Some head) (Some head)) DQERR_ERR
  | _, _, _ => Undef
  end.
End files.
