(* ===== verification/PerfFileRead.v ===== *)
(** * The file of the performance counters is read back

    A reader of the lines of [PerfConverter], and the proof that the file of all lines says what
    the lines say, in order, each with what the disassembler tells of the source line of its
    address; a line of an address that it can tell nothing of is not written. *)

From stdpp Require Import strings.
From Stdlib Require Import Ascii.
From Stdlib Require String.
From S2P Require Import Prelude Nexus ObjDump ObjDumpPrint ObjCode Symbols ElfFile SrcFiles Disasm Described Perf Ctf Floats Events EventsRead MsgRead InstText AnalyticsRead PerfText.

(** ** The reader *)

(** What a line says: a line of the kind of the counts has no core, and a definition only the parts of the word that
    describes the counter.  What follows about the source line is a text. *)
Inductive PerfTold :=
| PT_type (t : option Z)
| PT_mask (core ts mask : Z)
| PT_def (core ts index type code eventData csr bits : Z)
| PT_addr (core ts pc : Z) (source : list ascii)
| PT_entry (core ts fn callSite : Z) (source : list ascii)
| PT_exit (core ts fn callSite : Z) (source : list ascii)
| PT_cntr (core ts pc index value : Z) (source : list ascii).

(** [source] is what is told of an address; a line without it is lost. *)
Definition toldOf (source : Z -> option (list ascii)) (l : Z * Z * PerfLine) : option PerfTold :=
  let '(core, ts, x) := l in
  match x with
  | L_cntType t => Some (PT_type (if (0 <=? t) && (t <=? 2) then Some t else None))
  | L_cntrMask m => Some (PT_mask core (i32 ts) m)
  | L_cntrDef i t c d info => Some (PT_def core (i32 ts) (i32 i) (i32 t) (i32 c) d (Z.land info 0xfff) (Z.land (Z.shiftr info 12) 0x3f + 1))
  | L_addr pc => PT_addr core (i32 ts) pc <$> source pc
  | L_fnEntry fn cs => PT_entry core (i32 ts) fn cs <$> source fn
  | L_fnExit fn cs => PT_exit core (i32 ts) fn cs <$> source cs
  | L_cntr pc i v => PT_cntr core (i32 ts) pc (i32 i) (i64 v) <$> source pc
  end.
(** The address that a line is told with the source line of. *)
Definition placeOf (x : PerfLine) : option Z :=
  match x with L_addr pc | L_cntr pc _ _ => Some pc | L_fnEntry fn _ => Some fn | L_fnExit _ cs => Some cs | _ => None end.

(** A number up to a character, in base 10 and in base 16. *)
Definition decimalTo (c : ascii) (l : list ascii) : option (Z * list ascii) := '(w, l) ← upTo c l; x ← readInt w; Some (x, l).
Definition hexTo (c : ascii) (l : list ascii) : option (Z * list ascii) := '(w, l) ← upTo c l; x ← isStringAHexNumber w; Some (x, l).

Definition readAfter (core ts : Z) (l : list ascii) : option PerfTold :=
  match strip (chars "PC=0x") l with
  | Some l =>
      '(pc, l) ← hexTo " " l;
      match strip (chars "[Address]") l with
      | Some s => Some (PT_addr core ts pc s)
      | None =>
          l ← strip (chars "[Perf Cntr] [Index=") l; '(i, l) ← decimalTo "]" l;
          l ← strip (chars " [Value=") l; '(v, l) ← decimalTo "]" l; s ← strip (chars " ") l;
          Some (PT_cntr core ts pc i v s)
      end
  | None =>
  match strip (chars "[Func Enter at 0x") l with
  | Some l => '(fn, l) ← hexTo "]" l; l ← strip (chars " [Called From 0x") l; '(cs, s) ← hexTo "]" l; Some (PT_entry core ts fn cs s)
  | None =>
  match strip (chars "[Func Exit] [Func at 0x") l with
  | Some l => '(fn, l) ← hexTo "]" l; l ← strip (chars " [Returning to 0x") l; '(cs, s) ← hexTo "]" l; Some (PT_exit core ts fn cs s)
  | None =>
  match strip (chars "[Perf Cntr Mask] [Mask=0x") l with
  | Some l => '(m, _) ← hexTo "]" l; Some (PT_mask core ts m)
  | None =>
      l ← strip (chars "[Perf Cntr Def] [Counter=") l; '(i, l) ← decimalTo "]" l;
      l ← strip (chars " [Type=") l; '(t, l) ← decimalTo "]" l; l ← strip (chars " [Code=") l; '(c, l) ← decimalTo "]" l;
      l ← strip (chars " [EventData=0x") l; '(d, l) ← hexTo "]" l; l ← strip (chars " [CntrCSR=0x") l; '(csr, l) ← hexTo "]" l;
      l ← strip (chars " [CntrBits=") l; '(bits, _) ← decimalTo "]" l; Some (PT_def core ts i t c d csr bits)
  end end end end.

Definition readPerfLine (l : list ascii) : option PerfTold :=
  match strip (chars "# COUNT_TYPE: ") l with
  | Some w => Some (PT_type (if decide (w = chars "RAW") then Some 0 else if decide (w = chars "Delta") then Some 1
                             else if decide (w = chars "DeltaXOR") then Some 2 else None))
  | None =>
      l ← strip (chars "[") l; '(core, l) ← decimalTo "]" l; l ← strip (chars " ") l; '(ts, l) ← decimalTo " " l; readAfter core ts l
  end.

(** ** The lines *)

(** The text of a line in the file of all lines. *)
Definition withSource (t : list ascii) (s : option (list ascii)) : list ascii := match s with Some s => t ++ s ++ [lf] | None => [] end.
Definition perfText (source : Z -> option (list ascii)) (l : Z * Z * PerfLine) : list ascii :=
  let '(core, ts, x) := l in
  match x with
  | L_cntType t => countTypeText t
  | L_cntrMask m => perfCntrMaskText core ts m
  | L_cntrDef i t c d info => perfCntrDefText core ts i t c d info
  | L_addr pc => withSource (perfAddrText core ts pc) (source pc)
  | L_fnEntry fn cs => withSource (perfFnEntryText core ts fn cs) (source fn)
  | L_fnExit fn cs => withSource (perfFnExitText core ts fn cs) (source cs)
  | L_cntr pc i v => withSource (perfCntrText core ts pc i v) (source pc)
  end.

Definition u64_ok (x : Z) : Prop := 0 <= x < 2 ^ 64.
(** The values are those of the types of the arguments. *)
Definition perf_line_ok (l : Z * Z * PerfLine) : Prop :=
  let '(core, _, x) := l in
  0 <= core < 16 /\
  match x with
  | L_cntType t => 0 <= t < 256
  | L_cntrMask m => u64_ok m
  | L_cntrDef i _ _ d info => 0 <= i < 32 /\ u64_ok d /\ 0 <= info
  | L_addr pc => u64_ok pc
  | L_fnEntry fn cs | L_fnExit fn cs => u64_ok fn /\ u64_ok cs
  | L_cntr pc i _ => 0 <= i < 32 /\ u64_ok pc
  end.

Lemma decimalTo_d c x rest : numberChar c = false -> small x -> decimalTo c (percent_d x ++ c :: rest) = Some (x, rest).
Proof.
  intros Hc Hx. unfold decimalTo. rewrite upTo_app by (apply number_plain; [done|apply percent_d_chars]). cbn [mbind option_bind].
  by rewrite readInt_d.
Qed.
Lemma hex_plain w x : 0 <= x -> Forall numberChar (formatHex false w x).
Proof.
  unfold formatHex. generalize (w `max` hexLength 16 x)%nat. intros n. revert x. induction n as [|n IH]; intros x Hx; cbn; [constructor|].
  pose proof (Z.mod_pos_bound x 16 ltac:(lia)). apply list.Forall_app. split; [apply IH; by apply Z.div_pos|].
  constructor; [by apply digit_number|constructor].
Qed.
Lemma hexTo_x c w x rest : numberChar c = false -> u64_ok x -> hexTo c (formatHex false w x ++ c :: rest) = Some (x, rest).
Proof.
  intros Hc Hx. unfold hexTo, u64_ok in *. rewrite upTo_app by (apply number_plain; [done|apply hex_plain; lia]). cbn [mbind option_bind].
  by rewrite formatHex_value.
Qed.
Lemma small_i64 x : small (i64 x).
Proof. unfold small, i64, swrap. pose proof (Z.mod_pos_bound x (2 ^ 64) ltac:(lia)). unfold wrap. case_match; lia. Qed.

(** ** Reading a line *)

Lemma decimalTo_s c s x rest : numberChar c = false -> small x ->
  decimalTo c (percent_d x ++ chars (String.String c s) ++ rest) = Some (x, chars s ++ rest).
Proof. exact (decimalTo_d c x (chars s ++ rest)). Qed.
Lemma hexTo_s c s w x rest : numberChar c = false -> u64_ok x ->
  hexTo c (formatHex false w x ++ chars (String.String c s) ++ rest) = Some (x, chars s ++ rest).
Proof. exact (hexTo_x c w x (chars s ++ rest)). Qed.

(** Words that a text does not start with. *)
Definition differs (p s : list ascii) : bool := match strip p s with Some _ => false | None => (length p <=? length s)%nat end.
Lemma strip_differs p s l : differs p s = true -> strip p (s ++ l) = None.
Proof.
  unfold differs. revert s. induction p as [|c p IH]; intros s; [by destruct s|]. destruct s as [|d s]; [done|]. cbn [strip app length].
  destruct (decide (d = c)); [apply IH|done].
Qed.

(** One step of the reader. *)
Ltac readStep :=
  first
    [ rewrite strip_app
    | rewrite decimalTo_s by (reflexivity || apply small_i32 || apply small_i64 || assumption || (unfold small; lia))
    | rewrite hexTo_s by (reflexivity || assumption)
    | rewrite strip_differs by reflexivity ]; cbn [mbind option_bind].

Lemma read_lineStart core ts l : 0 <= core < 16 -> readPerfLine (lineStart core ts ++ l) = readAfter core (i32 ts) l.
Proof.
  intros Hc. unfold readPerfLine, lineStart. rewrite <-!app_assoc. repeat readStep. done.
Qed.

Lemma read_addr core ts pc s : 0 <= core < 16 -> u64_ok pc -> readPerfLine (perfAddrText core ts pc ++ s) = Some (PT_addr core (i32 ts) pc s).
Proof.
  intros Hc Hpc. unfold perfAddrText. rewrite <-!app_assoc, read_lineStart by done. unfold readAfter, percent_08lx. repeat readStep. done.
Qed.
Lemma read_entry core ts fn cs s : 0 <= core < 16 -> u64_ok fn -> u64_ok cs ->
  readPerfLine (perfFnEntryText core ts fn cs ++ s) = Some (PT_entry core (i32 ts) fn cs s).
Proof.
  intros Hc H1 H2. unfold perfFnEntryText. rewrite <-!app_assoc, read_lineStart by done. unfold readAfter, percent_08lx. repeat readStep. done.
Qed.
Lemma read_exit core ts fn cs s : 0 <= core < 16 -> u64_ok fn -> u64_ok cs ->
  readPerfLine (perfFnExitText core ts fn cs ++ s) = Some (PT_exit core (i32 ts) fn cs s).
Proof.
  intros Hc H1 H2. unfold perfFnExitText. rewrite <-!app_assoc, read_lineStart by done. unfold readAfter, percent_08lx. repeat readStep. done.
Qed.
Lemma read_cntr core ts pc i v s : 0 <= core < 16 -> u64_ok pc ->
  readPerfLine (perfCntrText core ts pc i v ++ s) = Some (PT_cntr core (i32 ts) pc (i32 i) (i64 v) s).
Proof.
  intros Hc Hpc. unfold perfCntrText. rewrite <-!app_assoc, read_lineStart by done. unfold readAfter, percent_08lx. repeat readStep.
  change (chars " " ++ s) with (chars " " ++ s). repeat readStep. done.
Qed.

Lemma readPerfLine_text source l t y : perf_line_ok l -> toldOf source l = Some y -> perfText source l = t ++ [lf] -> readPerfLine t = Some y.
Proof.
  destruct l as [[core ts] x]. intros [Hc Hx] Ey E.
  destruct x as [t0|m|i t0 c d info|pc|fn cs|fn cs|pc i v]; cbn [perfText toldOf] in *;
    [injection Ey as <-|injection Ey as <-|injection Ey as <-|apply fmap_Some in Ey as (s & Es & ->); rewrite Es in E; unfold withSource in E;
      rewrite app_assoc in E; apply app_inj_tail in E as [<- _]..].
  - unfold countTypeText in E. apply app_inj_tail in E as [<- _].
    destruct (Z.eqb_spec t0 perfCount_Raw) as [->|]; [done|]. destruct (Z.eqb_spec t0 perfCount_Delta) as [->|]; [done|].
    destruct (Z.eqb_spec t0 perfCount_DeltaXOR) as [->|]; [done|]. unfold perfCount_Raw, perfCount_Delta, perfCount_DeltaXOR in *.
    destruct (Z.leb_spec 0 t0), (Z.leb_spec t0 2); cbn [andb]; try done; lia.
  - unfold perfCntrMaskText in E. rewrite !app_assoc in E. apply app_inj_tail in E as [<- _]. rewrite <-!app_assoc, read_lineStart by done.
    unfold readAfter, percent_08lx. rewrite <-(app_nil_r (chars "]")). repeat readStep. done.
  - destruct Hx as (Hi & Hd & Hinfo). unfold perfCntrDefText in E. cbv zeta in E. rewrite !app_assoc in E. apply app_inj_tail in E as [<- _].
    rewrite <-!app_assoc, read_lineStart by done. unfold readAfter, percent_08lx. rewrite <-(app_nil_r (chars "]")).
    assert (u64_ok (Z.land info 0xfff)) by (unfold u64_ok; change 0xfff with (Z.ones 12); rewrite Z.land_ones by lia;
      pose proof (Z.mod_pos_bound info (2 ^ 12) ltac:(lia)); lia).
    assert (0 <= Z.land (Z.shiftr info 12) 0x3f < 64) by (change 0x3f with (Z.ones 6); rewrite Z.land_ones by lia;
      apply (Z.mod_pos_bound _ (2 ^ 6)); lia).
    repeat readStep. done.
  - by apply read_addr.
  - destruct Hx; by apply read_entry.
  - destruct Hx; by apply read_exit.
  - destruct Hx; by apply read_cntr.
Qed.

(** ** Writing the file of all lines *)

Section written.
Context (opens : list ascii -> bool) (contents : list ascii -> option (list ascii)).
Context (store : list ElfSection) (syms : list Sym) (d0 : Disassembler).

(** What the disassembler tells of an address; nothing of 0 and of one in no section. *)
Definition perfSource (pc : Z) : option (list ascii) :=
  if pc =? 0 then None else _ ← List.find (hasAddress pc) (ds_sectionLst d0); Some (sourceInfo contents d0 pc).
(** An address in a section has to have a place in its arrays, and its text is one line that fits. *)
Definition perfPlace (pc : Z) : Prop :=
  pc = 0 \/ List.find (hasAddress pc) (ds_sectionLst d0) = None \/ toldAt contents d0 pc.

#[local] Abbreviation like := (likeFirst contents store syms d0).

Lemma set_source_ok x d : dis_ok contents store syms d -> dis_same d0 d ->
  dis_ok contents store syms (set_source x d) /\ dis_same d0 (set_source x d).
Proof. intros [] []. by split. Qed.

(** The two cases in which nothing is told. *)
Lemma nowhere_lines pc d : pc = 0 \/ List.find (hasAddress pc) (ds_sectionLst d0) = None -> dis_ok contents store syms d -> dis_same d0 d ->
  exists d2, dis_ok contents store syms d2 /\ dis_same d0 d2 /\
    (getSrcLines contents pc d = Err d2 DQERR_ERR \/
     exists d1, getSrcLines contents pc d = Ok d1 tt /\ so_sourceFunction (ds_source d1) = None /\ getFunctionName pc d1 = Err d2 DQERR_ERR).
Proof using Type.
  intros Hp Hd Hs. destruct (set_source_ok noSource d Hd Hs) as [Hd1 Hs1]. exists (set_source noSource d). split; [done|]. split; [done|].
  unfold getSrcLines. rewrite bind_modify. unfold findNearestLine. destruct (Z.eqb_spec pc 0) as [->|Hpc].
  - right. exists (set_source noSource d). split; [by rewrite ret_bind|]. split; [done|].
    unfold getFunctionName. erewrite bind_err; [reflexivity|]. unfold symbolAt. erewrite bind_err; [reflexivity|].
    unfold Memory.zoom, lookupSymbolByAddress. cbn [Z.eqb]. unfold throw. cbn. by destruct d.
  - left. destruct Hp as [?|Hp]; [done|]. rewrite <-(dm_sections _ _ Hs) in Hp.
    rewrite bind_assoc, bind_get. erewrite bind_err; [reflexivity|].
    destruct (Z.eqb_spec pc (ds_cachedAddr (set_source noSource d))) as [E|Hne].
    + pose proof (do_cached _ _ _ _ Hd1) as Hc. destruct (ds_cached (set_source noSource d)) as [[sp i]|]; [|congruence].
      destruct Hc as [Hc _]. rewrite <-E in Hc. cbn in Hc. congruence.
    + erewrite bind_err; [reflexivity|]. unfold cacheSrcInfo. erewrite bind_err; [reflexivity|].
      unfold sectionOf. rewrite bind_get. cbn [ds_sectionLst set_source]. by rewrite Hp.
Qed.

Lemma perfInfo_spec pc c : like (pl_disassembler c) -> perfPlace pc -> exists o, like o /\
  perfInfo contents pc c = match perfSource pc with
                           | Some t => Ok (set_pl_disassembler o c) (t ++ [lf])
                           | None => Err (set_pl_disassembler o c) DQERR_ERR
                           end.
Proof using Type.
  intros (d & Ed & Hd & Hs) Hp. unfold perfInfo. rewrite bind_get, Ed.
  assert (pc = 0 \/ List.find (hasAddress pc) (ds_sectionLst d0) = None \/ pc <> 0 /\ toldAt contents d0 pc) as [Hn|[Hpc Ht]]%or_assoc.
  { destruct Hp as [?|[?|Ht]]; [by left|by right; left|right; right]. split; [exact (proj1 Ht)|done]. }
  - destruct (nowhere_lines pc d Hn Hd Hs) as (d2 & Hd2 & Hs2 & E). exists (Some (set_source (ds_source d) d2)).
    split; [by apply likeFirst_source|].
    assert (perfSource pc = None) as ->.
    { unfold perfSource. destruct (Z.eqb_spec pc 0); [done|]. destruct Hn as [?|Hn]; [done|]. by rewrite Hn. }
    destruct E as [E|(d1 & E1 & Ef & E2)]; [by rewrite E|]. by rewrite E1, Ef, E2.
  - destruct (told_lines contents store syms d0 pc d Ht Hd Hs) as (d1 & d2 & f & E1 & Hf & Hd2 & Hs2 & Htext).
    exists (Some (set_source (ds_source d) d2)). split; [by apply likeFirst_source|].
    assert (perfSource pc = Some (sourceInfo contents d0 pc)) as ->.
    { unfold perfSource. destruct (Z.eqb_spec pc 0); [done|]. destruct Ht as (_ & (file & line & Eline & _) & _). unfold lineAt in Eline.
      by destruct (List.find _ _). }
    rewrite <-Htext, E1. destruct (so_sourceFunction (ds_source d1)) as [g|]; [by destruct Hf as [-> ->]|]. destruct Hf as [o ->]. done.
Qed.

Lemma source_fits pc t : perfPlace pc -> perfSource pc = Some t -> plain t /\ (length t < 511)%nat.
Proof using Type.
  unfold perfSource. intros Hp E. destruct (Z.eqb_spec pc 0) as [|Hpc]; [done|].
  destruct (List.find _ _) eqn:Ef; [|done]. injection E as <-. destruct Hp as [?|[?|(_ & _ & ? & ?)]]; [done|congruence|done].
Qed.

(** Files that can be opened. *)
Record writable (f : list ascii) (c : PerfFiles) : Prop := {
  wr_disassembler : like (pl_disassembler c);
  wr_fd : pl_perfFD c = Some f;
  wr_fds : length (pl_perfFDs c) = pt_numPerfTypes;
  wr_elf : is_Some (pl_elfNamePath c);
  wr_names : forall ext, (length ext <= 13)%nat -> exists n, eventFileName (pl_perfNameGen c) ext = Some n /\ opens n = true;
}.

Lemma openPerf_opens i ext ty f c : writable f c -> (i < pt_numPerfTypes)%nat -> (length ext <= 13)%nat ->
  exists c', openPerf opens i ext ty c = Ok c' true /\ writable f c'.
Proof.
  intros [H1 H2 H3 [e H4] H5] Hi He. unfold openPerf. destruct (lookup_lt_is_Some_2 (pl_perfFDs c) i ltac:(lia)) as [fd Hfd].
  unfold get, mbind, M_bind. rewrite Hfd. cbn [lift_opt]. destruct fd as [t|]; [exists c; split; [done|by split]|].
  destruct (H5 ext He) as (n & En & Ho). rewrite En. cbn [lift_opt]. rewrite Ho, H4. cbn [lift_opt].
  eexists. split; [reflexivity|]. split; cbn; try done. by rewrite length_insert.
Qed.

(** A line with the source line of its address, if that is told. *)
Lemma emitAt_written i ext ty pc text f c : writable f c -> (i < pt_numPerfTypes)%nat -> (length ext <= 13)%nat -> (length text < 512)%nat ->
  perfPlace pc ->
  exists c', discard (emitAt opens contents i ext ty pc text) c = Ok c' tt /\ writable (f ++ withSource text (perfSource pc)) c'.
Proof using Type.
  intros Hw Hi He Ht Hp. destruct (openPerf_opens i ext ty f c Hw Hi He) as (c1 & E & [H1 H2 H3 H4 H5]).
  destruct (perfInfo_spec pc c1 H1 Hp) as (o & Ho & E2). unfold discard, emitAt. rewrite (bind_ok _ _ _ _ _ E).
  destruct (perfSource pc) as [t|] eqn:Es.
  - rewrite (bind_ok _ _ _ _ _ E2). destruct (source_fits pc t Hp Es) as [_ Hl].
    assert (inBuffer text = Some text) as -> by (unfold inBuffer; by destruct (Nat.ltb_spec (length text) 512); [|lia]).
    assert (inBuffer (t ++ [lf]) = Some (t ++ [lf])) as ->
      by (unfold inBuffer; rewrite length_app; cbn [length]; by destruct (Nat.ltb_spec (length t + 1) 512); [|lia]).
    rewrite !lift_bind. eexists. split; [reflexivity|]. split; cbn; try done; [by rewrite H2|by rewrite length_alter].
  - rewrite (bind_err _ _ _ _ _ E2). eexists. split; [reflexivity|]. cbn [withSource]. rewrite app_nil_r. by split.
Qed.

Ltac perfLength := unfold perfAddrText, perfFnEntryText, perfFnExitText, perfCntrText, lineStart; pieceLength.

Lemma emitPerf_written ty core ts x f c : writable f c -> perf_line_ok (core, ts, x) -> (forall pc, placeOf x = Some pc -> perfPlace pc) ->
  exists c', emitPerf opens contents ty core ts x c = Ok c' tt /\ writable (f ++ perfText perfSource (core, ts, x)) c'.
Proof using Type.
  intros Hw [Hc Hx] Hp. assert (forall t, writable (f ++ t) (set_perfFD ((fun f => f ++ t) <$> pl_perfFD c) c)) as Hall.
  { intros t. destruct Hw as [H1 H2 H3 H4 H5]. split; cbn; try done. by rewrite H2. }
  assert (forall i, 0 <= i < 32 -> (Z.to_nat i < pt_numPerfTypes)%nat) as Hi by (unfold pt_numPerfTypes; lia).
  assert (forall s y, (length (chars s) =? 11)%nat = true -> 0 <= y < 32 -> (length (chars s ++ percent_d (i32 y)) <= 13)%nat) as Hn.
  { intros s y Hs%Nat.eqb_eq Hy. rewrite length_app, Hs. assert (i32 y = y) as -> by (unfold i32, swrap; rewrite wrap_small by lia; by destruct (Z.ltb_spec y (2 ^ (32 - 1))); [|lia]).
    unfold percent_d. destruct (Z.ltb_spec y 0); [lia|]. pose proof (decimal_small 20 2 y [] ltac:(change (10 ^ Z.of_nat 2) with 100; lia) ltac:(lia)) as Hlen. cbn [length] in Hlen. lia. }
  unfold emitPerf. destruct x as [t0|m|i t0 cd d info|pc|fn cs|fn cs|pc i v]; cbn [perfText placeOf] in *.
  - eexists. split; [reflexivity|apply Hall].
  - eexists. split; [reflexivity|apply Hall].
  - destruct Hx as (Hx & _ & _). unfold emitPerfCntrDef, discard.
    destruct (openPerf_opens (Z.to_nat i) (chars "perfchannel" ++ percent_d (i32 i)) ty f c Hw (Hi i Hx) (Hn "perfchannel"%string i eq_refl Hx)) as (c' & E & [H1 H2 H3 H4 H5]).
    rewrite (bind_ok _ _ _ _ _ E). eexists. split; [reflexivity|]. split; cbn; try done; [by rewrite H2|by rewrite length_alter].
  - apply emitAt_written; [done|unfold pt_addressIndex, pt_numPerfTypes; lia|vm_compute; lia|perfLength|by apply Hp].
  - apply emitAt_written; [done|unfold pt_fnIndex, pt_numPerfTypes; lia|vm_compute; lia|perfLength|by apply Hp].
  - apply emitAt_written; [done|unfold pt_fnIndex, pt_numPerfTypes; lia|vm_compute; lia|perfLength|by apply Hp].
  - destruct Hx as [Hx _]. apply emitAt_written; [done|by apply Hi|by apply Hn|perfLength|by apply Hp].
Qed.

Definition places_ok (l : list (Z * Z * PerfLine)) : Prop := Forall perfPlace (omap (fun x => placeOf x.2) l).

Lemma writeLines_written l : Forall perf_line_ok l -> places_ok l -> forall types f c, writable f c ->
  exists c', writeLines opens contents types l c = Ok c' tt /\ writable (f ++ concat (perfText perfSource <$> l)) c'.
Proof using Type.
  unfold places_ok. induction 1 as [|[[core ts] x] l Hx _ IH]; intros Hp types f c Hw; cbn [writeLines fmap list_fmap concat]; [exists c; by rewrite app_nil_r|].
  set (types' := match x with L_cntType t => _ | _ => _ end). cbn [omap list_omap snd] in Hp.
  assert ((forall pc, placeOf x = Some pc -> perfPlace pc) /\ places_ok l) as [Hx2 Hl].
  { unfold places_ok. destruct (placeOf x) as [pc|]; [|by split]. apply list.Forall_cons in Hp as [? ?]. split; [|done]. by intros ? [= <-]. }
  destruct (emitPerf_written (types' core) core ts x f c Hw Hx Hx2) as (c1 & E1 & H1).
  destruct (IH Hl types' _ c1 H1) as (c2 & E2 & H2). exists c2. rewrite (bind_ok _ _ _ _ _ E1). split; [exact E2|]. by rewrite app_assoc.
Qed.

(** ** The file says what the lines say *)

Lemma formatHex_plain w x : 0 <= x -> plain (formatHex false w x).
Proof. intros Hx. apply number_plain; [done|by apply hex_plain]. Qed.
Ltac plainText := repeat lazymatch goal with
  | |- plain (_ ++ _) => apply plain_app
  | |- plain (percent_d _) => apply percent_d_plain
  | |- plain (formatHex _ _ _) => apply formatHex_plain; first [assumption|lia|apply Z.land_nonneg; by left]
  | |- plain (chars _) => by apply chars_plain
  end.

Lemma withSource_plain t s : plain t -> plain s -> exists u, withSource t (Some s) = u ++ [lf] /\ plain u.
Proof using Type. intros Ht Hs. exists (t ++ s). split; [apply app_assoc|by apply plain_app]. Qed.

Lemma perfText_line l : perf_line_ok l -> (forall pc, placeOf l.2 = Some pc -> perfPlace pc) ->
  match toldOf perfSource l with
  | Some _ => exists t, perfText perfSource l = t ++ [lf] /\ plain t
  | None => perfText perfSource l = []
  end.
Proof using Type.
  destruct l as [[core ts] x]. intros [Hc Hx] Hp. assert (forall pc t, placeOf x = Some pc -> perfSource pc = Some t -> plain t) as Hs.
  { intros pc t Hpc Es. by apply (source_fits pc t (Hp pc Hpc) Es). }
  destruct x as [t0|m|i t0 cd d info|pc|fn cs|fn cs|pc i v]; cbn [perfText toldOf placeOf] in *; unfold u64_ok in Hx.
  - unfold countTypeText. eexists. split; [reflexivity|]. repeat case_match; by apply chars_plain.
  - unfold perfCntrMaskText. rewrite !app_assoc. eexists. split; [reflexivity|]. unfold lineStart, percent_08lx. plainText.
  - unfold perfCntrDefText. cbv zeta. rewrite !app_assoc. eexists. split; [reflexivity|]. unfold lineStart, percent_08lx. plainText.
    apply formatHex_plain. apply Z.land_nonneg. by right.
  - destruct (perfSource pc) as [s|] eqn:Es; [|done]. apply withSource_plain; [|by apply (Hs pc)]. unfold perfAddrText, lineStart, percent_08lx. plainText.
  - destruct (perfSource fn) as [s|] eqn:Es; [|done]. apply withSource_plain; [|by apply (Hs fn)]. unfold perfFnEntryText, lineStart, percent_08lx. plainText.
  - destruct (perfSource cs) as [s|] eqn:Es; [|done]. apply withSource_plain; [|by apply (Hs cs)]. unfold perfFnExitText, lineStart, percent_08lx. plainText.
  - destruct (perfSource pc) as [s|] eqn:Es; [|done]. apply withSource_plain; [|by apply (Hs pc)]. unfold perfCntrText, lineStart, percent_08lx. plainText.
Qed.

Lemma perf_lines_read l : Forall perf_line_ok l -> places_ok l ->
  mapM readPerfLine (lines (concat (perfText perfSource <$> l))) = Some (omap (toldOf perfSource) l).
Proof using Type.
  unfold places_ok. induction 1 as [|x l Hx _ IH]; intros Hp; [done|]. cbn [omap list_omap] in Hp.
  assert ((forall pc, placeOf x.2 = Some pc -> perfPlace pc) /\ places_ok l) as [Hx2 Hl].
  { unfold places_ok. destruct (placeOf x.2) as [pc|]; [|by split]. apply list.Forall_cons in Hp as [? ?]. split; [|done]. by intros ? [= <-]. }
  pose proof (perfText_line x Hx Hx2) as Ht. cbn [fmap list_fmap concat omap list_omap]. destruct (toldOf perfSource x) as [y|] eqn:Ey.
  - destruct Ht as (t & E & Ht). rewrite E, <-app_assoc. cbn [app]. rewrite lines_cons by done. cbn [mapM].
    rewrite (readPerfLine_text perfSource x t y Hx Ey E). cbn [mbind option_bind]. by rewrite (IH Hl).
  - rewrite Ht. cbn [app]. by apply IH.
Qed.

(** The files of a new converter. *)
Lemma newPerfFiles_writable cwd elf rtd c : (forall name, opens name = true) -> namesOk cwd (Some elf) rtd = true -> dis_ok contents store syms d0 ->
  newPerfFiles opens cwd true (Some elf) rtd (Some d0) = Ok c tt -> writable (chars "# ELFPATH=" ++ elf ++ [lf]) c.
Proof using Type.
  intros Ho Hn Hd0 E. unfold namesOk in Hn. unfold newPerfFiles in E. cbv zeta in E.
  destruct (getPathsNames cwd (Some elf)) as [[[base nm] path]|]; [|done]. destruct (getPathsNames cwd rtd) as [[[b2 n2] dir]|]; [|done].
  apply andb_true_iff in Hn as [Hp Hl%Nat.ltb_lt]. rewrite length_app in Hl. rewrite Ho in E. cbn [negb] in E.
  destruct (512 <=? _)%nat; [done|]. destruct (512 <=? _)%nat; [done|]. apply (f_equal (fun r => match r with Ok c _ => Some c | _ => None end)) in E.
  apply (inj Some) in E as <-. split; cbn [pl_disassembler pl_perfFD pl_perfFDs pl_elfNamePath pl_perfNameGen]; try done.
  { exists d0. split; [done|]. split; [done|apply dis_same_refl]. }
  intros ext He. assert (dir ++ chars "perf" ++ ["/"%char] ++ base ++ chars ".%s" = (dir ++ chars "perf" ++ ["/"%char] ++ base ++ ["."%char]) ++ chars "%s") as ->
    by (rewrite <-!app_assoc; done).
  assert (forallb (fun c => negb (bool_decide (c = "%"%char))) (dir ++ chars "perf" ++ ["/"%char] ++ base ++ ["."%char]) = true) as Hstem
    by (rewrite !forallb_app in *; by apply andb_true_iff in Hp as [-> ->]).
  assert (length (dir ++ chars "perf" ++ ["/"%char] ++ base ++ ["."%char]) + 13 < 512)%nat as Hfit
    by (rewrite !length_app; change (length (chars "perf")) with 4%nat; cbn [length]; lia).
  set (stem := dir ++ chars "perf" ++ ["/"%char] ++ base ++ ["."%char]) in *. clearbody stem. exists (stem ++ ext). split; [|apply Ho]. unfold eventFileName. rewrite length_app. change (length (chars "%s")) with 2%nat.
  replace (length stem + 2 - 2)%nat with (length stem) by lia. rewrite take_app_length, Hstem, length_app. cbn [andb].
  by destruct (Nat.ltb_spec (length stem + length ext) 512); [|lia].
Qed.
End written.
