(* ===== verification/Readers.v ===== *)
(** * Theorems: other records of a run

    What [VCD] (src/vcd.cpp) and [Simulator] (src/dqr.cpp) make of the records of a run, with
    witnesses. *)

From stdpp Require Import strings.
From Stdlib Require Import Ascii.
From Stdlib Require String.
From S2P Require Import Prelude Nexus Analytics Counts Decode Memory NextAddr Walk NextInstr ObjDump ObjDumpText ObjDumpPrint ObjDumpRead.
From S2P Require Import ObjCode Symbols SrcFiles ElfFile Cycles Disasm Described CText PropFile Settings Maps Configure Whole.
From S2P Require Import BranchFlags Listing Vcd VcdRead SimLines SimRead Simulator Objects.

(** C9: a value change dump is listed as the run that it is of.  A reader is made from the
    names of an object file, of which objdump prints [dump], and of a file of records, of which
    those with an address are a run of the printed program.  Then the calls of
    [NextInstruction] return the instructions of the run in order: each with its address, its
    encoding, its time, the cycles since the last one and its pipe, and with the flags
    of calls, returns, exceptions and branches that a reference machine has, or that of
    an interrupt if one is seen; and the call after the last one is the end of the file. *)
Theorem vcd_lists_run `{!Qsort} `{!QsortLaws} fuel objdump openPCD garbage start od name file dump rs uninit contents n cap st outs xs :
  inputs fuel objdump openPCD od name file dump rs -> name <> [] -> (length rs < n)%nat ->
  vd_currentTime start <> [] -> vd_enterISR start <> [] ->
  runs (printed uninit dump) cap isNone st outs (vr_pc <$> wanted rs) xs ->
  exists v v' v'' l, newVCDof fuel objdump openPCD garbage start (Some file) (Some name) od = Ok tt v /\
    nextInstructions uninit contents n (length (wanted rs)) v = Ok v' l /\
    allTold uninit (if d_64 dump then 64 else 32) 0 (placeOf <$> wanted rs) xs l /\ Forall2 pipeTold (wanted rs) l /\
    VCD_NextInstruction uninit contents n v' = Err v'' DQERR_EOF.
Proof.
  intros Hi Hname Hn Ht Hisr Hruns.
  destruct (vcd_built fuel objdump openPCD garbage od name file dump rs start contents n Hi Hname Hn Ht Hisr)
    as (v & f & dis & p & store & syms & d0 & E & Hp & Hsec & Ha & Hk).
  assert (Forall record_ok (wanted rs) /\ Forall (fun r => vr_pc r <> 0) (wanted rs)) as [Hok Hpc].
  { pose proof (in_records _ _ _ _ _ _ _ _ Hi) as Hall. rewrite list.Forall_forall in Hall.
    split; apply list.Forall_forall; intros r [Hr Hin]%list_elem_of_filter; [by apply Hall|done]. }
  destruct (run_returned uninit contents dump name garbage.2 p f dis Hp store syms d0 Hsec cap n (wanted rs) Hok Hpc v 0 isNone st outs xs)
    as (v' & l & E' & Ha' & Hl & Hpipes); try done.
  destruct (run_ends uninit contents n v' Ha') as [v'' E'']. by exists v, v', v'', l.
Qed.

(** Two instructions, an interrupt that goes back to the first, and a record without an address. *)
Definition exRecord (ts flags pc : Z) : VRec := {| vr_ts := ts; vr_flags := flags; vr_pc := pc; vr_opcode := 0; vr_deltaT := 1 |}.
Definition exRecords : list VRec := [exRecord 100 1 0x10078; exRecord 101 0 0; exRecord 102 0 0x1007a; exRecord 110 1 0x10078].
Definition exVcdInst (pc : Z) : Inst := default (unknownInst 0) (printed (unknownInst 0) exDump pc).
Definition exVcdFlags : list (Inst * Z * BranchFlags) :=
  [(exVcdInst 0x10078, isNone, BRFLAG_none); (exVcdInst 0x1007a, isNone, BRFLAG_none); (exVcdInst 0x10078, isInterrupt, BRFLAG_none)].
Definition exObjdump (_ name : list ascii) (_ : ElfType) (_ : Z) : Exec :=
  if bool_decide (name = chars "a.elf") then ExecPipe (pieces 30 (dumpText exDump)) else ExecFailed.
(** The file ends in the middle of a record. *)
Definition exOpenPCD (file : list ascii) : option PCDFile :=
  if bool_decide (file = chars "a.pcd") then Some {| pcd_bytes := bytesDown 2 3 ++ recordsBytes exRecords ++ [1; 2; 3]; pcd_fails := false |}
  else None.
Definition exStart : VCD := {|
  vd_status := DQERR_ERR; vd_archSize := 7; vd_version := 0; vd_haveLookaheadVRec := true; vd_lookaheadVRec := exRecord 0 0 1;
  vd_info := noInstruction None; vd_fd := None; vd_totalPCDRecords := 0; vd_nextPCDRecord := 0; vd_numVCDRecords := 0;
  vd_currentVCDRecord := 0; vd_vcdBuff := None; vd_elfReader := None; vd_disassembler := None;
  vd_currentTime := replicate 16 9; vd_enterISR := replicate 16 9 |}.

Lemma exInputs : inputs 32 exObjdump exOpenPCD None (chars "a.elf") (chars "a.pcd") exDump exRecords.
Proof.
  split.
  - exists (pieces 30 (dumpText exDump)). split; [by vm_compute|exact exPipe_holds].
  - split; [apply exDump_ok|]. split; [apply (bool_decide_unpack _); by vm_compute|].
    split; [apply (bool_decide_unpack _); by vm_compute|]. by vm_compute.
  - exists [1; 2; 3]. split; [by vm_compute|]. by apply Nat.ltb_lt.
  - repeat (apply List.Forall_cons; [by repeat split|]). apply List.Forall_nil.
Defined.
Lemma exVcdRun : runs (printed (unknownInst 0) exDump) 16 isNone [] [] (vr_pc <$> wanted exRecords) exVcdFlags.
Proof.
  change (vr_pc <$> wanted exRecords) with [0x10078; 0x1007a; 0x10078]. unfold exVcdFlags.
  eapply (runs_step _ _ isNone _ _ 0x10078); [by vm_compute|by vm_compute|by vm_compute|by vm_compute|].
  eapply (runs_interrupt _ _ isNone _ _ 0x1007a); [by vm_compute|by vm_compute|by vm_compute|].
  eapply (runs_last _ _ isInterrupt _ _ 0x10078 _ _ isNone); by vm_compute.
Defined.

Lemma vcd_lists_run_witness :
  exists v v' v'' l, newVCDof 32 exObjdump exOpenPCD (0, exGarbage) exStart (Some (chars "a.pcd")) (Some (chars "a.elf")) None = Ok tt v /\
    nextInstructions (unknownInst 0) exContents 5 3 v = Ok v' l /\
    allTold (unknownInst 0) 64 0 (placeOf <$> wanted exRecords) exVcdFlags l /\ Forall2 pipeTold (wanted exRecords) l /\
    VCD_NextInstruction (unknownInst 0) exContents 5 v' = Err v'' DQERR_EOF.
Proof.
  apply (vcd_lists_run 32 exObjdump exOpenPCD (0, exGarbage) exStart None (chars "a.elf") (chars "a.pcd") exDump exRecords (unknownInst 0)
    exContents 5 16 [] []).
  - exact exInputs.
  - done.
  - by apply Nat.ltb_lt.
  - done.
  - done.
  - exact exVcdRun.
Defined.

(** ** The text of the simulator *)

(** C10: the text of a simulator is listed as the runs of its cores.  A reader is made from the
    names of an object file, of which objdump prints [dump], and of a file of whole lines:
    instructions of up to 16 cores in any order, writes of other registers, instructions that are not
    valid, and comments.  The first line is not read as what it is, for its first character is
    lost (dqr.cpp:14139): an instruction in it is taken for a comment ([asRead]), and a comment in it has to be
    one without its first character.  And the constructor sets no [haveLookaheadSrec] (dqr.cpp:13907):
    if the memory of the object happens to hold a record of line 0 there ([leftAhead]), this record is
    what the first call takes for the next instruction.  In all other
    cases, if the lines of each core, as read, are a run of the printed program with its code, the
    calls of [NextInstruction] return the instructions in the order of their lines with their cores and
    operands; and those of a core are the instructions of its run, each with its address, its encoding,
    its time, the cycles since the last one of that core, and the flags that a reference machine
    has, or that of an interrupt if one is seen.  The call after the last one is the end of
    the file. *)
Theorem simulation_lists_runs `{!Qsort} `{!QsortLaws} fuel objdump files garbage start od name file dump ls
    uninit uninitRec contents cap st outs xs :
  sim_inputs fuel objdump files od name file dump ls ->
  let lines := listedLines 0 (asRead ls).*1 in
  (forall q, q ∈ lines -> codeShown uninit dump q.2 /\ coreOf q.2 < DQR_MAXCORES) ->
  (forall k, 0 <= k < DQR_MAXCORES ->
    runs (printed uninit dump) cap isNone (st k) (outs k) ((fun q => nm_value (il_pc q.2)) <$> ofCore k lines) (xs k)) ->
  exists s, newSimulator fuel objdump files garbage start (Some file) (Some name) od = Ok tt s /\
    if leftAhead start then nextInst uninitRec s = Ok (set_nextLine 1 s) (si_lookaheadSrec start)
    else exists s' s'' infos,
      simInstructions uninit uninitRec contents (length lines) s = Ok s' infos /\ Forall2 operandsTold lines infos /\
      (forall k, 0 <= k < DQR_MAXCORES ->
        allTold uninit (if d_64 dump then 64 else 32) 0 (placeOfLine <$> ofCore k lines) (xs k) (base.filter (fun i => li_coreId i = k) infos)) /\
      Simulator_NextInstruction uninit uninitRec contents s' = Err s'' DQERR_EOF.
Proof.
  intros Hi lines Hok Hruns. destruct (read_lines_ok fuel objdump files od name file dump ls Hi) as [HL Hmax].
  destruct (simulator_built fuel objdump files garbage od name file dump ls start contents Hi)
    as (s & f & dis & p & store & syms & d0 & text & E & Hp & Hsec & HH & E1 & E2 & E3 & E4 & Hk).
  exists s. split; [done|]. destruct (leftAhead start) eqn:Ea; unfold leftAhead in Ea.
  { unfold nextInst. rewrite E2, E3, E4, Ea. by apply andb_prop in Ea as [_ <-%Z.eqb_eq]. }
  assert (at_line (asRead ls).*1 text 0 s) as Hat by (split; [done|done|by rewrite E3, E4, Ea]).
  assert (forall A (a b : A) k, 0 <= k -> replicate 16 a !! Z.to_nat k = Some b -> k < DQR_MAXCORES /\ b = a) as Hrep.
  { intros A a b k Hk0 [? ?]%lookup_replicate. unfold DQR_MAXCORES. split; [lia|done]. }
  destruct (sim_run_returned uninit uninitRec contents dump name garbage.2 p f dis Hp store syms d0 Hsec (asRead ls).*1 text HL HH Hmax cap lines 0 s
    _ _ st outs xs ltac:(done) Hat Hk eq_refl Hok ltac:(done) ltac:(done)) as (s' & infos & l' & E' & Hl' & Hat' & Hrest & Hops & Hcores).
  { intros k isr Hk0 [? ->]%Hrep; [|done]. by apply Hruns. }
  destruct (sim_ends uninit uninitRec contents (asRead ls).*1 text HL HH Hmax l' s' Hl' Hat' Hrest) as [s'' E''].
  exists s', s'', infos. split_and!; try done. intros k [Hk0 Hk16]. apply Hcores; [done|]. apply lookup_replicate_2. unfold DQR_MAXCORES in *. lia.
Qed.

Definition num (pad digits : nat) (x : Z) : Num := {| nm_pad := pad; nm_digits := digits; nm_value := x |}.
Definition exOperand (r v : Z) : Operand := {| op_reg := num 1 0 r; op_val := num 0 7 v |}.
Definition exLine (core cycles : Z) (valid : bool) (pc inst : Z) : SimLine := SL_inst {|
  il_core := num 0 0 core; il_cycles := num 5 2 cycles; il_valid := valid; il_pc := num 0 15 pc; il_write := exOperand 2 0x1234; il_wvf := true;
  il_read1 := exOperand 2 0x1230; il_read2 := exOperand 0 0; il_inst := num 0 7 inst; il_dasm := num 0 7 inst |}.
(** Core 0 is interrupted; lines of core 1 come between.  The first line is lost. *)
Definition exLines : list (SimLine * bool) := [
  (exLine 0 119 true 0x1007a 0x00b50533, true);
  (SL_comment (chars "# start"), false);
  (exLine 0 120 true 0x10078 0x1141, true);
  (exLine 1 121 true 0x10078 0x1141, false);
  (SL_frf (num 0 0 0) (num 1 2 121) (num 0 0 3) (num 0 3 0xab), false);
  (exLine 0 122 true 0x1007a 0x00b50533, false);
  (SL_vrf (num 0 0 1) (num 1 2 122) (num 0 0 3) (chars "00ff") (chars "f"), false);
  (exLine 1 123 false 0x10078 0x1141, false);
  (exLine 0 140 true 0x10078 0x1141, false);
  (exLine 1 150 true 0x1007a 0x00b50533, false);
  (SL_comment (chars "Completed"), false)].
Definition exFlagsOf (k : Z) : list (Inst * Z * BranchFlags) :=
  if k =? 0 then exVcdFlags
  else if k =? 1 then [(exVcdInst 0x10078, isNone, BRFLAG_none); (exVcdInst 0x1007a, isNone, BRFLAG_none)] else [].
Definition exSimFiles (file : list ascii) : option (list ascii) :=
  if bool_decide (file = chars "a.txt") then Some (simText exLines) else None.
Definition exRec : SRec := {|
  sr_validLine := true; sr_line := 77; sr_coreId := 7; sr_cycles := 7; sr_valid := 7; sr_haveFRF := true; sr_haveVRF := true;
  sr_frfAddr := 7; sr_pc := 7; sr_wvf := true; sr_wReg := 7; sr_wVal := 7; sr_r1Reg := 7; sr_r2Reg := 7; sr_r1Val := 7;
  sr_r2Val := 7; sr_inst := 7; sr_dasm := 7 |}.
Definition exSimStart : Simulator := {|
  si_status := DQERR_ERR; si_archSize := 7; si_lines := []; si_nextLine := 7; si_haveLookaheadSrec := true; si_lookaheadSrec := exRec;
  si_info := noInstruction None; si_elfReader := None; si_disassembler := None; si_cutPath := None; si_newRoot := None;
  si_currentTime := []; si_enterISR := [] |}.

#[local] Instance num_ok_dec base n : Decision (num_ok base n).
Proof. unfold num_ok. apply _. Defined.
#[local] Instance operand_ok_dec o : Decision (operand_ok o).
Proof. unfold operand_ok. apply _. Defined.
#[local] Instance inst_ok_dec x : Decision (inst_ok x).
Proof. unfold inst_ok. apply _. Defined.

Lemma exLine_ok core cycles valid pc inst : bool_decide (inst_ok match exLine core cycles valid pc inst with SL_inst x => x | _ => {|
  il_core := num 0 0 0; il_cycles := num 0 0 0; il_valid := false; il_pc := num 0 0 0; il_write := exOperand 0 0; il_wvf := false;
  il_read1 := exOperand 0 0; il_read2 := exOperand 0 0; il_inst := num 0 0 0; il_dasm := num 0 0 0 |} end) = true ->
  line_ok (exLine core cycles valid pc inst) /\ free_ok (exLine core cycles valid pc inst).
Proof. intros H%bool_decide_eq_true. by split. Defined.

Lemma exSimInputs : sim_inputs 32 (fun _ => exObjdump []) exSimFiles None (chars "a.elf") (chars "a.txt") exDump exLines.
Proof.
  split.
  - exists (pieces 30 (dumpText exDump)). split; [by vm_compute|exact exPipe_holds].
  - split; [apply exDump_ok|]. split; [apply (bool_decide_unpack _); by vm_compute|].
    split; [apply (bool_decide_unpack _); by vm_compute|]. by vm_compute.
  - by vm_compute.
  - split; [|done]. repeat (apply List.Forall_cons; [cbn [fst]; try (by apply exLine_ok; vm_compute)|]); [..|apply List.Forall_nil].
    + split; [|by repeat constructor]. left. by exists 0%nat, "#"%char, (chars " start" ++ [NUL]).
    + by repeat split.
    + split; [split_and!; try done; by repeat constructor|]. split; by repeat constructor.
    + split; [|by repeat constructor]. right. exists 0%nat, (chars "ompleted"). split; [done|]. by exists 0%nat, "o"%char, (chars "mpleted" ++ [NUL]).
Defined.

Lemma exSimRuns k : 0 <= k < DQR_MAXCORES ->
  runs (printed (unknownInst 0) exDump) 16 isNone [] [] ((fun q => nm_value (il_pc q.2)) <$> ofCore k (listedLines 0 (asRead exLines).*1)) (exFlagsOf k).
Proof.
  intros Hk. unfold exFlagsOf. destruct (Z.eqb_spec k 0) as [->|H0]; [exact exVcdRun|]. destruct (Z.eqb_spec k 1) as [->|H1].
  - change ((fun q => nm_value (il_pc q.2)) <$> ofCore 1 (listedLines 0 (asRead exLines).*1)) with [0x10078; 0x1007a].
    eapply (runs_step _ _ isNone _ _ 0x10078); [by vm_compute|by vm_compute|by vm_compute|by vm_compute|].
    eapply (runs_last _ _ isNone _ _ 0x1007a); by vm_compute.
  - assert (ofCore k (listedLines 0 (asRead exLines).*1) = []) as ->; [|apply runs_none].
    unfold ofCore. cbn. repeat (rewrite decide_False by (cbn; vm_compute (coreOf _); lia)). done.
Defined.

Lemma simulation_lists_runs_witness :
  exists s, newSimulator 32 (fun _ => exObjdump []) exSimFiles (0, exGarbage) exSimStart (Some (chars "a.txt")) (Some (chars "a.elf")) None = Ok tt s /\
    exists s' s'' infos, simInstructions (unknownInst 0) exRec exContents 5 s = Ok s' infos /\ Forall2 operandsTold (listedLines 0 (asRead exLines).*1) infos /\
    (forall k, 0 <= k < DQR_MAXCORES -> allTold (unknownInst 0) 64 0 (placeOfLine <$> ofCore k (listedLines 0 (asRead exLines).*1)) (exFlagsOf k)
      (base.filter (fun i => li_coreId i = k) infos)) /\
    Simulator_NextInstruction (unknownInst 0) exRec exContents s' = Err s'' DQERR_EOF.
Proof.
  apply (simulation_lists_runs 32 (fun _ => exObjdump []) exSimFiles (0, exGarbage) exSimStart None (chars "a.elf") (chars "a.txt") exDump
    exLines (unknownInst 0) exRec exContents 16 (fun _ => []) (fun _ => []) exFlagsOf).
  - exact exSimInputs.
  - intros q Hq. cbn in Hq.
    repeat (apply elem_of_cons in Hq as [-> | Hq]; [split; [by eexists; split; vm_compute|by vm_compute]|]). by apply elem_of_nil in Hq.
  - exact exSimRuns.
Defined.
