(* ===== verification/Texts.v ===== *)
(** * Theorems: printed text

    What is printed of messages (src/dqr.cpp, [NexusMessage]), of the statistics ([Analytics])
    and of the performance counters (src/trace.cpp, [PerfConverter]), with witnesses. *)

From stdpp Require Import strings.
From Stdlib Require Import Ascii.
From Stdlib Require String.
From S2P Require Import Prelude Nexus Encode RoundTrip Analytics ObjDump ObjDumpPrint Symbols Disasm Perf Ctf Floats Events EventsRead ObjCode ElfFile SrcFiles Described.
From S2P Require Import MsgText MsgRead AnalyticsText AnalyticsRead InstText PerfText PerfFileRead.

(** C11: the text of a message fits the buffer of [messageToString].  For every message whose
    body is that of its type, at every level, either all that the text says is
    in the 512 characters with room left over, so that no call of [snprintf] is given a length that
    wrapped; or the text is undefined, for a member that was not written is printed: this
    is so for an exception, an interrupt or a context without data and no other message.
    At level 3 the text gives the number, the offset and the bytes of the message back. *)
Theorem message_text_fits freq level nm : body_matches (nm_tcode nm) (nm_body nm) = true -> raw_ok nm ->
  match messageToString freq level nm with
  | None => printsUnwritten level nm = true
  | Some t =>
      printsUnwritten level nm = false /\ (length t < 480)%nat /\
      (if level <=? 0 then t = [] else @concat ascii <$> messagePieces freq level nm = Some t) /\
      (3 <= level -> readMessage t = Some (i32 (nm_msgNum nm), i32 (nm_offset nm), messageBytes (nm_rawData nm)))
  end.
Proof.
  intros Hb Hr. unfold messageToString, messageToText. cbn [Nat.eqb]. pose proof (pieces_defined freq level nm Hb) as Hp.
  destruct (Z.leb_spec level 0) as [H0|H0].
  { split_and!; [|cbn; lia|done|lia]. unfold printsUnwritten. by destruct (Z.leb_spec 2 level); [lia|]. }
  destruct (printsUnwritten level nm); [by rewrite Hp|]. destruct Hp as (name & body & E & Et & Hsz). rewrite E. cbn [mbind option_bind].
  pose proof (head_size freq level nm Hr) as Hh. pose proof (type_size nm name Et) as Hn.
  assert (sizes (headPieces freq level nm ++ [name] ++ body) < 480)%nat as Hall.
  { rewrite !sizes_app, sizes_one. destruct (isICT (nm_tcode nm)); lia. }
  rewrite snprintfs_fit by lia. cbn [app fmap option_fmap option_map]. split_and!; [done|exact Hall|done|].
  intros H3. rewrite concat_app. by apply readMessage_head.
Qed.

(** An indirect branch that was read from the file. *)
Definition exMessage : NexusMessage := {|
  nm_msgNum := 7; nm_tcode := TCODE_INDIRECT_BRANCH; nm_haveTimestamp := true; nm_timestamp := 5; nm_currentAddress := 0x1007a; nm_time := 1500;
  nm_coreId := 0; nm_prv := 0; nm_pid := 0; nm_body := B_indirectBranch 12 0x3c BTYPE_INDIRECT; nm_offset := 40;
  nm_rawData := [0x10; 0x31; 0x0d; 0xf3] ++ replicate 28 255 |}.
Lemma message_text_fits_witness :
  body_matches (nm_tcode exMessage) (nm_body exMessage) = true /\ raw_ok exMessage /\
  messageToString 1000 3 exMessage = Some (chars
    "Msg # 7, Offset 40, 10:31:0d:f3, time: 1.50000000, NxtAddr: 0001007a, TCode: INDIRECT BRANCH (4) Branch Type: Indirect (0) I-CNT: 12 U-ADDR: 0x0000003c ") /\
  exists t, messageToString 1000 3 exMessage = Some t /\ (length t < 480)%nat /\ readMessage t = Some (7, 40, [0x10; 0x31; 0x0d; 0xf3]).
Proof.
  assert (body_matches (nm_tcode exMessage) (nm_body exMessage) = true) as Hb by reflexivity.
  assert (raw_ok exMessage) as Hr by (split; [reflexivity|repeat (constructor; [lia|]); constructor]).
  split; [exact Hb|]. split; [exact Hr|]. split; [vm_compute; reflexivity|].
  pose proof (message_text_fits 1000 3 exMessage Hb Hr) as H. destruct (messageToString 1000 3 exMessage) as [t|] eqn:E; [|discriminate H].
  destruct H as (_ & Hl & _ & H3). exists t. split; [reflexivity|]. split; [exact Hl|]. apply H3. lia.
Defined.

(** C12: the table of the statistics says what was counted.  If no counter is more than 32
    bits and none that is told as a share is more than what it is a share of, then the text
    at level 2 and above is defined exactly if the cores that were seen and the total make at most
    nine columns.  Then the buffer holds as much of it as there is room for, and with one
    column [toString] gives the whole of it; and of each of the 42 rows that show a counter
    ([countTable]) the column of each core reads as its counter, except that a share of nothing is
    not told.  If messages name their core, the column of the total reads as the sum, the least or the
    greatest of the counters in 31 of these rows; in the two of in-circuit trace messages it reads
    as the sum of another counter, that of the history messages with sync; and it is empty in
    the row of all messages and in the eight rows from the taken branches to the interrupts. *)
Theorem analytics_table_read negNan srcBits a level dst_len : counters_ok a -> shares_ok a -> 2 <= level -> 0 < dst_len ->
  if (tableColumns srcBits a <=? 9)%nat then
    exists t, toText negNan srcBits a dst_len level = Some (take (Z.to_nat (dst_len - 1)) t) /\
      ((tableColumns srcBits a <= 1)%nat -> toString negNan srcBits a level = Some t) /\
      Forall (fun e => exists line, lines t !! en_line e = Some line /\ entryReads srcBits a e line) countTable
  else toText negNan srcBits a dst_len level = None.
Proof.
  intros Hc Hs Hlev Hlen.
  assert (forall len, 0 < len -> toText negNan srcBits a len level =
    pieces ← analyticsPieces negNan srcBits a level; Some (fst (fold_left emitText pieces ([], len)))) as Htext.
  { intros len H. unfold toText. destruct (Z.ltb_spec len 0); [lia|]. destruct (Z.eqb_spec len 0); [lia|]. by destruct (Z.leb_spec level 0); [lia|]. }
  destruct (Nat.leb_spec (tableColumns srcBits a) 9) as [H9|H9]; [|by rewrite Htext, table_undefined by lia].
  destruct (table_lines negNan srcBits a level H9 ltac:(lia)) as (first & h & rs & pieces & E & El & H2 & H1). exists (concat pieces).
  assert (forall len, 0 < len -> toText negNan srcBits a len level = Some (take (Z.to_nat (len - 1)) (concat pieces))) as Hall.
  { intros len H. rewrite Htext, E by done. cbn [mbind option_bind]. by rewrite emit_all by lia. }
  split_and!; [by apply Hall|intros H; unfold toString; rewrite Hall by lia; f_equal; apply take_ge; specialize (H1 H); lia|].
  rewrite El. pose proof (table_reads negNan srcBits a Hc Hs) as Hr. apply list.Forall_forall. intros e He.
  rewrite list.Forall_forall in Hr. destruct (Hr e He) as (o & Ho & Hreads).
  destruct (Forall2_lookup_l _ _ _ _ _ H2 Ho) as (r & Hr2 & ->). exists r. split; [|by apply Hreads].
  assert (3 <= en_line e)%nat as H3.
  { clear -He. assert (Forall (fun e => (3 <= en_line e)%nat) countTable) as H by (repeat constructor; cbn; lia). rewrite list.Forall_forall in H. by apply H. }
  by replace (en_line e) with (3 + (en_line e - 3))%nat by lia.
Qed.

(** Two cores, of which the second has no instructions. *)
Definition exStatistics : Analytics := {|
  an_status := DQERR_OK; an_cores := 5; an_all := fun _ => 0;
  an_core := fun k c =>
    match c with
    | num_inst => if k =? 0 then 1000 else 0
    | num_inst16 => if k =? 0 then 250 else 0
    | num_trace_msgs => if k =? 2 then 42 else 40
    | trace_bits_min => if k =? 2 then 18 else 16
    | num_trace_syncs => 1
    | _ => 0
    end |}.
Lemma exStatistics_counters : counters_ok exStatistics.
Proof. intros i c. destruct c; cbn [exStatistics an_core]; try lia; destruct (_ =? _); lia. Defined.
Lemma exStatistics_shares : shares_ok exStatistics.
Proof.
  assert (Forall (fun e => match en_per e with
    | Some per => forall i, count exStatistics (en_counter e) i <= count exStatistics per i
    | None => True end) countTable) as H.
  { unfold countTable. repeat (apply list.Forall_cons_2; [cbn [en_per sharedEntry countedEntry en_counter]; try exact I; intros i; unfold count;
      cbn [exStatistics an_core]; repeat destruct (_ =? _); lia|]). apply list.Forall_nil_2. }
  intros e per i He Hp. rewrite list.Forall_forall in H. specialize (H e He). rewrite Hp in H. apply H.
Defined.
Lemma analytics_table_read_witness :
  counters_ok exStatistics /\ shares_ok exStatistics /\
  (exists t, toText false 2 exStatistics 10000 2 = Some (take 9999 t) /\
     Forall (fun e => exists line, lines t !! en_line e = Some line /\ entryReads 2 exStatistics e line) countTable) /\
  (exists t line, toText false 2 exStatistics 10000 2 = Some t /\ lines t !! 4%nat = Some line /\
     line = chars "  Compressed              250 (25.00%)            -                 250 (25.00%)" /\
     readColumn 0 line = Some 250 /\ readColumn 1 line = None /\ readColumn 2 line = Some 250).
Proof.
  split; [exact exStatistics_counters|]. split; [exact exStatistics_shares|]. split.
  - destruct (analytics_table_read false 2 exStatistics 2 10000 exStatistics_counters exStatistics_shares ltac:(lia) ltac:(lia)) as (t & E & _ & H).
    exists t. split; [exact E|exact H].
  - eexists. eexists. split; [vm_compute; reflexivity|]. split; [vm_compute; reflexivity|]. split; [vm_compute; reflexivity|].
    split; [vm_compute; reflexivity|]. split; vm_compute; reflexivity.
Defined.

(** C33: the file of the performance counters is read back.  A converter is made where files
    can be opened and their names fit ([namesOk]), with the disassembler that the decoder passes, and writes the lines that it
    is told: the kinds of counts, the masks and definitions of counters, addresses, entries and
    exits of functions, and values.  Then the file of all lines starts with the name of the
    program, and the rest reads, line by line, as what was told, in order: with the cores, the
    times and the indices as [int]s and the values as signed numbers, and after each address
    the file, function and line that the disassembler has for it.  A line whose address is 0
    or in no section of the program is not in the file, for nothing is told of it
    ([perfSource]); the others are all there.  An address in a section has to have a place in
    the arrays of the section, with a source text that fits the buffer ([places_ok]). *)
Theorem perf_file_read_back `{!Qsort} opens contents cwd elf rtd store syms d0 types l c : (forall name, opens name = true) ->
  namesOk cwd (Some elf) rtd = true -> dis_ok contents store syms d0 ->
  newPerfFiles opens cwd true (Some elf) rtd (Some d0) = Ok c tt -> Forall perf_line_ok l -> places_ok contents d0 l ->
  exists c' t, writeLines opens contents types l c = Ok c' tt /\ pl_perfFD c' = Some (chars "# ELFPATH=" ++ elf ++ [lf] ++ t) /\
    mapM readPerfLine (lines t) = Some (omap (toldOf (perfSource contents d0)) l).
Proof.
  intros Ho Hn Hd E Hl Hp. pose proof (newPerfFiles_writable opens contents store syms d0 cwd elf rtd c Ho Hn Hd E) as Hw.
  destruct (writeLines_written opens contents store syms d0 l Hl Hp types _ c Hw) as (c' & E' & Hf).
  exists c', (concat (perfText (perfSource contents d0) <$> l)).
  split; [exact E'|]. split; [by rewrite (wr_fd _ _ _ _ _ _ _ Hf), <-!app_assoc|by apply perf_lines_read].
Qed.

(** A program of one section of two instructions, the first from line 7 of a file and the other
    from none. *)
Definition exPerfSection : ElfSection := {|
  sc_name := chars ".text"; sc_startAddr := 0x8000; sc_endAddr := 0x8003; sc_vmaOffset := 0; sc_flags := sect_CODE; sc_size := 4;
  sc_offset := 0; sc_align := 1; sc_code := Some [0x4501; 0x8082]; sc_fName := Some [Some (chars "/src/a.c"); None]; sc_line := Some [7; 0];
  sc_diss := Some [None; None] |}.
Definition exPerfSymbol : Sym := {|
  sy_name := chars "main"; sy_flags := Z.lor symGlobal symFunc; sy_section := Some 0%nat; sy_vmaOffset := 0; sy_address := 0x8000; sy_size := 4;
  sy_srcFile := None |}.
Definition exShown : Shown * SourceInfo :=
  ({| sh_instruction := 0; sh_instSize := 0; sh_instructionText := None; sh_address := 0; sh_addressLabel := None; sh_addressLabelOffset := 0 |}, noSource).
Definition exNoSymtab : Symtab :=
  {| st_symLst := []; st_symPtrArray := []; st_cachedSymAddr := 0; st_cachedSymSize := 0; st_cachedSymIndex := 0 |}.
Definition exPerfDisassembler : Disassembler :=
  set_pType PATH_TO_UNIX (set_fileReader (subSrcPath None None newFileReader)
    (newDisassembler exShown (default exNoSymtab (newSymtab [exPerfSection] [exPerfSymbol])) [exPerfSection])).

(** A counter is defined, and a call told with its value; then come addresses of which nothing
    is told. *)
Definition exPerfLines : list (Z * Z * PerfLine) :=
  [(3, 100, L_cntType 2); (3, 100, L_cntrMask 4); (3, 2 ^ 31 + 5, L_cntrDef 2 2 0 (2 ^ 40 + 3) 162818); (3, 110, L_fnEntry 0x8000 128);
   (3, 110, L_cntr 0x8000 2 (2 ^ 64 - 1)); (0, 120, L_addr (2 ^ 33 + 64)); (0, 121, L_addr 0); (3, 130, L_fnExit (2 ^ 33 + 64) 0x8002)].
Definition exPerfFiles : PerfFiles :=
  match newPerfFiles (fun _ => true) (chars "/tmp") true (Some (chars "a.elf")) (Some (chars "t.rtd")) (Some exPerfDisassembler) with
  | Ok c _ | Err c _ => c
  | _ => {| pl_status := DQERR_ERR; pl_perfFDs := []; pl_perfFD := None; pl_perfNameGen := []; pl_elfNamePath := None; pl_disassembler := None |}
  end.
Lemma exPerf_placed pc file line : lineAt exPerfDisassembler pc = Some (file, line) ->
  negb (pc =? 0) && match file with Some file => saneFits file (sanePath PATH_TO_UNIX file) | None => true end &&
  bool_decide (Forall (fun x => x <> lf) (sourceInfo (fun _ => None) exPerfDisassembler pc)) &&
  (length (sourceInfo (fun _ => None) exPerfDisassembler pc) <? 511)%nat = true ->
  perfPlace (fun _ => None) exPerfDisassembler pc.
Proof.
  intros El [[[Hpc%negb_true_iff%Z.eqb_neq Hf]%andb_true_iff H1]%andb_true_iff H2%Nat.ltb_lt]%andb_true_iff.
  apply bool_decide_eq_true in H1. right; right. split; [done|]. split; [exists file, line; by destruct file|done].
Qed.
Lemma perf_file_read_back_witness :
  exists c' t, writeLines (fun _ => true) (fun _ => None) (fun _ => 0) exPerfLines exPerfFiles = Ok c' tt /\
    pl_perfFD c' = Some (chars "# ELFPATH=" ++ chars "a.elf" ++ [lf] ++ t) /\ mapM readPerfLine (lines t) = Some
      [PT_type (Some 2); PT_mask 3 100 4; PT_def 3 (- 2 ^ 31 + 5) 2 2 0 (2 ^ 40 + 3) 3074 40;
       PT_entry 3 110 0x8000 128 (chars " ffl:/src/a.c:main:7"); PT_cntr 3 110 0x8000 2 (- 1) (chars " ffl:/src/a.c:main:7");
       PT_exit 3 130 (2 ^ 33 + 64) 0x8002 (chars " ffl::main:0")].
Proof.
  destruct (newSymtab_ok [exPerfSection] [exPerfSymbol]) as (t & E & Ht).
  { by repeat constructor. }
  { repeat constructor. by eexists. }
  apply (perf_file_read_back (fun _ => true) (fun _ => None) (chars "/tmp") (chars "a.elf") (Some (chars "t.rtd"))
    [exPerfSection] [exPerfSymbol] exPerfDisassembler (fun _ => 0) exPerfLines exPerfFiles).
  - done.
  - by vm_compute.
  - unfold exPerfDisassembler. rewrite E. by apply dis_new.
  - by vm_compute.
  - repeat constructor; unfold u64_ok; lia.
  - change (Forall (perfPlace (fun _ => None) exPerfDisassembler) [0x8000; 0x8000; 2 ^ 33 + 64; 0; 0x8002]).
    repeat (apply list.Forall_cons; split; [first [by left | by right; left | eapply exPerf_placed; vm_compute; reflexivity]|]).
    constructor.
Defined.
